(* ===== verification/_CoqProject ===== *)
-Q . S2P
Prelude.v
GoStrings.v
GoTime.v
Sessionizer.v
Classify.v
Platform.v
CatalogGuard.v
RateLimit.v
Cron.v
Subjects.v
Duck.v
Journal.v
Readiness.v
Persons.v
Landing.v
Batcher.v
Pipeline.v
SnapshotEnvelope.v
SnapshotStore.v
SnapshotEvidence.v
SnapshotHistory.v
DeadLetter.v
Settler.v
SourceReadiness.v
Publishing.v
SnapshotPublishing.v
ControlPlane.v
ConnectorRuns.v
SourcePolicy.v
PgSource.v
Engine.v
SnapshotControl.v
StagingCleanup.v
SnapshotCapture.v
CaptureInvariant.v
CaptureTransactions.v
CaptureWorkers.v
CaptureTraces.v
AbandonedOutbox.v
Operations.v
OpAdapters.v
OpRegistry.v
AgentPolicy.v
Principals.v
WriteGuard.v
Accounts.v
DemoQuota.v
Receipts.v
MetricTargets.v
BoardDefinition.v
Boards.v
BoardHistory.v
BoardReceipts.v
SandboxPool.v
SandboxPoolHistory.v
SandboxCopy.v
SandboxAnswers.v
IngestHandler.v
Waitlist.v
AgentSessions.v
SessionHistory.v
Alerts.v
Alerting.v
AlertTurns.v
AlertHistory.v
ProviderAccounts.v
AccountPool.v
PoolHistory.v
PoolRotation.v
PoolExamples.v
ModelTiers.v
TierResolution.v
TierCustody.v
TierUpgrade.v
TierExamples.v
