(* ===== verification/Prelude.v ===== *)
(** * AgentRay: a verification library for the data plane and its control plane

    AgentRay (src/) collects product events and rows of external sources into
    one DuckDB file per deployment colour.  Publishers put messages on a durable
    JetStream stream; each colour has a durable consumer whose worker applies
    every message to its own file and then acknowledges it; readiness compares
    the consumer's acknowledged floor with what the file shows it applied.  The
    library models this path as it is written, from a message arriving to the
    row being served, with the components around it that are pure logic.  Around the
    data stands a control plane of accounts, credentials and operations: who may call
    what, over which of four adapters, and what is refused.  It is modelled from the
    request's credential to the operation's handler.

    ** Parts and files

    Shared:
    - [Prelude] (this file): the error type [result] with the notations [try] and
      [guard] of scope [go_scope], machine integers ([u64], [i64] write the
      wrap-around out), the hint database [agentray], tactics, list lemmas.
    - [GoStrings], [GoTime]: the standard library functions the program uses.

    The durable path (internal/dataplane/ingest and internal/dataplane/store):
    - [Duck]: the tables of duckdb.go as one record of finite maps, [Write] (a
      transaction commits whole or not at all), the disk reserve.
    - [Journal]: duckdb_position.go and the writing half of data_readiness.go:
      applied positions, delivery receipts, coverage holes, source receipts, the
      ordering fence and the ambiguity bit.  One definition per transaction.
    - [Persons], [Landing]: persons_profile.go and duckdb_ingest.go: the events
      write with its person projection, connector rows, the alias mirror.
    - [Batcher]: batcher.go over arbitrary collaborators, with a trace of calls
      and settlements and the relation [run] of every interleaving of arrivals,
      flush turns and the stop.
    - [Readiness], [Subjects]: readiness.go, the boot sample, the two latches,
      the binding of a file to a durable, and the subject coverage test.  The
      class [PositionStore] is what readiness asks of a store; [duck_positions]
      discharges it with the DuckDB file.
    - [Pipeline]: the batcher over the file ([worker_collaborators]), where the
      facts of [Journal] and [Landing] become facts about acknowledgements.
    - [SnapshotEnvelope], [SnapshotStore], [SnapshotHistory]: the snapshot wire
      contract (connector/snapshot.go), each staging, promotion and cleanup
      transaction (duckdb_snapshots.go), and what any history of them leaves.
    - [SnapshotEvidence]: what a settled snapshot envelope must have left in the file.
    - [DeadLetter], [Settler]: the delivery identity and the dead-letter headers
      (queue.go, cmd/server/replay.go), and the settlement of connector messages
      (externalRowsSettler).
    - [SourceReadiness]: SourceReadiness and scheduleFreshness.
    - [Publishing], [SnapshotPublishing]: the producer's half (queue.go,
      snapshot_protocol.go): size bounds against what the JSON encoder writes,
      chunks, the three publication paths, the cutting of a snapshot.

    The connector engine (internal/dataplane/connector and the run table):
    - [ControlPlane]: the Postgres tables of runs, syncs, generations and outbox as
      one record of finite maps.
    - [ConnectorRuns]: connector_runs.go and the edits of connectors.go: the run
      table, its keys, the sync rows and the generations they touch, one
      definition per transaction and the relation [control_step] of any order of them.
    - [SourcePolicy]: source_policy.go, the admission of endpoints and dials
      (postgres.go), Open and OpenWithPolicy (connector.go).
    - [PgSource]: PullRows over a relation of rows, with the WHERE and ORDER BY the
      code builds as what PostgreSQL does with them.
    - [Engine]: the incremental run (pullAndLandRun) over the class [RowStream],
      whose laws the queue of [Publishing] discharges, and histories of runs.
    - [SnapshotControl], [StagingCleanup]: connector_snapshots.go and
      staging_retention.go: generations, their outbox, the seal, the cleanup.
    - [SnapshotCapture]: pullAndLandSnapshot as a worker [work] that makes one call
      per step, and the relation [system_step] of all workers, run-table
      transactions, crashes, cancellations and cleanups over one stream.
    - [CaptureInvariant], [CaptureTransactions], [CaptureWorkers]: the trail of a
      generation, what each transaction does to it, what a worker may rely on while
      its run holds the lease, and the invariant of every history.
    - [CaptureTraces], [AbandonedOutbox]: executions as a function sound for
      [system_step]; what a stale worker can do, and what cleanup never reaches.

    The control plane (internal/shared/opcore, internal/app, internal/dataplane/store,
    internal/dataplane/usecase and internal/runtime):
    - [Operations]: operation.go, errors.go, registry.go and auth.go of
      internal/shared/opcore: the error kinds, the schema check, one operation's [OpInvoke], the registry and
      the authorization test every adapter shares.
    - [OpAdapters]: mcp.go, http.go, tool.go and client.go of that package: the four
      adapters over one registry, as functions of the request and the world.
    - [OpRegistry]: the register functions of internal/dataplane/usecase: the table of
      the production registry's 57 operations with the access each declares, the
      legacy allowlist, [classifyOpError], [MapOpError].
    - [AgentPolicy]: policy.go, runtime.go and evidence_guard.go of internal/runtime: what a run's scopes,
      toggles and mode let it call, and the guard on published evidence.
    - [Principals]: principal.go and the grants of credentials.go: from a request to a
      principal, over the class [AuthStore] with the laws [AuthStoreLaws].
    - [WriteGuard]: demo_guard.go: the write floor in front of every mutating route.
    - [Accounts]: auth.go, credentials.go and demo.go of the store: users,
      sessions, members, invitations, projects and credentials as one record of
      finite maps, one definition per transaction; [store_of] discharges [AuthStore].
    - [DemoQuota]: demo_quota.go and the meter of agent_routes.go.

    Agent sessions (internal/dataplane/store and internal/runtime):
    - [AgentSessions]: agent_session_log.go and session_store.go: the append-only log of a
      session, its lease row, the fenced appends, the window of a resume, the adapter.
    - [SessionHistory]: any number of workers over that database, and what the lease
      excludes and the log reads back.

    Alerts (internal/dataplane/store and internal/dataplane/alerting):
    - [Alerts]: alerts.go over the account tables: rules, channels and events, the members'
      operations, the seeding of digests, the claim and the record.
    - [Alerting]: evaluate.go, digest.go and deliver.go: series and conditions on float64
      values, the digest's window and text, delivery, the minute's tick.
    - [AlertTurns]: an evaluation as the calls it makes, one per turn; left alone it is
      [evaluateRule].
    - [AlertHistory]: edits, account changes and any number of evaluators with their scans,
      call by call, as one relation [alert_step], and what holds over any order of them.

    Provider accounts (internal/dataplane/store and internal/oauth):
    - [ProviderAccounts]: workspace_providers.go (its rows), workspace_accounts.go and
      workspace_accounts_usage.go over the account tables: the vendors of a workspace, the
      accounts signed in to each, and every statement the members and the runs make.
    - [AccountPool]: pool.go, refresh.go, the pending logins of login.go and device.go, and
      usage.go: a caller that makes one call per turn, to the database, a vendor or the group
      that shares refreshes, and [pool_act_step] of any number of callers and members.
    - [PoolHistory], [PoolRotation]: what holds in any order of those acts.
    - [PoolExamples]: one history in full, and corners where the code does what it should not.

    Model tiers (internal/dataplane/store and internal/runtime):
    - [ModelTiers]: the book of workspace_providers.go and workspace_tiers.go over the same
      providers: the selection of three tiers, the row from before there were providers with
      its upgrade, what a run resolves and the key a host lends.
    - [TierResolution]: tiers.go, native_credentials.go and the client of runtime.go:
      inheritance from flash, the fallback rung, the clients of a run and the refresh of a key.
    - [TierCustody], [TierUpgrade]: whose key goes where; what a save and the upgrade keep.
    - [TierExamples]: two workspaces and a host, and corners.

    Boards and targets (internal/dataplane/store and internal/dataplane/usecase):
    - [Receipts]: runIdempotent of lifecycle.go over any tables, result and error: the
      claim, the mutation and its receipt in one transaction that may fail at each call
      or lose its commit; histories of such calls.
    - [MetricTargets]: metric_catalog.go, the periods and states of overview.go and
      metric_targets.go: the append-only history of targets and its verdicts.
    - [BoardDefinition]: the declared document of boards.go and its normalization.
    - [Boards]: the rows of dashboards and charts with every operation of lifecycle.go,
      boards.go, store.go and default_boards.go that writes them.
    - [BoardHistory]: those operations as one type of requests, the relation
      [board_step] of any order of them with the boot repairs, and what holds over it.
    - [BoardReceipts]: the tool handlers of usecase/lifecycle.go and usecase/boards.go:
      [Boards] under [Receipts], with the guards and keys the handlers add.

    The sandbox of untrusted queries (internal/dataplane/store/duckdb_sandbox.go and
    duckdb_sandbox_worker.go):
    - [SandboxPool]: the pool of child processes: the state under its mutex, the phases of
      its callers, one [step] per atomic action, and the eviction loop.
    - [SandboxPoolHistory]: what holds of the pool in any order of those actions.
    - [SandboxCopy]: the incremental copy of a project's rows into a child, over any order
      of keys; histories of landings, deletions and refreshes.
    - [SandboxAnswers]: the rendering of values, the caps and the errors of an answer.

    The public door (internal/dataplane/ingest and internal/dataplane/store):
    - [IngestHandler], [Platform]: handler.go, properties.go and platform.go: from a decoded
      body to the event that is written, through [Classify], [Sessionizer] and [CatalogGuard].
    - [Waitlist]: waitlist.go over the waitlist_signups table of validation.go; histories of
      submissions and removals.

    Around it: [Sessionizer], [Classify], [CatalogGuard], [RateLimit] (files of
    the same names in internal/dataplane/ingest), [Cron] (both cron matchers).

    A definition has the name of the Go function it translates; a fragment of a
    function that has no name in the source has a descriptive one.  Each file
    states its definitions first, then lemmas, then its properties (numbered),
    then closed witnesses that apply the properties to concrete inputs.

    ** What the properties show

    - Durability: an acknowledged message is in the file and under its position
      ([Pipeline]); settlements happen once and after the records they claim
      ([Batcher], [Settler]); capacity errors only redeliver.
    - Loss is never forgotten: a hole is closed only by a replay of the lost
      message ([Journal]), whose identity survives the dead-letter stream
      ([DeadLetter]); a retention loss keeps a colour out of service across
      restarts; a ready process was bound to a file that reached the floor; a
      healthy one is not refused ([Readiness], [Pipeline]).
    - Ordering: a replaced generation stays replaced, ambiguity is sticky, a
      delayed run never overwrites a newer one ([Journal], [Landing]).
    - Snapshots: published all at once and whole, under any failures, orders and
      cleanups ([SnapshotStore], [SnapshotHistory]).
    - Captures: a completion on the stream comes after exactly the batches it counts,
      one generation per source can be claimed, and only a sealed one completes
      ([CaptureWorkers]), provided no worker reads its generation again after another
      run claimed it, which the code does not ensure ([CaptureTraces]); a generation
      that ends with an envelope unpublished leaks ([AbandonedOutbox]).
    - Answers: a source is answered ready only on complete evidence
      ([SourceReadiness]); the exact verdicts of the replay and coverage tests.
    - Publication: every message fits the broker, in order and without a gap;
      the cutting of a snapshot ends, with distinct deduplication ids
      ([Publishing], [SnapshotPublishing]).
    - Connector runs: a run refines a reader of the relation in (cursor, key)
      order and its completion counts what was sent; over a relation that changes before
      every pull the position never outruns the stream for rows that stay as they were
      beyond it ([Engine]); one active run per sync and keys bound for ever
      ([ConnectorRuns]); a source opens only inside the policy ([SourcePolicy]).
    - Authority: whatever an adapter does to the world, it does through a handler whose
      operation the caller's principal may call ([OpAdapters]); a session's rights are
      a function of role and demo ([Principals]); the write floor and the resolver
      behind it agree on the project ([WriteGuard]); a run calls only its scopes'
      tools, a read-only one no writing tool ([AgentPolicy]).
    - Accounts: the life of a minted secret, the credential split, and when a
      workspace can lose its last owner ([Accounts]); what the demo's budget admits
      and what a refund after midnight does to it ([DemoQuota]).
    - Boards: of the writes that carry one revision at most one is applied, and it finds
      the row its caller read, up to what a boot repair does to it ([BoardHistory]); an accepted document
      is bounded and stable ([BoardDefinition]) and is served whole; targets are dated and
      never rewritten ([MetricTargets]).
    - Retries: a keyed mutation is applied at most once and its first result answers
      every later call, lost answers included ([Receipts], [BoardReceipts]).
    - Untrusted queries: a lease keeps a child of its own project open, what the pool counts
      is bounded, nobody waits for nothing and the eviction ends ([SandboxPool],
      [SandboxPoolHistory]); a refresh leaves the child with exactly the snapshot
      ([SandboxCopy]); an answer is whole, within the caps, or one error, and in a
      form that JSON carries unless it holds a time outside the years 0 to 9999
      ([SandboxAnswers]).
    - The public door: a batch is written whole or not at all and an observation, put in
      any of the forms the wire allows, comes back as the event that shows it
      ([IngestHandler]); joins and removals of an address balance, exactly where no
      submission reads a stale snapshot and otherwise up to those that do, and the reply
      tells nothing of the list until it is full ([Waitlist]).
    - Sessions: an owner whose lease another has claimed writes nothing more, a log reads
      back exactly the batches that landed, a resume window misses nothing
      ([SessionHistory]).
    - Alerts: notifications stay in the rule's workspace, evaluations keep their distance,
      digest windows tile time while a rule's evaluations do not overlap, which its claim
      alone does not ensure, and with one evaluator a breach is announced once until it
      recovers ([AlertHistory]) and reaches every channel of its rule ([Alerting]).
    - Provider accounts: a token stays in the pool of the account it was given to, one refresh
      of an account is under way and serves all who wait, every call for a token ends
      ([PoolHistory]), and the accounts take turns between picks whose statements do not
      overlap ([PoolRotation]).
    - Model tiers: the host's key goes only to the host's endpoint and a provider's key goes
      with its row ([TierCustody]); an accepted selection of a workspace with providers is the one
      that is loaded, and the upgrade at boot changes nothing of what runs resolve where the
      old row's keys decrypt ([TierUpgrade]).
    - Errors: a handler's kind and message reach the caller of either adapter
      unchanged ([OpAdapters]).
    - The smaller components: session tables, classifiers, limiters, cron, with
      the places where code and comment differ proved as theorems.

    ** Bounds and fuel

    Recursion is structural except where noted: [chunks_fuel] takes as much fuel
    as there are rows and every chunk takes at least one; [itoa] prints at most
    twenty digits, enough for 64 bits; [build_from] has two turns per row and every
    turn emits a chunk or halves one; an [Acquire] takes at most eight picks of at most seven turns; [schedule_hits] scans the 46080 minutes
    the code scans; retries count down their attempts.  Instants are nanoseconds
    in [Z]; [time_sub] saturates as Go's does; counters and sequence numbers
    that the code keeps in 64 bits are wrapped where arithmetic is done on them.
    A run pulls at most 200 pages of 1000 rows, the code's own bounds, as the
    structural argument of [pull_loop].  [evict_loop] gets one turn more than the square
    of the list's length and the length, and every turn lowers [turns], which starts
    below that.

    ** What is not modelled

    The broker, Postgres, Redis and the DuckDB engine appear through the calls
    the code makes: which of them fail, and what they answer, are arguments.
    JSON text, SHA-256, UUID parsing and time formatting are classes with the
    laws the code relies on and a concrete instance each.  [strings.ToLower]
    and [strings.TrimSpace] are modelled on ASCII.  Passwords and
    the random secrets are arguments with the law that they are fresh.  The renderings of
    fmt and the queries an alert reads are arguments.  Of the provider accounts a pick is
    the snapshot its statement sorts and the row it then locks, one step each, and the requests to vendors, the identities read from their answers and the vendors'
    normalization are arguments.  Of the model tiers a stored key stands for what it decrypts
    to, the windows and capabilities of models are arguments, and the row a first migration
    makes from the projects' own settings is left out.  The fingerprint of a
    tool's input is a class without laws: it is only compared.  The bodies of the
    57 operations' handlers are a parameter of the registry; those of boards, charts and
    targets are in [BoardReceipts].  Of the sandbox the processes are left out, of their
    pipes only which values a frame carries and how long it may be is modelled;
    after the shutdown its pool has no invariant, and what then goes wrong is an example.  The
    regular expressions
    that find evidence identifiers in a text, the templates and the chart they seed, the
    backfill at boot, the decoding of an ingest body, the rest of the HTTP routes and of the
    Postgres control plane, the engine's scheduling, the retention sweep's paging, the
    model loop of the agent runtime and the command line are left out. *)

From stdpp Require Export base list gmap strings relations.
From Stdlib Require Export ZArith Lia Bool.

#[export] Set Default Proof Using "Type".

(** ** Fallible code

    A Go function that returns [(T, error)] is a function into [result E T]. *)

Inductive result (E A : Type) : Type :=
| Ok (a : A)
| Err (e : E).
Arguments Ok {E A} a.
Arguments Err {E A} e.

Definition is_ok {E A} (r : result E A) : bool :=
  match r with Ok _ => true | Err _ => false end.

Definition result_bind {E A B} (r : result E A) (f : A -> result E B) : result E B :=
  match r with Ok a => f a | Err e => Err e end.

Definition result_map_err {E F A} (f : E -> F) (r : result E A) : result F A :=
  match r with Ok a => Ok a | Err e => Err (f e) end.

Definition ok_or {E A} (a : A) (r : result E A) : A := match r with Ok x => x | Err _ => a end.

Lemma ok_or_Ok {E A} (a : A) (r : result E A) : is_ok r = true -> r = Ok (ok_or a r).
Proof. by destruct r. Qed.

Definition is_some {A} (o : option A) : bool := match o with Some _ => true | None => false end.

Lemma default_Some {A} (a : A) (o : option A) : is_some o = true -> o = Some (default a o).
Proof. by destruct o. Qed.

Declare Scope go_scope.
Delimit Scope go_scope with go.

Notation "'try' x := e 'in' k" := (result_bind e (fun x => k))
  (at level 10, x name, e at level 100, k at level 200) : go_scope.
Notation "'guard' b 'else' e 'in' k" := (if b then k else Err e)
  (at level 10, b at level 100, e at level 100, k at level 200) : go_scope.

(** ** Machine integers *)

Definition two63 : Z := 9223372036854775808.
Definition two64 : Z := 18446744073709551616.

(** [uint64] arithmetic wraps modulo 2^64. *)
Definition u64 (z : Z) : Z := (z mod two64)%Z.

(** [int64] arithmetic wraps in two's complement. *)
Definition i64 (z : Z) : Z := ((z + two63) mod two64 - two63)%Z.

Definition max_i64 : Z := (two63 - 1)%Z.
Definition min_i64 : Z := (- two63)%Z.

Lemma u64_small z : (0 <= z < two64)%Z -> u64 z = z.
Proof. intros H. unfold u64. by apply Z.mod_small. Qed.

Lemma u64_range z : (0 <= u64 z < two64)%Z.
Proof. unfold u64. apply Z.mod_pos_bound. reflexivity. Qed.

Lemma i64_small z : (min_i64 <= z <= max_i64)%Z -> i64 z = z.
Proof.
  unfold i64, min_i64, max_i64, two63, two64. intros H.
  rewrite Z.mod_small; lia.
Qed.

Lemma i64_range z : (min_i64 <= i64 z <= max_i64)%Z.
Proof.
  unfold i64, min_i64, max_i64, two63, two64.
  pose proof (Z.mod_pos_bound (z + 9223372036854775808) 18446744073709551616 eq_refl). lia.
Qed.

(** ** Automation *)

Create HintDb agentray.
Create Rewrite HintDb agentray.
#[export] Hint Resolve u64_range i64_range : agentray.

(** Turns the boolean tests of the code into propositions. *)
Ltac bool_props :=
  repeat match goal with
  | H : _ && _ = true |- _ => apply andb_true_iff in H; destruct H
  | H : _ || _ = false |- _ => apply orb_false_iff in H; destruct H
  | H : negb _ = true |- _ => apply negb_true_iff in H
  | H : negb _ = false |- _ => apply negb_false_iff in H
  | H : (_ =? _)%Z = true |- _ => apply Z.eqb_eq in H
  | H : (_ =? _)%Z = false |- _ => apply Z.eqb_neq in H
  | H : (_ <? _)%Z = true |- _ => apply Z.ltb_lt in H
  | H : (_ <? _)%Z = false |- _ => apply Z.ltb_ge in H
  | H : (_ <=? _)%Z = true |- _ => apply Z.leb_le in H
  | H : (_ <=? _)%Z = false |- _ => apply Z.leb_gt in H
  | H : (_ >? _)%Z = true |- _ => rewrite Z.gtb_ltb in H; apply Z.ltb_lt in H
  | H : (_ >? _)%Z = false |- _ => rewrite Z.gtb_ltb in H; apply Z.ltb_ge in H
  | H : (_ >=? _)%Z = true |- _ => rewrite Z.geb_leb in H; apply Z.leb_le in H
  | H : (_ >=? _)%Z = false |- _ => rewrite Z.geb_leb in H; apply Z.leb_gt in H
  | H : (_ =? _)%nat = true |- _ => apply Nat.eqb_eq in H
  | H : (_ =? _)%nat = false |- _ => apply Nat.eqb_neq in H
  | H : (_ <? _)%nat = true |- _ => apply Nat.ltb_lt in H
  | H : (_ <? _)%nat = false |- _ => apply Nat.ltb_ge in H
  | H : (_ <=? _)%nat = true |- _ => apply Nat.leb_le in H
  | H : (_ <=? _)%nat = false |- _ => apply Nat.leb_gt in H
  | H : String.eqb _ _ = true |- _ => apply String.eqb_eq in H
  | H : String.eqb _ _ = false |- _ => apply String.eqb_neq in H
  | H : Ascii.eqb _ _ = true |- _ => apply Ascii.eqb_eq in H
  | H : Ascii.eqb _ _ = false |- _ => apply Ascii.eqb_neq in H
  | H : bool_decide _ = true |- _ => apply bool_decide_eq_true in H
  | H : bool_decide _ = false |- _ => apply bool_decide_eq_false in H
  end.

(** Case analysis on the innermost test of the goal or of a hypothesis. *)
Ltac split_ifs :=
  intros; repeat (case_match; bool_props; simplify_eq/=; try done).

(** ** Propositions *)

Lemma forall_iff_impl (P Q R : Prop) : (P -> (Q <-> R)) -> ((P -> Q) <-> (P -> R)).
Proof. tauto. Qed.

(** ** Step relations *)

Section Invariants.
Context {S : Type} (step : S -> S -> Prop) (I : S -> Prop).

(** A predicate every step preserves holds in every reachable state. *)
Lemma rtc_invariant :
  (forall s s', step s s' -> I s -> I s') ->
  forall s s', rtc step s s' -> I s -> I s'.
Proof. intros Hstep s s' Hr. induction Hr; eauto. Qed.
End Invariants.

(** ** Lists *)

(** The Go loop [for _, x := range xs { if p(x) { return true } }; return false]. *)
Lemma existsb_False {A} (p : A -> bool) (l : list A) :
  existsb p l = false <-> (forall x, x ∈ l -> p x = false).
Proof.
  induction l as [|x l IH]; simpl.
  - split; [intros _ x Hx; by apply not_elem_of_nil in Hx | done].
  - rewrite orb_false_iff, IH. split.
    + intros [Hx Hl] y Hy. apply elem_of_cons in Hy as [->|Hy]; auto.
    + intros H. split; [apply H; left | intros y Hy; apply H; by right].
Qed.

Lemma existsb_True {A} (p : A -> bool) (l : list A) :
  existsb p l = true <-> (exists x, x ∈ l /\ p x = true).
Proof.
  rewrite existsb_exists. by setoid_rewrite <- list_elem_of_In.
Qed.

Lemma forallb_True' {A} (p : A -> bool) (l : list A) :
  forallb p l = true <-> (forall x, x ∈ l -> p x = true).
Proof.
  rewrite forallb_forall. by setoid_rewrite <- list_elem_of_In.
Qed.

(** The Go loop that returns the first element satisfying [p]. *)
Fixpoint find_first {A} (p : A -> bool) (l : list A) : option A :=
  match l with
  | [] => None
  | x :: l' => if p x then Some x else find_first p l'
  end.

Lemma find_first_Some {A} (p : A -> bool) l x :
  find_first p l = Some x -> x ∈ l /\ p x = true.
Proof.
  induction l as [|y l IH]; simpl; [done|]. destruct (p y) eqn:Hy.
  - intros [= ->]. split; [left | done].
  - intros H. destruct (IH H). split; [by right | done].
Qed.

Lemma find_first_None {A} (p : A -> bool) l :
  find_first p l = None <-> (forall x, x ∈ l -> p x = false).
Proof.
  induction l as [|y l IH]; simpl.
  - split; [intros _ x Hx; by apply not_elem_of_nil in Hx | done].
  - destruct (p y) eqn:Hy.
    + split; [done|]. intros H. rewrite (H y) in Hy by left. done.
    + rewrite IH. split.
      * intros H x Hx. apply elem_of_cons in Hx as [->|Hx]; auto.
      * intros H x Hx. apply H. by right.
Qed.

(** Where an element of a concatenation is. *)
Lemma app_cons_split {A} (l k pre : list A) x post : l ++ k = pre ++ x :: post ->
  (exists post', l = pre ++ x :: post') \/ (exists mid, pre = l ++ mid /\ k = mid ++ x :: post).
Proof.
  intros E. apply app_eq_app in E as [m [[-> Em]|[-> Em]]]; [|right; by exists m].
  destruct m as [|y m]; cbn in Em; [right; exists []; by rewrite !app_nil_r|]. injection Em as -> _. left. by exists m.
Qed.

Lemma NoDup_snoc {A} (l : list A) x : NoDup l -> x ∉ l -> NoDup (l ++ [x]).
Proof.
  intros Hl Hx. apply NoDup_app. split_and!; [done| |apply NoDup_singleton].
  intros y Hy Hy'. apply list_elem_of_singleton in Hy' as ->. done.
Qed.

#[export] Hint Resolve find_first_Some NoDup_snoc : agentray.
