(* ===== verification/GoStrings.v ===== *)
(** * GoStrings: the part of Go's [strings] and [strconv] the program uses

    A Go string is a Rocq [string], one [ascii] per byte.  [ToLower] and
    [TrimSpace] are modelled on ASCII: a byte of 0x80 and above is left as it
    is and is not a space. *)

From S2P Require Import Prelude.
From Stdlib Require Import Ascii.
Import String.
Open Scope Z_scope.

(** ** Bytes *)

Definition byte (c : ascii) : Z := Z.of_N (N_of_ascii c).

Definition is_space (c : ascii) : bool :=
  let b := byte c in
  (b =? 32) || ((9 <=? b) && (b <=? 13)).

Definition lower_byte (c : ascii) : ascii :=
  let b := N_of_ascii c in
  if ((65 <=? b)%N && (b <=? 90)%N)%bool then ascii_of_N (b + 32) else c.

Definition is_digit (c : ascii) : bool :=
  (48 <=? byte c) && (byte c <=? 57).

(** ** Whole strings *)

Definition has_prefix (s p : string) : bool := String.prefix p s.

Fixpoint rev_append_string (s acc : string) : string :=
  match s with
  | EmptyString => acc
  | String c s' => rev_append_string s' (String c acc)
  end.

Definition rev_string (s : string) : string := rev_append_string s EmptyString.

Fixpoint has_suffix (s p : string) : bool :=
  String.eqb s p ||
  match s with
  | EmptyString => false
  | String _ s' => has_suffix s' p
  end.

(** [strings.Index]: the first position of [sub], [None] for -1. *)
Fixpoint index_of (s sub : string) : option nat :=
  if String.prefix sub s then Some 0%nat
  else match s with
       | EmptyString => None
       | String _ s' => S <$> index_of s' sub
       end.

Definition contains (s sub : string) : bool :=
  match index_of s sub with Some _ => true | None => false end.

Fixpoint index_byte (s : string) (c : ascii) : option nat :=
  match s with
  | EmptyString => None
  | String a s' => if Ascii.eqb a c then Some 0%nat else S <$> index_byte s' c
  end.

Fixpoint last_index_byte (s : string) (c : ascii) : option nat :=
  match s with
  | EmptyString => None
  | String a s' =>
      match last_index_byte s' c with
      | Some i => Some (S i)
      | None => if Ascii.eqb a c then Some 0%nat else None
      end
  end.

(** [s[:n]] and [s[n:]]. *)
Fixpoint take_str (n : nat) (s : string) : string :=
  match n, s with
  | S n', String a s' => String a (take_str n' s')
  | _, _ => EmptyString
  end.

Fixpoint drop_str (n : nat) (s : string) : string :=
  match n, s with
  | S n', String _ s' => drop_str n' s'
  | O, _ => s
  | _, EmptyString => EmptyString
  end.

Fixpoint map_str (f : ascii -> ascii) (s : string) : string :=
  match s with
  | EmptyString => EmptyString
  | String a s' => String (f a) (map_str f s')
  end.

Definition to_lower (s : string) : string := map_str lower_byte s.

Fixpoint trim_left (s : string) : string :=
  match s with
  | EmptyString => EmptyString
  | String a s' => if is_space a then trim_left s' else s
  end.

Fixpoint trim_right (s : string) : string :=
  match s with
  | EmptyString => EmptyString
  | String a s' =>
      match trim_right s' with
      | EmptyString => if is_space a then EmptyString else String a EmptyString
      | r => String a r
      end
  end.

Definition trim_space (s : string) : string := trim_right (trim_left s).

(** [strings.Trim{Prefix,Suffix}]. *)
Definition trim_prefix (s p : string) : string :=
  if has_prefix s p then drop_str (String.length p) s else s.

Definition trim_suffix (s p : string) : string :=
  if has_suffix s p then take_str (String.length s - String.length p) s else s.

Fixpoint exists_byte (p : ascii -> bool) (s : string) : bool :=
  match s with
  | EmptyString => false
  | String a s' => p a || exists_byte p s'
  end.

(** [strings.ContainsAny]. *)
Definition contains_any (s chars : string) : bool :=
  exists_byte (fun a => exists_byte (Ascii.eqb a) chars) s.

(** [strings.Split] on a one-byte separator: never empty. *)
Fixpoint split_byte (c : ascii) (s : string) : list string :=
  match s with
  | EmptyString => [EmptyString]
  | String a s' =>
      if Ascii.eqb a c then EmptyString :: split_byte c s'
      else match split_byte c s' with
           | [] => [String a EmptyString]
           | t :: ts => String a t :: ts
           end
  end.

Fixpoint join_byte (c : ascii) (ts : list string) : string :=
  match ts with
  | [] => EmptyString
  | [t] => t
  | t :: ts' => String.append t (String c (join_byte c ts'))
  end.

(** [strings.Fields]: the maximal runs of non-space bytes. *)
Fixpoint fields_aux (s : string) (cur : string) : list string :=
  match s with
  | EmptyString => match cur with EmptyString => [] | _ => [rev_string cur] end
  | String a s' =>
      if is_space a
      then match cur with
           | EmptyString => fields_aux s' EmptyString
           | _ => rev_string cur :: fields_aux s' EmptyString
           end
      else fields_aux s' (String a cur)
  end.

Definition fields (s : string) : list string := fields_aux s EmptyString.

(** [strconv.Atoi]: an optional sign and decimal digits within int64. *)
Fixpoint digits_value (acc : Z) (s : string) : option Z :=
  match s with
  | EmptyString => Some acc
  | String a s' =>
      if is_digit a then digits_value (acc * 10 + (byte a - 48)) s' else None
  end.

Definition atoi_magnitude (s : string) : option Z :=
  match s with
  | EmptyString => None
  | _ => digits_value 0 s
  end.

Definition in_i64 (z : Z) : bool := (min_i64 <=? z) && (z <=? max_i64).

Definition atoi (s : string) : option Z :=
  let signed (neg : bool) (t : string) :=
    match atoi_magnitude t with
    | Some n => let v := if neg then - n else n in
                if in_i64 v then Some v else None
    | None => None
    end in
  match s with
  | String a s' =>
      if Ascii.eqb a "-"%char then signed true s'
      else if Ascii.eqb a "+"%char then signed false s'
      else signed false s
  | EmptyString => None
  end.

(** [strconv.Itoa] and [fmt.Sprint] of a non-negative integer. *)
Definition digit_char (d : Z) : ascii := ascii_of_N (Z.to_N (48 + d)).

Fixpoint itoa_fuel (fuel : nat) (n : Z) (acc : string) : string :=
  match fuel with
  | O => acc
  | S f => let acc' := String (digit_char (n mod 10)) acc in
           if n <? 10 then acc' else itoa_fuel f (n / 10) acc'
  end.

(** Twenty digits are enough for a 64-bit integer. *)
Definition itoa (n : Z) : string :=
  if n <? 0 then String "-"%char (itoa_fuel 20 (- n) EmptyString)
  else itoa_fuel 20 n EmptyString.

(** ** Lemmas *)

Lemma split_byte_nonempty c s : split_byte c s <> [].
Proof. destruct s as [|a s]; simpl; [done|]. repeat case_match; done. Qed.

Lemma split_byte_length c s : (1 <= length (split_byte c s))%nat.
Proof. pose proof (split_byte_nonempty c s). destruct (split_byte c s); simpl; [done|lia]. Qed.

Lemma append_cons_str a s t : String.append (String a s) t = String a (String.append s t).
Proof. done. Qed.

Lemma join_byte_head c a t ts :
  join_byte c (String a t :: ts) = String a (join_byte c (t :: ts)).
Proof. by destruct ts. Qed.

(** Joining what [Split] returned gives the string back. *)
Lemma join_split c s : join_byte c (split_byte c s) = s.
Proof.
  induction s as [|a s IH]; [done|]. simpl. destruct (Ascii.eqb a c) eqn:E; bool_props.
  - subst. destruct (split_byte c s) eqn:Hs; [by apply split_byte_nonempty in Hs|].
    simpl in *. by rewrite IH.
  - destruct (split_byte c s) as [|t ts] eqn:Hs; [by apply split_byte_nonempty in Hs|].
    by rewrite join_byte_head, IH.
Qed.

Lemma split_byte_inj c s t : split_byte c s = split_byte c t -> s = t.
Proof. intros H. rewrite <- (join_split c s), <- (join_split c t). by rewrite H. Qed.

Lemma exists_byte_append p s t :
  exists_byte p (String.append s t) = exists_byte p s || exists_byte p t.
Proof. induction s as [|a s IH]; [done|]. rewrite append_cons_str. simpl. by rewrite IH, orb_assoc. Qed.

(** No token of a split contains the bytes the whole string does not contain. *)
Lemma split_byte_exists p c s t :
  exists_byte p s = false -> t ∈ split_byte c s -> exists_byte p t = false.
Proof.
  revert t. induction s as [|a s IH]; simpl; intros t Hp Ht.
  - by apply list_elem_of_singleton in Ht as ->.
  - apply orb_false_iff in Hp as [Ha Hs]. destruct (Ascii.eqb a c).
    + apply elem_of_cons in Ht as [->|Ht]; auto.
    + destruct (split_byte c s) as [|u us] eqn:Hsp.
      * apply list_elem_of_singleton in Ht as ->. simpl. by rewrite Ha.
      * apply elem_of_cons in Ht as [->|Ht].
        -- simpl. rewrite Ha. apply IH; [done | left].
        -- apply IH; [done | by right].
Qed.

Lemma has_suffix_refl s : has_suffix s s = true.
Proof. destruct s; cbn [has_suffix]; by rewrite String.eqb_refl. Qed.

Lemma take_drop_str n s : String.append (take_str n s) (drop_str n s) = s.
Proof. revert n. induction s as [|a s IH]; intros [|n]; simpl; [done..|]. by rewrite append_cons_str, IH. Qed.

Lemma prefix_empty s : String.prefix EmptyString s = true.
Proof. by destruct s. Qed.

Lemma contains_empty s : contains s EmptyString = true.
Proof. unfold contains. destruct s; done. Qed.

Lemma exists_byte_take p n s : exists_byte p s = false -> exists_byte p (take_str n s) = false.
Proof.
  revert n. induction s as [|a s IH]; intros [|n]; simpl; [done..|].
  intros [? ?]%orb_false_iff. apply orb_false_iff. auto.
Qed.

Lemma exists_byte_drop p n s : exists_byte p s = false -> exists_byte p (drop_str n s) = false.
Proof.
  revert n. induction s as [|a s IH]; intros [|n]; simpl; [done..|].
  intros [? ?]%orb_false_iff. auto.
Qed.

(** Cutting at the first occurrence of [c] leaves a string without [c]. *)
Lemma index_byte_take s c i :
  index_byte s c = Some i -> exists_byte (Ascii.eqb c) (take_str i s) = false.
Proof.
  revert i. induction s as [|a s IH]; intros i; simpl; [done|].
  destruct (Ascii.eqb a c) eqn:E; [by intros [= <-]|].
  destruct (index_byte s c) as [j|]; simpl; [|done]. intros [= <-]. simpl.
  rewrite Ascii.eqb_sym, E. by apply IH.
Qed.

Lemma index_byte_None s c :
  index_byte s c = None -> exists_byte (Ascii.eqb c) s = false.
Proof.
  induction s as [|a s IH]; simpl; [done|].
  destruct (Ascii.eqb a c) eqn:E; [done|].
  destruct (index_byte s c); simpl; [done|]. intros _.
  rewrite Ascii.eqb_sym, E. by apply IH.
Qed.

Lemma trim_left_exists p s : exists_byte p s = false -> exists_byte p (trim_left s) = false.
Proof.
  induction s as [|a s IH]; simpl; [done|]. intros [? ?]%orb_false_iff.
  destruct (is_space a); [auto|]. simpl. by apply orb_false_iff.
Qed.

Lemma trim_right_exists p s : exists_byte p s = false -> exists_byte p (trim_right s) = false.
Proof.
  induction s as [|a s IH]; simpl; [done|]. intros [Ha Hs]%orb_false_iff.
  specialize (IH Hs). destruct (trim_right s); [destruct (is_space a)|]; simpl in *;
    rewrite ?Ha; auto.
Qed.

Lemma trim_space_exists p s : exists_byte p s = false -> exists_byte p (trim_space s) = false.
Proof. intros. by apply trim_right_exists, trim_left_exists. Qed.

Lemma trim_right_nospace s : exists_byte is_space s = false -> trim_right s = s.
Proof.
  induction s as [|a s IH]; simpl; [done|]. intros [Ha Hs]%orb_false_iff.
  rewrite IH by done. destruct s; [by rewrite Ha | done].
Qed.

Lemma trim_left_idemp s : trim_left (trim_left s) = trim_left s.
Proof.
  induction s as [|a s IH]; simpl; [done|]. destruct (is_space a) eqn:E; [done|].
  simpl. by rewrite E.
Qed.

Lemma trim_right_idemp s : trim_right (trim_right s) = trim_right s.
Proof.
  induction s as [|a s IH]; simpl; [done|]. destruct (trim_right s) eqn:E.
  - destruct (is_space a) eqn:Ea; simpl; [done | by rewrite Ea].
  - change (trim_right (String a (String a0 s0))) with
      (match trim_right (String a0 s0) with
       | EmptyString => if is_space a then EmptyString else String a EmptyString
       | r => String a r end).
    by rewrite IH.
Qed.

Lemma trim_left_right s : trim_left (trim_right (trim_left s)) = trim_right (trim_left s).
Proof.
  induction s as [|a s IH]; simpl; [done|]. destruct (is_space a) eqn:E; [done|].
  simpl. destruct (trim_right s); rewrite ?E; simpl; by rewrite E.
Qed.

(** [TrimSpace] is idempotent. *)
Lemma trim_space_idemp s : trim_space (trim_space s) = trim_space s.
Proof. unfold trim_space. by rewrite trim_left_right, trim_right_idemp. Qed.

Lemma lower_byte_idemp c : lower_byte (lower_byte c) = lower_byte c.
Proof. by destruct c as [[] [] [] [] [] [] [] []]. Qed.

Lemma to_lower_idemp s : to_lower (to_lower s) = to_lower s.
Proof.
  unfold to_lower. induction s as [|a s IH]; simpl; [done|]. by rewrite IH, lower_byte_idemp.
Qed.

Lemma is_space_lower c : is_space (lower_byte c) = is_space c.
Proof. by destruct c as [[] [] [] [] [] [] [] []]. Qed.

Lemma trim_left_lower s : trim_left (to_lower s) = to_lower (trim_left s).
Proof.
  induction s as [|a s IH]; simpl; [done|]. rewrite is_space_lower.
  destruct (is_space a); [apply IH | done].
Qed.

Lemma trim_right_lower s : trim_right (to_lower s) = to_lower (trim_right s).
Proof.
  induction s as [|a s IH]; simpl; [done|]. unfold to_lower in *. rewrite IH.
  destruct (trim_right s); simpl; [|done]. rewrite is_space_lower. by destruct (is_space a).
Qed.

(** [TrimSpace] and [ToLower] commute on ASCII. *)
Lemma trim_space_lower s : trim_space (to_lower s) = to_lower (trim_space s).
Proof. unfold trim_space. by rewrite trim_left_lower, trim_right_lower. Qed.

(** ** Cutting a concatenation *)

Lemma index_of_byte s c : index_of s (String c EmptyString) = index_byte s c.
Proof.
  induction s as [|a s IH]; [done|]. cbn [index_of index_byte String.prefix].
  destruct (ascii_dec c a) as [->|Hne].
  - by rewrite prefix_empty, Ascii.eqb_refl.
  - rewrite (proj2 (Ascii.eqb_neq a c)) by congruence. by rewrite IH.
Qed.

Lemma index_byte_free s c : exists_byte (Ascii.eqb c) s = false -> index_byte s c = None.
Proof.
  induction s as [|a s IH]; simpl; [done|]. intros [Ha Hs]%orb_false_iff.
  rewrite Ascii.eqb_sym, Ha, IH by done. done.
Qed.

Lemma index_byte_append s c t :
  exists_byte (Ascii.eqb c) s = false ->
  index_byte (String.append s (String c t)) c = Some (String.length s).
Proof.
  induction s as [|a s IH]; intros H.
  - change (index_byte (String c t) c = Some 0%nat). cbn. by rewrite Ascii.eqb_refl.
  - rewrite append_cons_str. cbn in *. apply orb_false_iff in H as [Ha Hs].
    rewrite Ascii.eqb_sym, Ha, IH by done. done.
Qed.

Lemma take_append s t : take_str (String.length s) (String.append s t) = s.
Proof. induction s as [|a s IH]; [by destruct t|]. rewrite append_cons_str. simpl. by rewrite IH. Qed.

Lemma drop_append s c t :
  drop_str (String.length s + 1) (String.append s (String c t)) = t.
Proof. induction s as [|a s IH]; [by destruct t|]. rewrite append_cons_str. simpl. apply IH. Qed.

Lemma split_byte_free c t : exists_byte (Ascii.eqb c) t = false -> split_byte c t = [t].
Proof.
  induction t as [|a t IH]; simpl; [done|]. intros [Ha Ht]%orb_false_iff.
  rewrite Ascii.eqb_sym, Ha, IH by done. done.
Qed.

Lemma split_byte_append c t u :
  exists_byte (Ascii.eqb c) t = false ->
  split_byte c (String.append t (String c u)) = t :: split_byte c u.
Proof.
  induction t as [|a t IH]; intros H.
  - change (split_byte c (String c u) = EmptyString :: split_byte c u). cbn.
    by rewrite Ascii.eqb_refl.
  - rewrite append_cons_str. cbn in *. apply orb_false_iff in H as [Ha Ht].
    rewrite Ascii.eqb_sym, Ha, IH by done. done.
Qed.

(** Splitting what was joined from separator-free tokens gives the tokens back. *)
Lemma split_join c ts : ts <> [] ->
  (forall t, t ∈ ts -> exists_byte (Ascii.eqb c) t = false) ->
  split_byte c (join_byte c ts) = ts.
Proof.
  induction ts as [|t ts IH]; [done|]. intros _ H.
  destruct ts as [|u ts].
  - simpl. apply split_byte_free, H. by left.
  - change (join_byte c (t :: u :: ts)) with (String.append t (String c (join_byte c (u :: ts)))).
    rewrite split_byte_append by (apply H; by left). f_equal.
    apply IH; [done|]. intros v Hv. apply H. by right.
Qed.

Lemma trim_left_nospace s : exists_byte is_space s = false -> trim_left s = s.
Proof. destruct s as [|a s]; simpl; [done|]. intros [Ha _]%orb_false_iff. by rewrite Ha. Qed.

Lemma trim_space_nospace s : exists_byte is_space s = false -> trim_space s = s.
Proof. intros H. unfold trim_space. by rewrite trim_left_nospace, trim_right_nospace. Qed.

(** ** Fields *)

Lemma rev_append_string_spec s acc :
  rev_append_string s acc = String.append (rev_string s) acc.
Proof.
  unfold rev_string. revert acc. induction s as [|a s IH]; intros acc; [done|].
  simpl. rewrite IH, (IH (String a EmptyString)).
  generalize (rev_append_string s EmptyString). clear. intros u.
  induction u as [|b u IH]; [done|]. by rewrite !append_cons_str, IH.
Qed.

Lemma rev_append_app t u acc :
  rev_append_string (rev_append_string t u) acc = rev_append_string u (String.append t acc).
Proof.
  revert u. induction t as [|a t IH]; intros u; [done|]. simpl. by rewrite IH.
Qed.

Lemma append_empty_r s : String.append s EmptyString = s.
Proof. induction s as [|a s IH]; [done|]. by rewrite append_cons_str, IH. Qed.

Lemma fields_aux_word t s cur : exists_byte is_space t = false ->
  fields_aux (String.append t s) cur = fields_aux s (rev_append_string t cur).
Proof.
  revert cur. induction t as [|a t IH]; intros cur H; [done|].
  rewrite append_cons_str. cbn in *. apply orb_false_iff in H as [Ha Ht].
  rewrite Ha. by apply IH.
Qed.

Lemma rev_append_cons a s u : exists b v, rev_append_string (String a s) u = String b v.
Proof.
  revert a u. induction s as [|c s IH]; intros a u; simpl; [by eexists _, _|].
  destruct (IH c (String a u)) as (b & v & H). simpl in H. eauto.
Qed.

Lemma fields_aux_flush t s :
  t <> EmptyString ->
  fields_aux (String " "%char s) (rev_append_string t EmptyString) = t :: fields_aux s EmptyString.
Proof.
  intros Ht. destruct t as [|a t]; [done|].
  destruct (rev_append_cons a t EmptyString) as (b & v & E).
  cbn [fields_aux]. change (is_space " "%char) with true. cbn iota. rewrite E, <- E.
  unfold rev_string. rewrite rev_append_app. simpl. by rewrite append_empty_r.
Qed.

Lemma fields_aux_end t :
  t <> EmptyString -> fields_aux EmptyString (rev_append_string t EmptyString) = [t].
Proof.
  intros Ht. destruct t as [|a t]; [done|].
  destruct (rev_append_cons a t EmptyString) as (b & v & E).
  cbn [fields_aux]. rewrite E, <- E. unfold rev_string. rewrite rev_append_app.
  simpl. by rewrite append_empty_r.
Qed.

(** [Fields] of non-empty, space-free words joined by single spaces. *)
Lemma fields_join ts :
  (forall t, t ∈ ts -> t <> EmptyString /\ exists_byte is_space t = false) ->
  fields (join_byte " "%char ts) = ts.
Proof.
  unfold fields. induction ts as [|t ts IH]; intros H; [done|].
  destruct (H t) as [Ht Hs]; [by left|]. destruct ts as [|u ts].
  - cbn [join_byte]. rewrite <- (append_empty_r t) at 1. rewrite fields_aux_word by done.
    by apply fields_aux_end.
  - change (join_byte " "%char (t :: u :: ts))
      with (String.append t (String " "%char (join_byte " "%char (u :: ts)))).
    rewrite fields_aux_word, fields_aux_flush by done. f_equal.
    apply IH. intros v Hv. apply H. by right.
Qed.

(** ** Decimal round trip *)

Lemma byte_digit_char d : 0 <= d < 10 -> byte (digit_char d) = 48 + d.
Proof.
  intros H. unfold byte, digit_char.
  rewrite N_ascii_embedding by lia. lia.
Qed.

Lemma is_digit_char d : 0 <= d < 10 -> is_digit (digit_char d) = true.
Proof.
  intros H. unfold is_digit. rewrite byte_digit_char by done.
  apply andb_true_iff. split; apply Z.leb_le; lia.
Qed.

Lemma itoa_fuel_value f n s acc : 0 <= n < 10 ^ Z.of_nat f -> (0 < f)%nat ->
  exists k, 0 <= k /\ digits_value acc (itoa_fuel f n s) = digits_value (acc * 10 ^ k + n) s.
Proof.
  revert n s acc. induction f as [|f IH]; intros n s acc Hn Hf; [lia|].
  cbn [itoa_fuel]. destruct (Z.ltb_spec n 10).
  - exists 1. split; [lia|]. cbn [digits_value].
    rewrite is_digit_char, byte_digit_char by (apply Z.mod_pos_bound; lia).
    rewrite Z.mod_small by lia. f_equal. lia.
  - assert (0 < f)%nat by (destruct f; [simpl in Hn; lia | lia]).
    assert (Hd : 0 <= n / 10 < 10 ^ Z.of_nat f).
    { split; [apply Z.div_pos; lia|]. apply Z.div_lt_upper_bound; [lia|].
      rewrite Nat2Z.inj_succ, Z.pow_succ_r in Hn by lia. lia. }
    destruct (IH (n / 10) (String (digit_char (n mod 10)) s) acc Hd) as (k & Hk & ->); [done|].
    exists (Z.succ k). split; [lia|]. cbn [digits_value].
    rewrite is_digit_char, byte_digit_char by (apply Z.mod_pos_bound; lia).
    f_equal. rewrite Z.pow_succ_r by done. pose proof (Z.div_mod n 10). lia.
Qed.

Lemma itoa_fuel_digits f n s :
  0 <= n -> exists_byte (fun c => negb (is_digit c)) s = false ->
  exists_byte (fun c => negb (is_digit c)) (itoa_fuel f n s) = false.
Proof.
  revert n s. induction f as [|f IH]; intros n s Hn Hs; [done|]. cbn [itoa_fuel].
  assert (Hc : exists_byte (fun c => negb (is_digit c)) (String (digit_char (n mod 10)) s) = false).
  { cbn. rewrite is_digit_char by (apply Z.mod_pos_bound; lia). done. }
  destruct (n <? 10); [done|]. apply IH; [apply Z.div_pos; lia | done].
Qed.

Lemma itoa_digits n : 0 <= n -> exists_byte (fun c => negb (is_digit c)) (itoa n) = false.
Proof.
  intros Hn. unfold itoa. destruct (Z.ltb_spec n 0); [lia|]. by apply itoa_fuel_digits.
Qed.

Lemma exists_byte_impl (p q : ascii -> bool) s :
  (forall c, p c = true -> q c = true) -> exists_byte q s = false -> exists_byte p s = false.
Proof.
  intros H. induction s as [|a s IH]; simpl; [done|]. intros [Ha Hs]%orb_false_iff.
  rewrite IH by done. rewrite orb_false_r. destruct (p a) eqn:E; [|done].
  apply H in E. congruence.
Qed.

Lemma itoa_free n c : 0 <= n -> is_digit c = false -> exists_byte (Ascii.eqb c) (itoa n) = false.
Proof.
  intros Hn Hc. eapply exists_byte_impl; [|by apply itoa_digits].
  intros a ->%Ascii.eqb_eq. by rewrite Hc.
Qed.

Lemma itoa_nospace n : 0 <= n -> exists_byte is_space (itoa n) = false.
Proof.
  intros Hn. eapply exists_byte_impl; [|by apply itoa_digits].
  intros a. unfold is_space, is_digit. intros H. apply negb_true_iff, andb_false_iff.
  left. apply Z.leb_gt. apply orb_true_iff in H as [H|H]; bool_props; lia.
Qed.

Lemma itoa_fuel_nonempty f n s :
  s <> EmptyString \/ (0 < f)%nat -> itoa_fuel f n s <> EmptyString.
Proof.
  revert n s. induction f as [|f IH]; intros n s H; [destruct H; [done|lia]|].
  cbn [itoa_fuel]. destruct (n <? 10); [done|]. apply IH. by left.
Qed.

Lemma itoa_nonempty n : 0 <= n -> itoa n <> EmptyString.
Proof.
  intros Hn. unfold itoa. destruct (Z.ltb_spec n 0); [lia|].
  apply itoa_fuel_nonempty. right. lia.
Qed.

Lemma digits_itoa n : 0 <= n < 10 ^ 20 -> digits_value 0 (itoa n) = Some n.
Proof.
  intros Hn. unfold itoa. destruct (Z.ltb_spec n 0); [lia|].
  destruct (itoa_fuel_value 20 n EmptyString 0) as (k & _ & ->); [lia|lia|]. by rewrite Z.mul_0_l.
Qed.

Lemma magnitude_itoa n : 0 <= n < 10 ^ 20 -> atoi_magnitude (itoa n) = Some n.
Proof.
  intros Hn. pose proof (itoa_nonempty n (proj1 Hn)). pose proof (digits_itoa n Hn) as Hv.
  unfold atoi_magnitude. by destruct (itoa n).
Qed.

(** [Atoi] reads back what [Itoa] prints. *)
Lemma atoi_itoa n : 0 <= n <= max_i64 -> atoi (itoa n) = Some n.
Proof.
  intros Hn. assert (Hlt : 0 <= n < 10 ^ 20) by (unfold max_i64, two63 in Hn; lia).
  pose proof (itoa_nonempty n (proj1 Hn)) as Hne. pose proof (itoa_digits n (proj1 Hn)) as Hdig.
  pose proof (magnitude_itoa n Hlt) as Hv. unfold atoi. destruct (itoa n) as [|a s] eqn:E; [done|].
  assert (Ha : is_digit a = true).
  { cbn in Hdig. apply orb_false_iff in Hdig as [Hd _]. by apply negb_false_iff. }
  rewrite (proj2 (Ascii.eqb_neq a "-"%char)), (proj2 (Ascii.eqb_neq a "+"%char))
    by (intros ->; discriminate Ha).
  rewrite Hv. unfold in_i64.
  rewrite (proj2 (Z.leb_le min_i64 n)), (proj2 (Z.leb_le n max_i64));
    unfold min_i64, two63; by try lia.
Qed.

#[export] Hint Resolve split_byte_nonempty split_byte_length has_suffix_refl : agentray.
#[export] Hint Rewrite trim_space_idemp to_lower_idemp join_split : agentray.
