(* ===== verification/GoTime.v ===== *)
(** * GoTime: the part of Go's [time] the program uses

    An instant is a [Z], in nanoseconds since Go's zero [Time] (so [IsZero] is
    [t = 0]); a [Duration] is an int64 number of nanoseconds.  [Time.Sub]
    saturates at the ends of int64, [Time.AddDate(0, 0, n)] adds [n] days of 24
    hours (the program keeps its instants in UTC). *)

From S2P Require Import Prelude.
Open Scope Z_scope.

Definition nanosecond : Z := 1.
Definition millisecond : Z := 1000000.
Definition second : Z := 1000000000.
Definition minute : Z := 60 * second.
Definition hour : Z := 60 * minute.
Definition day : Z := 24 * hour.

Definition time_is_zero (t : Z) : bool := t =? 0.
Definition time_after (t u : Z) : bool := u <? t.
Definition time_before (t u : Z) : bool := t <? u.
Definition time_add (t d : Z) : Z := t + d.
Definition add_days (t n : Z) : Z := t + n * day.

(** [Time.Sub] clamps a difference that does not fit a [Duration]. *)
Definition time_sub (t u : Z) : Z :=
  let d := t - u in
  if d <? min_i64 then min_i64 else if max_i64 <? d then max_i64 else d.

Lemma time_sub_exact t u : min_i64 <= t - u <= max_i64 -> time_sub t u = t - u.
Proof.
  intros H. unfold time_sub. destruct (Z.ltb_spec (t - u) min_i64); [lia|].
  destruct (Z.ltb_spec max_i64 (t - u)); lia.
Qed.

Lemma time_sub_range t u : min_i64 <= time_sub t u <= max_i64.
Proof.
  unfold time_sub, min_i64, max_i64, two63.
  repeat case_match; bool_props; lia.
Qed.

Lemma time_sub_refl t : time_sub t t = 0.
Proof. rewrite time_sub_exact; unfold min_i64, max_i64, two63; lia. Qed.

#[export] Hint Resolve time_sub_range : agentray.
