(* ===== verification/Sessionizer.v ===== *)
(** * Sessionizer: [internal/dataplane/ingest/sessionizer.go]

    The server-side session table: one open session per (project, distinct id),
    extended while events arrive less than a window apart.  The mutex makes each
    call atomic, so a call is a function from the table to the table and the
    session id. *)

From S2P Require Import Prelude GoTime.
Import String.
Open Scope Z_scope.

(** ** State *)

Definition sessionWindow : Z := 30 * minute.
Definition sessionCacheMax : Z := 200000.

Record sessionMark := { mark_id : string; lastSeen : Z }.

Record sessionizer := { window : Z; last : gmap string sessionMark }.

Definition newSessionizer (w : Z) : sessionizer :=
  {| window := if w <=? 0 then sessionWindow else w; last := ∅ |}.

(** ** Operations *)

(** Negating the least int64 wraps to itself. *)
Definition absDuration (d : Z) : Z := if d <? 0 then i64 (- d) else d.

Definition nul : Ascii.ascii := Ascii.ascii_of_N 0.

Definition session_key (projectID distinctID : string) : string :=
  String.append projectID (String nul distinctID).

Definition live (w now : Z) (m : sessionMark) : bool :=
  absDuration (time_sub now (lastSeen m)) <? w.

Definition sweepLocked (now : Z) (s : sessionizer) : sessionizer :=
  {| window := window s;
     last := filter (fun km => (absDuration (time_sub now (lastSeen km.2)) >=? window s) = false)
                    (last s) |}.

(** [fresh] is what [uuid.NewString] returns and [now] what [time.Now] does. *)
Definition sessionFor (fresh : string) (now : Z) (s : option sessionizer)
    (projectID distinctID : string) (ts : Z) : option sessionizer * string :=
  match s with
  | None => (s, EmptyString)
  | Some st =>
      if String.eqb projectID EmptyString || String.eqb distinctID EmptyString
      then (s, EmptyString)
      else
        let ts := if time_is_zero ts then now else ts in
        let key := session_key projectID distinctID in
        let open_new :=
          let st1 := if sessionCacheMax <=? Z.of_nat (size (last st))
                     then sweepLocked ts st else st in
          (Some {| window := window st1;
                   last := <[key := {| mark_id := fresh; lastSeen := ts |}]> (last st1) |},
           fresh) in
        match last st !! key with
        | Some mark =>
            if absDuration (time_sub ts (lastSeen mark)) <? window st then
              (Some (if time_after ts (lastSeen mark)
                     then {| window := window st;
                             last := <[key := {| mark_id := mark_id mark; lastSeen := ts |}]> (last st) |}
                     else st),
               mark_id mark)
            else open_new
        | None => open_new
        end
  end.

(** One call on a live table, with the id it draws. *)
Inductive session_step : sessionizer -> sessionizer -> Prop :=
| SessionCall st fresh now p d ts st' id :
    (forall k m, last st !! k = Some m -> mark_id m <> fresh) ->
    sessionFor fresh now (Some st) p d ts = (Some st', id) ->
    session_step st st'.

(** ** Lemmas *)

Lemma absDuration_abs d : min_i64 < d <= max_i64 -> absDuration d = Z.abs d.
Proof.
  intros H. unfold absDuration. destruct (Z.ltb_spec d 0); [|lia].
  rewrite i64_small; unfold min_i64, max_i64 in *; lia.
Qed.

Lemma live_gap w now m :
  min_i64 < now - lastSeen m <= max_i64 ->
  live w now m = (Z.abs (now - lastSeen m) <? w).
Proof. intros H. unfold live. rewrite time_sub_exact by lia. by rewrite absDuration_abs. Qed.

Lemma sweep_lookup now st k m :
  last (sweepLocked now st) !! k = Some m <->
  last st !! k = Some m /\ live (window st) now m = true.
Proof.
  unfold sweepLocked, live. simpl. rewrite map_lookup_filter_Some. simpl.
  rewrite Z.geb_leb, Z.leb_gt, Z.ltb_lt. done.
Qed.

Lemma sessionFor_window fresh now st p d ts st' id :
  sessionFor fresh now (Some st) p d ts = (Some st', id) -> window st' = window st.
Proof. unfold sessionFor. split_ifs. Qed.

(** Every entry of the new table is the entry written by the call or an entry
    of the old table. *)
Lemma sessionFor_lookup fresh now st p d ts st' id k m :
  sessionFor fresh now (Some st) p d ts = (Some st', id) ->
  last st' !! k = Some m ->
  last st !! k = Some m \/
  (k = session_key p d /\ mark_id m = id /\
   (id = fresh \/
    exists m0, last st !! k = Some m0 /\ mark_id m0 = id /\ lastSeen m0 <= lastSeen m)).
Proof.
  unfold sessionFor. intros H Hk.
  destruct (_ || _); [simplify_eq; by left|].
  set (ts' := if time_is_zero ts then now else ts) in *.
  assert (Hnew : forall st0, (forall k m, last st0 !! k = Some m -> last st !! k = Some m) ->
    <[session_key p d := {| mark_id := fresh; lastSeen := ts' |}]> (last st0) !! k = Some m ->
    last st !! k = Some m \/ (k = session_key p d /\ mark_id m = fresh)).
  { intros st0 Hst0 Hl. apply lookup_insert_Some in Hl as [[<- <-]|[_ Hl]]; auto. }
  assert (Hopen : forall st0, (if sessionCacheMax <=? Z.of_nat (size (last st))
            then sweepLocked ts' st else st) = st0 ->
            forall k m, last st0 !! k = Some m -> last st !! k = Some m).
  { intros st0 <- k' m'. destruct (sessionCacheMax <=? _); [|done]. by intros [? _]%sweep_lookup. }
  destruct (last st !! session_key p d) as [mk|] eqn:Hm.
  - destruct (_ <? _); simplify_eq.
    + destruct (time_after _ _) eqn:Ha; [|by left].
      simpl in Hk. apply lookup_insert_Some in Hk as [[<- <-]|[_ ?]]; [|by left].
      right. split_and!; [done..|]. right. exists mk. unfold time_after in Ha. bool_props.
      simpl. split_and!; [done..|lia].
    + simpl in Hk. destruct (Hnew _ (Hopen _ eq_refl) Hk) as [?|[-> ?]]; [by left|].
      right. split_and!; auto.
  - simplify_eq. simpl in Hk.
    destruct (Hnew _ (Hopen _ eq_refl) Hk) as [?|[-> ?]]; [by left|].
    right. split_and!; auto.
Qed.

(** Two entries never carry the same session id. *)
Definition ids_unshared (st : sessionizer) : Prop :=
  forall k1 k2 m1 m2, last st !! k1 = Some m1 -> last st !! k2 = Some m2 ->
    mark_id m1 = mark_id m2 -> k1 = k2.

Lemma ids_unshared_step st st' : session_step st st' -> ids_unshared st -> ids_unshared st'.
Proof.
  intros [? fresh now p d ts ? id Hfresh H] Hu k1 k2 m1 m2 H1 H2 Hid.
  destruct (sessionFor_lookup _ _ _ _ _ _ _ _ _ _ H H1) as [O1|(E1 & I1 & C1)],
           (sessionFor_lookup _ _ _ _ _ _ _ _ _ _ H H2) as [O2|(E2 & I2 & C2)].
  - by eapply Hu.
  - subst k2. destruct C2 as [->|(m0 & L0 & I0 & _)].
    + exfalso. eapply Hfresh; [exact O1|congruence].
    + eapply (Hu _ _ _ _ O1 L0). congruence.
  - subst k1. destruct C1 as [->|(m0 & L0 & I0 & _)].
    + exfalso. eapply Hfresh; [exact O2|congruence].
    + eapply (Hu _ _ _ _ L0 O2). congruence.
  - congruence.
Qed.

(** The table entry a call leaves for its own key. *)
Lemma sessionFor_known fresh now st p d ts m :
  p <> EmptyString -> d <> EmptyString -> ts <> 0 ->
  last st !! session_key p d = Some m ->
  live (window st) ts m = true ->
  exists st', sessionFor fresh now (Some st) p d ts = (Some st', mark_id m) /\
    last st' !! session_key p d =
      Some {| mark_id := mark_id m; lastSeen := Z.max (lastSeen m) ts |}.
Proof.
  intros Hp Hd Hts Hm Hlive. unfold sessionFor.
  rewrite (proj2 (String.eqb_neq _ _) Hp), (proj2 (String.eqb_neq _ _) Hd). simpl.
  unfold time_is_zero. rewrite (proj2 (Z.eqb_neq _ _) Hts), Hm.
  unfold live in Hlive. rewrite Hlive. eexists; split; [done|].
  unfold time_after. destruct (Z.ltb_spec (lastSeen m) ts); simpl.
  - rewrite lookup_insert_eq. do 2 f_equal. lia.
  - rewrite Hm. destruct m as [i l]; simpl in *. do 2 f_equal. lia.
Qed.

Lemma sessionFor_unknown fresh now st p d ts :
  p <> EmptyString -> d <> EmptyString -> ts <> 0 ->
  (forall m, last st !! session_key p d = Some m -> live (window st) ts m = false) ->
  exists st', sessionFor fresh now (Some st) p d ts = (Some st', fresh) /\
    last st' !! session_key p d = Some {| mark_id := fresh; lastSeen := ts |}.
Proof.
  intros Hp Hd Hts Hm. unfold sessionFor.
  rewrite (proj2 (String.eqb_neq _ _) Hp), (proj2 (String.eqb_neq _ _) Hd). simpl.
  unfold time_is_zero. rewrite (proj2 (Z.eqb_neq _ _) Hts).
  destruct (last st !! session_key p d) as [m|].
  - specialize (Hm _ eq_refl). unfold live in Hm. rewrite Hm.
    eexists; split; [done|]. simpl. by rewrite lookup_insert_eq.
  - eexists; split; [done|]. simpl. by rewrite lookup_insert_eq.
Qed.

(** ** Properties *)

(** An event of a known person whose distance to the person's last event fits
    a [Duration] joins the open session exactly when that distance is below the
    window, and otherwise opens a session with the drawn id; either way the
    stored mark is the later of the two instants for a joined session and the
    event's instant for a new one. *)
Theorem sessionFor_by_gap fresh now st p d ts m :
  p <> EmptyString -> d <> EmptyString -> ts <> 0 ->
  last st !! session_key p d = Some m ->
  min_i64 < ts - lastSeen m <= max_i64 ->
  exists st',
    sessionFor fresh now (Some st) p d ts =
      (Some st', if Z.abs (ts - lastSeen m) <? window st then mark_id m else fresh) /\
    last st' !! session_key p d =
      Some (if Z.abs (ts - lastSeen m) <? window st
            then {| mark_id := mark_id m; lastSeen := Z.max (lastSeen m) ts |}
            else {| mark_id := fresh; lastSeen := ts |}).
Proof.
  intros Hp Hd Hts Hm Hgap. rewrite <- (live_gap (window st)) by done.
  destruct (live (window st) ts m) eqn:Hl.
  - by apply sessionFor_known.
  - apply sessionFor_unknown; [done..|]. intros m' Hm'. congruence.
Qed.

Definition witness_table : sessionizer :=
  {| window := sessionWindow;
     last := {[ session_key "p" "u" := {| mark_id := "s1"; lastSeen := 100 * hour |} ]} |}.

Lemma sessionFor_by_gap_witness :
  exists st', sessionFor "s2" 0 (Some witness_table) "p" "u" (100 * hour + 10 * minute)
              = (Some st', "s1"%string).
Proof.
  destruct (sessionFor_by_gap "s2" 0 witness_table "p" "u" (100 * hour + 10 * minute)
              {| mark_id := "s1"; lastSeen := 100 * hour |}) as (st' & H & _);
    [discriminate | discriminate | discriminate | reflexivity
    | vm_compute; split; [reflexivity | discriminate] |].
  exists st'. exact H.
Defined.

(** A call never splits a session that is still open: an entry within the
    window of the event keeps its session id and its last-seen instant never
    moves backwards, even when the call sweeps a full table. *)
Theorem live_session_survives fresh now st p d ts st' id k m :
  sessionFor fresh now (Some st) p d ts = (Some st', id) ->
  last st !! k = Some m ->
  live (window st) (if time_is_zero ts then now else ts) m = true ->
  exists m', last st' !! k = Some m' /\ mark_id m' = mark_id m /\ lastSeen m <= lastSeen m'.
Proof.
  unfold sessionFor. destruct (_ || _); [intros; simplify_eq; eauto with lia|].
  set (t := if time_is_zero ts then now else ts). intros H Hk Hl.
  assert (Hsw : forall st0, (if sessionCacheMax <=? Z.of_nat (size (last st))
            then sweepLocked t st else st) = st0 -> last st0 !! k = Some m).
  { intros st0 <-. destruct (sessionCacheMax <=? _); [|done]. by apply sweep_lookup. }
  destruct (decide (k = session_key p d)) as [->|Hne].
  - rewrite Hk in H. unfold live in Hl. rewrite Hl in H. simplify_eq.
    unfold time_after. destruct (Z.ltb_spec (lastSeen m) t); [|by eauto with lia].
    eexists. simpl. rewrite lookup_insert_eq. split_and!; [done..|simpl; lia].
  - exists m. split_and!; [|done|lia].
    destruct (last st !! session_key p d); [destruct (_ <? _)|]; simplify_eq; simpl.
    + destruct (time_after _ _); simpl; [by rewrite lookup_insert_ne | done].
    + rewrite lookup_insert_ne by done. by apply Hsw.
    + rewrite lookup_insert_ne by done. by apply Hsw.
Qed.

Lemma live_session_survives_witness :
  exists m', last witness_table !! session_key "p" "u" = Some m' /\ mark_id m' = "s1"%string
    /\ 100 * hour <= lastSeen m'.
Proof.
  apply (live_session_survives "s2" (100 * hour) witness_table "" "v" 0 witness_table
           EmptyString (session_key "p" "u") {| mark_id := "s1"; lastSeen := 100 * hour |});
    reflexivity.
Defined.

(** In every table reachable from a new one, two different (project, person)
    keys never share a session id, provided every call draws an id no live entry
    holds. *)
Theorem sessions_never_shared w st :
  rtc session_step (newSessionizer w) st -> ids_unshared st.
Proof.
  intros Hr. eapply rtc_invariant; [apply ids_unshared_step | exact Hr |].
  intros k1 k2 m1 m2 H1 _ _. simpl in H1. by rewrite lookup_empty in H1.
Qed.

Lemma sessions_never_shared_witness : ids_unshared (newSessionizer 0).
Proof. apply (sessions_never_shared 0 (newSessionizer 0)). constructor. Defined.

(** An event dated more than the longest [Duration] (about 292 years) before
    the person's last event joins the open session, however large the gap:
    [Time.Sub] saturates at the least int64 and [absDuration] negates it to
    itself. *)
Theorem ancient_event_joins fresh now st p d ts m :
  p <> EmptyString -> d <> EmptyString -> ts <> 0 -> 0 < window st ->
  last st !! session_key p d = Some m ->
  ts - lastSeen m <= min_i64 ->
  exists st', sessionFor fresh now (Some st) p d ts = (Some st', mark_id m).
Proof.
  intros Hp Hd Hts Hw Hm Hgap.
  destruct (sessionFor_known fresh now st p d ts m) as (st' & H & _); [done..| |by exists st'].
  unfold live. apply Z.ltb_lt.
  assert (time_sub ts (lastSeen m) = min_i64) as ->.
  { unfold time_sub. destruct (Z.ltb_spec (ts - lastSeen m) min_i64); [done|].
    destruct (Z.ltb_spec max_i64 (ts - lastSeen m)); unfold min_i64, max_i64, two63 in *; lia. }
  change (absDuration min_i64) with min_i64. unfold min_i64, two63. lia.
Qed.

(** The first day of year 1 against an event in the year 2026. *)
Lemma ancient_event_joins_witness :
  let st := {| window := sessionWindow;
               last := {[ session_key "p" "u" :=
                          {| mark_id := "s1"; lastSeen := 739000 * day |} ]} |} in
  exists st', sessionFor "s2" 0 (Some st) "p" "u" day = (Some st', "s1"%string).
Proof.
  intros st.
  apply (ancient_event_joins "s2" 0 st "p" "u" day
           {| mark_id := "s1"; lastSeen := 739000 * day |});
    [discriminate | discriminate | discriminate | reflexivity | reflexivity | discriminate].
Defined.
