(* ===== verification/Classify.v ===== *)
(** * Classify: [internal/dataplane/ingest/classify.go]

    Visitor class from the user agent and acquisition channel from the
    referrer. *)

From S2P Require Import Prelude GoStrings.
From Stdlib Require Import Ascii.
Import String.
Open Scope string_scope.

Definition VisitorHuman := "human".
Definition VisitorSearchBot := "search-bot".
Definition VisitorAIPlatform := "ai-platform".

Definition ChannelDirect := "direct".
Definition ChannelInternal := "internal".
Definition ChannelSearch := "search".
Definition ChannelSocial := "social".
Definition ChannelAI := "ai-referral".
Definition ChannelReferral := "referral".

Definition searchBotUAs : list string :=
  ["googlebot"; "bingbot"; "slurp"; "duckduckbot"; "baiduspider";
   "yandexbot"; "sogou"; "exabot"; "applebot"; "semrushbot"].

Definition aiPlatformUAs : list string :=
  ["gptbot"; "claudebot"; "perplexitybot"; "oai-searchbot";
   "google-extended"; "bytespider"].

Definition aiReferralHosts : list string :=
  ["chatgpt.com"; "perplexity.ai"; "gemini.google.com";
   "copilot.microsoft.com"; "claude.ai"].

Definition socialHosts : list string :=
  ["facebook.com"; "twitter.com"; "x.com"; "instagram.com";
   "linkedin.com"; "tiktok.com"; "reddit.com"; "youtube.com"; "t.co"].

Definition searchHostSubstrings : list string :=
  ["google."; "bing.com"; "duckduckgo.com"; "yahoo.com"; "baidu.com"; "yandex."].

Definition internalHostSuffixes : list string := ["lohi2.com"; "localhost"].

Definition classifyUA (ua : string) : string * string :=
  let lower := to_lower ua in
  match find_first (fun sub => contains lower sub) aiPlatformUAs with
  | Some sub => (VisitorAIPlatform, sub)
  | None =>
      match find_first (fun sub => contains lower sub) searchBotUAs with
      | Some sub => (VisitorSearchBot, sub)
      | None => (VisitorHuman, "")
      end
  end.

Definition cut_at (i : option nat) (s : string) : string :=
  match i with Some n => take_str n s | None => s end.

Definition parseReferrerHost (referrer : string) : string :=
  if String.eqb referrer "" then "" else
  let s := match index_of referrer "://" with
           | Some i => drop_str (i + 3) referrer
           | None => referrer
           end in
  let s := cut_at (index_byte s "/"%char) s in
  let s := cut_at (index_byte s "?"%char) s in
  let s := cut_at (last_index_byte s ":"%char) s in
  to_lower (trim_space s).

(** [host == h || strings.HasSuffix(host, "."+h)]. *)
Definition host_under (host h : string) : bool :=
  String.eqb host h || has_suffix host ("." +:+ h).

Definition classifyReferrer (referrer : string) : string * string :=
  let host := parseReferrerHost referrer in
  if String.eqb host "" then ("", ChannelDirect)
  else if existsb (host_under host) internalHostSuffixes then (host, ChannelInternal)
  else if existsb (host_under host) aiReferralHosts then (host, ChannelAI)
  else if existsb (host_under host) socialHosts then (host, ChannelSocial)
  else if existsb (contains host) searchHostSubstrings then (host, ChannelSearch)
  else (host, ChannelReferral).

(** ** Lemmas *)

Lemma parseReferrerHost_lower r : to_lower (parseReferrerHost r) = parseReferrerHost r.
Proof. unfold parseReferrerHost. case_match; [done|]. apply to_lower_idemp. Qed.

Lemma lower_byte_slash c b : (b = 47 \/ b = 63)%Z ->
  (byte (lower_byte c) =? b)%Z = (byte c =? b)%Z.
Proof. intros [-> | ->]; by destruct c as [[] [] [] [] [] [] [] []]. Qed.

Lemma exists_byte_ext p q s : (forall c, p c = q c) -> exists_byte p s = exists_byte q s.
Proof. intros H. induction s as [|a s IH]; simpl; [done|]. by rewrite H, IH. Qed.

Lemma exists_byte_map p f s : exists_byte p (map_str f s) = exists_byte (fun c => p (f c)) s.
Proof. induction s as [|a s IH]; simpl; [done|]. by rewrite IH. Qed.

Lemma cut_at_free s c : exists_byte (Ascii.eqb c) (cut_at (index_byte s c) s) = false.
Proof.
  destruct (index_byte s c) eqn:E; simpl; [by apply index_byte_take | by apply index_byte_None].
Qed.

Lemma cut_at_exists p i s : exists_byte p s = false -> exists_byte p (cut_at i s) = false.
Proof. destruct i; simpl; [apply exists_byte_take | done]. Qed.

Lemma lower_byte_keeps c a : (c = "/"%char \/ c = "?"%char) ->
  Ascii.eqb c (lower_byte a) = Ascii.eqb c a.
Proof. intros [-> | ->]; by destruct a as [[] [] [] [] [] [] [] []]. Qed.

Lemma has_suffix_append s p : has_suffix (s +:+ p) p = true.
Proof.
  induction s as [|a s IH]; [apply has_suffix_refl|]. rewrite append_cons_str.
  cbn [has_suffix]. rewrite IH. apply orb_true_r.
Qed.

Lemma has_suffix_split s p : has_suffix s p = true <-> exists q, s = q +:+ p.
Proof.
  split; [|intros [q ->]; apply has_suffix_append].
  induction s as [|a s IH]; cbn [has_suffix]; rewrite orb_true_iff, String.eqb_eq.
  - intros [<-|?]; [by exists "" | done].
  - intros [<-|H]; [by exists ""|]. destruct (IH H) as [q ->]. by exists (String a q).
Qed.

Lemma find_first_classes p (l : list string) :
  (exists x, find_first p l = Some x /\ x ∈ l /\ p x = true) \/
  (find_first p l = None /\ forall x, x ∈ l -> p x = false).
Proof.
  destruct (find_first p l) eqn:E; [left | right].
  - destruct (find_first_Some _ _ _ E). eauto.
  - split; [done|]. by apply find_first_None.
Qed.

(** ** Properties *)

(** [classifyUA] answers the first listed crawler the lower-cased user agent
    contains, AI platforms before search engines, and "human" exactly when it
    contains none of them. *)
Theorem classifyUA_spec ua cls name :
  classifyUA ua = (cls, name) ->
  (cls = VisitorAIPlatform /\ name ∈ aiPlatformUAs /\ contains (to_lower ua) name = true) \/
  (cls = VisitorSearchBot /\ name ∈ searchBotUAs /\ contains (to_lower ua) name = true /\
   forall sub, sub ∈ aiPlatformUAs -> contains (to_lower ua) sub = false) \/
  (cls = VisitorHuman /\ name = "" /\
   forall sub, sub ∈ (aiPlatformUAs ++ searchBotUAs)%list -> contains (to_lower ua) sub = false).
Proof.
  unfold classifyUA.
  destruct (find_first_classes (fun sub => contains (to_lower ua) sub) aiPlatformUAs)
    as [(x & -> & Hx & Hc)|[-> Hai]]; [intros [= <- <-]; by left|].
  destruct (find_first_classes (fun sub => contains (to_lower ua) sub) searchBotUAs)
    as [(x & -> & Hx & Hc)|[-> Hse]]; intros [= <- <-]; right.
  - left. done.
  - right. split_and!; [done..|]. intros sub [?|?]%elem_of_app; auto.
Qed.

Lemma classifyUA_spec_witness :
  classifyUA "Mozilla/5.0 (compatible; GPTBot/1.2)" = ("ai-platform", "gptbot") /\
  (VisitorAIPlatform = VisitorAIPlatform /\ "gptbot" ∈ aiPlatformUAs /\
   contains (to_lower "Mozilla/5.0 (compatible; GPTBot/1.2)") "gptbot" = true).
Proof.
  split; [vm_compute; reflexivity|].
  destruct (classifyUA_spec "Mozilla/5.0 (compatible; GPTBot/1.2)" VisitorAIPlatform "gptbot")
    as [H|[(H & _)|(H & _)]]; [vm_compute; reflexivity | exact H | discriminate H | discriminate H].
Defined.

(** The host [classifyReferrer] reports is lower case and holds no path and no
    query, the channel is "direct" exactly when it is empty, and a listed domain
    is recognised only as itself or as a parent domain (a look-alike such as
    "notfacebook.com" is not "facebook.com"), internal before AI before social
    before search. *)
Theorem classifyReferrer_spec r host channel :
  classifyReferrer r = (host, channel) ->
  to_lower host = host /\
  exists_byte (Ascii.eqb "/"%char) host = false /\
  exists_byte (Ascii.eqb "?"%char) host = false /\
  (channel = ChannelDirect <-> host = "") /\
  let under l := exists h, h ∈ l /\ (host = h \/ exists sub, host = sub +:+ "." +:+ h) in
  (channel = ChannelInternal -> under internalHostSuffixes) /\
  (channel = ChannelAI -> ~ under internalHostSuffixes /\ under aiReferralHosts) /\
  (channel = ChannelSocial -> ~ under aiReferralHosts /\ under socialHosts) /\
  (channel = ChannelSearch -> ~ under socialHosts /\
     exists sub, sub ∈ searchHostSubstrings /\ contains host sub = true) /\
  (channel = ChannelReferral -> ~ under socialHosts /\
     forall sub, sub ∈ searchHostSubstrings -> contains host sub = false).
Proof.
  intros H.
  assert (Hfree : forall c, c = "/"%char \/ c = "?"%char ->
            exists_byte (Ascii.eqb c) (parseReferrerHost r) = false).
  { intros c Hc. unfold parseReferrerHost. case_match; [done|].
    unfold to_lower. rewrite exists_byte_map.
    rewrite (exists_byte_ext _ (Ascii.eqb c)) by (intros; by apply lower_byte_keeps).
    apply trim_space_exists, cut_at_exists.
    destruct Hc as [-> | ->]; [apply cut_at_exists|]; apply cut_at_free. }
  assert (Hunder : forall hst l, existsb (host_under hst) l = true <->
            exists h, h ∈ l /\ (hst = h \/ exists sub, hst = sub +:+ "." +:+ h)).
  { intros hst l. rewrite existsb_True. unfold host_under.
    setoid_rewrite orb_true_iff. setoid_rewrite String.eqb_eq.
    by setoid_rewrite has_suffix_split. }
  assert (Hhost : host = parseReferrerHost r).
  { revert H. unfold classifyReferrer.
    destruct (String.eqb_spec (parseReferrerHost r) "") as [->|]; [congruence|].
    repeat case_match; congruence. }
  revert H. unfold classifyReferrer. rewrite <- Hhost. intros H.
  split_and!.
  { subst host. apply parseReferrerHost_lower. }
  { subst host. auto. }
  { subst host. auto. }
  all: cbv zeta; rewrite <- ?Hunder;
    destruct (String.eqb_spec host "") as [He|He];
    destruct (existsb (host_under host) internalHostSuffixes);
    destruct (existsb (host_under host) aiReferralHosts);
    destruct (existsb (host_under host) socialHosts);
    destruct (existsb (contains host) searchHostSubstrings) eqn:Hs;
    simplify_eq/=; try done; rewrite ?not_true_iff_false.
  all: try (split; [done | intros; subst; done]).
  all: try (intros; split; [done|]; first [by apply existsb_True | by apply existsb_False]).
Qed.

Lemma classifyReferrer_spec_witness :
  classifyReferrer "https://M.Facebook.com/l.php?u=1" = ("m.facebook.com", "social") /\
  exists_byte (Ascii.eqb "/"%char) "m.facebook.com" = false.
Proof.
  split; [vm_compute; reflexivity|].
  apply (classifyReferrer_spec "https://M.Facebook.com/l.php?u=1" "m.facebook.com" ChannelSocial).
  vm_compute; reflexivity.
Defined.
