(* ===== verification/Platform.v ===== *)
(** * Platform: internal/dataplane/store/platform.go

    Which app an event came from: the explicit property, the mobile operating system, the
    user agent. *)

From S2P Require Import Prelude GoStrings.
Import String.
Open Scope string_scope.

Definition PlatformWeb := "web".
Definition PlatformIOS := "ios".
Definition PlatformAndroid := "android".
Definition PlatformServer := "server".

Definition nativeAppleUAs : list string := ["cfnetwork"; "darwin"].
Definition nativeAndroidUAs : list string := ["okhttp"; "dalvik"].
Definition bareRuntimeUAs : list string := ["node"; "undici"; "deno"; "bun"].
Definition serverUAs : list string :=
  ["curl/"; "wget/"; "go-http-client"; "python-requests"; "python-urllib";
   "node-fetch"; "axios/"; "got ("; "postmanruntime"; "insomnia"; "httpie";
   "java/"; "okhttp-server"; "ruby"; "guzzlehttp"; "libwww-perl"].

Definition one_of (v : string) (l : list string) : bool := existsb (String.eqb v) l.

Definition normalizePlatform (value : string) : string :=
  let v := to_lower (trim_space value) in
  if one_of v [""] then ""
  else if one_of v ["ios"; "iphone"; "ipad"; "ipados"; "tvos"; "watchos"; "apple"] then PlatformIOS
  else if one_of v ["android"] then PlatformAndroid
  else if one_of v ["web"; "browser"; "js"; "javascript"; "site"; "website"] then PlatformWeb
  else if one_of v ["server"; "backend"; "api"; "node"; "python"; "go"; "ruby"] then PlatformServer
  else v.

Definition normalizeOS (value : string) : string :=
  let v := to_lower (trim_space value) in
  if one_of v ["ios"; "ipados"; "iphone os"] then PlatformIOS
  else if one_of v ["android"] then PlatformAndroid
  else "".

Definition platformFromUserAgent (ua : string) : string :=
  let lower := to_lower (trim_space ua) in
  if (lower =? "")%string then ""
  else if existsb (contains lower) nativeAppleUAs then PlatformIOS
  else if existsb (contains lower) nativeAndroidUAs then PlatformAndroid
  else if contains lower "mozilla" then PlatformWeb
  else if contains lower "android" then PlatformAndroid
  else if one_of lower bareRuntimeUAs then PlatformServer
  else if existsb (contains lower) serverUAs then PlatformServer
  else "".

Definition ClassifyPlatform (explicit osName ua : string) : string :=
  let normalized := normalizePlatform explicit in
  if negb (normalized =? "")%string then normalized
  else
    let os := normalizeOS osName in
    if (os =? PlatformIOS)%string then PlatformIOS
    else if (os =? PlatformAndroid)%string then PlatformAndroid
    else platformFromUserAgent ua.

(** ** Lemmas *)

Lemma one_of_In v l : one_of v l = true <-> v ∈ l.
Proof.
  unfold one_of. rewrite existsb_True. split.
  - intros (x & Hx & Heq). apply String.eqb_eq in Heq. by subst.
  - intros Hv. exists v. split; [done|]. apply String.eqb_refl.
Qed.

(** A stored platform is stable: what was normalized once is not changed again. *)
Lemma normalizePlatform_idem v : normalizePlatform (normalizePlatform v) = normalizePlatform v.
Proof.
  unfold normalizePlatform at 2 3. cbv zeta. set (w := to_lower (trim_space v)).
  destruct (one_of w [""]) eqn:H1; [done|]. destruct (one_of w (_ :: "iphone" :: _)) eqn:H2; [done|].
  destruct (one_of w ["android"]) eqn:H3; [done|]. destruct (one_of w ("web" :: _)) eqn:H4; [done|].
  destruct (one_of w ("server" :: _)) eqn:H5; [done|].
  assert (Hw : to_lower (trim_space w) = w).
  { unfold w. rewrite trim_space_lower, trim_space_idemp. apply to_lower_idemp. }
  unfold normalizePlatform. cbv zeta. rewrite Hw, H1, H2, H3, H4, H5. done.
Qed.

(** An explicit platform always wins. *)
Lemma explicit_platform_wins explicit os ua :
  trim_space explicit <> "" -> ClassifyPlatform explicit os ua = normalizePlatform explicit.
Proof.
  intros Hne. unfold ClassifyPlatform. cbv zeta. destruct (String.eqb_spec (normalizePlatform explicit) "") as [He|]; [|done].
  exfalso. revert He. unfold normalizePlatform. cbv zeta. destruct (one_of _ [""]) eqn:H1.
  - apply one_of_In, list_elem_of_singleton in H1. intros _. apply Hne. by destruct (trim_space explicit).
  - repeat (match goal with |- context[if ?b then _ else _] => destruct b end; [done|]). intros He.
    by rewrite He in H1.
Qed.
