(* ===== verification/CatalogGuard.v ===== *)
(** * CatalogGuard: [internal/dataplane/ingest/catalog_guard.go]

    The advisory tracking-plan check: a per-project snapshot of the established
    event names, refreshed on a TTL.  The store's [EventNameSet] and the clock
    are arguments; the mutex is not held across the store read, so a call is
    modelled as one step on the cache. *)

From S2P Require Import Prelude GoStrings GoTime.
Import String.
Open Scope string_scope.
Open Scope Z_scope.

(** ** State *)

Record projectCatalog := {
  names : gset string;
  loadedAt : Z;
  bootstrapping : bool;
}.

Record catalogGuard := {
  has_store : bool;
  ttl : Z;
  cache : gmap string projectCatalog;
}.

Definition newCatalogGuard (store : bool) (t : Z) : catalogGuard :=
  {| has_store := store; ttl := (if t <=? 0 then 6 * hour else t)%Z; cache := ∅ |}.

(** ** Operations *)

Definition isProductEvent (name : string) : bool :=
  negb (has_prefix name "$" || has_prefix name "system." || has_prefix name "agent.").

Section Load.
(** The store's [EventNameSet], for the call being made, and [time.Now]. *)
Variable E : Type.
Variable EventNameSet : string -> result E (gset string).
Variable now : Z.

Definition fresh_catalog (g : catalogGuard) (c : projectCatalog) : bool :=
  (time_sub now (loadedAt c) <? ttl g)%Z.

Definition catalogFor (g : catalogGuard) (projectID : string)
  : catalogGuard * option projectCatalog :=
  let cat := cache g !! projectID in
  let reload :=
    match EventNameSet projectID with
    | Err _ => (g, cat)
    | Ok ns =>
        let loaded := {| names := ns; loadedAt := now;
                         bootstrapping := Nat.eqb (size ns) 0 |} in
        ({| has_store := has_store g; ttl := ttl g;
            cache := <[projectID := loaded]> (cache g) |}, Some loaded)
    end in
  match cat with
  | Some c => if fresh_catalog g c then (g, cat) else reload
  | None => reload
  end.

Definition isUnplanned (g : option catalogGuard) (projectID eventName : string)
  : option catalogGuard * bool :=
  match g with
  | None => (None, false)
  | Some g =>
      if negb (has_store g) || String.eqb eventName "" || negb (isProductEvent eventName)
      then (Some g, false)
      else
        let '(g', cat) := catalogFor g projectID in
        match cat with
        | None => (Some g', false)
        | Some c => if bootstrapping c then (Some g', false)
                    else (Some g', negb (bool_decide (eventName ∈ names c)))
        end
  end.
End Load.
Arguments catalogFor {E} EventNameSet now g projectID.
Arguments isUnplanned {E} EventNameSet now g projectID eventName.

(** ** Lemmas *)

(** [bootstrapping] is the emptiness of the names it was loaded with. *)
Definition guard_wf (g : catalogGuard) : Prop :=
  forall p c, cache g !! p = Some c -> bootstrapping c = bool_decide (names c = ∅).

Lemma bootstrapping_empty (ns : gset string) : Nat.eqb (size ns) 0 = bool_decide (ns = ∅).
Proof.
  apply eq_true_iff_eq. rewrite Nat.eqb_eq, bool_decide_eq_true.
  split; [intros e; by apply leibniz_equiv, size_empty_inv | intros ->; apply size_empty].
Qed.

Lemma newCatalogGuard_wf b t : guard_wf (newCatalogGuard b t).
Proof. intros p c H. simpl in H. by rewrite lookup_empty in H. Qed.

Lemma catalogFor_wf {E} (load : string -> result E (gset string)) now g p g' oc :
  guard_wf g -> catalogFor load now g p = (g', oc) ->
  guard_wf g' /\ cache g' !! p = oc.
Proof.
  intros Hwf. unfold catalogFor.
  assert (Hre : forall g' oc,
    match load p with
    | Err _ => (g, cache g !! p)
    | Ok ns =>
        ({| has_store := has_store g; ttl := ttl g;
            cache := <[p := {| names := ns; loadedAt := now;
                         bootstrapping := Nat.eqb (size ns) 0 |}]> (cache g) |},
         Some {| names := ns; loadedAt := now; bootstrapping := Nat.eqb (size ns) 0 |})
    end = (g', oc) -> guard_wf g' /\ cache g' !! p = oc).
  { intros g1 oc1. destruct (load p) as [ns|]; intros [= <- <-]; [|done].
    split; simpl; [|by rewrite lookup_insert_eq].
    intros q c Hq; simpl in Hq; apply lookup_insert_Some in Hq as [[<- <-]|[_ Hc]]; [apply bootstrapping_empty | by eapply Hwf]. }
  destruct (cache g !! p) as [c|] eqn:Hc; [|apply Hre].
  destruct (fresh_catalog _ _ _); [|apply Hre]. by intros [= <- <-].
Qed.

#[export] Hint Resolve newCatalogGuard_wf : agentray.

(** ** Properties *)

(** An event is flagged exactly when the guard has a store, the name is a
    product event name, and the project's catalog in force (the cached one while
    it is fresh or when the store read fails, the one just loaded otherwise) is
    non-empty and does not hold the name. *)
Theorem isUnplanned_iff {E} (load : string -> result E (gset string)) now g p name g' :
  guard_wf g -> isUnplanned load now (Some g) p name = (Some g', true) <->
  guard_wf g /\
  has_store g = true /\ name <> "" /\ isProductEvent name = true /\
  exists c, catalogFor load now g p = (g', Some c) /\ names c <> ∅ /\ name ∉ names c.
Proof.
  intros Hwf. unfold isUnplanned.
  destruct (has_store g); simpl; [|by split; [intros | intros (_ & ? & _)]].
  destruct (String.eqb_spec name ""); simpl; [by split; [intros | intros (_ & _ & ? & _)]|].
  destruct (isProductEvent name); simpl; [|by split; [intros | intros (_ & _ & _ & ? & _)]].
  destruct (catalogFor load now g p) as [g1 oc] eqn:Hc.
  destruct (catalogFor_wf _ _ _ _ _ _ Hwf Hc) as [Hwf1 Hoc].
  destruct oc as [c|].
  - rewrite (Hwf1 _ _ Hoc). destruct (bool_decide_reflect (names c = ∅)).
    + split; [by intros | intros (_ & _ & _ & _ & c' & ? & ? & _); congruence].
    + split.
      * intros [= -> Hn%negb_true_iff%bool_decide_eq_false]. split_and!; eauto.
      * intros (_ & _ & _ & _ & c' & ? & _ & ?). simplify_eq.
        by rewrite bool_decide_eq_false_2.
  - split; [by intros | intros (_ & _ & _ & _ & c' & ? & _); congruence].
Qed.

Lemma isUnplanned_iff_witness :
  let load := fun _ : string => @Ok string _ ({[ "signup" ]} : gset string) in
  let g := newCatalogGuard true 0 in
  isUnplanned load 5 (Some g) "p" "sginup" =
    (Some {| has_store := true; ttl := 6 * hour;
             cache := {[ "p" := {| names := {[ "signup" ]}; loadedAt := 5;
                                    bootstrapping := false |} ]} |}, true).
Proof.
  intros load g. apply isUnplanned_iff; [apply newCatalogGuard_wf|].
  split_and!; [apply newCatalogGuard_wf | reflexivity | discriminate | reflexivity |].
  eexists. split; [reflexivity|]. split; vm_compute; [discriminate|].
  intros H. vm_compute in H. discriminate H.
Defined.

(** Within the TTL of a load the store is not consulted: whatever the store
    would answer, the call returns the same verdict and leaves the cache as it
    is; and when the store read fails the cache is left as it is too. *)
Theorem isUnplanned_cached {E} (load load' : string -> result E (gset string)) now g p name c :
  cache g !! p = Some c ->
  (time_sub now (loadedAt c) < ttl g)%Z \/ is_ok (load p) = false ->
  (isUnplanned load now (Some g) p name).1 = Some g /\
  ((time_sub now (loadedAt c) < ttl g)%Z ->
   isUnplanned load' now (Some g) p name = isUnplanned load now (Some g) p name).
Proof.
  intros Hc Hor. unfold isUnplanned.
  destruct (_ || _ || _); [done|]. unfold catalogFor. rewrite Hc. unfold fresh_catalog.
  destruct (Z.ltb_spec (time_sub now (loadedAt c)) (ttl g)).
  - destruct (bootstrapping c); done.
  - destruct Hor as [?|Hl]; [lia|]. destruct (load p); [done|].
    split; [destruct (bootstrapping c); done | lia].
Qed.

Lemma isUnplanned_cached_witness :
  let g := {| has_store := true; ttl := 6 * hour;
              cache := {[ "p" := {| names := {[ "signup" ]}; loadedAt := 5;
                                     bootstrapping := false |} ]} |} in
  let load := fun _ : string => @Err string (gset string) "down" in
  (isUnplanned load 6 (Some g) "p" "sginup").1 = Some g.
Proof.
  intros g load.
  apply (isUnplanned_cached load load 6 g "p" "sginup"
           {| names := {[ "signup" ]}; loadedAt := 5; bootstrapping := false |});
    [reflexivity | left; reflexivity].
Defined.
