(* ===== verification/RateLimit.v ===== *)
(** * RateLimit: [internal/dataplane/ingest/ratelimit.go]

    The two Redis fixed-window limiters.  Redis is not part of the program: its
    [INCR] and [EXPIRE] are the operations of an interface, [RedisCounters], with
    their documented behaviour as laws over the counter a key holds at an
    instant; [redis_map] is an implementation that satisfies them. *)

From S2P Require Import Prelude GoStrings GoTime.
From Stdlib Require Import Ascii Sorted.
Import String.
Open Scope string_scope.
Open Scope Z_scope.

(** ** The Redis interface *)

(** [view r k t] is the live counter of key [k] at instant [t]: its value and the
    instant it expires at, if it has one. *)
Class RedisCounters (R : Type) := {
  view : R -> string -> Z -> option (Z * option Z);
  (** [incr] and [expire] take whether the round trip fails. *)
  incr : R -> bool -> string -> Z -> R * option Z;
  expire : R -> bool -> string -> Z -> Z -> R * bool;
  incr_ok : forall r k t,
    incr r false k t =
      ((incr r false k t).1,
       Some (match view r k t with Some (c, _) => c | None => 0 end + 1));
  incr_view : forall r k t,
    view (incr r false k t).1 k t =
      Some (match view r k t with Some (c, d) => (c + 1, d) | None => (1, None) end);
  incr_fail : forall r k t, incr r true k t = (r, None);
  expire_ok : forall r k t w, (expire r false k t w).2 = true;
  expire_view : forall r k t w c d, 0 < w -> view r k t = Some (c, d) ->
    view (expire r false k t w).1 k t = Some (c, Some (t + w));
  expire_fail : forall r k t w, expire r true k t w = (r, false);
  view_persists : forall r k t t' c d, t <= t' -> view r k t = Some (c, d) ->
    view r k t' = match d with
                  | Some e => if t' <? e then Some (c, d) else None
                  | None => Some (c, None)
                  end;
}.

(** ** Outcomes of a request *)

Inductive outcome :=
| NextHandler (headers : option (Z * Z))
| TooManyRequests (headers : option (Z * Z))
| RedisError.

Definition admitted (o : outcome) : bool :=
  match o with NextHandler _ => true | _ => false end.

Definition maxInt (a b : Z) : Z := if a >? b then a else b.

(** What a limiter reads off the request. *)
Record limit_request := {
  x_api_key : string;
  query_token : string;
  query_api_key : string;
  real_ip : string;
  remote_addr : string;
}.

Definition rateLimitClientIP (c : limit_request) : string :=
  if String.eqb (real_ip c) ""
  then hd "" (split_byte ":"%char (remote_addr c)) else real_ip c.

Definition rateLimitIdentity (c : limit_request) : string :=
  if negb (String.eqb (x_api_key c) "") then x_api_key c
  else if negb (String.eqb (query_token c) "") then query_token c
  else if negb (String.eqb (query_api_key c) "") then query_api_key c
  else rateLimitClientIP c.

Section Limiters.
Context {R : Type} `{RedisCounters R}.

(** [incr_fails] and [expire_fails] say whether each round trip fails. *)
Definition RedisRateLimit (limit window : Z) (r : R) (incr_fails expire_fails : bool)
    (t : Z) (c : limit_request) : R * outcome :=
  let limit := if limit <=? 0 then 600 else limit in
  let key := "agentray:rate:" +:+ rateLimitIdentity c in
  match incr r incr_fails key t with
  | (r1, None) => (r1, RedisError)
  | (r1, Some count) =>
      let proceed (r2 : R) :=
        let headers := Some (limit, maxInt 0 (limit - count)) in
        if count >? limit then (r2, TooManyRequests headers) else (r2, NextHandler headers) in
      if count =? 1 then
        match expire r1 expire_fails key t window with
        | (r2, false) => (r2, RedisError)
        | (r2, true) => proceed r2
        end
      else proceed r1
  end.

Definition AuthRateLimit (limit window : Z) (client : option R) (incr_fails expire_fails : bool)
    (t : Z) (c : limit_request) : option R * outcome :=
  let limit := if limit <=? 0 then 20 else limit in
  match client with
  | None => (None, NextHandler None)
  | Some r =>
      let key := "agentray:authrate:" +:+ rateLimitClientIP c in
      match incr r incr_fails key t with
      | (r1, None) => (Some r1, NextHandler None)
      | (r1, Some count) =>
          let r2 := if count =? 1 then (expire r1 expire_fails key t window).1 else r1 in
          if count >? limit then (Some r2, TooManyRequests None) else (Some r2, NextHandler None)
      end
  end.

(** A burst: the same client at each of the given instants, no round trip failing. *)
Fixpoint burst (limit window : Z) (r : R) (c : limit_request) (ts : list Z) : R * list outcome :=
  match ts with
  | [] => (r, [])
  | t :: ts' =>
      let '(r1, o) := RedisRateLimit limit window r false false t c in
      let '(r2, os) := burst limit window r1 c ts' in (r2, o :: os)
  end.

Definition rate_key (c : limit_request) : string := "agentray:rate:" +:+ rateLimitIdentity c.
Definition auth_key (c : limit_request) : string := "agentray:authrate:" +:+ rateLimitClientIP c.

(** ** Lemmas *)

(** One request on a live counter with a deadline. *)
Lemma RedisRateLimit_counted limit w r t c n e :
  0 < limit -> 0 < n -> t < e -> view r (rate_key c) t = Some (n, Some e) ->
  exists r', RedisRateLimit limit w r false false t c =
    (r', (if n + 1 >? limit then TooManyRequests else NextHandler)
           (Some (limit, maxInt 0 (limit - (n + 1))))) /\
    view r' (rate_key c) t = Some (n + 1, Some e).
Proof.
  intros Hl Hn Ht Hv. unfold RedisRateLimit. fold (rate_key c).
  rewrite incr_ok, Hv. pose proof (incr_view r (rate_key c) t) as Hi. rewrite Hv in Hi.
  rewrite (proj2 (Z.leb_gt _ _) Hl), (proj2 (Z.eqb_neq (n + 1) 1)) by lia.
  exists (incr r false (rate_key c) t).1. split; [|done]. by destruct (n + 1 >? limit).
Qed.

Lemma RedisRateLimit_fresh limit w r t c :
  0 < limit -> 0 < w -> view r (rate_key c) t = None ->
  exists r', RedisRateLimit limit w r false false t c =
    (r', NextHandler (Some (limit, limit - 1))) /\
    view r' (rate_key c) t = Some (1, Some (t + w)).
Proof.
  intros Hl Hw Hv. unfold RedisRateLimit. fold (rate_key c).
  rewrite incr_ok, Hv. pose proof (incr_view r (rate_key c) t) as Hi. rewrite Hv in Hi.
  simpl. rewrite (proj2 (Z.leb_gt _ _) Hl).
  pose proof (expire_ok (incr r false (rate_key c) t).1 (rate_key c) t w) as He.
  pose proof (expire_view _ _ _ w _ _ Hw Hi) as Hev.
  destruct (expire _ false _ t w) as [r2 b]. simpl in He, Hev. subst b.
  exists r2. split; [|done]. change (0 + 1) with 1.
  destruct (Z.gtb_spec 1 limit); [lia|]. unfold maxInt. destruct (Z.gtb_spec 0 (limit - 1)); [lia|done].
Qed.

Lemma burst_counted limit w c e : 0 < limit ->
  forall ts r n t0, 0 < n -> view r (rate_key c) t0 = Some (n, Some e) ->
  Sorted Z.le (t0 :: ts) -> Forall (fun t => t < e) ts -> t0 < e ->
  map admitted (burst limit w r c ts).2 =
  map (fun i => n + Z.of_nat i <? limit) (seq 0 (length ts)).
Proof.
  intros Hl. induction ts as [|t ts IH]; intros r n t0 Hn Hv Hs Hf Ht0; [done|].
  apply Sorted_inv in Hs as [Hs Hhd]. apply HdRel_inv in Hhd.
  apply Forall_cons in Hf as [Ht Hf].
  assert (Hvt : view r (rate_key c) t = Some (n, Some e)).
  { rewrite (view_persists _ _ t0 t _ _ Hhd Hv), (proj2 (Z.ltb_lt _ _) Ht). done. }
  destruct (RedisRateLimit_counted limit w r t c n e) as (r' & Hr & Hv'); [done..|].
  cbn [burst]. rewrite Hr. destruct (burst limit w r' c ts) as [r2 os] eqn:Hb.
  cbn [snd map length seq]. f_equal.
  - rewrite Z.gtb_ltb. destruct (Z.ltb_spec limit (n + 1)), (Z.ltb_spec (n + Z.of_nat 0) limit);
      simpl; try done; lia.
  - replace os with (burst limit w r' c ts).2 by (by rewrite Hb).
    rewrite (IH r' (n + 1) t) by (done || lia).
    rewrite <- seq_shift, map_map. apply map_ext. intros i. f_equal. lia.
Qed.

(** ** Properties *)

(** Within one window of the first request of an idle key, the ingest limiter
    lets exactly the first [limit] requests through (600 when the configured
    limit is not positive). *)
Theorem RedisRateLimit_window limit w r c t ts :
  0 < w -> view r (rate_key c) t = None ->
  Sorted Z.le (t :: ts) -> Forall (fun t' => t' < t + w) ts ->
  map admitted (burst limit w r c (t :: ts)).2 =
  map (fun i => Z.of_nat i <? (if limit <=? 0 then 600 else limit)) (seq 0 (S (length ts))).
Proof.
  intros Hw Hv Hs Hf.
  assert (Hgen : forall limit, 0 < limit ->
    map admitted (burst limit w r c (t :: ts)).2 =
    map (fun i => Z.of_nat i <? limit) (seq 0 (S (length ts)))).
  { clear limit. intros limit Hl.
    destruct (RedisRateLimit_fresh limit w r t c) as (r' & Hr & Hv'); [done..|].
    cbn [burst]. rewrite Hr. destruct (burst limit w r' c ts) as [r2 os] eqn:Hb.
    cbn [snd map seq]. f_equal; [symmetry; by apply Z.ltb_lt|].
    replace os with (burst limit w r' c ts).2 by (by rewrite Hb).
    rewrite (burst_counted limit w c (t + w) Hl ts r' 1 t) by (done || lia).
    rewrite <- seq_shift, map_map. apply map_ext. intros i. f_equal. lia. }
  destruct (Z.leb_spec limit 0) as [Hle|Hgt]; [|by apply Hgen].
  rewrite <- (Hgen 600) by lia. f_equal. f_equal.
  assert (Heq : forall r t, RedisRateLimit limit w r false false t c =
                            RedisRateLimit 600 w r false false t c).
  { intros r0 t0. unfold RedisRateLimit. by rewrite (proj2 (Z.leb_le _ _) Hle). }
  clear Hv Hs Hf Hgen. generalize (t :: ts). intros l. revert r.
  induction l as [|t0 l IH]; intros r; cbn [burst]; [done|]. rewrite Heq.
  destruct (RedisRateLimit 600 w r false false t0 c) as [r1 o]. by rewrite IH.
Qed.

(** The login limiter never refuses on a Redis failure (it fails open), while
    the ingest limiter refuses every request whose counter cannot be read. *)
Theorem limiter_failure limit w r ef t c :
  AuthRateLimit limit w (Some r) true ef t c = (Some r, NextHandler None) /\
  AuthRateLimit limit w None true ef t c = (None, NextHandler None) /\
  RedisRateLimit limit w r true ef t c = (r, RedisError).
Proof.
  unfold AuthRateLimit, RedisRateLimit. by rewrite !incr_fail.
Qed.

(** When the [EXPIRE] that follows the first [INCR] of a key fails, the login
    limiter ignores it and the counter has no deadline: once it has reached the
    limit, the client is refused at every later instant. *)
Theorem auth_limit_without_deadline limit w r t c n t' :
  t <= t' -> (if limit <=? 0 then 20 else limit) <= n ->
  view r (auth_key c) t = Some (n, None) ->
  exists r', AuthRateLimit limit w (Some r) false false t' c = (Some r', TooManyRequests None) /\
    view r' (auth_key c) t' = Some (n + 1, None).
Proof.
  intros Ht Hn Hv. unfold AuthRateLimit. fold (auth_key c).
  pose proof (view_persists _ _ t t' _ _ Ht Hv) as Hv'. cbn iota in Hv'.
  rewrite incr_ok, Hv'. pose proof (incr_view r (auth_key c) t') as Hi. rewrite Hv' in Hi.
  set (l := if limit <=? 0 then 20 else limit) in *.
  assert (0 < l) by (subst l; destruct (Z.leb_spec limit 0); lia).
  rewrite (proj2 (Z.eqb_neq (n + 1) 1)) by lia.
  destruct (Z.gtb_spec (n + 1) l); [|lia]. by eexists.
Qed.

(** The failing [EXPIRE] is what leaves such a counter behind. *)
Lemma auth_limit_expire_fails limit w r t c :
  view r (auth_key c) t = None -> 1 <= (if limit <=? 0 then 20 else limit) ->
  exists r', AuthRateLimit limit w (Some r) false true t c = (Some r', NextHandler None) /\
    view r' (auth_key c) t = Some (1, None).
Proof.
  intros Hv Hl. unfold AuthRateLimit. fold (auth_key c).
  rewrite incr_ok, Hv. pose proof (incr_view r (auth_key c) t) as Hi. rewrite Hv in Hi.
  simpl. rewrite expire_fail. change (0 + 1) with 1. destruct (Z.gtb_spec 1 (if limit <=? 0 then 20 else limit)); [lia|].
  simpl. by eexists.
Qed.
End Limiters.

(** ** An implementation of the interface *)

Abbreviation redis_map := (gmap string (Z * option Z)).
Open Scope Z_scope.

Definition map_view (r : redis_map) (k : string) (t : Z) : option (Z * option Z) :=
  match r !! k with
  | Some (c, Some e) => if t <? e then Some (c, Some e) else None
  | o => o
  end.

Definition map_incr (r : redis_map) (fails : bool) (k : string) (t : Z) : redis_map * option Z :=
  if fails then (r, None)
  else let '(c, d) := default (0, None) (map_view r k t) in
       (<[k := (c + 1, d)]> r, Some (c + 1)).

Definition map_expire (r : redis_map) (fails : bool) (k : string) (t w : Z) : redis_map * bool :=
  if fails then (r, false)
  else (match map_view r k t with
        | Some (c, _) => <[k := (c, Some (t + w))]> r
        | None => r
        end, true).

Lemma map_view_insert (r : redis_map) k t c d :
  match d with Some e => t < e | None => True end ->
  map_view (<[k := (c, d)]> r) k t = Some (c, d).
Proof.
  intros Hd. unfold map_view. rewrite lookup_insert_eq. destruct d; [|done].
  by rewrite (proj2 (Z.ltb_lt _ _) Hd).
Qed.

Lemma map_view_Some (r : redis_map) k t c d :
  map_view r k t = Some (c, d) ->
  r !! k = Some (c, d) /\ match d with Some e => t < e | None => True end.
Proof.
  unfold map_view. destruct (r !! k) as [[c' [e|]]|]; [|by intros; simplify_eq|done].
  destruct (Z.ltb_spec t e); intros; by simplify_eq.
Qed.

#[export] Program Instance redis_map_counters : RedisCounters redis_map := {|
  view := map_view; incr := map_incr; expire := map_expire |}.
Next Obligation. intros r k t. unfold map_incr. by destruct (map_view r k t) as [[c d]|]. Qed.
Next Obligation.
  intros r k t. unfold map_incr. destruct (map_view r k t) as [[c d]|] eqn:E; cbn.
  - apply map_view_Some in E as [_ Hd]. by apply map_view_insert.
  - by apply map_view_insert.
Qed.
Next Obligation. done. Qed.
Next Obligation. done. Qed.
Next Obligation.
  intros r k t w c d Hw Hv. unfold map_expire. rewrite Hv. cbn. apply map_view_insert. lia.
Qed.
Next Obligation. done. Qed.
Next Obligation.
  intros r k t t' c d Ht Hv. apply map_view_Some in Hv as [Hv Hd]. unfold map_view. rewrite Hv.
  by destruct d.
Qed.

Definition witness_client : limit_request :=
  {| x_api_key := ""; query_token := ""; query_api_key := "";
     real_ip := "10.0.0.1"; remote_addr := "10.0.0.1:443" |}.

Lemma RedisRateLimit_window_witness :
  map admitted (burst 2 minute (∅ : redis_map) witness_client [0; 1; 2; 3]).2 =
  [true; true; false; false].
Proof.
  rewrite (RedisRateLimit_window 2 minute (∅ : redis_map) witness_client 0 [1; 2; 3]);
    [reflexivity | reflexivity | reflexivity | repeat constructor; lia
    | repeat constructor; unfold minute, second; lia].
Defined.

Lemma auth_limit_without_deadline_witness :
  exists r', AuthRateLimit 20 minute
      (Some ({[ auth_key witness_client := (20, None) ]} : redis_map)) false false
      (1000 * day) witness_client = (Some r', TooManyRequests None).
Proof.
  destruct (auth_limit_without_deadline 20 minute
     ({[ auth_key witness_client := (20, None) ]} : redis_map) 0 witness_client 20 (1000 * day))
    as (r' & H & _); [discriminate | discriminate | vm_compute; reflexivity |].
  exists r'. exact H.
Defined.
