(* ===== verification/Cron.v ===== *)
(** * Cron: [internal/shared/cronx/cronx.go] and [internal/dataplane/alerting/cron.go]

    The platform's two copies of the minimal 5-field cron matcher: [Cronx] (agent
    scheduler, connector engine) and [AlertCron] (alert evaluator).  The calendar
    fields Go's [time.Time] answers are the record [cron_time].  [Expr] is the
    documented language, as syntax with a printer and a meaning. *)

From S2P Require Import Prelude GoStrings.
From Stdlib Require Import Ascii.
Import String.
Open Scope string_scope.
Open Scope Z_scope.

Record cron_time := {
  Minute : Z;
  Hour : Z;
  Day : Z;
  Month : Z;
  Weekday : Z;
}.

Module Cronx.

Definition step_of (part : string) : option (Z * string) :=
  match index_of part "/" with
  | Some i =>
      match atoi (drop_str (i + 1) part) with
      | Some s => if s <=? 0 then None else Some (s, take_str i part)
      | None => None
      end
  | None => Some (1, part)
  end.

Definition singleFieldMatches (part : string) (val : Z) : bool :=
  match step_of part with
  | None => false
  | Some (step, part) =>
      if String.eqb part "*" || String.eqb part "" then Z.rem val step =? 0
      else
        match index_of part "-" with
        | Some i =>
            match atoi (take_str i part), atoi (drop_str (i + 1) part) with
            | Some lo, Some hi =>
                (lo <=? val) && (val <=? hi) && (Z.rem (val - lo) step =? 0)
            | _, _ => false
            end
        | None =>
            match atoi part with
            | Some n => n =? val
            | None => false
            end
        end
  end.

Definition fieldMatches (field : string) (val : Z) : bool :=
  existsb (fun part => singleFieldMatches (trim_space part) val) (split_byte "," field).

Definition Matches (expr : string) (t : cron_time) : bool :=
  match fields expr with
  | [f0; f1; f2; f3; f4] =>
      fieldMatches f0 (Minute t) && fieldMatches f1 (Hour t) && fieldMatches f2 (Day t) &&
      fieldMatches f3 (Month t) && fieldMatches f4 (Weekday t)
  | _ => false
  end.

End Cronx.

Module AlertCron.

Definition cronSingle (part : string) (val : Z) : bool :=
  let after_step step part :=
    if String.eqb part "*" || String.eqb part "" then Z.rem val step =? 0
    else
      match index_of part "-" with
      | Some i =>
          match atoi (take_str i part) with
          | None => false
          | Some lo =>
              match atoi (drop_str (i + 1) part) with
              | None => false
              | Some hi => (lo <=? val) && (val <=? hi) && (Z.rem (val - lo) step =? 0)
              end
          end
      | None => match atoi part with Some n => n =? val | None => false end
      end in
  match index_of part "/" with
  | None => after_step 1 part
  | Some i =>
      match atoi (drop_str (i + 1) part) with
      | None => false
      | Some s => if s <=? 0 then false else after_step s (take_str i part)
      end
  end.

Fixpoint cron_parts (parts : list string) (val : Z) : bool :=
  match parts with
  | [] => false
  | part :: rest => if cronSingle (trim_space part) val then true else cron_parts rest val
  end.

Definition cronField (field : string) (val : Z) : bool :=
  cron_parts (split_byte "," field) val.

Definition CronMatches (expr : string) (t : cron_time) : bool :=
  let fs := fields expr in
  if negb (Nat.eqb (length fs) 5) then false
  else
    cronField (nth 0 fs "") (Minute t) && cronField (nth 1 fs "") (Hour t) &&
    cronField (nth 2 fs "") (Day t) && cronField (nth 3 fs "") (Month t) &&
    cronField (nth 4 fs "") (Weekday t).

End AlertCron.

(** ** The documented language: '*', '*/n', 'a-b', and comma lists *)

Module Expr.

Inductive item :=
| Any
| Every (n : Z)
| Value (a : Z)
| Range (a b : Z)
| RangeEvery (a b n : Z).

Definition item_ok (i : item) : bool :=
  let ok z := (0 <=? z) && (z <=? max_i64) in
  match i with
  | Any => true
  | Every n => ok n && (0 <? n)
  | Value a => ok a
  | Range a b => ok a && ok b
  | RangeEvery a b n => ok a && ok b && ok n && (0 <? n)
  end.

Definition print_item (i : item) : string :=
  match i with
  | Any => "*"
  | Every n => "*" +:+ String "/" (itoa n)
  | Value a => itoa a
  | Range a b => itoa a +:+ String "-" (itoa b)
  | RangeEvery a b n => (itoa a +:+ String "-" (itoa b)) +:+ String "/" (itoa n)
  end.

Definition item_holds (i : item) (v : Z) : bool :=
  match i with
  | Any => true
  | Every n => v mod n =? 0
  | Value a => a =? v
  | Range a b => (a <=? v) && (v <=? b)
  | RangeEvery a b n => (a <=? v) && (v <=? b) && ((v - a) mod n =? 0)
  end.

Definition print_field (its : list item) : string := join_byte "," (map print_item its).
Definition field_holds (its : list item) (v : Z) : bool := existsb (fun i => item_holds i v) its.
Definition field_ok (its : list item) : bool :=
  negb (Nat.eqb (length its) 0) && forallb item_ok its.

Record expr := { minutes : list item; hours : list item; days : list item;
                 months : list item; weekdays : list item }.

Definition expr_fields (e : expr) : list (list item) :=
  [minutes e; hours e; days e; months e; weekdays e].

Definition print (e : expr) : string := join_byte " " (map print_field (expr_fields e)).

Definition expr_ok (e : expr) : bool := forallb field_ok (expr_fields e).

Definition holds (e : expr) (t : cron_time) : bool :=
  field_holds (minutes e) (Minute t) && field_holds (hours e) (Hour t) &&
  field_holds (days e) (Day t) && field_holds (months e) (Month t) &&
  field_holds (weekdays e) (Weekday t).

End Expr.
Import Expr.

(** ** Lemmas *)

Lemma free_append c s t : exists_byte (Ascii.eqb c) s = false ->
  exists_byte (Ascii.eqb c) t = false -> exists_byte (Ascii.eqb c) (s +:+ t) = false.
Proof. intros Hs Ht. by rewrite exists_byte_append, Hs, Ht. Qed.

Lemma free_cons c a s : Ascii.eqb c a = false ->
  exists_byte (Ascii.eqb c) s = false -> exists_byte (Ascii.eqb c) (String a s) = false.
Proof. intros Ha Hs. cbn. by rewrite Ha, Hs. Qed.

Lemma item_ok_range z : (0 <=? z) && (z <=? max_i64) = true -> 0 <= z <= max_i64.
Proof. intros. bool_props. lia. Qed.

Ltac item_bounds H :=
  cbn [item_ok] in H; bool_props.

(** A printed item has no separator of the enclosing syntax. *)
Lemma print_item_free i c : item_ok i = true -> c = ","%char \/ c = " "%char ->
  exists_byte (Ascii.eqb c) (print_item i) = false.
Proof.
  intros Hok Hc. assert (Hd : is_digit c = false) by (by destruct Hc as [-> | ->]).
  assert (Hs : Ascii.eqb c "/" = false /\ Ascii.eqb c "-" = false /\ Ascii.eqb c "*" = false)
    by (by destruct Hc as [-> | ->]). destruct Hs as (? & ? & ?).
  destruct i; item_bounds Hok; cbn [print_item];
    repeat first [apply free_append | apply free_cons]; auto using itoa_free; by apply Ascii.eqb_neq.
Qed.

Lemma print_item_nospace i : item_ok i = true -> exists_byte is_space (print_item i) = false.
Proof.
  intros Hok. destruct i; item_bounds Hok; cbn [print_item];
    rewrite ?exists_byte_append; cbn [exists_byte]; rewrite ?itoa_nospace by done; done.
Qed.

Lemma rem_mod v n : 0 <= v -> 0 < n -> Z.rem v n = v mod n.
Proof. intros. by apply Z.rem_mod_nonneg. Qed.

Lemma itoa_not_star n : 0 <= n -> String.eqb (itoa n) "*" || String.eqb (itoa n) "" = false.
Proof.
  intros Hn. apply orb_false_iff. split; apply String.eqb_neq.
  - intros E. pose proof (itoa_digits n Hn) as H. rewrite E in H. discriminate H.
  - by apply itoa_nonempty.
Qed.

Lemma range_not_star a b :
  String.eqb (itoa a +:+ String "-" (itoa b)) "*" ||
  String.eqb (itoa a +:+ String "-" (itoa b)) "" = false.
Proof.
  destruct (itoa a) as [|c s].
  - change ("" +:+ String "-" (itoa b)) with (String "-" (itoa b)). by destruct (itoa b).
  - rewrite append_cons_str. apply orb_false_iff. split; apply String.eqb_neq; [|done].
    intros [= -> E]. destruct s; discriminate E.
Qed.

(** The step of a printed item is read back. *)
Lemma step_of_slash s n : exists_byte (Ascii.eqb "/") s = false -> 0 < n <= max_i64 ->
  Cronx.step_of (s +:+ String "/" (itoa n)) = Some (n, s).
Proof.
  intros Hs Hn. unfold Cronx.step_of.
  rewrite index_of_byte, index_byte_append, drop_append, take_append, atoi_itoa by (done || lia).
  by rewrite (proj2 (Z.leb_gt n 0)) by lia.
Qed.

Lemma step_of_plain s : exists_byte (Ascii.eqb "/") s = false -> Cronx.step_of s = Some (1, s).
Proof. intros Hs. unfold Cronx.step_of. by rewrite index_of_byte, index_byte_free. Qed.

Definition after_step (step : Z) (part : string) (val : Z) : bool :=
  if String.eqb part "*" || String.eqb part "" then Z.rem val step =? 0
  else
    match index_of part "-" with
    | Some i =>
        match atoi (take_str i part), atoi (drop_str (i + 1) part) with
        | Some lo, Some hi => (lo <=? val) && (val <=? hi) && (Z.rem (val - lo) step =? 0)
        | _, _ => false
        end
    | None => match atoi part with Some n => n =? val | None => false end
    end.

Lemma after_step_range step a b v : 0 <= a <= max_i64 -> 0 <= b <= max_i64 -> 0 < step ->
  after_step step (itoa a +:+ String "-" (itoa b)) v =
  (a <=? v) && (v <=? b) && ((v - a) mod step =? 0).
Proof.
  intros Ha Hb Hs. unfold after_step. rewrite range_not_star, index_of_byte.
  rewrite index_byte_append, take_append, drop_append, !atoi_itoa by (try apply itoa_free; (done || lia)).
  destruct (Z.leb_spec a v); [|done]. destruct (v <=? b); [|done]. simpl.
  by rewrite rem_mod by lia.
Qed.

Lemma singleFieldMatches_print i v : item_ok i = true -> 0 <= v ->
  Cronx.singleFieldMatches (print_item i) v = item_holds i v.
Proof.
  intros Hok Hv.
  assert (Hsingle : forall s step part, Cronx.step_of s = Some (step, part) ->
            Cronx.singleFieldMatches s v = after_step step part v).
  { intros s step part E. unfold Cronx.singleFieldMatches. by rewrite E. }
  destruct i as [|n|a|a b|a b n]; item_bounds Hok; cbn [print_item item_holds].
  - rewrite (Hsingle _ 1 "*") by done. unfold after_step. simpl. by rewrite Z.rem_1_r.
  - rewrite (Hsingle _ n "*") by (apply step_of_slash; [done | lia]).
    unfold after_step. simpl. by rewrite rem_mod by lia.
  - rewrite (Hsingle _ 1 (itoa a)) by (apply step_of_plain, itoa_free; [lia | done]).
    unfold after_step. rewrite itoa_not_star by lia.
    rewrite index_of_byte, index_byte_free by (apply itoa_free; [lia | done]).
    by rewrite atoi_itoa by lia.
  - rewrite (Hsingle _ 1 (itoa a +:+ String "-" (itoa b)))
      by (apply step_of_plain, free_append; [|apply free_cons]; try apply itoa_free; done).
    rewrite after_step_range by lia. by rewrite Z.mod_1_r, andb_true_r.
  - rewrite (Hsingle _ n (itoa a +:+ String "-" (itoa b)))
      by (apply step_of_slash; [apply free_append; [|apply free_cons]; try apply itoa_free; done | lia]).
    by rewrite after_step_range by lia.
Qed.

Lemma fieldMatches_print its v : field_ok its = true -> 0 <= v ->
  Cronx.fieldMatches (print_field its) v = field_holds its v.
Proof.
  intros [Hne Hok]%andb_true_iff Hv. unfold Cronx.fieldMatches, print_field, field_holds.
  rewrite forallb_True' in Hok.
  rewrite split_join.
  - clear Hne. induction its as [|i its IH]; [done|]. simpl.
    assert (item_ok i = true) by (apply Hok; left).
    rewrite trim_space_nospace by (by apply print_item_nospace).
    rewrite singleFieldMatches_print by done. f_equal. apply IH.
    intros j Hj. apply Hok. by right.
  - by destruct its.
  - intros t (i & -> & Hi)%list_elem_of_fmap. apply print_item_free; auto.
Qed.

Lemma print_item_nonempty i : item_ok i = true -> print_item i <> "".
Proof.
  intros Hok E. destruct i as [|n|a|a b|a b n]; item_bounds Hok; cbn [print_item] in E; try done.
  - by apply (itoa_nonempty a).
  - by destruct (itoa a).
  - by destruct (itoa a).
Qed.

Lemma print_field_word its : field_ok its = true ->
  print_field its <> "" /\ exists_byte is_space (print_field its) = false.
Proof.
  intros [Hne Hok]%andb_true_iff. rewrite forallb_True' in Hok. unfold print_field.
  destruct its as [|i its]; [done|]. clear Hne. split.
  - pose proof (print_item_nonempty i (Hok i ltac:(left))) as Hi. simpl.
    destruct (map print_item its); [done|]. by destruct (print_item i).
  - revert i Hok. induction its as [|j its IH]; intros i Hok.
    + simpl. apply print_item_nospace, Hok. left.
    + change (join_byte "," (map print_item (i :: j :: its)))
        with (print_item i +:+ String "," (join_byte "," (map print_item (j :: its)))).
      rewrite exists_byte_append, print_item_nospace by (apply Hok; left).
      apply (IH j). intros k Hk. apply Hok. by right.
Qed.

(** ** Properties *)

(** For every expression of the documented language the matcher returns the
    expression's meaning at the given instant: '*' always, '*/n' on multiples of
    n, 'a-b' inside the range, a comma list when one of its items does. *)
Theorem Matches_print e t :
  expr_ok e = true ->
  0 <= Minute t -> 0 <= Hour t -> 0 <= Day t -> 0 <= Month t -> 0 <= Weekday t ->
  Cronx.Matches (print e) t = holds e t.
Proof.
  intros Hok H0 H1 H2 H3 H4. unfold expr_ok in Hok. cbn in Hok. rewrite andb_true_r in Hok.
  apply andb_true_iff in Hok as [Hf0 [Hf1 [Hf2 [Hf3 Hf4]%andb_true_iff]%andb_true_iff]%andb_true_iff].
  unfold Cronx.Matches, print. rewrite fields_join.
  - cbn [map expr_fields]. unfold holds. by rewrite !fieldMatches_print.
  - cbn. intros f Hf. repeat (apply elem_of_cons in Hf as [->|Hf]; [by apply print_field_word|]).
    by apply not_elem_of_nil in Hf.
Qed.

Lemma Matches_print_witness :
  Cronx.Matches "*/15 9-17 * * 1,3"
    {| Minute := 45; Hour := 12; Day := 4; Month := 7; Weekday := 3 |} = true.
Proof.
  exact (Matches_print
    {| minutes := [Every 15]; hours := [Range 9 17]; days := [Any]; months := [Any];
       weekdays := [Value 1; Value 3] |}
    {| Minute := 45; Hour := 12; Day := 4; Month := 7; Weekday := 3 |}
    eq_refl ltac:(discriminate) ltac:(discriminate) ltac:(discriminate) ltac:(discriminate)
    ltac:(discriminate)).
Defined.

(** The alerting package's own copy of the matcher agrees with the shared one
    on every expression and every instant. *)
Theorem CronMatches_Matches expr t : AlertCron.CronMatches expr t = Cronx.Matches expr t.
Proof.
  assert (Hs : forall p v, AlertCron.cronSingle p v = Cronx.singleFieldMatches p v).
  { intros p v. unfold AlertCron.cronSingle, Cronx.singleFieldMatches, Cronx.step_of.
    destruct (index_of p "/") as [i|].
    - destruct (atoi (drop_str (i + 1) p)) as [s|]; [|done]. by destruct (s <=? 0).
    - done. }
  assert (Hf : forall f v, AlertCron.cronField f v = Cronx.fieldMatches f v).
  { intros f v. unfold AlertCron.cronField, Cronx.fieldMatches.
    induction (split_byte "," f) as [|p ps IH]; [done|]. simpl. rewrite Hs, IH.
    by destruct (Cronx.singleFieldMatches _ _). }
  unfold AlertCron.CronMatches, Cronx.Matches.
  destruct (fields expr) as [|f0 [|f1 [|f2 [|f3 [|f4 [|f5 fs]]]]]]; try done.
  cbn [nth length Nat.eqb negb]. by rewrite !Hf.
Qed.

(** An empty list element is a wildcard: a field with a trailing or doubled
    comma matches every value. *)
Theorem empty_element_matches_all s v :
  exists_byte (Ascii.eqb ",") s = false ->
  Cronx.fieldMatches (s +:+ ",") v = true.
Proof.
  intros Hs. unfold Cronx.fieldMatches. rewrite split_byte_append by done. cbn [split_byte existsb].
  rewrite orb_true_iff. right. rewrite orb_true_iff. left.
  change (trim_space "") with "". unfold Cronx.singleFieldMatches. cbn.
  by rewrite Z.rem_1_r.
Qed.

Lemma empty_element_matches_all_witness : Cronx.fieldMatches "5," 17 = true.
Proof. apply (empty_element_matches_all "5" 17). reflexivity. Defined.
