(* ===== verification/Subjects.v ===== *)
(** * Subjects: the subject half of [internal/dataplane/ingest/readiness.go]

    Which messages a consumer can be offered is decided by comparing the
    stream's subject list with the consumer's filters, pattern against
    pattern.  A subject is its list of dot-separated tokens. *)

From S2P Require Import Prelude GoStrings.
From Stdlib Require Import Ascii.
Import String.
Open Scope string_scope.
Open Scope Z_scope.

(** ** Operations *)

Definition subjectLiteral (subject : string) : bool := negb (contains_any subject "*>").

(** The token loop, the index folded into the remaining tokens. *)
Fixpoint match_tokens (pt st : list string) : bool :=
  match pt with
  | [] => match st with [] => true | _ => false end
  | p :: pt' =>
      if String.eqb p ">" then match st with [] => false | _ => true end
      else match st with
           | [] => false
           | t :: st' =>
               if negb (String.eqb p "*") && negb (String.eqb p t) then false
               else match_tokens pt' st'
           end
  end.

Definition subjectMatches (pattern subject : string) : bool :=
  match_tokens (split_byte "." pattern) (split_byte "." subject).

Definition filterCovers (filterSubjects : list string) (stream : string) : bool :=
  existsb (fun f => subjectMatches f stream) filterSubjects.

(** The least and greatest subject length; a greatest length of 0 is unbounded. *)
Fixpoint token_range_from (i : Z) (tokens : list string) : Z * Z :=
  match tokens with
  | [] => (i, i)
  | token :: rest => if String.eqb token ">" then (i + 1, 0) else token_range_from (i + 1) rest
  end.

Definition tokenLengthRange (tokens : list string) : Z * Z := token_range_from 0 tokens.

Definition disjointLengths (a b : list string) : bool :=
  let '(amin, amax) := tokenLengthRange a in
  let '(bmin, bmax) := tokenLengthRange b in
  if negb (amax =? 0) && (amax <? bmin) then true
  else if negb (bmax =? 0) && (bmax <? amin) then true
  else false.

Fixpoint tokens_differ (a b : list string) : bool :=
  match a, b with
  | x :: a', y :: b' =>
      if String.eqb x ">" || String.eqb y ">" then false
      else if String.eqb x y || String.eqb x "*" || String.eqb y "*" then tokens_differ a' b'
      else true
  | _, _ => false
  end.

Definition subjectsDisjoint (a b : string) : bool :=
  let at_ := split_byte "." a in
  let bt := split_byte "." b in
  if disjointLengths at_ bt then true else tokens_differ at_ bt.

Fixpoint filterCarried (streamSubjects : list string) (filter : string) : bool :=
  match streamSubjects with
  | [] => false
  | s :: rest =>
      if subjectLiteral filter then
        if subjectMatches s filter then true else filterCarried rest filter
      else if negb (subjectLiteral s) then
        if negb (subjectsDisjoint s filter) then true else filterCarried rest filter
      else if subjectMatches filter s then true else filterCarried rest filter
  end.

(** The second loop of [streamCarries]. *)
Fixpoint stream_dedicated (filterSubjects streamSubjects : list string) : bool :=
  match streamSubjects with
  | [] => true
  | s :: rest =>
      if negb (subjectLiteral s) then false
      else if negb (filterCovers filterSubjects s) then false
      else stream_dedicated filterSubjects rest
  end.

Definition streamCarries (streamSubjects filterSubjects : list string) : bool * bool :=
  match filterSubjects with
  | [] => (true, true)
  | _ =>
      if existsb (fun f => negb (filterCarried streamSubjects f)) filterSubjects
      then (false, false)
      else (true, stream_dedicated filterSubjects streamSubjects)
  end.

(** [jetstream.ConsumerConfig]'s two filter fields. *)
Definition consumerFilterSubjects (filters : list string) (filter : string) : list string :=
  match filters with
  | _ :: _ => filters
  | [] => if String.eqb filter "" then [] else [filter]
  end.

(** ** The NATS subject grammar *)

(** [covers pt st]: the pattern [pt] is offered the concrete subject [st]. *)
Inductive covers : list string -> list string -> Prop :=
| CoversEnd : covers [] []
| CoversTail pt t st : covers (">" :: pt) (t :: st)
| CoversAny pt t st : covers pt st -> covers ("*" :: pt) (t :: st)
| CoversToken t pt st : covers pt st -> covers (t :: pt) (t :: st).

Definition offered (pattern subject : string) : Prop :=
  covers (split_byte "." pattern) (split_byte "." subject).

#[export] Hint Constructors covers : agentray.

(** ** Lemmas *)

Lemma match_tokens_covers pt st : match_tokens pt st = true -> covers pt st.
Proof.
  revert st. induction pt as [|p pt IH]; intros [|t st]; simpl; try done.
  - intros _. constructor.
  - by destruct (String.eqb p ">").
  - destruct (String.eqb p ">") eqn:E; bool_props; [subst; constructor|].
    destruct (String.eqb p "*") eqn:E1; bool_props; simpl.
    + subst. intros. constructor. by apply IH.
    + destruct (String.eqb p t) eqn:E2; bool_props; simpl; [|done].
      subst. intros. constructor. by apply IH.
Qed.

Lemma covers_match_tokens pt st :
  covers pt st -> match_tokens pt st = true.
Proof.
  induction 1 as [|pt t st|pt t st _ IH|t pt st _ IH]; simpl; [done..|].
  destruct (String.eqb t ">"); [done|]. rewrite String.eqb_refl, andb_false_r. done.
Qed.

Lemma subjectMatches_offered p s : subjectMatches p s = true <-> offered p s.
Proof. split; [apply match_tokens_covers | apply covers_match_tokens]. Qed.

(** A token with no wildcard byte is not a wildcard. *)
Lemma literal_token s t :
  subjectLiteral s = true -> t ∈ split_byte "." s -> t <> ">" /\ t <> "*".
Proof.
  unfold subjectLiteral, contains_any. intros H Ht. bool_props.
  pose proof (split_byte_exists _ _ _ _ H Ht) as Hw. split; intros ->; done.
Qed.

Lemma covers_literal pt st :
  (forall t, t ∈ pt -> t <> ">" /\ t <> "*") -> covers pt st -> st = pt.
Proof.
  intros Hpt Hc. induction Hc as [|pt t st|pt t st Hc IH|t pt st Hc IH].
  - done.
  - destruct (Hpt ">") as [[] _]; [by left|done].
  - destruct (Hpt "*") as [_ []]; [by left|done].
  - f_equal. apply IH. intros. apply Hpt. by right.
Qed.

(** A literal pattern is offered its own name only. *)
Lemma offered_literal p s : subjectLiteral p = true -> offered p s -> s = p.
Proof.
  intros Hp Ho. apply (split_byte_inj "."), covers_literal; [|done].
  intros t Ht. by eapply literal_token.
Qed.

Lemma offered_refl s : offered s s.
Proof. unfold offered. induction (split_byte "." s); constructor; done. Qed.

#[export] Hint Resolve offered_refl : agentray.

Lemma token_range_min i ts : i <= (token_range_from i ts).1.
Proof.
  revert i. induction ts as [|t ts IH]; intros i; simpl; [lia|].
  destruct (String.eqb t ">"); simpl; [lia|]. specialize (IH (i + 1)). lia.
Qed.

(** The lengths a pattern is offered lie in its range. *)
Lemma covers_range i pt st :
  0 <= i -> covers pt st ->
  (token_range_from i pt).1 <= i + Z.of_nat (length st) /\
  ((token_range_from i pt).2 = 0 \/ i + Z.of_nat (length st) <= (token_range_from i pt).2).
Proof.
  intros Hi Hc. revert i Hi.
  induction Hc as [|pt t st|pt t st Hc IH|t pt st Hc IH]; intros i Hi; cbn [token_range_from].
  - simpl. lia.
  - simpl. lia.
  - simpl. destruct (IH (i + 1)) as [H1 H2]; [lia|]. split; [lia|]. destruct H2; [by left|right; lia].
  - destruct (String.eqb t ">"); simpl; [lia|].
    destruct (IH (i + 1)) as [H1 H2]; [lia|]. split; [lia|]. destruct H2; [by left|right; lia].
Qed.

Lemma disjointLengths_sound a b st :
  disjointLengths a b = true -> covers a st -> covers b st -> False.
Proof.
  unfold disjointLengths, tokenLengthRange. intros H Ha Hb.
  destruct (covers_range 0 a st) as [A1 A2], (covers_range 0 b st) as [B1 B2]; try done.
  destruct (token_range_from 0 a) as [amin amax], (token_range_from 0 b) as [bmin bmax].
  simpl in *. destruct (_ && _) eqn:E1; bool_props; [lia|].
  destruct (negb (bmax =? 0) && (bmax <? amin)) eqn:E2; bool_props; [lia|done].
Qed.

Lemma tokens_differ_sound a b st :
  tokens_differ a b = true -> covers a st -> covers b st -> False.
Proof.
  intros H Ha. revert b H.
  induction Ha as [|pt t st|pt t st Ha IH|t pt st Ha IH]; intros [|y b] H Hb; try done.
  - simpl in H. destruct (String.eqb y ">") eqn:E; [done|]. rewrite orb_true_r in H.
    simpl in H. inversion Hb; subst; [done|eapply IH; [exact H|done]..].
  - simpl in H. destruct (String.eqb t ">" || String.eqb y ">") eqn:E; [done|].
    inversion Hb; subst.
    + by rewrite orb_true_r in E.
    + rewrite orb_true_r in H. eapply IH; [exact H|done].
    + rewrite String.eqb_refl in H. eapply IH; [exact H|done].
Qed.

Lemma subjectsDisjoint_sound a b s :
  subjectsDisjoint a b = true -> offered a s -> offered b s -> False.
Proof.
  unfold subjectsDisjoint. intros H. destruct (disjointLengths _ _) eqn:E.
  - by apply disjointLengths_sound.
  - by apply tokens_differ_sound.
Qed.

Lemma filterCarried_false streams f s subj :
  filterCarried streams f = false -> s ∈ streams ->
  offered f subj -> offered s subj -> False.
Proof.
  intros H Hs Hf Hsubj. induction streams as [|x streams IH]; [by apply not_elem_of_nil in Hs|].
  cbn [filterCarried] in H.
  assert (Hx : s ∈ streams -> filterCarried streams f = false -> False) by (intros; auto).
  clear IH. destruct (subjectLiteral f) eqn:Lf.
  - destruct (subjectMatches x f) eqn:M; [done|].
    apply elem_of_cons in Hs as [->|?]; [|auto].
    rewrite (offered_literal _ _ Lf Hf) in Hsubj.
    by apply subjectMatches_offered in Hsubj; rewrite M in Hsubj.
  - destruct (subjectLiteral x) eqn:Lx; simpl in H.
    + destruct (subjectMatches f x) eqn:M; [done|].
      apply elem_of_cons in Hs as [->|?]; [|auto].
      rewrite (offered_literal _ _ Lx Hsubj) in Hf.
      by apply subjectMatches_offered in Hf; rewrite M in Hf.
    + destruct (subjectsDisjoint x f) eqn:D; simpl in H; [|done].
      apply elem_of_cons in Hs as [->|?]; [|auto]. by eapply subjectsDisjoint_sound.
Qed.

Lemma filterCarried_literal streams f :
  subjectLiteral f = true ->
  filterCarried streams f = true <-> exists s, s ∈ streams /\ offered s f.
Proof.
  intros Hf. assert (E : filterCarried streams f = existsb (fun s => subjectMatches s f) streams).
  { induction streams as [|s streams IH]; [done|]. cbn [filterCarried existsb].
    rewrite Hf, IH. by destruct (subjectMatches s f). }
  rewrite E, existsb_True. by setoid_rewrite subjectMatches_offered.
Qed.

Lemma stream_dedicated_spec filters streams :
  stream_dedicated filters streams = true <->
  (forall s, s ∈ streams -> subjectLiteral s = true /\ exists f, f ∈ filters /\ offered f s).
Proof.
  induction streams as [|x streams IH]; simpl.
  - split; [intros _ s Hs; by apply not_elem_of_nil in Hs | done].
  - destruct (subjectLiteral x) eqn:L; simpl.
    + destruct (filterCovers filters x) eqn:C; simpl.
      * rewrite IH. unfold filterCovers in C. apply existsb_True in C as (f & Hf & Hm).
        apply subjectMatches_offered in Hm. split.
        -- intros H s Hs. apply elem_of_cons in Hs as [->|Hs]; eauto.
        -- intros H s Hs. apply H. by right.
      * split; [done|]. intros H. destruct (H x) as [_ (f & Hf & Ho)]; [by left|].
        unfold filterCovers in C. rewrite existsb_False in C.
        apply subjectMatches_offered in Ho. by rewrite (C f Hf) in Ho.
    + split; [done|]. intros H. destruct (H x) as [Hx _]; [by left|]. congruence.
Qed.

(** ** Properties *)

(** A colour is refused as unwired only when one of its filters can be offered
    nothing the stream carries, and then the stream is not reported dedicated. *)
Theorem streamCarries_unwired streams filters d :
  streamCarries streams filters = (false, d) ->
  d = false /\
  exists f, f ∈ filters /\ forall s subj, s ∈ streams -> offered f subj -> ~ offered s subj.
Proof.
  unfold streamCarries. destruct filters as [|f0 fs] eqn:Hfs; [done|]. rewrite <- Hfs.
  destruct (existsb _ _) eqn:E; [|done]. intros [= <-]. split; [done|].
  apply existsb_True in E as (f & Hf & Hc). bool_props. exists f. split; [done|].
  intros s subj Hs Ho Ho'. by eapply filterCarried_false.
Qed.

Lemma streamCarries_unwired_witness :
  streamCarries ["dev.events"; "dev.rows.*"] ["prod.*"; "dev.events"] = (false, false) /\
  exists f, f ∈ ["prod.*"; "dev.events"] /\
    forall s subj, s ∈ ["dev.events"; "dev.rows.*"] -> offered f subj -> ~ offered s subj.
Proof.
  split; [reflexivity|].
  apply (streamCarries_unwired ["dev.events"; "dev.rows.*"] ["prod.*"; "dev.events"] false).
  reflexivity.
Defined.

(** A consumer reported as dedicated is offered every message the stream can
    hold, so its own sequence numbers count the whole stream. *)
Theorem streamCarries_dedicated streams filters w :
  streamCarries streams filters = (w, true) ->
  w = true /\
  (filters = [] \/
   forall s subj, s ∈ streams -> offered s subj -> exists f, f ∈ filters /\ offered f subj).
Proof.
  unfold streamCarries. destruct filters as [|f0 fs] eqn:Hfs.
  - intros [= <-]. split; [done|]. by left.
  - rewrite <- Hfs. destruct (existsb _ _); [done|]. intros [= <- Hd].
    split; [done|]. right. intros s subj Hs Ho.
    apply (proj1 (stream_dedicated_spec _ _) Hd) in Hs as [Hl (f & Hf & Hfo)].
    exists f. split; [done|]. by rewrite (offered_literal _ _ Hl Ho).
Qed.

Lemma streamCarries_dedicated_witness :
  streamCarries ["dev.events"; "dev.rows"] ["dev.>"] = (true, true) /\
  (["dev.>"] = [] \/
   forall s subj, s ∈ ["dev.events"; "dev.rows"] -> offered s subj ->
     exists f, f ∈ ["dev.>"] /\ offered f subj).
Proof.
  split; [reflexivity|].
  apply (streamCarries_dedicated ["dev.events"; "dev.rows"] ["dev.>"] true). reflexivity.
Defined.

(** For a consumer whose filters are concrete subjects the answer is exact: it
    is wired precisely when every filter is offered by some stream subject. *)
Theorem streamCarries_literal streams filters :
  (forall f, f ∈ filters -> subjectLiteral f = true) ->
  (streamCarries streams filters).1 = true <->
  (forall f, f ∈ filters -> exists s, s ∈ streams /\ offered s f).
Proof.
  intros Hl.
  assert (Hw : (streamCarries streams filters).1 = forallb (filterCarried streams) filters).
  { unfold streamCarries. destruct filters as [|f fs]; [done|].
    generalize (f :: fs). intros l. destruct (existsb _ l) eqn:E; simpl; symmetry.
    - apply existsb_True in E as (x & Hx & Hc). bool_props.
      apply not_true_is_false. rewrite forallb_True'. intros H. by rewrite H in Hc.
    - apply forallb_True'. rewrite existsb_False in E. intros x Hx.
      specialize (E x Hx). by bool_props. }
  rewrite Hw, forallb_True'. apply forall_proper. intros f. apply forall_iff_impl. intros Hf.
  rewrite filterCarried_literal by auto. done.
Qed.

Lemma streamCarries_literal_witness :
  (streamCarries ["dev.*"; "dev.rows"] ["dev.events"]).1 = true <->
  (forall f, f ∈ ["dev.events"] -> exists s, s ∈ ["dev.*"; "dev.rows"] /\ offered s f).
Proof.
  apply (streamCarries_literal ["dev.*"; "dev.rows"] ["dev.events"]).
  intros f Hf. apply list_elem_of_singleton in Hf as ->. reflexivity.
Defined.
