(* ===== verification/Duck.v ===== *)
(** * Duck: the per-colour DuckDB file

    The tables of [internal/dataplane/store/duckdb.go] that the ingest path
    reads and writes, as one record of finite maps keyed by their primary keys,
    the events row of [store.go], the write gate ([DuckDB.Write]: a transaction
    commits as a whole or leaves the file as it was) and the disk-space
    admission of [disk_reserve.go].

    Instants are [Z] nanoseconds.  UUID columns hold the canonical text. *)

From S2P Require Import Prelude GoStrings.
From stdpp Require Export gmap.
From Stdlib Require Import Ascii.
Import String.
Open Scope string_scope.
Open Scope Z_scope.

(** ** UUIDs

    [uuid_parse] is [github.com/google/uuid.Parse] and [sql_uuid] the engine's
    cast of a text parameter to a UUID column; both answer the canonical text. *)
Class UuidEnv := {
  uuid_parse : string -> option string;
  sql_uuid : string -> option string;
  uuid_parse_canonical s u : uuid_parse s = Some u -> sql_uuid u = Some u;
  sql_uuid_agrees s u v : uuid_parse s = Some u -> sql_uuid s = Some v -> v = u;
}.

(** ** Rows *)

Record Event := {
  e_ProjectID : string; e_EventID : string; e_DistinctID : string; e_SessionID : string;
  e_EventName : string; e_EventType : string; e_Properties : string; e_AgentID : string;
  e_ToolName : string; e_ToolInput : string; e_ToolOutput : string;
  e_TokensInput : option Z; e_TokensOutput : option Z; e_CostUSD : option Z;
  e_LatencyMS : option Z; e_ModelName : string; e_IsError : bool; e_ErrorMessage : string;
  e_Timestamp : Z; e_VisitorClass : string; e_BotName : string; e_ReferrerHost : string;
  e_ReferrerChannel : string; e_UserAgent : string; e_Platform : string;
  e_UTMSource : string; e_UTMMedium : string; e_UTMCampaign : string; e_UTMTerm : string;
  e_UTMContent : string; e_InsertID : string; e_IsUnplanned : bool;
}.

(** A merged profile; the trait maps hold raw JSON per key. *)
Record personRow := {
  p_SetProps : gmap string string; p_OnceProps : gmap string string; p_Email : string;
  p_Name : string; p_FirstSeen : Z; p_LastSeen : Z;
}.

Record position_row := { applied_seq : Z; refused_missing : Z }.

(** (project, connector, table): one configured source. *)
Abbreviation source_key := (string * string * string)%type.

Record source_row := {
  r_sync_id : option string; r_run_id : option string; r_generation : option string;
  r_generation_key : string; r_generation_seq : Z; r_binding_digest : string;
  r_capture_started_at : option Z; r_capture_finished_at : option Z;
  r_published_at : option Z; r_landed_at : option Z;
  r_landed_generation_key : option string; r_last_complete_at : option Z;
  r_expected_batches : option Z; r_expected_rows : option Z;
  r_completion_seen : bool; r_ordering_ambiguous : bool;
  r_mutation_seq : Z; r_updated_at : Z;
}.

Record batch_row := { b_index : option Z; b_payload_sha256 : string; b_landed_at : Z }.

(** (stream, subject, stream sequence, payload digest). *)
Abbreviation delivery_key := (string * string * Z * string)%type.

Record delivery_row := {
  l_project_id : option string; l_connector_id : option string; l_table_name : option string;
  l_generation_key : option string; l_applied_at : Z;
}.

Record hole_row := {
  h_project_id : option string; h_connector_id : option string; h_table_name : option string;
  h_unverifiable : bool; h_cleared_at : option Z;
}.

Record external_row := { x_cursor : string; x_data : string; x_synced_at : Z }.

Record snap_batch := {
  nb_sync_id : string; nb_generation_seq : Z; nb_binding_digest : string; nb_index : Z;
  nb_payload_sha256 : string; nb_row_count : Z; nb_capture_started_at : Z; nb_run_id : string;
}.

Record snap_row := { nr_batch_id : string; nr_data : string }.

Record snap_completion := {
  nc_sync_id : string; nc_generation_seq : Z; nc_binding_digest : string;
  nc_expected_batches : Z; nc_expected_rows : Z; nc_manifest_sha256 : string;
  nc_capture_started_at : Z; nc_capture_finished_at : Z; nc_run_id : string;
}.

Record snap_promotion := {
  np_sync_id : string; np_generation : string; np_generation_seq : Z; np_binding_digest : string;
  np_expected_batches : Z; np_expected_rows : Z; np_manifest_sha256 : string;
  np_capture_started_at : Z; np_capture_finished_at : Z; np_promoted_at : Z;
}.

(** ** The file *)

Record duckdb := {
  events : gmap (string * string) Event;
  persons : gmap (string * string) personRow;
  aliases : gmap (string * string) string;
  external_rows : gmap (source_key * string) external_row;
  ingest_position : gmap string position_row;
  receipt_sources : gmap source_key source_row;
  receipt_batches : gmap (source_key * string * string) batch_row;
  receipt_deliveries : gmap delivery_key delivery_row;
  receipt_holes : gmap delivery_key hole_row;
  snapshot_batches : gmap (source_key * string * string) snap_batch;
  snapshot_rows : gmap (source_key * string * string) snap_row;
  snapshot_completions : gmap (source_key * string) snap_completion;
  snapshot_promotions : gmap source_key snap_promotion;
  snapshot_cleanup : gset string;
}.

Definition empty_duckdb : duckdb :=
  {| events := ∅; persons := ∅; aliases := ∅; external_rows := ∅; ingest_position := ∅; receipt_sources := ∅;
     receipt_batches := ∅; receipt_deliveries := ∅; receipt_holes := ∅;
     snapshot_batches := ∅; snapshot_rows := ∅; snapshot_completions := ∅;
     snapshot_promotions := ∅; snapshot_cleanup := ∅ |}.

(** One statement changes one table. *)
Definition set_events v (d : duckdb) : duckdb :=
  Build_duckdb v (persons d) (aliases d) (external_rows d) (ingest_position d) (receipt_sources d)
    (receipt_batches d) (receipt_deliveries d) (receipt_holes d) (snapshot_batches d)
    (snapshot_rows d) (snapshot_completions d) (snapshot_promotions d) (snapshot_cleanup d).
Definition set_persons v (d : duckdb) : duckdb :=
  Build_duckdb (events d) v (aliases d) (external_rows d) (ingest_position d) (receipt_sources d)
    (receipt_batches d) (receipt_deliveries d) (receipt_holes d) (snapshot_batches d)
    (snapshot_rows d) (snapshot_completions d) (snapshot_promotions d) (snapshot_cleanup d).
Definition set_aliases v (d : duckdb) : duckdb :=
  Build_duckdb (events d) (persons d) v (external_rows d) (ingest_position d) (receipt_sources d)
    (receipt_batches d) (receipt_deliveries d) (receipt_holes d) (snapshot_batches d)
    (snapshot_rows d) (snapshot_completions d) (snapshot_promotions d) (snapshot_cleanup d).
Definition set_external_rows v (d : duckdb) : duckdb :=
  Build_duckdb (events d) (persons d) (aliases d) v (ingest_position d) (receipt_sources d)
    (receipt_batches d) (receipt_deliveries d) (receipt_holes d) (snapshot_batches d)
    (snapshot_rows d) (snapshot_completions d) (snapshot_promotions d) (snapshot_cleanup d).
Definition set_ingest_position v (d : duckdb) : duckdb :=
  Build_duckdb (events d) (persons d) (aliases d) (external_rows d) v (receipt_sources d)
    (receipt_batches d) (receipt_deliveries d) (receipt_holes d) (snapshot_batches d)
    (snapshot_rows d) (snapshot_completions d) (snapshot_promotions d) (snapshot_cleanup d).
Definition set_receipt_sources v (d : duckdb) : duckdb :=
  Build_duckdb (events d) (persons d) (aliases d) (external_rows d) (ingest_position d) v
    (receipt_batches d) (receipt_deliveries d) (receipt_holes d) (snapshot_batches d)
    (snapshot_rows d) (snapshot_completions d) (snapshot_promotions d) (snapshot_cleanup d).
Definition set_receipt_batches v (d : duckdb) : duckdb :=
  Build_duckdb (events d) (persons d) (aliases d) (external_rows d) (ingest_position d)
    (receipt_sources d) v (receipt_deliveries d) (receipt_holes d) (snapshot_batches d)
    (snapshot_rows d) (snapshot_completions d) (snapshot_promotions d) (snapshot_cleanup d).
Definition set_receipt_deliveries v (d : duckdb) : duckdb :=
  Build_duckdb (events d) (persons d) (aliases d) (external_rows d) (ingest_position d)
    (receipt_sources d) (receipt_batches d) v (receipt_holes d) (snapshot_batches d)
    (snapshot_rows d) (snapshot_completions d) (snapshot_promotions d) (snapshot_cleanup d).
Definition set_receipt_holes v (d : duckdb) : duckdb :=
  Build_duckdb (events d) (persons d) (aliases d) (external_rows d) (ingest_position d)
    (receipt_sources d) (receipt_batches d) (receipt_deliveries d) v (snapshot_batches d)
    (snapshot_rows d) (snapshot_completions d) (snapshot_promotions d) (snapshot_cleanup d).
Definition set_snapshot_batches v (d : duckdb) : duckdb :=
  Build_duckdb (events d) (persons d) (aliases d) (external_rows d) (ingest_position d)
    (receipt_sources d) (receipt_batches d) (receipt_deliveries d) (receipt_holes d) v
    (snapshot_rows d) (snapshot_completions d) (snapshot_promotions d) (snapshot_cleanup d).
Definition set_snapshot_rows v (d : duckdb) : duckdb :=
  Build_duckdb (events d) (persons d) (aliases d) (external_rows d) (ingest_position d)
    (receipt_sources d) (receipt_batches d) (receipt_deliveries d) (receipt_holes d)
    (snapshot_batches d) v (snapshot_completions d) (snapshot_promotions d) (snapshot_cleanup d).
Definition set_snapshot_completions v (d : duckdb) : duckdb :=
  Build_duckdb (events d) (persons d) (aliases d) (external_rows d) (ingest_position d)
    (receipt_sources d) (receipt_batches d) (receipt_deliveries d) (receipt_holes d)
    (snapshot_batches d) (snapshot_rows d) v (snapshot_promotions d) (snapshot_cleanup d).
Definition set_snapshot_promotions v (d : duckdb) : duckdb :=
  Build_duckdb (events d) (persons d) (aliases d) (external_rows d) (ingest_position d)
    (receipt_sources d) (receipt_batches d) (receipt_deliveries d) (receipt_holes d)
    (snapshot_batches d) (snapshot_rows d) (snapshot_completions d) v (snapshot_cleanup d).
Definition set_snapshot_cleanup v (d : duckdb) : duckdb :=
  Build_duckdb (events d) (persons d) (aliases d) (external_rows d) (ingest_position d)
    (receipt_sources d) (receipt_batches d) (receipt_deliveries d) (receipt_holes d)
    (snapshot_batches d) (snapshot_rows d) (snapshot_completions d) (snapshot_promotions d) v.

(** ** Errors and transactions *)

Inductive duck_error :=
| ErrIO
| ErrConversion
| ErrConstraint
| ErrDataCapacity
| ErrUUID (field : string)
| ErrTableRequired
| ErrBatchConflict
| ErrSequenceConflict
| ErrHoleIdentity
| ErrEnvelope (category : string)
| ErrStagedConflict (category : string).

#[export] Instance duck_error_eq_dec : EqDecision duck_error.
Proof. solve_decision. Defined.

(** [DuckDB.Write]: [io] says whether the engine fails (the gate is closed, the
    context is done, begin or commit is refused); a failed transaction changes
    nothing. *)
Definition Write (io : bool) (tx : duckdb -> result duck_error duckdb) (d : duckdb) :
    duckdb * option duck_error :=
  if io then (d, Some ErrIO)
  else match tx d with
       | Ok d' => (d', None)
       | Err e => (d, Some e)
       end.

(** [INSERT OR IGNORE] on a primary key. *)
Definition insert_or_ignore `{Countable K} {V} (k : K) (v : V) (m : gmap K V) : gmap K V :=
  match m !! k with Some _ => m | None => <[k := v]> m end.

(** A loop of statements stops at the first error. *)
Fixpoint fold_err {A S E} (f : A -> S -> result E S) (l : list A) (s : S) : result E S :=
  match l with
  | [] => Ok s
  | a :: l' => match f a s with Ok s' => fold_err f l' s' | Err e => Err e end
  end.

(** [any(nil)] for the empty string. *)
Definition text_or_null (s : string) : option string := if String.eqb s "" then None else Some s.

Definition uuid_or_null `{UuidEnv} (e : duck_error) (s : string) : result duck_error (option string) :=
  if String.eqb s "" then Ok None
  else match uuid_parse s with Some u => Ok (Some u) | None => Err e end.

(** A text parameter compared with a UUID column. *)
Definition cast_uuid `{UuidEnv} (s : string) : result duck_error string :=
  match sql_uuid s with Some u => Ok u | None => Err ErrConversion end.

(** [DiskReserve.Check]: [reserve] is [None] where no reserve is configured. *)
Definition DiskReserve_Check (reserve : option Z) (available : result duck_error Z) : option duck_error :=
  match reserve with
  | None => None
  | Some r => if r =? 0 then None
              else match available with
                   | Err _ => Some ErrDataCapacity
                   | Ok a => if a <? r then Some ErrDataCapacity else None
                   end
  end.

(** ** Lemmas *)

Lemma insert_or_ignore_Some `{Countable K} {V} (m : gmap K V) k v k' x :
  insert_or_ignore k v m !! k' = Some x <-> m !! k' = Some x \/ (m !! k = None /\ k' = k /\ x = v).
Proof.
  unfold insert_or_ignore. destruct (m !! k) eqn:Hk.
  - split; [by left|]. by intros [?|[? _]].
  - rewrite lookup_insert_Some. split.
    + intros [[<- <-]|[_ Hm]]; auto.
    + intros [Hm|(_ & -> & ->)]; [|by left]. right. split; [|done]. congruence.
Qed.

Lemma insert_or_ignore_keep `{Countable K} {V} (m : gmap K V) k v k' x :
  m !! k' = Some x -> insert_or_ignore k v m !! k' = Some x.
Proof. intros Hm. apply insert_or_ignore_Some. by left. Qed.

Lemma insert_or_ignore_in `{Countable K} {V} (m : gmap K V) k v :
  is_Some (insert_or_ignore k v m !! k).
Proof.
  unfold insert_or_ignore. destruct (m !! k) eqn:Hk; [by rewrite Hk|].
  rewrite lookup_insert_eq. eauto.
Qed.

#[export] Hint Resolve insert_or_ignore_keep insert_or_ignore_in : agentray.

(** A property each iteration preserves holds after the loop. *)
Lemma fold_err_ind {A S E} (f : A -> S -> result E S) (I : S -> Prop) l s s' :
  (forall a x x', a ∈ l -> f a x = Ok x' -> I x -> I x') ->
  fold_err f l s = Ok s' -> I s -> I s'.
Proof.
  revert s. induction l as [|a l IH]; simpl; intros s Hf; [by intros [= ->]|].
  destruct (f a s) as [s1|] eqn:Hfa; [|done]. intros Hl Hs.
  apply (IH s1); [|done|].
  - intros b x x' Hb. apply Hf. by right.
  - eapply Hf; [by left|done..].
Qed.

Lemma Write_error io tx d d' e : Write io tx d = (d', Some e) -> d' = d.
Proof. unfold Write. split_ifs. Qed.

Lemma Write_ok io tx d d' : Write io tx d = (d', None) -> io = false /\ tx d = Ok d'.
Proof. unfold Write. split_ifs. Qed.

(** A concrete environment: the 36-byte form, folded to lower case. *)
Definition hex_byte (c : Ascii.ascii) : bool :=
  is_digit c || ((97 <=? byte (lower_byte c)) && (byte (lower_byte c) <=? 102)).

Fixpoint uuid_shape (i : nat) (s : string) : bool :=
  match s with
  | EmptyString => Nat.eqb i 36
  | String c s' =>
      (if Nat.eqb i 8 || Nat.eqb i 13 || Nat.eqb i 18 || Nat.eqb i 23
       then Ascii.eqb c "-"%char else hex_byte c) && uuid_shape (S i) s'
  end.

Definition canonical_uuid (s : string) : option string :=
  if uuid_shape 0 s then Some (to_lower s) else None.

Lemma uuid_shape_lower i s : uuid_shape i (to_lower s) = uuid_shape i s.
Proof.
  revert i. induction s as [|c s IH]; intros i; [done|]. unfold to_lower in *.
  cbn [map_str uuid_shape]. rewrite IH. f_equal.
  destruct (_ || _); [|]; by destruct c as [[] [] [] [] [] [] [] []].
Qed.

#[export] Program Instance canonical_uuid_env : UuidEnv :=
  {| uuid_parse := canonical_uuid; sql_uuid := canonical_uuid |}.
Next Obligation.
  unfold canonical_uuid. intros s u. destruct (uuid_shape 0 s) eqn:E; [|done].
  intros [= <-]. by rewrite uuid_shape_lower, E, to_lower_idemp.
Qed.
Next Obligation. intros s u v -> [= ->]. done. Qed.
