(* ===== verification/Journal.v ===== *)
(** * Journal: what the DuckDB file remembers about the durable stream

    [internal/dataplane/store/duckdb_position.go] and the store half of
    [internal/dataplane/store/data_readiness.go]: the applied position of each
    durable, the delivery receipts, the coverage holes left by dead-lettered
    messages, and the per-source receipt that says whether a generation is
    complete.  Every function suffixed [Tx] runs inside one transaction. *)

From S2P Require Import Prelude GoStrings Duck.
From stdpp Require Import sorting.
From Stdlib Require Import Ascii.
Import String.
Open Scope string_scope.
Open Scope Z_scope.

(** ** Marks *)

Record DeliveryReceiptMark := {
  d_StreamID : string; d_Subject : string; d_StreamSeq : Z; d_PayloadSHA256 : string;
  d_PublishedAt : option Z; d_ProjectID : string; d_ConnectorID : string; d_Table : string;
  d_Replayed : bool; d_Unverifiable : bool;
}.

Record SourceReceiptMark := {
  s_ProjectID : string; s_ConnectorID : string; s_Table : string; s_SyncID : string;
  s_RunID : string; s_Generation : string; s_GenerationSeq : Z; s_BindingDigest : string;
  s_BatchID : string; s_BatchIndex : option Z; s_PayloadSHA256 : string;
  s_ExpectedBatches : option Z; s_ExpectedRows : option Z; s_CaptureStartedAt : option Z;
  s_CaptureFinishedAt : option Z; s_PublishedAt : option Z; s_Complete : bool; s_Promoted : bool;
}.

Record AppliedMark := {
  m_Durable : string; m_Seq : Z; m_Deliveries : list DeliveryReceiptMark;
  m_Source : option SourceReceiptMark; m_SettlementOnly : bool; m_suppressSourceMutation : bool;
}.

Record AppliedPosition := {
  pos_Known : bool; pos_Seq : Z; pos_RefusedMissing : Z; pos_HasIngest : bool;
}.

(** ** The applied position *)

Definition read_position (d : duckdb) (durable : string) : AppliedPosition :=
  {| pos_Known := match ingest_position d !! durable with Some _ => true | None => false end;
     pos_Seq := match ingest_position d !! durable with Some r => applied_seq r | None => 0 end;
     pos_RefusedMissing :=
       match ingest_position d !! durable with Some r => refused_missing r | None => 0 end;
     pos_HasIngest :=
       negb (bool_decide (events d = ∅)) || negb (bool_decide (external_rows d = ∅)) |}.

Definition advancePositionTx (mark : AppliedMark) (d : duckdb) : duckdb :=
  if String.eqb (m_Durable mark) "" then d
  else
    let m := insert_or_ignore (m_Durable mark)
               {| applied_seq := m_Seq mark; refused_missing := 0 |} (ingest_position d) in
    set_ingest_position
      (alter (fun r => if applied_seq r <? m_Seq mark
                       then {| applied_seq := m_Seq mark; refused_missing := refused_missing r |}
                       else r) (m_Durable mark) m) d.

Definition refuse_position (durable : string) (missing : Z) (d : duckdb) : duckdb :=
  let m := insert_or_ignore durable {| applied_seq := 0; refused_missing := missing |}
             (ingest_position d) in
  set_ingest_position
    (alter (fun r => if refused_missing r =? 0
                     then {| applied_seq := applied_seq r; refused_missing := missing |}
                     else r) durable m) d.

(** ** Delivery receipts and holes *)

Definition deliveryReceiptSuffixLimit : Z := 4096.

Definition delivery_key_of (v : DeliveryReceiptMark) : delivery_key :=
  (d_StreamID v, d_Subject v, d_StreamSeq v, d_PayloadSHA256 v).

Definition blank (s : string) : bool := String.eqb (trim_space s) "".

Definition null_matches (o : option string) (v : string) : bool :=
  match o with Some u => String.eqb u v | None => true end.

Definition invalidateSourceConfirmationsTx (projectID connectorID table : option string) (at_ : Z)
    (d : duckdb) : duckdb :=
  set_receipt_sources
    (map_imap (fun (k : source_key) r =>
       Some (if null_matches projectID k.1.1 && null_matches connectorID k.1.2
                && null_matches table k.2
             then {| r_sync_id := r_sync_id r; r_run_id := r_run_id r; r_generation := r_generation r;
                     r_generation_key := r_generation_key r; r_generation_seq := r_generation_seq r;
                     r_binding_digest := r_binding_digest r;
                     r_capture_started_at := r_capture_started_at r;
                     r_capture_finished_at := r_capture_finished_at r;
                     r_published_at := r_published_at r; r_landed_at := r_landed_at r;
                     r_landed_generation_key := r_landed_generation_key r;
                     r_last_complete_at := r_last_complete_at r;
                     r_expected_batches := r_expected_batches r;
                     r_expected_rows := r_expected_rows r;
                     r_completion_seen := r_completion_seen r;
                     r_ordering_ambiguous := r_ordering_ambiguous r;
                     r_mutation_seq := r_mutation_seq r + 1; r_updated_at := at_ |}
             else r)) (receipt_sources d)) d.

(** Newest first: [applied_at DESC, stream_id DESC, stream_seq DESC]. *)
Definition receipt_ranks (a b : delivery_key * delivery_row) : bool :=
  if l_applied_at b.2 <? l_applied_at a.2 then true
  else if l_applied_at a.2 <? l_applied_at b.2 then false
  else match String.compare a.1.1.1.1 b.1.1.1.1 with
       | Gt => true
       | Lt => false
       | Eq => b.1.1.2 <=? a.1.1.2
       end.

Definition ranks_first (a b : delivery_key * delivery_row) : Prop := receipt_ranks a b = true.

#[export] Instance ranks_first_dec a b : Decision (ranks_first a b).
Proof. unfold ranks_first. apply _. Defined.

Definition prune_deliveries (m : gmap delivery_key delivery_row) : gmap delivery_key delivery_row :=
  list_to_map (take (Z.to_nat deliveryReceiptSuffixLimit)
    (merge_sort ranks_first (map_to_list m))).

Definition open_hole (h : hole_row) : bool :=
  match h_cleared_at h with None => negb (h_unverifiable h) | Some _ => false end.

Definition clear_hole (at_ : Z) (h : hole_row) : hole_row :=
  if open_hole h
  then {| h_project_id := h_project_id h; h_connector_id := h_connector_id h;
          h_table_name := h_table_name h; h_unverifiable := h_unverifiable h;
          h_cleared_at := Some at_ |}
  else h.

Definition uncleared (h : hole_row) : bool :=
  match h_cleared_at h with None => true | Some _ => false end.

Definition drop_cleared (m : gmap delivery_key hole_row) : gmap delivery_key hole_row :=
  filter (fun kh => uncleared kh.2 = true) m.

Section Receipts.
Context `{UuidEnv}.

Definition delivery_recordable (v : DeliveryReceiptMark) : bool :=
  negb (blank (d_StreamID v) || blank (d_Subject v) || (d_StreamSeq v =? 0)
        || blank (d_PayloadSHA256 v)).

(** One iteration of the delivery loop of [recordAppliedReceiptsTx]. *)
Definition record_delivery (mark : AppliedMark) (landedAt : Z) (v : DeliveryReceiptMark)
    (d : duckdb) : result duck_error duckdb :=
  if negb (delivery_recordable v) then Ok d
  else
    let '(projectID, connectorID, table, generationKey) :=
      match m_Source mark with
      | Some s => (s_ProjectID s, s_ConnectorID s, s_Table s,
                   if String.eqb (s_Generation s) "" then s_RunID s else s_Generation s)
      | None => (d_ProjectID v, d_ConnectorID v, d_Table v, "")
      end in
    (try pid := uuid_or_null (ErrUUID "delivery project_id") projectID in
     try cid := uuid_or_null (ErrUUID "delivery connector_id") connectorID in
     let key := delivery_key_of v in
     let d1 := set_receipt_deliveries
       (insert_or_ignore key
          {| l_project_id := pid; l_connector_id := cid; l_table_name := text_or_null table;
             l_generation_key := text_or_null generationKey; l_applied_at := landedAt |}
          (receipt_deliveries d)) d in
     if d_Unverifiable v then
       Ok (set_receipt_holes
         (insert_or_ignore key
            {| h_project_id := pid; h_connector_id := cid; h_table_name := text_or_null table;
               h_unverifiable := true; h_cleared_at := None |} (receipt_holes d1)) d1)
     else if m_SettlementOnly mark || negb (d_Replayed v) then Ok d1
     else
       let d2 := set_receipt_holes (alter (clear_hole landedAt) key (receipt_holes d1)) d1 in
       match receipt_holes d1 !! key with
       | Some h =>
           if open_hole h then
             let d3 := invalidateSourceConfirmationsTx (h_project_id h) (h_connector_id h)
                         (h_table_name h) landedAt d2 in
             let d4 := set_receipt_deliveries (delete key (receipt_deliveries d3)) d3 in
             Ok (set_receipt_holes (delete key (receipt_holes d4)) d4)
           else Ok d2
       | None => Ok d2
       end)%go.

(** ** The per-source receipt *)

Definition generation_key (s : SourceReceiptMark) : string :=
  let g := if String.eqb (s_Generation s) "" then s_RunID s else s_Generation s in
  if String.eqb g "" then "legacy-unknown" else g.

(** [s.CaptureStartedAt.After(prior)], an unknown prior boundary being older. *)
Definition capture_after (s : SourceReceiptMark) (prior : source_row) : bool :=
  match s_CaptureStartedAt s with
  | None => false
  | Some a => match r_capture_started_at prior with None => true | Some b => b <? a end
  end.

(** The fence of [sourceReceiptSupersededTx] against one stored receipt. *)
Definition superseded_by (s : SourceReceiptMark) (prior : source_row) : result duck_error bool :=
  if s_GenerationSeq s <? r_generation_seq prior then
    if (s_GenerationSeq s =? 0) && (0 <? r_generation_seq prior) && capture_after s prior
    then Ok false else Ok true
  else if (0 <? s_GenerationSeq s) && (r_generation_seq prior =? 0) && negb (capture_after s prior)
  then Ok true
  else if (0 <? s_GenerationSeq s) && (s_GenerationSeq s =? r_generation_seq prior)
          && negb (String.eqb (generation_key s) (r_generation_key prior))
  then Err ErrSequenceConflict
  else if (s_GenerationSeq s =? 0) && (r_generation_seq prior =? 0)
          && negb (String.eqb (generation_key s) (r_generation_key prior))
          && negb (capture_after s prior)
  then Ok true
  else Ok false.

Definition sourceReceiptSupersededTx (d : duckdb) (s : SourceReceiptMark) : result duck_error bool :=
  (try pid := cast_uuid (s_ProjectID s) in
   try cid := cast_uuid (s_ConnectorID s) in
   match receipt_sources d !! (pid, cid, s_Table s) with
   | None => Ok false
   | Some prior => superseded_by s prior
   end)%go.

Definition count_batches (d : duckdb) (k : source_key) (gk : string) : Z :=
  Z.of_nat (size (filter (fun kb : (source_key * string * string) * batch_row =>
    kb.1.1 = (k, gk)) (receipt_batches d))).

Definition option_or {A} (a b : option A) : option A := match a with Some _ => a | None => b end.

(** [ON CONFLICT (project_id, connector_id, table_name) DO UPDATE SET ...]. *)
Definition upsert_source (excluded old : source_row) : source_row :=
  let moved := negb (String.eqb (r_generation_key excluded) (r_generation_key old)) in
  let pick {A} (f : source_row -> option A) :=
    if moved then f excluded else option_or (f excluded) (f old) in
  {| r_sync_id := option_or (r_sync_id excluded) (r_sync_id old);
     r_run_id := pick r_run_id;
     r_generation := pick r_generation;
     r_generation_key := r_generation_key excluded;
     r_generation_seq := r_generation_seq excluded;
     r_binding_digest :=
       if moved then r_binding_digest excluded
       else if String.eqb (r_binding_digest excluded) "" then r_binding_digest old
       else r_binding_digest excluded;
     r_capture_started_at := pick r_capture_started_at;
     r_capture_finished_at := pick r_capture_finished_at;
     r_published_at := pick r_published_at;
     r_landed_at := pick r_landed_at;
     r_landed_generation_key :=
       option_or (r_landed_generation_key excluded) (r_landed_generation_key old);
     r_last_complete_at := option_or (r_last_complete_at excluded) (r_last_complete_at old);
     r_expected_batches := pick r_expected_batches;
     r_expected_rows := pick r_expected_rows;
     r_completion_seen :=
       if moved then r_completion_seen excluded
       else r_completion_seen excluded || r_completion_seen old;
     r_ordering_ambiguous :=
       if (0 <? r_generation_seq excluded) && r_completion_seen excluded
          && match r_landed_generation_key excluded with
             | Some g => String.eqb g (r_generation_key excluded)
                         && match r_landed_generation_key old with
                            | None => true
                            | Some g' => negb (String.eqb g' g)
                            end
             | None => false
             end
       then false
       else r_ordering_ambiguous excluded || r_ordering_ambiguous old;
     r_mutation_seq := r_mutation_seq old + 1;
     r_updated_at := r_updated_at excluded |}.

(** Whether an unsequenced mark opens a new run over one that never completed,
    and whether the source was already ambiguous. *)
Definition prior_uncertainty (d : duckdb) (k : source_key) (s : SourceReceiptMark) : bool * bool :=
  if s_GenerationSeq s =? 0 then
    match receipt_sources d !! k with
    | Some r =>
        ((r_generation_seq r =? 0) && negb (String.eqb (r_generation_key r) (generation_key s))
         && (negb (r_completion_seen r)
             || match r_expected_batches r with
                | None => true
                | Some n => negb (count_batches d k (r_generation_key r) =? n)
                end),
         r_ordering_ambiguous r)
    | None => (false, false)
    end
  else (false, false).

Definition record_batch (k : source_key) (s : SourceReceiptMark) (landedAt : Z) (d : duckdb) :
    result duck_error duckdb :=
  if String.eqb (s_BatchID s) "" then Ok d
  else
    let bk := (k, generation_key s, s_BatchID s) in
    let conflict := match receipt_batches d !! bk with
                    | Some b => negb (String.eqb (b_payload_sha256 b) (s_PayloadSHA256 s))
                    | None => false
                    end in
    if conflict then Err ErrBatchConflict
    else Ok (set_receipt_batches
      (insert_or_ignore bk {| b_index := s_BatchIndex s; b_payload_sha256 := s_PayloadSHA256 s;
                              b_landed_at := landedAt |} (receipt_batches d)) d).

Definition locally_complete (d : duckdb) (k : source_key) (s : SourceReceiptMark)
    (incomplete ambiguous : bool) : bool :=
  s_Promoted s && s_Complete s
  && match s_ExpectedBatches s with
     | None => false
     | Some n => (count_batches d k (generation_key s) =? n) && negb incomplete && negb ambiguous
     end.

Definition discard_history (k : source_key) (gk : string) (d : duckdb) : duckdb :=
  let d1 := set_receipt_batches
    (filter (fun kb : (source_key * string * string) * batch_row =>
       negb (bool_decide (kb.1.1.1 = k) && negb (String.eqb kb.1.1.2 gk)) = true)
       (receipt_batches d)) d in
  set_receipt_deliveries
    (filter (fun kl : delivery_key * delivery_row =>
       negb (bool_decide (l_project_id kl.2 = Some k.1.1) && bool_decide (l_connector_id kl.2 = Some k.1.2)
             && bool_decide (l_table_name kl.2 = Some k.2)
             && match l_generation_key kl.2 with
                | None => false
                | Some g => negb (String.eqb g gk)
                end) = true) (receipt_deliveries d1)) d1.

(** The row the upsert proposes. *)
Definition excluded_row (s : SourceReceiptMark) (landedAt : Z)
    (syncID runID generation : option string) (complete incomplete : bool) : source_row :=
  {| r_sync_id := syncID; r_run_id := runID; r_generation := generation;
     r_generation_key := generation_key s; r_generation_seq := s_GenerationSeq s;
     r_binding_digest := s_BindingDigest s;
     r_capture_started_at := s_CaptureStartedAt s;
     r_capture_finished_at := s_CaptureFinishedAt s;
     r_published_at := s_PublishedAt s;
     r_landed_at := if s_Promoted s then Some landedAt else None;
     r_landed_generation_key := if s_Promoted s then Some (generation_key s) else None;
     r_last_complete_at := if complete then Some landedAt else None;
     r_expected_batches := s_ExpectedBatches s; r_expected_rows := s_ExpectedRows s;
     r_completion_seen := s_Complete s; r_ordering_ambiguous := incomplete;
     r_mutation_seq := 1; r_updated_at := landedAt |}.

(** The second half of [recordAppliedReceiptsTx]. *)
Definition record_source (landedAt : Z) (s : SourceReceiptMark) (d : duckdb) :
    result duck_error duckdb :=
  (try pid := match uuid_parse (s_ProjectID s) with Some u => Ok u | None => Err (ErrUUID "readiness project_id") end in
   try cid := match uuid_parse (s_ConnectorID s) with Some u => Ok u | None => Err (ErrUUID "readiness connector_id") end in
   guard negb (blank (s_Table s)) else ErrTableRequired in
   try superseded := sourceReceiptSupersededTx d s in
   if superseded then Ok d
   else
     let k := (pid, cid, s_Table s) in
     let gk := generation_key s in
     let '(incomplete, ambiguous) := prior_uncertainty d k s in
     try d1 := record_batch k s landedAt d in
     try syncID := uuid_or_null (ErrUUID "readiness sync_id") (s_SyncID s) in
     try runID := uuid_or_null (ErrUUID "readiness run_id") (s_RunID s) in
     try generation := uuid_or_null (ErrUUID "readiness generation") (s_Generation s) in
     let complete := locally_complete d1 k s incomplete ambiguous in
     let excluded := excluded_row s landedAt syncID runID generation complete incomplete in
     let row := match receipt_sources d1 !! k with
                | Some old => upsert_source excluded old
                | None => excluded
                end in
     let d2 := set_receipt_sources (<[k := row]> (receipt_sources d1)) d1 in
     Ok (if complete then discard_history k gk d2 else d2))%go.

Definition recordAppliedReceiptsTx (mark : AppliedMark) (landedAt : Z) (d : duckdb) :
    result duck_error duckdb :=
  (try d1 := fold_err (record_delivery mark landedAt) (m_Deliveries mark) d in
   let d2 := set_receipt_deliveries (prune_deliveries (receipt_deliveries d1)) d1 in
   let d3 := set_receipt_holes (drop_cleared (receipt_holes d2)) d2 in
   match m_Source mark with
   | None => Ok d3
   | Some s => if m_suppressSourceMutation mark then Ok d3 else record_source landedAt s d3
   end)%go.

Definition markSourceOrderingAmbiguousTx (s : SourceReceiptMark) (at_ : Z) (d : duckdb) :
    result duck_error duckdb :=
  (try pid := cast_uuid (s_ProjectID s) in
   try cid := cast_uuid (s_ConnectorID s) in
   Ok (set_receipt_sources
     (alter (fun r => if r_ordering_ambiguous r then r
              else {| r_sync_id := r_sync_id r; r_run_id := r_run_id r; r_generation := r_generation r;
                      r_generation_key := r_generation_key r; r_generation_seq := r_generation_seq r;
                      r_binding_digest := r_binding_digest r;
                      r_capture_started_at := r_capture_started_at r;
                      r_capture_finished_at := r_capture_finished_at r;
                      r_published_at := r_published_at r; r_landed_at := r_landed_at r;
                      r_landed_generation_key := r_landed_generation_key r;
                      r_last_complete_at := r_last_complete_at r;
                      r_expected_batches := r_expected_batches r;
                      r_expected_rows := r_expected_rows r;
                      r_completion_seen := r_completion_seen r;
                      r_ordering_ambiguous := true;
                      r_mutation_seq := r_mutation_seq r; r_updated_at := at_ |})
        (pid, cid, s_Table s) (receipt_sources d)) d))%go.

(** ** Operations on the file *)

Definition AdoptPosition (io : bool) (durable : string) (seq : Z) : duckdb -> duckdb * option duck_error :=
  Write io (fun d => Ok (advancePositionTx
    {| m_Durable := durable; m_Seq := seq; m_Deliveries := []; m_Source := None;
       m_SettlementOnly := false; m_suppressSourceMutation := false |} d)).

Definition RefusePosition (io : bool) (durable : string) (missing : Z) : duckdb -> duckdb * option duck_error :=
  Write io (fun d => Ok (refuse_position durable missing d)).

Definition RecordPosition (io : bool) (now : Z) (mark : AppliedMark) (d : duckdb) :
    duckdb * option duck_error :=
  if String.eqb (m_Durable mark) "" && match m_Deliveries mark with [] => true | _ => false end
     && match m_Source mark with None => true | Some _ => false end
  then (d, None)
  else Write io (fun d => recordAppliedReceiptsTx mark now (advancePositionTx mark d)) d.

Definition RecordReadinessHole (io : bool) (v : DeliveryReceiptMark)
    (source : option SourceReceiptMark) (d : duckdb) : duckdb * option duck_error :=
  if String.eqb (d_StreamID v) "" || String.eqb (d_Subject v) "" || (d_StreamSeq v =? 0)
     || String.eqb (d_PayloadSHA256 v) ""
  then (d, Some ErrHoleIdentity)
  else Write io (fun d =>
    let '(p, c, t) := match source with
                      | Some s => (s_ProjectID s, s_ConnectorID s, s_Table s)
                      | None => (d_ProjectID v, d_ConnectorID v, d_Table v)
                      end in
    (try pid := uuid_or_null (ErrUUID "project_id") p in
     try cid := uuid_or_null (ErrUUID "connector_id") c in
     Ok (set_receipt_holes
       (insert_or_ignore (delivery_key_of v)
          {| h_project_id := pid; h_connector_id := cid; h_table_name := text_or_null t;
             h_unverifiable := d_Unverifiable v; h_cleared_at := None |} (receipt_holes d)) d))%go) d.

End Receipts.

(** ** Lemmas: the position *)

Lemma read_position_advance mark d durable :
  m_Durable mark <> "" -> 0 <= m_Seq mark ->
  let p := read_position d durable in
  read_position (advancePositionTx mark d) durable =
  if String.eqb durable (m_Durable mark)
  then {| pos_Known := true;
          pos_Seq := if pos_Known p then Z.max (pos_Seq p) (m_Seq mark) else m_Seq mark;
          pos_RefusedMissing := pos_RefusedMissing p; pos_HasIngest := pos_HasIngest p |}
  else p.
Proof.
  intros Hm Hs. unfold advancePositionTx, read_position. apply String.eqb_neq in Hm. rewrite Hm. simpl.
  destruct (String.eqb durable (m_Durable mark)) eqn:Hd; bool_props.
  - subst. rewrite lookup_alter_eq. unfold insert_or_ignore.
    destruct (ingest_position d !! m_Durable mark) as [r|] eqn:Hr.
    + rewrite Hr. simpl. destruct (Z.ltb_spec (applied_seq r) (m_Seq mark)); simpl; f_equal; lia.
    + rewrite lookup_insert_eq. simpl. by rewrite Z.ltb_irrefl.
  - rewrite lookup_alter_ne by done. unfold insert_or_ignore.
    destruct (ingest_position d !! m_Durable mark) as [r|] eqn:Hr; [done|].
    by rewrite lookup_insert_ne by done.
Qed.

(** The recorded position never moves back. *)
Lemma advance_monotone mark d durable :
  0 <= m_Seq mark ->
  pos_Seq (read_position d durable) <= pos_Seq (read_position (advancePositionTx mark d) durable) /\
  pos_RefusedMissing (read_position (advancePositionTx mark d) durable) =
    pos_RefusedMissing (read_position d durable).
Proof.
  intros Hs. destruct (decide (m_Durable mark = "")) as [E|E].
  { unfold advancePositionTx. rewrite E. done. }
  rewrite read_position_advance by done. destruct (String.eqb durable (m_Durable mark)); [|done].
  simpl. destruct (ingest_position d !! durable); simpl; lia.
Qed.

Lemma advance_no_durable mark d : m_Durable mark = "" -> advancePositionTx mark d = d.
Proof. intros H. unfold advancePositionTx. by rewrite H. Qed.

Lemma read_position_refuse d durable missing d2 :
  let p := read_position d d2 in
  read_position (refuse_position durable missing d) d2 =
  if String.eqb d2 durable
  then {| pos_Known := true; pos_Seq := pos_Seq p;
          pos_RefusedMissing := if pos_RefusedMissing p =? 0 then missing else pos_RefusedMissing p;
          pos_HasIngest := pos_HasIngest p |}
  else p.
Proof.
  unfold refuse_position, read_position. simpl.
  destruct (String.eqb d2 durable) eqn:Hd; bool_props.
  - subst. rewrite lookup_alter_eq. unfold insert_or_ignore.
    destruct (ingest_position d !! durable) as [r|] eqn:Hr.
    + rewrite Hr. simpl. by destruct (refused_missing r =? 0).
    + rewrite lookup_insert_eq. simpl. destruct (missing =? 0) eqn:E; bool_props; by subst.
  - rewrite lookup_alter_ne by done. unfold insert_or_ignore.
    destruct (ingest_position d !! durable) as [r|] eqn:Hr; [done|].
    by rewrite lookup_insert_ne by done.
Qed.

Section Lemmas.
Context `{UuidEnv}.

(** What the receipts leave alone: positions and rows. *)
Definition same_claim (d d' : duckdb) : Prop :=
  ingest_position d' = ingest_position d /\ events d' = events d /\
  external_rows d' = external_rows d.

Lemma same_claim_refl d : same_claim d d.
Proof. done. Qed.

Lemma same_claim_trans d1 d2 d3 : same_claim d1 d2 -> same_claim d2 d3 -> same_claim d1 d3.
Proof. intros (?&?&?) (?&?&?). repeat split; congruence. Qed.

Lemma same_claim_position d d' durable :
  same_claim d d' -> read_position d' durable = read_position d durable.
Proof. intros (H1 & H2 & H3). unfold read_position. by rewrite H1, H2, H3. Qed.

(** Unfolds one [try] of a transaction. *)
Ltac tx_step :=
  match goal with
  | H : result_bind ?r _ = Ok _ |- _ =>
      let E := fresh "E" in destruct r eqn:E; cbn [result_bind] in H; [|discriminate H]
  end.

(** What receipts leave alone besides: snapshot staging and promotions. *)
Definition same_staging (d d' : duckdb) : Prop :=
  snapshot_batches d' = snapshot_batches d /\ snapshot_rows d' = snapshot_rows d /\
  snapshot_completions d' = snapshot_completions d /\
  snapshot_promotions d' = snapshot_promotions d /\ snapshot_cleanup d' = snapshot_cleanup d.

Definition frame (d d' : duckdb) : Prop := same_claim d d' /\ same_staging d d'.

Lemma frame_trans d1 d2 d3 : frame d1 d2 -> frame d2 d3 -> frame d1 d3.
Proof. intros [(?&?&?) (?&?&?&?&?)] [(?&?&?) (?&?&?&?&?)]. repeat split; congruence. Qed.

Lemma record_delivery_frame mark at_ v d d' :
  record_delivery mark at_ v d = Ok d' -> frame d d'.
Proof.
  unfold record_delivery. destruct (negb _); [by intros [= ->]|].
  destruct (match m_Source mark with Some _ => _ | None => _ end) as [[[p c] t] g].
  intros Hr. repeat tx_step.
  destruct (d_Unverifiable v); [by simplify_eq|]. destruct (_ || _); [by simplify_eq|].
  destruct (receipt_holes _ !! _) as [h|]; [destruct (open_hole h)|]; by simplify_eq.
Qed.

Lemma record_source_frame at_ s d d' : record_source at_ s d = Ok d' -> frame d d'.
Proof.
  unfold record_source. intros Hr. repeat tx_step. destruct (negb (blank _)); [|done].
  repeat tx_step. destruct a1; [by simplify_eq|].
  destruct (prior_uncertainty _ _ _) as [inc amb]. repeat tx_step.
  assert (Hb : frame d a1).
  { unfold record_batch in *. destruct (String.eqb (s_BatchID s) ""); [by simplify_eq|].
    destruct (match receipt_batches d !! _ with Some _ => _ | None => _ end); by simplify_eq. }
  eapply frame_trans; [exact Hb|]. destruct (locally_complete _ _ _ _ _); by simplify_eq.
Qed.

Lemma recordAppliedReceipts_frame mark at_ d d' :
  recordAppliedReceiptsTx mark at_ d = Ok d' -> frame d d'.
Proof.
  unfold recordAppliedReceiptsTx. intros Hr. tx_step.
  assert (Ha : frame d a).
  { eapply (fold_err_ind _ (frame d)); [|exact E|done].
    intros v x x' _ Hx Hd. eapply frame_trans; [done|by eapply record_delivery_frame]. }
  eapply frame_trans; [exact Ha|].
  destruct (m_Source mark) as [s|]; [destruct (m_suppressSourceMutation mark)|]; [by simplify_eq| |by simplify_eq].
  apply record_source_frame in Hr. exact Hr.
Qed.

Lemma recordAppliedReceipts_claim mark at_ d d' :
  recordAppliedReceiptsTx mark at_ d = Ok d' -> same_claim d d'.
Proof. intros Hr. by apply recordAppliedReceipts_frame in Hr as [? _]. Qed.

(** ** Lemmas: holes *)

Definition repairs (mark : AppliedMark) (k : delivery_key) : Prop :=
  m_SettlementOnly mark = false /\
  exists v, v ∈ m_Deliveries mark /\ delivery_key_of v = k /\ d_Replayed v = true /\
            d_Unverifiable v = false.

Lemma record_delivery_hole mark at_ v d d' k h :
  v ∈ m_Deliveries mark ->
  record_delivery mark at_ v d = Ok d' ->
  receipt_holes d !! k = Some h -> uncleared h = true ->
  receipt_holes d' !! k = Some h \/ (h_unverifiable h = false /\ repairs mark k).
Proof.
  intros Hv. unfold record_delivery. destruct (negb _); [intros [= ->]; by left|].
  destruct (match m_Source mark with Some _ => _ | None => _ end) as [[[p c] t] g].
  intros Hr Hk Hu. repeat tx_step.
  destruct (d_Unverifiable v) eqn:Hun.
  { simplify_eq. left. simpl. by apply insert_or_ignore_keep. }
  destruct (m_SettlementOnly mark || negb (d_Replayed v)) eqn:Hs; [simplify_eq; by left|]. bool_props.
  simpl in Hr. destruct (decide (delivery_key_of v = k)) as [Hkey|Hne].
  - subst k. rewrite Hk in Hr. destruct (open_hole h) eqn:Ho.
    + right. unfold open_hole in Ho. destruct (h_cleared_at h); [done|]. bool_props.
      split; [done|]. split; [done|]. eauto.
    + simplify_eq. left. simpl. rewrite lookup_alter_eq, Hk. simpl.
      unfold clear_hole. by rewrite Ho.
  - left. destruct (receipt_holes d !! delivery_key_of v) as [h'|]; [destruct (open_hole h')|];
      simplify_eq; simpl; rewrite ?lookup_delete_ne, ?lookup_alter_ne by done; done.
Qed.

Lemma fold_hole mark at_ l d d' k h :
  (forall v, v ∈ l -> v ∈ m_Deliveries mark) ->
  fold_err (record_delivery mark at_) l d = Ok d' ->
  receipt_holes d !! k = Some h -> uncleared h = true ->
  receipt_holes d' !! k = Some h \/ (h_unverifiable h = false /\ repairs mark k).
Proof.
  intros Hl Hf Hk Hu. revert d Hf Hk. induction l as [|v l IH]; simpl; intros d Hf Hk.
  - simplify_eq. by left.
  - destruct (record_delivery mark at_ v d) as [d1|] eqn:E; [|done].
    destruct (record_delivery_hole _ _ _ _ _ _ _ (Hl v ltac:(left)) E Hk Hu) as [Hk1|?]; [|by right].
    eapply IH; [|done..]. intros w Hw. apply Hl. by right.
Qed.

Lemma drop_cleared_keep m k h :
  m !! k = Some h -> uncleared h = true -> drop_cleared m !! k = Some h.
Proof. intros. unfold drop_cleared. by apply map_lookup_filter_Some. Qed.

Lemma record_source_holes at_ s d d' :
  record_source at_ s d = Ok d' -> receipt_holes d' = receipt_holes d.
Proof.
  unfold record_source. intros Hr. repeat tx_step. destruct (negb (blank _)); [|done].
  repeat tx_step. destruct a1; [by simplify_eq|].
  destruct (prior_uncertainty _ _ _) as [inc amb]. repeat tx_step.
  assert (Hb : receipt_holes a1 = receipt_holes d).
  { unfold record_batch in *. destruct (String.eqb (s_BatchID s) ""); [by simplify_eq|].
    destruct (match receipt_batches d !! _ with Some _ => _ | None => _ end); by simplify_eq. }
  destruct (locally_complete _ _ _ _ _); by simplify_eq.
Qed.

(** ** Lemmas: sources *)

Lemma invalidate_lookup p c t at_ d k :
  receipt_sources (invalidateSourceConfirmationsTx p c t at_ d) !! k =
  (fun r => if null_matches p k.1.1 && null_matches c k.1.2 && null_matches t k.2
            then {| r_sync_id := r_sync_id r; r_run_id := r_run_id r; r_generation := r_generation r;
                    r_generation_key := r_generation_key r; r_generation_seq := r_generation_seq r;
                    r_binding_digest := r_binding_digest r;
                    r_capture_started_at := r_capture_started_at r;
                    r_capture_finished_at := r_capture_finished_at r;
                    r_published_at := r_published_at r; r_landed_at := r_landed_at r;
                    r_landed_generation_key := r_landed_generation_key r;
                    r_last_complete_at := r_last_complete_at r;
                    r_expected_batches := r_expected_batches r;
                    r_expected_rows := r_expected_rows r;
                    r_completion_seen := r_completion_seen r;
                    r_ordering_ambiguous := r_ordering_ambiguous r;
                    r_mutation_seq := r_mutation_seq r + 1; r_updated_at := at_ |}
            else r) <$> receipt_sources d !! k.
Proof.
  unfold invalidateSourceConfirmationsTx. simpl. rewrite map_lookup_imap.
  by destruct (receipt_sources d !! k).
Qed.

(** The receipt half of a delivery changes a source at most by its mutation
    counter and its update time. *)
Definition same_receipt (r r' : source_row) : Prop :=
  r_generation_key r' = r_generation_key r /\ r_generation_seq r' = r_generation_seq r /\
  r_capture_started_at r' = r_capture_started_at r /\
  r_ordering_ambiguous r' = r_ordering_ambiguous r /\
  r_completion_seen r' = r_completion_seen r /\ r_expected_batches r' = r_expected_batches r /\
  r_landed_at r' = r_landed_at r /\ r_landed_generation_key r' = r_landed_generation_key r /\
  r_mutation_seq r <= r_mutation_seq r'.

Definition receipts_kept (d d' : duckdb) : Prop :=
  forall k, match receipt_sources d !! k with
            | Some r => exists r', receipt_sources d' !! k = Some r' /\ same_receipt r r'
            | None => receipt_sources d' !! k = None
            end.

Lemma same_receipt_refl r : same_receipt r r.
Proof. repeat split; lia. Qed.

Lemma receipts_kept_same d d' : receipt_sources d' = receipt_sources d -> receipts_kept d d'.
Proof.
  intros E k. rewrite E. destruct (receipt_sources d !! k) as [r|]; [|done].
  exists r. split; [done|apply same_receipt_refl].
Qed.

Lemma receipts_kept_trans d1 d2 d3 :
  receipts_kept d1 d2 -> receipts_kept d2 d3 -> receipts_kept d1 d3.
Proof.
  intros H1 H2 k. specialize (H1 k). specialize (H2 k). destruct (receipt_sources d1 !! k) as [r|].
  - destruct H1 as (r' & E & (?&?&?&?&?&?&?&?&?)). rewrite E in H2.
    destruct H2 as (r'' & E2 & (?&?&?&?&?&?&?&?&?)).
    exists r''. split; [done|]. repeat split; try congruence. lia.
  - by rewrite H1 in H2.
Qed.

Lemma record_delivery_sources mark at_ v d d' :
  record_delivery mark at_ v d = Ok d' -> receipts_kept d d'.
Proof.
  unfold record_delivery. destruct (negb _); [intros [= ->]; by apply receipts_kept_same|].
  destruct (match m_Source mark with Some _ => _ | None => _ end) as [[[p c] t] g].
  intros Hr. repeat tx_step.
  destruct (d_Unverifiable v); [simplify_eq; by apply receipts_kept_same|].
  destruct (_ || _); [simplify_eq; by apply receipts_kept_same|].
  destruct (receipt_holes _ !! _) as [h|];
    [destruct (open_hole h)|]; simplify_eq; try by apply receipts_kept_same.
  intros k. cbn [set_receipt_holes set_receipt_deliveries receipt_sources]. rewrite invalidate_lookup. simpl.
  destruct (receipt_sources d !! k) as [r|]; [|done]. simpl. eexists. split; [done|].
  destruct (_ && _ && _); [|apply same_receipt_refl]. repeat split. simpl. lia.
Qed.

Lemma fold_sources mark at_ l d d' :
  fold_err (record_delivery mark at_) l d = Ok d' -> receipts_kept d d'.
Proof.
  intros Hf. eapply (fold_err_ind _ (receipts_kept d)); [|exact Hf|by apply receipts_kept_same].
  intros v x x' _ Hx Hd. eapply receipts_kept_trans; [done|by eapply record_delivery_sources].
Qed.

Lemma record_batch_frame k s at_ d d' :
  record_batch k s at_ d = Ok d' ->
  receipt_sources d' = receipt_sources d /\ receipt_deliveries d' = receipt_deliveries d /\
  receipt_holes d' = receipt_holes d /\ same_claim d d'.
Proof.
  unfold record_batch. destruct (String.eqb (s_BatchID s) ""); [by intros [= ->]|].
  destruct (match receipt_batches d !! _ with Some _ => _ | None => _ end); [done|]. by intros [= <-].
Qed.

(** What [record_source] does: nothing for a superseded mark, one upsert
    otherwise. *)
Lemma record_source_spec at_ s d d' :
  record_source at_ s d = Ok d' ->
  exists pid cid, uuid_parse (s_ProjectID s) = Some pid /\ uuid_parse (s_ConnectorID s) = Some cid /\
  blank (s_Table s) = false /\
  ((sourceReceiptSupersededTx d s = Ok true /\ d' = d) \/
   (sourceReceiptSupersededTx d s = Ok false /\
    exists syncID runID generation complete incomplete,
      receipt_sources d' =
        <[(pid, cid, s_Table s) :=
            let e := excluded_row s at_ syncID runID generation complete incomplete in
            match receipt_sources d !! (pid, cid, s_Table s) with
            | Some old => upsert_source e old
            | None => e
            end]> (receipt_sources d) /\
      (complete = true -> s_Promoted s = true /\ s_Complete s = true))).
Proof.
  unfold record_source. intros Hr. destruct (uuid_parse (s_ProjectID s)) as [pid|]; [|done].
  cbn [result_bind] in Hr. destruct (uuid_parse (s_ConnectorID s)) as [cid|]; [|done].
  cbn [result_bind] in Hr. destruct (blank (s_Table s)) eqn:Hb; [done|]. cbn [negb] in Hr. tx_step.
  exists pid, cid. split_and!; [done..|]. destruct a; [left; by simplify_eq|right].
  split; [done|]. destruct (prior_uncertainty _ _ _) as [inc amb]. repeat tx_step.
  apply record_batch_frame in E0 as (Es & _). rewrite Es in Hr.
  exists a0, a1, a2, (locally_complete a (pid, cid, s_Table s) s inc amb), inc. split.
  - destruct (locally_complete _ _ _ _ _) eqn:Hc; injection Hr as <-; reflexivity.
  - unfold locally_complete. by intros [[? ?]%andb_true_iff _]%andb_true_iff.
Qed.

(** The stored receipt the fence compares with is the one the upsert replaces. *)
Lemma superseded_lookup d s pid cid b :
  uuid_parse (s_ProjectID s) = Some pid -> uuid_parse (s_ConnectorID s) = Some cid ->
  sourceReceiptSupersededTx d s = Ok b ->
  match receipt_sources d !! (pid, cid, s_Table s) with
  | None => b = false
  | Some prior => superseded_by s prior = Ok b
  end.
Proof.
  intros Hp Hc. unfold sourceReceiptSupersededTx, cast_uuid.
  destruct (sql_uuid (s_ProjectID s)) as [v|] eqn:Ev; [|done]. cbn [result_bind].
  destruct (sql_uuid (s_ConnectorID s)) as [w|] eqn:Ew; [|done]. cbn [result_bind].
  rewrite (sql_uuid_agrees _ _ _ Hp Ev), (sql_uuid_agrees _ _ _ Hc Ew).
  destruct (receipt_sources d !! _); [done|]. by intros [= <-].
Qed.

Lemma fence_asymmetric s0 s r :
  0 <= s_GenerationSeq s -> 0 <= s_GenerationSeq s0 ->
  superseded_by s r = Ok false -> generation_key s <> r_generation_key r ->
  generation_key s0 = r_generation_key r -> s_GenerationSeq s0 = r_generation_seq r ->
  s_CaptureStartedAt s0 = r_capture_started_at r ->
  forall r', r_generation_key r' = generation_key s -> r_generation_seq r' = s_GenerationSeq s ->
    r_capture_started_at r' = s_CaptureStartedAt s -> superseded_by s0 r' = Ok true.
Proof.
  intros Hs Hs0 Hf Hk Hk0 Hq0 Hc0 r' Hk' Hq' Hc'.
  assert (Hne : negb (String.eqb (generation_key s) (r_generation_key r)) = true).
  { apply negb_true_iff, String.eqb_neq. done. }
  assert (Hne0 : negb (String.eqb (generation_key s0) (r_generation_key r')) = true).
  { apply negb_true_iff, String.eqb_neq. congruence. }
  assert (Hcap : capture_after s r = true -> capture_after s0 r' = false).
  { unfold capture_after. rewrite Hc0, Hc'. destruct (s_CaptureStartedAt s) as [a|]; [|done].
    destruct (r_capture_started_at r) as [b|]; [|done]. intros ?%Z.ltb_lt. apply Z.ltb_ge. lia. }
  unfold superseded_by in *. rewrite Hne in Hf. rewrite Hne0, Hq', Hq0 in *.
  repeat match goal with
  | H : context [?x <? ?y] |- _ => destruct (Z.ltb_spec x y)
  | H : context [?x =? ?y] |- _ => destruct (Z.eqb_spec x y)
  | |- context [?x <? ?y] => destruct (Z.ltb_spec x y)
  | |- context [?x =? ?y] => destruct (Z.eqb_spec x y)
  end; try lia; simpl in *; try done;
  destruct (capture_after s r); simpl in *; try done; by rewrite ?Hcap.
Qed.

Lemma prune_incl m k v : prune_deliveries m !! k = Some v -> m !! k = Some v.
Proof.
  unfold prune_deliveries. intros Hk.
  apply elem_of_list_to_map_2 in Hk. apply elem_of_take in Hk as (i & Hk & _).
  apply list_elem_of_lookup_2 in Hk. by rewrite merge_sort_Permutation, elem_of_map_to_list in Hk.
Qed.

Lemma prune_size m : Z.of_nat (size (prune_deliveries m)) <= deliveryReceiptSuffixLimit.
Proof.
  assert (Hn : forall l : list (delivery_key * delivery_row),
    (size (list_to_map l : gmap delivery_key delivery_row) <= length l)%nat).
  { induction l as [|[k v] l IH]; [done|]. simpl.
    destruct ((list_to_map l : gmap delivery_key delivery_row) !! k) eqn:Hl.
    - rewrite map_size_insert_Some by done. lia.
    - rewrite map_size_insert_None by done. lia. }
  unfold prune_deliveries. etrans; [apply Nat2Z.inj_le, Hn|].
  rewrite length_take. unfold deliveryReceiptSuffixLimit. lia.
Qed.

Lemma record_source_deliveries at_ s d d' :
  record_source at_ s d = Ok d' ->
  (size (receipt_deliveries d') <= size (receipt_deliveries d))%nat.
Proof.
  unfold record_source. intros Hr. repeat tx_step. destruct (negb (blank _)); [|done].
  repeat tx_step. destruct a1; [by simplify_eq|].
  destruct (prior_uncertainty _ _ _) as [inc amb]. repeat tx_step.
  apply record_batch_frame in E2 as (_ & Ed & _). rewrite <- Ed.
  destruct (locally_complete _ _ _ _ _); simplify_eq; [|done].
  simpl. apply map_size_filter.
Qed.

End Lemmas.

(** ** Properties *)

(** A coverage hole outlives every settlement: the only transaction that
    removes an open hole carries a replayed delivery of exactly that message,
    writes data (it is not settlement-only), and the hole is verifiable. *)
Theorem hole_repair_authority `{UuidEnv} mark at_ d d' k h :
  recordAppliedReceiptsTx mark at_ d = Ok d' ->
  receipt_holes d !! k = Some h -> h_cleared_at h = None ->
  receipt_holes d' !! k = Some h \/ (h_unverifiable h = false /\ repairs mark k).
Proof.
  intros Hr Hk Hu.
  assert (Hc : uncleared h = true) by (unfold uncleared; by rewrite Hu).
  unfold recordAppliedReceiptsTx in Hr.
  destruct (fold_err _ _ d) as [d1|] eqn:E; [|done]. cbn [result_bind] in Hr.
  destruct (fold_hole _ _ _ _ _ _ _ ltac:(done) E Hk Hc) as [Hk1|?]; [left|by right].
  assert (Hd : drop_cleared (receipt_holes d1) !! k = Some h) by by apply drop_cleared_keep.
  destruct (m_Source mark) as [s|]; [destruct (m_suppressSourceMutation mark)|];
    [by simplify_eq| |by simplify_eq].
  apply record_source_holes in Hr. by rewrite Hr.
Qed.

(** Uncertainty about which run owns a source's rows is never forgotten: a
    transaction that finds a source ambiguous leaves it ambiguous, unless it
    lands a complete, promoted, sequenced snapshot of that source. *)
Theorem ambiguity_is_durable `{UuidEnv} mark at_ d d' k r :
  recordAppliedReceiptsTx mark at_ d = Ok d' ->
  receipt_sources d !! k = Some r -> r_ordering_ambiguous r = true ->
  exists r', receipt_sources d' !! k = Some r' /\
    (r_ordering_ambiguous r' = true \/
     exists s, m_Source mark = Some s /\ s_Promoted s = true /\ s_Complete s = true /\
               0 < s_GenerationSeq s /\ r_landed_generation_key r' = Some (generation_key s)).
Proof.
  intros Hr Hk Ha. unfold recordAppliedReceiptsTx in Hr.
  destruct (fold_err _ _ d) as [d1|] eqn:E; [|done]. cbn [result_bind] in Hr.
  pose proof (fold_sources _ _ _ _ _ E k) as Hd1. rewrite Hk in Hd1.
  destruct Hd1 as (r1 & Hk1 & Hs1). destruct Hs1 as (_ & _ & _ & Ha1 & _). rewrite Ha in Ha1.
  destruct (m_Source mark) as [s|]; [destruct (m_suppressSourceMutation mark)|];
    [simplify_eq; eauto| |simplify_eq; eauto].
  apply record_source_spec in Hr as (pid & cid & _ & _ & _ & [[_ ->]|(_ & S & R & G & c & i & -> & _)]);
    [eauto|]. simpl.
  destruct (decide ((pid, cid, s_Table s) = k)) as [<-|Hne];
    [|rewrite lookup_insert_ne by done; eauto].
  rewrite lookup_insert_eq, Hk1. eexists. split; [done|]. unfold upsert_source. simpl.
  destruct (s_Promoted s) eqn:Hp; cbn [option_or]; rewrite ?andb_false_r; [|left; by rewrite Ha1, orb_true_r].
  destruct (_ && _ && _) eqn:Hc; [right|left; by rewrite Ha1, orb_true_r].
  bool_props. by exists s.
Qed.

(** The ordering fence is one way: once a mark of another generation has
    replaced a source's receipt, no mark of the replaced generation changes it
    again, whatever it carries. *)
Theorem replaced_generation_stays_replaced `{UuidEnv} at_ at0 s s0 d d' pid cid r :
  uuid_parse (s_ProjectID s) = Some pid -> uuid_parse (s_ConnectorID s) = Some cid ->
  0 <= s_GenerationSeq s -> 0 <= s_GenerationSeq s0 ->
  receipt_sources d !! (pid, cid, s_Table s) = Some r ->
  generation_key s <> r_generation_key r ->
  sourceReceiptSupersededTx d s = Ok false ->
  record_source at_ s d = Ok d' ->
  s_ProjectID s0 = s_ProjectID s -> s_ConnectorID s0 = s_ConnectorID s -> s_Table s0 = s_Table s ->
  generation_key s0 = r_generation_key r -> s_GenerationSeq s0 = r_generation_seq r ->
  s_CaptureStartedAt s0 = r_capture_started_at r ->
  record_source at0 s0 d' = Ok d'.
Proof.
  intros Hp Hc Hs Hs0 Hk Hne Hf Hr Ep Ec Et Ek Eq Ecap.
  pose proof (superseded_lookup _ _ _ _ _ Hp Hc Hf) as Hfr. rewrite Hk in Hfr.
  pose proof Hf as Hcast. unfold sourceReceiptSupersededTx, cast_uuid in Hcast.
  apply record_source_spec in Hr as (p & c & Hp' & Hc' & Hb & [[Hx _]|(_ & S & R & G & cm & i & Es & _)]);
    [congruence|].
  rewrite Hp in Hp'. rewrite Hc in Hc'. injection Hp' as <-. injection Hc' as <-. rewrite Hk in Es.
  unfold record_source. rewrite Ep, Ec, Et, Hp, Hc. cbn [result_bind]. rewrite Hb. cbn [negb].
  unfold sourceReceiptSupersededTx, cast_uuid. rewrite Ep, Ec, Et.
  destruct (sql_uuid (s_ProjectID s)) as [v|] eqn:Ev; [|done].
  destruct (sql_uuid (s_ConnectorID s)) as [w|] eqn:Ew; [|done]. cbn [result_bind].
  rewrite (sql_uuid_agrees _ _ _ Hp Ev), (sql_uuid_agrees _ _ _ Hc Ew), Es, lookup_insert_eq.
  rewrite (fence_asymmetric s0 s r); [done|done..| | |]; unfold upsert_source; simpl; [done..|].
  apply String.eqb_neq in Hne. by rewrite Hne.
Qed.

(** The delivery journal is bounded: after any committed transaction it holds at
    most 4096 receipts. *)
Theorem delivery_journal_bounded `{UuidEnv} mark at_ d d' :
  recordAppliedReceiptsTx mark at_ d = Ok d' ->
  Z.of_nat (size (receipt_deliveries d')) <= deliveryReceiptSuffixLimit.
Proof.
  intros Hr. unfold recordAppliedReceiptsTx in Hr.
  destruct (fold_err _ _ d) as [d1|] eqn:E; [|done]. cbn [result_bind] in Hr.
  destruct (m_Source mark) as [s|]; [destruct (m_suppressSourceMutation mark)|].
  - simplify_eq. apply prune_size.
  - apply record_source_deliveries in Hr. etrans; [apply Nat2Z.inj_le, Hr|]. apply prune_size.
  - simplify_eq. apply prune_size.
Qed.

(** ** Witnesses *)

Definition w_uuid : string := "0a1b2c3d-0000-4000-8000-00000000000f".
Definition w_uuid2 : string := "0a1b2c3d-0000-4000-8000-0000000000aa".

Definition w_delivery : DeliveryReceiptMark :=
  {| d_StreamID := "events@1"; d_Subject := "agentray.events"; d_StreamSeq := 7;
     d_PayloadSHA256 := "ab"; d_PublishedAt := None; d_ProjectID := w_uuid; d_ConnectorID := "";
     d_Table := ""; d_Replayed := true; d_Unverifiable := false |}.

Definition w_source (run : string) (started : Z) : SourceReceiptMark :=
  {| s_ProjectID := w_uuid; s_ConnectorID := w_uuid2; s_Table := "orders"; s_SyncID := w_uuid;
     s_RunID := run; s_Generation := ""; s_GenerationSeq := 0; s_BindingDigest := "";
     s_BatchID := "b1"; s_BatchIndex := Some 0; s_PayloadSHA256 := "cd";
     s_ExpectedBatches := None; s_ExpectedRows := None; s_CaptureStartedAt := Some started;
     s_CaptureFinishedAt := None; s_PublishedAt := None; s_Complete := false; s_Promoted := false |}.

Definition w_mark (settlement : bool) (source : option SourceReceiptMark) : AppliedMark :=
  {| m_Durable := "blue"; m_Seq := 7; m_Deliveries := [w_delivery]; m_Source := source;
     m_SettlementOnly := settlement; m_suppressSourceMutation := false |}.

Definition w_hole_db : duckdb :=
  (RecordReadinessHole false w_delivery None empty_duckdb).1.

Definition run_ok (r : result duck_error duckdb) : duckdb := ok_or empty_duckdb r.

(** Two unfinished incremental runs: the second makes the source ambiguous. *)
Definition w_ambiguous_db : duckdb :=
  run_ok (record_source 20 (w_source w_uuid2 10)
    (run_ok (record_source 10 (w_source w_uuid 5) empty_duckdb))).

Definition w_hole : hole_row :=
  {| h_project_id := Some w_uuid; h_connector_id := None; h_table_name := None;
     h_unverifiable := false; h_cleared_at := None |}.

Definition source_of (d : duckdb) : source_row :=
  default (excluded_row (w_source "" 0) 0 None None None false false)
    (receipt_sources d !! (w_uuid, w_uuid2, "orders")).

Lemma hole_repair_authority_witness :
  receipt_holes (run_ok (recordAppliedReceiptsTx (w_mark true None) 9 w_hole_db))
    !! delivery_key_of w_delivery = Some w_hole \/
  (h_unverifiable w_hole = false /\ repairs (w_mark true None) (delivery_key_of w_delivery)).
Proof.
  apply (hole_repair_authority (w_mark true None) 9 w_hole_db).
  - apply ok_or_Ok. vm_compute. reflexivity.
  - vm_compute. reflexivity.
  - reflexivity.
Defined.

Lemma ambiguity_is_durable_witness :
  exists r', receipt_sources (run_ok
      (recordAppliedReceiptsTx (w_mark false (Some (w_source w_uuid2 10))) 30 w_ambiguous_db))
        !! (w_uuid, w_uuid2, "orders") = Some r' /\
    (r_ordering_ambiguous r' = true \/
     exists s, m_Source (w_mark false (Some (w_source w_uuid2 10))) = Some s /\
       s_Promoted s = true /\ s_Complete s = true /\
       0 < s_GenerationSeq s /\ r_landed_generation_key r' = Some (generation_key s)).
Proof.
  apply (ambiguity_is_durable (w_mark false (Some (w_source w_uuid2 10))) 30 w_ambiguous_db _ _
           (source_of w_ambiguous_db)).
  - apply ok_or_Ok. vm_compute. reflexivity.
  - apply default_Some. vm_compute. reflexivity.
  - vm_compute. reflexivity.
Defined.

Definition w_first_run_db : duckdb := run_ok (record_source 10 (w_source w_uuid 5) empty_duckdb).

Lemma replaced_generation_stays_replaced_witness :
  record_source 30 (w_source w_uuid 5) w_ambiguous_db = Ok w_ambiguous_db.
Proof.
  apply (replaced_generation_stays_replaced 20 30 (w_source w_uuid2 10) (w_source w_uuid 5)
    w_first_run_db w_ambiguous_db w_uuid w_uuid2 (source_of w_first_run_db)).
  5: { apply default_Some. vm_compute. reflexivity. }
  7: { apply ok_or_Ok. vm_compute. reflexivity. }
  all: first [reflexivity | vm_compute; reflexivity | vm_compute; discriminate].
Defined.

Lemma delivery_journal_bounded_witness :
  Z.of_nat (size (receipt_deliveries (run_ok
    (recordAppliedReceiptsTx (w_mark false None) 9 w_hole_db)))) <= deliveryReceiptSuffixLimit.
Proof.
  apply (delivery_journal_bounded (w_mark false None) 9 w_hole_db).
  apply ok_or_Ok. vm_compute. reflexivity.
Defined.
