(* ===== verification/Readiness.v ===== *)
(** * Readiness: [internal/dataplane/ingest/readiness.go]

    May a deploy point traffic at this colour?  [EvaluateReplay] is the live
    predicate over the broker's numbers; [latchBootGap] and [bindStore] take the
    two boot decisions that the live numbers cannot take; [ReplayStatus] puts
    them together.  The store behind the colour is reached through the interface
    [PositionStore] (the Go interface [positionStore]), which the DuckDB file of
    [Journal] implements.

    The marker file is modelled by what [os.ReadFile] and [json.Unmarshal] make
    of it; a broker reading is a record of the numbers the code uses. *)

From S2P Require Import Prelude GoStrings Duck Journal Subjects.
Import String.
Open Scope string_scope.
Open Scope Z_scope.

(** ** The live predicate *)

Inductive ReplayReason :=
| ReplayCaughtUp | ReplayBehind | ReplayPurgedGap | ReplayStreamMismatch
| ReplayUnverified | ReplayStoreBehind.

Record ReplayVerdict := {
  Ready : bool; Applied : Z; Head : Z; First : Z; Missing : Z; Pending : Z; AckPending : Z;
  Reason : ReplayReason;
}.

(** Sequences are [uint64]: the successor of the greatest one is 0. *)
Definition EvaluateReplay (applied head first pending ackPending : Z) (wired dedicated : bool) :
    ReplayVerdict :=
  let v ready missing reason :=
    {| Ready := ready; Applied := applied; Head := head; First := first; Missing := missing;
       Pending := pending; AckPending := ackPending; Reason := reason |} in
  if negb wired then v false 0 ReplayStreamMismatch
  else if dedicated && ((0 <? applied) && (u64 (applied + 1) <? first))
  then v false (u64 (first - applied - 1)) ReplayPurgedGap
  else if dedicated && ((applied =? 0) && (0 <? head) && (head <? first))
  then v false head ReplayPurgedGap
  else if (dedicated && (head <=? applied)) || (pending =? 0)
  then v true 0 ReplayCaughtUp
  else v false 0 ReplayBehind.

(** ** The store behind the colour *)

(** [positionStore], with what [bindStore] relies on.  The first argument of an
    operation says whether the store fails. *)
Class PositionStore (P E : Type) := {
  store_position : bool -> P -> string -> option AppliedPosition;
  store_adopt : bool -> string -> Z -> P -> P * option E;
  store_refuse : bool -> string -> Z -> P -> P * option E;
  store_failed p d : store_position true p d = None;
  store_read p d : is_some (store_position false p d) = true;
  store_refused io p p' d m :
    store_refuse io d m p = (p', None) -> 0 < m ->
    forall q, store_position false p d = Some q -> 0 <= pos_RefusedMissing q ->
    exists q', store_position false p' d = Some q' /\ 0 < pos_RefusedMissing q';
  store_adopted io p p' d s :
    store_adopt io d s p = (p', None) -> d <> "" -> 0 <= s ->
    exists q', store_position false p' d = Some q' /\ s <= pos_Seq q';
}.

(** ** The process *)

(** The retention-loss marker beside the DuckDB file, as a read finds it. *)
Inductive marker :=
| NoMarker
| UnreadableMarker
| MalformedMarker
| LossMarker (missing : Z).

Record StreamSet := {
  LossMarkerPath : string;
  Durable : string;
  bootGap : Z;
  bootUnverified : bool;
  storeGap : Z;
}.

Definition boot_process (path durable : string) : StreamSet :=
  {| LossMarkerPath := path; Durable := durable; bootGap := 0; bootUnverified := false;
     storeGap := 0 |}.

Definition set_bootGap (v : Z) (ss : StreamSet) : StreamSet :=
  {| LossMarkerPath := LossMarkerPath ss; Durable := Durable ss; bootGap := v;
     bootUnverified := bootUnverified ss; storeGap := storeGap ss |}.
Definition set_bootUnverified (ss : StreamSet) : StreamSet :=
  {| LossMarkerPath := LossMarkerPath ss; Durable := Durable ss; bootGap := bootGap ss;
     bootUnverified := true; storeGap := storeGap ss |}.
Definition set_storeGap (v : Z) (ss : StreamSet) : StreamSet :=
  {| LossMarkerPath := LossMarkerPath ss; Durable := Durable ss; bootGap := bootGap ss;
     bootUnverified := bootUnverified ss; storeGap := v |}.

(** The broker numbers of one consumer and its stream. *)
Record broker := {
  stream_subjects : list string; filter_subjects : list string; filter_subject : string;
  floor_stream : Z; floor_consumer : Z; first_seq : Z; last_seq : Z; num_pending : Z;
  num_ack_pending : Z;
}.

Definition durableName (ss : StreamSet) : string :=
  if String.eqb (Durable ss) "" then "agentray-ingestors" else Durable ss.

(** [(missing, found, unreadable)]. *)
Definition readLatch (ss : StreamSet) (file : marker) : Z * bool * bool :=
  if String.eqb (LossMarkerPath ss) "" then (0, false, false)
  else match file with
       | NoMarker => (0, false, false)
       | UnreadableMarker => (0, false, true)
       | MalformedMarker => (0, false, true)
       | LossMarker m => (m, 0 <? m, false)
       end.

(** A write through a temporary file and a rename: it lands whole or not at all. *)
Definition recordLatch (ss : StreamSet) (write_fails : bool) (missing : Z) (file : marker) : marker :=
  if String.eqb (LossMarkerPath ss) "" then file
  else if write_fails then file else LossMarker missing.

(** What the boot sample shows to be gone. *)
Definition boot_missing (b : broker) : Z :=
  if floor_stream b =? 0 then
    if (0 <? last_seq b) && (last_seq b <? first_seq b) then last_seq b else 0
  else if u64 (floor_stream b + 1) <? first_seq b
  then u64 (first_seq b - floor_stream b - 1) else 0.

Definition latchBootGap (write_fails : bool) (b : broker) (ss : StreamSet) (file : marker) :
    StreamSet * marker :=
  let '(missing, found, unreadable) := readLatch ss file in
  if unreadable then (set_bootUnverified ss, file)
  else if found then (set_bootGap missing ss, file)
  else
    let '(_, dedicated) :=
      streamCarries (stream_subjects b) (consumerFilterSubjects (filter_subjects b) (filter_subject b)) in
    if negb dedicated then (ss, file)
    else
      let missing := boot_missing b in
      if 0 <? missing then (set_bootGap missing ss, recordLatch ss write_fails missing file)
      else (ss, file).

Definition bootSampleAttempts : Z := 3.

(** One attempt reads the consumer, then the stream; [probe n] is what attempt
    [n] finds.  The third failure is final. *)
Fixpoint boot_sample_from (fuel : nat) (probe : Z -> option broker) (attempt : Z) :
    option (broker * Z) :=
  match fuel with
  | O => None
  | S f => match probe attempt with
           | Some b => Some (b, attempt)
           | None => if bootSampleAttempts <=? attempt then None
                     else boot_sample_from f probe (attempt + 1)
           end
  end.

Definition bootSample (probe : Z -> option broker) : option (broker * Z) :=
  boot_sample_from 3 probe 1.

Section Bind.
Context {P E : Type} `{PositionStore P E}.

Inductive bind_error := ReadPositionError | AdoptError (e : E) | RefuseError (e : E).

(** [store] is [None] where there is no store to bind. *)
Definition bindStore (read_fails write_fails : bool) (b : broker) (ss : StreamSet) (store : option P) :
    StreamSet * option P * option bind_error :=
  match store with
  | None => (ss, None, None)
  | Some p =>
      let durable := durableName ss in
      let floor := floor_consumer b in
      match store_position read_fails p durable with
      | None => (ss, Some p, Some ReadPositionError)
      | Some pos =>
          if 0 <? pos_RefusedMissing pos then (set_storeGap (pos_RefusedMissing pos) ss, Some p, None)
          else if floor <=? pos_Seq pos then (ss, Some p, None)
          else if negb (pos_Known pos) && pos_HasIngest pos then
            match store_adopt write_fails durable floor p with
            | (p', None) => (ss, Some p', None)
            | (p', Some e) => (ss, Some p', Some (AdoptError e))
            end
          else
            let missing := floor - pos_Seq pos in
            match store_refuse write_fails durable missing p with
            | (p', None) => (set_storeGap missing ss, Some p', None)
            | (p', Some e) => (set_storeGap missing ss, Some p', Some (RefuseError e))
            end
      end
  end.
End Bind.
Arguments bind_error E : clear implicits.

Definition with_refusal (v : ReplayVerdict) (reason : ReplayReason) (missing : Z) : ReplayVerdict :=
  {| Ready := false; Applied := Applied v; Head := Head v; First := First v; Missing := missing;
     Pending := Pending v; AckPending := AckPending v; Reason := reason |}.

Definition ReplayStatus (ss : StreamSet) (probe : option broker) : option ReplayVerdict :=
  match probe with
  | None => None
  | Some b =>
      let '(wired, dedicated) :=
        streamCarries (stream_subjects b)
          (consumerFilterSubjects (filter_subjects b) (filter_subject b)) in
      let v := EvaluateReplay (floor_stream b) (last_seq b) (first_seq b) (num_pending b)
                 (num_ack_pending b) wired dedicated in
      Some (if Ready v then
              if 0 <? bootGap ss then
                with_refusal v ReplayPurgedGap
                  (if Missing v <? bootGap ss then bootGap ss else Missing v)
              else if 0 <? storeGap ss then
                with_refusal v ReplayStoreBehind
                  (if Missing v <? storeGap ss then storeGap ss else Missing v)
              else if bootUnverified ss then with_refusal v ReplayUnverified (Missing v)
              else v
            else v)
  end.

(** The boot order of [StartJetStreamWorker]: sample, bind the store, latch the
    retention gap; a failed sample or binding stops the worker. *)
Section Boot.
Context {P E : Type} `{PositionStore P E}.

Definition boot (probe : Z -> option broker) (read_fails write_fails marker_fails : bool)
    (path durable : string) (store : option P) (file : marker) :
    option StreamSet * option P * marker :=
  match bootSample probe with
  | None => (None, store, file)
  | Some (b, _) =>
      match bindStore read_fails write_fails b (boot_process path durable) store with
      | (_, store', Some _) => (None, store', file)
      | (ss, store', None) =>
          let '(ss', file') := latchBootGap marker_fails b ss file in
          (Some ss', store', file')
      end
  end.
End Boot.

(** ** The DuckDB file as a position store *)

#[export] Program Instance duck_positions : PositionStore duckdb duck_error := {|
  store_position io d durable := if io then None else Some (read_position d durable);
  store_adopt io durable seq d := AdoptPosition io durable seq d;
  store_refuse io durable missing d := RefusePosition io durable missing d;
|}.
Next Obligation. done. Qed.
Next Obligation. done. Qed.
Next Obligation.
  intros io p p' d m Hr Hm q [= <-] Hq. apply Write_ok in Hr as [_ [= <-]].
  eexists. split; [done|]. rewrite read_position_refuse, String.eqb_refl. simpl.
  simpl in Hq. destruct (_ =? 0) eqn:E; bool_props; lia.
Qed.
Next Obligation.
  intros io p p' d s Hr Hd Hs. apply Write_ok in Hr as [_ [= <-]].
  eexists. split; [done|]. rewrite read_position_advance by done. rewrite String.eqb_refl. simpl.
  destruct (ingest_position p !! d); simpl; lia.
Qed.

(** ** Lemmas *)

Definition u64_value (z : Z) : Prop := 0 <= z < two64.

Lemma latch_found ss m : LossMarkerPath ss <> "" -> 0 < m -> readLatch ss (LossMarker m) = (m, true, false).
Proof.
  intros Hp Hm. unfold readLatch. apply String.eqb_neq in Hp. rewrite Hp.
  by destruct (Z.ltb_spec 0 m); [|lia].
Qed.

(** A latched process never answers ready. *)
Lemma ReplayStatus_latched ss b v :
  0 < bootGap ss \/ 0 < storeGap ss \/ bootUnverified ss = true ->
  ReplayStatus ss (Some b) = Some v -> Ready v = false.
Proof.
  unfold ReplayStatus. destruct (streamCarries _ _) as [w d].
  destruct (Ready (EvaluateReplay _ _ _ _ _ _ _)) eqn:E; [|intros _ [= <-]; exact E].
  intros Hl [= <-]. destruct (Z.ltb_spec 0 (bootGap ss)); [done|].
  destruct (Z.ltb_spec 0 (storeGap ss)); [done|].
  destruct (bootUnverified ss); [done|]. destruct Hl as [?|[?|?]]; [lia|lia|done].
Qed.

Lemma durableName_nonempty ss : durableName ss <> "".
Proof. unfold durableName. destruct (String.eqb (Durable ss) "") eqn:E; bool_props; [done|done]. Qed.

#[export] Hint Resolve durableName_nonempty : agentray.

Lemma latch_frame wf b ss file ss' file' :
  latchBootGap wf b ss file = (ss', file') ->
  storeGap ss' = storeGap ss /\ LossMarkerPath ss' = LossMarkerPath ss /\ Durable ss' = Durable ss.
Proof.
  unfold latchBootGap. destruct (readLatch ss file) as [[m f] u].
  destruct u; [by intros [= <- <-]|]. destruct f; [by intros [= <- <-]|].
  destruct (streamCarries _ _) as [w d]. destruct (negb d); [by intros [= <- <-]|].
  destruct (0 <? boot_missing b); by intros [= <- <-].
Qed.

(** ** Properties *)

(** What a dedicated colour has lost to retention: sequences above its applied
    mark that are gone, or, when it has applied nothing, everything. *)
Definition lost (applied head first : Z) : Prop :=
  (0 < applied /\ exists q, applied < q < first) \/
  (applied = 0 /\ 0 < head /\ forall q, first <= q -> head < q).

(** The verdict of [EvaluateReplay]: a colour is ready exactly when the stream
    carries its subjects, nothing it never applied is gone from a stream it
    owns, and nothing is left to deliver (or it has applied up to the head of
    its own stream); a loss is reported before any caught-up shortcut, with the
    number of missing sequences. *)
Theorem EvaluateReplay_verdict applied head first pending ackPending wired dedicated :
  u64_value applied -> u64_value head -> u64_value first -> applied + 1 < two64 ->
  let v := EvaluateReplay applied head first pending ackPending wired dedicated in
  let gone := dedicated = true /\ lost applied head first in
  (Ready v = true <->
     wired = true /\ ~ gone /\ (pending = 0 \/ dedicated = true /\ head <= applied)) /\
  (Reason v = ReplayPurgedGap <-> wired = true /\ gone) /\
  (Reason v = ReplayPurgedGap ->
     Missing v = if applied =? 0 then head else first - applied - 1).
Proof.
  intros Ha Hh Hf Hw v gone. unfold u64_value in *.
  assert (Hg1 : forall q, (0 < applied /\ applied < q < first) -> applied + 1 < first) by lia.
  assert (Hlost : lost applied head first <->
     (0 < applied /\ applied + 1 < first) \/ (applied = 0 /\ 0 < head /\ head < first)).
  { unfold lost. split.
    - intros [[? [q ?]]|(? & ? & Hq)]; [left; lia|right].
      split_and!; [done..|]. destruct (Z.lt_ge_cases head first); [done|].
      specialize (Hq head ltac:(lia)). lia.
    - intros [[? ?]|(? & ? & ?)]; [left|right]; [split; [done|]; exists (applied + 1); lia|].
      split_and!; [done..|]. intros; lia. }
  unfold gone. rewrite Hlost. subst v. unfold EvaluateReplay.
  rewrite (u64_small (applied + 1)) by lia.
  destruct wired; simpl; [|by split_and!; [split; [|intros []]|split; [|intros []]|]].
  destruct dedicated; simpl.
  - destruct (Z.ltb_spec 0 applied), (Z.ltb_spec (applied + 1) first), (Z.eqb_spec applied 0),
      (Z.ltb_spec 0 head), (Z.ltb_spec head first), (Z.leb_spec head applied), (Z.eqb_spec pending 0);
      simpl; try lia; split_and!; try (split; intros; try done; lia); try done;
      intros; try lia; by rewrite u64_small by lia.
  - destruct (Z.eqb_spec pending 0); simpl; split_and!; try done.
    + split; [intros _|done]. split_and!; [done|by intros [? _]|by left].
    + split; [done|]. by intros (_ & ? & _).
    + split; [done|]. by intros (_ & _ & [?|[? _]]).
    + split; [done|]. by intros (_ & ? & _).
Qed.

Lemma EvaluateReplay_verdict_witness :
  Ready (EvaluateReplay 10 20 15 0 0 true true) = true <->
  true = true /\ ~ (true = true /\ lost 10 20 15) /\ (0 = 0 \/ true = true /\ 20 <= 10).
Proof.
  apply (EvaluateReplay_verdict 10 20 15 0 0 true true); unfold u64_value, two64; lia.
Defined.

(** A retention loss outlives the process that found it: once a boot latches a
    gap and writes its marker, every later process of the colour refuses,
    whatever its broker and its own boot sample show, and the marker stays. *)
Theorem retention_loss_survives_restart b ss ss' file' :
  latchBootGap false b ss NoMarker = (ss', file') ->
  0 < bootGap ss' -> bootGap ss = 0 -> LossMarkerPath ss <> "" ->
  forall wf b2 ss2 ss3 file3,
    LossMarkerPath ss2 = LossMarkerPath ss ->
    latchBootGap wf b2 ss2 file' = (ss3, file3) ->
    file3 = file' /\ forall probe v, ReplayStatus ss3 (Some probe) = Some v -> Ready v = false.
Proof.
  intros Hl Hg H0 Hp wf b2 ss2 ss3 file3 Hp2 H2.
  assert (Hfile : exists m, 0 < m /\ file' = LossMarker m).
  { apply String.eqb_neq in Hp. unfold latchBootGap, readLatch in Hl. rewrite Hp in Hl.
    destruct (streamCarries _ _) as [w d].
    destruct (negb d); [injection Hl as <- <-; lia|].
    destruct (Z.ltb_spec 0 (boot_missing b)); injection Hl as <- <-; [|lia].
    exists (boot_missing b). unfold recordLatch. by rewrite Hp. }
  destruct Hfile as (m & Hm & ->). unfold latchBootGap in H2.
  rewrite latch_found in H2 by congruence. injection H2 as <- <-. split; [done|].
  intros probe v. apply ReplayStatus_latched. by left.
Qed.

Definition w_broker (floor first last : Z) : broker :=
  {| stream_subjects := ["dev.events"]; filter_subjects := []; filter_subject := "dev.events";
     floor_stream := floor; floor_consumer := floor; first_seq := first; last_seq := last;
     num_pending := 0; num_ack_pending := 0 |}.

Definition w_refused : ReplayVerdict :=
  {| Ready := false; Applied := 30; Head := 30; First := 5; Missing := 9; Pending := 0;
     AckPending := 0; Reason := ReplayPurgedGap |}.

Lemma retention_loss_survives_restart_witness : Ready w_refused = false.
Proof.
  refine (proj2 (retention_loss_survives_restart (w_broker 10 20 30)
    (boot_process "/data/loss" "blue") (set_bootGap 9 (boot_process "/data/loss" "blue"))
    (LossMarker 9) _ _ _ _ false (w_broker 30 5 30) (boot_process "/data/loss" "blue")
    (set_bootGap 9 (boot_process "/data/loss" "blue")) (LossMarker 9) _ _) (w_broker 30 5 30) w_refused _);
    first [reflexivity | discriminate].
Defined.

(** A process that answers ready was bound to a store whose own record reached
    the durable's acknowledged floor, and that records no refusal: the
    acknowledged messages are in the file, or the process never says ready. *)
Theorem ready_store_covers_floor {P E} `{PositionStore P E} rf wf b ss p ss1 p1 ss2 probe v :
  bindStore rf wf b ss (Some p) = (ss1, Some p1, None) ->
  (forall q, store_position false p (durableName ss) = Some q -> 0 <= pos_RefusedMissing q) ->
  0 <= floor_consumer b -> storeGap ss2 = storeGap ss1 ->
  ReplayStatus ss2 (Some probe) = Some v -> Ready v = true ->
  exists q, store_position false p1 (durableName ss) = Some q /\ floor_consumer b <= pos_Seq q.
Proof.
  intros Hb Hpos Hfl Hgap Hv Hready.
  assert (H0 : storeGap ss1 <= 0).
  { destruct (Z.le_gt_cases (storeGap ss1) 0); [done|].
    assert (Ready v = false); [|congruence].
    eapply ReplayStatus_latched; [|exact Hv]. right. left. lia. }
  unfold bindStore in Hb. destruct rf; [by rewrite store_failed in Hb|].
  destruct (store_position false p (durableName ss)) as [pos|] eqn:Epos; [|done].
  destruct (Z.ltb_spec 0 (pos_RefusedMissing pos)).
  { injection Hb as <- <-. simpl in H0. lia. }
  destruct (Z.leb_spec (floor_consumer b) (pos_Seq pos)).
  { injection Hb as <- <-. eauto. }
  destruct (negb (pos_Known pos) && pos_HasIngest pos).
  - destruct (store_adopt wf _ _ p) as [p' [e|]] eqn:Ea; [done|]. injection Hb as <- <-.
    eapply store_adopted; [exact Ea|apply durableName_nonempty|done].
  - destruct (store_refuse wf _ _ p) as [p' [e|]] eqn:Er; [done|]. injection Hb as <- <-.
    simpl in H0. lia.
Qed.

Definition w_adopted_db : duckdb :=
  (AdoptPosition false "blue" 12 empty_duckdb).1.

Definition w_ready : ReplayVerdict :=
  {| Ready := true; Applied := 12; Head := 30; First := 5; Missing := 0; Pending := 0;
     AckPending := 0; Reason := ReplayCaughtUp |}.

Lemma ready_store_covers_floor_witness :
  exists q, store_position false w_adopted_db "blue" = Some q /\ 12 <= pos_Seq q.
Proof.
  apply (ready_store_covers_floor (E := duck_error) false false (w_broker 12 5 30)
    (boot_process "" "blue") w_adopted_db (boot_process "" "blue") w_adopted_db
    (boot_process "" "blue") (w_broker 12 5 30) w_ready); try reflexivity.
  - intros q [= <-]. vm_compute. discriminate.
  - vm_compute. discriminate.
Defined.
