(* ===== verification/Persons.v ===== *)
(** * Persons: [internal/dataplane/store/persons_profile.go]

    The person-profile projection: a batch of events is distilled into one delta
    per person, and a delta is folded onto the stored profile.  The order in
    which Go ranges over a trait map does not matter (each key is treated on its
    own), so a range is an update of the whole map.

    [json.Unmarshal] of an event's properties and of one raw trait are the
    fields of [JsonEnv]. *)

From S2P Require Import Prelude GoStrings GoTime Duck.
Import String.
Open Scope string_scope.
Open Scope Z_scope.

Record eventProps := {
  ep_Set : gmap string string; ep_SetOnce : gmap string string; ep_Email : string; ep_Name : string;
}.

Class JsonEnv := {
  unmarshal_props : string -> eventProps;
  unmarshal_string : string -> option string;
}.

Record personDelta := {
  setProps : gmap string string; onceProps : gmap string string;
  setTS : gmap string Z; onceTS : gmap string Z;
  email : string; name : string; emailTS : Z; nameTS : Z; firstSeen : Z; lastSeen : Z;
}.

Definition firstNonEmpty (values : list string) : string :=
  default "" (find_first (fun v => negb (String.eqb v "")) values).

(** The writes of [for k, v := range src { if take(k) { dst[k] = v } }]. *)
Definition overlay {V} (take : string -> bool) (src dst : gmap string V) : gmap string V :=
  filter (fun kv => take kv.1 = true) src ∪ dst.

Lemma overlay_lookup {V} take (src dst : gmap string V) k :
  overlay take src dst !! k =
  match src !! k with Some v => if take k then Some v else dst !! k | None => dst !! k end.
Proof.
  unfold overlay. rewrite lookup_union, map_lookup_filter.
  destruct (src !! k) as [v|]; simpl; [|by destruct (dst !! k)].
  case_guard as T; simpl in T; destruct (take k); try done; simpl; by destruct (dst !! k).
Qed.

(** ** Distilling a batch *)

Section Extract.
Context `{JsonEnv}.

Definition stringTrait (m : gmap string string) (key : string) : string :=
  match m !! key with
  | None => ""
  | Some raw => default "" (unmarshal_string raw)
  end.

Definition props_of_event (e : Event) : eventProps :=
  if String.eqb (e_Properties e) ""
  then {| ep_Set := ∅; ep_SetOnce := ∅; ep_Email := ""; ep_Name := "" |}
  else unmarshal_props (e_Properties e).

Definition email_trait (p : eventProps) : string :=
  firstNonEmpty [ep_Email p; stringTrait (ep_Set p) "email"].
Definition name_trait (p : eventProps) : string :=
  firstNonEmpty [ep_Name p; stringTrait (ep_Set p) "name"].

(** An event that carries no identity trait leaves every profile alone. *)
Definition bears_traits (p : eventProps) : bool :=
  negb (Nat.eqb (size (ep_Set p)) 0 && Nat.eqb (size (ep_SetOnce p)) 0
        && String.eqb (email_trait p) "" && String.eqb (name_trait p) "").

Definition new_delta (ts : Z) : personDelta :=
  {| setProps := ∅; onceProps := ∅; setTS := ∅; onceTS := ∅; email := ""; name := "";
     emailTS := 0; nameTS := 0; firstSeen := ts; lastSeen := ts |}.

(** [!ok || !ts.Before(prev)] and [!ok || ts.Before(prev)]. *)
Definition latest (tss : gmap string Z) (ts : Z) (k : string) : bool :=
  match tss !! k with None => true | Some prev => negb (time_before ts prev) end.
Definition earliest (tss : gmap string Z) (ts : Z) (k : string) : bool :=
  match tss !! k with None => true | Some prev => time_before ts prev end.

Definition fold_event (p : eventProps) (ts : Z) (d : personDelta) : personDelta :=
  let take_email := negb (String.eqb (email_trait p) "")
    && (String.eqb (email d) "" || negb (time_before ts (emailTS d))) in
  let take_name := negb (String.eqb (name_trait p) "")
    && (String.eqb (name d) "" || negb (time_before ts (nameTS d))) in
  {| setProps := overlay (latest (setTS d) ts) (ep_Set p) (setProps d);
     onceProps := overlay (earliest (onceTS d) ts) (ep_SetOnce p) (onceProps d);
     setTS := overlay (latest (setTS d) ts) ((fun _ => ts) <$> ep_Set p) (setTS d);
     onceTS := overlay (earliest (onceTS d) ts) ((fun _ => ts) <$> ep_SetOnce p) (onceTS d);
     email := if take_email then email_trait p else email d;
     name := if take_name then name_trait p else name d;
     emailTS := if take_email then ts else emailTS d;
     nameTS := if take_name then ts else nameTS d;
     firstSeen := if time_before ts (firstSeen d) then ts else firstSeen d;
     lastSeen := if time_after ts (lastSeen d) then ts else lastSeen d |}.

(** (project, canonical distinct id). *)
Definition person_key (resolve : string -> string -> string) (e : Event) : string * string :=
  (e_ProjectID e, resolve (e_ProjectID e) (e_DistinctID e)).

Definition extract_one (resolve : string -> string -> string) (e : Event)
    (out : gmap (string * string) personDelta) : gmap (string * string) personDelta :=
  if String.eqb (e_DistinctID e) "" || String.eqb (e_ProjectID e) "" then out
  else
    let p := props_of_event e in
    if negb (bears_traits p) then out
    else
      let k := person_key resolve e in
      <[k := fold_event p (e_Timestamp e)
               (default (new_delta (e_Timestamp e)) (out !! k))]> out.

Definition extractPersonDeltas (events : list Event) (resolve : string -> string -> string) :
    gmap (string * string) personDelta :=
  fold_left (fun out e => extract_one resolve e out) events ∅.
End Extract.

(** ** Folding a delta onto a profile *)

Definition no_person : personRow :=
  {| p_SetProps := ∅; p_OnceProps := ∅; p_Email := ""; p_Name := ""; p_FirstSeen := 0; p_LastSeen := 0 |}.

(** Whether a value backed by [ts] may overwrite a stored one. *)
Definition fresh (watermark : Z) (d : personDelta) (ts : Z) : bool :=
  let ts := if time_is_zero ts then lastSeen d else ts in
  time_is_zero watermark || negb (time_before ts watermark).

Definition mergePersonDelta (existing : option personRow) (d : personDelta) : personRow :=
  let e := default no_person existing in
  let watermark := p_LastSeen e in
  let take k := match p_SetProps e !! k with
                | None => true
                | Some _ => fresh watermark d (default 0 (setTS d !! k))
                end in
  {| p_SetProps := overlay take (setProps d) (p_SetProps e);
     p_OnceProps := p_OnceProps e ∪ onceProps d;
     p_Email := if negb (String.eqb (email d) "")
                   && (String.eqb (p_Email e) "" || fresh watermark d (emailTS d))
                then email d else p_Email e;
     p_Name := if negb (String.eqb (name d) "")
                  && (String.eqb (p_Name e) "" || fresh watermark d (nameTS d))
               then name d else p_Name e;
     p_FirstSeen := if time_is_zero (p_FirstSeen e)
                       || (negb (time_is_zero (firstSeen d)) && time_before (firstSeen d) (p_FirstSeen e))
                    then firstSeen d else p_FirstSeen e;
     p_LastSeen := if time_after (lastSeen d) (p_LastSeen e) then lastSeen d else p_LastSeen e |}.

(** The trait map [PersonProfile] answers: [$set] wins over [$set_once]. *)
Definition profile_traits (p : personRow) : gmap string string := p_SetProps p ∪ p_OnceProps p.

(** ** Lemmas *)

(** No value of the delta is backed by an instant after its last event. *)
Definition delta_wf (d : personDelta) : Prop :=
  (forall k ts, setTS d !! k = Some ts -> ts <= lastSeen d) /\
  emailTS d <= lastSeen d /\ nameTS d <= lastSeen d /\ 0 <= lastSeen d.

Lemma personRow_eq p q :
  p_SetProps p = p_SetProps q -> p_OnceProps p = p_OnceProps q -> p_Email p = p_Email q ->
  p_Name p = p_Name q -> p_FirstSeen p = p_FirstSeen q -> p_LastSeen p = p_LastSeen q -> p = q.
Proof. destruct p, q. simpl. by intros -> -> -> -> -> ->. Qed.

Lemma stale watermark d ts :
  ts <= lastSeen d -> lastSeen d < watermark -> 0 <= lastSeen d -> fresh watermark d ts = false.
Proof.
  intros. unfold fresh, time_is_zero, time_before.
  destruct (Z.eqb_spec watermark 0); [lia|]. simpl.
  destruct (Z.eqb_spec ts 0); apply negb_false_iff, Z.ltb_lt; lia.
Qed.

(** A stored profile that already has every key of a stale delta absorbs it. *)
Lemma merge_stale d q :
  delta_wf d -> lastSeen d < p_LastSeen q ->
  (forall k, is_Some (setProps d !! k) -> is_Some (p_SetProps q !! k)) ->
  (forall k, is_Some (onceProps d !! k) -> is_Some (p_OnceProps q !! k)) ->
  (email d <> "" -> p_Email q <> "") -> (name d <> "" -> p_Name q <> "") ->
  (p_FirstSeen q = 0 -> firstSeen d = 0) -> (firstSeen d <> 0 -> p_FirstSeen q <= firstSeen d) ->
  mergePersonDelta (Some q) d = q.
Proof.
  intros (Hts & Het & Hnt & H0) Hl Hset Honce He Hn Hf0 Hf. apply personRow_eq; simpl.
  - apply map_eq. intros k. rewrite overlay_lookup.
    destruct (setProps d !! k) as [v|] eqn:Ek; [|done].
    destruct (Hset k ltac:(eauto)) as [x Hx]. rewrite Hx.
    rewrite stale; [done| |done..]. destruct (setTS d !! k) as [ts|] eqn:Et; simpl; [eauto|lia].
  - apply map_eq. intros k. rewrite lookup_union.
    destruct (p_OnceProps q !! k) as [x|] eqn:Ek; [by destruct (onceProps d !! k)|].
    destruct (onceProps d !! k) as [v|] eqn:Ed; [|done].
    destruct (Honce k ltac:(eauto)) as [x Hx]. congruence.
  - rewrite stale by done. rewrite orb_false_r.
    destruct (String.eqb_spec (email d) ""), (String.eqb_spec (p_Email q) ""); naive_solver.
  - rewrite stale by done. rewrite orb_false_r.
    destruct (String.eqb_spec (name d) ""), (String.eqb_spec (p_Name q) ""); naive_solver.
  - unfold time_is_zero, time_before. destruct (Z.eqb_spec (p_FirstSeen q) 0) as [E|E]; simpl.
    + by rewrite E, Hf0.
    + destruct (Z.eqb_spec (firstSeen d) 0); simpl; [done|].
      destruct (Z.ltb_spec (firstSeen d) (p_FirstSeen q)); [|done]. specialize (Hf n). lia.
  - unfold time_after. destruct (Z.ltb_spec (p_LastSeen q) (lastSeen d)); [lia|done].
Qed.

(** What a merge leaves behind for its own delta. *)
Lemma merge_keys e d :
  let q := mergePersonDelta e d in
  (forall k, is_Some (setProps d !! k) -> is_Some (p_SetProps q !! k)) /\
  (forall k, is_Some (onceProps d !! k) -> is_Some (p_OnceProps q !! k)) /\
  (email d <> "" -> p_Email q <> "") /\ (name d <> "" -> p_Name q <> "") /\
  (p_FirstSeen q = 0 -> firstSeen d = 0) /\ (firstSeen d <> 0 -> p_FirstSeen q <= firstSeen d) /\
  lastSeen d <= p_LastSeen q.
Proof.
  simpl. split_and!.
  - intros k [v Hv]. rewrite overlay_lookup, Hv. destruct (p_SetProps _ !! k) eqn:E; [|eauto].
    destruct (fresh _ _ _); eauto.
  - intros k [v Hv]. apply lookup_union_is_Some. right. eauto.
  - intros Hne. apply String.eqb_neq in Hne as Hb. rewrite Hb. simpl.
    destruct (String.eqb_spec (p_Email (default no_person e)) ""); simpl; [done|].
    by destruct (fresh _ _ _).
  - intros Hne. apply String.eqb_neq in Hne as Hb. rewrite Hb. simpl.
    destruct (String.eqb_spec (p_Name (default no_person e)) ""); simpl; [done|].
    by destruct (fresh _ _ _).
  - unfold time_is_zero, time_before. destruct (Z.eqb_spec (p_FirstSeen (default no_person e)) 0); simpl; [done|].
    destruct (Z.eqb_spec (firstSeen d) 0); simpl; [done|].
    destruct (Z.ltb_spec (firstSeen d) (p_FirstSeen (default no_person e))); lia.
  - unfold time_is_zero, time_before. intros Hne.
    destruct (Z.eqb_spec (p_FirstSeen (default no_person e)) 0); simpl; [lia|].
    destruct (Z.eqb_spec (firstSeen d) 0); simpl; [done|].
    destruct (Z.ltb_spec (firstSeen d) (p_FirstSeen (default no_person e))); lia.
  - unfold time_after. destruct (Z.ltb_spec (p_LastSeen (default no_person e)) (lastSeen d)); lia.
Qed.

(** A later merge forgets no key and widens the seen interval. *)
Lemma merge_grows q d :
  let q' := mergePersonDelta (Some q) d in
  (forall k, is_Some (p_SetProps q !! k) -> is_Some (p_SetProps q' !! k)) /\
  (forall k, is_Some (p_OnceProps q !! k) -> is_Some (p_OnceProps q' !! k)) /\
  (p_Email q <> "" -> p_Email q' <> "") /\ (p_Name q <> "" -> p_Name q' <> "") /\
  (p_FirstSeen q <> 0 -> p_FirstSeen q' <> 0 /\ p_FirstSeen q' <= p_FirstSeen q) /\
  p_LastSeen q <= p_LastSeen q'.
Proof.
  simpl. split_and!.
  - intros k [x Hx]. rewrite overlay_lookup, Hx. destruct (setProps d !! k); [|eauto].
    destruct (fresh _ _ _); eauto.
  - intros k [x Hx]. apply lookup_union_is_Some. left. eauto.
  - intros Hne. destruct (negb _ && _) eqn:E; [|done]. bool_props. done.
  - intros Hne. destruct (negb _ && _) eqn:E; [|done]. bool_props. done.
  - intros Hne. unfold time_is_zero, time_before. destruct (Z.eqb_spec (p_FirstSeen q) 0); [lia|]. simpl.
    destruct (Z.eqb_spec (firstSeen d) 0); simpl; [lia|].
    destruct (Z.ltb_spec (firstSeen d) (p_FirstSeen q)); lia.
  - unfold time_after. destruct (Z.ltb_spec (p_LastSeen q) (lastSeen d)); lia.
Qed.

Section ExtractLemmas.
Context `{JsonEnv} (resolve : string -> string -> string).

(** The events that bear on a person's delta. *)
Definition bears_on (pk : string * string) (e : Event) : Prop :=
  e_DistinctID e <> "" /\ e_ProjectID e <> "" /\ bears_traits (props_of_event e) = true /\
  person_key resolve e = pk.

(** [d] is what the events [seen] say about [pk]. *)
Definition distilled (pk : string * string) (seen : list Event) (d : personDelta) : Prop :=
  (forall k, match setProps d !! k with
    | Some v => exists e, e ∈ seen /\ bears_on pk e /\ ep_Set (props_of_event e) !! k = Some v /\
        setTS d !! k = Some (e_Timestamp e) /\
        forall e', e' ∈ seen -> bears_on pk e' -> is_Some (ep_Set (props_of_event e') !! k) ->
          e_Timestamp e' <= e_Timestamp e
    | None => setTS d !! k = None /\
        forall e', e' ∈ seen -> bears_on pk e' -> ep_Set (props_of_event e') !! k = None
    end) /\
  (forall k, match onceProps d !! k with
    | Some v => exists e, e ∈ seen /\ bears_on pk e /\ ep_SetOnce (props_of_event e) !! k = Some v /\
        onceTS d !! k = Some (e_Timestamp e) /\
        forall e', e' ∈ seen -> bears_on pk e' -> is_Some (ep_SetOnce (props_of_event e') !! k) ->
          e_Timestamp e <= e_Timestamp e'
    | None => onceTS d !! k = None /\
        forall e', e' ∈ seen -> bears_on pk e' -> ep_SetOnce (props_of_event e') !! k = None
    end) /\
  (forall e', e' ∈ seen -> bears_on pk e' -> e_Timestamp e' <= lastSeen d) /\
  (emailTS d = 0 \/ exists e, e ∈ seen /\ bears_on pk e /\ emailTS d = e_Timestamp e) /\
  (nameTS d = 0 \/ exists e, e ∈ seen /\ bears_on pk e /\ nameTS d = e_Timestamp e).

Lemma fold_event_set p ts d k :
  setProps (fold_event p ts d) !! k =
    match ep_Set p !! k with
    | Some v => if latest (setTS d) ts k then Some v else setProps d !! k
    | None => setProps d !! k
    end /\
  setTS (fold_event p ts d) !! k =
    match ep_Set p !! k with
    | Some v => if latest (setTS d) ts k then Some ts else setTS d !! k
    | None => setTS d !! k
    end.
Proof.
  simpl. rewrite !overlay_lookup, lookup_fmap. by destruct (ep_Set p !! k).
Qed.

Lemma fold_event_once p ts d k :
  onceProps (fold_event p ts d) !! k =
    match ep_SetOnce p !! k with
    | Some v => if earliest (onceTS d) ts k then Some v else onceProps d !! k
    | None => onceProps d !! k
    end /\
  onceTS (fold_event p ts d) !! k =
    match ep_SetOnce p !! k with
    | Some v => if earliest (onceTS d) ts k then Some ts else onceTS d !! k
    | None => onceTS d !! k
    end.
Proof.
  simpl. rewrite !overlay_lookup, lookup_fmap. by destruct (ep_SetOnce p !! k).
Qed.

(** An event of the person extends what was distilled. *)
Lemma distilled_snoc pk seen d e :
  distilled pk seen d -> bears_on pk e ->
  distilled pk (seen ++ [e])%list (fold_event (props_of_event e) (e_Timestamp e) d).
Proof.
  intros (Hs & Ho & Hl & He & Hn) Hb.
  assert (Hin : forall x, x ∈ (seen ++ [e])%list <-> x ∈ seen \/ x = e).
  { intros x. rewrite elem_of_app, list_elem_of_singleton. done. }
  assert (Hw : forall (P : Event -> Prop), (exists x, x ∈ seen /\ P x) ->
    exists x, x ∈ (seen ++ [e])%list /\ P x).
  { intros P (x & Hx & Px). exists x. rewrite Hin. auto. }
  unfold distilled. split_and!.
  - intros k. destruct (fold_event_set (props_of_event e) (e_Timestamp e) d k) as [-> ->].
    specialize (Hs k). unfold latest, time_before.
    destruct (ep_Set (props_of_event e) !! k) as [v|] eqn:Ek.
    + destruct (setProps d !! k) as [v0|] eqn:E0.
      * destruct Hs as (e0 & H0 & B0 & V0 & T0 & M0). rewrite T0.
        destruct (Z.ltb_spec (e_Timestamp e) (e_Timestamp e0)) as [Hlt|Hge]; simpl.
        -- exists e0. rewrite Hin. split_and!; auto. intros e' [He'| ->]%Hin ? ?; [eauto|lia].
        -- exists e. rewrite Hin. split_and!; auto.
           intros e' [He'| ->]%Hin ? ?; [|lia]. etrans; [eapply M0; eauto|lia].
      * destruct Hs as [T0 M0]. rewrite T0. exists e. rewrite Hin. split_and!; auto.
        intros e' [He'| ->]%Hin Hb' [x Hx]; [|lia]. rewrite M0 in Hx; done.
    + destruct (setProps d !! k) as [v0|] eqn:E0.
      * destruct Hs as (e0 & H0 & B0 & V0 & T0 & M0). exists e0. rewrite Hin. split_and!; auto.
        intros e' [He'| ->]%Hin ? [x Hx]; [eauto|congruence].
      * destruct Hs as [T0 M0]. split; [done|]. intros e' [He'| ->]%Hin ?; auto.
  - intros k. destruct (fold_event_once (props_of_event e) (e_Timestamp e) d k) as [-> ->].
    specialize (Ho k). unfold earliest, time_before.
    destruct (ep_SetOnce (props_of_event e) !! k) as [v|] eqn:Ek.
    + destruct (onceProps d !! k) as [v0|] eqn:E0.
      * destruct Ho as (e0 & H0 & B0 & V0 & T0 & M0). rewrite T0.
        destruct (Z.ltb_spec (e_Timestamp e) (e_Timestamp e0)) as [Hlt|Hge]; simpl.
        -- exists e. rewrite Hin. split_and!; auto.
           intros e' [He'| ->]%Hin ? ?; [|lia]. etrans; [|eapply M0; eauto]. lia.
        -- exists e0. rewrite Hin. split_and!; auto. intros e' [He'| ->]%Hin ? ?; [eauto|lia].
      * destruct Ho as [T0 M0]. rewrite T0. exists e. rewrite Hin. split_and!; auto.
        intros e' [He'| ->]%Hin Hb' [x Hx]; [|lia]. rewrite M0 in Hx; done.
    + destruct (onceProps d !! k) as [v0|] eqn:E0.
      * destruct Ho as (e0 & H0 & B0 & V0 & T0 & M0). exists e0. rewrite Hin. split_and!; auto.
        intros e' [He'| ->]%Hin ? [x Hx]; [eauto|congruence].
      * destruct Ho as [T0 M0]. split; [done|]. intros e' [He'| ->]%Hin ?; auto.
  - intros e' [He'| ->]%Hin Hb'; simpl; unfold time_after;
      destruct (Z.ltb_spec (lastSeen d) (e_Timestamp e)); try lia; specialize (Hl e' He' Hb'); lia.
  - simpl. destruct (_ && _); [right; exists e; rewrite Hin; auto|].
    destruct He as [?|?]; [by left|right; by apply Hw].
  - simpl. destruct (_ && _); [right; exists e; rewrite Hin; auto|].
    destruct Hn as [?|?]; [by left|right; by apply Hw].
Qed.

Lemma distilled_new pk seen ts :
  (forall e, e ∈ seen -> ~ bears_on pk e) -> distilled pk seen (new_delta ts).
Proof.
  intros Hno. unfold distilled. simpl. split_and!; try (intros k; rewrite lookup_empty).
  - split; [done|]. intros e He Hb. by destruct (Hno e He).
  - split; [done|]. intros e He Hb. by destruct (Hno e He).
  - intros e He Hb. by destruct (Hno e He).
  - by left.
  - by left.
Qed.

Lemma distilled_skip pk seen d e :
  distilled pk seen d -> ~ bears_on pk e -> distilled pk (seen ++ [e])%list d.
Proof.
  intros (Hs & Ho & Hl & He & Hn) Hb.
  assert (Hin : forall x, x ∈ (seen ++ [e])%list <-> x ∈ seen \/ x = e).
  { intros x. rewrite elem_of_app, list_elem_of_singleton. done. }
  assert (Hw : forall (P : Event -> Prop), (exists x, x ∈ seen /\ P x) ->
    exists x, x ∈ (seen ++ [e])%list /\ P x).
  { intros P (x & Hx & Px). exists x. rewrite Hin. auto. }
  unfold distilled. split_and!.
  - intros k. specialize (Hs k). destruct (setProps d !! k).
    + destruct Hs as (e0 & H0 & B0 & V0 & T0 & M0). exists e0. rewrite Hin. split_and!; auto.
      intros e' [He'| ->]%Hin ? ?; [eauto|done].
    + destruct Hs as [T0 M0]. split; [done|]. intros e' [He'| ->]%Hin ?; [auto|done].
  - intros k. specialize (Ho k). destruct (onceProps d !! k).
    + destruct Ho as (e0 & H0 & B0 & V0 & T0 & M0). exists e0. rewrite Hin. split_and!; auto.
      intros e' [He'| ->]%Hin ? ?; [eauto|done].
    + destruct Ho as [T0 M0]. split; [done|]. intros e' [He'| ->]%Hin ?; [auto|done].
  - intros e' [He'| ->]%Hin ?; [auto|done].
  - destruct He as [?|?]; [by left|right; by apply Hw].
  - destruct Hn as [?|?]; [by left|right; by apply Hw].
Qed.

(** Every person's delta is what the batch says about the person, and a person
    without a delta is one the batch says nothing about. *)
Lemma extract_distilled events pk :
  match extractPersonDeltas events resolve !! pk with
  | Some d => distilled pk events d
  | None => forall e, e ∈ events -> ~ bears_on pk e
  end.
Proof.
  unfold extractPersonDeltas. induction events as [|e events IH] using rev_ind.
  { simpl. rewrite lookup_empty. intros e He. by apply not_elem_of_nil in He. }
  rewrite fold_left_app. simpl. set (out := fold_left _ events ∅) in *. unfold extract_one.
  assert (Hskip : ~ bears_on pk e -> match out !! pk with
    | Some d => distilled pk (events ++ [e])%list d
    | None => forall x, x ∈ (events ++ [e])%list -> ~ bears_on pk x end).
  { intros Hno. destruct (out !! pk); [by apply distilled_skip|].
    intros x [Hx|Hx%list_elem_of_singleton]%elem_of_app; [auto|by subst]. }
  destruct (String.eqb_spec (e_DistinctID e) "") as [E1|E1]; simpl.
  { apply Hskip. by intros (? & _). }
  destruct (String.eqb_spec (e_ProjectID e) "") as [E2|E2]; simpl.
  { apply Hskip. by intros (_ & ? & _). }
  destruct (bears_traits (props_of_event e)) eqn:E3; simpl.
  2: { apply Hskip. intros (_ & _ & ? & _). congruence. }
  destruct (decide (person_key resolve e = pk)) as [<-|Hne].
  - rewrite lookup_insert_eq. apply distilled_snoc; [|done].
    destruct (out !! person_key resolve e); [done|]. by apply distilled_new.
  - rewrite lookup_insert_ne by done. apply Hskip. intros (_ & _ & _ & ?). done.
Qed.
End ExtractLemmas.

(** ** Properties *)

(** Within a batch, a person's [$set] value for a key comes from an event of the
    person (under the stitched id) no other event of the person sets later, and
    a [$set_once] value from one no other event sets earlier; a key no event
    sets is absent. *)
Theorem extractPersonDeltas_order `{JsonEnv} resolve events pk d k :
  extractPersonDeltas events resolve !! pk = Some d ->
  (forall v, setProps d !! k = Some v ->
     exists e, e ∈ events /\ bears_on resolve pk e /\ ep_Set (props_of_event e) !! k = Some v /\
       forall e', e' ∈ events -> bears_on resolve pk e' -> is_Some (ep_Set (props_of_event e') !! k) ->
         e_Timestamp e' <= e_Timestamp e) /\
  (forall v, onceProps d !! k = Some v ->
     exists e, e ∈ events /\ bears_on resolve pk e /\ ep_SetOnce (props_of_event e) !! k = Some v /\
       forall e', e' ∈ events -> bears_on resolve pk e' -> is_Some (ep_SetOnce (props_of_event e') !! k) ->
         e_Timestamp e <= e_Timestamp e') /\
  (setProps d !! k = None -> forall e, e ∈ events -> bears_on resolve pk e ->
     ep_Set (props_of_event e) !! k = None).
Proof.
  intros Hd. pose proof (extract_distilled resolve events pk) as Hx. rewrite Hd in Hx.
  destruct Hx as (Hs & Ho & _). specialize (Hs k). specialize (Ho k). split_and!.
  - intros v Hv. rewrite Hv in Hs. destruct Hs as (e & ? & ? & ? & _ & ?). eauto 10.
  - intros v Hv. rewrite Hv in Ho. destruct Ho as (e & ? & ? & ? & _ & ?). eauto 10.
  - intros Hn. rewrite Hn in Hs. apply Hs.
Qed.

(** Redelivering a batch after a strictly later batch of the same person has been
    folded in changes nothing: the freshness guard makes the second fold a
    no-op, on a new profile and on an existing one. *)
Theorem redelivery_is_noop e d1 d2 :
  delta_wf d1 -> lastSeen d1 < lastSeen d2 ->
  let q := mergePersonDelta (Some (mergePersonDelta e d1)) d2 in
  mergePersonDelta (Some q) d1 = q.
Proof.
  intros Hwf Hlt q.
  destruct (merge_keys e d1) as (K1 & K2 & K3 & K4 & K5 & K6 & _).
  destruct (merge_grows (mergePersonDelta e d1) d2) as (G1 & G2 & G3 & G4 & G5 & _).
  destruct (merge_keys (Some (mergePersonDelta e d1)) d2) as (_ & _ & _ & _ & _ & _ & L).
  fold q in G1, G2, G3, G4, G5, L. apply merge_stale; [done|lia|auto..|].
  - intros Hq. destruct (decide (p_FirstSeen (mergePersonDelta e d1) = 0)) as [E|E]; [auto|].
    by destruct (G5 E).
  - intros Hf. specialize (K6 Hf).
    destruct (decide (p_FirstSeen (mergePersonDelta e d1) = 0)) as [E|E]; [by destruct (Hf (K5 E))|].
    destruct (G5 E). lia.
Qed.

(** The no-op needs a strictly later batch: a redelivered batch whose trait
    carries the same timestamp as the profile's last event overwrites the value
    a later-processed batch had stored. *)
Theorem redelivery_tie_overwrites q d k v ts :
  setProps d !! k = Some v -> setTS d !! k = Some ts -> ts <> 0 -> p_LastSeen q = ts ->
  p_SetProps (mergePersonDelta (Some q) d) !! k = Some v.
Proof.
  intros Hv Ht H0 Hl. simpl. rewrite overlay_lookup, Hv. destruct (p_SetProps q !! k); [|done].
  unfold fresh, time_is_zero, time_before. rewrite Ht, Hl. cbn [default from_option id].
  destruct (Z.eqb_spec ts 0); [done|]. by rewrite Z.ltb_irrefl.
Qed.

(** ** Witnesses *)

Definition w_delta (v : string) (ts : Z) : personDelta :=
  {| setProps := {["plan" := v]}; onceProps := ∅; setTS := {["plan" := ts]}; onceTS := ∅;
     email := ""; name := ""; emailTS := 0; nameTS := 0; firstSeen := ts; lastSeen := ts |}.

#[local] Instance w_json : JsonEnv :=
  {| unmarshal_props := fun s => {| ep_Set := {["plan" := s]}; ep_SetOnce := ∅; ep_Email := "";
                                    ep_Name := "" |};
     unmarshal_string := fun s => Some s |}.

Definition w_trait_event (plan : string) (ts : Z) : Event :=
  {| e_ProjectID := "p"; e_EventID := "e"; e_DistinctID := "u"; e_SessionID := "";
     e_EventName := "identify"; e_EventType := "track"; e_Properties := plan; e_AgentID := "";
     e_ToolName := ""; e_ToolInput := ""; e_ToolOutput := ""; e_TokensInput := None;
     e_TokensOutput := None; e_CostUSD := None; e_LatencyMS := None; e_ModelName := "";
     e_IsError := false; e_ErrorMessage := ""; e_Timestamp := ts; e_VisitorClass := "human";
     e_BotName := ""; e_ReferrerHost := ""; e_ReferrerChannel := ""; e_UserAgent := "";
     e_Platform := ""; e_UTMSource := ""; e_UTMMedium := ""; e_UTMCampaign := "";
     e_UTMTerm := ""; e_UTMContent := ""; e_InsertID := ""; e_IsUnplanned := false |}.

Definition w_batch : list Event := [w_trait_event "pro" 9; w_trait_event "free" 4].

Definition w_extracted : personDelta :=
  default (new_delta 0) (extractPersonDeltas w_batch (fun _ d => d) !! ("p", "u")).

Lemma extractPersonDeltas_order_witness :
  let bears := bears_on (fun _ d => d) ("p", "u") in
  (forall v, setProps w_extracted !! "plan" = Some v ->
     exists e, e ∈ w_batch /\ bears e /\ ep_Set (props_of_event e) !! "plan" = Some v /\
       forall e', e' ∈ w_batch -> bears e' -> is_Some (ep_Set (props_of_event e') !! "plan") ->
         e_Timestamp e' <= e_Timestamp e) /\
  (forall v, onceProps w_extracted !! "plan" = Some v ->
     exists e, e ∈ w_batch /\ bears e /\ ep_SetOnce (props_of_event e) !! "plan" = Some v /\
       forall e', e' ∈ w_batch -> bears e' -> is_Some (ep_SetOnce (props_of_event e') !! "plan") ->
         e_Timestamp e <= e_Timestamp e') /\
  (setProps w_extracted !! "plan" = None -> forall e, e ∈ w_batch -> bears e ->
     ep_Set (props_of_event e) !! "plan" = None).
Proof.
  apply (extractPersonDeltas_order (fun _ d => d) w_batch ("p", "u") w_extracted "plan").
  apply default_Some. vm_compute. reflexivity.
Defined.

Lemma redelivery_is_noop_witness :
  let q := mergePersonDelta (Some (mergePersonDelta None (w_delta "free" 4))) (w_delta "pro" 9) in
  mergePersonDelta (Some q) (w_delta "free" 4) = q.
Proof.
  apply (redelivery_is_noop None (w_delta "free" 4) (w_delta "pro" 9)); [|reflexivity].
  split_and!; try (simpl; lia). intros k ts. simpl. rewrite lookup_singleton_Some. lia.
Defined.

Lemma redelivery_tie_overwrites_witness :
  p_SetProps (mergePersonDelta
    (Some (mergePersonDelta (Some (mergePersonDelta None (w_delta "free" 4))) (w_delta "pro" 4)))
    (w_delta "free" 4)) !! "plan" = Some "free".
Proof.
  apply (redelivery_tie_overwrites
    (mergePersonDelta (Some (mergePersonDelta None (w_delta "free" 4))) (w_delta "pro" 4))
    (w_delta "free" 4) "plan" "free" 4); try (vm_compute; reflexivity). discriminate.
Defined.
