(* ===== verification/Landing.v ===== *)
(** * Landing: [internal/dataplane/store/duckdb_ingest.go]

    The write edge of the DuckDB file: a batch of events with its person
    projection, and a batch of connector rows.  Rows, position and receipts
    commit in one transaction.

    The engine runs one multi-row statement per chunk; a chunk changes how many
    statements run and not what they do, so [insertEventsTx] works row by row
    over the chunks [event_chunks] cuts. *)

From S2P Require Import Prelude GoStrings GoTime Duck Journal Persons.
Import String.
Open Scope string_scope.
Open Scope Z_scope.

(** ** Chunks *)

Definition insertEventsChunk : Z := 256.
(** [4 << 20]. *)
Definition insertEventsChunkBytes : Z := 4194304.

Definition strlen (s : string) : Z := Z.of_nat (String.length s).

Definition eventValueBytes (e : Event) : Z :=
  strlen (e_Properties e) + strlen (e_ToolInput e) + strlen (e_ToolOutput e) +
  strlen (e_ErrorMessage e) + strlen (e_DistinctID e) + strlen (e_SessionID e) +
  strlen (e_EventName e) + strlen (e_EventType e) + strlen (e_AgentID e) +
  strlen (e_ToolName e) + strlen (e_ModelName e) + strlen (e_BotName e) +
  strlen (e_ReferrerHost e) + strlen (e_UserAgent e) + strlen (e_InsertID e) +
  strlen (e_Platform e) + strlen (e_UTMSource e) + strlen (e_UTMMedium e) +
  strlen (e_UTMCampaign e) + strlen (e_UTMTerm e) + strlen (e_UTMContent e) + 64.

Section Chunks.
Context {A : Type} (size : A -> Z) (max_rows max_bytes : Z).

(** The inner loop: [taken] is [end - start] and [bytes] their size. *)
Fixpoint chunk_from (taken bytes : Z) (xs : list A) {struct xs} : list A * list A :=
  match xs with
  | [] => ([], [])
  | x :: rest =>
      if taken <? max_rows then
        if (0 <? taken) && (max_bytes <? bytes + size x) then ([], xs)
        else let '(c, r) := chunk_from (taken + 1) (bytes + size x) rest in (x :: c, r)
      else ([], xs)
  end.

(** The outer loop; every chunk takes at least one row, so the number of rows is
    enough fuel. *)
Fixpoint chunks_fuel (fuel : nat) (xs : list A) {struct fuel} : list (list A) :=
  match fuel, xs with
  | S f, _ :: _ => let '(c, r) := chunk_from 0 0 xs in c :: chunks_fuel f r
  | _, _ => []
  end.

Definition chunk_bytes (c : list A) : Z := foldr (fun x n => size x + n) 0 c.

Context (size_pos : forall x, 0 < size x) (max_rows_pos : 0 < max_rows).

Lemma chunk_bytes_nonneg c : 0 <= chunk_bytes c.
Proof using size_pos.
  induction c as [|x c IH]; simpl; [lia|]. pose proof (size_pos x). lia.
Qed.

Lemma chunk_from_spec taken bytes xs c r :
  0 <= taken -> chunk_from taken bytes xs = (c, r) ->
  (c ++ r)%list = xs /\ taken + Z.of_nat (length c) <= Z.max taken max_rows /\
  ((0 < taken /\ bytes + chunk_bytes c <= Z.max bytes max_bytes) \/
   (taken = 0 /\ (length c <= 1)%nat) \/
   (taken = 0 /\ bytes + chunk_bytes c <= max_bytes)) /\
  (taken = 0 -> xs <> [] -> c <> []).
Proof using size_pos max_rows_pos.
  revert taken bytes c r. induction xs as [|x xs IH]; intros taken bytes c r Ht; simpl.
  { intros [= <- <-]. split_and!; [done|simpl; lia| |done]. simpl.
    destruct (Z.eqb_spec taken 0); [right; left; simpl; lia|left; lia]. }
  destruct (Z.ltb_spec taken max_rows) as [Hlt|Hge].
  2: { intros [= <- <-]. split_and!; [done|simpl; lia| |lia].
       destruct (Z.eqb_spec taken 0); [right; left; simpl; lia|left; simpl; lia]. }
  destruct ((0 <? taken) && (max_bytes <? bytes + size x)) eqn:Hcut.
  { intros [= <- <-]. bool_props. split_and!; [done|simpl; lia|left; simpl; lia|lia]. }
  destruct (chunk_from (taken + 1) (bytes + size x) xs) as [c' r'] eqn:E.
  intros [= <- <-]. apply IH in E as (H1 & H2 & H3 & _); [|lia].
  split_and!; [by rewrite <- H1|simpl; lia| |done].
  destruct H3 as [[_ H3]|[[? _]|[? _]]]; [|lia|lia]. simpl.
  apply andb_false_iff in Hcut as [Hcut|Hcut]; bool_props.
  - assert (taken = 0) as -> by lia. right.
    destruct (Z.le_gt_cases (bytes + size x) max_bytes); [right; lia|].
    left. split; [done|]. destruct c' as [|y c']; [done|]. exfalso.
    simpl in H3. pose proof (size_pos y). pose proof (chunk_bytes_nonneg c'). lia.
  - destruct (Z.eqb_spec taken 0); [right; right; lia|left; lia].
Qed.

Lemma chunks_fuel_spec f xs :
  (length xs <= f)%nat -> concat (chunks_fuel f xs) = xs /\
  forall c, c ∈ chunks_fuel f xs ->
    c <> [] /\ Z.of_nat (length c) <= max_rows /\
    (length c = 1%nat \/ chunk_bytes c <= max_bytes).
Proof using size_pos max_rows_pos.
  revert xs. induction f as [|f IH]; intros [|x xs] Hlen; simpl in Hlen; try lia;
    try (split; [done|intros c Hc; by apply not_elem_of_nil in Hc]).
  cbn [chunks_fuel]. destruct (chunk_from 0 0 (x :: xs)) as [c r] eqn:E.
  apply chunk_from_spec in E as (H1 & H2 & H3 & H4); [|lia]. specialize (H4 eq_refl ltac:(done)).
  assert (Hr : (length r <= f)%nat).
  { apply (f_equal length) in H1. rewrite length_app in H1. simpl in H1.
    destruct c; simpl in *; [done|lia]. }
  destruct (IH r Hr) as [IHc IHs]. split; [simpl; by rewrite IHc|].
  intros c' [->|Hc']%elem_of_cons; [|auto]. split; [done|]. split; [lia|].
  destruct H3 as [[? _]|[[_ ?]|[_ ?]]]; [lia| |right; lia].
  left. destruct c; simpl in *; [done|lia].
Qed.
End Chunks.

Definition event_chunks (events : list Event) : list (list Event) :=
  chunks_fuel eventValueBytes insertEventsChunk insertEventsChunkBytes (length events) events.

(** ** Events and persons *)

Section Landing.
Context `{UuidEnv} `{JsonEnv}.

Definition insert_event (e : Event) (d : duckdb) : result duck_error duckdb :=
  match uuid_parse (e_ProjectID e) with
  | None => Err (ErrUUID "event project_id")
  | Some pid =>
      match uuid_parse (e_EventID e) with
      | None => Err (ErrUUID "event event_id")
      | Some eid => Ok (set_events (insert_or_ignore (pid, eid) e (events d)) d)
      end
  end.

Definition insertEventsTx (evs : list Event) (d : duckdb) : result duck_error duckdb :=
  fold_err (fold_err insert_event) (event_chunks evs) d.

(** [loadAliasMap] once per project, then lookups in memory. *)
Definition alias_known (e : Event) : bool := is_some (sql_uuid (e_ProjectID e)).

Definition resolve_alias (d : duckdb) (projectID distinctID : string) : string :=
  match sql_uuid projectID with
  | None => distinctID
  | Some pid => default distinctID (aliases d !! (pid, distinctID))
  end.

Definition upsert_person (kd : (string * string) * personDelta) (d : duckdb) : result duck_error duckdb :=
  match uuid_parse kd.1.1 with
  | None => Err (ErrUUID "person project_id")
  | Some pid =>
      let k := (pid, kd.1.2) in
      Ok (set_persons (<[k := mergePersonDelta (persons d !! k) kd.2]> (persons d)) d)
  end.

Definition applyPersonUpdatesTx (evs : list Event) (d : duckdb) : result duck_error duckdb :=
  if negb (forallb alias_known evs) then Err ErrConversion
  else fold_err upsert_person (map_to_list (extractPersonDeltas evs (resolve_alias d))) d.

(** [low_space] says whether the disk reserve refuses the write. *)
Definition SinkEvents (io low_space : bool) (now : Z) (evs : list Event) (mark : AppliedMark) (d : duckdb) :
    duckdb * option duck_error :=
  if low_space then (d, Some ErrDataCapacity)
  else Write io (fun d =>
    (try d1 := insertEventsTx evs d in
     try d2 := applyPersonUpdatesTx evs d1 in
     recordAppliedReceiptsTx mark now (advancePositionTx mark d2))%go) d.

Definition InsertEvents (io low_space : bool) (evs : list Event) (d : duckdb) :
    duckdb * option duck_error :=
  if low_space then (d, Some ErrDataCapacity) else Write io (insertEventsTx evs) d.

(** ** The alias mirror *)

Definition upsert_alias (r : string * string * string) (m : gmap (string * string) string) :
    result duck_error (gmap (string * string) string) :=
  (try pid := cast_uuid r.1.1 in Ok (<[(pid, r.1.2) := r.2]> m))%go.

Definition UpsertAliases (io : bool) (rows : list (string * string * string)) (d : duckdb) :
    duckdb * option duck_error :=
  match rows with
  | [] => (d, None)
  | _ => Write io (fun d => (try m := fold_err upsert_alias rows (aliases d) in Ok (set_aliases m d))%go) d
  end.

(** A plain [INSERT]: the primary key refuses a second row for an id. *)
Definition insert_alias (r : string * string * string) (m : gmap (string * string) string) :
    result duck_error (gmap (string * string) string) :=
  (try pid := cast_uuid r.1.1 in
   match m !! (pid, r.1.2) with
   | Some _ => Err ErrConstraint
   | None => Ok (<[(pid, r.1.2) := r.2]> m)
   end)%go.

Definition ReconcileAliases (io : bool) (rows : list (string * string * string)) (d : duckdb) :
    duckdb * option duck_error :=
  Write io (fun d => (try m := fold_err insert_alias rows ∅ in Ok (set_aliases m d))%go) d.

(** ** Connector rows *)

Record LandedRow := { lr_Key : string; lr_Cursor : string; lr_DataJSON : string }.

(** [INSERT OR REPLACE], or [INSERT OR IGNORE] for a superseded run, with the
    number of rows a superseded run added. *)
Fixpoint land_rows (superseded : bool) (k : source_key) (now : Z) (rows : list LandedRow)
    (m : gmap (source_key * string) external_row) (inserted : Z) :
    gmap (source_key * string) external_row * Z :=
  match rows with
  | [] => (m, inserted)
  | r :: rest =>
      let v := {| x_cursor := lr_Cursor r; x_data := lr_DataJSON r; x_synced_at := now |} in
      if superseded then
        match m !! (k, lr_Key r) with
        | Some _ => land_rows superseded k now rest m inserted
        | None => land_rows superseded k now rest (<[(k, lr_Key r) := v]> m) (inserted + 1)
        end
      else land_rows superseded k now rest (<[(k, lr_Key r) := v]> m) inserted
  end.

Definition insertExternalRowsTx (pid cid table : string) (rows : list LandedRow) (mark : AppliedMark)
    (now : Z) (d : duckdb) : result duck_error duckdb :=
  (try superseded := match m_Source mark with
                     | None => Ok false
                     | Some s => sourceReceiptSupersededTx d s
                     end in
   let '(m, inserted) := land_rows superseded (pid, cid, table) now rows (external_rows d) 0 in
   try d1 := recordAppliedReceiptsTx mark now (advancePositionTx mark (set_external_rows m d)) in
   let invalidate := invalidateSourceConfirmationsTx (Some pid) (Some cid) (Some table) now in
   match m_Source mark with
   | Some s =>
       if superseded then
         try d2 := markSourceOrderingAmbiguousTx s now d1 in
         if inserted =? 0 then Ok d2 else Ok (invalidate d2)
       else Ok d1
   | None => Ok (invalidate d1)
   end)%go.

Definition InsertExternalRows (io low_space : bool) (now : Z) (projectID connectorID table : string)
    (rows : list LandedRow) (mark : AppliedMark) (d : duckdb) : duckdb * option duck_error :=
  match rows with
  | [] => RecordPosition io now mark d
  | _ =>
      if low_space then (d, Some ErrDataCapacity)
      else match uuid_parse projectID with
           | None => (d, Some (ErrUUID "project_id"))
           | Some pid =>
               match uuid_parse connectorID with
               | None => (d, Some (ErrUUID "connector_id"))
               | Some cid => Write io (insertExternalRowsTx pid cid table rows mark now) d
               end
           end
  end.
End Landing.

(** ** Lemmas: the alias mirror *)

Definition alias_row `{UuidEnv} (pid anon canon : string) (r : string * string * string) : Prop :=
  cast_uuid r.1.1 = Ok pid /\ r.1.2 = anon /\ r.2 = canon.

Lemma insert_alias_Some `{UuidEnv} r m m' pid anon canon :
  insert_alias r m = Ok m' ->
  (m' !! (pid, anon) = Some canon <-> m !! (pid, anon) = Some canon \/ alias_row pid anon canon r).
Proof.
  unfold insert_alias, alias_row. destruct (cast_uuid r.1.1) as [p|]; [|done]. cbn [result_bind].
  destruct (m !! (p, r.1.2)) eqn:Hm; [done|]. intros [= <-].
  rewrite lookup_insert_Some. split.
  - intros [(Hk & Hc)|[_ ?]]; [right; split_and!; congruence|by left].
  - intros [Hk|(Hp & Ha & Hc)]; [right|left; split; congruence]. split; [|done]. congruence.
Qed.

Lemma insert_aliases_Some `{UuidEnv} rows m m' pid anon canon :
  fold_err insert_alias rows m = Ok m' ->
  (m' !! (pid, anon) = Some canon <->
   m !! (pid, anon) = Some canon \/ exists r, r ∈ rows /\ alias_row pid anon canon r).
Proof.
  revert m. induction rows as [|r rows IH]; simpl; intros m.
  - intros [= ->]. split; [by left|]. intros [?|(r & Hr & _)]; [done|]. by apply not_elem_of_nil in Hr.
  - destruct (insert_alias r m) as [m1|] eqn:Hr; [|done]. intros Hf.
    rewrite (IH _ Hf), (insert_alias_Some _ _ _ _ _ _ Hr). split.
    + intros [[?|?]|(r' & Hin & Ha)]; [by left|right; exists r; split; [left|done]|].
      right. exists r'. split; [by right|done].
    + intros [?|(r' & [->|Hin]%elem_of_cons & Ha)]; [by do 2 left|left; by right|right; by exists r'].
Qed.

(** ** Lemmas: chunks *)

Lemma strlen_nonneg s : 0 <= strlen s.
Proof. unfold strlen. lia. Qed.

Lemma eventValueBytes_pos e : 64 <= eventValueBytes e.
Proof.
  unfold eventValueBytes.
  repeat match goal with
  | |- _ <= ?a + strlen ?s + 64 => cut (0 <= a); [pose proof (strlen_nonneg s); lia|]
  | |- _ <= ?a + strlen ?s => cut (0 <= a); [pose proof (strlen_nonneg s); lia|]
  end. apply strlen_nonneg.
Qed.

(** ** Lemmas: transactions *)

Section TxLemmas.
Context `{UuidEnv} `{JsonEnv}.

(** Both halves of an event's key, as stored. *)
Definition event_stored (d : duckdb) (e : Event) : Prop :=
  exists pid eid, uuid_parse (e_ProjectID e) = Some pid /\ uuid_parse (e_EventID e) = Some eid /\
    is_Some (events d !! (pid, eid)).

Definition events_kept (d d' : duckdb) : Prop :=
  forall k e, events d !! k = Some e -> events d' !! k = Some e.

Lemma events_kept_stored d d' e : events_kept d d' -> event_stored d e -> event_stored d' e.
Proof. intros Hk (p & i & Hp & Hi & [x Hx]). exists p, i. split_and!; eauto. Qed.

Lemma insert_event_ok e d d' :
  insert_event e d = Ok d' ->
  events_kept d d' /\ event_stored d' e /\ ingest_position d' = ingest_position d.
Proof.
  unfold insert_event. destruct (uuid_parse (e_ProjectID e)) as [p|] eqn:Ep; [|done].
  destruct (uuid_parse (e_EventID e)) as [i|] eqn:Ei; [|done]. intros [= <-]. split_and!.
  - intros k x Hx. simpl. by apply insert_or_ignore_keep.
  - exists p, i. split_and!; [done..|]. simpl. apply insert_or_ignore_in.
  - done.
Qed.

Lemma fold_events_ok l d d' :
  fold_err insert_event l d = Ok d' ->
  events_kept d d' /\ (forall e, e ∈ l -> event_stored d' e) /\ ingest_position d' = ingest_position d.
Proof.
  revert d. induction l as [|e l IH]; simpl; intros d.
  - intros [= ->]. split_and!; [by intros ?|intros e He; by apply not_elem_of_nil in He|done].
  - destruct (insert_event e d) as [d1|] eqn:E; [|done]. intros Hf.
    apply insert_event_ok in E as (K1 & S1 & P1). apply IH in Hf as (K2 & S2 & P2).
    split_and!; [intros k x Hx; auto| |congruence].
    intros e' [->|He']%elem_of_cons; [by eapply events_kept_stored|auto].
Qed.

Lemma fold_chunks_ok cs d d' :
  fold_err (fold_err insert_event) cs d = Ok d' ->
  events_kept d d' /\ (forall e, e ∈ concat cs -> event_stored d' e) /\
  ingest_position d' = ingest_position d.
Proof.
  revert d. induction cs as [|c cs IH]; simpl; intros d.
  - intros [= ->]. split_and!; [by intros ?|intros e He; by apply not_elem_of_nil in He|done].
  - destruct (fold_err insert_event c d) as [d1|] eqn:E; [|done]. intros Hf.
    apply fold_events_ok in E as (K1 & S1 & P1). apply IH in Hf as (K2 & S2 & P2).
    split_and!; [intros k x Hx; auto| |congruence].
    intros e [He|He]%elem_of_app; [by eapply events_kept_stored; eauto|auto].
Qed.

Lemma event_chunks_concat evs : concat (event_chunks evs) = evs.
Proof.
  unfold event_chunks. apply (chunks_fuel_spec eventValueBytes insertEventsChunk insertEventsChunkBytes);
    [|done|done]. intros e. pose proof (eventValueBytes_pos e). lia.
Qed.

Lemma applyPersonUpdates_claim evs d d' : applyPersonUpdatesTx evs d = Ok d' -> same_claim d d'.
Proof.
  unfold applyPersonUpdatesTx. destruct (negb _); [done|]. intros Hf.
  eapply (fold_err_ind _ (same_claim d)); [|exact Hf|apply same_claim_refl].
  intros kd x x' _ Hu Hc. eapply same_claim_trans; [exact Hc|].
  unfold upsert_person in Hu. destruct (uuid_parse kd.1.1); [|done]. by injection Hu as <-.
Qed.

(** What a committed events write establishes. *)
Lemma SinkEvents_ok io low now evs mark d d' :
  m_Durable mark <> "" -> 0 <= m_Seq mark ->
  SinkEvents io low now evs mark d = (d', None) ->
  events_kept d d' /\ (forall e, e ∈ evs -> event_stored d' e) /\
  m_Seq mark <= pos_Seq (read_position d' (m_Durable mark)) /\
  forall durable, pos_Seq (read_position d durable) <= pos_Seq (read_position d' durable).
Proof.
  intros Hd Hs. unfold SinkEvents. destruct low; [done|]. intros [_ Hw]%Write_ok.
  destruct (insertEventsTx evs d) as [d1|] eqn:E1; [|done]. cbn [result_bind] in Hw.
  destruct (applyPersonUpdatesTx evs d1) as [d2|] eqn:E2; [|done]. cbn [result_bind] in Hw.
  unfold insertEventsTx in E1. apply fold_chunks_ok in E1 as (K1 & S1 & P1).
  rewrite event_chunks_concat in S1.
  apply applyPersonUpdates_claim in E2 as (P2 & V2 & X2).
  pose proof (recordAppliedReceipts_claim _ _ _ _ Hw) as Hc.
  assert (Hpos : forall durable, read_position d' durable = read_position (advancePositionTx mark d2) durable)
    by (intros; by apply same_claim_position).
  destruct Hc as (P3 & V3 & X3).
  assert (V : events d' = events d1).
  { rewrite V3, <- V2. unfold advancePositionTx. by destruct (String.eqb (m_Durable mark) ""). }
  assert (Ppos : forall q, pos_Seq (read_position d2 q) = pos_Seq (read_position d q) /\
     pos_Known (read_position d2 q) = pos_Known (read_position d q)).
  { intros q. unfold read_position. simpl. by rewrite P2, P1. }
  split_and!.
  - intros k e He. rewrite V. auto.
  - intros e He. destruct (S1 e He) as (p & i & Hp & Hi & Hx). exists p, i. by rewrite V.
  - rewrite Hpos, read_position_advance by done. rewrite String.eqb_refl. simpl.
    destruct (match ingest_position d2 !! _ with Some _ => _ | None => _ end); lia.
  - intros q. rewrite Hpos. destruct (Ppos q) as [<- _]. by apply advance_monotone.
Qed.

Lemma land_rows_superseded k now rows m n m' n' :
  land_rows true k now rows m n = (m', n') ->
  (forall x v, m !! x = Some v -> m' !! x = Some v) /\
  (forall r, r ∈ rows -> is_Some (m' !! (k, lr_Key r))) /\ n <= n' /\ (n' = n -> m' = m).
Proof.
  revert m n. induction rows as [|r rows IH]; intros m n; simpl.
  { intros [= <- <-]. split_and!; [done|intros r Hr; by apply not_elem_of_nil in Hr|lia|done]. }
  destruct (m !! (k, lr_Key r)) as [v|] eqn:E; intros Hl; apply IH in Hl as (K & R & N & S).
  - split_and!; [done| |lia|done]. intros r' [->|Hr']%elem_of_cons; [|auto].
    exists v. auto.
  - split_and!; [|intros r' [->|Hr']%elem_of_cons; [|by auto]|lia|lia].
    + intros x w Hx. apply K. rewrite lookup_insert_ne; [done|]. intros <-. congruence.
    + eexists. apply K. apply lookup_insert_eq.
Qed.

Lemma land_rows_current k now rows m n m' n' r :
  land_rows false k now rows m n = (m', n') -> NoDup (lr_Key <$> rows) -> r ∈ rows ->
  m' !! (k, lr_Key r) =
    Some {| x_cursor := lr_Cursor r; x_data := lr_DataJSON r; x_synced_at := now |}.
Proof.
  assert (Hother : forall rows m n m' n' key, key ∉ lr_Key <$> rows ->
    land_rows false k now rows m n = (m', n') -> m' !! (k, key) = m !! (k, key)).
  { clear. induction rows as [|r rows IH]; intros m n m' n' key Hk; simpl; [by intros [= <- <-]|].
    rewrite fmap_cons, not_elem_of_cons in Hk. destruct Hk as [Hne Hk]. intros Hl.
    rewrite (IH _ _ _ _ _ Hk Hl), lookup_insert_ne; [done|]. congruence. }
  revert m n. induction rows as [|r' rows IH]; intros m n Hl Hnd Hin; [by apply not_elem_of_nil in Hin|].
  rewrite fmap_cons, NoDup_cons in Hnd. destruct Hnd as [Hnot Hnd]. simpl in Hl.
  apply elem_of_cons in Hin as [->|Hin]; [|by eapply IH].
  rewrite (Hother _ _ _ _ _ _ Hnot Hl). apply lookup_insert_eq.
Qed.

Lemma mark_ambiguous_spec s at_ d d' :
  markSourceOrderingAmbiguousTx s at_ d = Ok d' ->
  same_claim d d' /\ forall pid cid, sql_uuid (s_ProjectID s) = Some pid ->
    sql_uuid (s_ConnectorID s) = Some cid ->
    is_Some (receipt_sources d !! (pid, cid, s_Table s)) ->
    exists r, receipt_sources d' !! (pid, cid, s_Table s) = Some r /\ r_ordering_ambiguous r = true.
Proof.
  unfold markSourceOrderingAmbiguousTx, cast_uuid. intros Hm.
  destruct (sql_uuid (s_ProjectID s)) as [p|]; [|done]. cbn [result_bind] in Hm.
  destruct (sql_uuid (s_ConnectorID s)) as [c|]; [|done]. cbn [result_bind] in Hm.
  injection Hm as <-. split; [done|]. intros pid cid [= <-] [= <-] [r Hr]. simpl.
  rewrite lookup_alter_eq, Hr. simpl. destruct (r_ordering_ambiguous r) eqn:E; eexists; eauto.
Qed.
End TxLemmas.

(** ** Properties *)

(** The statement chunks of an events batch are exactly the batch in order; each
    is non-empty, holds at most 256 events, and stays within four MiB of values
    unless it is a single event. *)
Theorem event_chunks_spec evs :
  concat (event_chunks evs) = evs /\
  forall c, c ∈ event_chunks evs ->
    c <> [] /\ Z.of_nat (length c) <= insertEventsChunk /\
    (length c = 1%nat \/ chunk_bytes eventValueBytes c <= insertEventsChunkBytes).
Proof.
  apply chunks_fuel_spec; [|done|done]. intros e. pose proof (eventValueBytes_pos e). lia.
Qed.

(** A delayed run never overwrites a newer one: when the fence says a batch of
    connector rows is superseded, its transaction keeps every stored row as it
    is, adds only keys that were absent, and leaves the source marked ambiguous;
    otherwise the batch's rows replace what was stored. *)
Theorem insertExternalRows_ordering `{UuidEnv} `{JsonEnv} pid cid table rows mark now d d' s superseded :
  insertExternalRowsTx pid cid table rows mark now d = Ok d' ->
  m_Source mark = Some s -> s_Table s = table ->
  sql_uuid (s_ProjectID s) = Some pid -> sql_uuid (s_ConnectorID s) = Some cid ->
  sourceReceiptSupersededTx d s = Ok superseded ->
  (superseded = true ->
     (forall x v, external_rows d !! x = Some v -> external_rows d' !! x = Some v) /\
     (forall r, r ∈ rows -> is_Some (external_rows d' !! (pid, cid, table, lr_Key r))) /\
     exists r, receipt_sources d' !! (pid, cid, table) = Some r /\ r_ordering_ambiguous r = true) /\
  (superseded = false -> NoDup (lr_Key <$> rows) -> forall r, r ∈ rows ->
     external_rows d' !! (pid, cid, table, lr_Key r) =
       Some {| x_cursor := lr_Cursor r; x_data := lr_DataJSON r; x_synced_at := now |}).
Proof.
  intros Hi Hs Ht Hp Hc Hsup. unfold insertExternalRowsTx in Hi. rewrite Hs, Hsup in Hi.
  cbn [result_bind] in Hi.
  destruct (land_rows superseded (pid, cid, table) now rows (external_rows d) 0) as [m n] eqn:El.
  destruct (recordAppliedReceiptsTx _ _ _) as [d1|] eqn:E1; [|done]. cbn [result_bind] in Hi.
  assert (Hx1 : external_rows d1 = m).
  { destruct (recordAppliedReceipts_claim _ _ _ _ E1) as (_ & _ & ->). unfold advancePositionTx.
    by destruct (String.eqb (m_Durable mark) ""). }
  split; intros ->.
  - apply land_rows_superseded in El as (K & R & N & _).
    destruct (markSourceOrderingAmbiguousTx s now d1) as [d2|] eqn:E2; [|done]. cbn [result_bind] in Hi.
    apply mark_ambiguous_spec in E2 as ((_ & _ & Hx2) & Ha).
    assert (Hrow : is_Some (receipt_sources d1 !! (pid, cid, table))).
    { unfold sourceReceiptSupersededTx, cast_uuid in Hsup. rewrite Hp, Hc, Ht in Hsup.
      cbn [result_bind] in Hsup. unfold recordAppliedReceiptsTx in E1.
      destruct (fold_err _ _ _) as [d0|] eqn:Ef; [|done]. cbn [result_bind] in E1.
      pose proof (fold_sources _ _ _ _ _ Ef (pid, cid, table)) as Hf.
      assert (Es : receipt_sources (advancePositionTx mark (set_external_rows m d)) = receipt_sources d)
        by (unfold advancePositionTx; by destruct (String.eqb (m_Durable mark) "")).
      rewrite Es in Hf. destruct (receipt_sources d !! (pid, cid, table)) as [r|]; [|done].
      destruct Hf as (r' & Hr' & _). rewrite Hs in E1.
      destruct (m_suppressSourceMutation mark); [by injection E1 as <-; eauto|].
      apply record_source_spec in E1 as (p & c & _ & _ & _ & [[_ ->]|(_ & ? & ? & ? & ? & ? & -> & _)]);
        [simpl; eauto|]. apply lookup_insert_is_Some'. right. simpl. eauto. }
    rewrite <- Ht in Hrow. destruct (Ha pid cid Hp Hc Hrow) as (r & Hr & Hra). rewrite Ht in Hr.
    destruct (n =? 0); injection Hi as <-; [rewrite Hx2, Hx1; split_and!; eauto|].
    split_and!; [simpl; rewrite Hx2, Hx1; auto..|].
    rewrite invalidate_lookup, Hr. simpl. eexists. split; [done|]. by destruct (_ && _ && _).
  - injection Hi as <-. rewrite Hx1. intros Hnd r Hr. by eapply land_rows_current.
Qed.

(** The alias mirror.  A reconciliation that succeeds leaves exactly the
    given pairs, under the project's UUID, whatever the mirror held, and changes
    no other table; one that fails leaves the file alone.  Person resolution
    ([resolve_alias]) then answers from exactly those pairs. *)
Theorem ReconcileAliases_mirror `{UuidEnv} io rows d d' e :
  ReconcileAliases io rows d = (d', e) ->
  match e with
  | Some _ => d' = d
  | None => d' = set_aliases (aliases d') d /\
      forall projectID pid anon canon, sql_uuid projectID = Some pid -> canon <> anon ->
        (resolve_alias d' projectID anon = canon <->
         exists r, r ∈ rows /\ alias_row pid anon canon r)
  end.
Proof.
  intros Hw. destruct e as [e|]; [by eapply Write_error|]. apply Write_ok in Hw as [_ Hw].
  destruct (fold_err insert_alias rows ∅) as [m|] eqn:Hf; [|done]. injection Hw as <-. split; [done|].
  intros projectID pid anon canon Hp Hne. unfold resolve_alias. rewrite Hp.
  change (aliases (set_aliases m d)) with m.
  pose proof (insert_aliases_Some _ _ _ pid anon canon Hf) as Hs. rewrite lookup_empty in Hs.
  transitivity (m !! (pid, anon) = Some canon); [|rewrite Hs; split; [intros [?|?]; done|by right]].
  destruct (m !! (pid, anon)) as [x|]; simpl; split; congruence.
Qed.

(** ** Witnesses *)

#[local] Instance w_landing_json : JsonEnv :=
  {| unmarshal_props := fun _ => {| ep_Set := ∅; ep_SetOnce := ∅; ep_Email := ""; ep_Name := "" |};
     unmarshal_string := fun s => Some s |}.

Definition w_row (key data : string) : LandedRow := {| lr_Key := key; lr_Cursor := ""; lr_DataJSON := data |}.

Definition w_rows_mark (run : string) (started : Z) : AppliedMark :=
  {| m_Durable := "blue"; m_Seq := 8; m_Deliveries := []; m_Source := Some (w_source run started);
     m_SettlementOnly := false; m_suppressSourceMutation := false |}.

(** The newer run has landed; the delayed one arrives. *)
Definition w_landed_db : duckdb :=
  run_ok (insertExternalRowsTx w_uuid w_uuid2 "orders" [w_row "1" "new"] (w_rows_mark w_uuid2 10) 20 empty_duckdb).

Definition w_delayed_db : duckdb :=
  run_ok (insertExternalRowsTx w_uuid w_uuid2 "orders" [w_row "1" "old"; w_row "2" "old"]
            (w_rows_mark w_uuid 5) 30 w_landed_db).

Lemma insertExternalRows_ordering_witness :
  (true = true ->
     (forall x v, external_rows w_landed_db !! x = Some v -> external_rows w_delayed_db !! x = Some v) /\
     (forall r, r ∈ [w_row "1" "old"; w_row "2" "old"] ->
        is_Some (external_rows w_delayed_db !! (w_uuid, w_uuid2, "orders", lr_Key r))) /\
     exists r, receipt_sources w_delayed_db !! (w_uuid, w_uuid2, "orders") = Some r /\
               r_ordering_ambiguous r = true) /\
  (true = false -> NoDup (lr_Key <$> [w_row "1" "old"; w_row "2" "old"]) ->
     forall r, r ∈ [w_row "1" "old"; w_row "2" "old"] ->
     external_rows w_delayed_db !! (w_uuid, w_uuid2, "orders", lr_Key r) =
       Some {| x_cursor := lr_Cursor r; x_data := lr_DataJSON r; x_synced_at := 30 |}).
Proof.
  apply (insertExternalRows_ordering w_uuid w_uuid2 "orders" [w_row "1" "old"; w_row "2" "old"]
           (w_rows_mark w_uuid 5) 30 w_landed_db w_delayed_db (w_source w_uuid 5) true);
    [apply ok_or_Ok; vm_compute; reflexivity|reflexivity|reflexivity|vm_compute; reflexivity..].
Defined.

Definition w_alias_rows : list (string * string * string) := [(w_uuid, "anon", "user"); (w_uuid2, "anon", "other")].

Lemma ReconcileAliases_mirror_witness :
  let d' := (ReconcileAliases false w_alias_rows empty_duckdb).1 in
  d' = set_aliases (aliases d') empty_duckdb /\
  (forall projectID pid anon canon, sql_uuid projectID = Some pid -> canon <> anon ->
     (resolve_alias d' projectID anon = canon <-> exists r, r ∈ w_alias_rows /\ alias_row pid anon canon r)).
Proof.
  apply (ReconcileAliases_mirror false w_alias_rows empty_duckdb _ None).
  vm_compute. reflexivity.
Defined.
