(* ===== verification/Batcher.v ===== *)
(** * Batcher: [internal/dataplane/ingest/batcher.go] and the counters of [metrics.go]

    The batcher coalesces decoded messages into one sink call and then settles
    each source message: acknowledge, ask for redelivery, or terminate after a
    dead-letter publication.  The collaborators injected in
    [EventBatcherConfig] (sink, dead letter, position and hole recorders) are
    fields of [collaborators], functions over the world [W] they act on.  Every
    call the code makes on a collaborator or on a message handle is recorded in
    a trace, newest first, so what was done before a settlement can be stated.

    Timeouts of the contexts are failures of the calls they bound. *)

From S2P Require Import Prelude GoStrings GoTime Duck Journal.
Import String.
Open Scope string_scope.
Open Scope Z_scope.

(** ** Messages *)

(** [msgHandle] without its three settlement methods, which are actions. *)
Record msgHandle := {
  msg_deliveries : Z; msg_body : string; msg_seq : Z; msg_delivery : DeliveryReceiptMark;
}.

Record queued := { q_events : list Event; q_msg : option msgHandle }.

Inductive action :=
| ASink (events : list Event) (mark : AppliedMark) (ok : bool)
| APublish (m : msgHandle) (ok : bool)
| ARecord (mark : AppliedMark) (ok : bool)
| AHole (d : DeliveryReceiptMark) (source : option SourceReceiptMark) (ok : bool)
| AAck (m : msgHandle) (events : list Event)
| ANak (m : msgHandle) (delay : Z)
| ATerm (m : msgHandle)
| ASleep (d : Z)
| ADrop (events : list Event).

(** ** Counters ([PipelineMetrics]); a nil collector counts nothing. *)

Record counters := {
  flushes : Z; eventsInserted : Z; insertFailures : Z; retries : Z; naks : Z; deadLetters : Z;
  lastLagMS : Z;
}.

Definition recordFlush (events lagMS : Z) (c : counters) : counters :=
  {| flushes := i64 (flushes c + 1); eventsInserted := i64 (eventsInserted c + events);
     insertFailures := insertFailures c; retries := retries c; naks := naks c;
     deadLetters := deadLetters c; lastLagMS := lagMS |}.
Definition recordInsertFailure (c : counters) : counters :=
  {| flushes := flushes c; eventsInserted := eventsInserted c;
     insertFailures := i64 (insertFailures c + 1); retries := retries c; naks := naks c;
     deadLetters := deadLetters c; lastLagMS := lastLagMS c |}.
Definition recordRetry (c : counters) : counters :=
  {| flushes := flushes c; eventsInserted := eventsInserted c;
     insertFailures := insertFailures c; retries := i64 (retries c + 1); naks := naks c;
     deadLetters := deadLetters c; lastLagMS := lastLagMS c |}.
Definition recordNak (c : counters) : counters :=
  {| flushes := flushes c; eventsInserted := eventsInserted c;
     insertFailures := insertFailures c; retries := retries c; naks := i64 (naks c + 1);
     deadLetters := deadLetters c; lastLagMS := lastLagMS c |}.
Definition recordDeadLetter (c : counters) : counters :=
  {| flushes := flushes c; eventsInserted := eventsInserted c;
     insertFailures := insertFailures c; retries := retries c; naks := naks c;
     deadLetters := i64 (deadLetters c + 1); lastLagMS := lastLagMS c |}.

(** [emit]: what changed since the last emit, and the lag gauge as it is. *)
Definition emit_delta (cur prev : counters) : counters :=
  {| flushes := i64 (flushes cur - flushes prev);
     eventsInserted := i64 (eventsInserted cur - eventsInserted prev);
     insertFailures := i64 (insertFailures cur - insertFailures prev);
     retries := i64 (retries cur - retries prev); naks := i64 (naks cur - naks prev);
     deadLetters := i64 (deadLetters cur - deadLetters prev); lastLagMS := lastLagMS cur |}.

(** ** Configuration *)

Record EventBatcherConfig := {
  MaxBatch : Z; FlushEvery : Z; InsertTimeout : Z; QueueDepth : Z; MaxRetries : Z; MaxDeliver : Z;
  NakDelay : Z; DurableName : string;
}.

Definition or_default (v d : Z) : Z := if v <=? 0 then d else v.

(** The defaults of [NewEventBatcher]. *)
Definition NewEventBatcher (cfg : EventBatcherConfig) : EventBatcherConfig :=
  {| MaxBatch := or_default (MaxBatch cfg) 500;
     FlushEvery := or_default (FlushEvery cfg) second;
     InsertTimeout := or_default (InsertTimeout cfg) (10 * second);
     QueueDepth := or_default (QueueDepth cfg) 1024;
     MaxRetries := or_default (MaxRetries cfg) 3;
     MaxDeliver := or_default (MaxDeliver cfg) 5;
     NakDelay := or_default (NakDelay cfg) (5 * second);
     DurableName := DurableName cfg |}.

(** ** Pure helpers *)

(** [200 * time.Millisecond << attempt] on int64, capped at two seconds. *)
Definition backoff (attempt : Z) : Z :=
  let d := i64 (Z.shiftl (200 * millisecond) attempt) in
  if 2 * second <? d then 2 * second else d.

Fixpoint oldest_from (oldest : Z) (events : list Event) : Z :=
  match events with
  | [] => oldest
  | e :: rest => oldest_from (if time_before (e_Timestamp e) oldest then e_Timestamp e else oldest) rest
  end.

Definition ingestLagMS (now : Z) (events : list Event) : Z :=
  match events with
  | [] => 0
  | e :: rest =>
      let lag := Z.quot (time_sub now (oldest_from (e_Timestamp e) rest)) millisecond in
      if lag <? 0 then 0 else lag
  end.

Section Helpers.
Context `{UuidEnv}.

Definition event_storable (e : Event) : bool :=
  is_some (uuid_parse (e_ProjectID e)) && is_some (uuid_parse (e_EventID e)).

(** [validateEvents] answers nil. *)
Definition validateEvents (events : list Event) : bool := forallb event_storable events.

Definition source_of_project (projectID : string) : SourceReceiptMark :=
  {| s_ProjectID := projectID; s_ConnectorID := ""; s_Table := ""; s_SyncID := ""; s_RunID := "";
     s_Generation := ""; s_GenerationSeq := 0; s_BindingDigest := ""; s_BatchID := "";
     s_BatchIndex := None; s_PayloadSHA256 := ""; s_ExpectedBatches := None;
     s_ExpectedRows := None; s_CaptureStartedAt := None; s_CaptureFinishedAt := None;
     s_PublishedAt := None; s_Complete := false; s_Promoted := false |}.

Definition eventSource (events : list Event) : option SourceReceiptMark :=
  match events with
  | [] => None
  | e :: rest =>
      if String.eqb (e_ProjectID e) "" then None
      else match uuid_parse (e_ProjectID e) with
           | None => None
           | Some _ =>
               if existsb (fun x => negb (String.eqb (e_ProjectID x) (e_ProjectID e))) rest
               then None else Some (source_of_project (e_ProjectID e))
           end
  end.
End Helpers.

Definition with_project (d : DeliveryReceiptMark) (source : option SourceReceiptMark) : DeliveryReceiptMark :=
  match source with
  | None => d
  | Some s =>
      {| d_StreamID := d_StreamID d; d_Subject := d_Subject d; d_StreamSeq := d_StreamSeq d;
         d_PayloadSHA256 := d_PayloadSHA256 d; d_PublishedAt := d_PublishedAt d;
         d_ProjectID := s_ProjectID s; d_ConnectorID := d_ConnectorID d; d_Table := d_Table d;
         d_Replayed := d_Replayed d; d_Unverifiable := d_Unverifiable d |}
  end.

(** ** The batcher *)

Section Batcher.
Context `{UuidEnv} {W Err : Type}.

Record collaborators := {
  sink : W -> list Event -> AppliedMark -> W * option Err;
  deadLetter : option (W -> string -> W * option Err);
  deadLetterWithReceipt : option (W -> DeliveryReceiptMark -> string -> W * option Err);
  record : option (W -> AppliedMark -> W * option Err);
  recordHole : option (W -> DeliveryReceiptMark -> option SourceReceiptMark -> W * option Err);
  is_capacity : Err -> bool;
}.

Record bstate := { world : W; trace : list action; metrics : option counters }.

Context (b : EventBatcherConfig) (c : collaborators).

Definition log (a : action) (st : bstate) : bstate :=
  {| world := world st; trace := a :: trace st; metrics := metrics st |}.
Definition count (f : counters -> counters) (st : bstate) : bstate :=
  {| world := world st; trace := trace st; metrics := f <$> metrics st |}.
Definition answered (w : W) (a : bool -> action) (e : option Err) (st : bstate) : bstate * option Err :=
  ({| world := w; trace := a (negb (is_some e)) :: trace st; metrics := metrics st |}, e).

(** The configured dead letter, the receipt-carrying form first. *)
Definition dead_letter : option (W -> msgHandle -> W * option Err) :=
  match deadLetterWithReceipt c with
  | Some f => Some (fun w m => f w (msg_delivery m) (msg_body m))
  | None => match deadLetter c with
            | Some f => Some (fun w m => f w (msg_body m))
            | None => None
            end
  end.

Definition publishDeadLetter (f : W -> msgHandle -> W * option Err) (m : msgHandle) (st : bstate) :
    bstate * option Err :=
  let '(w, e) := f (world st) m in answered w (APublish m) e st.

Definition settled_mark (m : msgHandle) : AppliedMark :=
  {| m_Durable := DurableName b; m_Seq := msg_seq m; m_Deliveries := [msg_delivery m];
     m_Source := None; m_SettlementOnly := true; m_suppressSourceMutation := false |}.

Definition recordSettled (m : msgHandle) (st : bstate) : bstate * option Err :=
  match record c with
  | None => (st, None)
  | Some f =>
      if String.eqb (DurableName b) "" then (st, None)
      else let '(w, e) := f (world st) (settled_mark m) in answered w (ARecord (settled_mark m)) e st
  end.

Definition recordReadinessHole (d : DeliveryReceiptMark) (source : option SourceReceiptMark)
    (st : bstate) : bstate * option Err :=
  match recordHole c with
  | None => (st, None)
  | Some f =>
      if d_StreamSeq d =? 0 then (st, None)
      else let '(w, e) := f (world st) d source in answered w (AHole d source) e st
  end.

Definition nak (m : msgHandle) (st : bstate) : bstate := count recordNak (log (ANak m (NakDelay b)) st).

Definition retrySettlement (m : msgHandle) (st : bstate) : bstate := nak m st.

(** Publish, record the position, record the hole, terminate; any failure asks
    for redelivery instead. *)
Definition dead_letter_and_terminate (f : W -> msgHandle -> W * option Err)
    (source : option SourceReceiptMark) (m : msgHandle) (st : bstate) : bstate :=
  match publishDeadLetter f m st with
  | (st1, Some _) => nak m st1
  | (st1, None) =>
      match recordSettled m st1 with
      | (st2, Some _) => retrySettlement m st2
      | (st2, None) =>
          match recordReadinessHole (with_project (msg_delivery m) source) source st2 with
          | (st3, Some _) => retrySettlement m st3
          | (st3, None) => count recordDeadLetter (log (ATerm m) st3)
          end
      end
  end.

Definition poison (om : option msgHandle) (events : list Event) (st : bstate) : bstate :=
  match om with
  | None => log (ADrop events) st
  | Some m =>
      match dead_letter with
      | None => nak m st
      | Some f => dead_letter_and_terminate f (eventSource events) m st
      end
  end.

(** [AddMsg] settles at once or hands the message to the queue. *)
Definition AddMsg (events : list Event) (om : option msgHandle) (st : bstate) :
    bstate * option queued :=
  match events with
  | [] =>
      match om with
      | None => (st, None)
      | Some m =>
          match recordSettled m st with
          | (st1, Some _) => (retrySettlement m st1, None)
          | (st1, None) => (log (AAck m []) st1, None)
          end
      end
  | _ =>
      if validateEvents events then (st, Some {| q_events := events; q_msg := om |})
      else (poison om events st, None)
  end.

Definition Add (events : list Event) : option queued :=
  match events with [] => None | _ => Some {| q_events := events; q_msg := None |} end.

(** The attempts from [attempt] on, [left] of them remaining. *)
Fixpoint sink_attempts (left : nat) (attempt : Z) (events : list Event) (mark : AppliedMark)
    (st : bstate) : bstate * option Err :=
  match left with
  | O => (st, None)
  | S l =>
      let '(w, e) := sink c (world st) events mark in
      let '(st1, e) := answered w (ASink events mark) e st in
      match e with
      | None => (st1, None)
      | Some err =>
          match l with
          | O => (st1, Some err)
          | _ => sink_attempts l (attempt + 1) events mark
                   (log (ASleep (backoff attempt)) (count recordRetry st1))
          end
      end
  end.

Definition sinkWithRetry (events : list Event) (mark : AppliedMark) (st : bstate) : bstate * option Err :=
  sink_attempts (Z.to_nat (MaxRetries b)) 0 events mark st.

Definition batch_events (items : list queued) : list Event := concat (q_events <$> items).

(** The highest sequence and the deliveries of the batch. *)
Fixpoint batch_mark (items : list queued) (mark : AppliedMark) : AppliedMark :=
  match items with
  | [] => mark
  | it :: rest =>
      match q_msg it with
      | None => batch_mark rest mark
      | Some m =>
          batch_mark rest
            {| m_Durable := m_Durable mark;
               m_Seq := if m_Seq mark <? msg_seq m then msg_seq m else m_Seq mark;
               m_Deliveries := (m_Deliveries mark ++
                 [with_project (msg_delivery m) (eventSource (q_events it))])%list;
               m_Source := m_Source mark; m_SettlementOnly := m_SettlementOnly mark;
               m_suppressSourceMutation := m_suppressSourceMutation mark |}
      end
  end.

Definition empty_mark : AppliedMark :=
  {| m_Durable := DurableName b; m_Seq := 0; m_Deliveries := []; m_Source := None;
     m_SettlementOnly := false; m_suppressSourceMutation := false |}.

Definition settle_one (cause : Err) (it : queued) (st : bstate) : bstate :=
  match q_msg it with
  | None => log (ADrop (q_events it)) st
  | Some m =>
      if is_capacity c cause then nak m st
      else match dead_letter with
           | Some f =>
               if MaxDeliver b <=? msg_deliveries m
               then dead_letter_and_terminate f (eventSource (q_events it)) m st
               else nak m st
           | None => nak m st
           end
  end.

Fixpoint settleFailure (items : list queued) (cause : Err) (st : bstate) : bstate :=
  match items with
  | [] => st
  | it :: rest => settleFailure rest cause (settle_one cause it st)
  end.

Fixpoint ack_all (items : list queued) (st : bstate) : bstate :=
  match items with
  | [] => st
  | it :: rest =>
      ack_all rest (match q_msg it with Some m => log (AAck m (q_events it)) st | None => st end)
  end.

Definition flush (now : Z) (items : list queued) (st : bstate) : bstate :=
  let all := batch_events items in
  match sinkWithRetry all (batch_mark items empty_mark) st with
  | (st1, None) => ack_all items (count (recordFlush (Z.of_nat (length all)) (ingestLagMS now all)) st1)
  | (st1, Some err) => settleFailure items err (count recordInsertFailure st1)
  end.

(** ** The loop *)

Record lstate := { buf : list queued; buffered : Z; inner : bstate }.

Inductive loop_event :=
| Received (q : queued)
| Ticked
| Stopped (rest : list queued).

Definition loop_flush (now : Z) (s : lstate) : lstate :=
  match buf s with
  | [] => s
  | _ => {| buf := []; buffered := 0; inner := flush now (buf s) (inner s) |}
  end.

(** One turn of the select; [Stopped rest] drains what is still queued, without
    counting it, and flushes once. *)
Definition loop_turn (now : Z) (ev : loop_event) (s : lstate) : lstate :=
  match ev with
  | Received q =>
      let s1 := {| buf := (buf s ++ [q])%list;
                   buffered := buffered s + Z.of_nat (length (q_events q)); inner := inner s |} in
      if MaxBatch b <=? buffered s1 then loop_flush now s1 else s1
  | Ticked => loop_flush now s
  | Stopped rest =>
      loop_flush now {| buf := (buf s ++ rest)%list; buffered := buffered s; inner := inner s |}
  end.

Definition loop (evs : list (Z * loop_event)) (s : lstate) : lstate :=
  fold_left (fun s e => loop_turn e.1 e.2 s) evs s.

End Batcher.
Arguments collaborators W Err : clear implicits.
Arguments bstate W : clear implicits.
Arguments lstate W : clear implicits.

(** ** What a settlement needs *)

Open Scope list_scope.

Section Settlement.
Context `{UuidEnv} {W Err : Type} (b : EventBatcherConfig) (c : collaborators W Err).

(** The message a settlement action settles. *)
Definition settles (a : action) : option msgHandle :=
  match a with AAck m _ | ANak m _ | ATerm m => Some m | _ => None end.

Definition settlements (tr : list action) : list msgHandle := omap settles tr.

(** The store recorded the position this settlement moves the floor over. *)
Definition position_recorded (tr : list action) (m : msgHandle) : Prop :=
  record c = None \/ DurableName b = "" \/ ARecord (settled_mark b m) true ∈ tr.

Definition hole_recorded (tr : list action) (m : msgHandle) : Prop :=
  recordHole c = None \/ d_StreamSeq (msg_delivery m) = 0 \/
  exists d source, AHole d source true ∈ tr /\
    delivery_key_of d = delivery_key_of (msg_delivery m).

(** What must lie in the past of an action: an acknowledgement follows a sink
    call that stored the events and recorded a position at or above the
    message's; a termination follows the dead-letter publication, the position
    and the hole. *)
Definition evidence (tr : list action) (a : action) : Prop :=
  match a with
  | AAck m evs =>
      (exists es mk, ASink es mk true ∈ tr /\ m_Durable mk = DurableName b /\
         msg_seq m <= m_Seq mk /\ forall e, e ∈ evs -> e ∈ es) \/
      (evs = [] /\ position_recorded tr m)
  | ATerm m => APublish m true ∈ tr /\ position_recorded tr m /\ hole_recorded tr m
  | _ => True
  end.

Fixpoint justified (tr : list action) : Prop :=
  match tr with
  | [] => True
  | a :: past => evidence past a /\ justified past
  end.

Definition durable_messages (items : list queued) : list msgHandle := omap q_msg items.

(** ** Lemmas *)

Lemma position_recorded_more tr tr' m :
  (forall a, a ∈ tr -> a ∈ tr') -> position_recorded tr m -> position_recorded tr' m.
Proof. intros Hs [?|[?|?]]; [by left|by right; left|right; right; auto]. Qed.

Lemma recordSettled_trace m (st st' : bstate W) e :
  recordSettled b c m st = (st', e) ->
  (e = None -> position_recorded (trace st') m) /\
  (forall a, a ∈ trace st -> a ∈ trace st') /\
  settlements (trace st') = settlements (trace st) /\
  (justified (trace st) -> justified (trace st')).
Proof.
  unfold recordSettled. destruct (record c) as [f|] eqn:Ec.
  - destruct (String.eqb (DurableName b) "") eqn:Ed; bool_props.
    + intros [= <- <-]. split_and!; try done. intros _. right. by left.
    + destruct (f _ _) as [w e0]. intros [= <- <-]. simpl. split_and!; try done.
      * intros ->. right. right. left.
      * intros. by right.
  - intros [= <- <-]. split_and!; try done. intros _. by left.
Qed.

Lemma recordReadinessHole_trace d source (st st' : bstate W) e m :
  delivery_key_of d = delivery_key_of (msg_delivery m) ->
  recordReadinessHole c d source st = (st', e) ->
  (e = None -> hole_recorded (trace st') m) /\
  (forall a, a ∈ trace st -> a ∈ trace st') /\
  settlements (trace st') = settlements (trace st) /\
  (justified (trace st) -> justified (trace st')).
Proof.
  intros Hd. unfold recordReadinessHole. destruct (recordHole c) as [f|] eqn:Ec.
  - destruct (d_StreamSeq d =? 0) eqn:Eq; bool_props.
    + intros [= <- <-]. split_and!; try done. intros _. right. left.
      unfold delivery_key_of in Hd. congruence.
    + destruct (f _ _ _) as [w e0]. intros [= <- <-]. simpl. split_and!; try done.
      * intros ->. right. right. exists d, source. split; [left|done].
      * intros. by right.
  - intros [= <- <-]. split_and!; try done. intros _. by left.
Qed.

Lemma with_project_key d source : delivery_key_of (with_project d source) = delivery_key_of d.
Proof. by destruct source. Qed.

Lemma nak_trace m (st : bstate W) :
  settlements (trace (nak b m st)) = m :: settlements (trace st) /\
  (justified (trace st) -> justified (trace (nak b m st))).
Proof. done. Qed.

(** The dead-letter path settles its message once, with its evidence. *)
Lemma dead_letter_trace f source m (st : bstate W) :
  let st' := dead_letter_and_terminate b c f source m st in
  settlements (trace st') = m :: settlements (trace st) /\
  (justified (trace st) -> justified (trace st')).
Proof.
  unfold dead_letter_and_terminate, publishDeadLetter.
  destruct (f (world st) m) as [w e]. destruct e as [err|]; [done|].
  unfold answered. cbn [is_some negb].
  match goal with |- context [recordSettled b c m ?s] => set (st1 := s) end.
  assert (H1 : settlements (trace st1) = settlements (trace st)) by done.
  assert (J1 : justified (trace st) -> justified (trace st1)) by done.
  assert (P1 : APublish m true ∈ trace st1) by left. clearbody st1.
  destruct (recordSettled b c m st1) as [st2 e2] eqn:E2.
  apply recordSettled_trace in E2 as (R2 & M2 & S2 & J2).
  destruct e2; [split; [simpl; by rewrite S2, H1|intros ?; apply nak_trace; auto]|].
  destruct (recordReadinessHole c _ source st2) as [st3 e3] eqn:E3.
  apply (recordReadinessHole_trace _ _ _ _ _ m) in E3 as (R3 & M3 & S3 & J3);
    [|apply with_project_key].
  destruct e3; [split; [simpl; by rewrite S3, S2, H1|intros ?; apply nak_trace; auto]|].
  split; [simpl; by rewrite S3, S2, H1|]. intros Hj. simpl. split; [|auto].
  split_and!; auto. eapply position_recorded_more; [exact M3|auto].
Qed.

Lemma settle_one_trace cause it (st : bstate W) :
  let st' := settle_one b c cause it st in
  settlements (trace st') = durable_messages [it] ++ settlements (trace st) /\
  (justified (trace st) -> justified (trace st')).
Proof.
  unfold settle_one, durable_messages. simpl. destruct (q_msg it) as [m|]; [|done].
  destruct (is_capacity c cause); [done|].
  destruct (dead_letter c) as [f|]; [|done].
  destruct (MaxDeliver b <=? msg_deliveries m); [|done]. apply dead_letter_trace.
Qed.

Lemma durable_messages_cons it items :
  durable_messages (it :: items) = durable_messages [it] ++ durable_messages items.
Proof. unfold durable_messages. simpl. by destruct (q_msg it). Qed.

Lemma settleFailure_trace items cause (st : bstate W) :
  let st' := settleFailure b c items cause st in
  settlements (trace st') = reverse (durable_messages items) ++ settlements (trace st) /\
  (justified (trace st) -> justified (trace st')).
Proof.
  revert st. induction items as [|it items IH]; intros st; [done|]. cbn [settleFailure].
  destruct (settle_one_trace cause it st) as [S1 J1].
  destruct (IH (settle_one b c cause it st)) as [S2 J2]. split; [|auto].
  rewrite S2, S1, (durable_messages_cons it items), reverse_app, <- app_assoc. f_equal.
  unfold durable_messages. simpl. by destruct (q_msg it).
Qed.

Lemma sink_attempts_trace l n es mk (st st' : bstate W) e :
  sink_attempts c l n es mk st = (st', e) ->
  settlements (trace st') = settlements (trace st) /\
  (justified (trace st) -> justified (trace st')) /\
  ((0 < l)%nat -> e = None -> ASink es mk true ∈ trace st').
Proof.
  revert n st. induction l as [|l IH]; intros n st; cbn [sink_attempts].
  - intros [= <- <-]. split_and!; [done..|lia].
  - destruct (sink c (world st) es mk) as [w e0]. destruct e0 as [err|]; simpl.
    + destruct l as [|l'].
      * intros [= <- <-]. by split_and!.
      * intros Hr. apply IH in Hr as (S & J & A). split_and!; [done| |].
        -- intros Hj. apply J. simpl. done.
        -- intros _ He. apply A; [lia|done].
    + intros [= <- <-]. split_and!; [done..|]. intros _ _. left.
Qed.

Lemma batch_mark_mono items mk :
  m_Durable (batch_mark items mk) = m_Durable mk /\ m_Seq mk <= m_Seq (batch_mark items mk).
Proof.
  revert mk. induction items as [|it items IH]; intros mk; simpl; [done|].
  destruct (q_msg it) as [m|]; [|apply IH]. split; [exact (proj1 (IH _))|].
  etrans; [|exact (proj2 (IH _))]. simpl. destruct (Z.ltb_spec (m_Seq mk) (msg_seq m)); lia.
Qed.

(** The batch's mark dominates every message of the batch. *)
Lemma batch_mark_above items mk it m :
  it ∈ items -> q_msg it = Some m -> msg_seq m <= m_Seq (batch_mark items mk).
Proof.
  revert mk. induction items as [|it' items IH]; intros mk Hin Hm; [by apply not_elem_of_nil in Hin|].
  apply elem_of_cons in Hin as [<-|Hin]; simpl.
  - rewrite Hm. etrans; [|exact (proj2 (batch_mark_mono _ _))]. simpl.
    destruct (Z.ltb_spec (m_Seq mk) (msg_seq m)); lia.
  - destruct (q_msg it'); by apply IH.
Qed.

Lemma ack_all_trace items (st : bstate W) :
  settlements (trace (ack_all items st)) = reverse (durable_messages items) ++ settlements (trace st).
Proof.
  revert st. induction items as [|it items IH]; intros st; [done|]. cbn [ack_all].
  rewrite IH, (durable_messages_cons it items), reverse_app, <- app_assoc. f_equal.
  unfold durable_messages. simpl. by destruct (q_msg it).
Qed.

Lemma ack_all_justified es mk items (st : bstate W) :
  m_Durable mk = DurableName b ->
  (forall it, it ∈ items -> (forall e, e ∈ q_events it -> e ∈ es) /\
     forall m, q_msg it = Some m -> msg_seq m <= m_Seq mk) ->
  ASink es mk true ∈ trace st -> justified (trace st) -> justified (trace (ack_all items st)).
Proof.
  intros Hd. revert st. induction items as [|it items IH]; intros st Hit Hs Hj; [done|].
  cbn [ack_all]. destruct (Hit it) as [He Hq]; [left|].
  assert (Hrest : forall it, it ∈ items -> (forall e, e ∈ q_events it -> e ∈ es) /\
     forall m, q_msg it = Some m -> msg_seq m <= m_Seq mk) by (intros; apply Hit; by right).
  destruct (q_msg it) as [m|] eqn:Em; [|by apply IH].
  apply IH; [done|by right|]. simpl. split; [|done]. left. exists es, mk. auto.
Qed.

Lemma flush_trace now items (st : bstate W) :
  (0 < MaxRetries b) ->
  let st' := flush b c now items st in
  settlements (trace st') = reverse (durable_messages items) ++ settlements (trace st) /\
  (justified (trace st) -> justified (trace st')).
Proof.
  intros Hb. unfold flush. destruct (sinkWithRetry _ _ _ _ _) as [st1 e] eqn:E.
  apply sink_attempts_trace in E as (S & J & A). destruct e as [err|].
  - destruct (settleFailure_trace items err (count recordInsertFailure st1)) as [S2 J2].
    simpl in *. rewrite S in S2. split; [done|]. auto.
  - cbv zeta. rewrite ack_all_trace. simpl. rewrite S. split; [done|]. intros Hj.
    apply (ack_all_justified (batch_events items) (batch_mark items (empty_mark b))).
    + by rewrite (proj1 (batch_mark_mono _ _)).
    + intros it Hit. split.
      * intros e He. unfold batch_events. apply list_elem_of_In, in_concat. exists (q_events it).
        rewrite <- !list_elem_of_In. split; [|done]. by apply list_elem_of_fmap_2.
      * intros m Hm. by apply (batch_mark_above items _ it).
    + apply A; [lia|done].
    + apply J, Hj.
Qed.

Lemma AddMsg_justified es om (st st' : bstate W) oq :
  AddMsg b c es om st = (st', oq) -> justified (trace st) -> justified (trace st').
Proof.
  unfold AddMsg. destruct es as [|e es].
  - destruct om as [m|]; [|by intros [= <- <-]].
    destruct (recordSettled b c m st) as [st1 e1] eqn:E.
    apply recordSettled_trace in E as (R & M & S & J).
    destruct e1; intros [= <- <-] Hj.
    + apply nak_trace. auto.
    + simpl. split; [|auto]. right. auto.
  - destruct (validateEvents _); [by intros [= <- <-]|]. intros [= <- <-] Hj.
    unfold poison. destruct om as [m|]; [|done]. destruct (dead_letter c) as [f|]; [|done].
    by apply dead_letter_trace.
Qed.

End Settlement.

(** ** The running batcher

    Messages enter through [AddMsg] on the consumer's goroutine and wait in the
    channel; the loop receives them, flushes on a tick and drains when stopped. *)

Section System.
Context `{UuidEnv} {W Err : Type} (b : EventBatcherConfig) (c : collaborators W Err).

Record system := { channel : list queued; looping : lstate W }.

Definition start (w : W) (m : option counters) : system :=
  {| channel := []; looping := {| buf := []; buffered := 0;
       inner := {| world := w; trace := []; metrics := m |} |} |}.

Definition with_inner (st : bstate W) (s : lstate W) : lstate W :=
  {| buf := buf s; buffered := buffered s; inner := st |}.

(** [run ms s]: [s] is reached after the messages [ms] were handed over. *)
Inductive run (w : W) (k : option counters) : list msgHandle -> system -> Prop :=
| RunStart : run w k [] (start w k)
| RunAddMsg ms s es m st oq :
    run w k ms s -> AddMsg b c es (Some m) (inner (looping s)) = (st, oq) ->
    run w k (m :: ms) {| channel := channel s ++ option_list oq;
                         looping := with_inner st (looping s) |}
| RunAdd ms s es :
    run w k ms s -> run w k ms {| channel := channel s ++ option_list (Add es); looping := looping s |}
| RunReceive ms s now q rest :
    run w k ms s -> channel s = q :: rest ->
    run w k ms {| channel := rest; looping := loop_turn b c now (Received q) (looping s) |}
| RunTick ms s now :
    run w k ms s -> run w k ms {| channel := channel s; looping := loop_turn b c now Ticked (looping s) |}
| RunStop ms s now :
    run w k ms s ->
    run w k ms {| channel := []; looping := loop_turn b c now (Stopped (channel s)) (looping s) |}.

(** One arrival and one stop, as functions. *)
Definition hand_over (es : list Event) (m : msgHandle) (s : system) : system :=
  let '(st, oq) := AddMsg b c es (Some m) (inner (looping s)) in
  {| channel := channel s ++ option_list oq; looping := with_inner st (looping s) |}.

Definition stop (now : Z) (s : system) : system :=
  {| channel := []; looping := loop_turn b c now (Stopped (channel s)) (looping s) |}.

Lemma run_hand_over w k ms s es m : run w k ms s -> run w k (m :: ms) (hand_over es m s).
Proof.
  intros Hr. unfold hand_over. destruct (AddMsg _ _ _ _ _) as [st oq] eqn:E. by eapply RunAddMsg.
Qed.

Lemma run_stop w k ms s now : run w k ms s -> run w k ms (stop now s).
Proof. apply RunStop. Qed.

Lemma loop_flush_trace now (s : lstate W) :
  0 < MaxRetries b ->
  let s' := loop_flush b c now s in
  buf s' = [] /\
  settlements (trace (inner s')) =
    reverse (durable_messages (buf s)) ++ settlements (trace (inner s)) /\
  (justified b c (trace (inner s)) -> justified b c (trace (inner s'))).
Proof.
  intros Hb. unfold loop_flush. destruct (buf s) as [|q qs] eqn:Eb; [done|].
  simpl. destruct (flush_trace b c now (q :: qs) (inner s) Hb) as [S J]. auto.
Qed.

Lemma durable_messages_app xs ys :
  durable_messages (xs ++ ys) = durable_messages xs ++ durable_messages ys.
Proof. unfold durable_messages. by rewrite omap_app. Qed.

(** What a turn of the loop does to messages in flight. *)
Lemma loop_turn_trace now ev (s : lstate W) :
  0 < MaxRetries b ->
  let s' := loop_turn b c now ev s in
  let arrived := match ev with Received q => [q] | Ticked => [] | Stopped rest => rest end in
  settlements (trace (inner s')) ++ durable_messages (buf s') ≡ₚ
    settlements (trace (inner s)) ++ durable_messages (buf s ++ arrived) /\
  (justified b c (trace (inner s)) -> justified b c (trace (inner s'))) /\
  match ev with Stopped _ => buf s' = [] | _ => True end.
Proof.
  intros Hb. cbv zeta.
  assert (Hf : forall s0 : lstate W,
    settlements (trace (inner (loop_flush b c now s0))) ++
      durable_messages (buf (loop_flush b c now s0)) ≡ₚ
    settlements (trace (inner s0)) ++ durable_messages (buf s0)).
  { intros s0. destruct (loop_flush_trace now s0 Hb) as (B & S & _). rewrite B, S.
    unfold durable_messages at 2. simpl. by rewrite app_nil_r, reverse_Permutation, (comm (++)). }
  destruct ev as [q| |rest]; simpl.
  - set (s1 := {| buf := buf s ++ [q]; buffered := _; inner := inner s |}).
    destruct (MaxBatch b <=? _).
    + split_and!; [apply (Hf s1)|apply (loop_flush_trace now s1 Hb)|done].
    + by split_and!.
  - rewrite app_nil_r. split_and!; [apply Hf|by apply loop_flush_trace|done].
  - set (s1 := {| buf := buf s ++ rest; buffered := _; inner := inner s |}).
    split_and!; [apply (Hf s1)|by apply (loop_flush_trace now s1 Hb)|by apply loop_flush_trace].
Qed.

Lemma AddMsg_settlements es m (st st' : bstate W) oq :
  AddMsg b c es (Some m) st = (st', oq) ->
  settlements (trace st') ++ durable_messages (option_list oq) ≡ₚ m :: settlements (trace st).
Proof.
  unfold AddMsg. destruct es as [|e es].
  - destruct (recordSettled b c m st) as [st1 e1] eqn:E.
    apply recordSettled_trace in E as (_ & _ & S & _).
    destruct e1; intros [= <- <-]; simpl; by rewrite S, app_nil_r.
  - destruct (validateEvents _).
    + intros [= <- <-]. simpl. by rewrite <- Permutation_cons_append.
    + intros [= <- <-]. simpl. rewrite app_nil_r. unfold poison.
      destruct (dead_letter c) as [f|]; [|done].
      by rewrite (proj1 (dead_letter_trace b c f _ m st)).
Qed.

Definition in_flight (s : system) : list msgHandle :=
  durable_messages (buf (looping s)) ++ durable_messages (channel s).

Lemma run_invariant w k ms s :
  0 < MaxRetries b -> run w k ms s ->
  ms ≡ₚ settlements (trace (inner (looping s))) ++ in_flight s /\
  justified b c (trace (inner (looping s))).
Proof.
  intros Hb Hr. unfold in_flight. induction Hr as [|ms s es m st oq _ [IP IJ] Ha|ms s es _ [IP IJ]
    |ms s now q rest _ [IP IJ] Hc|ms s now _ [IP IJ]|ms s now _ [IP IJ]].
  - done.
  - split; [|by eapply AddMsg_justified]. apply AddMsg_settlements in Ha. simpl.
    rewrite durable_messages_app, IP, !app_assoc. rewrite app_comm_cons, app_comm_cons.
    rewrite <- Ha, <- !app_assoc. f_equiv. rewrite (comm (++) (durable_messages (option_list oq))).
    by rewrite <- !app_assoc.
  - split; [|done]. simpl. rewrite durable_messages_app, IP.
    replace (durable_messages (option_list (Add es))) with (@nil msgHandle) by (by destruct es).
    by rewrite app_nil_r.
  - destruct (loop_turn_trace now (Received q) (looping s) Hb) as (P & J & _). split; [|auto].
    cbn [channel looping]. rewrite IP, Hc, !app_assoc, P, durable_messages_app, <- !app_assoc.
    f_equiv. f_equiv. by rewrite (durable_messages_cons q rest).
  - destruct (loop_turn_trace now Ticked (looping s) Hb) as (P & J & _). split; [|auto].
    cbn [channel looping]. rewrite IP, !app_assoc. by rewrite P, app_nil_r.
  - destruct (loop_turn_trace now (Stopped (channel s)) (looping s) Hb) as (P & J & _). split; [|auto].
    cbn [channel looping]. rewrite IP, !app_assoc, P, durable_messages_app.
    change (durable_messages []) with (@nil msgHandle). by rewrite app_nil_r, !app_assoc.
Qed.
End System.

(** ** Properties *)

(** C10: no message is lost and none is settled twice: after any interleaving of
    arrivals, receptions, ticks and stops, the messages handed to the batcher
    are exactly those settled (acknowledged, handed back or terminated), those
    in the buffer and those in the channel. *)
Theorem every_message_settled_once `{UuidEnv} {W Err} cfg (c : collaborators W Err) w k ms s :
  run (NewEventBatcher cfg) c w k ms s ->
  ms ≡ₚ settlements (trace (inner (looping s))) ++ in_flight s.
Proof.
  intros Hr. eapply run_invariant; [|exact Hr].
  unfold NewEventBatcher, or_default. simpl. destruct (Z.leb_spec (MaxRetries cfg) 0); lia.
Qed.

(** C9: no message leaves the stream without durable evidence: every
    acknowledgement follows a sink call that stored the message's events under a
    position at or above its sequence (or, for an empty message, the recorded
    position), and every termination follows its dead-letter publication, its
    recorded position and its recorded coverage hole. *)
Theorem settlements_have_evidence `{UuidEnv} {W Err} cfg (c : collaborators W Err) w k ms s :
  run (NewEventBatcher cfg) c w k ms s ->
  justified (NewEventBatcher cfg) c (trace (inner (looping s))).
Proof.
  intros Hr. eapply run_invariant; [|exact Hr].
  unfold NewEventBatcher, or_default. simpl. destruct (Z.leb_spec (MaxRetries cfg) 0); lia.
Qed.

(** Capacity pressure is never poison: when the sink refuses for lack of
    space, every message of the batch is handed back for redelivery, whatever
    its delivery count, and nothing is published, recorded or terminated. *)
Theorem capacity_only_redelivers `{UuidEnv} {W Err} b (c : collaborators W Err) items cause st :
  is_capacity c cause = true ->
  trace (settleFailure b c items cause st) =
    reverse ((fun it => match q_msg it with
                        | Some m => ANak m (NakDelay b)
                        | None => ADrop (q_events it)
                        end) <$> items) ++ trace st /\
  world (settleFailure b c items cause st) = world st.
Proof.
  intros Hc. revert st. induction items as [|it items IH]; intros st; [done|].
  cbn [settleFailure]. destruct (IH (settle_one b c cause it st)) as [T Wd].
  rewrite T, Wd. unfold settle_one. rewrite Hc. rewrite fmap_cons, reverse_cons, <- app_assoc.
  by destruct (q_msg it).
Qed.

(** The retry schedule is bounded: the wait doubles from 200 ms and is capped at
    two seconds, and no attempt number (the shift is an int64 one) makes it
    longer. *)
Theorem backoff_bounded attempt :
  0 <= attempt ->
  backoff attempt <= 2 * second /\
  (attempt <= 35 -> backoff attempt = Z.min (200 * millisecond * 2 ^ attempt) (2 * second)).
Proof.
  intros Ha. unfold backoff. split.
  - destruct (Z.ltb_spec (2 * second) (i64 (Z.shiftl (200 * millisecond) attempt))); lia.
  - intros Hb. rewrite Z.shiftl_mul_pow2 by done. rewrite i64_small.
    + destruct (Z.ltb_spec (2 * second) (200 * millisecond * 2 ^ attempt)); lia.
    + pose proof (Z.pow_le_mono_r 2 attempt 35 ltac:(lia) Hb).
      pose proof (Z.pow_pos_nonneg 2 attempt ltac:(lia) Ha).
      unfold min_i64, max_i64, two63, millisecond. lia.
Qed.

(** ** Witnesses *)

Definition w_cfg : EventBatcherConfig :=
  {| MaxBatch := 2; FlushEvery := 0; InsertTimeout := 0; QueueDepth := 0; MaxRetries := 1;
     MaxDeliver := 1; NakDelay := 0; DurableName := "blue" |}.

Definition w_event : Event :=
  {| e_ProjectID := w_uuid; e_EventID := w_uuid2; e_DistinctID := "u"; e_SessionID := "";
     e_EventName := "signup"; e_EventType := "track"; e_Properties := ""; e_AgentID := "";
     e_ToolName := ""; e_ToolInput := ""; e_ToolOutput := ""; e_TokensInput := None;
     e_TokensOutput := None; e_CostUSD := None; e_LatencyMS := None; e_ModelName := "";
     e_IsError := false; e_ErrorMessage := ""; e_Timestamp := 5; e_VisitorClass := "human";
     e_BotName := ""; e_ReferrerHost := ""; e_ReferrerChannel := ""; e_UserAgent := "";
     e_Platform := ""; e_UTMSource := ""; e_UTMMedium := ""; e_UTMCampaign := "";
     e_UTMTerm := ""; e_UTMContent := ""; e_InsertID := ""; e_IsUnplanned := false |}.

Definition w_msg (seq : Z) : msgHandle :=
  {| msg_deliveries := 3; msg_body := "{}"; msg_seq := seq; msg_delivery := w_delivery |}.

(** A world that counts calls: sink calls fail from the third on. *)
Definition w_collab : collaborators Z bool :=
  {| sink := fun w _ _ => (w + 1, if w <? 2 then None else Some false);
     deadLetter := Some (fun w _ => (w, None)); deadLetterWithReceipt := None;
     record := Some (fun w _ => (w, None)); recordHole := Some (fun w _ _ => (w, None));
     is_capacity := fun e => e |}.

Definition w_system : @system Z :=
  let b := NewEventBatcher w_cfg in
  stop b w_collab 9 (hand_over b w_collab [] (w_msg 8) (hand_over b w_collab [w_event] (w_msg 7) (start 2 None))).

Lemma w_run : run (NewEventBatcher w_cfg) w_collab 2 None [w_msg 8; w_msg 7] w_system.
Proof. apply run_stop, run_hand_over, run_hand_over, RunStart. Qed.

Lemma every_message_settled_once_witness :
  [w_msg 8; w_msg 7] ≡ₚ settlements (trace (inner (looping w_system))) ++ in_flight w_system.
Proof. apply (every_message_settled_once w_cfg w_collab 2 None [w_msg 8; w_msg 7] w_system). apply w_run. Defined.

Lemma settlements_have_evidence_witness :
  justified (NewEventBatcher w_cfg) w_collab (trace (inner (looping w_system))).
Proof. apply (settlements_have_evidence w_cfg w_collab 2 None [w_msg 8; w_msg 7] w_system). apply w_run. Defined.

Lemma capacity_only_redelivers_witness :
  let items := [{| q_events := [w_event]; q_msg := Some (w_msg 7) |}] in
  let st := {| world := 9; trace := []; metrics := None |} in
  trace (settleFailure w_cfg w_collab items true st) =
    reverse ((fun it => match q_msg it with
                        | Some m => ANak m (NakDelay w_cfg)
                        | None => ADrop (q_events it)
                        end) <$> items) ++ trace st /\
  world (settleFailure w_cfg w_collab items true st) = world st.
Proof. intros items st. apply (capacity_only_redelivers w_cfg w_collab items true st). reflexivity. Defined.

Lemma backoff_bounded_witness :
  backoff 2 <= 2 * second /\ (2 <= 35 -> backoff 2 = Z.min (200 * millisecond * 2 ^ 2) (2 * second)).
Proof. apply (backoff_bounded 2). lia. Defined.

Example backoff_schedule : backoff <$> [0; 1; 2; 3; 4] =
  [200 * millisecond; 400 * millisecond; 800 * millisecond; 1600 * millisecond; 2 * second].
Proof. reflexivity. Qed.
