(* ===== verification/Pipeline.v ===== *)
(** * Pipeline: the batcher over the DuckDB file

    The durable worker of [internal/dataplane/ingest/queue.go] gives the batcher
    of [Batcher] the operations of [Landing] and [Journal].  The world is the
    file, the number of calls made so far, and nothing else; which calls fail
    and what the clock shows are arbitrary functions of that number. *)

From S2P Require Import Prelude GoStrings Duck Journal Readiness Persons Landing Batcher.
Import String.
Open Scope string_scope.
Open Scope list_scope.
Open Scope Z_scope.

(** ** Facts a trace establishes *)

Section Facts.
Context `{UuidEnv} {W Err : Type} (b : EventBatcherConfig) (c : collaborators W Err).

(** [fact w a]: what the successful call [a] left in the world still holds in [w]. *)
Context (fact : W -> action -> Prop).

Definition carries (w w' : W) : Prop := forall a, fact w a -> fact w' a.

Context (fact_other : forall w a,
  match a with ASink _ _ true | ARecord _ true => False | _ => True end -> fact w a).
Context (sink_fact : forall w es mk w' e, 0 <= m_Seq mk -> m_Durable mk = DurableName b ->
  sink c w es mk = (w', e) -> carries w w' /\ (e = None -> fact w' (ASink es mk true))).
Context (record_fact : forall f w mk w' e, record c = Some f -> 0 <= m_Seq mk ->
  m_Durable mk = DurableName b -> f w mk = (w', e) ->
  carries w w' /\ (e = None -> fact w' (ARecord mk true))).
Context (hole_fact : forall f w d s w' e, recordHole c = Some f -> f w d s = (w', e) -> carries w w').
Context (dead_fact : forall f w m w' e, dead_letter c = Some f -> f w m = (w', e) -> carries w w').

Definition holds (st : bstate W) : Prop := forall a, a ∈ trace st -> fact (world st) a.

Lemma holds_log a (st : bstate W) :
  match a with ASink _ _ true | ARecord _ true => False | _ => True end ->
  holds st -> holds (log a st).
Proof using fact_other.
  intros Ha Hs x [->|Hx]%elem_of_cons; [by apply fact_other|by apply Hs].
Qed.

Lemma holds_count f (st : bstate W) : holds st -> holds (count f st).
Proof. done. Qed.

Lemma holds_answered w (a : bool -> action) (e : option Err) (st st' : bstate W) e' :
  answered w a e st = (st', e') -> carries (world st) w -> fact w (a (negb (is_some e))) ->
  holds st -> holds st' /\ e' = e.
Proof.
  intros [= <- <-] Hc Ha Hs. split; [|done]. intros x [->|Hx]%elem_of_cons; [done|]. apply Hc, Hs, Hx.
Qed.

Lemma holds_recordSettled m (st st' : bstate W) e :
  0 <= msg_seq m -> recordSettled b c m st = (st', e) -> holds st -> holds st'.
Proof using fact_other record_fact.
  intros Hm. unfold recordSettled. destruct (record c) as [f|] eqn:Ef; [|by intros [= <- <-]].
  destruct (String.eqb (DurableName b) ""); [by intros [= <- <-]|].
  destruct (f (world st) (settled_mark b m)) as [w e0] eqn:Ew. intros Ha Hs.
  destruct (record_fact f (world st) (settled_mark b m) w e0 eq_refl Hm eq_refl Ew) as [C F].
  eapply holds_answered; [exact Ha|done| |done]. destruct e0; [by apply fact_other|by apply F].
Qed.

Lemma holds_hole d s (st st' : bstate W) e :
  recordReadinessHole c d s st = (st', e) -> holds st -> holds st'.
Proof using fact_other hole_fact.
  unfold recordReadinessHole. destruct (recordHole c) as [f|] eqn:Ef; [|by intros [= <- <-]].
  destruct (d_StreamSeq d =? 0); [by intros [= <- <-]|].
  destruct (f (world st) d s) as [w e0] eqn:Ew. intros Ha Hs.
  eapply holds_answered; [exact Ha|by eapply hole_fact|by apply fact_other|done].
Qed.

Lemma holds_nak m (st : bstate W) : holds st -> holds (nak b m st).
Proof using fact_other. intros. by apply holds_count, holds_log. Qed.

Lemma holds_dead f s m (st : bstate W) :
  0 <= msg_seq m -> dead_letter c = Some f -> holds st ->
  holds (dead_letter_and_terminate b c f s m st).
Proof using fact_other record_fact hole_fact dead_fact.
  intros Hm Hf Hs. unfold dead_letter_and_terminate, publishDeadLetter.
  destruct (f (world st) m) as [w e] eqn:Ew.
  destruct (answered w (APublish m) e st) as [st1 e1] eqn:E1.
  eapply holds_answered in E1 as [H1 ->]; [|by eapply dead_fact|by apply fact_other|done].
  destruct e; [by apply holds_nak|].
  destruct (recordSettled b c m st1) as [st2 e2] eqn:E2. apply holds_recordSettled in E2; [|done..].
  destruct e2; [by apply holds_nak|].
  destruct (recordReadinessHole c _ s st2) as [st3 e3] eqn:E3. apply holds_hole in E3; [|done].
  destruct e3; [by apply holds_nak|]. by apply holds_count, holds_log.
Qed.

Lemma holds_AddMsg es m (st st' : bstate W) oq :
  0 <= msg_seq m -> AddMsg b c es (Some m) st = (st', oq) -> holds st -> holds st'.
Proof using fact_other record_fact hole_fact dead_fact.
  intros Hm. unfold AddMsg. destruct es as [|e es].
  - destruct (recordSettled b c m st) as [st1 e1] eqn:E. intros Ha Hs.
    apply holds_recordSettled in E; [|done..]. destruct e1; injection Ha as <- <-.
    + by apply holds_nak.
    + by apply holds_log.
  - destruct (validateEvents _); intros [= <- <-] Hs; [done|]. unfold poison.
    pose proof (fun f => holds_dead f (eventSource (e :: es)) m st Hm) as Hd.
    destruct (dead_letter c) as [f|]; [by apply Hd|by apply holds_nak].
Qed.

Lemma holds_attempts l n es mk (st st' : bstate W) e :
  0 <= m_Seq mk -> m_Durable mk = DurableName b ->
  sink_attempts c l n es mk st = (st', e) -> holds st -> holds st'.
Proof using fact_other sink_fact.
  intros Hk Hd. revert n st. induction l as [|l IH]; intros n st; cbn [sink_attempts]; [by intros [= <- <-]|].
  destruct (sink c (world st) es mk) as [w e0] eqn:Ew.
  destruct (answered w (ASink es mk) e0 st) as [st1 e1] eqn:E1. intros Hr Hs.
  destruct (sink_fact (world st) es mk w e0 Hk Hd Ew) as [C F].
  eapply holds_answered in E1 as [H1 ->]; [|done| |done].
  2: { destruct e0; [by apply fact_other|by apply F]. }
  destruct e0; [|by injection Hr as <- <-]. destruct l; [by injection Hr as <- <-|].
  eapply IH; [exact Hr|]. by apply holds_log, holds_count.
Qed.

Lemma holds_settle items cause (st : bstate W) :
  (forall m, m ∈ durable_messages items -> 0 <= msg_seq m) ->
  holds st -> holds (settleFailure b c items cause st).
Proof using fact_other record_fact hole_fact dead_fact.
  revert st. induction items as [|it items IH]; intros st Hm Hs; [done|]. cbn [settleFailure].
  rewrite (durable_messages_cons it items) in Hm.
  apply IH; [intros; apply Hm, elem_of_app; by right|]. unfold settle_one.
  destruct (q_msg it) as [m|] eqn:Eq; [|by apply holds_log].
  assert (0 <= msg_seq m).
  { apply Hm, elem_of_app. left. unfold durable_messages. simpl. rewrite Eq. left. }
  destruct (is_capacity c cause); [by apply holds_nak|].
  pose proof (fun f => holds_dead f (eventSource (q_events it)) m st H0) as Hd.
  destruct (dead_letter c) as [f|]; [|by apply holds_nak].
  destruct (MaxDeliver b <=? msg_deliveries m); [by apply Hd|by apply holds_nak].
Qed.

Lemma holds_ack items (st : bstate W) : holds st -> holds (ack_all items st).
Proof using fact_other.
  revert st. induction items as [|it items IH]; intros st Hs; [done|]. cbn [ack_all].
  apply IH. destruct (q_msg it); [by apply holds_log|done].
Qed.

Lemma holds_flush now items (st : bstate W) :
  (forall m, m ∈ durable_messages items -> 0 <= msg_seq m) ->
  holds st -> holds (flush b c now items st).
Proof using fact_other sink_fact record_fact hole_fact dead_fact.
  intros Hm Hs. unfold flush, sinkWithRetry. destruct (sink_attempts _ _ _ _ _ _) as [st1 e] eqn:E.
  destruct (batch_mark_mono items (empty_mark b)) as [D Q].
  apply holds_attempts in E; [|exact Q|by rewrite D|done].
  destruct e; [by apply holds_settle, holds_count|by apply holds_ack, holds_count].
Qed.

Lemma holds_turn now ev (s : lstate W) :
  (forall m, m ∈ durable_messages (buf s ++ match ev with Received q => [q] | Ticked => [] | Stopped r => r end) ->
     0 <= msg_seq m) ->
  holds (inner s) -> holds (inner (loop_turn b c now ev s)).
Proof using fact_other sink_fact record_fact hole_fact dead_fact.
  intros Hm Hs. assert (Hf : forall s0 : lstate W, (forall m, m ∈ durable_messages (buf s0) -> 0 <= msg_seq m) ->
    holds (inner s0) -> holds (inner (loop_flush b c now s0))).
  { intros s0 Hm0 Hs0. unfold loop_flush. destruct (buf s0); [done|]. by apply holds_flush. }
  destruct ev; simpl.
  - destruct (MaxBatch b <=? _); [by apply Hf|done].
  - apply Hf; [|done]. by rewrite app_nil_r in Hm.
  - by apply Hf.
Qed.

(** The facts hold in every reachable state. *)
Lemma run_facts w k ms s :
  0 < MaxRetries b -> run b c w k ms s -> (forall m, m ∈ ms -> 0 <= msg_seq m) ->
  holds (inner (looping s)).
Proof using fact_other sink_fact record_fact hole_fact dead_fact.
  intros Hb Hr. induction Hr as [|ms s es m st oq Hr IH Ha|ms s es Hr IH|ms s now q rest Hr IH Hc
    |ms s now Hr IH|ms s now Hr IH]; intros Hm.
  - intros a Ha. by apply not_elem_of_nil in Ha.
  - simpl. eapply holds_AddMsg; [apply Hm; left|exact Ha|]. apply IH. intros. apply Hm. by right.
  - by apply IH.
  - apply holds_turn; [|by apply IH]. intros m Hin. apply Hm.
    rewrite (proj1 (run_invariant b c w k ms s Hb Hr)). unfold in_flight. rewrite Hc.
    rewrite durable_messages_app in Hin. rewrite (durable_messages_cons q rest).
    rewrite !elem_of_app in *. tauto.
  - apply holds_turn; [|by apply IH]. intros m Hin. apply Hm.
    rewrite (proj1 (run_invariant b c w k ms s Hb Hr)). unfold in_flight.
    rewrite durable_messages_app in Hin. rewrite !elem_of_app in *.
    destruct Hin as [?|Hn]; [tauto|by apply not_elem_of_nil in Hn].
  - apply holds_turn; [|by apply IH]. intros m Hin. apply Hm.
    rewrite (proj1 (run_invariant b c w k ms s Hb Hr)). unfold in_flight.
    rewrite durable_messages_app in Hin. rewrite !elem_of_app in *. tauto.
Qed.
End Facts.

(** ** The DuckDB file as the batcher's world *)

Record duck_world := { file : duckdb; calls : Z }.

Section Worker.
Context `{UuidEnv} `{JsonEnv}.
(** Which calls the engine, the disk reserve and the dead-letter publication
    refuse, and the clock, by call number. *)
Context (io low dlq_fails : Z -> bool) (clock : Z -> Z).

Definition next (w : duck_world) (r : duckdb * option duck_error) : duck_world * option duck_error :=
  ({| file := r.1; calls := calls w + 1 |}, r.2).

(** What [StartJetStreamWorker] hands to [NewEventBatcher]. *)
Definition worker_collaborators : collaborators duck_world duck_error := {|
  sink := fun w evs mk =>
    next w (SinkEvents (io (calls w)) (low (calls w)) (clock (calls w)) evs mk (file w));
  deadLetter := None;
  deadLetterWithReceipt := Some (fun w _ _ =>
    next w (file w, if dlq_fails (calls w) then Some ErrIO else None));
  record := Some (fun w mk => next w (RecordPosition (io (calls w)) (clock (calls w)) mk (file w)));
  recordHole := Some (fun w d s => next w (RecordReadinessHole (io (calls w)) d s (file w)));
  is_capacity := fun e => bool_decide (e = ErrDataCapacity);
|}.

Definition covered (w : duck_world) (mk : AppliedMark) : Prop :=
  m_Seq mk <= pos_Seq (read_position (file w) (m_Durable mk)).

Definition landed (w : duck_world) (a : action) : Prop :=
  match a with
  | ASink es mk true => (forall e, e ∈ es -> event_stored (file w) e) /\ covered w mk
  | ARecord mk true => covered w mk
  | _ => True
  end.

Definition file_grows (d d' : duckdb) : Prop :=
  events_kept d d' /\ forall q, pos_Seq (read_position d q) <= pos_Seq (read_position d' q).

Lemma file_grows_refl d : file_grows d d.
Proof. split; [by intros ?|lia]. Qed.

Lemma file_grows_claim d d' : same_claim d d' -> file_grows d d'.
Proof.
  intros Hc. split.
  - intros k e. destruct Hc as (_ & -> & _). done.
  - intros q. by rewrite (same_claim_position _ _ _ Hc).
Qed.

Lemma file_grows_carries w w' : file_grows (file w) (file w') -> carries landed w w'.
Proof.
  intros [Hk Hp] a. unfold landed, covered.
  destruct a as [es mk [] | | mk [] | | | | | |]; try done.
  - intros [Hs Hc]. split; [intros e He; eapply events_kept_stored; eauto|].
    etrans; [exact Hc|apply Hp].
  - intros Hc. etrans; [exact Hc|apply Hp].
Qed.

Lemma RecordPosition_grows fails now mark d d' e :
  0 <= m_Seq mark -> RecordPosition fails now mark d = (d', e) ->
  file_grows d d' /\
  (e = None -> m_Durable mark <> "" -> m_Seq mark <= pos_Seq (read_position d' (m_Durable mark))).
Proof.
  intros Hs. unfold RecordPosition. destruct (_ && _ && _) eqn:Em.
  { intros [= <- <-]. split; [apply file_grows_refl|]. bool_props. done. }
  destruct e as [e|]; intros Hw.
  { apply Write_error in Hw as ->. split; [apply file_grows_refl|done]. }
  apply Write_ok in Hw as [_ Hr]. apply recordAppliedReceipts_claim in Hr. split.
  - split.
    + intros k e. destruct Hr as (_ & -> & _). unfold advancePositionTx.
      by destruct (String.eqb (m_Durable mark) "").
    + intros q. rewrite (same_claim_position _ _ _ Hr). by apply advance_monotone.
  - intros _ Hd. rewrite (same_claim_position _ _ _ Hr), read_position_advance by done.
    rewrite String.eqb_refl. simpl. destruct (match ingest_position d !! _ with Some _ => _ | None => _ end); lia.
Qed.

Lemma SinkEvents_grows fails lo now evs mark d d' e :
  0 <= m_Seq mark -> m_Durable mark <> "" -> SinkEvents fails lo now evs mark d = (d', e) ->
  file_grows d d' /\
  (e = None -> (forall x, x ∈ evs -> event_stored d' x) /\
     m_Seq mark <= pos_Seq (read_position d' (m_Durable mark))).
Proof.
  intros Hs Hd Hw. destruct e as [e|].
  - assert (d' = d) as ->.
    { unfold SinkEvents in Hw. destruct lo; [by injection Hw|]. by eapply Write_error. }
    split; [apply file_grows_refl|done].
  - destruct (SinkEvents_ok _ _ _ _ _ _ _ Hd Hs Hw) as (K & S & P & M). split; [by split|done].
Qed.

Lemma RecordReadinessHole_claim fails v s d d' e :
  RecordReadinessHole fails v s d = (d', e) -> same_claim d d'.
Proof.
  unfold RecordReadinessHole. destruct (_ || _); [by intros [= <- <-]|].
  destruct e; intros Hw; [by apply Write_error in Hw as ->|].
  apply Write_ok in Hw as [_ Hr].
  destruct (match s with Some _ => _ | None => _ end) as [[p c] t].
  destruct (uuid_or_null _ p) as [pid|]; [|done]. cbn [result_bind] in Hr.
  destruct (uuid_or_null _ c) as [cid|]; [|done]. cbn [result_bind] in Hr. by injection Hr as <-.
Qed.

Lemma justified_past {W Err} b (c : Batcher.collaborators W Err) tr a : justified b c tr -> a ∈ tr ->
  exists past, evidence b c past a /\ forall x, x ∈ past -> x ∈ tr.
Proof.
  induction tr as [|a' tr IH]; simpl; [intros _ Ha; by apply not_elem_of_nil in Ha|].
  intros [He Hj] [->|Ha]%elem_of_cons.
  - exists tr. split; [done|]. intros. by right.
  - destruct (IH Hj Ha) as (past & Hp & Hs). exists past. split; [done|]. intros. right. auto.
Qed.

Lemma worker_landed b w k ms s :
  0 < MaxRetries b -> DurableName b <> "" -> run b worker_collaborators w k ms s ->
  (forall m, m ∈ ms -> 0 <= msg_seq m) -> holds landed (inner (looping s)).
Proof.
  intros Hb Hd Hr Hm. eapply (run_facts b worker_collaborators landed); [..|exact Hb|exact Hr|exact Hm].
  - intros w0 [es mk []| |mk []| | | | | |]; simpl; try done.
  - intros w0 es mk w' e Hs Hn Hw. simpl in Hw. unfold next in Hw.
    destruct (SinkEvents _ _ _ _ _ _) as [d' e'] eqn:E. injection Hw as <- <-.
    apply SinkEvents_grows in E as [G S]; [|done|by rewrite Hn].
    split; [by apply file_grows_carries|]. intros ->. by apply S.
  - intros f w0 mk w' e [= <-] Hs Hn Hw. unfold next in Hw.
    destruct (RecordPosition _ _ _ _) as [d' e'] eqn:E. injection Hw as <- <-.
    apply RecordPosition_grows in E as [G S]; [|done].
    split; [by apply file_grows_carries|]. intros ->. apply S; [done|by rewrite Hn].
  - intros f w0 d0 s0 w' e [= <-] Hw. unfold next in Hw.
    destruct (RecordReadinessHole _ _ _ _) as [d' e'] eqn:E. injection Hw as <- <-.
    apply file_grows_carries, file_grows_claim. by eapply RecordReadinessHole_claim.
  - intros f w0 m w' e [= <-] Hw. unfold next in Hw. injection Hw as <- <-.
    apply file_grows_carries, file_grows_refl.
Qed.

(** What a settled message leaves in the file. *)
Lemma settled_covered b w k ms s m :
  0 < MaxRetries b -> DurableName b <> "" -> run b worker_collaborators w k ms s ->
  (forall m, m ∈ ms -> 0 <= msg_seq m) ->
  let st := inner (looping s) in
  let pos := pos_Seq (read_position (file (world st)) (DurableName b)) in
  (forall es, AAck m es ∈ trace st ->
     (forall e, e ∈ es -> event_stored (file (world st)) e) /\ msg_seq m <= pos) /\
  (ATerm m ∈ trace st -> msg_seq m <= pos).
Proof.
  intros Hb Hd Hr Hm st pos.
  pose proof (worker_landed _ _ _ _ _ Hb Hd Hr Hm) as Hl.
  pose proof (proj2 (run_invariant _ _ _ _ _ _ Hb Hr)) as Hj.
  assert (Hrec : forall past, (forall x, x ∈ past -> x ∈ trace st) ->
    position_recorded b worker_collaborators past m -> msg_seq m <= pos).
  { intros past Hs [Hp|[Hp|Hp]]; [done|done|]. apply Hs, Hl in Hp. exact Hp. }
  split.
  - intros es Ha. destruct (justified_past _ _ _ _ Hj Ha) as (past & He & Hs).
    destruct He as [(es' & mk & Hin & Hdk & Hq & Hes)|[-> Hp]].
    + apply Hs, Hl in Hin as [Hst Hc]. split; [auto|]. unfold covered in Hc. rewrite Hdk in Hc.
      etrans; [exact Hq|exact Hc].
    + split; [intros e He; by apply not_elem_of_nil in He|]. by eapply Hrec.
  - intros Ha. destruct (justified_past _ _ _ _ Hj Ha) as (past & (_ & Hp & _) & Hs). by eapply Hrec.
Qed.
End Worker.

(** ** Properties *)

(** C1: over the DuckDB file, an acknowledgement is a durable fact: whatever calls
    fail and however arrivals, flushes and stops interleave, every event of an
    acknowledged message is a row of the file, and the file's recorded position
    is at or above every acknowledged or terminated message. *)
Theorem acknowledged_is_durable `{UuidEnv} `{JsonEnv} io low dlq clock cfg w k ms s m :
  DurableName cfg <> "" -> (forall m, m ∈ ms -> 0 <= msg_seq m) ->
  run (NewEventBatcher cfg) (worker_collaborators io low dlq clock) w k ms s ->
  let st := inner (looping s) in
  let pos := pos_Seq (read_position (file (world st)) (DurableName cfg)) in
  (forall es, AAck m es ∈ trace st ->
     (forall e, e ∈ es -> event_stored (file (world st)) e) /\ msg_seq m <= pos) /\
  (ATerm m ∈ trace st -> msg_seq m <= pos).
Proof.
  intros Hd Hm Hr. apply (settled_covered io low dlq clock (NewEventBatcher cfg) w k ms s m); [|done..].
  unfold NewEventBatcher, or_default. simpl. destruct (Z.leb_spec (MaxRetries cfg) 0); lia.
Qed.

(** A healthy colour is never refused at its next boot: when the durable's
    consumer floor is a message this worker settled, binding the same file
    leaves the process without a gap and the file as it was. *)
Theorem healthy_restart_not_refused `{UuidEnv} `{JsonEnv} io low dlq clock cfg w k ms s m b ss :
  DurableName cfg <> "" -> durableName ss = DurableName cfg ->
  (forall m, m ∈ ms -> 0 <= msg_seq m) ->
  run (NewEventBatcher cfg) (worker_collaborators io low dlq clock) w k ms s ->
  let st := inner (looping s) in
  ((exists es, AAck m es ∈ trace st) \/ ATerm m ∈ trace st) -> floor_consumer b <= msg_seq m ->
  pos_RefusedMissing (read_position (file (world st)) (DurableName cfg)) = 0 ->
  bindStore (E := duck_error) false false b ss (Some (file (world st))) =
    (ss, Some (file (world st)), None).
Proof.
  intros Hd Hn Hm Hr st Hset Hfl Href.
  assert (Hb : 0 < MaxRetries (NewEventBatcher cfg)).
  { unfold NewEventBatcher, or_default. simpl. destruct (Z.leb_spec (MaxRetries cfg) 0); lia. }
  destruct (settled_covered io low dlq clock (NewEventBatcher cfg) w k ms s m Hb Hd Hr Hm) as [Ha Ht].
  unfold bindStore. cbn [store_position duck_positions]. rewrite Hn, Href. cbn [Z.ltb Z.compare].
  destruct (Z.leb_spec (floor_consumer b) (pos_Seq (read_position (file (world st)) (DurableName cfg))));
    [done|].
  destruct Hset as [[es He]|He]; [apply Ha in He as [_ He]|apply Ht in He];
    change (DurableName (NewEventBatcher cfg)) with (DurableName cfg) in He; fold st in He; lia.
Qed.

(** ** Witnesses *)

#[local] Existing Instance w_landing_json.

Definition w_worker : collaborators duck_world duck_error :=
  worker_collaborators (fun _ => false) (fun _ => false) (fun _ => false) (fun n => n).

Definition w_world : duck_world := {| file := empty_duckdb; calls := 0 |}.

Definition w_stored : @system duck_world :=
  let b := NewEventBatcher w_cfg in
  stop b w_worker 9 (hand_over b w_worker [w_event] (w_msg 7) (start w_world None)).

Lemma w_stored_run : run (NewEventBatcher w_cfg) w_worker w_world None [w_msg 7] w_stored.
Proof. apply run_stop, run_hand_over, RunStart. Qed.

Lemma w_seq m : m ∈ [w_msg 7] -> 0 <= msg_seq m.
Proof. intros ->%list_elem_of_singleton. simpl. lia. Qed.

Lemma acknowledged_is_durable_witness :
  let st := inner (looping w_stored) in
  let pos := pos_Seq (read_position (file (world st)) "blue") in
  (forall es, AAck (w_msg 7) es ∈ trace st ->
     (forall e, e ∈ es -> event_stored (file (world st)) e) /\ msg_seq (w_msg 7) <= pos) /\
  (ATerm (w_msg 7) ∈ trace st -> msg_seq (w_msg 7) <= pos).
Proof.
  apply (acknowledged_is_durable (fun _ => false) (fun _ => false) (fun _ => false) (fun n => n)
    w_cfg w_world None [w_msg 7] w_stored (w_msg 7)); [discriminate|apply w_seq|apply w_stored_run].
Defined.

Lemma healthy_restart_not_refused_witness :
  bindStore (E := duck_error) false false (w_broker 7 1 7) (boot_process "" "blue")
    (Some (file (world (inner (looping w_stored))))) =
  (boot_process "" "blue", Some (file (world (inner (looping w_stored)))), None).
Proof.
  apply (healthy_restart_not_refused (fun _ => false) (fun _ => false) (fun _ => false) (fun n => n)
    w_cfg w_world None [w_msg 7] w_stored (w_msg 7)).
  - discriminate.
  - reflexivity.
  - apply w_seq.
  - apply w_stored_run.
  - left. exists [w_event]. apply list_elem_of_lookup. exists 0%nat. vm_compute. reflexivity.
  - simpl. lia.
  - vm_compute. reflexivity.
Defined.
