(* ===== verification/SnapshotEnvelope.v ===== *)
(** * SnapshotEnvelope: [internal/dataplane/connector/snapshot.go]

    The wire contract of a sequenced snapshot: one envelope type for batches and
    completions, its validation, the payload digest of a batch and the manifest
    digest of a generation.  Canonical JSON, JSON marshalling of rows and
    SHA-256 are the fields of [SnapshotEnv]; everything around them is the
    code's. *)

From S2P Require Import Prelude GoStrings GoTime.
From stdpp Require Import sorting.
From Stdlib Require Import Ascii.
Import String.
Open Scope string_scope.
Open Scope list_scope.
Open Scope Z_scope.

Record SnapshotRow := { sr_Key : string; sr_Cursor : string; sr_Data : string }.

Record SnapshotEnvelope := {
  Protocol : string; ProjectID : string; ConnectorID : string; Table : string; SyncID : string;
  Generation : string; GenerationSeq : Z; BindingDigest : string; CaptureStartedAt : Z;
  Kind : string; RunID : string; BatchID : string; BatchIndex : Z; PayloadSHA256 : string;
  CaptureFinishedAt : option Z; Rows : list SnapshotRow; ExpectedBatches : Z; ExpectedRows : Z;
  BatchManifestSHA256 : string;
}.

Record SnapshotManifestEntry := {
  me_Index : Z; me_BatchID : string; me_PayloadSHA256 : string; me_RowCount : Z;
}.

Definition SnapshotProtocolV1 : string := "agentray.connector.snapshot.v1".
Definition SnapshotKindBatch : string := "batch".
Definition SnapshotKindComplete : string := "complete".

Class SnapshotEnv := {
  canonicalJSON : string -> option string;
  marshal_rows : list SnapshotRow -> string;
  sha256_hex : string -> string;
}.

Inductive envelope_error :=
| InvalidIdentity | InvalidBatch | RepeatedRowKey | PayloadMismatch | InvalidCompletion
| UnknownKind.

(** Lower-case hexadecimal, 64 bytes. *)
Definition lower_hex (a : ascii) : bool := is_digit a || ((97 <=? byte a) && (byte a <=? 102)).

Definition isSHA256 (raw : string) : bool :=
  Nat.eqb (String.length raw) 64 && negb (exists_byte (fun a => negb (lower_hex a)) raw).

Section Envelope.
Context `{SnapshotEnv}.

(** One row of [CanonicalSnapshotRows]. *)
Definition canonical_row (row : SnapshotRow) : option SnapshotRow :=
  if String.eqb (trim_space (sr_Key row)) "" || negb (String.eqb (sr_Cursor row) "") then None
  else match canonicalJSON (sr_Data row) with
       | None => None
       | Some data => Some {| sr_Key := sr_Key row; sr_Cursor := ""; sr_Data := data |}
       end.

Fixpoint canonical_rows (rows : list SnapshotRow) : option (list SnapshotRow) :=
  match rows with
  | [] => Some []
  | r :: rest =>
      match canonical_row r with
      | None => None
      | Some c => (fun cs => c :: cs) <$> canonical_rows rest
      end
  end.

Definition CanonicalSnapshotRows (rows : list SnapshotRow) : option string :=
  marshal_rows <$> canonical_rows rows.

Definition SnapshotPayloadDigest (rows : list SnapshotRow) : option string :=
  sha256_hex <$> CanonicalSnapshotRows rows.

Definition index_le (a b : SnapshotManifestEntry) : Prop := me_Index a <= me_Index b.

#[export] Instance index_le_dec a b : Decision (index_le a b).
Proof. unfold index_le. apply _. Defined.

(** The line the manifest text holds for one entry. *)
Definition manifest_line (e : SnapshotManifestEntry) : string :=
  itoa (me_Index e) +:+ ":" +:+ me_BatchID e +:+ ":" +:+ me_PayloadSHA256 e +:+ ":" +:+
  itoa (me_RowCount e) +:+ String "010"%char "".

Fixpoint manifest_text (i : Z) (entries : list SnapshotManifestEntry) : option string :=
  match entries with
  | [] => Some ""
  | e :: rest =>
      if negb (me_Index e =? i) || String.eqb (me_BatchID e) "" || negb (isSHA256 (me_PayloadSHA256 e))
         || (me_RowCount e <? 0)
      then None
      else (fun t => manifest_line e +:+ t) <$> manifest_text (i + 1) rest
  end.

(** [sort.Slice] is not stable; entries that compare equal are refused by the
    contiguity test whatever their order. *)
Definition SnapshotManifestDigest (entries : list SnapshotManifestEntry) : option string :=
  sha256_hex <$> manifest_text 0 (merge_sort index_le entries).

(** The duplicate test of [Validate]. *)
Fixpoint repeats_key (rows : list SnapshotRow) (keys : gset string) : bool :=
  match rows with
  | [] => false
  | r :: rest =>
      if bool_decide (sr_Key r ∈ keys) then true else repeats_key rest ({[sr_Key r]} ∪ keys)
  end.

Definition Validate (e : SnapshotEnvelope) : option envelope_error :=
  if negb (String.eqb (Protocol e) SnapshotProtocolV1) || String.eqb (ProjectID e) ""
     || String.eqb (ConnectorID e) "" || String.eqb (Table e) "" || String.eqb (SyncID e) ""
     || String.eqb (RunID e) "" || String.eqb (Generation e) "" || (GenerationSeq e <=? 0)
     || negb (isSHA256 (BindingDigest e)) || time_is_zero (CaptureStartedAt e)
  then Some InvalidIdentity
  else if String.eqb (Kind e) SnapshotKindBatch then
    if String.eqb (BatchID e) "" || (BatchIndex e <? 0) || negb (isSHA256 (PayloadSHA256 e))
       || match CaptureFinishedAt e with Some _ => true | None => false end
       || match Rows e with [] => true | _ => false end
       || negb (ExpectedBatches e =? 0) || negb (ExpectedRows e =? 0)
       || negb (String.eqb (BatchManifestSHA256 e) "")
    then Some InvalidBatch
    else if repeats_key (Rows e) ∅ then Some RepeatedRowKey
    else match SnapshotPayloadDigest (Rows e) with
         | None => Some PayloadMismatch
         | Some digest => if String.eqb digest (PayloadSHA256 e) then None else Some PayloadMismatch
         end
  else if String.eqb (Kind e) SnapshotKindComplete then
    if match CaptureFinishedAt e with
       | None => true
       | Some t => time_before t (CaptureStartedAt e)
       end
       || (ExpectedBatches e <? 0) || (ExpectedRows e <? 0)
       || negb (isSHA256 (BatchManifestSHA256 e))
       || match Rows e with [] => false | _ => true end
       || negb (String.eqb (BatchID e) "") || negb (BatchIndex e =? 0)
       || negb (String.eqb (PayloadSHA256 e) "")
    then Some InvalidCompletion
    else None
  else Some UnknownKind.

(** ** Field discipline of the wire form ([requireSnapshotFields])

    [fields] is the decoded object: what is present, and whether it is null. *)
Definition snapshot_required : list string :=
  ["protocol"; "project_id"; "connector_id"; "table"; "sync_id"; "generation"; "generation_seq";
   "binding_digest"; "capture_started_at"; "kind"; "run_id"].

Definition present (fields : gmap string bool) (null_ok : bool) (name : string) : bool :=
  match fields !! name with
  | None => false
  | Some is_null => null_ok || negb is_null
  end.

Definition requireSnapshotFields (fields : gmap string bool) (kind : string) : bool :=
  forallb (present fields false) snapshot_required &&
  (if String.eqb kind SnapshotKindBatch then
     forallb (fun n => present fields (String.eqb n "capture_finished_at") n)
       ["batch_id"; "batch_index"; "payload_sha256"; "capture_finished_at"; "rows"]
     && forallb (fun n => negb (is_some (fields !! n)))
          ["expected_batches"; "expected_rows"; "batch_manifest_sha256"]
   else if String.eqb kind SnapshotKindComplete then
     forallb (fun n => present fields (String.eqb n "capture_finished_at") n)
       ["expected_batches"; "expected_rows"; "batch_manifest_sha256"; "capture_finished_at"]
     && forallb (fun n => negb (is_some (fields !! n)))
          ["batch_id"; "batch_index"; "payload_sha256"; "rows"]
   else false).

(** ** Lemmas *)

Lemma repeats_key_spec rows keys :
  repeats_key rows keys = false <->
  NoDup (sr_Key <$> rows) /\ forall k, k ∈ sr_Key <$> rows -> k ∉ keys.
Proof.
  revert keys. induction rows as [|r rows IH]; intros keys; simpl.
  - split; [|done]. intros _. split; [constructor|]. intros k Hk. by apply not_elem_of_nil in Hk.
  - case_bool_decide as Hin.
    + split; [done|]. intros [_ Hk]. exfalso. apply (Hk (sr_Key r)); [left|done].
    + rewrite IH, NoDup_cons. split.
      * intros [Hnd Hk]. split; [split; [|done]|].
        -- intros Hr. apply (Hk _ Hr), elem_of_union. left. by apply elem_of_singleton.
        -- intros k [->|Hk']%elem_of_cons; [done|]. intros Hin'. apply (Hk k Hk'), elem_of_union. by right.
      * intros [[Hr Hnd] Hk]. split; [done|]. intros k Hk'.
        assert (k <> sr_Key r) by (intros ->; done).
        rewrite not_elem_of_union, not_elem_of_singleton. split; [done|]. apply Hk. by right.
Qed.

(** The entries of a manifest text are contiguous from its first index. *)
Lemma manifest_text_contiguous i entries :
  is_Some (manifest_text i entries) <->
  (forall n e, entries !! n = Some e -> me_Index e = i + Z.of_nat n /\ me_BatchID e <> "" /\
     isSHA256 (me_PayloadSHA256 e) = true /\ 0 <= me_RowCount e).
Proof.
  revert i. induction entries as [|e rest IH]; intros i; simpl.
  - split; [intros _ n e Hn; by rewrite lookup_nil in Hn|eauto].
  - destruct (_ || _ || _ || _) eqn:Hbad.
    + split; [by intros [? ?]|]. intros Hall. exfalso.
      destruct (Hall 0%nat e eq_refl) as (H1 & H2 & H3 & H4).
      apply String.eqb_neq in H2. rewrite H2, H3 in Hbad. simpl in Hbad.
      apply orb_true_iff in Hbad as [Hbad|Hbad]; bool_props; [|lia].
      apply orb_true_iff in Hbad as [Hbad|?]; [|done].
      apply orb_true_iff in Hbad as [Hbad|?]; [|done]. bool_props. lia.
    + bool_props. rewrite fmap_is_Some, IH. split.
      * intros Hall [|n] x; simpl; [intros [= <-]; split_and!; [lia|done|done|lia]|].
        intros Hx. destruct (Hall n x Hx) as (? & ? & ? & ?). split_and!; [lia|done..].
      * intros Hall n x Hx. destruct (Hall (S n) x Hx) as (? & ? & ? & ?). split_and!; [lia|done..].
Qed.

Lemma sorted_unique_perm (xs ys : list SnapshotManifestEntry) i :
  is_Some (manifest_text i xs) -> is_Some (manifest_text i ys) -> xs ≡ₚ ys -> xs = ys.
Proof.
  revert ys i. induction xs as [|x xs IH]; intros ys i Hx Hy Hp.
  { by apply Permutation_nil in Hp. }
  destruct ys as [|y ys]; [by apply Permutation_nil_r in Hp|].
  assert (x = y) as ->.
  { rewrite manifest_text_contiguous in Hx, Hy.
    assert (Hin : x ∈ y :: ys) by (rewrite <- Hp; left).
    destruct (proj1 (list_elem_of_lookup _ _) Hin) as [n Hn].
    destruct (Hx 0%nat x eq_refl) as [Ex _]. destruct (Hy n x Hn) as [Ey _].
    assert (n = 0%nat) as -> by lia. by injection Hn. }
  f_equal. apply (IH ys (i + 1)); [| |by apply Permutation_cons_inv in Hp].
  - simpl in Hx. destruct (_ || _); [by destruct Hx|]. by apply fmap_is_Some in Hx.
  - simpl in Hy. destruct (_ || _); [by destruct Hy|]. by apply fmap_is_Some in Hy.
Qed.
End Envelope.

(** The entries in their order are what sorting gives. *)
Lemma manifest_sorted l sorted :
  sorted ≡ₚ l -> is_Some (manifest_text 0 sorted) -> merge_sort index_le l = sorted.
Proof.
  intros Hs Ht. assert (Hm : merge_sort index_le l ≡ₚ l) by apply merge_sort_Permutation.
  apply (StronglySorted_unique_strong index_le).
  - intros x y Hx Hy Hxy Hyx. unfold index_le in *.
    rewrite Hm, <- Hs in Hx. rewrite manifest_text_contiguous in Ht.
    apply list_elem_of_lookup in Hx as [n Hn]. apply list_elem_of_lookup in Hy as [m Hm'].
    destruct (Ht n x Hn) as [Ex _], (Ht m y Hm') as [Ey _].
    assert (n = m) as -> by lia. congruence.
  - apply Sorted_StronglySorted; [intros a b c; unfold index_le; lia|].
    apply Sorted_merge_sort. intros a b. unfold index_le. lia.
  - rewrite manifest_text_contiguous in Ht. clear Hs Hm.
    assert (Ht' : forall n e, sorted !! n = Some e -> me_Index e = 0 + Z.of_nat n)
      by (intros n e He; by destruct (Ht n e He)).
    clear Ht. revert Ht'. generalize 0. induction sorted as [|e s IH]; intros i Hi; [constructor|].
    constructor.
    + apply (IH (i + 1)). intros n x Hx. rewrite (Hi (S n) x Hx). lia.
    + apply Forall_lookup. intros n x Hx. unfold index_le.
      rewrite (Hi 0%nat e eq_refl), (Hi (S n) x Hx). lia.
  - by rewrite Hm.
Qed.

Lemma SnapshotManifestDigest_perm `{SnapshotEnv} entries entries' :
  entries ≡ₚ entries' -> SnapshotManifestDigest entries' = SnapshotManifestDigest entries.
Proof.
  intros Hp. unfold SnapshotManifestDigest. f_equal.
  destruct (manifest_text 0 (merge_sort index_le entries)) eqn:E.
  - rewrite (manifest_sorted entries' (merge_sort index_le entries)); [done|by rewrite merge_sort_Permutation|eauto].
  - destruct (manifest_text 0 (merge_sort index_le entries')) eqn:E'; [|done].
    rewrite (manifest_sorted entries (merge_sort index_le entries')) in E; [congruence|by rewrite merge_sort_Permutation|eauto].
Qed.

(** ** Properties *)

(** A manifest has a digest exactly when its entries, in index order, are numbered
    0, 1, 2, ... with non-empty batch ids, well-formed payload digests and
    non-negative row counts; the order the entries are given in does not matter. *)
Theorem SnapshotManifestDigest_spec `{SnapshotEnv} entries entries' :
  entries ≡ₚ entries' ->
  (is_Some (SnapshotManifestDigest entries) <->
     exists sorted, sorted ≡ₚ entries /\
       forall n e, sorted !! n = Some e -> me_Index e = Z.of_nat n /\ me_BatchID e <> "" /\
         isSHA256 (me_PayloadSHA256 e) = true /\ 0 <= me_RowCount e) /\
  SnapshotManifestDigest entries' = SnapshotManifestDigest entries.
Proof.
  intros Hp. split; [|by apply SnapshotManifestDigest_perm].
  unfold SnapshotManifestDigest. rewrite fmap_is_Some. split.
  - intros Hs. exists (merge_sort index_le entries). split; [apply merge_sort_Permutation|].
    by apply (proj1 (manifest_text_contiguous 0 _)).
  - intros (s & Hs & Ht). assert (is_Some (manifest_text 0 s)) by (by apply (proj2 (manifest_text_contiguous 0 s))).
    by rewrite (manifest_sorted entries s).
Qed.

(** What a valid envelope guarantees the store: a complete source identity with a
    positive generation sequence, and, for a batch, a non-negative index and at
    least one row, distinct non-blank row keys and the stated payload digest; for
    a completion, a capture that does not end before it starts, non-negative
    totals and no rows. *)
Theorem Validate_sound `{SnapshotEnv} e :
  Validate e = None ->
  (ProjectID e <> "" /\ ConnectorID e <> "" /\ Table e <> "" /\ SyncID e <> "" /\ RunID e <> "" /\
   Generation e <> "" /\ 0 < GenerationSeq e /\ CaptureStartedAt e <> 0) /\
  ((Kind e = SnapshotKindBatch /\ BatchID e <> "" /\ 0 <= BatchIndex e /\ Rows e <> [] /\
    NoDup (sr_Key <$> Rows e) /\ SnapshotPayloadDigest (Rows e) = Some (PayloadSHA256 e) /\
    (forall r, r ∈ Rows e -> trim_space (sr_Key r) <> "" /\ sr_Cursor r = "")) \/
   (Kind e = SnapshotKindComplete /\ 0 <= ExpectedBatches e /\ 0 <= ExpectedRows e /\ Rows e = [] /\
    exists t, CaptureFinishedAt e = Some t /\ CaptureStartedAt e <= t)).
Proof.
  unfold Validate. destruct (negb _ || _ || _ || _ || _ || _ || _ || _ || _ || _) eqn:Hid; [done|].
  unfold time_is_zero in Hid. bool_props. intros Hk. split; [split_and!; done || lia|].
  destruct (String.eqb (Kind e) SnapshotKindBatch) eqn:Ek; bool_props.
  - left. destruct (_ || _ || _ || _ || _ || _ || _ || _) eqn:Hb; [done|]. bool_props.
    destruct (repeats_key (Rows e) ∅) eqn:Hr; [done|].
    destruct (SnapshotPayloadDigest (Rows e)) as [dg|] eqn:Hd; [|done].
    destruct (String.eqb dg (PayloadSHA256 e)) eqn:Hdg; [|done]. bool_props. subst dg.
    split_and!; try done; try lia.
    + by destruct (Rows e).
    + by apply repeats_key_spec in Hr as [? _].
    + unfold SnapshotPayloadDigest, CanonicalSnapshotRows in Hd.
      destruct (canonical_rows (Rows e)) as [cs|] eqn:Hc; [|done]. clear -Hc. revert cs Hc.
      induction (Rows e) as [|r rows IH]; intros cs Hc x Hx; [by apply not_elem_of_nil in Hx|].
      simpl in Hc. destruct (canonical_row r) as [c|] eqn:Er; [|done].
      destruct (canonical_rows rows) as [cs'|]; [|done].
      apply elem_of_cons in Hx as [->|Hx]; [|by eapply IH].
      unfold canonical_row in Er. destruct (_ || _) eqn:Eb; [done|]. bool_props. done.
  - right. destruct (String.eqb (Kind e) SnapshotKindComplete) eqn:Ek'; [|done]. bool_props.
    destruct (match CaptureFinishedAt e with Some _ => _ | None => _ end || _ || _ || _ || _ || _ || _ || _) eqn:Hb; [done|].
    bool_props. split_and!; try done; try lia.
    + by destruct (Rows e).
    + destruct (CaptureFinishedAt e) as [t|]; [|done]. exists t. split; [done|].
      unfold time_before in *. bool_props. lia.
Qed.

(** ** Witnesses *)

Definition w_sha : string := "aaaaaaaaaaaaaaaaaaaaaaaaaaaaaaaaaaaaaaaaaaaaaaaaaaaaaaaaaaaaaaaa".

(** A concrete digest: constant, of the right shape. *)
Definition w_snapshot_env : SnapshotEnv :=
  {| canonicalJSON := fun s => Some s; marshal_rows := fun _ => "[]"; sha256_hex := fun _ => w_sha |}.
#[local] Existing Instance w_snapshot_env.

Definition w_entry (i : Z) : SnapshotManifestEntry :=
  {| me_Index := i; me_BatchID := "b"; me_PayloadSHA256 := w_sha; me_RowCount := 1 |}.

Lemma SnapshotManifestDigest_spec_witness :
  (is_Some (SnapshotManifestDigest [w_entry 1; w_entry 0]) <->
     exists sorted, sorted ≡ₚ [w_entry 1; w_entry 0] /\
       forall n e, sorted !! n = Some e -> me_Index e = Z.of_nat n /\ me_BatchID e <> "" /\
         isSHA256 (me_PayloadSHA256 e) = true /\ 0 <= me_RowCount e) /\
  SnapshotManifestDigest [w_entry 0; w_entry 1] = SnapshotManifestDigest [w_entry 1; w_entry 0].
Proof.
  apply (SnapshotManifestDigest_spec [w_entry 1; w_entry 0] [w_entry 0; w_entry 1]).
  apply perm_swap.
Defined.

Definition w_snapshot (index : Z) (rows : list SnapshotRow) : SnapshotEnvelope :=
  {| Protocol := SnapshotProtocolV1; ProjectID := "0a1b2c3d-0000-4000-8000-00000000000f";
     ConnectorID := "0a1b2c3d-0000-4000-8000-0000000000aa"; Table := "orders";
     SyncID := "0a1b2c3d-0000-4000-8000-00000000000f";
     Generation := "0a1b2c3d-0000-4000-8000-0000000000bb"; GenerationSeq := 1;
     BindingDigest := w_sha; CaptureStartedAt := 5; Kind := SnapshotKindBatch;
     RunID := "0a1b2c3d-0000-4000-8000-00000000000f"; BatchID := "batch"; BatchIndex := index;
     PayloadSHA256 := w_sha; CaptureFinishedAt := None; Rows := rows; ExpectedBatches := 0;
     ExpectedRows := 0; BatchManifestSHA256 := "" |}.

Definition w_snapshot_row : SnapshotRow := {| sr_Key := "1"; sr_Cursor := ""; sr_Data := "{}" |}.

Lemma Validate_sound_witness :
  let e := w_snapshot 0 [w_snapshot_row] in
  (ProjectID e <> "" /\ ConnectorID e <> "" /\ Table e <> "" /\ SyncID e <> "" /\ RunID e <> "" /\
   Generation e <> "" /\ 0 < GenerationSeq e /\ CaptureStartedAt e <> 0) /\
  ((Kind e = SnapshotKindBatch /\ BatchID e <> "" /\ 0 <= BatchIndex e /\ Rows e <> [] /\
    NoDup (sr_Key <$> Rows e) /\ SnapshotPayloadDigest (Rows e) = Some (PayloadSHA256 e) /\
    (forall r, r ∈ Rows e -> trim_space (sr_Key r) <> "" /\ sr_Cursor r = "")) \/
   (Kind e = SnapshotKindComplete /\ 0 <= ExpectedBatches e /\ 0 <= ExpectedRows e /\ Rows e = [] /\
    exists t, CaptureFinishedAt e = Some t /\ CaptureStartedAt e <= t)).
Proof. apply (Validate_sound (w_snapshot 0 [w_snapshot_row])). vm_compute. reflexivity. Defined.
