(* ===== verification/SnapshotStore.v ===== *)
(** * SnapshotStore: [internal/dataplane/store/duckdb_snapshots.go]

    Staging and promotion of sequenced snapshots.  A batch is staged under its
    generation; a completion states how many batches and rows the generation
    has; when the staged manifest matches, one transaction replaces the source's
    serving rows and records the promotion.

    A text parameter compared with a UUID column is cast by the engine
    ([cast_uuid]); the statements of a transaction that fail abort it. *)

From S2P Require Import Prelude GoStrings GoTime Duck Journal SnapshotEnvelope.
Import String.
Open Scope string_scope.
Open Scope list_scope.
Open Scope Z_scope.

Inductive snapshotPromotionState :=
| snapshotAwaitingPromotion | snapshotPromoted | snapshotAlreadyActive | snapshotSuperseded.

Section Store.
Context `{UuidEnv} `{SnapshotEnv}.

(** The source and the generation an envelope addresses, as the engine sees them. *)
Definition env_key (env : SnapshotEnvelope) : result duck_error (source_key * string) :=
  (try pid := cast_uuid (ProjectID env) in
   try cid := cast_uuid (ConnectorID env) in
   try g := cast_uuid (Generation env) in
   Ok ((pid, cid, Table env), g))%go.

(** ** Staged state *)

Definition staged_batches (d : duckdb) (k : source_key) (g : string) : list (string * snap_batch) :=
  (fun kb => (kb.1.2, kb.2)) <$>
    map_to_list (filter (fun kb : (source_key * string * string) * snap_batch => kb.1.1 = (k, g))
                   (snapshot_batches d)).

Definition staged_rows (d : duckdb) (k : source_key) (g : string) :
    gmap (source_key * string * string) snap_row :=
  filter (fun kr : (source_key * string * string) * snap_row => kr.1.1 = (k, g)) (snapshot_rows d).

Definition row_total (bs : list (string * snap_batch)) : Z :=
  foldr (fun b n => nb_row_count b.2 + n) 0 bs.

Definition identity_matches (env : SnapshotEnvelope) (sync : string) (seq : Z) (binding : string)
    (started : Z) : bool :=
  String.eqb sync (SyncID env) && (seq =? GenerationSeq env)
  && String.eqb binding (BindingDigest env) && (started =? CaptureStartedAt env).

(** Any staged batch answers [LIMIT 1]; without one the completion does. *)
Definition validateSnapshotGenerationIdentity (env : SnapshotEnvelope) (k : source_key) (g : string)
    (d : duckdb) : bool :=
  match staged_batches d k g with
  | (_, b) :: _ =>
      identity_matches env (nb_sync_id b) (nb_generation_seq b) (nb_binding_digest b)
        (nb_capture_started_at b)
  | [] =>
      match snapshot_completions d !! (k, g) with
      | Some c => identity_matches env (nc_sync_id c) (nc_generation_seq c) (nc_binding_digest c)
                    (nc_capture_started_at c)
      | None => true
      end
  end.

(** The rows of one batch, one at a time; a key already staged is refused. *)
Fixpoint insert_snapshot_rows (k : source_key) (g batch : string) (rows : list SnapshotRow)
    (m : gmap (source_key * string * string) snap_row) :
    result duck_error (gmap (source_key * string * string) snap_row) :=
  match rows with
  | [] => Ok m
  | r :: rest =>
      match m !! (k, g, sr_Key r) with
      | Some _ => Err (ErrStagedConflict "rows rejected by staging")
      | None => insert_snapshot_rows k g batch rest
                  (<[(k, g, sr_Key r) := {| nr_batch_id := batch; nr_data := sr_Data r |}]> m)
      end
  end.

(** The staged file, and whether the envelope changed it. *)
Definition stageSnapshotBatch (env : SnapshotEnvelope) (d : duckdb) : result duck_error (duckdb * bool) :=
  (try kg := env_key env in
   let '(k, g) := kg in
   guard validateSnapshotGenerationIdentity env k g d else ErrStagedConflict "generation identity" in
   match snapshot_batches d !! (k, g, BatchID env) with
   | Some b =>
       if negb (nb_index b =? BatchIndex env)
          || negb (String.eqb (nb_payload_sha256 b) (PayloadSHA256 env))
          || negb (nb_row_count b =? Z.of_nat (length (Rows env)))
       then Err (ErrStagedConflict "batch replay")
       else Ok (d, false)
   | None =>
       if existsb (fun b => nb_index b.2 =? BatchIndex env) (staged_batches d k g)
       then Err (ErrStagedConflict "batch index")
       else
         try sync := cast_uuid (SyncID env) in
         try run := cast_uuid (RunID env) in
         try rows := insert_snapshot_rows k g (BatchID env) (Rows env) (snapshot_rows d) in
         let b := {| nb_sync_id := sync; nb_generation_seq := GenerationSeq env;
                     nb_binding_digest := BindingDigest env; nb_index := BatchIndex env;
                     nb_payload_sha256 := PayloadSHA256 env;
                     nb_row_count := Z.of_nat (length (Rows env));
                     nb_capture_started_at := CaptureStartedAt env; nb_run_id := run |} in
         Ok (set_snapshot_rows rows
               (set_snapshot_batches (<[(k, g, BatchID env) := b]> (snapshot_batches d)) d), true)
   end)%go.

Definition stageSnapshotCompletion (env : SnapshotEnvelope) (d : duckdb) : result duck_error (duckdb * bool) :=
  (try kg := env_key env in
   let '(k, g) := kg in
   guard validateSnapshotGenerationIdentity env k g d else ErrStagedConflict "generation identity" in
   match snapshot_completions d !! (k, g) with
   | Some c =>
       if negb (nc_generation_seq c =? GenerationSeq env)
          || negb (nc_expected_batches c =? ExpectedBatches env)
          || negb (nc_expected_rows c =? ExpectedRows env)
          || negb (String.eqb (nc_manifest_sha256 c) (BatchManifestSHA256 env))
          || negb (String.eqb (nc_binding_digest c) (BindingDigest env))
       then Err (ErrStagedConflict "completion replay")
       else Ok (d, false)
   | None =>
       try sync := cast_uuid (SyncID env) in
       try run := cast_uuid (RunID env) in
       let c := {| nc_sync_id := sync; nc_generation_seq := GenerationSeq env;
                   nc_binding_digest := BindingDigest env;
                   nc_expected_batches := ExpectedBatches env; nc_expected_rows := ExpectedRows env;
                   nc_manifest_sha256 := BatchManifestSHA256 env;
                   nc_capture_started_at := CaptureStartedAt env;
                   nc_capture_finished_at := default 0 (CaptureFinishedAt env);
                   nc_run_id := run |} in
       Ok (set_snapshot_completions (<[(k, g) := c]> (snapshot_completions d)) d, true)
   end)%go.

(** ** Promotion *)

Definition sourceReceiptFromSnapshot (env : SnapshotEnvelope) : SourceReceiptMark :=
  let batch := String.eqb (Kind env) SnapshotKindBatch in
  {| s_ProjectID := ProjectID env; s_ConnectorID := ConnectorID env; s_Table := Table env;
     s_SyncID := SyncID env; s_RunID := RunID env; s_Generation := Generation env;
     s_GenerationSeq := u64 (GenerationSeq env); s_BindingDigest := BindingDigest env;
     s_BatchID := if batch then BatchID env else "";
     s_BatchIndex := if batch then Some (u64 (BatchIndex env)) else None;
     s_PayloadSHA256 := if batch then PayloadSHA256 env else "";
     s_ExpectedBatches := if batch then None else Some (u64 (ExpectedBatches env));
     s_ExpectedRows := if batch then None else Some (u64 (ExpectedRows env));
     s_CaptureStartedAt := Some (CaptureStartedAt env);
     s_CaptureFinishedAt := if batch then None else CaptureFinishedAt env;
     s_PublishedAt := None; s_Complete := negb batch; s_Promoted := false |}.

Definition manifest_entry (b : string * snap_batch) : SnapshotManifestEntry :=
  {| me_Index := nb_index b.2; me_BatchID := b.1; me_PayloadSHA256 := nb_payload_sha256 b.2;
     me_RowCount := nb_row_count b.2 |}.

(** The staged rows of a generation as serving rows. *)
Definition promoted_rows (now : Z) (d : duckdb) (k : source_key) (g : string) :
    gmap (source_key * string) external_row :=
  list_to_map ((fun kr : (source_key * string * string) * snap_row =>
      ((k, kr.1.2), {| x_cursor := ""; x_data := nr_data kr.2; x_synced_at := now |})) <$>
    map_to_list (staged_rows d k g)).

(** [DELETE ... WHERE source] and [INSERT ... SELECT]. *)
Definition replace_rows (now : Z) (d : duckdb) (k : source_key) (g : string) :
    gmap (source_key * string) external_row :=
  promoted_rows now d k g ∪
  filter (fun kx : (source_key * string) * external_row => kx.1.1 <> k) (external_rows d).

Definition promotion_of (now : Z) (g : string) (c : snap_completion) : snap_promotion :=
  {| np_sync_id := nc_sync_id c; np_generation := g; np_generation_seq := nc_generation_seq c;
     np_binding_digest := nc_binding_digest c; np_expected_batches := nc_expected_batches c;
     np_expected_rows := nc_expected_rows c; np_manifest_sha256 := nc_manifest_sha256 c;
     np_capture_started_at := nc_capture_started_at c;
     np_capture_finished_at := nc_capture_finished_at c; np_promoted_at := now |}.

(** The mark the fence compares: the envelope's, under the completion's identity. *)
Definition promotion_fence (env : SnapshotEnvelope) (c : snap_completion) : SourceReceiptMark :=
  let s := sourceReceiptFromSnapshot env in
  {| s_ProjectID := s_ProjectID s; s_ConnectorID := s_ConnectorID s; s_Table := s_Table s;
     s_SyncID := s_SyncID s; s_RunID := s_RunID s; s_Generation := s_Generation s;
     s_GenerationSeq := u64 (nc_generation_seq c); s_BindingDigest := s_BindingDigest s;
     s_BatchID := s_BatchID s; s_BatchIndex := s_BatchIndex s; s_PayloadSHA256 := s_PayloadSHA256 s;
     s_ExpectedBatches := s_ExpectedBatches s; s_ExpectedRows := s_ExpectedRows s;
     s_CaptureStartedAt := Some (nc_capture_started_at c);
     s_CaptureFinishedAt := s_CaptureFinishedAt s; s_PublishedAt := s_PublishedAt s;
     s_Complete := s_Complete s; s_Promoted := s_Promoted s |}.

(** Whether the staged batches are the generation the completion describes. *)
Definition manifest_complete (d : duckdb) (k : source_key) (g : string) (c : snap_completion) : bool :=
  let bs := staged_batches d k g in
  (Z.of_nat (length bs) =? nc_expected_batches c) && (row_total bs =? nc_expected_rows c)
  && match SnapshotManifestDigest (manifest_entry <$> bs) with
     | None => false
     | Some digest => String.eqb digest (nc_manifest_sha256 c)
     end.

Definition trySnapshotPromotion (now : Z) (env : SnapshotEnvelope) (d : duckdb) :
    result duck_error (duckdb * snapshotPromotionState * option snap_promotion) :=
  (try kg := env_key env in
   let '(k, g) := kg in
   match snapshot_completions d !! (k, g) with
   | None => Ok (d, snapshotAwaitingPromotion, None)
   | Some c =>
       let proceed :=
         try superseded := sourceReceiptSupersededTx d (promotion_fence env c) in
         if superseded then Ok (d, snapshotSuperseded, None)
         else if negb (manifest_complete d k g c) then Ok (d, snapshotAwaitingPromotion, None)
         else
           let p := promotion_of now g c in
           Ok (set_snapshot_promotions (<[k := p]> (snapshot_promotions d))
                 (set_external_rows (replace_rows now d k g) d), snapshotPromoted, Some p) in
       match snapshot_promotions d !! k with
       | None => proceed
       | Some active =>
           if nc_generation_seq c <=? np_generation_seq active then
             if (np_generation_seq active =? nc_generation_seq c)
                && String.eqb (np_generation active) g
             then Ok (d, snapshotAlreadyActive, Some (promotion_of (np_promoted_at active) g c))
             else Ok (d, snapshotSuperseded, None)
           else proceed
       end
   end)%go.

(** Field updates of marks. *)
Definition with_source (s : option SourceReceiptMark) (suppress : bool) (m : AppliedMark) : AppliedMark :=
  {| m_Durable := m_Durable m; m_Seq := m_Seq m; m_Deliveries := m_Deliveries m; m_Source := s;
     m_SettlementOnly := m_SettlementOnly m; m_suppressSourceMutation := suppress |}.

Definition first_published (ds : list DeliveryReceiptMark) : option Z :=
  match find_first (fun v => is_some (d_PublishedAt v)) ds with
  | Some v => d_PublishedAt v
  | None => None
  end.

Definition with_published (t : option Z) (s : SourceReceiptMark) : SourceReceiptMark :=
  match t with
  | None => s
  | Some _ =>
      {| s_ProjectID := s_ProjectID s; s_ConnectorID := s_ConnectorID s; s_Table := s_Table s;
         s_SyncID := s_SyncID s; s_RunID := s_RunID s; s_Generation := s_Generation s;
         s_GenerationSeq := s_GenerationSeq s; s_BindingDigest := s_BindingDigest s;
         s_BatchID := s_BatchID s; s_BatchIndex := s_BatchIndex s;
         s_PayloadSHA256 := s_PayloadSHA256 s; s_ExpectedBatches := s_ExpectedBatches s;
         s_ExpectedRows := s_ExpectedRows s; s_CaptureStartedAt := s_CaptureStartedAt s;
         s_CaptureFinishedAt := s_CaptureFinishedAt s; s_PublishedAt := t;
         s_Complete := s_Complete s; s_Promoted := s_Promoted s |}
  end.

Definition promoted_source (p : snap_promotion) (s : SourceReceiptMark) : SourceReceiptMark :=
  {| s_ProjectID := s_ProjectID s; s_ConnectorID := s_ConnectorID s; s_Table := s_Table s;
     s_SyncID := s_SyncID s; s_RunID := s_RunID s; s_Generation := s_Generation s;
     s_GenerationSeq := s_GenerationSeq s; s_BindingDigest := s_BindingDigest s;
     s_BatchID := s_BatchID s; s_BatchIndex := s_BatchIndex s;
     s_PayloadSHA256 := s_PayloadSHA256 s;
     s_ExpectedBatches := Some (u64 (np_expected_batches p));
     s_ExpectedRows := Some (u64 (np_expected_rows p));
     s_CaptureStartedAt := s_CaptureStartedAt s;
     s_CaptureFinishedAt := Some (np_capture_finished_at p); s_PublishedAt := s_PublishedAt s;
     s_Complete := true; s_Promoted := true |}.

Definition complete_promoted (s : SourceReceiptMark) : SourceReceiptMark :=
  {| s_ProjectID := s_ProjectID s; s_ConnectorID := s_ConnectorID s; s_Table := s_Table s;
     s_SyncID := s_SyncID s; s_RunID := s_RunID s; s_Generation := s_Generation s;
     s_GenerationSeq := s_GenerationSeq s; s_BindingDigest := s_BindingDigest s;
     s_BatchID := s_BatchID s; s_BatchIndex := s_BatchIndex s;
     s_PayloadSHA256 := s_PayloadSHA256 s; s_ExpectedBatches := s_ExpectedBatches s;
     s_ExpectedRows := s_ExpectedRows s; s_CaptureStartedAt := s_CaptureStartedAt s;
     s_CaptureFinishedAt := s_CaptureFinishedAt s; s_PublishedAt := s_PublishedAt s;
     s_Complete := true; s_Promoted := true |}.

(** [RecordSnapshotPromotionTx]: receipt evidence for a promotion, no deliveries. *)
Definition RecordSnapshotPromotionTx (s : SourceReceiptMark) (at_ : Z) (d : duckdb) : result duck_error duckdb :=
  recordAppliedReceiptsTx
    {| m_Durable := ""; m_Seq := 0; m_Deliveries := []; m_Source := Some (complete_promoted s);
       m_SettlementOnly := false; m_suppressSourceMutation := false |} at_ d.

Definition applySnapshotTransitionTx (now : Z) (env : SnapshotEnvelope) (mark : AppliedMark)
    (envelopeApplied : bool) (d : duckdb) : result duck_error (duckdb * option snap_promotion) :=
  let source := with_published (first_published (m_Deliveries mark)) (sourceReceiptFromSnapshot env) in
  (try t := trySnapshotPromotion now env d in
   let '(d1, state, promotion) := t in
   let d2 := advancePositionTx mark d1 in
   match state, promotion with
   | snapshotPromoted, Some p =>
       try d3 := recordAppliedReceiptsTx
         (with_source None (m_suppressSourceMutation mark) mark) (np_promoted_at p) d2 in
       try d4 := RecordSnapshotPromotionTx (promoted_source p source) (np_promoted_at p) d3 in
       Ok (d4, Some p)
   | _, _ =>
       let suppress := if negb envelopeApplied
                          || match state with snapshotAlreadyActive | snapshotSuperseded => true | _ => false end
                       then true else m_suppressSourceMutation mark in
       try d3 := recordAppliedReceiptsTx (with_source (Some source) suppress mark) now d2 in
       Ok (d3, promotion)
   end)%go.

Definition settleCleanedSnapshotEnvelopeTx (now : Z) (mark : AppliedMark) (d : duckdb) : result duck_error duckdb :=
  let mark := with_source None (m_suppressSourceMutation mark) mark in
  recordAppliedReceiptsTx mark now (advancePositionTx mark d).

(** ** One envelope *)

Definition snapshotBatchMayCompleteGenerationTx (env : SnapshotEnvelope) (d : duckdb) : result duck_error bool :=
  (try kg := env_key env in
   let '(k, g) := kg in
   match snapshot_completions d !! (k, g) with
   | None => Ok false
   | Some c =>
       let counted :=
         let bs := staged_batches d k g in
         (Z.of_nat (length bs) =? nc_expected_batches c) && (row_total bs =? nc_expected_rows c) in
       match snapshot_promotions d !! k with
       | Some p => if GenerationSeq env <=? np_generation_seq p then Ok false else Ok counted
       | None => Ok counted
       end
   end)%go.

Definition generation_active (g : string) (d : duckdb) : bool :=
  existsb (fun kp : source_key * snap_promotion => String.eqb (np_generation kp.2) g)
    (map_to_list (snapshot_promotions d)).

Definition removeStagedSnapshotBatch (env : SnapshotEnvelope) (d : duckdb) : result duck_error duckdb :=
  (try kg := env_key env in
   let '(k, g) := kg in
   if generation_active g d then Ok d
   else
     Ok (set_snapshot_batches (delete (k, g, BatchID env) (snapshot_batches d))
           (set_snapshot_rows
              (filter (fun kr : (source_key * string * string) * snap_row =>
                 ~ (kr.1.1 = (k, g) /\ nr_batch_id kr.2 = BatchID env)) (snapshot_rows d)) d)))%go.

(** Which engine calls of one envelope fail. *)
Record engine_faults := {
  fault_open : bool; fault_stage : bool; fault_checkpoint : bool; fault_promote : bool;
  fault_cleanup : bool; fault_space : bool;
}.

Definition cleaned (env : SnapshotEnvelope) (d : duckdb) : result duck_error bool :=
  (try g := cast_uuid (Generation env) in Ok (bool_decide (g ∈ snapshot_cleanup d)))%go.

(** A completion: one transaction. *)
Definition completion_tx (low_space : bool) (now : Z) (env : SnapshotEnvelope) (mark : AppliedMark)
    (d : duckdb) : result duck_error duckdb :=
  (try gone := cleaned env d in
   if gone then settleCleanedSnapshotEnvelopeTx now mark d
   else guard negb low_space else ErrDataCapacity in
     try st := stageSnapshotCompletion env d in
     let '(d1, applied) := st in
     try t := applySnapshotTransitionTx now env mark applied d1 in
     Ok t.1)%go.

(** The first transaction of a batch: the staged file, whether the batch was
    new, and whether a checkpoint must precede the promotion. *)
Definition batch_tx (low_space : bool) (now : Z) (env : SnapshotEnvelope) (mark : AppliedMark)
    (d : duckdb) : result duck_error (duckdb * bool * bool) :=
  (try gone := cleaned env d in
   if gone then try d1 := settleCleanedSnapshotEnvelopeTx now mark d in Ok (d1, false, false)
   else guard negb low_space else ErrDataCapacity in
     try st := stageSnapshotBatch env d in
     let '(d1, applied) := st in
     try may := snapshotBatchMayCompleteGenerationTx env d1 in
     if may then Ok (d1, applied, true)
     else try t := applySnapshotTransitionTx now env mark applied d1 in Ok (t.1, applied, false))%go.

(** A staged batch whose promotion failed is taken back when this call staged it. *)
Definition rollback_staged (fails applied : bool) (env : SnapshotEnvelope) (e : duck_error) (d : duckdb) :
    duckdb * option duck_error :=
  if applied then ((Write fails (removeStagedSnapshotBatch env) d).1, Some e) else (d, Some e).

Definition applySnapshotBatchEnvelope (f : engine_faults) (now : Z) (env : SnapshotEnvelope)
    (mark : AppliedMark) (d : duckdb) : duckdb * option duck_error :=
  if fault_stage f then (d, Some ErrIO)
  else match batch_tx (fault_space f) now env mark d with
       | Err e => (d, Some e)
       | Ok (d1, _, false) => (d1, None)
       | Ok (d1, applied, true) =>
           if fault_checkpoint f then rollback_staged (fault_cleanup f) applied env ErrIO d1
           else match Write (fault_promote f)
                        (fun x => result_bind (applySnapshotTransitionTx now env mark applied x)
                                    (fun t => Ok t.1)) d1 with
                | (d2, None) => (d2, None)
                | (d2, Some e) => rollback_staged (fault_cleanup f) applied env e d2
                end
       end.

Definition ApplySnapshotEnvelope (f : engine_faults) (now : Z) (env : SnapshotEnvelope)
    (mark : AppliedMark) (d : duckdb) : duckdb * option duck_error :=
  match Validate env with
  | Some _ => (d, Some (ErrEnvelope "invalid"))
  | None =>
      if fault_open f then (d, Some ErrIO)
      else if String.eqb (Kind env) SnapshotKindBatch then applySnapshotBatchEnvelope f now env mark d
      else Write (fault_promote f) (completion_tx (fault_space f) now env mark) d
  end.

(** ** Cleanup of one terminal generation, a chunk at a time *)

(** The chunk the engine picks: [limit] staged rows of the generation. *)
Definition rows_of_generation (g : string) (d : duckdb) : list (source_key * string * string) :=
  (filter (fun k : source_key * string * string => k.1.2 = g) (map_to_list (snapshot_rows d)).*1).

Definition delete_staging_chunk_tx (sealed : bool) (k : source_key) (seq : Z) (g : string) (limit : nat)
    (d : duckdb) : result duck_error duckdb :=
  (try g := cast_uuid g in
   if generation_active g d then Ok d
   else if sealed && negb (match snapshot_promotions d !! k with
                           | Some p => seq <? np_generation_seq p
                           | None => false
                           end) then Ok d
   else
     let d1 := set_snapshot_rows
       (foldr delete (snapshot_rows d) (take limit (rows_of_generation g d))) d in
     match rows_of_generation g d1 with
     | _ :: _ => Ok d1
     | [] =>
         let d2 := set_snapshot_batches
           (filter (fun kb : (source_key * string * string) * snap_batch => kb.1.1.2 <> g)
              (snapshot_batches d1)) d1 in
         let d3 := set_snapshot_completions
           (filter (fun kc : (source_key * string) * snap_completion => kc.1.2 <> g)
              (snapshot_completions d2)) d2 in
         Ok (set_snapshot_cleanup ({[g]} ∪ snapshot_cleanup d3) d3)
     end)%go.

Definition deleteSnapshotStagingChunk (io sealed : bool) (k : source_key) (seq : Z) (g : string)
    (limit : nat) : duckdb -> duckdb * option duck_error :=
  Write io (delete_staging_chunk_tx sealed k seq g limit).

End Store.

(** ** Lemmas *)

Section StoreLemmas.
Context `{UuidEnv} `{SnapshotEnv}.

(** Unfolds one [try] of a transaction. *)
Ltac tx_step :=
  match goal with
  | H : result_bind ?r _ = Ok _ |- _ =>
      let E := fresh "E" in destruct r eqn:E; cbn [result_bind] in H; [|discriminate H]
  end.

(** The serving side: rows and promotions. *)
Definition same_serving (d d' : duckdb) : Prop :=
  external_rows d' = external_rows d /\ snapshot_promotions d' = snapshot_promotions d.

Definition same_staged (d d' : duckdb) : Prop :=
  snapshot_batches d' = snapshot_batches d /\ snapshot_rows d' = snapshot_rows d /\
  snapshot_completions d' = snapshot_completions d /\ snapshot_cleanup d' = snapshot_cleanup d.

Lemma same_serving_trans d1 d2 d3 : same_serving d1 d2 -> same_serving d2 d3 -> same_serving d1 d3.
Proof. intros [? ?] [? ?]. split; congruence. Qed.

Lemma same_staged_trans d1 d2 d3 : same_staged d1 d2 -> same_staged d2 d3 -> same_staged d1 d3.
Proof. intros (?&?&?&?) (?&?&?&?). repeat split; congruence. Qed.

Lemma receipts_serving mark at_ d d' :
  recordAppliedReceiptsTx mark at_ d = Ok d' -> same_serving d d' /\ same_staged d d'.
Proof.
  intros Hr. apply recordAppliedReceipts_frame in Hr as [(_ & _ & X) (B & R & C & P & G)].
  repeat split; congruence.
Qed.

Lemma advance_serving mark d :
  same_serving d (advancePositionTx mark d) /\ same_staged d (advancePositionTx mark d).
Proof. unfold advancePositionTx. by destruct (String.eqb (m_Durable mark) ""). Qed.

Lemma manifest_complete_staged d d' k g c :
  same_staged d d' -> manifest_complete d' k g c = manifest_complete d k g c.
Proof. intros (Hb & _). unfold manifest_complete, staged_batches. by rewrite Hb. Qed.

Definition served (now : Z) (r : snap_row) : external_row :=
  {| x_cursor := ""; x_data := nr_data r; x_synced_at := now |}.

(** The rows [INSERT ... SELECT] produces; no key comes twice. *)
Definition promoted_list (now : Z) (d : duckdb) (k : source_key) (g : string) :
    list ((source_key * string) * external_row) :=
  (fun kr : (source_key * string * string) * snap_row => ((k, kr.1.2), served now kr.2)) <$>
    map_to_list (staged_rows d k g).

Lemma promoted_list_keys now d k g : NoDup (promoted_list now d k g).*1.
Proof.
  unfold promoted_list. rewrite <- list_fmap_compose.
  apply NoDup_fmap_2_strong; [|apply NoDup_map_to_list].
  intros [[kg ky] r] [[kg' ky'] r'] Hx Hy [= Hk]. simpl in *.
  apply elem_of_map_to_list, map_lookup_filter_Some in Hx as [Hx Ex].
  apply elem_of_map_to_list, map_lookup_filter_Some in Hy as [Hy Ey]. simpl in *. subst. congruence.
Qed.

Lemma promoted_list_in now d k g x v :
  (x, v) ∈ promoted_list now d k g <-> exists r, x = (k, x.2) /\ v = served now r /\
    snapshot_rows d !! (k, g, x.2) = Some r.
Proof.
  unfold promoted_list. rewrite list_elem_of_fmap. split.
  - intros ([kk r] & [= -> ->] & Hm). simpl. apply elem_of_map_to_list, map_lookup_filter_Some in Hm as [Hm E].
    simpl in E. exists r. destruct kk as [kg ky]. simpl in *. by subst.
  - intros (r & Ex & -> & Hr). exists ((k, g, x.2), r). simpl. rewrite <- Ex. split; [done|].
    apply elem_of_map_to_list, map_lookup_filter_Some. done.
Qed.

Lemma promoted_rows_list now d k g :
  promoted_rows now d k g = list_to_map (promoted_list now d k g).
Proof. done. Qed.

Lemma promoted_rows_lookup now d k g k' key :
  promoted_rows now d k g !! (k', key) =
  if decide (k' = k) then served now <$> snapshot_rows d !! (k, g, key) else None.
Proof.
  rewrite promoted_rows_list. apply option_eq. intros v.
  rewrite <- elem_of_list_to_map by apply promoted_list_keys. rewrite promoted_list_in. simpl.
  destruct (decide (k' = k)) as [->|Hne].
  - rewrite fmap_Some. split; [intros (r & _ & -> & Hr); eauto|intros (r & Hr & ->); eauto].
  - split; [|done]. intros (r & [= ?] & _). done.
Qed.

Lemma promoted_rows_size now d k g : size (promoted_rows now d k g) = size (staged_rows d k g).
Proof.
  rewrite promoted_rows_list, map_size_list_to_map by apply promoted_list_keys.
  unfold promoted_list. rewrite length_fmap. apply length_map_to_list.
Qed.

Lemma replace_rows_lookup now d k g k' key :
  replace_rows now d k g !! (k', key) =
  if decide (k' = k) then served now <$> snapshot_rows d !! (k, g, key)
  else external_rows d !! (k', key).
Proof.
  unfold replace_rows. rewrite lookup_union, promoted_rows_lookup, map_lookup_filter.
  destruct (decide (k' = k)) as [->|Hne].
  - destruct (external_rows d !! (k, key)) as [x|]; simpl; [|by rewrite (right_id_L None _)].
    case_guard; [done|]. by rewrite (right_id_L None _).
  - rewrite (left_id_L None _). destruct (external_rows d !! (k', key)) as [x|]; simpl; [|done].
    by case_guard.
Qed.

(** A promotion of generation [g] of source [k], from [d] to [d']. *)
Definition published (now : Z) (k : source_key) (g : string) (d d' : duckdb) : Prop :=
  exists c, snapshot_completions d' !! (k, g) = Some c /\ manifest_complete d' k g c = true /\
    (forall a, snapshot_promotions d !! k = Some a -> np_generation_seq a < nc_generation_seq c) /\
    snapshot_promotions d' = <[k := promotion_of now g c]> (snapshot_promotions d) /\
    forall k' key, external_rows d' !! (k', key) =
      if decide (k' = k) then served now <$> snapshot_rows d' !! (k, g, key)
      else external_rows d !! (k', key).

Lemma published_after now k g d d1 d2 :
  published now k g d d1 -> same_serving d1 d2 -> same_staged d1 d2 -> published now k g d d2.
Proof.
  intros (c & Hc & Hm & Hs & Hp & Hx) [X P] Hst. exists c. pose proof Hst as (_ & R & C & _).
  split_and!; [by rewrite C|by rewrite (manifest_complete_staged _ _ _ _ _ Hst)|done|congruence|].
  intros k' key. by rewrite X, R, Hx.
Qed.

Lemma published_before now k g d d1 d2 :
  same_serving d d1 -> published now k g d1 d2 -> published now k g d d2.
Proof.
  intros [X P] (c & Hc & Hm & Hs & Hp & Hx). exists c. rewrite <- P, <- X. split_and!; done.
Qed.

(** The part of a promotion attempt past the comparison with the active one. *)
Lemma promotion_proceeds now env d k g c d' st p :
  env_key env = Ok (k, g) -> snapshot_completions d !! (k, g) = Some c ->
  (forall a, snapshot_promotions d !! k = Some a -> np_generation_seq a < nc_generation_seq c) ->
  result_bind (sourceReceiptSupersededTx d (promotion_fence env c)) (fun superseded : bool =>
    if superseded then Ok (d, snapshotSuperseded, None)
    else if negb (manifest_complete d k g c) then Ok (d, snapshotAwaitingPromotion, None)
    else Ok (set_snapshot_promotions (<[k := promotion_of now g c]> (snapshot_promotions d))
               (set_external_rows (replace_rows now d k g) d), snapshotPromoted,
             Some (promotion_of now g c))) = Ok (d', st, p) ->
  match st with
  | snapshotPromoted => same_staged d d' /\ exists k g, env_key env = Ok (k, g) /\ published now k g d d'
  | _ => d' = d
  end.
Proof.
  intros Hk Ec Hseq Hr. tx_step. destruct a; [by injection Hr as <- <- <-|].
  destruct (manifest_complete d k g c) eqn:Em; [|by injection Hr as <- <- <-].
  injection Hr as <- <- <-. split; [done|]. exists k, g. split; [done|].
  exists c. split_and!; [done|exact Em|done|done|]. intros k' key. exact (replace_rows_lookup now d k g k' key).
Qed.

Lemma trySnapshotPromotion_spec now env d d' st p :
  trySnapshotPromotion now env d = Ok (d', st, p) ->
  match st with
  | snapshotPromoted => same_staged d d' /\ exists k g, env_key env = Ok (k, g) /\ published now k g d d'
  | _ => d' = d
  end.
Proof.
  unfold trySnapshotPromotion. intros Ht. destruct (env_key env) as [[k g]|] eqn:Hk; [|done].
  cbn [result_bind] in Ht.
  destruct (snapshot_completions d !! (k, g)) as [c|] eqn:Ec; [|by injection Ht as <- <- <-].
  destruct (snapshot_promotions d !! k) as [a|] eqn:Ea.
  - destruct (Z.leb_spec (nc_generation_seq c) (np_generation_seq a)).
    + destruct (_ && _); by injection Ht as <- <- <-.
    + rewrite <- Hk. eapply promotion_proceeds; eauto. intros ? Ha. congruence.
  - rewrite <- Hk. eapply promotion_proceeds; eauto. intros ? Ha. congruence.
Qed.

Definition publishes (now : Z) (env : SnapshotEnvelope) (d d' : duckdb) : Prop :=
  exists k g, env_key env = Ok (k, g) /\ published now k g d d'.

(** The serving side is as it was, or it is the envelope's generation. *)
Definition serves (now : Z) (env : SnapshotEnvelope) (d d' : duckdb) : Prop :=
  same_serving d d' \/ publishes now env d d'.

Lemma publishes_after now env d d1 d2 :
  publishes now env d d1 -> same_serving d1 d2 -> same_staged d1 d2 -> publishes now env d d2.
Proof. intros (k & g & Hk & Hp) Hs Ht. exists k, g. split; [done|]. by eapply published_after. Qed.

Lemma serves_before now env d d1 d2 : same_serving d d1 -> serves now env d1 d2 -> serves now env d d2.
Proof.
  intros Hs [Hk|(k & g & Hk & Hp)]; [left; by eapply same_serving_trans|].
  right. exists k, g. split; [done|]. by eapply published_before.
Qed.

Lemma applySnapshotTransition_spec now env mark applied d d' p :
  applySnapshotTransitionTx now env mark applied d = Ok (d', p) ->
  same_staged d d' /\ serves now env d d'.
Proof.
  unfold applySnapshotTransitionTx, RecordSnapshotPromotionTx. intros Ht. tx_step. destruct a as [[d1 st] pr].
  pose proof (advance_serving mark d1) as [As At].
  pose proof (trySnapshotPromotion_spec _ _ _ _ _ _ E) as Hp.
  destruct st, pr as [q|];
    repeat (tx_step; match goal with H : recordAppliedReceiptsTx _ _ _ = Ok _ |- _ => apply receipts_serving in H end);
    injection Ht as <- <-; destruct_and?; try subst d1;
    (split; [eauto 6 using same_staged_trans|]); try (left; by eauto using same_serving_trans);
    right; (eapply publishes_after; [eassumption|..]); eauto using same_serving_trans, same_staged_trans.
Qed.

Lemma settleCleaned_serving now mark d d' :
  settleCleanedSnapshotEnvelopeTx now mark d = Ok d' -> same_serving d d' /\ same_staged d d'.
Proof.
  unfold settleCleanedSnapshotEnvelopeTx. intros Hr. apply receipts_serving in Hr as [? ?].
  match goal with H : same_serving (advancePositionTx ?m _) _ |- _ => pose proof (advance_serving m d) as [? ?] end.
  eauto using same_serving_trans, same_staged_trans.
Qed.

Lemma stageSnapshotBatch_serving env d d' b :
  stageSnapshotBatch env d = Ok (d', b) -> same_serving d d'.
Proof.
  unfold stageSnapshotBatch. intros Hs. tx_step. destruct a as [k g].
  destruct (validateSnapshotGenerationIdentity _ _ _ _); [|done].
  destruct (snapshot_batches d !! _) as [x|].
  - destruct (_ || _); [done|]. by injection Hs as <- <-.
  - destruct (existsb _ _); [done|]. repeat tx_step. by injection Hs as <- <-.
Qed.

Lemma stageSnapshotCompletion_serving env d d' b :
  stageSnapshotCompletion env d = Ok (d', b) -> same_serving d d'.
Proof.
  unfold stageSnapshotCompletion. intros Hs. tx_step. destruct a as [k g].
  destruct (validateSnapshotGenerationIdentity _ _ _ _); [|done].
  destruct (snapshot_completions d !! _) as [x|].
  - destruct (_ || _); [done|]. by injection Hs as <- <-.
  - repeat tx_step. by injection Hs as <- <-.
Qed.

Lemma removeStaged_serving io env d : same_serving d (Write io (removeStagedSnapshotBatch env) d).1.
Proof.
  unfold Write, removeStagedSnapshotBatch. destruct io; [done|].
  destruct (env_key env) as [[k g]|]; [|done]. cbn [result_bind].
  by destruct (generation_active g d).
Qed.

Lemma rollback_serving fails applied env e d d' r :
  rollback_staged fails applied env e d = (d', r) -> same_serving d d' /\ r = Some e.
Proof.
  unfold rollback_staged. destruct applied; [|by intros [= <- <-]].
  pose proof (removeStaged_serving fails env d) as Hs.
  destruct (Write _ _ _) as [x y]. by intros [= <- <-].
Qed.

Lemma batch_tx_serves low now env mark d d' a may :
  batch_tx low now env mark d = Ok (d', a, may) ->
  if may then same_serving d d' else serves now env d d'.
Proof.
  unfold batch_tx. intros Hb. tx_step. destruct a0.
  - tx_step. injection Hb as <- <- <-. left. by eapply settleCleaned_serving.
  - destruct low; [done|]. cbn [negb] in Hb. tx_step. destruct a0 as [d1 applied].
    apply stageSnapshotBatch_serving in E0. tx_step. destruct a0.
    + by injection Hb as <- <- <-.
    + tx_step. destruct a0 as [d2 p]. injection Hb as <- <- <-.
      apply applySnapshotTransition_spec in E2 as [_ Hs]. by eapply serves_before.
Qed.

Lemma completion_tx_serves low now env mark d d' :
  completion_tx low now env mark d = Ok d' -> serves now env d d'.
Proof.
  unfold completion_tx. intros Hb. tx_step. destruct a.
  - left. by eapply settleCleaned_serving.
  - destruct low; [done|]. cbn [negb] in Hb. tx_step. destruct a as [d1 applied].
    apply stageSnapshotCompletion_serving in E0. tx_step. destruct a as [d2 p]. injection Hb as <-.
    apply applySnapshotTransition_spec in E1 as [_ Hs]. by eapply serves_before.
Qed.
End StoreLemmas.

(** ** Properties *)

(** C3: a snapshot is published all at once.  Whatever the engine refuses and
    wherever [ApplySnapshotEnvelope] stops, the serving rows and the
    promotions are either exactly what they were, or the call succeeded and
    the rows of the envelope's source are the staged rows of one complete
    generation: its staged manifest matches its completion, it is newer than
    the promotion it replaces, and no other source's rows changed. *)
Theorem snapshot_publication_atomic `{UuidEnv} `{SnapshotEnv} f now env mark d d' e :
  ApplySnapshotEnvelope f now env mark d = (d', e) ->
  same_serving d d' \/ (e = None /\ publishes now env d d').
Proof.
  unfold ApplySnapshotEnvelope, applySnapshotBatchEnvelope.
  destruct (Validate env); [intros [= <- <-]; by left|].
  destruct (fault_open f); [intros [= <- <-]; by left|].
  destruct (String.eqb _ _).
  - destruct (fault_stage f); [intros [= <- <-]; by left|].
    destruct (batch_tx _ _ _ _ _) as [[[d1 a] may]|] eqn:Eb; [|intros [= <- <-]; by left].
    apply batch_tx_serves in Eb. destruct may.
    + destruct (fault_checkpoint f).
      { intros Hr. apply rollback_serving in Hr as [Hr _]. left. by eapply same_serving_trans. }
      destruct (Write _ _ d1) as [d2 [x|]] eqn:Ew; intros Hr.
      * apply Write_error in Ew as ->. apply rollback_serving in Hr as [Hr _].
        left. by eapply same_serving_trans.
      * injection Hr as <- <-. apply Write_ok in Ew as [_ Ew].
        destruct (applySnapshotTransitionTx _ _ _ _ _) as [[d3 p]|] eqn:Et; [|done].
        injection Ew as <-. apply applySnapshotTransition_spec in Et as [_ Et].
        destruct (serves_before _ _ _ _ _ Eb Et); auto.
    + intros [= <- <-]. destruct Eb; auto.
  - intros Hw. destruct e as [x|].
    + apply Write_error in Hw as ->. by left.
    + apply Write_ok in Hw as [_ Hw]. apply completion_tx_serves in Hw as [?|?]; auto.
Qed.


(** ** Witnesses *)

#[local] Existing Instance w_snapshot_env.

Definition no_faults : engine_faults :=
  {| fault_open := false; fault_stage := false; fault_checkpoint := false; fault_promote := false;
     fault_cleanup := false; fault_space := false |}.

Definition w_complete : SnapshotEnvelope :=
  {| Protocol := SnapshotProtocolV1; ProjectID := w_uuid; ConnectorID := w_uuid2; Table := "orders";
     SyncID := w_uuid; Generation := "0a1b2c3d-0000-4000-8000-0000000000bb"; GenerationSeq := 1;
     BindingDigest := w_sha; CaptureStartedAt := 5; Kind := SnapshotKindComplete; RunID := w_uuid;
     BatchID := ""; BatchIndex := 0; PayloadSHA256 := ""; CaptureFinishedAt := Some 6; Rows := [];
     ExpectedBatches := 1; ExpectedRows := 1; BatchManifestSHA256 := w_sha |}.

(** The batch staged, its generation not complete yet. *)
Definition w_staged_db : duckdb :=
  (ApplySnapshotEnvelope no_faults 10 (w_snapshot 0 [w_snapshot_row]) (w_mark true None) empty_duckdb).1.

Definition w_promotion : duckdb * option duck_error :=
  ApplySnapshotEnvelope no_faults 20 w_complete (w_mark true None) w_staged_db.

Lemma snapshot_publication_atomic_witness :
  is_some (snapshot_promotions w_promotion.1 !! (w_uuid, w_uuid2, "orders")) = true /\
  (same_serving w_staged_db w_promotion.1 \/
   (w_promotion.2 = None /\ publishes 20 w_complete w_staged_db w_promotion.1)).
Proof.
  split; [vm_compute; reflexivity|].
  apply (snapshot_publication_atomic no_faults 20 w_complete (w_mark true None)).
  exact (surjective_pairing w_promotion).
Defined.
