(* ===== verification/SnapshotEvidence.v ===== *)
(** * SnapshotEvidence: what a settled snapshot envelope left in the file

    [ApplySnapshotEnvelope] of [SnapshotStore] answers without an error when the
    envelope's generation was cleaned up before, or when the envelope is staged:
    a batch under its identity with the rows it carried, a completion with its
    counts and digest.  Then the promotion was attempted: a generation whose
    staged manifest matches its completion is promoted unless a newer one is, or
    a receipt of a newer capture fences it off. *)

From S2P Require Import Prelude GoStrings GoTime Duck Journal SnapshotEnvelope SnapshotStore.
Import String.
Open Scope string_scope.
Open Scope list_scope.
Open Scope Z_scope.

Section Evidence.
Context `{UuidEnv} `{SnapshotEnv}.

(** The envelope's own record among the staged ones. *)
Definition envelope_staged (env : SnapshotEnvelope) (k : source_key) (g : string) (d : duckdb) : Prop :=
  if String.eqb (Kind env) SnapshotKindBatch then
    exists b, snapshot_batches d !! (k, g, BatchID env) = Some b /\ nb_index b = BatchIndex env /\
      nb_payload_sha256 b = PayloadSHA256 env /\ nb_row_count b = Z.of_nat (length (Rows env))
  else
    exists c, snapshot_completions d !! (k, g) = Some c /\ nc_generation_seq c = GenerationSeq env /\
      nc_expected_batches c = ExpectedBatches env /\ nc_expected_rows c = ExpectedRows env /\
      nc_manifest_sha256 c = BatchManifestSHA256 env /\ nc_binding_digest c = BindingDigest env.

(** Every row the envelope carries is staged with its data under its batch. *)
Definition rows_staged (env : SnapshotEnvelope) (k : source_key) (g : string) (d : duckdb) : Prop :=
  forall r, r ∈ Rows env ->
    snapshot_rows d !! (k, g, sr_Key r) = Some {| nr_batch_id := BatchID env; nr_data := sr_Data r |}.

(** The batch is not in the file, or its rows are. *)
Definition batch_whole (env : SnapshotEnvelope) (d : duckdb) : Prop :=
  forall k g, env_key env = Ok (k, g) -> is_Some (snapshot_batches d !! (k, g, BatchID env)) ->
    rows_staged env k g d.

(** The promotion the staged manifest calls for happened, or is not for this
    generation any more.  [d] is the file the decision was taken on. *)
Definition promotion_settled (env : SnapshotEnvelope) (k : source_key) (g : string) (d d' : duckdb) : Prop :=
  forall c, snapshot_completions d' !! (k, g) = Some c -> manifest_complete d' k g c = true ->
    (exists p, snapshot_promotions d' !! k = Some p /\ nc_generation_seq c <= np_generation_seq p) \/
    sourceReceiptSupersededTx d (promotion_fence env c) = Ok true.

(** What [d'] holds once the envelope is settled over [d]. *)
Definition snapshot_evidence (env : SnapshotEnvelope) (d d' : duckdb) : Prop :=
  (exists g, cast_uuid (Generation env) = Ok g /\ g ∈ snapshot_cleanup d') \/
  exists k g, env_key env = Ok (k, g) /\ envelope_staged env k g d' /\
    (String.eqb (Kind env) SnapshotKindBatch = true -> batch_whole env d -> rows_staged env k g d') /\
    promotion_settled env k g d d'.

(** Unfolds one [try] of a transaction. *)
Local Ltac tx_step :=
  match goal with
  | H : result_bind ?r _ = Ok _ |- _ =>
      let E := fresh "E" in destruct r eqn:E; cbn [result_bind] in H; [|discriminate H]
  end.

Lemma insert_snapshot_rows_ok k g batch rows m m' :
  insert_snapshot_rows k g batch rows m = Ok m' ->
  (forall x v, m !! x = Some v -> m' !! x = Some v) /\
  forall r, r ∈ rows -> m' !! (k, g, sr_Key r) = Some {| nr_batch_id := batch; nr_data := sr_Data r |}.
Proof.
  revert m. induction rows as [|r rows IH]; intros m; simpl.
  { intros [= <-]. split; [done|]. intros r Hr. by apply not_elem_of_nil in Hr. }
  destruct (m !! (k, g, sr_Key r)) eqn:E; [done|]. intros [K R]%IH. split.
  - intros x v Hx. apply K. rewrite lookup_insert_ne; [done|]. intros <-. congruence.
  - intros r' [->|Hr']%elem_of_cons; [|by apply R]. apply K. by rewrite lookup_insert_eq.
Qed.

Lemma stageSnapshotBatch_stages env d d' b :
  String.eqb (Kind env) SnapshotKindBatch = true -> stageSnapshotBatch env d = Ok (d', b) ->
  receipt_sources d' = receipt_sources d /\ (batch_whole env d -> batch_whole env d') /\
  exists k g, env_key env = Ok (k, g) /\ envelope_staged env k g d'.
Proof.
  intros Hk. unfold stageSnapshotBatch. intros Hs. destruct (env_key env) as [[k g]|] eqn:E; [|done].
  cbn [result_bind] in Hs. destruct (validateSnapshotGenerationIdentity _ _ _ _); [|done].
  destruct (snapshot_batches d !! _) as [x|] eqn:Ex.
  - destruct (_ || _) eqn:Em; [done|]. injection Hs as <- <-. split_and!; [done..|].
    exists k, g. split; [done|]. unfold envelope_staged. rewrite Hk. exists x. bool_props.
    by split_and!.
  - destruct (existsb _ _); [done|]. repeat tx_step. injection Hs as <- <-.
    match goal with Hr : insert_snapshot_rows _ _ _ _ _ = Ok _ |- _ =>
      apply insert_snapshot_rows_ok in Hr as [_ Hr] end.
    split_and!; [done| |].
    + intros _ k' g' Hkg _ r Hr. rewrite E in Hkg. injection Hkg as <- <-. simpl. auto.
    + exists k, g. split; [done|]. unfold envelope_staged. rewrite Hk. simpl.
      rewrite lookup_insert_eq. eauto 6.
Qed.

Lemma stageSnapshotCompletion_stages env d d' b :
  String.eqb (Kind env) SnapshotKindBatch = false -> stageSnapshotCompletion env d = Ok (d', b) ->
  receipt_sources d' = receipt_sources d /\ exists k g, env_key env = Ok (k, g) /\ envelope_staged env k g d'.
Proof.
  intros Hk. unfold stageSnapshotCompletion. intros Hs. destruct (env_key env) as [[k g]|] eqn:E; [|done].
  cbn [result_bind] in Hs. destruct (validateSnapshotGenerationIdentity _ _ _ _); [|done].
  destruct (snapshot_completions d !! _) as [x|] eqn:Ex.
  - destruct (_ || _) eqn:Em; [done|]. injection Hs as <- <-. split; [done|].
    exists k, g. split; [done|]. unfold envelope_staged. rewrite Hk. exists x. bool_props.
    by split_and!.
  - repeat tx_step. injection Hs as <- <-. split; [done|]. exists k, g. split; [done|].
    unfold envelope_staged. rewrite Hk. simpl. rewrite lookup_insert_eq. eauto 8.
Qed.

Lemma envelope_staged_after env k g d d' :
  same_staged d d' -> envelope_staged env k g d -> envelope_staged env k g d'.
Proof. intros (B & _ & C & _). unfold envelope_staged. by rewrite B, C. Qed.

Lemma batch_whole_after env d d' : same_staged d d' -> batch_whole env d -> batch_whole env d'.
Proof. intros (B & R & _). unfold batch_whole, rows_staged. by rewrite B, R. Qed.

Lemma superseded_on_sources d d' s :
  receipt_sources d' = receipt_sources d -> sourceReceiptSupersededTx d' s = sourceReceiptSupersededTx d s.
Proof. unfold sourceReceiptSupersededTx. by intros ->. Qed.

Lemma trySnapshotPromotion_settles now env k g d d' st p :
  env_key env = Ok (k, g) -> trySnapshotPromotion now env d = Ok (d', st, p) ->
  promotion_settled env k g d d'.
Proof.
  intros Hk Ht c Hc Hm.
  assert (Hst : same_staged d d').
  { pose proof (trySnapshotPromotion_spec _ _ _ _ _ _ Ht) as Hs.
    destruct st; [by subst|by destruct Hs as [Hs _]|by subst|by subst]. }
  pose proof Hst as (_ & _ & HC & _). rewrite HC in Hc.
  rewrite (manifest_complete_staged _ _ _ _ _ Hst) in Hm.
  unfold trySnapshotPromotion in Ht. rewrite Hk in Ht. cbn [result_bind] in Ht. rewrite Hc in Ht.
  assert (Hgo : result_bind (sourceReceiptSupersededTx d (promotion_fence env c)) (fun superseded : bool =>
      if superseded then Ok (d, snapshotSuperseded, None)
      else if negb (manifest_complete d k g c) then Ok (d, snapshotAwaitingPromotion, None)
      else Ok (set_snapshot_promotions (<[k := promotion_of now g c]> (snapshot_promotions d))
                 (set_external_rows (replace_rows now d k g) d), snapshotPromoted,
               Some (promotion_of now g c))) = Ok (d', st, p) ->
    (exists p, snapshot_promotions d' !! k = Some p /\ nc_generation_seq c <= np_generation_seq p) \/
    sourceReceiptSupersededTx d (promotion_fence env c) = Ok true).
  { intros Hr. tx_step. destruct a; [by right|]. rewrite Hm in Hr. cbn [negb] in Hr.
    injection Hr as <- _ _. left. eexists. split; [apply lookup_insert_eq|]. simpl. lia. }
  destruct (snapshot_promotions d !! k) as [a|] eqn:Ea; [|by apply Hgo].
  destruct (Z.leb_spec (nc_generation_seq c) (np_generation_seq a)); [|by apply Hgo].
  left. exists a. split; [|done]. destruct (_ && _); by injection Ht as <- _ _.
Qed.

Lemma transition_settles now env mark applied k g d d' p :
  env_key env = Ok (k, g) -> applySnapshotTransitionTx now env mark applied d = Ok (d', p) ->
  same_staged d d' /\ promotion_settled env k g d d'.
Proof.
  intros Hk Ht. split; [by eapply applySnapshotTransition_spec|].
  unfold applySnapshotTransitionTx, RecordSnapshotPromotionTx in Ht. tx_step. destruct a as [[d1 st] pr].
  pose proof (advance_serving mark d1) as [[As1 As2] At].
  apply (trySnapshotPromotion_settles _ _ k g) in E; [|done].
  assert (Hafter : same_serving d1 d' /\ same_staged d1 d' -> promotion_settled env k g d d').
  { intros [[_ P] T] c Hc Hm. pose proof T as (_ & _ & C & _). rewrite P.
    apply E; [by rewrite <- C|]. by rewrite <- (manifest_complete_staged _ _ _ _ _ T). }
  apply Hafter. destruct st, pr as [q|];
    repeat (tx_step; match goal with Hr : recordAppliedReceiptsTx _ _ _ = Ok _ |- _ => apply receipts_serving in Hr end);
    injection Ht as <- <-; destruct_and?;
    (split; [unfold same_serving in *; destruct_and?; split; congruence|eauto 6 using same_staged_trans]).
Qed.

Lemma removeStaged_whole fails env d :
  receipt_sources (Write fails (removeStagedSnapshotBatch env) d).1 = receipt_sources d /\
  (batch_whole env d -> batch_whole env (Write fails (removeStagedSnapshotBatch env) d).1).
Proof.
  unfold Write, removeStagedSnapshotBatch. destruct fails; [done|].
  destruct (env_key env) as [[k g]|] eqn:E; [|done]. cbn [result_bind].
  destruct (generation_active g d); [done|]. split; [done|]. intros _ k' g' Hk [b Hb].
  rewrite E in Hk. injection Hk as <- <-. simpl in Hb. by rewrite lookup_delete_eq in Hb.
Qed.

Lemma rollback_whole fails applied env e d d' r :
  rollback_staged fails applied env e d = (d', r) ->
  r = Some e /\ receipt_sources d' = receipt_sources d /\ (batch_whole env d -> batch_whole env d').
Proof.
  unfold rollback_staged. destruct applied; [|by intros [= <- <-]].
  pose proof (removeStaged_whole fails env d) as [? ?]. by intros [= <- <-].
Qed.

(** A batch's first transaction: settled here, or staged and waiting for the checkpoint. *)
Lemma batch_tx_stages low now env mark d d' a may :
  String.eqb (Kind env) SnapshotKindBatch = true -> batch_tx low now env mark d = Ok (d', a, may) ->
  if may
  then receipt_sources d' = receipt_sources d /\ (batch_whole env d -> batch_whole env d') /\
    exists k g, env_key env = Ok (k, g) /\ envelope_staged env k g d'
  else snapshot_evidence env d d'.
Proof.
  intros Hkind. unfold batch_tx. intros Hb. tx_step. destruct a0.
  - tx_step. injection Hb as <- <- <-. apply settleCleaned_serving in E0 as [_ (_ & _ & _ & G)].
    unfold cleaned in E. tx_step. injection E as E. left. exists a. split; [done|]. rewrite G.
    by apply bool_decide_eq_true in E.
  - destruct low; [done|]. cbn [negb] in Hb. tx_step. destruct a0 as [d1 applied].
    apply stageSnapshotBatch_stages in E0 as (Hr & Hw & k & g & Hk & He); [|done]. tx_step. destruct a0.
    + injection Hb as <- <- <-. eauto 7.
    + tx_step. destruct a0 as [d2 p]. injection Hb as <- <- <-.
      apply (transition_settles _ _ _ _ k g) in E1 as [T P]; [|done]. right. exists k, g.
      split_and!; [done|by eapply envelope_staged_after| |].
      * intros _ Hwhole. pose proof (batch_whole_after _ _ _ T (Hw Hwhole)) as Hall. apply Hall; [done|].
        destruct T as (B & _). rewrite B. unfold envelope_staged in He. rewrite Hkind in He.
        destruct He as (b & Hb & _). by exists b.
      * intros c Hc Hm. rewrite <- (superseded_on_sources d d1) by done. by apply P.
Qed.

(** What an envelope leaves: the evidence when it is settled, and otherwise the
    receipts as they were and no batch without its rows that was not there before. *)
Lemma ApplySnapshotEnvelope_evidence f now env mark d d' e :
  ApplySnapshotEnvelope f now env mark d = (d', e) ->
  match e with
  | None => snapshot_evidence env d d'
  | Some _ => receipt_sources d' = receipt_sources d /\ (batch_whole env d -> batch_whole env d')
  end.
Proof.
  unfold ApplySnapshotEnvelope, applySnapshotBatchEnvelope. intros Ha.
  destruct (Validate env); [by injection Ha as <- <-|]. destruct (fault_open f); [by injection Ha as <- <-|].
  destruct (String.eqb (Kind env) SnapshotKindBatch) eqn:Hkind.
  - destruct (fault_stage f); [by injection Ha as <- <-|].
    destruct (batch_tx _ _ _ _ _) as [[[d1 a] may]|] eqn:Eb; [|by injection Ha as <- <-].
    apply batch_tx_stages in Eb; [|done]. destruct may; [|by injection Ha as <- <-].
    destruct Eb as (Hr & Hw & k & g & Hk & He).
    assert (Hroll : forall x, rollback_staged (fault_cleanup f) a env x d1 = (d', e) ->
      match e with
      | None => snapshot_evidence env d d'
      | Some _ => receipt_sources d' = receipt_sources d /\ (batch_whole env d -> batch_whole env d')
      end).
    { intros x (-> & Hr' & Hw')%rollback_whole. split; [congruence|auto]. }
    destruct (fault_checkpoint f); [by eapply Hroll|].
    destruct (Write _ _ d1) as [d2 [x|]] eqn:Ew.
    + apply Write_error in Ew as ->. by eapply Hroll.
    + injection Ha as <- <-. apply Write_ok in Ew as [_ Ew].
      destruct (applySnapshotTransitionTx _ _ _ _ _) as [[d3 p]|] eqn:Et; [|done]. injection Ew as <-.
      apply (transition_settles _ _ _ _ k g) in Et as [T P]; [|done]. right. exists k, g.
      split_and!; [done|by eapply envelope_staged_after| |].
      * intros _ Hwhole. pose proof (batch_whole_after _ _ _ T (Hw Hwhole)) as Hall. apply Hall; [done|].
        destruct T as (B & _). rewrite B. unfold envelope_staged in He. rewrite Hkind in He.
        destruct He as (b & Hb & _). by exists b.
      * intros c Hc Hm. rewrite <- (superseded_on_sources d d1) by done. by apply P.
  - destruct e as [x|]; [apply Write_error in Ha as ->; done|]. apply Write_ok in Ha as [_ Hc].
    unfold completion_tx in Hc. tx_step. destruct a.
    + apply settleCleaned_serving in Hc as [_ (_ & _ & _ & G)]. unfold cleaned in E. tx_step.
      injection E as E. left. exists a. split; [done|]. rewrite G. by apply bool_decide_eq_true in E.
    + destruct (fault_space f); [done|]. cbn [negb] in Hc. tx_step. destruct a as [d1 applied].
      apply stageSnapshotCompletion_stages in E0 as (Hr & k & g & Hk & He); [|done]. tx_step.
      destruct a as [d2 p]. injection Hc as <-.
      apply (transition_settles _ _ _ _ k g) in E0 as [T P]; [|done]. right. exists k, g.
      split_and!; [done|by eapply envelope_staged_after|by rewrite Hkind|].
      intros c Hc Hm. rewrite <- (superseded_on_sources d d1) by done. by apply P.
Qed.

(** Attempts that fail before the one that settles do not change the evidence. *)
Lemma snapshot_evidence_before env d d1 d' :
  receipt_sources d1 = receipt_sources d -> (batch_whole env d -> batch_whole env d1) ->
  snapshot_evidence env d1 d' -> snapshot_evidence env d d'.
Proof.
  intros Hr Hw [Hg|(k & g & Hk & He & Hrows & Hp)]; [by left|]. right. exists k, g.
  split_and!; [done|done|by auto|]. intros c Hc Hm. rewrite <- (superseded_on_sources d d1) by done. by apply Hp.
Qed.
End Evidence.
