(* ===== verification/SnapshotHistory.v ===== *)
(** * SnapshotHistory: what any history of snapshot writes leaves in the file

    [SnapshotStore] models the writes of [duckdb_snapshots.go] one by one.  Here
    they are steps of a relation: envelopes in any order, with any failures, and
    cleanup chunks of terminal generations.  The invariant says the staged rows
    of a batch are the rows its manifest entry counts until its generation is
    being cleaned, and that a cleaned generation can no longer be promoted.

    A cleanup names a generation of the control plane.  A sealed one is cleaned
    under the source and sequence it was staged with; a failed or cancelled one
    ([failed] below) has no completion, and none is published for it later. *)

From S2P Require Import Prelude GoStrings GoTime Duck Journal SnapshotEnvelope SnapshotStore.
Import String.
Open Scope string_scope.
Open Scope list_scope.
Open Scope Z_scope.

(** ** Counting rows by batch *)

Section Partition.
Context {K V B : Type} `{Countable K} `{EqDecision B} (f : V -> B).

Lemma partition_step (m : gmap K V) b :
  size m = (size (filter (fun kv => f kv.2 = b) m) + size (filter (fun kv => f kv.2 <> b) m))%nat.
Proof.
  rewrite <- map_size_disj_union by apply map_disjoint_filter_complement.
  f_equal. symmetry. apply map_filter_union_complement.
Qed.

Lemma size_partition l (m : gmap K V) :
  NoDup l -> (forall k v, m !! k = Some v -> f v ∈ l) ->
  size m = foldr (fun b n => (size (filter (fun kv => f kv.2 = b) m) + n)%nat) O l.
Proof.
  revert m. induction l as [|b l IH]; intros m Hnd Hin; simpl.
  - apply map_size_empty_iff, map_empty. intros k. destruct (m !! k) eqn:E; [|done].
    apply Hin in E. by apply not_elem_of_nil in E.
  - apply NoDup_cons in Hnd as [Hb Hnd]. rewrite (partition_step m b). f_equal.
    rewrite (IH (filter (fun kv => f kv.2 <> b) m)); [|done|].
    2: { intros k v [Hm Hne]%map_lookup_filter_Some. specialize (Hin k v Hm).
         apply elem_of_cons in Hin as [?|?]; done. }
    assert (Hf : forall b', b' ∈ l -> filter (fun kv => f kv.2 = b') (filter (fun kv => f kv.2 <> b) m) =
                                filter (fun kv => f kv.2 = b') m).
    { intros b' Hb'. apply map_eq. intros k. apply option_eq. intros v.
      rewrite !map_lookup_filter_Some. simpl. split; [tauto|]. intros [? E]. split_and!; [done| |done].
      congruence. }
    clear IH Hb Hnd Hin. induction l as [|b' l IH]; simpl; [done|].
    rewrite Hf by left. f_equal. apply IH. intros. apply Hf. by right.
Qed.
End Partition.

Section History.
Context `{UuidEnv} `{SnapshotEnv}.

Definition batch_rows (d : duckdb) (k : source_key) (g id : string) :
    gmap (source_key * string * string) snap_row :=
  filter (fun kr => nr_batch_id kr.2 = id) (staged_rows d k g).

Definition served_rows (d : duckdb) (k : source_key) : gmap (source_key * string) external_row :=
  filter (fun kx : (source_key * string) * external_row => kx.1.1 = k) (external_rows d).

Lemma staged_batches_in d k g id b :
  (id, b) ∈ staged_batches d k g <-> snapshot_batches d !! (k, g, id) = Some b.
Proof.
  unfold staged_batches. rewrite list_elem_of_fmap. split.
  - intros ([[kg i] b'] & [= -> ->] & Hm). simpl in *.
    apply elem_of_map_to_list, map_lookup_filter_Some in Hm as [Hm E]. simpl in E. by subst.
  - intros Hb. exists ((k, g, id), b). split; [done|]. by apply elem_of_map_to_list, map_lookup_filter_Some.
Qed.

Lemma staged_batches_ids d k g : NoDup (staged_batches d k g).*1.
Proof.
  unfold staged_batches. rewrite <- list_fmap_compose.
  apply NoDup_fmap_2_strong; [|apply NoDup_map_to_list].
  intros [[kg i] b] [[kg' i'] b'] Hx Hy [= Hi]. simpl in *.
  apply elem_of_map_to_list, map_lookup_filter_Some in Hx as [Hx Ex].
  apply elem_of_map_to_list, map_lookup_filter_Some in Hy as [Hy Ey]. simpl in *. subst. congruence.
Qed.

Lemma staged_rows_in d k g x r :
  staged_rows d k g !! x = Some r <-> snapshot_rows d !! x = Some r /\ x.1 = (k, g).
Proof. unfold staged_rows. by rewrite map_lookup_filter_Some. Qed.

(** The rows of a generation, when each batch holds what it says. *)
Lemma staged_rows_total d k g :
  (forall key r, snapshot_rows d !! (k, g, key) = Some r ->
     is_Some (snapshot_batches d !! (k, g, nr_batch_id r))) ->
  (forall id b, snapshot_batches d !! (k, g, id) = Some b ->
     Z.of_nat (size (batch_rows d k g id)) = nb_row_count b) ->
  Z.of_nat (size (staged_rows d k g)) = row_total (staged_batches d k g).
Proof.
  intros Hr Hc. rewrite (size_partition nr_batch_id (staged_batches d k g).*1).
  - assert (Hb : forall id b, (id, b) ∈ staged_batches d k g ->
      Z.of_nat (size (batch_rows d k g id)) = nb_row_count b)
      by (intros id b Hin; by apply Hc, staged_batches_in).
    change (forall id b, (id, b) ∈ staged_batches d k g ->
      Z.of_nat (size (filter (fun kr => nr_batch_id kr.2 = id) (staged_rows d k g))) = nb_row_count b) in Hb.
    revert Hb. generalize (staged_batches d k g) as bs. intros bs.
    induction bs as [|[id b] bs IH]; intros Hb; [done|]. simpl.
    rewrite Nat2Z.inj_add. f_equal; [apply Hb; left|]. apply IH. intros. apply Hb. by right.
  - apply staged_batches_ids.
  - intros [[k' g'] key] r [Hm E]%staged_rows_in. simpl in E. injection E as -> ->.
    destruct (Hr key r Hm) as [b Hb]. apply list_elem_of_fmap. exists (nr_batch_id r, b).
    split; [done|]. by apply staged_batches_in.
Qed.

(** After a promotion the source serves as many rows as the generation has. *)
Lemma published_size now k g d d' :
  published now k g d d' -> size (served_rows d' k) = size (staged_rows d' k g).
Proof.
  intros (c & _ & _ & _ & _ & Hx). rewrite <- (promoted_rows_size now). f_equal.
  apply map_eq. intros [k' key]. rewrite promoted_rows_lookup. unfold served_rows.
  apply option_eq. intros v. rewrite map_lookup_filter_Some, Hx. simpl.
  destruct (decide (k' = k)) as [->|Hne]; [tauto|]. split; [intros [_ ?]|]; done.
Qed.

Lemma published_others now k g d d' k' :
  published now k g d d' -> k' <> k -> served_rows d' k' = served_rows d k'.
Proof.
  intros (c & _ & _ & _ & _ & Hx) Hne. apply map_eq. intros [k2 key]. apply option_eq. intros v.
  unfold served_rows. rewrite !map_lookup_filter_Some, Hx. simpl.
  destruct (decide (k2 = k)) as [->|]; [|done]. split; intros [_ ->]; done.
Qed.

(** ** The invariant *)

Record staging_ok (failed : gset string) (d : duckdb) : Prop := {
  ok_rows : forall k g key r, snapshot_rows d !! (k, g, key) = Some r ->
    is_Some (snapshot_batches d !! (k, g, nr_batch_id r));
  ok_seq : forall k g id b id' b', snapshot_batches d !! (k, g, id) = Some b ->
    snapshot_batches d !! (k, g, id') = Some b' -> nb_generation_seq b = nb_generation_seq b';
  ok_completion : forall k g id b c, snapshot_batches d !! (k, g, id) = Some b ->
    snapshot_completions d !! (k, g) = Some c -> nb_generation_seq b = nc_generation_seq c;
  ok_count : forall k g id b, snapshot_batches d !! (k, g, id) = Some b ->
    Z.of_nat (size (batch_rows d k g id)) = nb_row_count b \/
    (exists a, snapshot_promotions d !! k = Some a /\ nb_generation_seq b < np_generation_seq a) \/
    g ∈ failed;
  ok_failed : forall k g, g ∈ failed -> snapshot_completions d !! (k, g) = None;
  ok_served : forall k p, snapshot_promotions d !! k = Some p ->
    Z.of_nat (size (served_rows d k)) = np_expected_rows p;
}.

Lemma staging_ok_ext F d d' :
  same_serving d d' -> same_staged d d' -> staging_ok F d -> staging_ok F d'.
Proof.
  intros [X P] (B & R & C & _) [I1 I2 I3 I4 I5 I6].
  split; unfold batch_rows, served_rows, staged_rows in *; rewrite ?X, ?P, ?B, ?R, ?C; done.
Qed.

Lemma staging_ok_empty : staging_ok ∅ empty_duckdb.
Proof.
  split; simpl.
  - intros k g key r. by rewrite lookup_empty.
  - intros k g id b id' b'. by rewrite lookup_empty.
  - intros k g id b c. by rewrite lookup_empty.
  - intros k g id b. by rewrite lookup_empty.
  - intros k g Hg. by apply not_elem_of_empty in Hg.
  - intros k p. by rewrite lookup_empty.
Qed.

(** *** Staging *)

Definition rows_in (k : source_key) (g id : string) (m : gmap (source_key * string * string) snap_row) :
    gmap (source_key * string * string) snap_row :=
  filter (fun kr => nr_batch_id kr.2 = id)
    (filter (fun kr : (source_key * string * string) * snap_row => kr.1.1 = (k, g)) m).

Lemma rows_in_Some k g id m x r :
  rows_in k g id m !! x = Some r <-> m !! x = Some r /\ x.1 = (k, g) /\ nr_batch_id r = id.
Proof. unfold rows_in. rewrite !map_lookup_filter_Some. simpl. tauto. Qed.

Lemma insert_snapshot_rows_spec k g id rows m m' :
  insert_snapshot_rows k g id rows m = Ok m' ->
  (forall x r, m' !! x = Some r -> m !! x = Some r \/ (x.1 = (k, g) /\ nr_batch_id r = id)) /\
  (forall x r, m !! x = Some r -> m' !! x = Some r) /\
  size (rows_in k g id m') = (size (rows_in k g id m) + length rows)%nat.
Proof.
  revert m. induction rows as [|row rows IH]; simpl; intros m.
  { intros [= ->]. split_and!; [by left|done|lia]. }
  destruct (m !! (k, g, sr_Key row)) eqn:E; [done|].
  set (r0 := {| nr_batch_id := id; nr_data := sr_Data row |}).
  intros Hi. apply IH in Hi as (A & B & C). split_and!.
  - intros x r Hx. apply A in Hx as [Hx|?]; [|by right].
    apply lookup_insert_Some in Hx as [[<- <-]|[_ Hx]]; [by right|by left].
  - intros x r Hx. apply B. rewrite lookup_insert_ne; [done|]. congruence.
  - rewrite C. assert (Hr : rows_in k g id (<[(k, g, sr_Key row) := r0]> m) =
      <[(k, g, sr_Key row) := r0]> (rows_in k g id m)).
    { unfold rows_in. rewrite (map_filter_insert_True _ m) by done. by rewrite map_filter_insert_True. }
    rewrite Hr, map_size_insert_None; [lia|]. apply eq_None_not_Some. intros [r Hx].
    apply rows_in_Some in Hx as [Hx _]. congruence.
Qed.

(** What the identity check promises of what is already staged. *)
Lemma identity_seq F d env k g :
  staging_ok F d -> validateSnapshotGenerationIdentity env k g d = true ->
  (forall id b, snapshot_batches d !! (k, g, id) = Some b -> nb_generation_seq b = GenerationSeq env) /\
  (forall c, snapshot_completions d !! (k, g) = Some c ->
     (exists id b, snapshot_batches d !! (k, g, id) = Some b) \/ nc_generation_seq c = GenerationSeq env).
Proof.
  intros Hok. unfold validateSnapshotGenerationIdentity, identity_matches.
  destruct (staged_batches d k g) as [|[id0 b0] bs] eqn:Eb.
  - intros Hv. split.
    + intros id b Hb%staged_batches_in. rewrite Eb in Hb. by apply not_elem_of_nil in Hb.
    + intros c Hc. rewrite Hc in Hv. right. bool_props. lia.
  - intros Hv. assert (H0b : snapshot_batches d !! (k, g, id0) = Some b0)
      by (apply staged_batches_in; rewrite Eb; left).
    split; [|by eauto]. intros id b Hb. rewrite (ok_seq _ _ Hok _ _ _ _ _ _ Hb H0b). bool_props. lia.
Qed.

Lemma stageSnapshotBatch_ok F env d d' a :
  stageSnapshotBatch env d = Ok (d', a) -> staging_ok F d -> staging_ok F d'.
Proof.
  unfold stageSnapshotBatch. intros Hs Hok. destruct (env_key env) as [[k g]|]; [|done]. cbn [result_bind] in Hs.
  destruct (validateSnapshotGenerationIdentity env k g d) eqn:Ev; [|done].
  destruct (snapshot_batches d !! (k, g, BatchID env)) as [b|] eqn:Eb.
  { destruct (_ || _ || _); [done|]. by injection Hs as <- <-. }
  destruct (existsb _ _); [done|].
  destruct (cast_uuid (SyncID env)) as [sync|]; [|done]. cbn [result_bind] in Hs.
  destruct (cast_uuid (RunID env)) as [run|]; [|done]. cbn [result_bind] in Hs.
  destruct (insert_snapshot_rows k g (BatchID env) (Rows env) (snapshot_rows d)) as [m|] eqn:Em; [|done].
  cbn [result_bind] in Hs. injection Hs as <- <-.
  apply insert_snapshot_rows_spec in Em as (A & B & C).
  destruct (identity_seq _ _ _ _ _ Hok Ev) as [S1 S2].
  assert (Hempty : rows_in k g (BatchID env) (snapshot_rows d) = ∅).
  { apply map_empty. intros x. apply eq_None_not_Some. intros [r Hx].
    apply rows_in_Some in Hx as (Hx & Ek & Ei). destruct x as [kg key]. simpl in Ek. subst kg.
    apply (ok_rows _ _ Hok) in Hx as [b Hb]. congruence. }
  split; simpl.
  - intros k2 g2 key r Hr. apply lookup_insert_is_Some'. apply A in Hr as [Hr|[Hk <-]].
    + right. by eapply ok_rows.
    + left. simpl in Hk. by injection Hk as -> ->.
  - intros k2 g2 id b id' b' H1 H2.
    apply lookup_insert_Some in H1 as [[E1 <-]|[N1 H1]], H2 as [[E2 <-]|[N2 H2]]; simpl; try done.
    + injection E1 as <- <- <-. symmetry. by eapply S1.
    + injection E2 as <- <- <-. by eapply S1.
    + by eapply ok_seq.
  - intros k2 g2 id b c H1 H2. apply lookup_insert_Some in H1 as [[E1 <-]|[N1 H1]]; simpl.
    + injection E1 as <- <- <-. destruct (S2 _ H2) as [(i & b & Hb)|Hc]; [|done].
      rewrite <- (ok_completion _ _ Hok _ _ _ _ _ Hb H2). symmetry. by eapply S1.
    + by eapply ok_completion.
  - intros k2 g2 id b H1. change (batch_rows _ k2 g2 id) with (rows_in k2 g2 id m).
    apply lookup_insert_Some in H1 as [[E1 <-]|[N1 H1]]; simpl.
    + injection E1 as <- <- <-. left. rewrite C, Hempty, map_size_empty. lia.
    + destruct (ok_count _ _ Hok _ _ _ _ H1) as [Hc|Hc]; [left|by right].
      rewrite <- Hc. do 2 f_equal. apply map_eq. intros x. apply option_eq. intros r.
      change (batch_rows d k2 g2 id) with (rows_in k2 g2 id (snapshot_rows d)).
      rewrite !rows_in_Some. split; intros (Hx & Ek & Ei); split_and!; try done; [|by apply B].
      apply A in Hx as [?|[Ek' Ei']]; [done|]. rewrite Ek in Ek'. injection Ek' as -> ->. congruence.
  - by apply ok_failed.
  - by apply (ok_served _ _ Hok).
Qed.

Lemma stageSnapshotCompletion_ok F env d d' a :
  stageSnapshotCompletion env d = Ok (d', a) ->
  (forall g, cast_uuid (Generation env) = Ok g -> g ∉ F) -> staging_ok F d -> staging_ok F d'.
Proof.
  unfold stageSnapshotCompletion. intros Hs Hf Hok.
  destruct (env_key env) as [[k g]|] eqn:Ek; [|done]. cbn [result_bind] in Hs.
  assert (Hg : g ∉ F).
  { apply Hf. unfold env_key in Ek. destruct (cast_uuid (ProjectID env)); [|done].
    destruct (cast_uuid (ConnectorID env)); [|done]. destruct (cast_uuid (Generation env)); [|done].
    cbn in Ek. congruence. }
  destruct (validateSnapshotGenerationIdentity env k g d) eqn:Ev; [|done].
  destruct (snapshot_completions d !! (k, g)) as [c|] eqn:Ec.
  { destruct (_ || _ || _); [done|]. by injection Hs as <- <-. }
  destruct (cast_uuid (SyncID env)) as [sync|]; [|done]. cbn [result_bind] in Hs.
  destruct (cast_uuid (RunID env)) as [run|]; [|done]. cbn [result_bind] in Hs.
  injection Hs as <- <-. destruct (identity_seq _ _ _ _ _ Hok Ev) as [S1 S2].
  destruct Hok as [I1 I2 I3 I4 I5 I6]. split; simpl; try done.
  - intros k2 g2 id b c Hb Hc. apply lookup_insert_Some in Hc as [[E <-]|[_ Hc]]; simpl; [|by eapply I3].
    injection E as -> ->. by eapply S1.
  - intros k2 g2 H2. rewrite lookup_insert_ne; [by apply I5|]. intros [= -> ->]. done.
Qed.

Lemma removeStaged_ok F env d d' :
  removeStagedSnapshotBatch env d = Ok d' -> staging_ok F d -> staging_ok F d'.
Proof.
  unfold removeStagedSnapshotBatch. destruct (env_key env) as [[k g]|]; [|done]. cbn [result_bind].
  destruct (generation_active g d); [by intros [= <-]|]. intros [= <-] [I1 I2 I3 I4 I5 I6].
  split; simpl; try done.
  - intros k2 g2 key r [Hr Hn]%map_lookup_filter_Some. simpl in Hn. rewrite lookup_delete_ne; [by eapply I1|].
    intros [= -> -> E]. by apply Hn.
  - intros k2 g2 id b id' b' [_ H1]%lookup_delete_Some [_ H2]%lookup_delete_Some. by eapply I2.
  - intros k2 g2 id b c [_ H1]%lookup_delete_Some. by eapply I3.
  - intros k2 g2 id b [Hne Hb]%lookup_delete_Some. destruct (I4 _ _ _ _ Hb) as [Hc|Hc]; [left|by right].
    rewrite <- Hc. do 2 f_equal. apply map_eq. intros x. apply option_eq. intros r.
    set (m := filter _ (snapshot_rows d)).
    change (rows_in k2 g2 id m !! x = Some r <-> rows_in k2 g2 id (snapshot_rows d) !! x = Some r).
    rewrite !rows_in_Some. unfold m. rewrite map_lookup_filter_Some. simpl.
    split; [tauto|]. intros (Hx & E1 & E2). split_and!; try done. intros [E3 E4].
    rewrite E1 in E3. injection E3 as -> ->. congruence.
Qed.

(** *** Promotion *)

Lemma published_ok F now k g d d' :
  published now k g d d' -> same_staged d d' -> staging_ok F d -> staging_ok F d'.
Proof.
  intros Hp Hst Hok. pose proof Hp as (c & Hc & Hm & Hseq & Hpr & Hx). pose proof Hst as (B & R & C & _).
  rewrite C in Hc.
  assert (Hk : forall id b, snapshot_batches d !! (k, g, id) = Some b ->
    Z.of_nat (size (batch_rows d k g id)) = nb_row_count b).
  { intros id b Hb. destruct (ok_count _ _ Hok _ _ _ _ Hb) as [?|[(a & Ha & Hlt)|Hf]]; [done| |].
    - apply Hseq in Ha. rewrite (ok_completion _ _ Hok _ _ _ _ _ Hb Hc) in Hlt. lia.
    - rewrite (ok_failed _ _ Hok k g Hf) in Hc. done. }
  destruct Hok as [I1 I2 I3 I4 I5 I6].
  split; unfold batch_rows, staged_rows; rewrite ?B, ?R, ?C, ?Hpr; try done.
  - intros k2 g2 id b Hb. destruct (I4 _ _ _ _ Hb) as [?|[(a & Ha & Hlt)|?]]; [by left| |by do 2 right].
    right. left. destruct (decide (k2 = k)) as [->|Hne].
    + rewrite lookup_insert_eq. eexists. split; [done|]. simpl. apply Hseq in Ha. lia.
    + rewrite lookup_insert_ne by done. eauto.
  - intros k2 p Hl. apply lookup_insert_Some in Hl as [[<- <-]|[Hne Hl]].
    + rewrite (published_size _ _ _ _ _ Hp). simpl. unfold staged_rows. rewrite R. fold (staged_rows d k g).
      rewrite staged_rows_total by (intros; by (eapply I1 || eapply Hk)).
      rewrite (manifest_complete_staged _ _ _ _ _ Hst) in Hm. unfold manifest_complete in Hm.
      apply andb_prop in Hm as [[_ Hm]%andb_prop _]. lia.
    + rewrite (published_others _ _ _ _ _ _ Hp) by done. by apply I6.
Qed.

Lemma transition_ok F now env mark a d d' p :
  applySnapshotTransitionTx now env mark a d = Ok (d', p) -> staging_ok F d -> staging_ok F d'.
Proof.
  intros [Hst [Hs|(k & g & _ & Hp)]]%applySnapshotTransition_spec Hok;
    [by eapply staging_ok_ext|by eapply published_ok].
Qed.

Lemma rollback_ok F fails applied env e d d' r :
  rollback_staged fails applied env e d = (d', r) -> staging_ok F d -> staging_ok F d'.
Proof.
  unfold rollback_staged. destruct applied; [|by intros [= <- <-]].
  destruct (Write fails (removeStagedSnapshotBatch env) d) as [d1 x] eqn:E. intros [= <- <-] Hok.
  destruct x; [by apply Write_error in E as ->|]. apply Write_ok in E as [_ E]. by eapply removeStaged_ok.
Qed.

Lemma settleCleaned_ok F now mark d d' :
  settleCleanedSnapshotEnvelopeTx now mark d = Ok d' -> staging_ok F d -> staging_ok F d'.
Proof. intros [Hs Ht]%settleCleaned_serving. by apply staging_ok_ext. Qed.

Lemma batch_tx_ok F low now env mark d d' a may :
  batch_tx low now env mark d = Ok (d', a, may) -> staging_ok F d -> staging_ok F d'.
Proof.
  unfold batch_tx. destruct (cleaned env d) as [[]|]; cbn [result_bind]; [| |done].
  - destruct (settleCleanedSnapshotEnvelopeTx now mark d) as [d1|] eqn:E; [|done]. cbn [result_bind].
    intros [= <- <- <-]. by eapply settleCleaned_ok.
  - destruct low; [done|]. cbn [negb].
    destruct (stageSnapshotBatch env d) as [[d1 x]|] eqn:E; [|done]. cbn [result_bind].
    destruct (snapshotBatchMayCompleteGenerationTx env d1) as [[]|]; cbn [result_bind]; [| |done].
    + intros [= <- <- <-]. by eapply stageSnapshotBatch_ok.
    + destruct (applySnapshotTransitionTx _ _ _ _ _) as [[d2 p]|] eqn:Et; [|done]. cbn [result_bind].
      intros [= <- <- <-] Hok. eapply transition_ok; [exact Et|]. by eapply stageSnapshotBatch_ok.
Qed.

Lemma completion_tx_ok F low now env mark d d' :
  completion_tx low now env mark d = Ok d' ->
  (forall g, cast_uuid (Generation env) = Ok g -> g ∉ F) -> staging_ok F d -> staging_ok F d'.
Proof.
  unfold completion_tx. destruct (cleaned env d) as [[]|]; cbn [result_bind]; [| |done].
  - intros Hs _. by eapply settleCleaned_ok.
  - destruct low; [done|]. cbn [negb].
    destruct (stageSnapshotCompletion env d) as [[d1 x]|] eqn:E; [|done]. cbn [result_bind].
    destruct (applySnapshotTransitionTx _ _ _ _ _) as [[d2 p]|] eqn:Et; [|done]. cbn [result_bind].
    intros [= <-] Hf Hok. eapply transition_ok; [exact Et|]. by eapply stageSnapshotCompletion_ok.
Qed.

Lemma ApplySnapshotEnvelope_ok F f now env mark d :
  (Kind env = SnapshotKindComplete -> forall g, cast_uuid (Generation env) = Ok g -> g ∉ F) ->
  staging_ok F d -> staging_ok F (ApplySnapshotEnvelope f now env mark d).1.
Proof.
  intros Hf Hok. unfold ApplySnapshotEnvelope, applySnapshotBatchEnvelope.
  destruct (Validate env) eqn:Ev; [done|]. destruct (fault_open f); [done|].
  destruct (String.eqb_spec (Kind env) SnapshotKindBatch) as [Hb|Hb].
  - destruct (fault_stage f); [done|]. destruct (batch_tx _ _ _ _ _) as [[[d1 a] may]|] eqn:Eb; [|done].
    apply (batch_tx_ok F) in Eb; [|done]. destruct may; [|done].
    destruct (fault_checkpoint f).
    { destruct (rollback_staged _ _ _ _ _) eqn:Er. by eapply rollback_ok. }
    destruct (Write _ _ d1) as [d2 [e|]] eqn:Ew.
    + apply Write_error in Ew as ->. destruct (rollback_staged _ _ _ _ _) eqn:Er. by eapply rollback_ok.
    + apply Write_ok in Ew as [_ Ew]. destruct (applySnapshotTransitionTx _ _ _ _ _) as [[d3 p]|] eqn:Et; [|done].
      injection Ew as <-. by eapply transition_ok.
  - assert (Kind env = SnapshotKindComplete) as Hc.
    { unfold Validate in Ev. destruct (_ || _); [done|]. apply String.eqb_neq in Hb. rewrite Hb in Ev.
      destruct (String.eqb_spec (Kind env) SnapshotKindComplete); [done|done]. }
    destruct (Write _ _ d) as [d1 [e|]] eqn:Ew; [by apply Write_error in Ew as ->|].
    apply Write_ok in Ew as [_ Ew]. eapply completion_tx_ok; eauto.
Qed.

(** *** Cleanup *)

Lemma foldr_delete_lookup {V} (l : list (source_key * string * string)) (m : gmap _ V) x :
  foldr delete m l !! x = if decide (x ∈ l) then None else m !! x.
Proof.
  induction l as [|y l IH]; cbn [foldr].
  - destruct (decide _) as [Hx|]; [by apply not_elem_of_nil in Hx|done].
  - destruct (decide (x = y)) as [->|Hne].
    + rewrite lookup_delete_eq. destruct (decide (y ∈ y :: l)) as [|Hx]; [done|]. destruct Hx. left.
    + rewrite lookup_delete_ne, IH by done.
      destruct (decide (x ∈ l)), (decide (x ∈ y :: l)) as [Hx|Hx]; try done.
      * destruct Hx. by right.
      * by apply elem_of_cons in Hx as [?|?].
Qed.

Lemma rows_of_generation_in g d x :
  x ∈ rows_of_generation g d <-> x.1.2 = g /\ is_Some (snapshot_rows d !! x).
Proof.
  unfold rows_of_generation. rewrite list_elem_of_filter, list_elem_of_fmap. split.
  - intros [Hg ([x' r] & -> & Hm)]. split; [done|]. apply elem_of_map_to_list in Hm. by exists r.
  - intros [Hg [r Hr]]. split; [done|]. exists (x, r). split; [done|]. by apply elem_of_map_to_list.
Qed.

(** The chunk was refused, or it took rows of generation [g] only, and took the
    batches and completions of [g] only once no row of it was left. *)
Definition chunk_taken (g : string) (d d' : duckdb) : Prop :=
  same_serving d d' /\
  (forall x r, snapshot_rows d' !! x = Some r -> snapshot_rows d !! x = Some r) /\
  (forall x, x.1.2 <> g -> snapshot_rows d' !! x = snapshot_rows d !! x) /\
  (forall x b, snapshot_batches d' !! x = Some b -> snapshot_batches d !! x = Some b) /\
  (forall x b, snapshot_batches d !! x = Some b -> (x.1.2 <> g \/ exists y r, snapshot_rows d' !! y = Some r /\ y.1.2 = g) ->
     snapshot_batches d' !! x = Some b) /\
  (forall x c, snapshot_completions d' !! x = Some c -> snapshot_completions d !! x = Some c).

Lemma delete_chunk_taken sealed k seq g limit d d' :
  delete_staging_chunk_tx sealed k seq g limit d = Ok d' ->
  d' = d \/ exists g', cast_uuid g = Ok g' /\ chunk_taken g' d d' /\
    (sealed = true -> exists a, snapshot_promotions d !! k = Some a /\ seq < np_generation_seq a).
Proof.
  unfold delete_staging_chunk_tx. destruct (cast_uuid g) as [g'|]; [|done]. cbn [result_bind].
  destruct (generation_active g' d); [intros [= <-]; by left|].
  destruct (sealed && _) eqn:Esup; [intros [= <-]; by left|]. intros Hr. right. exists g'. split; [done|].
  split.
  2: { intros ->. cbn in Esup. apply negb_false_iff in Esup.
       destruct (snapshot_promotions d !! k) as [a|]; [|done]. exists a. split; [done|lia]. }
  set (m := foldr delete (snapshot_rows d) (take limit (rows_of_generation g' d))) in *.
  assert (Hm : forall x r, m !! x = Some r -> snapshot_rows d !! x = Some r).
  { intros x r. unfold m. rewrite foldr_delete_lookup. by destruct (decide _). }
  assert (Hne : forall x, x.1.2 <> g' -> m !! x = snapshot_rows d !! x).
  { intros x Hx. unfold m. rewrite foldr_delete_lookup.
    destruct (decide _) as [Hin|]; [|done]. apply list_elem_of_lookup in Hin as [i Hi].
    apply lookup_take_Some in Hi as [Hi _]. apply list_elem_of_lookup_2 in Hi.
    by apply rows_of_generation_in in Hi as [? _]. }
  destruct (rows_of_generation g' (set_snapshot_rows m d)) as [|y ys] eqn:Ey; injection Hr as <-.
  - split_and!; [done|done|done|simpl..|].
    + intros x b [? _]%map_lookup_filter_Some. done.
    + intros x b Hb Hor. apply map_lookup_filter_Some. split; [done|]. simpl.
      destruct Hor as [?|(y & r & Hy & Hyg)]; [done|].
      assert (Hin : y ∈ rows_of_generation g' (set_snapshot_rows m d))
        by (apply rows_of_generation_in; split; [done|by exists r]).
      rewrite Ey in Hin. by apply not_elem_of_nil in Hin.
    + intros x c [? _]%map_lookup_filter_Some. done.
  - split_and!; done.
Qed.

Lemma chunk_ok F F' g d d' :
  chunk_taken g d d' -> staging_ok F d -> (forall x, x ∈ F -> x ∈ F') ->
  (forall k x, x ∈ F' -> x ∈ F \/ snapshot_completions d !! (k, x) = None) ->
  (forall k id b, snapshot_batches d !! (k, g, id) = Some b ->
     (exists a, snapshot_promotions d !! k = Some a /\ nb_generation_seq b < np_generation_seq a) \/ g ∈ F') ->
  staging_ok F' d'.
Proof.
  intros ([X P] & R1 & R2 & B1 & B2 & C1) [I1 I2 I3 I4 I5 I6] HF HFc Hg. split.
  - intros k2 g2 key r Hr. pose proof (R1 _ _ Hr) as Hr'. destruct (I1 _ _ _ _ Hr') as [b Hb].
    exists b. apply B2; [done|]. simpl. destruct (decide (g2 = g)) as [->|]; [|by left].
    right. by exists (k2, g, key), r.
  - intros k2 g2 id b id' b' H1 H2. eapply I2; by apply B1.
  - intros k2 g2 id b c H1 H2. eapply I3; [by apply B1|by apply C1].
  - intros k2 g2 id b Hb. apply B1 in Hb. rewrite P. destruct (decide (g2 = g)) as [->|Hne].
    + right. by eapply Hg.
    + destruct (I4 _ _ _ _ Hb) as [Hc|[?|?]]; [left|right; by left|right; right; auto].
      rewrite <- Hc. do 2 f_equal. unfold batch_rows, staged_rows. f_equal. apply map_eq. intros x.
      apply option_eq. intros r. rewrite !map_lookup_filter_Some. simpl.
      split; intros [Hx E]; (split; [|done]).
      * by apply R1.
      * rewrite R2; [done|]. by rewrite E.
  - intros k2 g2 Hf. apply eq_None_not_Some. intros [c Hc]. apply C1 in Hc.
    destruct (HFc k2 g2 Hf) as [Hf'|Hn]; [|congruence]. rewrite (I5 k2 g2 Hf') in Hc. done.
  - intros k2 p. rewrite P. unfold served_rows. rewrite X. by apply I6.
Qed.

(** ** Histories *)

(** The state of a history: the file, and the generations discarded so far. *)
Inductive snapshot_step : duckdb * gset string -> duckdb * gset string -> Prop :=
| StepEnvelope f now env mark d F :
    (Kind env = SnapshotKindComplete -> forall g, cast_uuid (Generation env) = Ok g -> g ∉ F) ->
    snapshot_step (d, F) ((ApplySnapshotEnvelope f now env mark d).1, F)
| StepCleanSealed io k seq g limit d F :
    (forall g' k' id b, cast_uuid g = Ok g' -> snapshot_batches d !! (k', g', id) = Some b ->
       k' = k /\ nb_generation_seq b = seq) ->
    snapshot_step (d, F) ((deleteSnapshotStagingChunk io true k seq g limit d).1, F)
| StepDiscard io k seq g g' limit d F :
    cast_uuid g = Ok g' -> (forall k', snapshot_completions d !! (k', g') = None) ->
    snapshot_step (d, F) ((deleteSnapshotStagingChunk io false k seq g limit d).1, {[g']} ∪ F)
| StepOther d d' F :
    same_serving d d' -> same_staged d d' -> snapshot_step (d, F) (d', F).

Lemma snapshot_step_ok s s' : snapshot_step s s' -> staging_ok s.2 s.1 -> staging_ok s'.2 s'.1.
Proof.
  intros Hs Hok. destruct Hs as [f now env mark d F Hf|io k seq g limit d F Hid|io k seq g g' limit d F Hg Hc|d d' F Hs Ht];
    cbn [fst snd] in *.
  - by apply ApplySnapshotEnvelope_ok.
  - unfold deleteSnapshotStagingChunk. destruct (Write _ _ d) as [d' [e|]] eqn:Ew; cbn [fst];
      [by apply Write_error in Ew as ->|].
    apply Write_ok in Ew as [_ [->|(g' & Hg & Ht & Hsup)]%delete_chunk_taken]; [done|].
    eapply chunk_ok; [exact Ht|exact Hok|done|by left|]. intros k2 id b Hb. left.
    destruct (Hid _ _ _ _ Hg Hb) as [-> <-]. by apply Hsup.
  - assert (Hsub : staging_ok ({[g']} ∪ F) d).
    { destruct Hok as [I1 I2 I3 I4 I5 I6]. split; try done.
      - intros k2 g2 id b Hb. destruct (I4 _ _ _ _ Hb) as [?|[?|?]]; [by left|right; by left|].
        right. right. set_solver.
      - intros k2 g2 [->%elem_of_singleton|?]%elem_of_union; auto. }
    unfold deleteSnapshotStagingChunk. destruct (Write _ _ d) as [d' [e|]] eqn:Ew; cbn [fst];
      [by apply Write_error in Ew as ->|].
    apply Write_ok in Ew as [_ [->|(g2 & Hg2 & Ht & _)]%delete_chunk_taken]; [done|].
    assert (g2 = g') as -> by congruence.
    eapply chunk_ok; [exact Ht|exact Hsub|done|by left|]. intros k2 id b Hb. right. set_solver.
  - by eapply staging_ok_ext.
Qed.
End History.

(** ** Properties *)

(** C2: a promotion serves its whole generation.  Whatever envelopes arrive in
    whatever order, whichever engine calls fail, and whatever terminal
    generations are being cleaned meanwhile, in every file a history reaches
    each promoted source serves exactly as many rows as its completion stated:
    no partly staged and no partly cleaned generation is ever published. *)
Theorem promotion_serves_whole_generation `{UuidEnv} `{SnapshotEnv} d F k p :
  rtc snapshot_step (empty_duckdb, ∅) (d, F) -> snapshot_promotions d !! k = Some p ->
  Z.of_nat (size (served_rows d k)) = np_expected_rows p.
Proof.
  intros Hr Hp. apply (ok_served F d); [|done].
  apply (rtc_invariant snapshot_step (fun s => staging_ok s.2 s.1) snapshot_step_ok _ _ Hr).
  apply staging_ok_empty.
Qed.

(** ** Witness *)

#[local] Existing Instance w_snapshot_env.

Definition w_served_key : source_key := (w_uuid, w_uuid2, "orders").

Definition w_served_promotion : snap_promotion :=
  default (promotion_of 0 "" {| nc_sync_id := ""; nc_generation_seq := 0; nc_binding_digest := "";
      nc_expected_batches := 0; nc_expected_rows := 0; nc_manifest_sha256 := ""; nc_capture_started_at := 0;
      nc_capture_finished_at := 0; nc_run_id := "" |})
    (snapshot_promotions w_promotion.1 !! w_served_key).

Lemma w_history : rtc snapshot_step (empty_duckdb, ∅) (w_promotion.1, ∅).
Proof.
  eapply rtc_l; [|eapply rtc_l; [|apply rtc_refl]].
  - apply (StepEnvelope no_faults 10 (w_snapshot 0 [w_snapshot_row]) (w_mark true None)).
    intros _ g _. apply not_elem_of_empty.
  - apply (StepEnvelope no_faults 20 w_complete (w_mark true None)).
    intros _ g _. apply not_elem_of_empty.
Qed.

Lemma promotion_serves_whole_generation_witness :
  np_expected_rows w_served_promotion = 1 /\
  Z.of_nat (size (served_rows w_promotion.1 w_served_key)) = np_expected_rows w_served_promotion.
Proof.
  split; [vm_compute; reflexivity|].
  apply (promotion_serves_whole_generation w_promotion.1 ∅); [apply w_history|].
  apply default_Some. vm_compute. reflexivity.
Defined.
