(* ===== verification/DeadLetter.v ===== *)
(** * DeadLetter: how a dead-lettered message keeps its identity

    [internal/dataplane/ingest/queue.go] ([jsMsgHandle.delivery], the headers of
    [StartJetStreamWorker]'s [dlqPublish]) and [cmd/server/replay.go] (the
    header copy of [replayDLQ]).  A message that cannot be stored is published
    to the dead-letter stream with its origin in headers; the replay command
    publishes the body again with those headers; the worker reads the origin
    back, so the receipt names the message that was lost and not its replay.

    Headers are a map with one value per key, [Get] of an absent key is the
    empty string.  Formatting and parsing of an RFC 3339 instant are fields of
    [StampEnv]; [parse_stamp] answers the zero time for text it refuses. *)

From S2P Require Import Prelude GoStrings GoTime Duck Journal SnapshotEnvelope.
Import String.
Open Scope string_scope.
Open Scope list_scope.
Open Scope Z_scope.

Definition OriginSubjectHeader : string := "AgentRay-Origin-Subject".
Definition OriginStreamHeader : string := "AgentRay-Origin-Stream".
Definition OriginStreamSeqHeader : string := "AgentRay-Origin-Stream-Sequence".
Definition OriginDigestHeader : string := "AgentRay-Origin-Payload-SHA256".
Definition OriginPublishedAtHeader : string := "AgentRay-Origin-Published-At".
Definition OriginUnverifiableHeader : string := "AgentRay-Origin-Unverifiable".
Definition LegacyDLQHeader : string := "AgentRay-Legacy-DLQ".

Abbreviation header := (gmap string string).

Definition get (h : header) (key : string) : string := default "" (h !! key).

Class StampEnv := { format_stamp : Z -> string; parse_stamp : string -> Z }.

(** [strconv.ParseUint(s, 10, 64)]. *)
Definition parse_uint (s : string) : option Z :=
  match atoi_magnitude s with
  | Some n => if n <? two64 then Some n else None
  | None => None
  end.

Definition timePtr (v : Z) : option Z := if time_is_zero v then None else Some v.

(** What JetStream reports about a delivery. *)
Record metadata := {
  md_Stream : string; md_StreamSeq : Z; md_ConsumerSeq : Z; md_NumDelivered : Z; md_Timestamp : Z;
}.

(** A message as the broker hands it over; [j_Metadata] is [None] when the call fails. *)
Record jetstream_msg := {
  j_Subject : string; j_Data : string; j_Headers : header; j_Metadata : option metadata;
}.

(** [jsMsgHandle.deliveries] and [jsMsgHandle.seq]. *)
Definition deliveries (m : jetstream_msg) : Z :=
  match j_Metadata m with Some md => md_NumDelivered md | None => 0 end.
Definition seq (m : jetstream_msg) : Z :=
  match j_Metadata m with Some md => md_ConsumerSeq md | None => 0 end.

Section DeadLetter.
Context `{StampEnv} `{SnapshotEnv}.

(** [jsMsgHandle.delivery]; [streamID] is the incarnation the worker booted with. *)
Definition delivery (streamID : string) (m : jetstream_msg) : DeliveryReceiptMark :=
  let digest := sha256_hex (j_Data m) in
  let h := j_Headers m in
  let first_hand :=
    match j_Metadata m with
    | None =>
        {| d_StreamID := ""; d_Subject := j_Subject m; d_StreamSeq := 0; d_PayloadSHA256 := digest;
           d_PublishedAt := None; d_ProjectID := ""; d_ConnectorID := ""; d_Table := "";
           d_Replayed := false; d_Unverifiable := false |}
    | Some md =>
        let legacy := String.eqb (get h LegacyDLQHeader) "true" in
        {| d_StreamID := if String.eqb streamID "" then md_Stream md else streamID;
           d_Subject := j_Subject m; d_StreamSeq := md_StreamSeq md; d_PayloadSHA256 := digest;
           d_PublishedAt := Some (md_Timestamp md); d_ProjectID := ""; d_ConnectorID := "";
           d_Table := ""; d_Replayed := legacy; d_Unverifiable := legacy |}
    end in
  match parse_uint (get h OriginStreamSeqHeader) with
  | Some seq =>
      if 0 <? seq then
        let original := trim_space (get h OriginDigestHeader) in
        {| d_StreamID := get h OriginStreamHeader; d_Subject := get h OriginSubjectHeader;
           d_StreamSeq := seq;
           d_PayloadSHA256 := if String.eqb original "" then digest else original;
           d_PublishedAt := timePtr (parse_stamp (get h OriginPublishedAtHeader));
           d_ProjectID := ""; d_ConnectorID := ""; d_Table := ""; d_Replayed := true;
           d_Unverifiable := String.eqb (get h OriginUnverifiableHeader) "true" |}
      else first_hand
  | None => first_hand
  end.

(** The headers [dlqPublish] sets. *)
Definition dlq_headers (origin : string) (d : DeliveryReceiptMark) : header :=
  let h := {[OriginSubjectHeader := origin]} in
  if d_StreamSeq d =? 0 then h
  else
    let h := <[OriginStreamHeader := d_StreamID d]> h in
    let h := <[OriginStreamSeqHeader := itoa (d_StreamSeq d)]> h in
    let h := <[OriginDigestHeader := d_PayloadSHA256 d]> h in
    let h := match d_PublishedAt d with
             | Some t => <[OriginPublishedAtHeader := format_stamp t]> h
             | None => h
             end in
    if d_Unverifiable d then <[OriginUnverifiableHeader := "true"]> h else h.

Definition replayed_keys : list string :=
  [OriginSubjectHeader; OriginStreamHeader; OriginStreamSeqHeader; OriginDigestHeader;
   OriginPublishedAtHeader; OriginUnverifiableHeader].

(** The headers [replayDLQ] publishes with. *)
Definition replay_headers (h : header) : header :=
  let copied := foldr (fun k r => if String.eqb (get h k) "" then r else <[k := get h k]> r) ∅ replayed_keys in
  if String.eqb (get copied OriginStreamSeqHeader) "" then <[LegacyDLQHeader := "true"]> copied else copied.

(** Where [replayDLQ] publishes. *)
Definition replay_target (subject : string) (h : header) : string :=
  if String.eqb (get h OriginSubjectHeader) "" then subject else get h OriginSubjectHeader.

(** One trip through the dead-letter stream: [m] is dead-lettered from [origin],
    replayed, and comes back with the metadata of its replay. *)
Definition round_trip (streamID subject origin : string) (md : option metadata) (m : jetstream_msg) :
    jetstream_msg :=
  let h := dlq_headers origin (delivery streamID m) in
  {| j_Subject := replay_target subject h; j_Data := j_Data m; j_Headers := replay_headers h;
     j_Metadata := md |}.
End DeadLetter.

(** ** Lemmas *)

Lemma get_insert (h : header) k v k' : get (<[k := v]> h) k' = if String.eqb k k' then v else get h k'.
Proof.
  unfold get. destruct (String.eqb_spec k k') as [->|Hne]; [by rewrite lookup_insert_eq|].
  by rewrite lookup_insert_ne.
Qed.

Lemma get_singleton k v k' : get {[k := v]} k' = if String.eqb k k' then v else "".
Proof.
  unfold get. destruct (String.eqb_spec k k') as [->|Hne]; [by rewrite lookup_singleton_eq|].
  by rewrite lookup_singleton_ne.
Qed.

(** The copy loop keeps the listed keys as [Get] sees them. *)
Lemma get_copied (h : header) keys k :
  get (foldr (fun k r => if String.eqb (get h k) "" then r else <[k := get h k]> r) ∅ keys) k =
  if existsb (fun x => String.eqb x k) keys then get h k else "".
Proof.
  induction keys as [|x keys IH]; [done|]. simpl.
  destruct (String.eqb_spec (get h x) "") as [He|Hne].
  - rewrite IH. destruct (String.eqb_spec x k) as [->|]; simpl; [|done].
    rewrite He. by destruct (existsb _ keys).
  - rewrite get_insert, IH. destruct (String.eqb_spec x k) as [->|]; simpl; done.
Qed.

Lemma get_replay (h : header) k :
  get h OriginStreamSeqHeader <> "" -> existsb (fun x => String.eqb x k) replayed_keys = true ->
  get (replay_headers h) k = get h k.
Proof.
  intros Hs Hk. unfold replay_headers. rewrite (get_copied h replayed_keys OriginStreamSeqHeader).
  change (existsb (fun x => String.eqb x OriginStreamSeqHeader) replayed_keys) with true. cbv iota.
  apply String.eqb_neq in Hs. by rewrite Hs, get_copied, Hk.
Qed.

Lemma isSHA256_trim s : isSHA256 s = true -> trim_space s = s /\ s <> "".
Proof.
  unfold isSHA256. intros [Hl Hx]%andb_prop. apply negb_true_iff in Hx. split.
  - apply trim_space_nospace. revert Hx. apply exists_byte_impl.
    intros a Ha. unfold lower_hex, is_digit, is_space in *. bool_props. lia.
  - by intros ->.
Qed.

Section Lemmas.
Context `{StampEnv} `{SnapshotEnv}.

(** What a dead letter keeps of a delivery. *)
Definition replayed_as (origin : string) (d : DeliveryReceiptMark) : DeliveryReceiptMark :=
  {| d_StreamID := d_StreamID d; d_Subject := origin; d_StreamSeq := d_StreamSeq d;
     d_PayloadSHA256 := d_PayloadSHA256 d; d_PublishedAt := d_PublishedAt d; d_ProjectID := "";
     d_ConnectorID := ""; d_Table := ""; d_Replayed := true; d_Unverifiable := d_Unverifiable d |}.

(** The instant survives being written in a header. *)
Definition stamp_survives (d : DeliveryReceiptMark) : Prop :=
  match d_PublishedAt d with
  | Some t => t <> 0 /\ parse_stamp (format_stamp t) = t
  | None => parse_stamp "" = 0
  end.

Lemma delivery_digest sid m : isSHA256 (sha256_hex (j_Data m)) = true ->
  let d := delivery sid m in trim_space (d_PayloadSHA256 d) = d_PayloadSHA256 d /\ d_PayloadSHA256 d <> "".
Proof.
  intros Hs d. unfold d, delivery. apply isSHA256_trim in Hs.
  assert (Hfirst : forall x : DeliveryReceiptMark, d_PayloadSHA256 x = sha256_hex (j_Data m) ->
    trim_space (d_PayloadSHA256 x) = d_PayloadSHA256 x /\ d_PayloadSHA256 x <> "") by (intros x ->; done).
  destruct (parse_uint _) as [seq|]; [destruct (0 <? seq)|]; simpl.
  - destruct (String.eqb_spec (trim_space (get (j_Headers m) OriginDigestHeader)) ""); [done|].
    by rewrite trim_space_idemp.
  - by destruct (j_Metadata m); apply Hfirst.
  - by destruct (j_Metadata m); apply Hfirst.
Qed.

Lemma parse_itoa n : 0 <= n < two64 -> parse_uint (itoa n) = Some n.
Proof.
  intros Hn. unfold parse_uint. rewrite magnitude_itoa by (unfold two64 in Hn; lia).
  destruct (Z.ltb_spec n two64); [done|lia].
Qed.

Lemma dlq_header origin d k : d_StreamSeq d <> 0 ->
  get (dlq_headers origin d) k =
  if String.eqb OriginUnverifiableHeader k then (if d_Unverifiable d then "true" else "")
  else if String.eqb OriginPublishedAtHeader k then
    match d_PublishedAt d with Some t => format_stamp t | None => "" end
  else if String.eqb OriginDigestHeader k then d_PayloadSHA256 d
  else if String.eqb OriginStreamSeqHeader k then itoa (d_StreamSeq d)
  else if String.eqb OriginStreamHeader k then d_StreamID d
  else if String.eqb OriginSubjectHeader k then origin else "".
Proof.
  intros Hs. unfold dlq_headers. apply Z.eqb_neq in Hs. rewrite Hs.
  destruct (d_PublishedAt d), (d_Unverifiable d); rewrite !get_insert, get_singleton;
    repeat match goal with |- context[String.eqb ?c k] =>
      destruct (String.eqb_spec c k) as [<-|_]; [reflexivity|] end; reflexivity.
Qed.

Lemma delivery_of_headers sid m origin d :
  (forall k, k ∈ replayed_keys -> get (j_Headers m) k = get (dlq_headers origin d) k) ->
  0 < d_StreamSeq d < two64 -> trim_space (d_PayloadSHA256 d) = d_PayloadSHA256 d ->
  d_PayloadSHA256 d <> "" -> stamp_survives d ->
  delivery sid m = replayed_as origin d.
Proof.
  intros Hh Hq Ht Hd Hst.
  assert (Hk : forall k, k ∈ replayed_keys -> get (j_Headers m) k = _) by
    (intros k Hk; rewrite Hh by done; apply dlq_header; lia).
  unfold delivery. unfold replayed_keys in Hk.
  rewrite (Hk OriginSubjectHeader), (Hk OriginStreamHeader), (Hk OriginStreamSeqHeader),
    (Hk OriginDigestHeader), (Hk OriginPublishedAtHeader), (Hk OriginUnverifiableHeader)
    by (rewrite !elem_of_cons; tauto).
  cbn [String.eqb Ascii.eqb Bool.eqb OriginSubjectHeader OriginStreamHeader OriginStreamSeqHeader
       OriginDigestHeader OriginPublishedAtHeader OriginUnverifiableHeader].
  rewrite parse_itoa, Ht by lia. destruct (Z.ltb_spec 0 (d_StreamSeq d)); [|lia].
  apply String.eqb_neq in Hd. rewrite Hd. unfold replayed_as. f_equal.
  - unfold stamp_survives in Hst. unfold timePtr, time_is_zero.
    destruct (d_PublishedAt d) as [t|]; [destruct Hst as [Hz ->]; apply Z.eqb_neq in Hz; by rewrite Hz|].
    by rewrite Hst.
  - by destruct (d_Unverifiable d).
Qed.

Lemma round_trip_delivery sid sid' subject origin md m :
  isSHA256 (sha256_hex (j_Data m)) = true -> 0 < d_StreamSeq (delivery sid m) < two64 ->
  stamp_survives (delivery sid m) ->
  delivery sid' (round_trip sid subject origin md m) = replayed_as origin (delivery sid m).
Proof.
  intros Hs Hq Hst. destruct (delivery_digest sid m Hs) as [Ht Hd].
  apply delivery_of_headers; [|done..]. intros k Hk. simpl. apply get_replay.
  - rewrite dlq_header by lia.
    change (itoa (d_StreamSeq (delivery sid m)) <> ""). apply itoa_nonempty. lia.
  - unfold replayed_keys in Hk. rewrite !elem_of_cons in Hk.
    destruct Hk as [->|[->|[->|[->|[->|[->|Hk]]]]]]; [reflexivity..|by apply not_elem_of_nil in Hk].
Qed.
End Lemmas.

(** ** Properties *)

(** Any number of trips, each with its own worker incarnation and metadata. *)
Fixpoint round_trips `{StampEnv} `{SnapshotEnv} (subject origin : string)
    (trips : list (string * option metadata)) (m : jetstream_msg) : jetstream_msg :=
  match trips with
  | [] => m
  | (sid, md) :: rest => round_trips subject origin rest (round_trip sid subject origin md m)
  end.

(** A dead letter keeps its identity however often it is replayed.  After any
    positive number of trips through the dead-letter stream, by whichever worker
    incarnations, the receipt the worker derives names the stream incarnation,
    sequence, digest and publication instant of the message that was lost first,
    is marked as a replay, and is unverifiable exactly if the first was; the body
    and the subject it returns to are the original ones. *)
Theorem replay_keeps_identity `{StampEnv} `{SnapshotEnv} sid0 sid subject origin first rest m :
  isSHA256 (sha256_hex (j_Data m)) = true -> 0 < d_StreamSeq (delivery sid0 m) < two64 ->
  stamp_survives (delivery sid0 m) -> origin <> "" ->
  let m' := round_trips subject origin ((sid0, first) :: rest) m in
  delivery sid m' = replayed_as origin (delivery sid0 m) /\
  j_Data m' = j_Data m /\ j_Subject m' = origin.
Proof.
  intros Hs Hq Hst Ho. simpl.
  assert (Hgen : forall rest sid m1, delivery sid m1 = replayed_as origin (delivery sid0 m) ->
    (forall sid', delivery sid' m1 = delivery sid m1) -> j_Data m1 = j_Data m -> j_Subject m1 = origin ->
    let m' := round_trips subject origin rest m1 in
    delivery sid m' = replayed_as origin (delivery sid0 m) /\ j_Data m' = j_Data m /\ j_Subject m' = origin).
  { clear rest sid. induction rest as [|[s md] rest IH]; intros sid m1 Hd Hall Hb Hj; [done|]. simpl.
    assert (Hr : forall s', delivery s' (round_trip s subject origin md m1) = replayed_as origin (delivery sid0 m)).
    { intros s'. rewrite round_trip_delivery; rewrite ?Hb, ?Hall, ?Hd; done. }
    apply (IH sid); [apply Hr|intros; by rewrite !Hr|done|].
    simpl. unfold replay_target. rewrite dlq_header by (rewrite Hall, Hd; simpl; lia).
    cbn [String.eqb Ascii.eqb Bool.eqb OriginSubjectHeader OriginStreamHeader OriginStreamSeqHeader
         OriginDigestHeader OriginPublishedAtHeader OriginUnverifiableHeader].
    apply String.eqb_neq in Ho. by rewrite Ho. }
  apply Hgen.
  - by apply round_trip_delivery.
  - intros. by rewrite !round_trip_delivery.
  - done.
  - simpl. unfold replay_target. rewrite dlq_header by lia.
    cbn [String.eqb Ascii.eqb Bool.eqb OriginSubjectHeader OriginStreamHeader OriginStreamSeqHeader
         OriginDigestHeader OriginPublishedAtHeader OriginUnverifiableHeader].
    apply String.eqb_neq in Ho. by rewrite Ho.
Qed.

(** ** Witnesses *)

#[local] Existing Instance w_snapshot_env.

(** Instants written as decimal nanoseconds. *)
Definition w_stamp_env : StampEnv := {| format_stamp := itoa; parse_stamp := fun s => default 0 (parse_uint s) |}.
#[local] Existing Instance w_stamp_env.

Definition w_lost : jetstream_msg :=
  {| j_Subject := "agentray.events"; j_Data := "[]"; j_Headers := ∅;
     j_Metadata := Some {| md_Stream := "EVENTS"; md_StreamSeq := 7; md_ConsumerSeq := 4;
       md_NumDelivered := 1; md_Timestamp := 12 |} |}.

Definition w_replay : metadata :=
  {| md_Stream := "EVENTS"; md_StreamSeq := 90; md_ConsumerSeq := 41; md_NumDelivered := 1;
     md_Timestamp := 99 |}.

Definition w_trips : list (string * option metadata) :=
  [("EVENTS@1", None); ("EVENTS@2", Some w_replay)].

Lemma replay_keeps_identity_witness :
  let m' := round_trips "agentray.events" "agentray.events" w_trips w_lost in
  delivery "EVENTS@3" m' = replayed_as "agentray.events" (delivery "EVENTS@1" w_lost) /\
  j_Data m' = j_Data w_lost /\ j_Subject m' = "agentray.events".
Proof.
  apply (replay_keeps_identity "EVENTS@1" "EVENTS@3" "agentray.events" "agentray.events" None
    [("EVENTS@2", Some w_replay)] w_lost).
  - vm_compute. reflexivity.
  - vm_compute. split; reflexivity.
  - vm_compute. split; [discriminate|reflexivity].
  - discriminate.
Defined.
