(* ===== verification/Settler.v ===== *)
(** * Settler: connector messages of the durable worker

    [externalRowsSettler] of [internal/dataplane/ingest/queue.go] and
    [decodeConnectorEnvelope] of [snapshot_protocol.go].  A connector message is
    a batch of rows or a snapshot envelope; it is applied to the DuckDB file with
    a few bounded attempts and then settled.  Which calls the engine, the disk
    reserve and the dead-letter publication refuse, and the clock, are functions
    of the number of calls made so far, as in [Pipeline].

    JSON decoding is the class [WireEnv]. *)

From S2P Require Import Prelude GoStrings GoTime Duck Journal Persons Landing Batcher Pipeline SnapshotEnvelope SnapshotStore SnapshotEvidence DeadLetter.
Import String.
Open Scope string_scope.
Open Scope list_scope.
Open Scope Z_scope.

(** ** The wire *)

Record ExternalRow := { er_Key : string; er_Cursor : string; er_Data : string }.

Record ExternalRowsBatch := {
  b_ProjectID : string; b_ConnectorID : string; b_Table : string; b_Rows : list ExternalRow;
  b_Source : option SourceReceiptMark;
}.

Definition LandedRows (b : ExternalRowsBatch) : list LandedRow :=
  (fun r => {| lr_Key := er_Key r; lr_Cursor := er_Cursor r; lr_DataJSON := er_Data r |}) <$> b_Rows b.

(** [wire_fields] decodes the top-level object: which fields are there, and
    whether they are null.  [wire_text] decodes one field as a string. *)
Class WireEnv := {
  wire_fields : string -> option (gmap string bool);
  wire_text : string -> string -> option string;
  wire_snapshot : string -> option SnapshotEnvelope;
  wire_batch : string -> option ExternalRowsBatch;
}.

Section Decode.
Context `{SnapshotEnv} `{WireEnv}.

Definition ParseSnapshotEnvelope (raw : string) : option SnapshotEnvelope :=
  match wire_fields raw with
  | None => None
  | Some fields =>
      match wire_text raw "kind" with
      | None => None
      | Some kind =>
          if requireSnapshotFields fields kind then
            match wire_snapshot raw with
            | None => None
            | Some env => if is_some (Validate env) then None else Some env
            end
          else None
      end
  end.

Definition decodeLegacyConnectorBatch (raw : string) : option ExternalRowsBatch :=
  match wire_batch raw with
  | None => None
  | Some b =>
      if String.eqb (b_ProjectID b) "" || String.eqb (b_ConnectorID b) "" || String.eqb (b_Table b) ""
      then None else Some b
  end.

(** Fields a body without a protocol may not carry. *)
Definition snapshot_only : list string :=
  ["kind"; "sync_id"; "generation"; "generation_seq"; "batch_id"; "batch_index"; "expected_batches";
   "batch_manifest_sha256"; "binding_digest"].

Inductive connector_message := Rows_of (b : ExternalRowsBatch) | Snapshot_of (env : SnapshotEnvelope).

Definition decodeConnectorEnvelope (raw : string) : option connector_message :=
  match wire_fields raw with
  | None => None
  | Some probe =>
      if is_some (probe !! "protocol") then
        match wire_text raw "protocol" with
        | None => None
        | Some protocol =>
            if String.eqb protocol SnapshotProtocolV1
            then Snapshot_of <$> ParseSnapshotEnvelope raw
            else None
        end
      else if existsb (fun f => is_some (probe !! f)) snapshot_only then None
      else Rows_of <$> decodeLegacyConnectorBatch raw
  end.
End Decode.

Definition sourceReceiptFromSnapshotEnvelope (env : SnapshotEnvelope) (published : option Z) :
    SourceReceiptMark :=
  with_published published (sourceReceiptFromSnapshot env).

(** ** Settling one message *)

Definition connectorInsertAttempts : nat := 3.
Definition connectorNakDelay : Z := 5 * second.

(** [dead_letter_fails] and its receipt-carrying form answer whether the
    publication of that call fails; [None] where the settler has none. *)
Record externalRowsSettler := {
  st_deadLetter : option (Z -> bool); st_deadLetterWithReceipt : option (Z -> bool);
  st_recordHole : bool; st_maxDeliver : Z; st_durable : string; st_streamID : string; st_nakDelay : Z;
}.

Inductive settler_action :=
| CApply (mark : AppliedMark) (ok : bool)
| CSleep (d : Z)
| CRecord (mark : AppliedMark) (ok : bool)
| CDead (d : DeliveryReceiptMark) (ok : bool)
| CHole (d : DeliveryReceiptMark) (source : option SourceReceiptMark) (ok : bool)
| CAck | CNak (delay : Z) | CTerm.

Record cstate := { c_world : duck_world; c_trace : list settler_action; c_metrics : option counters }.

Definition clog (a : settler_action) (st : cstate) : cstate :=
  {| c_world := c_world st; c_trace := a :: c_trace st; c_metrics := c_metrics st |}.
Definition ccount (f : counters -> counters) (st : cstate) : cstate :=
  {| c_world := c_world st; c_trace := c_trace st; c_metrics := f <$> c_metrics st |}.

(** A call on the file, in the trace with its outcome. *)
Definition call (a : bool -> settler_action) (f : Z -> duckdb -> duckdb * option duck_error) (st : cstate) :
    cstate * option duck_error :=
  let '(w, e) := next (c_world st) (f (calls (c_world st)) (file (c_world st))) in
  ({| c_world := w; c_trace := a (negb (is_some e)) :: c_trace st; c_metrics := c_metrics st |}, e).

Section Settle.
Context `{UuidEnv} `{JsonEnv} `{SnapshotEnv} `{WireEnv} `{StampEnv}.
Context (io low : Z -> bool) (faults : Z -> engine_faults) (clock : Z -> Z).
Context (s : externalRowsSettler).

Definition nak_connector (st : cstate) : cstate :=
  let delay := if st_nakDelay s <=? 0 then connectorNakDelay else st_nakDelay s in
  ccount recordNak (clog (CNak delay) st).

Definition settled_position (m : jetstream_msg) : AppliedMark :=
  {| m_Durable := st_durable s; m_Seq := seq m; m_Deliveries := []; m_Source := None;
     m_SettlementOnly := false; m_suppressSourceMutation := false |}.

(** [recordSettled] of queue.go. *)
Definition record_settled (m : jetstream_msg) (st : cstate) : cstate * option duck_error :=
  if String.eqb (st_durable s) "" then (st, None)
  else call (CRecord (settled_position m))
         (fun n => RecordPosition (io n) (clock n) (settled_position m)) st.

Definition has_dead_letter : bool := is_some (st_deadLetter s) || is_some (st_deadLetterWithReceipt s).

Definition publish_dead_letter (d : DeliveryReceiptMark) (st : cstate) : cstate * option duck_error :=
  let fails := match st_deadLetterWithReceipt s with
               | Some f => f
               | None => match st_deadLetter s with Some f => f | None => fun _ => true end
               end in
  call (CDead d) (fun n file => (file, if fails n then Some ErrIO else None)) st.

Definition record_connector_hole (d : DeliveryReceiptMark) (source : option SourceReceiptMark) (st : cstate) :
    cstate * option duck_error :=
  if st_recordHole s then call (CHole d source) (fun n => RecordReadinessHole (io n) d source) st
  else (st, None).

(** Record, dead-letter, record the hole, terminate; a failure asks for redelivery. *)
Definition terminate (m : jetstream_msg) (d : DeliveryReceiptMark) (source : option SourceReceiptMark)
    (st : cstate) : cstate :=
  match record_settled m st with
  | (st1, Some _) => nak_connector st1
  | (st1, None) =>
      match publish_dead_letter d st1 with
      | (st2, Some _) => nak_connector st2
      | (st2, None) =>
          match record_connector_hole d source st2 with
          | (st3, Some _) => nak_connector st3
          | (st3, None) => clog CTerm (ccount recordDeadLetter st3)
          end
      end
  end.

Definition poison_connector (m : jetstream_msg) (st : cstate) : cstate :=
  if has_dead_letter then terminate m (delivery (st_streamID s) m) None st
  else nak_connector st.

Definition with_identity (pid cid table : string) (d : DeliveryReceiptMark) : DeliveryReceiptMark :=
  {| d_StreamID := d_StreamID d; d_Subject := d_Subject d; d_StreamSeq := d_StreamSeq d;
     d_PayloadSHA256 := d_PayloadSHA256 d; d_PublishedAt := d_PublishedAt d; d_ProjectID := pid;
     d_ConnectorID := cid; d_Table := table; d_Replayed := d_Replayed d;
     d_Unverifiable := d_Unverifiable d |}.

(** The receipt of a batch: promoted, published when the message was unless it says. *)
Definition batch_source (d : DeliveryReceiptMark) (src : SourceReceiptMark) : SourceReceiptMark :=
  {| s_ProjectID := s_ProjectID src; s_ConnectorID := s_ConnectorID src; s_Table := s_Table src;
     s_SyncID := s_SyncID src; s_RunID := s_RunID src; s_Generation := s_Generation src;
     s_GenerationSeq := s_GenerationSeq src; s_BindingDigest := s_BindingDigest src;
     s_BatchID := s_BatchID src; s_BatchIndex := s_BatchIndex src; s_PayloadSHA256 := s_PayloadSHA256 src;
     s_ExpectedBatches := s_ExpectedBatches src; s_ExpectedRows := s_ExpectedRows src;
     s_CaptureStartedAt := s_CaptureStartedAt src; s_CaptureFinishedAt := s_CaptureFinishedAt src;
     s_PublishedAt := match s_PublishedAt src with Some t => Some t | None => d_PublishedAt d end;
     s_Complete := s_Complete src; s_Promoted := true |}.

(** The delivery and the source evidence of a decoded message. *)
Definition message_delivery (msg : connector_message) (m : jetstream_msg) : DeliveryReceiptMark :=
  let d := delivery (st_streamID s) m in
  match msg with
  | Snapshot_of env => with_identity (ProjectID env) (ConnectorID env) (Table env) d
  | Rows_of b => with_identity (b_ProjectID b) (b_ConnectorID b) (b_Table b) d
  end.

Definition message_source (msg : connector_message) (m : jetstream_msg) : option SourceReceiptMark :=
  let d := delivery (st_streamID s) m in
  match msg with
  | Snapshot_of env => Some (sourceReceiptFromSnapshotEnvelope env (d_PublishedAt d))
  | Rows_of b => batch_source d <$> b_Source b
  end.

Definition message_mark (msg : connector_message) (m : jetstream_msg) : AppliedMark :=
  {| m_Durable := st_durable s; m_Seq := seq m; m_Deliveries := [message_delivery msg m];
     m_Source := match msg with Snapshot_of _ => None | Rows_of _ => message_source msg m end;
     m_SettlementOnly := false; m_suppressSourceMutation := false |}.

Definition apply_message (msg : connector_message) (mark : AppliedMark) (n : Z) (d : duckdb) :
    duckdb * option duck_error :=
  match msg with
  | Snapshot_of env => ApplySnapshotEnvelope (faults n) (clock n) env mark d
  | Rows_of b =>
      InsertExternalRows (io n) (low n) (clock n) (b_ProjectID b) (b_ConnectorID b) (b_Table b)
        (LandedRows b) mark d
  end.

(** The attempts from [attempt] on, [left] of them remaining. *)
Fixpoint apply_attempts (left : nat) (attempt : Z) (msg : connector_message) (mark : AppliedMark)
    (st : cstate) : cstate * option duck_error :=
  match left with
  | O => (st, None)
  | S l =>
      match call (CApply mark) (apply_message msg mark) st with
      | (st1, None) => (st1, None)
      | (st1, Some err) =>
          match l with
          | O => (st1, Some err)
          | _ => apply_attempts l (attempt + 1) msg mark
                   (clog (CSleep (backoff attempt)) (ccount recordRetry st1))
          end
      end
  end.

Definition settle (m : jetstream_msg) (st : cstate) : cstate :=
  match decodeConnectorEnvelope (j_Data m) with
  | None => poison_connector m st
  | Some msg =>
      match apply_attempts connectorInsertAttempts 0 msg (message_mark msg m) st with
      | (st1, None) => clog CAck st1
      | (st1, Some err) =>
          let st1 := ccount recordInsertFailure st1 in
          if bool_decide (err = ErrDataCapacity) then nak_connector st1
          else if (u64 (st_maxDeliver s) <=? deliveries m) && has_dead_letter
          then terminate m (message_delivery msg m) (message_source msg m) st1
          else nak_connector st1
      end
  end.

End Settle.

(** ** Lemmas *)

Section Lemmas.
Context `{UuidEnv} `{JsonEnv} `{SnapshotEnv} `{WireEnv} `{StampEnv}.

(** The file's position of the durable is at or above [mark]'s. *)
Definition mark_covered (mark : AppliedMark) (d : duckdb) : Prop :=
  m_Durable mark <> "" -> m_Seq mark <= pos_Seq (read_position d (m_Durable mark)).

Lemma covered_claim mark d d' :
  same_claim (advancePositionTx mark d) d' -> 0 <= m_Seq mark -> mark_covered mark d'.
Proof.
  intros Hc Hs Hd. rewrite (same_claim_position _ _ _ Hc), read_position_advance by done.
  rewrite String.eqb_refl. simpl. destruct (match ingest_position d !! _ with Some _ => _ | None => _ end); lia.
Qed.

Lemma covered_claim_after mark d d' : same_claim d d' -> mark_covered mark d -> mark_covered mark d'.
Proof. intros Hc Hm Hd. rewrite (same_claim_position _ _ _ Hc). by apply Hm. Qed.

Lemma receipts_covered mark mark' at_ d d' :
  recordAppliedReceiptsTx mark' at_ (advancePositionTx mark d) = Ok d' -> 0 <= m_Seq mark ->
  mark_covered mark d'.
Proof. intros Hr. eapply covered_claim. by eapply recordAppliedReceipts_claim. Qed.

Lemma RecordPosition_covered io now mark d d' :
  RecordPosition io now mark d = (d', None) -> 0 <= m_Seq mark -> mark_covered mark d'.
Proof.
  unfold RecordPosition. destruct (_ && _ && _) eqn:E.
  { intros _ _ Hd. bool_props. done. }
  intros [_ Hr]%Write_ok. by eapply receipts_covered.
Qed.

(** A landed row keeps its key, whichever statement wrote it. *)
Lemma land_rows_keys superseded k now rows m n m' n' :
  land_rows superseded k now rows m n = (m', n') ->
  (forall x, is_Some (m !! x) -> is_Some (m' !! x)) /\
  forall r, r ∈ rows -> is_Some (m' !! (k, lr_Key r)).
Proof.
  revert m n. induction rows as [|r rows IH]; intros m n; simpl.
  { intros [= <- <-]. split; [done|]. intros r Hr. by apply not_elem_of_nil in Hr. }
  assert (Hins : forall v x, is_Some (m !! x) -> is_Some (<[(k, lr_Key r) := v]> m !! x)).
  { intros v x Hx. apply lookup_insert_is_Some'. by right. }
  destruct superseded; [destruct (m !! (k, lr_Key r)) eqn:E|]; intros Hl; apply IH in Hl as [K R];
    (split; [by auto|]); intros r' [->|Hr']%elem_of_cons; auto; apply K; eauto;
    rewrite lookup_insert_eq; eauto.
Qed.

Lemma markAmbiguous_claim s now d d' :
  markSourceOrderingAmbiguousTx s now d = Ok d' -> same_claim d d' /\ external_rows d' = external_rows d.
Proof.
  unfold markSourceOrderingAmbiguousTx. intros Hm.
  destruct (cast_uuid (s_ProjectID s)) as [p|]; [|done]. cbn [result_bind] in Hm.
  destruct (cast_uuid (s_ConnectorID s)) as [c|]; [|done]. cbn [result_bind] in Hm. by injection Hm as <-.
Qed.

Lemma invalidate_claim p c t at_ d :
  same_claim d (invalidateSourceConfirmationsTx p c t at_ d) /\
  external_rows (invalidateSourceConfirmationsTx p c t at_ d) = external_rows d.
Proof. unfold invalidateSourceConfirmationsTx. by repeat case_match. Qed.

Lemma insertExternalRowsTx_ok pid cid table rows mark now d d' :
  insertExternalRowsTx pid cid table rows mark now d = Ok d' -> 0 <= m_Seq mark ->
  mark_covered mark d' /\ forall r, r ∈ rows -> is_Some (external_rows d' !! (pid, cid, table, lr_Key r)).
Proof.
  unfold insertExternalRowsTx. intros Hi Hs.
  destruct (match m_Source mark with None => _ | Some s => _ end) as [sup|]; [|done]. cbn [result_bind] in Hi.
  destruct (land_rows _ _ _ _ _ _) as [m n] eqn:El. apply land_rows_keys in El as [_ El].
  destruct (recordAppliedReceiptsTx _ _ _) as [d1|] eqn:E1; [|done]. cbn [result_bind] in Hi.
  pose proof (receipts_covered _ _ _ _ _ E1 Hs) as Hcov.
  assert (Hx : external_rows d1 = m).
  { apply recordAppliedReceipts_frame in E1 as [(_ & _ & ->) _].
    unfold advancePositionTx. by destruct (String.eqb (m_Durable mark) ""). }
  assert (Hgoal : forall d2, same_claim d1 d2 /\ external_rows d2 = external_rows d1 ->
    mark_covered mark d2 /\ forall r, r ∈ rows -> is_Some (external_rows d2 !! (pid, cid, table, lr_Key r))).
  { intros d2 [Hc Hr]. split; [by eapply covered_claim_after|]. rewrite Hr, Hx. exact El. }
  apply Hgoal. destruct (m_Source mark) as [s|]; [destruct sup|].
  - destruct (markSourceOrderingAmbiguousTx _ _ _) as [d2|] eqn:E2; [|done]. cbn [result_bind] in Hi.
    apply markAmbiguous_claim in E2 as [C2 X2]. destruct (n =? 0); injection Hi as <-; [done|].
    destruct (invalidate_claim (Some pid) (Some cid) (Some table) now d2) as [C3 X3].
    split; [by eapply same_claim_trans|by rewrite X3].
  - injection Hi as <-. split; [apply same_claim_refl|done].
  - injection Hi as <-. apply invalidate_claim.
Qed.

Lemma transition_covered now env mark a d d' p :
  applySnapshotTransitionTx now env mark a d = Ok (d', p) -> 0 <= m_Seq mark -> mark_covered mark d'.
Proof.
  unfold applySnapshotTransitionTx, RecordSnapshotPromotionTx. intros Ht Hs.
  destruct (trySnapshotPromotion now env d) as [[[d1 st] pr]|]; [|done]. cbn [result_bind] in Ht.
  destruct st, pr as [q|];
    repeat match type of Ht with context[recordAppliedReceiptsTx ?mk ?t ?x] =>
      let d3 := fresh "d" in let E := fresh "E" in
      destruct (recordAppliedReceiptsTx mk t x) as [d3|] eqn:E; [|done]; cbn [result_bind] in Ht end;
    injection Ht as <- <-;
    first [by eapply receipts_covered
          |eapply covered_claim_after; [by eapply recordAppliedReceipts_claim|by eapply receipts_covered]].
Qed.

Lemma settleCleaned_covered now mark d d' :
  settleCleanedSnapshotEnvelopeTx now mark d = Ok d' -> 0 <= m_Seq mark -> mark_covered mark d'.
Proof.
  unfold settleCleanedSnapshotEnvelopeTx. intros Hr Hs.
  exact (receipts_covered (with_source None (m_suppressSourceMutation mark) mark) _ _ _ _ Hr Hs).
Qed.

Lemma ApplySnapshotEnvelope_covered f now env mark d d' :
  ApplySnapshotEnvelope f now env mark d = (d', None) -> 0 <= m_Seq mark -> mark_covered mark d'.
Proof.
  unfold ApplySnapshotEnvelope, applySnapshotBatchEnvelope, rollback_staged. intros Ha Hs.
  destruct (Validate env); [done|]. destruct (fault_open f); [done|]. destruct (String.eqb _ _).
  - destruct (fault_stage f); [done|]. unfold batch_tx in Ha.
    destruct (cleaned env d) as [[]|]; cbn [result_bind] in Ha; [| |done].
    + destruct (settleCleanedSnapshotEnvelopeTx now mark d) as [d1|] eqn:E; [|done].
      cbn [result_bind] in Ha. injection Ha as <-. by eapply settleCleaned_covered.
    + destruct (fault_space f); [done|]. cbn [negb] in Ha.
      destruct (stageSnapshotBatch env d) as [[d1 a]|]; [|done]. cbn [result_bind] in Ha.
      destruct (snapshotBatchMayCompleteGenerationTx env d1) as [[]|]; cbn [result_bind] in Ha; [| |done].
      * destruct (fault_checkpoint f); [by destruct a|].
        destruct (Write _ _ d1) as [d2 [e|]] eqn:Ew; [by destruct a|]. injection Ha as <-.
        apply Write_ok in Ew as [_ Ew].
        destruct (applySnapshotTransitionTx _ _ _ _ _) as [[d3 p]|] eqn:Et; [|done].
        injection Ew as <-. by eapply transition_covered.
      * destruct (applySnapshotTransitionTx _ _ _ _ _) as [[d3 p]|] eqn:Et; [|done].
        cbn [result_bind] in Ha. injection Ha as <-. by eapply transition_covered.
  - apply Write_ok in Ha as [_ Hc]. unfold completion_tx in Hc.
    destruct (cleaned env d) as [[]|]; cbn [result_bind] in Hc; [by eapply settleCleaned_covered| |done].
    destruct (fault_space f); [done|]. cbn [negb] in Hc.
    destruct (stageSnapshotCompletion env d) as [[d1 a]|]; [|done]. cbn [result_bind] in Hc.
    destruct (applySnapshotTransitionTx _ _ _ _ _) as [[d3 p]|] eqn:Et; [|done].
    cbn [result_bind] in Hc. injection Hc as <-. by eapply transition_covered.
Qed.
End Lemmas.

Section Traces.
Context `{UuidEnv} `{JsonEnv} `{SnapshotEnv} `{WireEnv} `{StampEnv}.
Context (io low : Z -> bool) (faults : Z -> engine_faults) (clock : Z -> Z).
Context (s : externalRowsSettler).

(** What applying [msg] over the file [d] left in [d']: the rows of a batch are
    keys of the file; a snapshot envelope left [snapshot_evidence]. *)
Definition rows_landed (msg : connector_message) (d d' : duckdb) : Prop :=
  match msg with
  | Snapshot_of env => snapshot_evidence env d d'
  | Rows_of b => forall r, r ∈ b_Rows b -> exists pid cid,
      uuid_parse (b_ProjectID b) = Some pid /\ uuid_parse (b_ConnectorID b) = Some cid /\
      is_Some (external_rows d' !! (pid, cid, b_Table b, er_Key r))
  end.

Lemma apply_message_ok msg mark n d d' :
  apply_message io low faults clock msg mark n d = (d', None) -> 0 <= m_Seq mark ->
  mark_covered mark d' /\ rows_landed msg d d'.
Proof.
  destruct msg as [b|env]; simpl;
    [|intros Ha Hs; split; [by eapply ApplySnapshotEnvelope_covered|exact (ApplySnapshotEnvelope_evidence _ _ _ _ _ _ _ Ha)]].
  unfold InsertExternalRows. intros Ha Hs. destruct (LandedRows b) as [|lr rows] eqn:El.
  - split; [by eapply RecordPosition_covered|]. intros r Hr. unfold LandedRows in El.
    destruct (b_Rows b); [by apply not_elem_of_nil in Hr|done].
  - destruct (low n); [done|]. destruct (uuid_parse (b_ProjectID b)) as [pid|]; [|done].
    destruct (uuid_parse (b_ConnectorID b)) as [cid|]; [|done]. apply Write_ok in Ha as [_ Ha].
    apply insertExternalRowsTx_ok in Ha as [Hc Hx]; [|done]. split; [done|]. intros r Hr.
    exists pid, cid. split_and!; [done..|]. rewrite <- El in Hx.
    assert (Hin : {| lr_Key := er_Key r; lr_Cursor := er_Cursor r; lr_DataJSON := er_Data r |} ∈ LandedRows b)
      by (unfold LandedRows; apply list_elem_of_fmap; by exists r).
    exact (Hx _ Hin).
Qed.

(** An attempt that failed leaves what the next one lands unchanged. *)
Lemma rows_landed_retry msg mark n d d1 e d' :
  apply_message io low faults clock msg mark n d = (d1, Some e) -> rows_landed msg d1 d' -> rows_landed msg d d'.
Proof.
  destruct msg as [b|env]; simpl; [done|]. intros [Hr Hw]%ApplySnapshotEnvelope_evidence.
  by apply snapshot_evidence_before.
Qed.

Definition settlement (a : settler_action) : bool :=
  match a with CAck | CNak _ | CTerm => true | _ => false end.

Definition is_apply (a : settler_action) : bool := match a with CApply _ _ => true | _ => false end.

Definition applies (tr : list settler_action) : nat :=
  foldr (fun a n => if is_apply a then S n else n) O tr.

Lemma applies_app tr tr' : applies (tr ++ tr') = (applies tr + applies tr')%nat.
Proof. induction tr as [|a tr IH]; simpl; [done|]. destruct (is_apply a); simpl; by rewrite IH. Qed.

(** [new] comes on top of the trace of [st] and settles nothing. *)
Definition extends (st st' : cstate) (new : list settler_action) : Prop :=
  c_trace st' = new ++ c_trace st /\ forall a, a ∈ new -> settlement a = false.

Lemma call_spec a f st st' e : call a f st = (st', e) ->
  c_trace st' = a (negb (is_some e)) :: c_trace st /\
  f (calls (c_world st)) (file (c_world st)) = (file (c_world st'), e).
Proof.
  unfold call, next. destruct (f _ _) as [d x] eqn:E. intros [= <- <-]. done.
Qed.

Lemma apply_attempts_spec left attempt msg mark st st' e :
  apply_attempts io low faults clock left attempt msg mark st = (st', e) -> (0 < left)%nat ->
  0 <= m_Seq mark ->
  exists new, extends st st' new /\ (applies new <= left)%nat /\
    (e = None -> mark_covered mark (file (c_world st')) /\
       rows_landed msg (file (c_world st)) (file (c_world st'))).
Proof.
  intros Ha Hl Hs. revert attempt st Ha. induction left as [|l IH]; [lia|]. intros attempt st. cbn [apply_attempts].
  destruct (call (CApply mark) _ st) as [st1 e1] eqn:Ec. apply call_spec in Ec as [Ht Hf].
  assert (He : extends st st1 [CApply mark (negb (is_some e1))]).
  { split; [done|]. by intros a ->%list_elem_of_singleton. }
  destruct e1 as [err|].
  - destruct l as [|l].
    + intros [= <- <-]. eexists. split; [exact He|]. split; [simpl; lia|done].
    + intros Ha. destruct (IH ltac:(lia) _ _ Ha) as (new & [Hn Hx] & Hc & Hok).
      exists (new ++ [CSleep (backoff attempt); CApply mark false]). split; [split|split].
      * rewrite Hn. simpl. rewrite Ht. simpl. by rewrite <- app_assoc.
      * intros a [Ha'|Ha']%elem_of_app; [auto|]. by apply elem_of_cons in Ha' as [-> | ->%list_elem_of_singleton].
      * rewrite applies_app. simpl. lia.
      * intros He'. destruct (Hok He') as [Hcov Hrows]. split; [done|]. by eapply rows_landed_retry.
  - intros [= <- <-]. eexists. split; [exact He|]. split; [simpl; lia|]. intros _.
    by apply apply_message_ok in Hf.
Qed.

(** A settlement on top of a stretch that settles nothing, and what it means. *)
Definition settled_by (st st' : cstate) (P : list settler_action -> settler_action -> Prop) : Prop :=
  exists final past, c_trace st' = final :: past ++ c_trace st /\ settlement final = true /\
    (forall a, a ∈ past -> settlement a = false) /\ P past final.

Lemma settled_nak st st1 past (P : list settler_action -> settler_action -> Prop) :
  extends st st1 past -> (forall delay, 0 < delay -> P past (CNak delay)) ->
  settled_by st (nak_connector s st1) P.
Proof.
  intros [Ht Hn] HP. unfold nak_connector.
  exists (CNak (if st_nakDelay s <=? 0 then connectorNakDelay else st_nakDelay s)), past.
  split_and!; [|done|done|].
  - simpl. by rewrite Ht.
  - apply HP. destruct (Z.leb_spec (st_nakDelay s) 0); [reflexivity|lia].
Qed.

Lemma record_settled_spec m st st' e :
  record_settled io clock s m st = (st', e) -> 0 <= seq m ->
  exists new, extends st st' new /\ applies new = O /\ (e = None -> mark_covered (settled_position s m) (file (c_world st'))).
Proof.
  unfold record_settled. destruct (String.eqb_spec (st_durable s) "") as [Hd|Hd].
  - intros [= <- <-] _. exists []. split_and!; [split; [done|]|done|].
    + intros a Ha. by apply not_elem_of_nil in Ha.
    + intros _ Hne. done.
  - intros [Ht Hf]%call_spec Hs. eexists [_]. split_and!; [split; [exact Ht|]|done|].
    + by intros a ->%list_elem_of_singleton.
    + intros ->. by eapply RecordPosition_covered.
Qed.

(** What a termination means. *)
Definition terminated_with (m : jetstream_msg) (d : DeliveryReceiptMark) (source : option SourceReceiptMark)
    (st' : cstate) (past : list settler_action) (a : settler_action) : Prop :=
  applies past = O /\
  match a with
  | CTerm => mark_covered (settled_position s m) (file (c_world st')) /\ CDead d true ∈ past /\
      (st_recordHole s = true -> CHole d source true ∈ past)
  | CNak delay => 0 < delay
  | _ => False
  end.

Lemma extends_trans st1 st2 st3 n1 n2 :
  extends st1 st2 n1 -> extends st2 st3 n2 -> extends st1 st3 (n2 ++ n1).
Proof.
  intros [T1 N1] [T2 N2]. split; [by rewrite T2, T1, app_assoc|].
  intros a [Ha|Ha]%elem_of_app; auto.
Qed.

Lemma terminate_spec dmarks source m st :
  0 <= seq m ->
  settled_by st (terminate io clock s m dmarks source st)
    (terminated_with m dmarks source (terminate io clock s m dmarks source st)).
Proof.
  intros Hs. unfold terminate.
  destruct (record_settled io clock s m st) as [st1 e1] eqn:E1.
  apply record_settled_spec in E1 as (n1 & X1 & A1 & C1); [|done].
  destruct e1; [by eapply settled_nak|].
  destruct (publish_dead_letter s dmarks st1) as [st2 e2] eqn:E2.
  unfold publish_dead_letter in E2. apply call_spec in E2 as [T2 F2].
  assert (X2 : extends st1 st2 [CDead dmarks (negb (is_some e2))])
    by (split; [exact T2|by intros a ->%list_elem_of_singleton]).
  destruct e2; [eapply settled_nak; [by eapply extends_trans|]; split; [by rewrite applies_app|done]|].
  injection F2 as F2 _.
  destruct (record_connector_hole io s dmarks source st2) as [st3 e3] eqn:E3.
  unfold record_connector_hole in E3.
  assert (X3 : exists n3, extends st2 st3 n3 /\ applies n3 = O /\ same_claim (file (c_world st2)) (file (c_world st3)) /\
    (st_recordHole s = true -> e3 = None -> CHole dmarks source true ∈ n3)).
  { destruct (st_recordHole s).
    - apply call_spec in E3 as [T3 F3]. eexists [_]. split_and!; [split; [exact T3|]|done| |].
      + by intros a ->%list_elem_of_singleton.
      + by eapply RecordReadinessHole_claim.
      + intros _ ->. left.
    - injection E3 as <- <-. exists []. split_and!; [split; [done|]|done|apply same_claim_refl|done].
      intros a Ha. by apply not_elem_of_nil in Ha. }
  destruct X3 as (n3 & X3 & A3 & Hc & Hh).
  pose proof (extends_trans _ _ _ _ _ (extends_trans _ _ _ _ _ X1 X2) X3) as [T N].
  assert (A : applies (n3 ++ [CDead dmarks (negb (is_some (@None duck_error)))] ++ n1) = O)
    by (by rewrite !applies_app, A1, A3).
  destruct e3; [by eapply settled_nak|]. eexists CTerm, _. split_and!; [|done|exact N|].
  - simpl. by rewrite T.
  - split; [exact A|]. simpl. split_and!.
    + eapply covered_claim_after; [exact Hc|]. rewrite <- F2. by apply C1.
    + rewrite elem_of_app. right. left.
    + intros Hr. rewrite elem_of_app. left. by apply Hh.
Qed.

(** The body of [m] is on the dead-letter stream as [d], and its hole is recorded with [source]. *)
Definition dead_with (d : DeliveryReceiptMark) (source : option SourceReceiptMark) (past : list settler_action) :
    Prop :=
  CDead d true ∈ past /\ (st_recordHole s = true -> CHole d source true ∈ past).

(** What settling [m] means, given the stretch of calls before the settlement. *)
Definition settled_with (m : jetstream_msg) (st st' : cstate) (past : list settler_action) (a : settler_action) :
    Prop :=
  (applies past <= connectorInsertAttempts)%nat /\
  let covered := st_durable s <> "" ->
    seq m <= pos_Seq (read_position (file (c_world st')) (st_durable s)) in
  match a with
  | CAck => covered /\ exists msg, decodeConnectorEnvelope (j_Data m) = Some msg /\
      rows_landed msg (file (c_world st)) (file (c_world st'))
  | CTerm => covered /\ has_dead_letter s = true /\
      match decodeConnectorEnvelope (j_Data m) with
      | None => dead_with (delivery (st_streamID s) m) None past
      | Some msg => u64 (st_maxDeliver s) <= deliveries m /\
          dead_with (message_delivery s msg m) (message_source s msg m) past
      end
  | CNak delay => 0 < delay
  | _ => False
  end.

Lemma terminated_settled m d source st st1 n1 :
  extends st st1 n1 -> (applies n1 <= connectorInsertAttempts)%nat -> 0 <= seq m ->
  has_dead_letter s = true ->
  match decodeConnectorEnvelope (j_Data m) with
  | None => d = delivery (st_streamID s) m /\ source = None
  | Some msg => u64 (st_maxDeliver s) <= deliveries m /\
      d = message_delivery s msg m /\ source = message_source s msg m
  end ->
  settled_by st (terminate io clock s m d source st1)
    (settled_with m st (terminate io clock s m d source st1)).
Proof.
  intros [T N] Ha Hs Hd Hw. destruct (terminate_spec d source m st1 Hs) as (a & past & Ht & Hset & Hn & Hp).
  exists a, (past ++ n1). split_and!; [by rewrite Ht, T, app_assoc|done| |].
  { intros x [Hx|Hx]%elem_of_app; auto. }
  destruct Hp as [Hc Hp]. split; [rewrite applies_app, Hc; exact Ha|].
  destruct a; simpl in Hp; try done. destruct Hp as (Hcov & Hdd & Hh).
  assert (Hdead : dead_with d source (past ++ n1)).
  { unfold dead_with. rewrite !elem_of_app. split; [by left|]. intros Hr. left. by apply Hh. }
  split_and!; [exact Hcov|done|]. destruct (decodeConnectorEnvelope (j_Data m)) as [msg|].
  - by destruct Hw as (Hmax & -> & ->).
  - by destruct Hw as [-> ->].
Qed.
End Traces.

(** ** Properties *)

(** C8: every connector message is settled exactly once, with evidence.  Whatever
    calls fail, [settle] ends with one settlement after at most three attempts.
    An acknowledgement means the message decoded, the file's recorded position
    is at or above it, and what it carried is there.  The rows of a batch are keys
    of the file.  A snapshot envelope is staged under its own identity (a batch
    with the rows it carried, unless the file held the batch's record without
    them before; a completion with its counts and digest) or its generation's
    staging was cleaned up before; and a generation whose staged manifest matches
    its completion is promoted, unless a newer one is or a newer receipt fenced it
    off.  A termination means the position was recorded too, the delivery of this
    message is on the dead-letter stream, its hole was recorded with the source
    the message names, and the message either does not decode or has used up its
    deliveries; anything else asks for redelivery with a positive delay. *)
Theorem connector_settlement_has_evidence `{UuidEnv} `{JsonEnv} `{SnapshotEnv} `{WireEnv} `{StampEnv}
    io low faults clock s m st :
  0 <= seq m ->
  settled_by st (settle io low faults clock s m st)
    (settled_with s m st (settle io low faults clock s m st)).
Proof.
  intros Hs. unfold settle, poison_connector.
  assert (Hnil : extends st st []) by (split; [done|]; intros a Ha; by apply not_elem_of_nil in Ha).
  destruct (decodeConnectorEnvelope (j_Data m)) as [msg|] eqn:Ed.
  - destruct (apply_attempts io low faults clock connectorInsertAttempts 0 msg (message_mark s msg m) st)
      as [st1 e] eqn:Ea.
    apply apply_attempts_spec in Ea as (n1 & X1 & A1 & Hok); [|unfold connectorInsertAttempts; lia|done].
    destruct e as [err|].
    + assert (X2 : extends st (ccount recordInsertFailure st1) n1) by exact X1.
      destruct (bool_decide (err = ErrDataCapacity)); [by eapply settled_nak|].
      destruct ((u64 (st_maxDeliver s) <=? deliveries m) && has_dead_letter s) eqn:Em;
        [|by eapply settled_nak].
      apply andb_prop in Em as [Em Hd]. eapply terminated_settled; [done..|]. rewrite Ed. split_and!; [lia|done|done].
    + destruct (Hok eq_refl) as [Hcov Hr]. destruct X1 as [T N]. exists CAck, n1.
      split_and!; [by rewrite <- T|done|done|]. split; [done|]. split; [exact Hcov|]. eauto.
  - destruct (has_dead_letter s) eqn:Hd.
    + eapply terminated_settled; [exact Hnil|simpl; lia|done|done|by rewrite Ed].
    + eapply settled_nak; [exact Hnil|]. intros delay Hpos. split; [simpl; lia|exact Hpos].
Qed.

(** ** Witness *)

#[local] Existing Instance w_landing_json.
#[local] Existing Instance w_snapshot_env.
#[local] Existing Instance w_stamp_env.

Definition w_external_batch : ExternalRowsBatch :=
  {| b_ProjectID := w_uuid; b_ConnectorID := w_uuid2; b_Table := "orders";
     b_Rows := [{| er_Key := "1"; er_Cursor := "c"; er_Data := "{}" |}];
     b_Source := Some (w_source w_uuid 5) |}.

(** A body decodes to the batch when it is [rows] and is not JSON otherwise. *)
Definition w_wire_env : WireEnv :=
  {| wire_fields := fun raw => if String.eqb raw "rows" then Some ∅ else None;
     wire_text := fun _ _ => None; wire_snapshot := fun _ => None;
     wire_batch := fun _ => Some w_external_batch |}.
#[local] Existing Instance w_wire_env.

Definition w_settler : externalRowsSettler :=
  {| st_deadLetter := None; st_deadLetterWithReceipt := Some (fun _ => false); st_recordHole := true;
     st_maxDeliver := 5; st_durable := "blue"; st_streamID := "EVENTS@1"; st_nakDelay := 0 |}.

Definition w_connector_msg (data : string) : jetstream_msg :=
  {| j_Subject := "agentray.rows"; j_Data := data; j_Headers := ∅; j_Metadata := Some w_replay |}.

Definition w_connector_state : cstate :=
  {| c_world := {| file := empty_duckdb; calls := 0 |}; c_trace := []; c_metrics := None |}.

Definition w_settle (data : string) : cstate :=
  settle (fun _ => false) (fun _ => false) (fun _ => no_faults) (fun n => n) w_settler
    (w_connector_msg data) w_connector_state.

(** A batch that lands is acknowledged; a body that does not decode is terminated. *)
Lemma connector_settlement_has_evidence_witness :
  head (c_trace (w_settle "rows")) = Some CAck /\ head (c_trace (w_settle "junk")) = Some CTerm /\
  settled_by w_connector_state (w_settle "rows")
    (settled_with w_settler (w_connector_msg "rows") w_connector_state (w_settle "rows")).
Proof.
  split; [vm_compute; reflexivity|]. split; [vm_compute; reflexivity|].
  apply (connector_settlement_has_evidence (fun _ => false) (fun _ => false) (fun _ => no_faults)
    (fun n => n) w_settler (w_connector_msg "rows") w_connector_state).
  vm_compute. discriminate.
Defined.
