(* ===== verification/SourceReadiness.v ===== *)
(** * SourceReadiness: whether a configured source can be trusted to be queried

    [SourceReadiness] of [internal/dataplane/store/data_readiness.go]: the state
    of each configured source from this store's receipts, the publications the
    control plane observed, and the confirmations of the query sandbox
    ([query_evidence.go]).

    The published targets are rows of Postgres, one per sync: an argument. *)

From S2P Require Import Prelude GoStrings GoTime Cron Duck Journal.
Import String.
Open Scope string_scope.
Open Scope list_scope.
Open Scope Z_scope.

Definition ReadinessNotConfigured : string := "not_configured".
Definition ReadinessSyncing : string := "syncing".
Definition ReadinessReady : string := "ready".
Definition ReadinessStale : string := "stale".
Definition ReadinessIncomplete : string := "incomplete".

Record Readiness := {
  State : string; PublishedAt : option Z; LandedAt : option Z; QueryableAt : option Z;
  Generation : option string; CaptureStartedAt : option Z; CaptureFinishedAt : option Z;
  Reason : option string; LastCompleteAt : option Z;
}.

Record ReadinessSource := {
  rs_SyncID : string; rs_ConnectorID : string; rs_Table : string; rs_ScheduleCron : string;
  rs_Configured : bool;
}.

Record localSourceReceipt := {
  lr_PublishedAt : option Z; lr_LandedAt : option Z; lr_LastCompleteAt : option Z;
  lr_CaptureStartedAt : option Z; lr_CaptureFinishedAt : option Z; lr_Generation : option string;
  lr_RunID : string; lr_GenerationKey : string; lr_GenerationSeq : Z; lr_MutationSeq : Z;
  lr_CompletionSeen : bool; lr_AppliedBatches : Z; lr_ExpectedBatches : option Z;
  lr_HasHole : bool; lr_OrderingAmbiguous : bool;
}.

Record publicationTarget := {
  pt_PublishedAt : Z; pt_CaptureStarted : option Z; pt_RunID : string; pt_Generation : string;
  pt_GenerationSeq : Z;
}.

(** The sandbox copied the source at these values. *)
Record sourceConfirmation := {
  sc_MutationSeq : Z; sc_GenerationKey : string; sc_CaptureStartedAt : option Z;
  sc_CaptureFinishedAt : option Z; sc_ConfirmedAt : Z;
}.

(** ** The receipts of this store *)

(** An open hole covers a source: its project is unknown, or it is the source's
    and the connector and the table are the source's where they are known. *)
Definition hole_covers (k : source_key) (h : hole_row) : bool :=
  let '(pid, cid, table) := k in
  match h_project_id h with
  | None => true
  | Some p =>
      String.eqb p pid
      && match h_connector_id h with None => true | Some c => String.eqb c cid end
      && match h_table_name h with None => true | Some t => String.eqb t table end
  end.

Definition has_hole (d : duckdb) (k : source_key) : bool :=
  existsb (fun pr : string * position_row => 0 <? refused_missing pr.2) (map_to_list (ingest_position d))
  || existsb (fun kh : delivery_key * hole_row => negb (is_some (h_cleared_at kh.2)) && hole_covers k kh.2)
       (map_to_list (receipt_holes d)).

(** [generation_key] of the batch count: coalesce(generation, run, legacy). *)
Definition batches_key (r : source_row) : string :=
  default "legacy-unknown" (option_or (r_generation r) (r_run_id r)).

Definition local_receipt (d : duckdb) (k : source_key) (r : source_row) : localSourceReceipt := {|
  lr_PublishedAt := r_published_at r;
  lr_LandedAt := if bool_decide (r_landed_generation_key r = Some (r_generation_key r))
                 then r_landed_at r else None;
  lr_LastCompleteAt := r_last_complete_at r; lr_CaptureStartedAt := r_capture_started_at r;
  lr_CaptureFinishedAt := r_capture_finished_at r; lr_Generation := r_generation r;
  lr_RunID := default "" (r_run_id r); lr_GenerationKey := r_generation_key r;
  lr_GenerationSeq := r_generation_seq r; lr_MutationSeq := r_mutation_seq r;
  lr_CompletionSeen := r_completion_seen r; lr_AppliedBatches := count_batches d k (batches_key r);
  lr_ExpectedBatches := r_expected_batches r; lr_HasHole := has_hole d k;
  lr_OrderingAmbiguous := r_ordering_ambiguous r |}.

Section Local.
Context `{UuidEnv}.

Definition read_source (d : duckdb) (projectID : string) (source : ReadinessSource) :
    result duck_error (option localSourceReceipt) :=
  (try pid := cast_uuid projectID in
   try cid := cast_uuid (rs_ConnectorID source) in
   try sync := cast_uuid (rs_SyncID source) in
   let k := (pid, cid, rs_Table source) in
   match receipt_sources d !! k with
   | Some r => if bool_decide (r_sync_id r = Some sync) then Ok (Some (local_receipt d k r)) else Ok None
   | None => Ok None
   end)%go.

Definition localReadiness (d : duckdb) (projectID : string) (sources : list ReadinessSource) :
    result duck_error (gmap string localSourceReceipt) :=
  fold_err (fun source out =>
    if negb (rs_Configured source) then Ok out
    else (try r := read_source d projectID source in
          match r with
          | None => Ok out
          | Some r => Ok (<[rs_SyncID source := r]> out)
          end)%go) sources ∅.
End Local.

(** ** Freshness of a schedule *)

(** Minute [i] after 2026-01-01 00:00 UTC, a Thursday, within 32 days. *)
Definition schedule_time (i : Z) : cron_time :=
  let d := i / 1440 in
  {| Minute := i mod 60; Hour := (i / 60) mod 24; Day := if d <? 31 then d + 1 else d - 30;
     Month := if d <? 31 then 1 else 2; Weekday := (4 + d) mod 7 |}.

Definition schedule_minutes : nat := Z.to_nat (32 * 1440).

(** Minutes of the hits from [i] on, at most [want]. *)
Fixpoint schedule_hits (left : nat) (i : Z) (want : nat) (expr : string) {struct left} : list Z :=
  match left, want with
  | S l, S w =>
      if Cronx.Matches expr (schedule_time i) then i :: schedule_hits l (i + 1) w expr
      else schedule_hits l (i + 1) want expr
  | _, _ => []
  end.

Definition scheduleFreshness (expr : string) : option Z :=
  if String.eqb (trim_space expr) "" then None
  else match schedule_hits schedule_minutes 0 3 expr with
       | [h0; h1; h2] =>
           let a := (h1 - h0) * minute in
           let b := (h2 - h1) * minute in
           if (a <=? 0) || negb (a =? b) then None else Some (2 * a + minute)
       | _ => None
       end.

(** ** The state of one source *)

Definition sameInstant (a b : option Z) : bool :=
  match a, b with
  | Some x, Some y => x =? y
  | None, None => true
  | _, _ => false
  end.

Definition matches (c : sourceConfirmation) (r : localSourceReceipt) : bool :=
  (sc_MutationSeq c =? lr_MutationSeq r) && String.eqb (sc_GenerationKey c) (lr_GenerationKey r)
  && sameInstant (sc_CaptureStartedAt c) (lr_CaptureStartedAt r)
  && sameInstant (sc_CaptureFinishedAt c) (lr_CaptureFinishedAt r).

Definition publicationRequiresNewerLocal (target : publicationTarget) (local : localSourceReceipt) : bool :=
  if lr_GenerationSeq local <? pt_GenerationSeq target then true
  else if pt_GenerationSeq target <? lr_GenerationSeq local then false
  else if negb (String.eqb (pt_Generation target) "") then
    match lr_Generation local with
    | None => true
    | Some g => negb (String.eqb g (pt_Generation target))
    end
  else if String.eqb (pt_RunID target) "" || String.eqb (lr_RunID local) (pt_RunID target) then false
  else match pt_CaptureStarted target, lr_CaptureStartedAt local with
       | Some t, Some l => time_after t l
       | _, _ => true
       end.

(** A readiness of a landed source with another state, reason and query proof. *)
Definition landed_readiness (r : localSourceReceipt) (published : option Z) (state : string)
    (reason : option string) (queryable : option Z) : Readiness :=
  {| State := state; PublishedAt := published; LandedAt := lr_LandedAt r; QueryableAt := queryable;
     Generation := lr_Generation r; CaptureStartedAt := lr_CaptureStartedAt r;
     CaptureFinishedAt := lr_CaptureFinishedAt r; Reason := reason; LastCompleteAt := lr_LastCompleteAt r |}.

Definition text_or (s : string) (o : option string) : option string :=
  if String.eqb s "" then o else Some s.

(** The freshness verdict: state and reason. *)
Definition freshness (now manualFreshness : Z) (cron : string) (r : localSourceReceipt) : string * option string :=
  let known := match scheduleFreshness cron with
               | Some age => Some age
               | None => if 0 <? manualFreshness then Some manualFreshness else None
               end in
  match known with
  | None => (ReadinessStale, Some "freshness_policy_unknown")
  | Some maxAge =>
      match lr_CaptureFinishedAt r, lr_CaptureStartedAt r with
      | None, None => (ReadinessStale, Some "capture_boundary_unknown")
      | Some finished, _ =>
          if maxAge <? time_sub now finished then (ReadinessStale, Some "freshness_deadline_missed")
          else (ReadinessReady, None)
      | None, Some started =>
          if maxAge <? time_sub now started then (ReadinessStale, Some "freshness_deadline_missed")
          else (ReadinessReady, None)
      end
  end.

Definition source_state (now manualFreshness : Z) (source : ReadinessSource)
    (local : option localSourceReceipt) (target : option publicationTarget)
    (confirmation : option sourceConfirmation) : Readiness :=
  if negb (rs_Configured source) then
    {| State := ReadinessNotConfigured; PublishedAt := None; LandedAt := None; QueryableAt := None;
       Generation := None; CaptureStartedAt := None; CaptureFinishedAt := None;
       Reason := Some "source_not_configured"; LastCompleteAt := None |}
  else match local with
  | None =>
      {| State := ReadinessSyncing; PublishedAt := pt_PublishedAt <$> target; LandedAt := None;
         QueryableAt := None;
         Generation := target ≫= fun t => text_or (pt_Generation t) None;
         CaptureStartedAt := None; CaptureFinishedAt := None;
         Reason := Some (if is_some target then "awaiting_landing" else "unknown_receipt");
         LastCompleteAt := None |}
  | Some r =>
      let published := option_or (lr_PublishedAt r) (pt_PublishedAt <$> target) in
      let st := landed_readiness r published in
      let newer := match target with
                   | Some t => if publicationRequiresNewerLocal t r then Some t else None
                   | None => None
                   end in
      match newer with
      | Some t =>
          {| State := ReadinessSyncing; PublishedAt := Some (pt_PublishedAt t); LandedAt := None;
             QueryableAt := None; Generation := text_or (pt_Generation t) (lr_Generation r);
             CaptureStartedAt := lr_CaptureStartedAt r; CaptureFinishedAt := lr_CaptureFinishedAt r;
             Reason := Some "awaiting_landing"; LastCompleteAt := lr_LastCompleteAt r |}
      | None =>
          if lr_HasHole r then st ReadinessIncomplete (Some "coverage_hole") None
          else if lr_OrderingAmbiguous r then
            st ReadinessIncomplete (Some "incremental_ordering_ambiguous") None
          else if negb (lr_CompletionSeen r) then st ReadinessSyncing (Some "awaiting_completion") None
          else if negb (bool_decide (lr_ExpectedBatches r = Some (lr_AppliedBatches r))) then
            st ReadinessIncomplete (Some "coverage_hole") None
          else if negb (is_some (lr_LandedAt r)) then st ReadinessSyncing (Some "awaiting_landing") None
          else match confirmation with
               | None => st ReadinessSyncing (Some "awaiting_query_confirmation") None
               | Some c =>
                   if negb (matches c r) then st ReadinessSyncing (Some "awaiting_query_confirmation") None
                   else let '(state, reason) := freshness now manualFreshness (rs_ScheduleCron source) r in
                        st state reason (Some (sc_ConfirmedAt c))
               end
      end
  end.

(** [targets] by sync, [confirmations] by connector and table. *)
Definition SourceReadiness `{UuidEnv} (now manualFreshness : Z) (targets : gmap string publicationTarget)
    (confirmations : gmap (string * string) sourceConfirmation) (d : duckdb) (projectID : string)
    (sources : list ReadinessSource) : result duck_error (gmap string Readiness) :=
  (try local := localReadiness d projectID sources in
   Ok (fold_left (fun out source =>
     <[rs_SyncID source := source_state now manualFreshness source (local !! rs_SyncID source)
         (targets !! rs_SyncID source) (confirmations !! (rs_ConnectorID source, rs_Table source))]> out)
     sources ∅))%go.

Example every_hour_is_known : scheduleFreshness "0 * * * *" = Some (2 * hour + minute).
Proof. vm_compute. reflexivity. Qed.

(** ** Lemmas *)

(** The three first hits are hits, in order, with none in between. *)
Lemma schedule_hits_spec left i want expr hits :
  schedule_hits left i want expr = hits ->
  (forall h, h ∈ hits -> i <= h < i + Z.of_nat left /\ Cronx.Matches expr (schedule_time h) = true) /\
  (forall j, i <= j -> (forall h, last hits = Some h -> j < h) -> hits <> [] ->
     Cronx.Matches expr (schedule_time j) = true -> j ∈ hits) /\ (length hits <= want)%nat.
Proof.
  intros <-. revert i want. induction left as [|left IH]; intros i want; cbn [schedule_hits].
  { split_and!; [intros h Hh; by apply not_elem_of_nil in Hh|done|simpl; lia]. }
  destruct want as [|want].
  { split_and!; [intros h Hh; by apply not_elem_of_nil in Hh|done|simpl; lia]. }
  destruct (Cronx.Matches expr (schedule_time i)) eqn:Em.
  - destruct (IH (i + 1) want) as (A & B & C). split_and!; [|intros j Hj Hl _ Hm|simpl; lia].
    + intros h [->|Hh]%elem_of_cons; [split; [lia|done]|]. apply A in Hh as [? ?]. split; [lia|done].
    + destruct (Z.eq_dec i j) as [->|Hne]; [left|right].
      destruct (schedule_hits left (i + 1) want expr) as [|h0 hs] eqn:Eh.
      * specialize (Hl i eq_refl). lia.
      * apply B; [lia| |done|done]. intros h Hh. by apply Hl.
  - destruct (IH (i + 1) (S want)) as (A & B & C). split_and!; [|intros j Hj Hl Hne Hm|done].
    + intros h Hh. apply A in Hh as [? ?]. split; [lia|done].
    + apply B; [|done..]. destruct (Z.eq_dec i j) as [->|]; [congruence|lia].
Qed.

Lemma has_hole_false d k :
  has_hole d k = false <->
  (forall q p, ingest_position d !! q = Some p -> refused_missing p <= 0) /\
  (forall x h, receipt_holes d !! x = Some h -> h_cleared_at h = None -> hole_covers k h = false).
Proof.
  unfold has_hole. rewrite orb_false_iff, !existsb_False. split; intros [A B]; (split; [clear B|clear A]).
  - intros q p Hp. apply elem_of_map_to_list, A in Hp. simpl in Hp. lia.
  - intros x h Hh Hc. apply elem_of_map_to_list, B in Hh. simpl in Hh. by rewrite Hc in Hh.
  - intros [q p] Hp%elem_of_map_to_list. apply A in Hp. simpl. lia.
  - intros [x h] Hh%elem_of_map_to_list. simpl. destruct (h_cleared_at h) eqn:Ec; [done|]. simpl. eauto.
Qed.

(** The age allowed to a source, and the instant it is measured from. *)
Definition freshness_policy (manualFreshness : Z) (cron : string) : option Z :=
  match scheduleFreshness cron with
  | Some age => Some age
  | None => if 0 <? manualFreshness then Some manualFreshness else None
  end.

Lemma freshness_ready now manual cron r :
  (freshness now manual cron r).1 = ReadinessReady <->
  exists age captured, freshness_policy manual cron = Some age /\
    option_or (lr_CaptureFinishedAt r) (lr_CaptureStartedAt r) = Some captured /\
    time_sub now captured <= age.
Proof.
  unfold freshness, freshness_policy.
  destruct (match scheduleFreshness cron with Some _ => _ | None => _ end) as [age|];
    [|split; [done|intros (? & ? & ? & _); done]].
  destruct (lr_CaptureFinishedAt r) as [t|], (lr_CaptureStartedAt r) as [t'|]; simpl;
    try (split; [done|intros (? & ? & _ & ? & _); done]).
  all: match goal with |- context[?a <? ?b] => destruct (Z.ltb_spec a b) end; simpl;
    (split; [done || (intros _; eauto)|]); intros (a & c & [= <-] & [= <-] & ?); done || lia.
Qed.

Lemma is_some_Some {A} (o : option A) : is_some o = true <-> is_Some o.
Proof. destruct o; split; eauto; [done|by intros [? ?]]. Qed.

(** Closes a branch of [source_state] that answers another state. *)
Ltac refute Hnew :=
  split; [done|]; intros (_ & r' & c' & [= <-] & ? & Hrest); rewrite Hnew in Hrest;
  destruct_and!; (done || congruence).

Lemma source_state_ready now manual source local target conf :
  State (source_state now manual source local target conf) = ReadinessReady <->
  rs_Configured source = true /\ exists r c, local = Some r /\ conf = Some c /\
    (forall t, target = Some t -> publicationRequiresNewerLocal t r = false) /\
    lr_HasHole r = false /\ lr_OrderingAmbiguous r = false /\ lr_CompletionSeen r = true /\
    lr_ExpectedBatches r = Some (lr_AppliedBatches r) /\ is_Some (lr_LandedAt r) /\ matches c r = true /\
    (freshness now manual (rs_ScheduleCron source) r).1 = ReadinessReady.
Proof.
  unfold source_state, landed_readiness. destruct (rs_Configured source); simpl; [|split; [done|by intros [? _]]].
  destruct local as [r|]; simpl; [|split; [done|intros (_ & ? & ? & ? & _); done]].
  set (newer := match target with Some t => _ | None => None end).
  assert (Hnew : (forall t, target = Some t -> publicationRequiresNewerLocal t r = false) <-> newer = None).
  { unfold newer. destruct target as [t|]; [|done].
    destruct (publicationRequiresNewerLocal t r) eqn:E; split; try done; [|by intros _ ? [= <-]].
    intros Hn. specialize (Hn t eq_refl). congruence. }
  destruct newer as [t|]; simpl; [refute Hnew|].
  destruct (lr_HasHole r) eqn:E1; simpl; [refute Hnew|].
  destruct (lr_OrderingAmbiguous r) eqn:E2; simpl; [refute Hnew|].
  destruct (lr_CompletionSeen r) eqn:E3; simpl; [|refute Hnew].
  case_bool_decide as E4; simpl; [|refute Hnew].
  destruct (is_some (lr_LandedAt r)) eqn:E5; simpl; [apply is_some_Some in E5|].
  2: { assert (Hx : ~ is_Some (lr_LandedAt r)) by (by rewrite <- is_some_Some, E5).
       refute Hnew. }
  destruct conf as [c|]; simpl; [|refute Hnew].
  destruct (matches c r) eqn:E6; simpl; [|refute Hnew].
  destruct (freshness now manual (rs_ScheduleCron source) r) as [st rs] eqn:E7; simpl. split.
  - intros ->. split; [done|]. exists r, c. rewrite E7. split_and!; try done. by apply Hnew.
  - intros (_ & r' & c' & [= <-] & [= <-] & Hx). destruct_and!. by rewrite E7 in *.
Qed.

Section Store.
Context `{UuidEnv}.

Lemma localReadiness_lookup d projectID sources m key r :
  localReadiness d projectID sources = Ok m -> m !! key = Some r ->
  exists source, source ∈ sources /\ rs_SyncID source = key /\
    read_source d projectID source = Ok (Some r).
Proof.
  unfold localReadiness. intros Hl.
  assert (Hgen : forall key r, m !! key = Some r -> exists source, source ∈ sources /\ rs_SyncID source = key /\
    read_source d projectID source = Ok (Some r)); [|by apply Hgen].
  refine (fold_err_ind _ (fun out => forall key r, out !! key = Some r -> exists source, source ∈ sources /\
    rs_SyncID source = key /\ read_source d projectID source = Ok (Some r)) _ _ _ _ Hl _).
  - intros source out out' Hin Hs Hout key' r'.
    destruct (rs_Configured source); simpl in Hs; [|injection Hs as <-; apply Hout].
    destruct (read_source d projectID source) as [[r0|]|] eqn:E; [| |done]; cbn in Hs; injection Hs as <-;
      [|apply Hout].
    intros [[<- <-]|[_ Hx]]%lookup_insert_Some; [by exists source|by apply Hout].
  - intros key' r'. by rewrite lookup_empty.
Qed.

Lemma fold_states_lookup (f : ReadinessSource -> Readiness) sources (out : gmap string Readiness) key rd :
  fold_left (fun out source => <[rs_SyncID source := f source]> out) sources out !! key = Some rd ->
  out !! key = Some rd \/ exists source, source ∈ sources /\ rs_SyncID source = key /\ rd = f source.
Proof.
  revert out. induction sources as [|s sources IH]; simpl; intros out Hl; [by left|].
  apply IH in Hl as [Hl|(s' & Hin & Hk & ->)].
  - apply lookup_insert_Some in Hl as [[<- <-]|[_ Hl]]; [right; exists s; split_and!; [left|done..]|by left].
  - right. exists s'. split_and!; [by right|done..].
Qed.

Lemma read_source_Some d projectID source r :
  read_source d projectID source = Ok (Some r) ->
  exists pid cid sync row, sql_uuid projectID = Some pid /\ sql_uuid (rs_ConnectorID source) = Some cid /\
    sql_uuid (rs_SyncID source) = Some sync /\
    receipt_sources d !! (pid, cid, rs_Table source) = Some row /\ r_sync_id row = Some sync /\
    r = local_receipt d (pid, cid, rs_Table source) row.
Proof.
  unfold read_source, cast_uuid. intros Hr.
  destruct (sql_uuid projectID) as [pid|]; [|done]. cbn [result_bind] in Hr.
  destruct (sql_uuid (rs_ConnectorID source)) as [cid|]; [|done]. cbn [result_bind] in Hr.
  destruct (sql_uuid (rs_SyncID source)) as [sync|]; [|done]. cbn [result_bind] in Hr.
  destruct (receipt_sources d !! _) as [row|] eqn:E; [|done].
  case_bool_decide as Hs; [|done]. injection Hr as <-. by exists pid, cid, sync, row.
Qed.
End Store.

(** ** Properties *)

(** C7: a source is answered ready only on complete evidence in this store: its
    receipt row belongs to the sync, no open coverage hole and no refused
    position covers it, its ordering is not ambiguous, its run completed with
    exactly the expected batches landed, the data that landed is of the current
    generation, no newer publication was observed, the sandbox copied it since
    its last mutation, and its capture is within the age its schedule (or the
    configured policy) allows. *)
Theorem ready_source_has_evidence `{UuidEnv} now manual targets confs d projectID sources out sync rd :
  SourceReadiness now manual targets confs d projectID sources = Ok out ->
  NoDup (rs_SyncID <$> sources) -> out !! sync = Some rd -> State rd = ReadinessReady ->
  exists source pid cid row c age captured,
    source ∈ sources /\ rs_SyncID source = sync /\ rs_Configured source = true /\
    let k := (pid, cid, rs_Table source) in
    sql_uuid projectID = Some pid /\ sql_uuid (rs_ConnectorID source) = Some cid /\
    receipt_sources d !! k = Some row /\ r_sync_id row = sql_uuid sync /\
    (forall q p, ingest_position d !! q = Some p -> refused_missing p <= 0) /\
    (forall x h, receipt_holes d !! x = Some h -> h_cleared_at h = None -> hole_covers k h = false) /\
    r_ordering_ambiguous row = false /\ r_completion_seen row = true /\
    r_expected_batches row = Some (count_batches d k (batches_key row)) /\
    r_landed_generation_key row = Some (r_generation_key row) /\ is_Some (r_landed_at row) /\
    (forall t, targets !! sync = Some t -> publicationRequiresNewerLocal t (local_receipt d k row) = false) /\
    confs !! (rs_ConnectorID source, rs_Table source) = Some c /\
    sc_MutationSeq c = r_mutation_seq row /\ sc_GenerationKey c = r_generation_key row /\
    freshness_policy manual (rs_ScheduleCron source) = Some age /\
    option_or (r_capture_finished_at row) (r_capture_started_at row) = Some captured /\
    time_sub now captured <= age.
Proof.
  unfold SourceReadiness. intros Hs Hnd Hout Hst.
  destruct (localReadiness d projectID sources) as [local|] eqn:El; [|done]. cbn [result_bind] in Hs.
  injection Hs as <-. apply fold_states_lookup in Hout as [Hout|(source & Hin & Hk & ->)];
    [by rewrite lookup_empty in Hout|].
  apply source_state_ready in Hst as (Hcfg & r & c & Hloc & Hc & Hnew & Hh & Ha & Hcs & He & Hl & Hm & Hf).
  rewrite Hk in *. destruct (localReadiness_lookup _ _ _ _ _ _ El Hloc) as (source' & Hin' & Hk' & Hr).
  assert (source' = source) as ->.
  { apply list_elem_of_lookup in Hin as [i Hi], Hin' as [j Hj].
    assert (i = j) as <-; [|congruence]. eapply (NoDup_lookup (rs_SyncID <$> sources)); [done| |].
    - rewrite list_lookup_fmap, Hi. simpl. done.
    - rewrite list_lookup_fmap, Hj. simpl. congruence. }
  apply read_source_Some in Hr as (pid & cid & sy & row & Hp & Hci & Hsy & Hrow & Hid & ->).
  apply freshness_ready in Hf as (age & captured & Hage & Hcap & Hle).
  unfold matches in Hm. apply andb_prop in Hm as [[[Hm1 Hm2%String.eqb_eq]%andb_prop _]%andb_prop _].
  simpl in *. apply has_hole_false in Hh as [Hpos Hholes].
  case_bool_decide as Hg; [|by destruct Hl].
  exists source, pid, cid, row, c, age, captured. rewrite <- Hk at 2.
  split_and!; try done; [congruence|lia].
Qed.

(** The freshness window of a schedule is two of its periods and a minute,
    where the period is the gap of the first three minutes of 2026 the schedule
    fires at, and only if these are within 32 days and evenly spaced; a schedule
    that is irregular later on is taken to be regular: '0-2 0 * * *' fires in
    the first three minutes of a day and then not for the rest of it, and its
    window is three minutes. *)
Theorem scheduleFreshness_first_hits :
  (forall expr age, scheduleFreshness expr = Some age -> exists h0 period,
     0 < period /\ age = 2 * (period * minute) + minute /\ 0 <= h0 /\ h0 + 2 * period < 32 * 1440 /\
     forall j, 0 <= j <= h0 + 2 * period ->
       (Cronx.Matches expr (schedule_time j) = true <-> j ∈ [h0; h0 + period; h0 + 2 * period])) /\
  scheduleFreshness "0-2 0 * * *" = Some (3 * minute) /\
  schedule_hits (Z.to_nat (1440 - 3)) 3 1 "0-2 0 * * *" = [].
Proof.
  split; [|split; vm_compute; reflexivity].
  unfold scheduleFreshness. intros expr age. destruct (String.eqb _ _); [done|].
  destruct (schedule_hits schedule_minutes 0 3 expr) as [|h0 [|h1 [|h2 [|h3 hs]]]] eqn:Eh; try done.
  destruct (_ || _) eqn:Eb; [done|]. intros [= <-]. unfold minute, second in Eb. bool_props.
  destruct (schedule_hits_spec _ _ _ _ _ Eh) as (A & B & _).
  assert (Hlen : Z.of_nat schedule_minutes = 32 * 1440) by (unfold schedule_minutes; apply Z2Nat.id; lia).
  assert (A0 := A h0 ltac:(rewrite !elem_of_cons; auto)). assert (A1 := A h1 ltac:(rewrite !elem_of_cons; auto)).
  assert (A2 := A h2 ltac:(rewrite !elem_of_cons; auto)).
  exists h0, (h1 - h0). assert (E1 : h0 + (h1 - h0) = h1) by lia. assert (E2 : h0 + 2 * (h1 - h0) = h2) by lia.
  rewrite E1, E2. split_and!; [lia|lia|lia|lia|]. intros j Hj. split.
  - intros Hm. destruct (Z.eq_dec j h2) as [->|]; [rewrite !elem_of_cons; auto|].
    apply B; [lia| |done|done]. intros h [= <-]. lia.
  - intros Hin. by apply A in Hin as [_ ?].
Qed.

(** ** Witnesses *)

Definition w_ready_row : source_row :=
  {| r_sync_id := Some w_uuid; r_run_id := Some w_uuid; r_generation := None; r_generation_key := w_uuid;
     r_generation_seq := 0; r_binding_digest := ""; r_capture_started_at := Some 5;
     r_capture_finished_at := Some 6; r_published_at := Some 7; r_landed_at := Some 8;
     r_landed_generation_key := Some w_uuid; r_last_complete_at := Some 8; r_expected_batches := Some 0;
     r_expected_rows := Some 0; r_completion_seen := true; r_ordering_ambiguous := false;
     r_mutation_seq := 3; r_updated_at := 8 |}.

Definition w_ready_db : duckdb :=
  set_receipt_sources {[(w_uuid, w_uuid2, "orders") := w_ready_row]} empty_duckdb.

Definition w_configured : ReadinessSource :=
  {| rs_SyncID := w_uuid; rs_ConnectorID := w_uuid2; rs_Table := "orders"; rs_ScheduleCron := "";
     rs_Configured := true |}.

Definition w_confirmation : sourceConfirmation :=
  {| sc_MutationSeq := 3; sc_GenerationKey := w_uuid; sc_CaptureStartedAt := Some 5;
     sc_CaptureFinishedAt := Some 6; sc_ConfirmedAt := 9 |}.

Definition w_confirmations : gmap (string * string) sourceConfirmation :=
  {[(w_uuid2, "orders") := w_confirmation]}.

Definition w_readiness : gmap string Readiness :=
  ok_or ∅ (SourceReadiness 10 hour ∅ w_confirmations w_ready_db w_uuid [w_configured]).

Definition w_not_configured : Readiness := source_state 0 0 w_configured None None None.

Lemma ready_source_has_evidence_witness :
  exists source pid cid row c age captured,
    source ∈ [w_configured] /\ rs_SyncID source = w_uuid /\ rs_Configured source = true /\
    let k := (pid, cid, rs_Table source) in
    sql_uuid w_uuid = Some pid /\ sql_uuid (rs_ConnectorID source) = Some cid /\
    receipt_sources w_ready_db !! k = Some row /\ r_sync_id row = sql_uuid w_uuid /\
    (forall q p, ingest_position w_ready_db !! q = Some p -> refused_missing p <= 0) /\
    (forall x h, receipt_holes w_ready_db !! x = Some h -> h_cleared_at h = None -> hole_covers k h = false) /\
    r_ordering_ambiguous row = false /\ r_completion_seen row = true /\
    r_expected_batches row = Some (count_batches w_ready_db k (batches_key row)) /\
    r_landed_generation_key row = Some (r_generation_key row) /\ is_Some (r_landed_at row) /\
    (forall t, (∅ : gmap string publicationTarget) !! w_uuid = Some t ->
       publicationRequiresNewerLocal t (local_receipt w_ready_db k row) = false) /\
    w_confirmations !! (rs_ConnectorID source, rs_Table source) = Some c /\
    sc_MutationSeq c = r_mutation_seq row /\ sc_GenerationKey c = r_generation_key row /\
    freshness_policy hour (rs_ScheduleCron source) = Some age /\
    option_or (r_capture_finished_at row) (r_capture_started_at row) = Some captured /\
    time_sub 10 captured <= age.
Proof.
  apply (ready_source_has_evidence 10 hour ∅ w_confirmations w_ready_db w_uuid [w_configured] w_readiness
    w_uuid (default w_not_configured (w_readiness !! w_uuid))).
  - apply ok_or_Ok. vm_compute. reflexivity.
  - apply NoDup_singleton.
  - apply default_Some. vm_compute. reflexivity.
  - vm_compute. reflexivity.
Defined.
