(* ===== verification/Publishing.v ===== *)
(** * Publishing: the producer's half of the connector stream

    [internal/dataplane/ingest/queue.go] ([wireBytes], [chunkRows],
    [PublishExternalRows], [PublishIncrementalBatch], [bodyMsgID]) and the batch
    builder of [snapshot_protocol.go].  Rows are cut into messages that must fit
    the broker's payload limit, so the size of a row is bounded from above
    before it is encoded; [encode_string] and [compact] write out what
    [encoding/json] does to the strings and raw values of a row.

    Which broker calls fail is a function of the number of the chunk. *)

From S2P Require Import Prelude GoStrings GoTime Duck Journal Landing SnapshotEnvelope Settler.
From Stdlib Require Import Ascii.
Import String.
Open Scope string_scope.
Open Scope list_scope.
Open Scope Z_scope.

(** ** Runes *)

Definition byte_in (lo hi : Z) (c : ascii) : bool := (lo <=? byte c) && (byte c <=? hi).

(** The byte at the head, if it lies between the bounds, and the rest. *)
Definition next_in (lo hi : Z) (s : string) : option string :=
  match s with
  | String c s' => if byte_in lo hi c then Some s' else None
  | EmptyString => None
  end.

Definition is_cont (s : string) : option string := next_in 128 191 s.

(** How many bytes follow the first of a valid UTF-8 rune; [None] when the
    encoding is invalid, and Go then reads one byte as U+FFFD. *)
Definition rune_tail (c : ascii) (rest : string) : option nat :=
  let two lo hi := match next_in lo hi rest with
                   | Some r => match is_cont r with Some _ => Some 2%nat | None => None end
                   | None => None
                   end in
  let three lo hi := match next_in lo hi rest with
                     | Some r => match is_cont r with
                                 | Some r => match is_cont r with Some _ => Some 3%nat | None => None end
                                 | None => None
                                 end
                     | None => None
                     end in
  if byte_in 0 127 c then Some 0%nat
  else if byte_in 194 223 c then match is_cont rest with Some _ => Some 1%nat | None => None end
  else if byte_in 224 224 c then two 160 191
  else if byte_in 225 236 c || byte_in 238 239 c then two 128 191
  else if byte_in 237 237 c then two 128 159
  else if byte_in 240 240 c then three 144 191
  else if byte_in 241 243 c then three 128 191
  else if byte_in 244 244 c then three 128 143
  else None.

Definition tail_bytes (c : ascii) (rest : string) : nat := default 0%nat (rune_tail c rest).

(** U+2028 and U+2029 are E2 80 A8 and E2 80 A9. *)
Definition line_separator (c : ascii) (rest : string) : bool :=
  match rest with
  | String c1 (String c2 _) => byte_in 226 226 c && byte_in 128 128 c1 && byte_in 168 169 c2
  | _ => false
  end.

(** ** Upper bounds ([wireBytes]) *)

Definition quote : ascii := "034"%char.

Definition plain (c : ascii) : bool :=
  byte_in 32 127 c && negb (existsb (Ascii.eqb c) [quote; "\"%char; "<"%char; ">"%char; "&"%char]).

(** One for a plain ASCII byte, six for any other rune; [skip] bytes of the rune
    are still to be passed. *)
Fixpoint runes_cost (skip : nat) (s : string) : Z :=
  match s with
  | EmptyString => 0
  | String c s' =>
      match skip with
      | S k => runes_cost k s'
      | O => (if plain c then 1 else 6) + runes_cost (tail_bytes c s') s'
      end
  end.

Definition jsonStringBytes (s : string) : Z := 2 + runes_cost 0 s.

Definition html_byte (c : ascii) : bool := existsb (Ascii.eqb c) ["<"%char; ">"%char; "&"%char].

Fixpoint html_bytes (s : string) : Z :=
  match s with
  | EmptyString => 0
  | String c s' => (if html_byte c then 5 else 0) + html_bytes s'
  end.

Definition rawJSONBytes (raw : string) : Z := strlen raw + html_bytes raw.

Definition wireFramingBytes : Z := 44.

Definition wireBytes (r : ExternalRow) : Z :=
  rawJSONBytes (er_Data r) + jsonStringBytes (er_Key r) + jsonStringBytes (er_Cursor r) + wireFramingBytes.

(** ** What the encoder writes *)

Definition hex_digit (d : Z) : ascii := if d <? 10 then ascii_of_N (Z.to_N (48 + d)) else ascii_of_N (Z.to_N (87 + d)).

(** A backslash-u escape of a code point below 65536 with the given high digits. *)
Definition escape_u (high : string) (d1 d0 : Z) : string :=
  String "\"%char (String "u"%char (high +:+ String (hex_digit d1) (String (hex_digit d0) ""))).

Definition short_escape (c : ascii) : option ascii :=
  if Ascii.eqb c quote then Some quote
  else if Ascii.eqb c "\"%char then Some "\"%char
  else if byte c =? 8 then Some "b"%char
  else if byte c =? 12 then Some "f"%char
  else if byte c =? 10 then Some "n"%char
  else if byte c =? 13 then Some "r"%char
  else if byte c =? 9 then Some "t"%char
  else None.

(** A byte below 128. *)
Definition encode_ascii (c : ascii) : string :=
  if plain c then String c ""
  else match short_escape c with
       | Some e => String "\"%char (String e "")
       | None => escape_u "00" (byte c / 16) (byte c mod 16)
       end.

(** The body of an encoded string: [skip] bytes of a rune are passed, copied when
    [keep] is set. *)
Fixpoint encode_body (skip : nat) (keep : bool) (s : string) : string :=
  match s with
  | EmptyString => ""
  | String c s' =>
      match skip with
      | S k => if keep then String c (encode_body k keep s') else encode_body k keep s'
      | O =>
          if byte_in 0 127 c then encode_ascii c +:+ encode_body 0 keep s'
          else match rune_tail c s' with
               | None => escape_u "ff" 15 13 +:+ encode_body 0 keep s'
               | Some k =>
                   if line_separator c s' then
                     let last := match s' with String _ (String c2 _) => byte c2 mod 16 | _ => 0 end in
                     escape_u "20" 2 last +:+ encode_body k false s'
                   else String c (encode_body k true s')
               end
      end
  end.

Definition encode_string (s : string) : string :=
  String quote (encode_body 0 true s +:+ String quote "").

Definition json_space (c : ascii) : bool := existsb (fun n => byte c =? n) [9; 10; 13; 32].

(** [compact] of a raw value with HTML escaping; [skip] bytes are dropped. *)
Fixpoint compact_from (in_string escaped : bool) (skip : nat) (s : string) : string :=
  match s with
  | EmptyString => ""
  | String c s' =>
      match skip with
      | S k => compact_from in_string escaped k s'
      | O =>
          if html_byte c then escape_u "00" (byte c / 16) (byte c mod 16) +:+ compact_from in_string false 0 s'
          else if line_separator c s' then
            let last := match s' with String _ (String c2 _) => byte c2 mod 16 | _ => 0 end in
            escape_u "20" 2 last +:+ compact_from in_string false 2 s'
          else if negb in_string && json_space c then compact_from in_string false 0 s'
          else
            let toggles := Ascii.eqb c quote && negb escaped in
            String c (compact_from (xorb in_string toggles)
                        (in_string && negb escaped && Ascii.eqb c "\"%char) 0 s')
      end
  end.

Definition compact (raw : string) : string := compact_from false false 0 raw.

Definition field (name : string) : string := String quote (name +:+ String quote ":").

(** One element of the rows array. *)
Definition marshal_row (r : ExternalRow) : string :=
  "{" +:+ field "key" +:+ encode_string (er_Key r) +:+ "," +:+ field "cursor" +:+
  encode_string (er_Cursor r) +:+ "," +:+ field "data" +:+ compact (er_Data r) +:+ "}".

Fixpoint marshal_elements (rows : list ExternalRow) : string :=
  match rows with
  | [] => ""
  | [r] => marshal_row r
  | r :: rest => marshal_row r +:+ "," +:+ marshal_elements rest
  end.

(** The rows array of a batch body. *)
Definition marshal_rows_array (rows : list ExternalRow) : string := "[" +:+ marshal_elements rows +:+ "]".

(** ** Chunks and publication *)

Definition wire_total (rows : list ExternalRow) : Z := foldr (fun r n => wireBytes r + n) 0 rows.

Fixpoint chunk_rows_from (maxBytes : Z) (cur : list ExternalRow) (size : Z) (rows : list ExternalRow) :
    list (list ExternalRow) :=
  match rows with
  | [] => match cur with [] => [] | _ => [cur] end
  | r :: rest =>
      if match cur with [] => false | _ => maxBytes <? size + wireBytes r end
      then cur :: chunk_rows_from maxBytes [r] (wireBytes r) rest
      else chunk_rows_from maxBytes (cur ++ [r]) (size + wireBytes r) rest
  end.

Definition external_of (r : LandedRow) : ExternalRow :=
  {| er_Key := lr_Key r; er_Cursor := lr_Cursor r; er_Data := lr_DataJSON r |}.

Definition chunkRows (rows : list LandedRow) (maxBytes : Z) : list (list ExternalRow) :=
  chunk_rows_from maxBytes [] 0 (external_of <$> rows).

Definition publishFallbackBudget : Z := 524288.

(** [maxPayload] is what the broker advertises; [None] without a connection. *)
Definition publishBudget (maxPayload : option Z) : Z :=
  match maxPayload with
  | None => publishFallbackBudget
  | Some max => if (0 <? max) && (0 <? max - max / 8) then max - max / 8 else publishFallbackBudget
  end.

Definition field_text (name value : string) : string := field name +:+ encode_string value.

(** The body of a batch without a source receipt. *)
Definition marshal_batch (projectID connectorID table : string) (rows : list ExternalRow) : string :=
  "{" +:+ field_text "project_id" projectID +:+ "," +:+ field_text "connector_id" connectorID +:+ "," +:+
  field_text "table" table +:+ "," +:+ field "rows" +:+ marshal_rows_array rows +:+ "}".

Inductive publish_error :=
| RowTooLarge (size budget : Z) | EncodeFailed | AdmissionRefused | PublishFailed | ObserverFailed.

(** Which call of a chunk fails.  [durable] is a JetStream context, [observed] a
    publication observer, [valid_json] what [json.Marshal] asks of a raw value. *)
Record broker_calls := {
  durable : bool; observed : bool; valid_json : string -> bool;
  admission_fails : Z -> bool; publish_fails : Z -> bool; flush_fails : Z -> bool;
  observer_fails : Z -> bool;
}.

Definition encodable (b : broker_calls) (rows : list ExternalRow) : bool :=
  forallb (fun r => valid_json b (er_Data r)) rows.

(** One message: whether the stream took it, and the error.  The observer runs
    after the stream accepted. *)
Definition publish_one (b : broker_calls) (i : Z) (rows : list ExternalRow) : bool * option publish_error :=
  if negb (encodable b rows) then (false, Some EncodeFailed)
  else if durable b then
    if observed b && admission_fails b i then (false, Some AdmissionRefused)
    else if publish_fails b i then (false, Some PublishFailed)
    else if observed b && observer_fails b i then (true, Some ObserverFailed)
    else (true, None)
  else if publish_fails b i then (false, Some PublishFailed)
  else if flush_fails b i then (true, Some PublishFailed)
  else (true, None).

Definition oversized (budget : Z) (chunk : list ExternalRow) : option publish_error :=
  match chunk with
  | [r] => if budget <? wireBytes r then Some (RowTooLarge (wireBytes r) budget) else None
  | _ => None
  end.

(** The chunks handed to the broker, and the error that stopped the loop. *)
Fixpoint publish_chunks (b : broker_calls) (budget i : Z) (chunks : list (list ExternalRow)) :
    list (list ExternalRow) * option publish_error :=
  match chunks with
  | [] => ([], None)
  | chunk :: rest =>
      match oversized budget chunk with
      | Some e => ([], Some e)
      | None =>
          match publish_one b i chunk with
          | (accepted, Some e) => (if accepted then [chunk] else [], Some e)
          | (_, None) => let '(out, e) := publish_chunks b budget (i + 1) rest in (chunk :: out, e)
          end
      end
  end.

Definition PublishExternalRows (b : broker_calls) (maxPayload : option Z) (rows : list LandedRow) :
    list (list ExternalRow) * option publish_error :=
  match rows with
  | [] => ([], None)
  | _ => let budget := publishBudget maxPayload in publish_chunks b budget 0 (chunkRows rows budget)
  end.

(** ** Receipt-aware publication ([PublishIncrementalBatch]) *)

Record IncrementalReceipt := {
  ir_SyncID : string; ir_RunID : string; ir_BatchIndex : Z; ir_ExpectedBatches : Z; ir_ExpectedRows : Z;
  ir_CaptureStartedAt : Z; ir_CaptureFinishedAt : option Z;
}.

Fixpoint zeros (k : nat) (s : string) : string :=
  match k with O => s | S k' => String "0"%char (zeros k' s) end.

(** [fmt.Sprintf("%06d", n)]; the width counts the sign. *)
Definition pad6 (n : Z) : string :=
  let digits := itoa (Z.abs n) in
  if n <? 0 then String "-"%char (zeros (5 - String.length digits) digits)
  else zeros (6 - String.length digits) digits.

Definition batch_id (index : Z) : string := "batch-" +:+ pad6 index.

Definition empty_source : SourceReceiptMark :=
  {| s_ProjectID := ""; s_ConnectorID := ""; s_Table := ""; s_SyncID := ""; s_RunID := "";
     s_Generation := ""; s_GenerationSeq := 0; s_BindingDigest := ""; s_BatchID := "";
     s_BatchIndex := None; s_PayloadSHA256 := ""; s_ExpectedBatches := None; s_ExpectedRows := None;
     s_CaptureStartedAt := None; s_CaptureFinishedAt := None; s_PublishedAt := None;
     s_Complete := false; s_Promoted := false |}.

(** Whether the message reached the stream, and the error. *)
Definition publishExternalEnvelope (b : broker_calls) (i : Z) (batch : ExternalRowsBatch) :
    bool * option publish_error :=
  if negb (encodable b (b_Rows batch)) then (false, Some EncodeFailed)
  else if durable b && observed b && admission_fails b i then (false, Some AdmissionRefused)
  else if publish_fails b i then (false, Some PublishFailed)
  else if negb (durable b) && flush_fails b i then (true, Some PublishFailed)
  else if observed b && is_some (b_Source batch) && observer_fails b i then (true, Some ObserverFailed)
  else (true, None).

Section Incremental.
Context `{SnapshotEnv} (b : broker_calls) (projectID connectorID table : string) (receipt : IncrementalReceipt).

Definition batch_mark (index : Z) (chunk : list ExternalRow) : SourceReceiptMark :=
  {| s_ProjectID := projectID; s_ConnectorID := connectorID; s_Table := table;
     s_SyncID := ir_SyncID receipt; s_RunID := ir_RunID receipt;
     s_Generation := ""; s_GenerationSeq := 0; s_BindingDigest := "";
     s_BatchID := batch_id index; s_BatchIndex := Some index;
     s_PayloadSHA256 := sha256_hex (marshal_rows_array chunk);
     s_ExpectedBatches := None; s_ExpectedRows := None;
     s_CaptureStartedAt := Some (ir_CaptureStartedAt receipt); s_CaptureFinishedAt := None;
     s_PublishedAt := None; s_Complete := false; s_Promoted := false |}.

Definition incremental_batch (i : Z) (chunk : list ExternalRow) : ExternalRowsBatch :=
  {| b_ProjectID := projectID; b_ConnectorID := connectorID; b_Table := table; b_Rows := chunk;
     b_Source := Some (batch_mark (u64 (i64 (ir_BatchIndex receipt + i))) chunk) |}.

(** The batches that reached the stream, the returned count, and the error. *)
Fixpoint publish_incremental (i : Z) (chunks : list (list ExternalRow)) :
    list ExternalRowsBatch * Z * option publish_error :=
  match chunks with
  | [] => ([], i, None)
  | chunk :: rest =>
      if negb (encodable b chunk) then ([], i, Some EncodeFailed)
      else
        let batch := incremental_batch i chunk in
        match publishExternalEnvelope b i batch with
        | (accepted, Some e) => (if accepted then [batch] else [], i, Some e)
        | (_, None) => let '(out, n, e) := publish_incremental (i + 1) rest in (batch :: out, n, e)
        end
  end.

Definition PublishIncrementalBatch (maxPayload : option Z) (rows : list LandedRow) :
    list ExternalRowsBatch * Z * option publish_error :=
  publish_incremental 0 (chunkRows rows (publishBudget maxPayload)).

Definition PublishIncrementalComplete : bool * option publish_error :=
  publishExternalEnvelope b 0
    {| b_ProjectID := projectID; b_ConnectorID := connectorID; b_Table := table; b_Rows := [];
       b_Source := Some
         {| s_ProjectID := projectID; s_ConnectorID := connectorID; s_Table := table;
            s_SyncID := ir_SyncID receipt; s_RunID := ir_RunID receipt;
            s_Generation := ""; s_GenerationSeq := 0; s_BindingDigest := "";
            s_BatchID := ""; s_BatchIndex := None; s_PayloadSHA256 := "";
            s_ExpectedBatches := Some (u64 (ir_ExpectedBatches receipt));
            s_ExpectedRows := Some (u64 (ir_ExpectedRows receipt));
            s_CaptureStartedAt := Some (ir_CaptureStartedAt receipt);
            s_CaptureFinishedAt := ir_CaptureFinishedAt receipt;
            s_PublishedAt := None; s_Complete := true; s_Promoted := false |} |}.
End Incremental.

(** ** The deduplication id of a body *)

Definition fnv_offset : Z := 14695981039346656037.
Definition fnv_prime : Z := 1099511628211.

Fixpoint fnv64a (h : Z) (s : string) : Z :=
  match s with
  | EmptyString => h
  | String c s' => fnv64a (u64 (Z.lxor h (byte c) * fnv_prime)) s'
  end.

Fixpoint hex_from (fuel : nat) (n : Z) (acc : string) : string :=
  match fuel with
  | O => acc
  | S f => let acc := String (hex_digit (n mod 16)) acc in
           if n <? 16 then acc else hex_from f (n / 16) acc
  end.

(** Sixteen digits are enough for 64 bits. *)
Definition bodyMsgID (body : string) : string := hex_from 16 (fnv64a fnv_offset body) "".

Example fnv_of_a : bodyMsgID "a" = "af63dc4c8601ec8c".
Proof. vm_compute. reflexivity. Qed.

(** ** Lemmas *)

Lemma strlen_cons c s : strlen (String c s) = 1 + strlen s.
Proof. unfold strlen. simpl. lia. Qed.

Lemma strlen_app s t : strlen (s +:+ t) = strlen s + strlen t.
Proof.
  induction s as [|c s IH]; [done|]. change (String c s +:+ t) with (String c (s +:+ t)).
  rewrite !strlen_cons, IH. lia.
Qed.

Ltac strlens := repeat (rewrite strlen_cons || rewrite strlen_app); change (strlen "") with 0.

Lemma escape_u_len c1 c0 d1 d0 : strlen (escape_u (String c1 (String c0 "")) d1 d0) = 6.
Proof. unfold escape_u. strlens. lia. Qed.

Lemma encode_ascii_len c : strlen (encode_ascii c) <= if plain c then 1 else 6.
Proof.
  unfold encode_ascii. destruct (plain c); [strlens; lia|].
  destruct (short_escape c); [strlens; lia|]. by rewrite escape_u_len.
Qed.

Lemma plain_ascii c : plain c = true -> byte_in 0 127 c = true.
Proof.
  unfold plain, byte_in. intros [H _]%andb_true_iff. apply andb_true_iff in H as [H1 H2].
  apply andb_true_iff. lia.
Qed.

Lemma rune_tail_le c s k : rune_tail c s = Some k -> (k <= 3)%nat.
Proof.
  unfold rune_tail. intros H.
  repeat match type of H with
  | context [if ?b then _ else _] => destruct b
  | context [match ?x with Some _ => _ | None => _ end] => destruct x
  end; simplify_eq; lia.
Qed.

Lemma ascii_tail c s : byte_in 0 127 c = true -> tail_bytes c s = 0%nat.
Proof. intros H. unfold tail_bytes, rune_tail. by rewrite H. Qed.

(** What the encoder writes for a string is bounded by the price of its runes. *)
Lemma encode_body_bounded s skip keep :
  strlen (encode_body skip keep s) <= runes_cost skip s + (if keep then Z.of_nat skip else 0).
Proof.
  revert skip keep. induction s as [|c s IH]; intros skip keep.
  { simpl. change (strlen "") with 0. destruct keep; lia. }
  destruct skip as [|k]; cbn [encode_body runes_cost].
  2: { destruct keep; [strlens; specialize (IH k true)|specialize (IH k false)]; cbn in IH; lia. }
  destruct (byte_in 0 127 c) eqn:Ha.
  - strlens. rewrite (ascii_tail c s Ha). pose proof (encode_ascii_len c).
    specialize (IH 0%nat keep). destruct keep; simpl in IH; lia.
  - assert (Hp : plain c = false).
    { destruct (plain c) eqn:E; [|done]. apply plain_ascii in E. congruence. }
    rewrite Hp. unfold tail_bytes. destruct (rune_tail c s) as [k|] eqn:Ek; simpl default.
    + apply rune_tail_le in Ek. destruct (line_separator c s).
      * rewrite strlen_app, escape_u_len. specialize (IH k false). simpl in IH. destruct keep; lia.
      * strlens. specialize (IH k true). simpl in IH. destruct keep; lia.
    + rewrite strlen_app, escape_u_len. specialize (IH 0%nat keep). destruct keep; lia.
Qed.

Lemma encode_string_bounded s : strlen (encode_string s) <= jsonStringBytes s.
Proof.
  unfold encode_string, jsonStringBytes. strlens. 
  pose proof (encode_body_bounded s 0 true) as H. cbn in H. lia.
Qed.

(** No U+2028 or U+2029 in a raw value. *)
Fixpoint no_line_separator (s : string) : bool :=
  match s with
  | EmptyString => true
  | String c s' => negb (line_separator c s') && no_line_separator s'
  end.

Lemma compact_bounded s in_string escaped :
  no_line_separator s = true -> strlen (compact_from in_string escaped 0 s) <= rawJSONBytes s.
Proof.
  unfold rawJSONBytes. revert in_string escaped. induction s as [|c s IH]; intros i e H; [done|].
  simpl in H. apply andb_true_iff in H as [H1 H2]. apply negb_true_iff in H1.
  cbn [compact_from html_bytes]. rewrite strlen_cons, H1. destruct (html_byte c).
  - rewrite strlen_app, escape_u_len. pose proof (IH i false H2). lia.
  - destruct (negb i && json_space c).
    + pose proof (IH i false H2). lia.
    + rewrite strlen_cons.
      pose proof (IH (xorb i (Ascii.eqb c quote && negb e)) (i && negb e && Ascii.eqb c "\"%char) H2). lia.
Qed.

Lemma marshal_row_bounded r :
  no_line_separator (er_Data r) = true -> strlen (marshal_row r) + 18 <= wireBytes r.
Proof.
  intros H. unfold marshal_row, field. strlens. unfold wireBytes, wireFramingBytes.
  pose proof (encode_string_bounded (er_Key r)). pose proof (encode_string_bounded (er_Cursor r)).
  pose proof (compact_bounded (er_Data r) false false H). unfold compact. lia.
Qed.

Lemma zeros_value k s : digits_value 0 (zeros k s) = digits_value 0 s.
Proof. induction k as [|k IH]; [done|]. exact IH. Qed.

(** Batch ids of different indexes differ. *)
Lemma batch_id_inj n m : 0 <= n < two64 -> 0 <= m < two64 -> batch_id n = batch_id m -> n = m.
Proof.
  unfold batch_id. intros Hn Hm. intros [= H].
  change (pad6 n = pad6 m) in H. apply (f_equal (digits_value 0)) in H. unfold pad6 in H. cbv zeta in H.
  rewrite (proj2 (Z.ltb_ge n 0)), (proj2 (Z.ltb_ge m 0)), !zeros_value, !Z.abs_eq in H by lia.
  unfold two64 in *. rewrite !digits_itoa in H by lia. congruence.
Qed.

Lemma marshal_elements_bounded rows :
  rows <> [] -> Forall (fun r => no_line_separator (er_Data r) = true) rows ->
  strlen (marshal_elements rows) + 18 <= wire_total rows.
Proof.
  induction rows as [|r rest IH]; intros Hne Hall; [done|].
  apply Forall_cons in Hall as [Hr Hrest]. pose proof (marshal_row_bounded r Hr).
  destruct rest as [|r' rest].
  - cbn [marshal_elements wire_total foldr]. lia.
  - cbn [marshal_elements]. strlens.
    change (wire_total (r :: r' :: rest)) with (wireBytes r + wire_total (r' :: rest)).
    specialize (IH ltac:(done) Hrest). cbn [marshal_elements] in IH. lia.
Qed.

Lemma marshal_rows_array_bounded rows :
  rows <> [] -> Forall (fun r => no_line_separator (er_Data r) = true) rows ->
  strlen (marshal_rows_array rows) + 16 <= wire_total rows.
Proof.
  intros Hne Hall. unfold marshal_rows_array. strlens. pose proof (marshal_elements_bounded rows Hne Hall). lia.
Qed.

Lemma wire_total_snoc rows r : wire_total (rows ++ [r]) = wire_total rows + wireBytes r.
Proof.
  induction rows as [|x rows IH]; [cbn; lia|].
  change (wire_total ((x :: rows) ++ [r])) with (wireBytes x + wire_total (rows ++ [r])).
  change (wire_total (x :: rows)) with (wireBytes x + wire_total rows). lia.
Qed.

(** The rows come back in order. *)
Lemma chunk_rows_from_concat maxBytes cur size rows :
  concat (chunk_rows_from maxBytes cur size rows) = cur ++ rows.
Proof.
  revert cur size. induction rows as [|r rows IH]; intros cur size; simpl.
  - destruct cur; simpl; by rewrite ?app_nil_r.
  - destruct cur as [|c cur]; [apply IH|]. destruct (_ <? _).
    + simpl. by rewrite IH.
    + by rewrite IH, <- app_assoc.
Qed.

(** A chunk is over the budget only when it is a single row. *)
Definition chunk_fits (maxBytes : Z) (c : list ExternalRow) : Prop :=
  c <> [] /\ (wire_total c <= maxBytes \/ exists r, c = [r]).

Lemma chunk_rows_from_fits maxBytes cur rows :
  cur = [] \/ chunk_fits maxBytes cur ->
  Forall (chunk_fits maxBytes) (chunk_rows_from maxBytes cur (wire_total cur) rows).
Proof.
  revert cur. induction rows as [|r rows IH]; intros cur Hcur; simpl.
  - destruct cur; [constructor|]. destruct Hcur as [?|?]; [done|]. by apply Forall_singleton.
  - assert (Hone : chunk_fits maxBytes [r]) by (split; [done|eauto]).
    destruct cur as [|c cur].
    { rewrite <- (wire_total_snoc []). apply (IH [r]). by right. }
    destruct Hcur as [?|Hcur]; [done|]. destruct (Z.ltb_spec maxBytes (wire_total (c :: cur) + wireBytes r)).
    + constructor; [done|]. rewrite <- (Z.add_0_r (wireBytes r)). apply (IH [r]). by right.
    + rewrite <- wire_total_snoc. apply IH. right. split; [by destruct cur|]. left.
      rewrite wire_total_snoc. lia.
Qed.

Lemma chunkRows_fits maxBytes rows : Forall (chunk_fits maxBytes) (chunkRows rows maxBytes).
Proof. apply (chunk_rows_from_fits maxBytes []). by left. Qed.

Lemma chunkRows_concat maxBytes rows : concat (chunkRows rows maxBytes) = external_of <$> rows.
Proof. apply chunk_rows_from_concat. Qed.

Lemma publishBudget_pos maxPayload : 0 < publishBudget maxPayload.
Proof.
  unfold publishBudget, publishFallbackBudget. destruct maxPayload as [max|]; [|lia].
  destruct (_ && _) eqn:E; [|lia]. bool_props. lia.
Qed.

Lemma publishBudget_limit max : 0 < max -> publishBudget (Some max) = max - max / 8.
Proof.
  intros H. unfold publishBudget. replace (0 <? max) with true by lia.
  pose proof (Z.div_lt max 8 H ltac:(lia)). by replace (0 <? max - max / 8) with true by lia.
Qed.

Lemma oversized_fits budget c :
  chunk_fits budget c -> oversized budget c = None -> c <> [] /\ wire_total c <= budget.
Proof.
  intros [Hne [Hle|[r ->]]] Ho; [done|]. split; [done|]. simpl in *.
  destruct (Z.ltb_spec budget (wireBytes r)); [done|]. lia.
Qed.

(** A broker call of chunk [i] that fails. *)
Definition broker_fault (b : broker_calls) (i : Z) : Prop :=
  (observed b = true /\ admission_fails b i = true) \/ publish_fails b i = true \/
  (durable b = false /\ flush_fails b i = true) \/ (observed b = true /\ observer_fails b i = true).

Definition has_cause (b : broker_calls) (budget : Z) (rows : list ExternalRow) (e : publish_error) : Prop :=
  match e with
  | RowTooLarge size limit => limit = budget /\ exists r, r ∈ rows /\ size = wireBytes r /\ budget < size
  | EncodeFailed => exists r, r ∈ rows /\ valid_json b (er_Data r) = false
  | AdmissionRefused | PublishFailed | ObserverFailed => exists i, broker_fault b i
  end.

Lemma not_encodable b rows :
  encodable b rows = false -> exists r, r ∈ rows /\ valid_json b (er_Data r) = false.
Proof.
  unfold encodable. induction rows as [|r rows IH]; simpl; [done|].
  destruct (valid_json b (er_Data r)) eqn:E; simpl.
  - intros (x & ? & ?)%IH. exists x. split; [by right|done].
  - intros _. exists r. split; [left|done].
Qed.

Lemma publish_one_cause b budget i chunk accepted e :
  publish_one b i chunk = (accepted, Some e) -> has_cause b budget chunk e.
Proof.
  unfold publish_one. destruct (encodable b chunk) eqn:Ee; simpl.
  2: { intros [= <- <-]. by apply not_encodable. }
  intros H. repeat match type of H with context [if ?c then _ else _] => destruct c eqn:? end;
    simplify_eq; simpl; exists i; unfold broker_fault; bool_props; tauto.
Qed.

Lemma has_cause_mono b budget rows rows' e :
  rows ⊆ rows' -> has_cause b budget rows e -> has_cause b budget rows' e.
Proof. intros Hs. destruct e; simpl; [intros (? & r & ? & ? & ?)|intros (r & ? & ?)|..]; set_solver. Qed.

(** What the loop over the chunks promises. *)
Lemma publish_chunks_spec b budget i chunks :
  Forall (chunk_fits budget) chunks ->
  forall accepted err, publish_chunks b budget i chunks = (accepted, err) ->
  accepted `prefix_of` chunks /\ (err = None -> accepted = chunks) /\
  Forall (fun c => c <> [] /\ wire_total c <= budget) accepted /\
  (forall e, err = Some e -> has_cause b budget (concat chunks) e).
Proof.
  intros Hfit. revert i. induction Hfit as [|c rest Hc Hrest IH]; intros i accepted err H; simpl in H.
  { injection H as <- <-. by split_and!. }
  destruct (oversized budget c) as [e|] eqn:Ho.
  { injection H as <- <-. split_and!; [apply prefix_nil|done|constructor|].
    intros ? [= <-]. destruct c as [|r [|]]; simpl in Ho; try done.
    destruct (Z.ltb_spec budget (wireBytes r)); [|done]. injection Ho as <-.
    split; [done|]. exists r. split_and!; [left|done|done]. }
  pose proof (oversized_fits budget c Hc Ho) as Hok.
  destruct (publish_one b i c) as [acc [e|]] eqn:Hp.
  - injection H as <- <-. split_and!; [|done| |].
    + destruct acc; [by eexists|apply prefix_nil].
    + destruct acc; [by apply Forall_singleton|constructor].
    + intros ? [= <-]. apply (has_cause_mono b budget c); [intros x Hx; apply elem_of_app; by left|]. by eapply publish_one_cause.
  - destruct (publish_chunks b budget (i + 1) rest) as [out e] eqn:Hr. injection H as <- <-.
    destruct (IH _ _ _ Hr) as (Hpre & Hnone & Hall & Hcause). split_and!.
    + by apply prefix_cons.
    + intros He. by rewrite (Hnone He).
    + by constructor.
    + intros e' He'. apply (has_cause_mono b budget (concat rest)); [intros x Hx; apply elem_of_app; by right|]. by apply Hcause.
Qed.

Section IncrementalLemmas.
Context `{SnapshotEnv} (b : broker_calls) (projectID connectorID table : string) (receipt : IncrementalReceipt).
Let numbered := incremental_batch projectID connectorID table receipt.

Lemma publish_incremental_spec i chunks out n err :
  publish_incremental b projectID connectorID table receipt i chunks = (out, n, err) ->
  (forall k batch, out !! k = Some batch ->
     exists c, chunks !! k = Some c /\ batch = numbered (i + Z.of_nat k) c) /\
  n <= i + Z.of_nat (length out) <= n + 1 /\
  (err = None -> length out = length chunks /\ n = i + Z.of_nat (length out)).
Proof.
  revert i out n err. induction chunks as [|c rest IH]; intros i out n err E; cbn [publish_incremental] in E.
  { injection E as <- <- <-. split_and!; [done|cbn; lia..|intros _; cbn; lia]. }
  destruct (negb (encodable b c)).
  { injection E as <- <- <-. split_and!; [done|cbn; lia..|done]. }
  destruct (publishExternalEnvelope _ _ _) as [acc [e|]] eqn:Hp.
  - injection E as <- <- <-. split_and!; [|destruct acc; cbn; lia..|done].
    intros [|k] batch Hk; destruct acc; try done. injection Hk as <-.
    exists c. split; [done|]. by rewrite Z.add_0_r.
  - destruct (publish_incremental _ _ _ _ _ _ rest) as [[out' n'] e'] eqn:Hr. injection E as <- <- <-.
    destruct (IH _ _ _ _ Hr) as (Hnum & Hlen & Hnone). split_and!.
    + intros [|k] batch Hk; [injection Hk as <-; exists c; split; [done|by rewrite Z.add_0_r]|].
      destruct (Hnum k batch Hk) as (c' & ? & ->). exists c'. split; [done|]. f_equal. lia.
    + cbn [length]. lia.
    + cbn [length]. lia.
    + intros He. destruct (Hnone He). cbn [length]. lia.
Qed.

(** The rows of the numbered batches are those of the chunks, as far as they go. *)
Lemma numbered_rows i (out : list ExternalRowsBatch) chunks :
  (forall k batch, out !! k = Some batch ->
     exists c, chunks !! k = Some c /\ batch = numbered (i + Z.of_nat k) c) ->
  b_Rows <$> out `prefix_of` chunks.
Proof.
  revert i chunks. induction out as [|x out IH]; intros i chunks Hnum; [apply prefix_nil|].
  destruct (Hnum 0%nat x eq_refl) as (c & Hc & ->). destruct chunks as [|c' rest]; [done|].
  injection Hc as ->. cbn. apply prefix_cons, (IH (i + 1)). intros k batch Hk.
  destruct (Hnum (S k) batch Hk) as (d & ? & ->). exists d. split; [done|]. f_equal. lia.
Qed.
End IncrementalLemmas.

Lemma prefix_concat {A} (xs ys : list (list A)) : xs `prefix_of` ys -> concat xs `prefix_of` concat ys.
Proof. intros [k ->]. exists (concat k). apply concat_app. Qed.

(** ** Properties *)

(** Every message a connector sync hands to the broker fits.  For rows without a raw
    U+2028 or U+2029 (what [json.Marshal] produces has none), the accepted chunks
    are non-empty, their encoded rows are at most the budget, and their bodies at
    most the broker's payload limit when the identifiers leave it an eighth.  They
    are a prefix of the rows in order, all of them unless there is an error, and
    an error has a cause in the rows or in a call of the broker. *)
Theorem published_messages_fit b maxPayload rows accepted err :
  (forall r, r ∈ rows -> no_line_separator (lr_DataJSON r) = true) ->
  PublishExternalRows b maxPayload rows = (accepted, err) ->
  let budget := publishBudget maxPayload in
  (forall c, c ∈ accepted -> c <> [] /\ strlen (marshal_rows_array c) <= budget) /\
  (forall projectID connectorID table max c, maxPayload = Some max -> 0 < max -> c ∈ accepted ->
     jsonStringBytes projectID + jsonStringBytes connectorID + jsonStringBytes table + 32 <= max / 8 ->
     strlen (marshal_batch projectID connectorID table c) <= max) /\
  concat accepted `prefix_of` external_of <$> rows /\
  (err = None -> concat accepted = external_of <$> rows) /\
  (forall e, err = Some e -> has_cause b budget (external_of <$> rows) e).
Proof.
  intros Hclean Hpub budget.
  assert (Hspec : publish_chunks b budget 0 (chunkRows rows budget) = (accepted, err)).
  { by destruct rows. }
  destruct (publish_chunks_spec b budget 0 _ (chunkRows_fits budget rows) _ _ Hspec)
    as (Hpre & Hnone & Hall & Hcause).
  rewrite chunkRows_concat in Hcause.
  assert (Hconcat : concat accepted `prefix_of` external_of <$> rows).
  { rewrite <- (chunkRows_concat budget). by apply prefix_concat. }
  assert (Harray : forall c, c ∈ accepted -> c <> [] /\ strlen (marshal_rows_array c) + 16 <= budget).
  { intros c Hc. rewrite Forall_forall in Hall. destruct (Hall c Hc) as [Hne Hle]. split; [done|].
    pose proof (marshal_rows_array_bounded c Hne). enough (Forall (fun r => no_line_separator (er_Data r) = true) c) by naive_solver lia.
    apply Forall_forall. intros r Hr. destruct Hconcat as [k Hk].
    assert (Hin : r ∈ external_of <$> rows).
    { rewrite Hk. apply elem_of_app. left. apply list_elem_of_In, in_concat. exists c.
      split; by apply list_elem_of_In. }
    apply list_elem_of_fmap in Hin as (x & -> & Hx). by apply Hclean. }
  split_and!; [|intros p con t max c -> Hmax Hc Hids|done| |done].
  - intros c Hc. destruct (Harray c Hc). split; [done|lia].
  - destruct (Harray c Hc) as [_ Hle]. unfold budget in Hle. rewrite publishBudget_limit in Hle by done.
    unfold marshal_batch, field_text, field. strlens.
    change (strlen "project_id") with 10. change (strlen "connector_id") with 12.
    change (strlen "table") with 5. change (strlen "rows") with 4.
    pose proof (encode_string_bounded p). pose proof (encode_string_bounded con).
    pose proof (encode_string_bounded t). lia.
  - intros He. by rewrite (Hnone He), chunkRows_concat.
Qed.

(** The receipt-aware path numbers its batches without gaps.  The batches that reach
    the stream carry the indexes from the receipt's on, one after the other, each
    with the digest of its own encoded rows; their rows are a prefix of what was
    pulled, all of it without an error.  The returned count is the number of
    batches on the stream, or one less when the failure came after the stream had
    taken the last one, so the count never names a batch the stream does not have. *)
Theorem incremental_batches_contiguous `{SnapshotEnv} b projectID connectorID table receipt maxPayload rows out n err :
  0 <= ir_BatchIndex receipt ->
  ir_BatchIndex receipt + Z.of_nat (length rows) < two63 ->
  PublishIncrementalBatch b projectID connectorID table receipt maxPayload rows = (out, n, err) ->
  (forall k batch, out !! k = Some batch ->
     exists mark, b_Source batch = Some mark /\
       s_BatchIndex mark = Some (ir_BatchIndex receipt + Z.of_nat k) /\
       s_BatchID mark = batch_id (ir_BatchIndex receipt + Z.of_nat k) /\
       s_PayloadSHA256 mark = sha256_hex (marshal_rows_array (b_Rows batch)) /\
       b_Rows batch <> []) /\
  concat (b_Rows <$> out) `prefix_of` external_of <$> rows /\
  n <= Z.of_nat (length out) <= n + 1 /\
  (err = None -> n = Z.of_nat (length out) /\ concat (b_Rows <$> out) = external_of <$> rows).
Proof.
  intros Hpos Hmax Hpub. unfold PublishIncrementalBatch in Hpub.
  set (chunks := chunkRows rows (publishBudget maxPayload)) in *.
  destruct (publish_incremental_spec _ _ _ _ _ _ _ _ _ _ Hpub) as (Hnum & Hlen & Hnone).
  pose proof (numbered_rows _ _ _ _ _ _ _ Hnum) as Hpre.
  assert (Hc : concat chunks = external_of <$> rows) by apply chunkRows_concat.
  assert (Hfit : Forall (chunk_fits (publishBudget maxPayload)) chunks) by apply chunkRows_fits.
  assert (Hshort : Z.of_nat (length chunks) <= Z.of_nat (length rows)).
  { rewrite <- (length_fmap external_of rows), <- Hc. clear -Hfit.
    induction Hfit as [|c rest [Hne _] _ IH]; [done|]. simpl. rewrite length_app.
    destruct c; [done|]. simpl. lia. }
  split_and!.
  - intros k batch Hk. destruct (Hnum k batch Hk) as (c & Hck & ->). apply lookup_lt_Some in Hck as Hlt.
    cbn [incremental_batch b_Source b_Rows].
    replace (u64 (i64 (ir_BatchIndex receipt + (0 + Z.of_nat k)))) with (ir_BatchIndex receipt + Z.of_nat k).
    2: { rewrite Z.add_0_l, i64_small, u64_small; unfold min_i64, max_i64, two63, two64 in *; lia. }
    eexists. split_and!; [reflexivity|done..|].
    rewrite Forall_lookup in Hfit. by apply (Hfit k c).
  - rewrite <- Hc. by apply prefix_concat.
  - lia.
  - lia.
  - intros He. destruct (Hnone He) as [Hl ->]. split; [lia|]. destruct Hpre as [rest Hrest].
    destruct rest; [by rewrite <- Hc, Hrest, app_nil_r|].
    apply (f_equal length) in Hrest. rewrite length_app, length_fmap in Hrest. simpl in Hrest. lia.
Qed.

(** ** Witnesses *)

Definition w_broker : broker_calls :=
  {| durable := true; observed := true; valid_json := fun _ => true; admission_fails := fun _ => false;
     publish_fails := fun _ => false; flush_fails := fun _ => false; observer_fails := fun i => i =? 1 |}.

Definition w_rows : list LandedRow :=
  (fun k => {| lr_Key := k; lr_Cursor := "<" ; lr_DataJSON := "{}" |}) <$>
  ["1"; "2"; "3"; "4"; "5"; "6"; "7"].

Lemma published_messages_fit_witness :
  let out := PublishExternalRows w_broker (Some 400) w_rows in
  (length (fst out) = 2%nat /\ snd out = Some ObserverFailed) /\
  (forall c, c ∈ fst out -> c <> [] /\ strlen (marshal_rows_array c) <= 350) /\
  (forall c, c ∈ fst out -> strlen (marshal_batch "p" "c" "t" c) <= 400).
Proof.
  assert (E : PublishExternalRows w_broker (Some 400) w_rows =
    (fst (PublishExternalRows w_broker (Some 400) w_rows), snd (PublishExternalRows w_broker (Some 400) w_rows)))
    by (by destruct (PublishExternalRows _ _ _)).
  destruct (published_messages_fit w_broker (Some 400) w_rows _ _
    ltac:(intros r Hr; apply list_elem_of_fmap in Hr as (k & -> & _); reflexivity) E) as (Hfit & Hbody & _).
  split; [vm_compute; by split|]. split; [exact Hfit|].
  intros c Hc. apply (Hbody "p" "c" "t" 400 c); [done|lia|exact Hc|vm_compute; discriminate].
Defined.

Definition w_receipt : IncrementalReceipt :=
  {| ir_SyncID := "s"; ir_RunID := "r"; ir_BatchIndex := 7; ir_ExpectedBatches := 0; ir_ExpectedRows := 0;
     ir_CaptureStartedAt := 5; ir_CaptureFinishedAt := None |}.

Lemma incremental_batches_contiguous_witness :
  let out := PublishIncrementalBatch (H := w_snapshot_env) w_broker "p" "c" "t" w_receipt (Some 400) w_rows in
  (length (fst (fst out)) = 2%nat /\ snd (fst out) = 1 /\
   (b ← fst (fst out) !! 1%nat; m ← b_Source b; Some (s_BatchID m)) = Some "batch-000008") /\
  concat (b_Rows <$> fst (fst out)) `prefix_of` external_of <$> w_rows.
Proof.
  split; [vm_compute; by split_and!|].
  apply (incremental_batches_contiguous (H := w_snapshot_env) w_broker "p" "c" "t" w_receipt (Some 400) w_rows
    _ (snd (fst (PublishIncrementalBatch (H := w_snapshot_env) w_broker "p" "c" "t" w_receipt (Some 400) w_rows)))
    (snd (PublishIncrementalBatch (H := w_snapshot_env) w_broker "p" "c" "t" w_receipt (Some 400) w_rows)));
    [done|done|vm_compute; reflexivity].
Defined.

(** A raw U+2028 costs six bytes on the wire and three in [wireBytes]: twenty of
    them exceed the bound. *)
Definition w_separators : string :=
  String quote (String.concat "" (repeat (String "226"%char (String "128"%char (String "168"%char ""))) 20)
    +:+ String quote "").

Example line_separators_exceed_bound :
  let r := {| er_Key := "k"; er_Cursor := ""; er_Data := w_separators |} in
  wireBytes r = 111 /\ strlen (marshal_row r) = 153.
Proof. vm_compute. by split. Qed.
