(* ===== verification/SnapshotPublishing.v ===== *)
(** * SnapshotPublishing: cutting a snapshot into envelopes

    [BuildSnapshotBatches], [buildSnapshotBatch] and [PublishSnapshotEnvelope] of
    [internal/dataplane/ingest/snapshot_protocol.go], with [SnapshotRows] and
    [MarshalSnapshotEnvelope] of [connector/snapshot.go].  Rows are cut by
    [chunkRows] first; an envelope that is still too large is halved until it
    fits.  What [json.Marshal] writes for an envelope is the argument
    [marshal_envelope]. *)

From S2P Require Import Prelude GoStrings GoTime Duck Journal Landing SnapshotEnvelope SnapshotStore Settler Publishing.
From Stdlib Require Import Ascii.
Import String.
Open Scope string_scope.
Open Scope list_scope.
Open Scope Z_scope.

Inductive build_error :=
| NotDurable | InvalidRowJSON | NoDigest | EnvelopeRefused (e : envelope_error)
| BatchTooLarge (index size budget : Z).

(** ** Rows of an envelope *)

Section Build.
Context `{SnapshotEnv} (marshal_envelope : SnapshotEnvelope -> string).

Definition snapshot_row (row : LandedRow) : option SnapshotRow :=
  (fun canon => {| sr_Key := lr_Key row; sr_Cursor := lr_Cursor row; sr_Data := canon |}) <$>
  canonicalJSON (lr_DataJSON row).

Fixpoint SnapshotRows (rows : list LandedRow) : option (list SnapshotRow) :=
  match rows with
  | [] => Some []
  | r :: rest =>
      match snapshot_row r with
      | None => None
      | Some s => (fun out => s :: out) <$> SnapshotRows rest
      end
  end.

Definition MarshalSnapshotEnvelope (e : SnapshotEnvelope) : result envelope_error string :=
  match Validate e with Some err => Err err | None => Ok (marshal_envelope e) end.

(** The rows a chunk lands as: the cursor is dropped. *)
Definition landed_of (row : ExternalRow) : LandedRow :=
  {| lr_Key := er_Key row; lr_Cursor := ""; lr_DataJSON := er_Data row |}.

Definition batch_envelope (common : SnapshotEnvelope) (index : Z) (rows : list SnapshotRow) (digest : string) :
    SnapshotEnvelope :=
  {| Protocol := SnapshotProtocolV1; ProjectID := ProjectID common; ConnectorID := ConnectorID common;
     Table := Table common; SyncID := SyncID common; Generation := Generation common;
     GenerationSeq := GenerationSeq common; BindingDigest := BindingDigest common;
     CaptureStartedAt := CaptureStartedAt common; Kind := SnapshotKindBatch; RunID := RunID common;
     BatchID := batch_id index; BatchIndex := index; PayloadSHA256 := digest;
     CaptureFinishedAt := None; Rows := rows; ExpectedBatches := ExpectedBatches common;
     ExpectedRows := ExpectedRows common; BatchManifestSHA256 := BatchManifestSHA256 common |}.

Definition buildSnapshotBatch (common : SnapshotEnvelope) (chunk : list ExternalRow) (index : Z) :
    result build_error (SnapshotEnvelope * string) :=
  match SnapshotRows (landed_of <$> chunk) with
  | None => Err InvalidRowJSON
  | Some wireRows =>
      match SnapshotPayloadDigest wireRows with
      | None => Err NoDigest
      | Some digest =>
          let env := batch_envelope common index wireRows digest in
          match MarshalSnapshotEnvelope env with
          | Err e => Err (EnvelopeRefused e)
          | Ok raw => Ok (env, raw)
          end
      end
  end.

(** The queue of chunks; [None] is out of fuel. *)
Fixpoint build_from (fuel : nat) (common : SnapshotEnvelope) (budget startIndex : Z)
    (out : list SnapshotEnvelope) (chunks : list (list ExternalRow)) :
    option (result build_error (list SnapshotEnvelope)) :=
  match chunks with
  | [] => Some (Ok out)
  | chunk :: rest =>
      match fuel with
      | O => None
      | S f =>
          let idx := i64 (startIndex + Z.of_nat (length out)) in
          match buildSnapshotBatch common chunk idx with
          | Err e => Some (Err e)
          | Ok (env, raw) =>
              if budget <? strlen raw then
                match chunk with
                | [_] => Some (Err (BatchTooLarge idx (strlen raw) budget))
                | _ =>
                    let mid := (length chunk / 2)%nat in
                    build_from f common budget startIndex out (take mid chunk :: drop mid chunk :: rest)
                end
              else build_from f common budget startIndex (out ++ [env]) rest
          end
      end
  end.

(** Each turn emits a chunk or halves one: two turns per row are enough. *)
Definition BuildSnapshotBatches (b : broker_calls) (maxPayload : option Z) (common : SnapshotEnvelope)
    (rows : list LandedRow) (startIndex : Z) : option (result build_error (list SnapshotEnvelope)) :=
  if negb (durable b) then Some (Err NotDurable)
  else
    let budget := publishBudget maxPayload in
    build_from (2 * length rows) common budget startIndex [] (chunkRows rows budget).

(** ** Publication *)

Inductive snapshot_publish_error :=
| SPNotDurable | SPNotAdmitted | SPInvalid (e : envelope_error) | SPRefused | SPObserver.

(** The deduplication id of an envelope. *)
Definition snapshot_msg_id (env : SnapshotEnvelope) : string :=
  join_byte ":"%char [Protocol env; ProjectID env; ConnectorID env; Table env; Generation env; Kind env] +:+
  (if String.eqb (Kind env) SnapshotKindBatch then ":" +:+ BatchID env else ":complete").

(** The message that reached the stream under its id, and the error. *)
Definition PublishSnapshotEnvelope (b : broker_calls) (i : Z) (env : SnapshotEnvelope) :
    option (string * string) * option snapshot_publish_error :=
  if negb (durable b) then (None, Some SPNotDurable)
  else if observed b && admission_fails b i then (None, Some SPNotAdmitted)
  else match MarshalSnapshotEnvelope env with
       | Err e => (None, Some (SPInvalid e))
       | Ok body =>
           if publish_fails b i then (None, Some SPRefused)
           else if observed b && observer_fails b i
           then (Some (snapshot_msg_id env, body), Some SPObserver)
           else (Some (snapshot_msg_id env, body), None)
       end.
End Build.

(** ** Lemmas *)

Section BuildLemmas.
Context `{SnapshotEnv} (marshal_envelope : SnapshotEnvelope -> string).

Lemma SnapshotRows_app xs ys sx sy :
  SnapshotRows xs = Some sx -> SnapshotRows ys = Some sy -> SnapshotRows (xs ++ ys) = Some (sx ++ sy).
Proof.
  revert sx. induction xs as [|x xs IH]; intros sx Hx Hy; simpl in *.
  { by injection Hx as <-. }
  destruct (snapshot_row x) as [s|]; [|done]. destruct (SnapshotRows xs) as [sxs|]; [|done].
  injection Hx as <-. by rewrite (IH sxs).
Qed.

(** A turn emits a chunk or halves it: what is left in the queue. *)
Definition queue_cost (chunks : list (list ExternalRow)) : nat :=
  sum_list_with (fun c => (2 * length c - 1)%nat) chunks.

Lemma queue_cost_halves (c : list ExternalRow) rest :
  (2 <= length c)%nat ->
  let mid := (length c / 2)%nat in
  take mid c <> [] /\ drop mid c <> [] /\
  (queue_cost (take mid c :: drop mid c :: rest) < queue_cost (c :: rest))%nat.
Proof.
  intros Hl mid. assert (Hmid : (1 <= mid < length c)%nat).
  { split; [by apply Nat.div_le_lower_bound; lia|apply Nat.div_lt; lia]. }
  assert (Ht : length (take mid c) = mid) by (rewrite length_take; lia).
  assert (Hd : length (drop mid c) = (length c - mid)%nat) by (by rewrite length_drop).
  split_and!; [intros E; rewrite E in Ht; simpl in Ht; lia|intros E; rewrite E in Hd; simpl in Hd; lia|].
  unfold queue_cost. simpl. rewrite Ht, Hd. lia.
Qed.

(** The envelopes are numbered from the start index, valid and within the budget. *)
Definition built (common : SnapshotEnvelope) (budget startIndex : Z) (out : list SnapshotEnvelope) : Prop :=
  forall k env, out !! k = Some env ->
    (exists rows digest, env = batch_envelope common (i64 (startIndex + Z.of_nat k)) rows digest) /\
    Validate env = None /\ strlen (marshal_envelope env) <= budget.

Lemma built_snoc common budget startIndex out env rows digest :
  built common budget startIndex out ->
  env = batch_envelope common (i64 (startIndex + Z.of_nat (length out))) rows digest ->
  Validate env = None -> strlen (marshal_envelope env) <= budget ->
  built common budget startIndex (out ++ [env]).
Proof.
  intros Hb He Hv Hl k x Hx. apply lookup_app_Some in Hx as [Hx|[Hk Hx]]; [by apply Hb|].
  apply list_lookup_singleton_Some in Hx as [Hk0 <-].
  assert (k = length out) as -> by lia. split_and!; eauto.
Qed.

(** An error is that of a non-empty group of the rows, or one row is too large. *)
Definition build_cause (common : SnapshotEnvelope) (budget : Z) (rows : list ExternalRow) (e : build_error) : Prop :=
  exists group index, group <> [] /\ group ⊆ rows /\
    (buildSnapshotBatch marshal_envelope common group index = Err e \/
     exists r env raw, group = [r] /\ buildSnapshotBatch marshal_envelope common group index = Ok (env, raw) /\
       budget < strlen raw /\ e = BatchTooLarge index (strlen raw) budget).

Lemma buildSnapshotBatch_ok common chunk index env raw :
  buildSnapshotBatch marshal_envelope common chunk index = Ok (env, raw) ->
  exists digest, env = batch_envelope common index (Rows env) digest /\ Validate env = None /\
    raw = marshal_envelope env /\ SnapshotRows (landed_of <$> chunk) = Some (Rows env).
Proof.
  unfold buildSnapshotBatch, MarshalSnapshotEnvelope.
  destruct (SnapshotRows _) as [rows|]; [|done]. destruct (SnapshotPayloadDigest rows) as [d|]; [|done].
  cbv zeta. destruct (Validate _) eqn:Hv; [done|]. intros [= <- <-]. exists d. by split_and!.
Qed.

Lemma build_cause_mono common budget rows rows' e :
  rows ⊆ rows' -> build_cause common budget rows e -> build_cause common budget rows' e.
Proof. intros Hs (g & i & Hne & Hg & Hc). exists g, i. split_and!; [done|by etrans|done]. Qed.

(** The loop ends within its fuel, and what it builds. *)
Lemma build_from_spec fuel common budget startIndex out chunks :
  Forall (fun c => c <> []) chunks -> (queue_cost chunks <= fuel)%nat ->
  built common budget startIndex out ->
  exists r, build_from marshal_envelope fuel common budget startIndex out chunks = Some r /\
    match r with
    | Ok out' => exists new, out' = out ++ new /\ built common budget startIndex out' /\
        SnapshotRows (landed_of <$> concat chunks) = Some (concat (Rows <$> new))
    | Err e => build_cause common budget (concat chunks) e
    end.
Proof.
  revert out chunks. induction fuel as [|f IH]; intros out chunks Hne Hcost Hb.
  - destruct chunks as [|c rest]; [exists (Ok out); split; [done|]; exists []; by rewrite app_nil_r|].
    apply Forall_cons in Hne as [Hc _]. destruct c; [done|]. unfold queue_cost in Hcost. simpl in Hcost. lia.
  - destruct chunks as [|c rest]; [exists (Ok out); split; [done|]; exists []; by rewrite app_nil_r|].
    apply Forall_cons in Hne as [Hc Hrest]. cbn [build_from].
    set (idx := i64 (startIndex + Z.of_nat (length out))).
    assert (Hin : c ⊆ concat (c :: rest)) by (intros x Hx; apply elem_of_app; by left).
    destruct (buildSnapshotBatch marshal_envelope common c idx) as [[env raw]|e] eqn:Hbuild.
    2: { eexists. split; [done|]. exists c, idx. by split_and!; [..|left]. }
    destruct (buildSnapshotBatch_ok _ _ _ _ _ Hbuild) as (d & He & Hv & Hraw & Hrows).
    destruct (Z.ltb_spec budget (strlen raw)) as [Hover|Hfits].
    + destruct c as [|r1 [|r2 c']]; [done| |].
      { eexists. split; [done|]. exists [r1], idx. split_and!; [done|done|]. right. by exists r1, env, raw. }
      set (c := r1 :: r2 :: c') in *. destruct (queue_cost_halves c rest) as (Ht & Hd & Hlt); [simpl; lia|].
      destruct (IH out (take (length c / 2) c :: drop (length c / 2) c :: rest)) as (r & Hr & Hres);
        [by repeat apply Forall_cons_2|lia|done|].
      exists r. split; [exact Hr|]. cbn [concat] in Hres |- *. rewrite app_assoc, take_drop in Hres. exact Hres.
    + destruct (IH (out ++ [env]) rest) as (r & Hr & Hres); [done| | |].
      { assert (1 <= length c)%nat by (destruct c; [done|simpl; lia]).
        unfold queue_cost in *. cbn [sum_list_with] in Hcost. lia. }
      { apply (built_snoc _ _ _ _ _ (Rows env) d); [done|done|done|by rewrite <- Hraw]. }
      exists r. split; [exact Hr|]. destruct r as [out'|e].
      * destruct Hres as (new & -> & Hb' & Hsr). exists (env :: new). rewrite <- app_assoc in Hb' |- *.
        split_and!; [done|exact Hb'|]. cbn [concat]. rewrite fmap_app. cbn [fmap list_fmap concat].
        by apply SnapshotRows_app.
      * apply (build_cause_mono _ _ (concat rest)); [|done]. intros x Hx. apply elem_of_app. by right.
Qed.
End BuildLemmas.

Lemma queue_cost_concat chunks : (queue_cost chunks <= 2 * length (concat chunks))%nat.
Proof.
  unfold queue_cost. induction chunks as [|c chunks IH]; [done|].
  cbn [sum_list_with concat]. rewrite length_app. lia.
Qed.

Lemma SnapshotRows_length `{SnapshotEnv} rows out : SnapshotRows rows = Some out -> length out = length rows.
Proof.
  revert out. induction rows as [|r rows IH]; intros out E; simpl in E; [by injection E as <-|].
  destruct (snapshot_row r); [|done]. destruct (SnapshotRows rows) as [ss|]; [|done].
  injection E as <-. simpl. by rewrite (IH ss).
Qed.

Lemma append_inj s t u : s +:+ t = s +:+ u -> t = u.
Proof. induction s as [|c s IH]; [done|]. intros [= E]. by apply IH. Qed.

Lemma length_concat_nonempty {A B} (f : A -> list B) xs :
  (forall x, x ∈ xs -> f x <> []) -> (length xs <= length (concat (f <$> xs)))%nat.
Proof.
  intros Hf. induction xs as [|x xs IH]; [done|].
  assert (Hx : (1 <= length (f x))%nat) by (specialize (Hf x ltac:(left)); destruct (f x); [done|simpl; lia]).
  rewrite fmap_cons. cbn [concat length]. rewrite length_app.
  enough (length xs <= length (concat (f <$> xs)))%nat by lia. apply IH. intros y Hy. apply Hf. by right.
Qed.

(** A valid batch envelope has rows. *)
Lemma valid_batch_rows `{SnapshotEnv} common index rows digest :
  Validate (batch_envelope common index rows digest) = None -> rows <> [].
Proof.
  intros Hv ->. unfold Validate in Hv. destruct (_ || _ || _ || _ || _ || _ || _ || _ || _ || _); [done|].
  cbn [batch_envelope Kind Rows] in Hv. rewrite String.eqb_refl in Hv.
  by rewrite ?orb_true_r, ?orb_true_l in Hv.
Qed.

Lemma valid_batch_index `{SnapshotEnv} common index rows digest :
  Validate (batch_envelope common index rows digest) = None -> 0 <= index.
Proof.
  intros Hv. unfold Validate in Hv. destruct (_ || _ || _ || _ || _ || _ || _ || _ || _ || _); [done|].
  cbn [batch_envelope Kind BatchIndex] in Hv. rewrite String.eqb_refl in Hv.
  destruct (Z.ltb_spec index 0); [|done]. by rewrite ?orb_true_r, ?orb_true_l in Hv.
Qed.

(** The cutting ends, and what it returns. *)
Lemma BuildSnapshotBatches_spec `{SnapshotEnv} marshal_envelope b maxPayload common rows startIndex :
  durable b = true ->
  let budget := publishBudget maxPayload in
  exists r, BuildSnapshotBatches marshal_envelope b maxPayload common rows startIndex = Some r /\
    match r with
    | Ok out => exists new, out = [] ++ new /\ built marshal_envelope common budget startIndex out /\
        SnapshotRows (landed_of <$> (external_of <$> rows)) = Some (concat (Rows <$> new))
    | Err e => build_cause marshal_envelope common budget (external_of <$> rows) e
    end.
Proof.
  intros Hd budget. unfold BuildSnapshotBatches. rewrite Hd. cbn [negb].
  pose proof (queue_cost_concat (chunkRows rows budget)) as Hcost.
  rewrite chunkRows_concat, length_fmap in Hcost.
  assert (Hne : Forall (fun c => c <> []) (chunkRows rows budget)).
  { eapply Forall_impl; [apply (chunkRows_fits budget rows)|]. by intros c [? _]. }
  destruct (build_from_spec marshal_envelope _ common budget startIndex [] _ Hne Hcost) as (r & Hr & Hres).
  { intros k env Hk. by rewrite lookup_nil in Hk. }
  exists r. split; [exact Hr|]. by rewrite chunkRows_concat in Hres.
Qed.

(** ** Properties *)

(** A snapshot is cut without a gap, a repetition or an oversized message.  The cutting
    ends; what it returns are valid batch envelopes of the given generation,
    numbered one after the other from the start index, each within the publish
    budget as encoded, under distinct deduplication ids; their rows are those of
    the snapshot in order, with canonical data and no cursor.  Otherwise it
    returns an error of some of the rows, and nothing. *)
Theorem snapshot_batches_partition `{SnapshotEnv} marshal_envelope b maxPayload common rows startIndex :
  durable b = true -> 0 <= startIndex -> startIndex + Z.of_nat (length rows) <= max_i64 ->
  let budget := publishBudget maxPayload in
  let sent := external_of <$> rows in
  exists r, BuildSnapshotBatches marshal_envelope b maxPayload common rows startIndex = Some r /\
    match r with
    | Ok out =>
        (forall k env, out !! k = Some env ->
           BatchIndex env = startIndex + Z.of_nat k /\ BatchID env = batch_id (BatchIndex env) /\
           Kind env = SnapshotKindBatch /\ Generation env = Generation common /\
           GenerationSeq env = GenerationSeq common /\
           Validate env = None /\ strlen (marshal_envelope env) <= budget) /\
        SnapshotRows (landed_of <$> sent) = Some (concat (Rows <$> out)) /\
        NoDup (snapshot_msg_id <$> out)
    | Err e => build_cause marshal_envelope common budget sent e
    end.
Proof.
  intros Hd Hpos Hmax budget sent.
  destruct (BuildSnapshotBatches_spec marshal_envelope b maxPayload common rows startIndex Hd) as (r & Hr & Hres).
  exists r. split; [exact Hr|].
  destruct r as [out|e]; [|done]. destruct Hres as (new & Hout & Hb & Hrows). simpl in Hout. subst new.
  assert (Hrowsne : forall env, env ∈ out -> Rows env <> []).
  { intros env [k Hk]%list_elem_of_lookup. destruct (Hb k env Hk) as ((rs & d & ->) & Hv & _).
    by eapply valid_batch_rows. }
  assert (Hlen : (length out <= length rows)%nat).
  { apply SnapshotRows_length in Hrows. unfold sent in Hrows. rewrite !length_fmap in Hrows.
    rewrite <- Hrows. by apply length_concat_nonempty. }
  assert (Hidx : forall k env, out !! k = Some env ->
    exists rs d, env = batch_envelope common (startIndex + Z.of_nat k) rs d).
  { intros k env Hk. destruct (Hb k env Hk) as ((rs & d & ->) & _). apply lookup_lt_Some in Hk.
    exists rs, d. f_equal. apply i64_small. unfold min_i64, two63. lia. }
  split_and!; [|exact Hrows|].
  - intros k env Hk. destruct (Hb k env Hk) as (_ & Hv & Hfit).
    destruct (Hidx k env Hk) as (rs & d & ->). by split_and!.
  - apply NoDup_alt. intros i j id Hi Hj. rewrite list_lookup_fmap in Hi, Hj.
    apply fmap_Some in Hi as (ei & Hi & ->). apply fmap_Some in Hj as (ej & Hj & Hid).
    apply lookup_lt_Some in Hi as Hli. apply lookup_lt_Some in Hj as Hlj.
    destruct (Hidx i ei Hi) as (ri & di & ->), (Hidx j ej Hj) as (rj & dj & ->).
    apply append_inj in Hid. cbn [batch_envelope Kind BatchID] in Hid. rewrite String.eqb_refl in Hid.
    apply append_inj, batch_id_inj in Hid; unfold two64, max_i64, two63 in *; lia.
Qed.

(** ** Witnesses *)

Definition w_marshal (e : SnapshotEnvelope) : string :=
  ProjectID e +:+ ConnectorID e +:+ Generation e +:+ marshal_rows_array
  ((fun r => {| er_Key := sr_Key r; er_Cursor := BatchID e; er_Data := sr_Data r |}) <$> Rows e).

Lemma snapshot_batches_partition_witness :
  let run := BuildSnapshotBatches (H := w_snapshot_env) w_marshal w_broker (Some 300) (w_snapshot 0 []) w_rows 4 in
  (exists out, run = Some (Ok out) /\ (BatchID <$> out) = ["batch-000004"; "batch-000005"; "batch-000006"]) /\
  exists r, run = Some r /\
    match r with
    | Ok out => SnapshotRows (H := w_snapshot_env) (landed_of <$> (external_of <$> w_rows)) = Some (concat (Rows <$> out)) /\
        NoDup (snapshot_msg_id <$> out)
    | Err _ => False
    end.
Proof.
  split; [eexists; split; vm_compute; reflexivity|].
  destruct (snapshot_batches_partition (H := w_snapshot_env) w_marshal w_broker (Some 300) (w_snapshot 0 [])
    w_rows 4) as (r & Hr & Hres); [done|done|vm_compute; discriminate|].
  exists r. split; [exact Hr|]. destruct r as [out|e]; [by destruct Hres as (_ & ? & ?)|].
  vm_compute in Hr. discriminate Hr.
Defined.
