(* ===== verification/ControlPlane.v ===== *)
(** * ControlPlane: the Postgres tables of connector syncs

    The rows of connector_syncs, connector_runs, connector_run_keys and of the
    snapshot tables ([internal/dataplane/store/connectors.go], connector_runs.go,
    connector_snapshots.go), as one record of finite maps that [ConnectorRuns] and
    [SnapshotControl] read and write.  A transaction is a function on it; row locks
    and unique indexes make the transactions of one sync sequential. *)

From S2P Require Import Prelude GoStrings Duck.
Import String.
Open Scope string_scope.
Open Scope list_scope.
Open Scope Z_scope.

(** ** Tables *)

Inductive run_status := Queued | Running | Succeeded | Failed | Cancelled.

#[export] Instance run_status_eq_dec : EqDecision run_status.
Proof. solve_decision. Defined.

Record ConnectorRun := {
  cr_ID : string; cr_ProjectID : string; cr_SyncID : string; cr_ConnectorID : string;
  cr_Status : run_status; cr_IdempotencyKey : string; cr_CancelRequested : bool; cr_Rows : Z;
  cr_Cursor : string; cr_CursorKey : string; cr_Error : string; cr_Owner : string;
  cr_Heartbeat : option Z; cr_QueuedAt : Z; cr_StartedAt : option Z; cr_FinishedAt : option Z;
  cr_LeaseEpoch : Z;
}.

Record ConnectorSync := {
  cs_ConnectorID : string; cs_ProjectID : string; cs_SourceTable : string; cs_KeyColumn : string;
  cs_CursorColumn : string; cs_SyncMode : string; cs_ScheduleCron : string; cs_Enabled : bool;
  cs_Cursor : string; cs_CursorKey : string; cs_LastRunAt : option Z; cs_LastStatus : string;
  cs_LastError : string; cs_LastRows : Z; cs_TotalRows : Z; cs_LastSuccessAt : option Z;
  cs_Revision : Z; cs_ConfigRevision : Z;
}.

Inductive generation_state := Capturing | Yielded | Sealed | GenerationCancelled | GenerationFailed.

#[export] Instance generation_state_eq_dec : EqDecision generation_state.
Proof. solve_decision. Defined.

Definition live_generation (s : generation_state) : bool :=
  match s with Capturing | Yielded => true | _ => false end.

(** A row of connector_snapshot_generations. *)
Record SnapshotGeneration := {
  g_ProjectID : string; g_ConnectorID : string; g_Table : string; g_SyncID : string; g_Generation : string;
  g_GenerationSeq : Z; g_BindingDigest : string; g_State : generation_state; g_KeyPosition : string;
  g_NextBatchIndex : Z; g_Rows : Z; g_CaptureStartedAt : Z; g_CaptureFinishedAt : option Z;
  g_TerminalAt : option Z; g_RunID : string; g_Owner : string; g_LeaseEpoch : Z; g_SyncRevision : Z;
  g_SourceRevision : Z;
}.

(** A row of connector_snapshot_outbox. *)
Record SnapshotOutbox := {
  ob_Generation : string; ob_BatchID : string; ob_BatchIndex : Z; ob_Kind : string; ob_Payload : string;
  ob_PayloadSHA256 : string; ob_LowerKey : string; ob_UpperKey : string; ob_Rows : Z; ob_Published : bool;
}.

Definition g_source (g : SnapshotGeneration) : source_key := (g_ProjectID g, g_ConnectorID g, g_Table g).

(** An outbox row is under its generation, kind and batch id. *)
Definition outbox_key : Type := string * string * string.

Definition ob_key (o : SnapshotOutbox) : outbox_key := (ob_Generation o, ob_Kind o, ob_BatchID o).

Record control := {
  syncs : gmap string ConnectorSync; archived : gset string; source_revisions : gmap string Z;
  runs : gmap string ConnectorRun; run_keys : gmap (string * string * string) string;
  generations : gmap string SnapshotGeneration; sequences : gmap source_key Z;
  outbox : gmap outbox_key SnapshotOutbox; cleanup_receipts : gset (string * string);
}.

Definition set_syncs (f : gmap string ConnectorSync -> gmap string ConnectorSync) (db : control) : control :=
  {| syncs := f (syncs db); archived := archived db; source_revisions := source_revisions db; runs := runs db;
     run_keys := run_keys db; generations := generations db; sequences := sequences db; outbox := outbox db;
     cleanup_receipts := cleanup_receipts db |}.

Definition set_source_revisions (f : gmap string Z -> gmap string Z) (db : control) : control :=
  {| syncs := syncs db; archived := archived db; source_revisions := f (source_revisions db);
     runs := runs db; run_keys := run_keys db; generations := generations db; sequences := sequences db; outbox := outbox db;
     cleanup_receipts := cleanup_receipts db |}.

Definition set_runs (f : gmap string ConnectorRun -> gmap string ConnectorRun) (db : control) : control :=
  {| syncs := syncs db; archived := archived db; source_revisions := source_revisions db; runs := f (runs db);
     run_keys := run_keys db; generations := generations db; sequences := sequences db; outbox := outbox db;
     cleanup_receipts := cleanup_receipts db |}.

Definition set_keys (f : gmap (string * string * string) string -> gmap (string * string * string) string) (db : control) : control :=
  {| syncs := syncs db; archived := archived db; source_revisions := source_revisions db; runs := runs db; run_keys
     := f (run_keys db); generations := generations db; sequences := sequences db; outbox := outbox db;
     cleanup_receipts := cleanup_receipts db |}.

Definition set_generations (f : gmap string SnapshotGeneration -> gmap string SnapshotGeneration) (db : control) : control :=
  {| syncs := syncs db; archived := archived db; source_revisions := source_revisions db; runs := runs db; run_keys
     := run_keys db; generations := f (generations db); sequences := sequences db; outbox := outbox db;
     cleanup_receipts := cleanup_receipts db |}.

Definition set_sequences (f : gmap source_key Z -> gmap source_key Z) (db : control) : control :=
  {| syncs := syncs db; archived := archived db; source_revisions := source_revisions db; runs := runs db; run_keys
     := run_keys db; generations := generations db; sequences := f (sequences db); outbox := outbox db;
     cleanup_receipts := cleanup_receipts db |}.

Definition set_outbox (f : gmap outbox_key SnapshotOutbox -> gmap outbox_key SnapshotOutbox) (db : control) : control :=
  {| syncs := syncs db; archived := archived db; source_revisions := source_revisions db; runs := runs db; run_keys
     := run_keys db; generations := generations db; sequences := sequences db; outbox := f (outbox db);
     cleanup_receipts := cleanup_receipts db |}.

Definition set_receipts (f : gset (string * string) -> gset (string * string)) (db : control) : control :=
  {| syncs := syncs db; archived := archived db; source_revisions := source_revisions db; runs := runs db; run_keys
     := run_keys db; generations := generations db; sequences := sequences db; outbox := outbox db;
     cleanup_receipts := f (cleanup_receipts db) |}.

Inductive control_error := NoRows | SourceArchived | SyncPaused | ConstraintViolation | NotOwner
| RevisionConflict | GenerationActive | NotApproved.

(** Everything one sync run needs; [j_BindingDigest] is the digest of the source
    binding, when the job has one. *)
Record SyncJob := {
  j_SyncID : string; j_ProjectID : string; j_ConnectorID : string; j_Table : string; j_KeyColumn : string;
  j_CursorColumn : string; j_Cursor : string; j_CursorKey : string; j_SyncMode : string;
  j_SyncRevision : Z; j_SourceRevision : Z; j_BindingDigest : option string;
}.
