(* ===== verification/ConnectorRuns.v ===== *)
(** * ConnectorRuns: the durable contract of sync runs

    [internal/dataplane/store/connector_runs.go] with the configuration update of
    [connectors.go], over the tables of [ControlPlane].  Each operation is one
    transaction.  Clocks and generated ids are arguments.  [key_fits] is
    the column width of a key, [binding_ok] the operator policy. *)

From S2P Require Import Prelude GoStrings Duck ControlPlane.
Import String.
Open Scope string_scope.
Open Scope list_scope.
Open Scope Z_scope.

(** ** Queries *)

Definition active (r : ConnectorRun) : bool :=
  match cr_Status r with Queued | Running => true | _ => false end.

(** The row a query returns; with the unique indexes there is at most one. *)
Definition find_run (p : ConnectorRun -> bool) (db : control) : option ConnectorRun :=
  head (filter (fun r => p r = true) (snd <$> map_to_list (runs db))).

Definition stamped (projectID syncID idemKey : string) (r : ConnectorRun) : bool :=
  String.eqb (cr_SyncID r) syncID && String.eqb (cr_ProjectID r) projectID
  && String.eqb (cr_IdempotencyKey r) idemKey.

(** A run's own stamp first, then the alias bound to an active run. *)
Definition connectorRunByKey (db : control) (projectID syncID idemKey : string) : option ConnectorRun :=
  match find_run (stamped projectID syncID idemKey) db with
  | Some r => Some r
  | None => id ← run_keys db !! (projectID, syncID, idemKey); runs db !! id
  end.

Definition ConnectorRunByIdempotencyKey (db : control) (projectID syncID idemKey : string) : option ConnectorRun :=
  if String.eqb (trim_space idemKey) "" then None else connectorRunByKey db projectID syncID idemKey.

Definition active_of (projectID syncID : string) (r : ConnectorRun) : bool :=
  String.eqb (cr_SyncID r) syncID && String.eqb (cr_ProjectID r) projectID && active r.

Definition ConnectorRunForProject (db : control) (projectID runID : string) : option ConnectorRun :=
  match runs db !! runID with
  | Some r => if String.eqb (cr_ProjectID r) projectID then Some r else None
  | None => None
  end.

(** ** Enqueue *)

Definition queued_run (runID projectID syncID connectorID idemKey : string) (now : Z) : ConnectorRun :=
  {| cr_ID := runID; cr_ProjectID := projectID; cr_SyncID := syncID; cr_ConnectorID := connectorID;
     cr_Status := Queued; cr_IdempotencyKey := idemKey; cr_CancelRequested := false; cr_Rows := 0;
     cr_Cursor := ""; cr_CursorKey := ""; cr_Error := ""; cr_Owner := ""; cr_Heartbeat := None;
     cr_QueuedAt := now; cr_StartedAt := None; cr_FinishedAt := None; cr_LeaseEpoch := 0 |}.

(** What the primary key and the two unique indexes refuse. *)
Definition violates (r : ConnectorRun) (db : control) : bool :=
  is_some (runs db !! cr_ID r)
  || is_some (find_run (fun x => String.eqb (cr_SyncID x) (cr_SyncID r) && active x) db)
  || (negb (String.eqb (cr_IdempotencyKey r) "")
      && is_some (find_run (fun x => String.eqb (cr_SyncID x) (cr_SyncID r)
                                     && String.eqb (cr_IdempotencyKey x) (cr_IdempotencyKey r)) db)).

Definition bind_key (projectID syncID idemKey runID : string) (db : control) : control :=
  set_keys (fun m => if is_some (m !! (projectID, syncID, idemKey)) then m
                     else <[(projectID, syncID, idemKey) := runID]> m) db.

Section Enqueue.
Context (key_fits : string -> bool).

Definition EnqueueConnectorRun (db : control) (projectID syncID idemKey newID : string) (now : Z) :
    result control_error (ConnectorRun * bool * control) :=
  match syncs db !! syncID with
  | None => Err NoRows
  | Some cs =>
      if negb (String.eqb (cs_ProjectID cs) projectID) then Err NoRows
      else match (if String.eqb idemKey "" then None else connectorRunByKey db projectID syncID idemKey) with
           | Some existing => Ok (existing, false, db)
           | None =>
               match find_run (active_of projectID syncID) db with
               | Some live =>
                   if String.eqb idemKey "" then Ok (live, false, db)
                   else if key_fits idemKey
                        then Ok (live, false, bind_key projectID syncID idemKey (cr_ID live) db)
                        else Err ConstraintViolation
               | None =>
                   if bool_decide (cs_ConnectorID cs ∈ archived db) then Err SourceArchived
                   else if negb (cs_Enabled cs) then Err SyncPaused
                   else
                     let run := queued_run newID projectID syncID (cs_ConnectorID cs) idemKey now in
                     if negb (key_fits idemKey) || violates run db then Err ConstraintViolation
                     else Ok (run, true, set_runs <[newID := run]> db)
               end
           end
  end.
End Enqueue.

(** ** Claim, heartbeat, finish *)

Definition with_status (r : ConnectorRun) (s : run_status) (cancel : bool) (finished : option Z) : ConnectorRun :=
  {| cr_ID := cr_ID r; cr_ProjectID := cr_ProjectID r; cr_SyncID := cr_SyncID r;
     cr_ConnectorID := cr_ConnectorID r; cr_Status := s; cr_IdempotencyKey := cr_IdempotencyKey r;
     cr_CancelRequested := cancel; cr_Rows := cr_Rows r; cr_Cursor := cr_Cursor r;
     cr_CursorKey := cr_CursorKey r; cr_Error := cr_Error r; cr_Owner := cr_Owner r;
     cr_Heartbeat := cr_Heartbeat r; cr_QueuedAt := cr_QueuedAt r; cr_StartedAt := cr_StartedAt r;
     cr_FinishedAt := finished; cr_LeaseEpoch := cr_LeaseEpoch r |}.

Definition claimed (r : ConnectorRun) (owner : string) (now : Z) : ConnectorRun :=
  {| cr_ID := cr_ID r; cr_ProjectID := cr_ProjectID r; cr_SyncID := cr_SyncID r;
     cr_ConnectorID := cr_ConnectorID r; cr_Status := Running; cr_IdempotencyKey := cr_IdempotencyKey r;
     cr_CancelRequested := cr_CancelRequested r; cr_Rows := cr_Rows r; cr_Cursor := cr_Cursor r;
     cr_CursorKey := cr_CursorKey r; cr_Error := cr_Error r; cr_Owner := owner;
     cr_Heartbeat := Some now; cr_QueuedAt := cr_QueuedAt r; cr_StartedAt := Some now;
     cr_FinishedAt := cr_FinishedAt r; cr_LeaseEpoch := cr_LeaseEpoch r + 1 |}.

Definition ClaimConnectorRun (db : control) (runID owner : string) (now : Z) : option ConnectorRun * control :=
  match runs db !! runID with
  | None => (None, db)
  | Some r =>
      if bool_decide (cr_Status r = Queued) then
        if cr_CancelRequested r
        then (None, set_runs <[runID := with_status r Cancelled true (Some now)]> db)
        else let r' := claimed r owner now in (Some r', set_runs <[runID := r']> db)
      else (None, db)
  end.

Definition beaten (r : ConnectorRun) (now : Z) : ConnectorRun :=
  {| cr_ID := cr_ID r; cr_ProjectID := cr_ProjectID r; cr_SyncID := cr_SyncID r;
     cr_ConnectorID := cr_ConnectorID r; cr_Status := cr_Status r; cr_IdempotencyKey := cr_IdempotencyKey r;
     cr_CancelRequested := cr_CancelRequested r; cr_Rows := cr_Rows r; cr_Cursor := cr_Cursor r;
     cr_CursorKey := cr_CursorKey r; cr_Error := cr_Error r; cr_Owner := cr_Owner r;
     cr_Heartbeat := Some now; cr_QueuedAt := cr_QueuedAt r; cr_StartedAt := cr_StartedAt r;
     cr_FinishedAt := cr_FinishedAt r; cr_LeaseEpoch := cr_LeaseEpoch r |}.

(** Whether a cancel is requested, and whether the run still runs. *)
Definition HeartbeatConnectorRun (db : control) (runID : string) (now : Z) : bool * bool * control :=
  match runs db !! runID with
  | Some r =>
      if bool_decide (cr_Status r = Running)
      then (cr_CancelRequested r, true, set_runs <[runID := beaten r now]> db)
      else (false, false, db)
  | None => (false, false, db)
  end.

(** The part of an engine result the store keeps; [rs_Err] is the error text. *)
Record SyncResult := {
  rs_Cursor : string; rs_CursorKey : string; rs_AdvanceCursor : bool; rs_Rows : Z; rs_Err : string;
}.

Definition finish_status (result : SyncResult) (cancelled : bool) : run_status :=
  if cancelled then Cancelled
  else if negb (String.eqb (rs_Err result) "") then Failed
  else Succeeded.

Definition error_text (result : SyncResult) (cancelled : bool) : string :=
  if negb cancelled && negb (String.eqb (rs_Err result) "") then take_str 500 (rs_Err result)
  else rs_Err result.

Definition finished (r : ConnectorRun) (status : run_status) (result : SyncResult) (err : string) (now : Z) :
    ConnectorRun :=
  {| cr_ID := cr_ID r; cr_ProjectID := cr_ProjectID r; cr_SyncID := cr_SyncID r;
     cr_ConnectorID := cr_ConnectorID r; cr_Status := status; cr_IdempotencyKey := cr_IdempotencyKey r;
     cr_CancelRequested := cr_CancelRequested r; cr_Rows := rs_Rows result; cr_Cursor := rs_Cursor result;
     cr_CursorKey := rs_CursorKey result; cr_Error := err; cr_Owner := cr_Owner r;
     cr_Heartbeat := cr_Heartbeat r; cr_QueuedAt := cr_QueuedAt r; cr_StartedAt := cr_StartedAt r;
     cr_FinishedAt := Some now; cr_LeaseEpoch := cr_LeaseEpoch r |}.

Definition finished_sync (cs : ConnectorSync) (final : run_status) (result : SyncResult) (err : string) (now : Z) :
    ConnectorSync :=
  {| cs_ConnectorID := cs_ConnectorID cs; cs_ProjectID := cs_ProjectID cs; cs_SourceTable := cs_SourceTable cs;
     cs_KeyColumn := cs_KeyColumn cs; cs_CursorColumn := cs_CursorColumn cs; cs_SyncMode := cs_SyncMode cs;
     cs_ScheduleCron := cs_ScheduleCron cs; cs_Enabled := cs_Enabled cs;
     cs_Cursor := if rs_AdvanceCursor result then rs_Cursor result else cs_Cursor cs;
     cs_CursorKey := if rs_AdvanceCursor result then rs_CursorKey result else cs_CursorKey cs;
     cs_LastRunAt := Some now;
     cs_LastStatus := if bool_decide (final = Succeeded) then "ok" else "error";
     cs_LastError := err; cs_LastRows := rs_Rows result; cs_TotalRows := cs_TotalRows cs + rs_Rows result;
     cs_LastSuccessAt := if bool_decide (final = Succeeded) then Some now else cs_LastSuccessAt cs;
     cs_Revision := cs_Revision cs + 1; cs_ConfigRevision := cs_ConfigRevision cs |}.

Definition with_state (g : SnapshotGeneration) (s : generation_state) (terminal : option Z) : SnapshotGeneration :=
  {| g_ProjectID := g_ProjectID g; g_ConnectorID := g_ConnectorID g; g_Table := g_Table g; g_SyncID := g_SyncID g;
     g_Generation := g_Generation g; g_GenerationSeq := g_GenerationSeq g; g_BindingDigest := g_BindingDigest g;
     g_State := s; g_KeyPosition := g_KeyPosition g; g_NextBatchIndex := g_NextBatchIndex g; g_Rows := g_Rows g;
     g_CaptureStartedAt := g_CaptureStartedAt g; g_CaptureFinishedAt := g_CaptureFinishedAt g;
     g_TerminalAt := terminal; g_RunID := g_RunID g; g_Owner := g_Owner g; g_LeaseEpoch := g_LeaseEpoch g;
     g_SyncRevision := g_SyncRevision g; g_SourceRevision := g_SourceRevision g |}.

(** The live generations a predicate selects end cancelled. *)
Definition cancel_where (p : SnapshotGeneration -> bool) (now : Z) : control -> control :=
  set_generations (fmap (fun g =>
    if live_generation (g_State g) && p g then with_state g GenerationCancelled (Some now) else g)).

(** Live generations of a run the cancellation terminates; [owner] restricts it. *)
Definition cancel_generations (runID : string) (owner : option string) (now : Z) : control -> control :=
  cancel_where (fun g => String.eqb (g_RunID g) runID
                         && match owner with Some o => String.eqb (g_Owner g) o | None => true end) now.

Definition FinishConnectorRun (db : control) (runID syncID owner : string) (res : SyncResult)
    (cancelled : bool) (now : Z) : result control_error control :=
  match runs db !! runID with
  | None => Err NotOwner
  | Some r =>
      if negb (bool_decide (cr_Status r = Running) && String.eqb (cr_Owner r) owner) then Err NotOwner
      else
        let final := if cr_CancelRequested r then Cancelled else finish_status res cancelled in
        let err := error_text res cancelled in
        let db := set_runs <[runID := finished r final res err now]> db in
        let db := if cr_CancelRequested r then cancel_generations runID (Some owner) now db else db in
        Ok (set_syncs (alter (fun cs => finished_sync cs final res err now) syncID) db)
  end.

(** ** Cancellation and recovery *)

Definition sealed_generation (db : control) (runID : string) : bool :=
  existsb (fun g => String.eqb (g_RunID g) runID && bool_decide (g_State g = Sealed))
    (snd <$> map_to_list (generations db)).

Definition CancelConnectorRun (db : control) (projectID runID : string) (now : Z) :
    result control_error (ConnectorRun * control) :=
  match ConnectorRunForProject db projectID runID with
  | None => Err NoRows
  | Some r =>
      if active r && negb (sealed_generation db runID) then
        let r' := if bool_decide (cr_Status r = Queued)
                  then with_status r Cancelled true (Some now)
                  else with_status r (cr_Status r) true (cr_FinishedAt r) in
        Ok (r', cancel_generations runID None now (set_runs <[runID := r']> db))
      else Ok (r, db)
  end.

Definition stale (staleBefore : Z) (r : ConnectorRun) : bool :=
  match cr_Status r with
  | Running => match cr_Heartbeat r with None => true | Some h => h <? staleBefore end
  | Queued => cr_QueuedAt r <? staleBefore
  | _ => false
  end.

Definition failed (r : ConnectorRun) (now : Z) : ConnectorRun :=
  {| cr_ID := cr_ID r; cr_ProjectID := cr_ProjectID r; cr_SyncID := cr_SyncID r;
     cr_ConnectorID := cr_ConnectorID r; cr_Status := Failed; cr_IdempotencyKey := cr_IdempotencyKey r;
     cr_CancelRequested := cr_CancelRequested r; cr_Rows := cr_Rows r; cr_Cursor := cr_Cursor r;
     cr_CursorKey := cr_CursorKey r; cr_Error := "process restarted before the run finished";
     cr_Owner := cr_Owner r; cr_Heartbeat := cr_Heartbeat r; cr_QueuedAt := cr_QueuedAt r;
     cr_StartedAt := cr_StartedAt r; cr_FinishedAt := Some now; cr_LeaseEpoch := cr_LeaseEpoch r |}.

Definition ReconcileConnectorRuns (db : control) (staleBefore now : Z) : nat * control :=
  (length (filter (fun r => stale staleBefore r = true) (snd <$> map_to_list (runs db))),
   set_runs (fmap (fun r => if stale staleBefore r then failed r now else r)) db).

(** ** Configuration *)

Record ConnectorSyncInput := {
  in_SourceTable : string; in_KeyColumn : string; in_CursorColumn : string; in_SyncMode : option string;
  in_ScheduleCron : string; in_Enabled : bool;
}.

Definition updated_sync (cs : ConnectorSync) (i : ConnectorSyncInput) (mode : string) (captureChanged : bool) :
    ConnectorSync :=
  let same := String.eqb (cs_SourceTable cs) (in_SourceTable i) && String.eqb (cs_CursorColumn cs) (in_CursorColumn i) in
  {| cs_ConnectorID := cs_ConnectorID cs; cs_ProjectID := cs_ProjectID cs; cs_SourceTable := in_SourceTable i;
     cs_KeyColumn := in_KeyColumn i; cs_CursorColumn := in_CursorColumn i; cs_SyncMode := mode;
     cs_ScheduleCron := in_ScheduleCron i; cs_Enabled := in_Enabled i;
     cs_Cursor := if same then cs_Cursor cs else "";
     cs_CursorKey := if same && String.eqb (cs_KeyColumn cs) (in_KeyColumn i) then cs_CursorKey cs else "";
     cs_LastRunAt := cs_LastRunAt cs; cs_LastStatus := cs_LastStatus cs; cs_LastError := cs_LastError cs;
     cs_LastRows := cs_LastRows cs; cs_TotalRows := cs_TotalRows cs; cs_LastSuccessAt := cs_LastSuccessAt cs;
     cs_Revision := cs_Revision cs + 1;
     cs_ConfigRevision := cs_ConfigRevision cs + (if captureChanged then 1 else 0) |}.

Definition has_unpublished (db : control) (generation : string) : bool :=
  existsb (fun o => String.eqb (ob_Generation o) generation && negb (ob_Published o)) (snd <$> map_to_list (outbox db)).

(** Live, or sealed with an outbox still to be published. *)
Definition claimable (db : control) (g : SnapshotGeneration) : bool :=
  live_generation (g_State g) || (bool_decide (g_State g = Sealed) && has_unpublished db (g_Generation g)).

Definition capture_live (db : control) (syncID : string) : bool :=
  existsb (fun g => String.eqb (g_SyncID g) syncID && claimable db g) (snd <$> map_to_list (generations db)).

(** The columns of the update the modelled row has; validation of the input and the
    operator policy are [binding_ok]. *)
Definition UpdateConnectorSync (binding_ok : bool) (db : control) (projectID syncID : string)
    (i : ConnectorSyncInput) : result control_error control :=
  match syncs db !! syncID with
  | None => Err NoRows
  | Some cs =>
      if negb (String.eqb (cs_ProjectID cs) projectID) then Err NoRows
      else if bool_decide (cs_ConnectorID cs ∈ archived db) then Err SourceArchived
      else
        let mode := match in_SyncMode i with Some m => trim_space m | None => cs_SyncMode cs end in
        let captureChanged := negb (String.eqb (cs_SourceTable cs) (in_SourceTable i)
                                    && String.eqb (cs_KeyColumn cs) (in_KeyColumn i)
                                    && String.eqb (cs_CursorColumn cs) (in_CursorColumn i)
                                    && String.eqb (cs_SyncMode cs) mode) in
        if captureChanged && capture_live db syncID then Err GenerationActive
        else if negb binding_ok then Err NotApproved
        else Ok (set_syncs <[syncID := updated_sync cs i mode captureChanged]> db)
  end.

Definition with_enabled (cs : ConnectorSync) (enabled : bool) : ConnectorSync :=
  {| cs_ConnectorID := cs_ConnectorID cs; cs_ProjectID := cs_ProjectID cs; cs_SourceTable := cs_SourceTable cs;
     cs_KeyColumn := cs_KeyColumn cs; cs_CursorColumn := cs_CursorColumn cs; cs_SyncMode := cs_SyncMode cs;
     cs_ScheduleCron := cs_ScheduleCron cs; cs_Enabled := enabled; cs_Cursor := cs_Cursor cs;
     cs_CursorKey := cs_CursorKey cs; cs_LastRunAt := cs_LastRunAt cs; cs_LastStatus := cs_LastStatus cs;
     cs_LastError := cs_LastError cs; cs_LastRows := cs_LastRows cs; cs_TotalRows := cs_TotalRows cs;
     cs_LastSuccessAt := cs_LastSuccessAt cs; cs_Revision := cs_Revision cs + 1;
     cs_ConfigRevision := cs_ConfigRevision cs |}.

Definition setConnectorSyncEnabled (db : control) (projectID syncID : string) (enabled : bool)
    (expectedRevision : Z) : result control_error control :=
  match syncs db !! syncID with
  | None => Err NoRows
  | Some cs =>
      if negb (String.eqb (cs_ProjectID cs) projectID) then Err NoRows
      else
        let is_archived := bool_decide (cs_ConnectorID cs ∈ archived db) in
        if (cs_Revision cs =? expectedRevision) && (negb enabled || negb is_archived)
        then Ok (set_syncs <[syncID := with_enabled cs enabled]> db)
        else if enabled && is_archived then Err SourceArchived
        else Err RevisionConflict
  end.

(** ** Histories *)

(** One committed transaction. *)
Inductive control_step (key_fits : string -> bool) : control -> control -> Prop :=
| step_enqueue db p s k id now r new db' :
    EnqueueConnectorRun key_fits db p s k id now = Ok (r, new, db') -> control_step key_fits db db'
| step_claim db id owner now r db' :
    ClaimConnectorRun db id owner now = (r, db') -> control_step key_fits db db'
| step_heartbeat db id now c s db' :
    HeartbeatConnectorRun db id now = (c, s, db') -> control_step key_fits db db'
| step_finish db id s owner result cancelled now db' :
    FinishConnectorRun db id s owner result cancelled now = Ok db' -> control_step key_fits db db'
| step_cancel db p id now r db' :
    CancelConnectorRun db p id now = Ok (r, db') -> control_step key_fits db db'
| step_reconcile db before now n db' :
    ReconcileConnectorRuns db before now = (n, db') -> control_step key_fits db db'
| step_update db ok p s i db' :
    UpdateConnectorSync ok db p s i = Ok db' -> control_step key_fits db db'
| step_enabled db p s e rev db' :
    setConnectorSyncEnabled db p s e rev = Ok db' -> control_step key_fits db db'.

(** A database with its sync rows and no run. *)
Definition no_runs (db : control) : Prop := runs db = ∅ /\ run_keys db = ∅.

(** What the key names, whatever became of the run. *)
Definition names (db : control) (p s k id : string) : Prop :=
  exists r, connectorRunByKey db p s k = Some r /\ cr_ID r = id.

(** ** Lemmas *)

Lemma find_run_Some p db r :
  find_run p db = Some r -> (exists i, runs db !! i = Some r) /\ p r = true.
Proof.
  unfold find_run. intros H. apply head_Some_elem_of in H. apply list_elem_of_filter in H as [Hp H].
  split; [|done]. apply list_elem_of_fmap in H as ([i x] & -> & Hx). exists i. by apply elem_of_map_to_list in Hx.
Qed.

Lemma find_run_None p db :
  find_run p db = None <-> forall i r, runs db !! i = Some r -> p r = false.
Proof.
  unfold find_run. split.
  - intros H%head_None i r Hr. apply not_true_is_false. intros Hp.
    assert (Hin : r ∈ filter (fun r => p r = true) (snd <$> map_to_list (runs db))).
    { apply list_elem_of_filter. split; [done|]. apply list_elem_of_fmap. exists (i, r).
      split; [done|]. by apply elem_of_map_to_list. }
    rewrite H in Hin. by apply not_elem_of_nil in Hin.
  - intros H. destruct (head _) as [r|] eqn:E; [|done]. exfalso.
    destruct (find_run_Some p db r E) as [[i Hi] Hp]. specialize (H i r Hi). congruence.
Qed.

Lemma find_run_unique p db i r :
  (forall j x, runs db !! j = Some x -> p x = true -> j = i) ->
  runs db !! i = Some r -> p r = true -> find_run p db = Some r.
Proof.
  intros Hu Hi Hp. destruct (find_run p db) as [x|] eqn:E.
  - destruct (find_run_Some p db x E) as [[j Hj] Hx]. specialize (Hu j x Hj Hx) as ->. congruence.
  - rewrite find_run_None in E. specialize (E i r Hi). congruence.
Qed.

Record wf (db : control) : Prop := {
  wf_id i r : runs db !! i = Some r -> cr_ID r = i;
  wf_active i j r r' : runs db !! i = Some r -> runs db !! j = Some r' -> active r = true -> active r' = true ->
    cr_SyncID r = cr_SyncID r' -> i = j;
  wf_stamp i j r r' : runs db !! i = Some r -> runs db !! j = Some r' -> cr_SyncID r = cr_SyncID r' ->
    cr_IdempotencyKey r = cr_IdempotencyKey r' -> cr_IdempotencyKey r <> "" -> i = j;
  wf_alias p s k id : run_keys db !! (p, s, k) = Some id -> k <> "" /\
    (exists r, runs db !! id = Some r /\ cr_SyncID r = s /\ cr_ProjectID r = p) /\
    (forall i r, runs db !! i = Some r -> cr_SyncID r = s -> cr_IdempotencyKey r <> k);
  wf_sync i r : runs db !! i = Some r ->
    exists cs, syncs db !! cr_SyncID r = Some cs /\ cs_ProjectID cs = cr_ProjectID r;
  wf_epoch i r : runs db !! i = Some r ->
    cr_LeaseEpoch r <= 1 /\ (cr_Status r = Queued -> cr_LeaseEpoch r = 0);
}.

Lemma stamped_true p s k r :
  stamped p s k r = true <-> cr_SyncID r = s /\ cr_ProjectID r = p /\ cr_IdempotencyKey r = k.
Proof. unfold stamped. rewrite !andb_true_iff, !String.eqb_eq. tauto. Qed.

(** A key resolves to the run stamped with it or bound to it, and to no other. *)
Lemma names_iff db p s k id :
  wf db -> k <> "" ->
  names db p s k id <->
  (exists r, runs db !! id = Some r /\ stamped p s k r = true) \/ run_keys db !! (p, s, k) = Some id.
Proof.
  intros Hw Hk. unfold names, connectorRunByKey.
  assert (Hu : forall i r, runs db !! i = Some r -> stamped p s k r = true ->
    find_run (stamped p s k) db = Some r).
  { intros i r Hi Hs. apply (find_run_unique _ _ i); [|done|done].
    intros j x Hj (Hx1 & Hx2 & Hx3)%stamped_true. apply stamped_true in Hs as (H1 & H2 & H3).
    apply (wf_stamp db Hw j i x r); congruence. }
  split.
  - intros (r & Hr & <-). destruct (find_run (stamped p s k) db) as [x|] eqn:E.
    + injection Hr as ->. destruct (find_run_Some _ _ _ E) as [[i Hi] Hs]. left. exists r.
      by rewrite (wf_id db Hw i r Hi).
    + destruct (run_keys db !! (p, s, k)) as [id|] eqn:Ek; [|done]. simpl in Hr.
      right. by rewrite (wf_id db Hw id r Hr).
  - intros [(r & Hr & Hs)|Hal].
    + exists r. rewrite (Hu id r Hr Hs). split; [done|]. by apply (wf_id db Hw).
    + destruct (wf_alias db Hw p s k id Hal) as (_ & (r & Hr & _ & _) & Hno).
      destruct (find_run (stamped p s k) db) as [x|] eqn:E.
      { destruct (find_run_Some _ _ _ E) as [[i Hi] Hs]. apply stamped_true in Hs as (H1 & _ & H3).
        by destruct (Hno i x Hi H1). }
      exists r. rewrite Hal. simpl. split; [done|]. by apply (wf_id db Hw).
Qed.

(** How a run may change: its identity stays, a terminal run stays altogether, and
    only a queued run is claimed. *)
Record evolves (r r' : ConnectorRun) : Prop := {
  ev_id : cr_ID r' = cr_ID r; ev_project : cr_ProjectID r' = cr_ProjectID r;
  ev_sync : cr_SyncID r' = cr_SyncID r; ev_key : cr_IdempotencyKey r' = cr_IdempotencyKey r;
  ev_active : active r' = true -> active r = true;
  ev_final : active r = false -> r' = r;
  ev_claimed : cr_Status r <> Queued -> cr_Status r' <> Queued;
  ev_cancel : cr_CancelRequested r = true -> cr_CancelRequested r' = true;
  ev_epoch : cr_LeaseEpoch r <= 1 /\ (cr_Status r = Queued -> cr_LeaseEpoch r = 0) ->
    cr_LeaseEpoch r' <= 1 /\ (cr_Status r' = Queued -> cr_LeaseEpoch r' = 0);
}.

Lemma evolves_refl r : evolves r r.
Proof. by split. Qed.

(** A transaction that creates no run and binds no key. *)
Record evolution (db db' : control) : Prop := {
  evo_runs i : option_Forall2 evolves (runs db !! i) (runs db' !! i);
  evo_keys : run_keys db' = run_keys db;
  evo_syncs s cs : syncs db !! s = Some cs -> exists cs', syncs db' !! s = Some cs' /\ cs_ProjectID cs' = cs_ProjectID cs;
}.

Lemma evolution_back db db' i r' :
  evolution db db' -> runs db' !! i = Some r' -> exists r, runs db !! i = Some r /\ evolves r r'.
Proof. intros He Hi. pose proof (evo_runs db db' He i) as H. rewrite Hi in H. inversion H; eauto. Qed.

Lemma evolution_forth db db' i r :
  evolution db db' -> runs db !! i = Some r -> exists r', runs db' !! i = Some r' /\ evolves r r'.
Proof. intros He Hi. pose proof (evo_runs db db' He i) as H. rewrite Hi in H. inversion H; eauto. Qed.

Lemma evolution_wf db db' : evolution db db' -> wf db -> wf db'.
Proof.
  intros He Hw. split.
  - intros i r' Hr'. destruct (evolution_back _ _ _ _ He Hr') as (r & Hr & E). rewrite (ev_id _ _ E). by apply (wf_id db Hw).
  - intros i j r' x' Hi Hj Ha Hb Hs.
    destruct (evolution_back _ _ _ _ He Hi) as (r & Hr & E). destruct (evolution_back _ _ _ _ He Hj) as (x & Hx & F).
    apply (wf_active db Hw i j r x); [done|done|by apply (ev_active _ _ E)|by apply (ev_active _ _ F)|].
    rewrite <- (ev_sync _ _ E), <- (ev_sync _ _ F). done.
  - intros i j r' x' Hi Hj Hs Hk Hne.
    destruct (evolution_back _ _ _ _ He Hi) as (r & Hr & E). destruct (evolution_back _ _ _ _ He Hj) as (x & Hx & F).
    rewrite (ev_sync _ _ E), (ev_sync _ _ F) in Hs. rewrite (ev_key _ _ E) in Hk, Hne. rewrite (ev_key _ _ F) in Hk.
    by apply (wf_stamp db Hw i j r x).
  - intros p s k id Hal. rewrite (evo_keys _ _ He) in Hal. destruct (wf_alias db Hw p s k id Hal) as (Hk & (r & Hr & Hs & Hp) & Hno).
    destruct (evolution_forth _ _ _ _ He Hr) as (r' & Hr' & E). split_and!; [done| |].
    + exists r'. rewrite (ev_sync _ _ E), (ev_project _ _ E). done.
    + intros i x' Hx' Hsx. destruct (evolution_back _ _ _ _ He Hx') as (x & Hx & F).
      rewrite (ev_key _ _ F). apply (Hno i x Hx). by rewrite <- (ev_sync _ _ F).
  - intros i r' Hr'. destruct (evolution_back _ _ _ _ He Hr') as (r & Hr & E).
    rewrite (ev_sync _ _ E), (ev_project _ _ E). destruct (wf_sync db Hw i r Hr) as (cs & Hcs & <-).
    by apply (evo_syncs _ _ He).
  - intros i r' Hr'. destruct (evolution_back _ _ _ _ He Hr') as (r & Hr & E).
    apply (ev_epoch _ _ E). by apply (wf_epoch db Hw i).
Qed.

Lemma evolves_active r r' :
  active r = true -> cr_ID r' = cr_ID r -> cr_ProjectID r' = cr_ProjectID r -> cr_SyncID r' = cr_SyncID r ->
  cr_IdempotencyKey r' = cr_IdempotencyKey r ->
  (cr_LeaseEpoch r <= 1 /\ (cr_Status r = Queued -> cr_LeaseEpoch r = 0) ->
   cr_LeaseEpoch r' <= 1 /\ (cr_Status r' = Queued -> cr_LeaseEpoch r' = 0)) ->
  (cr_Status r <> Queued -> cr_Status r' <> Queued) ->
  (cr_CancelRequested r = true -> cr_CancelRequested r' = true) -> evolves r r'.
Proof. intros Ha ? ? ? ? ? ? ?. split; try done. congruence. Qed.

Lemma runs_insert_evolve (m : gmap string ConnectorRun) id r r' i :
  m !! id = Some r -> evolves r r' -> option_Forall2 evolves (m !! i) (<[id := r']> m !! i).
Proof.
  intros Hr E. destruct (decide (i = id)) as [->|Hne].
  - rewrite Hr, lookup_insert_eq. by constructor.
  - rewrite lookup_insert_ne by done. destruct (m !! i); constructor. apply evolves_refl.
Qed.

Lemma runs_same_evolve (m : gmap string ConnectorRun) i : option_Forall2 evolves (m !! i) (m !! i).
Proof. destruct (m !! i); constructor. apply evolves_refl. Qed.

(** The sync rows are as they were. *)
Ltac same_syncs := intros ? ? ?; eexists; split; [eassumption|reflexivity].

Lemma syncs_insert (m : gmap string ConnectorSync) k old new s cs :
  m !! k = Some old -> cs_ProjectID new = cs_ProjectID old -> m !! s = Some cs ->
  exists cs', <[k := new]> m !! s = Some cs' /\ cs_ProjectID cs' = cs_ProjectID cs.
Proof.
  intros Hk Hp Hs. destruct (decide (s = k)) as [->|Hne].
  - rewrite lookup_insert_eq. exists new. split; [done|]. congruence.
  - rewrite lookup_insert_ne by done. eauto.
Qed.

Lemma status_active r s : cr_Status r = s -> active r = match s with Queued | Running => true | _ => false end.
Proof. intros <-. done. Qed.

Lemma insert_evolution db id r r' :
  runs db !! id = Some r -> evolves r r' -> evolution db (set_runs <[id := r']> db).
Proof. intros Hr E. split; [intros i; by apply (runs_insert_evolve _ _ r)|done|same_syncs]. Qed.

Lemma refl_evolution db : evolution db db.
Proof. split; [intros i; apply runs_same_evolve|done|same_syncs]. Qed.

Lemma claim_evolution db id owner now r db' :
  ClaimConnectorRun db id owner now = (r, db') -> evolution db db'.
Proof.
  unfold ClaimConnectorRun. destruct (runs db !! id) as [x|] eqn:Hx; [|intros [= _ <-]; apply refl_evolution].
  case_bool_decide as Hq; [|intros [= _ <-]; apply refl_evolution].
  assert (Ha : active x = true) by (by rewrite (status_active x Queued)).
  destruct (cr_CancelRequested x); intros [= _ <-]; apply (insert_evolution _ _ x _ Hx), evolves_active; try done; simpl.
  - intros [? H]. rewrite (H Hq). split; [lia|done].
  - intros [? H]. rewrite (H Hq). split; [lia|done].
Qed.

Lemma heartbeat_evolution db id now c s db' :
  HeartbeatConnectorRun db id now = (c, s, db') -> evolution db db'.
Proof.
  unfold HeartbeatConnectorRun. destruct (runs db !! id) as [x|] eqn:Hx; [|intros [= _ _ <-]; apply refl_evolution].
  case_bool_decide as Hq; [|intros [= _ _ <-]; apply refl_evolution].
  intros [= _ _ <-]. apply (insert_evolution _ _ x _ Hx), evolves_active; try done. by rewrite (status_active x Running).
Qed.

Lemma finish_evolution db id s owner res cancelled now db' :
  FinishConnectorRun db id s owner res cancelled now = Ok db' -> evolution db db'.
Proof.
  unfold FinishConnectorRun. destruct (runs db !! id) as [x|] eqn:Hx; [|done].
  case_bool_decide as Hq; [|done]. destruct (String.eqb (cr_Owner x) owner); [|done]. cbv zeta.
  set (final := if cr_CancelRequested x then Cancelled else finish_status res cancelled).
  assert (Hfin : final <> Queued).
  { unfold final, finish_status. by repeat case_match. }
  intros [= <-]. split.
  - intros i. assert (E : evolves x (finished x final res (error_text res cancelled) now)).
    { apply evolves_active; try done; [by rewrite (status_active x Running)|]. simpl. intros [? _]. by split. }
    destruct (cr_CancelRequested x); by apply (runs_insert_evolve _ _ x).
  - by destruct (cr_CancelRequested x).
  - intros k cs Hk. assert (Hgoal : exists cs', alter (fun cs => finished_sync cs final res (error_text res cancelled) now) s (syncs db) !! k = Some cs'
      /\ cs_ProjectID cs' = cs_ProjectID cs).
    { destruct (decide (k = s)) as [->|Hne].
      - rewrite lookup_alter_eq, Hk. simpl. eauto.
      - rewrite lookup_alter_ne by done. eauto. }
    by destruct (cr_CancelRequested x).
Qed.

Lemma cancel_evolution db p id now r db' :
  CancelConnectorRun db p id now = Ok (r, db') -> evolution db db'.
Proof.
  unfold CancelConnectorRun, ConnectorRunForProject. destruct (runs db !! id) as [x|] eqn:Hx; [|done].
  destruct (String.eqb (cr_ProjectID x) p); [|done].
  destruct (active x && negb (sealed_generation db id)) eqn:Ha; [|intros [= _ <-]; apply refl_evolution].
  apply andb_true_iff in Ha as [Ha _]. intros [= _ <-].
  split; [|done|same_syncs]. intros i. apply (runs_insert_evolve _ _ x); [done|].
  case_bool_decide; apply evolves_active; try done; simpl; by intros [? _].
Qed.

Lemma reconcile_evolution db before now n db' :
  ReconcileConnectorRuns db before now = (n, db') -> evolution db db'.
Proof.
  intros [= _ <-]. split; [|done|same_syncs]. intros i. simpl. rewrite lookup_fmap.
  destruct (runs db !! i) as [x|]; simpl; constructor. destruct (stale before x) eqn:Hs; [|apply evolves_refl].
  apply evolves_active; try done; [|by intros [? _]]. unfold stale in Hs. unfold active. by destruct (cr_Status x).
Qed.

Lemma update_evolution ok db p s i db' :
  UpdateConnectorSync ok db p s i = Ok db' -> evolution db db'.
Proof.
  unfold UpdateConnectorSync. destruct (syncs db !! s) as [cs|] eqn:Hs; [|done].
  destruct (negb (String.eqb _ p)); [done|]. case_bool_decide; [done|]. cbv zeta.
  destruct (_ && capture_live db s); [done|]. destruct (negb ok); [done|]. intros [= <-].
  split; [intros j; apply runs_same_evolve|done|]. intros k x Hk. by eapply syncs_insert.
Qed.

Lemma enabled_evolution db p s e rev db' :
  setConnectorSyncEnabled db p s e rev = Ok db' -> evolution db db'.
Proof.
  unfold setConnectorSyncEnabled. destruct (syncs db !! s) as [cs|] eqn:Hs; [|done].
  destruct (negb (String.eqb _ p)); [done|]. cbv zeta. destruct (_ && _); [|by destruct (e && _)].
  intros [= <-]. split; [intros j; apply runs_same_evolve|done|]. intros k x Hk. by eapply syncs_insert.
Qed.

(** What one transaction keeps. *)
Record keeps (db db' : control) : Prop := {
  kp_wf : wf db';
  kp_final i r : runs db !! i = Some r -> active r = false -> runs db' !! i = Some r;
  kp_names p s k id : k <> "" -> names db p s k id -> names db' p s k id;
}.

Lemma keeps_refl db : wf db -> keeps db db.
Proof. by split. Qed.

Lemma keeps_trans db1 db2 db3 : keeps db1 db2 -> keeps db2 db3 -> keeps db1 db3.
Proof.
  intros [w1 f1 n1] [w2 f2 n2]. split; [done| |].
  - intros i r Hr Ha. by apply f2; [apply f1|].
  - intros p s k id Hk Hn. by apply n2; [|apply n1].
Qed.

Lemma evolution_keeps db db' : wf db -> evolution db db' -> keeps db db'.
Proof.
  intros Hw He. pose proof (evolution_wf _ _ He Hw) as Hw'. split; [done| |].
  - intros i r Hr Ha. destruct (evolution_forth _ _ _ _ He Hr) as (r' & Hr' & E). by rewrite <- (ev_final _ _ E Ha).
  - intros p s k id Hk. rewrite !names_iff by done. intros [(r & Hr & Hs)|Hal].
    + destruct (evolution_forth _ _ _ _ He Hr) as (r' & Hr' & E). left. exists r'. split; [done|].
      apply stamped_true in Hs as (? & ? & ?). apply stamped_true.
      by rewrite (ev_sync _ _ E), (ev_project _ _ E), (ev_key _ _ E).
    + right. by rewrite (evo_keys _ _ He).
Qed.

(** A key that resolves to nothing is on no run of the sync and in no alias. *)
Lemma unresolved db p s k cs :
  wf db -> syncs db !! s = Some cs -> cs_ProjectID cs = p -> connectorRunByKey db p s k = None ->
  run_keys db !! (p, s, k) = None /\ forall i r, runs db !! i = Some r -> cr_SyncID r = s -> cr_IdempotencyKey r <> k.
Proof.
  intros Hw Hcs Hp Hn. unfold connectorRunByKey in Hn. destruct (find_run (stamped p s k) db) eqn:E; [done|].
  rewrite find_run_None in E. split.
  - destruct (run_keys db !! (p, s, k)) as [id|] eqn:Ek; [|done].
    destruct (wf_alias db Hw p s k id Ek) as (_ & (r & Hr & _ & _) & _). simpl in Hn. congruence.
  - intros i r Hi Hs Hk. specialize (E i r Hi). destruct (wf_sync db Hw i r Hi) as (cs' & Hcs' & Hp').
    assert (stamped p s k r = true); [|congruence]. apply stamped_true. rewrite Hs in Hcs'. split_and!; congruence.
Qed.

Lemma bind_keeps db p s k live i cs :
  wf db -> k <> "" -> syncs db !! s = Some cs -> cs_ProjectID cs = p -> connectorRunByKey db p s k = None ->
  runs db !! i = Some live -> cr_SyncID live = s -> cr_ProjectID live = p ->
  keeps db (bind_key p s k (cr_ID live) db).
Proof.
  intros Hw Hk Hcs Hp Hn Hi Hs Hpl. destruct (unresolved db p s k cs Hw Hcs Hp Hn) as [Hkey Hno].
  assert (Hb : bind_key p s k (cr_ID live) db = set_keys <[(p, s, k) := cr_ID live]> db).
  { unfold bind_key, set_keys. by rewrite Hkey. }
  rewrite Hb. rewrite (wf_id db Hw i live Hi).
  assert (Hw' : wf (set_keys <[(p, s, k) := i]> db)).
  { destruct Hw as [w1 w2 w3 w4 w5 w6]. split; try done. intros p' s' k' id. simpl.
    destruct (decide ((p', s', k') = (p, s, k))) as [[= -> -> ->]|Hne].
    - rewrite lookup_insert_eq. intros [= <-]. split_and!; [done|by exists live|done].
    - rewrite lookup_insert_ne by done. apply w4. }
  split; [done|done|]. intros p' s' k' id Hk'. rewrite !names_iff by done. intros [H|Hal]; [by left|right].
  simpl. destruct (decide ((p', s', k') = (p, s, k))) as [[= -> -> ->]|Hne]; [congruence|].
  by rewrite lookup_insert_ne.
Qed.

Lemma insert_keeps db p s k id cs now :
  wf db -> syncs db !! s = Some cs -> cs_ProjectID cs = p ->
  (k <> "" -> connectorRunByKey db p s k = None) ->
  violates (queued_run id p s (cs_ConnectorID cs) k now) db = false ->
  keeps db (set_runs <[id := queued_run id p s (cs_ConnectorID cs) k now]> db).
Proof.
  intros Hw Hcs Hp Hn Hv. set (new := queued_run id p s (cs_ConnectorID cs) k now) in *.
  unfold violates in Hv. apply orb_false_iff in Hv as [Hv _]. apply orb_false_iff in Hv as [Hfresh Hact].
  assert (Hid : runs db !! id = None) by (by destruct (runs db !! id) eqn:E; [cbn in Hfresh; rewrite E in Hfresh|]).
  assert (Hidle : forall i r, runs db !! i = Some r -> cr_SyncID r = s -> active r = false).
  { destruct (find_run _ db) eqn:E; [done|]. rewrite find_run_None in E. intros i r Hi Hs.
    specialize (E i r Hi). simpl in E. by rewrite Hs, String.eqb_refl in E. }
  assert (Hkey : k <> "" -> run_keys db !! (p, s, k) = None /\
    forall i r, runs db !! i = Some r -> cr_SyncID r = s -> cr_IdempotencyKey r <> k).
  { intros Hk. eapply unresolved; eauto. }
  assert (Hlook : forall i r, <[id := new]> (runs db) !! i = Some r -> (i = id /\ r = new) \/ (i <> id /\ runs db !! i = Some r)).
  { intros i r. destruct (decide (i = id)) as [->|Hne]; [rewrite lookup_insert_eq; intros [= <-]; by left|].
    rewrite lookup_insert_ne by done. by right. }
  assert (Hold : forall i r, runs db !! i = Some r -> <[id := new]> (runs db) !! i = Some r).
  { intros i r Hi. rewrite lookup_insert_ne; [done|]. intros ->. congruence. }
  assert (Hw' : wf (set_runs <[id := new]> db)).
  { destruct Hw as [w1 w2 w3 w4 w5 w6]. split.
    - intros i r [[-> ->]|[_ Hi]]%Hlook; [done|by apply w1].
    - intros i j r r' [[-> ->]|[_ Hi]]%Hlook [[-> ->]|[_ Hj]]%Hlook Ha Hb Hs; [done| | |by apply (w2 i j r r')].
      + specialize (Hidle j r' Hj ltac:(by rewrite <- Hs)). congruence.
      + specialize (Hidle i r Hi ltac:(by rewrite Hs)). congruence.
    - intros i j r r' [[-> ->]|[_ Hi]]%Hlook [[-> ->]|[_ Hj]]%Hlook Hs Hk Hne; [done| | |by apply (w3 i j r r')].
      + by destruct (proj2 (Hkey Hne) j r' Hj ltac:(by rewrite <- Hs)).
      + destruct (proj2 (Hkey ltac:(intros E; apply Hne; rewrite Hk; exact E)) i r Hi ltac:(by rewrite Hs)). done.
    - intros p' s' k' id' Hal. destruct (w4 p' s' k' id' Hal) as (Hk' & (r & Hr & Hs & Hpr) & Hno).
      split_and!; [done|exists r; split; [by apply Hold|done]|]. intros i x [[-> ->]|[_ Hi]]%Hlook Hsx; [|by eapply Hno].
      simpl in *. intros ->. destruct (w5 id' r Hr) as (cs' & Hcs' & Hp').
      assert (p' = p) by (rewrite Hs, <- Hsx in Hcs'; congruence). subst p' s'.
      destruct (Hkey Hk') as [Hno' _]. cbn in Hal. congruence.
    - intros i r [[-> ->]|[_ Hi]]%Hlook; [exists cs; by split|by apply (w5 i r)].
    - intros i r [[-> ->]|[_ Hi]]%Hlook; [split; [simpl; lia|done]|by apply (w6 i r)]. }
  split; [done|intros i r Hi _; by apply Hold|].
  intros p' s' k' id' Hk'. rewrite !names_iff by done. intros [(r & Hr & Hs)|Hal]; [left|by right].
  exists r. split; [by apply Hold|done].
Qed.

Lemma key_lookup (k : string) (o : option ConnectorRun) :
  (if String.eqb k "" then None else o) = None -> k <> "" -> o = None.
Proof. destruct (String.eqb k "") eqn:E; bool_props; done. Qed.

Lemma enqueue_keeps key_fits db p s k id now r new db' :
  wf db -> EnqueueConnectorRun key_fits db p s k id now = Ok (r, new, db') -> keeps db db'.
Proof.
  intros Hw. unfold EnqueueConnectorRun. destruct (syncs db !! s) as [cs|] eqn:Hcs; [|done].
  destruct (String.eqb (cs_ProjectID cs) p) eqn:Hp; [|done]. bool_props. cbn [negb].
  destruct (if String.eqb k "" then None else _) as [x|] eqn:Hkey; [intros [= _ _ <-]; by apply keeps_refl|].
  destruct (find_run (active_of p s) db) as [live|] eqn:Hlive.
  - destruct (String.eqb k "") eqn:Hk; [intros [= _ _ <-]; by apply keeps_refl|]. bool_props.
    destruct (key_fits k); [|done]. intros [= _ _ <-].
    destruct (find_run_Some _ _ _ Hlive) as [[i Hi] Ha]. unfold active_of in Ha. bool_props.
    eapply bind_keeps; eauto.
  - case_bool_decide; [done|]. destruct (cs_Enabled cs); [|done]. cbn [negb]. cbv zeta.
    destruct (negb (key_fits k) || violates _ db) eqn:Hv; [done|]. apply orb_false_iff in Hv as [_ Hv].
    intros [= _ _ <-]. apply (insert_keeps db p s k id cs now); try done. by apply key_lookup.
Qed.

Lemma step_keeps key_fits db db' : wf db -> control_step key_fits db db' -> keeps db db'.
Proof.
  intros Hw Hs. revert Hw. destruct Hs; intros Hw; [by eapply enqueue_keeps|apply evolution_keeps; [done|]..].
  - by eapply claim_evolution.
  - by eapply heartbeat_evolution.
  - by eapply finish_evolution.
  - by eapply cancel_evolution.
  - by eapply reconcile_evolution.
  - by eapply update_evolution.
  - by eapply enabled_evolution.
Qed.

Lemma steps_keep key_fits db db' : wf db -> rtc (control_step key_fits) db db' -> keeps db db'.
Proof.
  intros Hw H. revert Hw. induction H as [db|db1 db2 db3 Hs _ IH]; intros Hw; [by apply keeps_refl|].
  pose proof (step_keeps _ _ _ Hw Hs) as K. eapply keeps_trans; [exact K|]. apply IH. by apply (kp_wf _ _ K).
Qed.

Lemma no_runs_wf db : no_runs db -> wf db.
Proof. intros [Hr Hk]. split; intros *; rewrite ?Hr, ?Hk, ?lookup_empty; done. Qed.

(** ** Properties *)

(** The durable contract of runs, over every history of enqueues, claims, heartbeats,
    finishes, cancels, reconciliations and configuration changes.  A sync has at
    most one run that is queued or running, and a run is claimed at most once.  An
    idempotency key that names a run names the same run for ever, and enqueueing
    with it again returns that run and starts nothing.  A terminal run never
    changes. *)
Theorem run_contract key_fits db0 db :
  no_runs db0 -> rtc (control_step key_fits) db0 db ->
  (forall i j r r', runs db !! i = Some r -> runs db !! j = Some r' -> active r = true -> active r' = true ->
     cr_SyncID r = cr_SyncID r' -> i = j) /\
  (forall i r, runs db !! i = Some r -> cr_LeaseEpoch r <= 1) /\
  (forall db' p s k id, rtc (control_step key_fits) db db' -> k <> "" -> names db p s k id ->
     names db' p s k id /\
     (forall cs newID now, syncs db' !! s = Some cs -> cs_ProjectID cs = p ->
        exists r, EnqueueConnectorRun key_fits db' p s k newID now = Ok (r, false, db') /\ cr_ID r = id)) /\
  (forall db' i r, rtc (control_step key_fits) db db' -> runs db !! i = Some r -> active r = false ->
     runs db' !! i = Some r).
Proof.
  intros H0 Hrun. assert (Hw : wf db) by (apply (kp_wf db0 db), (steps_keep key_fits); [by apply no_runs_wf|done]).
  split_and!.
  - apply (wf_active db Hw).
  - intros i r Hr. apply (wf_epoch db Hw i r Hr).
  - intros db' p s k id Hlater Hk Hn. pose proof (steps_keep _ _ _ Hw Hlater) as K.
    pose proof (kp_names _ _ K p s k id Hk Hn) as Hn'. split; [done|].
    intros cs newID now Hcs Hp. destruct Hn' as (r & Hr & Hid). exists r. split; [|done].
    unfold EnqueueConnectorRun. rewrite Hcs, Hp, String.eqb_refl. cbn [negb].
    by rewrite (proj2 (String.eqb_neq k "") Hk), Hr.
  - intros db' i r Hlater. apply (kp_final _ _ (steps_keep _ _ _ Hw Hlater)).
Qed.

(** A configuration change clears the cursor, and the run that was pulling under the
    old configuration puts its cursor back: nothing in the finish compares the
    configuration the position belongs to.  The sync then resumes the new cursor
    column from a value of the old one. *)
Theorem finish_after_edit_keeps_old_cursor db p s cs i db1 runID owner res cancelled now db2 :
  syncs db !! s = Some cs ->
  in_CursorColumn i <> cs_CursorColumn cs ->
  UpdateConnectorSync true db p s i = Ok db1 ->
  FinishConnectorRun db1 runID s owner res cancelled now = Ok db2 ->
  rs_AdvanceCursor res = true ->
  (exists cs1, syncs db1 !! s = Some cs1 /\ cs_CursorColumn cs1 = in_CursorColumn i /\
     cs_Cursor cs1 = "" /\ cs_CursorKey cs1 = "") /\
  exists cs2, syncs db2 !! s = Some cs2 /\ cs_CursorColumn cs2 = in_CursorColumn i /\
     cs_Cursor cs2 = rs_Cursor res /\ cs_CursorKey cs2 = rs_CursorKey res.
Proof.
  intros Hcs Hcol Hup Hfin Hadv. unfold UpdateConnectorSync in Hup. rewrite Hcs in Hup.
  destruct (negb (String.eqb _ p)); [done|]. case_bool_decide; [done|]. cbv zeta in Hup.
  destruct (_ && capture_live db s); [done|]. cbn [negb] in Hup. injection Hup as <-.
  set (mode := match in_SyncMode i with Some m => trim_space m | None => cs_SyncMode cs end) in *.
  set (changed := negb _) in *. set (cs1 := updated_sync cs i mode changed) in *.
  assert (Hsame : String.eqb (cs_CursorColumn cs) (in_CursorColumn i) = false)
    by (apply String.eqb_neq; congruence).
  assert (H1 : syncs (set_syncs <[s:=cs1]> db) !! s = Some cs1) by apply lookup_insert_eq.
  split.
  - exists cs1. split; [done|]. unfold cs1, updated_sync. cbn [cs_CursorColumn cs_Cursor cs_CursorKey].
    by rewrite Hsame, andb_false_r.
  - unfold FinishConnectorRun in Hfin. destruct (runs _ !! runID) as [r|]; [|done].
    destruct (bool_decide (cr_Status r = Running) && String.eqb (cr_Owner r) owner); [|done].
    cbn [negb] in Hfin. cbv zeta in Hfin. injection Hfin as <-.
    exists (finished_sync cs1 (if cr_CancelRequested r then Cancelled else finish_status res cancelled) res
      (error_text res cancelled) now). split.
    + destruct (cr_CancelRequested r); cbn [syncs set_syncs set_runs set_generations cancel_generations cancel_where];
        rewrite lookup_alter_eq, lookup_insert_eq; reflexivity.
    + cbn [finished_sync cs_CursorColumn cs_Cursor cs_CursorKey]. by rewrite Hadv.
Qed.

(** ** Witnesses *)

Definition w_sync : ConnectorSync :=
  {| cs_ConnectorID := "c"; cs_ProjectID := "p"; cs_SourceTable := "orders"; cs_KeyColumn := "id";
     cs_CursorColumn := "updated_at"; cs_SyncMode := "incremental"; cs_ScheduleCron := ""; cs_Enabled := true;
     cs_Cursor := ""; cs_CursorKey := ""; cs_LastRunAt := None; cs_LastStatus := ""; cs_LastError := "";
     cs_LastRows := 0; cs_TotalRows := 0; cs_LastSuccessAt := None; cs_Revision := 1; cs_ConfigRevision := 1 |}.

Definition w_control : control :=
  {| syncs := {["s" := w_sync]}; archived := ∅; source_revisions := {["c" := 1]}; runs := ∅; run_keys := ∅; generations := ∅;
     sequences := ∅; outbox := ∅; cleanup_receipts := ∅ |}.

Definition w_fits (k : string) : bool := Nat.leb (String.length k) 128.

Definition w_enqueued : control :=
  match EnqueueConnectorRun w_fits w_control "p" "s" "k" "r1" 5 with Ok (_, _, db) => db | Err _ => w_control end.

Definition w_running : control := snd (ClaimConnectorRun w_enqueued "r1" "me" 6).

Lemma run_contract_witness :
  rtc (control_step w_fits) w_control w_running /\
  exists r, EnqueueConnectorRun w_fits w_running "p" "s" "k" "r2" 9 = Ok (r, false, w_running) /\ cr_ID r = "r1".
Proof.
  assert (Hsteps : rtc (control_step w_fits) w_control w_running).
  { eapply rtc_l; [eapply (step_enqueue w_fits w_control "p" "s" "k" "r1" 5 _ true w_enqueued); vm_compute; reflexivity|].
    apply rtc_once. eapply (step_claim w_fits w_enqueued "r1" "me" 6 (fst (ClaimConnectorRun w_enqueued "r1" "me" 6))).
    vm_compute. reflexivity. }
  split; [exact Hsteps|].
  destruct (run_contract w_fits w_control w_running ltac:(split; reflexivity) Hsteps) as (_ & _ & Hkey & _).
  destruct (Hkey w_running "p" "s" "k" "r1" ltac:(apply rtc_refl) ltac:(discriminate)) as [_ Hen].
  { eexists. split; vm_compute; reflexivity. }
  apply (Hen w_sync); reflexivity.
Defined.

Definition w_edit : ConnectorSyncInput :=
  {| in_SourceTable := "orders"; in_KeyColumn := "id"; in_CursorColumn := "created_at"; in_SyncMode := None;
     in_ScheduleCron := ""; in_Enabled := true |}.

Definition w_result : SyncResult :=
  {| rs_Cursor := "2026-03-01"; rs_CursorKey := "77"; rs_AdvanceCursor := true; rs_Rows := 3; rs_Err := "" |}.

Definition w_edited : control :=
  match UpdateConnectorSync true w_running "p" "s" w_edit with Ok db => db | Err _ => w_running end.

Lemma finish_after_edit_keeps_old_cursor_witness :
  exists db2, FinishConnectorRun w_edited "r1" "s" "me" w_result false 9 = Ok db2 /\
    exists cs2, syncs db2 !! "s" = Some cs2 /\ cs_CursorColumn cs2 = "created_at" /\ cs_Cursor cs2 = "2026-03-01".
Proof.
  eexists. split; [vm_compute; reflexivity|].
  edestruct (finish_after_edit_keeps_old_cursor w_running "p" "s" w_sync w_edit w_edited "r1" "me" w_result false 9)
    as (_ & cs2 & H1 & H2 & H3 & _); [vm_compute; reflexivity|discriminate|vm_compute; reflexivity|
    vm_compute; reflexivity|reflexivity|].
  exists cs2. split_and!; [exact H1|exact H2|exact H3].
Defined.
