(* ===== verification/SourcePolicy.v ===== *)
(** * SourcePolicy: [internal/dataplane/connector/source_policy.go]

    The operator's allow-list of network destinations and relation bindings, with
    the admission of a PostgreSQL configuration ([admitPostgresConfig] of
    postgres.go) and the governed entry points of connector.go.  IP addresses,
    CIDR parsing and name resolution are the class [NetEnv]. *)

From S2P Require Import Prelude GoStrings.
From Stdlib Require Import Ascii.
Import String.
Open Scope string_scope.
Open Scope list_scope.
Open Scope Z_scope.

Definition SourcePolicyVersion : Z := 1.
Definition RelationKindView : string := "view".
Definition RelationKindLegacyTable : string := "legacy_table".
Definition KeyStabilityImmutableUnique : string := "immutable_unique_non_null".

Record SourceDestination := { d_Host : string; d_Port : Z; d_AllowedIPCIDRs : list string }.

Record SourcePolicyColumn := { pc_Name : string; pc_PGType : string }.

Record SourceBinding := {
  sb_ProjectID : string; sb_ConnectorID : string; sb_Schema : string; sb_Relation : string;
  sb_RelationKind : string; sb_Columns : list SourcePolicyColumn; sb_KeyColumn : string;
  sb_KeyStability : string; sb_AllowedCursorColumns : list string; sb_LegacySyncIDs : list string;
}.

Record SourcePolicy := {
  sp_Version : Z; sp_Destinations : list SourceDestination; sp_Bindings : list SourceBinding;
}.

(** A network: addresses, resolution of a name, parsing of a range. *)
Class NetEnv := {
  IP : Type;
  parse_cidr : string -> option (IP -> bool);
  special_ip : IP -> bool;
  lookup_ip : string -> option (list IP);
}.

Inductive policy_error :=
| BadVersion | BadHost (i : Z) | NoRanges | BadCIDR | DuplicateDestination | EmptyIdentity (i : Z)
| BadKind (i : Z) | NoKeyAttestation (i : Z) | NoColumns (i : Z) | IncompleteColumn (i : Z)
| UnsupportedType (i : Z) | RepeatedColumn (i : Z) | KeyNotListed (i : Z) | CursorNotListed (i : Z)
| DuplicateBinding | SourcePolicyDenied | RelationRequired.

(** ** Validation *)

Definition allowedSourcePGType (raw : string) : bool :=
  let t := to_lower (trim_space raw) in
  existsb (has_prefix t) ["character varying("; "character("; "numeric("; "decimal("; "timestamp("; "time("]
  || existsb (String.eqb t)
       ["smallint"; "integer"; "bigint"; "real"; "double precision"; "numeric"; "decimal"; "boolean"; "text";
        "character varying"; "character"; "uuid"; "date"; "timestamp without time zone";
        "timestamp with time zone"; "time without time zone"; "time with time zone"; "json"; "jsonb"; "bytea"].

Definition blank (s : string) : bool := String.eqb (trim_space s) "".

Section Validate.
Context `{NetEnv}.

Definition normalized (d : SourceDestination) : SourceDestination :=
  {| d_Host := trim_space (to_lower (d_Host d)); d_Port := d_Port d; d_AllowedIPCIDRs := d_AllowedIPCIDRs d |}.

(** The destinations with their hosts normalised; [JoinHostPort] is injective, so a
    pair stands for its text. *)
Fixpoint validate_destinations (i : Z) (seen : gset (string * Z)) (ds : list SourceDestination) :
    result policy_error (list SourceDestination) :=
  match ds with
  | [] => Ok []
  | d :: rest =>
      let d := normalized d in
      if String.eqb (d_Host d) "" || (d_Port d =? 0) || has_prefix (d_Host d) "/" then Err (BadHost i)
      else match d_AllowedIPCIDRs d with
           | [] => Err NoRanges
           | _ =>
               if existsb (fun raw => negb (is_some (parse_cidr raw))) (d_AllowedIPCIDRs d) then Err BadCIDR
               else if bool_decide ((d_Host d, d_Port d) ∈ seen) then Err DuplicateDestination
               else match validate_destinations (i + 1) ({[(d_Host d, d_Port d)]} ∪ seen) rest with
                    | Ok out => Ok (d :: out)
                    | Err e => Err e
                    end
           end
  end.

Fixpoint validate_columns (i : Z) (cols : gset string) (cs : list SourcePolicyColumn) :
    result policy_error (gset string) :=
  match cs with
  | [] => Ok cols
  | c :: rest =>
      if blank (pc_Name c) || blank (pc_PGType c) then Err (IncompleteColumn i)
      else if negb (allowedSourcePGType (pc_PGType c)) then Err (UnsupportedType i)
      else if bool_decide (pc_Name c ∈ cols) then Err (RepeatedColumn i)
      else validate_columns i ({[pc_Name c]} ∪ cols) rest
  end.

Definition nul : string := String "000"%char "".

Definition binding_key (b : SourceBinding) : string :=
  sb_ProjectID b +:+ nul +:+ sb_ConnectorID b +:+ nul +:+ sb_Schema b +:+ nul +:+ sb_Relation b.

Definition validate_binding (i : Z) (b : SourceBinding) : option policy_error :=
  if blank (sb_ProjectID b) || blank (sb_ConnectorID b) || blank (sb_Schema b) || blank (sb_Relation b)
  then Some (EmptyIdentity i)
  else if negb (String.eqb (sb_RelationKind b) RelationKindView)
          && negb (String.eqb (sb_RelationKind b) RelationKindLegacyTable)
  then Some (BadKind i)
  else if negb (String.eqb (sb_KeyStability b) KeyStabilityImmutableUnique) then Some (NoKeyAttestation i)
  else if match sb_Columns b with [] => true | _ => false end || blank (sb_KeyColumn b) then Some (NoColumns i)
  else match validate_columns i ∅ (sb_Columns b) with
       | Err e => Some e
       | Ok cols =>
           if negb (bool_decide (sb_KeyColumn b ∈ cols)) then Some (KeyNotListed i)
           else if existsb (fun c => negb (bool_decide (c ∈ cols))) (sb_AllowedCursorColumns b)
           then Some (CursorNotListed i)
           else None
       end.

Fixpoint validate_bindings (i : Z) (seen : gset string) (bs : list SourceBinding) : option policy_error :=
  match bs with
  | [] => None
  | b :: rest =>
      match validate_binding i b with
      | Some e => Some e
      | None =>
          if bool_decide (binding_key b ∈ seen) then Some DuplicateBinding
          else validate_bindings (i + 1) ({[binding_key b]} ∪ seen) rest
      end
  end.

(** [Validate] writes the normalised destinations back. *)
Definition Validate (p : SourcePolicy) : result policy_error SourcePolicy :=
  if negb (sp_Version p =? SourcePolicyVersion) then Err BadVersion
  else match validate_destinations 0 ∅ (sp_Destinations p) with
       | Err e => Err e
       | Ok ds =>
           match validate_bindings 0 ∅ (sp_Bindings p) with
           | Some e => Err e
           | None => Ok {| sp_Version := sp_Version p; sp_Destinations := ds; sp_Bindings := sp_Bindings p |}
           end
       end.
End Validate.

(** ** Bindings *)

Definition QualifiedRelation (b : SourceBinding) : string := sb_Schema b +:+ "." +:+ sb_Relation b.

Definition MatchesRelation (b : SourceBinding) (name : string) : bool :=
  String.eqb name (QualifiedRelation b)
  || (String.eqb (sb_RelationKind b) RelationKindLegacyTable && String.eqb (sb_Schema b) "public"
      && String.eqb name (sb_Relation b)).

Definition DisplayRelation (b : SourceBinding) : string :=
  if String.eqb (sb_RelationKind b) RelationKindLegacyTable && String.eqb (sb_Schema b) "public"
  then sb_Relation b else QualifiedRelation b.

Definition AllowsColumn (b : SourceBinding) (name : string) : bool :=
  existsb (fun c => String.eqb (pc_Name c) name) (sb_Columns b).

Definition AllowsCursor (b : SourceBinding) (name : string) : bool :=
  existsb (fun c => String.eqb c name) (sb_AllowedCursorColumns b).

Definition AllowsSync (b : SourceBinding) (syncID : string) : bool :=
  String.eqb (sb_RelationKind b) RelationKindView
  || existsb (fun id => String.eqb id syncID) (sb_LegacySyncIDs b).

Definition owned (projectID connectorID : string) (b : SourceBinding) : bool :=
  String.eqb (sb_ProjectID b) projectID && String.eqb (sb_ConnectorID b) connectorID.

(** [None] is a nil policy. *)
Definition BindingsForConnector (p : option SourcePolicy) (projectID connectorID : string) :
    result policy_error (list SourceBinding) :=
  match p with
  | None => Err SourcePolicyDenied
  | Some p =>
      match filter (fun b => owned projectID connectorID b = true) (sp_Bindings p) with
      | [] => Err SourcePolicyDenied
      | out => Ok out
      end
  end.

Definition Binding (p : option SourcePolicy) (projectID connectorID : string) : result policy_error SourceBinding :=
  match BindingsForConnector p projectID connectorID with
  | Err e => Err e
  | Ok [b] => Ok b
  | Ok _ => Err RelationRequired
  end.

Definition relation_in (bs : list SourceBinding) (relation : string) : result policy_error SourceBinding :=
  match find_first (fun b => MatchesRelation b relation) bs with
  | Some b => Ok b
  | None => Err SourcePolicyDenied
  end.

Definition BindingForRelation (p : option SourcePolicy) (projectID connectorID relation : string) :
    result policy_error SourceBinding :=
  match BindingsForConnector p projectID connectorID with
  | Err e => Err e
  | Ok bs => relation_in bs relation
  end.

(** ** Destinations and admission *)

Definition host_of (host : string) : string := trim_suffix (to_lower (trim_space host)) ".".

Definition Destination (p : SourcePolicy) (host : string) (port : Z) : option SourceDestination :=
  find_first (fun d => String.eqb (trim_suffix (to_lower (d_Host d)) ".") (host_of host) && (d_Port d =? port))
    (sp_Destinations p).

Section Admission.
Context `{NetEnv}.

Definition destinationAllowsIP (dest : SourceDestination) (ip : IP) : bool :=
  negb (special_ip ip)
  && existsb (fun raw => match parse_cidr raw with Some network => network ip | None => false end)
       (d_AllowedIPCIDRs dest).

(** One endpoint of the configuration: approved by name, and every address its name
    resolves to approved. *)
Definition admit_endpoint (p : SourcePolicy) (host : string) (port : Z) : bool :=
  if blank host || has_prefix host "/" then false
  else match Destination p host port with
       | None => false
       | Some dest =>
           match lookup_ip host with
           | None | Some [] => false
           | Some ips => forallb (destinationAllowsIP dest) ips
           end
       end.

(** The host and port of the configuration and of its fallbacks. *)
Definition admitPostgresConfig (p : SourcePolicy) (endpoints : list (string * Z)) : bool :=
  forallb (fun e => admit_endpoint p (fst e) (snd e)) endpoints.

Definition endpoint_allows (p : SourcePolicy) (ip : IP) (e : string * Z) : bool :=
  match Destination p (fst e) (snd e) with Some d => destinationAllowsIP d ip | None => false end.

(** The addresses [LookupFunc] admits for a host at dial time, with the ports they
    were admitted for; [None] refuses the lookup. *)
Definition dial_lookup (p : SourcePolicy) (endpoints : list (string * Z)) (host : string) (ips : list IP) :
    option (list (IP * Z)) :=
  let mine := filter (fun e => String.eqb (host_of (fst e)) (host_of host) = true) endpoints in
  let ports ip := snd <$> filter (fun e => endpoint_allows p ip e = true) mine in
  match mine, ips with
  | [], _ | _, [] => None
  | _, _ =>
      if forallb (fun ip => match ports ip with [] => false | _ => true end) ips
      then Some (concat ((fun ip => (fun port => (ip, port)) <$> ports ip) <$> ips))
      else None
  end.

Inductive open_error := OpenDenied | UnknownKind | NotAdmitted | ConnectFailed.

Inductive open_kind := Governed (bindings : list SourceBinding) | Plugin (kind : string).

(** [Open]: other plugins only. *)
Definition Open_ (registry : list string) (kind : string) : result open_error open_kind :=
  if String.eqb kind "postgres" then Err OpenDenied
  else if existsb (String.eqb kind) registry then Ok (Plugin kind)
  else Err UnknownKind.

(** [OpenWithPolicy] up to the dial: which bindings the source reads through.
    [endpoints] is the parsed DSN, [connects] the rest of the dial. *)
Definition OpenWithPolicy (registry : list string) (kind : string) (endpoints : list (string * Z))
    (connects : bool) (projectID connectorID : string) (policy : option SourcePolicy)
    (relation : option string) : result open_error open_kind :=
  if negb (String.eqb kind "postgres") then Open_ registry kind
  else match policy with
       | None => Err OpenDenied
       | Some p =>
           match (match relation with
                  | Some r => (fun b => [b]) <$> (match BindingForRelation policy projectID connectorID r with
                                                  | Ok b => Some b | Err _ => None end)
                  | None => match BindingsForConnector policy projectID connectorID with
                            | Ok bs => Some bs | Err _ => None end
                  end) with
           | None => Err OpenDenied
           | Some bindings =>
               if negb (admitPostgresConfig p endpoints) then Err NotAdmitted
               else if connects then Ok (Governed bindings) else Err ConnectFailed
           end
       end.
End Admission.

(** ** Lemmas *)

Lemma BindingsForConnector_spec p projectID connectorID bs :
  BindingsForConnector p projectID connectorID = Ok bs ->
  exists pol, p = Some pol /\ bs <> [] /\
    forall b, b ∈ bs -> b ∈ sp_Bindings pol /\ sb_ProjectID b = projectID /\ sb_ConnectorID b = connectorID.
Proof.
  unfold BindingsForConnector. destruct p as [pol|]; [|done].
  destruct (filter _ _) as [|b0 out] eqn:E; [done|]. intros [= <-]. exists pol. split_and!; [done|done|].
  intros b Hb. rewrite <- E in Hb. apply list_elem_of_filter in Hb as [Ho Hb]. unfold owned in Ho. by bool_props.
Qed.

Lemma BindingForRelation_spec p projectID connectorID relation b :
  BindingForRelation p projectID connectorID relation = Ok b ->
  exists pol, p = Some pol /\ b ∈ sp_Bindings pol /\ sb_ProjectID b = projectID /\
    sb_ConnectorID b = connectorID /\ MatchesRelation b relation = true.
Proof.
  unfold BindingForRelation, relation_in. destruct (BindingsForConnector _ _ _) as [bs|] eqn:E; [|done].
  destruct (find_first _ bs) eqn:F; [|done]. intros [= ->]. apply find_first_Some in F as [Hin Hm].
  apply BindingsForConnector_spec in E as (pol & -> & _ & Hall). destruct (Hall b Hin) as (? & ? & ?).
  exists pol. by split_and!.
Qed.

Lemma Destination_spec p host port d :
  Destination p host port = Some d ->
  d ∈ sp_Destinations p /\ trim_suffix (to_lower (d_Host d)) "." = host_of host /\ d_Port d = port.
Proof. unfold Destination. intros [Hin Hm]%find_first_Some. bool_props. by split_and!; [..|lia]. Qed.

(** An address the policy allows for a host name and a port. *)
Definition approved `{NetEnv} (p : SourcePolicy) (host : string) (port : Z) (ip : IP) : Prop :=
  exists d, d ∈ sp_Destinations p /\ trim_suffix (to_lower (d_Host d)) "." = host_of host /\ d_Port d = port /\
    special_ip ip = false /\
    exists raw network, raw ∈ d_AllowedIPCIDRs d /\ parse_cidr raw = Some network /\ network ip = true.

Lemma destination_approved `{NetEnv} p host port d ip :
  Destination p host port = Some d -> destinationAllowsIP d ip = true -> approved p host port ip.
Proof.
  intros (Hin & Hh & Hp)%Destination_spec Ha. unfold destinationAllowsIP in Ha. bool_props.
  exists d. split_and!; try done.
  apply existsb_exists in H1 as (raw & Hraw & Hn). destruct (parse_cidr raw) as [network|] eqn:E; [|done].
  exists raw, network. split_and!; [by apply list_elem_of_In|done|done].
Qed.

Lemma admit_endpoint_spec `{NetEnv} p host port :
  admit_endpoint p host port = true ->
  exists ips, lookup_ip host = Some ips /\ ips <> [] /\ forall ip, ip ∈ ips -> approved p host port ip.
Proof.
  unfold admit_endpoint. destruct (_ || _); [done|]. destruct (Destination p host port) as [d|] eqn:Ed; [|done].
  destruct (lookup_ip host) as [[|ip0 ips]|] eqn:El; try done. intros Hall. exists (ip0 :: ips).
  split_and!; [done|done|]. intros ip Hip. eapply destination_approved; [exact Ed|].
  rewrite forallb_forall in Hall. apply Hall. by apply list_elem_of_In.
Qed.

Lemma dial_lookup_spec `{NetEnv} p endpoints host ips out :
  dial_lookup p endpoints host ips = Some out ->
  (forall ip, ip ∈ ips -> exists port, (ip, port) ∈ out) /\
  (forall ip port, (ip, port) ∈ out -> ip ∈ ips /\
     exists name, (name, port) ∈ endpoints /\ host_of name = host_of host /\ approved p name port ip).
Proof.
  unfold dial_lookup. set (mine := filter _ endpoints). set (ports := fun ip : IP => (filter (fun e => endpoint_allows p ip e = true) mine).*2). intros E.
  assert (Hall : forallb (fun ip => match ports ip with [] => false | _ => true end) ips = true /\
    out = concat ((fun ip => (fun port => (ip, port)) <$> ports ip) <$> ips)).
  { destruct mine; [done|]. destruct ips; [done|]. destruct (forallb _ _); [|done]. by injection E as <-. }
  destruct Hall as [Hall ->]. clear E. rewrite forallb_forall in Hall. split.
  - intros ip Hip. specialize (Hall ip (proj1 (list_elem_of_In _ _) Hip)).
    destruct (ports ip) as [|port rest] eqn:Ep; [done|]. exists port. apply list_elem_of_In, in_concat.
    exists ((fun port => (ip, port)) <$> ports ip). split; apply list_elem_of_In.
    + apply list_elem_of_fmap. by exists ip.
    + rewrite Ep. left.
  - intros ip port Hin%list_elem_of_In. apply in_concat in Hin as (l & Hl & Hin).
    apply list_elem_of_In, list_elem_of_fmap in Hl as (ip' & -> & Hip).
    apply list_elem_of_In, list_elem_of_fmap in Hin as (port' & [= -> ->] & Hport). split; [done|].
    unfold ports in Hport. apply list_elem_of_fmap in Hport as ([name port2] & Hp & Hport). simpl in Hp. subst port2.
    apply list_elem_of_filter in Hport as [Ha Hm]. apply list_elem_of_filter in Hm as [Hh Hm]. simpl in *.
    apply String.eqb_eq in Hh. exists name. split_and!; [done|done|]. unfold endpoint_allows in Ha. simpl in Ha.
    destruct (Destination p name port') as [d|] eqn:Ed; [|done]. by eapply destination_approved.
Qed.

(** ** Properties *)

(** A PostgreSQL source opens only inside the operator's policy.  It reads through
    bindings of that project and connector (the one relation asked for, when one
    is), every endpoint of the DSN and every address it resolves to is approved,
    and when a name is resolved again for a dial, each address that is used is
    approved for an endpoint of that name and port, or the lookup is refused. *)
Theorem governed_source_is_approved `{NetEnv} registry endpoints connects projectID connectorID policy relation bs :
  OpenWithPolicy registry "postgres" endpoints connects projectID connectorID policy relation = Ok (Governed bs) ->
  exists p, policy = Some p /\ bs <> [] /\
    (forall b, b ∈ bs -> b ∈ sp_Bindings p /\ sb_ProjectID b = projectID /\ sb_ConnectorID b = connectorID /\
       forall r, relation = Some r -> MatchesRelation b r = true) /\
    (forall host port, (host, port) ∈ endpoints ->
       exists ips, lookup_ip host = Some ips /\ ips <> [] /\ forall ip, ip ∈ ips -> approved p host port ip) /\
    (forall host ips out, dial_lookup p endpoints host ips = Some out ->
       (forall ip, ip ∈ ips -> exists port, (ip, port) ∈ out) /\
       forall ip port, (ip, port) ∈ out -> ip ∈ ips /\
         exists name, (name, port) ∈ endpoints /\ host_of name = host_of host /\ approved p name port ip).
Proof.
  unfold OpenWithPolicy. cbn [String.eqb Ascii.eqb negb]. destruct policy as [p|]; [|done].
  destruct (match relation with Some r => _ | None => _ end) as [bindings|] eqn:Eb; [|done].
  destruct (admitPostgresConfig p endpoints) eqn:Ea; [|done]. cbn [negb]. destruct connects; [|done].
  intros [= <-]. exists p. split; [done|].
  assert (Hb : bindings <> [] /\ forall b, b ∈ bindings -> b ∈ sp_Bindings p /\ sb_ProjectID b = projectID /\
    sb_ConnectorID b = connectorID /\ forall r, relation = Some r -> MatchesRelation b r = true).
  { destruct relation as [r|].
    - destruct (BindingForRelation _ _ _ r) as [b|] eqn:Er; [|done]. injection Eb as <-. split; [done|].
      intros x ->%list_elem_of_singleton. apply BindingForRelation_spec in Er as (pol & [= <-] & ? & ? & ? & ?).
      split_and!; try done. by intros ? [= <-].
    - destruct (BindingsForConnector _ _ _) as [out|] eqn:Er; [|done]. injection Eb as <-.
      apply BindingsForConnector_spec in Er as (pol & [= <-] & Hne & Hall). split; [done|].
      intros b Hin. destruct (Hall b Hin) as (? & ? & ?). by split_and!. }
  destruct Hb as [Hne Hb]. split_and!; [done|exact Hb| |].
  - intros host port Hin. unfold admitPostgresConfig in Ea. rewrite forallb_forall in Ea.
    apply (admit_endpoint_spec p host port). by apply (Ea (host, port)), list_elem_of_In.
  - intros host ips out. apply dial_lookup_spec.
Qed.

(** A validated policy can hold a destination that is never used: the duplicate test
    compares host names as written, the lookup ignores a trailing dot, and takes
    the first. *)
Example trailing_dot_shadows (net : NetEnv) :
  let d host range := {| d_Host := host; d_Port := 5432; d_AllowedIPCIDRs := [range] |} in
  let p := {| sp_Version := 1; sp_Destinations := [d "db.example" "10.0.0.0/8"; d "db.example." "10.1.0.0/16"];
              sp_Bindings := [] |} in
  is_some (parse_cidr "10.0.0.0/8") = true -> is_some (parse_cidr "10.1.0.0/16") = true ->
  Validate p = Ok p /\ Destination p "db.example." 5432 = Some (d "db.example" "10.0.0.0/8").
Proof.
  intros d p H1 H2. split; [|vm_compute; reflexivity].
  unfold Validate. cbn [sp_Version sp_Destinations sp_Bindings p]. unfold SourcePolicyVersion. cbn [Z.eqb Pos.eqb negb].
  cbn. by rewrite H1, H2.
Qed.

(** ** Witnesses *)

Definition w_net : NetEnv :=
  {| IP := Z; parse_cidr := fun s => if String.eqb s "10/8" then Some (fun ip => (10 <=? ip) && (ip <? 11)) else None;
     special_ip := fun ip => ip =? 0;
     lookup_ip := fun h => if String.eqb h "db.example" then Some [10] else None |}.
#[local] Existing Instance w_net.

Definition w_binding : SourceBinding :=
  {| sb_ProjectID := "p"; sb_ConnectorID := "c"; sb_Schema := "exports"; sb_Relation := "orders_v1";
     sb_RelationKind := RelationKindView;
     sb_Columns := [{| pc_Name := "id"; pc_PGType := "bigint" |}; {| pc_Name := "amount"; pc_PGType := "numeric" |}];
     sb_KeyColumn := "id"; sb_KeyStability := KeyStabilityImmutableUnique; sb_AllowedCursorColumns := ["id"];
     sb_LegacySyncIDs := [] |}.

Definition w_policy : SourcePolicy :=
  {| sp_Version := 1; sp_Destinations := [{| d_Host := "db.example"; d_Port := 5432; d_AllowedIPCIDRs := ["10/8"] |}];
     sp_Bindings := [w_binding] |}.

Lemma governed_source_is_approved_witness :
  Validate w_policy = Ok w_policy /\
  exists p, Some w_policy = Some p /\ [w_binding] <> [] /\
    (forall host port, (host, port) ∈ [("db.example", 5432)] ->
       exists ips, lookup_ip host = Some ips /\ ips <> [] /\ forall ip, ip ∈ ips -> approved p host port ip).
Proof.
  split; [vm_compute; reflexivity|].
  destruct (governed_source_is_approved [] [("db.example", 5432)] true "p" "c" (Some w_policy)
    (Some "exports.orders_v1") [w_binding]) as (p & Hp & Hne & _ & Hips & _); [vm_compute; reflexivity|].
  exists p. split_and!; [exact Hp|exact Hne|exact Hips].
Defined.
