(* ===== verification/PgSource.v ===== *)
(** * PgSource: keyset pulls from a PostgreSQL relation

    [PullRows] of [internal/dataplane/connector/postgres.go] with the request types
    of connector.go.  A relation is a list of rows, a row the finite map of its
    non-NULL columns; the query is what PostgreSQL does with it: the WHERE clause
    the code builds, with NULL comparisons not true, then the ORDER BY, then the
    LIMIT.  Values of a column type are [ColumnValues]: their order, the text the
    code renders them to and the cast back. *)

From S2P Require Import Prelude GoStrings SourcePolicy.
From stdpp Require Import sorting.
From Stdlib Require Import Ascii.
Import String.
Open Scope string_scope.
Open Scope list_scope.
Open Scope Z_scope.

(** ** Requests and rows *)

Record PullRequest := {
  rq_Table : string; rq_KeyColumn : string; rq_CursorColumn : string; rq_Cursor : string;
  rq_CursorKey : string; rq_Limit : Z; rq_Snapshot : bool;
}.

(** [r_Data] is what [json.Marshal] makes of the selected columns, if it can. *)
Record Row := { r_Key : string; r_Cursor : string; r_Data : option string }.

Record PullResult := {
  pr_Rows : list Row; pr_NextCursor : string; pr_NextCursorKey : string; pr_HasMore : bool;
}.

Class ColumnValues (V : Type) := {
  vlt : V -> V -> bool;
  vtext : V -> string;
  vcast : string -> option V;
  marshal_columns : gmap string V -> option string;
}.

(** Values of one column type are totally ordered. *)
Class ColumnOrder (V : Type) `{ColumnValues V} := {
  vlt_irrefl v : vlt v v = false;
  vlt_trans u v w : vlt u v = true -> vlt v w = true -> vlt u w = true;
  vlt_total u v : vlt u v = false -> vlt v u = false -> u = v;
}.

Inductive pull_error :=
| ColumnsRequired | RelationDenied | RequestDenied | StructureChanged | KeyInvalid | InvalidTable
| ColumnMissing | QueryFailed | EmptyKey.

(** What the connection answers to the calls of one pull. *)
Record pg_answers := {
  pa_structure : bool; pa_key : bool; pa_column : string -> bool; pa_query : bool;
}.

(** [splitQualified]; both halves must be there to quote. *)
Definition splitQualified (table : string) : string * string :=
  match index_byte table "."%char with
  | Some i => (take_str i table, drop_str (S i) table)
  | None => ("public", table)
  end.

Definition quotable (table : string) : bool :=
  let '(schema, bare) := splitQualified table in negb (String.eqb schema "") && negb (String.eqb bare "").

Definition validateApprovedRequest (b : SourceBinding) (req : PullRequest) : bool :=
  if negb (MatchesRelation b (rq_Table req)) || negb (String.eqb (rq_KeyColumn req) (sb_KeyColumn b)) then false
  else if rq_Snapshot req then String.eqb (rq_CursorColumn req) ""
  else AllowsCursor b (rq_CursorColumn req).

Section Query.
Context {V : Type} `{ColumnValues V}.

Definition gt_value (o : option V) (v : V) : bool := match o with Some x => vlt v x | None => false end.
Definition eq_value (o : option V) (v : V) : bool :=
  match o with Some x => negb (vlt x v) && negb (vlt v x) | None => false end.

(** The WHERE clause; [None] is a cast that fails. *)
Definition where_clause (req : PullRequest) : option (gmap string V -> bool) :=
  let cur (r : gmap string V) := r !! rq_CursorColumn req in
  let key (r : gmap string V) := r !! rq_KeyColumn req in
  let has_cursor := negb (String.eqb (rq_Cursor req) "") in
  let has_key := negb (String.eqb (rq_CursorKey req) "") in
  if rq_Snapshot req then
    if has_key then (fun k r => gt_value (key r) k) <$> vcast (rq_CursorKey req)
    else Some (fun _ => true)
  else if has_cursor && has_key then
    match vcast (rq_Cursor req), vcast (rq_CursorKey req) with
    | Some c, Some k => Some (fun r => gt_value (cur r) c || (eq_value (cur r) c && gt_value (key r) k))
    | _, _ => None
    end
  else if has_cursor then (fun c r => gt_value (cur r) c) <$> vcast (rq_Cursor req)
  else if has_key then
    (fun k r => (negb (is_some (cur r)) && gt_value (key r) k) || is_some (cur r)) <$> vcast (rq_CursorKey req)
  else Some (fun _ => true).

(** ASC, NULLs where the clause puts them. *)
Definition lt_first (a b : option V) : bool :=
  match a, b with None, Some _ => true | Some x, Some y => vlt x y | _, None => false end.
Definition lt_last (a b : option V) : bool :=
  match a, b with Some _, None => true | Some x, Some y => vlt x y | None, _ => false end.

(** The ORDER BY of the request. *)
Definition row_lt (req : PullRequest) (a b : gmap string V) : bool :=
  let cur (r : gmap string V) := r !! rq_CursorColumn req in
  let key (r : gmap string V) := r !! rq_KeyColumn req in
  if rq_Snapshot req then lt_last (key a) (key b)
  else lt_first (cur a) (cur b) || (negb (lt_first (cur b) (cur a)) && lt_last (key a) (key b)).

Definition row_le (req : PullRequest) (a b : gmap string V) : Prop := row_lt req b a = false.

#[export] Instance row_le_dec req a b : Decision (row_le req a b).
Proof. unfold row_le. apply _. Defined.

Definition run_query (req : PullRequest) (limit : Z) (tbl : list (gmap string V)) : option (list (gmap string V)) :=
  (fun P => take (Z.to_nat limit) (merge_sort (row_le req) (filter (fun r => P r = true) tbl))) <$>
  where_clause req.

(** The columns the SELECT names, all of them without a binding. *)
Definition select (binding : option SourceBinding) (r : gmap string V) : gmap string V :=
  match binding with
  | None => r
  | Some b => filter (fun kv => AllowsColumn b (fst kv) = true) r
  end.

Definition text_or_empty (o : option V) : string := match o with Some v => vtext v | None => "" end.

(** One scanned row.  The column switch has the key case first, so a column that is
    both key and cursor is read as the key only. *)
Definition scan_row (req : PullRequest) (r : gmap string V) : Row :=
  {| r_Key := text_or_empty (r !! rq_KeyColumn req);
     r_Cursor := if String.eqb (rq_CursorColumn req) (rq_KeyColumn req) then ""
                 else text_or_empty (r !! rq_CursorColumn req);
     r_Data := marshal_columns r |}.

Definition scanned (req : PullRequest) (limit : Z) (rows : list Row) : result pull_error PullResult :=
  if existsb (fun r => String.eqb (r_Key r) "") rows then Err EmptyKey
  else Ok {| pr_Rows := rows;
             pr_NextCursor := match last rows with Some r => r_Cursor r | None => "" end;
             pr_NextCursorKey := match last rows with Some r => r_Key r | None => "" end;
             pr_HasMore := Z.of_nat (length rows) =? limit |}.

(** The columns whose types the WHERE clause looks up. *)
Definition typed_columns (req : PullRequest) : list string :=
  if rq_Snapshot req then [rq_KeyColumn req]
  else match String.eqb (rq_Cursor req) "", String.eqb (rq_CursorKey req) "" with
       | false, false => [rq_CursorColumn req; rq_KeyColumn req]
       | false, true => [rq_CursorColumn req]
       | true, false => [rq_KeyColumn req]
       | true, true => []
       end.

Definition PullRows (bindings : list SourceBinding) (a : pg_answers) (tbl : list (gmap string V)) (req : PullRequest) :
    result pull_error PullResult :=
  if String.eqb (rq_Table req) "" || String.eqb (rq_KeyColumn req) ""
     || (negb (rq_Snapshot req) && String.eqb (rq_CursorColumn req) "") then Err ColumnsRequired
  else
    match (match bindings with
           | [] => Ok None
           | _ => match find_first (fun b => MatchesRelation b (rq_Table req)) bindings with
                  | None => Err RelationDenied
                  | Some b =>
                      if negb (validateApprovedRequest b req) then Err RequestDenied
                      else if negb (pa_structure a) then Err StructureChanged
                      else if negb (rq_Snapshot req) && negb (pa_key a) then Err KeyInvalid
                      else Ok (Some b)
                  end
           end) with
    | Err e => Err e
    | Ok binding =>
        let limit := if rq_Limit req <=? 0 then 1000 else rq_Limit req in
        let queryTable := match binding with Some b => QualifiedRelation b | None => rq_Table req end in
        if negb (quotable queryTable) then Err InvalidTable
        else if negb (forallb (pa_column a) (typed_columns req)) then Err ColumnMissing
        else if negb (pa_query a) then Err QueryFailed
        else match run_query req limit tbl with
             | None => Err QueryFailed
             | Some rows => scanned req limit (scan_row req <$> (select binding <$> rows))
             end
    end.
End Query.

(** ** Lemmas *)

Lemma sorted_filter {A} (R : A -> A -> Prop) (p : A -> bool) (l : list A) :
  StronglySorted R l -> StronglySorted R (filter (fun x => p x = true) l).
Proof.
  induction 1 as [|x l Hs IH Hx]; [constructor|]. rewrite filter_cons. case_decide; [|done].
  constructor; [done|]. apply Forall_forall. intros y [_ Hy]%list_elem_of_filter. by eapply Forall_forall in Hx.
Qed.

Lemma filter_none {A} (p : A -> bool) (l : list A) : (forall x, x ∈ l -> p x = false) -> filter (fun x => p x = true) l = [].
Proof.
  induction l as [|x l IH]; intros Hp; [done|]. rewrite filter_cons, decide_False; [apply IH; intros; apply Hp; by right|].
  rewrite Hp; [done|left].
Qed.

Lemma filter_same {A} (p q : A -> bool) (l : list A) :
  (forall x, x ∈ l -> p x = q x) -> filter (fun x => p x = true) l = filter (fun x => q x = true) l.
Proof.
  induction l as [|x l IH]; intros Hpq; [done|]. rewrite !filter_cons, IH by (intros; apply Hpq; by right).
  rewrite (Hpq x) by left. by destruct (q x).
Qed.

Lemma filter_all {A} (p : A -> bool) (l : list A) : (forall x, x ∈ l -> p x = true) -> filter (fun x => p x = true) l = l.
Proof.
  induction l as [|x l IH]; intros Hp; [done|]. rewrite filter_cons, decide_True; [|apply Hp; left].
  f_equal. apply IH. intros. apply Hp. by right.
Qed.

#[local] Set Default Proof Using "Type*".

Section KeysetLemmas.
Context {V : Type} `{ColumnOrder V}.

Lemma vlt_asym u v : vlt u v = true -> vlt v u = false.
Proof.
  intros Huv. destruct (vlt v u) eqn:Hvu; [|done].
  pose proof (vlt_trans u v u Huv Hvu) as Hx. by rewrite vlt_irrefl in Hx.
Qed.

(** The key column is unique and never NULL, and every value of the two columns reads
    back from its text. *)
Record keyed (req : PullRequest) (tbl : list (gmap string V)) : Prop := {
  kd_key r : r ∈ tbl -> exists k, r !! rq_KeyColumn req = Some k;
  kd_unique a b k : a ∈ tbl -> b ∈ tbl -> a !! rq_KeyColumn req = Some k -> b !! rq_KeyColumn req = Some k -> a = b;
  kd_nodup : NoDup tbl;
  kd_readable r c v : r ∈ tbl -> c = rq_KeyColumn req \/ c = rq_CursorColumn req -> r !! c = Some v ->
    vtext v <> "" /\ vcast (vtext v) = Some v;
}.

Lemma lt_first_trans (a b c : option V) : lt_first a b = true -> lt_first b c = true -> lt_first a c = true.
Proof. destruct a, b, c; simpl; try done. apply vlt_trans. Qed.

Lemma lt_first_total (a b : option V) : lt_first a b = false -> lt_first b a = false -> a = b.
Proof. destruct a, b; simpl; try done. intros. f_equal. by apply vlt_total. Qed.

Lemma lt_first_asym (a b : option V) : lt_first a b = true -> lt_first b a = false.
Proof. destruct a, b; simpl; try done. apply vlt_asym. Qed.

Lemma lt_last_trans (a b c : option V) : lt_last a b = true -> lt_last b c = true -> lt_last a c = true.
Proof. destruct a, b, c; simpl; try done. apply vlt_trans. Qed.

Lemma lt_last_total (a b : option V) : lt_last a b = false -> lt_last b a = false -> a = b.
Proof. destruct a, b; simpl; try done. intros. f_equal. by apply vlt_total. Qed.

Lemma lt_last_asym (a b : option V) : lt_last a b = true -> lt_last b a = false.
Proof. destruct a, b; simpl; try done. apply vlt_asym. Qed.

Definition sort_position (req : PullRequest) (r : gmap string V) : option V * option V :=
  (if rq_Snapshot req then None else r !! rq_CursorColumn req, r !! rq_KeyColumn req).

Definition lt_pos (p q : option V * option V) : bool :=
  lt_first (fst p) (fst q) || (negb (lt_first (fst q) (fst p)) && lt_last (snd p) (snd q)).

(** The order is lexicographic on (cursor, key). *)
Lemma lt_pos_spec p q :
  lt_pos p q = true <->
  lt_first (fst p) (fst q) = true \/ (fst p = fst q /\ lt_last (snd p) (snd q) = true).
Proof.
  unfold lt_pos. rewrite orb_true_iff, andb_true_iff, negb_true_iff. split.
  - intros [?|[Hba Hk]]; [by left|]. destruct (lt_first (fst p) (fst q)) eqn:E; [by left|right].
    split; [by apply lt_first_total|done].
  - intros [?|[-> Hk]]; [by left|right]. split; [|done].
    destruct (lt_first (fst q) (fst q)) eqn:E; [|done]. pose proof (lt_first_asym _ _ E). congruence.
Qed.

Lemma lt_pos_trans p q r : lt_pos p q = true -> lt_pos q r = true -> lt_pos p r = true.
Proof.
  rewrite !lt_pos_spec. intros [Hab|[Eab Hab]] [Hbc|[Ebc Hbc]].
  - left. by eapply lt_first_trans.
  - left. by rewrite <- Ebc.
  - left. by rewrite Eab.
  - right. split; [congruence|by eapply lt_last_trans].
Qed.

Lemma row_lt_pos req a b : row_lt req a b = lt_pos (sort_position req a) (sort_position req b).
Proof. unfold row_lt, lt_pos, sort_position. by destruct (rq_Snapshot req). Qed.

Lemma row_lt_spec req a b :
  row_lt req a b = true <->
  lt_first (fst (sort_position req a)) (fst (sort_position req b)) = true \/
  (fst (sort_position req a) = fst (sort_position req b) /\
   lt_last (snd (sort_position req a)) (snd (sort_position req b)) = true).
Proof. by rewrite row_lt_pos, lt_pos_spec. Qed.

Lemma row_lt_asym req a b : row_lt req a b = true -> row_lt req b a = false.
Proof.
  rewrite row_lt_spec. intros Hab. apply not_true_is_false. rewrite row_lt_spec. intros Hba.
  destruct Hab as [Hab|[Eab Hab]], Hba as [Hba|[Eba Hba]].
  - apply lt_first_asym in Hab. congruence.
  - rewrite Eba in Hab. pose proof (lt_first_asym _ _ Hab). congruence.
  - rewrite Eab in Hba. pose proof (lt_first_asym _ _ Hba). congruence.
  - apply lt_last_asym in Hab. congruence.
Qed.

Lemma row_lt_trans req a b c : row_lt req a b = true -> row_lt req b c = true -> row_lt req a c = true.
Proof. rewrite !row_lt_pos. apply lt_pos_trans. Qed.

Lemma row_lt_position req a b :
  row_lt req a b = false -> row_lt req b a = false -> sort_position req a = sort_position req b.
Proof.
  intros Hab Hba. assert (fst (sort_position req a) = fst (sort_position req b)) as Ef.
  { apply lt_first_total; apply not_true_is_false; intros E.
    - enough (row_lt req a b = true) by congruence. apply row_lt_spec. by left.
    - enough (row_lt req b a = true) by congruence. apply row_lt_spec. by left. }
  assert (snd (sort_position req a) = snd (sort_position req b)) as Es.
  { apply lt_last_total; apply not_true_is_false; intros E.
    - enough (row_lt req a b = true) by congruence. apply row_lt_spec. by right.
    - enough (row_lt req b a = true) by congruence. apply row_lt_spec. by right. }
  by rewrite (surjective_pairing (sort_position req a)), Ef, Es, <- surjective_pairing.
Qed.

Lemma row_lt_position_l req a a' b : sort_position req a = sort_position req a' -> row_lt req a b = row_lt req a' b.
Proof. intros E. apply eq_true_iff_eq. by rewrite !row_lt_spec, E. Qed.

Lemma row_lt_position_r req a b b' : sort_position req b = sort_position req b' -> row_lt req a b = row_lt req a b'.
Proof. intros E. apply eq_true_iff_eq. by rewrite !row_lt_spec, E. Qed.

#[export] Instance row_le_total req : Total (row_le req).
Proof.
  intros a b. unfold row_le. destruct (row_lt req b a) eqn:E; [right|by left]. by apply row_lt_asym.
Qed.

#[export] Instance row_le_trans req : Transitive (row_le req).
Proof.
  intros a b c Hab Hbc. unfold row_le in *. destruct (row_lt req a b) eqn:E.
  - destruct (row_lt req c a) eqn:F; [|done]. by rewrite (row_lt_trans req c a b F E) in Hbc.
  - by rewrite (row_lt_position_r req c a b (row_lt_position req a b E Hab)).
Qed.

(** The rows in the order of the request. *)
Definition ordered (req : PullRequest) (tbl : list (gmap string V)) : list (gmap string V) := merge_sort (row_le req) tbl.

Lemma ordered_perm req tbl : ordered req tbl ≡ₚ tbl.
Proof. apply merge_sort_Permutation. Qed.

Lemma ordered_sorted req tbl : StronglySorted (row_le req) (ordered req tbl).
Proof. apply Sorted_StronglySorted; [apply _|]. apply Sorted_merge_sort; apply _. Qed.

Lemma row_le_antisym req tbl a b :
  keyed req tbl -> a ∈ tbl -> b ∈ tbl -> row_le req a b -> row_le req b a -> a = b.
Proof.
  intros Hk Ha Hb Hab Hba. pose proof (row_lt_position req a b Hba Hab) as E.
  apply (f_equal snd) in E. simpl in E. destruct (kd_key req tbl Hk a Ha) as [k Hka].
  apply (kd_unique req tbl Hk a b k); [done..|]. by rewrite <- E.
Qed.

(** Filtering and ordering commute. *)
Lemma ordered_filter req tbl (P : gmap string V -> bool) :
  keyed req tbl -> ordered req (filter (fun r => P r = true) tbl) = filter (fun r => P r = true) (ordered req tbl).
Proof.
  intros Hk. apply (StronglySorted_unique_strong (row_le req)).
  - intros a b Ha Hb. rewrite ordered_perm in Ha. apply list_elem_of_filter in Ha as [_ Ha].
    apply list_elem_of_filter in Hb as [_ Hb]. rewrite ordered_perm in Hb. by apply (row_le_antisym req tbl).
  - apply ordered_sorted.
  - apply sorted_filter, ordered_sorted.
  - by rewrite !ordered_perm.
Qed.

(** The rows after one of them are those the order puts behind it. *)
Lemma ordered_after req tbl l1 r l2 :
  keyed req tbl -> ordered req tbl = l1 ++ r :: l2 ->
  filter (fun x => row_lt req r x = true) (ordered req tbl) = l2.
Proof.
  intros Hk E. pose proof (ordered_sorted req tbl) as Hs. rewrite E in Hs |- *.
  assert (Hnd : NoDup (l1 ++ r :: l2)) by (rewrite <- E, ordered_perm; apply (kd_nodup req tbl Hk)).
  assert (Hin : forall x, x ∈ l1 ++ r :: l2 -> x ∈ tbl) by (intros x; by rewrite <- E, ordered_perm).
  apply StronglySorted_app in Hs as (Hcross & Hs1 & Hs2). apply NoDup_app in Hnd as (_ & Hdis & Hnd).
  apply NoDup_cons in Hnd as [Hr _]. inversion Hs2 as [|? ? _ Hall]; subst.
  rewrite filter_app, filter_cons, filter_none; simpl.
  2: { intros x Hx. apply (Hcross x r Hx). left. }
  rewrite decide_False by (intros Hx; pose proof (row_lt_asym _ _ _ Hx); congruence).
  apply filter_all. intros x Hx. rewrite Forall_forall in Hall. apply not_false_is_true. intros Hf.
  assert (r = x) as ->; [|done]. apply (row_le_antisym req tbl); [done|apply Hin..|by apply Hall|done].
  - apply elem_of_app. right. left.
  - apply elem_of_app. right. by right.
Qed.

(** *** Positions

    A position is a place in the order of the request, whether a row is there or
    not: a cursor value, NULL or not, and a key. *)

Definition after (req : PullRequest) (p : option (option V * V)) (r : gmap string V) : bool :=
  match p with None => true | Some (c, k) => lt_pos (c, Some k) (sort_position req r) end.

(** The rows after a position, in order. *)
Definition rows_after (req : PullRequest) (p : option (option V * V)) (tbl : list (gmap string V)) :
    list (gmap string V) := filter (fun r => after req p r = true) (ordered req tbl).

Definition position_texts (p : option (option V * V)) : string * string :=
  match p with None => ("", "") | Some (c, k) => (text_or_empty c, vtext k) end.

Definition readable_value (v : V) : Prop := vtext v <> "" /\ vcast (vtext v) = Some v.

Definition readable (p : option (option V * V)) : Prop :=
  match p with
  | None => True
  | Some (c, k) => readable_value k /\ forall v, c = Some v -> readable_value v
  end.

(** The request that resumes from a position. *)
Definition at_position (req : PullRequest) (p : option (option V * V)) : PullRequest :=
  {| rq_Table := rq_Table req; rq_KeyColumn := rq_KeyColumn req; rq_CursorColumn := rq_CursorColumn req;
     rq_Cursor := if rq_Snapshot req then "" else fst (position_texts p);
     rq_CursorKey := snd (position_texts p); rq_Limit := rq_Limit req; rq_Snapshot := rq_Snapshot req |}.

(** The position of a row. *)
Definition row_position (req : PullRequest) (r : gmap string V) : option (option V * V) :=
  (fun k => (fst (sort_position req r), k)) <$> r !! rq_KeyColumn req.

(** The WHERE clause of a position is the order of the request. *)
Lemma where_at_position req tbl p :
  keyed req tbl -> readable p -> (rq_Snapshot req = true -> forall c k, p = Some (c, k) -> c = None) ->
  exists P, where_clause (at_position req p) = Some P /\ forall x, x ∈ tbl -> P x = after req p x.
Proof.
  intros Hk Hp Hsnap. unfold where_clause, at_position, after, lt_pos, sort_position.
  cbn [rq_Snapshot rq_Cursor rq_CursorKey rq_KeyColumn rq_CursorColumn]. destruct p as [[c k]|]; cbn [position_texts fst snd].
  2: { destruct (rq_Snapshot req); eexists; by split. }
  destruct Hp as [[Hne Hcast] Hc]. rewrite (proj2 (String.eqb_neq _ _) Hne), Hcast.
  cbn [negb fmap option_fmap option_map]. destruct (rq_Snapshot req) eqn:Hs.
  { specialize (Hsnap eq_refl c k eq_refl) as ->. eexists. split; [done|]. intros x Hx.
    destruct (kd_key req tbl Hk x Hx) as [kx Hkx]. by rewrite Hkx. }
  destruct c as [c|]; cbn [text_or_empty].
  - destruct (Hc c eq_refl) as [Hnec Hcastc].
    rewrite (proj2 (String.eqb_neq _ _) Hnec), Hcastc. cbn [negb andb]. eexists. split; [done|].
    intros x Hx. destruct (kd_key req tbl Hk x Hx) as [kx Hkx]. rewrite Hkx. cbn [gt_value lt_last].
    destruct (x !! rq_CursorColumn req) as [cx|]; cbn [gt_value eq_value lt_first]; [|done].
    destruct (vlt c cx) eqn:E; [done|]. cbn. by destruct (vlt cx c).
  - rewrite String.eqb_refl. cbn [negb andb]. eexists. split; [done|].
    intros x Hx. destruct (kd_key req tbl Hk x Hx) as [kx Hkx]. rewrite Hkx. cbn [gt_value lt_last].
    destruct (x !! rq_CursorColumn req); cbn; [done|]. by rewrite orb_false_r.
Qed.

(** The query from a position selects the next rows in order. *)
Lemma query_at_position req limit tbl p :
  keyed req tbl -> readable p -> (rq_Snapshot req = true -> forall c k, p = Some (c, k) -> c = None) ->
  run_query (at_position req p) limit tbl = Some (take (Z.to_nat limit) (rows_after req p tbl)).
Proof.
  intros Hk Hp Hsnap. destruct (where_at_position req tbl p Hk Hp Hsnap) as (P & HP & Hrow).
  unfold run_query, rows_after. rewrite HP. cbn [fmap option_fmap option_map]. f_equal. f_equal.
  rewrite <- ordered_filter by done. rewrite (filter_same P (after req p)) by done. reflexivity.
Qed.

(** The rows after a position are a suffix of the ordered rows. *)
Lemma rows_after_suffix req p tbl : exists l, ordered req tbl = l ++ rows_after req p tbl.
Proof.
  unfold rows_after. pose proof (ordered_sorted req tbl) as Hs. induction Hs as [|x l Hs IH Hx]; [by exists []|].
  rewrite filter_cons. case_decide as Ha.
  - exists []. simpl. f_equal. symmetry. apply filter_all. intros y Hy.
    rewrite Forall_forall in Hx. specialize (Hx y Hy). unfold row_le in Hx.
    destruct p as [[c k]|]; [|done]. simpl in *. rewrite row_lt_pos in Hx.
    destruct (row_lt req x y) eqn:Exy.
    + rewrite row_lt_pos in Exy. by eapply lt_pos_trans.
    + rewrite <- row_lt_pos in Hx. by rewrite <- (row_lt_position req x y Exy Hx).
  - destruct IH as [l' IH]. exists (x :: l'). simpl. by rewrite <- IH.
Qed.

(** Past a row of them, the rest of them remain. *)
Lemma rows_after_row req p tbl l1 r l2 :
  keyed req tbl -> rows_after req p tbl = l1 ++ r :: l2 -> rows_after req (row_position req r) tbl = l2.
Proof.
  intros Hk E. destruct (rows_after_suffix req p tbl) as [l0 Hl]. rewrite E in Hl.
  assert (Hr : r ∈ tbl) by (rewrite <- (ordered_perm req), Hl; set_solver).
  destruct (kd_key req tbl Hk r Hr) as [k Hkr]. rewrite app_assoc in Hl.
  rewrite <- (ordered_after req tbl (l0 ++ l1) r l2 Hk Hl). unfold rows_after, row_position. rewrite Hkr. simpl.
  apply filter_same. intros x _. rewrite row_lt_pos. unfold lt_pos, sort_position. simpl. by rewrite Hkr.
Qed.

Lemma row_position_readable req tbl r : keyed req tbl -> r ∈ tbl -> readable (row_position req r).
Proof.
  intros Hk Hr. destruct (kd_key req tbl Hk r Hr) as [k Hkr]. unfold row_position. rewrite Hkr. simpl. split.
  - by apply (kd_readable req tbl Hk r _ k Hr (or_introl eq_refl)).
  - unfold sort_position. simpl. destruct (rq_Snapshot req); [done|]. intros v Hv.
    by apply (kd_readable req tbl Hk r _ v Hr (or_intror eq_refl)).
Qed.

Lemma rows_after_in req p tbl r : r ∈ rows_after req p tbl -> r ∈ tbl.
Proof. intros [_ Hr]%list_elem_of_filter. by rewrite ordered_perm in Hr. Qed.
End KeysetLemmas.

(** ** Pulls *)

Section Pulls.
Context {V : Type} `{ColumnOrder V}.

(** The key and every cursor column of a binding are among its columns; a validated
    policy has only such bindings. *)
Definition lists_columns (b : SourceBinding) : Prop :=
  AllowsColumn b (sb_KeyColumn b) = true /\ forall c, AllowsCursor b c = true -> AllowsColumn b c = true.

(** The binding a request is read through. *)
Definition binding_for (bindings : list SourceBinding) (table : string) : option SourceBinding :=
  find_first (fun b => MatchesRelation b table) bindings.

Definition page_limit (req : PullRequest) : Z := if rq_Limit req <=? 0 then 1000 else rq_Limit req.

(** A pull that succeeds is the query, through the columns of a binding that is
    approved for the request, if there are bindings. *)
Lemma PullRows_ok bindings a tbl req pr :
  PullRows bindings a tbl req = Ok pr ->
  let binding := binding_for bindings (rq_Table req) in
  exists rows,
    (forall b, binding = Some b -> b ∈ bindings /\ validateApprovedRequest b req = true) /\
    rq_KeyColumn req <> "" /\ (rq_Snapshot req = false -> rq_CursorColumn req <> "") /\
    run_query req (page_limit req) tbl = Some rows /\
    scanned req (page_limit req) (scan_row req <$> (select binding <$> rows)) = Ok pr.
Proof.
  intros Hpull binding. unfold PullRows in Hpull. destruct (_ || _ || _) eqn:Hreq; [done|]. bool_props.
  destruct (match bindings with [] => _ | _ => _ end) as [bo|e] eqn:Hb; [|done].
  fold (page_limit req) in Hpull. cbv zeta in Hpull. destruct (negb (quotable _)); [done|].
  destruct (negb (forallb _ _)); [done|]. destruct (negb (pa_query a)); [done|].
  destruct (run_query req (page_limit req) tbl) as [rows|] eqn:Hq; [|done]. exists rows.
  assert (Hbo : bo = binding /\ forall b, binding = Some b -> b ∈ bindings /\ validateApprovedRequest b req = true).
  { unfold binding, binding_for. destruct bindings as [|b0 bs]; [injection Hb as <-; by split|].
    destruct (find_first _ (b0 :: bs)) as [b|] eqn:Hf; [|done]. apply find_first_Some in Hf as [Hin Hm].
    destruct (validateApprovedRequest b req) eqn:Hv; [|done]. cbn [negb] in Hb.
    destruct (negb (pa_structure a)); [done|]. destruct (negb (rq_Snapshot req) && negb (pa_key a)); [done|].
    injection Hb as <-. split; [done|]. by intros ? [= <-]. }
  destruct Hbo as [-> Hbo]. split_and!; [done|done| |done|done].
  intros Hsn. rewrite Hsn in *. simpl in *. by bool_props.
Qed.

Lemma pull_rows_limit bindings a tbl req pr :
  0 < rq_Limit req -> PullRows bindings a tbl req = Ok pr -> Z.of_nat (length (pr_Rows pr)) <= rq_Limit req.
Proof.
  intros Hl Hpull. apply PullRows_ok in Hpull as (rows & _ & _ & _ & Hq & Hscan).
  unfold scanned in Hscan. destruct (existsb _ _); [done|]. injection Hscan as <-. simpl. rewrite !length_fmap.
  unfold run_query, page_limit in Hq. rewrite (proj2 (Z.leb_gt _ _) Hl) in Hq.
  destruct (where_clause req); [|done]. injection Hq as <-. rewrite length_take. lia.
Qed.

Lemma approved_columns b req :
  lists_columns b -> validateApprovedRequest b req = true -> rq_Snapshot req = false ->
  AllowsColumn b (rq_KeyColumn req) = true /\ AllowsColumn b (rq_CursorColumn req) = true.
Proof.
  intros [Hk Hc] Hv Hs. unfold validateApprovedRequest in Hv. destruct (_ || _) eqn:E; [done|].
  rewrite Hs in Hv. bool_props. split; [congruence|by apply Hc].
Qed.

Lemma select_lookup binding (r : gmap string V) c :
  (forall b, binding = Some b -> AllowsColumn b c = true) -> select binding r !! c = r !! c.
Proof.
  intros Hc. destruct binding as [b|]; [|done]. simpl. destruct (r !! c) as [v|] eqn:E.
  - apply map_lookup_filter_Some. split; [done|]. by apply Hc.
  - by apply map_lookup_filter_None; left.
Qed.

Definition shown (req : PullRequest) (binding : option SourceBinding) (r : gmap string V) : Row :=
  {| r_Key := text_or_empty (r !! rq_KeyColumn req); r_Cursor := text_or_empty (r !! rq_CursorColumn req);
     r_Data := marshal_columns (select binding r) |}.

Lemma last_fmap_cons {A B} (f : A -> B) (l : list A) (x : A) : last l = Some x -> last (f <$> l) = Some (f x).
Proof. intros E. by rewrite fmap_last, E. Qed.

(** An incremental pull with distinct key and cursor columns returns the next page
    after its position, and the position of the last row of the page. *)
Lemma pull_page bindings a tbl req p pr :
  keyed req tbl -> readable p -> rq_Snapshot req = false -> rq_CursorColumn req <> rq_KeyColumn req ->
  (forall b, b ∈ bindings -> lists_columns b) ->
  PullRows bindings a tbl (at_position req p) = Ok pr ->
  let page := take (Z.to_nat (page_limit req)) (rows_after req p tbl) in
  let binding := binding_for bindings (rq_Table req) in
    pr_Rows pr = shown req binding <$> page /\
    pr_HasMore pr = (Z.of_nat (length page) =? page_limit req) /\
    forall r, last page = Some r -> (pr_NextCursor pr, pr_NextCursorKey pr) = position_texts (row_position req r).
Proof.
  intros Hk Hp Hs Hne Hcols Hpull page binding. apply PullRows_ok in Hpull as (rows & Hb & _ & _ & Hq & Hscan).
  change (binding_for bindings (rq_Table (at_position req p))) with binding in *.
  change (page_limit (at_position req p)) with (page_limit req) in *.
  rewrite (query_at_position req (page_limit req) tbl p Hk Hp) in Hq by (rewrite Hs; done). fold page in Hq.
  injection Hq as <-.
  assert (Hsel : forall (r : gmap string V) c, c = rq_KeyColumn req \/ c = rq_CursorColumn req -> select binding r !! c = r !! c).
  { intros r c Hc. apply select_lookup. intros b E. destruct (Hb b E) as [Hin Hv].
    destruct (approved_columns b (at_position req p) (Hcols b Hin) Hv Hs) as [H1 H2]. destruct Hc as [->| ->]; done. }
  assert (Hshow : scan_row (at_position req p) <$> (select binding <$> page) = shown req binding <$> page).
  { rewrite <- list_fmap_compose. apply list_fmap_ext. intros i r _. unfold scan_row, shown. simpl.
    rewrite (proj2 (String.eqb_neq _ _) Hne), !Hsel by tauto. done. }
  rewrite Hshow in Hscan. unfold scanned in Hscan. destruct (existsb _ _); [done|]. injection Hscan as <-. simpl.
  rewrite length_fmap. split_and!; [done|done|]. intros r Hr. rewrite (last_fmap_cons _ _ r Hr). simpl.
  destruct (kd_key req tbl Hk r) as [k Hkr].
  { apply (rows_after_in req p). apply last_Some_elem_of in Hr. unfold page in Hr. by apply elem_of_take in Hr as (? & ? & ?); apply list_elem_of_lookup; eauto. }
  unfold row_position. rewrite Hkr. simpl. unfold sort_position. by rewrite Hs.
Qed.

(** When the cursor column is the key column the scanned cursor is empty, the next
    request carries a key only, and its WHERE clause keeps every row: the pull
    returns the first page again. *)
Lemma pull_same_column bindings a tbl req pr :
  (forall r, r ∈ tbl -> exists k, r !! rq_KeyColumn req = Some k) ->
  rq_Snapshot req = false -> rq_CursorColumn req = rq_KeyColumn req -> rq_Cursor req = "" ->
  PullRows bindings a tbl req = Ok pr ->
  let binding := binding_for bindings (rq_Table req) in
    pr_Rows pr = scan_row req <$> (select binding <$> take (Z.to_nat (page_limit req)) (ordered req tbl)) /\
    pr_NextCursor pr = "" /\
    pr_NextCursorKey pr = match last (pr_Rows pr) with Some r => r_Key r | None => "" end /\
    pr_HasMore pr = (Z.of_nat (length (pr_Rows pr)) =? page_limit req).
Proof.
  intros Hkey Hs Hc Hcur Hpull binding. apply PullRows_ok in Hpull as (rows & _ & _ & _ & Hq & Hscan).
  fold binding in Hscan.
  assert (Hrows : rows = take (Z.to_nat (page_limit req)) (ordered req tbl)).
  { unfold run_query, where_clause in Hq. rewrite Hs, Hcur in Hq. cbn [String.eqb negb andb] in Hq.
    destruct (negb (String.eqb (rq_CursorKey req) "")).
    - destruct (vcast (rq_CursorKey req)) as [k|]; [|done]. cbn in Hq. injection Hq as <-. f_equal. f_equal.
      apply filter_all. intros r Hr. destruct (Hkey r Hr) as [kr Hkr]. by rewrite Hc, Hkr, orb_true_r.
    - cbn in Hq. injection Hq as <-. f_equal. f_equal. by apply filter_all. }
  subst rows. unfold scanned in Hscan. destruct (existsb _ _); [done|]. injection Hscan as <-. simpl.
  split_and!; try done. destruct (last _) as [r|] eqn:E; [|done]. apply last_Some_elem_of in E.
  apply list_elem_of_fmap in E as (x & -> & _). unfold scan_row. simpl. by rewrite Hc, String.eqb_refl.
Qed.
End Pulls.
