(* ===== verification/Engine.v ===== *)
(** * Engine: the incremental run of [internal/dataplane/connector/engine.go]

    [pullAndLandRun] pulls pages of a source, hands every page to the durable
    stream and only then moves its cursor; [FinishConnectorRun] of [ConnectorRuns]
    persists the position.  What the run needs of the stream is the class
    [RowStream] with its laws, which the queue of [Publishing] discharges; what it
    needs of a source is [Source], and [PgSource] is one.  Which calls fail is a
    function of the number of the page. *)

From S2P Require Import Prelude GoStrings Duck Journal Landing SnapshotEnvelope Settler SourcePolicy Publishing PgSource ControlPlane ConnectorRuns.
Import String.
Open Scope string_scope.
Open Scope list_scope.
Open Scope Z_scope.

(** ** The interfaces of the engine *)

Definition maxBatchesPerRun : nat := Z.to_nat 200.
Definition pullBatchSize : Z := 1000.

(** [None] when the source does not open. *)
Definition Source : Type := option (Z -> PullRequest -> result pull_error PullResult).

(** [send_batch] and [send_complete] are there when the publisher is receipt-aware. *)
Class RowStream := {
  receipt_aware : bool;
  send_plain : Z -> list LandedRow -> list ExternalRowsBatch * option publish_error;
  send_batch : Z -> IncrementalReceipt -> list LandedRow -> list ExternalRowsBatch * Z * option publish_error;
  send_complete : IncrementalReceipt -> bool * option publish_error;
}.

Definition rows_of (batches : list ExternalRowsBatch) : list ExternalRow := concat (b_Rows <$> batches).

(** What the engine relies on: rows reach the stream in order, all of them unless the
    call fails, and numbered batches are numbered from the receipt's index on. *)
Class RowStreamLaws `{RowStream} := {
  plain_prefix i rows out err : send_plain i rows = (out, err) ->
    rows_of out `prefix_of` external_of <$> rows /\ (err = None -> rows_of out = external_of <$> rows);
  batch_prefix i receipt rows out n err : send_batch i receipt rows = (out, n, err) ->
    rows_of out `prefix_of` external_of <$> rows /\ (err = None -> rows_of out = external_of <$> rows);
  batch_numbered i receipt rows out n err : send_batch i receipt rows = (out, n, err) ->
    0 <= ir_BatchIndex receipt -> ir_BatchIndex receipt + Z.of_nat (length rows) < two63 ->
    Z.of_nat (length out) <= Z.of_nat (length rows) /\ (err = None -> n = Z.of_nat (length out)) /\
    forall k b, out !! k = Some b -> exists mark, b_Source b = Some mark /\ s_RunID mark = ir_RunID receipt /\
      s_BatchIndex mark = Some (ir_BatchIndex receipt + Z.of_nat k);
}.

(** ** Jobs and results *)

Record Run := { run_ID : string; run_StartedAt : option Z }.

Inductive sync_error :=
| SourceUnavailable | PullFailed (e : pull_error) | EncodeRow | QueueRows (e : publish_error) | TooManyRows
| QueueCompletion (e : publish_error).

Record sync_result := {
  sr_Cursor : string; sr_CursorKey : string; sr_AdvanceCursor : bool; sr_Rows : Z; sr_Err : option sync_error;
}.

(** The state of the batch loop; [l_sent] is what the stream took. *)
Record loop := {
  l_cursor : string; l_cursorKey : string; l_total : Z; l_transport : Z; l_hasMore : bool;
  l_sent : list ExternalRowsBatch;
}.

(** The rows of a page as landed rows; [None] when a row does not encode. *)
Fixpoint landed (rows : list Row) : option (list LandedRow) :=
  match rows with
  | [] => Some []
  | r :: rest =>
      match r_Data r with
      | None => None
      | Some data => (fun out => {| lr_Key := r_Key r; lr_Cursor := r_Cursor r; lr_DataJSON := data |} :: out)
                     <$> landed rest
      end
  end.

Section Engine.
Context `{RowStream}.

Section Run.
Context (job : SyncJob) (run : Run) (captureStarted : Z).

Definition cursor_column : string :=
  if String.eqb (j_CursorColumn job) "" then j_KeyColumn job else j_CursorColumn job.

Definition persist_cursor : bool := negb (String.eqb (j_CursorColumn job) "").

(** The receipt path is taken for a recorded run. *)
Definition with_receipts : bool := receipt_aware && negb (String.eqb (run_ID run) "").

Definition next_request (st : loop) : PullRequest :=
  {| rq_Table := j_Table job; rq_KeyColumn := j_KeyColumn job; rq_CursorColumn := cursor_column;
     rq_Cursor := l_cursor st; rq_CursorKey := l_cursorKey st; rq_Limit := pullBatchSize; rq_Snapshot := false |}.

Definition batch_receipt (index : Z) : IncrementalReceipt :=
  {| ir_SyncID := j_SyncID job; ir_RunID := run_ID run; ir_BatchIndex := index; ir_ExpectedBatches := 0;
     ir_ExpectedRows := 0; ir_CaptureStartedAt := captureStarted; ir_CaptureFinishedAt := None |}.

(** One page to the stream: the batches it took, the count, the error. *)
Definition publish (i : Z) (st : loop) (rows : list LandedRow) :
    list ExternalRowsBatch * Z * option publish_error :=
  if with_receipts then send_batch i (batch_receipt (l_transport st)) rows
  else let '(out, err) := send_plain i rows in (out, 0, err).

Definition sent_more (st : loop) (out : list ExternalRowsBatch) (published : Z) : loop :=
  {| l_cursor := l_cursor st; l_cursorKey := l_cursorKey st; l_total := l_total st;
     l_transport := i64 (l_transport st + published); l_hasMore := l_hasMore st; l_sent := l_sent st ++ out |}.

Definition with_more (st : loop) (more : bool) : loop :=
  {| l_cursor := l_cursor st; l_cursorKey := l_cursorKey st; l_total := l_total st;
     l_transport := l_transport st; l_hasMore := more; l_sent := l_sent st |}.

Definition counted (st : loop) (rows : Z) (more : bool) : loop :=
  {| l_cursor := l_cursor st; l_cursorKey := l_cursorKey st; l_total := l_total st + rows;
     l_transport := l_transport st; l_hasMore := more; l_sent := l_sent st |}.

Definition moved (st : loop) (cursor key : string) : loop :=
  {| l_cursor := cursor; l_cursorKey := key; l_total := l_total st;
     l_transport := l_transport st; l_hasMore := l_hasMore st; l_sent := l_sent st |}.

Fixpoint pull_loop (source : Z -> PullRequest -> result pull_error PullResult) (batches : nat) (i : Z) (st : loop) :
    loop * option sync_error :=
  match batches with
  | O => (st, None)
  | S rest =>
      match source i (next_request st) with
      | Err e => (st, Some (PullFailed e))
      | Ok pull =>
          match pr_Rows pull with
          | [] => (with_more st false, None)
          | rows =>
              match landed rows with
              | None => (st, Some EncodeRow)
              | Some page =>
                  let '(out, published, err) := publish i st page in
                  let st := sent_more st out published in
                  match err with
                  | Some e => (st, Some (QueueRows e))
                  | None =>
                      let st := counted st (Z.of_nat (length rows)) (pr_HasMore pull) in
                      if String.eqb (pr_NextCursor pull) (l_cursor st)
                         && String.eqb (pr_NextCursorKey pull) (l_cursorKey st) then (st, None)
                      else
                        let st := moved st (pr_NextCursor pull) (pr_NextCursorKey pull) in
                        if pr_HasMore pull then pull_loop source rest (i + 1) st else (st, None)
                  end
              end
          end
      end
  end.

(** The result closure of the run. *)
Definition run_result (st : loop) (err : option sync_error) : sync_result :=
  let advance := persist_cursor
                 && negb (String.eqb (l_cursor st) (j_Cursor job) && String.eqb (l_cursorKey st) (j_CursorKey job)) in
  {| sr_Cursor := if advance then l_cursor st else ""; sr_CursorKey := if advance then l_cursorKey st else "";
     sr_AdvanceCursor := advance; sr_Rows := l_total st; sr_Err := err |}.

Definition start_loop : loop :=
  {| l_cursor := j_Cursor job; l_cursorKey := j_CursorKey job; l_total := 0; l_transport := 0;
     l_hasMore := false; l_sent := [] |}.

Definition complete_receipt (st : loop) (finished : Z) : IncrementalReceipt :=
  {| ir_SyncID := j_SyncID job; ir_RunID := run_ID run; ir_BatchIndex := 0; ir_ExpectedBatches := l_transport st;
     ir_ExpectedRows := l_total st; ir_CaptureStartedAt := captureStarted; ir_CaptureFinishedAt := Some finished |}.

(** The result, what the stream took, and the completion marker it took. *)
Definition finish_loop (st : loop) (err : option sync_error) (finished : Z) :
    sync_result * list ExternalRowsBatch * option IncrementalReceipt :=
  match err with
  | Some e => (run_result st (Some e), l_sent st, None)
  | None =>
      if l_hasMore st && negb persist_cursor then (run_result st (Some TooManyRows), l_sent st, None)
      else if with_receipts then
        let receipt := complete_receipt st finished in
        let '(accepted, cerr) := send_complete receipt in
        (run_result st (QueueCompletion <$> cerr), l_sent st, if accepted then Some receipt else None)
      else (run_result st None, l_sent st, None)
  end.
End Run.

Definition pullAndLandRun (job : SyncJob) (run : Run) (now finished : Z) (source : Source) :
    sync_result * list ExternalRowsBatch * option IncrementalReceipt :=
  let captureStarted := default now (run_StartedAt run) in
  match source with
  | None => (run_result job (start_loop job) (Some SourceUnavailable), [], None)
  | Some pulls =>
      let '(st, err) := pull_loop job run captureStarted pulls maxBatchesPerRun 0 (start_loop job) in
      finish_loop job run captureStarted st err finished
  end.

(** [pullAndLand]: without a recorded run. *)
Definition pullAndLand (job : SyncJob) (now finished : Z) (source : Source) :
    sync_result * list ExternalRowsBatch * option IncrementalReceipt :=
  pullAndLandRun job {| run_ID := ""; run_StartedAt := None |} now finished source.
End Engine.

(** ** The queue as the engine's stream *)

Section Queue.
Context `{SnapshotEnv} (calls : Z -> broker_calls) (maxPayload : option Z) (projectID connectorID table : string).

Definition queue_stream : RowStream :=
  {| receipt_aware := true;
     send_plain i rows :=
       let '(chunks, err) := PublishExternalRows (calls i) maxPayload rows in
       ((fun c => {| b_ProjectID := projectID; b_ConnectorID := connectorID; b_Table := table; b_Rows := c;
                     b_Source := None |}) <$> chunks, err);
     send_batch i receipt rows :=
       PublishIncrementalBatch (calls i) projectID connectorID table receipt maxPayload rows;
     send_complete receipt := PublishIncrementalComplete (calls (-1)) projectID connectorID table receipt |}.
End Queue.

(** ** PostgreSQL as the engine's source *)

Definition pg_source `{ColumnValues V} (bindings : list SourceBinding) (answers : Z -> pg_answers)
    (tbl : list (gmap string V)) : Source :=
  Some (fun i req => PullRows bindings (answers i) tbl req).

(** The same source while others write to the relation: each pull reads it as it
    then is. *)
Definition pg_live `{ColumnValues V} (bindings : list SourceBinding) (answers : Z -> pg_answers)
    (tbls : Z -> list (gmap string V)) : Source :=
  Some (fun i req => PullRows bindings (answers i) (tbls i) req).

(** ** Lemmas *)

Lemma PublishExternalRows_prefix b maxPayload rows chunks err :
  PublishExternalRows b maxPayload rows = (chunks, err) ->
  concat chunks `prefix_of` external_of <$> rows /\ (err = None -> concat chunks = external_of <$> rows).
Proof.
  intros E. assert (E' : publish_chunks b (publishBudget maxPayload) 0 (chunkRows rows (publishBudget maxPayload)) = (chunks, err))
    by (by destruct rows).
  destruct (publish_chunks_spec _ _ _ _ (chunkRows_fits (publishBudget maxPayload) rows) _ _ E') as (Hp & Hn & _).
  rewrite <- (chunkRows_concat (publishBudget maxPayload)). split; [by apply prefix_concat|].
  intros He. by rewrite (Hn He).
Qed.

Lemma PublishIncrementalBatch_prefix `{SnapshotEnv} b p c t receipt maxPayload rows out n err :
  PublishIncrementalBatch b p c t receipt maxPayload rows = (out, n, err) ->
  rows_of out `prefix_of` external_of <$> rows /\ (err = None -> rows_of out = external_of <$> rows).
Proof.
  intros E. unfold PublishIncrementalBatch in E.
  destruct (publish_incremental_spec _ _ _ _ _ _ _ _ _ _ E) as (Hnum & _ & Hnone).
  pose proof (numbered_rows _ _ _ _ _ _ _ Hnum) as Hpre. unfold rows_of.
  rewrite <- (chunkRows_concat (publishBudget maxPayload)). split; [by apply prefix_concat|].
  intros He. destruct (Hnone He) as [Hl _]. destruct Hpre as [rest Hrest]. destruct rest as [|x rest].
  - by rewrite Hrest, app_nil_r.
  - apply (f_equal length) in Hrest. rewrite length_app, length_fmap in Hrest. simpl in Hrest. lia.
Qed.

Lemma chunkRows_length rows maxBytes : (length (chunkRows rows maxBytes) <= length rows)%nat.
Proof.
  rewrite <- (length_fmap external_of rows), <- (chunkRows_concat maxBytes rows).
  induction (chunkRows_fits maxBytes rows) as [|c rest [Hne _] _ IH]; [done|].
  cbn [concat length]. rewrite length_app. destruct c; [done|]. cbn [length]. lia.
Qed.

#[export] Instance queue_stream_laws `{SnapshotEnv} calls maxPayload projectID connectorID table :
  @RowStreamLaws (queue_stream calls maxPayload projectID connectorID table).
Proof.
  split.
  - intros i rows out err E. cbn in E. destruct (PublishExternalRows _ _ _) as [chunks e] eqn:Hp. injection E as <- <-.
    unfold rows_of. rewrite <- list_fmap_compose, (list_fmap_ext _ id chunks) by done. rewrite list_fmap_id.
    by eapply PublishExternalRows_prefix.
  - intros i receipt rows out n err E. cbn in E. exact (PublishIncrementalBatch_prefix _ _ _ _ _ _ _ _ _ _ E).
  - intros i receipt rows out n err E Hpos Hmax. cbn in E. unfold PublishIncrementalBatch in E.
    destruct (publish_incremental_spec _ _ _ _ _ _ _ _ _ _ E) as (Hnum & _ & Hnone).
    pose proof (numbered_rows _ _ _ _ _ _ _ Hnum) as Hpre. apply prefix_length in Hpre. rewrite length_fmap in Hpre.
    pose proof (chunkRows_length rows (publishBudget maxPayload)). split_and!; [lia| |].
    + intros He. destruct (Hnone He). lia.
    + intros k b Hk. destruct (Hnum k b Hk) as (c & Hc & ->). apply lookup_lt_Some in Hc. eexists.
      split_and!; [reflexivity|done|]. cbn. f_equal.
      rewrite Z.add_0_l, i64_small, u64_small; unfold min_i64, max_i64, two63, two64 in *; lia.
Qed.

#[local] Set Default Proof Using "Type*".

(** *** The abstract reader

    A reader of a relation is a position in the order of its request; a step
    delivers the next rows in that order and moves past the last of them. *)

Section Reader.
Context {V : Type} `{ColumnOrder V} (req : PullRequest) (tbl : list (gmap string V)).

Definition moved_past (p : option (option V * V)) (l : list (gmap string V)) : option (option V * V) :=
  match last l with None => p | Some r => row_position req r end.

Definition reads (p : option (option V * V)) (l : list (gmap string V)) (q : option (option V * V)) : Prop :=
  rows_after req p tbl = l ++ rows_after req q tbl /\ q = moved_past p l.

Lemma reads_nil p : reads p [] p.
Proof. by split. Qed.

Lemma reads_app p l q l' q' : reads p l q -> reads q l' q' -> reads p (l ++ l') q'.
Proof.
  intros [H1 ->] [H2 ->]. split; [by rewrite <- app_assoc, <- H2|].
  unfold moved_past. rewrite last_app. by destruct (last l').
Qed.

Lemma reads_prefix p l rest : keyed req tbl -> rows_after req p tbl = l ++ rest -> reads p l (moved_past p l).
Proof.
  intros Hk E. split; [|done]. unfold moved_past. destruct (last l) as [r|] eqn:Hl.
  - apply last_Some in Hl as [l0 ->]. rewrite <- app_assoc in E. simpl in E.
    rewrite (rows_after_row req p tbl l0 r rest Hk E). by rewrite E, <- app_assoc.
  - by apply last_None in Hl as ->.
Qed.

Lemma reads_readable p l q : keyed req tbl -> readable p -> reads p l q -> readable q.
Proof.
  intros Hk Hp [E ->]. unfold moved_past. destruct (last l) as [r|] eqn:Hl; [|done].
  apply (row_position_readable req tbl); [done|]. apply (rows_after_in req p). rewrite E.
  apply elem_of_app. left. by apply last_Some_elem_of.
Qed.

(** The texts of readable positions tell them apart. *)
Lemma position_texts_inj (p q : option (option V * V)) :
  readable p -> readable q -> position_texts p = position_texts q -> p = q.
Proof.
  assert (Hv : forall u v : V, readable_value u -> readable_value v -> vtext u = vtext v -> u = v).
  { intros u v [_ Hu] [_ Hv] E. rewrite E in Hu. congruence. }
  destruct p as [[c k]|], q as [[d l]|]; simpl; [|intros [[? _] _] _ [= _ ?]; done|intros _ [[? _] _] [= _ ?]; done|done].
  intros [Hk Hc] [Hl Hd] [= Et Ek]. f_equal. f_equal; [|by apply Hv].
  destruct c as [c|], d as [d|]; simpl in Et; [|by destruct (Hc c eq_refl)|by destruct (Hd d eq_refl)|done].
  f_equal. apply Hv; [by apply Hc|by apply Hd|done].
Qed.

(** What comes after a row read after [p] comes after [p]. *)
Lemma after_trans p r x :
  keyed req tbl -> r ∈ rows_after req p tbl -> after req (row_position req r) x = true -> after req p x = true.
Proof.
  intros Hk Hr Hx. destruct (kd_key req tbl Hk r (rows_after_in _ _ _ _ Hr)) as [k Hkr].
  apply list_elem_of_filter in Hr as [Ha _]. destruct p as [[c kp]|]; [|done].
  unfold row_position in Hx. rewrite Hkr in Hx. cbn [fmap option_fmap option_map after] in *.
  eapply lt_pos_trans; [exact Ha|]. unfold sort_position in *. simpl in *. by rewrite Hkr.
Qed.

(** A row read after a position is not at that position. *)
Lemma reads_progress p r :
  keyed req tbl -> rq_Snapshot req = false -> readable p -> r ∈ rows_after req p tbl ->
  position_texts (row_position req r) <> position_texts p.
Proof.
  intros Hk Hs Hp Hr E. assert (Hin : r ∈ tbl) by (by apply (rows_after_in req p)).
  apply position_texts_inj in E; [|by eapply row_position_readable|done]. subst p.
  apply list_elem_of_filter in Hr as [Ha _]. unfold after, row_position in Ha.
  destruct (kd_key req tbl Hk r Hin) as [k Hkr].
  assert (Hsp : sort_position req r = (fst (sort_position req r), Some k)) by (unfold sort_position; simpl; by rewrite Hkr).
  rewrite Hkr in Ha. cbn [fmap option_fmap option_map] in Ha. rewrite <- Hsp in Ha.
  rewrite <- row_lt_pos in Ha. pose proof (row_lt_asym _ _ _ Ha). congruence.
Qed.
End Reader.

(** ** The loop refines the reader *)

Section Refinement.
Context `{RowStreamLaws} {V : Type} `{ColumnOrder V}.
Context (job : SyncJob) (run : Run) (captureStarted : Z).
Context (bindings : list SourceBinding) (answers : Z -> pg_answers) (tbl : list (gmap string V)).

Definition base_request : PullRequest :=
  {| rq_Table := j_Table job; rq_KeyColumn := j_KeyColumn job; rq_CursorColumn := cursor_column job;
     rq_Cursor := ""; rq_CursorKey := ""; rq_Limit := pullBatchSize; rq_Snapshot := false |}.

(** A row as it goes on the wire. *)
Definition wire (r : gmap string V) : ExternalRow :=
  let s := shown base_request (binding_for bindings (j_Table job)) r in
  {| er_Key := r_Key s; er_Cursor := r_Cursor s; er_Data := default "" (r_Data s) |}.

Lemma landed_wire page rows :
  landed (shown base_request (binding_for bindings (j_Table job)) <$> page) = Some rows ->
  external_of <$> rows = wire <$> page.
Proof.
  revert rows. induction page as [|r page IH]; intros rows E; simpl in E; [by injection E as <-|].
  destruct (marshal_columns _) as [d|] eqn:Ed; [|done]. destruct (landed _) as [out|] eqn:El; [|done].
  injection E as <-. rewrite !fmap_cons, (IH out eq_refl). f_equal. unfold wire, external_of. simpl. by rewrite Ed.
Qed.

Lemma publish_prefix i st rows out n err :
  publish job run captureStarted i st rows = (out, n, err) ->
  rows_of out `prefix_of` external_of <$> rows /\ (err = None -> rows_of out = external_of <$> rows).
Proof.
  unfold publish. destruct (with_receipts run); [apply batch_prefix|].
  destruct (send_plain i rows) as [o e] eqn:E. intros [= <- _ <-]. by eapply plain_prefix.
Qed.

Lemma next_request_at st p :
  (l_cursor st, l_cursorKey st) = position_texts p -> next_request job st = at_position base_request p.
Proof. intros E. unfold next_request, at_position. by rewrite <- E. Qed.

Lemma rows_of_app a b : rows_of (a ++ b) = rows_of a ++ rows_of b.
Proof. unfold rows_of. by rewrite fmap_app, concat_app. Qed.

(** What the loop did: rows read, where it stands, what the stream took. *)
Record loop_outcome (batches : nat) (st : loop) (p : option (option V * V)) (st' : loop) (err : option sync_error)
    (l : list (gmap string V)) (q : option (option V * V)) : Prop := {
  lo_reads : reads base_request tbl p l q;
  lo_texts : (l_cursor st', l_cursorKey st') = position_texts q;
  lo_total : l_total st' = l_total st + Z.of_nat (length l);
  lo_sent : exists out extra, l_sent st' = l_sent st ++ out /\ rows_of out = (wire <$> l) ++ extra /\
    extra `prefix_of` wire <$> rows_after base_request q tbl /\ (err = None -> extra = []);
  lo_done : err = None -> rows_after base_request q tbl = [] \/ length l = (batches * Z.to_nat pullBatchSize)%nat;
}.

Context (Hkeyed : keyed base_request tbl) (Hcols : forall b, b ∈ bindings -> lists_columns b)
  (Hdistinct : cursor_column job <> j_KeyColumn job).

Lemma outcome_stop batches st p st' e :
  l_cursor st' = l_cursor st -> l_cursorKey st' = l_cursorKey st -> l_total st' = l_total st ->
  (l_cursor st, l_cursorKey st) = position_texts p ->
  (exists out, l_sent st' = l_sent st ++ out /\ rows_of out `prefix_of` wire <$> rows_after base_request p tbl) ->
  loop_outcome batches st p st' (Some e) [] p.
Proof.
  intros Hc Hk Ht Hp (out & Hs & Hpre). split; [apply reads_nil|by rewrite Hc, Hk|simpl; lia| |done].
  exists out, (rows_of out). by split_and!.
Qed.

Lemma outcome_end batches st p st' l q :
  reads base_request tbl p l q -> (l_cursor st', l_cursorKey st') = position_texts q ->
  l_total st' = l_total st + Z.of_nat (length l) ->
  (exists out, l_sent st' = l_sent st ++ out /\ rows_of out = wire <$> l) ->
  rows_after base_request q tbl = [] \/ length l = (batches * Z.to_nat pullBatchSize)%nat ->
  loop_outcome batches st p st' None l q.
Proof.
  intros Hr Hx Ht (out & Hs & Ho) Hd. split; try done. exists out, [].
  rewrite app_nil_r. split_and!; [done|done|apply prefix_nil|done].
Qed.

Lemma pull_loop_refines batches i st p st' err :
  readable p -> (l_cursor st, l_cursorKey st) = position_texts p ->
  pull_loop job run captureStarted (fun i req => PullRows bindings (answers i) tbl req) batches i st = (st', err) ->
  exists l q, loop_outcome batches st p st' err l q.
Proof.
  revert i st p. induction batches as [|batches IH]; intros i st p Hp Hx E; cbn [pull_loop] in E.
  { injection E as <- <-. exists [], p. apply outcome_end; [apply reads_nil|done|simpl; lia| |by right].
    exists []. by rewrite app_nil_r. }
  rewrite (next_request_at st p Hx) in E.
  assert (Hnothing : exists out, l_sent st = l_sent st ++ out /\ rows_of out `prefix_of` wire <$> rows_after base_request p tbl).
  { exists []. rewrite app_nil_r. split; [done|apply prefix_nil]. }
  destruct (PullRows _ _ _ _) as [pull|e] eqn:Hpull.
  2: { injection E as <- <-. exists [], p. by apply outcome_stop. }
  destruct (pull_page bindings (answers i) tbl base_request p pull Hkeyed Hp eq_refl Hdistinct Hcols Hpull)
    as (Hrows & Hmore & Hnext).
  change (page_limit base_request) with pullBatchSize in *.
  set (page := take (Z.to_nat pullBatchSize) (rows_after base_request p tbl)) in *.
  destruct (pr_Rows pull) as [|r0 rs] eqn:Hpr.
  { injection E as <- <-. exists [], p. apply outcome_end; [apply reads_nil|done|simpl; lia| |left].
    - exists []. by rewrite app_nil_r.
    - symmetry in Hrows. apply fmap_nil_inv in Hrows. unfold page in Hrows. by destruct (rows_after base_request p tbl). }
  rewrite Hrows in E. assert (Hlen : length (r0 :: rs) = length page) by (by rewrite Hrows, length_fmap).
  rewrite length_fmap in E. change (rq_Table base_request) with (j_Table job) in E.
  destruct (landed _) as [rows|] eqn:Hland; [|injection E as <- <-; exists [], p; by apply outcome_stop].
  pose proof (landed_wire page rows Hland) as Hwire.
  destruct (publish _ _ _ _ _ _) as [[out n] perr] eqn:Hpub. destruct (publish_prefix _ _ _ _ _ _ Hpub) as [Hpre Hall].
  rewrite Hwire in Hpre, Hall.
  assert (Hpage : rows_after base_request p tbl = page ++ drop (Z.to_nat pullBatchSize) (rows_after base_request p tbl))
    by (symmetry; apply take_drop).
  destruct perr as [e|].
  { injection E as <- <-. exists [], p. apply outcome_stop; try done. exists out. split; [done|].
    etrans; [exact Hpre|]. rewrite Hpage, fmap_app. by apply prefix_app_r. }
  specialize (Hall eq_refl). destruct (last page) as [r|] eqn:Hlast.
  2: { apply last_None in Hlast. by rewrite Hlast in Hlen. }
  specialize (Hnext r eq_refl). set (q := moved_past base_request p page).
  assert (Hq : q = row_position base_request r) by (unfold q, moved_past; by rewrite Hlast).
  assert (Hreads : reads base_request tbl p page q) by (by eapply reads_prefix).
  assert (Hrq : readable q) by (by eapply reads_readable).
  cbn [sent_more counted l_cursor l_cursorKey] in E.
  rewrite <- Hq in Hnext. assert (Hdiff : String.eqb (pr_NextCursor pull) (l_cursor st)
    && String.eqb (pr_NextCursorKey pull) (l_cursorKey st) = false).
  { apply not_true_is_false. intros Heq. bool_props.
    apply (reads_progress base_request tbl p r Hkeyed eq_refl Hp).
    - apply last_Some_elem_of in Hlast. rewrite Hpage. apply elem_of_app. by left.
    - rewrite <- Hq, <- Hnext, <- Hx. congruence. }
  rewrite Hdiff in E.
  destruct (pr_HasMore pull) eqn:Hm.
  - edestruct (fun s Hs => IH (i + 1) s q Hrq Hs) as (l & q' & [Hr Ht Htot (out' & extra & Hs & Ho & Hex & Hex0) Hdone]);
      [|exact E|]; [exact Hnext|].
    exists (page ++ l), q'. symmetry in Hmore. apply Z.eqb_eq in Hmore.
    assert (Hfull : length page = Z.to_nat pullBatchSize) by lia. split.
    + by eapply reads_app.
    + done.
    + rewrite Htot. cbn [moved counted sent_more l_total]. rewrite length_app. lia.
    + exists (out ++ out'), extra. cbn [moved counted sent_more l_sent] in Hs. split_and!; [by rewrite Hs, app_assoc| |done|done].
      by rewrite rows_of_app, Hall, Ho, fmap_app, app_assoc.
    + intros He. destruct (Hdone He) as [?|Hl]; [by left|right]. rewrite length_app, Hl, Hfull. lia.
  - injection E as <- <-. exists page, q. apply outcome_end; try done.
    + exists out. by split.
    + left. destruct Hreads as [Hsplit _]. symmetry in Hmore. apply Z.eqb_neq in Hmore.
      rewrite Hsplit in Hpage. apply app_inv_head in Hpage. rewrite Hpage. apply drop_ge.
      rewrite <- Hsplit. unfold page in Hmore. rewrite length_take in Hmore. unfold pullBatchSize in *. lia.
Qed.
End Refinement.

(** The position the next run of the sync starts from, once the run is finished. *)
Definition resumed (job : SyncJob) (res : sync_result) : string * string :=
  if sr_AdvanceCursor res then (sr_Cursor res, sr_CursorKey res) else (j_Cursor job, j_CursorKey job).

Lemma resumed_run_result job st err :
  persist_cursor job = true -> resumed job (run_result job st err) = (l_cursor st, l_cursorKey st).
Proof.
  intros Hp. unfold resumed, run_result. cbn [sr_AdvanceCursor sr_Cursor sr_CursorKey]. rewrite Hp. cbn [andb].
  destruct (String.eqb (l_cursor st) (j_Cursor job) && String.eqb (l_cursorKey st) (j_CursorKey job)) eqn:E; [|done].
  cbn [negb]. bool_props. congruence.
Qed.

Lemma finish_loop_spec `{RowStream} job run cs st err fin res sent completed :
  finish_loop job run cs st err fin = (res, sent, completed) ->
  sent = l_sent st /\ (exists e, res = run_result job st e /\
    (e = None -> err = None /\ (persist_cursor job = false -> l_hasMore st = false))) /\
  (forall receipt, completed = Some receipt -> err = None /\ with_receipts run = true /\
     receipt = complete_receipt job run cs st fin).
Proof.
  unfold finish_loop. destruct err as [e|].
  { intros [= <- <- <-]. split_and!; [done|by exists (Some e)|done]. }
  destruct (l_hasMore st && negb (persist_cursor job)) eqn:Hm.
  { intros [= <- <- <-]. split_and!; [done|by exists (Some TooManyRows)|done]. }
  assert (Hlast : persist_cursor job = false -> l_hasMore st = false).
  { intros Hp. rewrite Hp, andb_true_r in Hm. done. }
  destruct (with_receipts run) eqn:Hw.
  - destruct (send_complete _) as [accepted cerr] eqn:Hs. intros [= <- <- <-]. split_and!; [done|by eexists|].
    intros receipt Hr. destruct accepted; [|done]. by injection Hr as <-.
  - intros [= <- <- <-]. split_and!; [done|by exists None|done].
Qed.

(** What [FinishConnectorRun] is given; [show] renders an error. *)
Definition stored (show : sync_error -> string) (res : sync_result) : SyncResult :=
  {| rs_Cursor := sr_Cursor res; rs_CursorKey := sr_CursorKey res; rs_AdvanceCursor := sr_AdvanceCursor res;
     rs_Rows := sr_Rows res; rs_Err := match sr_Err res with Some e => show e | None => "" end |}.

(** The store's row of the sync then resumes where the run says, if the row still had
    the position the run was given. *)
Lemma finish_persists show db runID syncID owner cs job res cancelled now db' :
  syncs db !! syncID = Some cs -> cs_Cursor cs = j_Cursor job -> cs_CursorKey cs = j_CursorKey job ->
  FinishConnectorRun db runID syncID owner (stored show res) cancelled now = Ok db' ->
  exists cs', syncs db' !! syncID = Some cs' /\ (cs_Cursor cs', cs_CursorKey cs') = resumed job res.
Proof.
  intros Hs Hc Hk Hfin. unfold FinishConnectorRun in Hfin. destruct (runs db !! runID) as [r|]; [|done].
  destruct (bool_decide (cr_Status r = Running) && String.eqb (cr_Owner r) owner); [|done].
  cbn [negb] in Hfin. cbv zeta in Hfin. injection Hfin as <-.
  set (final := if cr_CancelRequested r then Cancelled else finish_status (stored show res) cancelled).
  exists (finished_sync cs final (stored show res) (error_text (stored show res) cancelled) now). split.
  - destruct (cr_CancelRequested r); cbn [syncs set_syncs set_runs set_generations cancel_generations cancel_where];
      rewrite lookup_alter_eq, Hs; reflexivity.
  - unfold finished_sync, resumed. cbn. destruct (sr_AdvanceCursor res); congruence.
Qed.

Definition with_position (job : SyncJob) (pos : string * string) : SyncJob :=
  {| j_SyncID := j_SyncID job; j_ProjectID := j_ProjectID job; j_ConnectorID := j_ConnectorID job;
     j_Table := j_Table job; j_KeyColumn := j_KeyColumn job; j_CursorColumn := j_CursorColumn job;
     j_Cursor := fst pos; j_CursorKey := snd pos; j_SyncMode := j_SyncMode job;
     j_SyncRevision := j_SyncRevision job; j_SourceRevision := j_SourceRevision job;
     j_BindingDigest := j_BindingDigest job |}.

Lemma run_refines `{RowStreamLaws} {V} `{ColumnOrder V} job run now fin bindings answers (tbl : list (gmap string V)) p
    res sent completed :
  j_CursorColumn job <> "" -> j_CursorColumn job <> j_KeyColumn job ->
  keyed (base_request job) tbl -> (forall b, b ∈ bindings -> lists_columns b) ->
  readable p -> (j_Cursor job, j_CursorKey job) = position_texts p ->
  pullAndLandRun job run now fin (pg_source bindings answers tbl) = (res, sent, completed) ->
  exists l q extra, reads (base_request job) tbl p l q /\ resumed job res = position_texts q /\
    rows_of sent = (wire job bindings <$> l) ++ extra /\
    extra `prefix_of` wire job bindings <$> rows_after (base_request job) q tbl /\
    sr_Rows res = Z.of_nat (length l) /\
    (sr_Err res = None -> extra = [] /\
       (rows_after (base_request job) q tbl = [] \/
        length l = (maxBatchesPerRun * Z.to_nat pullBatchSize)%nat)).
Proof.
  intros Hcol Hne Hkeyed Hcols Hp Hx Hrun. unfold pullAndLandRun, pg_source in Hrun.
  destruct (pull_loop _ _ _ _ _ _ _) as [st err] eqn:Hloop.
  assert (Hcc : cursor_column job = j_CursorColumn job).
  { unfold cursor_column. by rewrite (proj2 (String.eqb_neq _ _) Hcol). }
  assert (Hpc : persist_cursor job = true).
  { unfold persist_cursor. by rewrite (proj2 (String.eqb_neq _ _) Hcol). }
  destruct (pull_loop_refines job run _ bindings answers tbl Hkeyed Hcols ltac:(by rewrite Hcc) _ 0
    (start_loop job) p st err Hp Hx Hloop) as (l & q & [Hr Ht Htot (out & extra & Hs & Ho & Hex & Hex0) Hdone]).
  destruct (finish_loop_spec _ _ _ _ _ _ _ _ _ Hrun) as (-> & (e & -> & He) & _).
  exists l, q, extra. rewrite (resumed_run_result job st e Hpc). simpl in Hs. rewrite Hs. split_and!; try done.
  intros Hnone. destruct (He Hnone) as [-> _]. split; [by apply Hex0|by apply Hdone].
Qed.

(** *** A relation that changes *)

Section Live.
Context `{RowStreamLaws} {V : Type} `{ColumnOrder V}.
Context (job : SyncJob) (run : Run) (captureStarted : Z).
Context (bindings : list SourceBinding) (answers : Z -> pg_answers) (tbls : Z -> list (gmap string V)).
Context (Hkeyed : forall i, keyed (base_request job) (tbls i)) (Hcols : forall b, b ∈ bindings -> lists_columns b)
  (Hdistinct : cursor_column job <> j_KeyColumn job).

(** What pages of a live relation between two positions left on the stream: the rows
    that stood in between all along, and nothing but rows that stood after the first. *)
Record carried (p q : option (option V * V)) (out : list ExternalRowsBatch) : Prop := {
  ca_readable : readable q;
  ca_mono x : after (base_request job) q x = true -> after (base_request job) p x = true;
  ca_kept r : (forall i, r ∈ tbls i) -> after (base_request job) p r = true -> after (base_request job) q r = false ->
    wire job bindings r ∈ rows_of out;
  ca_from x : x ∈ rows_of out -> exists i r, r ∈ tbls i /\ after (base_request job) p r = true /\ x = wire job bindings r;
}.

Lemma carried_stop p out :
  readable p -> (forall x, x ∈ rows_of out -> exists i r, r ∈ tbls i /\ after (base_request job) p r = true /\ x = wire job bindings r) ->
  carried p p out.
Proof. intros Hp Hx. split; try done. intros r _ Ha Hb. congruence. Qed.

Lemma carried_app p q q' out out' : carried p q out -> carried q q' out' -> carried p q' (out ++ out').
Proof.
  intros [_ m1 k1 f1] [rd m2 k2 f2]. split; [done|by auto| |].
  - intros r Hr Hp Hq. rewrite rows_of_app. apply elem_of_app.
    destruct (after (base_request job) q r) eqn:E; [right; by apply k2|left; by apply k1].
  - intros x Hx. rewrite rows_of_app in Hx. apply elem_of_app in Hx as [Hx|Hx]; [by apply f1|].
    destruct (f2 x Hx) as (i & r & Hr & Ha & ->). exists i, r. eauto.
Qed.

(** One page that reached the stream whole, and one that did not. *)
Lemma carried_page p i out :
  readable p -> let page := take (Z.to_nat pullBatchSize) (rows_after (base_request job) p (tbls i)) in
  rows_of out `prefix_of` wire job bindings <$> page ->
  carried p p out /\ forall r, last page = Some r -> rows_of out = wire job bindings <$> page ->
    carried p (row_position (base_request job) r) out.
Proof.
  intros Hp page Hpre.
  assert (Hpage : rows_after (base_request job) p (tbls i) = page ++ drop (Z.to_nat pullBatchSize) (rows_after (base_request job) p (tbls i)))
    by (symmetry; apply take_drop).
  assert (Hsub : forall r, r ∈ page -> r ∈ rows_after (base_request job) p (tbls i))
    by (intros r Hr; rewrite Hpage; apply elem_of_app; by left).
  assert (Hfrom : forall x, x ∈ rows_of out -> exists i r, r ∈ tbls i /\ after (base_request job) p r = true /\ x = wire job bindings r).
  { intros x Hx. destruct Hpre as [rest Hrest]. assert (Hin : x ∈ wire job bindings <$> page)
      by (rewrite Hrest; apply elem_of_app; by left).
    apply list_elem_of_fmap in Hin as (r & -> & Hr). apply Hsub in Hr. exists i, r.
    split_and!; [by eapply rows_after_in| |done]. by apply list_elem_of_filter in Hr as [? _]. }
  split; [by apply carried_stop|]. intros r Hl Hall. pose proof (last_Some_elem_of _ _ Hl) as Hr.
  split; [|intros x Hx; eapply after_trans; eauto| |done].
  - eapply row_position_readable; [apply Hkeyed|]. eapply rows_after_in. by apply Hsub.
  - intros x Hin Ha Hb. rewrite Hall. apply list_elem_of_fmap_2.
    assert (Hx : x ∈ rows_after (base_request job) p (tbls i)).
    { apply list_elem_of_filter. split; [done|]. by rewrite ordered_perm. }
    rewrite Hpage in Hx. apply elem_of_app in Hx as [?|Hx]; [done|].
    apply last_Some in Hl as [l0 Hl]. rewrite Hl, <- app_assoc in Hpage. simpl in Hpage.
    rewrite <- (rows_after_row (base_request job) p (tbls i) l0 r _ (Hkeyed i) Hpage) in Hx.
    apply list_elem_of_filter in Hx as [Hx _]. congruence.
Qed.

Lemma pull_loop_live batches i st p st' err :
  readable p -> (l_cursor st, l_cursorKey st) = position_texts p ->
  pull_loop job run captureStarted (fun i req => PullRows bindings (answers i) (tbls i) req) batches i st = (st', err) ->
  exists q out, (l_cursor st', l_cursorKey st') = position_texts q /\ l_sent st' = l_sent st ++ out /\ carried p q out.
Proof.
  revert i st p. induction batches as [|batches IH]; intros i st p Hp Hx E; cbn [pull_loop] in E.
  all: assert (Hstop : forall s, l_cursor s = l_cursor st -> l_cursorKey s = l_cursorKey st -> l_sent s = l_sent st ->
      exists q out, (l_cursor s, l_cursorKey s) = position_texts q /\ l_sent s = l_sent st ++ out /\ carried p q out)
    by (intros s H3 H4 H5; exists p, []; rewrite app_nil_r, H3, H4; split_and!; [done..|];
        apply carried_stop; [done|]; intros x Hn; by apply not_elem_of_nil in Hn).
  { injection E as <- _. by apply Hstop. }
  assert (Hnr : next_request job st = at_position (base_request job) p)
    by (unfold next_request, at_position; by rewrite <- Hx).
  rewrite Hnr in E.
  destruct (PullRows _ _ _ _) as [pull|e] eqn:Hpull; [|injection E as <- _; by apply Hstop].
  destruct (pull_page bindings (answers i) (tbls i) (base_request job) p pull (Hkeyed i) Hp eq_refl Hdistinct Hcols Hpull)
    as (Hrows & _ & Hnext).
  change (page_limit (base_request job)) with pullBatchSize in *.
  set (page := take (Z.to_nat pullBatchSize) (rows_after (base_request job) p (tbls i))) in *.
  destruct (pr_Rows pull) as [|r0 rs] eqn:Hpr; [injection E as <- _; by apply Hstop|].
  rewrite Hrows in E. assert (Hlen : length (r0 :: rs) = length page) by (by rewrite Hrows, length_fmap).
  change (rq_Table (base_request job)) with (j_Table job) in E.
  destruct (landed _) as [rows|] eqn:Hland; [|injection E as <- _; by apply Hstop].
  pose proof (landed_wire job bindings [] page rows Hland) as Hwire.
  destruct (publish _ _ _ _ _ _) as [[out n] perr] eqn:Hpub.
  destruct (publish_prefix _ _ _ _ _ _ _ _ _ Hpub) as [Hpre Hall]. rewrite Hwire in Hpre, Hall.
  destruct (carried_page p i out Hp Hpre) as [Hpart Hwhole].
  destruct perr as [e|]; [injection E as <- _; by exists p, out|].
  destruct (last page) as [r|] eqn:Hlast; [|by apply last_None in Hlast; rewrite Hlast in Hlen].
  specialize (Hwhole r Hlast (Hall eq_refl)). specialize (Hnext r eq_refl).
  cbn [sent_more counted l_cursor l_cursorKey] in E.
  destruct (String.eqb (pr_NextCursor pull) (l_cursor st) && String.eqb (pr_NextCursorKey pull) (l_cursorKey st)) eqn:Hd.
  { injection E as <- _. exists (row_position (base_request job) r), out. split_and!; [|done|done]. simpl. rewrite <- Hnext. bool_props. congruence. }
  destruct (pr_HasMore pull).
  - edestruct (fun s Hs => IH (i + 1) s (row_position (base_request job) r) (ca_readable _ _ _ Hwhole) Hs) as (q & out' & Hq & Hs & Hc);
      [|exact E|]; [exact Hnext|]. exists q, (out ++ out'). cbn [moved counted sent_more l_sent] in Hs.
    split_and!; [done|by rewrite Hs, app_assoc|by eapply carried_app].
  - injection E as <- _. by exists (row_position (base_request job) r), out.
Qed.
End Live.

(** A history of runs of one sync, each of which starts where the row stands, against
    any failures of the source and the stream; its position is kept or, when the
    finish is refused, not.  A reading is what the pulls of one run found in the
    relation, which others change as they like between pulls and between runs, and
    the position the run started from. *)
Record reading (V : Type) := { rd_tables : Z -> list (gmap string V); rd_from : string * string }.
Arguments rd_tables {V}. Arguments rd_from {V}. Arguments Build_reading {V}.

Inductive sync_history {V : Type} `{ColumnValues V} (job : SyncJob) (bindings : list SourceBinding) :
    list (reading V) -> list ExternalRow -> string * string -> Prop :=
| history_start : sync_history job bindings [] [] ("", "")
| history_run past published pos tbls (stream : RowStream) (laws : RowStreamLaws) run now fin answers res sent completed
    (finished : bool) :
    sync_history job bindings past published pos ->
    pullAndLandRun (with_position job pos) run now fin (pg_live bindings answers tbls) = (res, sent, completed) ->
    sync_history job bindings (past ++ [Build_reading tbls pos]) (published ++ rows_of sent)
      (if finished then resumed (with_position job pos) res else pos).

Lemma live_run `{RowStreamLaws} {V} `{ColumnOrder V} job run now fin bindings answers (tbls : Z -> list (gmap string V)) p
    res sent completed :
  j_CursorColumn job <> "" -> j_CursorColumn job <> j_KeyColumn job ->
  (forall i, keyed (base_request job) (tbls i)) -> (forall b, b ∈ bindings -> lists_columns b) ->
  readable p ->
  pullAndLandRun (with_position job (position_texts p)) run now fin (pg_live bindings answers tbls) = (res, sent, completed) ->
  exists q, resumed (with_position job (position_texts p)) res = position_texts q /\ carried job bindings tbls p q sent.
Proof.
  intros Hcol Hne Hkeyed Hcols Hp Hrun. unfold pullAndLandRun, pg_live in Hrun.
  destruct (pull_loop _ _ _ _ _ _ _) as [st err] eqn:Hloop.
  assert (Hcc : cursor_column job = j_CursorColumn job).
  { unfold cursor_column. by rewrite (proj2 (String.eqb_neq _ _) Hcol). }
  assert (Hpc : persist_cursor (with_position job (position_texts p)) = true).
  { unfold persist_cursor. simpl. by rewrite (proj2 (String.eqb_neq _ _) Hcol). }
  destruct (pull_loop_live (with_position job (position_texts p)) run _ bindings answers tbls Hkeyed Hcols
    ltac:(change (cursor_column job <> j_KeyColumn job); congruence) _ 0
    (start_loop (with_position job (position_texts p))) p st err Hp (eq_sym (surjective_pairing _)) Hloop) as (q & out & Hq & Hs & Hc).
  destruct (finish_loop_spec _ _ _ _ _ _ _ _ _ Hrun) as (-> & (e & -> & _) & _).
  exists q. rewrite (resumed_run_result _ st e Hpc). split; [done|]. simpl in Hs. rewrite Hs. destruct Hc as [c1 c2 c3 c4]. by split.
Qed.

(** The row was in the relation at every pull of the runs from the [k]-th on. *)
Definition stood_since {V} (k : nat) (past : list (reading V)) (r : gmap string V) : Prop :=
  forall j rd i, (k <= j)%nat -> past !! j = Some rd -> r ∈ rd_tables rd i.

(** What a history left on the stream, up to position [p]. *)
Record history_carried {V} `{ColumnOrder V} (job : SyncJob) (bindings : list SourceBinding) (past : list (reading V))
    (published : list ExternalRow) (p : option (option V * V)) : Prop := {
  hc_readable : readable p;
  hc_starts k rd : past !! k = Some rd -> exists p0, readable p0 /\ rd_from rd = position_texts p0 /\
    (forall x, after (base_request job) p x = true -> after (base_request job) p0 x = true) /\
    forall r, stood_since k past r -> after (base_request job) p0 r = true -> after (base_request job) p r = false ->
      wire job bindings r ∈ published;
  hc_from x : x ∈ published -> exists rd p0 i r, rd ∈ past /\ readable p0 /\ rd_from rd = position_texts p0 /\
    r ∈ rd_tables rd i /\ after (base_request job) p0 r = true /\ x = wire job bindings r;
}.

Lemma history_carries {V} `{ColumnOrder V} job bindings (past : list (reading V)) published pos :
  j_CursorColumn job <> "" -> j_CursorColumn job <> j_KeyColumn job ->
  (forall rd i, rd ∈ past -> keyed (base_request job) (rd_tables rd i)) -> (forall b, b ∈ bindings -> lists_columns b) ->
  sync_history job bindings past published pos ->
  exists p, pos = position_texts p /\ history_carried job bindings past published p.
Proof.
  intros Hcol Hne Hkeyed Hcols Hh. induction Hh as [|past published pos tbls stream laws run now fin answers res sent completed finished _ IH Hrun].
  { exists None. split; [done|]. split; [done|done|]. intros x Hx. by apply not_elem_of_nil in Hx. }
  destruct IH as (p & -> & [Hp Hstart Hfrom]).
  { intros rd i Hrd. apply Hkeyed. apply elem_of_app. by left. }
  destruct (live_run job run now fin bindings answers tbls p res sent completed) as (q & Hq & Hc); try done.
  { intros i. apply (Hkeyed (Build_reading tbls (position_texts p)) i). apply elem_of_app. right. left. }
  destruct Hc as [Hrq Hmono Hkept Hnew].
  assert (Hnow : forall q', (forall x, after (base_request job) q' x = true -> after (base_request job) p x = true) ->
    (forall r, (forall i, r ∈ tbls i) -> after (base_request job) p r = true -> after (base_request job) q' r = false ->
       wire job bindings r ∈ rows_of sent) -> readable q' ->
    history_carried job bindings (past ++ [Build_reading tbls (position_texts p)]) (published ++ rows_of sent) q').
  { intros q' Hm Hk Hrd0. split; [done| |].
    - intros k rd Hkrd. apply lookup_app_Some in Hkrd as [Hkrd|[Hge Hkrd]].
      + pose proof (lookup_lt_Some _ _ _ Hkrd) as Hlt. destruct (Hstart k rd Hkrd) as (p0 & R0 & F0 & M0 & W0). exists p0. split_and!; [done|done|by auto|].
        intros r Hst Ha Hb. apply elem_of_app. destruct (after (base_request job) p r) eqn:Epr; [right|left].
        * apply Hk; [|done|done]. intros i. apply (Hst (length past) (Build_reading tbls (position_texts p)) i); [lia|].
          by rewrite list_lookup_middle.
        * apply W0; [|done|done]. intros j rd' i Hj Hl. apply (Hst j rd' i Hj). by apply lookup_app_l_Some.
      + destruct (k - length past)%nat eqn:Ek; [|by rewrite lookup_cons in Hkrd]. injection Hkrd as <-.
        assert (k = length past) as -> by lia.
        exists p. split_and!; [done|done|done|]. intros r Hst Ha Hb. apply elem_of_app. right. apply Hk; [|done|done].
        intros i. apply (Hst (length past) (Build_reading tbls (position_texts p)) i); [lia|]. by rewrite list_lookup_middle.
    - intros x [Hx|Hx]%elem_of_app.
      + destruct (Hfrom x Hx) as (rd & p0 & i & r & Hrd & ?). exists rd, p0, i, r. split; [apply elem_of_app; by left|done].
      + destruct (Hnew x Hx) as (i & r & Hr & Ha & ->). exists (Build_reading tbls (position_texts p)), p, i, r.
        split_and!; try done. apply elem_of_app. right. left. }
  destruct finished; [exists q|exists p]; (split; [done|]); apply Hnow; try done.
  intros r _ Ha Hb. congruence.
Qed.

(** ** One column for both ([pull_same_column]) *)

Section SameColumn.
Context {V : Type} `{ColumnOrder V}.
Context (job : SyncJob) (bindings : list SourceBinding) (tbl : list (gmap string V)).
Context (Hkey : forall r, r ∈ tbl -> exists k, r !! j_KeyColumn job = Some k).
Context (Hsame : cursor_column job = j_KeyColumn job).

(** The first page of the relation, and its rows on the wire. *)
Definition first_page : list (gmap string V) := take (Z.to_nat pullBatchSize) (ordered (base_request job) tbl).

Definition wire_same (r : gmap string V) : ExternalRow :=
  let s := scan_row (base_request job) (select (binding_for bindings (j_Table job)) r) in
  {| er_Key := r_Key s; er_Cursor := r_Cursor s; er_Data := default "" (r_Data s) |}.

Lemma landed_external rows out : landed rows = Some out ->
  external_of <$> out = (fun s => {| er_Key := r_Key s; er_Cursor := r_Cursor s; er_Data := default "" (r_Data s) |}) <$> rows.
Proof.
  revert out. induction rows as [|r rows IH]; intros out E; simpl in E; [by injection E as <-|].
  destruct (r_Data r) as [d|] eqn:Ed; [|done]. destruct (landed rows) as [o|]; [|done].
  injection E as <-. by rewrite !fmap_cons, (IH o eq_refl), Ed.
Qed.

(** Every pull is the first page; a full one is never the end. *)
Lemma loop_same_column `{RowStreamLaws} run cs answers batches i st st' err :
  l_cursor st = "" ->
  pull_loop job run cs (fun i req => PullRows bindings (answers i) tbl req) batches i st = (st', err) ->
  l_cursor st' = "" /\
  (exists out, l_sent st' = l_sent st ++ out /\
     forall x, x ∈ rows_of out -> exists r, r ∈ first_page /\ x = wire_same r) /\
  (pullBatchSize <= Z.of_nat (length tbl) -> (0 < batches)%nat \/ l_hasMore st = true -> err = None -> l_hasMore st' = true).
Proof.
  revert i st. induction batches as [|batches IH]; intros i st Hc E; cbn [pull_loop] in E.
  { injection E as <- <-. split_and!; [done| |intros _ [?|?] _; [lia|done]]. exists []. rewrite app_nil_r.
    split; [done|]. intros x Hx. by apply not_elem_of_nil in Hx. }
  assert (Hstop : forall e, e <> None -> (st, e) = (st', err) -> l_cursor st' = "" /\
    (exists out, l_sent st' = l_sent st ++ out /\
     forall x, x ∈ rows_of out -> exists r, r ∈ first_page /\ x = wire_same r) /\
    (pullBatchSize <= Z.of_nat (length tbl) -> (0 < S batches)%nat \/ l_hasMore st = true -> err = None -> l_hasMore st' = true)).
  { intros e He [= <- <-]. split_and!; [done| |done]. exists []. rewrite app_nil_r.
    split; [done|]. intros x Hx. by apply not_elem_of_nil in Hx. }
  destruct (PullRows _ _ _ _) as [pull|e] eqn:Hpull; [|by apply (Hstop (Some (PullFailed e)))].
  destruct (pull_same_column bindings (answers i) tbl (next_request job st) pull Hkey eq_refl Hsame Hc Hpull)
    as (Hrows & Hnc & Hnk & Hmore).
  change (page_limit (next_request job st)) with pullBatchSize in *.
  change (ordered (next_request job st) tbl) with (ordered (base_request job) tbl) in Hrows.
  change (rq_Table (next_request job st)) with (j_Table job) in Hrows.
  assert (Hlen : length (pr_Rows pull) = length first_page) by (by rewrite Hrows, !length_fmap).
  assert (Hfull : pullBatchSize <= Z.of_nat (length tbl) -> pr_HasMore pull = true /\ pr_Rows pull <> []).
  { intros Hbig. unfold first_page in Hlen. rewrite length_take in Hlen.
    rewrite (Permutation_length (ordered_perm (base_request job) tbl)) in Hlen.
    unfold pullBatchSize in *. split; [rewrite Hmore; apply Z.eqb_eq; lia|].
    intros Hnil. rewrite Hnil in Hlen. cbn [length] in Hlen. lia. }
  destruct (pr_Rows pull) as [|r0 rs] eqn:Hpr.
  { injection E as <- <-. split_and!; [done| |intros Hbig _ _; by destruct (Hfull Hbig)].
    exists []. rewrite app_nil_r. split; [done|]. intros x Hx. by apply not_elem_of_nil in Hx. }
  destruct (landed _) as [rows|] eqn:Hland; [|by apply (Hstop (Some EncodeRow))].
  destruct (publish _ _ _ _ _ _) as [[out n] perr] eqn:Hpub. destruct (publish_prefix _ _ _ _ _ _ _ _ _ Hpub) as [Hpre _].
  rewrite (landed_external _ _ Hland), Hrows in Hpre.
  assert (Hout : forall x, x ∈ rows_of out -> exists r, r ∈ first_page /\ x = wire_same r).
  { intros x Hx. destruct Hpre as [k Hk]. assert (Hin : x ∈ rows_of out ++ k) by (apply elem_of_app; by left).
    rewrite <- Hk in Hin. rewrite <- !list_fmap_compose in Hin.
    apply list_elem_of_fmap in Hin as (r & -> & Hr). by exists r. }
  cbn [sent_more counted l_cursor l_cursorKey] in E. destruct perr as [e|].
  { injection E as <- <-. split_and!; [done| |done]. exists out. by split. }
  destruct (String.eqb (pr_NextCursor pull) (l_cursor st) && String.eqb (pr_NextCursorKey pull) (l_cursorKey st)).
  { injection E as <- <-. split_and!; [done|exists out; by split|]. intros Hbig _ _. cbn. by destruct (Hfull Hbig). }
  destruct (pr_HasMore pull) eqn:Hm.
  - eapply IH in E as (G1 & (out' & G2 & G3) & G4); [|exact Hnc]. split_and!; [done| |].
    + exists (out ++ out'). cbn [moved counted sent_more l_sent] in G2. rewrite G2, <- app_assoc. split; [done|].
      intros x Hx. unfold rows_of in Hx. rewrite fmap_app, concat_app in Hx. apply elem_of_app in Hx as [Hx|Hx]; [by apply Hout|by apply G3].
    + intros Hbig _ He. apply G4; [done|by right|done].
  - injection E as <- <-. split_and!; [done|exists out; by split|]. intros Hbig _ _. by destruct (Hfull Hbig).
Qed.
End SameColumn.

(** ** What the completion marker counts *)

Section Counting.
Context `{RowStreamLaws} (job : SyncJob) (run : Run) (captureStarted : Z).
Context (pulls : Z -> PullRequest -> result pull_error PullResult).
Context (Hpages : forall i st pr, pulls i (next_request job st) = Ok pr -> Z.of_nat (length (pr_Rows pr)) <= pullBatchSize).
Context (Hreceipts : with_receipts run = true).

(** The counters are those of the batches on the stream. *)
Record tallied (st : loop) (bound : Z) : Prop := {
  ta_transport : l_transport st = Z.of_nat (length (l_sent st));
  ta_total : l_total st = Z.of_nat (length (rows_of (l_sent st)));
  ta_small : l_transport st <= l_total st;
  ta_bound : l_total st <= bound;
  ta_numbered k b : l_sent st !! k = Some b ->
    exists mark, b_Source b = Some mark /\ s_RunID mark = run_ID run /\ s_BatchIndex mark = Some (Z.of_nat k);
}.

Lemma landed_length rows out : landed rows = Some out -> length out = length rows.
Proof. intros E. apply landed_external in E. apply (f_equal length) in E. by rewrite !length_fmap in E. Qed.

Lemma loop_tallied batches i st bound st' :
  bound + Z.of_nat batches * pullBatchSize < two63 -> tallied st bound ->
  pull_loop job run captureStarted pulls batches i st = (st', None) ->
  tallied st' (bound + Z.of_nat batches * pullBatchSize).
Proof.
  revert i st bound. induction batches as [|batches IH]; intros i st bound Hb Ht E; cbn [pull_loop] in E.
  { injection E as <-. by rewrite Z.mul_0_l, Z.add_0_r. }
  assert (Hkeep : forall s b, tallied s b -> b <= bound + pullBatchSize -> tallied s (bound + Z.of_nat (S batches) * pullBatchSize)).
  { intros s b [h1 h2 h3 h4 h5] Hle. split; try done. unfold pullBatchSize in *. lia. }
  destruct (pulls i (next_request job st)) as [pull|] eqn:Hpull; [|done]. specialize (Hpages _ _ _ Hpull).
  destruct (pr_Rows pull) as [|r0 rs] eqn:Hpr.
  { injection E as <-. apply (Hkeep _ bound); [|unfold pullBatchSize; lia]. by destruct Ht; split. }
  destruct (landed _) as [rows|] eqn:Hland; [|done].
  pose proof (landed_length _ _ Hland) as Hll.
  unfold publish in E. rewrite Hreceipts in E.
  destruct (send_batch i _ rows) as [[out n] perr] eqn:Hsend. destruct perr as [e|]; [done|].
  destruct Ht as [h1 h2 h3 h4 h5].
  destruct (batch_prefix _ _ _ _ _ _ Hsend) as [_ Hall]. specialize (Hall eq_refl).
  destruct (batch_numbered _ _ _ _ _ _ Hsend) as (Hout & Hn & Hnum); cbn [batch_receipt ir_BatchIndex] in *;
    [lia|rewrite Nat2Z.inj_succ in Hb; unfold pullBatchSize in *; rewrite Hll; lia|]. specialize (Hn eq_refl).
  set (st1 := counted (sent_more st out n) (Z.of_nat (length (r0 :: rs))) (pr_HasMore pull)) in *.
  assert (Ht1 : tallied st1 (bound + pullBatchSize)).
  { assert (Hrows : length (rows_of out) = length rows) by (by rewrite Hall, length_fmap).
    assert (Htr : i64 (l_transport st + n) = l_transport st + n).
    { apply i64_small. unfold min_i64, max_i64, two63, pullBatchSize in *. lia. }
    split; unfold st1; cbn [counted sent_more l_transport l_total l_sent].
    - rewrite Htr, length_app. lia.
    - unfold rows_of in *. rewrite fmap_app, concat_app, length_app. lia.
    - lia.
    - lia.
    - intros k b Hk. apply lookup_app_Some in Hk as [Hk|[Hge Hk]]; [by apply h5|].
      destruct (Hnum _ _ Hk) as (mark & Hm1 & Hm2 & Hm3). exists mark. split_and!; [done|done|].
      rewrite Hm3. f_equal. lia. }
  destruct (String.eqb (pr_NextCursor pull) (l_cursor st1) && String.eqb (pr_NextCursorKey pull) (l_cursorKey st1)).
  { injection E as <-. apply (Hkeep _ (bound + pullBatchSize)); [done|lia]. }
  assert (Ht2 : tallied (moved st1 (pr_NextCursor pull) (pr_NextCursorKey pull)) (bound + pullBatchSize))
    by (by destruct Ht1; split).
  destruct (pr_HasMore pull).
  - specialize (IH _ _ (bound + pullBatchSize) ltac:(unfold pullBatchSize in *; lia) Ht2 E).
    replace (bound + Z.of_nat (S batches) * pullBatchSize) with (bound + pullBatchSize + Z.of_nat batches * pullBatchSize)
      by (unfold pullBatchSize; lia). done.
  - injection E as <-. apply (Hkeep _ (bound + pullBatchSize)); [done|lia].
Qed.
End Counting.

(** ** Properties *)

(** C12: a run over a PostgreSQL relation with distinct key and cursor columns refines
    the abstract reader: whatever fails, what it read is the next stretch of the rows in
    (cursor, key) order after the position it was given, the position it resumes from
    is that of the last of them, they were all published, in order, followed by at most
    part of the page that failed, and a run without an error read to the end of the
    relation or to its cap of 200 full pages. *)
Theorem incremental_run_refines_reader `{RowStreamLaws} {V} `{ColumnOrder V} job run now fin bindings answers
    (tbl : list (gmap string V)) p res sent completed :
  j_CursorColumn job <> "" -> j_CursorColumn job <> j_KeyColumn job ->
  keyed (base_request job) tbl -> (forall b, b ∈ bindings -> lists_columns b) ->
  readable p -> (j_Cursor job, j_CursorKey job) = position_texts p ->
  pullAndLandRun job run now fin (pg_source bindings answers tbl) = (res, sent, completed) ->
  exists l q extra, reads (base_request job) tbl p l q /\ resumed job res = position_texts q /\
    rows_of sent = (wire job bindings <$> l) ++ extra /\
    extra `prefix_of` wire job bindings <$> rows_after (base_request job) q tbl /\
    sr_Rows res = Z.of_nat (length l) /\
    (sr_Err res = None -> extra = [] /\
       (rows_after (base_request job) q tbl = [] \/
        length l = (maxBatchesPerRun * Z.to_nat pullBatchSize)%nat)).
Proof. apply run_refines. Qed.

(** C11: the position of a sync never outruns the stream, whatever others write to
    the relation.  For a sync with distinct key and cursor columns, none of which is
    edited, over any history of runs with any failures of the source and of the stream and finishes that were
    refused, where the relation may have changed before every single pull: the position
    never moves back; a row that stood unchanged in the relation at every pull since some
    run began behind it is on the stream once the position has reached or passed the row;
    and nothing is on the stream but rows as they stood, at the pull that read them,
    beyond the position their run started from.  So a row that is committed behind the
    position waits for no run: the statement says nothing for it, and the code never
    reads it. *)
Theorem cursor_never_outruns_stream {V} `{ColumnOrder V} job bindings (past : list (reading V)) published pos :
  j_CursorColumn job <> "" -> j_CursorColumn job <> j_KeyColumn job ->
  (forall rd i, rd ∈ past -> keyed (base_request job) (rd_tables rd i)) ->
  (forall b, b ∈ bindings -> lists_columns b) ->
  sync_history job bindings past published pos ->
  exists p, pos = position_texts p /\ history_carried job bindings past published p.
Proof. apply history_carries. Qed.

(** A completion marker that reached the stream expects exactly the batches and the
    rows of the run that are on it, and those batches are numbered from 0 without a gap. *)
Theorem completion_counts_what_was_sent `{RowStreamLaws} job run now fin pulls res sent receipt :
  (forall i req pr, 0 < rq_Limit req -> pulls i req = Ok pr -> Z.of_nat (length (pr_Rows pr)) <= rq_Limit req) ->
  pullAndLandRun job run now fin (Some pulls) = (res, sent, Some receipt) ->
  ir_RunID receipt = run_ID run /\ ir_ExpectedBatches receipt = Z.of_nat (length sent) /\
  ir_ExpectedRows receipt = Z.of_nat (length (rows_of sent)) /\
  forall k b, sent !! k = Some b ->
    exists mark, b_Source b = Some mark /\ s_RunID mark = ir_RunID receipt /\ s_BatchIndex mark = Some (Z.of_nat k).
Proof.
  intros Hpages Hrun. unfold pullAndLandRun in Hrun. destruct (pull_loop _ _ _ _ _ _ _) as [st err] eqn:Hloop.
  destruct (finish_loop_spec _ _ _ _ _ _ _ _ _ Hrun) as (-> & _ & Hc).
  destruct (Hc receipt eq_refl) as (-> & Hw & ->).
  assert (Ht : tallied run (start_loop job) 0) by (split; done).
  destruct (loop_tallied job run (default now (run_StartedAt run)) pulls (fun i st pr => Hpages i (next_request job st) pr eq_refl) Hw
    maxBatchesPerRun 0 (start_loop job) 0 st ltac:(vm_compute; reflexivity) Ht Hloop) as [h1 h2 _ _ h5].
  split_and!; [done..|exact h5].
Qed.

(** A sync whose cursor column is its key column never passes the first page: over
    any history every published row is one of the first 1000, and when it is so because
    no cursor column is configured, no run over 1000 rows or more is ever free of error.
    The scan reads such a column as the key only, so the position has no cursor and its
    WHERE clause selects every row again. *)
Theorem same_column_never_passes_first_page {V} `{ColumnOrder V} job bindings (tbl : list (gmap string V)) :
  (forall r, r ∈ tbl -> exists k, r !! j_KeyColumn job = Some k) -> cursor_column job = j_KeyColumn job ->
  (forall past published pos, sync_history job bindings past published pos ->
     (forall rd, rd ∈ past -> rd_tables rd = fun _ => tbl) ->
     fst pos = "" /\ forall x, x ∈ published -> exists r, r ∈ first_page job tbl /\ x = wire_same job bindings r) /\
  (j_CursorColumn job = "" -> pullBatchSize <= Z.of_nat (length tbl) ->
   forall past published pos, sync_history job bindings past published pos ->
   (forall rd, rd ∈ past -> rd_tables rd = fun _ => tbl) ->
   forall (stream : RowStream) (laws : RowStreamLaws) run now fin answers,
     sr_Err (pullAndLandRun (with_position job pos) run now fin (pg_source bindings answers tbl)).1.1 <> None).
Proof.
  intros Hkey Hsame.
  assert (Hrun : forall pos (stream : RowStream) (laws : RowStreamLaws) run now fin answers res sent completed, fst pos = "" ->
    pullAndLandRun (with_position job pos) run now fin (pg_source bindings answers tbl) = (res, sent, completed) ->
    exists st e (err : option sync_error), res = run_result (with_position job pos) st e /\ sent = l_sent st /\ l_cursor st = "" /\
      (forall x, x ∈ rows_of sent -> exists r, r ∈ first_page job tbl /\ x = wire_same job bindings r) /\
      (e = None -> err = None /\ (persist_cursor job = false -> l_hasMore st = false)) /\
      (pullBatchSize <= Z.of_nat (length tbl) -> err = None -> l_hasMore st = true)).
  { intros pos stream laws run now fin answers res sent completed Hpos E. unfold pullAndLandRun, pg_source in E.
    destruct (pull_loop _ _ _ _ _ _ _) as [st err] eqn:Hloop.
    destruct (loop_same_column (with_position job pos) bindings tbl Hkey Hsame run _ answers maxBatchesPerRun 0
      (start_loop (with_position job pos)) st err Hpos Hloop)
      as (Hcur & (out & Hs & Hout) & Hfull).
    destruct (finish_loop_spec _ _ _ _ _ _ _ _ _ E) as (-> & (e & -> & He) & _). simpl in Hs.
    exists st, e, err. rewrite Hs. split_and!; [done..|exact Hout|exact He|].
    intros Hbig. apply Hfull; [done|]. left. unfold maxBatchesPerRun. lia. }
  assert (Hhist : forall past published pos, sync_history job bindings past published pos ->
     (forall rd, rd ∈ past -> rd_tables rd = fun _ => tbl) ->
     fst pos = "" /\ forall x, x ∈ published -> exists r, r ∈ first_page job tbl /\ x = wire_same job bindings r).
  { induction 1 as [|past published pos tbls stream laws run now fin answers res sent completed finished _ IHh E]; intros Htbl.
    { split; [done|]. intros x Hx. by apply not_elem_of_nil in Hx. }
    destruct IHh as [Hpos IH]; [intros rd Hrd; apply Htbl; apply elem_of_app; by left|].
    assert (Ht : tbls = fun _ => tbl) by (apply (Htbl (Build_reading tbls pos)); apply elem_of_app; right; left).
    rewrite Ht in E.
    destruct (Hrun _ _ _ _ _ _ _ _ _ _ Hpos E) as (st & e & err & -> & -> & Hcur & Hout & _). split.
    - destruct finished; [|done]. unfold resumed, run_result. cbn [sr_AdvanceCursor sr_Cursor].
      destruct (_ && _); [done|exact Hpos].
    - intros x [Hx|Hx]%elem_of_app; [by apply IH|by apply Hout]. }
  split; [exact Hhist|]. intros Hlegacy Hbig past published pos Hist Htbl stream laws run now fin answers Hnone.
  destruct (pullAndLandRun _ _ _ _ _) as [[res sent] completed] eqn:E. cbn [fst] in Hnone.
  destruct (Hrun _ _ _ _ _ _ _ _ _ _ (proj1 (Hhist _ _ _ Hist Htbl)) E) as (st & e & err & -> & _ & _ & _ & He & Hfull).
  destruct (He Hnone) as [-> Hm]. rewrite Hfull in Hm by done. discriminate Hm. unfold persist_cursor. by rewrite Hlegacy.
Qed.

(** ** Witnesses *)

#[local] Existing Instance w_snapshot_env.

(** A column of naturals, NULL where the row has none. *)
#[local] Instance w_values : ColumnValues Z :=
  {| vlt := Z.ltb; vtext := itoa; vcast := atoi; marshal_columns := fun _ => Some "{}" |}.

#[local] Instance w_order : ColumnOrder Z.
Proof. split; simpl; intros; [apply Z.ltb_irrefl|lia|lia]. Defined.

Definition w_tbl : list (gmap string Z) :=
  [ {[ "id" := 7; "at" := 50 ]}; {[ "id" := 3; "at" := 50 ]}; {[ "id" := 9 ]} ].

Definition w_job (cursor : string) : SyncJob :=
  {| j_SyncID := "s"; j_ProjectID := "p"; j_ConnectorID := "c"; j_Table := "public.t"; j_KeyColumn := "id";
     j_CursorColumn := cursor; j_Cursor := ""; j_CursorKey := ""; j_SyncMode := "incremental";
     j_SyncRevision := 1; j_SourceRevision := 1; j_BindingDigest := None |}.

Definition w_run : Run := {| run_ID := "r"; run_StartedAt := Some 4 |}.

Definition w_calls (fails : Z -> bool) (i : Z) : broker_calls :=
  {| durable := true; observed := false; valid_json := fun _ => true; admission_fails := fun _ => false;
     publish_fails := fun _ => fails i; flush_fails := fun _ => false; observer_fails := fun _ => false |}.

Definition w_stream (fails : Z -> bool) : RowStream := queue_stream (w_calls fails) (Some 400) "p" "c" "public.t".

Definition w_answers (i : Z) : pg_answers :=
  {| pa_structure := true; pa_key := true; pa_column := fun _ => true; pa_query := true |}.

Definition w_engine_run (fails : Z -> bool) : sync_result * list ExternalRowsBatch * option IncrementalReceipt :=
  pullAndLandRun (H := w_stream fails) (w_job "at") w_run 5 6 (pg_source [] w_answers w_tbl).

Lemma w_keyed : keyed (base_request (w_job "at")) w_tbl.
Proof.
  split.
  - intros r Hr. repeat (apply elem_of_cons in Hr as [->|Hr]; [by eexists|]). by apply not_elem_of_nil in Hr.
  - intros a b k Ha Hb. repeat (apply elem_of_cons in Ha as [->|Ha]);
      [..|by apply not_elem_of_nil in Ha];
      repeat (apply elem_of_cons in Hb as [->|Hb]); try (by apply not_elem_of_nil in Hb);
      try done; vm_compute; congruence.
  - apply (bool_decide_unpack _). vm_compute. exact I.
  - intros r c v Hr Hc Hv. repeat (apply elem_of_cons in Hr as [->|Hr]); [..|by apply not_elem_of_nil in Hr];
      destruct Hc as [->| ->]; vm_compute in Hv; try discriminate Hv; injection Hv as <-; split; done.
Qed.

Lemma incremental_run_refines_reader_witness :
  exists l q extra, reads (base_request (w_job "at")) w_tbl None l q /\
    resumed (w_job "at") (w_engine_run (fun _ => false)).1.1 = position_texts q /\
    rows_of (w_engine_run (fun _ => false)).1.2 = (wire (w_job "at") [] <$> l) ++ extra /\ extra = [].
Proof.
  assert (E : w_engine_run (fun _ => false) =
    ((w_engine_run (fun _ => false)).1.1, (w_engine_run (fun _ => false)).1.2, (w_engine_run (fun _ => false)).2)).
  { by destruct (w_engine_run _) as [[??]?]. }
  destruct (incremental_run_refines_reader (H := w_stream (fun _ => false)) (w_job "at") w_run 5 6 [] w_answers w_tbl None _ _ _
    ltac:(discriminate) ltac:(discriminate) w_keyed ltac:(intros b Hb; by apply not_elem_of_nil in Hb) I eq_refl E)
    as (l & q & extra & Hr & Hq & Hs & _ & _ & Hend).
  exists l, q, extra. split_and!; [exact Hr|exact Hq|exact Hs|]. apply Hend. vm_compute. reflexivity.
Defined.

(** A row that is committed behind the position after the run that moved it. *)
Definition w_late : gmap string Z := {[ "id" := 1; "at" := 40 ]}.

Lemma w_keyed_late : keyed (base_request (w_job "at")) (w_late :: w_tbl).
Proof.
  split.
  - intros r Hr. repeat (apply elem_of_cons in Hr as [->|Hr]; [by eexists|]). by apply not_elem_of_nil in Hr.
  - intros a b k Ha Hb. repeat (apply elem_of_cons in Ha as [->|Ha]);
      [..|by apply not_elem_of_nil in Ha];
      repeat (apply elem_of_cons in Hb as [->|Hb]); try (by apply not_elem_of_nil in Hb);
      try done; vm_compute; congruence.
  - apply (bool_decide_unpack _). vm_compute. exact I.
  - intros r c v Hr Hc Hv. repeat (apply elem_of_cons in Hr as [->|Hr]); [..|by apply not_elem_of_nil in Hr];
      destruct Hc as [->| ->]; vm_compute in Hv; try discriminate Hv; injection Hv as <-; split; done.
Qed.

(** Three runs: the stream refuses the first, the second reads to the end, and the third
    finds a row more, behind its position. *)
Definition w_readings : list (reading Z) :=
  [ Build_reading (fun _ => w_tbl) ("", ""); Build_reading (fun _ => w_tbl) ("", "");
    Build_reading (fun _ => w_late :: w_tbl) ("50", "7") ].

Definition w_published : list ExternalRow := rows_of (w_engine_run (fun _ => false)).1.2.

(** The run of any of them, as one step of the history. *)
Lemma w_history_run past published pos tbls fails sent res completed pos' :
  sync_history (w_job "at") [] past published pos ->
  pullAndLandRun (H := w_stream fails) (with_position (w_job "at") pos) w_run 5 6 (pg_live [] w_answers tbls) =
    (res, sent, completed) ->
  resumed (with_position (w_job "at") pos) res = pos' ->
  sync_history (w_job "at") [] (past ++ [Build_reading tbls pos]) (published ++ rows_of sent) pos'.
Proof.
  intros Hh E <-. exact (history_run (w_job "at") [] past published pos tbls (w_stream fails) _ w_run 5 6 w_answers res sent
    completed true Hh E).
Qed.

Definition w_live (fails : Z -> bool) (pos : string * string) (tbls : Z -> list (gmap string Z)) :
    sync_result * list ExternalRowsBatch * option IncrementalReceipt :=
  pullAndLandRun (H := w_stream fails) (with_position (w_job "at") pos) w_run 5 6 (pg_live [] w_answers tbls).

Lemma w_sync_history : sync_history (w_job "at") [] w_readings w_published ("50", "7").
Proof.
  assert (H1 : sync_history (w_job "at") [] ([] ++ [Build_reading (fun _ => w_tbl) ("", "")]) [] ("", "")).
  { apply (w_history_run [] [] _ _ (fun _ => true) (w_live (fun _ => true) ("", "") (fun _ => w_tbl)).1.2
      (w_live (fun _ => true) ("", "") (fun _ => w_tbl)).1.1 (w_live (fun _ => true) ("", "") (fun _ => w_tbl)).2
      ("", "") (history_start _ _)); vm_compute; reflexivity. }
  pose proof (w_history_run _ _ _ (fun _ => w_tbl) (fun _ => false) (w_live (fun _ => false) ("", "") (fun _ => w_tbl)).1.2
      (w_live (fun _ => false) ("", "") (fun _ => w_tbl)).1.1 (w_live (fun _ => false) ("", "") (fun _ => w_tbl)).2
      ("50", "7") H1 ltac:(vm_compute; reflexivity) ltac:(vm_compute; reflexivity)) as H2.
  pose proof (w_history_run _ _ _ (fun _ => w_late :: w_tbl) (fun _ => false) []
      (w_live (fun _ => false) ("50", "7") (fun _ => w_late :: w_tbl)).1.1
      (w_live (fun _ => false) ("50", "7") (fun _ => w_late :: w_tbl)).2
      ("50", "7") H2 ltac:(vm_compute; reflexivity) ltac:(vm_compute; reflexivity)) as H3.
  change (rows_of []) with (@nil ExternalRow) in H3. rewrite app_nil_r in H3. exact H3.
Qed.

Lemma cursor_never_outruns_stream_witness :
  length w_published = 3%nat /\ existsb (fun x => String.eqb (er_Key x) "1") w_published = false /\
  exists p, ("50", "7") = position_texts p /\ history_carried (w_job "at") [] w_readings w_published p.
Proof.
  split; [vm_compute; reflexivity|]. split; [vm_compute; reflexivity|].
  apply (cursor_never_outruns_stream (w_job "at") [] w_readings w_published ("50", "7")); [discriminate|discriminate| | |].
  - intros rd i Hrd. repeat (apply elem_of_cons in Hrd as [->|Hrd]); [exact w_keyed..|exact w_keyed_late|].
    by apply not_elem_of_nil in Hrd.
  - intros b Hb. by apply not_elem_of_nil in Hb.
  - exact w_sync_history.
Defined.

Lemma completion_counts_what_was_sent_witness :
  exists receipt, (w_engine_run (fun _ => false)).2 = Some receipt /\ ir_ExpectedRows receipt = 3 /\
    ir_ExpectedBatches receipt = Z.of_nat (length (w_engine_run (fun _ => false)).1.2).
Proof.
  destruct (w_engine_run (fun _ => false)).2 as [receipt|] eqn:Er; [|vm_compute in Er; discriminate].
  assert (E : w_engine_run (fun _ => false) =
    ((w_engine_run (fun _ => false)).1.1, (w_engine_run (fun _ => false)).1.2, Some receipt)).
  { rewrite <- Er. by destruct (w_engine_run _) as [[??]?]. }
  destruct (completion_counts_what_was_sent (H := w_stream (fun _ => false)) (w_job "at") w_run 5 6
    (fun i req => PullRows [] (w_answers i) w_tbl req) _ _ _ (fun i => pull_rows_limit _ (w_answers i) _) E) as (_ & Hb & Hr & _).
  exists receipt. split_and!; [done| |exact Hb]. rewrite Hr. vm_compute. reflexivity.
Defined.

(** A thousand keys read by their key only. *)
Definition w_thousand : list (gmap string Z) := (fun k => {[ "id" := Z.of_nat k ]}) <$> seq 1 1000.

Lemma same_column_never_passes_first_page_witness :
  sr_Err (pullAndLandRun (H := w_stream (fun _ => false)) (w_job "") w_run 5 6 (pg_source [] w_answers w_thousand)).1.1 <> None.
Proof.
  apply (proj2 (same_column_never_passes_first_page (w_job "") [] w_thousand
    ltac:(intros r Hr; apply list_elem_of_fmap in Hr as (k & -> & _); by eexists) eq_refl)
    eq_refl ltac:(unfold w_thousand; rewrite length_fmap, length_seq; vm_compute; discriminate)
    [] [] ("", "") (history_start _ _) ltac:(intros rd Hrd; by apply not_elem_of_nil in Hrd)
    (w_stream (fun _ => false)) _ w_run 5 6 w_answers).
Defined.
