(* ===== verification/SnapshotControl.v ===== *)
(** * SnapshotControl: generations and their outbox in Postgres

    [internal/dataplane/store/connector_snapshots.go] and the eligibility test of
    [staging_retention.go], over the tables of [ControlPlane]: claiming a
    generation under the fence of its run, the outbox of prepared envelopes, the
    seal, and the cleanup of what is terminal.  Each operation is one transaction;
    an error leaves the tables as they were.  Clocks and generated ids are
    arguments, and so is the text [json.Marshal] gives an envelope. *)

From S2P Require Import Prelude GoStrings GoTime Duck Journal Landing SnapshotEnvelope SnapshotStore Publishing SnapshotPublishing ControlPlane ConnectorRuns.
From stdpp Require Import sorting.
Import String.
Open Scope string_scope.
Open Scope list_scope.
Open Scope Z_scope.

Inductive snapshot_error :=
| BindingUnavailable | GenerationNotFound | StaleJob | StaleLease | BindingChanged
| EnvelopeInvalid (e : envelope_error) | IdentityMismatch | NotCapturing | OutboxConflict
| NotCompletion | NotSealable | RunNotFinal | CannotYield | FailureFenced | SnapshotConstraint.

(** ** The fence of a run *)

Definition lease_window : Z := 2 * 60 * 1000000000.

Definition requireSnapshotRunFence (db : control) (runID syncID owner : string) (leaseEpoch now : Z) : bool :=
  match runs db !! runID with
  | None => false
  | Some r =>
      String.eqb (cr_SyncID r) syncID && bool_decide (cr_Status r = Running) && String.eqb (cr_Owner r) owner
      && (cr_LeaseEpoch r =? leaseEpoch) && negb (cr_CancelRequested r)
      && match cr_Heartbeat r with Some h => now - lease_window <? h | None => false end
  end.

Definition fenced (db : control) (g : SnapshotGeneration) (now : Z) : bool :=
  requireSnapshotRunFence db (g_RunID g) (g_SyncID g) (g_Owner g) (g_LeaseEpoch g) now.

(** ** Claiming *)

(** The generation with the highest sequence. *)
Definition newest : list SnapshotGeneration -> option SnapshotGeneration :=
  foldr (fun g acc => match acc with
                      | None => Some g
                      | Some h => Some (if g_GenerationSeq h <? g_GenerationSeq g then g else h)
                      end) None.

(** Live generations of the source whose run was asked to cancel. *)
Definition retire_cancelled (source : source_key) (now : Z) (db : control) : control :=
  cancel_where (fun g => bool_decide (g_source g = source)
                         && match runs db !! g_RunID g with Some r => cr_CancelRequested r | None => false end) now db.

Definition claimed_generation (g : SnapshotGeneration) (runID owner : string) (leaseEpoch : Z) : SnapshotGeneration :=
  {| g_ProjectID := g_ProjectID g; g_ConnectorID := g_ConnectorID g; g_Table := g_Table g; g_SyncID := g_SyncID g;
     g_Generation := g_Generation g; g_GenerationSeq := g_GenerationSeq g; g_BindingDigest := g_BindingDigest g;
     g_State := if bool_decide (g_State g = Yielded) then Capturing else g_State g;
     g_KeyPosition := g_KeyPosition g; g_NextBatchIndex := g_NextBatchIndex g; g_Rows := g_Rows g;
     g_CaptureStartedAt := g_CaptureStartedAt g; g_CaptureFinishedAt := g_CaptureFinishedAt g;
     g_TerminalAt := g_TerminalAt g; g_RunID := runID; g_Owner := owner; g_LeaseEpoch := leaseEpoch;
     g_SyncRevision := g_SyncRevision g; g_SourceRevision := g_SourceRevision g |}.

Definition new_generation (job : SyncJob) (digest generation : string) (seq now : Z) (runID owner : string)
    (leaseEpoch : Z) : SnapshotGeneration :=
  {| g_ProjectID := j_ProjectID job; g_ConnectorID := j_ConnectorID job; g_Table := j_Table job;
     g_SyncID := j_SyncID job; g_Generation := generation; g_GenerationSeq := seq; g_BindingDigest := digest;
     g_State := Capturing; g_KeyPosition := ""; g_NextBatchIndex := 0; g_Rows := 0; g_CaptureStartedAt := now;
     g_CaptureFinishedAt := None; g_TerminalAt := None; g_RunID := runID; g_Owner := owner;
     g_LeaseEpoch := leaseEpoch; g_SyncRevision := j_SyncRevision job; g_SourceRevision := j_SourceRevision job |}.

Definition generation_rows (db : control) : list SnapshotGeneration := snd <$> map_to_list (generations db).
Definition outbox_rows (db : control) : list SnapshotOutbox := snd <$> map_to_list (outbox db).

Definition claim_candidate (db : control) (source : source_key) : option SnapshotGeneration :=
  newest (filter (fun g => bool_decide (g_source g = source) && claimable db g = true) (generation_rows db)).

(** What the keys and the index of one live generation refuse, and BIGINT. *)
Definition generation_refused (db : control) (source : source_key) (generation : string) (seq : Z) : bool :=
  (max_i64 <? seq) || is_some (generations db !! generation)
  || existsb (fun h => bool_decide (g_source h = source) && ((g_GenerationSeq h =? seq) || live_generation (g_State h)))
       (generation_rows db).

Definition job_source (job : SyncJob) : source_key := (j_ProjectID job, j_ConnectorID job, j_Table job).

(** The configuration of the job is the one under the row locks. *)
Definition current_revisions (db : control) (job : SyncJob) : result snapshot_error unit :=
  match syncs db !! j_SyncID job, source_revisions db !! j_ConnectorID job with
  | Some cs, Some sourceRevision =>
      if negb (String.eqb (cs_ProjectID cs) (j_ProjectID job) && String.eqb (cs_ConnectorID cs) (j_ConnectorID job))
      then Err GenerationNotFound
      else if (cs_ConfigRevision cs =? j_SyncRevision job) && (sourceRevision =? j_SourceRevision job)
      then Ok tt else Err StaleJob
  | _, _ => Err GenerationNotFound
  end.

Definition binding_changed (g : SnapshotGeneration) (job : SyncJob) (digest : string) : bool :=
  negb (String.eqb (g_SyncID g) (j_SyncID job))
  || (negb (bool_decide (g_State g = Sealed))
      && negb (String.eqb (g_BindingDigest g) digest && (g_SyncRevision g =? j_SyncRevision job)
               && (g_SourceRevision g =? j_SourceRevision job))).

Definition ClaimSnapshotGeneration (db : control) (job : SyncJob) (runID owner : string) (leaseEpoch : Z)
    (newID : string) (now : Z) : result snapshot_error (SnapshotGeneration * control) :=
  match j_BindingDigest job with
  | None => Err BindingUnavailable
  | Some digest =>
      if negb (String.eqb (j_SyncMode job) "snapshot") then Err BindingUnavailable
      else
        match current_revisions db job with
        | Err e => Err e
        | Ok _ =>
            if negb (requireSnapshotRunFence db runID (j_SyncID job) owner leaseEpoch now) then Err StaleLease
            else
              let source := job_source job in
              let db := retire_cancelled source now db in
              match claim_candidate db source with
              | Some g =>
                  if binding_changed g job digest then Err BindingChanged
                  else let g' := claimed_generation g runID owner leaseEpoch in
                       Ok (g', set_generations <[g_Generation g := g']> db)
              | None =>
                  let next := match sequences db !! source with Some n => n + 1 | None => 1 end in
                  let g := new_generation job digest newID next now runID owner leaseEpoch in
                  if generation_refused db source newID next then Err SnapshotConstraint
                  else Ok (g, set_generations <[newID := g]> (set_sequences <[source := next]> db))
              end
        end
  end.

(** ** The outbox *)

Definition item_le (a b : SnapshotOutbox) : Prop :=
  ob_BatchIndex a < ob_BatchIndex b \/
  (ob_BatchIndex a = ob_BatchIndex b /\ (ob_Kind a = SnapshotKindBatch \/ ob_Kind b <> SnapshotKindBatch)).

#[export] Instance item_le_dec a b : Decision (item_le a b).
Proof. unfold item_le. apply _. Defined.

(** By index, batches before the completion. *)
Definition PendingSnapshotOutbox (db : control) (generation : string) : list SnapshotOutbox :=
  merge_sort item_le
    (filter (fun o => String.eqb (ob_Generation o) generation && negb (ob_Published o) = true) (outbox_rows db)).

Definition manifest_row (o : SnapshotOutbox) : SnapshotManifestEntry :=
  {| me_Index := ob_BatchIndex o; me_BatchID := ob_BatchID o; me_PayloadSHA256 := ob_PayloadSHA256 o;
     me_RowCount := ob_Rows o |}.

Definition published_batches (db : control) (generation : string) : list SnapshotOutbox :=
  filter (fun o => String.eqb (ob_Generation o) generation && String.eqb (ob_Kind o) SnapshotKindBatch
                   && ob_Published o = true) (outbox_rows db).

Definition sum_rows (l : list SnapshotManifestEntry) : Z := foldr (fun e n => me_RowCount e + n) 0 l.

Definition SnapshotManifest (db : control) (generation : string) : list SnapshotManifestEntry * Z :=
  let entries := manifest_row <$> merge_sort item_le (published_batches db generation) in
  (entries, sum_rows entries).

Definition SnapshotGenerationRow (db : control) (generation : string) : result snapshot_error SnapshotGeneration :=
  match generations db !! generation with Some g => Ok g | None => Err GenerationNotFound end.

(** INSERT with the conflict that returns the row as it is. *)
Definition insert_item (o : SnapshotOutbox) (db : control) : result snapshot_error (SnapshotOutbox * control) :=
  match outbox db !! ob_key o with
  | Some old => Ok (old, db)
  | None =>
      if existsb (fun x => String.eqb (ob_Generation x) (ob_Generation o) && String.eqb (ob_Kind x) (ob_Kind o)
                           && (ob_BatchIndex x =? ob_BatchIndex o)) (outbox_rows db)
      then Err SnapshotConstraint
      else Ok (o, set_outbox <[ob_key o := o]> db)
  end.

Definition marked (o : SnapshotOutbox) : SnapshotOutbox :=
  {| ob_Generation := ob_Generation o; ob_BatchID := ob_BatchID o; ob_BatchIndex := ob_BatchIndex o;
     ob_Kind := ob_Kind o; ob_Payload := ob_Payload o; ob_PayloadSHA256 := ob_PayloadSHA256 o;
     ob_LowerKey := ob_LowerKey o; ob_UpperKey := ob_UpperKey o; ob_Rows := ob_Rows o; ob_Published := true |}.

Definition advanced (g : SnapshotGeneration) (upper : string) (next rows : Z) : SnapshotGeneration :=
  {| g_ProjectID := g_ProjectID g; g_ConnectorID := g_ConnectorID g; g_Table := g_Table g; g_SyncID := g_SyncID g;
     g_Generation := g_Generation g; g_GenerationSeq := g_GenerationSeq g; g_BindingDigest := g_BindingDigest g;
     g_State := g_State g; g_KeyPosition := upper; g_NextBatchIndex := Z.max (g_NextBatchIndex g) next;
     g_Rows := g_Rows g + rows; g_CaptureStartedAt := g_CaptureStartedAt g;
     g_CaptureFinishedAt := g_CaptureFinishedAt g; g_TerminalAt := g_TerminalAt g; g_RunID := g_RunID g;
     g_Owner := g_Owner g; g_LeaseEpoch := g_LeaseEpoch g; g_SyncRevision := g_SyncRevision g;
     g_SourceRevision := g_SourceRevision g |}.

(** The index of an item is below the number of its generation's rows: the addition
    does not reach 2^63. *)
Definition MarkSnapshotOutboxPublished (db : control) (generation : string) (item : SnapshotOutbox) :
    result snapshot_error control :=
  match outbox db !! ob_key item with
  | None => Err GenerationNotFound
  | Some row =>
      if ob_Published row then Ok db
      else
        let db := set_outbox <[ob_key item := marked row]> db in
        let next := ob_BatchIndex item + 1 in
        if String.eqb (ob_Kind row) SnapshotKindBatch
        then Ok (set_generations (alter (fun g =>
               if g_NextBatchIndex g <=? next then advanced g (ob_UpperKey row) next (ob_Rows row) else g) generation) db)
        else Ok db
  end.

(** The generation as a transition of the caller's lease sees it. *)
Definition held (db : control) (g : SnapshotGeneration) (states : list generation_state) : option SnapshotGeneration :=
  match generations db !! g_Generation g with
  | None => None
  | Some row =>
      if bool_decide (g_State row ∈ states) && String.eqb (g_RunID row) (g_RunID g)
         && String.eqb (g_Owner row) (g_Owner g) && (g_LeaseEpoch row =? g_LeaseEpoch g)
      then Some row else None
  end.

Definition YieldSnapshotGeneration (db : control) (g : SnapshotGeneration) (now : Z) : result snapshot_error control :=
  if negb (fenced db g now) then Err StaleLease
  else match held db g [Capturing] with
       | None => Err CannotYield
       | Some row => Ok (set_generations <[g_Generation g := with_state row Yielded (g_TerminalAt row)]> db)
       end.

Definition FailSnapshotGeneration (db : control) (g : SnapshotGeneration) (now : Z) : result snapshot_error control :=
  if negb (fenced db g now) then Err StaleLease
  else match held db g [Capturing; Yielded] with
       | None => Err FailureFenced
       | Some row => Ok (set_generations <[g_Generation g := with_state row GenerationFailed (Some now)]> db)
       end.

Definition CancelSnapshotGeneration (db : control) (runID owner : string) (leaseEpoch now : Z) : control :=
  cancel_where (fun g => String.eqb (g_RunID g) runID && String.eqb (g_Owner g) owner && (g_LeaseEpoch g =? leaseEpoch))
    now db.

Section Envelopes.
Context `{SnapshotEnv} (marshal_envelope : SnapshotEnvelope -> string).

Definition item_batch_id (env : SnapshotEnvelope) : string :=
  if String.eqb (Kind env) SnapshotKindComplete then "complete" else BatchID env.

Definition outbox_item (g : SnapshotGeneration) (env : SnapshotEnvelope) (lowerKey upperKey : string) : SnapshotOutbox :=
  {| ob_Generation := g_Generation g; ob_BatchID := item_batch_id env; ob_BatchIndex := BatchIndex env;
     ob_Kind := Kind env; ob_Payload := marshal_envelope env; ob_PayloadSHA256 := PayloadSHA256 env;
     ob_LowerKey := lowerKey; ob_UpperKey := upperKey; ob_Rows := Z.of_nat (length (Rows env)); ob_Published := false |}.

Definition PrepareSnapshotEnvelope (db : control) (g : SnapshotGeneration) (env : SnapshotEnvelope)
    (lowerKey upperKey : string) (now : Z) : result snapshot_error (SnapshotOutbox * control) :=
  match MarshalSnapshotEnvelope marshal_envelope env with
  | Err e => Err (EnvelopeInvalid e)
  | Ok payload =>
      if negb (String.eqb (Generation env) (g_Generation g) && (GenerationSeq env =? g_GenerationSeq g)
               && String.eqb (BindingDigest env) (g_BindingDigest g)) then Err IdentityMismatch
      else if negb (fenced db g now) then Err StaleLease
      else if negb (bool_decide (g_State g = Capturing)) then Err NotCapturing
      else
        match insert_item (outbox_item g env lowerKey upperKey) db with
        | Err e => Err e
        | Ok (out, db) =>
            if negb (String.eqb (ob_Payload out) payload) || negb (String.eqb (ob_LowerKey out) lowerKey)
               || negb (String.eqb (ob_UpperKey out) upperKey)
            then Err OutboxConflict else Ok (out, db)
        end
  end.

Definition completion_item (g : SnapshotGeneration) (env : SnapshotEnvelope) : SnapshotOutbox :=
  {| ob_Generation := g_Generation g; ob_BatchID := "complete"; ob_BatchIndex := ExpectedBatches env;
     ob_Kind := SnapshotKindComplete; ob_Payload := marshal_envelope env; ob_PayloadSHA256 := "";
     ob_LowerKey := ""; ob_UpperKey := ""; ob_Rows := 0; ob_Published := false |}.

Definition sealed_row (row : SnapshotGeneration) (finished : option Z) (now : Z) : SnapshotGeneration :=
  {| g_ProjectID := g_ProjectID row; g_ConnectorID := g_ConnectorID row; g_Table := g_Table row;
     g_SyncID := g_SyncID row; g_Generation := g_Generation row; g_GenerationSeq := g_GenerationSeq row;
     g_BindingDigest := g_BindingDigest row; g_State := Sealed; g_KeyPosition := g_KeyPosition row;
     g_NextBatchIndex := g_NextBatchIndex row; g_Rows := g_Rows row; g_CaptureStartedAt := g_CaptureStartedAt row;
     g_CaptureFinishedAt := finished; g_TerminalAt := Some now; g_RunID := g_RunID row; g_Owner := g_Owner row;
     g_LeaseEpoch := g_LeaseEpoch row; g_SyncRevision := g_SyncRevision row; g_SourceRevision := g_SourceRevision row |}.

(** The originating run as the seal leaves it. *)
Definition succeeded (r : ConnectorRun) (rows now : Z) : ConnectorRun :=
  {| cr_ID := cr_ID r; cr_ProjectID := cr_ProjectID r; cr_SyncID := cr_SyncID r; cr_ConnectorID := cr_ConnectorID r;
     cr_Status := Succeeded; cr_IdempotencyKey := cr_IdempotencyKey r; cr_CancelRequested := cr_CancelRequested r;
     cr_Rows := rows; cr_Cursor := cr_Cursor r; cr_CursorKey := cr_CursorKey r; cr_Error := ""; cr_Owner := cr_Owner r;
     cr_Heartbeat := cr_Heartbeat r; cr_QueuedAt := cr_QueuedAt r; cr_StartedAt := cr_StartedAt r;
     cr_FinishedAt := Some now; cr_LeaseEpoch := cr_LeaseEpoch r |}.

Definition sync_succeeded (cs : ConnectorSync) (rows now : Z) : ConnectorSync :=
  {| cs_ConnectorID := cs_ConnectorID cs; cs_ProjectID := cs_ProjectID cs; cs_SourceTable := cs_SourceTable cs;
     cs_KeyColumn := cs_KeyColumn cs; cs_CursorColumn := cs_CursorColumn cs; cs_SyncMode := cs_SyncMode cs;
     cs_ScheduleCron := cs_ScheduleCron cs; cs_Enabled := cs_Enabled cs; cs_Cursor := cs_Cursor cs;
     cs_CursorKey := cs_CursorKey cs; cs_LastRunAt := Some now; cs_LastStatus := "ok"; cs_LastError := "";
     cs_LastRows := rows; cs_TotalRows := cs_TotalRows cs + rows; cs_LastSuccessAt := Some now;
     cs_Revision := cs_Revision cs + 1; cs_ConfigRevision := cs_ConfigRevision cs |}.

(** The run the seal finishes, if it is still the caller's. *)
Definition final_run (db : control) (g : SnapshotGeneration) : option ConnectorRun :=
  match runs db !! g_RunID g with
  | None => None
  | Some r =>
      if bool_decide (cr_Status r = Running) && String.eqb (cr_Owner r) (g_Owner g)
         && (cr_LeaseEpoch r =? g_LeaseEpoch g) && negb (cr_CancelRequested r)
      then Some r else None
  end.

Definition SealSnapshotGeneration (db : control) (g : SnapshotGeneration) (env : SnapshotEnvelope) (runRows now : Z) :
    result snapshot_error (SnapshotOutbox * control) :=
  if negb (String.eqb (Kind env) SnapshotKindComplete) then Err NotCompletion
  else match MarshalSnapshotEnvelope marshal_envelope env with
       | Err e => Err (EnvelopeInvalid e)
       | Ok payload =>
           if negb (fenced db g now) then Err StaleLease
           else match insert_item (completion_item g env) db with
                | Err e => Err e
                | Ok (out, db) =>
                    if negb (String.eqb (ob_Payload out) payload) then Err OutboxConflict
                    else match held db g [Capturing] with
                         | None => Err NotSealable
                         | Some row =>
                             let db := set_generations
                               <[g_Generation g := sealed_row row (CaptureFinishedAt env) now]> db in
                             match final_run db g with
                             | None => Err RunNotFinal
                             | Some r =>
                                 Ok (out, set_syncs (alter (fun cs => sync_succeeded cs runRows now) (g_SyncID g))
                                            (set_runs <[g_RunID g := succeeded r runRows now]> db))
                             end
                         end
                end
       end.
End Envelopes.
