(* ===== verification/StagingCleanup.v ===== *)
(** * StagingCleanup: retiring the staging of terminal generations

    [EligibleForStagingCleanup] of [internal/dataplane/store/staging_retention.go] and
    [DeleteEligibleStagingChunk] of connector_snapshots.go: one bounded deletion,
    decided under the generation's row lock in Postgres from what this store's
    DuckDB file has promoted, with the sweep's loop around it. *)

From S2P Require Import Prelude GoStrings GoTime Duck Journal SnapshotEnvelope SnapshotStore ControlPlane ConnectorRuns SnapshotControl.
Import String.
Open Scope string_scope.
Open Scope list_scope.
Open Scope Z_scope.

Definition stagingDeleteChunk : nat := Z.to_nat 50000.

Record StagingGenerationDescriptor := {
  sd_Source : source_key; sd_Generation : string; sd_GenerationSeq : Z; sd_State : generation_state;
  sd_TerminalAt : option Z; sd_Resumable : bool; sd_IsActiveOnThisStore : bool;
  sd_IsSupersededOnThisStore : bool; sd_HasUnpublishedOutbox : bool;
}.

Definition terminal (s : generation_state) : bool := negb (live_generation s).

Definition EligibleForStagingCleanup (g : StagingGenerationDescriptor) (cutoff : Z) : bool :=
  if negb (terminal (sd_State g)) then false
  else match sd_TerminalAt g with
       | None => false
       | Some t =>
           if cutoff <? t then false
           else if bool_decide (sd_State g = Sealed) && negb (sd_IsSupersededOnThisStore g) then false
           else negb (sd_Resumable g) && negb (sd_IsActiveOnThisStore g) && negb (sd_HasUnpublishedOutbox g)
       end.

Section Cleanup.
Context `{UuidEnv}.

(** The answers of the DuckDB file about a generation. *)
Definition snapshotGenerationActive (d : duckdb) (generation : string) : result duck_error bool :=
  (try g := cast_uuid generation in Ok (generation_active g d))%go.

Definition snapshotGenerationSuperseded (d : duckdb) (source : source_key) (seq : Z) : bool :=
  match snapshot_promotions d !! source with Some p => seq <? np_generation_seq p | None => false end.

(** The descriptor the transaction builds from the locked row. *)
Definition descriptor (db : control) (d : duckdb) (active : bool) (g : SnapshotGeneration) : StagingGenerationDescriptor :=
  {| sd_Source := g_source g; sd_Generation := g_Generation g; sd_GenerationSeq := g_GenerationSeq g;
     sd_State := g_State g; sd_TerminalAt := g_TerminalAt g; sd_Resumable := false; sd_IsActiveOnThisStore := active;
     sd_IsSupersededOnThisStore :=
       bool_decide (g_State g = Sealed) && snapshotGenerationSuperseded d (g_source g) (g_GenerationSeq g);
     sd_HasUnpublishedOutbox := has_unpublished db (g_Generation g) |}.

(** What is left of the outbox and the journal once a store has cleaned. *)
Definition retire_outbox (generation storeID : string) (db : control) : control :=
  set_receipts (fun r => {[(generation, storeID)]} ∪ r)
    (set_outbox (filter (fun kv : outbox_key * SnapshotOutbox => ob_Generation kv.2 <> generation)) db).

(** The recheck inside the file's own transaction. *)
Definition locally_eligible (sealed : bool) (source : source_key) (seq : Z) (g : string) (d : duckdb) : bool :=
  negb (generation_active g d) && (negb sealed || snapshotGenerationSuperseded d source seq).

(** Rows deleted, whether the sweep may go on, and the two databases.  The first
    questions see the file as [seen], the deletion as [d]; [io] is a fault of the
    file, [commit] whether the Postgres transaction commits. *)
Definition DeleteEligibleStagingChunk (io commit : bool) (storeID : string) (db : control) (seen d : duckdb)
    (generation : string) (cutoff : Z) (limit : nat) : result duck_error (nat * bool) * control * duckdb :=
  if Nat.eqb limit 0 then (Ok (O, false), db, d)
  else
    match generations db !! generation with
    | None => (Ok (O, false), db, d)
    | Some g =>
        match snapshotGenerationActive seen generation, cast_uuid generation with
        | Err e, _ | _, Err e => (Err e, db, d)
        | Ok active, Ok gid =>
            if negb (EligibleForStagingCleanup (descriptor db seen active g) cutoff) then (Ok (O, false), db, d)
            else if bool_decide (gid ∈ snapshot_cleanup seen) then
              if commit then (Ok (O, true), retire_outbox generation storeID db, d) else (Err ErrIO, db, d)
            else
              let sealed := bool_decide (g_State g = Sealed) in
              let '(d', err) := deleteSnapshotStagingChunk io sealed (g_source g) (g_GenerationSeq g) generation limit d in
              match err with
              | Some e => (Err e, db, d')
              | None =>
                  if negb (locally_eligible sealed (g_source g) (g_GenerationSeq g) gid d) then (Ok (O, false), db, d')
                  else
                    let deleted := Nat.min limit (length (rows_of_generation gid d)) in
                    let more := match rows_of_generation gid d' with [] => false | _ => true end in
                    if commit
                    then (Ok (deleted, true), if more then db else retire_outbox generation storeID db, d')
                    else (Err ErrIO, db, d')
              end
        end
    end.
End Cleanup.
