(* ===== verification/SnapshotCapture.v ===== *)
(** * SnapshotCapture: capturing a snapshot over the durable stream

    [pullAndLandSnapshot] of [internal/dataplane/connector/engine.go] as a worker that
    makes one call per step, and the system of all workers over the tables of
    [ControlPlane]: runs are enqueued, claimed, cancelled, fenced and finished by
    anyone at any time, a worker may stop for ever between two calls, and a call
    may be carried out although its caller sees an error.

    The source is arbitrary: each pull answers a page or an error.  JSON text of an
    envelope is [marshal_envelope], which [ParseSnapshotEnvelope] reads back. *)

From S2P Require Import Prelude GoStrings GoTime Duck Journal Landing SnapshotEnvelope SnapshotStore Settler Publishing SnapshotPublishing PgSource ControlPlane ConnectorRuns SnapshotControl StagingCleanup Engine.
From stdpp Require Import sorting.
Import String.
Open Scope string_scope.
Open Scope list_scope.
Open Scope Z_scope.

(** What the code relies on of JSON: a valid envelope reads back as it was. *)
Class EnvelopeCodec `{SnapshotEnv} `{WireEnv} := {
  marshal_envelope : SnapshotEnvelope -> string;
  parse_marshal e : Validate e = None -> ParseSnapshotEnvelope (marshal_envelope e) = Some e;
}.

(** ** One worker *)

(** A call fails before it does anything, is carried out without an answer, or answers. *)
Inductive call_outcome := CallFailed | CallLost | CallAnswered.

Inductive key_check := KeyValid | KeyInvalidated | KeyCheckFailed.

(** What the outside answers to one step. *)
Record answers := {
  an_call : call_outcome; an_now : Z; an_newID : string; an_open : bool; an_key : key_check;
  an_pull : result pull_error PullResult; an_broker : broker_calls; an_maxPayload : option Z;
}.

Inductive capture_error :=
| StoreError (e : snapshot_error) | CallError | OutboxUnreadable | PublishRefused (e : snapshot_publish_error)
| SourceDenied | KeyRejected | PullRefused (e : pull_error) | NoProgress | RowNotEncoded | BuildRefused
| NoManifest.

Record capture_result := { cp_Rows : Z; cp_Err : option capture_error; cp_Finalized : bool }.

(** A page being stored: the turn of the pull loop, the rows at the start, the key
    before the page, the lower key of the next batch, the batches left, and what
    the pull said comes next. *)
Record page := {
  pg_turn : nat; pg_prev : string; pg_lower : string; pg_left : list SnapshotEnvelope;
  pg_nextKey : string; pg_more : bool;
}.

(** Where a worker stands in the code; [own] is the drain after its own seal. *)
Inductive point :=
| Listing (own : bool)
| Draining (own : bool) (todo : list SnapshotOutbox)
| DrainMarking (own : bool) (item : SnapshotOutbox) (todo : list SnapshotOutbox)
| DrainReading (own : bool)
| Opening
| Pulling (turn : nat)
| Preparing (p : page)
| PublishingBatch (p : page) (env : SnapshotEnvelope) (item : SnapshotOutbox)
| Marking (p : page) (item : SnapshotOutbox)
| Refreshing (p : page) (item : SnapshotOutbox)
| Yielding
| Validating
| ReadingManifest
| Sealing (entries : list SnapshotManifestEntry) (total : Z)
| Failing (e : capture_error).

Inductive phase :=
| Claiming
| At (g : SnapshotGeneration) (startRows : Z) (p : point)
| Finished (res : capture_result).

Record worker := { w_job : SyncJob; w_run : string; w_owner : string; w_epoch : Z; w_phase : phase }.

Definition at_phase (w : worker) (p : phase) : worker :=
  {| w_job := w_job w; w_run := w_run w; w_owner := w_owner w; w_epoch := w_epoch w; w_phase := p |}.

Section Worker.
Context `{EnvelopeCodec}.

Definition stop (g : SnapshotGeneration) (start : Z) (e : capture_error) : phase :=
  Finished {| cp_Rows := g_Rows g - start; cp_Err := Some e; cp_Finalized := false |}.

(** One call of the store: its answer, or the worker's end. *)
Definition call {A} (a : answers) (db : control) (op : result snapshot_error (A * control))
    (fail : capture_error -> phase) (k : A -> phase) : phase * control :=
  match an_call a, op with
  | CallFailed, _ => (fail CallError, db)
  | _, Err e => (fail (StoreError e), db)
  | CallLost, Ok (_, db') => (fail CallError, db')
  | CallAnswered, Ok (x, db') => (k x, db')
  end.

Definition with_unit (r : result snapshot_error control) : result snapshot_error (unit * control) :=
  match r with Ok db => Ok (tt, db) | Err e => Err e end.

Definition read {A} (db : control) (r : result snapshot_error A) : result snapshot_error (A * control) :=
  match r with Ok x => Ok (x, db) | Err e => Err e end.

Definition common_envelope (w : worker) (g : SnapshotGeneration) : SnapshotEnvelope :=
  {| Protocol := SnapshotProtocolV1; ProjectID := j_ProjectID (w_job w); ConnectorID := j_ConnectorID (w_job w);
     Table := j_Table (w_job w); SyncID := j_SyncID (w_job w); Generation := g_Generation g;
     GenerationSeq := g_GenerationSeq g; BindingDigest := g_BindingDigest g;
     CaptureStartedAt := g_CaptureStartedAt g; Kind := ""; RunID := w_run w; BatchID := ""; BatchIndex := 0;
     PayloadSHA256 := ""; CaptureFinishedAt := None; Rows := []; ExpectedBatches := 0; ExpectedRows := 0;
     BatchManifestSHA256 := "" |}.

Definition complete_envelope (w : worker) (g : SnapshotGeneration) (finished batches rows : Z) (manifest : string) :
    SnapshotEnvelope :=
  {| Protocol := SnapshotProtocolV1; ProjectID := j_ProjectID (w_job w); ConnectorID := j_ConnectorID (w_job w);
     Table := j_Table (w_job w); SyncID := j_SyncID (w_job w); Generation := g_Generation g;
     GenerationSeq := g_GenerationSeq g; BindingDigest := g_BindingDigest g;
     CaptureStartedAt := g_CaptureStartedAt g; Kind := SnapshotKindComplete; RunID := w_run w; BatchID := "";
     BatchIndex := 0; PayloadSHA256 := ""; CaptureFinishedAt := Some finished; Rows := [];
     ExpectedBatches := batches; ExpectedRows := rows; BatchManifestSHA256 := manifest |}.

(** The rows of a page as they are landed; the cursor is empty. *)
Definition landed_keys (rows : list Row) : option (list LandedRow) :=
  map (fun r => {| lr_Key := lr_Key r; lr_Cursor := ""; lr_DataJSON := lr_DataJSON r |}) <$> landed rows.

Definition upper_key (env : SnapshotEnvelope) : string :=
  match last (Rows env) with Some r => sr_Key r | None => "" end.

(** After the loop: yield, or validate again and seal. *)
Definition after_loop (g : SnapshotGeneration) (start : Z) (more : bool) : phase :=
  At g start (if more then Yielding else Validating).

(** The test at the end of a turn. *)
Definition turn_over (g : SnapshotGeneration) (start : Z) (p : page) : phase :=
  if String.eqb (pg_nextKey p) "" || (String.eqb (pg_nextKey p) (pg_prev p) && pg_more p)
  then At g start (Failing NoProgress)
  else if negb (pg_more p) then after_loop g start false
  else match pg_turn p with O => after_loop g start true | S n => At g start (Pulling n) end.

Definition next_batch (g : SnapshotGeneration) (start : Z) (p : page) : phase :=
  match pg_left p with [] => turn_over g start p | _ => At g start (Preparing p) end.

(** [n] turns of the pull loop are left after this one. *)
Definition pulled (a : answers) (w : worker) (g : SnapshotGeneration) (start : Z) (n : nat) : phase :=
  match an_pull a with
  | Err e => stop g start (PullRefused e)
  | Ok pull =>
      match pr_Rows pull with
      | [] => if pr_HasMore pull then At g start (Failing NoProgress) else after_loop g start false
      | rows =>
          match landed_keys rows with
          | None => stop g start RowNotEncoded
          | Some lands =>
              match BuildSnapshotBatches marshal_envelope (an_broker a) (an_maxPayload a) (common_envelope w g) lands
                      (g_NextBatchIndex g) with
              | Some (Ok envs) =>
                  next_batch g start {| pg_turn := n; pg_prev := g_KeyPosition g; pg_lower := g_KeyPosition g;
                                        pg_left := envs; pg_nextKey := pr_NextCursorKey pull;
                                        pg_more := pr_HasMore pull |}
              | _ => stop g start BuildRefused
              end
          end
      end
  end.

Definition drained (own : bool) (g : SnapshotGeneration) (start : Z) : phase :=
  if own then Finished {| cp_Rows := g_Rows g - start; cp_Err := None; cp_Finalized := true |}
  else if bool_decide (g_State g = Sealed)
  then Finished {| cp_Rows := 0; cp_Err := None; cp_Finalized := false |}
  else At g (g_Rows g) Opening.

(** A drain that fails; after the own seal the run stays finalized. *)
Definition drain_failed (own : bool) (rows start : Z) (e : capture_error) : phase :=
  Finished {| cp_Rows := if own then rows - start else 0; cp_Err := Some e; cp_Finalized := own |}.

(** A failed read of the generation leaves the zero generation in its variable. *)
Definition reread_failed (start : Z) (e : capture_error) : phase :=
  Finished {| cp_Rows := 0 - start; cp_Err := Some e; cp_Finalized := false |}.

Definition sent : Type := option SnapshotEnvelope.

Definition accepted (env : SnapshotEnvelope) (out : option (string * string)) : sent :=
  match out with Some _ => Some env | None => None end.

(** One step of a worker past its claim: where it stands, the tables, and the message
    that reached the stream. *)
Definition work_at (a : answers) (w : worker) (g : SnapshotGeneration) (start : Z) (p : point) (db : control) :
    phase * control * sent :=
  match p with
  | Listing own =>
      (call a db (read db (Ok (PendingSnapshotOutbox db (g_Generation g)))) (drain_failed own (g_Rows g) start)
         (fun items => At g start (match items with [] => DrainReading own | _ => Draining own items end)), None)
  | Draining own [] => (At g start (DrainReading own), db, None)
  | Draining own (item :: todo) =>
      match ParseSnapshotEnvelope (ob_Payload item) with
      | None => (drain_failed own (g_Rows g) start OutboxUnreadable, db, None)
      | Some env =>
          match PublishSnapshotEnvelope marshal_envelope (an_broker a) 0 env with
          | (out, Some e) => (drain_failed own (g_Rows g) start (PublishRefused e), db, accepted env out)
          | (out, None) => (At g start (DrainMarking own item todo), db, accepted env out)
          end
      end
  | DrainMarking own item todo =>
      (call a db (with_unit (MarkSnapshotOutboxPublished db (g_Generation g) item)) (drain_failed own (g_Rows g) start)
         (fun _ => At g start (match todo with [] => DrainReading own | _ => Draining own todo end)), None)
  | DrainReading own =>
      (call a db (read db (SnapshotGenerationRow db (g_Generation g))) (drain_failed own 0 start)
         (fun g => drained own g start), None)
  | Opening =>
      (if negb (an_open a) then stop g start SourceDenied
       else match an_key a with
            | KeyValid => At g start (Pulling (pred maxBatchesPerRun))
            | KeyInvalidated => At g start (Failing KeyRejected)
            | KeyCheckFailed => stop g start KeyRejected
            end, db, None)
  | Pulling n => (pulled a w g start n, db, None)
  | Preparing p =>
      match pg_left p with
      | [] => (turn_over g start p, db, None)
      | env :: rest =>
          let p' := {| pg_turn := pg_turn p; pg_prev := pg_prev p; pg_lower := pg_lower p; pg_left := rest;
                       pg_nextKey := pg_nextKey p; pg_more := pg_more p |} in
          (call a db (PrepareSnapshotEnvelope marshal_envelope db g env (pg_lower p) (upper_key env) (an_now a))
             (stop g start) (fun item => At g start (PublishingBatch p' env item)), None)
      end
  | PublishingBatch p env item =>
      match PublishSnapshotEnvelope marshal_envelope (an_broker a) 0 env with
      | (out, Some e) => (stop g start (PublishRefused e), db, accepted env out)
      | (out, None) => (At g start (Marking p item), db, accepted env out)
      end
  | Marking p item =>
      (call a db (with_unit (MarkSnapshotOutboxPublished db (g_Generation g) item)) (stop g start)
         (fun _ => At g start (Refreshing p item)), None)
  | Refreshing p item =>
      (call a db (read db (SnapshotGenerationRow db (g_Generation g))) (reread_failed start)
         (fun g => next_batch g start
            {| pg_turn := pg_turn p; pg_prev := pg_prev p; pg_lower := ob_UpperKey item; pg_left := pg_left p;
               pg_nextKey := pg_nextKey p; pg_more := pg_more p |}), None)
  | Yielding =>
      (call a db (with_unit (YieldSnapshotGeneration db g (an_now a))) (stop g start)
         (fun _ => Finished {| cp_Rows := g_Rows g - start; cp_Err := None; cp_Finalized := false |}), None)
  | Validating =>
      (match an_key a with
       | KeyValid => At g start ReadingManifest
       | KeyInvalidated => At g start (Failing KeyRejected)
       | KeyCheckFailed => stop g start KeyRejected
       end, db, None)
  | ReadingManifest =>
      (call a db (read db (Ok (SnapshotManifest db (g_Generation g)))) (stop g start)
         (fun m => At g start (Sealing (fst m) (snd m))), None)
  | Sealing entries total =>
      match SnapshotManifestDigest entries with
      | None => (stop g start NoManifest, db, None)
      | Some manifest =>
          (call a db (SealSnapshotGeneration marshal_envelope db g
                        (complete_envelope w g (an_now a) (Z.of_nat (length entries)) total manifest)
                        (g_Rows g - start) (an_now a))
             (stop g start)
             (fun _ => At (with_state g Sealed (g_TerminalAt g)) start (Listing true)), None)
      end
  | Failing e =>
      (call a db (with_unit (FailSnapshotGeneration db g (an_now a))) (fun _ => stop g start e) (fun _ => stop g start e), None)
  end.

Definition work (a : answers) (w : worker) (db : control) : worker * control * sent :=
  match w_phase w with
  | Finished _ => (w, db, None)
  | Claiming =>
      let '(p, db') :=
        call a db (ClaimSnapshotGeneration db (w_job w) (w_run w) (w_owner w) (w_epoch w) (an_newID a) (an_now a))
          (fun e => Finished {| cp_Rows := 0; cp_Err := Some e; cp_Finalized := false |})
          (fun g => At g (g_Rows g) (Listing false)) in
      (at_phase w p, db', None)
  | At g start p =>
      let '(ph, db', out) := work_at a w g start p db in (at_phase w ph, db', out)
  end.

(** ** The system *)

Record system := { tables : control; workers : gmap string worker; stream : list SnapshotEnvelope }.

Definition opt_list (o : sent) : list SnapshotEnvelope := match o with Some e => [e] | None => [] end.

(** A worker starts when its claim of a run answers; its job is that of the run's
    sync.  A generation is cancelled for a run whose row carries the flag.
    [careful] says when a worker may take its step. *)
Inductive system_step `{UuidEnv} (key_fits : string -> bool) (careful : worker -> control -> Prop) : system -> system -> Prop :=
| sys_control s db' :
    control_step key_fits (tables s) db' ->
    system_step key_fits careful s {| tables := db'; workers := workers s; stream := stream s |}
| sys_start s id owner now job r db' :
    ClaimConnectorRun (tables s) id owner now = (Some r, db') -> j_SyncID job = cr_SyncID r ->
    system_step key_fits careful s
      {| tables := db';
         workers := <[id := {| w_job := job; w_run := id; w_owner := owner; w_epoch := cr_LeaseEpoch r;
                               w_phase := Claiming |}]> (workers s);
         stream := stream s |}
| sys_work s id w a w' db' out :
    workers s !! id = Some w -> careful w (tables s) -> work a w (tables s) = (w', db', out) ->
    system_step key_fits careful s
      {| tables := db'; workers := <[id := w']> (workers s); stream := stream s ++ opt_list out |}
| sys_die s id :
    system_step key_fits careful s {| tables := tables s; workers := delete id (workers s); stream := stream s |}
| sys_cancel s id owner epoch now r :
    runs (tables s) !! id = Some r -> cr_CancelRequested r = true ->
    system_step key_fits careful s
      {| tables := CancelSnapshotGeneration (tables s) id owner epoch now; workers := workers s; stream := stream s |}
| sys_rotate s connectorID revision :
    system_step key_fits careful s
      {| tables := set_source_revisions <[connectorID := revision]> (tables s); workers := workers s; stream := stream s |}
| sys_clean s io commit storeID seen d generation cutoff limit r db' d' :
    DeleteEligibleStagingChunk io commit storeID (tables s) seen d generation cutoff limit = (r, db', d') ->
    system_step key_fits careful s {| tables := db'; workers := workers s; stream := stream s |}.

(** The program as it is. *)
Definition anytime (w : worker) (db : control) : Prop := True.

(** A worker reads its generation again only while no other run has claimed it: the
    row it reads carries the lease its later calls are fenced with. *)
Definition own_rereads (w : worker) (db : control) : Prop :=
  match w_phase w with
  | At g _ (DrainReading _) | At g _ (Refreshing _ _) =>
      forall row, generations db !! g_Generation g = Some row -> g_RunID row = w_run w
  | _ => True
  end.

(** No run, no generation, no worker. *)
Definition no_captures (s : system) : Prop :=
  no_runs (tables s) /\ generations (tables s) = ∅ /\ outbox (tables s) = ∅ /\ workers s = ∅ /\ stream s = [].
End Worker.
