(* ===== verification/CaptureInvariant.v ===== *)
(** * CaptureInvariant: what every history of captures keeps

    The invariant of the system of [SnapshotCapture].  A generation has a trail: the
    envelopes its outbox ever held, in order, and its completion if it was sealed.
    The trail only grows; the tables, the stream and every worker agree with it.
    The proof is rely-guarantee: one lemma says what each transaction does to the
    trail, and one that a worker's knowledge survives what the others may do while
    its run holds the lease. *)

From S2P Require Import Prelude GoStrings GoTime Duck Journal Landing SnapshotEnvelope SnapshotStore Settler Publishing SnapshotPublishing PgSource ControlPlane ConnectorRuns SnapshotControl StagingCleanup Engine SnapshotCapture.
From stdpp Require Import sorting.
Import String.
Open Scope string_scope.
Open Scope list_scope.
Open Scope Z_scope.

#[local] Set Default Proof Using "Type*".

(** ** Runs and leases *)

(** A run whose lease can be good. *)
Definition holding (db : control) (id : string) : bool :=
  match runs db !! id with
  | Some r => bool_decide (cr_Status r = Running) && negb (cr_CancelRequested r)
  | None => false
  end.

(** Runs evolve; a new one is queued. *)
Record run_frame (db db' : control) : Prop := {
  rf_forth id r : runs db !! id = Some r -> exists r', runs db' !! id = Some r' /\ evolves r r';
  rf_back id r' : runs db' !! id = Some r' -> cr_Status r' <> Queued -> exists r, runs db !! id = Some r /\ evolves r r';
}.

Definition started (db : control) (id : string) : Prop := exists r, runs db !! id = Some r /\ cr_Status r <> Queued.

Lemma run_frame_same db db' : runs db' = runs db -> run_frame db db'.
Proof. intros E. split; intros id r; rewrite E; intros Hr; [|intros _]; exists r; split; try done; apply evolves_refl. Qed.

Lemma evolution_run_frame db db' : evolution db db' -> run_frame db db'.
Proof. intros He. split; intros id r Hr; [by eapply evolution_forth|intros _; by eapply evolution_back]. Qed.

Lemma started_forth db db' id : run_frame db db' -> started db id -> started db' id.
Proof.
  intros Hf (r & Hr & Hq). destruct (rf_forth _ _ Hf id r Hr) as (r' & Hr' & E). exists r'. split; [done|].
  by apply (ev_claimed _ _ E).
Qed.

Lemma holding_back db db' id : run_frame db db' -> started db id -> holding db' id = true -> holding db id = true.
Proof.
  intros Hf (r & Hr & Hq) Hh. unfold holding in *. destruct (rf_forth _ _ Hf id r Hr) as (r' & Hr' & E).
  rewrite Hr' in Hh. rewrite Hr. bool_props.
  assert (Ha : active r = true) by (apply (ev_active _ _ E); by rewrite (status_active r' Running)).
  destruct (cr_CancelRequested r) eqn:Hc; [pose proof (ev_cancel _ _ E Hc); congruence|].
  unfold active in Ha. by destruct (cr_Status r).
Qed.

Lemma holding_run db id : holding db id = true -> exists r, runs db !! id = Some r /\ cr_Status r = Running /\ cr_CancelRequested r = false.
Proof.
  unfold holding. destruct (runs db !! id) as [r|]; [|done]. intros Hh. bool_props. by exists r.
Qed.

(** What a transaction that captures nothing does: it may cancel live generations of
    runs that hold no lease any more. *)
Definition cancelled_row (db' : control) (g g' : SnapshotGeneration) : Prop :=
  live_generation (g_State g) = true /\ holding db' (g_RunID g) = false /\
  exists now, g' = with_state g GenerationCancelled (Some now).

Record quiet (db db' : control) : Prop := {
  qt_runs : run_frame db db';
  qt_wf : wf db -> wf db';
  qt_outbox : outbox db' = outbox db;
  qt_sequences : sequences db' = sequences db;
  qt_generations gid : option_Forall2 (fun g g' => g' = g \/ cancelled_row db' g g') (generations db !! gid) (generations db' !! gid);
}.

Lemma same_generations db db' gid :
  generations db' = generations db ->
  option_Forall2 (fun g g' => g' = g \/ cancelled_row db' g g') (generations db !! gid) (generations db' !! gid).
Proof. intros ->. destruct (generations db !! gid); constructor. by left. Qed.

Lemma cancel_where_quiet db p now :
  (forall g, p g = true -> holding db (g_RunID g) = false) -> quiet db (cancel_where p now db).
Proof.
  intros Hp. split; [by apply run_frame_same| |done|done|].
  - intros Hw. by destruct Hw; split.
  - intros gid. unfold cancel_where. simpl. rewrite lookup_fmap. destruct (generations db !! gid) as [g|]; simpl; constructor.
    destruct (live_generation (g_State g) && p g) eqn:E; [|by left]. bool_props. right. split_and!; [done|by apply Hp|by exists now].
Qed.

Lemma quiet_refl db : quiet db db.
Proof. split; [by apply run_frame_same|done..|]. intros gid. by apply same_generations. Qed.

Lemma holding_same db db' id : runs db' = runs db -> holding db' id = holding db id.
Proof. unfold holding. by intros ->. Qed.

Lemma quiet_then_runs db1 db2 db3 :
  quiet db1 db2 -> (wf db2 -> wf db3) -> runs db3 = runs db2 -> generations db3 = generations db2 ->
  outbox db3 = outbox db2 -> sequences db3 = sequences db2 -> quiet db1 db3.
Proof.
  intros [[f b] w o s g] Hw Hr Hg Ho Hs. split; [|by auto|congruence..|].
  - split; rewrite Hr; [apply f|apply b].
  - intros gid. rewrite Hg. specialize (g gid). inversion g as [x y Hxy Hx Hy|Hx Hy]; constructor.
    destruct Hxy as [->|(h1 & h2 & h3)]; [by left|right]. split_and!; [done| |done]. by rewrite (holding_same db2).
Qed.

Lemma evolution_quiet db db' :
  evolution db db' -> generations db' = generations db -> outbox db' = outbox db -> sequences db' = sequences db ->
  quiet db db'.
Proof.
  intros He Hg Ho Hs. split; [by apply evolution_run_frame|by apply evolution_wf|done|done|].
  intros gid. by apply same_generations.
Qed.

Lemma enqueue_quiet key_fits db p s k id now r new db' :
  EnqueueConnectorRun key_fits db p s k id now = Ok (r, new, db') -> quiet db db'.
Proof.
  intros E. assert (Hw : wf db -> wf db') by (intros Hw; apply (kp_wf _ _ (enqueue_keeps _ _ _ _ _ _ _ _ _ _ Hw E))).
  unfold EnqueueConnectorRun in E. destruct (syncs db !! s) as [cs|]; [|done].
  destruct (negb _); [done|]. destruct (if String.eqb k "" then None else _); [injection E as _ _ <-; apply quiet_refl|].
  assert (Hsame : forall db', runs db' = runs db -> generations db' = generations db -> outbox db' = outbox db ->
    sequences db' = sequences db -> (wf db -> wf db') -> quiet db db').
  { intros x Hr Hg Ho Hq Hx. split; [by apply run_frame_same|done..|]. intros gid. by apply same_generations. }
  destruct (find_run (active_of p s) db) as [live|].
  - destruct (String.eqb k ""); [injection E as _ _ <-; apply quiet_refl|]. destruct (key_fits k); [|done].
    injection E as _ _ <-. by apply Hsame.
  - case_bool_decide; [done|]. destruct (negb (cs_Enabled cs)); [done|]. cbv zeta in E.
    destruct (negb (key_fits k)); [done|]. destruct (violates _ db) eqn:Hv; [done|]. injection E as _ _ <-.
    unfold violates in Hv. bool_props. simpl in *. split; [|done..|].
    + split; intros i x Hi; simpl in Hi |- *.
      * destruct (decide (i = id)) as [->|Hne]; [rewrite Hi in *; done|]. rewrite lookup_insert_ne by done.
        exists x. split; [done|apply evolves_refl].
      * intros Hq. destruct (decide (i = id)) as [->|Hne].
        { rewrite lookup_insert_eq in Hi. by injection Hi as <-. }
        rewrite lookup_insert_ne in Hi by done. exists x. split; [done|apply evolves_refl].
    + intros gid. by apply same_generations.
Qed.

Lemma finish_quiet db id s owner res cancelled now db' :
  FinishConnectorRun db id s owner res cancelled now = Ok db' -> quiet db db'.
Proof.
  intros E. pose proof (finish_evolution _ _ _ _ _ _ _ _ E) as He. unfold FinishConnectorRun in E.
  destruct (runs db !! id) as [r|] eqn:Hr; [|done]. destruct (negb _); [done|]. cbv zeta in E. injection E as <-.
  destruct (cr_CancelRequested r) eqn:Hc; [|by apply evolution_quiet].
  split; [by apply evolution_run_frame|by apply evolution_wf|done|done|].
  intros gid. cbn [set_syncs cancel_generations cancel_where set_generations generations set_runs]. rewrite lookup_fmap.
  destruct (generations db !! gid) as [g|]; simpl; constructor.
  destruct (live_generation (g_State g) && _) eqn:Eg; [|by left]. bool_props. right. split_and!; [done| |by exists now].
  unfold holding. simpl. replace (g_RunID g) with id by done. by rewrite lookup_insert_eq.
Qed.

Lemma cancel_quiet db p id now r db' :
  CancelConnectorRun db p id now = Ok (r, db') -> quiet db db'.
Proof.
  intros E. pose proof (cancel_evolution _ _ _ _ _ _ E) as He. unfold CancelConnectorRun in E.
  destruct (ConnectorRunForProject db p id) as [x|]; [|done]. destruct (active x && _); [|injection E as _ <-; apply quiet_refl].
  cbv zeta in E. injection E as _ <-. split; [by apply evolution_run_frame|by apply evolution_wf|done|done|].
  intros gid. cbn [cancel_generations cancel_where set_generations generations set_runs]. rewrite lookup_fmap.
  destruct (generations db !! gid) as [g|]; simpl; constructor.
  destruct (live_generation (g_State g) && _) eqn:Eg; [|by left]. bool_props. right. split_and!; [done| |by exists now].
  unfold holding. simpl. replace (g_RunID g) with id by done. rewrite lookup_insert_eq.
  case_bool_decide; simpl; [done|]. by rewrite andb_false_r.
Qed.

Lemma control_step_quiet key_fits db db' : control_step key_fits db db' -> quiet db db'.
Proof.
  destruct 1 as [db p s k id now r new db' E|db id owner now r db' E|db id now c s db' E|db id s owner res cancelled now db' E
    |db p id now r db' E|db before now n db' E|db ok p s i db' E|db p s e rev db' E].
  - by eapply enqueue_quiet.
  - apply evolution_quiet; [by eapply claim_evolution|..]; unfold ClaimConnectorRun in E;
      repeat (case_match; simplify_eq; try done).
  - apply evolution_quiet; [by eapply heartbeat_evolution|..]; unfold HeartbeatConnectorRun in E;
      repeat (case_match; simplify_eq; try done).
  - by eapply finish_quiet.
  - by eapply cancel_quiet.
  - apply evolution_quiet; [by eapply reconcile_evolution|..]; by injection E as _ <-.
  - apply evolution_quiet; [by eapply update_evolution|..]; unfold UpdateConnectorSync in E;
      repeat (case_match; simplify_eq; try done).
  - apply evolution_quiet; [by eapply enabled_evolution|..]; unfold setConnectorSyncEnabled in E;
      repeat (case_match; simplify_eq; try done).
Qed.

Lemma flagged_quiet db id owner epoch now r :
  runs db !! id = Some r -> cr_CancelRequested r = true -> quiet db (CancelSnapshotGeneration db id owner epoch now).
Proof.
  intros Hr Hc. apply cancel_where_quiet. intros g Hg. bool_props. unfold holding. replace (g_RunID g) with id by done.
  rewrite Hr, Hc. by rewrite andb_false_r.
Qed.

Lemma retire_quiet db source now : quiet db (retire_cancelled source now db).
Proof.
  apply cancel_where_quiet. intros g Hg. bool_props. unfold holding.
  destruct (runs db !! g_RunID g) as [r|]; [|done]. by match goal with H : cr_CancelRequested r = true |- _ => rewrite H, andb_false_r end.
Qed.

(** ** Trails *)

(** The batches of a generation in order, and its completion. *)
Abbreviation trail := (list SnapshotEnvelope * option SnapshotEnvelope)%type.

Section Invariant.
Context `{EnvelopeCodec} `{UuidEnv}.

(** The key position before a batch. *)
Definition lower_at (envs : list SnapshotEnvelope) (k : nat) : string :=
  match k with O => "" | S j => match envs !! j with Some e => upper_key e | None => "" end end.

Definition rows_total (envs : list SnapshotEnvelope) : Z :=
  foldr (fun e n => Z.of_nat (length (Rows e)) + n) 0 envs.

Definition batch_row (lower : string) (env : SnapshotEnvelope) (published : bool) : SnapshotOutbox :=
  {| ob_Generation := Generation env; ob_BatchID := BatchID env; ob_BatchIndex := BatchIndex env; ob_Kind := Kind env;
     ob_Payload := marshal_envelope env; ob_PayloadSHA256 := PayloadSHA256 env; ob_LowerKey := lower;
     ob_UpperKey := upper_key env; ob_Rows := Z.of_nat (length (Rows env)); ob_Published := published |}.

Definition complete_row (c : SnapshotEnvelope) (published : bool) : SnapshotOutbox :=
  {| ob_Generation := Generation c; ob_BatchID := "complete"; ob_BatchIndex := ExpectedBatches c;
     ob_Kind := SnapshotKindComplete; ob_Payload := marshal_envelope c; ob_PayloadSHA256 := ""; ob_LowerKey := "";
     ob_UpperKey := ""; ob_Rows := 0; ob_Published := published |}.

Definition entry_of (env : SnapshotEnvelope) : SnapshotManifestEntry :=
  {| me_Index := BatchIndex env; me_BatchID := BatchID env; me_PayloadSHA256 := PayloadSHA256 env;
     me_RowCount := Z.of_nat (length (Rows env)) |}.

(** An envelope bears the identity of its generation. *)
Definition identified (gd : SnapshotGeneration) (env : SnapshotEnvelope) : Prop :=
  Generation env = g_Generation gd /\ GenerationSeq env = g_GenerationSeq gd /\
  BindingDigest env = g_BindingDigest gd /\ (ProjectID env, ConnectorID env, Table env) = g_source gd.

Record batch_of (gd : SnapshotGeneration) (k : nat) (env : SnapshotEnvelope) : Prop := {
  bo_identity : identified gd env; bo_kind : Kind env = SnapshotKindBatch; bo_index : BatchIndex env = Z.of_nat k;
  bo_id : BatchID env = batch_id (Z.of_nat k); bo_valid : Validate env = None; bo_small : BatchIndex env <= max_i64;
}.

(** A completion says what the batches are. *)
Record describes (c : SnapshotEnvelope) (envs : list SnapshotEnvelope) : Prop := {
  ds_kind : Kind c = SnapshotKindComplete; ds_valid : Validate c = None;
  ds_batches : ExpectedBatches c = Z.of_nat (length envs); ds_rows : ExpectedRows c = rows_total envs;
  ds_manifest : SnapshotManifestDigest (entry_of <$> envs) = Some (BatchManifestSHA256 c);
}.

Definition batch_key (gid : string) (k : nat) : outbox_key := (gid, SnapshotKindBatch, batch_id (Z.of_nat k)).
Definition complete_key (gid : string) : outbox_key := (gid, SnapshotKindComplete, "complete").

(** The outbox of a generation is its trail; the first [n] batches are published. *)
Record outbox_is (db : control) (gid : string) (t : trail) (n : nat) : Prop := {
  ox_batch k env : t.1 !! k = Some env ->
    outbox db !! batch_key gid k = Some (batch_row (lower_at t.1 k) env (bool_decide (k < n)%nat));
  ox_complete c : t.2 = Some c -> exists b, outbox db !! complete_key gid = Some (complete_row c b);
  ox_only kind bid o : outbox db !! (gid, kind, bid) = Some o ->
    (exists k env, t.1 !! k = Some env /\ (gid, kind, bid) = batch_key gid k) \/
    ((gid, kind, bid) = complete_key gid /\ is_Some t.2);
}.

Definition retired (db : control) (gid : string) : Prop :=
  forall kind bid, outbox db !! (gid, kind, bid) = None.

Record traced (db : control) (st : list SnapshotEnvelope) (gd : SnapshotGeneration) (t : trail) (n : nat) : Prop := {
  tr_batch k env : t.1 !! k = Some env -> batch_of gd k env;
  tr_next : g_NextBatchIndex gd = Z.of_nat n;
  tr_len : (n <= length t.1 <= S n)%nat;
  tr_key : g_KeyPosition gd = lower_at t.1 n;
  tr_rows : g_Rows gd = rows_total (take n t.1);
  tr_outbox : (live_generation (g_State gd) = false /\ retired db (g_Generation gd)) \/ outbox_is db (g_Generation gd) t n;
  tr_sealed : g_State gd = Sealed <-> is_Some t.2;
  tr_complete c : t.2 = Some c -> identified gd c /\ describes c t.1 /\ length t.1 = n;
  tr_sent k env : t.1 !! k = Some env -> (k < n)%nat -> env ∈ st;
}.

(** ** The invariant of the tables and the stream *)

(** The run a generation names is one of its sync. *)
Definition owned (db : control) (gd : SnapshotGeneration) : Prop :=
  exists r, runs db !! g_RunID gd = Some r /\ cr_SyncID r = g_SyncID gd.

Record data_inv (T : gmap string trail) (db : control) (st : list SnapshotEnvelope) : Prop := {
  di_wf : wf db;
  di_id gid gd : generations db !! gid = Some gd -> g_Generation gd = gid;
  di_trace gid gd : generations db !! gid = Some gd -> exists t n, T !! gid = Some t /\ traced db st gd t n;
  di_back gid t : T !! gid = Some t -> is_Some (generations db !! gid);
  di_key key o : outbox db !! key = Some o -> ob_key o = key /\ is_Some (generations db !! ob_Generation o);
  di_unique i j g h : generations db !! i = Some g -> generations db !! j = Some h -> g_source g = g_source h ->
    claimable db g = true -> claimable db h = true -> i = j;
  di_owned i g : generations db !! i = Some g -> owned db g;
  di_seq i g : generations db !! i = Some g ->
    exists m, sequences db !! g_source g = Some m /\ g_GenerationSeq g <= m;
  di_numbered i j g h : generations db !! i = Some g -> generations db !! j = Some h -> g_source g = g_source h ->
    g_GenerationSeq g = g_GenerationSeq h -> i = j;
  di_stream env : env ∈ st -> exists t, T !! Generation env = Some t /\ (env ∈ t.1 \/ t.2 = Some env);
  di_order pre c suf : st = pre ++ c :: suf -> Kind c = SnapshotKindComplete ->
    exists t, T !! Generation c = Some t /\ t.2 = Some c /\ forall env, env ∈ t.1 -> env ∈ pre;
}.

(** Trails only grow, until their completion. *)
Definition extends (T T' : gmap string trail) : Prop :=
  forall gid t, T !! gid = Some t -> exists t', T' !! gid = Some t' /\ t.1 `prefix_of` t'.1 /\ (is_Some t.2 -> t' = t).

Lemma trail_extends_refl T : extends T T.
Proof. intros gid t Ht. by exists t. Qed.

Lemma lower_at_prefix envs envs' k : envs `prefix_of` envs' -> (k <= length envs)%nat -> lower_at envs' k = lower_at envs k.
Proof.
  intros Hp Hk. destruct k as [|k]; [done|]. simpl. destruct (lookup_lt_is_Some_2 envs k ltac:(lia)) as [e He].
  by rewrite He, (prefix_lookup_Some _ _ _ _ He Hp).
Qed.

Lemma has_unpublished_true db gid :
  has_unpublished db gid = true <-> exists key o, outbox db !! key = Some o /\ ob_Generation o = gid /\ ob_Published o = false.
Proof.
  unfold has_unpublished. rewrite existsb_exists. split.
  - intros (o & Hin & Ho). bool_props. apply list_elem_of_In, list_elem_of_fmap in Hin as ([key x] & -> & Hx).
    apply elem_of_map_to_list in Hx. by exists key, x.
  - intros (key & o & Ho & <- & Hp). exists o. split; [|by rewrite String.eqb_refl, Hp].
    apply list_elem_of_In, list_elem_of_fmap. exists (key, o). split; [done|]. by apply elem_of_map_to_list.
Qed.

Lemma has_unpublished_same db db' gid : outbox db' = outbox db -> has_unpublished db' gid = has_unpublished db gid.
Proof. unfold has_unpublished, outbox_rows. by intros ->. Qed.

Lemma batch_index_bound gd k env : batch_of gd k env -> Z.of_nat k <= max_i64.
Proof. intros Hb. rewrite <- (bo_index _ _ _ Hb). apply Hb. Qed.

Lemma batch_key_inj gid k j : Z.of_nat k <= max_i64 + 1 -> Z.of_nat j <= max_i64 + 1 -> batch_key gid k = batch_key gid j -> k = j.
Proof.
  intros Hk Hj E. apply (f_equal snd) in E. apply Nat2Z.inj.
  apply batch_id_inj; [..|exact E]; unfold two64, max_i64, two63 in *; lia.
Qed.

Lemma trail_extends_trans T1 T2 T3 : extends T1 T2 -> extends T2 T3 -> extends T1 T3.
Proof.
  intros H12 H23 gid t Ht. destruct (H12 gid t Ht) as (t2 & Ht2 & Hp2 & Hc2).
  destruct (H23 gid t2 Ht2) as (t3 & Ht3 & Hp3 & Hc3). exists t3. split_and!; [done|by etrans|].
  intros Hc. specialize (Hc2 Hc) as ->. by apply Hc3.
Qed.

(** The columns of a generation the trail speaks of. *)
Record same_trace (gd gd' : SnapshotGeneration) : Prop := {
  sm_generation : g_Generation gd' = g_Generation gd; sm_seq : g_GenerationSeq gd' = g_GenerationSeq gd;
  sm_digest : g_BindingDigest gd' = g_BindingDigest gd; sm_source : g_source gd' = g_source gd;
  sm_next : g_NextBatchIndex gd' = g_NextBatchIndex gd; sm_key : g_KeyPosition gd' = g_KeyPosition gd;
  sm_rows : g_Rows gd' = g_Rows gd; sm_sealed : g_State gd' = Sealed <-> g_State gd = Sealed;
  sm_dead : live_generation (g_State gd) = false -> live_generation (g_State gd') = false;
}.

Lemma same_trace_refl gd : same_trace gd gd.
Proof. by split. Qed.

Lemma identified_same gd gd' env :
  g_Generation gd' = g_Generation gd -> g_GenerationSeq gd' = g_GenerationSeq gd ->
  g_BindingDigest gd' = g_BindingDigest gd -> g_source gd' = g_source gd -> identified gd env -> identified gd' env.
Proof. unfold identified. intros -> -> -> ->. done. Qed.

Lemma outbox_is_same db db' gid t n :
  (forall kind bid, outbox db' !! (gid, kind, bid) = outbox db !! (gid, kind, bid)) -> outbox_is db gid t n -> outbox_is db' gid t n.
Proof.
  intros Ho [ob oc oo]. split.
  - intros k env He. unfold batch_key. rewrite Ho. by apply ob.
  - intros c Hc. unfold complete_key. rewrite Ho. by apply oc.
  - intros kind bid o. rewrite Ho. apply oo.
Qed.

Lemma traced_same db db' st st' gd gd' t n :
  same_trace gd gd' -> st ⊆ st' ->
  (forall kind bid, outbox db' !! (g_Generation gd, kind, bid) = outbox db !! (g_Generation gd, kind, bid)) ->
  traced db st gd t n -> traced db' st' gd' t n.
Proof.
  intros [e1 e2 e3 e4 e5 e6 e7 e8 e9] Hst Ho [b1 b2 b3 b4 b5 b6 b7 b8 b9]. split.
  - intros k env He. destruct (b1 k env He) as [i1 i2 i3 i4 i5 i6]. split; try done. by apply (identified_same gd).
  - by rewrite e5.
  - done.
  - by rewrite e6.
  - by rewrite e7.
  - rewrite e1. destruct b6 as [[Hl Hr]|Ho']; [left|right; by eapply outbox_is_same].
    split; [by apply e9|]. intros kind bid. rewrite Ho. apply Hr.
  - by rewrite e8.
  - intros c Hc. destruct (b8 c Hc) as (Hi & Hd & Hl). split_and!; [by apply (identified_same gd)|done|done].
  - intros k env He Hk. by apply Hst, (b9 k env).
Qed.

Lemma owned_frame db db' g g' :
  run_frame db db' -> g_RunID g' = g_RunID g -> g_SyncID g' = g_SyncID g -> owned db g -> owned db' g'.
Proof.
  intros Hf Er Es (r & Hr & Hs). destruct (rf_forth _ _ Hf _ _ Hr) as (r' & Hr' & E). exists r'.
  rewrite Er, Es, (ev_sync _ _ E). done.
Qed.

(** A transaction that keeps the generations' identities. *)
Lemma data_step T T' db db' st :
  data_inv T db st -> wf db' -> extends T T' -> (forall gid, is_Some (T' !! gid) -> is_Some (T !! gid)) ->
  (forall gid, option_Forall2 (fun g g' => g_Generation g' = g_Generation g /\ g_source g' = g_source g /\
     g_GenerationSeq g' = g_GenerationSeq g /\ (claimable db' g' = true -> claimable db g = true) /\
     (owned db g -> owned db' g')) (generations db !! gid) (generations db' !! gid)) ->
  (forall gid gd', generations db' !! gid = Some gd' -> exists t n, T' !! gid = Some t /\ traced db' st gd' t n) ->
  (forall key o, outbox db' !! key = Some o -> ob_key o = key /\ is_Some (generations db !! ob_Generation o)) ->
  sequences db' = sequences db -> data_inv T' db' st.
Proof.
  intros [d1 d2 d3 d4 d5 d6 d6' d7 d8 d9 d10] Hwf Hext Hdom Hgen Htr Hkey Hseq.
  assert (Hback : forall gid g', generations db' !! gid = Some g' -> exists g, generations db !! gid = Some g /\
    g_Generation g' = g_Generation g /\ g_source g' = g_source g /\ g_GenerationSeq g' = g_GenerationSeq g /\
    (claimable db' g' = true -> claimable db g = true) /\ (owned db g -> owned db' g')).
  { intros gid g' Hg. pose proof (Hgen gid) as X. rewrite Hg in X. inversion X as [g ? Hx Heq|]; subst. exists g. by split. }
  split; try done.
  - intros gid gd Hg. destruct (Hback _ _ Hg) as (g & Hg0 & -> & _). by apply d2.
  - intros gid t Ht. destruct (Hdom gid ltac:(eauto)) as [t0 Ht0]. destruct (d4 _ _ Ht0) as [g Hg].
    specialize (Hgen gid). rewrite Hg in Hgen. inversion Hgen. eauto.
  - intros key o Ho. destruct (Hkey key o Ho) as [? [g Hg]]. split; [done|].
    specialize (Hgen (ob_Generation o)). rewrite Hg in Hgen. inversion Hgen. eauto.
  - intros i j g h Hi Hj Hs Hc1 Hc2. destruct (Hback _ _ Hi) as (g0 & Hg0 & _ & E1 & _ & C1 & _).
    destruct (Hback _ _ Hj) as (h0 & Hh0 & _ & E2 & _ & C2 & _). apply (d6 i j g0 h0); try done; [congruence|by apply C1|by apply C2].
  - intros i g Hg. destruct (Hback _ _ Hg) as (g0 & Hg0 & _ & _ & _ & _ & Ho). by apply Ho, (d6' i).
  - intros i g Hg. destruct (Hback _ _ Hg) as (g0 & Hg0 & _ & E1 & E2 & _). rewrite Hseq, E1, E2. by apply (d7 i).
  - intros i j g h Hi Hj Hs Hq. destruct (Hback _ _ Hi) as (g0 & Hg0 & _ & E1 & Q1 & _).
    destruct (Hback _ _ Hj) as (h0 & Hh0 & _ & E2 & Q2 & _). apply (d8 i j g0 h0); try done; congruence.
  - intros env Henv. destruct (d9 env Henv) as (t & Ht & Hin). destruct (Hext _ _ Ht) as (t' & Ht' & Hp & Hc).
    exists t'. split; [done|]. destruct Hin as [Hin|Hc2]; [left; by eapply elem_of_prefix|right].
    rewrite Hc by (by rewrite Hc2). done.
  - intros pre c suf Hst Hk. destruct (d10 pre c suf Hst Hk) as (t & Ht & Hc & Hall).
    destruct (Hext _ _ Ht) as (t' & Ht' & _ & Hsame). rewrite Hsame in Ht' by (by rewrite Hc). by exists t.
Qed.

(** Cancelling live generations keeps the invariant. *)
Lemma quiet_data T db db' st : quiet db db' -> data_inv T db st -> data_inv T db' st.
Proof.
  intros [Hruns Hwf Ho Hs Hg] Hd.
  assert (Hgen : forall gid g g', generations db !! gid = Some g -> generations db' !! gid = Some g' ->
    same_trace g g' /\ (claimable db' g' = true -> claimable db g = true) /\ (owned db g -> owned db' g')).
  { intros gid g g' E E'. pose proof (Hg gid) as X. rewrite E, E' in X. inversion X as [? ? Hx|]; subst.
    destruct Hx as [->|(Hl & _ & now & ->)].
    - split_and!; [apply same_trace_refl| |by apply owned_frame]. unfold claimable. by rewrite (has_unpublished_same db db').
    - split_and!; [|by unfold claimable|by apply owned_frame]. split; try done; simpl. split; [done|]. intros E2. by rewrite E2 in Hl. }
  apply (data_step T T db db' st); try done.
  - apply Hwf, Hd.
  - apply trail_extends_refl.
  - intros gid. pose proof (Hg gid) as X. inversion X as [g g' _ E E'|]; constructor; symmetry in E, E'.
    destruct (Hgen gid g g' E E') as ([] & ? & ?). by split_and!.
  - intros gid g' E'. pose proof (Hg gid) as X. rewrite E' in X. inversion X as [g ? _ E|]; subst. symmetry in E.
    destruct (di_trace _ _ _ Hd gid g E) as (t & n & Ht & Htr). exists t, n. split; [done|].
    apply (traced_same db db' st st g g'); [by apply (Hgen gid)|done|by intros; rewrite Ho|done].
  - intros key o. rewrite Ho. apply Hd.
Qed.

(** ** What a transaction may do to a generation another worker holds *)

(** Nothing, or the publication of its one prepared batch is recorded. *)
Definition rely_gen (gd : SnapshotGeneration) (t : trail) (gd' : SnapshotGeneration) (t' : trail) : Prop :=
  t' = t /\ (gd' = gd \/ (Z.of_nat (length t.1) = g_NextBatchIndex gd + 1 /\
    exists upper rows, gd' = advanced gd upper (g_NextBatchIndex gd + 1) rows)).

Lemma rely_gen_refl gd t : rely_gen gd t gd t.
Proof. split; [done|by left]. Qed.

(** [who] is the run of the worker that acts, if one does. *)
Record relies (who : option string) (T : gmap string trail) (db : control) (T' : gmap string trail) (db' : control) : Prop := {
  rl_runs : run_frame db db';
  rl_extends : extends T T';
  rl_gen gid gd t : generations db !! gid = Some gd -> T !! gid = Some t -> holding db' (g_RunID gd) = true ->
    who <> Some (g_RunID gd) ->
    exists gd' t', generations db' !! gid = Some gd' /\ T' !! gid = Some t' /\ rely_gen gd t gd' t';
}.

Lemma relies_same who T db db' : run_frame db db' -> generations db' = generations db -> relies who T db T db'.
Proof.
  intros Hf Hg. split; [done|apply trail_extends_refl|]. intros gid gd t Hgd Ht _ _. exists gd, t. rewrite Hg. split_and!; [done|done|apply rely_gen_refl].
Qed.

Lemma quiet_relies who T db db' : quiet db db' -> relies who T db T db'.
Proof.
  intros Hq. split; [apply Hq|apply trail_extends_refl|]. intros gid gd t Hgd Ht Hh _.
  pose proof (qt_generations _ _ Hq gid) as X. rewrite Hgd in X. inversion X as [x gd' Hx|]; subst.
  destruct Hx as [->|(_ & Hn & _)]; [|congruence].
  exists gd, t. split_and!; [done|done|apply rely_gen_refl].
Qed.

(** *** One generation changes hands or state *)

Lemma update_generation T db st gid gd gd' :
  data_inv T db st -> generations db !! gid = Some gd -> same_trace gd gd' ->
  (claimable db gd' = true -> claimable db gd = true) -> (owned db gd -> owned db gd') ->
  data_inv T (set_generations <[gid := gd']> db) st.
Proof.
  intros Hd Hgd Hs Hc Hown. apply (data_step T T db); try done.
  - by destruct (di_wf _ _ _ Hd); split.
  - apply trail_extends_refl.
  - intros i. simpl. destruct (decide (i = gid)) as [->|Hne].
    + rewrite Hgd, lookup_insert_eq. constructor. destruct Hs. by split_and!.
    + rewrite lookup_insert_ne by done. destruct (generations db !! i); constructor. by split_and!.
  - intros i g. simpl. destruct (decide (i = gid)) as [->|Hne].
    + rewrite lookup_insert_eq. intros [= <-]. destruct (di_trace _ _ _ Hd gid gd Hgd) as (t & n & Ht & Htr).
      exists t, n. split; [done|]. by apply (traced_same db _ st st gd).
    + rewrite lookup_insert_ne by done. intros Hg. destruct (di_trace _ _ _ Hd i g Hg) as (t & n & Ht & Htr).
      exists t, n. split; [done|]. by apply (traced_same db _ st st g).
  - intros key o Ho. apply (di_key _ _ _ Hd key o Ho).
Qed.

Lemma update_relies T db gid gd gd' :
  generations db !! gid = Some gd -> relies (Some (g_RunID gd)) T db T (set_generations <[gid := gd']> db).
Proof.
  intros Hgd. split; [by apply run_frame_same|apply trail_extends_refl|]. intros i g t Hg Ht _ Hne. exists g, t.
  split_and!; [|done|apply rely_gen_refl]. simpl. rewrite lookup_insert_ne; [done|]. intros <-. congruence.
Qed.
End Invariant.
