(* ===== verification/CaptureTransactions.v ===== *)
(** * CaptureTransactions: what each snapshot transaction does to a trail

    Over the invariant of [CaptureInvariant]: claiming, preparing, publishing,
    marking, sealing, yielding, failing and cleaning each keep the invariant of the
    tables and the stream, and leave alone the generations other workers hold. *)

From S2P Require Import Prelude GoStrings GoTime Duck Journal Landing SnapshotEnvelope SnapshotStore Settler Publishing SnapshotPublishing PgSource ControlPlane ConnectorRuns SnapshotControl StagingCleanup Engine SnapshotCapture CaptureInvariant.
From stdpp Require Import sorting.
Import String.
Open Scope string_scope.
Open Scope list_scope.
Open Scope Z_scope.

#[local] Set Default Proof Using "Type*".

Section Transactions.
Context `{EnvelopeCodec} `{UuidEnv}.

(** ** Recording a publication *)

(** The item is a batch of the trail and its message is on the stream, or the completion. *)
Definition shipped (T : gmap string trail) (st : list SnapshotEnvelope) (gid : string) (o : SnapshotOutbox) : Prop :=
  exists t, T !! gid = Some t /\
    ((exists k env b, t.1 !! k = Some env /\ o = batch_row (lower_at t.1 k) env b /\ env ∈ st) \/
     (exists c b, t.2 = Some c /\ o = complete_row c b)).

Lemma batch_row_key gd k env lower b : batch_of gd k env -> ob_key (batch_row lower env b) = batch_key (g_Generation gd) k.
Proof.
  intros [(Hg & _) Hk _ Hid _ _]. unfold ob_key, batch_key. simpl. by rewrite Hg, Hk, Hid.
Qed.

Lemma complete_row_key gd c b : identified gd c -> ob_key (complete_row c b) = complete_key (g_Generation gd).
Proof. intros (Hg & _). unfold ob_key, complete_key. simpl. by rewrite Hg. Qed.

Lemma rows_total_snoc envs env : rows_total (envs ++ [env]) = rows_total envs + Z.of_nat (length (Rows env)).
Proof. unfold rows_total. induction envs as [|e envs IH]; simpl; [lia|]. rewrite IH. lia. Qed.

Lemma batch_not_complete gid k : batch_key gid k <> complete_key gid.
Proof. unfold batch_key, complete_key. intros E. by apply (f_equal (fun x => x.1.2)) in E. Qed.

(** The outbox after one of its rows is marked. *)
Lemma outbox_is_mark db gd t n key row :
  outbox_is db (g_Generation gd) t n -> (forall k env, t.1 !! k = Some env -> batch_of gd k env) ->
  outbox db !! key = Some row ->
  (exists env, key = batch_key (g_Generation gd) n /\ t.1 !! n = Some env) ->
  outbox_is (set_outbox <[key := marked row]> db) (g_Generation gd) t (S n).
Proof.
  intros [ob oc oo] Hb Hrow (env & -> & Hn). split; simpl.
  - intros k e He. destruct (decide (k = n)) as [->|Hne].
    + rewrite lookup_insert_eq. assert (e = env) as -> by congruence. rewrite (ob n env Hn) in Hrow. injection Hrow as <-.
      rewrite (bool_decide_eq_true_2 (n < S n)%nat) by lia. done.
    + rewrite lookup_insert_ne.
      * rewrite (ob k e He). by rewrite (bool_decide_ext (k < S n)%nat (k < n)%nat) by lia.
      * pose proof (batch_index_bound _ _ _ (Hb k e He)). pose proof (batch_index_bound _ _ _ (Hb n env Hn)).
        intros E. apply batch_key_inj in E; unfold max_i64, two63 in *; lia.
  - intros c Hc. rewrite lookup_insert_ne by apply batch_not_complete. by apply oc.
  - intros kind bid o Ho. destruct (decide ((g_Generation gd, kind, bid) = batch_key (g_Generation gd) n)) as [->|Hne].
    + left. by exists n, env.
    + rewrite lookup_insert_ne in Ho by congruence. by apply (oo kind bid o).
Qed.

Lemma alter_as_insert {V} (f : V -> V) (m : gmap string V) i x : m !! i = Some x -> alter f i m = <[i := f x]> m.
Proof.
  intros Hx. apply map_eq. intros j. destruct (decide (j = i)) as [->|Hne].
  - by rewrite lookup_alter_eq, lookup_insert_eq, Hx.
  - by rewrite lookup_alter_ne, lookup_insert_ne by done.
Qed.

Lemma set_generations_alter f gid gd db :
  generations db !! gid = Some gd -> set_generations (alter f gid) db = set_generations <[gid := f gd]> db.
Proof. intros Hgd. unfold set_generations. by rewrite (alter_as_insert _ _ gid gd). Qed.

Lemma has_unpublished_mark db key row i :
  outbox db !! key = Some row -> has_unpublished (set_outbox <[key := marked row]> db) i = true -> has_unpublished db i = true.
Proof.
  intros Hrow. rewrite !has_unpublished_true. intros (k & o & Ho & Hg & Hp). simpl in Ho.
  destruct (decide (k = key)) as [->|Hne]; [rewrite lookup_insert_eq in Ho; by injection Ho as <-|].
  rewrite lookup_insert_ne in Ho by done. by exists k, o.
Qed.

(** A generation whose outbox and state go no further back is claimable if it was. *)
Lemma claimable_back db db' g g' :
  g_State g' = g_State g -> g_Generation g' = g_Generation g ->
  (has_unpublished db' (g_Generation g) = true -> has_unpublished db (g_Generation g) = true) ->
  claimable db' g' = true -> claimable db g = true.
Proof.
  intros Es Eg Hu. unfold claimable. rewrite Es, Eg. intros Hc. apply orb_true_iff in Hc as [->|Hc]; [done|].
  apply andb_true_iff in Hc as [-> Hc]. apply orb_true_iff. right. by apply Hu.
Qed.

(** A row of the outbox is that of the trail. *)
Lemma outbox_batch T db st gid gd t n k env row :
  data_inv T db st -> generations db !! gid = Some gd -> traced db st gd t n -> t.1 !! k = Some env ->
  outbox db !! batch_key gid k = Some row ->
  outbox_is db gid t n /\ row = batch_row (lower_at t.1 k) env (bool_decide (k < n)%nat).
Proof.
  intros Hd Hgd Htr He Hrow. rewrite <- (di_id _ _ _ Hd gid gd Hgd) in *. destruct (tr_outbox _ _ _ _ _ Htr) as [[_ Hret]|Hox].
  - unfold batch_key in Hrow. by rewrite Hret in Hrow.
  - split; [done|]. rewrite (ox_batch _ _ _ _ Hox k env He) in Hrow. congruence.
Qed.

(** The generations and outboxes of the others are as they were. *)
Lemma other_traced T db db' st gid i g :
  data_inv T db st -> i <> gid -> generations db !! i = Some g ->
  (forall kind bid, outbox db' !! (i, kind, bid) = outbox db !! (i, kind, bid)) ->
  exists t n, T !! i = Some t /\ traced db' st g t n.
Proof.
  intros Hd Hne Hg Ho. destruct (di_trace _ _ _ Hd i g Hg) as (t & n & Ht & Htr). exists t, n. split; [done|].
  rewrite <- (di_id _ _ _ Hd i g Hg) in Ho. apply (traced_same db _ st st g); [apply same_trace_refl|done|exact Ho|done].
Qed.

Lemma mark_batch T db st gid gd t n env row :
  data_inv T db st -> generations db !! gid = Some gd -> T !! gid = Some t -> traced db st gd t n ->
  t.1 !! n = Some env -> env ∈ st -> outbox db !! batch_key gid n = Some row ->
  data_inv T (set_generations <[gid := advanced gd (upper_key env) (Z.of_nat n + 1) (Z.of_nat (length (Rows env)))]>
                (set_outbox <[batch_key gid n := marked row]> db)) st.
Proof.
  intros Hd Hgd Ht Htr Hn Hst Hrow. pose proof (di_id _ _ _ Hd gid gd Hgd) as Hid.
  destruct (outbox_batch _ _ _ _ _ _ _ _ _ _ Hd Hgd Htr Hn Hrow) as [Hox Erow].
  set (gd' := advanced _ _ _ _). set (db1 := set_outbox _ db).
  apply (data_step T T db); [done| |apply trail_extends_refl|done|..|done].
  - by destruct (di_wf _ _ _ Hd); split.
  - intros i. simpl. destruct (decide (i = gid)) as [->|Hne].
    + rewrite Hgd, lookup_insert_eq. constructor. split_and!; [done..| |done]. apply claimable_back; [done..|].
      by apply (has_unpublished_mark db (batch_key gid n)).
    + rewrite lookup_insert_ne by done. destruct (generations db !! i) as [g|]; constructor. split_and!; [done..| |done].
      apply claimable_back; [done..|]. by apply (has_unpublished_mark db (batch_key gid n)).
  - intros i g. simpl. destruct (decide (i = gid)) as [->|Hne].
    + rewrite lookup_insert_eq. intros [= <-]. exists t, (S n). split; [done|].
      destruct Htr as [b1 b2 b3 b4 b5 b6 b7 b8 b9]. assert (Hlen : (n < length t.1)%nat) by by apply lookup_lt_Some in Hn.
      split; simpl.
      * intros k e He. destruct (b1 k e He) as [i1 i2 i3 i4 i5 i6]. split; try done.
      * lia.
      * lia.
      * by rewrite Hn.
      * rewrite (take_S_r _ _ _ Hn), rows_total_snoc. lia.
      * right. apply (outbox_is_same db1); [done|]. unfold db1. rewrite <- Hid. rewrite <- Hid in Hrow, Hox.
        apply outbox_is_mark; [done|done|done|by exists env].
      * done.
      * intros c Hc. destruct (b8 c Hc) as (_ & _ & ?). lia.
      * intros k e He Hk. destruct (decide (k = n)) as [->|]; [congruence|]. apply (b9 k e He). lia.
    + rewrite lookup_insert_ne by done. intros Hg. apply (other_traced T db _ st gid); try done.
      intros kind bid. simpl. rewrite lookup_insert_ne; [done|]. intros E. by apply (f_equal (fun x => x.1.1)) in E.
  - intros key o. simpl. intros Ho. destruct (decide (key = batch_key gid n)) as [->|Hne].
    + rewrite lookup_insert_eq in Ho. injection Ho as <-. apply (di_key _ _ _ Hd _ _ Hrow).
    + rewrite lookup_insert_ne in Ho by done. apply (di_key _ _ _ Hd _ _ Ho).
Qed.

Lemma mark_complete T db st gid gd t n c row :
  data_inv T db st -> generations db !! gid = Some gd -> T !! gid = Some t -> traced db st gd t n ->
  t.2 = Some c -> outbox db !! complete_key gid = Some row ->
  data_inv T (set_outbox <[complete_key gid := marked row]> db) st.
Proof.
  intros Hd Hgd Ht Htr Hc Hrow. pose proof (di_id _ _ _ Hd gid gd Hgd) as Hid.
  apply (data_step T T db); [done| |apply trail_extends_refl|done|..|done].
  - by destruct (di_wf _ _ _ Hd); split.
  - intros i. simpl. destruct (generations db !! i) as [g|]; constructor. split_and!; [done..| |done].
    apply claimable_back; [done..|]. by apply (has_unpublished_mark db (complete_key gid)).
  - intros i g Hg. simpl in Hg. destruct (decide (i = gid)) as [->|Hne].
    + exists t, n. split; [done|]. assert (g = gd) as -> by congruence.
      destruct Htr as [b1 b2 b3 b4 b5 b6 b7 b8 b9]. split; try done. right. rewrite Hid in *.
      destruct b6 as [[_ Hret]|[ob oc oo]]; [unfold complete_key in Hrow; by rewrite Hret in Hrow|]. split; simpl.
      * intros k e He. rewrite lookup_insert_ne by (intros E; by destruct (batch_not_complete gid k)). by apply ob.
      * intros c' Hc'. rewrite lookup_insert_eq. destruct (oc c' Hc') as [b Hb]. exists true.
        rewrite Hb in Hrow. by injection Hrow as <-.
      * intros kind bid o Ho. destruct (decide ((gid, kind, bid) = complete_key gid)) as [E|Hne].
        -- right. split; [done|]. by rewrite Hc.
        -- rewrite lookup_insert_ne in Ho by congruence. by apply (oo kind bid o).
    + apply (other_traced T db _ st gid); try done.
      intros kind bid. simpl. rewrite lookup_insert_ne; [done|]. intros E. by apply (f_equal (fun x => x.1.1)) in E.
  - intros key o. simpl. intros Ho. destruct (decide (key = complete_key gid)) as [->|Hne].
    + rewrite lookup_insert_eq in Ho. injection Ho as <-. apply (di_key _ _ _ Hd _ _ Hrow).
    + rewrite lookup_insert_ne in Ho by done. apply (di_key _ _ _ Hd _ _ Ho).
Qed.

Lemma mark_data T db st gid o db' :
  data_inv T db st -> shipped T st gid o -> MarkSnapshotOutboxPublished db gid o = Ok db' ->
  data_inv T db' st /\ relies None T db T db' /\ runs db' = runs db /\
  (forall t k env b gd', T !! gid = Some t -> t.1 !! k = Some env -> o = batch_row (lower_at t.1 k) env b ->
     generations db' !! gid = Some gd' -> Z.of_nat k < g_NextBatchIndex gd').
Proof.
  intros Hd (t & Ht & Hship) Hm. destruct (di_back _ _ _ Hd gid t Ht) as [gd Hgd].
  destruct (di_trace _ _ _ Hd gid gd Hgd) as (t' & n & Ht' & Htr). rewrite Ht in Ht'. injection Ht' as <-.
  pose proof (di_id _ _ _ Hd gid gd Hgd) as Hid. unfold MarkSnapshotOutboxPublished in Hm.
  destruct Hship as [(k & env & b & Hk & -> & Hst)|(c & b & Hc & ->)].
  - pose proof (tr_batch _ _ _ _ _ Htr k env Hk) as Hb. rewrite (batch_row_key gd k), Hid in Hm by done.
    destruct (outbox db !! batch_key gid k) as [row|] eqn:Hrow; [|done].
    destruct (outbox_batch _ _ _ _ _ _ _ _ _ _ Hd Hgd Htr Hk Hrow) as [Hox Erow].
    assert (Hpost : forall t0 k0 env0 b0, T !! gid = Some t0 -> t0.1 !! k0 = Some env0 ->
      batch_row (lower_at t.1 k) env b = batch_row (lower_at t0.1 k0) env0 b0 -> k0 = k).
    { intros t0 k0 env0 b0 Ht0 He0 E. rewrite Ht in Ht0. injection Ht0 as <-.
      apply (f_equal ob_BatchIndex) in E. simpl in E. rewrite (bo_index _ _ _ Hb) in E.
      rewrite (bo_index _ _ _ (tr_batch _ _ _ _ _ Htr k0 env0 He0)) in E. lia. }
    rewrite Erow in Hm. cbn [batch_row ob_Published ob_Kind ob_UpperKey ob_Rows ob_BatchIndex] in Hm.
    case_bool_decide as Hlt.
    + injection Hm as <-. split_and!; [done|apply relies_same; [by apply run_frame_same|done]|done|].
      intros t0 k0 env0 b0 gd' Ht0 He0 E Hgd'. rewrite (Hpost _ _ _ _ Ht0 He0 E). rewrite Hgd in Hgd'. injection Hgd' as <-.
      rewrite (tr_next _ _ _ _ _ Htr). lia.
    + assert (k = n) as ->. { pose proof (tr_len _ _ _ _ _ Htr). apply lookup_lt_Some in Hk. lia. }
      rewrite (bo_kind _ _ _ Hb), String.eqb_refl, (bo_index _ _ _ Hb) in Hm. injection Hm as <-.
      rewrite (set_generations_alter _ gid gd) by done. rewrite (tr_next _ _ _ _ _ Htr).
      rewrite (proj2 (Z.leb_le _ _)) by lia.
      pose proof (mark_batch T db st gid gd t n env row Hd Hgd Ht Htr Hk Hst Hrow) as Hd'. rewrite Erow in Hd'.
      split_and!; [exact Hd'| |done|].
      * split; [by apply run_frame_same|apply trail_extends_refl|]. intros i g ti Hg Hti _ _. simpl.
        destruct (decide (i = gid)) as [->|Hne].
        -- rewrite lookup_insert_eq. assert (g = gd) as -> by congruence. assert (ti = t) as -> by congruence.
           eexists _, t. split_and!; [done|done|]. split; [done|right]. rewrite (tr_next _ _ _ _ _ Htr). split.
           ++ pose proof (tr_len _ _ _ _ _ Htr). apply lookup_lt_Some in Hk. lia.
           ++ eauto.
        -- rewrite lookup_insert_ne by done. exists g, ti. split_and!; [done|done|apply rely_gen_refl].
      * intros t0 k0 env0 b0 gd' Ht0 He0 E. rewrite (Hpost _ _ _ _ Ht0 He0 E). simpl. rewrite lookup_insert_eq.
        intros [= <-]. simpl. lia.
  - destruct (tr_complete _ _ _ _ _ Htr c Hc) as (Hic & Hdc & _).
    rewrite (complete_row_key gd), Hid in Hm by done. destruct (outbox db !! complete_key gid) as [row|] eqn:Hrow; [|done].
    assert (Hkind : ob_Kind row = SnapshotKindComplete).
    { destruct (di_key _ _ _ Hd _ _ Hrow) as [E _]. unfold ob_key, complete_key in E. congruence. }
    assert (Hno : forall t0 k env0 b0, T !! gid = Some t0 -> t0.1 !! k = Some env0 ->
      complete_row c b = batch_row (lower_at t0.1 k) env0 b0 -> False).
    { intros t0 k env0 b0 Ht0 He0 E. rewrite Ht in Ht0. injection Ht0 as <-. apply (f_equal ob_Kind) in E. simpl in E.
      by rewrite (bo_kind _ _ _ (tr_batch _ _ _ _ _ Htr k env0 He0)) in E. }
    destruct (ob_Published row).
    + injection Hm as <-. split_and!; [done|apply relies_same; [by apply run_frame_same|done]|done|].
      intros t0 k env0 b0 gd' Ht0 He0 E. by destruct (Hno _ _ _ _ Ht0 He0 E).
    + rewrite Hkind in Hm. cbn in Hm. injection Hm as <-.
      split_and!; [by eapply mark_complete|apply relies_same; [by apply run_frame_same|done]|done|].
      intros t0 k env0 b0 gd' Ht0 He0 E. by destruct (Hno _ _ _ _ Ht0 He0 E).
Qed.

(** ** New rows of the outbox *)

Lemma insert_item_Ok o db out db' :
  insert_item o db = Ok (out, db') ->
  (outbox db !! ob_key o = Some out /\ db' = db) \/
  (outbox db !! ob_key o = None /\ out = o /\ db' = set_outbox <[ob_key o := o]> db).
Proof.
  unfold insert_item. destruct (outbox db !! ob_key o) as [old|]; [intros [= <- <-]; by left|].
  destruct (existsb _ _); [done|]. intros [= <- <-]. by right.
Qed.

Lemma has_unpublished_insert db o i :
  ob_Generation o <> i -> has_unpublished (set_outbox <[ob_key o := o]> db) i = true -> has_unpublished db i = true.
Proof.
  intros Hne. rewrite !has_unpublished_true. intros (k & x & Hx & Hg & Hp). simpl in Hx.
  destruct (decide (k = ob_key o)) as [->|Hk]; [rewrite lookup_insert_eq in Hx; by injection Hx as <-|].
  rewrite lookup_insert_ne in Hx by done. by exists k, x.
Qed.

Lemma lookup_other_generation (m : gmap outbox_key SnapshotOutbox) o i kind bid :
  ob_Generation o <> i -> <[ob_key o := o]> m !! (i, kind, bid) = m !! (i, kind, bid).
Proof. intros Hne. rewrite lookup_insert_ne; [done|]. unfold ob_key. intros E. congruence. Qed.

(** One new row in the outbox of a live generation, with the trail that has it. *)
Lemma append_data T db db' st gid gd gd' t t' n o :
  data_inv T db st -> generations db !! gid = Some gd -> T !! gid = Some t -> traced db st gd t n ->
  live_generation (g_State gd) = true -> ob_Generation o = gid ->
  wf db' -> run_frame db db' -> outbox db' = <[ob_key o := o]> (outbox db) -> generations db' = <[gid := gd']> (generations db) ->
  sequences db' = sequences db ->
  g_Generation gd' = gid -> g_source gd' = g_source gd -> g_GenerationSeq gd' = g_GenerationSeq gd ->
  g_RunID gd' = g_RunID gd -> g_SyncID gd' = g_SyncID gd ->
  t.1 `prefix_of` t'.1 -> traced db' st gd' t' n -> data_inv (<[gid := t']> T) db' st /\
  relies (Some (g_RunID gd)) T db (<[gid := t']> T) db'.
Proof.
  intros Hd Hgd Ht Htr Hlive Ho Hwf Hrf Hout Hgen Hseq Eg Es Eq Er Ey Hpre Htr'.
  assert (Hopen : t.2 = None).
  { destruct (t.2) eqn:E; [|done]. assert (g_State gd = Sealed) as E2 by (apply (tr_sealed _ _ _ _ _ Htr); by rewrite E).
    by rewrite E2 in Hlive. }
  assert (Hext : extends T (<[gid := t']> T)).
  { intros i ti Hti. destruct (decide (i = gid)) as [->|Hne].
    - rewrite lookup_insert_eq. exists t'. assert (ti = t) as -> by congruence. split_and!; [done|done|]. rewrite Hopen. by intros [? ?].
    - rewrite lookup_insert_ne by done. exists ti. by split_and!. }
  split.
  - apply (data_step T _ db); try done.
    + intros i. destruct (decide (i = gid)) as [->|Hne]; [by rewrite Ht|by rewrite lookup_insert_ne].
    + intros i. rewrite Hgen. destruct (decide (i = gid)) as [->|Hne].
      * rewrite Hgd, lookup_insert_eq. constructor. rewrite (di_id _ _ _ Hd gid gd Hgd). split_and!; [done..| |].
        -- intros _. unfold claimable. by rewrite Hlive.
        -- by apply owned_frame.
      * rewrite lookup_insert_ne by done. destruct (generations db !! i) as [g|] eqn:Hg; constructor. split_and!; [done..| |].
        -- apply claimable_back; [done..|]. rewrite (di_id _ _ _ Hd i g Hg).
           intros Hu. apply (has_unpublished_insert db o); [congruence|]. by rewrite (has_unpublished_same (set_outbox <[ob_key o := o]> db) db') in Hu.
        -- by apply owned_frame.
    + intros i g. rewrite Hgen. destruct (decide (i = gid)) as [->|Hne].
      * rewrite !lookup_insert_eq. intros [= <-]. by exists t', n.
      * rewrite !lookup_insert_ne by done. intros Hg. apply (other_traced T db _ st gid); try done.
        intros kind bid. rewrite Hout. apply lookup_other_generation. congruence.
    + intros key x. rewrite Hout. intros Hx. destruct (decide (key = ob_key o)) as [->|Hne].
      * rewrite lookup_insert_eq in Hx. injection Hx as <-. rewrite Ho, Hgd. by split.
      * rewrite lookup_insert_ne in Hx by done. apply (di_key _ _ _ Hd _ _ Hx).
  - split; [done|done|]. intros i g ti Hg Hti _ Hne. assert (i <> gid) by (intros ->; congruence).
    exists g, ti. rewrite Hgen, !lookup_insert_ne by done. split_and!; [done|done|apply rely_gen_refl].
Qed.

Lemma outbox_is_append db gid t n env gd :
  outbox_is db gid t n -> length t.1 = n -> t.2 = None -> (forall k e, t.1 !! k = Some e -> batch_of gd k e) -> batch_of gd n env ->
  outbox db !! batch_key gid n = None ->
  outbox_is (set_outbox <[batch_key gid n := batch_row (lower_at t.1 n) env false]> db) gid (t.1 ++ [env], t.2) n.
Proof.
  intros [ob oc oo] Hlen Hopen Hb Hbn Hnone. assert (Hlow : forall k, (k <= n)%nat -> lower_at (t.1 ++ [env]) k = lower_at t.1 k).
  { intros k Hk. apply lower_at_prefix; [by eexists|lia]. }
  split; simpl.
  - intros k e Hk. apply lookup_app_Some in Hk as [Hk|[Hge Hk]].
    + assert (k < n)%nat by (apply lookup_lt_Some in Hk; lia). rewrite lookup_insert_ne.
      * rewrite (ob k e Hk), Hlow by lia. done.
      * pose proof (batch_index_bound _ _ _ (Hb k e Hk)). pose proof (batch_index_bound _ _ _ Hbn).
        intros E. apply batch_key_inj in E; unfold max_i64, two63 in *; lia.
    + apply list_lookup_singleton_Some in Hk as [Hk <-]. assert (k = n) as -> by lia.
      rewrite lookup_insert_eq, Hlow by lia. by rewrite bool_decide_eq_false_2 by lia.
  - by rewrite Hopen.
  - intros kind bid o Ho. destruct (decide ((gid, kind, bid) = batch_key gid n)) as [->|Hne].
    + left. exists n, env. split; [|done]. rewrite <- Hlen. by apply list_lookup_middle.
    + rewrite lookup_insert_ne in Ho by congruence. destruct (oo kind bid o Ho) as [(k & e & Hk & E)|[E Hc]]; [left|by right].
      exists k, e. split; [|done]. by apply lookup_app_l_Some.
Qed.

Lemma live_open db st gd t n : traced db st gd t n -> g_State gd = Capturing -> t.2 = None /\ outbox_is db (g_Generation gd) t n.
Proof.
  intros Htr Hs. split.
  - destruct (t.2) eqn:E; [|done]. assert (g_State gd = Sealed); [|congruence]. apply (tr_sealed _ _ _ _ _ Htr). by rewrite E.
  - destruct (tr_outbox _ _ _ _ _ Htr) as [[Hl _]|?]; [by rewrite Hs in Hl|done].
Qed.

Lemma prepare_data T db st gid gd t n g env now out db' :
  data_inv T db st -> generations db !! gid = Some gd -> T !! gid = Some t -> traced db st gd t n ->
  g_State gd = Capturing -> length t.1 = n -> g_Generation g = gid -> batch_of gd n env ->
  PrepareSnapshotEnvelope marshal_envelope db g env (g_KeyPosition gd) (upper_key env) now = Ok (out, db') ->
  let T' := <[gid := (t.1 ++ [env], t.2)]> T in
  out = batch_row (lower_at t.1 n) env false /\ data_inv T' db' st /\ relies (Some (g_RunID gd)) T db T' db' /\
  runs db' = runs db /\ generations db' = generations db.
Proof.
  intros Hd Hgd Ht Htr Hs Hlen Hg Hb E T'. pose proof (di_id _ _ _ Hd gid gd Hgd) as Hid.
  destruct (live_open _ _ _ _ _ Htr Hs) as [Hopen Hox]. rewrite Hid in Hox.
  unfold PrepareSnapshotEnvelope in E. destruct (MarshalSnapshotEnvelope _ env) as [payload|]; [|done].
  destruct (negb _); [done|]. destruct (negb (fenced db g now)); [done|]. destruct (negb _); [done|].
  destruct (insert_item _ db) as [[o db1]|] eqn:Hins; [|done]. destruct (_ || _ || _); [done|]. injection E as <- <-.
  assert (Eitem : outbox_item marshal_envelope g env (g_KeyPosition gd) (upper_key env) = batch_row (lower_at t.1 n) env false).
  { destruct Hb as [(Hg' & _) Hk _ _ _ _]. unfold outbox_item, batch_row, item_batch_id. rewrite Hk, Hg, Hg', Hid, (tr_key _ _ _ _ _ Htr). done. }
  rewrite Eitem in Hins. pose proof (batch_row_key gd n env (lower_at t.1 n) false Hb) as Ek. rewrite Hid in Ek.
  apply insert_item_Ok in Hins as [[Hold _]|(Hnone & -> & ->)].
  { exfalso. rewrite Ek in Hold. destruct (ox_only _ _ _ _ Hox _ _ _ Hold) as [(k & e & Hk & E)|[E _]].
    - pose proof (batch_index_bound _ _ _ (tr_batch _ _ _ _ _ Htr k e Hk)). pose proof (batch_index_bound _ _ _ Hb).
      apply batch_key_inj in E; [|unfold max_i64, two63 in *; lia..]. subst k. apply lookup_lt_Some in Hk. lia.
    - by apply batch_not_complete in E. }
  split; [done|]. assert (Htr' : traced (set_outbox <[ob_key (batch_row (lower_at t.1 n) env false) := batch_row (lower_at t.1 n) env false]> db)
    st gd (t.1 ++ [env], t.2) n).
  { destruct Htr as [b1 b2 b3 b4 b5 b6 b7 b8 b9]. split; simpl; try done.
    - intros k e Hk. apply lookup_app_Some in Hk as [Hk|[Hge Hk]]; [by apply b1|].
      apply list_lookup_singleton_Some in Hk as [Hk <-]. by replace k with n by lia.
    - rewrite length_app. simpl. lia.
    - rewrite b4. symmetry. apply lower_at_prefix; [by eexists|lia].
    - by rewrite take_app_le by lia.
    - right. rewrite Ek, Hid. rewrite Ek in Hnone. by apply (outbox_is_append db gid t n env gd).
    - by rewrite Hopen.
    - intros k e Hk Hlt. apply lookup_app_Some in Hk as [Hk|[Hge Hk]]; [by apply (b9 k)|]. lia. }
  assert (Hsame : <[gid := gd]> (generations db) = generations db) by (by apply insert_id).
  set (o := batch_row (lower_at t.1 n) env false) in *.
  destruct (append_data T db (set_outbox <[ob_key o := o]> db) st gid gd gd t (t.1 ++ [env], t.2) n o Hd Hgd Ht Htr) as [H3 H4];
    try done; [by rewrite Hs|by destruct Hb as [(? & _) _ _ _ _ _]; simpl; congruence|by destruct (di_wf _ _ _ Hd); split
      |by apply run_frame_same|by eexists].
Qed.


Lemma outbox_is_complete db gid t n c :
  outbox_is db gid t n -> t.2 = None -> 
  outbox_is (set_outbox <[complete_key gid := complete_row c false]> db) gid (t.1, Some c) n.
Proof.
  intros [ob oc oo] Hopen. split; simpl.
  - intros k e Hk. rewrite lookup_insert_ne by (intros E; by destruct (batch_not_complete gid k)). by apply ob.
  - intros c' [= <-]. exists false. by rewrite lookup_insert_eq.
  - intros kind bid o Ho. destruct (decide ((gid, kind, bid) = complete_key gid)) as [E|Hne]; [right; by split|].
    rewrite lookup_insert_ne in Ho by congruence. destruct (oo kind bid o Ho) as [?|[? Hc]]; [by left|].
    rewrite Hopen in Hc. by destruct Hc.
Qed.

Lemma seal_evolution db db1 g r rows now :
  final_run db1 g = Some r -> runs db1 = runs db -> run_keys db1 = run_keys db -> syncs db1 = syncs db ->
  evolution db (set_syncs (alter (fun cs => sync_succeeded cs rows now) (g_SyncID g))
                  (set_runs <[g_RunID g := succeeded r rows now]> db1)).
Proof.
  unfold final_run. intros Hr Er Ek Es. destruct (runs db1 !! g_RunID g) as [x|] eqn:Hx; [|done].
  destruct (_ && _ && _ && _) eqn:Hc; [|done]. injection Hr as ->. bool_props. rewrite Er in Hx. split; simpl.
  - intros i. rewrite Er. apply (runs_insert_evolve _ _ r); [done|]. apply evolves_active; try done.
    + by rewrite (status_active r Running).
    + intros [? _]. by split.
  - done.
  - intros s cs. rewrite Es. intros Hs. destruct (decide (s = g_SyncID g)) as [->|Hne].
    + rewrite lookup_alter_eq, Hs. simpl. eauto.
    + rewrite lookup_alter_ne by done. eauto.
Qed.

Lemma held_Some db g states row :
  held db g states = Some row -> generations db !! g_Generation g = Some row /\ g_State row ∈ states /\ g_RunID row = g_RunID g.
Proof.
  unfold held. destruct (generations db !! g_Generation g) as [x|]; [|done].
  destruct (_ && _ && _ && _) eqn:E; [|done]. intros [= ->]. bool_props. by split_and!.
Qed.

Lemma seal_data T db st gid gd t n g c rows now out db' :
  data_inv T db st -> generations db !! gid = Some gd -> T !! gid = Some t -> traced db st gd t n ->
  length t.1 = n -> g_Generation g = gid -> identified gd c -> describes c t.1 ->
  SealSnapshotGeneration marshal_envelope db g c rows now = Ok (out, db') ->
  let T' := <[gid := (t.1, Some c)]> T in
  data_inv T' db' st /\ relies (Some (g_RunID gd)) T db T' db'.
Proof.
  intros Hd Hgd Ht Htr Hlen Hg Hic Hdc E T'. pose proof (di_id _ _ _ Hd gid gd Hgd) as Hid.
  unfold SealSnapshotGeneration in E. destruct (negb _); [done|]. destruct (MarshalSnapshotEnvelope _ c) as [payload|]; [|done].
  destruct (negb (fenced db g now)); [done|]. destruct (insert_item _ db) as [[o db1]|] eqn:Hins; [|done].
  destruct (negb _); [done|]. destruct (held db1 g [Capturing]) as [row|] eqn:Hheld; [|done]. cbv zeta in E.
  destruct (final_run _ g) as [r|] eqn:Hfin; [|done]. injection E as <- <-.
  apply held_Some in Hheld as (Hrow & Hs & Hrun). rewrite list_elem_of_singleton in Hs.
  assert (Eitem : completion_item marshal_envelope g c = complete_row c false).
  { unfold completion_item, complete_row. destruct Hic as (-> & _). by rewrite Hg, Hid. }
  rewrite Eitem in Hins. pose proof (complete_row_key gd c false Hic) as Ek. rewrite Hid in Ek.
  assert (Hdb1 : generations db1 = generations db) by (by apply insert_item_Ok in Hins as [[_ ->]|(_ & _ & ->)]).
  rewrite Hdb1, Hg, Hgd in Hrow. injection Hrow as <-.
  destruct (live_open _ _ _ _ _ Htr Hs) as [Hopen Hox]. rewrite Hid in Hox.
  apply insert_item_Ok in Hins as [[Hold _]|(Hnone & -> & ->)].
  { exfalso. rewrite Ek in Hold. destruct (ox_only _ _ _ _ Hox _ _ _ Hold) as [(k & e & Hk & E)|[_ Hc]].
    - symmetry in E. by apply batch_not_complete in E.
    - rewrite Hopen in Hc. by destruct Hc. }
  set (o := complete_row c false) in *. set (gd' := sealed_row gd (CaptureFinishedAt c) now) in *.
  pose proof (seal_evolution db _ g r rows now Hfin eq_refl eq_refl eq_refl) as Hev. rewrite Hg in *.
  match type of Hev with evolution _ ?x => set (db' := x) in * end.
  apply (append_data T db db' st gid gd gd' t (t.1, Some c) n o); try done.
  - by rewrite Hs.
  - destruct Hic as (Hgc & _). by rewrite <- Hid, <- Hgc.
  - eapply evolution_wf; [done|apply Hd].
  - by apply evolution_run_frame.
  - destruct Htr as [b1 b2 b3 b4 b5 b6 b7 b8 b9]. split; simpl; try done.
    + intros k e Hk. destruct (b1 k e Hk) as [i1 i2 i3 i4 i5 i6]. by split.
    + right. rewrite Hid. rewrite Ek in *. apply (outbox_is_same (set_outbox <[complete_key gid := o]> db)); [|by apply outbox_is_complete].
      intros kind bid. unfold db'. simpl. by rewrite Ek.
    + intros c' [= <-]. by split_and!.
Qed.


(** ** Claiming *)

Lemma newest_in l g : newest l = Some g -> g ∈ l.
Proof.
  revert g. induction l as [|x l IH]; simpl; [done|]. intros g Hg. apply elem_of_cons.
  destruct (newest l) as [h|]; [|injection Hg as ->; by left]. injection Hg as <-.
  case_match; [by left|right; by apply IH].
Qed.

Lemma newest_None l : newest l = None -> l = [].
Proof. destruct l as [|x l]; simpl; [done|]. by destruct (newest l). Qed.

Lemma generation_rows_elem db g : g ∈ generation_rows db <-> exists gid, generations db !! gid = Some g.
Proof.
  unfold generation_rows. rewrite list_elem_of_fmap. split.
  - intros ([gid x] & -> & Hx). apply elem_of_map_to_list in Hx. by exists gid.
  - intros [gid Hg]. exists (gid, g). split; [done|]. by apply elem_of_map_to_list.
Qed.

Lemma claim_candidate_Some db source g :
  claim_candidate db source = Some g -> g_source g = source /\ claimable db g = true /\ exists gid, generations db !! gid = Some g.
Proof.
  intros Hg%newest_in. apply list_elem_of_filter in Hg as [Hp Hin]. apply generation_rows_elem in Hin. bool_props. by split_and!.
Qed.

Lemma claim_candidate_None db source gid g :
  claim_candidate db source = None -> generations db !! gid = Some g -> g_source g = source -> claimable db g = false.
Proof.
  intros Hn%newest_None Hg Hs. destruct (claimable db g) eqn:Hc; [|done]. exfalso.
  assert (Hin : g ∈ filter (fun g => bool_decide (g_source g = source) && claimable db g = true) (generation_rows db)).
  { apply list_elem_of_filter. rewrite Hc, bool_decide_eq_true_2 by done. split; [done|]. apply generation_rows_elem. eauto. }
  rewrite Hn in Hin. by apply elem_of_nil in Hin.
Qed.

Lemma fence_run db runID syncID owner epoch now :
  requireSnapshotRunFence db runID syncID owner epoch now = true ->
  exists r, runs db !! runID = Some r /\ cr_SyncID r = syncID /\ cr_Status r = Running /\ holding db runID = true.
Proof.
  unfold requireSnapshotRunFence, holding. destruct (runs db !! runID) as [r|]; [|done]. intros Hf. bool_props.
  exists r. split_and!; try done. rewrite bool_decide_eq_true_2 by done. simpl. by destruct (cr_CancelRequested r).
Qed.

(** A generation with no batch yet. *)
Lemma create_data T db st gid gd :
  data_inv T db st -> generations db !! gid = None -> g_Generation gd = gid -> g_State gd = Capturing ->
  g_NextBatchIndex gd = 0 -> g_KeyPosition gd = "" -> g_Rows gd = 0 -> owned db gd ->
  (forall i h, generations db !! i = Some h -> g_source h = g_source gd -> claimable db h = false) ->
  (forall m, sequences db !! g_source gd = Some m -> m < g_GenerationSeq gd) ->
  let db' := set_generations <[gid := gd]> (set_sequences <[g_source gd := g_GenerationSeq gd]> db) in
  data_inv (<[gid := ([], None)]> T) db' st /\ extends T (<[gid := ([], None)]> T).
Proof.
  intros Hd Hnone Hid Hs Hn Hk Hr Hown Hfree Hseq db'.
  assert (HT : T !! gid = None).
  { destruct (T !! gid) as [t|] eqn:E; [|done]. destruct (di_back _ _ _ Hd gid t E). congruence. }
  assert (Hext : extends T (<[gid := ([], None)]> T)).
  { intros i ti Hti. exists ti. rewrite lookup_insert_ne by congruence. by split_and!. }
  assert (Hout : forall kind bid, outbox db !! (gid, kind, bid) = None).
  { intros kind bid. destruct (outbox db !! (gid, kind, bid)) as [o|] eqn:E; [|done].
    destruct (di_key _ _ _ Hd _ _ E) as [Ho [h Hh]]. unfold ob_key in Ho. congruence. }
  assert (Hold : forall i g, generations db' !! i = Some g -> (i = gid /\ g = gd) \/ (i <> gid /\ generations db !! i = Some g)).
  { intros i g. simpl. destruct (decide (i = gid)) as [->|Hne].
    - rewrite lookup_insert_eq. intros [= <-]. by left.
    - rewrite lookup_insert_ne by done. by right. }
  assert (Hmax : forall i g, generations db !! i = Some g -> g_source g = g_source gd -> g_GenerationSeq g < g_GenerationSeq gd).
  { intros i g Hg Es. destruct (di_seq _ _ _ Hd i g Hg) as (m & Hm & Hle). rewrite Es in Hm. specialize (Hseq m Hm). lia. }
  split; [|done]. split.
  - by destruct (di_wf _ _ _ Hd); split.
  - intros i g [[-> ->]|[_ Hg]]%Hold; [done|by apply (di_id _ _ _ Hd)].
  - intros i g [[-> ->]|[Hne Hg]]%Hold.
    + exists ([], None), O. rewrite lookup_insert_eq. split; [done|]. split; simpl; try done; try lia.
      * rewrite Hid. right. split; [done|done|]. intros kind bid o Ho. simpl in Ho. by rewrite Hout in Ho.
      * rewrite Hs. split; [done|by intros [? ?]].
    + destruct (other_traced T db db' st gid i g Hd Hne Hg) as (t & n & Ht & Htr); [done|].
      exists t, n. by rewrite lookup_insert_ne.
  - intros i t. simpl. destruct (decide (i = gid)) as [->|Hne]; [rewrite !lookup_insert_eq; eauto|].
    rewrite !lookup_insert_ne by done. apply (di_back _ _ _ Hd).
  - intros key o Ho. destruct (di_key _ _ _ Hd key o Ho) as [E [h Hh]]. split; [done|]. simpl.
    rewrite lookup_insert_ne by congruence. by rewrite Hh.
  - intros i j g h [[-> ->]|[_ Hg]]%Hold [[-> ->]|[_ Hh]]%Hold Es Hc1 Hc2; [done|..].
    + change (claimable db h = true) in Hc2. by rewrite (Hfree j h Hh) in Hc2.
    + change (claimable db g = true) in Hc1. by rewrite (Hfree i g Hg) in Hc1.
    + by apply (di_unique _ _ _ Hd i j g h).
  - intros i g [[-> ->]|[_ Hg]]%Hold; [done|by apply (di_owned _ _ _ Hd i)].
  - intros i g [[-> ->]|[_ Hg]]%Hold; simpl; [exists (g_GenerationSeq gd); by rewrite lookup_insert_eq|].
    destruct (decide (g_source g = g_source gd)) as [E|Hne].
    + rewrite E, lookup_insert_eq. eexists. split; [done|]. specialize (Hmax i g Hg E). lia.
    + rewrite lookup_insert_ne by done. by apply (di_seq _ _ _ Hd i).
  - intros i j g h [[-> ->]|[_ Hg]]%Hold [[-> ->]|[_ Hh]]%Hold Es Hq; [done|..].
    + specialize (Hmax j h Hh (eq_sym Es)). lia.
    + specialize (Hmax i g Hg Es). lia.
    + by apply (di_numbered _ _ _ Hd i j g h).
  - intros env Henv. destruct (di_stream _ _ _ Hd env Henv) as (t & Ht & Hin). exists t.
    rewrite lookup_insert_ne by congruence. by split.
  - intros pre c suf Hst Hkind. destruct (di_order _ _ _ Hd pre c suf Hst Hkind) as (t & Ht & Hin). exists t.
    rewrite lookup_insert_ne by congruence. by split.
Qed.

(** What the claimer knows of the generation it gets. *)
Record claimed (db : control) (job : SyncJob) (runID : string) (g : SnapshotGeneration) : Prop := {
  cl_row : generations db !! g_Generation g = Some g; cl_run : g_RunID g = runID;
  cl_sync : g_SyncID g = j_SyncID job; cl_source : g_source g = job_source job;
  cl_state : g_State g = Capturing \/ g_State g = Sealed;
}.

Lemma claimed_same_trace g runID owner epoch : same_trace g (claimed_generation g runID owner epoch).
Proof. split; try done; simpl; case_bool_decide as E; try done; rewrite E; try done; by split. Qed.

Lemma claim_existing T db st g gid job runID owner epoch now :
  data_inv T db st -> generations db !! gid = Some g -> g_SyncID g = j_SyncID job -> claimable db g = true ->
  requireSnapshotRunFence db runID (j_SyncID job) owner epoch now = true ->
  let g' := claimed_generation g runID owner epoch in
  let db' := set_generations <[gid := g']> db in
  data_inv T db' st /\ relies (Some runID) T db T db' /\ (g_State g' = Capturing \/ g_State g' = Sealed).
Proof.
  intros Hd Hg Hsync Hc Hf g' db'. destruct (fence_run _ _ _ _ _ _ Hf) as (r & Hr & Hrs & Hrun & _). split_and!.
  - apply (update_generation T db st gid g); [done|done|apply claimed_same_trace|done|].
    intros _. exists r. split; [done|]. simpl. congruence.
  - split; [by apply run_frame_same|apply trail_extends_refl|]. intros i h t Hh Ht Hh' Hne. exists h, t.
    split_and!; [|done|apply rely_gen_refl]. simpl. rewrite lookup_insert_ne; [done|]. intros <-.
    assert (h = g) as -> by congruence. destruct (di_owned _ _ _ Hd gid g Hg) as (x & Hx & Hxs).
    destruct (holding_run _ _ Hh') as (x' & Hx' & Hxr & _). simpl in Hx'. rewrite Hx in Hx'. injection Hx' as <-.
    apply Hne. f_equal. apply (wf_active db (di_wf _ _ _ Hd) runID (g_RunID g) r x); try done.
    + by rewrite (status_active r Running).
    + by rewrite (status_active x Running).
    + congruence.
  - simpl. unfold claimable in Hc. destruct (g_State g); try done; [by left|by left|by right].
Qed.

Lemma claim_data T db st job runID owner epoch newID now g db' :
  data_inv T db st -> ClaimSnapshotGeneration db job runID owner epoch newID now = Ok (g, db') ->
  exists T', data_inv T' db' st /\ relies (Some runID) T db T' db' /\ runs db' = runs db /\ claimed db' job runID g.
Proof.
  intros Hd E. unfold ClaimSnapshotGeneration in E. destruct (j_BindingDigest job) as [digest|]; [|done].
  destruct (negb _); [done|]. destruct (current_revisions db job) as [|]; [|done].
  destruct (requireSnapshotRunFence db runID _ owner epoch now) eqn:Hf; [|done]. cbv zeta in E. simpl in E.
  set (db1 := retire_cancelled (job_source job) now db) in *.
  assert (Hq : quiet db db1) by apply retire_quiet.
  pose proof (quiet_data T db db1 st Hq Hd) as Hd1.
  assert (Hf1 : requireSnapshotRunFence db1 runID (j_SyncID job) owner epoch now = true) by done.
  assert (Hrel : forall T' db2, runs db2 = runs db1 -> relies (Some runID) T db1 T' db2 -> relies (Some runID) T db T' db2).
  { intros T' db2 Hr2 Hrel2. split.
    - by apply run_frame_same.
    - apply Hrel2.
    - intros i h t Hh Ht Hh' Hne. assert (generations db1 !! i = Some h) as Hh1.
      { pose proof (qt_generations _ _ Hq i) as X. rewrite Hh in X. inversion X as [? ? Hx|]; subst.
        destruct Hx as [->|(_ & Hn & _)]; [done|]. rewrite (holding_same db1 db2) in Hh' by done. congruence. }
      by apply (rl_gen _ _ _ _ _ Hrel2 i h t). }
  destruct (claim_candidate db1 (job_source job)) as [old|] eqn:Hcand.
  - apply claim_candidate_Some in Hcand as (Hsrc & Hclaim & gid & Hold).
    destruct (binding_changed old job digest) eqn:Hbind; [done|]. injection E as <- <-.
    rewrite (di_id _ _ _ Hd1 gid old Hold). unfold binding_changed in Hbind. apply orb_false_iff in Hbind as [Hsync _].
    apply negb_false_iff, String.eqb_eq in Hsync.
    destruct (claim_existing T db1 st old gid job runID owner epoch now) as (H3 & H4 & H5); try done.
    exists T. split_and!; [done|by apply Hrel|done|]. split; try done. simpl. rewrite (di_id _ _ _ Hd1 gid old Hold).
    by rewrite lookup_insert_eq.
  - destruct (generation_refused db1 _ newID _) eqn:Href; [done|]. injection E as <- <-.
    unfold generation_refused in Href. apply orb_false_iff in Href as [Href _]. apply orb_false_iff in Href as [Hmax Hnone].
    destruct (generations db1 !! newID) as [|] eqn:Hnew; [done|].
    destruct (fence_run _ _ _ _ _ _ Hf1) as (r & Hr & Hrs & _ & _).
    set (next := match sequences db !! job_source job with Some n => n + 1 | None => 1 end) in *.
    set (g := new_generation job digest newID next now runID owner epoch).
    destruct (create_data T db1 st newID g) as [H3 H4]; try done.
    + by exists r.
    + intros i h Hh Es. by apply (claim_candidate_None db1 (job_source job) i h).
    + intros m Hm. change (g_GenerationSeq g) with next. unfold next. replace (sequences db !! job_source job) with (Some m) by done. lia.
    + exists (<[newID := ([], None)]> T). split_and!; [exact H3| |done|].
      * apply Hrel; [done|]. split; [by apply run_frame_same|done|]. intros i h t Hh Ht _ _. exists h, t.
        assert (i <> newID) by congruence. simpl. rewrite !lookup_insert_ne by done.
        split_and!; [done|done|apply rely_gen_refl].
      * split; try done; [|by left]. simpl. by rewrite lookup_insert_eq.
Qed.

(** ** Yielding and failing *)

Lemma transition_data T db st g states row s terminal :
  data_inv T db st -> held db g states = Some row -> (forall x, x ∈ states -> live_generation x = true) -> s <> Sealed ->
  let db' := set_generations <[g_Generation g := with_state row s terminal]> db in
  data_inv T db' st /\ relies (Some (g_RunID g)) T db T db'.
Proof.
  intros Hd (Hrow & Hs & Hrun)%held_Some Hlive Hns db'. specialize (Hlive _ Hs). split.
  - apply (update_generation T db st (g_Generation g) row); try done; [|by unfold claimable; rewrite Hlive].
    split; try done; simpl.
    + split; [done|]. intros E. by rewrite E in Hlive.
    + by rewrite Hlive.
  - rewrite <- Hrun. by apply update_relies.
Qed.

Lemma yield_data T db st g now db' :
  data_inv T db st -> YieldSnapshotGeneration db g now = Ok db' ->
  data_inv T db' st /\ relies (Some (g_RunID g)) T db T db'.
Proof.
  intros Hd. unfold YieldSnapshotGeneration. destruct (negb _); [done|]. destruct (held _ _ _) as [row|] eqn:E; [|done].
  intros [= <-]. apply (transition_data T db st g [Capturing] row); try done. intros x. rewrite list_elem_of_singleton. by intros ->.
Qed.

Lemma fail_data T db st g now db' :
  data_inv T db st -> FailSnapshotGeneration db g now = Ok db' ->
  data_inv T db' st /\ relies (Some (g_RunID g)) T db T db'.
Proof.
  intros Hd. unfold FailSnapshotGeneration. destruct (negb _); [done|]. destruct (held _ _ _) as [row|] eqn:E; [|done].
  intros [= <-]. apply (transition_data T db st g [Capturing; Yielded] row); try done.
  intros x. rewrite elem_of_cons, list_elem_of_singleton. by intros [-> | ->].
Qed.

(** ** Cleaning *)

Lemma clean_outcome io commit storeID db seen d generation cutoff limit r db' d' :
  DeleteEligibleStagingChunk io commit storeID db seen d generation cutoff limit = (r, db', d') ->
  db' = db \/ (db' = retire_outbox generation storeID db /\ exists g, generations db !! generation = Some g /\
    live_generation (g_State g) = false /\ has_unpublished db (g_Generation g) = false).
Proof.
  unfold DeleteEligibleStagingChunk. destruct (Nat.eqb limit 0); [intros [= _ <- _]; by left|].
  destruct (generations db !! generation) as [g|] eqn:Hg; [|intros [= _ <- _]; by left].
  destruct (snapshotGenerationActive seen generation) as [active|]; [|intros [= _ <- _]; by left].
  destruct (cast_uuid generation) as [gid|]; [|intros [= _ <- _]; by left].
  destruct (EligibleForStagingCleanup _ cutoff) eqn:He; simpl; [|intros [= _ <- _]; by left].
  assert (Hok : live_generation (g_State g) = false /\ has_unpublished db (g_Generation g) = false).
  { unfold EligibleForStagingCleanup, descriptor, terminal in He. simpl in He.
    destruct (live_generation (g_State g)); [done|]. simpl in He. destruct (g_TerminalAt g); [|done].
    destruct (cutoff <? z); [done|]. destruct (_ && negb _); [done|]. bool_props. split; [done|]. by destruct (has_unpublished _ _). }
  intros E. assert (Hx : db' = db \/ db' = retire_outbox generation storeID db).
  { repeat (case_match; simplify_eq; try tauto). }
  destruct Hx as [->| ->]; [by left|right]. split; [done|]. exists g. by destruct Hok.
Qed.


Lemma retired_row gid storeID db key o :
  outbox (retire_outbox gid storeID db) !! key = Some o <-> outbox db !! key = Some o /\ ob_Generation o <> gid.
Proof. simpl. by rewrite map_lookup_filter_Some. Qed.

Lemma retired_lookup gid storeID db i kind bid :
  (forall key o, outbox db !! key = Some o -> ob_key o = key) -> i <> gid ->
  outbox (retire_outbox gid storeID db) !! (i, kind, bid) = outbox db !! (i, kind, bid).
Proof.
  intros Hk Hne. destruct (outbox db !! (i, kind, bid)) as [o|] eqn:E.
  - apply retired_row. split; [done|]. apply Hk in E. unfold ob_key in E. congruence.
  - apply eq_None_not_Some. intros [o [Ho _]%retired_row]. by pose proof (eq_trans (eq_sym E) Ho).
Qed.

Lemma clean_data T db st io commit storeID seen d generation cutoff limit r db' d' :
  data_inv T db st -> DeleteEligibleStagingChunk io commit storeID db seen d generation cutoff limit = (r, db', d') ->
  data_inv T db' st /\ relies None T db T db'.
Proof.
  intros Hd E. apply clean_outcome in E as [->|(-> & gd & Hgd & Hlive & Hun)].
  { split; [done|]. by apply relies_same; [apply run_frame_same|]. }
  pose proof (di_id _ _ _ Hd _ _ Hgd) as Hid. assert (Hkey : forall key o, outbox db !! key = Some o -> ob_key o = key).
  { intros key o Ho. apply (di_key _ _ _ Hd _ _ Ho). }
  split; [|by apply relies_same; [apply run_frame_same|]]. apply (data_step T T db); try done.
  - by destruct (di_wf _ _ _ Hd); split.
  - apply trail_extends_refl.
  - intros i. change (generations (retire_outbox generation storeID db)) with (generations db).
    destruct (generations db !! i) as [g|] eqn:Hg; constructor. split_and!; [done..| |done].
    apply claimable_back; [done..|]. rewrite !has_unpublished_true. intros (key & o & Ho & Hx & Hy).
    apply retired_row in Ho as [Ho _]. by exists key, o.
  - intros i g Hg. change (generations db !! i = Some g) in Hg. destruct (decide (i = generation)) as [->|Hne].
    + assert (g = gd) as -> by congruence. destruct (di_trace _ _ _ Hd _ _ Hgd) as (t & n & Ht & Htr). exists t, n. split; [done|].
      destruct Htr as [b1 b2 b3 b4 b5 b6 b7 b8 b9]. split; try done. left. split; [done|]. rewrite Hid.
      intros kind bid. apply eq_None_not_Some. intros [o Ho]. apply retired_row in Ho as [Ho Hne].
      apply Hkey in Ho. unfold ob_key in Ho. congruence.
    + apply (other_traced T db _ st generation); try done. intros kind bid. by apply retired_lookup.
  - intros key o Ho. apply retired_row in Ho as [Ho _]. by apply (di_key _ _ _ Hd).
Qed.

(** ** The stream *)

(** A message the trails account for may be appended. *)
Definition accounted (T : gmap string trail) (st : list SnapshotEnvelope) (env : SnapshotEnvelope) : Prop :=
  exists t, T !! Generation env = Some t /\
    ((env ∈ t.1 /\ Kind env <> SnapshotKindComplete) \/ (t.2 = Some env /\ forall e, e ∈ t.1 -> e ∈ st)).

Lemma stream_data T db st env : data_inv T db st -> accounted T st env -> data_inv T db (st ++ [env]).
Proof.
  intros Hd (t & Ht & Hacc). destruct Hd as [d1 d2 d3 d4 d5 d6 d6' d7 d8 d9 d10]. split; try done.
  - intros gid gd Hgd. destruct (d3 gid gd Hgd) as (u & n & Hu & Htr). exists u, n. split; [done|].
    apply (traced_same db db st (st ++ [env]) gd gd); [apply same_trace_refl|by apply list_subseteq_app_l|done|done].
  - intros e [He|He%list_elem_of_singleton]%elem_of_app; [by apply d9|subst e]. exists t. split; [done|].
    destruct Hacc as [[? _]|[? _]]; [by left|by right].
  - intros pre c suf Hst Hk. destruct suf as [|x suf' _] using rev_ind.
    + apply app_inj_tail in Hst as [<- <-]. exists t. destruct Hacc as [[_ Hn]|[Hc Hall]]; [done|]. by split_and!.
    + rewrite app_comm_cons, app_assoc in Hst. apply app_inj_tail in Hst as [Hst _]. by apply (d10 pre c suf').
Qed.

Lemma accounted_out T db st env out :
  data_inv T db st -> accounted T st env -> data_inv T db (st ++ opt_list (accepted env out)).
Proof. intros Hd Ha. destruct out; simpl; [by apply stream_data|by rewrite app_nil_r]. Qed.

(** ** Reading *)

(** A row of the outbox is that of the trail, whatever its mark. *)
Definition known (T : gmap string trail) (gid : string) (o : SnapshotOutbox) : Prop :=
  exists t, T !! gid = Some t /\
    ((exists k env b, t.1 !! k = Some env /\ o = batch_row (lower_at t.1 k) env b) \/
     (exists c b, t.2 = Some c /\ o = complete_row c b)).

Lemma known_row T db st key o : data_inv T db st -> outbox db !! key = Some o -> known T (ob_Generation o) o.
Proof.
  intros Hd Ho. destruct (di_key _ _ _ Hd key o Ho) as [Hk [gd Hgd]]. destruct (di_trace _ _ _ Hd _ _ Hgd) as (t & n & Ht & Htr).
  exists t. split; [done|]. pose proof (di_id _ _ _ Hd _ _ Hgd) as Hid. destruct (tr_outbox _ _ _ _ _ Htr) as [[_ Hret]|[ob oc oo]]; rewrite Hid in *.
  - rewrite <- Hk in Ho. unfold ob_key in Ho. by pose proof (eq_trans (eq_sym (Hret _ _)) Ho).
  - rewrite <- Hk in Ho. unfold ob_key in Ho. destruct (oo _ _ _ Ho) as [(k & env & He & E)|[E [c Hc]]]; rewrite E in Ho.
    + left. exists k, env, (bool_decide (k < n)%nat). split; [done|]. pose proof (eq_trans (eq_sym Ho) (ob k env He)) as X. by injection X.
    + right. destruct (oc c Hc) as [b Hb]. exists c, b. split; [done|]. pose proof (eq_trans (eq_sym Ho) Hb) as X. by injection X.
Qed.

Lemma known_mono T T' gid o : extends T T' -> known T gid o -> known T' gid o.
Proof.
  intros He (t & Ht & Hk). destruct (He gid t Ht) as (t' & Ht' & Hp & Hc). exists t'. split; [done|].
  destruct Hk as [(k & env & b & Hk & ->)|(c & b & Hk & ->)].
  - left. exists k, env, b. split; [by eapply prefix_lookup_Some|]. f_equal. symmetry. apply lower_at_prefix; [done|].
    apply lookup_lt_Some in Hk. lia.
  - right. exists c, b. by rewrite Hc by (by rewrite Hk).
Qed.

Lemma shipped_mono T T' st st' gid o : extends T T' -> st ⊆ st' -> shipped T st gid o -> shipped T' st' gid o.
Proof.
  intros He Hst (t & Ht & Hk). destruct (He gid t Ht) as (t' & Ht' & Hp & Hc). exists t'. split; [done|].
  destruct Hk as [(k & env & b & Hk & -> & Hin)|(c & b & Hk & ->)].
  - left. exists k, env, b. split_and!; [by eapply prefix_lookup_Some| |by apply Hst]. f_equal. symmetry. apply lower_at_prefix; [done|].
    apply lookup_lt_Some in Hk. lia.
  - right. exists c, b. by rewrite Hc by (by rewrite Hk).
Qed.

(** The batches not yet recorded as published are in the list. *)
Definition pending_in (gd : SnapshotGeneration) (t : trail) (todo : list SnapshotOutbox) : Prop :=
  forall k env, t.1 !! k = Some env -> g_NextBatchIndex gd <= Z.of_nat k ->
    exists b, batch_row (lower_at t.1 k) env b ∈ todo.

Lemma pending_known T db st gid o : data_inv T db st -> o ∈ PendingSnapshotOutbox db gid -> known T gid o.
Proof.
  intros Hd. unfold PendingSnapshotOutbox. rewrite merge_sort_Permutation, list_elem_of_filter. intros [Hp Hin]. bool_props.
  apply list_elem_of_fmap in Hin as ([key x] & -> & Hx). apply elem_of_map_to_list in Hx. subst gid. by apply (known_row T db st key).
Qed.

Lemma pending_all db st gd t n :
  traced db st gd t n -> g_State gd = Capturing \/ g_State gd = Sealed ->
  pending_in gd t (PendingSnapshotOutbox db (g_Generation gd)).
Proof.
  intros Htr Hs k env Hk Hle. rewrite (tr_next _ _ _ _ _ Htr) in Hle. destruct Hs as [Hs|Hs].
  2: { apply (tr_sealed _ _ _ _ _ Htr) in Hs as [c Hc]. destruct (tr_complete _ _ _ _ _ Htr c Hc) as (_ & _ & Hl).
       apply lookup_lt_Some in Hk. lia. }
  destruct (live_open _ _ _ _ _ Htr Hs) as [_ Hox]. pose proof (ox_batch _ _ _ _ Hox k env Hk) as Hrow.
  rewrite bool_decide_eq_false_2 in Hrow by lia. exists false. unfold PendingSnapshotOutbox.
  rewrite merge_sort_Permutation, list_elem_of_filter. split.
  - simpl. destruct (bo_identity _ _ _ (tr_batch _ _ _ _ _ Htr k env Hk)) as (-> & _). by rewrite String.eqb_refl.
  - apply list_elem_of_fmap. exists (batch_key (g_Generation gd) k, batch_row (lower_at t.1 k) env false).
    split; [done|]. by apply elem_of_map_to_list.
Qed.

Lemma sum_rows_perm l l' : l ≡ₚ l' -> sum_rows l = sum_rows l'.
Proof. unfold sum_rows. induction 1; simpl; lia. Qed.

Lemma sum_rows_entries envs : sum_rows (entry_of <$> envs) = rows_total envs.
Proof. unfold sum_rows, rows_total. induction envs as [|e envs IH]; [done|]. rewrite fmap_cons. cbn [foldr]. by rewrite IH. Qed.

Lemma outbox_rows_NoDup T db st : data_inv T db st -> NoDup (outbox_rows db).
Proof.
  intros Hd. unfold outbox_rows. apply NoDup_fmap_2_strong; [|apply NoDup_map_to_list].
  intros [k1 o1] [k2 o2] H3 H4 E. apply elem_of_map_to_list in H3, H4. simpl in E. subst o2.
  destruct (di_key _ _ _ Hd _ _ H3) as [<- _]. by destruct (di_key _ _ _ Hd _ _ H4) as [<- _].
Qed.

Lemma published_rows T db st gd t n :
  data_inv T db st -> generations db !! g_Generation gd = Some gd -> traced db st gd t n -> g_State gd = Capturing -> length t.1 = n ->
  published_batches db (g_Generation gd) ≡ₚ imap (fun k e => batch_row (lower_at t.1 k) e true) t.1.
Proof.
  intros Hd Hgd Htr Hs Hlen. destruct (live_open _ _ _ _ _ Htr Hs) as [Hopen [ob oc oo]]. apply NoDup_Permutation.
  - apply NoDup_filter. by apply (outbox_rows_NoDup T db st).
  - apply NoDup_alt. intros i j o. rewrite !list_lookup_imap. intros Hi Hj.
    apply fmap_Some in Hi as (e & He & ->). apply fmap_Some in Hj as (f & Hf & E). apply (f_equal ob_BatchIndex) in E. simpl in E.
    rewrite (bo_index _ _ _ (tr_batch _ _ _ _ _ Htr i e He)), (bo_index _ _ _ (tr_batch _ _ _ _ _ Htr j f Hf)) in E. lia.
  - intros o. unfold published_batches, outbox_rows. rewrite list_elem_of_filter, list_elem_of_fmap, elem_of_lookup_imap. split.
    + intros [Hp ([key x] & -> & Hx)]. apply elem_of_map_to_list in Hx. simpl in *. bool_props.
      destruct (di_key _ _ _ Hd key x Hx) as [Hk _]. unfold ob_key in Hk. subst key.
      match goal with E : ob_Generation x = _ |- _ => rewrite E in Hx end.
      destruct (oo _ _ _ Hx) as [(k & env & He & E)|[E _]].
      * exists k, env. split; [|done]. pose proof (ob k env He) as Hb. rewrite E in Hx.
        pose proof (eq_trans (eq_sym Hx) Hb) as X. rewrite bool_decide_eq_true_2 in X by (apply lookup_lt_Some in He; lia). by injection X.
      * exfalso. apply (f_equal (fun p => p.1.2)) in E. simpl in E. unfold SnapshotKindBatch, SnapshotKindComplete in *. congruence.
    + intros (k & env & -> & He). pose proof (ob k env He) as Hb. rewrite bool_decide_eq_true_2 in Hb by (apply lookup_lt_Some in He; lia).
      destruct (tr_batch _ _ _ _ _ Htr k env He) as [(Hg & _) Hk _ _ _ _]. split.
      * simpl. by rewrite Hg, Hk, !String.eqb_refl.
      * exists (batch_key (g_Generation gd) k, batch_row (lower_at t.1 k) env true). split; [done|]. by apply elem_of_map_to_list.
Qed.

(** The manifest read between two batches lists the trail. *)
Lemma manifest_read T db st gd t n entries total :
  data_inv T db st -> generations db !! g_Generation gd = Some gd -> traced db st gd t n -> g_State gd = Capturing -> length t.1 = n ->
  SnapshotManifest db (g_Generation gd) = (entries, total) -> entries ≡ₚ entry_of <$> t.1 /\ total = rows_total t.1.
Proof.
  intros Hd Hgd Htr Hs Hlen E. unfold SnapshotManifest in E. injection E as <- <-.
  assert (Hp : manifest_row <$> merge_sort item_le (published_batches db (g_Generation gd)) ≡ₚ entry_of <$> t.1).
  { rewrite merge_sort_Permutation, (published_rows T db st gd t n) by done. rewrite fmap_imap.
    by rewrite (imap_ext _ (const entry_of)), imap_const by done. }
  split; [done|]. rewrite (sum_rows_perm _ _ Hp). apply sum_rows_entries.
Qed.
End Transactions.
