(* ===== verification/CaptureWorkers.v ===== *)
(** * CaptureWorkers: what a capturing worker may rely on

    A worker of [SnapshotCapture] knows where its generation stands while its run
    holds the lease, and that knowledge survives whatever the others do.  With the
    transactions of [CaptureTransactions] this gives the invariant of the system,
    and from it what the stream of a snapshot generation is worth to its reader. *)

From S2P Require Import Prelude GoStrings GoTime Duck Journal Landing SnapshotEnvelope SnapshotStore Settler Publishing SnapshotPublishing PgSource ControlPlane ConnectorRuns SnapshotControl StagingCleanup Engine SnapshotCapture CaptureInvariant CaptureTransactions.
From stdpp Require Import sorting.
Import String.
Open Scope string_scope.
Open Scope list_scope.
Open Scope Z_scope.

#[local] Set Default Proof Using "Type*".

Section Workers.
Context `{EnvelopeCodec} `{UuidEnv}.

(** ** What a worker knows *)

(** The row is the worker's copy, up to its position. *)
Record same_row (g gd : SnapshotGeneration) : Prop := {
  sr_state : g_State gd = g_State g; sr_run : g_RunID gd = g_RunID g; sr_seq : g_GenerationSeq gd = g_GenerationSeq g;
  sr_digest : g_BindingDigest gd = g_BindingDigest g; sr_source : g_source gd = g_source g;
  sr_generation : g_Generation gd = g_Generation g;
}.

(** The copy is current and every batch is recorded. *)
Record current (g gd : SnapshotGeneration) (t : trail) : Prop := {
  cu_state : g_State gd = Capturing; cu_next : g_NextBatchIndex gd = Z.of_nat (length t.1);
  cu_copy : g_NextBatchIndex g = g_NextBatchIndex gd; cu_key : g_KeyPosition g = g_KeyPosition gd;
}.

(** The envelopes left are the batches from the [k]-th on. *)
Definition left_from (gd : SnapshotGeneration) (k : nat) (envs : list SnapshotEnvelope) : Prop :=
  forall j env, envs !! j = Some env -> batch_of gd (k + j) env.

(** The item is the last batch of the trail, and the rest of the page follows it. *)
Definition last_batch (gd : SnapshotGeneration) (t : trail) (envs : list SnapshotEnvelope) (item : SnapshotOutbox) : Prop :=
  exists k env, length t.1 = S k /\ t.1 !! k = Some env /\ item = batch_row (lower_at t.1 k) env false /\
    left_from gd (S k) envs /\ g_State gd = Capturing.

(** What is true of the tables at each point while the lease is good. *)
Definition point_ok (g gd : SnapshotGeneration) (t : trail) (p : point) : Prop :=
  match p with
  | Listing _ => g_State gd = Capturing \/ g_State gd = Sealed
  | Draining _ todo => (g_State gd = Capturing \/ g_State gd = Sealed) /\ pending_in gd t todo
  | DrainMarking _ item todo => (g_State gd = Capturing \/ g_State gd = Sealed) /\ pending_in gd t (item :: todo)
  | DrainReading _ => (g_State gd = Capturing \/ g_State gd = Sealed) /\ pending_in gd t []
  | Opening | Pulling _ | Yielding | Validating | ReadingManifest => current g gd t
  | Preparing p => current g gd t /\ pg_lower p = g_KeyPosition gd /\ left_from gd (length t.1) (pg_left p)
  | PublishingBatch p env item => last_batch gd t (pg_left p) item
  | Marking p item => last_batch gd t (pg_left p) item
  | Refreshing p item => last_batch gd t (pg_left p) item /\ g_NextBatchIndex gd = Z.of_nat (length t.1)
  | Sealing entries total => current g gd t /\ entries ≡ₚ entry_of <$> t.1 /\ total = rows_total t.1
  | Failing _ => True
  end.

(** What is true of the items whoever holds the lease. *)
Definition items_ok (T : gmap string trail) (st : list SnapshotEnvelope) (gid : string) (p : point) : Prop :=
  match p with
  | Draining _ todo => forall o, o ∈ todo -> known T gid o
  | DrainMarking _ item todo => shipped T st gid item /\ forall o, o ∈ todo -> known T gid o
  | PublishingBatch _ env item =>
      exists t k b, T !! gid = Some t /\ t.1 !! k = Some env /\ item = batch_row (lower_at t.1 k) env b /\
        Generation env = gid /\ Kind env = SnapshotKindBatch
  | Marking _ item => shipped T st gid item
  | _ => True
  end.

Definition phase_ok (T : gmap string trail) (db : control) (st : list SnapshotEnvelope) (w : worker) : Prop :=
  match w_phase w with
  | At g start p =>
      g_RunID g = w_run w /\ items_ok T st (g_Generation g) p /\
      (holding db (w_run w) = true ->
         exists gd t, generations db !! g_Generation g = Some gd /\ T !! g_Generation g = Some t /\ same_row g gd /\
           g_source gd = job_source (w_job w) /\ point_ok g gd t p)
  | _ => True
  end.

Record worker_ok (T : gmap string trail) (db : control) (st : list SnapshotEnvelope) (id : string) (w : worker) : Prop := {
  wk_run : w_run w = id;
  wk_started : started db id;
  wk_phase : phase_ok T db st w;
}.

(** ** What the others do *)

Lemma pending_advanced gd t todo upper rows :
  pending_in gd t todo -> pending_in (advanced gd upper (g_NextBatchIndex gd + 1) rows) t todo.
Proof. intros Hp k env Hk Hle. apply (Hp k env Hk). simpl in Hle. lia. Qed.

Lemma left_from_same gd gd' k envs :
  g_Generation gd' = g_Generation gd -> g_GenerationSeq gd' = g_GenerationSeq gd ->
  g_BindingDigest gd' = g_BindingDigest gd -> g_source gd' = g_source gd -> left_from gd k envs -> left_from gd' k envs.
Proof.
  intros E1 E2 E3 E4 Hl j env Hj. destruct (Hl j env Hj) as [b1 b2 b3 b4 b5 b6]. split; try done. by apply (identified_same gd).
Qed.

Lemma point_ok_rely g gd gd' t p : point_ok g gd t p -> rely_gen gd t gd' t -> point_ok g gd' t p.
Proof.
  intros Hp (_ & [->|(Hlen & upper & rows & ->)]); [done|].
  assert (Hno : forall g, current g gd t -> False).
  { intros g0 Hc. pose proof (cu_next _ _ _ Hc). lia. }
  assert (Hlast : forall envs item, last_batch gd t envs item ->
    last_batch (advanced gd upper (g_NextBatchIndex gd + 1) rows) t envs item).
  { intros envs item (k & env & H3 & H4 & H5 & H6 & H7). exists k, env. split_and!; try done. by apply (left_from_same gd). }
  destruct p; simpl in *; try (by destruct (Hno _ ltac:(eassumption))); try done.
  - destruct Hp. split; [done|by apply pending_advanced].
  - destruct Hp. split; [done|by apply pending_advanced].
  - destruct Hp. split; [done|by apply pending_advanced].
  - by destruct (Hno g) ; destruct Hp.
  - by apply Hlast.
  - by apply Hlast.
  - destruct Hp. lia.
  - by destruct (Hno g); destruct Hp.
Qed.

Lemma items_mono T T' st st' gid p : extends T T' -> st ⊆ st' -> items_ok T st gid p -> items_ok T' st' gid p.
Proof.
  intros He Hst. destruct p; simpl; try done.
  - intros Hk o Ho. by apply (known_mono T), Hk.
  - intros [Hs Hk]. split; [by apply (shipped_mono T _ st)|]. intros o Ho. by apply (known_mono T), Hk.
  - intros (t & k & b & Ht & Hk & -> & Hg). destruct (He _ _ Ht) as (t' & Ht' & Hp & _). exists t', k, b.
    split_and!; [done|by eapply prefix_lookup_Some| |apply Hg..]. f_equal. symmetry. apply lower_at_prefix; [done|].
    apply lookup_lt_Some in Hk. lia.
  - by apply (shipped_mono T _ st).
Qed.

Lemma worker_rely who T db T' db' st st' id w :
  worker_ok T db st id w -> relies who T db T' db' -> who <> Some id -> st ⊆ st' -> worker_ok T' db' st' id w.
Proof.
  intros [Hr Hs Hp] Hrel Hne Hst. split; [done|by eapply started_forth, Hs; apply Hrel|]. unfold phase_ok in *.
  destruct (w_phase w) as [|g start p|]; [done| |done]. destruct Hp as (Hg & Hi & Hh). split_and!; [done| |].
  - eapply items_mono; [apply Hrel|done|done].
  - intros Hhold. rewrite Hr in *. destruct Hh as (gd & t & Hgd & Ht & Hsame & Hsrc & Hpt).
    { by apply (holding_back db db'); [apply Hrel| |]. }
    assert (Hrun : g_RunID gd = id) by (by rewrite (sr_run _ _ Hsame)).
    destruct (rl_gen _ _ _ _ _ Hrel _ gd t Hgd Ht) as (gd' & t' & Hgd' & Ht' & Hre); [by rewrite Hrun|by rewrite Hrun|].
    exists gd', t'. destruct Hre as [-> Hre]. split_and!; [done|done| | |by eapply point_ok_rely; [|split]].
    + destruct Hre as [->|(_ & upper & rows & ->)]; [done|]. by destruct Hsame; split.
    + by destruct Hre as [->|(_ & upper & rows & ->)].
Qed.

(** ** What a step does *)

Definition stepped (T : gmap string trail) (db : control) (w : worker) (ph : phase) (db' : control)
    (st' : list SnapshotEnvelope) : Prop :=
  exists T', data_inv T' db' st' /\ relies (Some (w_run w)) T db T' db' /\ phase_ok T' db' st' (at_phase w ph).

Definition knows (T : gmap string trail) (db : control) (w : worker) (g : SnapshotGeneration) (p : point) : Prop :=
  holding db (w_run w) = true ->
  exists gd t, generations db !! g_Generation g = Some gd /\ T !! g_Generation g = Some t /\ same_row g gd /\
    g_source gd = job_source (w_job w) /\ point_ok g gd t p.

Lemma knows_weaken T db w g p p' :
  (forall gd t, point_ok g gd t p -> point_ok g gd t p') -> knows T db w g p -> knows T db w g p'.
Proof.
  intros Hw Hk Hh. destruct (Hk Hh) as (gd & t & Hgd & Ht & Hs & Hj & Hp). exists gd, t. split_and!; try done. by apply Hw.
Qed.

Lemma stay T db st w ph : data_inv T db st -> phase_ok T db st (at_phase w ph) -> stepped T db w ph db st.
Proof. intros Hd Hp. exists T. split_and!; [done|by apply relies_same; [apply run_frame_same|]|done]. Qed.

Lemma call_outcomes {A} a db (op : result snapshot_error (A * control)) fail k ph db' :
  call a db op fail k = (ph, db') ->
  (exists e, ph = fail e /\ db' = db) \/ (exists x, op = Ok (x, db') /\ ((exists e, ph = fail e) \/ ph = k x)).
Proof.
  unfold call. destruct (an_call a), op as [[x d]|e]; intros [= <- <-]; eauto 6.
Qed.

Lemma relies_weaken who T db T' db' : relies None T db T' db' -> relies who T db T' db'.
Proof. intros [f e g]. split; [done|done|]. intros gid gd t Hg Ht Hh _. by apply (g gid gd t). Qed.

Lemma publish_accepted marshal b i env out : PublishSnapshotEnvelope marshal b i env = (out, None) -> accepted env out = Some env.
Proof.
  unfold PublishSnapshotEnvelope. destruct (negb _); [done|]. destruct (_ && _); [done|].
  destruct (MarshalSnapshotEnvelope _ env); [|done]. destruct (publish_fails b i); [done|].
  destruct (_ && _); [done|]. by intros [= <-].
Qed.

(** What a known item's payload reads back as. *)
Lemma known_payload T db st gid o :
  data_inv T db st -> known T gid o ->
  exists env, ParseSnapshotEnvelope (ob_Payload o) = Some env /\ accounted T st env /\
    (forall st', env ∈ st' -> shipped T st' gid o).
Proof.
  intros Hd (t & Ht & Hk). destruct (di_back _ _ _ Hd gid t Ht) as [gd Hgd]. pose proof (di_id _ _ _ Hd gid gd Hgd) as Hid.
  destruct (di_trace _ _ _ Hd gid gd Hgd) as (t' & n & Ht' & Htr). assert (t' = t) as -> by congruence.
  destruct Hk as [(k & env & b & Hk & ->)|(c & b & Hc & ->)].
  - destruct (tr_batch _ _ _ _ _ Htr k env Hk) as [(Hg & _) Hkind _ _ Hv _]. exists env. split_and!.
    + by apply parse_marshal.
    + exists t. rewrite Hg, Hid. split; [done|left]. split; [by eapply list_elem_of_lookup_2|by rewrite Hkind].
    + intros st' Hin. exists t. split; [done|left]. by exists k, env, b.
  - destruct (tr_complete _ _ _ _ _ Htr c Hc) as ((Hg & _) & Hdc & Hl). exists c. split_and!.
    + apply parse_marshal, Hdc.
    + exists t. rewrite Hg, Hid. split; [done|right]. split; [done|]. intros e [k Hk]%list_elem_of_lookup.
      apply (tr_sent _ _ _ _ _ Htr k e Hk). apply lookup_lt_Some in Hk. lia.
    + intros st' _. exists t. split; [done|right]. by exists c, b.
Qed.

(** The trail of a row that is there. *)
Lemma row_trace T db st gid gd t :
  data_inv T db st -> generations db !! gid = Some gd -> T !! gid = Some t -> exists n, traced db st gd t n.
Proof.
  intros Hd Hgd Ht. destruct (di_trace _ _ _ Hd gid gd Hgd) as (t' & n & Ht' & Htr). assert (t' = t) as -> by congruence. by exists n.
Qed.

(** Recording an item: what the worker knows carries over, and the item is recorded. *)
Lemma mark_knows T db st w g p p' o db' :
  data_inv T db st -> g_RunID g = w_run w -> shipped T st (g_Generation g) o ->
  MarkSnapshotOutboxPublished db (g_Generation g) o = Ok db' -> knows T db w g p ->
  (forall gd t n, traced db' st gd t n ->
     (forall k env b, t.1 !! k = Some env -> o = batch_row (lower_at t.1 k) env b -> Z.of_nat k < g_NextBatchIndex gd) ->
     point_ok g gd t p -> point_ok g gd t p') ->
  data_inv T db' st /\ relies None T db T db' /\ knows T db' w g p'.
Proof.
  intros Hd Hrun Hs Hm Hk Hw. destruct (mark_data T db st (g_Generation g) o db' Hd Hs Hm) as (Hd' & Hrel & Hruns & Hpost).
  split_and!; [done|done|]. intros Hh. rewrite (holding_same db db') in Hh by done.
  destruct (Hk Hh) as (gd & t & Hgd & Ht & Hsame & Hsrc & Hp).
  destruct (rl_gen _ _ _ _ _ Hrel _ gd t Hgd Ht) as (gd' & t' & Hgd' & Ht' & Hre); [|done|].
  { by rewrite (holding_same db db'), (sr_run _ _ Hsame), Hrun. }
  pose proof Hre as [-> Hadv]. exists gd', t. split_and!; [done|done| | |].
  - destruct Hadv as [->|(_ & upper & rows & ->)]; [done|]. by destruct Hsame; split.
  - by destruct Hadv as [->|(_ & upper & rows & ->)].
  - destruct (row_trace _ _ _ _ _ _ Hd' Hgd' Ht') as [n Htr]. apply (Hw gd' t n Htr).
    + intros k env b Hk' Ho. by apply (Hpost t k env b gd').
    + by eapply point_ok_rely.
Qed.

(** ** Draining *)

Lemma listing_step T db st w g start own a ph db' :
  data_inv T db st -> phase_ok T db st (at_phase w (At g start (Listing own))) ->
  call a db (read db (Ok (PendingSnapshotOutbox db (g_Generation g)))) (drain_failed own (g_Rows g) start)
    (fun items => At g start (match items with [] => DrainReading own | _ => Draining own items end)) = (ph, db') ->
  stepped T db w ph db' st.
Proof.
  intros Hd (Hrun & _ & Hk) E. apply call_outcomes in E as [(e & -> & ->)|(items & E & Hph)]; [by apply stay|].
  simpl in E. injection E as <- <-. apply stay; [done|]. destruct Hph as [[e ->]| ->]; [done|].
  assert (Hpend : forall gd t, generations db !! g_Generation g = Some gd -> T !! g_Generation g = Some t ->
    (g_State gd = Capturing \/ g_State gd = Sealed) -> pending_in gd t (PendingSnapshotOutbox db (g_Generation g))).
  { intros gd t Hgd Ht Hs. destruct (row_trace _ _ _ _ _ _ Hd Hgd Ht) as [n Htr].
    rewrite <- (di_id _ _ _ Hd _ _ Hgd). by apply (pending_all db st gd t n). }
  pose proof (fun o => pending_known T db st (g_Generation g) o Hd) as Hkn.
  destruct (PendingSnapshotOutbox db (g_Generation g)) as [|o todo]; (split_and!; [done|done|]); intros Hh;
    destruct (Hk Hh) as (gd & t & Hgd & Ht & Hs & Hj & Hp); exists gd, t; split_and!; try done; simpl in *; split; try done; by apply Hpend.
Qed.

Lemma draining_step T db st w g start own a todo ph db' out :
  data_inv T db st -> phase_ok T db st (at_phase w (At g start (Draining own todo))) ->
  work_at a w g start (Draining own todo) db = (ph, db', out) -> stepped T db w ph db' (st ++ opt_list out).
Proof.
  intros Hd (Hrun & Hi & Hk) E. destruct todo as [|item todo]; simpl in E.
  { injection E as <- <- <-. rewrite app_nil_r. apply stay; [done|]. by split_and!. }
  destruct (known_payload T db st (g_Generation g) item Hd) as (env & Hparse & Hacc & Hship); [apply Hi; by left|].
  rewrite Hparse in E. destruct (PublishSnapshotEnvelope _ _ 0 env) as [o [e|]] eqn:Hpub; injection E as <- <- <-.
  - apply stay; [by apply accounted_out|done].
  - apply stay; [by apply accounted_out|]. rewrite (publish_accepted _ _ _ _ _ Hpub). split_and!; [done| |done].
    simpl. split; [apply Hship, elem_of_app; right; by left|]. intros x Hx. apply Hi. by right.
Qed.

Lemma drain_marking_step T db st w g start own a item todo ph db' :
  data_inv T db st -> phase_ok T db st (at_phase w (At g start (DrainMarking own item todo))) ->
  call a db (with_unit (MarkSnapshotOutboxPublished db (g_Generation g) item)) (drain_failed own (g_Rows g) start)
    (fun _ => At g start (match todo with [] => DrainReading own | _ => Draining own todo end)) = (ph, db') ->
  stepped T db w ph db' st.
Proof.
  intros Hd (Hrun & [Hs Hi] & Hk) E. apply call_outcomes in E as [(e & -> & ->)|(u & E & Hph)]; [by apply stay|].
  unfold with_unit in E. destruct (MarkSnapshotOutboxPublished db _ item) as [d|] eqn:Hm; [|done]. injection E as <- <-.
  destruct (mark_knows T db st w g (DrainMarking own item todo) (Draining own todo) item d) as (Hd' & Hrel & Hk'); try done.
  { intros gd t n _ Hnew [Hst Hp]. split; [done|]. intros k env Hke Hle. destruct (Hp k env Hke Hle) as [b Hb].
    apply elem_of_cons in Hb as [<-|Hb]; [|by exists b]. pose proof (Hnew k env b Hke eq_refl). lia. }
  exists T. split_and!; [done|by apply relies_weaken|]. destruct Hph as [[e ->]| ->]; [done|].
  destruct todo; by split_and!.
Qed.

Lemma current_row gd t db st n : traced db st gd t n -> g_State gd = Capturing -> pending_in gd t [] -> current gd gd t.
Proof.
  intros Htr Hs Hp. split; try done. rewrite (tr_next _ _ _ _ _ Htr). pose proof (tr_len _ _ _ _ _ Htr) as Hl.
  destruct (decide (length t.1 = n)) as [->|Hne]; [done|]. destruct (lookup_lt_is_Some_2 t.1 n) as [env Henv]; [lia|].
  destruct (Hp n env Henv) as [b Hb]; [by rewrite (tr_next _ _ _ _ _ Htr)|]. by apply elem_of_nil in Hb.
Qed.

Lemma same_row_refl gd : same_row gd gd.
Proof. by split. Qed.

(** Reading the row again: what was known of it is known of the copy. *)
Lemma reread T db st w g start p row p' :
  data_inv T db st -> phase_ok T db st (at_phase w (At g start p)) -> SnapshotGenerationRow db (g_Generation g) = Ok row ->
  (forall r, generations db !! g_Generation g = Some r -> g_RunID r = w_run w) ->
  (forall gd t n, traced db st gd t n -> g_State gd = g_State row -> point_ok g gd t p -> point_ok gd gd t p') ->
  g_RunID row = w_run w /\ knows T db w row p'.
Proof.
  intros Hd (Hrun & _ & Hk) Hrow Hown Hw. unfold SnapshotGenerationRow in Hrow.
  destruct (generations db !! g_Generation g) as [r|] eqn:Hr; [|done]. injection Hrow as ->. split; [by apply Hown|].
  intros Hh. destruct (Hk Hh) as (gd & t & Hgd & Ht & Hs & Hj & Hp). assert (gd = row) as -> by congruence.
  destruct (row_trace _ _ _ _ _ _ Hd Hr Ht) as [n Htr]. rewrite (sr_generation _ _ Hs).
  exists row, t. split_and!; try done. by apply (Hw row t n).
Qed.

Lemma drain_reading_step T db st w g start own a ph db' :
  data_inv T db st -> phase_ok T db st (at_phase w (At g start (DrainReading own))) ->
  (forall r, generations db !! g_Generation g = Some r -> g_RunID r = w_run w) ->
  call a db (read db (SnapshotGenerationRow db (g_Generation g))) (drain_failed own 0 start)
    (fun g => drained own g start) = (ph, db') -> stepped T db w ph db' st.
Proof.
  intros Hd Hph Hown E. apply call_outcomes in E as [(e & -> & ->)|(row & E & Hph')]; [by apply stay|].
  unfold read in E. destruct (SnapshotGenerationRow db _) as [r|] eqn:Hr; [|done]. injection E as -> <-.
  apply stay; [done|]. destruct Hph' as [[e ->]| ->]; [done|]. unfold drained. destruct own; [done|].
  case_bool_decide as Hseal; [done|].
  destruct (reread T db st w g start (DrainReading false) row Opening Hd Hph Hr Hown) as [Hrun Hk]; [|by split_and!].
  intros gd t n Htr Hs [Hst Hp]. apply (current_row gd t db st n Htr); [|done]. destruct Hst as [?|?]; [done|congruence].
Qed.

(** ** Cutting a page *)

Lemma built_left g gd w b maxPayload lands envs n :
  BuildSnapshotBatches marshal_envelope b maxPayload (common_envelope w g) lands (Z.of_nat n) = Some (Ok envs) ->
  Z.of_nat n <= max_i64 + 1 -> same_row g gd -> g_source gd = job_source (w_job w) ->
  left_from gd n envs.
Proof.
  intros E Hn Hs Hsrc. assert (Hb : built marshal_envelope (common_envelope w g) (publishBudget maxPayload) (Z.of_nat n) envs).
  { destruct (durable b) eqn:Hdur; [|unfold BuildSnapshotBatches in E; by rewrite Hdur in E].
    destruct (BuildSnapshotBatches_spec marshal_envelope b maxPayload (common_envelope w g) lands (Z.of_nat n) Hdur) as (r & Hr & Hres).
    rewrite E in Hr. injection Hr as <-. by destruct Hres as (new & _ & Hb & _). }
  assert (Hidx : forall j env, envs !! j = Some env -> Z.of_nat (n + j) <= max_i64).
  { intros j env Hj. destruct (decide (Z.of_nat (n + j) <= max_i64)) as [|Hbig]; [done|exfalso].
    set (i := Z.to_nat (max_i64 + 1 - Z.of_nat n)).
    assert (Hi : (i <= j)%nat) by (unfold i; lia). destruct (lookup_lt_is_Some_2 envs i) as [x Hx].
    { apply lookup_lt_Some in Hj. lia. }
    destruct (Hb i x Hx) as ((rows & d & ->) & Hv & _). apply valid_batch_index in Hv.
    replace (Z.of_nat n + Z.of_nat i) with (max_i64 + 1) in Hv by (unfold i; lia). by vm_compute in Hv. }
  intros j env Hj. specialize (Hidx j env Hj). destruct (Hb j env Hj) as ((rows & d & ->) & Hv & _).
  replace (i64 (Z.of_nat n + Z.of_nat j)) with (Z.of_nat (n + j)) in * by (rewrite i64_small; unfold min_i64, two63; lia).
  split; try done. split_and!; simpl; [by rewrite (sr_generation _ _ Hs)|by rewrite (sr_seq _ _ Hs)|by rewrite (sr_digest _ _ Hs)|].
  by rewrite Hsrc.
Qed.

(** ** Pulling a page *)

Lemma trail_bound db st gd t n : traced db st gd t n -> Z.of_nat (length t.1) <= max_i64 + 1.
Proof.
  intros Htr. destruct t.1 as [|e l] eqn:E using rev_ind; [by vm_compute|]. rewrite length_app. simpl.
  assert (Hl : t.1 !! length l = Some e) by (rewrite E; by apply list_lookup_middle).
  pose proof (batch_index_bound _ _ _ (tr_batch _ _ _ _ _ Htr _ _ Hl)). lia.
Qed.

(** A worker at a point it has just reached without touching the tables. *)
Lemma at_point T db st w g start p p' :
  phase_ok T db st (at_phase w (At g start p)) -> items_ok T st (g_Generation g) p' ->
  (forall gd t, point_ok g gd t p -> point_ok g gd t p') -> phase_ok T db st (at_phase w (At g start p')).
Proof. intros (Hrun & _ & Hk) Hi Hw. split_and!; [done|done|]. by apply (knows_weaken _ _ _ _ p). Qed.

Lemma turn_over_ok T db st w g start p :
  phase_ok T db st (at_phase w (At g start Opening)) -> phase_ok T db st (at_phase w (turn_over g start p)).
Proof.
  intros Hp. unfold turn_over, after_loop. destruct (_ || _); [by eapply at_point|].
  destruct (negb (pg_more p)); [by eapply at_point|]. destruct (pg_turn p); by eapply at_point.
Qed.

Lemma next_batch_ok T db st w g start p :
  phase_ok T db st (at_phase w (At g start (Preparing p))) -> phase_ok T db st (at_phase w (next_batch g start p)).
Proof.
  intros Hp. unfold next_batch. destruct (pg_left p); [|done]. apply turn_over_ok. eapply at_point; [done|done|]. by intros gd t [? _].
Qed.

Lemma opening_step T db st w g start a ph db' out :
  data_inv T db st -> phase_ok T db st (at_phase w (At g start Opening)) ->
  work_at a w g start Opening db = (ph, db', out) -> stepped T db w ph db' (st ++ opt_list out).
Proof.
  intros Hd Hp E. simpl in E. injection E as <- <- <-. rewrite app_nil_r. apply stay; [done|].
  destruct (negb (an_open a)); [done|]. destruct (an_key a); [by eapply at_point..|done].
Qed.

Lemma pulled_ok T db st w g start n a :
  data_inv T db st -> phase_ok T db st (at_phase w (At g start (Pulling n))) -> phase_ok T db st (at_phase w (pulled a w g start n)).
Proof.
  intros Hd Hp. assert (Hop : phase_ok T db st (at_phase w (At g start Opening))) by (by eapply at_point).
  unfold pulled, after_loop. destruct (an_pull a) as [pull|]; [|done]. destruct (pr_Rows pull) as [|r rows].
  { destruct (pr_HasMore pull); by eapply at_point. }
  destruct (landed_keys _) as [lands|]; [|done].
  destruct (BuildSnapshotBatches _ _ _ _ _ _) as [[envs|]|] eqn:Hb; [|done|done]. apply next_batch_ok.
  destruct Hop as (Hrun & _ & Hk). split_and!; [done|done|]. intros Hh. destruct (Hk Hh) as (gd & t & Hgd & Ht & Hs & Hj & Hc).
  exists gd, t. split_and!; try done. simpl in *. split_and!; [done|apply Hc|]. simpl. destruct (row_trace _ _ _ _ _ _ Hd Hgd Ht) as [m Htr].
  rewrite (cu_copy _ _ _ Hc), (cu_next _ _ _ Hc) in Hb. by eapply built_left; [done|by eapply trail_bound| |].
Qed.

(** ** One batch *)

Lemma preparing_step T db st w g start p a ph db' out :
  data_inv T db st -> phase_ok T db st (at_phase w (At g start (Preparing p))) ->
  work_at a w g start (Preparing p) db = (ph, db', out) -> stepped T db w ph db' (st ++ opt_list out).
Proof.
  intros Hd Hp E. simpl in E. destruct (pg_left p) as [|env rest] eqn:Hleft.
  { injection E as <- <- <-. rewrite app_nil_r. apply stay; [done|]. apply turn_over_ok. eapply at_point; [done|done|]. by intros gd t [? _]. }
  injection E as E <-. rewrite app_nil_r. apply call_outcomes in E as [(e & -> & ->)|(item & E & Hph)]; [by apply stay|].
  destruct Hp as (Hrun & _ & Hk). assert (Hhold : holding db (w_run w) = true).
  { unfold PrepareSnapshotEnvelope in E. destruct (MarshalSnapshotEnvelope _ env); [|done]. destruct (negb _); [done|].
    destruct (fenced db g (an_now a)) eqn:Hf; [|done]. apply fence_run in Hf as (r & _ & _ & _ & Hf). by rewrite Hrun in Hf. }
  destruct (Hk Hhold) as (gd & t & Hgd & Ht & Hs & Hj & Hc & Hlow & Hl). rewrite Hleft in Hl. rewrite Hlow in E.
  destruct (row_trace _ _ _ _ _ _ Hd Hgd Ht) as [n Htr]. assert (Hlen : length t.1 = n).
  { pose proof (cu_next _ _ _ Hc) as Hn. rewrite (tr_next _ _ _ _ _ Htr) in Hn. lia. }
  assert (Hb : batch_of gd n env) by (pose proof (Hl O env eq_refl) as Hb; by rewrite Nat.add_0_r, Hlen in Hb).
  destruct (prepare_data T db st _ gd t n g env (an_now a) item db' Hd Hgd Ht Htr (cu_state _ _ _ Hc) Hlen eq_refl Hb E)
    as (Hitem & Hd' & Hrel & Hruns & Hgens).
  exists (<[g_Generation g := (t.1 ++ [env], t.2)]> T). split; [exact Hd'|]. split.
  { rewrite (sr_run _ _ Hs) in Hrel. by rewrite Hrun in Hrel. }
  destruct Hph as [[e ->]| ->]; [done|]. assert (Hnth : (t.1 ++ [env]) !! n = Some env) by (rewrite <- Hlen; by apply list_lookup_middle).
  assert (Hitem' : item = batch_row (lower_at (t.1 ++ [env]) n) env false).
  { rewrite (lower_at_prefix t.1); [done|by eexists|lia]. }
  split_and!; [done| |].
  - exists (t.1 ++ [env], t.2), n, false. rewrite lookup_insert_eq. destruct Hb as [(Hg & _) Hkind _ _ _ _]. split_and!; try done.
    rewrite Hg. apply (di_id _ _ _ Hd _ _ Hgd).
  - intros _. exists gd, (t.1 ++ [env], t.2). rewrite Hgens, lookup_insert_eq. split_and!; try done.
    exists n, env. split_and!; try done; [simpl; rewrite length_app, Hlen; simpl; lia| |apply Hc].
    intros j x Hx. replace (S n + j)%nat with (length t.1 + S j)%nat by lia. by apply (Hl (S j)).
Qed.

Lemma publishing_step T db st w g start p env item a ph db' out :
  data_inv T db st -> phase_ok T db st (at_phase w (At g start (PublishingBatch p env item))) ->
  work_at a w g start (PublishingBatch p env item) db = (ph, db', out) -> stepped T db w ph db' (st ++ opt_list out).
Proof.
  intros Hd (Hrun & (t & k & b & Ht & Hk & Hitem & Hg & Hkind) & Hkn) E. simpl in E.
  assert (Hacc : accounted T st env).
  { exists t. rewrite Hg. split; [done|left]. split; [by eapply list_elem_of_lookup_2|]. by rewrite Hkind. }
  destruct (PublishSnapshotEnvelope _ _ 0 env) as [o [e|]] eqn:Hpub; injection E as <- <- <-.
  - apply stay; [by apply accounted_out|done].
  - apply stay; [by apply accounted_out|]. rewrite (publish_accepted _ _ _ _ _ Hpub). split_and!; [done| |done].
    exists t. split; [done|left]. exists k, env, b. split_and!; try done. apply elem_of_app. right. by left.
Qed.

Lemma marking_step T db st w g start p item a ph db' :
  data_inv T db st -> phase_ok T db st (at_phase w (At g start (Marking p item))) ->
  call a db (with_unit (MarkSnapshotOutboxPublished db (g_Generation g) item)) (stop g start)
    (fun _ => At g start (Refreshing p item)) = (ph, db') -> stepped T db w ph db' st.
Proof.
  intros Hd (Hrun & Hs & Hk) E. apply call_outcomes in E as [(e & -> & ->)|(u & E & Hph)]; [by apply stay|].
  unfold with_unit in E. destruct (MarkSnapshotOutboxPublished db _ item) as [d|] eqn:Hm; [|done]. injection E as <- <-.
  destruct (mark_knows T db st w g (Marking p item) (Refreshing p item) item d) as (Hd' & Hrel & Hk'); try done.
  { intros gd t n Htr Hnew Hl. split; [done|]. destruct Hl as (k & env & Hlen & Hke & -> & _).
    pose proof (Hnew k env false Hke eq_refl) as Hlt. rewrite (tr_next _ _ _ _ _ Htr) in *. pose proof (tr_len _ _ _ _ _ Htr). lia. }
  exists T. split_and!; [done|by apply relies_weaken|]. destruct Hph as [[e ->]| ->]; [done|]. by split_and!.
Qed.

Lemma refreshing_step T db st w g start p item a ph db' :
  data_inv T db st -> phase_ok T db st (at_phase w (At g start (Refreshing p item))) ->
  (forall r, generations db !! g_Generation g = Some r -> g_RunID r = w_run w) ->
  call a db (read db (SnapshotGenerationRow db (g_Generation g))) (reread_failed start)
    (fun g => next_batch g start {| pg_turn := pg_turn p; pg_prev := pg_prev p; pg_lower := ob_UpperKey item;
                                    pg_left := pg_left p; pg_nextKey := pg_nextKey p; pg_more := pg_more p |}) = (ph, db') ->
  stepped T db w ph db' st.
Proof.
  intros Hd Hph Hown E. apply call_outcomes in E as [(e & -> & ->)|(row & E & Hph')]; [by apply stay|].
  unfold read in E. destruct (SnapshotGenerationRow db _) as [r|] eqn:Hr; [|done]. injection E as -> <-.
  apply stay; [done|]. destruct Hph' as [[e ->]| ->]; [done|]. apply next_batch_ok.
  match goal with |- phase_ok _ _ _ (at_phase _ (At _ _ ?q)) => set (p' := q) end.
  destruct (reread T db st w g start (Refreshing p item) row p' Hd Hph Hr Hown) as [Hrun Hk]; [|by split_and!].
  intros gd t n Htr _ [(k & env & Hlen & Hke & -> & Hl & Hst) Hnext]. simpl. split_and!.
  - by split.
  - rewrite (tr_key _ _ _ _ _ Htr). rewrite (tr_next _ _ _ _ _ Htr) in Hnext. replace n with (S k) by lia. simpl. by rewrite Hke.
  - by rewrite Hlen.
Qed.

(** ** The end of a capture *)

Lemma yielding_step T db st w g start a ph db' :
  data_inv T db st -> phase_ok T db st (at_phase w (At g start Yielding)) ->
  call a db (with_unit (YieldSnapshotGeneration db g (an_now a))) (stop g start)
    (fun _ => Finished {| cp_Rows := g_Rows g - start; cp_Err := None; cp_Finalized := false |}) = (ph, db') ->
  stepped T db w ph db' st.
Proof.
  intros Hd (Hrun & _) E. apply call_outcomes in E as [(e & -> & ->)|(u & E & Hph)]; [by apply stay|].
  unfold with_unit in E. destruct (YieldSnapshotGeneration db g _) as [d|] eqn:Hy; [|done]. injection E as _ <-.
  apply (yield_data T db st) in Hy as [Hd' Hrel]; [|done]. exists T. rewrite Hrun in Hrel. split_and!; [done|done|].
  by destruct Hph as [[e ->]| ->].
Qed.

Lemma failing_step T db st w g start e a ph db' :
  data_inv T db st -> phase_ok T db st (at_phase w (At g start (Failing e))) ->
  call a db (with_unit (FailSnapshotGeneration db g (an_now a))) (fun _ => stop g start e) (fun _ => stop g start e) = (ph, db') ->
  stepped T db w ph db' st.
Proof.
  intros Hd (Hrun & _) E. apply call_outcomes in E as [(e' & -> & ->)|(u & E & Hph)]; [by apply stay|].
  unfold with_unit in E. destruct (FailSnapshotGeneration db g _) as [d|] eqn:Hy; [|done]. injection E as _ <-.
  apply (fail_data T db st) in Hy as [Hd' Hrel]; [|done]. exists T. rewrite Hrun in Hrel. split_and!; [done|done|].
  by destruct Hph as [[e' ->]| ->].
Qed.

Lemma manifest_step T db st w g start a ph db' :
  data_inv T db st -> phase_ok T db st (at_phase w (At g start ReadingManifest)) ->
  call a db (read db (Ok (SnapshotManifest db (g_Generation g)))) (stop g start)
    (fun m => At g start (Sealing (fst m) (snd m))) = (ph, db') -> stepped T db w ph db' st.
Proof.
  intros Hd (Hrun & _ & Hk) E. apply call_outcomes in E as [(e & -> & ->)|(m & E & Hph)]; [by apply stay|].
  simpl in E. injection E as <- <-. apply stay; [done|]. destruct Hph as [[e ->]| ->]; [done|].
  split_and!; [done|done|]. intros Hh. destruct (Hk Hh) as (gd & t & Hgd & Ht & Hs & Hj & Hc). exists gd, t. split_and!; try done.
  simpl. split; [done|]. destruct (row_trace _ _ _ _ _ _ Hd Hgd Ht) as [n Htr]. pose proof (di_id _ _ _ Hd _ _ Hgd) as Hid.
  apply (manifest_read T db st gd t n); try done; [by rewrite Hid|apply Hc| |rewrite Hid; apply surjective_pairing].
  pose proof (cu_next _ _ _ Hc) as Hn. rewrite (tr_next _ _ _ _ _ Htr) in Hn. lia.
Qed.

(** A seal ends its run. *)
Lemma seal_ends_run db g c rows now out db' :
  SealSnapshotGeneration marshal_envelope db g c rows now = Ok (out, db') ->
  holding db (g_RunID g) = true /\ holding db' (g_RunID g) = false /\ Validate c = None.
Proof.
  unfold SealSnapshotGeneration, MarshalSnapshotEnvelope. destruct (negb _); [done|]. destruct (Validate c); [done|].
  destruct (fenced db g now) eqn:Hf; [|done]. destruct (insert_item _ db) as [[o db1]|]; [|done]. cbv zeta. simpl.
  destruct (negb _); [done|]. destruct (held _ _ _); [|done]. destruct (final_run _ g) as [r|]; [|done]. intros [= <- <-].
  apply fence_run in Hf as (? & _ & _ & _ & Hf). split_and!; [done| |done]. unfold holding. simpl. by rewrite lookup_insert_eq.
Qed.

Lemma sealing_step T db st w g start entries total a ph db' out :
  data_inv T db st -> phase_ok T db st (at_phase w (At g start (Sealing entries total))) ->
  work_at a w g start (Sealing entries total) db = (ph, db', out) -> stepped T db w ph db' (st ++ opt_list out).
Proof.
  intros Hd (Hrun & _ & Hk) E. simpl in E. destruct (SnapshotManifestDigest entries) as [manifest|] eqn:Hman.
  2: { injection E as <- <- <-. rewrite app_nil_r. by apply stay. }
  injection E as E <-. rewrite app_nil_r. apply call_outcomes in E as [(e & -> & ->)|(o & E & Hph)]; [by apply stay|].
  pose proof (seal_ends_run _ _ _ _ _ _ _ E) as (Hhold & Hends & Hvalid). rewrite Hrun in *.
  destruct (Hk Hhold) as (gd & t & Hgd & Ht & Hs & Hj & Hc & Hperm & Htot).
  destruct (row_trace _ _ _ _ _ _ Hd Hgd Ht) as [n Htr]. assert (Hlen : length t.1 = n).
  { pose proof (cu_next _ _ _ Hc) as Hn. rewrite (tr_next _ _ _ _ _ Htr) in Hn. lia. }
  match type of E with SealSnapshotGeneration _ _ _ ?x _ _ = _ => set (c := x) in * end.
  assert (Hic : identified gd c).
  { split_and!; simpl; [by rewrite (sr_generation _ _ Hs)|by rewrite (sr_seq _ _ Hs)|by rewrite (sr_digest _ _ Hs)|by rewrite Hj]. }
  assert (Hdc : describes c t.1).
  { split; simpl; try done; [by rewrite Hperm, length_fmap|]. by rewrite (SnapshotManifestDigest_perm _ _ Hperm). }
  destruct (seal_data T db st _ gd t n g c _ _ o db' Hd Hgd Ht Htr Hlen eq_refl Hic Hdc E) as [Hd' Hrel].
  eexists. split; [exact Hd'|]. split; [by rewrite (sr_run _ _ Hs), Hrun in Hrel|].
  destruct Hph as [[e ->]| ->]; [done|]. split_and!; [done|done|]. intros Hh. by pose proof (eq_trans (eq_sym Hh) Hends).
Qed.

(** ** One step of a worker *)

Lemma work_at_step T db st w g start p a ph db' out :
  data_inv T db st -> phase_ok T db st (at_phase w (At g start p)) -> own_rereads (at_phase w (At g start p)) db ->
  work_at a w g start p db = (ph, db', out) -> stepped T db w ph db' (st ++ opt_list out).
Proof.
  intros Hd Hp Hown E.
  assert (Hcall : forall (r : phase * control) , (r, None) = (ph, db', out) -> r = (ph, db') /\ st ++ opt_list out = st).
  { intros r [= -> <-]. by rewrite app_nil_r. }
  destruct p.
  - apply Hcall in E as [E ->]. by eapply listing_step.
  - by eapply draining_step.
  - apply Hcall in E as [E ->]. by eapply drain_marking_step.
  - apply Hcall in E as [E ->]. by eapply drain_reading_step.
  - by eapply opening_step.
  - simpl in E. injection E as <- <- <-. rewrite app_nil_r. apply stay; [done|]. by apply pulled_ok.
  - by eapply preparing_step.
  - by eapply publishing_step.
  - apply Hcall in E as [E ->]. by eapply marking_step.
  - apply Hcall in E as [E ->]. by eapply refreshing_step.
  - apply Hcall in E as [E ->]. by eapply yielding_step.
  - simpl in E. injection E as <- <- <-. rewrite app_nil_r. apply stay; [done|]. destruct (an_key a); [by eapply at_point..|done].
  - apply Hcall in E as [E ->]. by eapply manifest_step.
  - by eapply sealing_step.
  - apply Hcall in E as [E ->]. by eapply failing_step.
Qed.

Lemma work_step T db st id w a w' db' out :
  data_inv T db st -> worker_ok T db st id w -> own_rereads w db -> work a w db = (w', db', out) ->
  exists T', data_inv T' db' (st ++ opt_list out) /\ relies (Some id) T db T' db' /\ worker_ok T' db' (st ++ opt_list out) id w'.
Proof.
  intros Hd [Hrun Hst Hp] Hown E. assert (Hdone : forall ph, stepped T db w ph db' (st ++ opt_list out) ->
    exists T', data_inv T' db' (st ++ opt_list out) /\ relies (Some id) T db T' db' /\ worker_ok T' db' (st ++ opt_list out) id (at_phase w ph)).
  { intros ph (T' & Hd' & Hrel & Hp'). rewrite Hrun in Hrel. exists T'. split_and!; [done|done|]. split; [done| |done].
    eapply started_forth, Hst. apply Hrel. }
  unfold work in E. destruct (w_phase w) as [|g start p|res] eqn:Hw.
  - destruct (call _ _ _ _ _) as [ph d] eqn:Hc. injection E as <- <- <-. apply Hdone. simpl. rewrite app_nil_r.
    apply call_outcomes in Hc as [(e & -> & ->)|(g & Hc & Hph)]; [by apply stay|].
    apply (claim_data T db st) in Hc as (T' & Hd' & Hrel & Hruns & Hcl); [|done].
    exists T'. split_and!; [done|done|]. destruct Hph as [[e ->]| ->]; [done|]. destruct Hcl as [c1 c2 c3 c4 c5].
    split_and!; [done|done|]. intros _. destruct (di_trace _ _ _ Hd' _ _ c1) as (t & n & Ht & _).
    exists g, t. split_and!; try done.
  - destruct (work_at a w g start p db) as [[ph d] o] eqn:Ha. injection E as <- <- <-. apply Hdone.
    assert (Ew : at_phase w (At g start p) = w) by (unfold at_phase; rewrite <- Hw; by destruct w).
    eapply work_at_step; [done| | |exact Ha]; by rewrite Ew.
  - injection E as <- <- <-. simpl. rewrite app_nil_r. exists T. split_and!; [done|by apply relies_same; [apply run_frame_same|]|by split].
Qed.

(** ** The system *)

Record system_ok (T : gmap string trail) (s : system) : Prop := {
  so_data : data_inv T (tables s) (stream s);
  so_workers id w : workers s !! id = Some w -> worker_ok T (tables s) (stream s) id w;
}.

Lemma system_rely T T' db' s :
  system_ok T s -> data_inv T' db' (stream s) -> relies None T (tables s) T' db' ->
  system_ok T' {| tables := db'; workers := workers s; stream := stream s |}.
Proof. intros [Hd Hw] Hd' Hrel. split; [done|]. intros id w Hi. simpl in *. by eapply worker_rely; [apply Hw|exact Hrel|done|done]. Qed.

Lemma system_quiet T s db' :
  system_ok T s -> quiet (tables s) db' -> system_ok T {| tables := db'; workers := workers s; stream := stream s |}.
Proof. intros Hs Hq. apply (system_rely T); [done|by eapply quiet_data; [|apply Hs]|by apply quiet_relies]. Qed.

Lemma rotate_quiet db connectorID revision : quiet db (set_source_revisions <[connectorID := revision]> db).
Proof.
  split; [by apply run_frame_same| |done|done|].
  - intros Hw. by destruct Hw; split.
  - intros gid. by apply same_generations.
Qed.

Lemma claim_started db id owner now r db' : ClaimConnectorRun db id owner now = (Some r, db') -> started db' id.
Proof.
  unfold ClaimConnectorRun. destruct (runs db !! id) as [x|]; [|done]. case_bool_decide; [|done].
  destruct (cr_CancelRequested x); [done|]. intros [= <- <-]. eexists. simpl. by rewrite lookup_insert_eq.
Qed.

Lemma system_step_ok key_fits T s s' :
  system_ok T s -> system_step key_fits own_rereads s s' -> exists T', system_ok T' s' /\ extends T T'.
Proof.
  intros Hs Hstep. destruct Hstep as [s db' Hc|s id owner now job r db' Hc Hj|s id w a w' db' out Hw Hown E|s id
    |s id owner epoch now r Hr Hc|s connectorID revision|s io commit storeID seen d generation cutoff limit r db' d' E].
  - exists T. split; [|apply trail_extends_refl]. by eapply system_quiet, control_step_quiet.
  - exists T. split; [|apply trail_extends_refl].
    assert (Hq : quiet (tables s) db') by (eapply (control_step_quiet key_fits), step_claim; exact Hc).
    destruct (system_quiet T s db' Hs Hq) as [Hd Hws]. split; [done|]. simpl in *. intros i w.
    destruct (decide (i = id)) as [->|Hne]; [|rewrite lookup_insert_ne by done; apply Hws].
    rewrite lookup_insert_eq. intros [= <-]. split; [done| |done]. by eapply claim_started.
  - destruct (work_step T (tables s) (stream s) id w a w' db' out) as (T' & Hd' & Hrel & Hok); try done;
      [apply Hs|by apply Hs|]. exists T'. split; [|apply Hrel]. split; [done|]. simpl. intros i x.
    destruct (decide (i = id)) as [->|Hne]; [rewrite lookup_insert_eq; by intros [= <-]|].
    rewrite lookup_insert_ne by done. intros Hx. eapply worker_rely; [by apply Hs|exact Hrel|congruence|by apply list_subseteq_app_l].
  - exists T. split; [|apply trail_extends_refl]. split; [apply Hs|]. simpl. intros i w Hw. apply lookup_delete_Some in Hw as [_ Hw]. by apply Hs.
  - exists T. split; [|apply trail_extends_refl]. apply system_quiet; [done|]. by eapply flagged_quiet.
  - exists T. split; [|apply trail_extends_refl]. apply system_quiet; [done|apply rotate_quiet].
  - destruct (clean_data T (tables s) (stream s) _ _ _ _ _ _ _ _ _ _ _ (so_data _ _ Hs) E) as [Hd Hrel].
    exists T. split; [by eapply system_rely|apply trail_extends_refl].
Qed.

Lemma no_captures_ok s : no_captures s -> system_ok ∅ s.
Proof.
  intros (Hr & Hg & Ho & Hw & Hst). split; [|intros id w; by rewrite Hw, lookup_empty].
  split; try (intros *; rewrite ?Hg, ?Ho, ?Hst, ?lookup_empty; done).
  - by apply no_runs_wf.
  - intros env. rewrite Hst. by intros ?%elem_of_nil.
  - intros pre c suf. rewrite Hst. intros E. by destruct pre.
Qed.

(** A history in which no worker reads its generation again after another run has
    claimed it. *)
Definition capture_history (key_fits : string -> bool) (s0 s : system) : Prop :=
  no_captures s0 /\ rtc (system_step key_fits own_rereads) s0 s.

Lemma reachable_ok key_fits s0 s : capture_history key_fits s0 s -> exists T, system_ok T s.
Proof.
  intros [Hf Hrun]. pose proof (no_captures_ok s0 Hf) as Hs. revert Hs. generalize (∅ : gmap string trail). clear Hf.
  induction Hrun as [s|s1 s2 s3 Hstep _ IH]; intros T Hs; [by exists T|].
  destruct (system_step_ok key_fits T s1 s2 Hs Hstep) as (T' & Hs' & _). by apply (IH T').
Qed.

(** ** Properties *)

(** The batches of a generation on a stream. *)
Definition batches_of (gid : string) (st : list SnapshotEnvelope) : list SnapshotEnvelope :=
  filter (fun e => Generation e = gid /\ Kind e = SnapshotKindBatch) st.

(** C4: a completion on the stream is worth what it says.  In every history of runs,
    lease losses, failed and lost calls, crashed workers, cancellations and
    cleanups, as long as no worker reads its generation again after another run
    has claimed it, a completion is preceded on the stream by exactly the batches
    it counts: there is a list of batches numbered 0, 1, 2, ... whose number, rows
    and manifest digest are the completion's, all of them before it, and every
    batch of the generation anywhere on the stream is one of them, whole. *)
Theorem completion_covers_its_batches key_fits s0 s pre c suf :
  capture_history key_fits s0 s ->
  stream s = pre ++ c :: suf -> Kind c = SnapshotKindComplete ->
  exists envs,
    ExpectedBatches c = Z.of_nat (length envs) /\ ExpectedRows c = rows_total envs /\
    SnapshotManifestDigest (entry_of <$> envs) = Some (BatchManifestSHA256 c) /\
    (forall k env, envs !! k = Some env -> BatchIndex env = Z.of_nat k /\ Validate env = None /\ env ∈ pre) /\
    (forall env, env ∈ batches_of (Generation c) (stream s) <-> env ∈ envs).
Proof.
  intros Hrun Hst Hk. destruct (reachable_ok key_fits s0 s Hrun) as (T & Hd & _).
  destruct (di_order _ _ _ Hd pre c suf Hst Hk) as (t & Ht & Hc & Hpre). destruct (di_back _ _ _ Hd _ _ Ht) as [gd Hgd].
  destruct (row_trace _ _ _ _ _ _ Hd Hgd Ht) as [n Htr]. destruct (tr_complete _ _ _ _ _ Htr c Hc) as (_ & [_ _ e1 e2 e3] & _).
  exists t.1. split_and!; try done.
  - intros k env Hke. destruct (tr_batch _ _ _ _ _ Htr k env Hke) as [_ _ b3 _ b5 _]. split_and!; [done|done|].
    apply Hpre. by eapply list_elem_of_lookup_2.
  - intros env. unfold batches_of. rewrite list_elem_of_filter. split.
    + intros [[Hg Hkind] Hin]. destruct (di_stream _ _ _ Hd env Hin) as (t' & Ht' & Hcase). rewrite Hg in Ht'.
      assert (t' = t) as -> by congruence. destruct Hcase as [?|Hcase]; [done|]. rewrite Hc in Hcase. injection Hcase as <-.
      by rewrite Hk in Hkind.
    + intros Hin. apply list_elem_of_lookup in Hin as Hin'. destruct Hin' as [k Hke]. destruct (tr_batch _ _ _ _ _ Htr k env Hke) as [(Hg & _) Hkind _ _ _ _].
      rewrite Hg, (di_id _ _ _ Hd _ _ Hgd). split; [done|]. rewrite Hst. apply elem_of_app. left. by apply Hpre.
Qed.

(** C5: the generations of a source.  In every such history a source has at most one
    generation that can be claimed, no two of its generations share a sequence,
    none is beyond the sequence counter, and a generation that failed, was
    cancelled or is still being captured has no completion on the stream. *)
Theorem one_claimable_generation key_fits s0 s i j g h :
  capture_history key_fits s0 s ->
  generations (tables s) !! i = Some g -> generations (tables s) !! j = Some h -> g_source g = g_source h ->
  (claimable (tables s) g = true -> claimable (tables s) h = true -> i = j) /\
  (g_GenerationSeq g = g_GenerationSeq h -> i = j) /\
  (exists m, sequences (tables s) !! g_source g = Some m /\ g_GenerationSeq g <= m) /\
  (forall c, c ∈ stream s -> Generation c = i -> Kind c = SnapshotKindComplete -> g_State g = Sealed).
Proof.
  intros Hrun Hg Hh Hs. destruct (reachable_ok key_fits s0 s Hrun) as (T & Hd & _). split_and!.
  - intros H3 H4. by apply (di_unique _ _ _ Hd i j g h).
  - intros Hq. by apply (di_numbered _ _ _ Hd i j g h).
  - by apply (di_seq _ _ _ Hd i).
  - intros c Hin Hc Hk. apply list_elem_of_split in Hin as (pre & suf & Hst).
    destruct (di_order _ _ _ Hd pre c suf Hst Hk) as (t & Ht & Hsome & _). rewrite Hc in Ht.
    destruct (row_trace _ _ _ _ _ _ Hd Hg Ht) as [n Htr]. apply (tr_sealed _ _ _ _ _ Htr). by rewrite Hsome.
Qed.
End Workers.
