(* ===== verification/CaptureTraces.v ===== *)
(** * CaptureTraces: executions of capturing workers

    Moves of the system of [SnapshotCapture] as a function, sound for its steps, and
    with it closed executions: a capture that completes, and the ones in which a
    stale worker or a cancelled generation shows what the code does not cover.
    Envelopes travel in an encoding of their own that reads back. *)

From S2P Require Import Prelude GoStrings GoTime Duck Journal Landing SnapshotEnvelope SnapshotStore Settler Publishing SnapshotPublishing PgSource ControlPlane ConnectorRuns SnapshotControl StagingCleanup Engine SnapshotCapture CaptureInvariant CaptureTransactions CaptureWorkers.
From stdpp Require Import sorting.
From Stdlib Require Import Ascii.
Import String.
Open Scope string_scope.
Open Scope list_scope.
Open Scope Z_scope.

(** ** An encoding that reads back *)

Fixpoint bits (p : positive) : string :=
  match p with
  | xH => ""
  | xO q => String "0"%char (bits q)
  | xI q => String "1"%char (bits q)
  end.

Fixpoint of_bits (s : string) : positive :=
  match s with
  | EmptyString => xH
  | String c t => if Ascii.eqb c "0"%char then xO (of_bits t) else xI (of_bits t)
  end.

Lemma of_bits_bits p : of_bits (bits p) = p.
Proof. induction p as [p IH|p IH|]; simpl; by rewrite ?IH. Qed.

Definition envelope_parts (e : SnapshotEnvelope) : list positive :=
  [encode (Protocol e); encode (ProjectID e); encode (ConnectorID e); encode (Table e); encode (SyncID e);
   encode (Generation e); encode (GenerationSeq e); encode (BindingDigest e); encode (CaptureStartedAt e);
   encode (Kind e); encode (RunID e); encode (BatchID e); encode (BatchIndex e); encode (PayloadSHA256 e);
   encode (CaptureFinishedAt e); encode ((fun r => [sr_Key r; SnapshotEnvelope.sr_Cursor r; sr_Data r]) <$> Rows e);
   encode (ExpectedBatches e); encode (ExpectedRows e); encode (BatchManifestSHA256 e)].

Definition row_of_parts (l : list string) : option SnapshotRow :=
  match l with [k; c; d] => Some {| sr_Key := k; SnapshotEnvelope.sr_Cursor := c; sr_Data := d |} | _ => None end.

Definition envelope_of_parts (l : list positive) : option SnapshotEnvelope :=
  match l with
  | [p1; p2; p3; p4; p5; p6; p7; p8; p9; p10; p11; p12; p13; p14; p15; p16; p17; p18; p19] =>
      (protocol ← decode p1; project ← decode p2; connector ← decode p3; table ← decode p4;
       sync ← decode p5; generation ← decode p6; seq ← decode p7; digest ← decode p8;
       started ← decode p9; kind ← decode p10; run ← decode p11; batch ← decode p12;
       index ← decode p13; payload ← decode p14; finished ← decode p15; rows ← decode p16;
       batches ← decode p17; total ← decode p18; manifest ← decode p19;
       parsed ← mapM row_of_parts rows;
       Some {| Protocol := protocol; ProjectID := project; ConnectorID := connector; Table := table; SyncID := sync;
               Generation := generation; GenerationSeq := seq; BindingDigest := digest; CaptureStartedAt := started;
               Kind := kind; RunID := run; BatchID := batch; BatchIndex := index; PayloadSHA256 := payload;
               CaptureFinishedAt := finished; Rows := parsed; ExpectedBatches := batches; ExpectedRows := total;
               BatchManifestSHA256 := manifest |})
  | _ => None
  end.

Definition write_envelope (e : SnapshotEnvelope) : string := bits (encode (envelope_parts e)).

Definition read_envelope (s : string) : option SnapshotEnvelope := decode (of_bits s) ≫= envelope_of_parts.

Lemma rows_of_parts rows : mapM row_of_parts ((fun r => [sr_Key r; SnapshotEnvelope.sr_Cursor r; sr_Data r]) <$> rows) = Some rows.
Proof. apply mapM_Some, Forall2_fmap_l, Forall_Forall2_diag, Forall_true. by intros []. Qed.

Lemma read_write e : read_envelope (write_envelope e) = Some e.
Proof.
  unfold read_envelope, write_envelope. rewrite of_bits_bits, decode_encode. cbn [mbind option_bind].
  unfold envelope_of_parts, envelope_parts.
  rewrite !decode_encode. cbn [mbind option_bind]. rewrite rows_of_parts. by destruct e.
Qed.

Definition fields_of_kind (kind : string) : gmap string bool :=
  list_to_map ((fun n => (n, false)) <$> snapshot_required ++
    (if String.eqb kind SnapshotKindBatch
     then ["batch_id"; "batch_index"; "payload_sha256"; "capture_finished_at"; "rows"]
     else ["expected_batches"; "expected_rows"; "batch_manifest_sha256"; "capture_finished_at"])).

Definition t_wire : WireEnv :=
  {| wire_fields := fun raw => fields_of_kind ∘ Kind <$> read_envelope raw;
     wire_text := fun raw _ => Kind <$> read_envelope raw;
     wire_snapshot := read_envelope; wire_batch := fun _ => None |}.
#[local] Existing Instance t_wire.
#[local] Existing Instance w_snapshot_env.

Lemma valid_kind e : Validate e = None -> Kind e = SnapshotKindBatch \/ Kind e = SnapshotKindComplete.
Proof.
  unfold Validate. destruct (_ || _ || _ || _ || _ || _ || _ || _ || _ || _); [done|].
  destruct (String.eqb_spec (Kind e) SnapshotKindBatch); [by left|].
  destruct (String.eqb_spec (Kind e) SnapshotKindComplete); [by right|done].
Qed.

Lemma parse_write e : Validate e = None -> ParseSnapshotEnvelope (write_envelope e) = Some e.
Proof.
  intros Hv. unfold ParseSnapshotEnvelope. cbn [wire_fields wire_text wire_snapshot t_wire]. rewrite read_write. simpl.
  assert (Hf : requireSnapshotFields (fields_of_kind (Kind e)) (Kind e) = true).
  { destruct (valid_kind e Hv) as [->| ->]; vm_compute; reflexivity. }
  rewrite Hf, Hv. done.
Qed.

Definition t_codec : EnvelopeCodec := {| marshal_envelope := write_envelope; parse_marshal := parse_write |}.
#[local] Existing Instance t_codec.

(** ** Moves *)

Inductive move :=
| Enqueue (projectID syncID key id : string) (now : Z)
| Start (id owner : string) (now : Z) (job : SyncJob)
| Reconcile (before now : Z)
| CancelRun (projectID id : string) (now : Z)
| Work (id : string) (a : answers).

Section Play.
Context `{EnvelopeCodec} `{UuidEnv} (key_fits : string -> bool) (careful : worker -> control -> bool).

Definition play (m : move) (s : system) : option system :=
  match m with
  | Enqueue p sync key id now =>
      match EnqueueConnectorRun key_fits (tables s) p sync key id now with
      | Ok (_, _, db) => Some {| tables := db; workers := workers s; stream := stream s |}
      | Err _ => None
      end
  | Start id owner now job =>
      match ClaimConnectorRun (tables s) id owner now with
      | (Some r, db) =>
          if String.eqb (j_SyncID job) (cr_SyncID r) then
            Some {| tables := db;
                    workers := <[id := {| w_job := job; w_run := id; w_owner := owner; w_epoch := cr_LeaseEpoch r;
                                          w_phase := Claiming |}]> (workers s);
                    stream := stream s |}
          else None
      | (None, _) => None
      end
  | Reconcile before now =>
      let '(_, db) := ReconcileConnectorRuns (tables s) before now in
      Some {| tables := db; workers := workers s; stream := stream s |}
  | CancelRun p id now =>
      match CancelConnectorRun (tables s) p id now with
      | Ok (_, db) => Some {| tables := db; workers := workers s; stream := stream s |}
      | Err _ => None
      end
  | Work id a =>
      match workers s !! id with
      | None => None
      | Some w =>
          if careful w (tables s) then
            let '(w', db, out) := work a w (tables s) in
            Some {| tables := db; workers := <[id := w']> (workers s); stream := stream s ++ opt_list out |}
          else None
      end
  end.

Fixpoint plays (ms : list move) (s : system) : option system :=
  match ms with [] => Some s | m :: rest => s' ← play m s; plays rest s' end.

Lemma play_sound (P : worker -> control -> Prop) m s s' :
  (forall w db, careful w db = true -> P w db) -> play m s = Some s' -> system_step key_fits P s s'.
Proof.
  intros HP E. destruct m as [p sync key id now|id owner now job|before now|p id now|id a]; simpl in E.
  - destruct (EnqueueConnectorRun _ _ _ _ _ _ _) as [[[r new] db]|] eqn:Hen; [|done]. injection E as <-.
    apply sys_control. by eapply step_enqueue.
  - destruct (ClaimConnectorRun _ _ _ _) as [[r|] db] eqn:Hc; [|done]. destruct (String.eqb_spec (j_SyncID job) (cr_SyncID r)); [|done].
    injection E as <-. by eapply sys_start.
  - injection E as <-. apply sys_control. by eapply step_reconcile.
  - destruct (CancelConnectorRun _ _ _ _) as [[r db]|] eqn:Hc; [|done]. injection E as <-. apply sys_control. by eapply step_cancel.
  - destruct (workers s !! id) as [w|] eqn:Hw; [|done]. destruct (careful w (tables s)) eqn:Hc; [|done].
    destruct (work a w (tables s)) as [[w' db] out] eqn:Ha. injection E as <-. eapply sys_work; [done|by apply HP|done].
Qed.

Lemma plays_sound (P : worker -> control -> Prop) ms s s' :
  (forall w db, careful w db = true -> P w db) -> plays ms s = Some s' -> rtc (system_step key_fits P) s s'.
Proof.
  intros HP. revert s. induction ms as [|m ms IH]; intros s E; [by injection E as ->|].
  simpl in E. destruct (play m s) as [s1|] eqn:Hm; [|done]. eapply rtc_l; [by eapply play_sound|by apply IH].
Qed.
End Play.

Definition always (w : worker) (db : control) : bool := true.

Definition own_reread (w : worker) (db : control) : bool :=
  match w_phase w with
  | At g _ (DrainReading _) | At g _ (Refreshing _ _) =>
      match generations db !! g_Generation g with Some row => String.eqb (g_RunID row) (w_run w) | None => true end
  | _ => true
  end.

Lemma own_reread_sound w db : own_reread w db = true -> own_rereads w db.
Proof.
  unfold own_reread, own_rereads. destruct (w_phase w) as [|g start p|]; try done.
  destruct p; try done; intros E row Hrow; rewrite Hrow in E; by apply String.eqb_eq.
Qed.

(** ** A capture that completes *)

Definition t_sync : ConnectorSync :=
  {| cs_ConnectorID := "c"; cs_ProjectID := "p"; cs_SourceTable := "orders"; cs_KeyColumn := "id";
     cs_CursorColumn := ""; cs_SyncMode := "snapshot"; cs_ScheduleCron := ""; cs_Enabled := true;
     cs_Cursor := ""; cs_CursorKey := ""; cs_LastRunAt := None; cs_LastStatus := ""; cs_LastError := "";
     cs_LastRows := 0; cs_TotalRows := 0; cs_LastSuccessAt := None; cs_Revision := 1; cs_ConfigRevision := 1 |}.

Definition t_start : system :=
  {| tables := {| syncs := {["s" := t_sync]}; archived := ∅; source_revisions := {["c" := 1]}; runs := ∅; run_keys := ∅;
                  generations := ∅; sequences := ∅; outbox := ∅; cleanup_receipts := ∅ |};
     workers := ∅; stream := [] |}.

Lemma t_start_empty : no_captures t_start.
Proof. by split_and!. Qed.

Definition t_job : SyncJob :=
  {| j_SyncID := "s"; j_ProjectID := "p"; j_ConnectorID := "c"; j_Table := "orders"; j_KeyColumn := "id";
     j_CursorColumn := ""; j_Cursor := ""; j_CursorKey := ""; j_SyncMode := "snapshot"; j_SyncRevision := 1;
     j_SourceRevision := 1; j_BindingDigest := Some w_sha |}.

Definition t_broker : broker_calls :=
  {| durable := true; observed := false; valid_json := fun _ => true; admission_fails := fun _ => false;
     publish_fails := fun _ => false; flush_fails := fun _ => false; observer_fails := fun _ => false |}.

Definition t_row (k : string) : Row := {| r_Key := k; r_Cursor := ""; r_Data := Some "{}" |}.

(** What one pull answers. *)
Definition t_page (keys : list string) (more : bool) : PullResult :=
  {| pr_Rows := t_row <$> keys; pr_NextCursor := ""; pr_NextCursorKey := default "" (last keys); pr_HasMore := more |}.

(** All goes well at [now]; the pull answers [keys]. *)
Definition fine (now : Z) (keys : list string) (more : bool) : answers :=
  {| an_call := CallAnswered; an_now := now; an_newID := "g1"; an_open := true; an_key := KeyValid;
     an_pull := Ok (t_page keys more); an_broker := t_broker; an_maxPayload := None |}.

Definition t_fits (k : string) : bool := true.

(** A worker from its claim to its first page, through a page of one batch, and to its seal. *)
Definition opened (id : string) (a : answers) : list move := replicate 4 (Work id a).
Definition paged (id : string) (a : answers) : list move := replicate 5 (Work id a).
Definition sealing (id : string) (a : answers) : list move := replicate 3 (Work id a).
Definition shipping (id : string) (a : answers) : list move := replicate 4 (Work id a).

Definition t_moves : list move :=
  [Enqueue "p" "s" "k1" "r1" 5; Start "r1" "me" 6 t_job] ++ opened "r1" (fine 7 [] false) ++
  paged "r1" (fine 7 ["1"; "2"] false) ++ sealing "r1" (fine 8 [] false) ++ shipping "r1" (fine 9 [] false).

Definition t_end : system := default t_start (plays t_fits own_reread t_moves t_start).

Lemma t_end_reached : capture_history t_fits t_start t_end.
Proof.
  split; [exact t_start_empty|]. apply (plays_sound t_fits own_reread own_rereads t_moves); [apply own_reread_sound|]. vm_compute. reflexivity.
Qed.
(** The completion follows its one batch. *)
Lemma completion_covers_its_batches_witness :
  exists b c, stream t_end = [b; c] /\ Kind c = SnapshotKindComplete /\ ExpectedRows c = 2 /\
    exists envs, ExpectedBatches c = Z.of_nat (length envs) /\
      (forall env, env ∈ batches_of (Generation c) (stream t_end) <-> env ∈ envs).
Proof.
  eexists _, _. split; [vm_compute; reflexivity|]. split; [reflexivity|]. split; [reflexivity|].
  edestruct (completion_covers_its_batches t_fits t_start t_end) as (envs & Hb & _ & _ & _ & Hall);
    [exact t_end_reached|eapply (eq_trans (y := [_] ++ _ :: [])); [vm_compute; reflexivity|reflexivity]|reflexivity|].
  exists envs. split; [exact Hb|exact Hall].
Defined.

Lemma one_claimable_generation_witness :
  exists g, generations (tables t_end) !! "g1" = Some g /\ g_State g = Sealed /\
    exists m, sequences (tables t_end) !! g_source g = Some m /\ g_GenerationSeq g <= m.
Proof.
  eexists. split; [vm_compute; reflexivity|]. split; [reflexivity|].
  edestruct (one_claimable_generation t_fits t_start t_end "g1" "g1") as (_ & _ & Hm & _);
    [exact t_end_reached|vm_compute; reflexivity|vm_compute; reflexivity|reflexivity|exact Hm].
Defined.

(** ** A stale worker *)

(** The worker of r1 is paused between recording a batch and reading its generation
    again; r1 is failed as stale, r2 claims the generation and prepares its next
    batch.  Then the worker of r1 goes on: it reads r2's lease with the row, finds
    its source empty and seals. *)
Definition t_paused : list move :=
  [Enqueue "p" "s" "k1" "r1" 5; Start "r1" "me" 6 t_job] ++ opened "r1" (fine 7 [] false) ++
  replicate 4 (Work "r1" (fine 7 ["1"; "2"] true)).

Definition t_taken_over : list move :=
  [Reconcile 100 101; Enqueue "p" "s" "k2" "r2" 102; Start "r2" "you" 103 t_job] ++
  opened "r2" (fine 104 [] false) ++ replicate 2 (Work "r2" (fine 105 ["3"] false)).

Definition t_stale : list move :=
  t_paused ++ t_taken_over ++ replicate 2 (Work "r1" (fine 106 [] false)) ++ sealing "r1" (fine 107 [] false) ++
  shipping "r1" (fine 108 [] false) ++ replicate 2 (Work "r1" (fine 109 [] false)).

Definition t_stale_end : system := default t_start (plays t_fits always t_stale t_start).
Lemma t_stale_reached : rtc (system_step t_fits anytime) t_start t_stale_end.
Proof. apply (plays_sound t_fits always anytime t_stale); [done|]. vm_compute. reflexivity. Qed.

(** The fence does not stop a worker that reads its generation again after another
    run has claimed it: the row it reads carries the new lease, and its later calls
    pass with it.  There is a history in which the worker of a failed run seals the
    generation its successor is capturing: the completion carries the failed run's
    id and counts one batch of the two on the stream, and the successor's run is
    recorded as succeeded. *)
Theorem stale_worker_seals_for_another :
  exists s pre c, rtc (system_step t_fits anytime) t_start s /\ stream s = pre ++ [c] /\
    Kind c = SnapshotKindComplete /\ RunID c = "r1" /\ cr_Status <$> runs (tables s) !! "r1" = Some Failed /\
    cr_Status <$> runs (tables s) !! "r2" = Some Succeeded /\
    ExpectedBatches c = 1 /\ length (batches_of (Generation c) (stream s)) = 2%nat.
Proof.
  exists t_stale_end, (take 2 (stream t_stale_end)). eexists.
  split; [exact t_stale_reached|]. split; [vm_compute; reflexivity|].
  split; [reflexivity|]. split; [reflexivity|]. split; [vm_compute; reflexivity|]. split; [vm_compute; reflexivity|].
  split; [reflexivity|]. vm_compute. reflexivity.
Qed.
