(* ===== verification/AbandonedOutbox.v ===== *)
(** * AbandonedOutbox: a generation that ends with an envelope unpublished

    Over the system of [SnapshotCapture]: when a generation fails or is cancelled
    between the preparation of an envelope and its publication and no worker is
    left with it, nothing publishes or deletes that row of the outbox any more, and
    the staging of the generation is never cleaned. *)

From S2P Require Import Prelude GoStrings GoTime Duck Journal Landing SnapshotEnvelope SnapshotStore Settler Publishing SnapshotPublishing PgSource ControlPlane ConnectorRuns SnapshotControl StagingCleanup Engine SnapshotCapture CaptureInvariant CaptureTransactions CaptureWorkers CaptureTraces.
From stdpp Require Import sorting.
Import String.
Open Scope string_scope.
Open Scope list_scope.
Open Scope Z_scope.

#[local] Set Default Proof Using "Type*".

Section Abandoned.
Context `{EnvelopeCodec} `{UuidEnv}.

(** Rows are under their keys. *)
Record keyed (db : control) : Prop := {
  ky_generation gid g : generations db !! gid = Some g -> g_Generation g = gid;
  ky_outbox key o : outbox db !! key = Some o -> ob_key o = key;
}.

Record abandoned (gid : string) (db : control) : Prop := {
  ab_ended : exists gd, generations db !! gid = Some gd /\ (g_State gd = GenerationFailed \/ g_State gd = GenerationCancelled);
  ab_row : exists kind bid o, outbox db !! (gid, kind, bid) = Some o /\ ob_Generation o = gid /\ ob_Published o = false;
}.

(** The generation, once ended, and its unpublished rows are as they were. *)
Record spares (gid : string) (db db' : control) : Prop := {
  sp_generation gd : generations db !! gid = Some gd -> live_generation (g_State gd) = false -> generations db' !! gid = Some gd;
  sp_outbox kind bid o : outbox db !! (gid, kind, bid) = Some o -> ob_Generation o = gid -> ob_Published o = false ->
    outbox db' !! (gid, kind, bid) = Some o;
}.

Lemma spares_refl gid db : spares gid db db.
Proof. by split. Qed.

Lemma spares_trans gid db1 db2 db3 : spares gid db1 db2 -> spares gid db2 db3 -> spares gid db1 db3.
Proof. intros [g1 o1] [g2 o2]. split; [intros gd H3 H4; by apply g2; [apply g1|]|intros k b o H3 H4 H5; by apply o2; [apply o1| |]]. Qed.

Lemma spares_abandoned gid db db' : spares gid db db' -> abandoned gid db -> abandoned gid db'.
Proof.
  intros [sg so] [(gd & Hg & Hs) (kind & bid & o & Ho & Hgen & Hp)]. split.
  - exists gd. split; [|done]. apply sg; [done|]. by destruct Hs as [-> | ->].
  - exists kind, bid, o. split_and!; [by apply so|done|done].
Qed.

(** What a transaction leaves in order. *)
Record tidy (db db' : control) (busy : string -> Prop) : Prop := {
  td_keyed : keyed db -> keyed db';
  td_spares gid : ~ busy gid -> spares gid db db';
}.

Lemma tidy_same db db' busy : generations db' = generations db -> outbox db' = outbox db -> tidy db db' busy.
Proof.
  intros Eg Eo. split.
  - intros [kg ko]. split; intros *; rewrite ?Eg, ?Eo; [apply kg|apply ko].
  - intros gid _. split; intros *; by rewrite ?Eg, ?Eo.
Qed.

Lemma tidy_trans db1 db2 db3 busy : tidy db1 db2 busy -> tidy db2 db3 busy -> tidy db1 db3 busy.
Proof.
  intros [k1 s1] [k2 s2]. split; [by auto|]. intros gid Hb. eapply spares_trans; [by apply s1|by apply s2].
Qed.

Lemma tidy_quiet db db' busy : quiet db db' -> tidy db db' busy.
Proof.
  intros Hq. split.
  - intros [kg ko]. split.
    + intros gid g' Hg. pose proof (qt_generations _ _ Hq gid) as X. rewrite Hg in X. inversion X as [g ? Hx E|]; subst. symmetry in E.
      specialize (kg gid g E). by destruct Hx as [->|(_ & _ & now & ->)].
    + rewrite (qt_outbox _ _ Hq). apply ko.
  - intros gid _. split; [|by rewrite (qt_outbox _ _ Hq)]. intros gd Hg Hl.
    pose proof (qt_generations _ _ Hq gid) as X. rewrite Hg in X. inversion X as [? g' Hx E|]; subst.
    destruct Hx as [->|(Hlive & _)]; [done|congruence].
Qed.

Lemma tidy_generation db gid g' : g_Generation g' = gid -> tidy db (set_generations <[gid := g']> db) (eq gid).
Proof.
  intros Hg. split.
  - intros [kg ko]. split; [|done]. intros i g. simpl. destruct (decide (i = gid)) as [->|Hne].
    + rewrite lookup_insert_eq. by intros [= <-].
    + rewrite lookup_insert_ne by done. apply kg.
  - intros i Hne. split; [|done]. intros gd Hgd _. simpl. by rewrite lookup_insert_ne.
Qed.

Lemma tidy_alter db gid f : (forall g, g_Generation (f g) = g_Generation g) -> tidy db (set_generations (alter f gid) db) (eq gid).
Proof.
  intros Hf. split.
  - intros [kg ko]. split; [|done]. intros i g. simpl. destruct (decide (i = gid)) as [->|Hne].
    + rewrite lookup_alter_eq. intros (x & Hx & ->)%fmap_Some. rewrite Hf. by apply kg.
    + rewrite lookup_alter_ne by done. apply kg.
  - intros i Hne. split; [|done]. intros gd Hgd _. simpl. by rewrite lookup_alter_ne.
Qed.

Lemma tidy_row db key o : ob_key o = key -> tidy db (set_outbox <[key := o]> db) (eq (ob_Generation o)).
Proof.
  intros Hk. split.
  - intros [kg ko]. split; [done|]. intros i x. simpl. destruct (decide (i = key)) as [->|Hne].
    + rewrite lookup_insert_eq. by intros [= <-].
    + rewrite lookup_insert_ne by done. apply ko.
  - intros i Hne. split; [done|]. intros kind bid x Hx _ _. simpl. rewrite lookup_insert_ne; [done|]. subst key. unfold ob_key. congruence.
Qed.

Lemma tidy_insert_item o db out db' : insert_item o db = Ok (out, db') -> tidy db db' (eq (ob_Generation o)).
Proof. intros [[_ ->]|(_ & _ & ->)]%insert_item_Ok; [by apply tidy_same|by apply tidy_row]. Qed.

Lemma insert_item_generation o db out db' :
  keyed db -> insert_item o db = Ok (out, db') -> ob_Generation out = ob_Generation o.
Proof.
  intros Hk [[Hold _]|(_ & -> & _)]%insert_item_Ok; [|done]. apply (ky_outbox _ Hk) in Hold. unfold ob_key in Hold. congruence.
Qed.

(** ** The transactions of a worker *)

Lemma tidy_mark db gid o db' :
  keyed db -> ob_Generation o = gid -> MarkSnapshotOutboxPublished db gid o = Ok db' -> tidy db db' (eq gid).
Proof.
  intros Hk Ho. unfold MarkSnapshotOutboxPublished. destruct (outbox db !! ob_key o) as [row|] eqn:Hrow; [|done].
  pose proof (ky_outbox _ Hk _ _ Hrow) as Hkey. assert (Hg : ob_Generation row = gid) by (unfold ob_key in Hkey; congruence).
  destruct (ob_Published row); [intros [= <-]; by apply tidy_same|].
  assert (Hm : tidy db (set_outbox <[ob_key o := marked row]> db) (eq gid)).
  { rewrite <- Hg. by apply (tidy_row db (ob_key o) (marked row)). }
  cbv zeta. destruct (String.eqb _ _); intros [= <-]; [|done]. eapply tidy_trans; [exact Hm|]. apply tidy_alter.
  intros g. by case_match.
Qed.

Lemma tidy_prepare db g env lower upper now out db' :
  keyed db -> PrepareSnapshotEnvelope marshal_envelope db g env lower upper now = Ok (out, db') ->
  tidy db db' (eq (g_Generation g)) /\ ob_Generation out = g_Generation g.
Proof.
  intros Hk. unfold PrepareSnapshotEnvelope. destruct (MarshalSnapshotEnvelope _ env); [|done]. destruct (negb _); [done|].
  destruct (negb (fenced _ _ _)); [done|]. destruct (negb _); [done|]. destruct (insert_item _ db) as [[o d]|] eqn:E; [|done].
  destruct (_ || _ || _); [done|]. intros [= <- <-]. split.
  - by apply tidy_insert_item in E.
  - by apply insert_item_generation in E.
Qed.

Lemma tidy_transition db g states row s terminal :
  keyed db -> held db g states = Some row -> tidy db (set_generations <[g_Generation g := with_state row s terminal]> db) (eq (g_Generation g)).
Proof. intros Hk (Hrow & _)%held_Some. apply tidy_generation. simpl. by apply (ky_generation _ Hk). Qed.

Lemma tidy_seal db g env rows now out db' :
  keyed db -> SealSnapshotGeneration marshal_envelope db g env rows now = Ok (out, db') -> tidy db db' (eq (g_Generation g)).
Proof.
  intros Hk. unfold SealSnapshotGeneration. destruct (negb _); [done|]. destruct (MarshalSnapshotEnvelope _ env); [|done].
  destruct (negb (fenced _ _ _)); [done|]. destruct (insert_item _ db) as [[o d]|] eqn:E; [|done]. destruct (negb _); [done|].
  destruct (held d g [Capturing]) as [row|] eqn:Hh; [|done]. cbv zeta. destruct (final_run _ g) as [r|]; [|done]. intros [= <- <-].
  apply tidy_insert_item in E as Ht. eapply tidy_trans; [exact Ht|]. apply held_Some in Hh as (Hrow & _).
  eapply tidy_trans; [apply (tidy_generation d (g_Generation g) (sealed_row row (CaptureFinishedAt env) now))|by apply tidy_same].
  apply (ky_generation _ (td_keyed _ _ _ Ht Hk) _ _ Hrow).
Qed.

Lemma tidy_claim db job runID owner epoch newID now g db' :
  keyed db -> ClaimSnapshotGeneration db job runID owner epoch newID now = Ok (g, db') ->
  tidy db db' (eq (g_Generation g)) /\ (forall gid, abandoned gid db -> g_Generation g <> gid).
Proof.
  intros Hk E. unfold ClaimSnapshotGeneration in E. destruct (j_BindingDigest job) as [digest|]; [|done].
  destruct (negb _); [done|]. destruct (current_revisions db job) as [|]; [|done].
  destruct (negb (requireSnapshotRunFence _ _ _ _ _ _)); [done|]. cbv zeta in E.
  set (db1 := retire_cancelled (job_source job) now db) in *.
  assert (Hq : forall busy, tidy db db1 busy) by (intros busy; apply tidy_quiet, retire_quiet).
  pose proof (td_keyed _ _ _ (Hq (fun _ => True)) Hk) as Hk1.
  assert (Hab : forall gid, abandoned gid db -> abandoned gid db1).
  { intros gid. apply spares_abandoned. apply (td_spares _ _ _ (Hq (fun _ => False))). by intros []. }
  destruct (claim_candidate db1 _) as [old|] eqn:Hc.
  - destruct (binding_changed old job digest); [done|]. injection E as <- <-. simpl. apply claim_candidate_Some in Hc as (_ & Hclaim & k & Hold).
    pose proof (ky_generation _ Hk1 _ _ Hold) as Hkey. split.
    + eapply tidy_trans; [apply Hq|]. by apply tidy_generation.
    + intros gid Ha%Hab <-. destruct Ha as [(gd & Hgd & Hs) _]. rewrite Hkey, Hold in Hgd. injection Hgd as <-.
      unfold claimable in Hclaim. by destruct Hs as [Hs|Hs]; rewrite Hs in Hclaim.
  - destruct (generation_refused db1 _ newID _) eqn:Href; [done|]. injection E as <- <-. simpl. split.
    + eapply tidy_trans; [apply Hq|]. eapply tidy_trans; [|by apply tidy_generation]. by apply tidy_same.
    + intros gid Ha%Hab <-. destruct Ha as [(gd & Hgd & _) _]. unfold generation_refused in Href.
      by rewrite Hgd, orb_true_r in Href.
Qed.

(** ** The workers *)

Definition items_of (p : point) : list SnapshotOutbox :=
  match p with
  | Draining _ todo => todo
  | DrainMarking _ item todo => item :: todo
  | PublishingBatch _ _ item | Marking _ item => [item]
  | _ => []
  end.

(** The items of a worker are of its generation. *)
Definition consistent (ph : phase) : Prop :=
  match ph with At g _ p => Forall (fun o => ob_Generation o = g_Generation g) (items_of p) | _ => True end.

Definition busy_with (ph : phase) (gid : string) : Prop :=
  match ph with At g _ _ => gid = g_Generation g | _ => False end.

(** What a step keeps. *)
Record orderly (db : control) (ph : phase) (db' : control) (ph' : phase) : Prop := {
  or_keyed : keyed db'; or_consistent : consistent ph';
  or_spares gid : abandoned gid db -> ~ busy_with ph gid -> spares gid db db' /\ ~ busy_with ph' gid;
}.

Lemma orderly_at db g start p ph : keyed db -> consistent ph -> (forall gid, busy_with ph gid -> gid = g_Generation g) ->
  orderly db (At g start p) db ph.
Proof. intros Hk Hc Hb. split; [done|done|]. intros gid _ Hn. split; [apply spares_refl|]. by intros ->%Hb. Qed.

(** Phases a worker of [g] reaches without items. *)
Definition plain (g : SnapshotGeneration) (ph : phase) : Prop :=
  consistent ph /\ forall gid, busy_with ph gid -> gid = g_Generation g.

Lemma plain_at g start p : items_of p = [] -> plain g (At g start p).
Proof. intros E. split; simpl; [by rewrite E|done]. Qed.

Lemma plain_turn_over g start p : plain g (turn_over g start p).
Proof.
  unfold turn_over, after_loop. destruct (_ || _); [by apply plain_at|]. destruct (negb (pg_more p)); [by apply plain_at|].
  destruct (pg_turn p); by apply plain_at.
Qed.

Lemma plain_next_batch g start p : plain g (next_batch g start p).
Proof. unfold next_batch. destruct (pg_left p); [apply plain_turn_over|by apply plain_at]. Qed.

Lemma plain_pulled a w g start n : plain g (pulled a w g start n).
Proof.
  unfold pulled, after_loop. destruct (an_pull a) as [pull|]; [|done]. destruct (pr_Rows pull).
  { destruct (pr_HasMore pull); by apply plain_at. }
  destruct (landed_keys _); [|done]. destruct (BuildSnapshotBatches _ _ _ _ _ _) as [[|]|]; [|done|done]. apply plain_next_batch.
Qed.

Lemma orderly_plain db g start p ph : keyed db -> plain g ph -> orderly db (At g start p) db ph.
Proof. intros Hk [Hc Hb]. by apply orderly_at. Qed.

(** A call that changes only the worker's generation. *)
Lemma orderly_call db g start p db' ph :
  keyed db -> tidy db db' (eq (g_Generation g)) -> consistent ph -> (forall gid, busy_with ph gid -> gid = g_Generation g) ->
  orderly db (At g start p) db' ph.
Proof.
  intros Hk Ht Hc Hb. split; [by apply (td_keyed _ _ _ Ht)|done|]. intros gid _ Hn. split.
  - apply (td_spares _ _ _ Ht). intros E. by apply Hn.
  - intros Hx. by apply Hn, Hb.
Qed.

Lemma orderly_call_plain db g start p db' ph :
  keyed db -> tidy db db' (eq (g_Generation g)) -> plain g ph -> orderly db (At g start p) db' ph.
Proof. intros Hk Ht [Hc Hb]. by apply orderly_call. Qed.

Lemma pending_consistent db gid : Forall (fun o => ob_Generation o = gid) (PendingSnapshotOutbox db gid).
Proof.
  apply Forall_forall. intros o. unfold PendingSnapshotOutbox. rewrite merge_sort_Permutation, list_elem_of_filter.
  intros [Hp _]. by bool_props.
Qed.

Lemma row_same_generation db g row : keyed db -> SnapshotGenerationRow db (g_Generation g) = Ok row -> g_Generation row = g_Generation g.
Proof.
  intros Hk. unfold SnapshotGenerationRow. destruct (generations db !! g_Generation g) eqn:E; [|done]. intros [= ->].
  by apply (ky_generation _ Hk).
Qed.

Lemma read_Ok {A} db (r : result snapshot_error A) x db' : read db r = Ok (x, db') -> r = Ok x /\ db' = db.
Proof. unfold read. destruct r; [|done]. by intros [= -> ->]. Qed.

Lemma with_unit_Ok r u db' : with_unit r = Ok (u, db') -> r = Ok db'.
Proof. unfold with_unit. destruct r; [|done]. by intros [= _ ->]. Qed.

(** The drain of the outbox. *)
Lemma drain_orderly a w g start p db ph db' out :
  keyed db -> consistent (At g start p) ->
  match p with Listing _ | Draining _ _ | DrainMarking _ _ _ | DrainReading _ => True | _ => False end ->
  work_at a w g start p db = (ph, db', out) -> orderly db (At g start p) db' ph.
Proof.
  intros Hk Hc Hpoint E. destruct p as [own|own todo|own item todo|own| | | | | | | | | | |]; try done; simpl in E, Hc.
  - injection E as E _. apply call_outcomes in E as [(e & -> & ->)|(items & E & Hph)]; [by apply orderly_plain|].
    injection E as <- <-. destruct Hph as [[e ->]| ->]; [by apply orderly_plain|].
    pose proof (pending_consistent db (g_Generation g)) as Hp.
    destruct (PendingSnapshotOutbox db (g_Generation g)); by apply orderly_at.
  - destruct todo as [|item todo]; [injection E as <- <- _; by apply orderly_at|].
    destruct (ParseSnapshotEnvelope _); [|injection E as <- <- _; by apply orderly_plain].
    destruct (PublishSnapshotEnvelope _ _ 0 _) as [o [e|]]; injection E as <- <- _; [by apply orderly_plain|by apply orderly_at].
  - injection E as E _. apply Forall_cons in Hc as [Hi Hc].
    apply call_outcomes in E as [(e & -> & ->)|(u & E & Hph)]; [by apply orderly_plain|].
    apply with_unit_Ok in E. apply (tidy_mark db _ _ _ Hk Hi) in E. apply orderly_call; [done|done|..].
    + destruct Hph as [[e ->]| ->]; [done|]. by destruct todo.
    + destruct Hph as [[e ->]| ->]; [done|]. by destruct todo.
  - injection E as E _. apply call_outcomes in E as [(e & -> & ->)|(row & E & Hph)]; [by apply orderly_plain|].
    apply read_Ok in E as [E ->]. apply (row_same_generation db g) in E; [|done]. destruct Hph as [[e ->]| ->]; [by apply orderly_plain|].
    unfold drained. destruct own; [by apply orderly_plain|]. case_bool_decide; [by apply orderly_plain|].
    apply orderly_at; [done|by apply Forall_nil_2|]. simpl. by rewrite E.
Qed.

Lemma work_at_orderly a w g start p db ph db' out :
  keyed db -> consistent (At g start p) -> work_at a w g start p db = (ph, db', out) -> orderly db (At g start p) db' ph.
Proof.
  intros Hk Hc E. destruct p; try (by eapply drain_orderly); simpl in E, Hc.
  - injection E as <- <- _. apply orderly_plain; [done|]. destruct (negb (an_open a)); [done|].
    destruct (an_key a); [by apply plain_at..|done].
  - injection E as <- <- _. apply orderly_plain; [done|apply plain_pulled].
  - destruct (pg_left p) as [|env rest]; [injection E as <- <- _; apply orderly_plain; [done|apply plain_turn_over]|].
    injection E as E _. apply call_outcomes in E as [(e & -> & ->)|(item & E & Hph)]; [by apply orderly_plain|].
    apply tidy_prepare in E as [Ht Hi]; [|done]. destruct Hph as [[e ->]| ->]; apply orderly_call; try done. simpl. by apply Forall_singleton.
  - destruct (PublishSnapshotEnvelope _ _ 0 _) as [o [e|]]; injection E as <- <- _; [by apply orderly_plain|by apply orderly_at].
  - injection E as E _. apply (proj1 (Forall_singleton _ _)) in Hc. apply call_outcomes in E as [(e & -> & ->)|(u & E & Hph)]; [by apply orderly_plain|].
    apply with_unit_Ok, (tidy_mark db _ _ _ Hk Hc) in E. apply orderly_call_plain; [done|done|]. destruct Hph as [[e ->]| ->]; [done|by apply plain_at].
  - injection E as E _. apply call_outcomes in E as [(e & -> & ->)|(row & E & Hph)]; [by apply orderly_plain|].
    apply read_Ok in E as [E ->]. apply (row_same_generation db g) in E; [|done]. destruct Hph as [[e ->]| ->]; [by apply orderly_plain|].
    match goal with |- orderly _ _ _ (next_batch _ _ ?q) => destruct (plain_next_batch row start q) as [H3 H4] end.
    apply orderly_at; [done|done|]. intros gid Hb. rewrite <- E. by apply H4.
  - injection E as E _. apply call_outcomes in E as [(e & -> & ->)|(u & E & Hph)]; [by apply orderly_plain|]. apply with_unit_Ok in E.
    unfold YieldSnapshotGeneration in E. destruct (negb _); [done|]. destruct (held _ _ _) eqn:Hh; [|done]. injection E as <-.
    destruct Hph as [[e ->]| ->]; (apply orderly_call_plain; [done|by eapply tidy_transition|done]).
  - injection E as <- <- _. apply orderly_plain; [done|]. destruct (an_key a); [by apply plain_at..|done].
  - injection E as E _. apply call_outcomes in E as [(e & -> & ->)|(m & E & Hph)]; [by apply orderly_plain|].
    injection E as _ <-. apply orderly_plain; [done|]. destruct Hph as [[e ->]| ->]; [done|by apply plain_at].
  - destruct (SnapshotManifestDigest entries); [|injection E as <- <- _; by apply orderly_plain].
    injection E as E _. apply call_outcomes in E as [(e & -> & ->)|(o & E & Hph)]; [by apply orderly_plain|].
    apply tidy_seal in E; [|done]. apply orderly_call_plain; [done|done|]. destruct Hph as [[e ->]| ->]; [done|]. by split; [apply Forall_nil_2|].
  - injection E as E _. apply call_outcomes in E as [(e' & -> & ->)|(u & E & Hph)]; [by apply orderly_plain|]. apply with_unit_Ok in E.
    unfold FailSnapshotGeneration in E. destruct (negb _); [done|]. destruct (held _ _ _) eqn:Hh; [|done]. injection E as <-.
    destruct Hph as [[e' ->]| ->]; (apply orderly_call_plain; [done|by eapply tidy_transition|done]).
Qed.

Lemma work_orderly a w db w' db' out :
  keyed db -> consistent (w_phase w) -> work a w db = (w', db', out) -> orderly db (w_phase w) db' (w_phase w').
Proof.
  intros Hk Hc E. unfold work in E. destruct (w_phase w) as [|g start p|res] eqn:Hw.
  - destruct (call _ _ _ _ _) as [ph d] eqn:Hcall. injection E as <- <- <-. simpl.
    apply call_outcomes in Hcall as [(e & -> & ->)|(g & Hcall & Hph)]; [split; [done|done|]; intros gid _ _; split; [apply spares_refl|by intros []]|].
    apply tidy_claim in Hcall as [Ht Hab]; [|done]. split; [by apply (td_keyed _ _ _ Ht)|by destruct Hph as [[e ->]| ->]; [|apply Forall_nil_2]|].
    intros gid Ha _. specialize (Hab gid Ha). split; [by apply (td_spares _ _ _ Ht)|]. destruct Hph as [[e ->]| ->]; [by intros []|].
    simpl. congruence.
  - destruct (work_at a w g start p db) as [[ph d] o] eqn:Ha. injection E as <- <- <-. by eapply work_at_orderly.
  - injection E as <- <- <-. rewrite Hw. split; [done|done|]. intros gid _ _. split; [apply spares_refl|by intros []].
Qed.

(** ** The system *)

Record in_order (s : system) : Prop := {
  io_keyed : keyed (tables s);
  io_workers id w : workers s !! id = Some w -> consistent (w_phase w);
}.

(** No worker is at the generation. *)
Definition left_alone (gid : string) (s : system) : Prop :=
  forall id w, workers s !! id = Some w -> ~ busy_with (w_phase w) gid.

Lemma tidy_clean db io commit storeID seen d generation cutoff limit r db' d' gid :
  keyed db -> abandoned gid db -> DeleteEligibleStagingChunk io commit storeID db seen d generation cutoff limit = (r, db', d') ->
  keyed db' /\ spares gid db db'.
Proof.
  intros Hk Ha E. apply clean_outcome in E as [->|(-> & gd & Hgd & _ & Hun)]; [by split; [|apply spares_refl]|].
  split.
  - destruct Hk as [kg ko]. split; [done|]. intros key o Ho. apply retired_row in Ho as [Ho _]. by apply ko.
  - split; [done|]. intros kind bid o Ho Hg Hp. apply retired_row. split; [done|]. intros E.
    rewrite (ky_generation _ Hk _ _ Hgd) in Hun. enough (has_unpublished db generation = true) by congruence.
    apply has_unpublished_true. exists (gid, kind, bid), o. by split_and!.
Qed.

Lemma step_in_order key_fits careful s s' :
  in_order s -> system_step key_fits careful s s' ->
  in_order s' /\ forall gid, abandoned gid (tables s) -> left_alone gid s -> spares gid (tables s) (tables s') /\ left_alone gid s'.
Proof.
  intros [Hk Hw] Hstep.
  assert (Hquiet : forall db', quiet (tables s) db' -> in_order {| tables := db'; workers := workers s; stream := stream s |} /\
    forall gid, abandoned gid (tables s) -> left_alone gid s ->
      spares gid (tables s) db' /\ left_alone gid {| tables := db'; workers := workers s; stream := stream s |}).
  { intros db' Hq. pose proof (tidy_quiet _ _ (fun _ => False) Hq) as Ht. split; [split; [by apply (td_keyed _ _ _ Ht)|exact Hw]|].
    intros gid _ Hl. split; [apply (td_spares _ _ _ Ht); by intros []|exact Hl]. }
  destruct Hstep as [s db' Hc|s id owner now job r db' Hc Hj|s id w a w' db' out Hi Hcare E|s id
    |s id owner epoch now r Hr Hc|s connectorID revision|s io commit storeID seen d generation cutoff limit r db' d' E].
  - by eapply Hquiet, control_step_quiet.
  - assert (Hq : quiet (tables s) db') by (eapply (control_step_quiet key_fits), step_claim; exact Hc).
    destruct (Hquiet db' Hq) as [[Hk' _] Hs]. split; [split; [done|]|]; simpl in *.
    + intros i w. destruct (decide (i = id)) as [->|Hne]; [rewrite lookup_insert_eq; by intros [= <-]|].
      rewrite lookup_insert_ne by done. apply Hw.
    + intros gid Ha Hl. split; [by apply (Hs gid)|]. intros i w. simpl. destruct (decide (i = id)) as [->|Hne].
      * rewrite lookup_insert_eq. intros [= <-]. by intros [].
      * rewrite lookup_insert_ne by done. apply Hl.
  - destruct (work_orderly a w (tables s) w' db' out Hk (Hw id w Hi) E) as [o1 o2 o3]. split; [split; [done|]|]; simpl in *.
    + intros i x. destruct (decide (i = id)) as [->|Hne]; [rewrite lookup_insert_eq; by intros [= <-]|].
      rewrite lookup_insert_ne by done. apply Hw.
    + intros gid Ha Hl. destruct (o3 gid Ha (Hl id w Hi)) as [Hs Hb]. split; [done|]. intros i x. simpl.
      destruct (decide (i = id)) as [->|Hne]; [rewrite lookup_insert_eq; by intros [= <-]|].
      rewrite lookup_insert_ne by done. apply Hl.
  - split; [split; [done|]|]; simpl in *.
    + intros i w Hi. apply lookup_delete_Some in Hi as [_ Hi]. by apply (Hw i).
    + intros gid _ Hl. split; [apply spares_refl|]. intros i w Hi. simpl in Hi. apply lookup_delete_Some in Hi as [_ Hi]. by apply (Hl i).
  - apply Hquiet. by eapply flagged_quiet.
  - destruct (tidy_same (tables s) (set_source_revisions <[connectorID:=revision]> (tables s)) (fun _ => False)) as [tk ts]; [done|done|].
    split; [split; [by apply tk|exact Hw]|]. intros gid _ Hl. split; [apply ts; by intros []|exact Hl].
  - split; [split; [|exact Hw]|]; simpl.
    + apply clean_outcome in E as [->|(-> & _)]; [done|]. destruct Hk as [kg ko]. split; [done|].
      intros key o Ho. apply retired_row in Ho as [Ho _]. by apply ko.
    + intros gid Ha Hl. split; [|exact Hl]. by eapply tidy_clean.
Qed.

Lemma steps_in_order key_fits careful s s' :
  in_order s -> rtc (system_step key_fits careful) s s' ->
  in_order s' /\ forall gid, abandoned gid (tables s) -> left_alone gid s ->
    spares gid (tables s) (tables s') /\ abandoned gid (tables s') /\ left_alone gid s'.
Proof.
  intros Hs Hrun. revert Hs. induction Hrun as [s|s1 s2 s3 Hstep _ IH]; intros Hs.
  { split; [done|]. intros gid Ha Hl. split_and!; [apply spares_refl|done|done]. }
  destruct (step_in_order _ _ _ _ Hs Hstep) as [Hs2 H12]. destruct (IH Hs2) as [Hs3 H23]. split; [done|].
  intros gid Ha Hl. destruct (H12 gid Ha Hl) as [Hsp Hl2]. pose proof (spares_abandoned _ _ _ Hsp Ha) as Ha2.
  destruct (H23 gid Ha2 Hl2) as (Hsp3 & Ha3 & Hl3). split_and!; [by eapply spares_trans|done|done].
Qed.

Lemma no_captures_in_order s : no_captures s -> in_order s.
Proof.
  intros (_ & Hg & Ho & Hw & _). split; [split|]; intros *; by rewrite ?Hg, ?Ho, ?Hw, lookup_empty.
Qed.

(** C6: a generation that failed or was cancelled with an envelope unpublished, and that
    no worker is at, leaks: whatever happens next, runs and retries, crashes,
    cancellations and cleanups of any age limit, its row and the unpublished one
    stay as they are, and a cleanup of it deletes nothing from the outbox or from
    any store's file. *)
Theorem abandoned_staging_never_cleaned key_fits careful s0 s s' gid gd :
  no_captures s0 -> rtc (system_step key_fits careful) s0 s -> rtc (system_step key_fits careful) s s' ->
  generations (tables s) !! gid = Some gd -> g_State gd = GenerationFailed \/ g_State gd = GenerationCancelled ->
  has_unpublished (tables s) gid = true ->
  left_alone gid s ->
  generations (tables s') !! gid = Some gd /\ has_unpublished (tables s') gid = true /\
  forall io commit storeID seen d cutoff limit r db' d',
    DeleteEligibleStagingChunk io commit storeID (tables s') seen d gid cutoff limit = (r, db', d') ->
    db' = tables s' /\ d' = d.
Proof.
  intros Hf Hbefore Hafter Hgd Hs Hun Hidle. destruct (steps_in_order _ _ _ _ (no_captures_in_order _ Hf) Hbefore) as [Hio _].
  assert (Ha : abandoned gid (tables s)).
  { split; [by exists gd|]. apply has_unpublished_true in Hun as (key & o & Ho & Hg & Hp).
    pose proof (ky_outbox _ (io_keyed _ Hio) key o Ho) as Hk. exists (ob_Kind o), (ob_BatchID o), o.
    split_and!; [|done|done]. rewrite <- Hk in Ho. unfold ob_key in Ho. by rewrite Hg in Ho. }
  destruct (steps_in_order _ _ _ _ Hio Hafter) as [Hio' Hkeep]. destruct (Hkeep gid Ha) as (Hsp & [_ (kind & bid & o & Ho & Hg & Hp)] & _).
  { exact Hidle. }
  assert (Hgd' : generations (tables s') !! gid = Some gd) by (apply (sp_generation _ _ _ Hsp); [done|]; by destruct Hs as [-> | ->]).
  assert (Hun' : has_unpublished (tables s') gid = true) by (apply has_unpublished_true; by exists (gid, kind, bid), o).
  split_and!; [done|done|]. intros io commit storeID seen d cutoff limit r db' d' E.
  assert (Hinel : forall x active, EligibleForStagingCleanup (descriptor (tables s') x active gd) cutoff = false).
  { intros x active. unfold EligibleForStagingCleanup, descriptor. simpl. rewrite (ky_generation _ (io_keyed _ Hio') _ _ Hgd'), Hun'.
    by repeat case_match; rewrite ?andb_false_r. }
  unfold DeleteEligibleStagingChunk in E. rewrite Hgd' in E. repeat (case_match; simplify_eq; try done).
  all: by rewrite Hinel in *.
Qed.
End Abandoned.

(** ** Witness *)

#[local] Existing Instance t_wire.
#[local] Existing Instance w_snapshot_env.
#[local] Existing Instance t_codec.

(** The worker prepares its batch and crashes; its run is cancelled. *)
Definition t_crash : list move :=
  [Enqueue "p" "s" "k1" "r1" 5; Start "r1" "me" 6 t_job] ++ opened "r1" (fine 7 [] false) ++
  replicate 2 (Work "r1" (fine 7 ["1"; "2"] false)) ++ [CancelRun "p" "r1" 8].

Definition t_crashed : system := default t_start (plays t_fits always t_crash t_start).

Definition t_leak : system :=
  {| tables := tables t_crashed; workers := delete "r1" (workers t_crashed); stream := stream t_crashed |}.

Lemma abandoned_staging_never_cleaned_witness :
  rtc (system_step t_fits anytime) t_start t_leak /\
  exists gd, generations (tables t_leak) !! "g1" = Some gd /\ g_State gd = GenerationCancelled /\
    has_unpublished (tables t_leak) "g1" = true.
Proof.
  assert (Hrun : rtc (system_step t_fits anytime) t_start t_leak).
  { apply rtc_r with t_crashed; [|apply sys_die]. apply (plays_sound t_fits always anytime t_crash); [done|]. vm_compute. reflexivity. }
  split; [exact Hrun|]. eexists. split; [vm_compute; reflexivity|]. split; [reflexivity|].
  edestruct (abandoned_staging_never_cleaned t_fits anytime t_start t_leak t_leak "g1") as (_ & Hun & _);
    [exact t_start_empty|exact Hrun|apply rtc_refl|vm_compute; reflexivity|right; reflexivity|vm_compute; reflexivity| |exact Hun].
  intros id w Hw. exfalso. revert Hw. vm_compute. by destruct id.
Defined.
