(* ===== verification/Operations.v ===== *)
(** The operation core ([src/internal/shared/opcore/]).

    - an operation as the source declares it ([Operation]), its type-erased
      view ([Spec]) and its one entry point ([OpInvoke]: required fields, decode,
      handler, audit, encode);
    - the schema derived from the struct tags of the input type ([schemaOf]) and
      the list of fields that is enforced ([requiredOf]);
    - the error taxonomy ([OpError], [KindOf], [classifyError]);
    - the registry ([Register], [Get], [Specs]) and the authorization of a
      principal ([Authorize], [Allow], [AllowedSpecs]).

    The storage behind the handlers is a type [W]: a handler is a function of the
    caller, the input and the world.  The JSON text codec of the language's library
    is the class [JsonText]; the reflection over an input type is its list of
    fields, so the functions over it are those of the source. *)

From S2P Require Import Prelude GoStrings.
From Stdlib Require Import Ascii String.
Open Scope string_scope.
Open Scope list_scope.
Open Scope Z_scope.

(** ** Errors *)

(** A Go error value: [errors.New], an error variable of a package (its identity is
    its name), [fmt.Errorf] with [%w] behind a prefix, an [*OpError], an [*echo.HTTPError] (its code, its message when that is a string,
    its own text).  The cause an [*OpError] keeps is for the logs: no function of the
    layer looks behind the first [*OpError] of a chain.  The HTTP errors of the
    program are made by [NewHTTPError], which wraps nothing. *)
Inductive error :=
| ENew (text : string)
| ESentinel (id text : string)
| EWrap (prefix : string) (inner : error)
| EOp (Kind Message : string)
| EHTTP (Code : Z) (Message : option string) (text : string).

Definition ErrNotFound : string := "not_found".
Definition ErrConflict : string := "conflict".
Definition ErrRetryable : string := "retryable".

(** [Error()]. *)
Fixpoint error_text (e : error) : string :=
  match e with
  | ENew t | ESentinel _ t => t
  | EWrap p i => (p ++ ": " ++ error_text i)%string
  | EOp k m => (k ++ ": " ++ m)%string
  | EHTTP _ _ t => t
  end.

(** [errors.As(err, &oe)]: the first [*OpError] of the chain, by kind and message. *)
Fixpoint as_op_error (e : error) : option (string * string) :=
  match e with
  | ENew _ | ESentinel _ _ => None
  | EWrap _ i => as_op_error i
  | EOp k m => Some (k, m)
  | EHTTP _ _ _ => None
  end.

Definition KindOf (e : error) : string :=
  match as_op_error e with Some (k, _) => k | None => "" end.

Definition statusForKind (k : string) : Z :=
  if (k =? ErrNotFound)%string then 404
  else if (k =? ErrConflict)%string then 409
  else if (k =? ErrRetryable)%string then 503
  else 400.

Definition httpErrMessage (e : error) : string :=
  match e with EHTTP _ (Some m) _ => m | _ => error_text e end.

(** ** The principal *)

Definition AccessAnalyticsRead : string := "analytics:read".
Definition AccessDashboardsWrite : string := "dashboards:write".
Definition AccessSourcesRead : string := "sources:read".
Definition AccessSourcesManage : string := "sources:manage".
Definition AccessGrowthWrite : string := "growth:write".
Definition AccessPlansWrite : string := "plans:write".

Definition CredSession : string := "session".
Definition CredLegacy : string := "legacy".
Definition CredCapture : string := "capture".
Definition CredManagement : string := "management".

Record Principal := {
  p_ProjectID : string;
  p_Kind : string;
  p_Role : string;
  p_UserID : string;
  p_CredentialID : string;
  p_Grants : list string }.

(** The zero value, which the in-process adapter passes. *)
Definition no_principal : Principal :=
  {| p_ProjectID := ""; p_Kind := ""; p_Role := ""; p_UserID := ""; p_CredentialID := "";
     p_Grants := [] |}.

Record CallContext := {
  cc_ProjectID : string;
  cc_ScopeID : string;
  cc_RunID : string;
  cc_Principal : Principal }.

Definition MemoryScope (c : CallContext) : string :=
  if negb (cc_ScopeID c =? "")%string then cc_ScopeID c else cc_ProjectID c.

(** ** The schema of an input type *)

(** [reflect.Kind], as far as [jsonType] distinguishes it. *)
Inductive GoType :=
| TString | TBool | TInt | TFloat
| TSlice (elem : GoType) | TArray (elem : GoType)
| TMap | TStruct | TPtr (elem : GoType) | TOther.

Record StructField := {
  f_Name : string;
  f_exported : bool;
  f_json : string;
  f_desc : string;
  f_required : string;
  f_Type : GoType }.

Record Property := {
  pr_type : string;
  pr_items : option string;
  pr_description : option string }.

Record Schema := {
  sc_properties : gmap string Property;
  sc_required : list string }.

Fixpoint jsonType (t : GoType) : string :=
  match t with
  | TString => "string"
  | TBool => "boolean"
  | TInt => "integer"
  | TFloat => "number"
  | TSlice _ | TArray _ => "array"
  | TMap | TStruct => "object"
  | TPtr e => jsonType e
  | TOther => "string"
  end.

Definition jsonName (f : StructField) : string :=
  if (f_json f =? "")%string then f_Name f
  else
    let name := default EmptyString (head (split_byte ","%char (f_json f))) in
    if negb (name =? "")%string then name else f_Name f.

Definition property_of (f : StructField) : Property :=
  {| pr_type := jsonType (f_Type f);
     pr_items := match f_Type f with TSlice e | TArray e => Some (jsonType e) | _ => None end;
     pr_description := if negb (f_desc f =? "")%string then Some (f_desc f) else None |}.

(** The loop of [schemaOf] over the fields, in order. *)
Definition schema_field (s : Schema) (f : StructField) : Schema :=
  if negb (f_exported f) then s
  else if (jsonName f =? "-")%string then s
  else
    {| sc_properties := <[jsonName f := property_of f]> (sc_properties s);
       sc_required :=
         if (f_required f =? "true")%string then sc_required s ++ [jsonName f] else sc_required s |}.

(** [None] is an input type that is not a struct. *)
Definition schemaOf (t : option (list StructField)) : Schema :=
  match t with
  | None => {| sc_properties := ∅; sc_required := [] |}
  | Some fs => foldl schema_field {| sc_properties := ∅; sc_required := [] |} fs
  end.

Definition requiredOf (t : option (list StructField)) : list string :=
  match t with
  | None => []
  | Some fs =>
      omap (fun f =>
        if f_exported f && (f_required f =? "true")%string then
          if negb (jsonName f =? "-")%string then Some (jsonName f) else None
        else None) fs
  end.

(** ** Decoding *)

(** What the source uses of [encoding/json] on the arguments: a document read as an
    object of raw members ([None] when it is not one). *)
Class JsonText := {
  raw_object : string -> option (gmap string string) }.

(** The two-byte text of the empty JSON string. *)
Definition empty_json_string : string := String "034"%char (String "034"%char EmptyString).

Definition isEmptyJSON (v : string) : bool :=
  let s := trim_space v in
  (s =? "")%string || (s =? empty_json_string)%string || (s =? "null")%string.

(** The guard both decoders share: an empty or null argument string is no
    argument. *)
Definition has_args (raw : string) : bool := negb (raw =? "")%string && negb (raw =? "null")%string.

Definition missing_fields `{JsonText} (req : list string) (rawArgs : string) : list string :=
  let raw := trim_space rawArgs in
  let m := if has_args raw then default ∅ (raw_object raw) else ∅ in
  List.filter (fun f => match m !! f with Some v => isEmptyJSON v | None => true end) req.

Definition validateRequired `{JsonText} (t : option (list StructField)) (rawArgs : string)
  : option error :=
  match missing_fields (requiredOf t) rawArgs with
  | [] => None
  | missing => Some (ENew ("missing required field(s): " ++ String.concat ", " missing)%string)
  end.

Definition mutatingAccess (access : string) : bool :=
  negb (access =? "")%string && negb (access =? AccessAnalyticsRead)%string
  && negb (access =? AccessSourcesRead)%string.

(** ** Operations over a world *)

Section Operations.
Context {W : Type} `{JsonText}.

(** [cc.Deps.(OperationAuditRecorder)]: [None] when the bundle records nothing. *)
Context (RecordOperationAudit : option (Principal -> string -> W -> W)).

(** An input type: its fields and its decoder; [zero] is the zero value. *)
Record InputType (I : Type) := {
  in_fields : option (list StructField);
  in_zero : I;
  in_decode : string -> result error I }.

(** A handler is deterministic in the world, the caller and the input. *)
Record Operation (I O : Type) := {
  o_Name : string;
  o_Summary : string;
  o_Scope : string;
  o_Access : string;
  o_MinSessionRole : string;
  o_Terminal : bool;
  o_Handler : CallContext -> I -> W -> W * result error O }.

Record Spec := {
  OpName : string;
  OpSummary : string;
  OpScope : string;
  OpAccess : string;
  OpMinSessionRole : string;
  OpTerminal : bool;
  OpSchema : Schema;
  OpInvoke : CallContext -> string -> W -> W * result error string }.

(** The audit of a successful call, after the handler. *)
Definition audited (access name : string) (p : Principal) (w : W) : W :=
  if mutatingAccess access && negb (p_Kind p =? "")%string then
    match RecordOperationAudit with Some f => f p name w | None => w end
  else w.

Definition decode_args {I} (t : InputType I) (name rawArgs : string) : result error I :=
  let raw := trim_space rawArgs in
  if has_args raw then
    match in_decode I t raw with
    | Ok i => Ok i
    | Err e => Err (EWrap (name ++ ": invalid arguments")%string e)
    end
  else Ok (in_zero I t).

Definition op_invoke {I O} (t : InputType I) (enc : O -> result error string)
    (o : Operation I O) (cc : CallContext) (rawArgs : string) (w : W)
  : W * result error string :=
  match validateRequired (in_fields I t) rawArgs with
  | Some e => (w, Err (EWrap (o_Name I O o) e))
  | None =>
      match decode_args t (o_Name I O o) rawArgs with
      | Err e => (w, Err e)
      | Ok i =>
          match o_Handler I O o cc i w with
          | (w1, Err e) => (w1, Err e)
          | (w1, Ok out) =>
              (audited (o_Access I O o) (o_Name I O o) (cc_Principal cc) w1, enc out)
          end
      end
  end.

Definition spec_of {I O} (t : InputType I) (enc : O -> result error string)
    (o : Operation I O) : Spec :=
  {| OpName := o_Name I O o;
     OpSummary := o_Summary I O o;
     OpScope := o_Scope I O o;
     OpAccess := o_Access I O o;
     OpMinSessionRole := o_MinSessionRole I O o;
     OpTerminal := o_Terminal I O o;
     OpSchema := schemaOf (in_fields I t);
     OpInvoke := op_invoke t enc o |}.

(** ** The registry *)

Record Registry := {
  order : list string;
  specs : gmap string Spec;
  legacyAllowlist : list string;
  classifier : option (error -> error);
  errMapper : option (error -> error) }.

Definition NewRegistry : Registry :=
  {| order := []; specs := ∅; legacyAllowlist := []; classifier := None; errMapper := None |}.

Definition Register (r : Registry) (op : Spec) : Registry :=
  {| order :=
       match specs r !! OpName op with
       | Some _ => order r
       | None => order r ++ [OpName op]
       end;
     specs := <[OpName op := op]> (specs r);
     legacyAllowlist := legacyAllowlist r;
     classifier := classifier r;
     errMapper := errMapper r |}.

Definition Get (r : Registry) (name : string) : option Spec := specs r !! name.

(** The interface value of a name without an entry has no methods to call; the
    registry invariant below excludes it. *)
Definition Specs (r : Registry) : list Spec := omap (fun n => specs r !! n) (order r).

Definition SetLegacyAllowlist (r : Registry) (names : list string) : Registry :=
  {| order := order r; specs := specs r; legacyAllowlist := names;
     classifier := classifier r; errMapper := errMapper r |}.

Definition SetErrorClassifier (r : Registry) (f : error -> error) : Registry :=
  {| order := order r; specs := specs r; legacyAllowlist := legacyAllowlist r;
     classifier := Some f; errMapper := errMapper r |}.

Definition SetErrorMapper (r : Registry) (f : error -> error) : Registry :=
  {| order := order r; specs := specs r; legacyAllowlist := legacyAllowlist r;
     classifier := classifier r; errMapper := Some f |}.

Definition MapError (r : Registry) (e : error) : error :=
  match errMapper r with None => e | Some f => f e end.

Definition classifyError (r : Registry) (e : error) : error :=
  if negb (KindOf e =? "")%string then e
  else match classifier r with None => e | Some f => f e end.

(** ** Authorization *)

Record Requirement := { rq_Access : string; rq_MinSessionRole : string }.

Definition legacyAllows (r : Registry) (name : string) : bool :=
  existsb (String.eqb name) (legacyAllowlist r).

Definition sessionRoleAtLeast (role min : string) : bool :=
  if (min =? "")%string then true
  else if (min =? "member")%string then
    (role =? "member")%string || (role =? "admin")%string || (role =? "owner")%string
  else if (min =? "admin")%string then (role =? "admin")%string || (role =? "owner")%string
  else false.

Definition legacyAllowsClass (r : Registry) (access : string) : bool :=
  existsb (fun name =>
    match Get r name with Some spec => (OpAccess spec =? access)%string | None => false end)
    (legacyAllowlist r).

Definition Allow (r : Registry) (p : Principal) (req : Requirement) : bool :=
  if (rq_Access req =? "")%string then false
  else if (p_Kind p =? CredCapture)%string then false
  else if (p_Kind p =? CredLegacy)%string then legacyAllowsClass r (rq_Access req)
  else if (p_Kind p =? CredManagement)%string then existsb (String.eqb (rq_Access req)) (p_Grants p)
  else if (p_Kind p =? CredSession)%string then
    existsb (String.eqb (rq_Access req)) (p_Grants p)
    && sessionRoleAtLeast (p_Role p) (rq_MinSessionRole req)
  else false.

Definition Authorize (r : Registry) (p : Principal) (opName : string) : bool :=
  match Get r opName with
  | None => false
  | Some spec =>
      if (OpAccess spec =? "")%string then false
      else if (p_Kind p =? CredLegacy)%string then legacyAllows r opName
      else Allow r p {| rq_Access := OpAccess spec; rq_MinSessionRole := OpMinSessionRole spec |}
  end.

Definition RefusalMessage (access : string) : string :=
  if (access =? "")%string then "credential may not perform this action"
  else ("credential may not perform this action (requires " ++ access ++ ")")%string.

Definition AllowedSpecs (r : Registry) (p : Principal) : list Spec :=
  List.filter (fun s => Authorize r p (OpName s)) (Specs r).

(** [TerminalNames]. *)
Definition TerminalNames (r : Registry) : gset string :=
  list_to_set (map OpName (List.filter OpTerminal (Specs r))).

End Operations.

Arguments InputType I : clear implicits.
Arguments Operation {W} I O.
Arguments Spec : clear implicits.
Arguments Registry : clear implicits.
Arguments in_fields {I}. Arguments in_zero {I}. Arguments in_decode {I}.
Arguments o_Name {W I O}. Arguments o_Summary {W I O}. Arguments o_Scope {W I O}.
Arguments o_Access {W I O}. Arguments o_MinSessionRole {W I O}. Arguments o_Terminal {W I O}.
Arguments o_Handler {W I O}.
Arguments OpName {W}. Arguments OpSummary {W}. Arguments OpScope {W}. Arguments OpAccess {W}.
Arguments OpMinSessionRole {W}. Arguments OpTerminal {W}. Arguments OpSchema {W}.
Arguments OpInvoke {W}.
Arguments order {W}. Arguments specs {W}. Arguments legacyAllowlist {W}.
Arguments classifier {W}. Arguments errMapper {W}. Arguments NewRegistry {W}.

(** * Theorems *)

(** ** The schema and the enforced fields *)

Lemma foldl_schema_required fs s :
  sc_required (foldl schema_field s fs) = sc_required s ++ requiredOf (Some fs).
Proof.
  revert s. induction fs as [|f fs IH]; intros s; simpl; [by rewrite app_nil_r|].
  rewrite IH. unfold schema_field.
  destruct (f_exported f); simpl; [|done].
  destruct (jsonName f =? "-")%string; simpl; destruct (f_required f =? "true")%string; simpl; try done.
  by rewrite <- app_assoc.
Qed.

(** The contract a client is shown and the one [OpInvoke] enforces name the same
    fields, in the same order. *)
Lemma schema_required_enforced t : sc_required (schemaOf t) = requiredOf t.
Proof. destruct t as [fs|]; [|done]. apply (foldl_schema_required fs). Qed.

(** ** The registry *)

Section RegistryLaws.
Context {W : Type}.
Implicit Types (r : Registry W) (s op : Spec W) (p : Principal).

(** Every name of the order is registered, once, under its own name. *)
Definition registry_ok (r : Registry W) : Prop :=
  (forall n s, specs r !! n = Some s -> OpName s = n) /\
  NoDup (order r) /\
  (forall n, n ∈ order r <-> is_Some (specs r !! n)).

Lemma registry_ok_new : registry_ok NewRegistry.
Proof.
  split; [|split].
  - intros n s Hn. unfold NewRegistry in Hn. cbn in Hn. by rewrite lookup_empty in Hn.
  - apply NoDup_nil_2.
  - intros n. simpl. rewrite lookup_empty. split; [intros []%not_elem_of_nil|intros []%is_Some_None].
Qed.

Lemma registry_ok_register r op : registry_ok r -> registry_ok (Register r op).
Proof.
  intros (Hname & Hnd & Hdom). split; [|split]; simpl.
  - intros n s Hn. destruct (decide (n = OpName op)) as [->|Hne].
    + rewrite lookup_insert_eq in Hn. by simplify_eq.
    + rewrite lookup_insert_ne in Hn by done. by apply Hname.
  - destruct (specs r !! OpName op) eqn:E; [done|].
    apply NoDup_app. split; [done|split; [|apply NoDup_singleton]].
    intros n Hn ->%list_elem_of_singleton. apply Hdom in Hn. rewrite E in Hn. by destruct Hn.
  - intros n. destruct (decide (n = OpName op)) as [->|Hne].
    + rewrite lookup_insert_eq. split; [by eauto|intros _].
      destruct (specs r !! OpName op) eqn:E; [apply Hdom; by eauto|].
      apply elem_of_app. right. by apply list_elem_of_singleton.
    + rewrite lookup_insert_ne by done. rewrite <- Hdom.
      destruct (specs r !! OpName op); [done|].
      rewrite elem_of_app, list_elem_of_singleton. tauto.
Qed.

Lemma registry_ok_log r log : registry_ok r -> registry_ok (foldl Register r log).
Proof.
  revert r. induction log as [|op log IH]; intros r Hr; [done|]. by apply IH, registry_ok_register.
Qed.

Lemma elem_of_Specs r s : registry_ok r -> s ∈ Specs r <-> Get r (OpName s) = Some s.
Proof.
  intros (Hname & _ & Hdom). unfold Specs, Get. rewrite list_elem_of_omap. split.
  - intros (n & _ & Hn). by rewrite (Hname _ _ Hn).
  - intros Hn. exists (OpName s). split; [apply Hdom; by eauto|done].
Qed.

(** The reference: the last operation registered under a name, and a log read from
    its first entry. *)
Fixpoint latest (log : list (Spec W)) (name : string) : option (Spec W) :=
  match log with
  | [] => None
  | op :: log' =>
      match latest log' name with
      | Some s => Some s
      | None => if (OpName op =? name)%string then Some op else None
      end
  end.

Fixpoint first_names (log : list (Spec W)) : list string :=
  match log with
  | [] => []
  | op :: log' => OpName op :: List.filter (fun n => negb (n =? OpName op)%string) (first_names log')
  end.

Definition registered (log : list (Spec W)) : list (Spec W) := omap (latest log) (first_names log).

Lemma latest_snoc log op n :
  latest (log ++ [op]) n = if (OpName op =? n)%string then Some op else latest log n.
Proof.
  induction log as [|x log IH]; simpl; [by destruct (_ =? _)%string|].
  rewrite IH. by destruct (OpName op =? n)%string.
Qed.

Lemma in_first_names log n : In n (first_names log) <-> is_Some (latest log n).
Proof.
  induction log as [|x log IH]; simpl; [split; [done|intros []%is_Some_None]|].
  rewrite filter_In, negb_true_iff, String.eqb_neq, IH.
  destruct (latest log n); destruct (String.eqb_spec (OpName x) n) as [->|Hne]; split; intros Hn;
    try (by eauto); try (by destruct Hn); try by destruct Hn as [?|[[? ?] ?]].
Qed.

Lemma first_names_snoc log op :
  first_names (log ++ [op]) =
  match latest log (OpName op) with Some _ => first_names log | None => first_names log ++ [OpName op] end.
Proof.
  induction log as [|x log IH]; [done|]. cbn [first_names app latest]. rewrite IH.
  destruct (latest log (OpName op)) eqn:E; [done|].
  destruct (String.eqb_spec (OpName x) (OpName op)) as [Heq|Hne]; simpl;
    rewrite List.filter_app; simpl.
  - rewrite Heq, String.eqb_refl. simpl. by rewrite app_nil_r.
  - by rewrite (proj2 (String.eqb_neq _ _) (not_eq_sym Hne)).
Qed.

Lemma log_state log r :
  r = foldl Register NewRegistry log ->
  (forall n, Get r n = latest log n) /\ order r = first_names log.
Proof.
  revert r. induction log as [|op log IH] using rev_ind; intros r ->.
  { split; [|done]. intros n. apply lookup_empty. }
  rewrite foldl_app. destruct (IH _ eq_refl) as [Hget Hord]. unfold Get in Hget.
  cbn [foldl]. unfold Get, Register. cbn [specs order]. split.
  - intros n. rewrite latest_snoc. destruct (String.eqb_spec (OpName op) n) as [->|Hne].
    + by rewrite lookup_insert_eq.
    + rewrite lookup_insert_ne by done. apply Hget.
  - rewrite Hget, first_names_snoc. by destruct (latest log (OpName op)); rewrite <- Hord.
Qed.

(** The registry a sequence of [Register] calls builds lists each name once, in the
    order of its first registration, with its latest definition, and [Get] returns
    that definition. *)
Theorem registry_is_its_log log :
  let r := foldl Register NewRegistry log in
  Specs r = registered log /\ NoDup (map OpName (Specs r)) /\ forall n, Get r n = latest log n.
Proof.
  intros r. destruct (log_state log r eq_refl) as [Hget Hord].
  pose proof (registry_ok_log _ log registry_ok_new) as (Hname & Hnd & Hdom). fold r in Hname, Hnd, Hdom.
  split; [|split; [|done]].
  - unfold Specs, registered. rewrite Hord. apply list_omap_ext, Forall_Forall2_diag, Forall_forall.
    intros n _. apply Hget.
  - replace (map OpName (Specs r)) with (order r); [done|]. unfold Specs.
    assert (forall n, n ∈ order r -> is_Some (specs r !! n)) as Hin by (intros n Hn; by apply Hdom).
    clear Hnd Hdom Hord. revert Hin. induction (order r) as [|n ns IH]; intros Hin; [done|].
    simpl. destruct (Hin n) as [s Hs]; [by left|]. rewrite Hs. simpl.
    rewrite (Hname _ _ Hs). f_equal. apply IH. intros m Hm. apply Hin. by right.
Qed.

(** ** Authorization *)

Lemma legacyAllows_spec r n : legacyAllows r n = true <-> In n (legacyAllowlist r).
Proof.
  unfold legacyAllows. rewrite existsb_exists. split.
  - by intros (m & Hm & ->%String.eqb_eq).
  - intros Hn. exists n. split; [done|apply String.eqb_refl].
Qed.

(** A call by name is never admitted where a requirement of the same class and role
    is refused; outside the legacy keys the two decisions are one. *)
Theorem authorize_refines_allow r p n s :
  Get r n = Some s ->
  let req := {| rq_Access := OpAccess s; rq_MinSessionRole := OpMinSessionRole s |} in
  (Authorize r p n = true -> Allow r p req = true) /\
  (p_Kind p <> CredLegacy -> Authorize r p n = Allow r p req) /\
  (p_Kind p = CredLegacy -> Authorize r p n = negb (OpAccess s =? "")%string && legacyAllows r n).
Proof.
  intros Hs req. unfold Authorize. rewrite Hs.
  destruct (OpAccess s =? "")%string eqn:Ea.
  { unfold Allow. simpl. rewrite Ea. by split_and!. }
  destruct (String.eqb_spec (p_Kind p) CredLegacy) as [Hk|Hk]; [|by split_and!].
  split_and!; [|done|done]. intros Hl.
  unfold Allow. simpl. rewrite Ea, Hk. simpl.
  apply legacyAllows_spec in Hl. apply existsb_exists. exists n. split; [done|].
  by rewrite Hs, String.eqb_refl.
Qed.

(** The freeze: an operation registered after the list was fixed, under a name that is
    not on it, changes no decision about a legacy key, by name or by class. *)
Theorem legacy_freeze r p op :
  p_Kind p = CredLegacy -> ~ In (OpName op) (legacyAllowlist r) ->
  (forall n, Authorize (Register r op) p n = Authorize r p n) /\
  (forall req, Allow (Register r op) p req = Allow r p req).
Proof.
  intros Hk Hnot. split.
  - intros n. unfold Authorize, Get. cbn [specs Register].
    destruct (decide (n = OpName op)) as [->|Hne]; [|by rewrite lookup_insert_ne, Hk by done].
    rewrite lookup_insert_eq, Hk. simpl.
    assert (legacyAllows r (OpName op) = false) as Hf.
    { destruct (legacyAllows r (OpName op)) eqn:E; [|done]. by apply legacyAllows_spec in E. }
    unfold legacyAllows in *. simpl. rewrite Hf.
    destruct (OpAccess op =? "")%string; destruct (specs r !! OpName op) as [s|]; try done;
      by destruct (OpAccess s =? "")%string.
  - intros req. unfold Allow. rewrite Hk. simpl. destruct (_ =? _)%string; [done|].
    unfold legacyAllowsClass, Get. simpl.
    induction (legacyAllowlist r) as [|m ms IH]; [done|]. simpl in *.
    rewrite IH by tauto. rewrite lookup_insert_ne; [done|]. intros Em. apply Hnot. by left.
Qed.

(** What [AllowedSpecs] lists is what [Authorize] admits by name, in registration
    order. *)
Lemma allowed_iff_authorized r p n :
  registry_ok r ->
  (exists s, In s (AllowedSpecs r p) /\ OpName s = n) <-> Authorize r p n = true.
Proof.
  intros Hok. unfold AllowedSpecs. split.
  - intros (s & Hin & <-). by apply filter_In in Hin as [_ Ha].
  - intros Ha. destruct (Get r n) as [s|] eqn:Hs; [|by unfold Authorize in Ha; rewrite Hs in Ha].
    exists s. pose proof Hok as (Hname & _ & Hdom). pose proof (Hname _ _ Hs) as Hn. split; [|done].
    apply filter_In. rewrite Hn. split; [|done]. apply list_elem_of_In, elem_of_Specs; [done|].
    by rewrite Hn.
Qed.

(** An admitted caller has one of the three kinds that can be admitted. *)
Lemma authorized_kind r p n :
  Authorize r p n = true ->
  p_Kind p = CredLegacy \/ p_Kind p = CredManagement \/ p_Kind p = CredSession.
Proof.
  unfold Authorize. destruct (Get r n) as [s|]; [|done].
  destruct (OpAccess s =? "")%string eqn:Ea; [done|].
  destruct (String.eqb_spec (p_Kind p) CredLegacy); [by auto|].
  unfold Allow. simpl. rewrite Ea.
  destruct (p_Kind p =? CredCapture)%string; [done|].
  destruct (String.eqb_spec (p_Kind p) CredLegacy); [by auto|].
  destruct (String.eqb_spec (p_Kind p) CredManagement); [by auto|].
  destruct (String.eqb_spec (p_Kind p) CredSession); [by auto|done].
Qed.

End RegistryLaws.
