(* ===== verification/OpAdapters.v ===== *)
(** The adapters over the operation registry ([src/internal/shared/opcore/mcp.go],
    [http.go], [tool.go], [client.go]).

    A network request carries a context [Req] that the resolver of the application
    layer reads (headers, cookie, query).  Resolving may change the world (a
    credential stamps its last use), so the resolver is a state transformer.

    - [handleMCP]: the JSON-RPC endpoint, single messages and batches;
    - [mounted] and [op_endpoint]: the REST surface; [Client_result] is what the
      command line's client makes of the answer;
    - [Tools] and [tool_run]: the in-process adapter.

    The theorems: what a network caller can do to the world is a chain of resolver
    calls and authorized invocations; a batch is answered in order; a failure keeps
    its kind through every adapter. *)

From S2P Require Import Prelude GoStrings Operations.
From Stdlib Require Import Ascii String.
Open Scope string_scope.
Open Scope list_scope.
Open Scope Z_scope.

(** ** JSON-RPC messages *)

(** [ID] is the raw text of the member, empty when it is absent. *)
Record jsonRPCRequest := {
  rq_ID : string;
  rq_Method : string;
  rq_Params : string }.

Record mcpTool := {
  t_Name : string;
  t_Description : string;
  t_InputSchema : Schema }.

(** The JSON texts the adapters read and write, through the language's library.
    [decode_object] reads one value into an object: [Some None] is the text [null],
    which decodes to a nil map without an error. *)
Class RpcText := {
  Object : Type;
  decode_batch : string -> option (list jsonRPCRequest);
  decode_request : string -> option jsonRPCRequest;
  decode_version : string -> option string;
  decode_call : string -> option (string * string);
  decode_object : string -> option (option Object) }.

(** [StructuredContent] is left out of the answer when it is [None]. *)
Record mcpToolResult `{RpcText} := {
  tr_Text : string;
  tr_Structured : option (option Object);
  tr_Meta : list (string * string);
  tr_IsError : bool }.

Inductive rpc_result `{RpcText} :=
| RInitialize (protocolVersion : string)
| REmpty
| RTools (tools : list mcpTool)
| RTool (r : mcpToolResult).

Record jsonRPCResponse `{RpcText} := {
  rs_ID : string;
  rs_Result : option rpc_result;
  rs_Error : option (Z * string) }.

Inductive mcp_reply `{RpcText} :=
| NoContent
| One (r : jsonRPCResponse)
| Many (rs : list jsonRPCResponse).

Definition mcpProtocolVersion : string := "2025-06-18".

(** ** The MCP endpoint *)

Section Mcp.
Context {W Req : Type} `{JsonText, RpcText}.
Context (r : Registry W) (resolve : Req -> W -> W * result error Principal).

Definition ok (id : string) (x : rpc_result) : jsonRPCResponse :=
  {| rs_ID := id; rs_Result := Some x; rs_Error := None |}.

Definition rpcError (id : string) (code : Z) (message : string) : jsonRPCResponse :=
  {| rs_ID := id; rs_Result := None; rs_Error := Some (code, message) |}.

Definition errorResult (msg kind : string) : mcpToolResult :=
  {| tr_Text := msg; tr_Structured := None;
     tr_Meta := if negb (kind =? "")%string then [("error_code", kind)] else [];
     tr_IsError := true |}.

Fixpoint firstNonSpace (b : string) : ascii :=
  match b with
  | EmptyString => "000"%char
  | String ch b' =>
      if (ch =? " ")%char || (ch =? "009")%char || (ch =? "010")%char || (ch =? "013")%char
      then firstNonSpace b' else ch
  end.

Definition initializeResult (params : string) : rpc_result :=
  RInitialize
    (if negb (params =? "")%string then
       match decode_version params with
       | Some v => if negb (v =? "")%string then v else mcpProtocolVersion
       | None => mcpProtocolVersion
       end
     else mcpProtocolVersion).

Definition listTools (specs : list (Spec W)) : list mcpTool :=
  map (fun s => {| t_Name := OpName s; t_Description := OpSummary s; t_InputSchema := OpSchema s |}) specs.

(** The call context of the network adapters: the caller acts as its project. *)
Definition network_context (p : Principal) : CallContext :=
  {| cc_ProjectID := p_ProjectID p; cc_ScopeID := ""; cc_RunID := ""; cc_Principal := p |}.

(** The result of [tools/call] on the outcome of the invocation. *)
Definition tool_result (p : Principal) (out : result error string) : mcpToolResult :=
  match out with
  | Err e =>
      let e := classifyError r e in
      errorResult (error_text e) (KindOf e)
  | Ok out =>
      {| tr_Text := out;
         tr_Structured := decode_object out;
         tr_Meta := [("project_id", p_ProjectID p)];
         tr_IsError := false |}
  end.

Definition callTool (c : Req) (req : jsonRPCRequest) (w : W) : W * jsonRPCResponse :=
  match decode_call (rq_Params req) with
  | None => (w, rpcError (rq_ID req) (-32602) "invalid params")
  | Some (name, arguments) =>
      match Get r name with
      | None => (w, rpcError (rq_ID req) (-32602) ("unknown tool: " ++ name)%string)
      | Some spec =>
          match resolve c w with
          | (w1, Err e) =>
              (w1, ok (rq_ID req)
                     (RTool (errorResult ("authentication failed: " ++ httpErrMessage e)%string "")))
          | (w1, Ok p) =>
              if negb (Authorize r p name) then
                (w1, ok (rq_ID req) (RTool (errorResult (RefusalMessage (OpAccess spec)) "")))
              else
                let args := if (arguments =? "")%string then "{}" else arguments in
                let '(w2, out) := OpInvoke spec (network_context p) args w1 in
                (w2, ok (rq_ID req) (RTool (tool_result p out)))
          end
      end
  end.

(** [None] is the [false] of the source: no response is sent. *)
Definition dispatch (c : Req) (req : jsonRPCRequest) (w : W) : W * option jsonRPCResponse :=
  let isNotification := (rq_ID req =? "")%string in
  let m := rq_Method req in
  if (m =? "initialize")%string then
    (w, if isNotification then None else Some (ok (rq_ID req) (initializeResult (rq_Params req))))
  else if (m =? "notifications/initialized")%string || (m =? "notifications/cancelled")%string then
    (w, None)
  else if (m =? "ping")%string then
    (w, if isNotification then None else Some (ok (rq_ID req) REmpty))
  else if (m =? "tools/list")%string then
    if isNotification then (w, None)
    else
      match resolve c w with
      | (w1, Err e) =>
          (w1, Some (rpcError (rq_ID req) (-32001)
                       ("authentication failed: " ++ httpErrMessage e)%string))
      | (w1, Ok p) => (w1, Some (ok (rq_ID req) (RTools (listTools (AllowedSpecs r p)))))
      end
  else if (m =? "tools/call")%string then
    if isNotification then (w, None)
    else let '(w1, resp) := callTool c req w in (w1, Some resp)
  else
    (w, if isNotification then None
        else Some (rpcError (rq_ID req) (-32601) ("method not found: " ++ m)%string)).

(** The loop over a batch. *)
Fixpoint dispatch_batch (c : Req) (batch : list jsonRPCRequest) (w : W)
  : W * list jsonRPCResponse :=
  match batch with
  | [] => (w, [])
  | req :: batch' =>
      let '(w1, resp) := dispatch c req w in
      let '(w2, responses) := dispatch_batch c batch' w1 in
      (w2, match resp with Some x => x :: responses | None => responses end)
  end.

(** [body] is [None] when it cannot be read. *)
Definition handleMCP (c : Req) (body : option string) (w : W) : W * mcp_reply :=
  match body with
  | None => (w, One (rpcError "" (-32700) "parse error: unreadable body"))
  | Some body =>
      if (firstNonSpace body =? "[")%char then
        match decode_batch body with
        | None => (w, One (rpcError "" (-32700) "parse error"))
        | Some batch =>
            let '(w1, responses) := dispatch_batch c batch w in
            (w1, match responses with [] => NoContent | _ => Many responses end)
        end
      else
        match decode_request body with
        | None => (w, One (rpcError "" (-32700) "parse error"))
        | Some req =>
            let '(w1, resp) := dispatch c req w in
            (w1, match resp with Some x => One x | None => NoContent end)
        end
  end.

(** ** The REST surface *)

Record opErrorBody := { eb_Error : string; eb_Code : string }.

(** What the handler of a mounted operation answers with: an error for the web
    framework, a JSON error body with its status, or the output. *)
Inductive http_reply :=
| HError (e : error)
| HJSON (status : Z) (body : opErrorBody)
| HBlob (out : string).

(** A failed invocation, classified and framed. *)
Definition rest_failure (e : error) : http_reply :=
  let e := classifyError r e in
  match as_op_error e with
  | Some (kind, message) => HJSON (statusForKind kind) {| eb_Error := message; eb_Code := kind |}
  | None =>
      match MapError r e with
      | EHTTP _ _ _ as he => HError he
      | _ => HJSON 400 {| eb_Error := error_text e; eb_Code := "" |}
      end
  end.

Definition op_endpoint (spec : Spec W) (c : Req) (body : option string) (w : W)
  : W * http_reply :=
  match resolve c w with
  | (w1, Err e) => (w1, HError e)
  | (w1, Ok p) =>
      if negb (Authorize r p (OpName spec)) then
        (w1, HError (EHTTP 403 (Some (RefusalMessage (OpAccess spec))) (RefusalMessage (OpAccess spec))))
      else
        match body with
        | None => (w1, HError (EHTTP 400 (Some "unreadable request body") "unreadable request body"))
        | Some body =>
            match OpInvoke spec (network_context p) body w1 with
            | (w2, Err e) => (w2, rest_failure e)
            | (w2, Ok out) => (w2, HBlob out)
            end
        end
  end.

(** The routes [MountHTTP] registers: one per operation, under its name. *)
Definition mounted : list (string * Spec W) := map (fun s => (OpName s, s)) (Specs r).

(** A request to the mounted group; an unknown path never reaches a handler. *)
Definition rest_call (name : string) (c : Req) (body : option string) (w : W)
  : option (W * http_reply) :=
  match List.find (fun rt => (fst rt =? name)%string) mounted with
  | Some (_, spec) => Some (op_endpoint spec c body w)
  | None => None
  end.

(** ** The in-process adapter *)

Definition tool_run (spec : Spec W) (cc : CallContext) (args : string) (w : W)
  : W * result error string :=
  match OpInvoke spec cc args w with
  | (w1, Ok out) => (w1, Ok out)
  | (w1, Err e) => (w1, Err (classifyError r e))
  end.

Definition Tools (cc : CallContext) : list (string * (string -> W -> W * result error string)) :=
  map (fun s => (OpName s, tool_run s cc)) (Specs r).

End Mcp.

(** ** The client of the command line *)

(** The JSON text of an error body: [encode_body] is what the server sends, and a body
    of valid text ([valid_text]) is read back as it was. *)
Class ErrorBodyText := {
  valid_text : string -> bool;
  encode_body : opErrorBody -> string;
  decode_body : string -> option opErrorBody;
  decode_encode_body b :
    valid_text (eb_Error b) = true -> valid_text (eb_Code b) = true ->
    decode_body (encode_body b) = Some b }.

Definition failed_text (op : string) (status : Z) (detail : string) : string :=
  ("op " ++ op ++ " failed (" ++ itoa status ++ "): " ++ detail)%string.

(** [Client.Call] on a received answer. *)
Definition Client_result `{ErrorBodyText} (op : string) (status : Z) (body : string)
  : result error string :=
  if 300 <=? status then
    match decode_body body with
    | Some b =>
        if negb (eb_Error b =? "")%string then
          if negb (eb_Code b =? "")%string then Err (EOp (eb_Code b) (eb_Error b))
          else Err (ENew (failed_text op status (eb_Error b)))
        else Err (ENew (failed_text op status (trim_space body)))
    | None => Err (ENew (failed_text op status (trim_space body)))
    end
  else Ok body.

(** The header the client authenticates with. *)
Definition client_header (APIKey : string) : option (string * string) :=
  if (APIKey =? "")%string then None
  else if has_prefix APIKey "agm_" then Some ("Authorization", ("Bearer " ++ APIKey)%string)
  else Some ("X-API-Key", APIKey).

Definition client_input (input : string) : string := if (input =? "")%string then "{}" else input.

(** The answer on the wire; [render] is how the web framework writes an error. *)
Definition on_the_wire `{ErrorBodyText} (render : error -> Z * string) (h : http_reply) : Z * string :=
  match h with
  | HError e => render e
  | HJSON status b => (status, encode_body b)
  | HBlob out => (200, out)
  end.

(** * Theorems *)

Section Network.
Context {W Req : Type} `{JsonText, RpcText}.
Context (r : Registry W) (resolve : Req -> W -> W * result error Principal).

(** What a request may do to the world: resolve its caller, and invoke a registered
    operation the caller just resolved is authorized for. *)
Inductive net_step : W -> W -> Prop :=
| net_resolve c w : net_step w (fst (resolve c w))
| net_invoke c w w1 p name spec args :
    resolve c w = (w1, Ok p) ->
    Get r name = Some spec ->
    Authorize r p name = true ->
    net_step w1 (fst (OpInvoke spec (network_context p) args w1)).

Inductive net_request :=
| ToMCP (body : option string)
| ToOp (name : string) (body : option string).

Definition serve_one (c : Req) (q : net_request) (w : W) : W :=
  match q with
  | ToMCP body => fst (handleMCP r resolve c body w)
  | ToOp name body =>
      match rest_call r resolve name c body w with Some (w1, _) => w1 | None => w end
  end.

Definition serve (qs : list (Req * net_request)) (w : W) : W :=
  foldl (fun w q => serve_one (fst q) (snd q) w) w qs.

Lemma net_resolved c w w1 x : resolve c w = (w1, x) -> net_step w w1.
Proof. intros Hc. pose proof (net_resolve c w) as Hs. by rewrite Hc in Hs. Qed.

Lemma net_call c w w1 p name spec args w2 out :
  resolve c w = (w1, Ok p) -> Get r name = Some spec -> Authorize r p name = true ->
  OpInvoke spec (network_context p) args w1 = (w2, out) -> rtc net_step w w2.
Proof.
  intros Hc Hg Ha Hi. eapply rtc_l; [by eapply net_resolved|]. apply rtc_once.
  pose proof (net_invoke c w w1 p name spec args Hc Hg Ha) as Hs. by rewrite Hi in Hs.
Qed.

Lemma callTool_steps c req w : rtc net_step w (fst (callTool r resolve c req w)).
Proof.
  unfold callTool. destruct (decode_call (rq_Params req)) as [[name args]|]; [|apply rtc_refl].
  destruct (Get r name) as [spec|] eqn:Hg; [|apply rtc_refl].
  destruct (resolve c w) as [w1 [p|e]] eqn:Hc; [|by eapply rtc_once, net_resolved].
  destruct (Authorize r p name) eqn:Ha; simpl; [|by eapply rtc_once, net_resolved].
  destruct (OpInvoke spec _ _ w1) as [w2 out] eqn:Hi. by eapply net_call.
Qed.

Lemma dispatch_steps c req w : rtc net_step w (fst (dispatch r resolve c req w)).
Proof.
  unfold dispatch. repeat case_match; simplify_eq; simpl; try apply rtc_refl;
    try by eapply rtc_once, net_resolved.
  pose proof (callTool_steps c req w) as Hs. by match goal with E : callTool _ _ _ _ _ = _ |- _ => rewrite E in Hs end.
Qed.

Lemma batch_steps c batch w : rtc net_step w (fst (dispatch_batch r resolve c batch w)).
Proof.
  revert w. induction batch as [|req batch IH]; intros w; simpl; [apply rtc_refl|].
  pose proof (dispatch_steps c req w) as Hd. destruct (dispatch r resolve c req w) as [w1 resp].
  pose proof (IH w1) as Hb. destruct (dispatch_batch r resolve c batch w1) as [w2 rs].
  simpl in *. by etrans.
Qed.

Lemma mcp_steps c body w : rtc net_step w (fst (handleMCP r resolve c body w)).
Proof.
  unfold handleMCP. destruct body as [body|]; [|apply rtc_refl].
  destruct (firstNonSpace body =? "[")%char.
  - destruct (decode_batch body) as [batch|]; [|apply rtc_refl].
    pose proof (batch_steps c batch w) as Hb. by destruct (dispatch_batch r resolve c batch w).
  - destruct (decode_request body) as [req|]; [|apply rtc_refl].
    pose proof (dispatch_steps c req w) as Hd. by destruct (dispatch r resolve c req w).
Qed.

Lemma mounted_find name spec :
  List.find (fun rt => (fst rt =? name)%string) (mounted r) = Some (name, spec) ->
  In spec (Specs r) /\ OpName spec = name.
Proof.
  intros Hf. apply find_some in Hf as [Hin _]. unfold mounted in Hin.
  apply in_map_iff in Hin as (s & [= <- <-] & Hs). done.
Qed.

Lemma endpoint_steps spec c body w :
  Get r (OpName spec) = Some spec -> rtc net_step w (fst (op_endpoint r resolve spec c body w)).
Proof.
  intros Hg. unfold op_endpoint. destruct (resolve c w) as [w1 [p|e]] eqn:Hc;
    [|by eapply rtc_once, net_resolved].
  destruct (Authorize r p (OpName spec)) eqn:Ha; simpl; [|by eapply rtc_once, net_resolved].
  destruct body as [body|]; [|by eapply rtc_once, net_resolved].
  destruct (OpInvoke spec _ _ w1) as [w2 [out|e]] eqn:Hi; by eapply net_call.
Qed.

Lemma serve_steps qs w : registry_ok r -> rtc net_step w (serve qs w).
Proof.
  intros Hok. unfold serve. revert w. induction qs as [|[c q] qs IH]; intros w; [apply rtc_refl|].
  cbn [foldl fst snd]. etrans; [|apply IH]. destruct q as [body|name body]; simpl; [apply mcp_steps|].
  unfold rest_call. destruct (List.find _ (mounted r)) as [[n spec]|] eqn:Hf; [|apply rtc_refl].
  pose proof (find_some _ _ Hf) as [_ Hn]. apply String.eqb_eq in Hn. simpl in Hn. subst n.
  apply mounted_find in Hf as [Hin <-].
  pose proof (endpoint_steps spec c body w) as Hs.
  destruct (op_endpoint r resolve spec c body w) as [w1 rep]. apply Hs.
  apply elem_of_Specs; [done|]. by apply list_elem_of_In.
Qed.

(** The authority a management or capture credential can carry: its classes. *)
Definition held_by (G : list string) (p : Principal) : Prop :=
  p_Kind p = CredCapture \/
  p_Kind p = CredManagement /\ forall a, In a (p_Grants p) -> In a G.

Lemma authorized_class G p name spec :
  held_by G p -> Get r name = Some spec -> Authorize r p name = true -> In (OpAccess spec) G.
Proof.
  intros Hheld Hg Ha. pose proof (authorized_kind _ _ _ Ha) as Hk.
  destruct Hheld as [Hcap|[Hm Hsub]]; [rewrite Hcap in Hk; by destruct Hk as [|[|]]|].
  unfold Authorize in Ha. rewrite Hg, Hm in Ha. unfold Allow in Ha. rewrite Hm in Ha.
  simpl in Ha. destruct (OpAccess spec =? "")%string; [done|]. simpl in Ha.
  apply Hsub. apply existsb_exists in Ha as (a & Hin & ->%String.eqb_eq). done.
Qed.

(** C13: What credentials can do is what the operations of their classes do.  When every
    caller the resolver returns holds classes of [G] only, a predicate on the world
    that the resolver and the operations of those classes keep survives every
    sequence of requests, in single messages, in batches and over REST. *)
Theorem effects_within_grants (G : list string) (I : W -> Prop) qs w :
  registry_ok r ->
  (forall c w p, snd (resolve c w) = Ok p -> held_by G p) ->
  (forall c w, I w -> I (fst (resolve c w))) ->
  (forall name spec p args w, Get r name = Some spec -> In (OpAccess spec) G ->
     I w -> I (fst (OpInvoke spec (network_context p) args w))) ->
  I w -> I (serve qs w).
Proof.
  intros Hok Hheld Hres Hops Hw. pose proof (serve_steps qs w Hok) as Hs.
  induction Hs as [w|w w' w'' Hstep _ IH]; [done|]. apply IH.
  destruct Hstep as [c w|c w w1 p name spec args Hc Hg Ha]; [by apply Hres|].
  apply (Hops name); [done| |done].
  eapply authorized_class; [|done|done]. eapply (Hheld c w). by rewrite Hc.
Qed.

(** Over the network a mutating operation leaves a record: an authorized caller's
    successful call of an operation outside the two read classes is recorded under
    the caller and the operation's name, after the handler and also when its result
    cannot be encoded. *)
Lemma authorized_mutation_is_audited {I O} (t : InputType I) (enc : O -> result error string)
    (o : Operation I O) (record : Principal -> string -> W -> W) p args i w w1 out :
  Authorize r p (o_Name o) = true ->
  mutatingAccess (o_Access o) = true ->
  validateRequired (in_fields t) args = None ->
  decode_args t (o_Name o) args = Ok i ->
  o_Handler o (network_context p) i w = (w1, Ok out) ->
  op_invoke (Some record) t enc o (network_context p) args w = (record p (o_Name o) w1, enc out).
Proof.
  intros Ha Hm Hreq Hdec Hh. unfold op_invoke. rewrite Hreq, Hdec, Hh. unfold audited. rewrite Hm.
  apply authorized_kind in Ha. simpl. by destruct Ha as [->|[->| ->]].
Qed.

(** ** Batches *)

(** The messages that are answered: those with an id, the two notifications of the
    protocol apart. *)
Definition expects_response (req : jsonRPCRequest) : bool :=
  negb (rq_ID req =? "")%string
  && negb ((rq_Method req =? "notifications/initialized")%string
           || (rq_Method req =? "notifications/cancelled")%string).

Lemma callTool_id c req w : rs_ID (snd (callTool r resolve c req w)) = rq_ID req.
Proof. unfold callTool. by repeat (case_match; simpl). Qed.

Lemma dispatch_id c req w :
  option_map rs_ID (snd (dispatch r resolve c req w)) =
  if expects_response req then Some (rq_ID req) else None.
Proof.
  unfold dispatch, expects_response. pose proof (callTool_id c req w) as Hid.
  destruct (String.eqb_spec (rq_Method req) "initialize") as [->|_];
    [by destruct (rq_ID req =? "")%string|].
  destruct (String.eqb_spec (rq_Method req) "notifications/initialized") as [->|_];
    [by destruct (rq_ID req =? "")%string|].
  destruct (String.eqb_spec (rq_Method req) "notifications/cancelled") as [->|_];
    [by destruct (rq_ID req =? "")%string|].
  simpl. destruct (rq_ID req =? "")%string; simpl; repeat (case_match; simpl; try done); simplify_eq;
    simpl in *; congruence.
Qed.

(** A batch is answered message by message: the responses carry the ids of exactly
    the messages that expect one, in the order of the batch. *)
Theorem batch_answers_in_order c batch w :
  map rs_ID (snd (dispatch_batch r resolve c batch w)) =
  map rq_ID (List.filter expects_response batch).
Proof.
  revert w. induction batch as [|req batch IH]; intros w; [done|]. cbn [dispatch_batch List.filter].
  pose proof (dispatch_id c req w) as Hid.
  destruct (dispatch r resolve c req w) as [w1 resp]. specialize (IH w1).
  destruct (dispatch_batch r resolve c batch w1) as [w2 rs]. simpl in *.
  destruct (expects_response req), resp as [x|]; simpl in *; simplify_eq; congruence.
Qed.

(** ** What is listed is what can be called *)

(** For one caller, [tools/call] refuses exactly the names that [tools/list] leaves
    out: a listed name is invoked, any other changes nothing after the resolver. *)
Theorem listed_is_callable c w w1 p name arguments req :
  registry_ok r ->
  resolve c w = (w1, Ok p) ->
  decode_call (rq_Params req) = Some (name, arguments) ->
  (In name (map t_Name (listTools (AllowedSpecs r p))) ->
     exists spec, Get r name = Some spec /\
       fst (callTool r resolve c req w) =
       fst (OpInvoke spec (network_context p) (if (arguments =? "")%string then "{}" else arguments) w1)) /\
  (~ In name (map t_Name (listTools (AllowedSpecs r p))) ->
     (fst (callTool r resolve c req w) = w \/ fst (callTool r resolve c req w) = w1) /\
     (rs_Error (snd (callTool r resolve c req w)) <> None \/
      exists msg, rs_Result (snd (callTool r resolve c req w)) = Some (RTool (errorResult msg "")))).
Proof.
  intros Hok Hc Hd.
  assert (In name (map t_Name (listTools (AllowedSpecs r p))) <-> Authorize r p name = true) as ->.
  { rewrite <- allowed_iff_authorized by done. unfold listTools. rewrite map_map, in_map_iff. simpl.
    split; intros (s & Ha & Hb); by exists s. }
  unfold callTool. rewrite Hd. unfold Authorize at 1. split.
  - intros Ha. destruct (Get r name) as [spec|] eqn:Hg; [|done]. exists spec. split; [done|].
    rewrite Hc. unfold Authorize. rewrite Hg, Ha. simpl. by destruct (OpInvoke spec _ _ w1).
  - intros Ha. destruct (Get r name) as [spec|] eqn:Hg; [|by split; [left|left]].
    rewrite Hc. apply not_true_is_false in Ha. rewrite Ha. simpl. split; [by right|]. right. by eexists.
Qed.

(** ** One taxonomy *)

(** A failure with a kind keeps it through every adapter: the MCP result carries it as
    its error code, the in-process tool returns an error of that kind, and the command
    line's client, reading the body the server wrote under a failing status, rebuilds
    an error of that kind with that message, whose text is [kind: message]. *)
Theorem error_kind_survives `{ErrorBodyText} render p op e kind message :
  as_op_error (classifyError r e) = Some (kind, message) ->
  kind <> "" -> message <> "" -> valid_text kind = true -> valid_text message = true ->
  tr_Meta (tool_result r p (Err e)) = [("error_code", kind)] /\
  tr_IsError (tool_result r p (Err e)) = true /\
  KindOf (classifyError r e) = kind /\
  let '(status, body) := on_the_wire render (rest_failure r e) in
  status = statusForKind kind /\
  Client_result op status body = Err (EOp kind message).
Proof.
  intros He Hk Hm Hvk Hvm.
  assert (KindOf (classifyError r e) = kind) as Hkind by (unfold KindOf; by rewrite He).
  apply String.eqb_neq in Hk. apply String.eqb_neq in Hm.
  split_and!; [|done|done|].
  - unfold tool_result, errorResult. simpl. by rewrite Hkind, Hk.
  - unfold rest_failure. rewrite He. simpl. split; [done|]. unfold Client_result.
    rewrite decode_encode_body by done. simpl. rewrite Hk, Hm. simpl.
    replace (300 <=? statusForKind kind) with true; [done|].
    unfold statusForKind. by repeat case_match.
Qed.

End Network.

(** * Witnesses *)

(** A world that lists what ran, two operations on it, and text codecs that read the
    few texts used here. *)
Section Witnesses.

#[local] Instance plain_json : JsonText := {| raw_object := fun _ => None |}.

#[local] Instance plain_rpc : RpcText := {|
  Object := unit;
  decode_batch b :=
    if (b =? "[list,call]")%string then
      Some [{| rq_ID := "1"; rq_Method := "tools/list"; rq_Params := "" |};
            {| rq_ID := ""; rq_Method := "notifications/initialized"; rq_Params := "" |};
            {| rq_ID := "2"; rq_Method := "tools/call"; rq_Params := "save" |}]
    else None;
  decode_request := fun _ => None;
  decode_version := fun _ => None;
  decode_call s := if (s =? "")%string then None else Some (s, "");
  decode_object := fun _ => None |}.

#[local] Instance plain_body : ErrorBodyText.
Proof.
  refine {| valid_text s := negb (exists_byte (Ascii.eqb "|"%char) s);
            encode_body b := (eb_Error b ++ String "|" (eb_Code b))%string;
            decode_body s := match split_byte "|"%char s with
                             | [m; k] => Some {| eb_Error := m; eb_Code := k |}
                             | _ => None
                             end |}.
  intros [m k] Hm Hk. simpl in *. apply negb_true_iff in Hm, Hk.
  by rewrite split_byte_append, (split_byte_free _ k).
Defined.

Definition text_input : InputType string :=
  {| in_fields := None; in_zero := ""; in_decode s := Ok s |}.

Definition marking_op (name access : string) : Operation string string :=
  {| o_Name := name; o_Summary := ""; o_Scope := ""; o_Access := access;
     o_MinSessionRole := ""; o_Terminal := false;
     o_Handler := fun _ i w => (w ++ [name], Ok i) |}.

Definition two_ops : Registry (list string) :=
  SetErrorClassifier
    (foldl Register NewRegistry
       [spec_of None text_input (fun s => Ok s) (marking_op "look" AccessAnalyticsRead);
        spec_of None text_input (fun s => Ok s) (marking_op "save" AccessDashboardsWrite)])
    (fun e => if (error_text e =? "no rows")%string then EOp ErrNotFound "not found" else e).

Definition reader_key : Principal :=
  {| p_ProjectID := "p"; p_Kind := CredManagement; p_Role := ""; p_UserID := "";
     p_CredentialID := "c"; p_Grants := [AccessAnalyticsRead] |}.

Definition as_reader (c : unit) (w : list string) : list string * result error Principal :=
  (w, Ok reader_key).

Lemma two_ops_ok : registry_ok two_ops.
Proof. apply (registry_ok_log NewRegistry _ registry_ok_new). Qed.

(** A reader's key asks for the write, in a batch and over REST; nothing it sends runs
    the write. *)
Lemma effects_within_grants_witness :
  let I w := ~ In "save" w in
  I (serve two_ops as_reader
       [(tt, ToMCP (Some "[list,call]")); (tt, ToOp "save" (Some "{}")); (tt, ToOp "look" (Some "{}"))] []).
Proof.
  intros I. apply (effects_within_grants two_ops as_reader [AccessAnalyticsRead] I).
  - exact two_ops_ok.
  - intros c w p [= <-]. right. by split.
  - done.
  - intros name spec p args w Hg [Ha|[]].
    unfold Get, two_ops in Hg. cbn [specs SetErrorClassifier foldl Register NewRegistry] in Hg.
    apply lookup_insert_Some in Hg as [[_ <-]|[_ Hg]]; [discriminate Ha|].
    apply lookup_insert_Some in Hg as [[_ <-]|[_ Hg]]; [|by rewrite lookup_empty in Hg].
    intros Hw. unfold I. simpl. unfold op_invoke. simpl.
    destruct (decode_args text_input "look" args); simpl; [|done].
    intros [Hin|[Hin|[]]]%in_app_iff; [by apply Hw|done].
  - intros [].
Defined.

Lemma listed_is_callable_witness :
  fst (callTool two_ops as_reader tt
         {| rq_ID := "7"; rq_Method := "tools/call"; rq_Params := "save" |} []) = [] /\
  fst (callTool two_ops as_reader tt
         {| rq_ID := "8"; rq_Method := "tools/call"; rq_Params := "look" |} []) = ["look"].
Proof.
  split.
  - destruct (@listed_is_callable _ _ plain_rpc two_ops as_reader tt [] [] reader_key "save" ""
      {| rq_ID := "7"; rq_Method := "tools/call"; rq_Params := "save" |} two_ops_ok eq_refl eq_refl)
      as [_ Hrefused].
    destruct Hrefused as [[He|He] _]; [|exact He|exact He].
    intros Hin. vm_compute in Hin. destruct Hin as [Hin|[]]. discriminate Hin.
  - destruct (@listed_is_callable _ _ plain_rpc two_ops as_reader tt [] [] reader_key "look" ""
      {| rq_ID := "8"; rq_Method := "tools/call"; rq_Params := "look" |} two_ops_ok eq_refl eq_refl)
      as [Hlisted _].
    destruct Hlisted as (spec & Hg & He); [vm_compute; by left|].
    rewrite He. vm_compute in Hg. injection Hg as <-. by vm_compute.
Defined.

Lemma error_kind_survives_witness :
  let '(status, body) := on_the_wire (fun _ => (500, "")) (rest_failure two_ops (ENew "no rows")) in
  status = 404 /\ Client_result "get_board" status body = Err (EOp "not_found" "not found").
Proof.
  destruct (error_kind_survives two_ops (fun _ => (500, "")) reader_key "get_board" (ENew "no rows")
              "not_found" "not found") as (_ & _ & _ & Hclient);
    [by vm_compute|done|done|by vm_compute|by vm_compute|]. exact Hclient.
Defined.

(** The headers of a client's key. *)
Example client_header_ex :
  client_header "agm_1" = Some ("Authorization", "Bearer agm_1") /\
  client_header "agentray_1" = Some ("X-API-Key", "agentray_1").
Proof. by vm_compute. Qed.

End Witnesses.
