(* ===== verification/OpRegistry.v ===== *)
(** The registry of the program ([Registry] of
    [src/internal/dataplane/usecase/analytics.go]) and its error contract
    ([usecase/errors.go], [usecase/deps.go]).

    Each operation is declared with the facts authorization and the agent's policy
    read: name, scope, access class, session floor, whether it ends a run.  Its
    handler and the schema of its input are parameters here.  The theorems settle,
    for every principal, what the production registry admits. *)

From S2P Require Import Prelude GoStrings Operations OpAdapters.
From Stdlib Require Import String.
Open Scope string_scope.
Open Scope list_scope.
Open Scope Z_scope.

Record OpMeta := {
  m_Name : string;
  m_Scope : string;
  m_Access : string;
  m_MinSessionRole : string;
  m_Terminal : bool }.

Definition op (name scope access role : string) (terminal : bool) : OpMeta :=
  {| m_Name := name; m_Scope := scope; m_Access := access; m_MinSessionRole := role;
     m_Terminal := terminal |}.

(** ** The operations *)

Definition activitySummary_op : OpMeta :=
  op "activity_summary" "monitor" AccessAnalyticsRead "" false.

Definition recentEvents_op : OpMeta :=
  op "recent_events" "monitor" AccessAnalyticsRead "" false.

Definition persons_op : OpMeta :=
  op "persons" "data_quality" AccessAnalyticsRead "" false.

Definition exploreEvents_op : OpMeta :=
  op "explore_events" "data_quality" AccessAnalyticsRead "" false.

Definition runSQL_op : OpMeta :=
  op "run_sql" "data_quality" AccessAnalyticsRead "" false.

Definition activationCandidates_op : OpMeta :=
  op "activation_candidates" "monitor" AccessAnalyticsRead "" false.

Definition runInsight_op : OpMeta :=
  op "run_insight" "analyze_build" AccessAnalyticsRead "" false.

Definition runFunnel_op : OpMeta :=
  op "run_funnel" "analyze_build" AccessAnalyticsRead "" false.

Definition runRetention_op : OpMeta :=
  op "run_retention" "analyze_build" AccessAnalyticsRead "" false.

Definition listDashboards_op : OpMeta :=
  op "list_dashboards" "analyze_build" AccessAnalyticsRead "" false.

Definition createDashboard_op : OpMeta :=
  op "create_dashboard" "analyze_build" AccessDashboardsWrite "member" false.

Definition createChart_op : OpMeta :=
  op "create_chart" "analyze_build" AccessDashboardsWrite "member" false.

Definition submitRecommendation_op : OpMeta :=
  op "submit_recommendation" "growth_suggest" AccessPlansWrite "member" true.

Definition proposeTest_op : OpMeta :=
  op "propose_test" "growth_suggest" AccessPlansWrite "member" false.

Definition testStatus_op : OpMeta :=
  op "test_status" "growth_suggest" AccessAnalyticsRead "" false.

Definition listTests_op : OpMeta :=
  op "list_tests" "growth_suggest" AccessAnalyticsRead "" false.

Definition remember_op : OpMeta :=
  op "remember" "growth_suggest" AccessGrowthWrite "member" false.

Definition sendNotification_op : OpMeta :=
  op "send_notification" "growth_suggest" AccessGrowthWrite "member" false.

Definition overview_op : OpMeta :=
  op "overview" "monitor" AccessAnalyticsRead "" false.

Definition updateTest_op : OpMeta :=
  op "update_test" "growth_suggest" AccessPlansWrite "member" false.

Definition recordOutcome_op : OpMeta :=
  op "record_outcome" "growth_suggest" AccessPlansWrite "member" false.

Definition abandonTest_op : OpMeta :=
  op "abandon_test" "growth_suggest" AccessPlansWrite "member" false.

Definition listFindings_op : OpMeta :=
  op "list_findings" "monitor" AccessAnalyticsRead "" false.

Definition datasetPreview_op : OpMeta :=
  op "dataset_preview" "data_quality" AccessSourcesRead "admin" false.

Definition verifySDK_op : OpMeta :=
  op "verify_sdk" "monitor" AccessAnalyticsRead "" false.

Definition updateDashboard_op : OpMeta :=
  op "update_dashboard" "analyze_build" AccessDashboardsWrite "member" false.

Definition archiveDashboard_op : OpMeta :=
  op "archive_dashboard" "analyze_build" AccessDashboardsWrite "member" false.

Definition unarchiveDashboard_op : OpMeta :=
  op "unarchive_dashboard" "analyze_build" AccessDashboardsWrite "member" false.

Definition listCharts_op : OpMeta :=
  op "list_charts" "analyze_build" AccessAnalyticsRead "" false.

Definition updateChart_op : OpMeta :=
  op "update_chart" "analyze_build" AccessDashboardsWrite "member" false.

Definition archiveChart_op : OpMeta :=
  op "archive_chart" "analyze_build" AccessDashboardsWrite "member" false.

Definition unarchiveChart_op : OpMeta :=
  op "unarchive_chart" "analyze_build" AccessDashboardsWrite "member" false.

Definition reorderCharts_op : OpMeta :=
  op "reorder_charts" "analyze_build" AccessDashboardsWrite "member" false.

Definition listMetrics_op : OpMeta :=
  op "list_metrics" "analyze_build" AccessAnalyticsRead "" false.

Definition readMetric_op : OpMeta :=
  op "read_metric" "analyze_build" AccessAnalyticsRead "" false.

Definition getBoard_op : OpMeta :=
  op "get_board" "analyze_build" AccessAnalyticsRead "" false.

Definition saveBoard_op : OpMeta :=
  op "save_board" "analyze_build" AccessDashboardsWrite "member" false.

Definition setMetricTarget_op : OpMeta :=
  op "set_metric_target" "analyze_build" AccessDashboardsWrite "member" false.

Definition testSource_op : OpMeta :=
  op "test_source" "data_quality" AccessSourcesRead "admin" false.

Definition previewSource_op : OpMeta :=
  op "preview_source" "data_quality" AccessSourcesRead "admin" false.

Definition listSources_op : OpMeta :=
  op "list_sources" "monitor" AccessSourcesRead "" false.

Definition createSource_op : OpMeta :=
  op "create_source" "analyze_build" AccessSourcesManage "admin" false.

Definition updateSource_op : OpMeta :=
  op "update_source" "analyze_build" AccessSourcesManage "admin" false.

Definition archiveSource_op : OpMeta :=
  op "archive_source" "analyze_build" AccessSourcesManage "admin" false.

Definition unarchiveSource_op : OpMeta :=
  op "unarchive_source" "analyze_build" AccessSourcesManage "admin" false.

Definition pauseSource_op : OpMeta :=
  op "pause_source" "analyze_build" AccessSourcesManage "admin" false.

Definition runSource_op : OpMeta :=
  op "run_source" "analyze_build" AccessSourcesManage "admin" false.

Definition sourceStatus_op : OpMeta :=
  op "source_status" "monitor" AccessSourcesRead "" false.

Definition cancelSourceRun_op : OpMeta :=
  op "cancel_source_run" "analyze_build" AccessSourcesManage "admin" false.

Definition runFindingsScan_op : OpMeta :=
  op "run_findings_scan" "growth_suggest" AccessPlansWrite "member" false.

Definition watchFunnel_op : OpMeta :=
  op "watch_funnel" "growth_suggest" AccessPlansWrite "member" false.

Definition listFunnelWatches_op : OpMeta :=
  op "list_funnel_watches" "monitor" AccessAnalyticsRead "" false.

Definition addAnnotation_op : OpMeta :=
  op "add_annotation" "growth_suggest" AccessPlansWrite "member" false.

Definition listTriggers_op : OpMeta :=
  op "list_triggers" "monitor" AccessAnalyticsRead "" false.

Definition listAnnotations_op : OpMeta :=
  op "list_annotations" "monitor" AccessAnalyticsRead "" false.

Definition deleteAnnotation_op : OpMeta :=
  op "delete_annotation" "growth_suggest" AccessPlansWrite "member" false.

Definition runExperimentReview_op : OpMeta :=
  op "run_experiment_review" "growth_suggest" AccessPlansWrite "member" false.

(** ** Registration *)

(** In the order of the [Register] calls. *)
Definition production : list OpMeta :=
  [activitySummary_op; recentEvents_op; persons_op; exploreEvents_op; runSQL_op;
   activationCandidates_op; runInsight_op; runFunnel_op; runRetention_op; listDashboards_op;
   createDashboard_op; createChart_op; submitRecommendation_op; proposeTest_op; testStatus_op;
   listTests_op; remember_op; sendNotification_op; overview_op; updateTest_op; recordOutcome_op;
   abandonTest_op; listFindings_op; datasetPreview_op; verifySDK_op; updateDashboard_op;
   archiveDashboard_op; unarchiveDashboard_op; listCharts_op; updateChart_op; archiveChart_op;
   unarchiveChart_op; reorderCharts_op; listMetrics_op; readMetric_op; getBoard_op;
   saveBoard_op; setMetricTarget_op; testSource_op; previewSource_op; listSources_op;
   createSource_op; updateSource_op; archiveSource_op; unarchiveSource_op; pauseSource_op;
   runSource_op; sourceStatus_op; cancelSourceRun_op; runFindingsScan_op; watchFunnel_op;
   listFunnelWatches_op; addAnnotation_op; listTriggers_op; listAnnotations_op;
   deleteAnnotation_op; runExperimentReview_op].

Definition legacyOperationAllowlist : list string :=
  ["activity_summary"; "recent_events"; "persons"; "explore_events";
   "run_sql"; "run_insight"; "run_funnel"; "run_retention";
   "list_dashboards"; "create_dashboard"; "create_chart";
   "submit_recommendation"; "propose_test"; "test_status"; "list_tests";
   "remember"; "send_notification";
   "verify_sdk"].

(** ** The error contract *)

(** [errors.Is(err, sentinel)] for an error variable. *)
Fixpoint error_is (id : string) (e : error) : bool :=
  match e with
  | ESentinel i _ => (i =? id)%string
  | EWrap _ e' => error_is id e'
  | _ => false
  end.

(** [errors.As(err, &he)]. *)
Fixpoint as_http_error (e : error) : option error :=
  match e with
  | EHTTP _ _ _ => Some e
  | EWrap _ e' => as_http_error e'
  | _ => None
  end.

Definition NewHTTPError (code : Z) (message : string) : error := EHTTP code (Some message) message.

Definition IsEngineResourceError (e : error) : bool :=
  let msg := error_text e in
  contains msg "Out of Memory" || contains msg "failed to allocate"
  || contains msg "max_temp_directory_size".

Definition engine_limit_message : string :=
  "the analytics engine hit its resource limit — retry in a moment".

Definition classifyOpError (e : error) : error :=
  if error_is "pgx.ErrNoRows" e then EOp ErrNotFound "not found"
  else if error_is "storage.ErrRevisionConflict" e || error_is "storage.ErrIdempotencyConflict" e
       || error_is "storage.ErrSourceArchived" e || error_is "storage.ErrBoardArchived" e
       || error_is "storage.ErrSyncPaused" e
  then EOp ErrConflict (error_text e)
  else if error_is "connector.ErrEngineBusy" e || error_is "storage.ErrSandboxUnavailable" e
  then EOp ErrRetryable (error_text e)
  else if IsEngineResourceError e then EOp ErrRetryable engine_limit_message
  else e.

Definition MapOpError (e : error) : error :=
  match as_http_error e with
  | Some he => he
  | None =>
      let e := if (KindOf e =? "")%string then classifyOpError e else e in
      match as_op_error e with
      | Some (k, m) =>
          if (k =? ErrNotFound)%string then NewHTTPError 404 m
          else if (k =? ErrConflict)%string then NewHTTPError 409 m
          else if (k =? ErrRetryable)%string then NewHTTPError 503 m
          else NewHTTPError 400 (error_text e)
      | None => NewHTTPError 400 (error_text e)
      end
  end.

(** ** The registry *)

Section Production.
Context {W : Type}.

(** What the handlers do, by operation name, and what their inputs are. *)
Context (run : string -> CallContext -> string -> W -> W * result error string).
Context (summary : string -> string) (schema : string -> Schema).

Definition spec_from (m : OpMeta) : Spec W :=
  {| OpName := m_Name m; OpSummary := summary (m_Name m); OpScope := m_Scope m;
     OpAccess := m_Access m; OpMinSessionRole := m_MinSessionRole m; OpTerminal := m_Terminal m;
     OpSchema := schema (m_Name m); OpInvoke := run (m_Name m) |}.

(** The body of [Registry], over the declared operations. *)
Definition registry_of (ops : list OpMeta) : Registry W :=
  let r := foldl (fun r m => Register r (spec_from m)) NewRegistry ops in
  let r := SetLegacyAllowlist r legacyOperationAllowlist in
  let r := SetErrorClassifier r classifyOpError in
  SetErrorMapper r MapOpError.

Definition ProductionRegistry : Registry W := registry_of production.

End Production.

(** * Theorems *)

Definition meta (name : string) : option OpMeta :=
  List.find (fun m => (m_Name m =? name)%string) production.

(** Every registered name is unique, every operation carries an access class, and every
    frozen name is registered. *)
Lemma production_table :
  NoDup (map m_Name production) /\
  forallb (fun m => negb (m_Access m =? "")%string) production = true /\
  forallb (fun n => is_some (meta n)) legacyOperationAllowlist = true.
Proof. split_and!; [apply (bool_decide_unpack _); by vm_compute|by vm_compute|by vm_compute]. Qed.

Lemma meta_elem n m : meta n = Some m <-> In m production /\ m_Name m = n.
Proof.
  unfold meta. split.
  - intros Hf. by apply find_some in Hf as [Hin ->%String.eqb_eq].
  - intros [Hin <-]. destruct production_table as (Hnd & _).
    revert Hnd Hin. generalize production. intros l. induction l as [|x l IH]; intros Hnd Hin; [done|]. destruct Hin as [->|Hin].
    + simpl. by rewrite String.eqb_refl.
    + simpl in *. apply NoDup_cons in Hnd as [Hx Hnd].
      destruct (String.eqb_spec (m_Name x) (m_Name m)) as [Hxm|_]; [|by apply IH].
      destruct Hx. rewrite Hxm. by apply list_elem_of_In, in_map.
Qed.

Lemma meta_class n m : meta n = Some m -> m_Access m <> "".
Proof.
  intros [Hin _]%meta_elem. destruct production_table as (_ & Hacc & _).
  rewrite forallb_forall in Hacc. by apply Hacc, negb_true_iff, String.eqb_neq in Hin.
Qed.

Section ProductionLaws.
Context {W : Type}.
Context (run : string -> CallContext -> string -> W -> W * result error string).
Context (summary : string -> string) (schema : string -> Schema).
Abbreviation registry := (ProductionRegistry run summary schema).
Abbreviation spec := (spec_from run summary schema).

Lemma register_all_log l (r : Registry W) :
  foldl (fun r m => Register r (spec m)) r l = foldl Register r (map spec l).
Proof. revert r. induction l as [|m l IH]; intros r; [done|]. apply IH. Qed.

Lemma latest_metas l n :
  NoDup (map m_Name l) ->
  latest (map spec l) n = option_map spec (List.find (fun m => (m_Name m =? n)%string) l).
Proof.
  induction l as [|m l IH]; [done|]. cbn [map latest List.find]. intros [Hm Hnd]%NoDup_cons.
  rewrite IH by done. change (OpName (spec m)) with (m_Name m).
  destruct (String.eqb_spec (m_Name m) n) as [<-|_]; [|by destruct (List.find _ l)].
  destruct (List.find _ l) as [m'|] eqn:Hf; [|done].
  apply find_some in Hf as [Hin Heq%String.eqb_eq]. destruct Hm. rewrite <- Heq.
  by apply list_elem_of_In, in_map.
Qed.

Lemma registry_of_get l n :
  NoDup (map m_Name l) ->
  Get (registry_of run summary schema l) n =
  option_map spec (List.find (fun m => (m_Name m =? n)%string) l).
Proof.
  intros Hnd. unfold registry_of. rewrite register_all_log.
  destruct (log_state (map spec l) _ eq_refl) as [Hget _]. unfold Get in *.
  cbn [specs SetErrorMapper SetErrorClassifier SetLegacyAllowlist]. rewrite Hget. by apply latest_metas.
Qed.

Lemma registry_of_ok l : registry_ok (registry_of run summary schema l).
Proof.
  unfold registry_of. rewrite register_all_log. apply (registry_ok_log NewRegistry _ registry_ok_new).
Qed.

Lemma production_get n : Get registry n = option_map spec (meta n).
Proof. apply registry_of_get, production_table. Qed.

Lemma production_ok : registry_ok registry.
Proof. apply registry_of_ok. Qed.

(** [Authorize] on the production registry, over the declared facts. *)
Lemma production_authorize p n :
  Authorize registry p n =
  match meta n with
  | None => false
  | Some m =>
      if (p_Kind p =? CredLegacy)%string then existsb (String.eqb n) legacyOperationAllowlist
      else if (p_Kind p =? CredManagement)%string then existsb (String.eqb (m_Access m)) (p_Grants p)
      else if (p_Kind p =? CredSession)%string then
        existsb (String.eqb (m_Access m)) (p_Grants p)
        && sessionRoleAtLeast (p_Role p) (m_MinSessionRole m)
      else false
  end.
Proof.
  unfold Authorize. rewrite production_get. destruct (meta n) as [m|] eqn:Hm; [|done].
  simpl. apply meta_class, String.eqb_neq in Hm. rewrite Hm.
  destruct (String.eqb_spec (p_Kind p) CredLegacy) as [Hk|Hk]; [done|]. unfold Allow.
  cbn [rq_Access rq_MinSessionRole]. rewrite Hm. apply String.eqb_neq in Hk. rewrite Hk.
  by destruct (String.eqb_spec (p_Kind p) CredCapture) as [->|].
Qed.

(** A pre-split project key may invoke the operations of the frozen list, all of them
    registered, and no other. *)
Theorem legacy_key_power p n :
  p_Kind p = CredLegacy ->
  (Authorize registry p n = true <-> In n legacyOperationAllowlist).
Proof.
  intros Hk. rewrite production_authorize, Hk, String.eqb_refl.
  destruct production_table as (_ & _ & Hall). rewrite forallb_forall in Hall.
  assert (existsb (String.eqb n) legacyOperationAllowlist = true <-> In n legacyOperationAllowlist) as <-.
  { rewrite existsb_exists. split; [by intros (m & Hm & ->%String.eqb_eq)|].
    intros Hn. exists n. split; [done|apply String.eqb_refl]. }
  split; [by destruct (meta n)|]. intros Hn.
  apply existsb_exists in Hn as (m & Hm & ->%String.eqb_eq). specialize (Hall _ Hm).
  destruct (meta m); [|done]. apply existsb_exists. exists m. split; [done|apply String.eqb_refl].
Qed.

(** The class decision is wider than the decision by name: for a pre-split key a route
    that states the class of [update_test], at that operation's own session floor, is
    admitted, and the operation itself is refused. *)
Theorem legacy_class_outruns_names p :
  p_Kind p = CredLegacy ->
  Get registry "update_test" = Some (spec updateTest_op) /\
  Allow registry p {| rq_Access := m_Access updateTest_op;
                      rq_MinSessionRole := m_MinSessionRole updateTest_op |} = true /\
  Authorize registry p "update_test" = false.
Proof.
  intros Hk. split_and!.
  - by rewrite production_get.
  - unfold Allow. rewrite Hk. cbn [rq_Access].
    change (legacyAllowsClass registry AccessPlansWrite = true).
    apply existsb_exists. exists "propose_test". split; [vm_compute; tauto|].
    by rewrite production_get.
  - by rewrite production_authorize, Hk.
Qed.

(** ** One status *)

Definition http_status (h : http_reply) : option Z :=
  match h with
  | HError (EHTTP code _ _) => Some code
  | HError _ => None
  | HJSON status _ => Some status
  | HBlob _ => Some 200
  end.

(** A failing call has one HTTP status: the one the operation endpoint answers with is
    the one [MapOpError] gives the older routes, for every error of the handler whose
    chain holds no HTTP error. *)
Theorem adapters_answer_one_status e :
  as_http_error e = None ->
  http_status (rest_failure registry e) = http_status (HError (MapOpError e)).
Proof.
  intros Hh. unfold rest_failure, MapOpError. rewrite Hh.
  unfold classifyError, MapError. cbn [classifier errMapper ProductionRegistry SetErrorMapper].
  change (classifier registry) with (Some classifyOpError).
  cbn iota beta. set (e' := if (KindOf e =? "")%string then classifyOpError e else e).
  assert ((if negb (KindOf e =? "")%string then e else classifyOpError e) = e') as ->
    by (unfold e'; by destruct (KindOf e =? "")%string).
  destruct (as_op_error e') as [[k m]|] eqn:He.
  - cbn [http_status]. unfold statusForKind.
    destruct (k =? ErrNotFound)%string; [done|]. destruct (k =? ErrConflict)%string; [done|].
    by destruct (k =? ErrRetryable)%string.
  - assert (e' = classifyOpError e) as ->.
    { unfold e', KindOf in *. destruct (as_op_error e) as [[k m]|] eqn:Hk; [|done].
      destruct (k =? "")%string; [done|congruence]. }
    assert (classifyOpError e = e) as Hc.
    { revert He. unfold classifyOpError. by repeat (case_match; try done). }
    rewrite Hc in *. change (errMapper registry) with (Some MapOpError). cbn iota beta.
    unfold MapOpError. rewrite Hh.
    assert ((if (KindOf e =? "")%string then classifyOpError e else e) = e) as ->
      by by destruct (KindOf e =? "")%string.
    by rewrite He.
Qed.

End ProductionLaws.

(** ** Witnesses *)

Definition idle_run (name : string) (cc : CallContext) (args : string) (w : list string)
  : list string * result error string := (w ++ [name], Ok "{}").

Definition no_schema (name : string) : Schema := schemaOf None.

Definition the_registry : Registry (list string) :=
  ProductionRegistry idle_run (fun _ => "") no_schema.

Definition legacy_key : Principal :=
  {| p_ProjectID := "p"; p_Kind := CredLegacy; p_Role := ""; p_UserID := ""; p_CredentialID := "";
     p_Grants := [] |}.

Lemma legacy_key_power_witness :
  Authorize the_registry legacy_key "verify_sdk" = true /\
  Authorize the_registry legacy_key "update_test" <> true.
Proof.
  split.
  - apply (legacy_key_power idle_run (fun _ => "") no_schema legacy_key "verify_sdk" eq_refl).
    vm_compute. tauto.
  - intros Ha. apply (legacy_key_power idle_run (fun _ => "") no_schema legacy_key "update_test" eq_refl) in Ha.
    vm_compute in Ha. repeat (destruct Ha as [Ha|Ha]; [discriminate Ha|]). exact Ha.
Defined.

Lemma legacy_class_outruns_names_witness :
  Allow the_registry legacy_key {| rq_Access := AccessPlansWrite; rq_MinSessionRole := "member" |} = true /\
  Authorize the_registry legacy_key "update_test" = false.
Proof.
  destruct (legacy_class_outruns_names idle_run (fun _ => "") no_schema legacy_key eq_refl)
    as (_ & Hallow & Hauth).
  split; [exact Hallow|exact Hauth].
Defined.

Lemma adapters_answer_one_status_witness :
  http_status (rest_failure the_registry
    (EWrap "update" (ESentinel "storage.ErrRevisionConflict" "revision conflict: resource changed")))
  = Some 409.
Proof.
  eapply eq_trans; [apply (adapters_answer_one_status idle_run (fun _ => "") no_schema); reflexivity|].
  by vm_compute.
Defined.

(** A later registration under a name outside the frozen list gives a project key
    nothing. *)
Lemma legacy_freeze_witness :
  let later := spec_from idle_run (fun _ => "") no_schema
                 (op "export_everything" "monitor" AccessAnalyticsRead "" false) in
  Authorize (Register the_registry later) legacy_key "export_everything" = false.
Proof.
  intros later. eapply eq_trans.
  - apply (legacy_freeze the_registry legacy_key later eq_refl).
    vm_compute. intros Hin. repeat (destruct Hin as [Hin|Hin]; [discriminate Hin|]). exact Hin.
  - by vm_compute.
Defined.
