(* ===== verification/AgentPolicy.v ===== *)
(** The tools an agent run may call ([src/internal/runtime/policy.go],
    [runtime/runtime.go], [runtime/evidence_guard.go]).

    The capability scopes of an agent grant names of operations; a run's allow-list
    is the union of its scopes, narrowed to the reads when the run is read-only, plus
    the names of the tools its plugins contribute.  The evidence guard decides when a
    final answer is sent back once.

    The theorems relate the lists to the registry: every granted name is registered,
    every operation is granted by the scope it declares, and the read tools are the
    operations of the two read classes, so a read-only run holds no operation that
    the registry audits as a mutation. *)

From S2P Require Import Prelude GoStrings Operations OpAdapters OpRegistry.
From Stdlib Require Import String.
Open Scope string_scope.
Open Scope list_scope.
Open Scope Z_scope.

Record Scopes := {
  Monitor : bool;
  DataQuality : bool;
  AnalyzeBuild : bool;
  GrowthSuggest : bool }.

Definition scopeTools (scope : string) : list string :=
  if (scope =? "monitor")%string then
    ["activity_summary"; "recent_events"; "verify_sdk"; "source_status"; "overview";
     "activation_candidates"; "list_findings"; "list_sources"; "list_funnel_watches";
     "list_annotations"; "list_triggers"]
  else if (scope =? "data_quality")%string then
    ["explore_events"; "persons"; "run_sql"; "test_source"; "preview_source"; "source_status";
     "dataset_preview"; "list_sources"]
  else if (scope =? "analyze_build")%string then
    ["run_sql"; "run_insight"; "run_funnel"; "run_retention"; "list_dashboards";
     "create_dashboard"; "create_chart"; "update_dashboard"; "archive_dashboard";
     "unarchive_dashboard"; "list_charts"; "update_chart"; "archive_chart"; "unarchive_chart";
     "reorder_charts"; "list_metrics"; "read_metric"; "get_board"; "save_board";
     "set_metric_target"; "pause_source"; "run_source"; "cancel_source_run"; "list_sources";
     "create_source"; "update_source"; "archive_source"; "unarchive_source"]
  else if (scope =? "growth_suggest")%string then
    ["activity_summary"; "persons"; "submit_recommendation"; "propose_test"; "test_status";
     "list_tests"; "update_test"; "record_outcome"; "abandon_test"; "remember";
     "send_notification"; "run_findings_scan"; "watch_funnel"; "add_annotation";
     "delete_annotation"; "run_experiment_review"]
  else [].

(** The names the map [readTools] holds. *)
Definition readTools : list string :=
  ["activity_summary"; "recent_events"; "overview"; "activation_candidates"; "explore_events";
   "persons"; "run_sql"; "run_insight"; "run_funnel"; "run_retention"; "list_dashboards";
   "test_status"; "list_tests"; "list_findings"; "dataset_preview"; "verify_sdk";
   "list_funnel_watches"; "test_source"; "preview_source"; "source_status"; "list_charts";
   "list_sources"; "list_metrics"; "read_metric"; "get_board"; "list_annotations";
   "list_triggers"].

Definition is_read_tool (name : string) : bool := existsb (String.eqb name) readTools.

Definition ScopesFromMap (m : gmap string bool) : Scopes :=
  let get k := default false (m !! k) in
  {| Monitor := get "monitor"; DataQuality := get "data_quality";
     AnalyzeBuild := get "analyze_build"; GrowthSuggest := get "growth_suggest" |}.

(** The source collects the names in a map and lists its keys in no fixed order; the
    model keeps the set. *)
Definition ScopeToolNames (s : Scopes) : gset string :=
  let add (on : bool) (scope : string) : gset string :=
    if on then list_to_set (scopeTools scope) else ∅ in
  add (Monitor s) "monitor" ∪ add (DataQuality s) "data_quality"
  ∪ add (AnalyzeBuild s) "analyze_build" ∪ add (GrowthSuggest s) "growth_suggest".

Definition ReadOnlyToolNames (names : gset string) : gset string :=
  filter (fun n => is_read_tool n = true) names.

(** ** The allow-list of a run *)

(** The names the plugins of the agent library give their tools. *)
Class PluginNames := {
  ToolMemoryRecall : string;
  ToolMemoryEdit : string;
  ToolLearn : string;
  ToolTodo : string;
  ToolGoal : string;
  ToolSpawnSubagent : string;
  ToolWebFetch : string }.

(** What [permittedToolNames] reads of the build parameters. *)
Record BuildParams := {
  bp_Scopes : Scopes;
  bp_ReadOnly : bool;
  bp_Memory : bool;
  bp_Todo : bool;
  bp_Subagents : bool;
  bp_HTTPTool : option string;
  bp_Tools : list string;
  bp_ReviseGoal : bool;
  bp_Goal : string }.

Definition revisableGoal (p : BuildParams) : bool := bp_ReviseGoal p && negb (bp_Goal p =? "")%string.

Section Runs.
Context `{PluginNames}.

Definition named (on : bool) (names : list string) : gset string :=
  if on then list_to_set names else ∅.

Definition permittedToolNames (p : BuildParams) : gset string :=
  let names := ScopeToolNames (bp_Scopes p) in
  let names := if bp_ReadOnly p then ReadOnlyToolNames names else names in
  let names := names ∪ named (bp_Memory p) [ToolMemoryRecall] in
  if bp_ReadOnly p then
    names ∪ named (bp_Todo p) [ToolTodo] ∪ named (revisableGoal p) [ToolGoal]
  else
    names
    ∪ match bp_HTTPTool p with Some n => {[n]} | None => ∅ end
    ∪ list_to_set (bp_Tools p)
    ∪ named (bp_Todo p) [ToolTodo]
    ∪ named (bp_Subagents p) [ToolSpawnSubagent]
    ∪ named (revisableGoal p) [ToolGoal]
    ∪ named (bp_Memory p && GrowthSuggest (bp_Scopes p)) [ToolMemoryEdit; ToolLearn].

(** ** The evidence guard *)

Definition evidenceToolSet : gset string :=
  {[ToolSpawnSubagent; ToolWebFetch]} ∪ list_to_set readTools.

Record ToolTrace := { tt_Tool : string; tt_Allowed : bool; tt_Error : string }.

Record FinishState := { fs_Nudges : Z; fs_Tools : list ToolTrace; fs_Final : string }.

(** The text scan is by regular expressions; [containsFigures] stays a parameter. *)
Context (containsFigures : string -> bool) (evidenceNudge : string).

(** [None] is the nil guard. *)
Definition evidenceFinishGuard (s : Scopes) (runTools : list string)
  : option (FinishState -> string) :=
  if existsb (fun n => bool_decide (n ∈ evidenceToolSet))
       (elements (ScopeToolNames s) ++ runTools)
  then
    Some (fun st =>
      if 0 <? fs_Nudges st then ""
      else if existsb (fun tr => tt_Allowed tr && (tt_Error tr =? "")%string
                                 && bool_decide (tt_Tool tr ∈ evidenceToolSet)) (fs_Tools st)
      then ""
      else if negb (containsFigures (fs_Final st)) then ""
      else evidenceNudge)
  else None.

End Runs.

(** * Theorems *)

Definition all_scopes : list string := ["monitor"; "data_quality"; "analyze_build"; "growth_suggest"].

(** The lists line up with the registry, checked on the tables: every operation is on
    the list of the scope it declares or, when it declares none of the four, on none;
    every listed name is registered; and a name is a read tool exactly when its
    operation is in a read class. *)
Lemma tables_line_up :
  forallb (fun m => existsb (String.eqb (m_Name m)) (scopeTools (m_Scope m))) production = true /\
  forallb (fun sc => forallb (fun n => is_some (meta n)) (scopeTools sc)) all_scopes = true /\
  forallb (fun m => Bool.eqb (is_read_tool (m_Name m)) (negb (mutatingAccess (m_Access m)))) production = true /\
  forallb (fun n => is_some (meta n)) readTools = true.
Proof. split_and!; by vm_compute. Qed.

Definition scope_on (s : Scopes) (scope : string) : bool :=
  if (scope =? "monitor")%string then Monitor s
  else if (scope =? "data_quality")%string then DataQuality s
  else if (scope =? "analyze_build")%string then AnalyzeBuild s
  else if (scope =? "growth_suggest")%string then GrowthSuggest s
  else false.

(** The granted names are those of the lists of the scopes that are on. *)
Lemma elem_of_ScopeToolNames s n :
  n ∈ ScopeToolNames s <-> exists scope, scope_on s scope = true /\ In n (scopeTools scope).
Proof.
  assert (forall (on : bool) scope, n ∈ (if on then list_to_set (scopeTools scope) else ∅ : gset string)
            <-> on = true /\ In n (scopeTools scope)) as Hadd.
  { intros [] scope; [rewrite elem_of_list_to_set, list_elem_of_In; tauto|].
    split; [intros Hn; by apply elem_of_empty in Hn|by intros [Hf _]]. }
  unfold ScopeToolNames. rewrite !elem_of_union, !Hadd. split.
  - intros [[[Hn|Hn]|Hn]|Hn]; [exists "monitor"|exists "data_quality"|exists "analyze_build"|exists "growth_suggest"]; exact Hn.
  - intros (scope & Hon & Hn). unfold scope_on in Hon.
    destruct (String.eqb_spec scope "monitor"); [subst scope; tauto|].
    destruct (String.eqb_spec scope "data_quality"); [subst scope; tauto|].
    destruct (String.eqb_spec scope "analyze_build"); [subst scope; tauto|].
    destruct (String.eqb_spec scope "growth_suggest"); [subst scope; tauto|done].
Qed.

Lemma elem_of_ReadOnly names n : n ∈ ReadOnlyToolNames names <-> n ∈ names /\ is_read_tool n = true.
Proof. unfold ReadOnlyToolNames. rewrite elem_of_filter. tauto. Qed.

(** Declared scope, registry and read tools, for one operation. *)
Lemma operation_lines_up n m :
  meta n = Some m ->
  In n (scopeTools (m_Scope m)) /\ is_read_tool n = negb (mutatingAccess (m_Access m)).
Proof.
  intros [Hin <-]%meta_elem. destruct tables_line_up as (Hscope & _ & Hread & _).
  rewrite forallb_forall in Hscope, Hread. split.
  - apply Hscope in Hin. by apply existsb_exists in Hin as (n & Hn & ->%String.eqb_eq).
  - by apply Hread, eqb_prop in Hin.
Qed.

Section RunLaws.
Context `{PluginNames}.

(** The names a run may get from elsewhere than its scopes. *)
Definition plugin_names (p : BuildParams) : gset string :=
  {[ToolMemoryRecall; ToolMemoryEdit; ToolLearn; ToolTodo; ToolGoal; ToolSpawnSubagent]}
  ∪ match bp_HTTPTool p with Some n => {[n]} | None => ∅ end ∪ list_to_set (bp_Tools p).

Lemma named_subset on names n : n ∈ named on names -> In n names.
Proof. destruct on; simpl; [by rewrite elem_of_list_to_set, list_elem_of_In|set_solver]. Qed.

Lemma permitted_from_scopes p n :
  n ∉ plugin_names p ->
  (n ∈ permittedToolNames p <->
   n ∈ (if bp_ReadOnly p then ReadOnlyToolNames (ScopeToolNames (bp_Scopes p))
        else ScopeToolNames (bp_Scopes p))).
Proof.
  unfold plugin_names. intros Hnot.
  assert (forall on names, (forall x, In x names -> x ∈ plugin_names p) -> n ∉ named on names) as Hnamed.
  { intros on names Hin Hn. apply named_subset in Hn. by apply Hnot, Hin. }
  unfold permittedToolNames. destruct (bp_ReadOnly p); rewrite !elem_of_union.
  - split; [|tauto]. intros [[[Hn|Hn]|Hn]|Hn]; [done|exfalso..]; revert Hn; apply Hnamed;
      intros x [<-|[]]; unfold plugin_names; set_solver.
  - split; [|tauto]. rewrite !elem_of_union in Hnot.
    intros [[[[[[[Hn|Hn]|Hn]|Hn]|Hn]|Hn]|Hn]|Hn]; [done|exfalso..]; try tauto; revert Hn; apply Hnamed;
      unfold plugin_names; intros x Hx; simpl in Hx;
      repeat (destruct Hx as [<-|Hx]; [set_solver|]); destruct Hx.
Qed.

(** A run may call a registered operation exactly when a scope that is on lists it and,
    in a read-only run, the operation is in a read class: what a read-only run may call
    is never a call the registry would record as a mutation.  An operation is within
    reach of the scope it declares. *)
Theorem run_capabilities p n m :
  meta n = Some m -> n ∉ plugin_names p ->
  (n ∈ permittedToolNames p <->
   (exists scope, scope_on (bp_Scopes p) scope = true /\ In n (scopeTools scope)) /\
   (bp_ReadOnly p = true -> mutatingAccess (m_Access m) = false)) /\
  In n (scopeTools (m_Scope m)).
Proof.
  intros Hm Hnot. destruct (operation_lines_up n m Hm) as [Hscope Hread]. split; [|done].
  rewrite permitted_from_scopes, <- elem_of_ScopeToolNames by done.
  destruct (bp_ReadOnly p); [|split; [intros Hn; by split|tauto]]. rewrite elem_of_ReadOnly, Hread, negb_true_iff. tauto.
Qed.

End RunLaws.

(** Monitoring and data-quality agents only read: with the two authoring scopes off, no
    operation of a mutating class is granted. *)
Lemma monitor_scopes_read s n m :
  AnalyzeBuild s = false -> GrowthSuggest s = false ->
  meta n = Some m -> n ∈ ScopeToolNames s -> mutatingAccess (m_Access m) = false.
Proof.
  intros Ha Hg Hm (scope & Hon & Hin)%elem_of_ScopeToolNames.
  destruct (operation_lines_up n m Hm) as [_ Hread].
  assert (is_read_tool n = true) as Hr; [|by rewrite Hr in Hread; apply negb_true_iff].
  unfold scope_on in Hon. rewrite Ha, Hg in Hon.
  assert (forallb is_read_tool (scopeTools "monitor") = true) as Hmon by by vm_compute.
  assert (forallb is_read_tool (scopeTools "data_quality") = true) as Hdq by by vm_compute.
  rewrite forallb_forall in Hmon, Hdq.
  destruct (String.eqb_spec scope "monitor"); [subst scope; by apply Hmon|].
  destruct (String.eqb_spec scope "data_quality"); [subst scope; by apply Hdq|].
  by repeat case_match.
Qed.

(** ** Witness *)

#[local] Instance plugin_tools : PluginNames := {|
  ToolMemoryRecall := "memory_recall"; ToolMemoryEdit := "memory_edit"; ToolLearn := "learn";
  ToolTodo := "todo"; ToolGoal := "update_goal"; ToolSpawnSubagent := "spawn_subagent";
  ToolWebFetch := "web_fetch" |}.

(** A demo visitor's question: every scope on, read-only, with memory and a plan. *)
Definition demo_run : BuildParams :=
  {| bp_Scopes := {| Monitor := true; DataQuality := true; AnalyzeBuild := true; GrowthSuggest := true |};
     bp_ReadOnly := true; bp_Memory := true; bp_Todo := true; bp_Subagents := true;
     bp_HTTPTool := Some "http"; bp_Tools := ["run_shell"]; bp_ReviseGoal := false; bp_Goal := "" |}.

Lemma run_capabilities_witness :
  "list_dashboards" ∈ permittedToolNames demo_run /\ "create_chart" ∉ permittedToolNames demo_run.
Proof.
  split.
  - destruct (run_capabilities demo_run "list_dashboards" listDashboards_op) as [[_ Hin] _];
      [reflexivity|apply (bool_decide_unpack _); by vm_compute|].
    apply Hin. split; [|reflexivity]. exists "analyze_build". split; [reflexivity|vm_compute; tauto].
  - destruct (run_capabilities demo_run "create_chart" createChart_op) as [[Hout _] _];
      [reflexivity|apply (bool_decide_unpack _); by vm_compute|].
    intros Hin. destruct (Hout Hin) as [_ Hro]. specialize (Hro eq_refl). discriminate Hro.
Defined.
