(* ===== verification/Principals.v ===== *)
(** Who is calling ([src/internal/app/principal.go], [app/op_adapter.go],
    [app/agent_routes.go]).

    A request presents a management credential, a project key or a session cookie;
    [principalFromRequest] picks one in that order.  What the store answers is the
    interface [AuthStore], with the facts its queries guarantee in [AuthStoreLaws];
    [Accounts] implements it over tables.  The grants of a session come from the
    membership ([sessionGrants]), those of a credential from its scopes
    ([managementGrants]). *)

From S2P Require Import Prelude GoStrings Operations OpAdapters OpRegistry.
From Stdlib Require Import String.
Open Scope string_scope.
Open Scope list_scope.
Open Scope Z_scope.
Open Scope go_scope.

(** ** The store the resolvers read *)

Record Project := {
  pj_ID : string;
  pj_WorkspaceID : string;
  pj_APIKey : string;
  pj_Role : string;
  pj_IsDemo : bool }.

Record ResolvedCredential := {
  rc_CredentialID : string;
  rc_ProjectID : string;
  rc_Scopes : list string }.

(** [UserBySessionToken] is the id of the session's user. *)
Class AuthStore := {
  CredentialBySecret : string -> result error ResolvedCredential;
  ProjectByAPIKey : string -> result error Project;
  ProjectByID : string -> result error Project;
  ProjectCredentialSplit : string -> result error bool;
  UserBySessionToken : string -> result error string;
  ProjectByIDForUser : string -> string -> result error Project;
  DefaultProjectForUser : string -> result error Project;
  WorkspaceRoleForUser : string -> string -> result error string;
  DemoWorkspaceID : string;
  DemoProjectID : string }.

Definition isDemoWorkspace `{AuthStore} (workspaceID : string) : bool :=
  negb (workspaceID =? "")%string && (workspaceID =? DemoWorkspaceID)%string.

(** What the queries guarantee: a secret without the key prefix resolves to nothing, a
    credential's project exists (its row is deleted with the project), a project read
    for a member carries the demo mark of its workspace, and a project has one id. *)
Class AuthStoreLaws `{AuthStore} := {
  empty_secret : is_ok (CredentialBySecret "") = false;
  credential_has_project s c :
    CredentialBySecret s = Ok c -> exists p, ProjectByID (rc_ProjectID c) = Ok p;
  project_by_id_id i p : ProjectByID i = Ok p -> pj_ID p = i;
  for_user_id u i p : ProjectByIDForUser u i = Ok p -> pj_ID p = i;
  for_user_demo u i p :
    ProjectByIDForUser u i = Ok p -> pj_IsDemo p = isDemoWorkspace (pj_WorkspaceID p);
  default_demo u p :
    DefaultProjectForUser u = Ok p -> pj_IsDemo p = isDemoWorkspace (pj_WorkspaceID p) }.

(** ** Requests *)

(** What the resolvers read of a request: the matched route, the headers, the query and
    path parameters, the session cookie. *)
Record HttpReq := {
  hr_Method : string;
  hr_Path : string;
  hr_Authorization : string;
  hr_XAPIKey : string;
  hr_Cookie : option string;
  hr_query_api_key : string;
  hr_query_token : string;
  hr_query_project_id : string;
  hr_param_project_id : string;
  hr_param_workspace_id : string }.

Fixpoint firstNonEmpty (values : list string) : string :=
  match values with
  | [] => ""
  | v :: vs => if negb (v =? "")%string then v else firstNonEmpty vs
  end.

(** [None] when no Bearer header was sent. *)
Definition bearerToken (q : HttpReq) : option string :=
  let h := hr_Authorization q in
  if negb (has_prefix h "Bearer ") then None
  else
    let tok := trim_space (trim_prefix h "Bearer ") in
    if negb (has_prefix tok "agm_") then Some "" else Some tok.

Definition api_key_of (q : HttpReq) : string :=
  firstNonEmpty [hr_query_api_key q; hr_query_token q; hr_XAPIKey q].

(** ** Grants *)

Definition known_scope (s : string) : bool :=
  existsb (String.eqb s)
    [AccessAnalyticsRead; AccessDashboardsWrite; AccessSourcesRead; AccessGrowthWrite; AccessPlansWrite].

(** The source lists the keys of a set, in no fixed order. *)
Definition managementGrants (scopes : list string) : list string :=
  elements (list_to_set (flat_map (fun s =>
    if (s =? AccessSourcesManage)%string then [AccessSourcesManage; AccessSourcesRead]
    else if known_scope s then [s] else []) scopes) : gset string).

Definition sessionGrants (project : Project) : list string :=
  let role := pj_Role project in
  if pj_IsDemo project && negb (role =? "owner")%string && negb (role =? "admin")%string then
    [AccessAnalyticsRead; AccessSourcesRead]
  else if (role =? "owner")%string || (role =? "admin")%string then
    [AccessAnalyticsRead; AccessDashboardsWrite; AccessSourcesRead; AccessSourcesManage;
     AccessGrowthWrite; AccessPlansWrite]
  else if (role =? "member")%string then
    [AccessAnalyticsRead; AccessDashboardsWrite; AccessSourcesRead; AccessGrowthWrite;
     AccessPlansWrite]
  else [].

Definition session_principal (userID : string) (project : Project) : Principal :=
  {| p_ProjectID := pj_ID project; p_Kind := CredSession; p_Role := pj_Role project;
     p_UserID := userID; p_CredentialID := ""; p_Grants := sessionGrants project |}.

Definition key_principal (project : Project) (split : bool) : Principal :=
  {| p_ProjectID := pj_ID project; p_Kind := if split then CredCapture else CredLegacy;
     p_Role := ""; p_UserID := ""; p_CredentialID := ""; p_Grants := [] |}.

Definition credential_principal (cred : ResolvedCredential) : Principal :=
  {| p_ProjectID := rc_ProjectID cred; p_Kind := CredManagement; p_Role := ""; p_UserID := "";
     p_CredentialID := rc_CredentialID cred; p_Grants := managementGrants (rc_Scopes cred) |}.

(** ** The resolvers *)

Section Resolvers.
Context `{AuthStore}.

Definition authFromRequest (q : HttpReq) : result error string :=
  match hr_Cookie q with
  | None => Err (NewHTTPError 401 "login required")
  | Some v =>
      if (v =? "")%string then Err (NewHTTPError 401 "login required")
      else match UserBySessionToken v with
           | Err _ => Err (NewHTTPError 401 "login required")
           | Ok user => Ok user
           end
  end.

Definition sessionProjectID (q : HttpReq) : string :=
  firstNonEmpty [hr_query_project_id q; hr_param_project_id q].

(** The project of the session branch: the named one, or the caller's default. *)
Definition session_project (q : HttpReq) (user : string) : result error Project :=
  let projectID := sessionProjectID q in
  if negb (projectID =? "")%string then
    match ProjectByIDForUser user projectID with
    | Err _ => Err (NewHTTPError 403 "project not available")
    | Ok p => Ok p
    end
  else
    match DefaultProjectForUser user with
    | Err _ => Err (NewHTTPError 404 "project not found")
    | Ok p => Ok p
    end.

Definition principalFromRequest (q : HttpReq) : result error Principal :=
  match bearerToken q with
  | Some tok =>
      match CredentialBySecret tok with
      | Err _ => Err (NewHTTPError 401 "invalid credential")
      | Ok cred => Ok (credential_principal cred)
      end
  | None =>
      if negb (api_key_of q =? "")%string then
        match ProjectByAPIKey (api_key_of q) with
        | Err _ => Err (NewHTTPError 401 "invalid api key")
        | Ok project =>
            match ProjectCredentialSplit (pj_ID project) with
            | Err e => Err e
            | Ok split => Ok (key_principal project split)
            end
        end
      else
        try user := authFromRequest q in
        try project := session_project q user in
        Ok (session_principal user project)
  end.

(** ** The capture key in a project row *)

Definition legacyWrite (access : string) : Requirement :=
  {| rq_Access := access; rq_MinSessionRole := "member" |}.

Definition legacyRead (access : string) : Requirement :=
  {| rq_Access := access; rq_MinSessionRole := "" |}.

(** The empty registry: [Allow] reads none for a session. *)
Definition sessionWriteFloor : Registry unit := NewRegistry.

Definition sessionAllowsWrite (project : Project) : bool :=
  Allow sessionWriteFloor (session_principal "" project) (legacyWrite AccessDashboardsWrite).

Definition projectForPrincipal (project : Project) (principal : Principal) : Project :=
  if negb (p_Kind principal =? CredSession)%string
     || negb (Allow sessionWriteFloor principal (legacyWrite AccessDashboardsWrite))
  then {| pj_ID := pj_ID project; pj_WorkspaceID := pj_WorkspaceID project; pj_APIKey := "";
          pj_Role := pj_Role project; pj_IsDemo := pj_IsDemo project |}
  else project.

Definition principalAndProject (q : HttpReq) : result error (Principal * Project) :=
  try principal := principalFromRequest q in
  if (p_Kind principal =? CredCapture)%string
  then Err (NewHTTPError 403 "capture credential cannot access management routes")
  else
    try project := ProjectByID (p_ProjectID principal) in
    Ok (principal, projectForPrincipal project principal).

Definition projectFromRequest (q : HttpReq) : result error Project :=
  result_bind (principalAndProject q) (fun r => Ok (snd r)).

(** ** The class decision of the routes without an operation *)

Context {W : Type} (ops : Registry W).

Definition authorizeAccess (principal : Principal) (req : Requirement) : result error unit :=
  if Allow ops principal req then Ok tt
  else Err (NewHTTPError 403 (RefusalMessage (rq_Access req))).

Definition authorizedPrincipalAndProject (q : HttpReq) (req : Requirement)
  : result error (Principal * Project) :=
  try r := principalAndProject q in
  try _u := authorizeAccess (fst r) req in
  Ok r.

Definition sessionPrincipal (userID projectID : string) : result error (Principal * Project) :=
  match ProjectByIDForUser userID projectID with
  | Err _ => Err (NewHTTPError 403 "project not available")
  | Ok project => Ok (session_principal userID project, project)
  end.

(** [sessionCaller]: the session-only routes. *)
Definition sessionCaller (q : HttpReq) : result error (string * Principal * Project) :=
  try user := authFromRequest q in
  try projectID :=
    (if negb (sessionProjectID q =? "")%string then Ok (sessionProjectID q)
     else match DefaultProjectForUser user with
          | Err _ => Err (NewHTTPError 404 "project not found")
          | Ok project => Ok (pj_ID project)
          end) in
  try r := sessionPrincipal user projectID in
  Ok (user, fst r, snd r).

(** A session, its selected credential, and the project as the session's member sees
    it. *)
Definition authProject (q : HttpReq) : result error (string * Principal * Project) :=
  try user := authFromRequest q in
  try r := principalAndProject q in
  match ProjectByIDForUser user (pj_ID (snd r)) with
  | Err _ => Err (NewHTTPError 403 "project not available")
  | Ok project => Ok (user, fst r, projectForPrincipal project (fst r))
  end.

Definition authProjectForWrite (q : HttpReq) (req : Requirement)
  : result error (string * Principal * Project) :=
  try a := authProject q in
  try s := sessionPrincipal (fst (fst a)) (pj_ID (snd a)) in
  try _u := authorizeAccess (fst s) req in
  Ok a.

(** [opAdapter.invoke]: an operation on behalf of an older route; [body] is the input,
    marshalled. *)
Definition adapter_invoke (principal : Principal) (opName : string) (body : result error string)
    (w : W) : W * result error string :=
  match Get ops opName with
  | None => (w, Err (NewHTTPError 500 ("operation " ++ opName ++ " not registered")%string))
  | Some spec =>
      if negb (Authorize ops principal opName) then
        (w, Err (NewHTTPError 403 (RefusalMessage (OpAccess spec))))
      else
        match body with
        | Err e => (w, Err e)
        | Ok body =>
            match OpInvoke spec (network_context principal) body w with
            | (w1, Err e) => (w1, Err (MapOpError e))
            | (w1, Ok out) => (w1, Ok out)
            end
        end
  end.

End Resolvers.

(** * Theorems *)

(** ** What a session may invoke *)

Definition is_manager (role : string) : bool := (role =? "owner")%string || (role =? "admin")%string.

(** The matrix: a guest of the demo reads, a member writes everything but sources and
    runs no operation with the administrators' floor, an administrator runs all. *)
Definition session_may (role : string) (demo : bool) (m : OpMeta) : bool :=
  if demo && negb (is_manager role) then
    negb (mutatingAccess (m_Access m)) && sessionRoleAtLeast role (m_MinSessionRole m)
  else if is_manager role then true
  else if (role =? "member")%string then
    negb (m_Access m =? AccessSourcesManage)%string && negb (m_MinSessionRole m =? "admin")%string
  else false.

Lemma matrix_cases :
  forallb (fun m =>
    (* administrators *)
    existsb (String.eqb (m_Access m)) (sessionGrants (Build_Project "" "" "" "owner" true)) &&
    sessionRoleAtLeast "owner" (m_MinSessionRole m) &&
    sessionRoleAtLeast "admin" (m_MinSessionRole m) &&
    (* members *)
    Bool.eqb
      (existsb (String.eqb (m_Access m)) (sessionGrants (Build_Project "" "" "" "member" false)) &&
       sessionRoleAtLeast "member" (m_MinSessionRole m))
      (negb (m_Access m =? AccessSourcesManage)%string && negb (m_MinSessionRole m =? "admin")%string) &&
    (* guests of the demo *)
    Bool.eqb (existsb (String.eqb (m_Access m)) [AccessAnalyticsRead; AccessSourcesRead])
             (negb (mutatingAccess (m_Access m)))) production = true.
Proof. by vm_compute. Qed.

(** Every session against every operation of the production registry. *)
Theorem session_matrix {W} (run : string -> CallContext -> string -> W -> W * result error string)
    summary schema user project n :
  Authorize (ProductionRegistry run summary schema) (session_principal user project) n =
  match meta n with
  | Some m => session_may (pj_Role project) (pj_IsDemo project) m
  | None => false
  end.
Proof.
  rewrite production_authorize. destruct (meta n) as [m|] eqn:Hm; [|done].
  apply meta_elem in Hm as [Hin _]. pose proof matrix_cases as Hall.
  rewrite forallb_forall in Hall. specialize (Hall m Hin).
  rewrite !andb_true_iff in Hall. destruct Hall as [[[[Ho Hown] Hadm] Hmem] Hdemo].
  apply eqb_prop in Hmem, Hdemo.
  destruct project as [i ws k role demo].
  unfold session_may, is_manager, session_principal, sessionGrants in *.
  cbn [pj_Role pj_IsDemo p_Kind p_Role p_Grants] in *.
  change ((CredSession =? CredLegacy)%string) with false.
  change ((CredSession =? CredManagement)%string) with false.
  change ((CredSession =? CredSession)%string) with true. cbv iota.
  destruct (String.eqb_spec role "owner") as [->|Hno].
  { destruct demo; exact (andb_true_intro (conj Ho Hown)). }
  destruct (String.eqb_spec role "admin") as [->|Hna].
  { destruct demo; exact (andb_true_intro (conj Ho Hadm)). }
  destruct demo; [by cbn [negb andb orb]; rewrite Hdemo|].
  destruct (String.eqb_spec role "member") as [->|Hnm]; [exact Hmem|done].
Qed.

(** ** Who is shown the capture key *)

Section KeyLaws.
Context `{HL : AuthStoreLaws}.

Lemma session_write_role user pj :
  Allow sessionWriteFloor (session_principal user pj) (legacyWrite AccessDashboardsWrite) = true ->
  is_manager (pj_Role pj) = true \/ (pj_Role pj = "member" /\ pj_IsDemo pj = false).
Proof.
  destruct pj as [i ws k role demo].
  unfold Allow, session_principal, sessionGrants, is_manager. cbn [p_Kind p_Grants p_Role pj_Role pj_IsDemo rq_Access rq_MinSessionRole legacyWrite].
  destruct (String.eqb_spec role "owner") as [->|]; [by left|].
  destruct (String.eqb_spec role "admin") as [->|]; [by left|].
  destruct (String.eqb_spec role "member") as [->|]; destruct demo; cbn; try done. by right.
Qed.

(** A project row leaves the older routes with its capture key only for a session whose
    membership may write that project: an administrator of its workspace, or a member
    of a workspace that is not the demo. *)
Theorem capture_key_withheld q p pj :
  principalAndProject q = Ok (p, pj) -> pj_APIKey pj <> "" ->
  exists user membership,
    p = session_principal user membership /\
    pj_ID membership = pj_ID pj /\
    (is_manager (pj_Role membership) = true \/
     pj_Role membership = "member" /\ isDemoWorkspace (pj_WorkspaceID membership) = false).
Proof using All.
  unfold principalAndProject. destruct (principalFromRequest q) as [p'|e] eqn:Hp; [|done]. simpl.
  destruct (p_Kind p' =? CredCapture)%string; [done|].
  destruct (ProjectByID (p_ProjectID p')) as [row|e] eqn:Hrow; [|done]. simpl.
  intros [= -> <-] Hkey. unfold projectForPrincipal in *.
  destruct (String.eqb_spec (p_Kind p) CredSession) as [Hk|]; [|done]. simpl in *.
  destruct (Allow sessionWriteFloor p _) eqn:Hallow; [|done]. simpl in *.
  unfold principalFromRequest in Hp. destruct (bearerToken q) as [tok|].
  { destruct (CredentialBySecret tok) as [cred|]; [|done]. by simplify_eq. }
  destruct (negb (api_key_of q =? "")%string).
  { destruct (ProjectByAPIKey _) as [kp|]; [|done]. destruct (ProjectCredentialSplit _) as [[]|]; by simplify_eq. }
  destruct (authFromRequest q) as [user|]; [|done]. simpl in Hp.
  destruct (session_project q user) as [m|] eqn:Hm; [|done]. simpl in Hp. simplify_eq.
  exists user, m. split_and!; [done|by apply project_by_id_id in Hrow|].
  assert (pj_IsDemo m = isDemoWorkspace (pj_WorkspaceID m)) as Hdemo.
  { unfold session_project in Hm. destruct (negb _).
    - destruct (ProjectByIDForUser user _) eqn:Hq; [|done]. simplify_eq. by eapply for_user_demo.
    - destruct (DefaultProjectForUser user) eqn:Hq; [|done]. simplify_eq. by eapply default_demo. }
  rewrite <- Hdemo. by apply (session_write_role user).
Qed.

End KeyLaws.

(** * A store for the witnesses *)

(** One workspace with two projects, an owner, a member of it who is a guest of the demo
    workspace, a reader's credential and a project key. *)
Definition wit_project (i ws role : string) (demo : bool) : Project :=
  {| pj_ID := i; pj_WorkspaceID := ws; pj_APIKey := "k_" ++ i; pj_Role := role; pj_IsDemo := demo |}%string.

Definition wit_missing : error := ENew "not found".

Definition wit_workspace (i : string) : option string :=
  if (i =? "A")%string || (i =? "B")%string then Some "ws"
  else if (i =? "D")%string then Some "demo" else None.

Definition wit_role (user ws : string) : string :=
  if (user =? "ann")%string && (ws =? "ws")%string then "owner"
  else if (user =? "bob")%string && ((ws =? "ws")%string || (ws =? "demo")%string) then "member"
  else "".

#[local] Instance wit_store : AuthStore := {|
  CredentialBySecret s :=
    if (s =? "agm_reader")%string
    then Ok {| rc_CredentialID := "c"; rc_ProjectID := "A"; rc_Scopes := [AccessAnalyticsRead] |}
    else Err wit_missing;
  ProjectByAPIKey k := if (k =? "k_A")%string then Ok (wit_project "A" "ws" "" false) else Err wit_missing;
  ProjectByID i :=
    match wit_workspace i with Some ws => Ok (wit_project i ws "" false) | None => Err wit_missing end;
  ProjectCredentialSplit i := Ok false;
  UserBySessionToken t :=
    if (t =? "ann")%string || (t =? "bob")%string then Ok t else Err wit_missing;
  ProjectByIDForUser u i :=
    match wit_workspace i with
    | Some ws =>
        if (wit_role u ws =? "")%string then Err wit_missing
        else Ok (wit_project i ws (wit_role u ws) (ws =? "demo")%string)
    | None => Err wit_missing
    end;
  DefaultProjectForUser u :=
    if (wit_role u "ws" =? "")%string then Err wit_missing
    else Ok (wit_project "A" "ws" (wit_role u "ws") false);
  WorkspaceRoleForUser u ws := Ok (wit_role u ws);
  DemoWorkspaceID := "demo";
  DemoProjectID := "D" |}.

#[local] Instance wit_laws : AuthStoreLaws.
Proof.
  split; unfold isDemoWorkspace; cbn.
  - done.
  - intros s c. case_match; intros; simplify_eq. by eexists.
  - intros i p. destruct (wit_workspace i); intros; by simplify_eq.
  - intros u i p. destruct (wit_workspace i); [|done]. case_match; intros; by simplify_eq.
  - intros u i p. destruct (wit_workspace i) as [ws|] eqn:Hw; [|done]. case_match; intros; simplify_eq.
    cbn. unfold wit_workspace in Hw. by repeat case_match; simplify_eq.
  - intros u p. case_match; intros; by simplify_eq.
Qed.

Definition wit_request : HttpReq :=
  {| hr_Method := "GET"; hr_Path := "/api/dashboards"; hr_Authorization := ""; hr_XAPIKey := "";
     hr_Cookie := Some "ann"; hr_query_api_key := ""; hr_query_token := ""; hr_query_project_id := "B";
     hr_param_project_id := ""; hr_param_workspace_id := "" |}.

Lemma capture_key_withheld_witness :
  exists user membership,
    session_principal "ann" (wit_project "B" "ws" "owner" false) = session_principal user membership /\
    pj_ID membership = "B".
Proof.
  destruct (capture_key_withheld wit_request (session_principal "ann" (wit_project "B" "ws" "owner" false))
              (wit_project "B" "ws" "" false)) as (user & m & Hp & Hi & _);
    [by vm_compute|done|].
  exists user, m. split; [exact Hp|exact Hi].
Defined.

(** A route that writes through [authProjectForWrite] decides by the session beside the
    credential and not by the credential the request selected: a reader's key with an
    owner's cookie is admitted to a write that the key itself is refused. *)
Theorem write_route_borrows_session {W} (ops : Registry W) :
  exists (store : AuthStore) q p,
    principalFromRequest q = Ok p /\ p_Kind p = CredManagement /\
    Allow ops p (legacyWrite AccessPlansWrite) = false /\
    is_ok (authProjectForWrite ops q (legacyWrite AccessPlansWrite)) = true.
Proof.
  exists wit_store, {| hr_Method := "POST"; hr_Path := "/api/validation/tests/:id/commit";
     hr_Authorization := "Bearer agm_reader"; hr_XAPIKey := ""; hr_Cookie := Some "ann";
     hr_query_api_key := ""; hr_query_token := ""; hr_query_project_id := "";
     hr_param_project_id := ""; hr_param_workspace_id := "" |}.
  eexists. split; [by vm_compute|]. split_and!; by vm_compute.
Qed.
