(* ===== verification/WriteGuard.v ===== *)
(** The write floor ([src/internal/app/demo_guard.go]): the middleware in front of every
    mutating route.

    [classifyWrite] says what a route is; [resolveWriteScope] resolves the workspace a
    request changes and the caller's standing in it, on its own, before the handler's
    resolver runs; [demoWriteGuard] asks [Allow] about that scope.  The theorems relate
    the two resolvers: for a request that names one project both reach the same
    decision, and a request whose path and query name two projects is judged by the
    guard as one and by [principalFromRequest] as the other. *)

From S2P Require Import Prelude GoStrings Operations OpAdapters OpRegistry Principals.
From Stdlib Require Import String.
Open Scope string_scope.
Open Scope list_scope.
Open Scope Z_scope.

Definition mutatingMethod (method : string) : bool :=
  negb ((method =? "GET")%string || (method =? "HEAD")%string || (method =? "OPTIONS")%string).

Inductive writeClass :=
| writeGuarded | writeUnscoped | writeReadOnly | writeAgentAsk | writeAgentControl | writeClassed.

Definition writeClasses : list (string * writeClass) :=
  [("/api/auth/signup", writeUnscoped);
   ("/api/auth/login", writeUnscoped);
   ("/api/auth/logout", writeUnscoped);
   ("/api/users/me", writeUnscoped);
   ("/api/workspaces", writeUnscoped);
   ("/api/projects", writeUnscoped);
   ("/waitlist", writeUnscoped);
   ("/waitlist/unsubscribe", writeUnscoped);
   ("/capture", writeUnscoped);
   ("/batch", writeUnscoped);
   ("/identify", writeUnscoped);
   ("/alias", writeUnscoped);
   ("/e", writeUnscoped);
   ("/e/", writeUnscoped);
   ("/i/v0/e", writeUnscoped);
   ("/i/v0/e/", writeUnscoped);
   ("/api/agent/hook/:token", writeUnscoped);
   ("/api/sql/run", writeReadOnly);
   ("/api/saved-queries/:query_id/run", writeReadOnly);
   ("/api/agent/chat", writeAgentAsk);
   ("/api/agent/chat/answer", writeAgentAsk);
   ("/api/agent/conversations/:id/messages", writeAgentAsk);
   ("/api/agent/chat/cancel", writeAgentControl);
   ("/api/agent/conversations", writeAgentControl);
   ("/api/templates/:template_id/apply", writeClassed);
   ("/api/templates/:template_id/charts/:chart_id/clone", writeClassed);
   ("/api/cohorts/audiences", writeClassed);
   ("/api/cohorts/audiences/:audience_id", writeClassed);
   ("/api/subscription/mapping", writeClassed);
   ("/api/saved-queries", writeClassed);
   ("/api/saved-queries/:query_id", writeClassed);
   ("/api/validation/tests/:id/commit", writeClassed);
   ("/api/validation/tests/:id/decide", writeClassed);
   ("/api/dashboards", writeClassed);
   ("/api/dashboards/:dashboard_id", writeClassed);
   ("/api/dashboards/:dashboard_id/charts", writeClassed);
   ("/api/dashboards/:dashboard_id/charts/order", writeClassed);
   ("/api/charts/:chart_id", writeClassed);
   ("/api/connectors", writeClassed);
   ("/api/connectors/:connector_id", writeClassed);
   ("/api/connectors/:connector_id/test", writeClassed);
   ("/api/connector-syncs/:sync_id/run", writeClassed)].

Fixpoint class_of (entries : list (string * writeClass)) (path : string) : option writeClass :=
  match entries with
  | [] => None
  | (p, c) :: rest => if (p =? path)%string then Some c else class_of rest path
  end.

Definition classifyWrite (path : string) : writeClass :=
  if (path =? "/mcp")%string || (path =? "/mcp/")%string || has_prefix path "/api/op/"
  then writeReadOnly
  else default writeGuarded (class_of writeClasses path).

Record writeScope := {
  ws_user : string;
  ws_workspaceID : string;
  ws_projectID : string;
  ws_role : string;
  ws_isDemo : bool;
  ws_grants : list string;
  ws_split : bool;
  ws_byAPIKey : bool;
  ws_byManagementKey : bool;
  ws_badKey : bool;
  ws_badBearer : bool }.

Definition empty_scope : writeScope :=
  {| ws_user := ""; ws_workspaceID := ""; ws_projectID := ""; ws_role := ""; ws_isDemo := false;
     ws_grants := []; ws_split := false; ws_byAPIKey := false; ws_byManagementKey := false;
     ws_badKey := false; ws_badBearer := false |}.

Definition membership (s : writeScope) : Project :=
  {| pj_ID := ws_projectID s; pj_WorkspaceID := ""; pj_APIKey := ""; pj_Role := ws_role s;
     pj_IsDemo := ws_isDemo s |}.

Definition scope_principal (s : writeScope) : Principal :=
  if ws_byManagementKey s then
    {| p_ProjectID := ws_projectID s; p_Kind := CredManagement; p_Role := ""; p_UserID := "";
       p_CredentialID := ""; p_Grants := ws_grants s |}
  else if ws_byAPIKey s then
    {| p_ProjectID := ws_projectID s; p_Kind := if ws_split s then CredCapture else CredLegacy;
       p_Role := ""; p_UserID := ""; p_CredentialID := ""; p_Grants := [] |}
  else
    {| p_ProjectID := ws_projectID s; p_Kind := CredSession; p_Role := ws_role s;
       p_UserID := ws_user s; p_CredentialID := ""; p_Grants := sessionGrants (membership s) |}.

Section Guard.
Context `{AuthStore}.

Definition withDemo (s : writeScope) : writeScope :=
  {| ws_user := ws_user s; ws_workspaceID := ws_workspaceID s; ws_projectID := ws_projectID s;
     ws_role := ws_role s;
     ws_isDemo := negb (DemoWorkspaceID =? "")%string && (ws_workspaceID s =? DemoWorkspaceID)%string;
     ws_grants := ws_grants s; ws_split := ws_split s; ws_byAPIKey := ws_byAPIKey s;
     ws_byManagementKey := ws_byManagementKey s; ws_badKey := ws_badKey s;
     ws_badBearer := ws_badBearer s |}.

Definition bad_bearer : writeScope :=
  {| ws_user := ""; ws_workspaceID := ""; ws_projectID := ""; ws_role := ""; ws_isDemo := false;
     ws_grants := []; ws_split := false; ws_byAPIKey := false; ws_byManagementKey := false;
     ws_badKey := false; ws_badBearer := true |}.

Definition bad_key : writeScope :=
  {| ws_user := ""; ws_workspaceID := ""; ws_projectID := ""; ws_role := ""; ws_isDemo := false;
     ws_grants := []; ws_split := false; ws_byAPIKey := false; ws_byManagementKey := false;
     ws_badKey := true; ws_badBearer := false |}.

Definition user_scope (user : string) : writeScope :=
  {| ws_user := user; ws_workspaceID := ""; ws_projectID := ""; ws_role := ""; ws_isDemo := false;
     ws_grants := []; ws_split := false; ws_byAPIKey := false; ws_byManagementKey := false;
     ws_badKey := false; ws_badBearer := false |}.

Definition in_project (user : string) (p : Project) : writeScope :=
  withDemo
    {| ws_user := user; ws_workspaceID := pj_WorkspaceID p; ws_projectID := pj_ID p;
       ws_role := pj_Role p; ws_isDemo := false; ws_grants := []; ws_split := false;
       ws_byAPIKey := false; ws_byManagementKey := false; ws_badKey := false; ws_badBearer := false |}.

(** The project id the guard reads, the path parameter first. *)
Definition guard_project_id (q : HttpReq) : string :=
  firstNonEmpty [trim_space (hr_param_project_id q); trim_space (hr_query_project_id q)].

Definition resolveWriteScope (q : HttpReq) : result error writeScope :=
  match bearerToken q with
  | Some tok =>
      if (tok =? "")%string then Ok bad_bearer
      else
        match CredentialBySecret tok with
        | Err _ => Ok bad_bearer
        | Ok cred =>
            match ProjectByID (rc_ProjectID cred) with
            | Err _ => Ok bad_bearer
            | Ok project =>
                Ok (withDemo
                  {| ws_user := ""; ws_workspaceID := pj_WorkspaceID project;
                     ws_projectID := pj_ID project; ws_role := ""; ws_isDemo := false;
                     ws_grants := managementGrants (rc_Scopes cred); ws_split := false;
                     ws_byAPIKey := false; ws_byManagementKey := true; ws_badKey := false;
                     ws_badBearer := false |})
            end
        end
  | None =>
      if negb (api_key_of q =? "")%string then
        match ProjectByAPIKey (api_key_of q) with
        | Err _ => Ok bad_key
        | Ok project =>
            match ProjectCredentialSplit (pj_ID project) with
            | Err _ => Ok bad_key
            | Ok split =>
                Ok (withDemo
                  {| ws_user := ""; ws_workspaceID := pj_WorkspaceID project;
                     ws_projectID := pj_ID project; ws_role := ""; ws_isDemo := false;
                     ws_grants := []; ws_split := split; ws_byAPIKey := true;
                     ws_byManagementKey := false; ws_badKey := false; ws_badBearer := false |})
            end
        end
      else
        match hr_Cookie q with
        | None => Ok empty_scope
        | Some v =>
            if (v =? "")%string then Ok empty_scope
            else
              match UserBySessionToken v with
              | Err _ => Ok empty_scope
              | Ok user =>
                  let workspaceID := trim_space (hr_param_workspace_id q) in
                  if negb (workspaceID =? "")%string then
                    match WorkspaceRoleForUser user workspaceID with
                    | Err e => Err e
                    | Ok role =>
                        if (role =? "")%string then Ok (user_scope user)
                        else
                          Ok (withDemo
                            {| ws_user := user; ws_workspaceID := workspaceID; ws_projectID := "";
                               ws_role := role; ws_isDemo := false; ws_grants := [];
                               ws_split := false; ws_byAPIKey := false; ws_byManagementKey := false;
                               ws_badKey := false; ws_badBearer := false |})
                    end
                  else if negb (guard_project_id q =? "")%string then
                    match ProjectByIDForUser user (guard_project_id q) with
                    | Err _ => Ok (user_scope user)
                    | Ok project => Ok (in_project user project)
                    end
                  else
                    match DefaultProjectForUser user with
                    | Err _ => Ok (user_scope user)
                    | Ok project => Ok (in_project user project)
                    end
              end
        end
  end.

Context {W : Type}.

(** [None] is a server without a registry. *)
Definition scopeAllowsWrite (reg : option (Registry W)) (s : writeScope) : bool :=
  Allow (default NewRegistry reg) (scope_principal s) (legacyWrite AccessDashboardsWrite).

(** The request goes on to the handler, marked read-only or not, or is refused. *)
Inductive guard_answer :=
| Next (readOnlyCaller : bool)
| Refuse (e : error).

Definition no_scope_refusal (s : writeScope) : error :=
  if ws_badBearer s then NewHTTPError 401 "invalid credential"
  else if ws_badKey s then NewHTTPError 401 "invalid api key"
  else if (ws_user s =? "")%string then NewHTTPError 401 "login required"
  else NewHTTPError 403 "this request does not name a workspace it may write to".

Definition demoWriteGuard (reg : option (Registry W)) (q : HttpReq) : guard_answer :=
  if negb (mutatingMethod (hr_Method q)) then Next false
  else if (hr_Path q =? "")%string then Next false
  else
    let class := classifyWrite (hr_Path q) in
    match class with
    | writeUnscoped | writeClassed => Next false
    | _ =>
        match resolveWriteScope q with
        | Err e => Refuse e
        | Ok scope =>
            if (ws_workspaceID scope =? "")%string then Refuse (no_scope_refusal scope)
            else
              let mayWrite := scopeAllowsWrite reg scope in
              match class with
              | writeReadOnly | writeAgentAsk | writeAgentControl => Next (negb mayWrite)
              | _ =>
                  if mayWrite then Next false
                  else Refuse (NewHTTPError 403 (RefusalMessage AccessDashboardsWrite))
              end
        end
    end.

(** [agentRunReadOnly]: the mark of the guard or a selected credential that may not
    write. *)
Definition agentRunReadOnly (readOnlyCaller : bool) (principal : Principal) : bool :=
  readOnlyCaller || negb (Allow sessionWriteFloor principal (legacyWrite AccessDashboardsWrite)).

End Guard.

(** * Theorems *)

Section GuardLaws.
Context `{HL : AuthStoreLaws} {W : Type}.

(** The path and the query name at most one project, and no workspace is named. *)
Definition names_one_project (q : HttpReq) : Prop :=
  trim_space (hr_param_workspace_id q) = "" /\ guard_project_id q = sessionProjectID q.

(** The projects the store finds for these requests belong to a workspace; the ones from
    before workspaces do not. *)
Definition has_workspaces : Prop :=
  (forall i p, ProjectByID i = Ok p -> pj_WorkspaceID p <> "") /\
  (forall k p, ProjectByAPIKey k = Ok p -> pj_WorkspaceID p <> "") /\
  (forall u i p, ProjectByIDForUser u i = Ok p -> pj_WorkspaceID p <> "") /\
  (forall u p, DefaultProjectForUser u = Ok p -> pj_WorkspaceID p <> "").

(** What the guard resolves when the handler's resolver returns [p]: a scope with a
    workspace whose principal [Allow] cannot tell from [p]. *)
Definition same_caller (p : Principal) (s : writeScope) : Prop :=
  ws_workspaceID s <> "" /\
  forall (reg : Registry W) req, Allow reg (scope_principal s) req = Allow reg p req.

Lemma in_project_same user pj :
  pj_WorkspaceID pj <> "" -> pj_IsDemo pj = isDemoWorkspace (pj_WorkspaceID pj) ->
  same_caller (session_principal user pj) (in_project user pj).
Proof.
  intros Hws Hdemo. split; [done|]. intros reg req.
  assert (ws_isDemo (in_project user pj) = pj_IsDemo pj) as Hd.
  { rewrite Hdemo. unfold in_project, isDemoWorkspace. cbn.
    destruct (String.eqb_spec (pj_WorkspaceID pj) "") as [|_]; [done|]. cbn.
    destruct (String.eqb_spec (pj_WorkspaceID pj) DemoWorkspaceID) as [Heq|_]; [|by rewrite andb_false_r].
    rewrite andb_true_r. apply negb_true_iff, String.eqb_neq. congruence. }
  unfold scope_principal, session_principal, sessionGrants, membership, Allow.
  cbn [in_project withDemo ws_byManagementKey ws_byAPIKey p_Kind p_Grants p_Role pj_Role pj_IsDemo] in *.
  unfold in_project in Hd. cbn in Hd. cbn. by rewrite Hd.
Qed.

Lemma resolvers_agree q :
  has_workspaces -> names_one_project q ->
  match principalFromRequest q with
  | Ok p => exists s, resolveWriteScope q = Ok s /\ same_caller p s
  | Err _ => exists s, resolveWriteScope q = Ok s /\ ws_workspaceID s = ""
  end.
Proof using All.
  intros (Hid & Hkey & Hfor & Hdef) [Hws Hone].
  unfold principalFromRequest, resolveWriteScope. destruct (bearerToken q) as [tok|].
  { destruct (String.eqb_spec tok "") as [->|_].
    { pose proof empty_secret as He. destruct (CredentialBySecret ""); [done|]. by eexists. }
    destruct (CredentialBySecret tok) as [cred|e] eqn:Hc; [|by eexists].
    destruct (credential_has_project _ _ Hc) as [pj Hpj]. rewrite Hpj. eexists. split; [done|].
    split; [by apply (Hid _ _ Hpj)|done]. }
  destruct (negb (api_key_of q =? "")%string).
  { destruct (ProjectByAPIKey (api_key_of q)) as [pj|e] eqn:Hk; [|by eexists].
    destruct (ProjectCredentialSplit (pj_ID pj)) as [split|e]; [|by eexists].
    eexists. split; [done|]. split; [by apply (Hkey _ _ Hk)|done]. }
  unfold authFromRequest. destruct (hr_Cookie q) as [v|]; [|by eexists].
  destruct (v =? "")%string; [by eexists|].
  destruct (UserBySessionToken v) as [user|e]; [|by eexists]. rewrite Hws. cbn [String.eqb negb result_bind].
  unfold session_project. rewrite Hone. destruct (negb (sessionProjectID q =? "")%string).
  - destruct (ProjectByIDForUser user _) as [pj|e] eqn:Hp; [|by eexists].
    eexists. split; [done|]. apply in_project_same; [by eapply Hfor|by eapply for_user_demo].
  - destruct (DefaultProjectForUser user) as [pj|e] eqn:Hp; [|by eexists].
    eexists. split; [done|]. apply in_project_same; [by eapply Hdef|by eapply default_demo].
Qed.

(** In front of a guarded route the floor and the handler's resolver are one decision:
    the request passes, unmarked, exactly when [principalFromRequest] returns a principal
    that [Allow] admits to the dashboard writes, whatever the credential; every other
    request is refused before the handler runs. *)
Theorem floor_is_the_resolver (reg : Registry W) q :
  has_workspaces -> names_one_project q ->
  mutatingMethod (hr_Method q) = true -> hr_Path q <> "" ->
  classifyWrite (hr_Path q) = writeGuarded ->
  (demoWriteGuard (Some reg) q = Next false <->
   exists p, principalFromRequest q = Ok p /\ Allow reg p (legacyWrite AccessDashboardsWrite) = true) /\
  demoWriteGuard (Some reg) q <> Next true.
Proof using All.
  intros Hhas Hone Hm Hpath Hclass. pose proof (resolvers_agree q Hhas Hone) as Hag.
  unfold demoWriteGuard. rewrite Hm, (proj2 (String.eqb_neq _ _) Hpath), Hclass. cbn [negb].
  destruct (principalFromRequest q) as [p|e].
  - destruct Hag as (s & -> & Hwsp & Hallow). rewrite (proj2 (String.eqb_neq _ _) Hwsp).
    unfold scopeAllowsWrite. change (default NewRegistry (Some reg)) with reg. rewrite Hallow.
    destruct (Allow reg p (legacyWrite AccessDashboardsWrite)) eqn:Ha; (split; [|by intros ?]); split; try done.
    + intros _. by exists p.
    + intros (p' & [= <-] & Ha'). congruence.
  - destruct Hag as (s & -> & ->). cbn. split; [|by intros ?]. split; [by intros ?|]. by intros (p & Hp & _).
Qed.

End GuardLaws.

(** ** The two resolvers on a request that names two projects *)

(** With a project in the path and another in the query, the guard decides for the one
    of the path and [principalFromRequest] returns a principal of the one of the query. *)
Theorem resolvers_read_two_projects :
  exists (store : AuthStore) q s p,
    AuthStoreLaws /\
    hr_param_project_id q = "A" /\ hr_query_project_id q = "B" /\
    resolveWriteScope q = Ok s /\ ws_projectID s = "A" /\
    principalFromRequest q = Ok p /\ p_ProjectID p = "B".
Proof.
  exists wit_store,
    {| hr_Method := "PUT"; hr_Path := "/api/projects/:project_id"; hr_Authorization := "";
       hr_XAPIKey := ""; hr_Cookie := Some "ann"; hr_query_api_key := ""; hr_query_token := "";
       hr_query_project_id := "B"; hr_param_project_id := "A"; hr_param_workspace_id := "" |}.
  do 2 eexists. split; [exact wit_laws|]. split_and!; try by vm_compute.
Qed.

(** ** Witness *)

(** The guest of the demo asks to change the demo's board; the owner changes her own. *)
Definition wit_write (cookie project : string) : HttpReq :=
  {| hr_Method := "POST"; hr_Path := "/api/agent/lab/cases"; hr_Authorization := "";
     hr_XAPIKey := ""; hr_Cookie := Some cookie; hr_query_api_key := ""; hr_query_token := "";
     hr_query_project_id := project; hr_param_project_id := ""; hr_param_workspace_id := "" |}.

Lemma wit_has_workspaces : @has_workspaces wit_store.
Proof.
  split_and!; cbn.
  - intros i p. unfold wit_workspace. repeat case_match; intros; by simplify_eq.
  - intros k p. case_match; intros; by simplify_eq.
  - intros u i p. unfold wit_workspace. repeat case_match; intros; by simplify_eq.
  - intros u p. case_match; intros; by simplify_eq.
Qed.

Lemma floor_is_the_resolver_witness :
  @demoWriteGuard wit_store _ (Some the_registry) (wit_write "ann" "A") = Next false /\
  @demoWriteGuard wit_store _ (Some the_registry) (wit_write "bob" "D") <> Next false.
Proof.
  split.
  - apply (@floor_is_the_resolver wit_store wit_laws _ the_registry (wit_write "ann" "A"));
      [exact wit_has_workspaces|by split|done|done|by vm_compute|].
    eexists. split; [by vm_compute|by vm_compute].
  - destruct (@floor_is_the_resolver wit_store wit_laws _ the_registry (wit_write "bob" "D")
      wit_has_workspaces) as [Hiff _]; [by split|done|done|by vm_compute|].
    intros Hn. apply Hiff in Hn as (p & Hp & Ha).
    vm_compute in Hp. injection Hp as <-. vm_compute in Ha. discriminate Ha.
Defined.
