(* ===== verification/Accounts.v ===== *)
(** Accounts, memberships and credentials ([src/internal/dataplane/store/auth.go],
    [store/credentials.go], [store/demo.go], and the project reads of [store/store.go]).

    The PostgreSQL tables are finite maps, a statement is a function on them, a
    transaction is one function.  Row ids and random secrets are inputs, fresh by the
    constraint the table declares (a duplicate fails).  The digest of a secret is a
    parameter.  The audit log is the list of the entries written.

    [store_of] implements the interface [AuthStore] the resolvers use and the facts they
    rely on.  The theorems: the workspace keeps an owner under the guarded operations
    and can lose the last one through an invitation; a revoked secret and a split
    project stay so whatever follows.  The two no-rows errors of the drivers, one of
    which wraps the other, are one here. *)

From S2P Require Import Prelude GoStrings Operations OpAdapters OpRegistry Principals.
From Stdlib Require Import String.
Open Scope string_scope.
Open Scope list_scope.
Open Scope Z_scope.
Open Scope go_scope.

(** ** Tables *)

Record ProjectRow := {
  r_Workspace : string;   (** empty when NULL *)
  r_APIKey : string;
  r_CreatedAt : Z;
  r_SplitAt : option Z }.

Record CredentialRow := {
  c_Project : string;
  c_Name : string;
  c_Hash : string;
  c_Scopes : list string;
  c_LastUsedAt : option Z;
  c_RevokedAt : option Z }.

Record SessionRow := { s_User : string; s_ExpiresAt : Z }.

Record AuditEntry := { a_Workspace : string; a_Actor : string; a_Action : string; a_Target : string }.

Record DB := {
  users : gmap string string;                 (** id to email *)
  members : gmap (string * string) string;    (** (workspace, user) to role *)
  workspaces : gset string;
  projects : gmap string ProjectRow;
  credentials : gmap string CredentialRow;
  sessions : gmap string SessionRow;          (** by token hash *)
  audit : list AuditEntry;
  demo_workspace : string;
  demo_project : string }.

Definition with_members (db : DB) m : DB :=
  {| users := users db; members := m; workspaces := workspaces db; projects := projects db;
     credentials := credentials db; sessions := sessions db; audit := audit db;
     demo_workspace := demo_workspace db; demo_project := demo_project db |}.

Definition with_projects (db : DB) p : DB :=
  {| users := users db; members := members db; workspaces := workspaces db; projects := p;
     credentials := credentials db; sessions := sessions db; audit := audit db;
     demo_workspace := demo_workspace db; demo_project := demo_project db |}.

Definition with_credentials (db : DB) c : DB :=
  {| users := users db; members := members db; workspaces := workspaces db; projects := projects db;
     credentials := c; sessions := sessions db; audit := audit db;
     demo_workspace := demo_workspace db; demo_project := demo_project db |}.

Definition with_sessions (db : DB) s : DB :=
  {| users := users db; members := members db; workspaces := workspaces db; projects := projects db;
     credentials := credentials db; sessions := s; audit := audit db;
     demo_workspace := demo_workspace db; demo_project := demo_project db |}.

(** [recordWorkspaceAudit], after the statement it describes; its failure is ignored. *)
Definition record_audit (db : DB) (ws actor action target : string) : DB :=
  {| users := users db; members := members db; workspaces := workspaces db; projects := projects db;
     credentials := credentials db; sessions := sessions db;
     audit := audit db ++ [{| a_Workspace := ws; a_Actor := actor; a_Action := action; a_Target := target |}];
     demo_workspace := demo_workspace db; demo_project := demo_project db |}.

Definition ErrNoRows : error := ESentinel "pgx.ErrNoRows" "no rows in result set".
Definition ErrAgentForbidden : error := ESentinel "storage.ErrAgentForbidden" "agent config permission denied".

(** ** Roles *)

Definition normalizeWorkspaceRole (role : string) : string :=
  let r := to_lower (trim_space role) in
  if (r =? "owner")%string then "owner" else if (r =? "admin")%string then "admin" else "member".

Definition RoleMayWrite (role : string) : bool :=
  let r := to_lower (trim_space role) in
  (r =? "owner")%string || (r =? "admin")%string || (r =? "member")%string.

Definition is_demo_workspace (db : DB) (ws : string) : bool :=
  negb (ws =? "")%string && (ws =? demo_workspace db)%string.

Definition redactAPIKeyForRole (p : Project) : Project :=
  let blank := {| pj_ID := pj_ID p; pj_WorkspaceID := pj_WorkspaceID p; pj_APIKey := "";
                  pj_Role := pj_Role p; pj_IsDemo := pj_IsDemo p |} in
  if pj_IsDemo p && negb (pj_Role p =? "owner")%string && negb (pj_Role p =? "admin")%string then blank
  else if negb (RoleMayWrite (pj_Role p)) then blank
  else p.

Definition userCanManageWorkspace (db : DB) (user ws : string) : bool :=
  match members db !! (ws, user) with Some role => is_manager role | None => false end.

Definition userCanAccessWorkspace (db : DB) (user ws : string) : bool :=
  is_some (members db !! (ws, user)).

(** The owners of a workspace. *)
Definition owners (db : DB) (ws : string) : list (string * string) :=
  map fst (List.filter (fun e => (fst (fst e) =? ws)%string && (snd e =? "owner")%string)
             (map_to_list (members db))).

Definition ensureNotLastOwner (db : DB) (ws member : string) : result error unit :=
  if (default "" (members db !! (ws, member)) =? "owner")%string && (List.length (owners db ws) <=? 1)%nat
  then Err (ENew "workspace must keep at least one owner")
  else Ok tt.

(** ** Projects as a member sees them *)

Definition row_project (db : DB) (i : string) (r : ProjectRow) (role : string) : Project :=
  {| pj_ID := i; pj_WorkspaceID := r_Workspace r; pj_APIKey := r_APIKey r; pj_Role := role;
     pj_IsDemo := is_demo_workspace db (r_Workspace r) |}.

(** The join of a project with the user's membership of its workspace. *)
Definition membership_of (db : DB) (user : string) (r : ProjectRow) : option string :=
  if (r_Workspace r =? "")%string then None else members db !! (r_Workspace r, user).

Definition project_by_id_for_user (db : DB) (user i : string) : result error Project :=
  match projects db !! i with
  | None => Err ErrNoRows
  | Some r =>
      match membership_of db user r with
      | None => Err ErrNoRows
      | Some role => Ok (redactAPIKeyForRole (row_project db i r role))
      end
  end.

(** [ORDER BY (workspace is the demo), created_at, id LIMIT 1]. *)
Definition before (db : DB) (a b : string * ProjectRow) : bool :=
  let demo r := (r_Workspace r =? demo_workspace db)%string in
  match Bool.eqb (demo (snd a)) (demo (snd b)), Z.compare (r_CreatedAt (snd a)) (r_CreatedAt (snd b)) with
  | false, _ => demo (snd b)
  | true, Lt => true
  | true, Gt => false
  | true, Eq => String.leb (fst a) (fst b)
  end.

Fixpoint first_row (db : DB) (rows : list (string * ProjectRow)) : option (string * ProjectRow) :=
  match rows with
  | [] => None
  | a :: rest =>
      match first_row db rest with
      | None => Some a
      | Some b => if before db a b then Some a else Some b
      end
  end.

Definition user_rows (db : DB) (user : string) : list (string * ProjectRow) :=
  List.filter (fun e => is_some (membership_of db user (snd e))) (map_to_list (projects db)).

Definition default_project_for_user (db : DB) (user : string) : result error Project :=
  match first_row db (user_rows db user) with
  | None => Err ErrNoRows
  | Some (i, r) =>
      Ok (redactAPIKeyForRole (row_project db i r (default "" (membership_of db user r))))
  end.

(** A project without a user check: no role and no demo mark. *)
Definition bare_project (i : string) (r : ProjectRow) : Project :=
  {| pj_ID := i; pj_WorkspaceID := r_Workspace r; pj_APIKey := r_APIKey r; pj_Role := "";
     pj_IsDemo := false |}.

Definition project_by_api_key (db : DB) (key : string) : result error Project :=
  if (key =? "")%string then Err (ENew "missing api key")
  else match find_first (fun e => (r_APIKey (snd e) =? key)%string) (map_to_list (projects db)) with
       | Some (i, r) => Ok (bare_project i r)
       | None => Err ErrNoRows
       end.

Definition project_by_id (db : DB) (i : string) : result error Project :=
  match projects db !! i with Some r => Ok (bare_project i r) | None => Err ErrNoRows end.

Definition project_credential_split (db : DB) (i : string) : result error bool :=
  match projects db !! i with Some r => Ok (is_some (r_SplitAt r)) | None => Err ErrNoRows end.

(** ** Sessions and credentials *)

Section Statements.
Context (hash : string -> string).

Definition user_by_session_token (now : Z) (db : DB) (token : string) : result error string :=
  if (token =? "")%string then Err (ENew "missing session")
  else match sessions db !! hash token with
       | Some s => if now <? s_ExpiresAt s then Ok (s_User s) else Err ErrNoRows
       | None => Err ErrNoRows
       end.

(** [CreateUserSession]: [token_hash] is unique. *)
Definition CreateUserSession (now ttl : Z) (token user : string) (db : DB) : result error DB :=
  match sessions db !! hash token with
  | Some _ => Err (ENew "duplicate key value")
  | None => Ok (with_sessions db (<[hash token := {| s_User := user; s_ExpiresAt := now + ttl |}]> (sessions db)))
  end.

Definition DeleteUserSession (token : string) (db : DB) : DB :=
  if (token =? "")%string then db else with_sessions db (delete (hash token) (sessions db)).

(** The live credential of a digest; [key_hash] is unique. *)
Definition live_credential (db : DB) (h : string) : option (string * CredentialRow) :=
  find_first (fun e => (c_Hash (snd e) =? h)%string && negb (is_some (c_RevokedAt (snd e))))
    (map_to_list (credentials db)).

Definition used (now : Z) (c : CredentialRow) : CredentialRow :=
  {| c_Project := c_Project c; c_Name := c_Name c; c_Hash := c_Hash c; c_Scopes := c_Scopes c;
     c_LastUsedAt := Some now; c_RevokedAt := c_RevokedAt c |}.

Definition resolved (e : string * CredentialRow) : ResolvedCredential :=
  {| rc_CredentialID := fst e; rc_ProjectID := c_Project (snd e); rc_Scopes := c_Scopes (snd e) |}.

(** The [UPDATE ... RETURNING] stamps the use of the credential it returns. *)
Definition credential_by_secret (now : Z) (db : DB) (secret : string)
  : DB * result error ResolvedCredential :=
  if negb (has_prefix secret "agm_") then (db, Err ErrNoRows)
  else
    match live_credential db (hash secret) with
    | None => (db, Err ErrNoRows)
    | Some (i, c) =>
        (with_credentials db (<[i := used now c]> (credentials db)), Ok (resolved (i, c)))
    end.

Definition ManagementScopes : list string :=
  ["analytics:read"; "dashboards:write"; "sources:read"; "sources:manage"; "growth:write"; "plans:write"].

Fixpoint normalize_scopes (scopes : list string) : result error (list string) :=
  match scopes with
  | [] => Ok []
  | sc :: rest =>
      let sc := to_lower (trim_space sc) in
      if negb (existsb (String.eqb sc) ManagementScopes)
      then Err (ENew ("unknown scope " ++ sc)%string)
      else result_bind (normalize_scopes rest) (fun l => Ok (sc :: l))
  end.

(** [id] is the row's id, [random] the text of the two random ids without dashes. *)
Definition CreateProjectCredential (user project name : string) (scopes : list string)
    (id random : string) (db : DB) : result error (DB * string) :=
  try p := project_by_id_for_user db user project in
  if negb (userCanManageWorkspace db user (pj_WorkspaceID p)) then Err ErrAgentForbidden
  else
    let name := trim_space name in
    if (name =? "")%string then Err (ENew "credential name is required")
    else match scopes with
    | [] => Err (ENew "at least one scope is required")
    | _ =>
        try normalized := normalize_scopes scopes in
        let secret := ("agm_" ++ random)%string in
        if is_some (credentials db !! id)
           || existsb (fun e => (c_Hash (snd e) =? hash secret)%string) (map_to_list (credentials db))
        then Err (ENew "duplicate key value")
        else
          let row := {| c_Project := project; c_Name := name; c_Hash := hash secret;
                        c_Scopes := normalized; c_LastUsedAt := None; c_RevokedAt := None |} in
          Ok (record_audit (with_credentials db (<[id := row]> (credentials db)))
                (pj_WorkspaceID p) user "credential.created" project, secret)
    end.

Definition revoked (now : Z) (c : CredentialRow) : CredentialRow :=
  {| c_Project := c_Project c; c_Name := c_Name c; c_Hash := c_Hash c; c_Scopes := c_Scopes c;
     c_LastUsedAt := c_LastUsedAt c; c_RevokedAt := Some now |}.

(** The update runs under a lock of the project's row. *)
Definition RevokeProjectCredential (now : Z) (user project credential : string) (db : DB)
  : result error DB :=
  try p := project_by_id_for_user db user project in
  if negb (userCanManageWorkspace db user (pj_WorkspaceID p)) then Err ErrAgentForbidden
  else
    match credentials db !! credential with
    | Some c =>
        if (c_Project c =? project)%string && negb (is_some (c_RevokedAt c)) then
          Ok (record_audit (with_credentials db (<[credential := revoked now c]> (credentials db)))
                (pj_WorkspaceID p) user "credential.revoked" project)
        else Err (ENew "credential not found or already revoked")
    | None => Err (ENew "credential not found or already revoked")
    end.

Definition live_credentials (db : DB) (project : string) : list (string * CredentialRow) :=
  List.filter (fun e => (c_Project (snd e) =? project)%string && negb (is_some (c_RevokedAt (snd e))))
    (map_to_list (credentials db)).

Definition split_row (now : Z) (r : ProjectRow) : ProjectRow :=
  {| r_Workspace := r_Workspace r; r_APIKey := r_APIKey r; r_CreatedAt := r_CreatedAt r;
     r_SplitAt := Some now |}.

(** The count and the flag are one transaction under the same lock as a revocation. *)
Definition MarkProjectCredentialSplit (now : Z) (user project : string) (db : DB)
  : result error DB :=
  try p := project_by_id_for_user db user project in
  if negb (userCanManageWorkspace db user (pj_WorkspaceID p)) then Err ErrAgentForbidden
  else
    if (List.length (live_credentials db project) =? 0)%nat
    then Err (ENew "create a management credential before splitting: the project key becomes capture-only")
    else
      match projects db !! project with
      | Some r =>
          match r_SplitAt r with
          | None =>
              Ok (record_audit (with_projects db (<[project := split_row now r]> (projects db)))
                    (pj_WorkspaceID p) user "project.credential_split" project)
          | Some _ => Err (ENew "project is already split")
          end
      | None => Err (ENew "project is already split")
      end.

End Statements.

(** ** Workspaces, members, projects *)

(** [email] is unique. *)
Definition user_by_email (db : DB) (email : string) : option string :=
  option_map fst (find_first (fun e => (snd e =? email)%string) (map_to_list (users db))).

Definition valid_email (email : string) : bool :=
  negb (email =? "")%string && contains email "@".

Definition new_workspace (db : DB) (ws user : string) : DB :=
  {| users := users db; members := <[(ws, user) := "owner"]> (members db);
     workspaces := {[ws]} ∪ workspaces db; projects := projects db;
     credentials := credentials db; sessions := sessions db; audit := audit db;
     demo_workspace := demo_workspace db; demo_project := demo_project db |}.

Definition CreateWorkspace (user ws : string) (db : DB) : result error DB :=
  if bool_decide (ws ∈ workspaces db) || is_some (members db !! (ws, user))
  then Err (ENew "duplicate key value")
  else Ok (record_audit (new_workspace db ws user) ws user "workspace.created" ws).

(** [addDemoViewer]: [ON CONFLICT DO NOTHING]. *)
Definition addDemoViewer (user : string) (db : DB) : DB :=
  if (demo_workspace db =? "")%string then db
  else
    match members db !! (demo_workspace db, user) with
    | Some _ => db
    | None => with_members db (<[(demo_workspace db, user) := "member"]> (members db))
    end.

Definition new_project (now : Z) (ws key : string) : ProjectRow :=
  {| r_Workspace := ws; r_APIKey := key; r_CreatedAt := now; r_SplitAt := Some now |}.

Definition api_key_taken (db : DB) (key : string) : bool :=
  existsb (fun e => (r_APIKey (snd e) =? key)%string) (map_to_list (projects db)).

(** The account, its workspace, its membership and its project are one transaction;
    the demo membership and the audit entry follow. *)
Definition CreateAccount (now : Z) (email password : string) (user ws project key : string) (db : DB)
  : result error DB :=
  let email := to_lower (trim_space email) in
  if negb (valid_email email) then Err (ENew "email is required")
  else if (String.length password <? 8)%nat then Err (ENew "password must be at least 8 characters")
  else if is_some (users db !! user) || is_some (user_by_email db email)
          || bool_decide (ws ∈ workspaces db) || is_some (members db !! (ws, user))
          || is_some (projects db !! project) || api_key_taken db key
  then Err (ENew "duplicate key value")
  else
    let db1 := new_workspace db ws user in
    let db2 :=
      {| users := <[user := email]> (users db1); members := members db1; workspaces := workspaces db1;
         projects := <[project := new_project now ws key]> (projects db1);
         credentials := credentials db1; sessions := sessions db1; audit := audit db1;
         demo_workspace := demo_workspace db1; demo_project := demo_project db1 |} in
    Ok (record_audit (addDemoViewer user db2) ws user "workspace.created" ws).

Definition CreateWorkspaceProject (now : Z) (user ws project key : string) (db : DB)
  : result error DB :=
  if negb (userCanManageWorkspace db user ws) then Err ErrNoRows
  else if is_some (projects db !! project) || api_key_taken db key then Err (ENew "duplicate key value")
  else Ok (record_audit (with_projects db (<[project := new_project now ws key]> (projects db)))
             ws user "project.created" project).

Definition rekeyed (key : string) (r : ProjectRow) : ProjectRow :=
  {| r_Workspace := r_Workspace r; r_APIKey := key; r_CreatedAt := r_CreatedAt r;
     r_SplitAt := r_SplitAt r |}.

Definition RotateProjectAPIKeyForUser (user project key : string) (db : DB) : result error DB :=
  match projects db !! project with
  | None => Err ErrNoRows
  | Some r =>
      match membership_of db user r with
      | None => Err ErrNoRows
      | Some role =>
          if negb (is_manager role) then Err ErrNoRows
          else if api_key_taken db key then Err (ENew "duplicate key value")
          else Ok (record_audit (with_projects db (<[project := rekeyed key r]> (projects db)))
                     (r_Workspace r) user "project.key_rotated" project)
      end
  end.

(** An invitation of a registered address; an existing membership takes the new role. *)
Definition AddWorkspaceMemberByEmail (actor ws email role : string) (db : DB) : result error DB :=
  if negb (userCanManageWorkspace db actor ws) then Err ErrNoRows
  else
    let email := to_lower (trim_space email) in
    let role := normalizeWorkspaceRole role in
    if negb (valid_email email) then Err (ENew "email is required")
    else
      match user_by_email db email with
      | None => Err ErrNoRows
      | Some user =>
          Ok (record_audit (with_members db (<[(ws, user) := role]> (members db)))
                ws actor "member.upserted" user)
      end.

(** The update of a role: the checks, then the statement. *)
Definition role_check (actor ws member role : string) (db : DB) : result error unit :=
  if negb (userCanManageWorkspace db actor ws) then Err ErrNoRows
  else if negb (normalizeWorkspaceRole role =? "owner")%string then ensureNotLastOwner db ws member
  else Ok tt.

Definition role_write (actor ws member role : string) (db : DB) : result error DB :=
  match members db !! (ws, member), users db !! member with
  | Some _, Some _ =>
      Ok (record_audit
            (with_members db (<[(ws, member) := normalizeWorkspaceRole role]> (members db)))
            ws actor "member.role_updated" member)
  | _, _ => Err ErrNoRows
  end.

Definition UpdateWorkspaceMemberRole (actor ws member role : string) (db : DB) : result error DB :=
  try _u := role_check actor ws member role db in
  role_write actor ws member role db.

Definition remove_check (actor ws member : string) (db : DB) : result error unit :=
  if negb (userCanManageWorkspace db actor ws) then Err ErrNoRows
  else ensureNotLastOwner db ws member.

Definition remove_write (actor ws member : string) (db : DB) : result error DB :=
  match members db !! (ws, member) with
  | Some _ =>
      Ok (record_audit (with_members db (delete (ws, member) (members db)))
            ws actor "member.removed" member)
  | None => Err ErrNoRows
  end.

Definition RemoveWorkspaceMember (actor ws member : string) (db : DB) : result error DB :=
  try _u := remove_check actor ws member db in
  remove_write actor ws member db.

Definition WorkspaceRole (db : DB) (user ws : string) : result error string :=
  Ok (default "" (members db !! (ws, user))).

(** ** The interface of the resolvers *)

Definition store_of (hash : string -> string) (now : Z) (db : DB) : AuthStore := {|
  CredentialBySecret s := snd (credential_by_secret hash now db s);
  ProjectByAPIKey := project_by_api_key db;
  ProjectByID := project_by_id db;
  ProjectCredentialSplit := project_credential_split db;
  UserBySessionToken := user_by_session_token hash now db;
  ProjectByIDForUser := project_by_id_for_user db;
  DefaultProjectForUser := default_project_for_user db;
  WorkspaceRoleForUser := WorkspaceRole db;
  DemoWorkspaceID := demo_workspace db;
  DemoProjectID := demo_project db |}.

(** ** Steps *)

(** A committed operation, sequential: each with its checks and its statements. *)
Inductive acct_step (hash : string -> string) (db : DB) : DB -> Prop :=
| st_account now email pw u ws p k db' : CreateAccount now email pw u ws p k db = Ok db' -> acct_step hash db db'
| st_workspace u ws db' : CreateWorkspace u ws db = Ok db' -> acct_step hash db db'
| st_project now u ws p k db' : CreateWorkspaceProject now u ws p k db = Ok db' -> acct_step hash db db'
| st_rotate u p k db' : RotateProjectAPIKeyForUser u p k db = Ok db' -> acct_step hash db db'
| st_invite a ws e role db' : AddWorkspaceMemberByEmail a ws e role db = Ok db' -> acct_step hash db db'
| st_role a ws m role db' : UpdateWorkspaceMemberRole a ws m role db = Ok db' -> acct_step hash db db'
| st_remove a ws m db' : RemoveWorkspaceMember a ws m db = Ok db' -> acct_step hash db db'
| st_mint u p n sc i rnd db' s : CreateProjectCredential hash u p n sc i rnd db = Ok (db', s) -> acct_step hash db db'
| st_revoke now u p c db' : RevokeProjectCredential now u p c db = Ok db' -> acct_step hash db db'
| st_split now u p db' : MarkProjectCredentialSplit now u p db = Ok db' -> acct_step hash db db'
| st_use now s : acct_step hash db (fst (credential_by_secret hash now db s))
| st_session now ttl t u db' : CreateUserSession hash now ttl t u db = Ok db' -> acct_step hash db db'
| st_logout t : acct_step hash db (DeleteUserSession hash t db).

(** * Theorems *)

Ltac inv_ok H := unfold result_bind in H; repeat (case_match; simplify_eq/=).

(** ** What a step does to each table *)

Section Steps.
Context (hash : string -> string).

Abbreviation step := (acct_step hash).

(** The memberships after a step: as before, or with one entry written or deleted, by
    an operation that checked what it says here. *)
Inductive member_change (db : DB) : gmap (string * string) string -> Prop :=
| mc_same : member_change db (members db)
| mc_created ws u : ws ∉ workspaces db -> member_change db (<[(ws, u) := "owner"]> (members db))
| mc_created_demo ws u : ws ∉ workspaces db ->
    <[(ws, u) := "owner"]> (members db) !! (demo_workspace db, u) = None ->
    member_change db (<[(demo_workspace db, u) := "member"]> (<[(ws, u) := "owner"]> (members db)))
| mc_invited ws actor email role u :
    userCanManageWorkspace db actor ws = true -> user_by_email db email = Some u ->
    member_change db (<[(ws, u) := normalizeWorkspaceRole role]> (members db))
| mc_role ws actor m role :
    userCanManageWorkspace db actor ws = true ->
    (normalizeWorkspaceRole role = "owner" \/ ensureNotLastOwner db ws m = Ok tt) ->
    member_change db (<[(ws, m) := normalizeWorkspaceRole role]> (members db))
| mc_removed ws actor m :
    userCanManageWorkspace db actor ws = true -> ensureNotLastOwner db ws m = Ok tt ->
    member_change db (delete (ws, m) (members db)).

Lemma ensure_ok db ws m x : ensureNotLastOwner db ws m = Ok x -> ensureNotLastOwner db ws m = Ok tt.
Proof. by destruct x. Qed.

Lemma step_members db db' : step db db' -> member_change db (members db') /\ workspaces db ⊆ workspaces db'.
Proof.
  intros Hs; destruct Hs as
    [now email pw u ws p k db' Hop|u ws db' Hop|now u ws p k db' Hop|u p k db' Hop|a ws e role db' Hop
    |a ws m role db' Hop|a ws m db' Hop|u p n sc i rnd db' s Hop|now u p c db' Hop|now u p db' Hop|now s
    |now ttl t u db' Hop|t].
  - unfold CreateAccount in Hop. destruct (negb _); [done|]. destruct (_ <? _)%nat; [done|].
    destruct (_ || _) eqn:Hdup; [done|]. rewrite !orb_false_iff in Hdup.
    destruct Hdup as [[[[[_ _] Hws] _] _] _]. apply bool_decide_eq_false in Hws.
    injection Hop as <-. unfold addDemoViewer. cbn.
    destruct (demo_workspace db =? "")%string; cbn; [split; [by constructor|set_solver]|].
    destruct (_ !! _) eqn:Hm; cbn; (split; [by constructor|set_solver]).
  - unfold CreateWorkspace in Hop. destruct (_ || _) eqn:Hdup; [done|].
    apply orb_false_iff in Hdup as [Hws _]. apply bool_decide_eq_false in Hws.
    injection Hop as <-. cbn. split; [by constructor|set_solver].
  - unfold CreateWorkspaceProject in Hop. inv_ok Hop; by split; [exact (mc_same _)|].
  - unfold RotateProjectAPIKeyForUser in Hop. inv_ok Hop; by split; [exact (mc_same _)|].
  - unfold AddWorkspaceMemberByEmail in Hop. destruct (userCanManageWorkspace db a ws) eqn:Hc; [|done].
    cbn in Hop. destruct (negb _); [done|]. destruct (user_by_email db _) eqn:He; [|done].
    injection Hop as <-. split; [by econstructor|done].
  - unfold UpdateWorkspaceMemberRole, role_check, role_write in Hop.
    destruct (userCanManageWorkspace db a ws) eqn:Hc; [|done]. cbn in Hop.
    destruct (String.eqb_spec (normalizeWorkspaceRole role) "owner") as [Hr|Hr]; cbn in Hop.
    + inv_ok Hop. split; [|done]. eapply mc_role; [done|by left].
    + destruct (ensureNotLastOwner db ws m) as [[]|] eqn:He; [|done]. cbn in Hop.
      inv_ok Hop. split; [|done]. eapply mc_role; [done|by right].
  - unfold RemoveWorkspaceMember, remove_check, remove_write in Hop.
    destruct (userCanManageWorkspace db a ws) eqn:Hc; [|done]. cbn in Hop.
    destruct (ensureNotLastOwner db ws m) as [[]|] eqn:He; [|done]. cbn in Hop.
    destruct (members db !! (ws, m)); [|done]. injection Hop as <-. split; [by econstructor|done].
  - unfold CreateProjectCredential in Hop. inv_ok Hop; by split; [exact (mc_same _)|].
  - unfold RevokeProjectCredential in Hop. inv_ok Hop; by split; [exact (mc_same _)|].
  - unfold MarkProjectCredentialSplit in Hop. inv_ok Hop; by split; [exact (mc_same _)|].
  - unfold credential_by_secret. destruct (negb _); [by split; [exact (mc_same _)|]|].
    destruct (live_credential _ _) as [[i c]|]; by split; [exact (mc_same _)|].
  - unfold CreateUserSession in Hop. inv_ok Hop; by split; [exact (mc_same _)|].
  - unfold DeleteUserSession. destruct (_ =? _)%string; by split; [exact (mc_same _)|].
Qed.

(** ** Owners *)

Definition has_owner (db : DB) (ws : string) : Prop := exists u, members db !! (ws, u) = Some "owner".

Lemma in_owners db ws e : In e (owners db ws) <-> fst e = ws /\ members db !! e = Some "owner".
Proof.
  unfold owners. rewrite in_map_iff. split.
  - intros ([k role] & <- & Hin). apply filter_In in Hin as [Hin Hb].
    apply andb_true_iff in Hb as [Hw%String.eqb_eq Hr%String.eqb_eq]. simpl in *. subst.
    split; [done|]. by apply elem_of_map_to_list, list_elem_of_In.
  - intros [Hw Hm]. exists (e, "owner"). split; [done|]. apply filter_In. split.
    + by apply list_elem_of_In, elem_of_map_to_list.
    + simpl. by rewrite Hw, !String.eqb_refl.
Qed.

Lemma filter_fst_NoDup {A B} (p : A * B -> bool) (l : list (A * B)) :
  NoDup (map fst l) -> NoDup (map fst (List.filter p l)).
Proof.
  induction l as [|x l IH]; simpl; [done|]. intros [Hx Hl]%NoDup_cons.
  destruct (p x); simpl; [|by apply IH]. apply NoDup_cons. split; [|by apply IH].
  intros Hin. apply Hx. apply list_elem_of_In, in_map_iff in Hin as (y & Hy & Hin).
  apply filter_In in Hin as [Hin _]. rewrite <- Hy. by apply list_elem_of_In, in_map.
Qed.

Lemma owners_NoDup db ws : NoDup (owners db ws).
Proof.
  apply filter_fst_NoDup. exact (NoDup_fst_map_to_list (members db)).
Qed.

(** The check leaves an owner other than the member it is about. *)
Lemma another_owner db ws m :
  ensureNotLastOwner db ws m = Ok tt -> has_owner db ws ->
  exists u, u <> m /\ members db !! (ws, u) = Some "owner".
Proof.
  unfold ensureNotLastOwner. intros Hok [u Hu].
  destruct (decide (u = m)) as [->|Hne]; [|by exists u].
  rewrite Hu in Hok. simpl in Hok.
  assert (In (ws, m) (owners db ws)) as Hin by by apply in_owners.
  pose proof (owners_NoDup db ws) as Hnd.
  assert (forall e, In e (owners db ws) -> fst e = ws /\ members db !! e = Some "owner") as Hall
    by (intros e; apply in_owners).
  destruct (owners db ws) as [|[w1 u1] [|[w2 u2] l]]; [done|by destruct (_ <=? _)%nat eqn:E in Hok|].
  destruct (Hall (w1, u1)) as [Hw1 H1]; [by left|]. destruct (Hall (w2, u2)) as [Hw2 Hm2]; [by right; left|].
  simpl in *. subst w1 w2. destruct (decide (u1 = m)) as [->|Hne]; [|by exists u1].
  exists u2. split; [|done]. intros ->. apply NoDup_cons in Hnd as [Hn _]. apply Hn. by left.
Qed.

Lemma other_owner db ws k :
  (exists v, k <> (ws, v) /\ members db !! (ws, v) = Some "owner") \/
  (forall v, members db !! (ws, v) = Some "owner" -> k = (ws, v)).
Proof.
  destruct (List.filter (fun e => bool_decide (k <> e)) (owners db ws)) as [|[w v] l] eqn:Hf.
  - right. intros v Hv. destruct (decide (k = (ws, v))) as [|Hne]; [done|].
    assert (In (ws, v) []) as []. rewrite <- Hf. apply filter_In. split; [by apply in_owners|].
    by apply bool_decide_eq_true.
  - left. assert (In (w, v) (List.filter (fun e => bool_decide (k <> e)) (owners db ws))) as Hin
      by (rewrite Hf; by left).
    apply filter_In in Hin as [Hin Hk%bool_decide_eq_true]. apply in_owners in Hin as [Hw Hm].
    simpl in Hw. subst w. by exists v.
Qed.

(** Only an invitation takes the last owner: whatever the operation, a workspace with an
    owner has one afterwards, unless the operation invited the address of its only owner
    under another role. *)
Theorem owner_lost_by_invitation_only db db' ws :
  has_owner db ws -> step db db' ->
  has_owner db' ws \/
  exists actor email role u,
    userCanManageWorkspace db actor ws = true /\
    user_by_email db email = Some u /\
    (forall v, members db !! (ws, v) = Some "owner" <-> v = u) /\
    members db' !! (ws, u) = Some (normalizeWorkspaceRole role) /\
    normalizeWorkspaceRole role <> "owner".
Proof.
  intros Hown Hstep. apply step_members in Hstep as [Hch _].
  remember (members db') as ms eqn:Hms. destruct Hch as
    [|w u Hw|w u Hw Hd|w actor email role u Hc He|w actor m role Hc Hr|w actor m Hc He].
  - left. destruct Hown as [u Hu]. exists u. by rewrite <- Hms.
  - left. destruct Hown as [v Hv]. exists v. rewrite <- Hms.
    destruct (decide ((w, u) = (ws, v))) as [->|]; [by rewrite lookup_insert_eq|by rewrite lookup_insert_ne].
  - left. destruct Hown as [v Hv]. exists v. rewrite <- Hms.
    assert (<[(w, u) := "owner"]> (members db) !! (ws, v) = Some "owner") as Hv'
      by (destruct (decide ((w, u) = (ws, v))) as [->|]; [by rewrite lookup_insert_eq|by rewrite lookup_insert_ne]).
    rewrite lookup_insert_ne; [done|]. intros Heq. rewrite Heq in Hd. congruence.
  - destruct (other_owner db ws (w, u)) as [(v & Hne & Hv)|Hno].
    { left. exists v. rewrite <- Hms. by rewrite lookup_insert_ne. }
    destruct Hown as [v Hv]. pose proof (Hno v Hv) as [= -> ->].
    destruct (decide (normalizeWorkspaceRole role = "owner")) as [Hr|Hr].
    { left. exists v. rewrite <- Hms. by rewrite lookup_insert_eq, Hr. }
    right. exists actor, email, role, v. split_and!; [done|done| |by rewrite lookup_insert_eq|done].
    intros x. split; [|by intros ->]. intros Hx. by pose proof (Hno x Hx) as [= ->].
  - left. destruct (decide (w = ws)) as [->|Hww].
    + destruct Hr as [Hr|He].
      * exists m. rewrite <- Hms. by rewrite lookup_insert_eq, Hr.
      * destruct (another_owner db ws m He Hown) as (v & Hne & Hv). exists v. rewrite <- Hms.
        rewrite lookup_insert_ne; [done|congruence].
    + destruct Hown as [v Hv]. exists v. rewrite <- Hms. rewrite lookup_insert_ne; [done|congruence].
  - left. destruct (decide (w = ws)) as [->|Hww].
    + destruct (another_owner db ws m He Hown) as (v & Hne & Hv). exists v. rewrite <- Hms.
      rewrite lookup_delete_ne; [done|congruence].
    + destruct Hown as [v Hv]. exists v. rewrite <- Hms. rewrite lookup_delete_ne; [done|congruence].
Qed.

Definition unmanaged (db : DB) (ws : string) : Prop := forall u, userCanManageWorkspace db u ws = false.

Lemma manage_lookup db db' u ws :
  members db' !! (ws, u) = members db !! (ws, u) ->
  userCanManageWorkspace db' u ws = userCanManageWorkspace db u ws.
Proof. unfold userCanManageWorkspace. by intros ->. Qed.

(** Nobody in the program can give a workspace without an administrator a new one. *)
Lemma unmanaged_forever db db' ws :
  ws ∈ workspaces db -> unmanaged db ws -> rtc step db db' -> unmanaged db' ws.
Proof.
  intros Hws Hun Hsteps. induction Hsteps as [|db db1 db' Hstep _ IH]; [done|].
  apply step_members in Hstep as [Hch Hsub]. apply IH; [set_solver|]. intros u.
  unfold userCanManageWorkspace. remember (members db1) as ms eqn:Hms. clear Hms IH Hsub.
  assert (forall x role, members db !! (ws, x) = Some role -> is_manager role = false) as Hno.
  { intros x role Hx. specialize (Hun x). unfold userCanManageWorkspace in Hun. by rewrite Hx in Hun. }
  destruct Hch as [|w v Hw|w v Hw Hd|w actor email role v Hc He|w actor m role Hc Hr|w actor m Hc He].
  - apply Hun.
  - rewrite lookup_insert_ne by (intros [= -> ->]; done). apply Hun.
  - destruct (decide ((demo_workspace db, v) = (ws, u))) as [->|Hne]; [by rewrite lookup_insert_eq|].
    rewrite lookup_insert_ne by done. rewrite lookup_insert_ne by (intros [= -> ->]; done). apply Hun.
  - rewrite lookup_insert_ne by (intros [= -> ->]; by rewrite Hun in Hc). apply Hun.
  - rewrite lookup_insert_ne by (intros [= -> ->]; by rewrite Hun in Hc). apply Hun.
  - rewrite lookup_delete_ne by (intros [= -> ->]; by rewrite Hun in Hc). apply Hun.
Qed.

(** An owner who is the only administrator of a workspace and invites her own address as
    a member is not stopped by the rule that a workspace keeps an owner: the workspace is
    left without an administrator, and stays so whatever is done afterwards. *)
Theorem invitation_can_orphan_workspace db ws owner email role db' :
  ws ∈ workspaces db ->
  (forall u, userCanManageWorkspace db u ws = true <-> u = owner) ->
  user_by_email db (to_lower (trim_space email)) = Some owner ->
  normalizeWorkspaceRole role = "member" ->
  AddWorkspaceMemberByEmail owner ws email role db = Ok db' ->
  forall db'', rtc step db' db'' -> unmanaged db'' ws.
Proof.
  intros Hws Honly He Hr Hadd db'' Hsteps. unfold AddWorkspaceMemberByEmail in Hadd.
  rewrite (proj2 (Honly owner) eq_refl), He, Hr in Hadd. cbn in Hadd.
  destruct (negb _); [done|]. injection Hadd as <-.
  refine (unmanaged_forever _ db'' ws _ _ Hsteps); [done|]. intros u. unfold userCanManageWorkspace. cbn.
  destruct (decide (u = owner)) as [->|Hne]; [by rewrite lookup_insert_eq|].
  rewrite lookup_insert_ne by congruence.
  destruct (userCanManageWorkspace db u ws) eqn:Hc; [by apply Honly in Hc|exact Hc].
Qed.

(** The check and the statement are separate: two removals that both checked first leave
    no owner. *)
Lemma two_checked_removals db ws a b :
  a <> b -> members db !! (ws, a) = Some "owner" -> members db !! (ws, b) = Some "owner" ->
  (forall u, members db !! (ws, u) = Some "owner" -> u = a \/ u = b) ->
  remove_check a ws b db = Ok tt /\ remove_check b ws a db = Ok tt /\
  exists db1 db2, remove_write a ws b db = Ok db1 /\ remove_write b ws a db1 = Ok db2 /\ ~ has_owner db2 ws.
Proof.
  intros Hne Ha Hb Hall.
  assert (forall m, ensureNotLastOwner db ws m = Ok tt) as Hens.
  { intros m. unfold ensureNotLastOwner.
    assert (In (ws, a) (owners db ws)) as Hia by by apply in_owners.
    assert (In (ws, b) (owners db ws)) as Hib by by apply in_owners.
    destruct (owners db ws) as [|x [|y l]]; [done| |by rewrite andb_false_r].
    exfalso. destruct Hia as [->|[]], Hib as [Heq|[]]. congruence. }
  unfold remove_check, remove_write, userCanManageWorkspace. rewrite Ha, Hb, !Hens.
  split_and!; [done|done|]. do 2 eexists. split; [done|]. cbn.
  rewrite lookup_delete_ne, Ha by congruence. split; [done|]. intros [u Hu]. cbn in Hu.
  apply lookup_delete_Some in Hu as [Hua Hu]. apply lookup_delete_Some in Hu as [Hub Hu].
  destruct (Hall u Hu) as [-> | ->]; congruence.
Qed.

(** ** Projects and credentials over time *)

(** Rows a step leaves: a project keeps its workspace and its split, a credential its
    project, digest, scopes and revocation; a new credential has a digest of its own,
    known scopes and a project. *)
Definition project_kept (r r' : ProjectRow) : Prop :=
  r_Workspace r' = r_Workspace r /\ (is_some (r_SplitAt r) = true -> is_some (r_SplitAt r') = true).

Definition credential_kept (c c' : CredentialRow) : Prop :=
  c_Project c' = c_Project c /\ c_Hash c' = c_Hash c /\ c_Scopes c' = c_Scopes c /\
  (is_some (c_RevokedAt c) = true -> is_some (c_RevokedAt c') = true).

Definition new_credential (db : DB) (c : CredentialRow) : Prop :=
  (forall j c', credentials db !! j = Some c' -> c_Hash c' <> c_Hash c) /\
  (forall s, In s (c_Scopes c) -> In s ManagementScopes) /\
  is_some (projects db !! c_Project c) = true.

Record rows_kept (db db' : DB) : Prop := {
  keep_projects i r : projects db !! i = Some r -> exists r', projects db' !! i = Some r' /\ project_kept r r';
  keep_credentials i c : credentials db !! i = Some c -> exists c', credentials db' !! i = Some c' /\ credential_kept c c';
  old_or_new i c' : credentials db' !! i = Some c' ->
    (exists c, credentials db !! i = Some c /\ credential_kept c c') \/
    credentials db !! i = None /\ new_credential db c';
  one_new i j ci cj : credentials db !! i = None -> credentials db !! j = None ->
    credentials db' !! i = Some ci -> credentials db' !! j = Some cj -> i = j }.

#[export] Instance project_kept_refl : Reflexive project_kept.
Proof. by intros r. Qed.

#[export] Instance credential_kept_refl : Reflexive credential_kept.
Proof. by intros c. Qed.

Lemma kept_same db db' :
  projects db' = projects db -> credentials db' = credentials db -> rows_kept db db'.
Proof.
  intros Hp Hc. split; rewrite ?Hp, ?Hc; intros;
    [by eexists|by eexists|left; by eexists|congruence].
Qed.

Lemma kept_project db db' i f :
  credentials db' = credentials db ->
  (forall r, projects db !! i = Some r -> project_kept r f) ->
  projects db' = <[i := f]> (projects db) -> rows_kept db db'.
Proof.
  intros Hc Hf Hp. split; rewrite ?Hp, ?Hc.
  - intros j r Hj. destruct (decide (i = j)) as [->|Hne].
    + rewrite lookup_insert_eq. eexists. split; [done|]. by apply Hf.
    + rewrite lookup_insert_ne by done. by eexists.
  - intros j c Hj. by eexists.
  - intros j c Hj. left. by eexists.
  - congruence.
Qed.

Lemma kept_credential db db' i c' :
  projects db' = projects db ->
  ((exists c, credentials db !! i = Some c /\ credential_kept c c') \/
   credentials db !! i = None /\ new_credential db c') ->
  credentials db' = <[i := c']> (credentials db) -> rows_kept db db'.
Proof.
  intros Hp Hi Hc. split; rewrite ?Hp, ?Hc.
  - intros j r Hj. by eexists.
  - intros j c Hj. destruct (decide (i = j)) as [->|Hne].
    + rewrite lookup_insert_eq. destruct Hi as [(c0 & H0' & Hk)|[Hn _]]; [|congruence].
      eexists. split; [done|]. by simplify_eq.
    + rewrite lookup_insert_ne by done. by eexists.
  - intros j c Hj. destruct (decide (i = j)) as [->|Hne].
    + rewrite lookup_insert_eq in Hj. by simplify_eq.
    + rewrite lookup_insert_ne in Hj by done. left. by eexists.
  - intros j k cj ck Hj Hk Hj' Hk'.
    destruct (decide (i = j)) as [<-|Hne]; [|by rewrite lookup_insert_ne in Hj'; congruence].
    destruct (decide (i = k)) as [|Hne]; [done|by rewrite lookup_insert_ne in Hk'; congruence].
Qed.

Lemma normalize_known scopes l : normalize_scopes scopes = Ok l -> forall s, In s l -> In s ManagementScopes.
Proof.
  revert l. induction scopes as [|sc rest IH]; intros l; [by intros [= <-]|]. cbn [normalize_scopes].
  destruct (existsb (String.eqb (to_lower (trim_space sc))) ManagementScopes) eqn:Hk; [|done].
  cbn [negb result_bind].
  destruct (normalize_scopes rest) as [l'|]; [|done]. intros [= <-] s [<-|Hin]; [|by eapply IH].
  by apply existsb_exists in Hk as (x & Hx & ->%String.eqb_eq).
Qed.

Lemma for_user_row db u i p :
  project_by_id_for_user db u i = Ok p ->
  exists r role, projects db !! i = Some r /\ membership_of db u r = Some role /\
    p = redactAPIKeyForRole (row_project db i r role).
Proof.
  unfold project_by_id_for_user. destruct (projects db !! i) as [r|]; [|done].
  destruct (membership_of db u r) as [role|] eqn:Hm; [|done]. intros [= <-]. by exists r, role.
Qed.

Lemma live_elem db h i c :
  live_credential db h = Some (i, c) ->
  credentials db !! i = Some c /\ c_Hash c = h /\ c_RevokedAt c = None.
Proof.
  intros Hf. apply find_first_Some in Hf as [Hin Hb]. apply andb_true_iff in Hb as [Hh Hr].
  apply String.eqb_eq in Hh. simpl in *. apply elem_of_map_to_list in Hin.
  split_and!; [done|done|by destruct (c_RevokedAt c)].
Qed.

Lemma step_rows db db' : step db db' -> rows_kept db db'.
Proof.
  intros Hs; destruct Hs as
    [now email pw u ws p k db' Hop|u ws db' Hop|now u ws p k db' Hop|u p k db' Hop|a ws e role db' Hop
    |a ws m role db' Hop|a ws m db' Hop|u p n sc i rnd db' s Hop|now u p c db' Hop|now u p db' Hop|now s
    |now ttl t u db' Hop|t].
  - unfold CreateAccount in Hop. destruct (negb _); [done|]. destruct (_ <? _)%nat; [done|].
    destruct (_ || _) eqn:Hdup; [done|]. rewrite !orb_false_iff in Hdup.
    destruct Hdup as [[[[[_ _] _] _] Hp] _]. injection Hop as <-.
    apply (kept_project db _ p (new_project now ws k)).
    + unfold addDemoViewer. by repeat case_match.
    + intros r Hr. by rewrite Hr in Hp.
    + unfold addDemoViewer. by repeat case_match.
  - unfold CreateWorkspace in Hop. inv_ok Hop. by apply kept_same.
  - unfold CreateWorkspaceProject in Hop. destruct (negb _); [done|].
    destruct (_ || _) eqn:Hdup; [done|]. apply orb_false_iff in Hdup as [Hp _]. injection Hop as <-.
    apply (kept_project db _ p (new_project now ws k)); [done| |done]. intros r Hr. by rewrite Hr in Hp.
  - unfold RotateProjectAPIKeyForUser in Hop. destruct (projects db !! p) as [r|] eqn:Hr; [|done].
    destruct (membership_of db u r); [|done]. destruct (negb _); [done|].
    destruct (api_key_taken db k); [done|]. injection Hop as <-.
    apply (kept_project db _ p (rekeyed k r)); [done| |done]. intros r' Hr'. by simplify_eq.
  - unfold AddWorkspaceMemberByEmail in Hop. inv_ok Hop; by apply kept_same.
  - unfold UpdateWorkspaceMemberRole, role_write in Hop. destruct (role_check _ _ _ _ _); [|done].
    inv_ok Hop; by apply kept_same.
  - unfold RemoveWorkspaceMember, remove_write in Hop. destruct (remove_check _ _ _ _); [|done].
    inv_ok Hop; by apply kept_same.
  - unfold CreateProjectCredential in Hop.
    destruct (project_by_id_for_user db u p) as [pj|] eqn:Hpj; [|done]. cbn [result_bind] in Hop.
    apply for_user_row in Hpj as (r & role & Hr & _).
    destruct (negb _); [done|]. destruct (trim_space n =? "")%string; [done|].
    destruct sc as [|sc0 sc]; [done|]. destruct (normalize_scopes (sc0 :: sc)) as [l|] eqn:Hn; [|done].
    cbn [result_bind] in Hop. destruct (is_some _ || _) eqn:Hdup; [done|]. apply orb_false_iff in Hdup as [Hi Hh].
    injection Hop as <- _. eapply (kept_credential db _ i); [done| |done]. right.
    split; [by destruct (credentials db !! i)|]. split_and!.
    + intros j c' Hj Heq. rewrite existsb_False in Hh. apply elem_of_map_to_list in Hj.
      specialize (Hh (j, c') Hj). by apply String.eqb_neq in Hh.
    + by eapply normalize_known.
    + cbn. by rewrite Hr.
  - unfold RevokeProjectCredential in Hop.
    destruct (project_by_id_for_user db u p) as [pj|]; [|done]. cbn [result_bind] in Hop.
    destruct (negb _); [done|]. destruct (credentials db !! c) as [row|] eqn:Hc; [|done].
    destruct (_ && _); [|done]. injection Hop as <-.
    eapply (kept_credential db _ c); [done| |done]. left. by exists row.
  - unfold MarkProjectCredentialSplit in Hop.
    destruct (project_by_id_for_user db u p) as [pj|]; [|done]. cbn [result_bind] in Hop.
    destruct (negb _); [done|]. destruct (_ =? _)%nat; [done|].
    destruct (projects db !! p) as [r|] eqn:Hr; [|done]. destruct (r_SplitAt r); [done|].
    injection Hop as <-. apply (kept_project db _ p (split_row now r)); [done| |done].
    intros r' Hr'. by simplify_eq.
  - unfold credential_by_secret. destruct (negb _); [by apply kept_same|].
    destruct (live_credential db (hash s)) as [[i c]|] eqn:Hl; [|by apply kept_same].
    apply live_elem in Hl as (Hc & _). eapply (kept_credential db _ i); [done| |done]. left. by exists c.
  - unfold CreateUserSession in Hop. inv_ok Hop. by apply kept_same.
  - unfold DeleteUserSession. by destruct (_ =? _)%string; apply kept_same.
Qed.

(** The constraints of the credentials table: [key_hash] unique, scopes from the closed
    set, a project that exists. *)
Definition credentials_ok (db : DB) : Prop :=
  (forall i j ci cj, credentials db !! i = Some ci -> credentials db !! j = Some cj ->
     c_Hash ci = c_Hash cj -> i = j) /\
  (forall i c, credentials db !! i = Some c ->
     (forall s, In s (c_Scopes c) -> In s ManagementScopes) /\
     is_some (projects db !! c_Project c) = true).

Lemma credentials_ok_step db db' : credentials_ok db -> step db db' -> credentials_ok db'.
Proof.
  intros [Huniq Hrow] Hstep. apply step_rows in Hstep as [Hp Hc Hold Hone]. split.
  - intros i j ci cj Hi Hj Heq.
    destruct (Hold i ci Hi) as [(ci0 & Hi0 & _ & Hhi & _)|[Hni (Hnew & _)]];
      destruct (Hold j cj Hj) as [(cj0 & Hj0 & _ & Hhj & _)|[Hnj (Hnew' & _)]].
    + eapply Huniq; [done|done|congruence].
    + destruct (Hnew' i ci0 Hi0). congruence.
    + destruct (Hnew j cj0 Hj0). congruence.
    + by eapply Hone.
  - intros i c Hi.
    assert (forall k, is_some (projects db !! k) = true -> is_some (projects db' !! k) = true) as Hmono.
    { intros k Hk. destruct (projects db !! k) as [r|] eqn:Hr; [|done].
      destruct (Hp k r Hr) as (r' & Hr' & _). by rewrite Hr'. }
    destruct (Hold i c Hi) as [(c0 & H0' & Hpj & _ & Hsc & _)|[_ (_ & Hsc & Hpj)]].
    + rewrite Hpj, Hsc. destruct (Hrow i c0 H0') as [Hs Hpr]. split; [done|by apply Hmono].
    + split; [done|by apply Hmono].
Qed.

Lemma credentials_ok_steps db db' : credentials_ok db -> rtc step db db' -> credentials_ok db'.
Proof. intros Hok Hs. induction Hs; [done|]. eauto using credentials_ok_step. Qed.

Lemma credential_kept_steps db db' i c :
  rtc step db db' -> credentials db !! i = Some c ->
  exists c', credentials db' !! i = Some c' /\ credential_kept c c'.
Proof.
  intros Hs. revert c. induction Hs as [|db db1 db' Hstep _ IH]; intros c Hc; [by exists c|].
  apply step_rows in Hstep. destruct (keep_credentials _ _ Hstep i c Hc) as (c1 & Hc1 & Hp1 & Hh1 & Hs1 & Hr1).
  destruct (IH c1 Hc1) as (c2 & Hc2 & Hp2 & Hh2 & Hs2 & Hr2). exists c2. split; [done|].
  unfold credential_kept. rewrite Hp2, Hh2, Hs2. split_and!; [done|done|done|]. intros Hr. by apply Hr2, Hr1.
Qed.

Lemma project_kept_steps db db' i r :
  rtc step db db' -> projects db !! i = Some r ->
  exists r', projects db' !! i = Some r' /\ project_kept r r'.
Proof.
  intros Hs. revert r. induction Hs as [|db db1 db' Hstep _ IH]; intros r Hr; [by exists r|].
  apply step_rows in Hstep. destruct (keep_projects _ _ Hstep i r Hr) as (r1 & Hr1 & Hw1 & Hsp1).
  destruct (IH r1 Hr1) as (r2 & Hr2 & Hw2 & Hsp2). exists r2. split; [done|].
  split; [congruence|by auto].
Qed.

(** With unique digests, a secret resolves by its own row. *)
Lemma resolve_row db i c now secret :
  credentials_ok db -> credentials db !! i = Some c -> c_Hash c = hash secret ->
  has_prefix secret "agm_" = true ->
  snd (credential_by_secret hash now db secret) =
  if is_some (c_RevokedAt c) then Err ErrNoRows
  else Ok {| rc_CredentialID := i; rc_ProjectID := c_Project c; rc_Scopes := c_Scopes c |}.
Proof.
  intros [Huniq _] Hc Hh Hpre. unfold credential_by_secret. rewrite Hpre. cbn [negb].
  destruct (live_credential db (hash secret)) as [[j c']|] eqn:Hl.
  - apply live_elem in Hl as (Hj & Hh' & Hr). assert (i = j) as <- by (eapply Huniq; eauto; congruence).
    simplify_eq. by rewrite Hr.
  - destruct (is_some (c_RevokedAt c)) eqn:Hr; [done|]. unfold live_credential in Hl.
    pose proof (proj1 (find_first_None _ _) Hl (i, c)) as Hno. cbn in Hno.
    rewrite Hh, String.eqb_refl, Hr in Hno. exfalso.
    assert ((true && negb false) = false) as Hf by (apply Hno; by apply elem_of_map_to_list). done.
Qed.

(** C40: The life of a minted secret.  Whatever the operations after it was minted, it
    resolves to its project with its scopes, all of them from the closed vocabulary,
    until its row is revoked; and from a revocation on it resolves to nothing, whatever
    follows. *)
Theorem minted_secret_lifecycle user project name scopes id random db db1 secret db2 now :
  credentials_ok db ->
  CreateProjectCredential hash user project name scopes id random db = Ok (db1, secret) ->
  rtc step db1 db2 ->
  exists c normalized,
    credentials db2 !! id = Some c /\ normalize_scopes scopes = Ok normalized /\
    (forall s, In s normalized -> In s ManagementScopes) /\
    snd (credential_by_secret hash now db2 secret) =
      (if is_some (c_RevokedAt c) then Err ErrNoRows
       else Ok {| rc_CredentialID := id; rc_ProjectID := project; rc_Scopes := normalized |}) /\
    (is_some (c_RevokedAt c) = true -> forall db3 now', rtc step db2 db3 ->
       snd (credential_by_secret hash now' db3 secret) = Err ErrNoRows).
Proof.
  intros Hok Hmint Hsteps.
  assert (credentials_ok db1) as Hok1 by (eapply credentials_ok_step; [done|by eapply st_mint]).
  pose proof (credentials_ok_steps _ _ Hok1 Hsteps) as Hok2.
  unfold CreateProjectCredential in Hmint.
  destruct (project_by_id_for_user db user project) as [pj|]; [|done]. cbn [result_bind] in Hmint.
  destruct (negb _); [done|]. destruct (trim_space name =? "")%string; [done|].
  destruct scopes as [|sc0 sc]; [done|]. destruct (normalize_scopes (sc0 :: sc)) as [l|] eqn:Hn; [|done].
  cbn [result_bind] in Hmint. destruct (is_some _ || _); [done|]. injection Hmint as <- <-.
  match type of Hsteps with rtc _ ?d _ => set (d1 := d) in * end.
  assert (exists c1, credentials d1 !! id = Some c1 /\ c_Project c1 = project /\
            c_Hash c1 = hash ("agm_" ++ random)%string /\ c_Scopes c1 = l) as (c1 & Hc1 & Hp1 & Hh1 & Hs1).
  { eexists. split; [apply lookup_insert_eq|done]. }
  destruct (credential_kept_steps _ _ _ _ Hsteps Hc1) as (c2 & Hc2 & Hp2 & Hh2 & Hs2 & _).
  exists c2, l. split_and!; [done|done|by eapply normalize_known| |].
  - rewrite (resolve_row db2 id c2 now); [by rewrite Hp2, Hs2, Hp1, Hs1|done|done|congruence|].
    unfold has_prefix. cbn. by destruct random.
  - intros Hrev db3 now' Hsteps'. destruct (credential_kept_steps _ _ _ _ Hsteps' Hc2) as (c3 & Hc3 & Hp3 & Hh3 & Hs3 & Hr3).
    rewrite (resolve_row db3 id c3 now'); [by rewrite Hr3|by eapply credentials_ok_steps|done|congruence|].
    unfold has_prefix. cbn. by destruct random.
Qed.

(** The split is for good: once a project is split, no later state of the tables, a new
    project key included, resolves a request to a legacy principal of it. *)
Theorem split_project_has_no_legacy_key db db' i r now q p :
  projects db !! i = Some r -> r_SplitAt r <> None -> rtc step db db' ->
  @principalFromRequest (store_of hash now db') q = Ok p -> p_ProjectID p = i ->
  p_Kind p <> CredLegacy.
Proof.
  intros Hr Hsplit Hsteps Hp Hi. destruct (project_kept_steps _ _ _ _ Hsteps Hr) as (r' & Hr' & _ & Hs').
  assert (is_some (r_SplitAt r') = true) as Hs by (apply Hs'; by destruct (r_SplitAt r)).
  unfold principalFromRequest in Hp. destruct (bearerToken q) as [tok|].
  { destruct (CredentialBySecret tok); by simplify_eq. }
  destruct (negb (api_key_of q =? "")%string).
  - destruct (ProjectByAPIKey _) as [pj|]; [|done]. cbn in Hp. unfold project_credential_split in Hp.
    destruct (projects db' !! pj_ID pj) as [r2|] eqn:Hr2; [|done].
    assert (pj_ID pj = i) as Hid by by simplify_eq. rewrite Hid in Hr2. simplify_eq. by rewrite Hs.
  - destruct (authFromRequest q) as [user|]; [|done]. cbn [result_bind] in Hp.
    destruct (session_project q user); [|done]. cbn [result_bind] in Hp. by simplify_eq.
Qed.

(** ** The tables implement the store *)

Lemma redact_id p : pj_ID (redactAPIKeyForRole p) = pj_ID p.
Proof. unfold redactAPIKeyForRole. by repeat case_match. Qed.

Lemma redact_demo p : pj_IsDemo (redactAPIKeyForRole p) = pj_IsDemo p.
Proof. unfold redactAPIKeyForRole. by repeat case_match. Qed.

Lemma redact_workspace p : pj_WorkspaceID (redactAPIKeyForRole p) = pj_WorkspaceID p.
Proof. unfold redactAPIKeyForRole. by repeat case_match. Qed.

(** What the resolvers assume of the store, the tables provide, in every state the
    operations reach from tables that satisfy their constraints. *)
Theorem tables_implement_store db db' now :
  credentials_ok db -> rtc step db db' -> @AuthStoreLaws (store_of hash now db').
Proof.
  intros Hok Hsteps. pose proof (credentials_ok_steps _ _ Hok Hsteps) as [_ Hrow]. split; cbn.
  - done.
  - intros s c Hc. unfold credential_by_secret in Hc. destruct (negb _); [done|].
    destruct (live_credential db' (hash s)) as [[j row]|] eqn:Hl; [|done].
    apply live_elem in Hl as (Hj & _). destruct (Hrow j row Hj) as [_ Hpr]. simpl in Hc. simplify_eq.
    simpl. unfold project_by_id. destruct (projects db' !! c_Project row); [by eexists|done].
  - intros i p. unfold project_by_id. destruct (projects db' !! i); intros; by simplify_eq.
  - intros u i p (r & role & _ & _ & ->)%for_user_row. by rewrite redact_id.
  - intros u i p (r & role & _ & _ & ->)%for_user_row. by rewrite redact_demo, redact_workspace.
  - intros u p. unfold default_project_for_user.
    destruct (first_row db' (user_rows db' u)) as [[i r]|]; [|done]. intros [= <-].
    by rewrite redact_demo, redact_workspace.
Qed.

(** A user's default project is one of her own workspaces' when she has one: the demo
    comes last. *)
Lemma first_row_in db rows a : first_row db rows = Some a -> In a rows.
Proof.
  revert a. induction rows as [|x rest IH]; intros a; simpl; [done|].
  destruct (first_row db rest) as [b|]; [|intros [= <-]; by left].
  destruct (before db x b); intros [= <-]; [by left|right; by apply IH].
Qed.

Lemma first_row_prefers db rows a x :
  first_row db rows = Some a -> In x rows ->
  r_Workspace (snd x) <> demo_workspace db -> r_Workspace (snd a) <> demo_workspace db.
Proof.
  revert a. induction rows as [|y rest IH]; intros a; simpl; [done|].
  destruct (first_row db rest) as [b|] eqn:Hb.
  - intros Ha [->|Hin] Hx.
    + destruct (before db x b) eqn:Hbef; simplify_eq; [done|].
      unfold before in Hbef. apply String.eqb_neq in Hx. rewrite Hx in Hbef.
      destruct (String.eqb_spec (r_Workspace (snd a)) (demo_workspace db)); [|done]. done.
    + specialize (IH b eq_refl Hin Hx). destruct (before db y b) eqn:Hbef; simplify_eq; [|done].
      unfold before in Hbef. apply String.eqb_neq in IH. rewrite IH in Hbef.
      destruct (String.eqb_spec (r_Workspace (snd a)) (demo_workspace db)); [|done]. done.
  - intros Ha [->|Hin] Hx; simplify_eq; [done|]. destruct rest as [|z rest]; [done|].
    simpl in Hb. destruct (first_row db rest) as [b|]; [by destruct (before db z b)|done].
Qed.

End Steps.

(** * Witnesses *)

Definition id_hash (s : string) : string := s.

(** Ann owns the workspace, Bob is a member of it; its one project is not split. *)
Definition wit_db : DB :=
  {| users := {["ann" := "ann@x.io"; "bob" := "bob@x.io"]};
     members := {[("ws", "ann") := "owner"; ("ws", "bob") := "member"]};
     workspaces := {["ws"]};
     projects := {["A" := {| r_Workspace := "ws"; r_APIKey := "k"; r_CreatedAt := 1; r_SplitAt := None |}]};
     credentials := ∅; sessions := ∅; audit := []; demo_workspace := ""; demo_project := "" |}.

Lemma wit_db_ok : credentials_ok wit_db.
Proof. split; intros i; [intros j ci cj Hi|intros c Hi]; cbn in Hi; by rewrite lookup_empty in Hi. Qed.

Definition ok_or_wit (r : result error DB) : DB := match r with Ok db => db | Err _ => wit_db end.

(** Ann promotes Bob: the workspace keeps an owner. *)
Lemma owner_lost_by_invitation_only_witness :
  has_owner (ok_or_wit (UpdateWorkspaceMemberRole "ann" "ws" "bob" "owner" wit_db)) "ws" \/
  exists actor email role u,
    userCanManageWorkspace wit_db actor "ws" = true /\ user_by_email wit_db email = Some u /\
    (forall v, members wit_db !! ("ws", v) = Some "owner" <-> v = u) /\
    members (ok_or_wit (UpdateWorkspaceMemberRole "ann" "ws" "bob" "owner" wit_db)) !! ("ws", u)
      = Some (normalizeWorkspaceRole role) /\
    normalizeWorkspaceRole role <> "owner".
Proof.
  apply (owner_lost_by_invitation_only id_hash wit_db).
  - exists "ann". by vm_compute.
  - apply (st_role id_hash wit_db "ann" "ws" "bob" "owner"). reflexivity.
Defined.

(** Ann invites herself as a member. *)
Lemma invitation_can_orphan_workspace_witness :
  unmanaged (ok_or_wit (AddWorkspaceMemberByEmail "ann" "ws" " Ann@x.io" "member" wit_db)) "ws".
Proof.
  refine (invitation_can_orphan_workspace id_hash wit_db "ws" "ann" " Ann@x.io" "member" _ _ _ _ _ _ _ _).
  - cbn. set_solver.
  - intros u. unfold userCanManageWorkspace. cbn. split; [|by intros ->].
    intros Hm. destruct (decide (u = "ann")) as [|Hna]; [done|].
    rewrite lookup_insert_ne in Hm by congruence.
    destruct (decide (u = "bob")) as [->|Hnb]; [by vm_compute in Hm|].
    by rewrite lookup_singleton_ne in Hm by congruence.
  - reflexivity.
  - reflexivity.
  - reflexivity.
  - apply rtc_refl.
Defined.

Definition wit_mint : result error (DB * string) :=
  CreateProjectCredential id_hash "ann" "A" "ci" [" Analytics:Read "] "c1" "s3cr3t" wit_db.

Definition wit_minted : DB := match wit_mint with Ok (db, _) => db | Err _ => wit_db end.

Lemma minted_secret_lifecycle_witness :
  exists c normalized,
    credentials wit_minted !! "c1" = Some c /\ normalize_scopes [" Analytics:Read "] = Ok normalized /\
    snd (credential_by_secret id_hash 7 wit_minted "agm_s3cr3t") =
      (if is_some (c_RevokedAt c) then Err ErrNoRows
       else Ok {| rc_CredentialID := "c1"; rc_ProjectID := "A"; rc_Scopes := normalized |}).
Proof.
  destruct (minted_secret_lifecycle id_hash "ann" "A" "ci" [" Analytics:Read "] "c1" "s3cr3t"
              wit_db wit_minted "agm_s3cr3t" wit_minted 7 wit_db_ok) as (c & l & Hc & Hn & _ & Hres & _);
    [reflexivity|apply rtc_refl|].
  exists c, l. split_and!; [exact Hc|exact Hn|exact Hres].
Defined.

(** After the split the project's key is a capture key. *)
Definition wit_split : DB := ok_or_wit (MarkProjectCredentialSplit 9 "ann" "A" wit_minted).

Definition wit_key_request : HttpReq :=
  {| hr_Method := "GET"; hr_Path := "/mcp"; hr_Authorization := ""; hr_XAPIKey := "k2";
     hr_Cookie := None; hr_query_api_key := ""; hr_query_token := ""; hr_query_project_id := "";
     hr_param_project_id := ""; hr_param_workspace_id := "" |}.

Definition wit_rotated : DB := ok_or_wit (RotateProjectAPIKeyForUser "ann" "A" "k2" wit_split).

Lemma split_project_has_no_legacy_key_witness :
  @principalFromRequest (store_of id_hash 10 wit_rotated) wit_key_request =
    Ok {| p_ProjectID := "A"; p_Kind := CredCapture; p_Role := ""; p_UserID := ""; p_CredentialID := ""; p_Grants := [] |} /\
  CredCapture <> CredLegacy.
Proof.
  split; [by vm_compute|].
  apply (split_project_has_no_legacy_key id_hash wit_split wit_rotated "A"
           {| r_Workspace := "ws"; r_APIKey := "k"; r_CreatedAt := 1; r_SplitAt := Some 9 |} 10 wit_key_request
           {| p_ProjectID := "A"; p_Kind := CredCapture; p_Role := ""; p_UserID := ""; p_CredentialID := ""; p_Grants := [] |}).
  - by vm_compute.
  - done.
  - apply rtc_once. apply (st_rotate id_hash wit_split "ann" "A" "k2"). by vm_compute.
  - by vm_compute.
  - reflexivity.
Defined.

Lemma tables_implement_store_witness : @AuthStoreLaws (store_of id_hash 10 wit_minted).
Proof.
  apply (tables_implement_store id_hash wit_db wit_minted 10 wit_db_ok).
  apply rtc_once. apply (st_mint id_hash wit_db "ann" "A" "ci" [" Analytics:Read "] "c1" "s3cr3t" _ "agm_s3cr3t").
  reflexivity.
Defined.
