(* ===== verification/DemoQuota.v ===== *)
(** The demo's spend control ([src/internal/dataplane/store/demo_quota.go], the metering of
    [src/internal/app/demo_guard.go]).

    The ledger counts, per user and UTC day, the agent runs a guest of the demo started.
    A claim is one conditional statement and a refund another, so a history is a list of
    them in commit order, each with the instant it ran at.  The theorems: a day's
    accepted runs exceed the limit by at most the day's refunds, and a refund that
    arrives after midnight is taken from the wrong day. *)

From S2P Require Import Prelude GoStrings Operations OpAdapters OpRegistry Principals.
From Stdlib Require Import String.
Open Scope string_scope.
Open Scope list_scope.
Open Scope Z_scope.

(** Instants are nanoseconds of the Unix epoch; days are UTC days. *)
Definition day_ns : Z := 86400 * 1000000000.
Definition utc_day (now : Z) : Z := now / day_ns.
Definition nextUTCDay (now : Z) : Z := (utc_day now + 1) * day_ns.

Record DemoRunQuota := { Allowed : bool; Used : Z; Limit : Z; ResetsAt : Z }.

Abbreviation Ledger := (gmap (string * Z) Z).

Section Quota.
(** The identifiers the uuid library parses. *)
Context (valid_uuid : string -> bool).

Definition runs_of (l : Ledger) (user : string) (day : Z) : Z := default 0 (l !! (user, day)).

(** The insert, or the conditional update; [None] when no row comes back. *)
Definition claim (l : Ledger) (user : string) (day limit : Z) : Ledger * option Z :=
  match l !! (user, day) with
  | None => (<[(user, day) := 1]> l, Some 1)
  | Some runs =>
      if runs <? limit then (<[(user, day) := runs + 1]> l, Some (runs + 1)) else (l, None)
  end.

Definition ConsumeDemoAgentRun (now : Z) (user : string) (limit : Z) (l : Ledger)
  : Ledger * DemoRunQuota :=
  let quota allowed used :=
    {| Allowed := allowed; Used := used; Limit := limit; ResetsAt := nextUTCDay now |} in
  if limit <=? 0 then (l, quota false 0)
  else if negb (valid_uuid user) then (l, quota false 0)
  else
    match claim l user (utc_day now) limit with
    | (l', Some used) => (l', quota true used)
    | (l', None) => (l', quota false limit)
    end.

Definition DemoAgentRunsUsed (now : Z) (user : string) (l : Ledger) : Z :=
  if negb (valid_uuid user) then 0 else runs_of l user (utc_day now).

Definition RefundDemoAgentRun (now : Z) (user : string) (l : Ledger) : Ledger :=
  if negb (valid_uuid user) then l
  else
    match l !! (user, utc_day now) with
    | Some runs => <[(user, utc_day now) := Z.max (runs - 1) 0]> l
    | None => l
    end.

(** [meterDemoAsk]: [None] lets the question through unmetered or metered, with the
    refund the handler may call; an error refuses it. *)
Inductive meter :=
| Unmetered
| Metered
| Refused (e : error).

Definition plural (n : Z) (noun : string) : string :=
  if (n =? 1)%Z then ("1 " ++ noun)%string else (itoa n ++ " " ++ noun ++ "s")%string.

Definition demoQuotaMessage (q : DemoRunQuota) : string :=
  if Limit q <=? 0 then
    "The agent is switched off in this shared demo. Connect your own project to ask it questions about your data."
  else
    ("You've used all " ++ plural (Limit q) "question" ++
     " the shared demo gives each person per day — the answers run on the demo owner's account, which is why there's a limit. Your questions reset tomorrow. Connect your own project and the agent answers about YOUR data, with no cap.")%string.

Definition meterDemoAsk (now : Z) (demoProjectID : string) (demoAskLimit : Z) (project : Project)
    (user : string) (l : Ledger) : Ledger * meter :=
  if negb (pj_IsDemo project) || sessionAllowsWrite project then (l, Unmetered)
  else if negb (pj_ID project =? demoProjectID)%string then
    (l, Refused (NewHTTPError 403
       "The agent answers questions in the demo project. Connect your own project to ask it about your data."))
  else
    let '(l', q) := ConsumeDemoAgentRun now user demoAskLimit l in
    if Allowed q then (l', Metered)
    else (l', Refused (NewHTTPError 429 (demoQuotaMessage q))).

(** ** Histories *)

Inductive event :=
| Claim (now : Z) (user : string)
| Refund (now : Z) (user : string).

(** A history under one limit; the claims it accepted, by user and day. *)
Fixpoint replay (limit : Z) (es : list event) (l : Ledger) : Ledger * list (string * Z) :=
  match es with
  | [] => (l, [])
  | Claim now u :: es' =>
      let '(l1, q) := ConsumeDemoAgentRun now u limit l in
      let '(l2, acc) := replay limit es' l1 in
      (l2, if Allowed q then (u, utc_day now) :: acc else acc)
  | Refund now u :: es' => replay limit es' (RefundDemoAgentRun now u l)
  end.

Definition is_for (u : string) (d : Z) (x : string * Z) : bool :=
  (fst x =? u)%string && (snd x =? d).

Definition accepted (limit : Z) (es : list event) (l : Ledger) (u : string) (d : Z) : Z :=
  Z.of_nat (List.length (List.filter (is_for u d) (snd (replay limit es l)))).

(** The refunds that ran on a day. *)
Definition refunds (es : list event) (u : string) (d : Z) : Z :=
  Z.of_nat (List.length (List.filter
    (fun e => match e with Refund now v => is_for u d (v, utc_day now) | _ => false end) es)).

(** * Theorems *)

Lemma claim_runs l u d limit u' d' :
  0 <= runs_of l u d ->
  runs_of (fst (claim l u d limit)) u' d' =
  runs_of l u' d' + (if is_for u' d' (u, d) then match snd (claim l u d limit) with Some _ => 1 | None => 0 end else 0).
Proof.
  intros Hnn. unfold claim, runs_of, is_for in *. simpl.
  destruct (decide ((u, d) = (u', d'))) as [[= -> ->]|Hne].
  - rewrite String.eqb_refl, Z.eqb_refl. simpl. destruct (l !! (u', d')) as [runs|] eqn:Hr; simpl.
    + destruct (runs <? limit); simpl; [rewrite lookup_insert_eq|rewrite Hr]; simpl; lia.
    + rewrite lookup_insert_eq. simpl. lia.
  - assert ((u =? u')%string && (d =? d') = false) as ->.
    { destruct (String.eqb_spec u u') as [->|]; [|done]. destruct (Z.eqb_spec d d') as [->|]; done. }
    destruct (l !! (u, d)) as [runs|]; simpl; [destruct (runs <? limit); simpl|];
      rewrite ?lookup_insert_ne by done; lia.
Qed.

Lemma consume_runs now u limit l u' d' :
  0 <= runs_of l u (utc_day now) ->
  runs_of (fst (ConsumeDemoAgentRun now u limit l)) u' d' =
  runs_of l u' d' + (if Allowed (snd (ConsumeDemoAgentRun now u limit l)) && is_for u' d' (u, utc_day now) then 1 else 0).
Proof.
  intros Hnn. unfold ConsumeDemoAgentRun. destruct (limit <=? 0); simpl; [lia|].
  destruct (negb (valid_uuid u)); simpl; [lia|].
  pose proof (claim_runs l u (utc_day now) limit u' d' Hnn) as Hc.
  destruct (claim l u (utc_day now) limit) as [l' [used|]]; simpl in *; rewrite Hc;
    destruct (is_for _ _ _); simpl; lia.
Qed.

(** An accepted claim found room. *)
Lemma consume_bound now u limit l u' d' :
  (forall v e, 0 <= runs_of l v e) -> (0 <= limit) ->
  runs_of l u' d' <= limit ->
  runs_of (fst (ConsumeDemoAgentRun now u limit l)) u' d' <= limit.
Proof.
  intros Hnn Hl Hb. unfold ConsumeDemoAgentRun. destruct (Z.leb_spec limit 0); simpl; [done|].
  destruct (negb (valid_uuid u)); simpl; [done|].
  assert (runs_of (fst (claim l u (utc_day now) limit)) u' d' <= limit) as Hc.
  { unfold claim, runs_of in *. destruct (l !! (u, utc_day now)) as [runs|] eqn:Hr; simpl.
    - destruct (Z.ltb_spec runs limit); simpl; [|done].
      destruct (decide ((u, utc_day now) = (u', d'))) as [->|]; [rewrite lookup_insert_eq; simpl; lia|].
      by rewrite lookup_insert_ne.
    - destruct (decide ((u, utc_day now) = (u', d'))) as [->|]; [rewrite lookup_insert_eq; simpl; lia|].
      by rewrite lookup_insert_ne. }
  by destruct (claim l u (utc_day now) limit) as [l' [used|]].
Qed.

Lemma refund_runs now u l u' d' :
  0 <= runs_of l u' d' ->
  runs_of l u' d' - (if is_for u' d' (u, utc_day now) then 1 else 0)
    <= runs_of (RefundDemoAgentRun now u l) u' d' <= runs_of l u' d' /\
  0 <= runs_of (RefundDemoAgentRun now u l) u' d'.
Proof.
  intros Hnn. unfold RefundDemoAgentRun. destruct (negb (valid_uuid u)).
  { destruct (is_for _ _ _); lia. }
  unfold runs_of, is_for in *. simpl. destruct (decide ((u, utc_day now) = (u', d'))) as [[= -> <-]|Hne].
  - rewrite String.eqb_refl, Z.eqb_refl. simpl.
    destruct (l !! (u', utc_day now)) as [runs|] eqn:Hr; simpl in *; [rewrite lookup_insert_eq|rewrite Hr]; simpl; lia.
  - destruct (l !! (u, utc_day now)) as [runs|]; [rewrite lookup_insert_ne by done|];
      destruct (_ && _); lia.
Qed.

Lemma refunds_cons e es u d :
  refunds (e :: es) u d =
  (match e with Refund now v => if is_for u d (v, utc_day now) then 1 else 0 | _ => 0 end) + refunds es u d.
Proof.
  unfold refunds. cbn [List.filter]. destruct e as [now v|now v]; [lia|].
  destruct (is_for u d (v, utc_day now)); simpl; lia.
Qed.

Lemma budget limit es l u d :
  (forall v e, 0 <= runs_of l v e) -> 0 <= limit -> runs_of l u d <= limit ->
  runs_of l u d + accepted limit es l u d - refunds es u d <= runs_of (fst (replay limit es l)) u d <= limit.
Proof.
  unfold accepted. revert l. induction es as [|e es IH]; intros l Hnn Hl Hb.
  { unfold refunds. simpl. lia. }
  rewrite refunds_cons. destruct e as [now v|now v]; cbn [replay].
  - pose proof (consume_runs now v limit l u d (Hnn _ _)) as Hc.
    pose proof (consume_bound now v limit l u d Hnn Hl Hb) as Hcb.
    assert (forall v' e, 0 <= runs_of (fst (ConsumeDemoAgentRun now v limit l)) v' e) as Hnn'.
    { intros v' e. rewrite consume_runs by apply Hnn. specialize (Hnn v' e). clear Hc; case_match; lia. }
    destruct (ConsumeDemoAgentRun now v limit l) as [l1 q]. cbn [fst snd] in *.
    specialize (IH l1 Hnn' Hl Hcb). destruct (replay limit es l1) as [l2 acc]. cbn [fst snd] in *.
    destruct (Allowed q); simpl in *; [|lia].
    destruct (is_for u d (v, utc_day now)); cbn [List.length] in *; lia.
  - pose proof (refund_runs now v l u d (Hnn _ _)) as [Hr _].
    assert (forall v' e, 0 <= runs_of (RefundDemoAgentRun now v l) v' e) as Hnn'
      by (intros v' e; apply refund_runs, Hnn).
    assert (runs_of (RefundDemoAgentRun now v l) u d <= limit) as Hb' by lia.
    specialize (IH _ Hnn' Hl Hb'). destruct (replay limit es _) as [l2 acc]. cbn [fst snd] in *. lia.
Qed.

(** From an empty ledger, whatever the order in which claims and refunds of all users
    commit, the ledger never counts more than the limit, and the runs accepted for a user
    on a day exceed the limit by no more than the refunds that ran for that user on that
    day.  A limit of zero or less accepts none. *)
Theorem demo_budget limit es u d :
  (0 <= limit -> runs_of (fst (replay limit es ∅)) u d <= limit /\
                 accepted limit es ∅ u d <= limit + refunds es u d) /\
  (limit <= 0 -> accepted limit es ∅ u d = 0).
Proof.
  split.
  - intros Hl. assert (forall v e, runs_of ∅ v e = 0) as Hz by (intros; unfold runs_of; by rewrite lookup_empty).
    pose proof (budget limit es ∅ u d) as Hb. rewrite Hz in Hb.
    destruct Hb as [H1' H2']; [intros; by rewrite Hz|done|done|]. lia.
  - intros Hl. unfold accepted. generalize (∅ : Ledger). induction es as [|[now v|now v] es IH]; intros l; [done| |apply IH].
    cbn [replay]. unfold ConsumeDemoAgentRun. rewrite (proj2 (Z.leb_le limit 0) Hl).
    specialize (IH l). destruct (replay limit es l) as [l2 acc]. exact IH.
Qed.

(** The budget refills at the next midnight, within a day. *)
Lemma resets_within_a_day now : now < nextUTCDay now <= now + day_ns /\ utc_day (nextUTCDay now) = utc_day now + 1.
Proof.
  unfold nextUTCDay, utc_day, day_ns. pose proof (Z.div_mod now (86400 * 1000000000) ltac:(lia)) as Hdm.
  pose proof (Z.mod_pos_bound now (86400 * 1000000000) ltac:(lia)) as Hmod.
  split; [lia|]. by rewrite Z.div_mul.
Qed.

End Quota.

(** A refund is booked on the day it runs, not on the day of the run it gives back: a
    question that started before midnight and failed after it returns an ask of the new
    day, in which a guest then has more runs accepted than the limit, none of them
    refunded. *)
Theorem late_refund_is_an_extra_ask :
  let yesterday := day_ns - 1 in
  let today := day_ns in
  let es := [Claim yesterday "u"; Claim today "u"; Claim today "u"; Refund (today + 1) "u"; Claim (today + 2) "u"] in
  accepted (fun _ => true) 2 es ∅ "u" 0 = 1 /\
  accepted (fun _ => true) 2 es ∅ "u" 1 = 3.
Proof. by vm_compute. Qed.

Lemma demo_budget_witness :
  accepted (fun _ => true) 2 [Claim 0 "u"; Claim 1 "u"; Claim 2 "u"] ∅ "u" 0 <= 2 /\
  accepted (fun _ => true) 0 [Claim 0 "u"] ∅ "u" 0 = 0.
Proof.
  split.
  - destruct (demo_budget (fun _ => true) 2 [Claim 0 "u"; Claim 1 "u"; Claim 2 "u"] "u" 0) as [Hb _].
    destruct Hb as [_ Hb]; [lia|]. exact Hb.
  - destruct (demo_budget (fun _ => true) 0 [Claim 0 "u"] "u" 0) as [_ Hz]. apply Hz. lia.
Defined.
