(* ===== verification/Receipts.v ===== *)
(** * Receipts: idempotent mutations of the control plane

    [runIdempotent] of internal/dataplane/store/lifecycle.go: the claim on
    (project, operation, key), the mutation and its receipt commit in one
    transaction.  The rest of the database, the stored result and the mutation's
    errors are arguments, so every operation recorded under a key shares the facts
    proved here.  A connection may fail at each call, and a failed commit may or may
    not have been applied. *)

From S2P Require Import Prelude GoStrings.
Import String.
Open Scope string_scope.
Open Scope list_scope.
Open Scope Z_scope.

(** ** The table *)

(** A row of idempotency_keys; the result is a JSON value. *)
Record receipt (J : Type) := { rc_request_hash : string; rc_result : option J }.
Arguments rc_request_hash {J} _.
Arguments rc_result {J} _.

(** (project, operation, key), the primary key. *)
Definition claim_key : Type := string * string * string.

(** The other tables of the database beside the receipts. *)
Record claimed (DB J : Type) := { rows : DB; idempotency_keys : gmap claim_key (receipt J) }.
Arguments rows {DB J} _.
Arguments idempotency_keys {DB J} _.

Inductive idem_error (E : Type) :=
| MutationError (e : E)
| ErrIdempotencyConflict
| IncompleteClaim
| CallFailed.
Arguments MutationError {E} e.
Arguments ErrIdempotencyConflict {E}.
Arguments IncompleteClaim {E}.
Arguments CallFailed {E}.

(** The call of the transaction that fails; a lost commit may have been applied. *)
Inductive tx_fault := BeginFails | ClaimFails | ReadFails | ReceiptFails | CommitFails (was_applied : bool).

Section Receipts.
Context {DB J E : Type}.

Definition with_rows (d : DB) (s : claimed DB J) : claimed DB J :=
  {| rows := d; idempotency_keys := idempotency_keys s |}.

Definition with_receipt (k : claim_key) (h : string) (j : J) (d : DB) (s : claimed DB J) : claimed DB J :=
  {| rows := d;
     idempotency_keys := <[k := {| rc_request_hash := h; rc_result := Some j |}]> (idempotency_keys s) |}.

(** The last step of a transaction: what the caller learns and what is left. *)
Definition commit (f : option tx_fault) (before after : claimed DB J) (j : J) :
    claimed DB J * result (idem_error E) J :=
  match f with
  | Some (CommitFails true) => (after, Err CallFailed)
  | Some (CommitFails false) => (before, Err CallFailed)
  | _ => (after, Ok j)
  end.

(** The claim found a row: the winner's receipt answers. *)
Definition replay (r : receipt J) (h : string) : result (idem_error E) J :=
  if negb (rc_request_hash r =? h)%string then Err ErrIdempotencyConflict
  else match rc_result r with None => Err IncompleteClaim | Some j => Ok j end.

Definition runIdempotent (key_fits : string -> bool) (f : option tx_fault) (k : claim_key) (requestHash : string)
    (mutate : DB -> result E (DB * J)) (s : claimed DB J) : claimed DB J * result (idem_error E) J :=
  let '(_, _, key) := k in
  if (key =? "")%string then
    match f, mutate (rows s) with
    | Some BeginFails, _ => (s, Err CallFailed)
    | _, Err e => (s, Err (MutationError e))
    | _, Ok (d, j) => commit f s (with_rows d s) j
    end
  else
    match f with
    | Some BeginFails | Some ClaimFails => (s, Err CallFailed)
    | _ =>
        if negb (key_fits key) then (s, Err CallFailed)
        else
          match idempotency_keys s !! k, f with
          | Some _, Some ReadFails => (s, Err CallFailed)
          | Some r, _ => (s, replay r requestHash)
          | None, _ =>
              match mutate (rows s) with
              | Err e => (s, Err (MutationError e))
              | Ok (d, j) =>
                  match f with
                  | Some ReceiptFails => (s, Err CallFailed)
                  | _ => commit f s (with_receipt k requestHash j d s) j
                  end
              end
          end
    end.

(** ** Histories *)

(** One request as a caller makes it. *)
Record request := {
  q_key : claim_key; q_hash : string; q_mutate : DB -> result E (DB * J);
}.

(** A call, with the database it found, its answer, and the database it left. *)
Record observation := {
  o_request : request; o_before : claimed DB J; o_answer : result (idem_error E) J; o_after : claimed DB J;
}.

Context (key_fits : string -> bool).

(** Requests under any keys and with any faults, between arbitrary transactions on the
    other tables; nothing else writes the receipts. *)
Inductive history : claimed DB J -> list observation -> claimed DB J -> Prop :=
| history_nil s : history s [] s
| history_call s l s' q f s'' a :
    history s l s' ->
    runIdempotent key_fits f (q_key q) (q_hash q) (q_mutate q) s' = (s'', a) ->
    history s (l ++ [{| o_request := q; o_before := s'; o_answer := a; o_after := s'' |}]) s''
| history_other s l s' d : history s l s' -> history s l (with_rows d s').

(** A call that took the claim: its key is in the table after it and was not before. *)
Definition took_claim (o : observation) : Prop :=
  idempotency_keys (o_before o) !! q_key (o_request o) = None /\
  is_Some (idempotency_keys (o_after o) !! q_key (o_request o)).

(** Every committed receipt carries a result. *)
Definition complete (s : claimed DB J) : Prop :=
  forall k r, idempotency_keys s !! k = Some r -> is_Some (rc_result r).

Definition keyed (k : claim_key) : Prop := let '(_, _, key) := k in key <> "".

(** What one call under a key did. *)
Inductive effect (q : request) (s : claimed DB J) (a : result (idem_error E) J) (s' : claimed DB J) : Prop :=
| effect_none :
    s' = s ->
    (forall j, a = Ok j ->
       idempotency_keys s !! q_key q = Some {| rc_request_hash := q_hash q; rc_result := Some j |}) ->
    (complete s -> a <> Err IncompleteClaim) ->
    effect q s a s'
| effect_claim d j :
    idempotency_keys s !! q_key q = None ->
    q_mutate q (rows s) = Ok (d, j) ->
    s' = with_receipt (q_key q) (q_hash q) j d s ->
    a = Ok j \/ a = Err CallFailed ->
    effect q s a s'.

(** ** Lemmas *)

#[local] Set Default Proof Using "key_fits".

Lemma run_effect f q s s' a :
  keyed (q_key q) -> runIdempotent key_fits f (q_key q) (q_hash q) (q_mutate q) s = (s', a) -> effect q s a s'.
Proof.
  destruct q as [[[p op] key] h m]. cbn. intros Hk.
  destruct (String.eqb_spec key "") as [|_]; [done|].
  assert (Hfail : (s, Err CallFailed) = (s', a) -> effect {| q_key := (p, op, key); q_hash := h; q_mutate := m |} s a s').
  { intros [= <- <-]. by apply effect_none. }
  assert (Hrest : forall r, r = match idempotency_keys s !! (p, op, key), f with
          | Some _, Some ReadFails => (s, Err CallFailed)
          | Some r, _ => (s, replay r h)
          | None, _ =>
              match m (rows s) with
              | Err e => (s, Err (MutationError e))
              | Ok (d, j) =>
                  match f with
                  | Some ReceiptFails => (s, Err CallFailed)
                  | _ => commit f s (with_receipt (p, op, key) h j d s) j
                  end
              end
          end -> r = (s', a) -> effect {| q_key := (p, op, key); q_hash := h; q_mutate := m |} s a s').
  { intros r -> Hr. destruct (idempotency_keys s !! (p, op, key)) as [[rh rr]|] eqn:Hrow.
    - assert (Hreplay : (s, replay {| rc_request_hash := rh; rc_result := rr |} h) = (s', a) ->
        effect {| q_key := (p, op, key); q_hash := h; q_mutate := m |} s a s').
      { intros [= <- <-]. unfold replay. cbn. apply effect_none; [done| |].
        - intros j. destruct (String.eqb_spec rh h) as [->|]; cbn; [|done].
          destruct rr; [|done]. by intros [= ->].
        - intros Hc. destruct (String.eqb_spec rh h) as [->|]; cbn; [|done].
          destruct (Hc _ _ Hrow) as [j Hj]. cbn in Hj. by rewrite Hj. }
      destruct f as [[]|]; auto.
    - destruct (m (rows s)) as [[d j]|e] eqn:Hm.
      + assert (Hdone : forall x, x = Ok j \/ x = Err CallFailed ->
          effect {| q_key := (p, op, key); q_hash := h; q_mutate := m |} s x (with_receipt (p, op, key) h j d s)).
        { intros x Hx. by apply (effect_claim _ _ _ _ d j). }
        destruct f as [[| | | |[]]|]; unfold commit in Hr; cbn in Hr; injection Hr as <- <-; auto;
          by apply effect_none.
      + injection Hr as <- <-. by apply effect_none. }
  destruct (key_fits key); cbn.
  - destruct f as [[]|]; auto; apply Hrest; reflexivity.
  - destruct f as [[]|]; auto.
Qed.

Lemma run_unkeyed f q s s' a :
  ~ keyed (q_key q) -> runIdempotent key_fits f (q_key q) (q_hash q) (q_mutate q) s = (s', a) ->
  idempotency_keys s' = idempotency_keys s.
Proof.
  destruct q as [[[p op] key] h m]. cbn. intros Hk.
  destruct (String.eqb_spec key "") as [->|H]; [|by destruct (Hk H)].
  destruct (m (rows s)) as [[d j]|e], f as [[| | | |[]]|]; cbn; by intros [= <- <-].
Qed.

Lemma keyed_dec k : keyed k \/ ~ keyed k.
Proof. destruct k as [[p op] key]. cbn. destruct (String.eqb_spec key ""); tauto. Qed.

Lemma effect_grows q s a s' : effect q s a s' -> idempotency_keys s ⊆ idempotency_keys s'.
Proof.
  intros [-> _ _|d j Hn _ -> _]; [done|]. cbn. by apply insert_subseteq.
Qed.

Lemma run_grows f q s s' a :
  runIdempotent key_fits f (q_key q) (q_hash q) (q_mutate q) s = (s', a) ->
  idempotency_keys s ⊆ idempotency_keys s'.
Proof.
  intros Hr. destruct (keyed_dec (q_key q)) as [Hk|Hk].
  - eapply effect_grows, run_effect; eauto.
  - by rewrite (run_unkeyed _ _ _ _ _ Hk Hr).
Qed.

Lemma run_complete f q s s' a :
  runIdempotent key_fits f (q_key q) (q_hash q) (q_mutate q) s = (s', a) -> complete s -> complete s'.
Proof.
  intros Hr Hc. destruct (keyed_dec (q_key q)) as [Hk|Hk].
  - destruct (run_effect _ _ _ _ _ Hk Hr) as [-> _ _|d j Hn _ -> _]; [done|].
    intros k r. cbn. intros [[<- <-]|[_ Hr']]%lookup_insert_Some; [done|]. by apply (Hc k).
  - intros k r. rewrite (run_unkeyed _ _ _ _ _ Hk Hr). apply Hc.
Qed.

(** The other tables are as they were, or as the mutation left them. *)
Lemma run_rows f k h m s s' (P : DB -> Prop) a :
  runIdempotent key_fits f k h m s = (s', a) -> P (rows s) -> (forall d j, m (rows s) = Ok (d, j) -> P d) -> P (rows s').
Proof.
  destruct k as [[p op] key]. cbn. intros Hr Hs. revert Hr.
  destruct (key =? "")%string.
  - destruct (m (rows s)) as [[d j]|e], f as [[| | | |[]]|]; cbn; intros Hr Hm; inversion Hr; subst; cbn; eauto.
  - destruct (key_fits key); cbn; [|destruct f as [[]|]; intros Hr _; inversion Hr; by subst].
    destruct (m (rows s)) as [[d j]|e], f as [[| | | |[]]|]; cbn; repeat case_match; intros Hr Hm;
      inversion Hr; subst; cbn; eauto.
Qed.

(** A receipt answers. *)
Lemma run_replays k h m s r :
  idempotency_keys s !! k = Some r -> keyed k -> key_fits k.2 = true ->
  runIdempotent key_fits None k h m s = (s, replay r h).
Proof.
  destruct k as [[p op] key]. cbn. intros Hr Hk Hf. by rewrite (proj2 (String.eqb_neq _ _) Hk), Hf, Hr.
Qed.

Lemma history_grows s l s' : history s l s' -> idempotency_keys s ⊆ idempotency_keys s'.
Proof.
  induction 1 as [|s l s' q f s'' a _ IH Hr|]; [done| |done]. etrans; [exact IH|]. by eapply run_grows.
Qed.

Lemma history_complete s l s' : history s l s' -> complete s -> complete s'.
Proof. induction 1; eauto using run_complete. Qed.

(** The call at any place of a history, with what was before it and what came after. *)
Lemma history_split s l1 o l2 s' :
  history s (l1 ++ o :: l2) s' ->
  history s l1 (o_before o) /\ history (o_after o) l2 s' /\
  exists f, runIdempotent key_fits f (q_key (o_request o)) (q_hash (o_request o)) (q_mutate (o_request o))
              (o_before o) = (o_after o, o_answer o).
Proof.
  remember (l1 ++ o :: l2) as l eqn:Hl. intros H. revert l2 Hl.
  induction H as [s|s l m q f m' a H IH Hr|s l m d H IH]; intros l2 Hl.
  - by destruct l1.
  - destruct l2 as [|o' l2 _] using rev_ind.
    + apply app_inj_tail in Hl as [-> <-]. cbn. split_and!; [done|constructor|eauto].
    + rewrite app_comm_cons, app_assoc in Hl. apply app_inj_tail in Hl as [Hl <-].
      destruct (IH _ Hl) as (H1 & H2 & H3). split_and!; [done| |done]. by eapply history_call.
  - destruct (IH _ Hl) as (H1 & H2 & H3). split_and!; [done| |done]. by constructor.
Qed.

Lemma history_effect s l1 o l2 s' :
  history s (l1 ++ o :: l2) s' -> keyed (q_key (o_request o)) ->
  effect (o_request o) (o_before o) (o_answer o) (o_after o).
Proof. intros (_ & _ & f & Hr)%history_split Hk. by eapply run_effect. Qed.

(** What a call answered is in the table for ever after. *)
Lemma answered_is_recorded s l1 o l2 s' j :
  history s (l1 ++ o :: l2) s' -> keyed (q_key (o_request o)) -> o_answer o = Ok j ->
  idempotency_keys s' !! q_key (o_request o) =
    Some {| rc_request_hash := q_hash (o_request o); rc_result := Some j |}.
Proof.
  intros H Hk Ha. destruct (history_split _ _ _ _ _ H) as (_ & H2 & _).
  eapply lookup_weaken; [|by eapply history_grows].
  destruct (history_effect _ _ _ _ _ H Hk) as [-> Hj _|d j' _ _ -> [Hj|Hj]]; [by apply Hj| |congruence].
  cbn. rewrite Hj in Ha. injection Ha as ->. apply lookup_insert_eq.
Qed.

(** What a call that took the claim computed is in the table for ever after. *)
Lemma claimed_is_recorded s l1 o l2 s' :
  history s (l1 ++ o :: l2) s' -> keyed (q_key (o_request o)) -> took_claim o ->
  exists d j, q_mutate (o_request o) (rows (o_before o)) = Ok (d, j) /\ rows (o_after o) = d /\
    idempotency_keys s' !! q_key (o_request o) =
      Some {| rc_request_hash := q_hash (o_request o); rc_result := Some j |}.
Proof.
  intros H Hk [Hn Hs]. destruct (history_split _ _ _ _ _ H) as (_ & H2 & _).
  destruct (history_effect _ _ _ _ _ H Hk) as [Heq _ _|d j _ Hm Heq _].
  - rewrite Heq, Hn in Hs. by destruct Hs.
  - exists d, j. rewrite Heq. split_and!; [done..|].
    eapply lookup_weaken; [|by eapply history_grows]. rewrite Heq. apply lookup_insert_eq.
Qed.

Lemma second_claim s l1 o1 l2 o2 l3 s' :
  history s (l1 ++ o1 :: l2 ++ o2 :: l3) s' -> q_key (o_request o1) = q_key (o_request o2) ->
  took_claim o1 -> took_claim o2 -> False.
Proof.
  intros H Hk [_ [r Hr]] [Hn _]. destruct (history_split _ _ _ _ _ H) as (_ & H2 & _).
  destruct (history_split _ _ _ _ _ H2) as (H3 & _).
  rewrite Hk in Hr. rewrite (lookup_weaken _ _ _ _ Hr (history_grows _ _ _ H3)) in Hn. done.
Qed.

(** ** Properties *)

(** C22: Whatever requests, retries, faults and other transactions happen, the calls under one
    key run their mutation at most once; every other call under it leaves the database as it
    found it; and all the calls under it that are answered have the same request hash and get
    the same result, never an incomplete claim. *)
Theorem retried_mutation_applies_once s0 l s k :
  history s0 l s -> complete s0 -> keyed k ->
  (forall l1 o l2, l = l1 ++ o :: l2 -> q_key (o_request o) = k ->
     o_answer o <> Err IncompleteClaim /\
     ((exists d j, took_claim o /\ q_mutate (o_request o) (rows (o_before o)) = Ok (d, j) /\
         rows (o_after o) = d /\ (o_answer o = Ok j \/ o_answer o = Err CallFailed))
      \/ (~ took_claim o /\ o_after o = o_before o))) /\
  (forall l1 o1 l2 o2 l3, l = l1 ++ o1 :: l2 ++ o2 :: l3 ->
     q_key (o_request o1) = k -> q_key (o_request o2) = k -> took_claim o1 -> took_claim o2 -> False) /\
  (forall o1 o2 j1 j2, o1 ∈ l -> o2 ∈ l -> q_key (o_request o1) = k -> q_key (o_request o2) = k ->
     o_answer o1 = Ok j1 -> o_answer o2 = Ok j2 ->
     j1 = j2 /\ q_hash (o_request o1) = q_hash (o_request o2)).
Proof.
  intros H Hc Hk. split_and!.
  - intros l1 o l2 -> <-. destruct (history_split _ _ _ _ _ H) as (H1 & _ & _).
    destruct (history_effect _ _ _ _ _ H Hk) as [Heq Ha Hi|d j Hn Hm Heq Ha].
    + split; [by apply Hi, (history_complete _ _ _ H1)|]. right. split; [|done].
      intros [Hn Hs]. rewrite Heq, Hn in Hs. by destruct Hs.
    + split; [by destruct Ha as [-> | ->]|]. left. exists d, j. rewrite Heq. cbn. split_and!; [|done..].
      split; [done|]. rewrite Heq. cbn. rewrite lookup_insert_eq. by eexists.
  - intros l1 o1 l2 o2 l3 -> H1 H2. eapply second_claim; [exact H|congruence].
  - intros o1 o2 j1 j2 (l1 & l2 & E1)%list_elem_of_split (l3 & l4 & E2)%list_elem_of_split K1 K2 A1 A2.
    pose proof H as H'. rewrite E1 in H. rewrite E2 in H'.
    rewrite <- K1 in Hk. pose proof (answered_is_recorded _ _ _ _ _ _ H Hk A1) as R1.
    rewrite K1, <- K2 in Hk. pose proof (answered_is_recorded _ _ _ _ _ _ H' Hk A2) as R2.
    rewrite K1 in R1. rewrite K2, R1 in R2. by injection R2.
Qed.

(** A mutation that was applied answers the retry that reaches the database, whether or not
    its own caller learned of it, and the retry applies nothing. *)
Theorem lost_answer_is_recovered s0 l1 o l2 s q :
  history s0 (l1 ++ o :: l2) s -> keyed (q_key (o_request o)) -> took_claim o ->
  q_key q = q_key (o_request o) -> q_hash q = q_hash (o_request o) -> key_fits (snd (q_key q)) = true ->
  exists d j, q_mutate (o_request o) (rows (o_before o)) = Ok (d, j) /\
    runIdempotent key_fits None (q_key q) (q_hash q) (q_mutate q) s = (s, Ok j).
Proof.
  intros H Hk Ht Hq Hh Hf. destruct (claimed_is_recorded _ _ _ _ _ H Hk Ht) as (d & j & Hm & _ & Hr).
  exists d, j. split; [done|]. rewrite <- Hq in Hk, Hr. destruct (q_key q) as [[p op] key]. cbn in *.
  destruct (String.eqb_spec key "") as [|_]; [done|]. rewrite Hf, Hr. cbn. unfold replay. cbn.
  by rewrite Hh, String.eqb_refl.
Qed.

End Receipts.
Arguments request DB J E : clear implicits.
Arguments observation DB J E : clear implicits.
