(* ===== verification/MetricTargets.v ===== *)
(** * MetricTargets: the metric catalog and the targets declared on it

    metric_catalog.go and metric_targets.go of internal/dataplane/store, with the
    period rules of overview.go: which metrics exist and how they may be drawn, the
    validation of a declared target, its append-only history per project and metric,
    the version in force at an instant, and the verdict on a measured window.  The
    texts a definition is explained with are left out of the catalog's rows. *)

From S2P Require Import Prelude GoStrings.
From Stdlib Require Import Ascii SpecFloat.
Import String.
Open Scope string_scope.
Open Scope list_scope.
Open Scope Z_scope.

(** ** Binary64

    A [float64] is a [spec_float]; the operations round to nearest in its format. *)

Definition f64_mul : spec_float -> spec_float -> spec_float := SFmul 53 1024.
Definition f64_add : spec_float -> spec_float -> spec_float := SFadd 53 1024.
Definition f64_sub : spec_float -> spec_float -> spec_float := SFsub 53 1024.
Definition f64_zero : spec_float := S754_zero false.
Definition f64_hundred : spec_float := S754_finite false 7036874417766400 (-46).

(** [math.IsNaN(v) || math.IsInf(v, 0)]. *)
Definition f64_special (v : spec_float) : bool :=
  match v with S754_nan | S754_infinity _ => true | _ => false end.

(** ** The catalog *)

Definition MetricKindValue := "value".
Definition MetricKindSeries := "series".
Definition MetricKindBreakdown := "breakdown".

Definition DisplayStat := "stat".
Definition DisplayLine := "line".
Definition DisplayBar := "bar".
Definition DisplayArea := "area".
Definition DisplayTable := "table".

Definition MetricGroupOverview := "overview".
Definition MetricGroupAcquisition := "acquisition".
Definition MetricGroupMonetization := "monetization".
Definition MetricGroupUsage := "usage".

Record MetricDefinition := {
  md_Key : string; md_Unit : string; md_Kind : string; md_Group : string; md_Displays : list string;
}.

Definition AllowsDisplay (d : MetricDefinition) (display : string) : bool :=
  existsb (String.eqb display) (md_Displays d).

Definition DefaultDisplay (d : MetricDefinition) : string :=
  match md_Displays d with [] => "" | x :: _ => x end.

Definition entry (key unit kind group : string) (displays : list string) : MetricDefinition :=
  {| md_Key := key; md_Unit := unit; md_Kind := kind; md_Group := group; md_Displays := displays |}.

Definition metricCatalogDecl : list MetricDefinition :=
  [
   entry "active_users" "people" MetricKindValue MetricGroupOverview [DisplayStat];
   entry "new_users" "people" MetricKindValue MetricGroupOverview [DisplayStat];
   entry "sessions" "sessions" MetricKindValue MetricGroupOverview [DisplayStat];
   entry "active_users_daily" "people/day" MetricKindSeries MetricGroupOverview [DisplayLine; DisplayArea; DisplayBar];
   entry "activation" "percent" MetricKindValue MetricGroupUsage [DisplayStat];
   entry "retention_d1" "percent" MetricKindValue MetricGroupUsage [DisplayStat];
   entry "retention_d7" "percent" MetricKindValue MetricGroupUsage [DisplayStat];
   entry "pageviews" "pageviews" MetricKindValue MetricGroupAcquisition [DisplayStat];
   entry "conversions" "events" MetricKindValue MetricGroupAcquisition [DisplayStat];
   entry "ai_share" "percent" MetricKindValue MetricGroupAcquisition [DisplayStat];
   entry "bounce_rate" "percent" MetricKindValue MetricGroupAcquisition [DisplayStat];
   entry "avg_session_duration" "seconds" MetricKindValue MetricGroupAcquisition [DisplayStat];
   entry "traffic_by_class" "pageviews" MetricKindBreakdown MetricGroupAcquisition [DisplayTable; DisplayBar];
   entry "ai_top_paths" "pageviews" MetricKindBreakdown MetricGroupAcquisition [DisplayTable; DisplayBar];
   entry "traffic_by_platform" "pageviews" MetricKindBreakdown MetricGroupAcquisition [DisplayTable; DisplayBar];
   entry "top_events" "events" MetricKindBreakdown MetricGroupUsage [DisplayTable; DisplayBar];
   entry "event_volume_daily" "events/day" MetricKindSeries MetricGroupUsage [DisplayLine; DisplayArea; DisplayBar];
   entry "retention_d30" "percent" MetricKindValue MetricGroupUsage [DisplayStat];
   entry "revenue" "currency" MetricKindValue MetricGroupMonetization [DisplayStat];
   entry "top_pages" "pageviews" MetricKindBreakdown MetricGroupAcquisition [DisplayTable; DisplayBar];
   entry "top_sources" "pageviews" MetricKindBreakdown MetricGroupAcquisition [DisplayTable; DisplayBar];
   entry "sessions_per_user" "sessions/person" MetricKindValue MetricGroupUsage [DisplayStat];
   entry "sessions_daily" "sessions/day" MetricKindSeries MetricGroupUsage [DisplayLine; DisplayArea; DisplayBar];
   entry "paying_users" "people" MetricKindValue MetricGroupMonetization [DisplayStat];
   entry "proceeds_per_paying_user" "currency" MetricKindValue MetricGroupMonetization [DisplayStat];
   entry "download_to_paid_d1" "percent" MetricKindValue MetricGroupMonetization [DisplayStat];
   entry "download_to_paid_d7" "percent" MetricKindValue MetricGroupMonetization [DisplayStat];
   entry "download_to_paid_d35" "percent" MetricKindValue MetricGroupMonetization [DisplayStat];
   entry "top_utm_sources" "pageviews" MetricKindBreakdown MetricGroupAcquisition [DisplayTable; DisplayBar];
   entry "top_utm_mediums" "pageviews" MetricKindBreakdown MetricGroupAcquisition [DisplayTable; DisplayBar];
   entry "top_campaigns" "pageviews" MetricKindBreakdown MetricGroupAcquisition [DisplayTable; DisplayBar];
   entry "top_referrers" "pageviews" MetricKindBreakdown MetricGroupAcquisition [DisplayTable; DisplayBar];
   entry "first_read_discovery" "people" MetricKindBreakdown MetricGroupAcquisition [DisplayTable; DisplayBar]
  ].

Definition MetricCatalogEntry (key : string) : option MetricDefinition :=
  find_first (fun d => (md_Key d =? key)%string) metricCatalogDecl.

Definition MetricKeys : list string := map md_Key metricCatalogDecl.

(** ** Periods *)

Definition overviewMaxDays : Z := 90.

(** The capture of [^(\d{1,2})d$]. *)
Definition overviewPeriodRe (period : string) : option string :=
  match period with
  | String a (String "d"%char EmptyString) => if is_digit a then Some (String a EmptyString) else None
  | String a (String b (String "d"%char EmptyString)) =>
      if is_digit a && is_digit b then Some (String a (String b EmptyString)) else None
  | _ => None
  end.

(** [days, _ := strconv.Atoi(m[1])]. *)
Definition days_of (m : string) : Z := default 0 (atoi m).

Definition validPeriod (period : string) : bool :=
  if (period =? "")%string || (period =? "today")%string then true
  else match overviewPeriodRe period with
       | None => false
       | Some m => (1 <=? days_of m) && (days_of m <=? overviewMaxDays)
       end.

Definition mustPeriodDays (period : string) : Z :=
  match overviewPeriodRe period with None => 0 | Some m => days_of m end.

(** ** Target declarations *)

Definition TargetDirectionGTE := "gte".
Definition TargetDirectionLTE := "lte".

Record MetricTargetSpec := {
  ts_Direction : string; ts_Value : spec_float; ts_Period : string; ts_Currency : string;
  ts_EffectiveAt : string;
}.

Record MetricTarget := {
  mt_ProjectID : string; mt_Metric : string; mt_Version : Z; mt_Cleared : bool; mt_Direction : string;
  mt_Value : spec_float; mt_PeriodDays : Z; mt_Currency : string; mt_EffectiveAt : Z;
}.

Record MetricTargetWrite := { tw_Metric : string; tw_Spec : MetricTargetSpec; tw_Clear : bool }.

Inductive target_error :=
| MetricNotInCatalog | NotAValueMetric | BadDirection | BadValue | PercentTooLarge | BadTargetPeriod
| CurrencyMissing | CurrencyRefused | BadInstant | ColumnTooLong.

(** [strings.ToUpper] on ASCII. *)
Definition upper_byte (c : ascii) : ascii :=
  if (97 <=? byte c) && (byte c <=? 122) then Ascii.ascii_of_N (Z.to_N (byte c - 32)) else c.

Definition to_upper (s : string) : string := map_str upper_byte s.

(** [time.Parse(time.RFC3339, s)], in nanoseconds. *)
Class Rfc3339 := { parse_instant : string -> option Z }.

Section Targets.
Context `{Rfc3339}.

Definition trimmed_spec (s : MetricTargetSpec) : MetricTargetSpec :=
  {| ts_Direction := to_lower (trim_space (ts_Direction s)); ts_Value := ts_Value s;
     ts_Period := trim_space (ts_Period s); ts_Currency := to_upper (trim_space (ts_Currency s));
     ts_EffectiveAt := trim_space (ts_EffectiveAt s) |}.

Definition instant_ok (s : string) : bool :=
  (s =? "")%string || is_some (parse_instant s).

Definition normalizeMetricTargetSpec (def : MetricDefinition) (spec : MetricTargetSpec) :
    result target_error MetricTargetSpec :=
  let s := trimmed_spec spec in
  if negb (md_Kind def =? MetricKindValue)%string then Err NotAValueMetric
  else if negb ((ts_Direction s =? TargetDirectionGTE)%string || (ts_Direction s =? TargetDirectionLTE)%string)
  then Err BadDirection
  else if f64_special (ts_Value s) || SFltb (ts_Value s) f64_zero then Err BadValue
  else if (md_Unit def =? "percent")%string && SFltb f64_hundred (ts_Value s) then Err PercentTooLarge
  else if (ts_Period s =? "")%string || (ts_Period s =? "today")%string then Err BadTargetPeriod
  else if negb (validPeriod (ts_Period s)) then Err BadTargetPeriod
  else if (md_Unit def =? "currency")%string && (ts_Currency s =? "")%string then Err CurrencyMissing
  else if negb (md_Unit def =? "currency")%string && negb (ts_Currency s =? "")%string then Err CurrencyRefused
  else if negb (instant_ok (ts_EffectiveAt s)) then Err BadInstant
  else Ok s.

(** ** The history *)

(** The rows of metric_targets, as they were inserted. *)
Definition target_table : Type := list MetricTarget.

(** [ORDER BY version DESC LIMIT 1] of the rows that satisfy [p]. *)
Definition newest (p : MetricTarget -> bool) (t : target_table) : option MetricTarget :=
  fold_left (fun best r =>
    if p r then
      match best with
      | Some b => if mt_Version b <? mt_Version r then Some r else best
      | None => Some r
      end
    else best) t None.

Definition of_metric (project metric : string) (r : MetricTarget) : bool :=
  (mt_ProjectID r =? project)%string && (mt_Metric r =? metric)%string.

Definition latestMetricTarget (t : target_table) (project metric : string) : option MetricTarget :=
  newest (of_metric project metric) t.

Definition metricTargetInForce (t : target_table) (project metric : string) (at_ : Z) : option MetricTarget :=
  newest (fun r => of_metric project metric r && (mt_EffectiveAt r <=? at_)) t.

Definition sameMetricTarget (latest : option MetricTarget) (clear : bool) (spec : MetricTargetSpec) : bool :=
  match latest with
  | None => false
  | Some l =>
      if clear then mt_Cleared l
      else if mt_Cleared l then false
      else if negb (mt_Direction l =? ts_Direction spec)%string || negb (SFeqb (mt_Value l) (ts_Value spec))
              || negb (mt_PeriodDays l =? mustPeriodDays (ts_Period spec))
              || negb (mt_Currency l =? ts_Currency spec)%string then false
      else if (ts_EffectiveAt spec =? "")%string then true
      else match parse_instant (ts_EffectiveAt spec) with
           | Some at_ => mt_EffectiveAt l =? at_
           | None => false
           end
  end.

(** A timestamptz keeps microseconds. *)
Definition stored_instant (t : Z) : Z := t / 1000 * 1000.

(** The spec a write is validated to: a tombstone only has its instant looked at. *)
Definition declared_spec (def : MetricDefinition) (w : MetricTargetWrite) : result target_error MetricTargetSpec :=
  if tw_Clear w then
    let s := tw_Spec w in
    let s := {| ts_Direction := ts_Direction s; ts_Value := ts_Value s; ts_Period := ts_Period s;
                ts_Currency := ts_Currency s; ts_EffectiveAt := trim_space (ts_EffectiveAt s) |} in
    if instant_ok (ts_EffectiveAt s) then Ok s else Err BadInstant
  else normalizeMetricTargetSpec def (tw_Spec w).

Definition next_version (latest : option MetricTarget) : Z :=
  match latest with None => 1 | Some l => mt_Version l + 1 end.

Definition setMetricTarget (now : Z) (project : string) (w : MetricTargetWrite) (t : target_table) :
    result target_error (target_table * MetricTarget) :=
  let metric := trim_space (tw_Metric w) in
  match MetricCatalogEntry metric with
  | None => Err MetricNotInCatalog
  | Some def =>
      match declared_spec def w with
      | Err e => Err e
      | Ok spec =>
          let latest := latestMetricTarget t project metric in
          match latest, sameMetricTarget latest (tw_Clear w) spec with
          | Some l, true => Ok (t, l)
          | _, _ =>
              let effectiveAt := default now (parse_instant (ts_EffectiveAt spec)) in
              let effectiveAt := if (ts_EffectiveAt spec =? "")%string then now else effectiveAt in
              if (8 <? Z.of_nat (String.length (ts_Currency spec))) || (8 <? Z.of_nat (String.length (ts_Direction spec)))
              then Err ColumnTooLong
              else
                let row := {| mt_ProjectID := project; mt_Metric := metric; mt_Version := next_version latest;
                              mt_Cleared := tw_Clear w; mt_Direction := ts_Direction spec;
                              mt_Value := ts_Value spec; mt_PeriodDays := mustPeriodDays (ts_Period spec);
                              mt_Currency := ts_Currency spec; mt_EffectiveAt := stored_instant effectiveAt |} in
                Ok (t ++ [row], row)
          end
      end
  end.

End Targets.

(** ** Verdicts *)

Definition TargetVerdictOnTrack := "on_track".
Definition TargetVerdictAtRisk := "at_risk".
Definition TargetVerdictOffTrack := "off_track".
Definition TargetReasonPartialWindow := "partial_window".
Definition TargetReasonPeriodMismatch := "period_mismatch".
Definition TargetReasonCurrencyMismatch := "currency_mismatch".

(** 0.10 in binary64. *)
Definition targetAtRiskBand : spec_float := S754_finite false 7205759403792794 (-56).

Record OverviewRange := { or_Days : Z; or_CompleteDays : bool }.

(** The verdict and the reason there is none. *)
Definition judgeMetricTarget (t : MetricTarget) (unit : string) (r : OverviewRange) (measured : spec_float)
    (currency : string) : string * string :=
  if negb (or_CompleteDays r) then ("", TargetReasonPartialWindow)
  else if negb (mt_PeriodDays t =? or_Days r) then ("", TargetReasonPeriodMismatch)
  else if (unit =? "currency")%string && negb (mt_Currency t =? currency)%string
  then ("", TargetReasonCurrencyMismatch)
  else
    let lte := (mt_Direction t =? TargetDirectionLTE)%string in
    let met := if lte then SFleb measured (mt_Value t) else SFleb (mt_Value t) measured in
    if met then (TargetVerdictOnTrack, "")
    else
      let margin := f64_mul (mt_Value t) targetAtRiskBand in
      let near := if lte then SFleb measured (f64_add (mt_Value t) margin)
                  else SFleb (f64_sub (mt_Value t) margin) measured in
      (if near then TargetVerdictAtRisk else TargetVerdictOffTrack, "").

(** ** What a reading may show (overview.go) *)

Definition OverviewStateOK := "ok".
Definition OverviewStateNoData := "no_data".
Definition OverviewStateNotReady := "not_ready".

Definition overviewMetricState (everReceived : bool) (eventsInRange : Z) : string :=
  if negb everReceived || (eventsInRange =? 0) then OverviewStateNoData else OverviewStateOK.

Definition overviewQuietAfter : Z := 24 * 3600 * 1000000000.

Definition overviewDataState (everReceived : bool) (age : Z) : string :=
  if negb everReceived then "no_events" else if overviewQuietAfter <? age then "quiet" else "fresh".

(** ** Lemmas *)

Lemma newest_from (p : MetricTarget -> bool) b (t : target_table) :
  exists r, fold_left (fun best r =>
    if p r then
      match best with Some b => if mt_Version b <? mt_Version r then Some r else best | None => Some r end
    else best) t (Some b) = Some r /\ (r = b \/ (r ∈ t /\ p r = true)) /\
    mt_Version b <= mt_Version r /\ (forall x, x ∈ t -> p x = true -> mt_Version x <= mt_Version r).
Proof.
  revert b. induction t as [|x t IH]; intros b; cbn.
  - exists b. split_and!; [done|by left|lia|]. intros x Hx. by apply not_elem_of_nil in Hx.
  - destruct (p x) eqn:Hp.
    + destruct (mt_Version b <? mt_Version x) eqn:Hlt; bool_props.
      * destruct (IH x) as (r & -> & Hr & Hle & Hall). exists r. split_and!; [done| |lia|].
        -- right. destruct Hr as [->|[Hr Hpr]]; [split; [left|done]|split; [by right|done]].
        -- intros y [->|Hy]%elem_of_cons Hpy; auto.
      * destruct (IH b) as (r & -> & Hr & Hle & Hall). exists r. split_and!; [done| |lia|].
        -- destruct Hr as [->|[Hr Hpr]]; [by left|right; split; [by right|done]].
        -- intros y [->|Hy]%elem_of_cons Hpy; [lia|auto].
    + destruct (IH b) as (r & -> & Hr & Hle & Hall). exists r. split_and!; [done| |lia|].
      * destruct Hr as [->|[Hr Hpr]]; [by left|right; split; [by right|done]].
      * intros y [->|Hy]%elem_of_cons Hpy; [congruence|auto].
Qed.

Lemma newest_Some p t r :
  newest p t = Some r -> r ∈ t /\ p r = true /\ (forall x, x ∈ t -> p x = true -> mt_Version x <= mt_Version r).
Proof.
  unfold newest. revert r. induction t as [|x t IH]; intros r; [done|]. cbn. destruct (p x) eqn:Hp.
  - destruct (newest_from p x t) as (r' & -> & Hr & Hle & Hall). intros [= ->]. split_and!.
    + destruct Hr as [->|[Hr _]]; [left|by right].
    + by destruct Hr as [->|[_ Hr]].
    + intros y [->|Hy]%elem_of_cons Hpy; auto.
  - intros Hr. destruct (IH _ Hr) as (H1 & H2 & H3). split_and!; [by right|done|].
    intros y [->|Hy]%elem_of_cons Hpy; [congruence|auto].
Qed.

Lemma newest_is_None p t : newest p t = None -> forall x, x ∈ t -> p x = false.
Proof.
  unfold newest. induction t as [|x t IH]; cbn; [by intros _ x Hx; apply not_elem_of_nil in Hx|].
  destruct (p x) eqn:Hp.
  - destruct (newest_from p x t) as (r' & -> & _). done.
  - intros H y [->|Hy]%elem_of_cons; auto.
Qed.

(** A row newer than every row so far, appended. *)
Lemma newest_snoc (p : MetricTarget -> bool) t r :
  (forall x, x ∈ t -> p x = true -> mt_Version x < mt_Version r) ->
  newest p (t ++ [r]) = (if p r then Some r else newest p t).
Proof.
  intros Hlt. unfold newest at 1. rewrite fold_left_app. cbn. fold (newest p t).
  destruct (p r); [|done]. destruct (newest p t) as [b|] eqn:Hb; [|done].
  apply newest_Some in Hb as (H1 & H2 & _). specialize (Hlt _ H1 H2).
  by destruct (Z.ltb_spec (mt_Version b) (mt_Version r)); [|lia].
Qed.

Lemma SFeqb_refl v : f64_special v = false -> SFeqb v v = true.
Proof.
  destruct v as [s|s| |s m e]; try done. intros _. unfold SFeqb, SFcompare.
  rewrite Z.compare_refl, Pos.compare_cont_refl. by destruct s.
Qed.

(** ** The history is dense *)

(** The versions of one metric are 1, 2, ..., in the order they were inserted. *)
Definition versions_of (project metric : string) (t : target_table) : list Z :=
  map mt_Version (List.filter (of_metric project metric) t).

Definition dense (t : target_table) : Prop :=
  forall project metric,
    versions_of project metric t = seqZ 1 (Z.of_nat (length (versions_of project metric t))).

Lemma versions_of_app project metric t r :
  versions_of project metric (t ++ [r]) =
  versions_of project metric t ++ (if of_metric project metric r then [mt_Version r] else []).
Proof.
  unfold versions_of. rewrite List.filter_app, map_app. f_equal. cbn. by destruct (of_metric project metric r).
Qed.

Lemma elem_of_versions project metric t v :
  v ∈ versions_of project metric t <-> exists x, x ∈ t /\ of_metric project metric x = true /\ mt_Version x = v.
Proof.
  unfold versions_of. rewrite list_elem_of_In, in_map_iff. setoid_rewrite filter_In.
  setoid_rewrite <- list_elem_of_In.
  split; intros (x & Hx); exists x; tauto.
Qed.

(** The next version counts the versions. *)
Lemma dense_next project metric t :
  dense t -> next_version (latestMetricTarget t project metric) =
  1 + Z.of_nat (length (versions_of project metric t)).
Proof.
  intros Hd. specialize (Hd project metric). unfold latestMetricTarget.
  destruct (newest (of_metric project metric) t) as [l|] eqn:Hl; cbn.
  - apply newest_Some in Hl as (Hin & Hp & Hall).
    assert (Hv : mt_Version l ∈ versions_of project metric t) by (apply elem_of_versions; eauto).
    rewrite Hd in Hv. apply elem_of_seqZ in Hv.
    assert (Hlast : Z.of_nat (length (versions_of project metric t)) ∈ versions_of project metric t).
    { rewrite Hd at 2. apply elem_of_seqZ. lia. }
    apply elem_of_versions in Hlast as (x & Hx & Hpx & Hvx). specialize (Hall _ Hx Hpx). lia.
  - destruct (versions_of project metric t) as [|v vs] eqn:E; [done|].
    assert (v ∈ versions_of project metric t) as (x & Hx & Hp & _)%elem_of_versions by (rewrite E; left).
    by rewrite (newest_is_None _ _ Hl _ Hx) in Hp.
Qed.

Lemma dense_below project metric t x :
  dense t -> x ∈ t -> of_metric project metric x = true ->
  1 <= mt_Version x < next_version (latestMetricTarget t project metric).
Proof.
  intros Hd Hx Hp. rewrite dense_next by done.
  assert (Hv : mt_Version x ∈ versions_of project metric t) by (apply elem_of_versions; eauto).
  rewrite Hd in Hv. apply elem_of_seqZ in Hv. lia.
Qed.

Lemma of_metric_iff project metric r :
  of_metric project metric r = true <-> mt_ProjectID r = project /\ mt_Metric r = metric.
Proof. unfold of_metric. by rewrite andb_true_iff, !String.eqb_eq. Qed.

Lemma dense_snoc t r :
  dense t -> mt_Version r = next_version (latestMetricTarget t (mt_ProjectID r) (mt_Metric r)) ->
  dense (t ++ [r]).
Proof.
  intros Hd Hv project metric. rewrite versions_of_app. destruct (of_metric project metric r) eqn:Hp.
  - apply of_metric_iff in Hp as [<- <-]. rewrite length_app, Hv, dense_next by done. cbn.
    rewrite Nat2Z.inj_add, seqZ_app by lia. rewrite <- (Hd (mt_ProjectID r) (mt_Metric r)). done.
  - rewrite app_nil_r. apply Hd.
Qed.

Lemma dense_unique t p m x y :
  dense t -> x ∈ t -> y ∈ t -> of_metric p m x = true -> of_metric p m y = true ->
  mt_Version x = mt_Version y -> x = y.
Proof.
  intros Hd. specialize (Hd p m).
  assert (Hnd : NoDup (versions_of p m t)) by (rewrite Hd; apply NoDup_seqZ).
  unfold versions_of in Hnd. intros Hx Hy Hpx Hpy Hv.
  assert (Hinj : forall l : list MetricTarget, NoDup (map mt_Version l) -> forall a b, a ∈ l -> b ∈ l ->
    mt_Version a = mt_Version b -> a = b).
  { induction l as [|c l IH]; intros Hl a b Ha Hb Hab; [by apply not_elem_of_nil in Ha|].
    apply NoDup_cons in Hl as [Hc Hl].
    assert (Hmem : forall z, z ∈ l -> mt_Version z ∈ map mt_Version l).
    { intros z Hz. apply list_elem_of_In, in_map. by apply list_elem_of_In. }
    apply elem_of_cons in Ha as [->|Ha], Hb as [->|Hb]; [done| | |by apply IH].
    - destruct Hc. rewrite Hab. auto.
    - destruct Hc. rewrite <- Hab. auto. }
  apply (Hinj _ Hnd); [| |done]; apply list_elem_of_In, filter_In; split; try done; by apply list_elem_of_In.
Qed.

Lemma upper_byte_idemp c : upper_byte (upper_byte c) = upper_byte c.
Proof. by destruct c as [[] [] [] [] [] [] [] []]. Qed.

Lemma is_space_upper c : is_space (upper_byte c) = is_space c.
Proof. by destruct c as [[] [] [] [] [] [] [] []]. Qed.

Lemma to_upper_idemp s : to_upper (to_upper s) = to_upper s.
Proof. unfold to_upper. induction s as [|a s IH]; cbn; [done|]. by rewrite IH, upper_byte_idemp. Qed.

Lemma trim_space_upper s : trim_space (to_upper s) = to_upper (trim_space s).
Proof.
  assert (Hl : trim_left (to_upper s) = to_upper (trim_left s)).
  { induction s as [|a s IH]; cbn; [done|]. rewrite is_space_upper. by destruct (is_space a). }
  unfold trim_space. rewrite Hl. clear Hl. generalize (trim_left s) as u.
  induction u as [|a u IH]; cbn; [done|]. unfold to_upper in *. rewrite IH.
  destruct (trim_right u); cbn; [|done]. rewrite is_space_upper. by destruct (is_space a).
Qed.

(** What a write does: nothing, or one row after the others. *)
Section TargetLemmas.
Context `{Rfc3339}.

Lemma set_cases now project w t t' r :
  setMetricTarget now project w t = Ok (t', r) ->
  exists def spec, MetricCatalogEntry (trim_space (tw_Metric w)) = Some def /\ declared_spec def w = Ok spec /\
    mt_ProjectID r = project /\ mt_Metric r = trim_space (tw_Metric w) /\
  ((t' = t /\ latestMetricTarget t project (trim_space (tw_Metric w)) = Some r /\
    sameMetricTarget (Some r) (tw_Clear w) spec = true) \/
   (t' = t ++ [r] /\
    sameMetricTarget (latestMetricTarget t project (trim_space (tw_Metric w))) (tw_Clear w) spec = false /\
    mt_Version r = next_version (latestMetricTarget t project (trim_space (tw_Metric w))) /\
    mt_Cleared r = tw_Clear w /\ mt_Direction r = ts_Direction spec /\ mt_Value r = ts_Value spec /\
    mt_PeriodDays r = mustPeriodDays (ts_Period spec) /\ mt_Currency r = ts_Currency spec /\
    mt_EffectiveAt r = stored_instant (if (ts_EffectiveAt spec =? "")%string then now
                                       else default now (parse_instant (ts_EffectiveAt spec))))).
Proof.
  unfold setMetricTarget. destruct (MetricCatalogEntry _) as [def|]; [|done].
  destruct (declared_spec def w) as [spec|] eqn:Hs; [|done]. intros Hset. exists def, spec.
  split; [done|]. split; [done|].
  destruct (latestMetricTarget t project (trim_space (tw_Metric w))) as [l|] eqn:Hl;
    [destruct (sameMetricTarget (Some l) (tw_Clear w) spec) eqn:Hsame|].
  - injection Hset as <- <-. pose proof (newest_Some _ _ _ Hl) as (_ & Hp & _).
    apply of_metric_iff in Hp as [Hp1 Hp2]. split_and!; [done..|]. by left.
  - destruct ((8 <? _) || _); [done|]. injection Hset as <- <-. split_and!; [done..|]. by right.
  - destruct ((8 <? _) || _); [done|]. injection Hset as <- <-. split_and!; [done..|]. by right.
Qed.

Lemma set_above project w t r :
  dense t -> mt_ProjectID r = project -> mt_Metric r = trim_space (tw_Metric w) ->
  mt_Version r = next_version (latestMetricTarget t project (trim_space (tw_Metric w))) ->
  forall p m x, x ∈ t -> of_metric p m x = true -> of_metric p m r = true -> mt_Version x < mt_Version r.
Proof.
  intros Hd Hp Hm Hv p m x Hx [<- <-]%of_metric_iff [E1 E2]%of_metric_iff. rewrite Hv, <- Hp, <- Hm, E1, E2.
  apply dense_below; [done..|]. by apply of_metric_iff.
Qed.

Lemma set_latest now project w t t' r :
  dense t -> setMetricTarget now project w t = Ok (t', r) ->
  dense t' /\ latestMetricTarget t' project (trim_space (tw_Metric w)) = Some r.
Proof.
  intros Hd Hset. destruct (set_cases _ _ _ _ _ _ Hset) as (def & spec & _ & _ & Hp & Hm & Hcases).
  destruct Hcases as [(-> & Hl & _)|(-> & _ & Hv & _)]; [done|].
  split; [apply dense_snoc; [done|by rewrite Hp, Hm]|].
  unfold latestMetricTarget. rewrite newest_snoc.
  - by rewrite (proj2 (of_metric_iff _ _ _)).
  - intros x Hx Hpx. apply (set_above project w t r Hd Hp Hm Hv project (trim_space (tw_Metric w))); [done..|].
    by apply of_metric_iff.
Qed.

(** The history of targets only grows, its versions stay 1, 2, ... for every metric of
    every project, and a version takes force exactly from its instant on: windows that end
    before it are judged by the target they were judged by, for this and every other metric. *)
Theorem target_history_is_dated now project w t t' r :
  dense t -> setMetricTarget now project w t = Ok (t', r) ->
  dense t' /\ (t' = t \/ t' = t ++ [r]) /\ latestMetricTarget t' project (trim_space (tw_Metric w)) = Some r /\
  forall p m at_,
    metricTargetInForce t' p m at_ =
    (if (length t <? length t')%nat && of_metric p m r && (mt_EffectiveAt r <=? at_)
     then Some r else metricTargetInForce t p m at_).
Proof.
  intros Hd Hset. destruct (set_latest _ _ _ _ _ _ Hd Hset) as [Hd' Hl].
  destruct (set_cases _ _ _ _ _ _ Hset) as (def & spec & _ & _ & Hp & Hm & Hcases).
  destruct Hcases as [(-> & _ & _)|(-> & _ & Hv & _)].
  - split_and!; [done|by left|done|]. intros p m at_. by rewrite Nat.ltb_irrefl.
  - split_and!; [done|by right|done|]. intros p m at_.
    rewrite length_app, (proj2 (Nat.ltb_lt _ _)) by (cbn; lia).
    cbn. unfold metricTargetInForce. destruct (of_metric p m r) eqn:Hr; cbn.
    + rewrite newest_snoc; [by rewrite Hr|]. intros x Hx [Hpx _]%andb_true_iff. exact (set_above project w t r Hd Hp Hm Hv p m x Hx Hpx Hr).
    + unfold newest. rewrite fold_left_app. cbn. by rewrite Hr.
Qed.

Lemma normalize_Ok def s s' :
  normalizeMetricTargetSpec def s = Ok s' ->
  s' = trimmed_spec s /\ f64_special (ts_Value s) = false /\ instant_ok (trim_space (ts_EffectiveAt s)) = true.
Proof.
  unfold normalizeMetricTargetSpec. cbv zeta.
  change (ts_Value (trimmed_spec s)) with (ts_Value s).
  change (ts_EffectiveAt (trimmed_spec s)) with (trim_space (ts_EffectiveAt s)).
  repeat (match goal with |- context [if ?b then _ else _] => destruct b eqn:? end; try discriminate).
  intros [= <-]. bool_props. done.
Qed.

(** A normalized spec is accepted as it is. *)
Lemma normalize_spec_idemp def s s' :
  normalizeMetricTargetSpec def s = Ok s' -> normalizeMetricTargetSpec def s' = Ok s'.
Proof.
  intros Hs. destruct (normalize_Ok _ _ _ Hs) as [Heq _].
  assert (Htrim : trimmed_spec s' = s').
  { subst s'. unfold trimmed_spec. cbn [ts_Direction ts_Value ts_Period ts_Currency ts_EffectiveAt]. f_equal.
    - by rewrite trim_space_lower, to_lower_idemp, trim_space_idemp.
    - apply trim_space_idemp.
    - by rewrite trim_space_upper, to_upper_idemp, trim_space_idemp.
    - apply trim_space_idemp. }
  unfold normalizeMetricTargetSpec in *. rewrite Htrim. rewrite <- Heq in Hs. exact Hs.
Qed.

Lemma declared_spec_Ok def w spec :
  declared_spec def w = Ok spec ->
  ts_EffectiveAt spec = trim_space (ts_EffectiveAt (tw_Spec w)) /\ instant_ok (ts_EffectiveAt spec) = true /\
  (tw_Clear w = false -> f64_special (ts_Value spec) = false).
Proof.
  unfold declared_spec. destruct (tw_Clear w); cbv zeta.
  - destruct (instant_ok _) eqn:Hi; [|done]. by intros [= <-].
  - by intros (-> & Hv & Hi)%normalize_Ok.
Qed.

(** A spec whose instant the database keeps exactly. *)
Definition kept_instant (s : string) : Prop :=
  forall at_, parse_instant (trim_space s) = Some at_ -> stored_instant at_ = at_.

(** Declaring a target again appends nothing and answers with the version that stands, at
    any later time and whatever the history before; for a declaration with an instant, when
    that instant has no fraction of a microsecond. *)
Theorem restated_target_appends_nothing now now' project w t t' r :
  dense t -> setMetricTarget now project w t = Ok (t', r) ->
  tw_Clear w = true \/ kept_instant (ts_EffectiveAt (tw_Spec w)) ->
  setMetricTarget now' project w t' = Ok (t', r).
Proof.
  intros Hd Hset Hkept. destruct (set_latest _ _ _ _ _ _ Hd Hset) as [_ Hl].
  destruct (set_cases _ _ _ _ _ _ Hset) as (def & spec & Hdef & Hspec & Hp & Hm & Hcases).
  destruct (declared_spec_Ok _ _ _ Hspec) as (He & Hi & Hv).
  assert (Hsame : sameMetricTarget (Some r) (tw_Clear w) spec = true).
  { destruct Hcases as [(_ & _ & Hsame)|(_ & _ & _ & Hc & Hdir & Hval & Hper & Hcur & Hat)]; [done|].
    unfold sameMetricTarget. destruct (tw_Clear w) eqn:Hw; [done|].
    rewrite Hc, Hdir, Hval, Hper, Hcur, !String.eqb_refl, Z.eqb_refl, SFeqb_refl
      by (by apply Hv). cbn.
    destruct Hkept as [|Hkept]; [done|].
    destruct (String.eqb_spec (ts_EffectiveAt spec) "") as [|Hne]; [done|].
    unfold instant_ok in Hi. rewrite (proj2 (String.eqb_neq _ _) Hne) in Hi. cbn in Hi.
    rewrite He in Hat, Hi |- *. destruct (parse_instant _) as [a|] eqn:Ha; [|done]. cbn in Hat. rewrite Hat.
    apply Z.eqb_eq. by apply Hkept. }
  unfold setMetricTarget. by rewrite Hdef, Hspec, Hl, Hsame.
Qed.

(** A declaration without an instant is in force from the moment it is made, except when it
    restates a version scheduled for later: that version answers it, and stays scheduled. *)
Theorem immediate_target_in_force now project w t t' r :
  dense t -> setMetricTarget now project w t = Ok (t', r) -> trim_space (ts_EffectiveAt (tw_Spec w)) = "" ->
  metricTargetInForce t' project (trim_space (tw_Metric w)) now = Some r \/
  (t' = t /\ now < mt_EffectiveAt r /\ r ∈ t /\
   metricTargetInForce t' project (trim_space (tw_Metric w)) now <> Some r).
Proof.
  intros Hd Hset He. destruct (set_latest _ _ _ _ _ _ Hd Hset) as [Hd' Hl].
  destruct (newest_Some _ _ _ Hl) as (Hin & Hp & Hmax).
  assert (Hnow : mt_EffectiveAt r <= now ->
    metricTargetInForce t' project (trim_space (tw_Metric w)) now = Some r).
  { intros Hle. unfold metricTargetInForce.
    destruct (newest _ t') as [x|] eqn:Hx.
    - apply newest_Some in Hx as (Hx1 & Hx2 & Hx3). f_equal.
      apply andb_true_iff in Hx2 as [Hx2 _]. specialize (Hmax _ Hx1 Hx2).
      specialize (Hx3 r Hin). rewrite Hp, (proj2 (Z.leb_le _ _) Hle) in Hx3. specialize (Hx3 eq_refl).
      eapply dense_unique; [exact Hd'|done|done|exact Hx2|exact Hp|lia].
    - pose proof (newest_is_None _ _ Hx _ Hin) as Hf. cbn in Hf. rewrite Hp in Hf.
      by rewrite (proj2 (Z.leb_le _ _) Hle) in Hf. }
  destruct (Z.le_gt_cases (mt_EffectiveAt r) now) as [Hle|Hgt]; [by left; auto|]. right.
  destruct (set_cases _ _ _ _ _ _ Hset) as (def & spec & Hdef & Hspec & _ & _ & [(-> & _)|Happ]).
  - split_and!; [done|lia|done|]. intros Hf. apply newest_Some in Hf as (_ & Hf & _). bool_props. lia.
  - destruct Happ as (_ & _ & _ & _ & _ & _ & _ & _ & Hat).
    destruct (declared_spec_Ok _ _ _ Hspec) as (Hs & _). rewrite Hs, He in Hat. cbn in Hat. rewrite Hat in Hgt. unfold stored_instant in Hgt.
    pose proof (Z.mul_div_le now 1000). lia.
Qed.
End TargetLemmas.

(** ** Witnesses *)

(** Instants written as a number of nanoseconds. *)
Definition w_instants : Rfc3339 := {| parse_instant := atoi |}.

Definition w_value (m : positive) (e : Z) : spec_float := S754_finite false m e.

Definition w_spec (value : spec_float) (effective : string) : MetricTargetSpec :=
  {| ts_Direction := " GTE"; ts_Value := value; ts_Period := "7d"; ts_Currency := ""; ts_EffectiveAt := effective |}.

(** 40% and 50%, as binary64. *)
Definition w_forty : spec_float := w_value 5629499534213120 (-47).
Definition w_fifty : spec_float := w_value 7036874417766400 (-47).

Definition w_write (value : spec_float) (effective : string) : MetricTargetWrite :=
  {| tw_Metric := "activation"; tw_Spec := w_spec value effective; tw_Clear := false |}.

Definition w_row (version : Z) (value : spec_float) (effective : Z) : MetricTarget :=
  {| mt_ProjectID := "p"; mt_Metric := "activation"; mt_Version := version; mt_Cleared := false;
     mt_Direction := "gte"; mt_Value := value; mt_PeriodDays := 7; mt_Currency := ""; mt_EffectiveAt := effective |}.

(** 40% in force, 50% from 9000 on. *)
Definition w_history : target_table := [w_row 1 w_forty 1000; w_row 2 w_fifty 9000].

Lemma w_dense : dense w_history.
Proof.
  intros p m. unfold versions_of, w_history. cbn [List.filter]. unfold of_metric. cbn [mt_ProjectID mt_Metric w_row].
  destruct ("p" =? p)%string, ("activation" =? m)%string; reflexivity.
Qed.

Lemma target_history_is_dated_witness :
  metricTargetInForce (w_history ++ [w_row 3 w_forty 12000]) "p" "activation" 10000 = Some (w_row 2 w_fifty 9000).
Proof.
  pose proof (@target_history_is_dated w_instants 5000 "p" (w_write w_forty "12000") w_history
    (w_history ++ [w_row 3 w_forty 12000]) (w_row 3 w_forty 12000) w_dense eq_refl) as (_ & _ & _ & H).
  rewrite H. reflexivity.
Defined.

Lemma restated_target_appends_nothing_witness :
  @setMetricTarget w_instants 6000 "p" (w_write w_forty "12000") (w_history ++ [w_row 3 w_forty 12000]) =
  Ok (w_history ++ [w_row 3 w_forty 12000], w_row 3 w_forty 12000).
Proof.
  apply (@restated_target_appends_nothing w_instants 5000 6000 "p" (w_write w_forty "12000") w_history
    (w_history ++ [w_row 3 w_forty 12000]) (w_row 3 w_forty 12000) w_dense eq_refl).
  right. intros at_ H. vm_compute in H. injection H as <-. reflexivity.
Defined.

Lemma immediate_target_in_force_witness :
  metricTargetInForce (w_history ++ [w_row 3 w_forty 5000]) "p" "activation" 5000 = Some (w_row 3 w_forty 5000).
Proof.
  destruct (@immediate_target_in_force w_instants 5000 "p" (w_write w_forty "") w_history
    (w_history ++ [w_row 3 w_forty 5000]) (w_row 3 w_forty 5000) w_dense eq_refl eq_refl) as [H|(H & _)].
  - exact H.
  - discriminate H.
Defined.

(** Asking for 50% now, when 50% is scheduled, is answered with the scheduled version; 40% stays
    in force. *)
Example scheduled_restatement_is_swallowed :
  @setMetricTarget w_instants 5000 "p" (w_write w_fifty "") w_history = Ok (w_history, w_row 2 w_fifty 9000) /\
  metricTargetInForce w_history "p" "activation" 5000 = Some (w_row 1 w_forty 1000).
Proof. split; reflexivity. Qed.

(** An instant with a fraction of a microsecond is stored without it, so each repetition of the
    declaration appends a version. *)
Example fractional_instant_never_dedups :
  let w := w_write w_forty "5001" in
  exists t1 t2 r1 r2,
    @setMetricTarget w_instants 1 "p" w [] = Ok (t1, r1) /\ @setMetricTarget w_instants 1 "p" w t1 = Ok (t2, r2) /\
    length t2 = 2%nat.
Proof. do 4 eexists. split_and!; reflexivity. Qed.
