(* ===== verification/BoardDefinition.v ===== *)
(** * BoardDefinition: the declared content of a board

    The document of internal/dataplane/store/boards.go: sections of tiles, where a tile
    is a catalog metric, a saved chart or a funnel over event names.  Its normalization
    and validation, field by field and with every rejection of the code; the code
    normalizes the document in place, here the new document is returned.  A Go slice
    that is nil or empty is the empty list, except for the steps of a tile, where the
    code tells them apart. *)

From S2P Require Import Prelude GoStrings Duck Platform MetricTargets.
From Stdlib Require Import Ascii SpecFloat.
Import String.
Open Scope string_scope.
Open Scope list_scope.
Open Scope Z_scope.

(** ** The document *)

Definition BoardDefinitionVersion : Z := 1.

Definition TileKindMetric := "metric".
Definition TileKindChart := "chart".
Definition TileKindFunnel := "funnel".

Definition boardMaxSections : nat := 12.
Definition boardMaxTilesPerSection : nat := 24.
Definition boardMaxSpan : Z := 3.
Definition boardKeyMaxLen : nat := 64.
Definition funnelMaxSteps : nat := 12.

Record BoardTileParams := { bp_Period : string; bp_Platform : string }.

Record BoardTile := {
  bt_Key : string; bt_Title : string; bt_Kind : string; bt_Display : string; bt_Span : Z;
  bt_Metric : string; bt_Target : option MetricTargetSpec; bt_ChartID : string;
  bt_Steps : option (list string); bt_Params : option BoardTileParams;
}.

Record BoardSection := { bs_Key : string; bs_Title : string; bs_Description : string; bs_Tiles : list BoardTile }.

Record BoardDefinition := { bd_Version : Z; bd_Sections : list BoardSection }.

Inductive definition_error :=
| UnsupportedVersion | TooManySections | BadSectionKey | DuplicateSectionKey | SectionWithoutTitle | TooManyTiles
| BadTileKey | DuplicateTileKey | SeveralSubjects | NoSubject | ForeignSubject | UnknownMetric
| DisplayNotAllowed | BadParams | TargetRefused (e : target_error) | NoChartID | BadChartID | DisplayRefused
| ParamsRefused | TargetNotAllowed | TooFewSteps | TooManySteps | EmptyStep | UnknownKind | BadSpan
| ConflictingTargets.

(** [^[a-z0-9][a-z0-9_-]{0,63}$] *)
Definition key_head (c : ascii) : bool := ((97 <=? byte c) && (byte c <=? 122)) || is_digit c.

Definition key_tail (c : ascii) : bool := key_head c || Ascii.eqb c "_"%char || Ascii.eqb c "-"%char.

Definition boardKeyRe (s : string) : bool :=
  match s with
  | EmptyString => false
  | String c s' =>
      key_head c && negb (exists_byte (fun c => negb (key_tail c)) s') && (String.length s' <=? boardKeyMaxLen - 1)%nat
  end.

Definition PlatformUnknown := "unknown".

Definition validateTileParams (p : BoardTileParams) : bool :=
  validPeriod (bp_Period p) &&
  existsb (String.eqb (bp_Platform p))
    [""; PlatformWeb; PlatformIOS; PlatformAndroid; PlatformServer; PlatformUnknown].

(** ** Normalization *)

Section Normalize.
Context `{UuidEnv} `{Rfc3339}.

(** The trimming and lower-casing the code starts with. *)
Definition trimmed_tile (t : BoardTile) : BoardTile :=
  {| bt_Key := trim_space (bt_Key t); bt_Title := trim_space (bt_Title t);
     bt_Kind := to_lower (trim_space (bt_Kind t)); bt_Display := to_lower (trim_space (bt_Display t));
     bt_Span := bt_Span t; bt_Metric := trim_space (bt_Metric t); bt_Target := bt_Target t;
     bt_ChartID := trim_space (bt_ChartID t); bt_Steps := map trim_space <$> bt_Steps t;
     bt_Params := bt_Params t |}.

Definition count_true (l : list bool) : nat := length (List.filter id l).

(** The kind of a tile that declares none, from its one subject. *)
Definition inferred_kind (t : BoardTile) : result definition_error string :=
  if negb (bt_Kind t =? "")%string then Ok (bt_Kind t)
  else if (1 <? count_true [negb (bt_Metric t =? "")%string; negb (bt_ChartID t =? "")%string; is_some (bt_Steps t)])%nat
  then Err SeveralSubjects
  else if negb (bt_Metric t =? "")%string then Ok TileKindMetric
  else if negb (bt_ChartID t =? "")%string then Ok TileKindChart
  else if is_some (bt_Steps t) then Ok TileKindFunnel
  else Err NoSubject.

Definition trimmed_params (p : BoardTileParams) : BoardTileParams :=
  {| bp_Period := trim_space (bp_Period p); bp_Platform := to_lower (trim_space (bp_Platform p)) |}.

Definition normalize_params (p : option BoardTileParams) : result definition_error (option BoardTileParams) :=
  match p with
  | None => Ok None
  | Some p => if validateTileParams (trimmed_params p) then Ok (Some (trimmed_params p)) else Err BadParams
  end.

Definition normalize_target (def : MetricDefinition) (t : option MetricTargetSpec) :
    result definition_error (option MetricTargetSpec) :=
  match t with
  | None => Ok None
  | Some s =>
      match normalizeMetricTargetSpec def s with
      | Ok s' => Ok (Some s')
      | Err e => Err (TargetRefused e)
      end
  end.

(** A tile with the fields its kind decides. *)
Definition rebuilt (t : BoardTile) (kind display chart : string) (target : option MetricTargetSpec)
    (params : option BoardTileParams) : BoardTile :=
  {| bt_Key := bt_Key t; bt_Title := bt_Title t; bt_Kind := kind; bt_Display := display; bt_Span := bt_Span t;
     bt_Metric := bt_Metric t; bt_Target := target; bt_ChartID := chart; bt_Steps := bt_Steps t;
     bt_Params := params |}.

Definition metric_tile (t : BoardTile) : result definition_error BoardTile :=
  if negb (bt_ChartID t =? "")%string || is_some (bt_Steps t) then Err ForeignSubject
  else
    match MetricCatalogEntry (bt_Metric t) with
    | None => Err UnknownMetric
    | Some def =>
        let display := if (bt_Display t =? "")%string then DefaultDisplay def else bt_Display t in
        if negb (AllowsDisplay def display) then Err DisplayNotAllowed
        else
          match normalize_params (bt_Params t) with
          | Err e => Err e
          | Ok params =>
              match normalize_target def (bt_Target t) with
              | Err e => Err e
              | Ok target => Ok (rebuilt t TileKindMetric display (bt_ChartID t) target params)
              end
          end
    end.

Definition chart_tile (t : BoardTile) : result definition_error BoardTile :=
  if negb (bt_Metric t =? "")%string || is_some (bt_Steps t) then Err ForeignSubject
  else if (bt_ChartID t =? "")%string then Err NoChartID
  else
    match uuid_parse (bt_ChartID t) with
    | None => Err BadChartID
    | Some id =>
        if negb (bt_Display t =? "")%string then Err DisplayRefused
        else if is_some (bt_Params t) then Err ParamsRefused
        else if is_some (bt_Target t) then Err TargetNotAllowed
        else Ok (rebuilt t TileKindChart (bt_Display t) id (bt_Target t) (bt_Params t))
    end.

Definition funnel_tile (t : BoardTile) : result definition_error BoardTile :=
  if negb (bt_Metric t =? "")%string || negb (bt_ChartID t =? "")%string then Err ForeignSubject
  else if negb (bt_Display t =? "")%string then Err DisplayRefused
  else if is_some (bt_Params t) then Err ParamsRefused
  else if is_some (bt_Target t) then Err TargetNotAllowed
  else
    let done := Ok (rebuilt t TileKindFunnel (bt_Display t) (bt_ChartID t) (bt_Target t) (bt_Params t)) in
    match bt_Steps t with
    | None => done
    | Some steps =>
        if (length steps <? 2)%nat then Err TooFewSteps
        else if (funnelMaxSteps <? length steps)%nat then Err TooManySteps
        else if existsb (String.eqb "") steps then Err EmptyStep
        else done
    end.

Definition with_span (t : BoardTile) (span : Z) : BoardTile :=
  {| bt_Key := bt_Key t; bt_Title := bt_Title t; bt_Kind := bt_Kind t; bt_Display := bt_Display t; bt_Span := span;
     bt_Metric := bt_Metric t; bt_Target := bt_Target t; bt_ChartID := bt_ChartID t; bt_Steps := bt_Steps t;
     bt_Params := bt_Params t |}.

Definition normalize_span (t : BoardTile) : result definition_error BoardTile :=
  if bt_Span t =? 0 then Ok (with_span t 1)
  else if (bt_Span t <? 1) || (boardMaxSpan <? bt_Span t) then Err BadSpan
  else Ok t.

Definition by_kind (kind : string) (t : BoardTile) : result definition_error BoardTile :=
  if (kind =? TileKindMetric)%string then metric_tile t
  else if (kind =? TileKindChart)%string then chart_tile t
  else if (kind =? TileKindFunnel)%string then funnel_tile t
  else Err UnknownKind.

Definition normalizeBoardTile (tile : BoardTile) : result definition_error BoardTile :=
  let t := trimmed_tile tile in
  if negb (boardKeyRe (bt_Key t)) then Err BadTileKey
  else
    match inferred_kind t with
    | Err e => Err e
    | Ok kind =>
        match by_kind kind t with
        | Err e => Err e
        | Ok t' => normalize_span t'
        end
    end.

(** Go's [==] on two specs. *)
Definition spec_eqb (a b : MetricTargetSpec) : bool :=
  (ts_Direction a =? ts_Direction b)%string && SFeqb (ts_Value a) (ts_Value b) &&
  (ts_Period a =? ts_Period b)%string && (ts_Currency a =? ts_Currency b)%string &&
  (ts_EffectiveAt a =? ts_EffectiveAt b)%string.

(** The keys seen and the targets declared so far. *)
Record seen := { sn_sections : list string; sn_tiles : list string; sn_targets : gmap string MetricTargetSpec }.

Definition normalize_tile_step (sn : seen) (tile : BoardTile) : result definition_error (seen * BoardTile) :=
  match normalizeBoardTile tile with
  | Err e => Err e
  | Ok t =>
      if existsb (String.eqb (bt_Key t)) (sn_tiles sn) then Err DuplicateTileKey
      else
        let sn1 := {| sn_sections := sn_sections sn; sn_tiles := bt_Key t :: sn_tiles sn; sn_targets := sn_targets sn |} in
        match bt_Target t with
        | Some s =>
            if (bt_Kind t =? TileKindMetric)%string then
              match sn_targets sn !! bt_Metric t with
              | Some prev =>
                  if negb (spec_eqb prev s) then Err ConflictingTargets
                  else Ok ({| sn_sections := sn_sections sn; sn_tiles := bt_Key t :: sn_tiles sn;
                              sn_targets := <[bt_Metric t := s]> (sn_targets sn) |}, t)
              | None =>
                  Ok ({| sn_sections := sn_sections sn; sn_tiles := bt_Key t :: sn_tiles sn;
                         sn_targets := <[bt_Metric t := s]> (sn_targets sn) |}, t)
              end
            else Ok (sn1, t)
        | None => Ok (sn1, t)
        end
  end.

(** A loop that replaces each element by its normal form and threads what was seen. *)
Fixpoint normalize_all {A} (step : seen -> A -> result definition_error (seen * A)) (sn : seen) (l : list A) :
    result definition_error (seen * list A) :=
  match l with
  | [] => Ok (sn, [])
  | x :: l' =>
      match step sn x with
      | Err e => Err e
      | Ok (sn', x') =>
          match normalize_all step sn' l' with
          | Err e => Err e
          | Ok (sn'', l'') => Ok (sn'', x' :: l'')
          end
      end
  end.

Definition normalize_section_step (sn : seen) (s : BoardSection) : result definition_error (seen * BoardSection) :=
  let key := trim_space (bs_Key s) in
  let title := trim_space (bs_Title s) in
  if negb (boardKeyRe key) then Err BadSectionKey
  else if existsb (String.eqb key) (sn_sections sn) then Err DuplicateSectionKey
  else if (title =? "")%string then Err SectionWithoutTitle
  else if (boardMaxTilesPerSection <? length (bs_Tiles s))%nat then Err TooManyTiles
  else
    let sn1 := {| sn_sections := key :: sn_sections sn; sn_tiles := sn_tiles sn; sn_targets := sn_targets sn |} in
    match normalize_all normalize_tile_step sn1 (bs_Tiles s) with
    | Err e => Err e
    | Ok (sn2, tiles) =>
        Ok (sn2, {| bs_Key := key; bs_Title := title; bs_Description := bs_Description s; bs_Tiles := tiles |})
    end.

Definition nothing_seen : seen := {| sn_sections := []; sn_tiles := []; sn_targets := ∅ |}.

Definition normalizeBoardDefinition (d : BoardDefinition) : result definition_error BoardDefinition :=
  let version := if bd_Version d =? 0 then BoardDefinitionVersion else bd_Version d in
  if negb (version =? BoardDefinitionVersion) then Err UnsupportedVersion
  else if (boardMaxSections <? length (bd_Sections d))%nat then Err TooManySections
  else
    match normalize_all normalize_section_step nothing_seen (bd_Sections d) with
    | Err e => Err e
    | Ok (_, sections) => Ok {| bd_Version := version; bd_Sections := sections |}
    end.

End Normalize.

(** The document of a column that was never written. *)
Definition decodeBoardDefinition (raw : option BoardDefinition) : BoardDefinition :=
  match raw with
  | None => {| bd_Version := BoardDefinitionVersion; bd_Sections := [] |}
  | Some d =>
      {| bd_Version := if bd_Version d =? 0 then BoardDefinitionVersion else bd_Version d;
         bd_Sections := bd_Sections d |}
  end.

Definition all_tiles (d : BoardDefinition) : list BoardTile := concat (map bs_Tiles (bd_Sections d)).

(** The one subject of a tile and the fields that go with it. *)
Inductive subject `{UuidEnv} (t : BoardTile) : Prop :=
| metric_subject def :
    bt_Kind t = TileKindMetric -> MetricCatalogEntry (bt_Metric t) = Some def ->
    AllowsDisplay def (bt_Display t) = true -> bt_ChartID t = "" -> bt_Steps t = None -> subject t
| chart_subject :
    bt_Kind t = TileKindChart -> uuid_parse (bt_ChartID t) = Some (bt_ChartID t) -> bt_Metric t = "" ->
    bt_Steps t = None -> bt_Display t = "" -> bt_Params t = None -> bt_Target t = None -> subject t
| funnel_subject :
    bt_Kind t = TileKindFunnel -> bt_Metric t = "" -> bt_ChartID t = "" -> bt_Display t = "" ->
    bt_Params t = None -> bt_Target t = None ->
    (forall steps, bt_Steps t = Some steps ->
       (2 <= length steps <= funnelMaxSteps)%nat /\ "" ∉ steps) -> subject t.

(** ** Lemmas *)

(** What the code relies on of a parsed UUID's text: it parses to itself and has no blanks. *)
Class CanonicalUuid `{UuidEnv} := {
  canonical_parses s u : uuid_parse s = Some u -> uuid_parse u = Some u;
  canonical_text s u : uuid_parse s = Some u -> u <> "" /\ trim_space u = u;
}.

Lemma catalog_displays d :
  d ∈ metricCatalogDecl -> md_Displays d <> [] /\
  forallb (fun x => (to_lower (trim_space x) =? x)%string && negb (x =? "")%string) (md_Displays d) = true.
Proof.
  intros Hd. assert (Hall : forallb (fun d => negb (length (md_Displays d) =? 0)%nat &&
    forallb (fun x => (to_lower (trim_space x) =? x)%string && negb (x =? "")%string) (md_Displays d))
    metricCatalogDecl = true) by reflexivity.
  rewrite forallb_True' in Hall. specialize (Hall _ Hd). apply andb_true_iff in Hall as [Hl Hall].
  split; [|done]. by destruct (md_Displays d).
Qed.

Lemma MetricCatalogEntry_Some key d :
  MetricCatalogEntry key = Some d -> d ∈ metricCatalogDecl /\ md_Key d = key.
Proof. intros [Hin Hk]%find_first_Some. split; [done|]. by apply String.eqb_eq. Qed.

(** A display that is declared or defaulted is drawn as it is written. *)
Lemma chosen_display def display :
  def ∈ metricCatalogDecl -> (display = "" \/ to_lower (trim_space display) = display) ->
  let chosen := if (display =? "")%string then DefaultDisplay def else display in
  to_lower (trim_space chosen) = chosen /\ chosen <> "".
Proof.
  intros Hd Hdisp. destruct (catalog_displays _ Hd) as [Hne Hall]. cbv zeta.
  destruct (String.eqb_spec display "") as [|Hn]; [|split; [by destruct Hdisp|done]].
  unfold DefaultDisplay. destruct (md_Displays def) as [|x l]; [done|]. cbn in Hall.
  apply andb_true_iff in Hall as [Hx _]. apply andb_true_iff in Hx as [Hx1 Hx2]. split; [by apply String.eqb_eq|].
  apply negb_true_iff in Hx2. by apply String.eqb_neq.
Qed.

Lemma trim_steps_idemp (o : option (list string)) :
  map trim_space <$> (map trim_space <$> o) = map trim_space <$> o.
Proof. destruct o as [l|]; [|done]. cbn. f_equal. rewrite map_map. apply map_ext. apply trim_space_idemp. Qed.

(** Simplifies [trimmed_tile t = t] for a tile built of trimmed parts. *)
Ltac trim_again :=
  unfold trimmed_tile, rebuilt;
  cbn [bt_Key bt_Title bt_Kind bt_Display bt_Span bt_Metric bt_Target bt_ChartID bt_Steps bt_Params];
  rewrite ?trim_space_lower, ?to_lower_idemp, ?trim_space_idemp, ?trim_steps_idemp; try reflexivity.

Section TileLemmas.
Context `{CanonicalUuid} `{Rfc3339}.
#[local] Set Default Proof Using "All".

Lemma trimmed_tile_idemp t : trimmed_tile (trimmed_tile t) = trimmed_tile t.
Proof.
  by trim_again.
Qed.

Lemma normalize_params_idemp p p' : normalize_params p = Ok p' -> normalize_params p' = Ok p'.
Proof.
  destruct p as [p|]; cbn; [|by intros [= <-]]. destruct (validateTileParams _) eqn:Hv; [|done].
  intros [= <-]. cbn. assert (trimmed_params (trimmed_params p) = trimmed_params p) as ->; [|by rewrite Hv].
  unfold trimmed_params. cbn [bp_Period bp_Platform].
  by rewrite trim_space_lower, to_lower_idemp, !trim_space_idemp.
Qed.

Lemma normalize_target_idemp def s s' : normalize_target def s = Ok s' -> normalize_target def s' = Ok s'.
Proof.
  destruct s as [s|]; cbn; [|by intros [= <-]].
  destruct (normalizeMetricTargetSpec def s) as [x|] eqn:Hx; [|done]. intros [= <-]. cbn.
  by rewrite (normalize_spec_idemp _ _ _ Hx).
Qed.

Lemma metric_tile_idemp t t' :
  trimmed_tile t = t -> metric_tile t = Ok t' ->
  trimmed_tile t' = t' /\ metric_tile t' = Ok t' /\ bt_Kind t' = TileKindMetric.
Proof.
  intros Ht. unfold metric_tile at 1. destruct (negb _ || _) eqn:Hf; [done|].
  destruct (MetricCatalogEntry (bt_Metric t)) as [def|] eqn:Hdef; [|done]. cbv zeta.
  destruct (MetricCatalogEntry_Some _ _ Hdef) as [Hin _].
  destruct (chosen_display def (bt_Display t) Hin) as [Hc1 Hc2].
  { right. by rewrite <- Ht at 2. }
  set (display := if (bt_Display t =? "")%string then _ else _) in *.
  destruct (AllowsDisplay def display) eqn:Ha; [|done].
  destruct (normalize_params (bt_Params t)) as [params|] eqn:Hp; [|done].
  destruct (normalize_target def (bt_Target t)) as [target|] eqn:Htg; [|done]. cbn [negb].
  intros [= <-]. split_and!; [| |done].
  - rewrite <- Ht. trim_again. by rewrite Hc1.
  - unfold metric_tile, rebuilt.
    cbn [bt_Key bt_Title bt_Kind bt_Display bt_Span bt_Metric bt_Target bt_ChartID bt_Steps bt_Params].
    rewrite Hf, Hdef. apply String.eqb_neq in Hc2. rewrite Hc2, Ha. cbn [negb].
    by rewrite (normalize_params_idemp _ _ Hp), (normalize_target_idemp _ _ _ Htg).
Qed.

Lemma chart_tile_idemp t t' :
  trimmed_tile t = t -> chart_tile t = Ok t' ->
  trimmed_tile t' = t' /\ chart_tile t' = Ok t' /\ bt_Kind t' = TileKindChart.
Proof.
  intros Ht. unfold chart_tile at 1. destruct (negb _ || _) eqn:Hf; [done|].
  destruct (bt_ChartID t =? "")%string eqn:Hne; [done|].
  destruct (uuid_parse (bt_ChartID t)) as [id|] eqn:Hid; [|done].
  destruct (negb (bt_Display t =? "")%string) eqn:Hd; [done|].
  destruct (is_some (bt_Params t)) eqn:Hp; [done|]. destruct (is_some (bt_Target t)) eqn:Htg; [done|].
  destruct (canonical_text _ _ Hid) as [Hid1 Hid2]. intros [= <-]. split_and!; [| |done].
  - rewrite <- Ht. trim_again. by rewrite Hid2.
  - unfold chart_tile, rebuilt.
    cbn [bt_Key bt_Title bt_Kind bt_Display bt_Span bt_Metric bt_Target bt_ChartID bt_Steps bt_Params].
    apply String.eqb_neq in Hid1. by rewrite Hf, Hid1, (canonical_parses _ _ Hid), Hd, Hp, Htg.
Qed.

Lemma funnel_tile_idemp t t' :
  trimmed_tile t = t -> funnel_tile t = Ok t' ->
  trimmed_tile t' = t' /\ funnel_tile t' = Ok t' /\ bt_Kind t' = TileKindFunnel.
Proof.
  intros Ht Hok.
  assert (Heq : t' = rebuilt t TileKindFunnel (bt_Display t) (bt_ChartID t) (bt_Target t) (bt_Params t)).
  { unfold funnel_tile in Hok. repeat (match type of Hok with context [if ?b then _ else _] => destruct b end; try discriminate).
    destruct (bt_Steps t); [|by injection Hok as <-].
    repeat (match type of Hok with context [if ?b then _ else _] => destruct b end; try discriminate).
    by injection Hok as <-. }
  subst t'. split_and!; [| |done].
  - rewrite <- Ht. trim_again.
  - exact Hok.
Qed.
Lemma by_kind_idemp k t t' :
  trimmed_tile t = t -> by_kind k t = Ok t' -> trimmed_tile t' = t' /\ by_kind k t' = Ok t' /\ bt_Kind t' = k.
Proof.
  intros Ht. unfold by_kind. destruct (String.eqb_spec k TileKindMetric) as [->|]; [by apply metric_tile_idemp|].
  destruct (String.eqb_spec k TileKindChart) as [->|]; [by apply chart_tile_idemp|].
  destruct (String.eqb_spec k TileKindFunnel) as [->|]; [by apply funnel_tile_idemp|done].
Qed.

Lemma by_kind_nonempty k t t' : by_kind k t = Ok t' -> k <> "".
Proof. by intros Hk ->. Qed.

(** What a tile spans does not matter to the other checks. *)
Lemma by_kind_span k t s :
  by_kind k (with_span t s) =
  match by_kind k t with Ok t' => Ok (with_span t' s) | Err e => Err e end.
Proof.
  destruct t as [key ti ki d sp m tg c st p]. unfold by_kind, metric_tile, chart_tile, funnel_tile, with_span.
  cbn [bt_Key bt_Title bt_Kind bt_Display bt_Span bt_Metric bt_Target bt_ChartID bt_Steps bt_Params].
  destruct (k =? TileKindMetric)%string; [|destruct (k =? TileKindChart)%string; [|destruct (k =? TileKindFunnel)%string; [|done]]].
  - destruct (_ || _); [done|]. destruct (MetricCatalogEntry m) as [def|]; [|done]. cbv zeta.
    destruct (negb _); [done|]. destruct (normalize_params p); [|done]. by destruct (normalize_target def tg).
  - destruct (_ || _); [done|]. destruct (c =? "")%string; [done|]. destruct (uuid_parse c); [|done].
    destruct (negb _); [done|]. destruct (is_some p); [done|]. by destruct (is_some tg).
  - destruct (_ || _); [done|]. destruct (negb _); [done|]. destruct (is_some p); [done|].
    destruct (is_some tg); [done|]. destruct st as [l|]; [|done]. destruct (_ <? _)%nat; [done|].
    destruct (_ <? _)%nat; [done|]. by destruct (existsb _ l).
Qed.

Lemma by_kind_key k t t' : by_kind k t = Ok t' -> bt_Key t' = bt_Key t /\ bt_Span t' = bt_Span t.
Proof.
  unfold by_kind, metric_tile, chart_tile, funnel_tile. cbv zeta. intros Hok.
  repeat (match type of Hok with
          | (if ?b then _ else _) = _ => destruct b
          | match ?x with _ => _ end = _ => destruct x
          end; try discriminate); by injection Hok as <-.
Qed.

Lemma normalize_span_cases t t' :
  normalize_span t = Ok t' -> t' = with_span t (bt_Span t') /\ 1 <= bt_Span t' <= boardMaxSpan.
Proof.
  unfold normalize_span, boardMaxSpan. destruct t as [key ti ki d sp m tg c st p]. cbn.
  destruct (sp =? 0) eqn:E; [by intros [= <-]|]. destruct ((sp <? 1) || (3 <? sp)) eqn:E2; [done|].
  intros [= <-]. split; [done|]. cbn. bool_props. lia.
Qed.

Lemma normalize_span_done t : 1 <= bt_Span t <= boardMaxSpan -> normalize_span t = Ok t.
Proof.
  unfold normalize_span, boardMaxSpan. intros Hs. rewrite (proj2 (Z.eqb_neq _ _)) by lia.
  by rewrite (proj2 (Z.ltb_ge (bt_Span t) 1)), (proj2 (Z.ltb_ge 3 (bt_Span t))) by lia.
Qed.

(** A tile's normal form: the parts the checks saw. *)
Lemma normalize_tile_Ok tile t :
  normalizeBoardTile tile = Ok t ->
  exists k t0, boardKeyRe (bt_Key t) = true /\ by_kind k (trimmed_tile tile) = Ok t0 /\
    t = with_span t0 (bt_Span t) /\ 1 <= bt_Span t <= boardMaxSpan /\
    trimmed_tile t = t /\ by_kind k t = Ok t /\ bt_Kind t = k.
Proof.
  unfold normalizeBoardTile. destruct (boardKeyRe (bt_Key (trimmed_tile tile))) eqn:Hk; [|done].
  destruct (inferred_kind (trimmed_tile tile)) as [k|]; [|done].
  destruct (by_kind k (trimmed_tile tile)) as [t0|] eqn:Hb; [|done]. intros Hs. exists k, t0.
  destruct (normalize_span_cases _ _ Hs) as [Heq Hspan].
  destruct (by_kind_idemp _ _ _ (trimmed_tile_idemp tile) Hb) as (Hk1 & Hk2 & Hk3).
  destruct (by_kind_key _ _ _ Hb) as [Hkey _]. split_and!; [|exact Hb|exact Heq|lia|lia|..]; rewrite Heq.
  - cbn. by rewrite Hkey.
  - rewrite <- Hk1 at 2. by destruct t0.
  - rewrite by_kind_span. by rewrite Hk2.
  - by destruct t0.
Qed.

Lemma normalize_tile_idemp tile t : normalizeBoardTile tile = Ok t -> normalizeBoardTile t = Ok t.
Proof.
  intros (k & t0 & Hkey & _ & _ & Hspan & Ht & Hb & Hk)%normalize_tile_Ok.
  unfold normalizeBoardTile. rewrite Ht, Hkey. cbn. unfold inferred_kind. rewrite Hk.
  pose proof (by_kind_nonempty _ _ _ Hb) as Hne. apply String.eqb_neq in Hne. rewrite Hne. cbn.
  rewrite Hb. by apply normalize_span_done.
Qed.

Lemma tile_step_idemp sn tile sn' t :
  normalize_tile_step sn tile = Ok (sn', t) -> normalize_tile_step sn t = Ok (sn', t).
Proof.
  unfold normalize_tile_step. destruct (normalizeBoardTile tile) as [x|] eqn:Hn; [|done]. intros Hs.
  assert (x = t) as ->.
  { repeat (match type of Hs with
            | (if ?b then _ else _) = _ => destruct b
            | match ?o with _ => _ end = _ => destruct o
            end; try discriminate); by injection Hs. }
  by rewrite (normalize_tile_idemp _ _ Hn).
Qed.

Lemma normalize_all_idemp {A} (step : seen -> A -> result definition_error (seen * A)) sn l sn' l' :
  (forall s x s' x', step s x = Ok (s', x') -> step s x' = Ok (s', x')) ->
  normalize_all step sn l = Ok (sn', l') -> normalize_all step sn l' = Ok (sn', l') /\ length l' = length l.
Proof.
  intros Hstep. revert sn sn' l'. induction l as [|x l IH]; intros sn sn' l'; cbn; [by intros [= <- <-]|].
  destruct (step sn x) as [[s1 x1]|] eqn:Hx; [|done].
  destruct (normalize_all step s1 l) as [[s2 l2]|] eqn:Hl; [|done]. intros [= <- <-]. cbn.
  rewrite (Hstep _ _ _ _ Hx). destruct (IH _ _ _ Hl) as [-> ->]. done.
Qed.

Lemma section_step_idemp sn s sn' s' :
  normalize_section_step sn s = Ok (sn', s') -> normalize_section_step sn s' = Ok (sn', s').
Proof.
  unfold normalize_section_step. destruct (negb _) eqn:Hk; [done|]. destruct (existsb _ _) eqn:He; [done|].
  destruct (trim_space (bs_Title s) =? "")%string eqn:Ht; [done|]. destruct (_ <? _)%nat eqn:Hlen; [done|].
  destruct (normalize_all _ _ _) as [[s2 tiles]|] eqn:Hall; [|done]. intros [= <- <-].
  cbn [bs_Key bs_Title bs_Description bs_Tiles]. rewrite !trim_space_idemp, Hk, He, Ht.
  destruct (normalize_all_idemp _ _ _ _ _ tile_step_idemp Hall) as [-> ->]. by rewrite Hlen.
Qed.

Lemma normalize_again d d' :
  normalizeBoardDefinition d = Ok d' -> bd_Version d' = BoardDefinitionVersion /\ normalizeBoardDefinition d' = Ok d'.
Proof.
  unfold normalizeBoardDefinition. destruct (negb _) eqn:Hv; [done|]. destruct (_ <? _)%nat eqn:Hl; [done|].
  destruct (normalize_all _ _ _) as [[sn l]|] eqn:Hall; [|done]. intros [= <-].
  apply negb_false_iff, Z.eqb_eq in Hv. cbn [bd_Version bd_Sections]. rewrite Hv.
  destruct (normalize_all_idemp _ _ _ _ _ section_step_idemp Hall) as [Hagain Hlen].
  change (BoardDefinitionVersion =? 0) with false. cbv iota. by rewrite Z.eqb_refl, Hlen, Hl, Hagain.
Qed.

Lemma decode_normalized d d' : normalizeBoardDefinition d = Ok d' -> decodeBoardDefinition (Some d') = d'.
Proof. intros [Hv _]%normalize_again. destruct d'. cbn in *. by rewrite Hv. Qed.

(** A document that was accepted is accepted again as it stands: what is stored can be read,
    declared once more, and is the same document. *)
Theorem normalize_board_idempotent d d' :
  normalizeBoardDefinition d = Ok d' -> normalizeBoardDefinition (decodeBoardDefinition (Some d')) = Ok d'.
Proof. intros Hd. rewrite (decode_normalized _ _ Hd). by apply normalize_again in Hd as [_ ?]. Qed.

Lemma fixed_metric_tile t : metric_tile t = Ok t ->
  subject t /\ (forall s, bt_Target t = Some s -> f64_special (ts_Value s) = false).
Proof.
  unfold metric_tile. destruct (negb _ || _) eqn:Hf; [done|].
  destruct (MetricCatalogEntry (bt_Metric t)) as [def|] eqn:Hdef; [|done]. cbv zeta.
  set (display := if (bt_Display t =? "")%string then _ else _). destruct (AllowsDisplay def display) eqn:Ha; [|done].
  destruct (normalize_params (bt_Params t)) as [params|] eqn:Hp; [|done].
  destruct (normalize_target def (bt_Target t)) as [target|] eqn:Htg; [|done]. cbn [negb]. intros [= Heq].
  bool_props. split.
  - apply (metric_subject _ def); [by rewrite <- Heq|done| |done|by destruct (bt_Steps t)].
    rewrite <- (f_equal bt_Display Heq). exact Ha.
  - intros s Hs. rewrite Hs in Htg. cbn in Htg.
    destruct (normalizeMetricTargetSpec def s) as [s'|] eqn:Hn; [|done]. by apply normalize_Ok in Hn as (_ & Hv & _).
Qed.

Lemma fixed_chart_tile t : chart_tile t = Ok t -> subject t.
Proof.
  unfold chart_tile. destruct (negb _ || _) eqn:Hf; [done|].
  destruct (bt_ChartID t =? "")%string eqn:Hne; [done|].
  destruct (uuid_parse (bt_ChartID t)) as [id|] eqn:Hid; [|done].
  destruct (negb (bt_Display t =? "")%string) eqn:Hd; [done|].
  destruct (bt_Params t) eqn:Hp; [done|]. destruct (bt_Target t) eqn:Htg; [done|]. cbn. intros [= Heq]. bool_props.
  assert (id = bt_ChartID t) as -> by by rewrite <- Heq.
  apply chart_subject; try done; [by rewrite <- Heq|by destruct (bt_Steps t)].
Qed.

Lemma fixed_funnel_tile t : funnel_tile t = Ok t -> subject t.
Proof.
  unfold funnel_tile. destruct (negb _ || _) eqn:Hf; [done|].
  destruct (negb (bt_Display t =? "")%string) eqn:Hd; [done|].
  destruct (bt_Params t) eqn:Hp; [done|]. destruct (bt_Target t) eqn:Htg; [done|]. cbv zeta. cbn [is_some]. intros Hok.
  bool_props. apply funnel_subject; try done.
  - destruct (bt_Steps t) as [l|]; [|by injection Hok as Heq; rewrite <- Heq].
    repeat (match type of Hok with (if ?b then _ else _) = _ => destruct b end; try discriminate).
    injection Hok as Heq. by rewrite <- Heq.
  - intros steps Hs. rewrite Hs in Hok. destruct (length steps <? 2)%nat eqn:E1; [done|].
    destruct (funnelMaxSteps <? length steps)%nat eqn:E2; [done|]. destruct (existsb _ steps) eqn:E3; [done|].
    bool_props. split; [done|]. intros Hin. rewrite existsb_False in E3. specialize (E3 _ Hin). by rewrite String.eqb_refl in E3.
Qed.

Lemma normalized_subject tile t : normalizeBoardTile tile = Ok t ->
  boardKeyRe (bt_Key t) = true /\ 1 <= bt_Span t <= boardMaxSpan /\ subject t /\
  (forall s, bt_Target t = Some s -> f64_special (ts_Value s) = false /\ bt_Kind t = TileKindMetric).
Proof.
  intros (k & t0 & Hkey & _ & _ & Hspan & _ & Hb & Hk)%normalize_tile_Ok. split; [done|]. split; [done|].
  unfold by_kind in Hb. destruct (String.eqb_spec k TileKindMetric) as [->|].
  { destruct (fixed_metric_tile _ Hb) as [Hs Hv]. split; [done|]. intros s Ht. split; [by apply Hv|done]. }
  assert (Hsub : subject t).
  { destruct (k =? TileKindChart)%string; [by apply fixed_chart_tile|].
    destruct (k =? TileKindFunnel)%string; [by apply fixed_funnel_tile|done]. }
  split; [done|]. intros s Ht. exfalso. destruct Hsub; congruence.
Qed.

(** ** What the loop over the document keeps *)

Lemma normalize_all_inv {A} (step : seen -> A -> result definition_error (seen * A)) (I : seen -> list A -> Prop) :
  (forall sn acc x sn' x', I sn acc -> step sn x = Ok (sn', x') -> I sn' (acc ++ [x'])) ->
  forall l sn acc sn' l', I sn acc -> normalize_all step sn l = Ok (sn', l') -> I sn' (acc ++ l').
Proof.
  intros Hstep. induction l as [|x l IH]; intros sn acc sn' l' Hi; cbn.
  - intros [= <- <-]. by rewrite app_nil_r.
  - destruct (step sn x) as [[s1 x1]|] eqn:Hx; [|done].
    destruct (normalize_all step s1 l) as [[s2 l2]|] eqn:Hl; [|done]. intros [= <- <-].
    rewrite cons_middle, app_assoc. eapply IH; [|exact Hl]. by eapply Hstep.
Qed.

(** The tiles accepted so far, against what was seen. *)
Record tiles_inv (sn : seen) (ts : list BoardTile) : Prop := {
  ti_keys : sn_tiles sn = List.rev (map bt_Key ts);
  ti_nodup : NoDup (map bt_Key ts);
  ti_tiles : forall t, t ∈ ts -> boardKeyRe (bt_Key t) = true /\ 1 <= bt_Span t <= boardMaxSpan /\ subject t;
  ti_targets : forall t s, t ∈ ts -> bt_Target t = Some s ->
    exists s', sn_targets sn !! bt_Metric t = Some s' /\ spec_eqb s s' = true;
}.

Lemma SFeqb_spec a b : SFeqb a b = true ->
  a = b \/ (exists s s', a = S754_zero s /\ b = S754_zero s').
Proof.
  unfold SFeqb, SFcompare.
  destruct a as [s|[]| |[] m e], b as [s'|[]| |[] m' e']; try done; try (by left); try (by right; eauto); intros Hc; left;
    destruct (e ?= e') eqn:He; try done; apply Z.compare_eq in He as ->;
    destruct (Pos.compare_cont Eq m m') eqn:Hm; try done; by apply Pos.compare_eq in Hm as ->.
Qed.

Lemma SFeqb_trans a b c : SFeqb a b = true -> SFeqb b c = true -> SFeqb a c = true.
Proof.
  intros [->|(s & s' & -> & ->)]%SFeqb_spec Hc; [done|]. by apply SFeqb_spec in Hc as [<-|(? & ? & ? & ->)].
Qed.

Lemma SFeqb_sym a b : SFeqb a b = true -> SFeqb b a = true.
Proof. intros Hab. by destruct (SFeqb_spec _ _ Hab) as [->|(s & s' & -> & ->)]. Qed.

Lemma spec_eqb_iff a b : spec_eqb a b = true <->
  ts_Direction a = ts_Direction b /\ SFeqb (ts_Value a) (ts_Value b) = true /\ ts_Period a = ts_Period b /\
  ts_Currency a = ts_Currency b /\ ts_EffectiveAt a = ts_EffectiveAt b.
Proof. unfold spec_eqb. rewrite !andb_true_iff, !String.eqb_eq. tauto. Qed.

Lemma spec_eqb_trans a b c : spec_eqb a b = true -> spec_eqb b c = true -> spec_eqb a c = true.
Proof.
  rewrite !spec_eqb_iff. intros (-> & Hv & -> & -> & ->) (-> & Hv' & -> & -> & ->). split_and!; try done.
  by eapply SFeqb_trans.
Qed.

Lemma spec_eqb_sym a b : spec_eqb a b = true -> spec_eqb b a = true.
Proof. rewrite !spec_eqb_iff. intros (-> & Hv & -> & -> & ->). split_and!; try done. by apply SFeqb_sym. Qed.

Lemma tiles_inv_snoc sn ts x (tg : gmap string MetricTargetSpec) :
  tiles_inv sn ts -> boardKeyRe (bt_Key x) = true -> 1 <= bt_Span x <= boardMaxSpan -> subject x ->
  existsb (String.eqb (bt_Key x)) (sn_tiles sn) = false ->
  (forall s, bt_Target x = Some s -> tg !! bt_Metric x = Some s /\ spec_eqb s s = true) ->
  (forall m s, sn_targets sn !! m = Some s -> exists s', tg !! m = Some s' /\ (s' = s \/ spec_eqb s s' = true)) ->
  tiles_inv {| sn_sections := sn_sections sn; sn_tiles := bt_Key x :: sn_tiles sn; sn_targets := tg |} (ts ++ [x]).
Proof.
  intros [I1 I2 I3 I4] Hkey Hspan Hsub He Hx Hkeep. constructor; cbn.
  - by rewrite map_app, List.rev_app_distr, I1.
  - rewrite map_app. apply NoDup_snoc; [done|]. intros Hin. rewrite existsb_False in He.
    specialize (He (bt_Key x)). rewrite String.eqb_refl, I1 in He.
    discriminate He. apply list_elem_of_In, in_rev. rewrite List.rev_involutive. by apply list_elem_of_In.
  - intros y [Hy|Hy]%elem_of_app; [by apply I3|]. by apply list_elem_of_singleton in Hy as ->.
  - intros y s [Hy|Hy]%elem_of_app Hs.
    + destruct (I4 _ _ Hy Hs) as (s' & Hs' & Heq). destruct (Hkeep _ _ Hs') as (s2 & Hs2 & [->|Heq2]); [by eauto|].
      exists s2. split; [done|]. by eapply spec_eqb_trans.
    + apply list_elem_of_singleton in Hy as ->. exists s. by apply Hx.
Qed.

Lemma tile_step_inv sn ts tile sn' t :
  tiles_inv sn ts -> normalize_tile_step sn tile = Ok (sn', t) -> tiles_inv sn' (ts ++ [t]).
Proof.
  intros Hi. unfold normalize_tile_step. destruct (normalizeBoardTile tile) as [x|] eqn:Hn; [|done].
  destruct (normalized_subject _ _ Hn) as (Hkey & Hspan & Hsub & Htgt).
  destruct (existsb _ (sn_tiles sn)) eqn:He; [done|].
  destruct (bt_Target x) as [s|] eqn:Hs; [|intros [= <- <-]; apply tiles_inv_snoc; eauto; congruence].
  destruct (Htgt s eq_refl) as [Hsp ->]. rewrite String.eqb_refl.
  assert (Hrefl : spec_eqb s s = true) by (apply spec_eqb_iff; split_and!; try done; by apply SFeqb_refl).
  assert (Hnew : (forall m s0, sn_targets sn !! m = Some s0 -> m = bt_Metric x -> spec_eqb s0 s = true) ->
    tiles_inv {| sn_sections := sn_sections sn; sn_tiles := bt_Key x :: sn_tiles sn;
                 sn_targets := <[bt_Metric x := s]> (sn_targets sn) |} (ts ++ [x])).
  { intros Hprev. apply tiles_inv_snoc; try done.
    - intros s' Hs'. rewrite Hs in Hs'. injection Hs' as <-. by rewrite lookup_insert_eq.
    - intros m s0 Hm. destruct (String.eqb_spec m (bt_Metric x)) as [Heq|Hne].
      + exists s. rewrite Heq, lookup_insert_eq. split; [done|]. right. by eapply Hprev.
      + exists s0. rewrite lookup_insert_ne by done. by split; [|left]. }
  destruct (sn_targets sn !! bt_Metric x) as [prev|] eqn:Hp.
  - destruct (negb _) eqn:Heq; [done|]. intros [= <- <-]. apply Hnew. intros m s0 Hm ->.
    rewrite Hp in Hm. injection Hm as <-. by apply negb_false_iff.
  - intros [= <- <-]. apply Hnew. intros m s0 Hm ->. congruence.
Qed.

(** The sections accepted so far. *)
Record sections_inv (sn : seen) (l : list BoardSection) : Prop := {
  si_keys : sn_sections sn = List.rev (map bs_Key l);
  si_nodup : NoDup (map bs_Key l);
  si_sections : forall s, s ∈ l -> boardKeyRe (bs_Key s) = true /\ bs_Title s <> "" /\
    (length (bs_Tiles s) <= boardMaxTilesPerSection)%nat;
  si_tiles : tiles_inv sn (concat (map bs_Tiles l));
}.

Lemma normalize_all_sections sn l sn' l' :
  normalize_all normalize_tile_step sn l = Ok (sn', l') -> sn_sections sn' = sn_sections sn.
Proof.
  intros Hall. pose proof (normalize_all_inv normalize_tile_step (fun s _ => sn_sections s = sn_sections sn)) as Hinv.
  eapply Hinv with (acc := []); [|done|exact Hall].
  intros s acc x s' x' <-. unfold normalize_tile_step. intros Hs.
  repeat (match type of Hs with
          | (if ?b then _ else _) = _ => destruct b
          | match ?o with _ => _ end = _ => destruct o
          end; try discriminate); by injection Hs as <- <-.
Qed.

Lemma section_step_inv sn l x sn' x' :
  sections_inv sn l -> normalize_section_step sn x = Ok (sn', x') -> sections_inv sn' (l ++ [x']).
Proof.
  intros [I1 I2 I3 I4]. unfold normalize_section_step. destruct (negb _) eqn:Hk; [done|].
  destruct (existsb _ _) eqn:He; [done|]. destruct (_ =? _)%string eqn:Ht; [done|].
  destruct (_ <? _)%nat eqn:Hlen; [done|].
  destruct (normalize_all _ _ _) as [[s2 tiles]|] eqn:Hall; [|done]. intros [= <- <-]. bool_props.
  pose proof (normalize_all_sections _ _ _ _ Hall) as Hsec. cbn in Hsec.
  destruct (normalize_all_idemp _ _ _ _ _ tile_step_idemp Hall) as [_ Hl].
  constructor; cbn.
  - by rewrite map_app, List.rev_app_distr, Hsec, I1.
  - rewrite map_app. apply NoDup_snoc; [done|]. cbn. intros Hin. rewrite existsb_False in He.
    specialize (He (trim_space (bs_Key x))). rewrite String.eqb_refl, I1 in He.
    discriminate He. apply list_elem_of_In, in_rev. rewrite List.rev_involutive. by apply list_elem_of_In.
  - intros y [Hy|Hy]%elem_of_app; [by apply I3|]. apply list_elem_of_singleton in Hy as ->. cbn. rewrite Hl. auto.
  - rewrite map_app, concat_app. cbn. rewrite app_nil_r.
    eapply (normalize_all_inv normalize_tile_step tiles_inv); [|  |exact Hall]; [intros; by eapply tile_step_inv|].
    by destruct I4.
Qed.

(** Every document that is stored is within the bounds a board is rendered with: version 1,
    at most 12 titled sections of at most 24 tiles, section and tile keys well formed and unique
    over the document, spans of 1 to 3, each tile one subject with the fields of its kind, a
    metric of the catalog drawn as it allows, and no two different targets for one metric. *)
Theorem accepted_board_is_bounded d d' :
  normalizeBoardDefinition d = Ok d' ->
  bd_Version d' = BoardDefinitionVersion /\ (length (bd_Sections d') <= boardMaxSections)%nat /\
  NoDup (map bs_Key (bd_Sections d')) /\ NoDup (map bt_Key (all_tiles d')) /\
  (forall s, s ∈ bd_Sections d' -> boardKeyRe (bs_Key s) = true /\ bs_Title s <> "" /\
     (length (bs_Tiles s) <= boardMaxTilesPerSection)%nat) /\
  (forall t, t ∈ all_tiles d' -> boardKeyRe (bt_Key t) = true /\ 1 <= bt_Span t <= boardMaxSpan /\ subject t) /\
  (forall t1 t2 s1 s2, t1 ∈ all_tiles d' -> t2 ∈ all_tiles d' -> bt_Metric t1 = bt_Metric t2 ->
     bt_Target t1 = Some s1 -> bt_Target t2 = Some s2 -> spec_eqb s1 s2 = true).
Proof.
  unfold normalizeBoardDefinition. destruct (negb _) eqn:Hv; [done|]. destruct (_ <? _)%nat eqn:Hl; [done|].
  destruct (normalize_all _ _ _) as [[sn l]|] eqn:Hall; [|done]. intros [= <-]. bool_props.
  destruct (normalize_all_idemp _ _ _ _ _ section_step_idemp Hall) as [_ Hlen].
  assert (sections_inv sn ([] ++ l)) as [I1 I2 I3 [T1 T2 T3 T4]].
  { eapply (normalize_all_inv normalize_section_step sections_inv); [|  |exact Hall]; [intros; by eapply section_step_inv|].
    constructor; cbn; try done; [by apply NoDup_nil|by intros s Hs; apply not_elem_of_nil in Hs|].
    constructor; cbn; try done; [by apply NoDup_nil|..]; intros t; by intros; exfalso; eapply not_elem_of_nil. }
  unfold all_tiles. cbn [bd_Version bd_Sections]. rewrite Hlen. split_and!; try done.
  intros t1 t2 s1 s2 Ht1 Ht2 Hm Hs1 Hs2. destruct (T4 _ _ Ht1 Hs1) as (s & E1 & Heq1).
  destruct (T4 _ _ Ht2 Hs2) as (s' & E2 & Heq2). rewrite Hm, E2 in E1. injection E1 as <-.
  eapply spec_eqb_trans; [exact Heq1|]. by apply spec_eqb_sym.
Qed.

End TileLemmas.

(** ** Witnesses *)

(** Identifiers without blanks, read as they are. *)
Definition w_uuid_parse (s : string) : option string :=
  if (s =? "")%string || exists_byte is_space s then None else Some s.

Lemma w_uuid_parse_Some s u : w_uuid_parse s = Some u -> u = s /\ s <> "" /\ exists_byte is_space s = false.
Proof.
  unfold w_uuid_parse. destruct (String.eqb_spec s "") as [|Hn]; [done|]. cbn.
  destruct (exists_byte is_space s); [done|]. by intros [= ->].
Qed.

Definition w_uuids : UuidEnv.
Proof.
  refine {| uuid_parse := w_uuid_parse; sql_uuid := w_uuid_parse |}.
  - intros s u Hp. by destruct (w_uuid_parse_Some _ _ Hp) as (-> & _).
  - intros s u v Hu Hv. rewrite Hu in Hv. by injection Hv.
Defined.

Definition w_canonical : @CanonicalUuid w_uuids.
Proof.
  constructor; intros s u Hp; cbn in *; destruct (w_uuid_parse_Some _ _ Hp) as (-> & Hn & Hs); [done|].
  split; [done|]. by apply trim_space_nospace.
Defined.

Definition w_metric_tile : BoardTile :=
  {| bt_Key := " act "; bt_Title := ""; bt_Kind := ""; bt_Display := ""; bt_Span := 0; bt_Metric := "activation";
     bt_Target := Some (w_spec w_forty ""); bt_ChartID := ""; bt_Steps := None;
     bt_Params := Some {| bp_Period := " 7d"; bp_Platform := "WEB" |} |}.

Definition w_chart_tile : BoardTile :=
  {| bt_Key := "chart-1"; bt_Title := "Sales"; bt_Kind := "Chart"; bt_Display := ""; bt_Span := 2; bt_Metric := "";
     bt_Target := None; bt_ChartID := "c1"; bt_Steps := None; bt_Params := None |}.

Definition w_funnel_tile : BoardTile :=
  {| bt_Key := "funnel"; bt_Title := ""; bt_Kind := ""; bt_Display := ""; bt_Span := 3; bt_Metric := "";
     bt_Target := None; bt_ChartID := ""; bt_Steps := Some ["visit"; " signup"]; bt_Params := None |}.

Definition w_board : BoardDefinition :=
  {| bd_Version := 0;
     bd_Sections := [ {| bs_Key := "main"; bs_Title := "Main "; bs_Description := "";
                         bs_Tiles := [w_metric_tile; w_chart_tile] |};
                      {| bs_Key := "more"; bs_Title := "More"; bs_Description := ""; bs_Tiles := [w_funnel_tile] |} ] |}.

Definition w_normal : BoardDefinition :=
  ok_or w_board (@normalizeBoardDefinition w_uuids w_instants w_board).

Lemma normalize_board_idempotent_witness :
  @normalizeBoardDefinition w_uuids w_instants (decodeBoardDefinition (Some w_normal)) = Ok w_normal.
Proof.
  exact (@normalize_board_idempotent w_uuids w_canonical w_instants w_board w_normal eq_refl).
Defined.

Lemma accepted_board_is_bounded_witness :
  NoDup (map bt_Key (all_tiles w_normal)) /\ bd_Version w_normal = 1.
Proof.
  destruct (@accepted_board_is_bounded w_uuids w_canonical w_instants w_board w_normal eq_refl)
    as (Hv & _ & _ & Hnd & _). split; [exact Hnd|exact Hv].
Defined.

(** Ten distinct steps are accepted, and so is a step named twice. *)
Example long_funnels_are_accepted :
  let tile steps := {| bt_Key := "f"; bt_Title := ""; bt_Kind := ""; bt_Display := ""; bt_Span := 1; bt_Metric := "";
                       bt_Target := None; bt_ChartID := ""; bt_Steps := Some steps; bt_Params := None |} in
  is_ok (@normalizeBoardTile w_uuids w_instants (tile ["a"; "b"; "c"; "d"; "e"; "f"; "g"; "h"; "i"; "j"])) = true /\
  is_ok (@normalizeBoardTile w_uuids w_instants (tile ["a"; "a"])) = true.
Proof. split; reflexivity. Qed.
