(* ===== verification/Boards.v ===== *)
(** * Boards: dashboards, charts and the revisions that fence them

    The rows of dashboards and charts with every operation that writes them
    (internal/dataplane/store: lifecycle.go, boards.go, store.go, default_boards.go):
    revision-fenced updates, reversible archives, the board order, the declaration of a
    board's content, the unfenced writes of the older API and the boot repairs.  Each
    operation is one transaction on the tables; the ones recorded under an idempotency
    key run inside [Receipts.runIdempotent]. *)

From S2P Require Import Prelude GoStrings Duck MetricTargets BoardDefinition Receipts.
From stdpp Require Import sorting.
Import String.
Open Scope string_scope.
Open Scope list_scope.
Open Scope Z_scope.

(** ** Tables *)

(** A row of dashboards under its id; the definition column is [None] until it is written. *)
Record Dashboard := {
  d_ProjectID : string; d_Name : string; d_Description : string; d_Revision : Z; d_ArchivedAt : option Z;
  d_CreatedAt : Z; d_UpdatedAt : Z; d_BoardKey : string; d_DefinitionUpdatedAt : option Z;
  d_Definition : option BoardDefinition;
}.

(** A row of charts under its id. *)
Record Chart := {
  c_DashboardID : string; c_ProjectID : string; c_Name : string; c_Kind : string; c_Metric : string;
  c_EventName : string; c_EventType : string; c_SQL : string; c_XField : string; c_YField : string;
  c_SortOrder : Z; c_ColSpan : Z; c_Revision : Z; c_ArchivedAt : option Z; c_CreatedAt : Z; c_UpdatedAt : Z;
}.

(** [issued] are the identifiers ever generated: a deleted row's id is not given out again. *)
Record boards := {
  dashboards : gmap string Dashboard; charts : gmap string Chart; targets : target_table; issued : gset string;
}.

Definition set_dashboards (m : gmap string Dashboard) (db : boards) : boards :=
  {| dashboards := m; charts := charts db; targets := targets db; issued := issued db |}.

Definition set_charts (m : gmap string Chart) (db : boards) : boards :=
  {| dashboards := dashboards db; charts := m; targets := targets db; issued := issued db |}.

Definition set_targets (t : target_table) (db : boards) : boards :=
  {| dashboards := dashboards db; charts := charts db; targets := t; issued := issued db |}.

Inductive board_error :=
| NoRows | ErrRevisionConflict | ErrBoardArchived | ErrBoardDefinitionInvalid (e : definition_error)
| BadBoardKey | NoBoardNamed | ChartNotOnBoard | ErrMetricTargetInvalid (e : target_error)
| ForeignKeyViolation.

(** [WHERE project_id = $1 AND id = $2]. *)
Definition own_board (db : boards) (p id : string) : option Dashboard :=
  match dashboards db !! id with
  | Some d => if (d_ProjectID d =? p)%string then Some d else None
  | None => None
  end.

Definition own_chart (db : boards) (p id : string) : option Chart :=
  match charts db !! id with
  | Some c => if (c_ProjectID c =? p)%string then Some c else None
  | None => None
  end.

(** ** Dashboards *)

Definition untitled_dashboard := "Untitled dashboard".

(** A name given to an update: omitted, reset or set. *)
Definition new_name (old : string) (name : option string) : string :=
  match name with
  | None => old
  | Some n => if (n =? "")%string then untitled_dashboard else n
  end.

(** A row with its revision moved on. *)
Definition bumped (now : Z) (d : Dashboard) (name description : string) (archived : option Z) : Dashboard :=
  {| d_ProjectID := d_ProjectID d; d_Name := name; d_Description := description; d_Revision := d_Revision d + 1;
     d_ArchivedAt := archived; d_CreatedAt := d_CreatedAt d; d_UpdatedAt := now; d_BoardKey := d_BoardKey d;
     d_DefinitionUpdatedAt := d_DefinitionUpdatedAt d; d_Definition := d_Definition d |}.

Definition put_board (id : string) (d : Dashboard) (db : boards) : boards :=
  set_dashboards (<[id := d]> (dashboards db)) db.

Definition updateDashboardRevision (now : Z) (p id : string) (name description : option string)
    (expected : Z) (db : boards) : result board_error (boards * Dashboard) :=
  match own_board db p id with
  | None => Err NoRows
  | Some d =>
      if (d_Revision d =? expected) && negb (is_some (d_ArchivedAt d)) then
        let d' := bumped now d (new_name (d_Name d) name) (default (d_Description d) description) (d_ArchivedAt d) in
        Ok (put_board id d' db, d')
      else Err ErrRevisionConflict
  end.

Definition archiveDashboard (now : Z) (p id : string) (expected : Z) (db : boards) :
    result board_error (boards * Dashboard) :=
  match own_board db p id with
  | None => Err NoRows
  | Some d =>
      if negb (is_some (d_ArchivedAt d)) && (d_Revision d =? expected) then
        let d' := bumped now d (d_Name d) (d_Description d) (Some now) in
        Ok (put_board id d' db, d')
      else if is_some (d_ArchivedAt d) then Ok (db, d)
      else Err ErrRevisionConflict
  end.

Definition unarchiveDashboard (now : Z) (p id : string) (expected : Z) (db : boards) :
    result board_error (boards * Dashboard) :=
  match own_board db p id with
  | None => Err NoRows
  | Some d =>
      if is_some (d_ArchivedAt d) && (d_Revision d =? expected) then
        let d' := bumped now d (d_Name d) (d_Description d) None in
        Ok (put_board id d' db, d')
      else if negb (is_some (d_ArchivedAt d)) then Ok (db, d)
      else Err ErrRevisionConflict
  end.

(** A row as the tables' defaults make it. *)
Definition fresh_board (now : Z) (p name description key : string) (definition : option BoardDefinition) : Dashboard :=
  {| d_ProjectID := p; d_Name := name; d_Description := description; d_Revision := 1; d_ArchivedAt := None;
     d_CreatedAt := now; d_UpdatedAt := now; d_BoardKey := key;
     d_DefinitionUpdatedAt := (fun _ => now) <$> definition; d_Definition := definition |}.

Definition issue (id : string) (db : boards) : boards :=
  {| dashboards := dashboards db; charts := charts db; targets := targets db; issued := {[id]} ∪ issued db |}.

Definition CreateDashboard (now : Z) (p name description id : string) (db : boards) : boards * Dashboard :=
  let d := fresh_board now p (if (name =? "")%string then untitled_dashboard else name) description "" None in
  (put_board id d (issue id db), d).

(** The unfenced update of the older API. *)
Definition UpdateDashboard (now : Z) (p id name description : string) (db : boards) :
    result board_error (boards * Dashboard) :=
  match own_board db p id with
  | None => Err NoRows
  | Some d =>
      let d' := bumped now d (if (name =? "")%string then untitled_dashboard else name) description (d_ArchivedAt d) in
      Ok (put_board id d' db, d')
  end.

(** Deleting a board deletes the charts on it (ON DELETE CASCADE). *)
Definition DeleteDashboard (p id : string) (db : boards) : boards :=
  match own_board db p id with
  | None => db
  | Some _ =>
      set_charts (filter (fun kc => c_DashboardID kc.2 <> id) (charts db))
        (set_dashboards (delete id (dashboards db)) db)
  end.

Definition ListDashboardsFiltered (p : string) (includeArchived : bool) (db : boards) : gmap string Dashboard :=
  filter (fun kd => d_ProjectID kd.2 = p /\ (includeArchived = true \/ d_ArchivedAt kd.2 = None)) (dashboards db).

(** ** Charts *)

Definition clampSpan (span : Z) : Z := if span <? 1 then 1 else if 3 <? span then 3 else span.

Definition or_default (s dflt : string) : string := if (s =? "")%string then dflt else s.

(** The columns an update writes, with the defaults of the code. *)
Definition chart_with (now : Z) (c in_ : Chart) : Chart :=
  {| c_DashboardID := c_DashboardID c; c_ProjectID := c_ProjectID c; c_Name := or_default (c_Name in_) "Untitled chart";
     c_Kind := or_default (c_Kind in_) "line"; c_Metric := or_default (c_Metric in_) "events";
     c_EventName := c_EventName in_; c_EventType := c_EventType in_; c_SQL := c_SQL in_; c_XField := c_XField in_;
     c_YField := c_YField in_; c_SortOrder := c_SortOrder c; c_ColSpan := clampSpan (c_ColSpan in_);
     c_Revision := c_Revision c + 1; c_ArchivedAt := c_ArchivedAt c; c_CreatedAt := c_CreatedAt c;
     c_UpdatedAt := now |}.

Definition chart_archived (now : Z) (c : Chart) (archived : option Z) : Chart :=
  {| c_DashboardID := c_DashboardID c; c_ProjectID := c_ProjectID c; c_Name := c_Name c; c_Kind := c_Kind c;
     c_Metric := c_Metric c; c_EventName := c_EventName c; c_EventType := c_EventType c; c_SQL := c_SQL c;
     c_XField := c_XField c; c_YField := c_YField c; c_SortOrder := c_SortOrder c; c_ColSpan := c_ColSpan c;
     c_Revision := c_Revision c + 1; c_ArchivedAt := archived; c_CreatedAt := c_CreatedAt c; c_UpdatedAt := now |}.

Definition chart_placed (now : Z) (c : Chart) (order : Z) : Chart :=
  {| c_DashboardID := c_DashboardID c; c_ProjectID := c_ProjectID c; c_Name := c_Name c; c_Kind := c_Kind c;
     c_Metric := c_Metric c; c_EventName := c_EventName c; c_EventType := c_EventType c; c_SQL := c_SQL c;
     c_XField := c_XField c; c_YField := c_YField c; c_SortOrder := order; c_ColSpan := c_ColSpan c;
     c_Revision := c_Revision c; c_ArchivedAt := c_ArchivedAt c; c_CreatedAt := c_CreatedAt c; c_UpdatedAt := now |}.

Definition put_chart (id : string) (c : Chart) (db : boards) : boards := set_charts (<[id := c]> (charts db)) db.

Definition updateChartRevision (now : Z) (p id : string) (in_ : Chart) (expected : Z) (db : boards) :
    result board_error (boards * Chart) :=
  match own_chart db p id with
  | None => Err NoRows
  | Some c =>
      if (c_Revision c =? expected) && negb (is_some (c_ArchivedAt c))
      then Ok (put_chart id (chart_with now c in_) db, chart_with now c in_)
      else Err ErrRevisionConflict
  end.

Definition archiveChart (now : Z) (p id : string) (expected : Z) (db : boards) :
    result board_error (boards * Chart) :=
  match own_chart db p id with
  | None => Err NoRows
  | Some c =>
      if negb (is_some (c_ArchivedAt c)) && (c_Revision c =? expected)
      then Ok (put_chart id (chart_archived now c (Some now)) db, chart_archived now c (Some now))
      else if is_some (c_ArchivedAt c) then Ok (db, c)
      else Err ErrRevisionConflict
  end.

Definition unarchiveChart (now : Z) (p id : string) (expected : Z) (db : boards) :
    result board_error (boards * Chart) :=
  match own_chart db p id with
  | None => Err NoRows
  | Some c =>
      if is_some (c_ArchivedAt c) && (c_Revision c =? expected)
      then Ok (put_chart id (chart_archived now c None) db, chart_archived now c None)
      else if negb (is_some (c_ArchivedAt c)) then Ok (db, c)
      else Err ErrRevisionConflict
  end.

(** [COALESCE((SELECT MAX(sort_order) + 1 ... WHERE dashboard_id = $1), 0)]. *)
Definition next_order (board : string) (db : boards) : Z :=
  match map c_SortOrder (snd <$> map_to_list (filter (fun kc => c_DashboardID kc.2 = board) (charts db))) with
  | [] => 0
  | o :: os => fold_left Z.max os o + 1
  end.

(** The chart goes on the board its input names; only that the board exists is checked. *)
Definition CreateChart (now : Z) (in_ : Chart) (id : string) (db : boards) : result board_error (boards * Chart) :=
  if bool_decide (is_Some (dashboards db !! c_DashboardID in_)) then
    let c := {| c_DashboardID := c_DashboardID in_; c_ProjectID := c_ProjectID in_;
                c_Name := or_default (c_Name in_) "Untitled chart"; c_Kind := or_default (c_Kind in_) "line";
                c_Metric := or_default (c_Metric in_) "events"; c_EventName := c_EventName in_;
                c_EventType := c_EventType in_; c_SQL := c_SQL in_; c_XField := c_XField in_; c_YField := c_YField in_;
                c_SortOrder := next_order (c_DashboardID in_) db; c_ColSpan := clampSpan (c_ColSpan in_);
                c_Revision := 1; c_ArchivedAt := None; c_CreatedAt := now; c_UpdatedAt := now |} in
    Ok (put_chart id c (issue id db), c)
  else Err ForeignKeyViolation.

Definition UpdateChart (now : Z) (p id : string) (in_ : Chart) (db : boards) : result board_error (boards * Chart) :=
  match own_chart db p id with
  | None => Err NoRows
  | Some c => Ok (put_chart id (chart_with now c in_) db, chart_with now c in_)
  end.

Definition DeleteChart (p id : string) (db : boards) : boards :=
  match own_chart db p id with
  | None => db
  | Some _ => set_charts (delete id (charts db)) db
  end.

(** ** The board order *)

(** [UPDATE charts SET sort_order = $4 ... WHERE project_id, dashboard_id and id match]; the
    fenced path leaves archived charts out. *)
Definition place (active_only : bool) (now : Z) (p board id : string) (order : Z) (m : gmap string Chart) :
    gmap string Chart :=
  match m !! id with
  | Some c =>
      if (c_ProjectID c =? p)%string && (c_DashboardID c =? board)%string && negb (active_only && is_some (c_ArchivedAt c))
      then <[id := chart_placed now c order]> m
      else m
  | None => m
  end.

(** [for i, id := range chartIDs]. *)
Fixpoint place_all (active_only : bool) (now : Z) (p board : string) (i : Z) (ids : list string)
    (m : gmap string Chart) : gmap string Chart :=
  match ids with
  | [] => m
  | id :: ids' => place_all active_only now p board (i + 1) ids' (place active_only now p board id i m)
  end.

Definition reorderCharts (now : Z) (p id : string) (chartIDs : list string) (expected : Z) (db : boards) :
    result board_error (boards * Dashboard) :=
  match own_board db p id with
  | None => Err NoRows
  | Some d =>
      if d_Revision d =? expected then
        let d' := bumped now d (d_Name d) (d_Description d) (d_ArchivedAt d) in
        let db1 := put_board id d' db in
        Ok (set_charts (place_all true now p id 0 chartIDs (charts db1)) db1, d')
      else Err ErrRevisionConflict
  end.

(** The unfenced reorder of the older API; a board that is not there is not an error. *)
Definition ReorderCharts (now : Z) (p id : string) (chartIDs : list string) (db : boards) : boards :=
  let db1 := match own_board db p id with
             | Some d => put_board id (bumped now d (d_Name d) (d_Description d) (d_ArchivedAt d)) db
             | None => db
             end in
  set_charts (place_all false now p id 0 chartIDs (charts db1)) db1.

Definition listed (p board : string) (includeArchived : bool) (c : Chart) : bool :=
  (c_ProjectID c =? p)%string && (c_DashboardID c =? board)%string && (includeArchived || negb (is_some (c_ArchivedAt c))).

(** [ORDER BY sort_order ASC, created_at ASC]. *)
Definition chart_le (x y : string * Chart) : Prop :=
  c_SortOrder x.2 < c_SortOrder y.2 \/ (c_SortOrder x.2 = c_SortOrder y.2 /\ c_CreatedAt x.2 <= c_CreatedAt y.2).

#[export] Instance chart_le_dec x y : Decision (chart_le x y).
Proof. unfold chart_le. solve_decision. Defined.

Definition ListChartsFiltered (p board : string) (includeArchived : bool) (db : boards) : list (string * Chart) :=
  merge_sort chart_le (List.filter (fun kc => listed p board includeArchived kc.2) (map_to_list (charts db))).

(** ** Declared content *)

Record BoardDefinitionWrite := {
  bw_BoardID : string; bw_BoardKey : string; bw_Name : option string; bw_Description : option string;
  bw_Definition : BoardDefinition; bw_ExpectedRevision : Z;
}.

Inductive warning :=
| MetricGone (section tile metric : string)
| ChartNotHere (section tile chart : string)
| ChartArchived (section tile chart : string).

Record BoardContent := {
  bc_ID : string; bc_Board : Dashboard; bc_HasDefinition : bool; bc_Definition : BoardDefinition;
  bc_Metrics : list (string * MetricDefinition); bc_Charts : list (string * Chart);
  bc_Targets : list (string * MetricTarget); bc_Warnings : list warning;
}.

Definition HasDefinition (d : Dashboard) : bool := is_some (d_DefinitionUpdatedAt d).

Definition metric_keys (d : BoardDefinition) : list string :=
  map bt_Metric (List.filter (fun t => (bt_Kind t =? TileKindMetric)%string) (all_tiles d)).

Definition chart_ids (d : BoardDefinition) : list string :=
  map bt_ChartID (List.filter (fun t => (bt_Kind t =? TileKindChart)%string) (all_tiles d)).

Definition chart_on (db : boards) (p board id : string) : option Chart :=
  match charts db !! id with
  | Some c => if (c_ProjectID c =? p)%string && (c_DashboardID c =? board)%string then Some c else None
  | None => None
  end.

Record resolved := {
  rv_Metrics : list (string * MetricDefinition); rv_Charts : list (string * Chart); rv_Warnings : list warning;
}.

Definition add_once {A} (k : string) (a : A) (l : list (string * A)) : list (string * A) :=
  if existsb (fun x => (x.1 =? k)%string) l then l else l ++ [(k, a)].

Definition warn (w : warning) (r : resolved) : resolved :=
  {| rv_Metrics := rv_Metrics r; rv_Charts := rv_Charts r; rv_Warnings := rv_Warnings r ++ [w] |}.

(** One tile of the second loop; [catalog] are the rows of metric_definitions. *)
Definition resolve_tile (catalog : string -> option MetricDefinition) (chart : string -> option Chart)
    (section : string) (r : resolved) (t : BoardTile) : resolved :=
  if (bt_Kind t =? TileKindMetric)%string then
    match catalog (bt_Metric t) with
    | None => warn (MetricGone section (bt_Key t) (bt_Metric t)) r
    | Some def =>
        {| rv_Metrics := add_once (bt_Metric t) def (rv_Metrics r); rv_Charts := rv_Charts r;
           rv_Warnings := rv_Warnings r |}
    end
  else if (bt_Kind t =? TileKindChart)%string then
    match chart (bt_ChartID t) with
    | None => warn (ChartNotHere section (bt_Key t) (bt_ChartID t)) r
    | Some c =>
        let r1 := if is_some (c_ArchivedAt c) then warn (ChartArchived section (bt_Key t) (c_Name c)) r else r in
        {| rv_Metrics := rv_Metrics r1; rv_Charts := add_once (bt_ChartID t) c (rv_Charts r1);
           rv_Warnings := rv_Warnings r1 |}
    end
  else r.

Definition resolve_section (catalog : string -> option MetricDefinition) (chart : string -> option Chart)
    (r : resolved) (s : BoardSection) : resolved :=
  fold_left (resolve_tile catalog chart (bs_Key s)) (bs_Tiles s) r.

Definition resolveBoardContent (catalog : string -> option MetricDefinition) (db : boards) (id : string)
    (d : Dashboard) : BoardContent :=
  let definition := decodeBoardDefinition (d_Definition d) in
  if HasDefinition d then
    let r := fold_left (resolve_section catalog (chart_on db (d_ProjectID d) id)) (bd_Sections definition)
               {| rv_Metrics := []; rv_Charts := []; rv_Warnings := [] |} in
    {| bc_ID := id; bc_Board := d; bc_HasDefinition := true; bc_Definition := definition;
       bc_Metrics := rv_Metrics r; bc_Charts := rv_Charts r;
       bc_Targets := omap (fun m => (fun t => (m, t)) <$> latestMetricTarget (targets db) (d_ProjectID d) m)
                          (remove_dups (metric_keys definition));
       bc_Warnings := rv_Warnings r |}
  else {| bc_ID := id; bc_Board := d; bc_HasDefinition := false; bc_Definition := definition;
          bc_Metrics := []; bc_Charts := []; bc_Targets := []; bc_Warnings := [] |}.

(** [project_id = $1 AND board_key = $2 AND board_key <> '']. *)
Definition has_key (p key : string) (d : Dashboard) : bool :=
  (d_ProjectID d =? p)%string && (d_BoardKey d =? key)%string && negb (d_BoardKey d =? "")%string.

Definition board_by_key (db : boards) (p key : string) : option (string * Dashboard) :=
  find_first (fun kd => has_key p key kd.2) (map_to_list (dashboards db)).

(** The board a declaration means: by id when it has one, else by key. *)
Definition lockBoard (db : boards) (p id key : string) : option (string * Dashboard) :=
  if (id =? "")%string then board_by_key db p key else pair id <$> own_board db p id.

Definition boardContent (catalog : string -> option MetricDefinition) (db : boards) (p id key : string) :
    option BoardContent :=
  (fun kd => resolveBoardContent catalog db kd.1 kd.2) <$> lockBoard db p id key.

(** The unique index on (project, key). *)
Definition key_taken (db : boards) (p key id : string) : bool :=
  match board_by_key (set_dashboards (delete id (dashboards db)) db) p key with Some _ => true | None => false end.

Definition checkChartReferences (db : boards) (p board : string) (d : BoardDefinition) : bool :=
  match chart_ids d with
  | [] => true
  | ids => negb (board =? "")%string && forallb (fun id => is_some (chart_on db p board id)) ids
  end.

Section Declarations.
Context `{UuidEnv} `{Rfc3339}.

(** The targets of the tiles, in order, in the transaction of the board. *)
Fixpoint applyBoardTargets (now : Z) (p : string) (tiles : list BoardTile) (t : target_table) :
    result target_error target_table :=
  match tiles with
  | [] => Ok t
  | tile :: tiles' =>
      match bt_Target tile with
      | Some s =>
          if (bt_Kind tile =? TileKindMetric)%string then
            match setMetricTarget now p {| tw_Metric := bt_Metric tile; tw_Spec := s; tw_Clear := false |} t with
            | Ok (t', _) => applyBoardTargets now p tiles' t'
            | Err e => Err e
            end
          else applyBoardTargets now p tiles' t
      | None => applyBoardTargets now p tiles' t
      end
  end.

Definition insertBoardDefinition (now : Z) (p key newID : string) (w : BoardDefinitionWrite) (d : BoardDefinition)
    (db : boards) : result board_error (boards * (string * Dashboard)) :=
  let name := match bw_Name w with
              | Some n => if (trim_space n =? "")%string then untitled_dashboard else trim_space n
              | None => untitled_dashboard
              end in
  let row := fresh_board now p name (default "" (bw_Description w)) key (Some d) in
  if key_taken db p key newID then Err ErrRevisionConflict
  else Ok (put_board newID row (issue newID db), (newID, row)).

Definition updateBoardDefinition (now : Z) (p key id : string) (existing : Dashboard) (w : BoardDefinitionWrite)
    (d : BoardDefinition) (db : boards) : result board_error (boards * (string * Dashboard)) :=
  if (d_Revision existing =? bw_ExpectedRevision w) && negb (is_some (d_ArchivedAt existing)) then
    let row :=
      {| d_ProjectID := d_ProjectID existing; d_Name := new_name (d_Name existing) (bw_Name w);
         d_Description := default (d_Description existing) (bw_Description w);
         d_Revision := d_Revision existing + 1; d_ArchivedAt := d_ArchivedAt existing;
         d_CreatedAt := d_CreatedAt existing; d_UpdatedAt := now;
         d_BoardKey := if (key =? "")%string then d_BoardKey existing else key;
         d_DefinitionUpdatedAt := Some now; d_Definition := Some d |} in
    if negb (key =? "")%string && key_taken db p key id then Err ErrRevisionConflict
    else Ok (put_board id row db, (id, row))
  else Err ErrRevisionConflict.

Definition saveBoardDefinition (catalog : string -> option MetricDefinition) (now : Z) (p newID : string)
    (w : BoardDefinitionWrite) (db : boards) : result board_error (boards * BoardContent) :=
  match normalizeBoardDefinition (bw_Definition w) with
  | Err e => Err (ErrBoardDefinitionInvalid e)
  | Ok d =>
      let key := trim_space (bw_BoardKey w) in
      if negb (key =? "")%string && negb (boardKeyRe key) then Err BadBoardKey
      else if (bw_BoardID w =? "")%string && (key =? "")%string then Err NoBoardNamed
      else
        let written :=
          match lockBoard db p (bw_BoardID w) key with
          | Some (id, existing) =>
              if is_some (d_ArchivedAt existing) then Err ErrBoardArchived
              else if bw_ExpectedRevision w <=? 0 then Err ErrRevisionConflict
              else if negb (checkChartReferences db p id d) then Err ChartNotOnBoard
              else updateBoardDefinition now p key id existing w d db
          | None =>
              if negb (bw_BoardID w =? "")%string then Err NoRows
              else if 0 <? bw_ExpectedRevision w then Err NoRows
              else if negb (checkChartReferences db p "" d) then Err ChartNotOnBoard
              else insertBoardDefinition now p key newID w d db
          end in
        match written with
        | Err e => Err e
        | Ok (db1, (id, row)) =>
            match applyBoardTargets now p (all_tiles d) (targets db1) with
            | Err e => Err (ErrMetricTargetInvalid e)
            | Ok t => Ok (set_targets t db1, resolveBoardContent catalog (set_targets t db1) id row)
            end
        end
  end.

(** ** Boot *)

(** [seedDefaultBoards] for one board of one project. *)
Definition seed_board (now : Z) (p key name description newID : string) (d : BoardDefinition) (db : boards) : boards :=
  match board_by_key db p key with
  | Some _ => db
  | None => put_board newID (fresh_board now p name description key (Some d)) (issue newID db)
  end.

(** [RepairDefaultBoards] for one board: every untouched copy of the old seed gets the new one. *)
Definition repaired (now : Z) (description : string) (fresh : BoardDefinition) (d : Dashboard) : Dashboard :=
  {| d_ProjectID := d_ProjectID d; d_Name := d_Name d; d_Description := description; d_Revision := d_Revision d;
     d_ArchivedAt := d_ArchivedAt d; d_CreatedAt := d_CreatedAt d; d_UpdatedAt := d_UpdatedAt d;
     d_BoardKey := d_BoardKey d; d_DefinitionUpdatedAt := Some now; d_Definition := Some fresh |}.

Definition repair_boards (untouched : Dashboard -> bool) (now : Z) (description : string) (fresh : BoardDefinition)
    (db : boards) : boards :=
  set_dashboards ((fun d => if untouched d then repaired now description fresh d else d) <$> dashboards db) db.

(** [repairSeededCharts]: the rows that hold a shipped query get its replacement. *)
Definition repair_charts (fresh : string -> option string) (now : Z) (db : boards) : boards :=
  set_charts ((fun c =>
    match fresh (c_SQL c) with
    | None => c
    | Some sql =>
        {| c_DashboardID := c_DashboardID c; c_ProjectID := c_ProjectID c; c_Name := c_Name c; c_Kind := c_Kind c;
           c_Metric := c_Metric c; c_EventName := c_EventName c; c_EventType := c_EventType c; c_SQL := sql;
           c_XField := c_XField c; c_YField := c_YField c; c_SortOrder := c_SortOrder c; c_ColSpan := c_ColSpan c;
           c_Revision := c_Revision c + 1; c_ArchivedAt := c_ArchivedAt c; c_CreatedAt := c_CreatedAt c;
           c_UpdatedAt := now |}
    end) <$> charts db) db.

End Declarations.
