(* ===== verification/BoardHistory.v ===== *)
(** * BoardHistory: what the fences of boards and charts promise

    Every operation of [Boards] as one type of requests, the histories they make with
    the boot repairs, and the facts that hold in all of them: what a fenced write finds
    is what its caller read, and of the writes that carry one revision at most one is
    applied.  The second part is the content: a saved board is served whole, and the
    board order is the order that was set. *)

From S2P Require Import Prelude GoStrings Duck MetricTargets BoardDefinition Receipts Boards.
From stdpp Require Import sorting.
Import String.
Open Scope string_scope.
Open Scope list_scope.
Open Scope Z_scope.

(** ** Requests *)

Inductive board_op :=
| UpdateDashboardOp (id : string) (name description : option string) (expected : Z)
| ArchiveDashboardOp (id : string) (expected : Z)
| UnarchiveDashboardOp (id : string) (expected : Z)
| ReorderChartsOp (id : string) (chartIDs : list string) (expected : Z)
| SaveBoardOp (w : BoardDefinitionWrite)
| SetMetricTargetOp (w : MetricTargetWrite)
| UpdateChartOp (id : string) (in_ : Chart) (expected : Z)
| ArchiveChartOp (id : string) (expected : Z)
| UnarchiveChartOp (id : string) (expected : Z)
| CreateDashboardOp (name description : string)
| CreateChartOp (in_ : Chart)
| LegacyUpdateDashboard (id name description : string)
| LegacyDeleteDashboard (id : string)
| LegacyReorderCharts (id : string) (chartIDs : list string)
| LegacyUpdateChart (id : string) (in_ : Chart)
| LegacyDeleteChart (id : string).

Inductive board_answer :=
| ADashboard (d : Dashboard) | AChart (c : Chart) | AContent (c : BoardContent) | ATarget (t : MetricTarget) | ADone.

Definition answered {A} (f : A -> board_answer) (r : result board_error (boards * A)) :
    result board_error (boards * board_answer) :=
  match r with Ok (db, a) => Ok (db, f a) | Err e => Err e end.

Section History.
Context `{UuidEnv} `{Rfc3339} (catalog : string -> option MetricDefinition).

(** One request of project [p]; [newID] is the identifier a new row gets. *)
Definition run_board_op (now : Z) (p newID : string) (op : board_op) (db : boards) :
    result board_error (boards * board_answer) :=
  match op with
  | UpdateDashboardOp id name description e => answered ADashboard (updateDashboardRevision now p id name description e db)
  | ArchiveDashboardOp id e => answered ADashboard (archiveDashboard now p id e db)
  | UnarchiveDashboardOp id e => answered ADashboard (unarchiveDashboard now p id e db)
  | ReorderChartsOp id ids e => answered ADashboard (reorderCharts now p id ids e db)
  | SaveBoardOp w => answered AContent (saveBoardDefinition catalog now p newID w db)
  | SetMetricTargetOp w =>
      match setMetricTarget now p w (targets db) with
      | Ok (t, r) => Ok (set_targets t db, ATarget r)
      | Err e => Err (ErrMetricTargetInvalid e)
      end
  | UpdateChartOp id c e => answered AChart (updateChartRevision now p id c e db)
  | ArchiveChartOp id e => answered AChart (archiveChart now p id e db)
  | UnarchiveChartOp id e => answered AChart (unarchiveChart now p id e db)
  | CreateDashboardOp name description =>
      let '(db', d) := CreateDashboard now p name description newID db in Ok (db', ADashboard d)
  | CreateChartOp c =>
      answered AChart (CreateChart now
        {| c_DashboardID := c_DashboardID c; c_ProjectID := p; c_Name := c_Name c; c_Kind := c_Kind c;
           c_Metric := c_Metric c; c_EventName := c_EventName c; c_EventType := c_EventType c; c_SQL := c_SQL c;
           c_XField := c_XField c; c_YField := c_YField c; c_SortOrder := c_SortOrder c; c_ColSpan := c_ColSpan c;
           c_Revision := c_Revision c; c_ArchivedAt := c_ArchivedAt c; c_CreatedAt := c_CreatedAt c;
           c_UpdatedAt := c_UpdatedAt c |} newID db)
  | LegacyUpdateDashboard id name description => answered ADashboard (UpdateDashboard now p id name description db)
  | LegacyDeleteDashboard id => Ok (DeleteDashboard p id db, ADone)
  | LegacyReorderCharts id ids => Ok (ReorderCharts now p id ids db, ADone)
  | LegacyUpdateChart id c => answered AChart (UpdateChart now p id c db)
  | LegacyDeleteChart id => Ok (DeleteChart p id db, ADone)
  end.

(** One committed transaction: a request of any project, or a step of a boot.  [repairs] says
    whether boots that replace untouched seeds happen. *)
Inductive board_step (repairs : bool) : boards -> boards -> Prop :=
| step_request now p newID op db db' a :
    newID ∉ issued db -> run_board_op now p newID op db = Ok (db', a) -> board_step repairs db db'
| step_seed now p key name description newID d db :
    newID ∉ issued db -> board_step repairs db (seed_board now p key name description newID d db)
| step_repair_charts fresh now db : board_step repairs db (repair_charts fresh now db)
| step_repair_boards untouched now description fresh db :
    repairs = true -> board_step repairs db (repair_boards untouched now description fresh db).

(** The board and the revision a request is fenced by. *)
Definition board_fence (p : string) (op : board_op) (db : boards) : option (string * Z) :=
  match op with
  | UpdateDashboardOp id _ _ e | ArchiveDashboardOp id e | UnarchiveDashboardOp id e | ReorderChartsOp id _ e => Some (id, e)
  | SaveBoardOp w =>
      (fun kd => (kd.1, bw_ExpectedRevision w)) <$> lockBoard db p (bw_BoardID w) (trim_space (bw_BoardKey w))
  | _ => None
  end.

Definition chart_fence (op : board_op) : option (string * Z) :=
  match op with
  | UpdateChartOp id _ e | ArchiveChartOp id e | UnarchiveChartOp id e => Some (id, e)
  | _ => None
  end.

(** Rows are under issued identifiers. *)
Record boards_wf (db : boards) : Prop := {
  wf_dashboards : dom (dashboards db) ⊆ issued db;
  wf_charts : dom (charts db) ⊆ issued db;
}.

End History.

(** ** Rows that only move forward *)

Section Versioned.
Context {A : Type} (revision : A -> Z) (same : A -> A -> Prop) `{!PreOrder same}.
#[local] Set Default Proof Using "All".

(** From one table to a later one: a row that stays has moved its revision on or is the same,
    and a new row has a new identifier. *)
Definition row_moved (a a' : A) : Prop := revision a < revision a' \/ (revision a' = revision a /\ same a a').

Definition rows_moved (ids : gset string) (m m' : gmap string A) : Prop :=
  forall k a', m' !! k = Some a' ->
  match m !! k with Some a => row_moved a a' | None => k ∉ ids end.

Lemma row_moved_refl a : row_moved a a.
Proof. right. split; [done|reflexivity]. Qed.

Lemma rows_moved_refl ids m : rows_moved ids m m.
Proof. intros k a' Hk. rewrite Hk. apply row_moved_refl. Qed.

Lemma rows_moved_trans ids ids' m1 m2 m3 :
  ids ⊆ ids' -> dom m1 ⊆ ids -> rows_moved ids m1 m2 -> rows_moved ids' m2 m3 -> dom m2 ⊆ ids' ->
  rows_moved ids m1 m3.
Proof.
  intros Hids Hd1 H1 H2 Hd2 k a3 H3. specialize (H2 _ _ H3). destruct (m2 !! k) as [a2|] eqn:E2.
  - specialize (H1 _ _ E2). destruct (m1 !! k) as [a1|]; [|done]. unfold row_moved in *.
    destruct H1 as [H1|[E1 S1]], H2 as [H2|[E3 S3]]; [left; lia|left; lia|left; lia|right].
    split; [lia|]. by etrans.
  - destruct (m1 !! k) as [a1|] eqn:E1; [|set_solver].
    exfalso. apply H2, Hids, Hd1, elem_of_dom. eauto.
Qed.

Lemma rows_moved_insert ids m k a a' :
  m !! k = Some a -> row_moved a a' -> rows_moved ids m (<[k := a']> m).
Proof.
  intros Hk Hr j b. destruct (decide (k = j)) as [<-|Hn].
  - rewrite lookup_insert_eq. intros [= <-]. by rewrite Hk.
  - rewrite lookup_insert_ne by done. intros Hj. rewrite Hj. apply row_moved_refl.
Qed.

Lemma rows_moved_new ids m k a :
  k ∉ ids -> dom m ⊆ ids -> rows_moved ids m (<[k := a]> m).
Proof.
  intros Hk Hd j b. destruct (decide (k = j)) as [<-|Hn].
  - intros _. destruct (m !! k) eqn:E; [|done]. exfalso. apply Hk, Hd, elem_of_dom. eauto.
  - rewrite lookup_insert_ne by done. intros Hj. rewrite Hj. apply row_moved_refl.
Qed.

Lemma rows_moved_sub ids m m' : m' ⊆ m -> rows_moved ids m m'.
Proof. intros Hs k a Hk. rewrite (lookup_weaken _ _ _ _ Hk Hs). apply row_moved_refl. Qed.

Lemma rows_moved_fmap ids m (f : A -> A) : (forall a, row_moved a (f a)) -> rows_moved ids m (f <$> m).
Proof. intros Hf k a'. rewrite lookup_fmap. destruct (m !! k); [|done]. intros [= <-]. apply Hf. Qed.
End Versioned.

(** The same row, or where boots repair untouched seeds the row with the description and the
    document some repair wrote. *)
Definition same_board (repairs : bool) (d d' : Dashboard) : Prop :=
  d' = d \/ (repairs = true /\ exists now description fresh, d' = repaired now description fresh d).

#[export] Instance same_board_preorder repairs : PreOrder (same_board repairs).
Proof.
  split; [intros x; by left|]. intros x y z Hxy Hyz. unfold same_board in *.
  destruct Hxy as [->|[Hr (n1 & t1 & f1 & ->)]]; [done|].
  destruct Hyz as [->|[_ (n2 & t2 & f2 & ->)]]; right; (split; [done|]); [by exists n1, t1, f1|by exists n2, t2, f2].
Qed.

(** A chart without its place on the board. *)
Definition unplaced (c : Chart) : Chart := chart_placed 0 c 0.

Definition same_chart (c c' : Chart) : Prop := unplaced c = unplaced c'.

#[export] Instance same_chart_preorder : PreOrder same_chart.
Proof. split; repeat intro; unfold same_chart in *; congruence. Qed.

(** What every transaction does to the rows. *)
Record moved (repairs : bool) (db db' : boards) : Prop := {
  mv_issued : issued db ⊆ issued db';
  mv_wf : boards_wf db';
  mv_dashboards : rows_moved d_Revision (same_board repairs) (issued db) (dashboards db) (dashboards db');
  mv_charts : rows_moved c_Revision same_chart (issued db) (charts db) (charts db');
}.

Lemma moved_refl repairs db : boards_wf db -> moved repairs db db.
Proof. intros Hw. constructor; [done..| |]; by apply rows_moved_refl; apply _. Qed.

Lemma moved_trans repairs db1 db2 db3 : boards_wf db1 -> moved repairs db1 db2 -> moved repairs db2 db3 -> moved repairs db1 db3.
Proof.
  intros [W1 W2] [A1 [A2 A2'] A3 A4] [B1 B2 B3 B4]. constructor; [by etrans|done| |].
  - by eapply (rows_moved_trans d_Revision (same_board repairs)).
  - by eapply (rows_moved_trans c_Revision same_chart).
Qed.

Lemma moved_put_board repairs db id d d' :
  boards_wf db -> dashboards db !! id = Some d -> row_moved d_Revision (same_board repairs) d d' ->
  moved repairs db (put_board id d' db).
Proof.
  intros [W1 W2] Hd Hm. constructor; [done| | |]; cbn.
  - split; cbn; [|done]. rewrite dom_insert. pose proof (elem_of_dom_2 _ _ _ Hd). set_solver.
  - by eapply rows_moved_insert; [apply _|..].
  - apply rows_moved_refl; apply _.
Qed.

Lemma moved_charts repairs db m :
  boards_wf db -> dom m ⊆ dom (charts db) -> rows_moved c_Revision same_chart (issued db) (charts db) m ->
  moved repairs db (set_charts m db).
Proof.
  intros [W1 W2] Hd Hm. constructor; [done| | |done]; cbn.
  - split; cbn; [done|]. set_solver.
  - apply rows_moved_refl; apply _.
Qed.

Lemma moved_put_chart repairs db id c c' :
  boards_wf db -> charts db !! id = Some c -> row_moved c_Revision same_chart c c' ->
  moved repairs db (put_chart id c' db).
Proof.
  intros Hw Hc Hm. apply moved_charts; [done| |].
  - rewrite dom_insert. pose proof (elem_of_dom_2 _ _ _ Hc). set_solver.
  - by eapply rows_moved_insert; [apply _|..].
Qed.

Lemma moved_new_board repairs db id d :
  boards_wf db -> id ∉ issued db -> moved repairs db (put_board id d (issue id db)).
Proof.
  intros [W1 W2] Hi. constructor; cbn; [set_solver| | |].
  - split; cbn; rewrite ?dom_insert; set_solver.
  - by apply rows_moved_new; [apply _|..].
  - apply rows_moved_refl; apply _.
Qed.

Lemma moved_new_chart repairs db id c :
  boards_wf db -> id ∉ issued db -> moved repairs db (put_chart id c (issue id db)).
Proof.
  intros [W1 W2] Hi. constructor; cbn; [set_solver| | |].
  - split; cbn; rewrite ?dom_insert; set_solver.
  - apply rows_moved_refl; apply _.
  - by apply rows_moved_new; [apply _|..].
Qed.

Lemma moved_targets repairs db t : boards_wf db -> moved repairs db (set_targets t db).
Proof.
  intros [W1 W2]. constructor; cbn; [done|by split| |]; apply rows_moved_refl; apply _.
Qed.

Lemma own_board_Some db p id d : own_board db p id = Some d -> dashboards db !! id = Some d /\ d_ProjectID d = p.
Proof.
  unfold own_board. destruct (dashboards db !! id) as [x|]; [|done].
  destruct (String.eqb_spec (d_ProjectID x) p); [|done]. by intros [= <-].
Qed.

Lemma own_chart_Some db p id c : own_chart db p id = Some c -> charts db !! id = Some c /\ c_ProjectID c = p.
Proof.
  unfold own_chart. destruct (charts db !! id) as [x|]; [|done].
  destruct (String.eqb_spec (c_ProjectID x) p); [|done]. by intros [= <-].
Qed.

(** ** Placing charts *)

Lemma place_lookup a now p b id o m k :
  place a now p b id o m !! k =
  match m !! k with
  | Some c => Some (if (k =? id)%string && (c_ProjectID c =? p)%string && (c_DashboardID c =? b)%string
                       && negb (a && is_some (c_ArchivedAt c)) then chart_placed now c o else c)
  | None => None
  end.
Proof.
  unfold place. destruct (m !! id) as [c|] eqn:Hid.
  - destruct (String.eqb_spec k id) as [->|Hn]; cbn.
    + rewrite Hid. destruct (_ && _); [by rewrite lookup_insert_eq|by rewrite Hid].
    + destruct (_ && _); [rewrite lookup_insert_ne by done|]; by destruct (m !! k).
  - destruct (String.eqb_spec k id) as [->|Hn]; cbn; [by rewrite Hid|by destruct (m !! k)].
Qed.

Lemma place_all_lookup a now p b ids i m k c :
  m !! k = Some c -> exists c', place_all a now p b i ids m !! k = Some c' /\ same_chart c c' /\ c_Revision c' = c_Revision c.
Proof.
  revert i m c. induction ids as [|id ids IH]; intros i m c Hk; cbn; [by exists c|].
  set (c1 := if (k =? id)%string && (c_ProjectID c =? p)%string && (c_DashboardID c =? b)%string
                && negb (a && is_some (c_ArchivedAt c)) then chart_placed now c i else c).
  assert (H1 : place a now p b id i m !! k = Some c1) by (by rewrite place_lookup, Hk).
  destruct (IH (i + 1) _ _ H1) as (c' & Hc' & Hs & Hr). exists c'. split; [done|].
  assert (same_chart c c1 /\ c_Revision c1 = c_Revision c) as [Hs1 Hr1].
  { unfold c1. by destruct (_ && _). }
  split; [by etrans|congruence].
Qed.

Lemma place_all_None a now p b ids i m k : m !! k = None -> place_all a now p b i ids m !! k = None.
Proof.
  revert i m. induction ids as [|id ids IH]; intros i m Hk; cbn; [done|]. apply IH. by rewrite place_lookup, Hk.
Qed.

Lemma place_all_moved a now p b ids m (known : gset string) :
  rows_moved c_Revision same_chart known m (place_all a now p b 0 ids m) /\
  dom (place_all a now p b 0 ids m) ⊆ dom m.
Proof.
  split.
  - intros k c' Hc'. destruct (m !! k) as [c|] eqn:Hk.
    + destruct (place_all_lookup a now p b ids 0 m k c Hk) as (c2 & Hc2 & Hs & Hr).
      rewrite Hc' in Hc2. injection Hc2 as <-. right. by split.
    + by rewrite place_all_None in Hc'.
  - intros k Hk. apply elem_of_dom in Hk as [c' Hc']. apply elem_of_dom.
    destruct (m !! k) eqn:E; [by eexists|]. by rewrite place_all_None in Hc'.
Qed.

(** ** Every operation moves the rows forward *)

Lemma answered_Ok {A} (f : A -> board_answer) r db a :
  answered f r = Ok (db, a) -> exists x, r = Ok (db, x) /\ a = f x.
Proof. destruct r as [[db' x]|]; cbn; [|done]. intros [= <- <-]. eauto. Qed.

Section Moves.
Context `{UuidEnv} `{Rfc3339} (catalog : string -> option MetricDefinition) (repairs : bool).
#[local] Set Default Proof Using "All".

Lemma row_moved_bumped now d n s ar : row_moved d_Revision (same_board repairs) d (bumped now d n s ar).
Proof. left. cbn. lia. Qed.

Lemma moved_bumped now db p id d n s ar :
  boards_wf db -> own_board db p id = Some d -> moved repairs db (put_board id (bumped now d n s ar) db).
Proof. intros Hw [Hd _]%own_board_Some. eapply moved_put_board; [done..|]. apply row_moved_bumped. Qed.

Lemma moved_reorder a now p id ids db d :
  boards_wf db -> own_board db p id = Some d ->
  let db1 := put_board id (bumped now d (d_Name d) (d_Description d) (d_ArchivedAt d)) db in
  moved repairs db (set_charts (place_all a now p id 0 ids (charts db1)) db1).
Proof.
  intros Hw Hd db1. pose proof (moved_bumped now db p id d (d_Name d) (d_Description d) (d_ArchivedAt d) Hw Hd) as Hm.
  eapply moved_trans; [done|exact Hm|].
  destruct (place_all_moved a now p id ids (charts db1) (issued db1)) as [Hr Hdom].
  apply moved_charts; [apply (mv_wf _ _ _ Hm)|exact Hdom|exact Hr].
Qed.

Lemma moved_save now p newID w db db' c :
  boards_wf db -> newID ∉ issued db -> saveBoardDefinition catalog now p newID w db = Ok (db', c) ->
  moved repairs db db'.
Proof.
  intros Hw Hn. unfold saveBoardDefinition. destruct (normalizeBoardDefinition _) as [def|]; [|done].
  destruct (_ && negb (boardKeyRe _)); [done|]. destruct (_ && _); [done|]. cbv zeta.
  set (written := match lockBoard db p (bw_BoardID w) (trim_space (bw_BoardKey w)) with Some _ => _ | None => _ end).
  assert (Hwritten : forall db1 x, written = Ok (db1, x) -> moved repairs db db1).
  { intros db1 x. unfold written. destruct (lockBoard _ _ _ _) as [[id d]|] eqn:Hl.
    - destruct (is_some (d_ArchivedAt d)); [done|]. destruct (_ <=? 0); [done|]. destruct (negb _); [done|].
      unfold updateBoardDefinition. destruct (_ && _); [|done]. cbv zeta. destruct (_ && _); [done|]. intros [= <- <-].
      apply (moved_put_board repairs db id d); [done| |left; cbn; lia].
      unfold lockBoard in Hl. destruct (_ =? _)%string.
      + unfold board_by_key in Hl. apply find_first_Some in Hl as [Hl _]. by apply elem_of_map_to_list in Hl.
      + destruct (own_board db p _) as [x|] eqn:Ho; [|done]. injection Hl as <- <-. by apply own_board_Some in Ho as [? _].
    - destruct (negb _); [done|]. destruct (0 <? _); [done|]. destruct (negb _); [done|].
      unfold insertBoardDefinition. cbv zeta. destruct (key_taken _ _ _ _); [done|]. intros [= <- <-].
      by apply moved_new_board. }
  destruct written as [[db1 [id row]]|]; [|done]. specialize (Hwritten _ _ eq_refl).
  destruct (applyBoardTargets _ _ _ _) as [t|]; [|done]. intros [= <- _].
  eapply moved_trans; [done|exact Hwritten|]. apply moved_targets. apply (mv_wf _ _ _ Hwritten).
Qed.

Lemma op_moved now p newID op db db' a :
  boards_wf db -> newID ∉ issued db -> run_board_op catalog now p newID op db = Ok (db', a) -> moved repairs db db'.
Proof.
  intros Hw Hn. pose proof (moved_refl repairs db Hw) as Hrefl.
  destruct op; cbn [run_board_op]; try (intros (x & Hx & _)%answered_Ok; revert Hx);
    unfold updateDashboardRevision, archiveDashboard, unarchiveDashboard, reorderCharts, updateChartRevision,
      archiveChart, unarchiveChart, CreateChart, UpdateDashboard, UpdateChart, DeleteDashboard, DeleteChart, ReorderCharts;
    try match goal with
        | |- context [own_board db p ?i] => destruct (own_board db p i) as [d|] eqn:Hd
        | |- context [own_chart db p ?i] => destruct (own_chart db p i) as [d|] eqn:Hc
        end; try (intros; discriminate); try (by intros [= <- _]).
  all: try (apply own_chart_Some in Hc as [Hc _]).
  - destruct (_ && _); [|done]. intros [= <- _]. by eapply moved_bumped.
  - destruct (_ && _); [intros [= <- _]; by eapply moved_bumped|]. destruct (is_some _); [|done]. by intros [= <- _].
  - destruct (_ && _); [intros [= <- _]; by eapply moved_bumped|]. destruct (negb _); [|done]. by intros [= <- _].
  - destruct (_ =? _); [|done]. intros [= <- _]. by eapply moved_reorder.
  - by apply moved_save.
  - destruct (setMetricTarget _ _ _ _) as [[t r]|]; [|done]. intros [= <- _]. by apply moved_targets.
  - destruct (_ && _); [|done]. intros [= <- _]. eapply moved_put_chart; [done..|]. left; cbn; lia.
  - destruct (_ && _); [intros [= <- _]; eapply moved_put_chart; [done..|]; left; cbn; lia|].
    destruct (is_some _); [|done]. by intros [= <- _].
  - destruct (_ && _); [intros [= <- _]; eapply moved_put_chart; [done..|]; left; cbn; lia|].
    destruct (negb _); [|done]. by intros [= <- _].
  - cbn. intros [= <- _]. by apply moved_new_board.
  - destruct (bool_decide _); [|done]. intros [= <- _]. by apply moved_new_chart.
  - intros [= <- _]. by eapply moved_bumped.
  - intros [= <- _]. apply own_board_Some in Hd as [Hd _]. destruct Hw as [W1 W2]. constructor; cbn; [done| | |].
    + split; cbn; [rewrite dom_delete; set_solver|]. etrans; [|exact W2].
      intros k (x & Hx)%elem_of_dom. apply map_lookup_filter_Some in Hx as [Hx _]. by eapply elem_of_dom_2.
    + apply rows_moved_sub; [apply _|]. apply delete_subseteq.
    + apply rows_moved_sub; [apply _|]. apply map_filter_subseteq.
  - intros [= <- _]. by eapply moved_reorder.
  - intros [= <- _]. destruct (place_all_moved false now p id chartIDs (charts db) (issued db)) as [Hr Hdom].
    by apply moved_charts.
  - intros [= <- _]. eapply moved_put_chart; [done..|]. left; cbn; lia.
  - intros [= <- _]. apply moved_charts; [done|rewrite dom_delete; set_solver|].
    apply rows_moved_sub; [apply _|]. apply delete_subseteq.
Qed.

Lemma step_moved db db' : boards_wf db -> board_step catalog repairs db db' -> moved repairs db db'.
Proof.
  intros Hw Hs. revert Hw. destruct Hs as [now p newID op db1 db2 a Hn Ho|now p key name description newID d db1 Hn|fresh now db1|untouched now description fresh db1 Hr]; intros Hw.
  - exact (op_moved _ _ _ _ _ _ _ Hw Hn Ho).
  - unfold seed_board. destruct (board_by_key _ _ _); [by apply moved_refl|by apply moved_new_board].
  - apply moved_charts; [done|by rewrite dom_fmap|]. apply rows_moved_fmap; [apply _|].
    intros c. destruct (fresh (c_SQL c)); [left; cbn; lia|]. apply row_moved_refl; apply _.
  - subst repairs. destruct Hw as [W1 W2]. constructor; [done| | |]; cbn.
    + split; cbn; [|done]. by rewrite dom_fmap.
    + apply rows_moved_fmap; [apply _|]. intros d. destruct (untouched d); [|apply row_moved_refl; apply _].
      right. split; [done|]. right. eauto.
    + apply rows_moved_refl; apply _.
Qed.

Lemma history_moved db db' : boards_wf db -> rtc (board_step catalog repairs) db db' -> moved repairs db db'.
Proof.
  intros Hw Hr. induction Hr as [db|db1 db2 db3 Hs _ IH]; [by apply moved_refl|].
  pose proof (step_moved _ _ Hw Hs) as Hm. eapply moved_trans; [done|exact Hm|]. apply IH, (mv_wf _ _ _ Hm).
Qed.
End Moves.

Section Fences.
Context `{UuidEnv} `{Rfc3339} (catalog : string -> option MetricDefinition).
#[local] Set Default Proof Using "All".

(** A fenced write that changed something found its revision and moved it on. *)
Lemma fenced_board_write now p newID op db db' a id e :
  run_board_op catalog now p newID op db = Ok (db', a) -> board_fence p op db = Some (id, e) ->
  db' = db \/ exists d d', dashboards db !! id = Some d /\ d_Revision d = e /\
                           dashboards db' !! id = Some d' /\ d_Revision d' = e + 1.
Proof.
  destruct op; cbn [run_board_op board_fence]; try done;
    try (intros (x & Hx & _)%answered_Ok [= <- <-]; revert Hx; unfold updateDashboardRevision, archiveDashboard,
      unarchiveDashboard, reorderCharts; destruct (own_board db p _) as [d|] eqn:Hd; [|done];
      apply own_board_Some in Hd as [Hd _]).
  - destruct (_ && _) eqn:Hb; [|done]. bool_props. intros [= <- _]. right. exists d. eexists. cbn.
    rewrite lookup_insert_eq. split_and!; try done. cbn. lia.
  - destruct (_ && _) eqn:Hb; [|destruct (is_some _); [|done]; intros [= <- _]; by left]. bool_props.
    intros [= <- _]. right. exists d. eexists. cbn. rewrite lookup_insert_eq. split_and!; try done. cbn. lia.
  - destruct (_ && _) eqn:Hb; [|destruct (negb _); [|done]; intros [= <- _]; by left]. bool_props.
    intros [= <- _]. right. exists d. eexists. cbn. rewrite lookup_insert_eq. split_and!; try done. cbn. lia.
  - destruct (_ =? _) eqn:Hb; [|done]. bool_props. intros [= <- _]. right. exists d. eexists. cbn.
    rewrite lookup_insert_eq. split_and!; try done. cbn. lia.
  - intros (x & Hx & _)%answered_Ok. unfold saveBoardDefinition in Hx.
    destruct (normalizeBoardDefinition _) as [def|]; [|done]. destruct (_ && negb (boardKeyRe _)); [done|].
    destruct (_ && _); [done|]. cbv zeta in Hx. destruct (lockBoard _ _ _ _) as [[i d]|] eqn:Hl; [|done].
    cbn. intros [= <- <-]. destruct (is_some (d_ArchivedAt d)) eqn:Har; [done|]. destruct (_ <=? 0); [done|].
    destruct (negb _); [done|]. unfold updateBoardDefinition in Hx. rewrite Har in Hx.
    destruct (d_Revision d =? _) eqn:Hrev; [|done]. cbn [andb negb] in Hx. cbv zeta in Hx.
    destruct (_ && _); [done|]. destruct (applyBoardTargets _ _ _ _) as [t|]; [|done]. injection Hx as <- _.
    bool_props. right. exists d. eexists. cbn. rewrite lookup_insert_eq. split_and!; try done; [|cbn; lia].
    unfold lockBoard in Hl. destruct (_ =? _)%string.
    + apply find_first_Some in Hl as [Hl _]. by apply elem_of_map_to_list in Hl.
    + destruct (own_board db p _) as [y|] eqn:Ho; [|done]. injection Hl as <- <-. by apply own_board_Some in Ho as [? _].
Qed.

Lemma fenced_chart_write now p newID op db db' a id e :
  run_board_op catalog now p newID op db = Ok (db', a) -> chart_fence op = Some (id, e) ->
  db' = db \/ exists c c', charts db !! id = Some c /\ c_Revision c = e /\
                           charts db' !! id = Some c' /\ c_Revision c' = e + 1.
Proof.
  destruct op; cbn [run_board_op chart_fence]; try done;
    try (intros (x & Hx & _)%answered_Ok [= <- <-]; revert Hx; unfold updateChartRevision, archiveChart,
      unarchiveChart; destruct (own_chart db p _) as [c|] eqn:Hd; [|done]; apply own_chart_Some in Hd as [Hd _]).
  - destruct (_ && _) eqn:Hb; [|done]. bool_props. intros [= <- _]. right. exists c. eexists. cbn.
    rewrite lookup_insert_eq. split_and!; try done. cbn. lia.
  - destruct (_ && _) eqn:Hb; [|destruct (is_some _); [|done]; intros [= <- _]; by left]. bool_props.
    intros [= <- _]. right. exists c. eexists. cbn. rewrite lookup_insert_eq. split_and!; try done. cbn. lia.
  - destruct (_ && _) eqn:Hb; [|destruct (negb _); [|done]; intros [= <- _]; by left]. bool_props.
    intros [= <- _]. right. exists c. eexists. cbn. rewrite lookup_insert_eq. split_and!; try done. cbn. lia.
Qed.

(** C25: Optimistic concurrency: a fenced write finds what its caller read.  Take a caller
    that reads a board or a chart, any history of requests of the operations and of the older
    API, from any projects, and boots, and then a write fenced by the revision that was read
    which changes something: the row it finds under the identifier is the row that was read.
    That an insert draws an identifier no row ever had is a rule of the history, as it is of
    random uuids.
    Two things are not under the fence: a chart's place on its board, which the older reorder
    moves, and the description and the document of a board, which a boot that repairs
    untouched seeds may have replaced at the same revision; without such boots the board's
    row is the same in every field. *)
Theorem fenced_write_sees_its_read repairs db db2 now p newID op db3 a id e :
  boards_wf db -> rtc (board_step catalog repairs) db db2 ->
  run_board_op catalog now p newID op db2 = Ok (db3, a) -> db3 <> db2 ->
  (board_fence p op db2 = Some (id, e) -> forall d, dashboards db !! id = Some d -> d_Revision d = e ->
     exists d2, dashboards db2 !! id = Some d2 /\ same_board repairs d d2) /\
  (chart_fence op = Some (id, e) -> forall c, charts db !! id = Some c -> c_Revision c = e ->
     exists c2, charts db2 !! id = Some c2 /\ same_chart c c2).
Proof.
  intros Hw Hr Hop Hne. destruct (history_moved catalog repairs db db2 Hw Hr) as [_ _ Hd Hc]. split.
  - intros Hf d Ed Hrev. destruct (fenced_board_write _ _ _ _ _ _ _ _ _ Hop Hf) as [|(d2 & _ & E2 & R2 & _)]; [done|].
    exists d2. split; [done|]. specialize (Hd _ _ E2). rewrite Ed in Hd. destruct Hd as [?|[_ ?]]; [lia|done].
  - intros Hf c Ec Hrev. destruct (fenced_chart_write _ _ _ _ _ _ _ _ _ Hop Hf) as [|(c2 & _ & E2 & R2 & _)]; [done|].
    exists c2. split; [done|]. specialize (Hc _ _ E2). rewrite Ec in Hc. destruct Hc as [?|[_ ?]]; [lia|done].
Qed.

(** C24: Of the writes that carry the same revision of a board or of a chart at most one is
    applied, in any history and for any projects and operations: an update, an archive, a
    reorder and a declaration of content race for one fence. *)
Theorem one_writer_per_revision repairs db db1 db2 db3 now1 p1 new1 op1 a1 now2 p2 new2 op2 a2 id e :
  boards_wf db -> new1 ∉ issued db ->
  run_board_op catalog now1 p1 new1 op1 db = Ok (db1, a1) -> db1 <> db ->
  rtc (board_step catalog repairs) db1 db2 ->
  run_board_op catalog now2 p2 new2 op2 db2 = Ok (db3, a2) ->
  (board_fence p1 op1 db = Some (id, e) /\ board_fence p2 op2 db2 = Some (id, e)) \/
  (chart_fence op1 = Some (id, e) /\ chart_fence op2 = Some (id, e)) ->
  db3 = db2.
Proof.
  intros Hw Hn H1 Hne Hr H2 Hf. pose proof (op_moved catalog repairs _ _ _ _ _ _ _ Hw Hn H1) as Hm.
  pose proof (history_moved catalog repairs _ _ (mv_wf _ _ _ Hm) Hr) as [_ _ Hd Hc].
  destruct Hf as [[F1 F2]|[F1 F2]].
  - destruct (fenced_board_write _ _ _ _ _ _ _ _ _ H1 F1) as [|(d & d' & _ & _ & E & Er)]; [done|].
    destruct (fenced_board_write _ _ _ _ _ _ _ _ _ H2 F2) as [|(x & _ & E2 & Er2 & _)]; [done|].
    specialize (Hd _ _ E2). rewrite E in Hd. destruct Hd as [?|[? _]]; lia.
  - destruct (fenced_chart_write _ _ _ _ _ _ _ _ _ H1 F1) as [|(c & c' & _ & _ & E & Er)]; [done|].
    destruct (fenced_chart_write _ _ _ _ _ _ _ _ _ H2 F2) as [|(x & _ & E2 & Er2 & _)]; [done|].
    specialize (Hc _ _ E2). rewrite E in Hc. destruct Hc as [?|[? _]]; lia.
Qed.
End Fences.

(** ** The order of a board *)

(** The chart an order is meant for: on this board and not archived. *)
Definition orderable (p board : string) (m : gmap string Chart) (k : string) : bool :=
  match m !! k with Some c => listed p board false c | None => false end.

Lemma place_all_out a now p b ids i m k : k ∉ ids -> place_all a now p b i ids m !! k = m !! k.
Proof.
  revert i m. induction ids as [|id ids IH]; intros i m Hk; cbn; [done|].
  apply not_elem_of_cons in Hk as [Hn Hk]. rewrite IH by done. rewrite place_lookup.
  rewrite (proj2 (String.eqb_neq _ _) Hn). cbn. by destruct (m !! k).
Qed.

Lemma place_listed now p b k o m c :
  m !! k = Some c -> listed p b false c = true -> place true now p b k o m !! k = Some (chart_placed now c o).
Proof.
  unfold listed. intros Hk Hc. rewrite place_lookup, Hk, String.eqb_refl. cbn [andb orb] in *. by rewrite Hc.
Qed.

(** Each listed chart gets the index of its id. *)
Lemma place_all_index now p b ids i m k j c :
  NoDup ids -> ids !! j = Some k -> m !! k = Some c -> listed p b false c = true ->
  place_all true now p b i ids m !! k = Some (chart_placed now c (i + Z.of_nat j)).
Proof.
  revert i m j. induction ids as [|id ids IH]; intros i m j Hnd Hj Hk Hc; [done|].
  apply NoDup_cons in Hnd as [Hid Hnd]. cbn. destruct j as [|j]; cbn in Hj.
  - injection Hj as <-. rewrite place_all_out by done. rewrite (place_listed _ _ _ _ _ _ c) by done. by rewrite Z.add_0_r.
  - rewrite (IH (i + 1) _ j Hnd Hj); [by replace (i + 1 + Z.of_nat j) with (i + Z.of_nat (S j)) by lia| |done].
    rewrite place_lookup, Hk. destruct (String.eqb_spec k id) as [Heq|]; [|done].
    destruct Hid. rewrite <- Heq. apply list_elem_of_lookup. eauto.
Qed.

Lemma listed_unplaced p b a c : listed p b a (unplaced c) = listed p b a c.
Proof. done. Qed.

Lemma same_listed p b a c c' : same_chart c c' -> listed p b a c = listed p b a c'.
Proof. intros Hs. by rewrite <- listed_unplaced, Hs. Qed.

Lemma place_all_orderable a now p b q board ids i m k :
  orderable q board (place_all a now p b i ids m) k = orderable q board m k.
Proof.
  unfold orderable. destruct (m !! k) as [c|] eqn:Hk.
  - destruct (place_all_lookup a now p b ids i m k c Hk) as (c' & -> & Hs & _). symmetry. by apply same_listed.
  - by rewrite place_all_None.
Qed.

#[export] Instance chart_le_trans : Transitive chart_le.
Proof. intros x y z. unfold chart_le. lia. Qed.

#[export] Instance chart_le_total : Total chart_le.
Proof. intros x y. unfold chart_le. lia. Qed.

(** The rows the listing shows, for one id. *)
Definition shown (p board : string) (m : gmap string Chart) (k : string) : option (string * Chart) :=
  match m !! k with Some c => if listed p board false c then Some (k, c) else None | None => None end.

Lemma shown_Some p board m k x : shown p board m k = Some x ->
  x.1 = k /\ m !! k = Some x.2 /\ listed p board false x.2 = true.
Proof.
  unfold shown. destruct (m !! k) as [c|]; [|done]. destruct (listed _ _ _ c) eqn:E; [|done]. by intros [= <-].
Qed.

Lemma map_fst_shown p board m ids :
  map fst (omap (shown p board m) ids) = List.filter (orderable p board m) ids.
Proof.
  induction ids as [|k ids IH]; [done|]. cbn. unfold shown at 1, orderable at 1.
  destruct (m !! k) as [c|]; [|done]. destruct (listed _ _ _ c); [|done]. cbn. by rewrite IH.
Qed.

Lemma StronglySorted_omap {A B} (R : A -> A -> Prop) (S : B -> B -> Prop) (f : A -> option B) l :
  (forall x y a b, R x y -> f x = Some a -> f y = Some b -> S a b) ->
  StronglySorted R l -> StronglySorted S (omap f l).
Proof.
  intros Hf. induction 1 as [|x l _ IH Hx]; cbn; [constructor|]. destruct (f x) as [a|] eqn:Ha; [|done].
  constructor; [done|]. apply Forall_forall. intros b Hb. apply list_elem_of_omap in Hb as (y & Hy & Hb).
  rewrite Forall_forall in Hx. eauto.
Qed.

Lemma StronglySorted_by_position {A} (R : A -> A -> Prop) l :
  (forall i j x y, (i < j)%nat -> l !! i = Some x -> l !! j = Some y -> R x y) -> StronglySorted R l.
Proof.
  induction l as [|x l IH]; intros Hl; constructor.
  - apply IH. intros i j y z Hij. apply (Hl (S i) (S j)). lia.
  - apply Forall_forall. intros y (j & Hj)%list_elem_of_lookup. apply (Hl 0%nat (S j)); [lia|done..].
Qed.

(** A listed chart of a reordered board sits at the position of its id. *)
Lemma shown_position now p b ids m k x i :
  NoDup ids -> ids !! i = Some k -> shown p b (place_all true now p b 0 ids m) k = Some x ->
  c_SortOrder x.2 = Z.of_nat i.
Proof.
  intros Hnd Hi (_ & Hx & Hl)%shown_Some.
  destruct (m !! k) as [c|] eqn:Hk; [|by rewrite place_all_None in Hx].
  destruct (place_all_lookup true now p b ids 0 m k c Hk) as (c' & Hc' & Hs & _).
  rewrite Hx in Hc'. injection Hc' as <-. rewrite <- (same_listed _ _ _ _ _ Hs) in Hl.
  rewrite (place_all_index now p b ids 0 m k i c Hnd Hi Hk Hl) in Hx. injection Hx as <-. done.
Qed.

Lemma NoDup_shown p b m ids : NoDup ids -> NoDup (omap (shown p b m) ids).
Proof.
  intros Hnd. apply (NoDup_fmap_1 fst). change (fst <$> omap (shown p b m) ids) with (map fst (omap (shown p b m) ids)).
  rewrite map_fst_shown. by apply List.NoDup_filter || (apply NoDup_ListNoDup, List.NoDup_filter, NoDup_ListNoDup).
Qed.

(** What is listed are the rows the ids show. *)
Lemma listing_shows p b m ids :
  NoDup ids -> (forall k, orderable p b m k = true -> k ∈ ids) ->
  List.filter (fun kc => listed p b false kc.2) (map_to_list m) ≡ₚ omap (shown p b m) ids.
Proof.
  intros Hnd Hall. apply NoDup_Permutation; [|by apply NoDup_shown|].
  - apply NoDup_ListNoDup, List.NoDup_filter, NoDup_ListNoDup, NoDup_map_to_list.
  - intros [k c]. rewrite list_elem_of_In, filter_In, <- list_elem_of_In, elem_of_map_to_list, list_elem_of_omap. cbn.
    split.
    + intros [Hk Hl]. exists k. unfold shown. rewrite Hk, Hl. split; [|done]. apply Hall. unfold orderable. by rewrite Hk.
    + intros (k' & _ & (Hk1 & Hk2 & Hk3)%shown_Some). cbn in *. by subst k'.
Qed.

(** After a reorder that names every active chart of the board once, the board is listed in
    exactly the order that was asked for; ids of other boards, of archived charts and of nothing
    are passed over. *)
Theorem reordered_board_reads_in_order now p id ids e db db' d :
  reorderCharts now p id ids e db = Ok (db', d) -> NoDup ids ->
  (forall k, orderable p id (charts db) k = true -> k ∈ ids) ->
  map fst (ListChartsFiltered p id false db') = List.filter (orderable p id (charts db)) ids.
Proof.
  unfold reorderCharts. destruct (own_board db p id) as [d0|]; [|done]. destruct (_ =? e); [|done].
  intros [= <- _] Hnd Hall. cbn [charts set_charts put_board set_dashboards].
  set (m := place_all true now p id 0 ids (charts db)).
  assert (Hsame : forall k, orderable p id m k = orderable p id (charts db) k) by (intros k; apply place_all_orderable).
  assert (Hshown : List.filter (fun kc => listed p id false kc.2) (map_to_list m) ≡ₚ omap (shown p id m) ids).
  { apply listing_shows; [done|]. intros k. rewrite Hsame. apply Hall. }
  transitivity (map fst (omap (shown p id m) ids)).
  - f_equal. unfold ListChartsFiltered. cbn [charts]. apply (StronglySorted_unique_strong chart_le).
    + intros x y Hx Hy Hxy Hyx. rewrite merge_sort_Permutation, Hshown in Hx.
      apply list_elem_of_omap in Hx as (kx & (i & Hi)%list_elem_of_lookup & Hx), Hy as (ky & (j & Hj)%list_elem_of_lookup & Hy).
      pose proof (shown_position _ _ _ _ _ _ _ _ Hnd Hi Hx). pose proof (shown_position _ _ _ _ _ _ _ _ Hnd Hj Hy).
      assert (i = j) as -> by (unfold chart_le in *; lia). congruence.
    + apply StronglySorted_merge_sort; apply _.
    + apply (StronglySorted_omap (fun k1 k2 => exists i j, (i < j)%nat /\ ids !! i = Some k1 /\ ids !! j = Some k2)).
      * intros k1 k2 x y (i & j & Hij & Hi & Hj) Hx Hy. left.
        pose proof (shown_position _ _ _ _ _ _ _ _ Hnd Hi Hx). pose proof (shown_position _ _ _ _ _ _ _ _ Hnd Hj Hy). lia.
      * apply StronglySorted_by_position. intros i j x y Hij Hi Hj. by exists i, j.
    + by rewrite merge_sort_Permutation.
  - rewrite map_fst_shown. apply filter_ext. exact Hsame.
Qed.

(** ** What a saved board serves *)

Definition only_archived (w : warning) : Prop :=
  match w with ChartArchived _ _ _ => True | _ => False end.

(** Everything the tiles so far refer to is served, and no reference dangles. *)
Record served (catalog : string -> option MetricDefinition) (chart : string -> option Chart) (r : resolved)
    (ts : list BoardTile) : Prop := {
  sv_metrics : forall t, t ∈ ts -> bt_Kind t = TileKindMetric ->
    exists def, catalog (bt_Metric t) = Some def /\ exists def', (bt_Metric t, def') ∈ rv_Metrics r;
  sv_charts : forall t, t ∈ ts -> bt_Kind t = TileKindChart ->
    exists c, chart (bt_ChartID t) = Some c /\ exists c', (bt_ChartID t, c') ∈ rv_Charts r;
  sv_warnings : forall w, w ∈ rv_Warnings r -> only_archived w;
}.

Lemma add_once_has {A} k (a : A) l : exists a', (k, a') ∈ add_once k a l.
Proof.
  unfold add_once. destruct (existsb _ l) eqn:E.
  - apply existsb_True in E as ([k' a'] & Hin & Hk). cbn in Hk. apply String.eqb_eq in Hk as ->. eauto.
  - exists a. apply elem_of_app. right. by left.
Qed.

Lemma add_once_keeps {A} k (a : A) l x : x ∈ l -> x ∈ add_once k a l.
Proof. unfold add_once. destruct (existsb _ l); [done|]. intros Hx. apply elem_of_app. by left. Qed.

(** What a tile of a checked document refers to is there. *)
Definition refers (catalog : string -> option MetricDefinition) (chart : string -> option Chart) (t : BoardTile) : Prop :=
  (bt_Kind t = TileKindMetric -> is_Some (catalog (bt_Metric t))) /\
  (bt_Kind t = TileKindChart -> is_Some (chart (bt_ChartID t))).

Lemma resolve_tile_served catalog chart s r ts t :
  served catalog chart r ts -> refers catalog chart t ->
  served catalog chart (resolve_tile catalog chart s r t) (ts ++ [t]).
Proof.
  intros [S1 S2 S3] [R1 R2]. unfold resolve_tile. destruct (String.eqb_spec (bt_Kind t) TileKindMetric) as [Hk|Hk].
  - destruct (R1 Hk) as [def Hdef]. rewrite Hdef. constructor; cbn; [| |done].
    + intros x [Hx|Hx]%elem_of_app Hxk.
      * destruct (S1 _ Hx Hxk) as (y & Hy & z & Hz). exists y. split; [done|]. exists z. by apply add_once_keeps.
      * apply list_elem_of_singleton in Hx as ->. exists def. split; [done|]. apply add_once_has.
    + intros x [Hx|Hx]%elem_of_app Hxk; [by apply S2|]. apply list_elem_of_singleton in Hx as ->.
      by rewrite Hk in Hxk.
  - destruct (String.eqb_spec (bt_Kind t) TileKindChart) as [Hc|Hc].
    + destruct (R2 Hc) as [c Hchart]. rewrite Hchart. constructor; cbn.
      * intros x [Hx|Hx]%elem_of_app Hxk; [|by apply list_elem_of_singleton in Hx as ->].
        destruct (is_some (c_ArchivedAt c)); cbn; by apply S1.
      * intros x [Hx|Hx]%elem_of_app Hxk.
        -- destruct (S2 _ Hx Hxk) as (y & Hy & z & Hz). exists y. split; [done|]. exists z.
           apply add_once_keeps. by destruct (is_some _).
        -- apply list_elem_of_singleton in Hx as ->. exists c. split; [done|]. apply add_once_has.
      * destruct (is_some (c_ArchivedAt c)); cbn; [|done]. intros w [Hw|Hw]%elem_of_app; [by apply S3|].
        by apply list_elem_of_singleton in Hw as ->.
    + constructor; [| |done]; intros x [Hx|Hx]%elem_of_app Hxk;
        [by apply S1|by apply list_elem_of_singleton in Hx as ->|by apply S2|by apply list_elem_of_singleton in Hx as ->].
Qed.

Lemma resolve_tiles_served catalog chart s ts2 r ts :
  served catalog chart r ts -> (forall t, t ∈ ts2 -> refers catalog chart t) ->
  served catalog chart (fold_left (resolve_tile catalog chart s) ts2 r) (ts ++ ts2).
Proof.
  revert r ts. induction ts2 as [|t ts2 IH]; intros r ts Hs Hr; cbn; [by rewrite app_nil_r|].
  rewrite cons_middle, app_assoc. apply IH; [|intros x Hx; apply Hr; by right].
  apply resolve_tile_served; [done|]. apply Hr. by left.
Qed.

Lemma resolve_sections_served catalog chart l r ts :
  served catalog chart r ts -> (forall t, t ∈ concat (map bs_Tiles l) -> refers catalog chart t) ->
  served catalog chart (fold_left (resolve_section catalog chart) l r) (ts ++ concat (map bs_Tiles l)).
Proof.
  revert r ts. induction l as [|s l IH]; intros r ts Hs Hr; cbn; [by rewrite app_nil_r|].
  rewrite app_assoc. apply IH; [|intros x Hx; apply Hr; apply elem_of_app; by right].
  apply resolve_tiles_served; [done|]. intros x Hx. apply Hr. apply elem_of_app. by left.
Qed.

Lemma checked_charts db p board d t :
  checkChartReferences db p board d = true -> t ∈ all_tiles d -> bt_Kind t = TileKindChart ->
  is_Some (chart_on db p board (bt_ChartID t)).
Proof.
  unfold checkChartReferences. intros Hc Ht Hk.
  assert (Hin : bt_ChartID t ∈ chart_ids d).
  { apply list_elem_of_In, in_map, filter_In. split; [by apply list_elem_of_In|]. by rewrite Hk. }
  destruct (chart_ids d) as [|i ids] eqn:E; [by apply not_elem_of_nil in Hin|]. rewrite <- E in *.
  apply andb_true_iff in Hc as [_ Hc]. rewrite forallb_True' in Hc. specialize (Hc _ Hin).
  destruct (chart_on db p board (bt_ChartID t)); [by eexists|done].
Qed.

Section Served.
Context `{CanonicalUuid} `{Rfc3339} (catalog : string -> option MetricDefinition).
#[local] Set Default Proof Using "All".

(** The written row of a save, with what the checks established. *)
Lemma save_shape now p newID w db db' c :
  saveBoardDefinition catalog now p newID w db = Ok (db', c) ->
  exists d id row, normalizeBoardDefinition (bw_Definition w) = Ok d /\
    dashboards db' !! id = Some row /\ charts db' = charts db /\ d_ProjectID row = p /\
    d_Definition row = Some d /\ is_some (d_DefinitionUpdatedAt row) = true /\
    (forall t, t ∈ all_tiles d -> bt_Kind t = TileKindChart -> is_Some (chart_on db p id (bt_ChartID t))) /\
    c = resolveBoardContent catalog db' id row.
Proof.
  unfold saveBoardDefinition. destruct (normalizeBoardDefinition _) as [d|] eqn:Hn; [|done].
  destruct (_ && negb (boardKeyRe _)); [done|]. destruct (_ && _); [done|]. cbv zeta.
  destruct (lockBoard _ _ _ _) as [[id e]|] eqn:Hl.
  - destruct (is_some (d_ArchivedAt e)); [done|]. destruct (_ <=? 0); [done|].
    destruct (checkChartReferences db p id d) eqn:Hc; [|done]. cbn [negb].
    unfold updateBoardDefinition. destruct (_ && _); [|done]. cbv zeta. destruct (_ && _); [done|].
    destruct (applyBoardTargets _ _ _ _) as [t|]; [|done]. intros [= <- <-]. exists d, id. eexists.
    split_and!; [done|cbn; by rewrite lookup_insert_eq|done| |done|done| |reflexivity].
    + cbn. unfold lockBoard in Hl. destruct (_ =? _)%string.
      * apply find_first_Some in Hl as [_ Hk]. unfold has_key in Hk. cbn in Hk. by bool_props.
      * destruct (own_board db p _) as [y|] eqn:Ho; [|done]. injection Hl as <- <-. by apply own_board_Some in Ho as [_ ?].
    + intros x Hx Hk. by eapply checked_charts.
  - destruct (negb _); [done|]. destruct (0 <? _); [done|]. destruct (checkChartReferences db p "" d) eqn:Hc; [|done].
    cbn [negb]. unfold insertBoardDefinition. cbv zeta. destruct (key_taken _ _ _ _); [done|].
    destruct (applyBoardTargets _ _ _ _) as [t|]; [|done]. intros [= <- <-]. exists d, newID. eexists.
    split_and!; [done|cbn; by rewrite lookup_insert_eq|done|done|done|done| |reflexivity].
    intros x Hx Hk. exfalso. unfold checkChartReferences in Hc.
    assert (Hin : bt_ChartID x ∈ chart_ids d).
    { apply list_elem_of_In, in_map, filter_In. split; [by apply list_elem_of_In|]. by rewrite Hk. }
    destruct (chart_ids d); [by apply not_elem_of_nil in Hin|done].
Qed.

(** A declaration that is accepted is stored whole and served whole: the board reads back,
    by its id, as the content the save answered; its document is the normalized declaration,
    every metric and every chart a tile names is among what is served, and the only warnings
    are about archived charts. *)
Theorem saved_board_is_served now p newID w db db' c :
  (forall m def, MetricCatalogEntry m = Some def -> is_Some (catalog m)) ->
  saveBoardDefinition catalog now p newID w db = Ok (db', c) ->
  normalizeBoardDefinition (bw_Definition w) = Ok (bc_Definition c) /\ bc_HasDefinition c = true /\
  (bc_ID c <> "" -> boardContent catalog db' p (bc_ID c) "" = Some c) /\
  (forall t, t ∈ all_tiles (bc_Definition c) -> bt_Kind t = TileKindMetric -> exists def, (bt_Metric t, def) ∈ bc_Metrics c) /\
  (forall t, t ∈ all_tiles (bc_Definition c) -> bt_Kind t = TileKindChart -> exists ch, (bt_ChartID t, ch) ∈ bc_Charts c) /\
  (forall x, x ∈ bc_Warnings c -> only_archived x).
Proof.
  intros Hcat Hsave. destruct (save_shape _ _ _ _ _ _ _ Hsave) as (d & id & row & Hn & Hrow & Hch & Hp & Hd & Hu & Hrefs & ->).
  destruct (accepted_board_is_bounded _ _ Hn) as (Hv & _ & _ & _ & _ & Htiles & _).
  pose proof (decode_normalized _ _ Hn) as Hdec.
  assert (Hserved : served catalog (chart_on db' (d_ProjectID row) id)
    (fold_left (resolve_section catalog (chart_on db' (d_ProjectID row) id)) (bd_Sections d)
      {| rv_Metrics := []; rv_Charts := []; rv_Warnings := [] |}) ([] ++ all_tiles d)).
  { apply resolve_sections_served.
    - constructor; cbn; intros x Hx; by apply not_elem_of_nil in Hx.
    - intros t Ht. destruct (Htiles t Ht) as (_ & _ & Hsub). split.
      + intros Hk. destruct Hsub as [def _ Hdef| E|E]; [by eapply Hcat|by rewrite Hk in E|by rewrite Hk in E].
      + intros Hk. unfold chart_on. rewrite Hch, Hp. by apply Hrefs. }
  destruct Hserved as [S1 S2 S3]. unfold resolveBoardContent, HasDefinition. rewrite Hu, Hd, Hdec. cbn.
  split_and!; [done|done| | | |done].
  - intros Hid. unfold boardContent, lockBoard. rewrite (proj2 (String.eqb_neq _ _) Hid).
    unfold own_board. rewrite Hrow, Hp, String.eqb_refl. cbn. unfold resolveBoardContent, HasDefinition.
    by rewrite Hu, Hd, Hdec, Hp.
  - intros t Ht Hk. destruct (S1 t Ht Hk) as (_ & _ & def & Hdef). eauto.
  - intros t Ht Hk. destruct (S2 t Ht Hk) as (_ & _ & ch & Hc). eauto.
Qed.
End Served.

(** ** Witnesses *)

Definition w_dashboard : Dashboard :=
  {| d_ProjectID := "p"; d_Name := "Board"; d_Description := ""; d_Revision := 4; d_ArchivedAt := None;
     d_CreatedAt := 1; d_UpdatedAt := 1; d_BoardKey := "main"; d_DefinitionUpdatedAt := None; d_Definition := None |}.

Definition w_chart (order : Z) (archived : option Z) : Chart :=
  {| c_DashboardID := "b"; c_ProjectID := "p"; c_Name := "Chart"; c_Kind := "line"; c_Metric := "events";
     c_EventName := ""; c_EventType := ""; c_SQL := ""; c_XField := ""; c_YField := ""; c_SortOrder := order;
     c_ColSpan := 1; c_Revision := 1; c_ArchivedAt := archived; c_CreatedAt := 1; c_UpdatedAt := 1 |}.

(** Project p has board b with the charts c1, c2 and the archived c3. *)
Definition w_boards : boards :=
  {| dashboards := {["b" := w_dashboard]};
     charts := {["c1" := w_chart 0 None; "c2" := w_chart 1 None; "c3" := w_chart 2 (Some 1)]};
     targets := []; issued := {["b"; "c1"; "c2"; "c3"]} |}.

Lemma w_boards_wf : boards_wf w_boards.
Proof.
  split.
  - exact (bool_decide_eq_true_1 (dom (dashboards w_boards) ⊆ issued w_boards) eq_refl).
  - exact (bool_decide_eq_true_1 (dom (charts w_boards) ⊆ issued w_boards) eq_refl).
Qed.

Definition w_run (now : Z) (op : board_op) (db : boards) : boards :=
  match @run_board_op w_uuids w_instants MetricCatalogEntry now "p" "new" op db with Ok (db', _) => db' | Err _ => db end.

Lemma w_new_id : "new" ∉ issued w_boards.
Proof. exact (bool_decide_eq_true_1 ("new" ∉ issued w_boards) eq_refl). Qed.

(** The older API deletes a chart, then the board is archived with the revision it was read at. *)
Definition w_deleted : boards := w_run 5 (LegacyDeleteChart "c1") w_boards.

Lemma w_delete_step : rtc (@board_step w_uuids w_instants MetricCatalogEntry false) w_boards w_deleted.
Proof. apply rtc_once. eapply (step_request _ _ 5 "p" "new" (LegacyDeleteChart "c1")); [exact w_new_id|reflexivity]. Qed.

Lemma fenced_write_sees_its_read_witness :
  charts w_deleted !! "c1" <> charts w_boards !! "c1" /\
  exists d2, dashboards w_deleted !! "b" = Some d2 /\ same_board false w_dashboard d2.
Proof.
  split; [vm_compute; discriminate|].
  destruct (@run_board_op w_uuids w_instants MetricCatalogEntry 7 "p" "new" (ArchiveDashboardOp "b" 4) w_deleted)
    as [[db3 a]|err] eqn:E; [|vm_compute in E; discriminate E].
  assert (Hrev : match @run_board_op w_uuids w_instants MetricCatalogEntry 7 "p" "new" (ArchiveDashboardOp "b" 4) w_deleted with
    | Ok (db, _) => (d_Revision <$> dashboards db !! "b") = Some 5 | Err _ => False end) by (vm_compute; reflexivity).
  rewrite E in Hrev.
  refine (proj1 (@fenced_write_sees_its_read w_uuids w_instants MetricCatalogEntry false w_boards w_deleted 7 "p" "new"
    (ArchiveDashboardOp "b" 4) db3 a "b" 4 w_boards_wf w_delete_step E _) eq_refl w_dashboard eq_refl eq_refl).
  intros H. rewrite H in Hrev. vm_compute in Hrev. discriminate Hrev.
Defined.

Definition w_archived : boards := w_run 5 (ArchiveDashboardOp "b" 4) w_boards.

(** The second archive with the revision of the first is answered and changes nothing. *)
Lemma one_writer_per_revision_witness :
  match @run_board_op w_uuids w_instants MetricCatalogEntry 7 "p" "new" (ArchiveDashboardOp "b" 4) w_archived with
  | Ok (db3, _) => db3 = w_archived
  | Err _ => False
  end.
Proof.
  refine (@one_writer_per_revision w_uuids w_instants MetricCatalogEntry false w_boards w_archived w_archived _
    5 "p" "new" (ArchiveDashboardOp "b" 4) _ 7 "p" "new" (ArchiveDashboardOp "b" 4) _ "b" 4
    w_boards_wf w_new_id eq_refl _ (rtc_refl _ _) eq_refl (or_introl (conj eq_refl eq_refl))).
  intros H. apply (f_equal (fun db => d_Revision <$> dashboards db !! "b")) in H. vm_compute in H. discriminate H.
Defined.

Lemma reordered_board_reads_in_order_witness :
  map fst (ListChartsFiltered "p" "b" false (w_run 9 (ReorderChartsOp "b" ["c2"; "zz"; "c3"; "c1"] 4) w_boards)) = ["c2"; "c1"].
Proof.
  refine (eq_trans (reordered_board_reads_in_order 9 "p" "b" ["c2"; "zz"; "c3"; "c1"] 4 w_boards
    (w_run 9 (ReorderChartsOp "b" ["c2"; "zz"; "c3"; "c1"] 4) w_boards) _ eq_refl _ _) eq_refl).
  - repeat constructor; set_solver.
  - intros k Hk. unfold orderable in Hk. destruct (charts w_boards !! k) as [c|] eqn:E; [|done].
    unfold w_boards in E. cbn [charts] in E. apply lookup_insert_Some in E as [[<- _]|[_ E]]; [set_solver|].
    apply lookup_insert_Some in E as [[<- _]|[_ E]]; [set_solver|].
    apply lookup_singleton_Some in E as [<- _]. set_solver.
Defined.

Definition w_declaration : BoardDefinitionWrite :=
  {| bw_BoardID := "b"; bw_BoardKey := ""; bw_Name := None; bw_Description := None;
     bw_Definition := {| bd_Version := 0;
       bd_Sections := [ {| bs_Key := "main"; bs_Title := "Main"; bs_Description := "";
         bs_Tiles := [w_metric_tile;
           {| bt_Key := "one"; bt_Title := ""; bt_Kind := ""; bt_Display := ""; bt_Span := 0; bt_Metric := "";
              bt_Target := None; bt_ChartID := "c3"; bt_Steps := None; bt_Params := None |}] |} ] |};
     bw_ExpectedRevision := 4 |}.

Definition w_saved : result board_error (boards * BoardContent) :=
  @saveBoardDefinition w_uuids w_instants MetricCatalogEntry 9 "p" "new" w_declaration w_boards.

Lemma saved_board_is_served_witness :
  match w_saved with
  | Ok (db', c) => @boardContent MetricCatalogEntry db' "p" "b" "" = Some c /\ bc_Warnings c = [ChartArchived "main" "one" "Chart"]
  | Err _ => False
  end.
Proof.
  destruct w_saved as [[db' c]|e] eqn:E; [|vm_compute in E; discriminate E].
  destruct (@saved_board_is_served w_uuids w_canonical w_instants MetricCatalogEntry 9 "p" "new" w_declaration
    w_boards db' c) as (_ & _ & H & _).
  - intros m def Hm. eauto.
  - exact E.
  - assert (Hid : bc_ID c = "b" /\ bc_Warnings c = [ChartArchived "main" "one" "Chart"]).
    { assert (Hc : match w_saved with Ok (_, c) => bc_ID c = "b" /\ bc_Warnings c = [ChartArchived "main" "one" "Chart"] | Err _ => False end)
        by (vm_compute; split; reflexivity). by rewrite E in Hc. }
    destruct Hid as [Hid Hw]. split; [|exact Hw]. rewrite Hid in H. by apply H.
Defined.

(** Another project puts a chart on the board: only that the board exists is checked. *)
Example chart_on_a_foreign_board :
  match @run_board_op w_uuids w_instants MetricCatalogEntry 9 "q" "new" (CreateChartOp (w_chart 0 None)) w_boards with
  | Ok (db', AChart c) => c_ProjectID c = "q" /\ c_DashboardID c = "b" /\ d_ProjectID w_dashboard = "p" /\ c_SortOrder c = 3
  | _ => False
  end.
Proof. vm_compute. done. Qed.

(** A boot repair rewrites the content and leaves the revision: a declaration read before it is
    accepted after it. *)
Example repair_keeps_the_revision :
  let db' := repair_boards (fun _ => true) 9 "new" w_normal w_boards in
  dashboards db' !! "b" <> dashboards w_boards !! "b" /\
  (d_Revision <$> dashboards db' !! "b") = (d_Revision <$> dashboards w_boards !! "b") /\
  is_ok (@saveBoardDefinition w_uuids w_instants MetricCatalogEntry 10 "p" "new" w_declaration db') = true.
Proof. split_and!; [vm_compute; discriminate|reflexivity|vm_compute; reflexivity]. Qed.
