(* ===== verification/BoardReceipts.v ===== *)
(** * BoardReceipts: the tool handlers over boards, charts and metric targets

    The composition of the handlers of internal/dataplane/usecase (lifecycle.go,
    boards.go) with the receipts of [Receipts] and the operations of [Boards]: the input
    of a call, its fingerprint, the revision guard, the trimmed key and the one
    transaction behind it.  The histories mix such calls, with any faults, and every
    other step of [BoardHistory]. *)

From S2P Require Import Prelude GoStrings Duck MetricTargets BoardDefinition Receipts Boards BoardHistory.
From Stdlib Require Import SpecFloat.
Import String.
Open Scope string_scope.
Open Scope list_scope.
Open Scope Z_scope.

(** ** Inputs *)

Record updateDashboardInput := {
  ud_DashboardID : string; ud_Name : option string; ud_Description : option string; ud_Revision : Z;
  ud_IdempotencyKey : string;
}.

Record archiveDashboardInput := { ad_DashboardID : string; ad_Revision : Z; ad_IdempotencyKey : string }.

Record unarchiveDashboardInput := { nd_DashboardID : string; nd_Revision : Z; nd_IdempotencyKey : string }.

Record updateChartInput := {
  uc_ChartID : string; uc_Name : string; uc_Kind : string; uc_Metric : string; uc_EventName : string;
  uc_EventType : string; uc_SQL : string; uc_XField : string; uc_YField : string; uc_ColSpan : Z;
  uc_Revision : Z; uc_IdempotencyKey : string;
}.

Record archiveChartInput := { ac_ChartID : string; ac_Revision : Z; ac_IdempotencyKey : string }.

Record unarchiveChartInput := { nc_ChartID : string; nc_Revision : Z; nc_IdempotencyKey : string }.

Record reorderChartsInput := {
  rc_DashboardID : string; rc_ChartIDs : list string; rc_Revision : Z; rc_IdempotencyKey : string;
}.

Record saveBoardInput := {
  sb_BoardID : string; sb_BoardKey : string; sb_Name : option string; sb_Description : option string;
  sb_Definition : BoardDefinition; sb_Revision : Z; sb_IdempotencyKey : string;
}.

Record setMetricTargetInput := {
  st_Metric : string; st_Direction : string; st_Value : spec_float; st_Period : string; st_Currency : string;
  st_EffectiveAt : string; st_Clear : bool; st_IdempotencyKey : string;
}.

(** The input of a call, as its handler receives it. *)
Inductive tool_input :=
| update_dashboard (in_ : updateDashboardInput)
| archive_dashboard (in_ : archiveDashboardInput)
| unarchive_dashboard (in_ : unarchiveDashboardInput)
| update_chart (in_ : updateChartInput)
| archive_chart (in_ : archiveChartInput)
| unarchive_chart (in_ : unarchiveChartInput)
| reorder_charts (in_ : reorderChartsInput)
| save_board (in_ : saveBoardInput)
| set_metric_target (in_ : setMetricTargetInput).

(** The fingerprint of the whole input, key included. *)
Class RequestHash := { requestHash : tool_input -> string }.

Inductive handler_error := BadRevision | StoreError (e : idem_error board_error).

Section Handlers.
Context `{UuidEnv} `{Rfc3339} `{RequestHash} (catalog : string -> option MetricDefinition).

(** ** The store's recorded operations *)

Section Store.
Context (key_fits : string -> bool) (f : option tx_fault) (now : Z) (newID : string).

Definition store_step : Type :=
  claimed boards board_answer -> claimed boards board_answer * result (idem_error board_error) board_answer.

Definition UpdateDashboardIdempotent (p id : string) (name description : option string) (expected : Z)
    (idemKey hash : string) : store_step :=
  runIdempotent key_fits f (p, "update_dashboard", idemKey) hash
    (run_board_op catalog now p newID (UpdateDashboardOp id name description expected)).

Definition ArchiveDashboardIdempotent (p id : string) (expected : Z) (idemKey hash : string) : store_step :=
  runIdempotent key_fits f (p, "archive_dashboard", idemKey) hash
    (run_board_op catalog now p newID (ArchiveDashboardOp id expected)).

Definition UnarchiveDashboardIdempotent (p id : string) (expected : Z) (idemKey hash : string) : store_step :=
  runIdempotent key_fits f (p, "unarchive_dashboard", idemKey) hash
    (run_board_op catalog now p newID (UnarchiveDashboardOp id expected)).

Definition UpdateChartIdempotent (id : string) (chart : Chart) (expected : Z) (idemKey hash : string) : store_step :=
  runIdempotent key_fits f (c_ProjectID chart, "update_chart", idemKey) hash
    (run_board_op catalog now (c_ProjectID chart) newID (UpdateChartOp id chart expected)).

Definition ArchiveChartIdempotent (p id : string) (expected : Z) (idemKey hash : string) : store_step :=
  runIdempotent key_fits f (p, "archive_chart", idemKey) hash
    (run_board_op catalog now p newID (ArchiveChartOp id expected)).

Definition UnarchiveChartIdempotent (p id : string) (expected : Z) (idemKey hash : string) : store_step :=
  runIdempotent key_fits f (p, "unarchive_chart", idemKey) hash
    (run_board_op catalog now p newID (UnarchiveChartOp id expected)).

Definition ReorderChartsIdempotent (p id : string) (chartIDs : list string) (expected : Z) (idemKey hash : string) :
    store_step :=
  runIdempotent key_fits f (p, "reorder_charts", idemKey) hash
    (run_board_op catalog now p newID (ReorderChartsOp id chartIDs expected)).

Definition SaveBoardDefinition (p : string) (w : BoardDefinitionWrite) (idemKey hash : string) : store_step :=
  runIdempotent key_fits f (p, "save_board", idemKey) hash (run_board_op catalog now p newID (SaveBoardOp w)).

Definition SetMetricTargetIdempotent (p : string) (w : MetricTargetWrite) (idemKey hash : string) : store_step :=
  runIdempotent key_fits f (p, "set_metric_target", idemKey) hash
    (run_board_op catalog now p newID (SetMetricTargetOp w)).

(** ** Handlers *)

Definition handled (r : claimed boards board_answer * result (idem_error board_error) board_answer) :
    claimed boards board_answer * result handler_error board_answer :=
  (r.1, match r.2 with Ok a => Ok a | Err e => Err (StoreError e) end).

Definition updateDashboard (p : string) (in_ : updateDashboardInput) (s : claimed boards board_answer) :
    claimed boards board_answer * result handler_error board_answer :=
  if ud_Revision in_ <=? 0 then (s, Err BadRevision)
  else handled (UpdateDashboardIdempotent p (ud_DashboardID in_) (ud_Name in_) (ud_Description in_) (ud_Revision in_)
    (trim_space (ud_IdempotencyKey in_)) (requestHash (update_dashboard in_)) s).

Definition archiveDashboardTool (p : string) (in_ : archiveDashboardInput) (s : claimed boards board_answer) :
    claimed boards board_answer * result handler_error board_answer :=
  if ad_Revision in_ <=? 0 then (s, Err BadRevision)
  else handled (ArchiveDashboardIdempotent p (ad_DashboardID in_) (ad_Revision in_)
    (trim_space (ad_IdempotencyKey in_)) (requestHash (archive_dashboard in_)) s).

Definition unarchiveDashboardTool (p : string) (in_ : unarchiveDashboardInput) (s : claimed boards board_answer) :
    claimed boards board_answer * result handler_error board_answer :=
  if nd_Revision in_ <=? 0 then (s, Err BadRevision)
  else handled (UnarchiveDashboardIdempotent p (nd_DashboardID in_) (nd_Revision in_)
    (trim_space (nd_IdempotencyKey in_)) (requestHash (unarchive_dashboard in_)) s).

(** The chart an update carries; what the tool does not take is Go's zero value. *)
Definition chart_of (p : string) (in_ : updateChartInput) : Chart :=
  {| c_DashboardID := ""; c_ProjectID := p; c_Name := uc_Name in_; c_Kind := uc_Kind in_; c_Metric := uc_Metric in_;
     c_EventName := uc_EventName in_; c_EventType := uc_EventType in_; c_SQL := uc_SQL in_;
     c_XField := uc_XField in_; c_YField := uc_YField in_; c_SortOrder := 0; c_ColSpan := uc_ColSpan in_;
     c_Revision := 0; c_ArchivedAt := None; c_CreatedAt := 0; c_UpdatedAt := 0 |}.

Definition updateChart (p : string) (in_ : updateChartInput) (s : claimed boards board_answer) :
    claimed boards board_answer * result handler_error board_answer :=
  if uc_Revision in_ <=? 0 then (s, Err BadRevision)
  else handled (UpdateChartIdempotent (uc_ChartID in_) (chart_of p in_) (uc_Revision in_)
    (trim_space (uc_IdempotencyKey in_)) (requestHash (update_chart in_)) s).

Definition archiveChartTool (p : string) (in_ : archiveChartInput) (s : claimed boards board_answer) :
    claimed boards board_answer * result handler_error board_answer :=
  if ac_Revision in_ <=? 0 then (s, Err BadRevision)
  else handled (ArchiveChartIdempotent p (ac_ChartID in_) (ac_Revision in_)
    (trim_space (ac_IdempotencyKey in_)) (requestHash (archive_chart in_)) s).

Definition unarchiveChartTool (p : string) (in_ : unarchiveChartInput) (s : claimed boards board_answer) :
    claimed boards board_answer * result handler_error board_answer :=
  if nc_Revision in_ <=? 0 then (s, Err BadRevision)
  else handled (UnarchiveChartIdempotent p (nc_ChartID in_) (nc_Revision in_)
    (trim_space (nc_IdempotencyKey in_)) (requestHash (unarchive_chart in_)) s).

Definition reorderChartsTool (p : string) (in_ : reorderChartsInput) (s : claimed boards board_answer) :
    claimed boards board_answer * result handler_error board_answer :=
  if rc_Revision in_ <=? 0 then (s, Err BadRevision)
  else handled (ReorderChartsIdempotent p (rc_DashboardID in_) (rc_ChartIDs in_) (rc_Revision in_)
    (trim_space (rc_IdempotencyKey in_)) (requestHash (reorder_charts in_)) s).

Definition saveBoard (p : string) (in_ : saveBoardInput) (s : claimed boards board_answer) :
    claimed boards board_answer * result handler_error board_answer :=
  handled (SaveBoardDefinition p
    {| bw_BoardID := trim_space (sb_BoardID in_); bw_BoardKey := trim_space (sb_BoardKey in_); bw_Name := sb_Name in_;
       bw_Description := sb_Description in_; bw_Definition := sb_Definition in_; bw_ExpectedRevision := sb_Revision in_ |}
    (trim_space (sb_IdempotencyKey in_)) (requestHash (save_board in_)) s).

Definition setMetricTargetTool (p : string) (in_ : setMetricTargetInput) (s : claimed boards board_answer) :
    claimed boards board_answer * result handler_error board_answer :=
  handled (SetMetricTargetIdempotent p
    {| tw_Metric := trim_space (st_Metric in_);
       tw_Spec := {| ts_Direction := st_Direction in_; ts_Value := st_Value in_; ts_Period := st_Period in_;
                     ts_Currency := st_Currency in_; ts_EffectiveAt := st_EffectiveAt in_ |};
       tw_Clear := st_Clear in_ |}
    (trim_space (st_IdempotencyKey in_)) (requestHash (set_metric_target in_)) s).

(** One call of project [p]. *)
Definition serve (p : string) (i : tool_input) (s : claimed boards board_answer) :
    claimed boards board_answer * result handler_error board_answer :=
  match i with
  | update_dashboard i => updateDashboard p i s
  | archive_dashboard i => archiveDashboardTool p i s
  | unarchive_dashboard i => unarchiveDashboardTool p i s
  | update_chart i => updateChart p i s
  | archive_chart i => archiveChartTool p i s
  | unarchive_chart i => unarchiveChartTool p i s
  | reorder_charts i => reorderChartsTool p i s
  | save_board i => saveBoard p i s
  | set_metric_target i => setMetricTargetTool p i s
  end.
End Store.

(** get_board: by id or by key, whichever is given. *)
Inductive get_board_answer := BoardNotFound | BoardUnnamed | BoardServed (c : BoardContent).

Definition getBoard (p boardID boardKey : string) (db : boards) : get_board_answer :=
  let id := trim_space boardID in
  let key := trim_space boardKey in
  if negb (id =? "")%string then
    match boardContent catalog db p id "" with Some c => BoardServed c | None => BoardNotFound end
  else if negb (key =? "")%string then
    match boardContent catalog db p "" key with Some c => BoardServed c | None => BoardNotFound end
  else BoardUnnamed.

(** ** What a call is to the store *)

Definition tool_name (i : tool_input) : string :=
  match i with
  | update_dashboard _ => "update_dashboard" | archive_dashboard _ => "archive_dashboard"
  | unarchive_dashboard _ => "unarchive_dashboard" | update_chart _ => "update_chart"
  | archive_chart _ => "archive_chart" | unarchive_chart _ => "unarchive_chart"
  | reorder_charts _ => "reorder_charts" | save_board _ => "save_board" | set_metric_target _ => "set_metric_target"
  end.

Definition retry_key (i : tool_input) : string :=
  trim_space match i with
  | update_dashboard i => ud_IdempotencyKey i | archive_dashboard i => ad_IdempotencyKey i
  | unarchive_dashboard i => nd_IdempotencyKey i | update_chart i => uc_IdempotencyKey i
  | archive_chart i => ac_IdempotencyKey i | unarchive_chart i => nc_IdempotencyKey i
  | reorder_charts i => rc_IdempotencyKey i | save_board i => sb_IdempotencyKey i
  | set_metric_target i => st_IdempotencyKey i
  end.

(** The handlers that insist on a revision. *)
Definition revision_ok (i : tool_input) : bool :=
  match i with
  | update_dashboard i => 0 <? ud_Revision i | archive_dashboard i => 0 <? ad_Revision i
  | unarchive_dashboard i => 0 <? nd_Revision i | update_chart i => 0 <? uc_Revision i
  | archive_chart i => 0 <? ac_Revision i | unarchive_chart i => 0 <? nc_Revision i
  | reorder_charts i => 0 <? rc_Revision i | save_board _ | set_metric_target _ => true
  end.

(** The operation a call asks the store for. *)
Definition asked (p : string) (i : tool_input) : board_op :=
  match i with
  | update_dashboard i => UpdateDashboardOp (ud_DashboardID i) (ud_Name i) (ud_Description i) (ud_Revision i)
  | archive_dashboard i => ArchiveDashboardOp (ad_DashboardID i) (ad_Revision i)
  | unarchive_dashboard i => UnarchiveDashboardOp (nd_DashboardID i) (nd_Revision i)
  | update_chart i => UpdateChartOp (uc_ChartID i) (chart_of p i) (uc_Revision i)
  | archive_chart i => ArchiveChartOp (ac_ChartID i) (ac_Revision i)
  | unarchive_chart i => UnarchiveChartOp (nc_ChartID i) (nc_Revision i)
  | reorder_charts i => ReorderChartsOp (rc_DashboardID i) (rc_ChartIDs i) (rc_Revision i)
  | save_board i =>
      SaveBoardOp {| bw_BoardID := trim_space (sb_BoardID i); bw_BoardKey := trim_space (sb_BoardKey i);
        bw_Name := sb_Name i; bw_Description := sb_Description i; bw_Definition := sb_Definition i;
        bw_ExpectedRevision := sb_Revision i |}
  | set_metric_target i =>
      SetMetricTargetOp {| tw_Metric := trim_space (st_Metric i);
        tw_Spec := {| ts_Direction := st_Direction i; ts_Value := st_Value i; ts_Period := st_Period i;
                      ts_Currency := st_Currency i; ts_EffectiveAt := st_EffectiveAt i |};
        tw_Clear := st_Clear i |}
  end.

Definition recorded (now : Z) (newID p : string) (i : tool_input) : request boards board_answer board_error :=
  {| q_key := (p, tool_name i, retry_key i); q_hash := requestHash i;
     q_mutate := run_board_op catalog now p newID (asked p i) |}.

(** Every handler is the guard and then the recorded operation. *)
Lemma serve_recorded key_fits f now newID p i s :
  serve key_fits f now newID p i s =
    if revision_ok i then
      let q := recorded now newID p i in handled (runIdempotent key_fits f (q_key q) (q_hash q) (q_mutate q) s)
    else (s, Err BadRevision).
Proof.
  destruct i; cbn [serve revision_ok recorded q_key q_hash q_mutate asked tool_name retry_key];
    unfold updateDashboard, archiveDashboardTool, unarchiveDashboardTool, updateChart, archiveChartTool,
      unarchiveChartTool, reorderChartsTool; try reflexivity; rewrite Z.ltb_antisym; by destruct (_ <=? 0).
Qed.

(** ** Histories *)

Context (key_fits : string -> bool).

(** One call of a history. *)
Record call := {
  k_project : string; k_input : tool_input; k_answer : result handler_error board_answer;
  k_before : claimed boards board_answer; k_after : claimed boards board_answer;
}.

(** Calls of any project with any faults, and every other transaction on the boards. *)
Inductive calls (repairs : bool) : claimed boards board_answer -> list call -> claimed boards board_answer -> Prop :=
| calls_nil s : calls repairs s [] s
| calls_call s l s' f now newID p i s'' a :
    calls repairs s l s' -> newID ∉ issued (rows s') -> serve key_fits f now newID p i s' = (s'', a) ->
    calls repairs s (l ++ [{| k_project := p; k_input := i; k_answer := a; k_before := s'; k_after := s'' |}]) s''
| calls_other s l s' d :
    calls repairs s l s' -> board_step catalog repairs (rows s') d -> calls repairs s l (with_rows d s').

Definition call_key (c : call) : claim_key := (k_project c, tool_name (k_input c), retry_key (k_input c)).

(** The call was carried out: it was answered, or it changed the receipts without an answer. *)
Definition carried_out (c : call) : Prop :=
  (exists a, k_answer c = Ok a) \/ idempotency_keys (k_after c) <> idempotency_keys (k_before c).

#[local] Set Default Proof Using "All".

Lemma calls_steps repairs s l s' : calls repairs s l s' -> rtc (board_step catalog repairs) (rows s) (rows s').
Proof.
  induction 1 as [s|s l s' f now newID p i s'' a _ IH Hn Hs|s l s' d _ IH Hd]; [constructor| |].
  - etrans; [exact IH|]. rewrite serve_recorded in Hs. destruct (revision_ok i); [|injection Hs as <- <-; constructor].
    cbv zeta in Hs. unfold handled in Hs.
    destruct (runIdempotent _ _ _ _ _ _) as [s3 a3] eqn:Hr. cbn in Hs. injection Hs as <- _.
    apply (run_rows _ _ _ _ _ _ _ (fun d => rtc (board_step catalog repairs) (rows s') d)) in Hr; [done|constructor|].
    intros d j Hd. apply rtc_once. exact (step_request _ _ now p newID (asked p i) _ _ _ Hn Hd).
  - cbn. by eapply rtc_r.
Qed.

(** What a carried-out call leaves in the table for ever after. *)
Lemma carried_out_is_recorded repairs s l s' c :
  calls repairs s l s' -> c ∈ l -> carried_out c -> retry_key (k_input c) <> "" ->
  exists j : board_answer, idempotency_keys s' !! call_key c =
      Some {| rc_request_hash := requestHash (k_input c); rc_result := Some j |} /\
    forall a, k_answer c = Ok a -> a = j.
Proof.
  induction 1 as [s|s l s' f now newID p i s'' a _ IH Hn Hs|s l s' d _ IH Hd]; intros Hin Hc Hk.
  - by apply not_elem_of_nil in Hin.
  - rewrite serve_recorded in Hs. destruct (revision_ok i) eqn:Hrev; [|injection Hs as <- <-].
    + cbv zeta in Hs. unfold handled in Hs. destruct (runIdempotent _ _ _ _ _ _) as [s3 a3] eqn:Hr.
      cbn in Hs. injection Hs as <- Ha. apply elem_of_app in Hin as [Hin|Hin].
      * destruct (IH Hin Hc Hk) as (j & Hj & Hja). exists j. split; [|done].
        eapply lookup_weaken; [exact Hj|]. by eapply run_grows.
      * apply list_elem_of_singleton in Hin as ->. cbn in *.
        destruct (run_effect _ _ _ _ _ _ (Hk : keyed (q_key (recorded now newID p i))) Hr) as [-> Hj _|d j _ _ -> Hj].
        -- destruct Hc as [[x Hx]|Hc]; [|done]. cbn in Hx. destruct a3 as [j|e]; [|congruence].
           exists j. split; [by apply Hj|]. intros y Hy. congruence.
        -- exists j. split; [cbn; apply lookup_insert_eq|]. intros y Hy. destruct Hj as [-> | ->]; congruence.
    + apply elem_of_app in Hin as [Hin|Hin]; [by apply IH|]. apply list_elem_of_singleton in Hin as ->.
      destruct Hc as [[x Hx]|Hc]; [|done]. done.
  - by apply IH.
Qed.

(** ** Properties *)

(** C23: A call with a retry key that was carried out, answered or not, decides every later call
    under its tool and key, whatever other calls, faults and transactions came between: the same
    input gets the first result and changes nothing, even though the revision it carries is
    stale by then; another input is refused as a conflict; and the boards have only moved by
    committed transactions. *)
Theorem retry_is_decided_by_the_first_call repairs s0 l s c now newID i :
  calls repairs s0 l s -> c ∈ l -> carried_out c ->
  retry_key (k_input c) <> "" -> key_fits (retry_key (k_input c)) = true ->
  tool_name i = tool_name (k_input c) -> retry_key i = retry_key (k_input c) -> revision_ok i = true ->
  rtc (board_step catalog repairs) (rows s0) (rows s) /\
  (requestHash i = requestHash (k_input c) ->
     exists j, serve key_fits None now newID (k_project c) i s = (s, Ok j) /\ forall a, k_answer c = Ok a -> a = j) /\
  (requestHash i <> requestHash (k_input c) ->
     serve key_fits None now newID (k_project c) i s = (s, Err (StoreError ErrIdempotencyConflict))).
Proof.
  intros Hcalls Hin Hc Hk Hf Hn Hi Hrev. split; [by eapply calls_steps|].
  destruct (carried_out_is_recorded _ _ _ _ _ Hcalls Hin Hc Hk) as (j & Hj & Hja).
  assert (Hserve : serve key_fits None now newID (k_project c) i s =
    handled (s, replay {| rc_request_hash := requestHash (k_input c); rc_result := Some j |} (requestHash i))).
  { rewrite serve_recorded, Hrev. cbv zeta. unfold recorded. cbn [q_key q_hash q_mutate]. rewrite Hn, Hi.
    f_equal. exact (run_replays key_fits (call_key c) _ _ s _ Hj Hk Hf). }
  split; intros Hh; rewrite Hserve; unfold replay, handled; cbn.
  - rewrite Hh, String.eqb_refl. cbn. eauto.
  - by rewrite (proj2 (String.eqb_neq _ _) (not_eq_sym Hh)).
Qed.
End Handlers.

(** ** Witnesses *)

(** A fingerprint that keeps the fields of a rename apart. *)
Definition w_hashes : RequestHash := {|
  requestHash i :=
    match i with
    | update_dashboard i => String.concat "|" [ud_DashboardID i; default "-" (ud_Name i); ud_IdempotencyKey i]
    | _ => tool_name i
    end |}.

Definition w_key_fits (k : string) : bool := Z.of_nat (String.length k) <=? 128.

Definition w_serve := @serve w_uuids w_instants w_hashes MetricCatalogEntry w_key_fits.

Definition w_rename (key : string) : tool_input :=
  update_dashboard {| ud_DashboardID := "b"; ud_Name := Some "Sales"; ud_Description := None; ud_Revision := 4;
    ud_IdempotencyKey := key |}.

Definition w_store : claimed boards board_answer := {| rows := w_boards; idempotency_keys := ∅ |}.

(** The rename is committed and its answer is lost. *)
Definition w_lost : claimed boards board_answer := (w_serve (Some (CommitFails true)) 5 "new" "p" (w_rename "k") w_store).1.

Definition w_call : call :=
  {| k_project := "p"; k_input := w_rename "k"; k_answer := Err (StoreError CallFailed); k_before := w_store;
     k_after := w_lost |}.

(** Then another revision of the board is written, without a key. *)
Definition w_moved_on : claimed boards board_answer :=
  with_rows (w_run 6 (ArchiveDashboardOp "b" 5) (rows w_lost)) w_lost.

Lemma w_calls : @calls w_uuids w_instants w_hashes MetricCatalogEntry w_key_fits false w_store [w_call] w_moved_on.
Proof.
  apply calls_other.
  - exact (calls_call MetricCatalogEntry w_key_fits false w_store [] w_store (Some (CommitFails true)) 5 "new" "p"
      (w_rename "k") w_lost _ (calls_nil _ _ _ _) w_new_id eq_refl).
  - eapply (step_request _ _ 6 "p" "new" (ArchiveDashboardOp "b" 5)); [|reflexivity].
    exact (bool_decide_eq_true_1 ("new" ∉ issued (rows w_lost)) eq_refl).
Qed.

Lemma w_carried_out : carried_out w_call.
Proof.
  right. intros H. apply (f_equal (fun m : gmap claim_key _ => is_some (m !! call_key w_call))) in H.
  vm_compute in H. discriminate H.
Qed.

(** The retry is answered although the board has been archived since. *)
Lemma retry_is_decided_by_the_first_call_witness :
  exists j, w_serve None 9 "new" "p" (w_rename "k") w_moved_on = (w_moved_on, Ok j).
Proof.
  assert (Hk : retry_key (k_input w_call) <> "") by (vm_compute; discriminate).
  pose proof (@retry_is_decided_by_the_first_call w_uuids w_instants w_hashes MetricCatalogEntry w_key_fits false
    w_store [w_call] w_moved_on w_call 9 "new" (w_rename "k") w_calls (list_elem_of_here _ _) w_carried_out Hk
    eq_refl eq_refl eq_refl eq_refl) as H.
  destruct (proj1 (proj2 H) eq_refl) as (j & Hj & _). exists j. exact Hj.
Defined.

(** The key is trimmed and the fingerprint is not: the same rename under a padded key is another
    request. *)
Example padded_key_conflicts :
  (w_serve None 9 "new" "p" (w_rename "k ") w_moved_on).2 = Err (StoreError ErrIdempotencyConflict).
Proof. reflexivity. Qed.

(** Without a key the retry is a second write, and loses to the fence. *)
Example unkeyed_retry_is_fenced :
  (w_serve None 9 "new" "p" (w_rename "") w_moved_on).2 = Err (StoreError (MutationError ErrRevisionConflict)).
Proof. reflexivity. Qed.

Definition w_request : request boards board_answer board_error :=
  @recorded w_uuids w_instants w_hashes MetricCatalogEntry 5 "new" "p" (w_rename "k").

Definition w_observation : observation boards board_answer board_error :=
  {| o_request := w_request; o_before := w_store; o_answer := Err CallFailed; o_after := w_lost |}.

Lemma w_claim_history : history w_key_fits w_store [w_observation] w_lost.
Proof.
  exact (history_call w_key_fits w_store [] w_store w_request (Some (CommitFails true)) w_lost _ (history_nil _ _) eq_refl).
Qed.

Lemma w_twice : history w_key_fits w_store
  ([w_observation] ++ [{| o_request := w_request; o_before := w_lost;
     o_answer := (runIdempotent w_key_fits None (q_key w_request) (q_hash w_request) (q_mutate w_request) w_lost).2;
     o_after := w_lost |}]) w_lost.
Proof. exact (history_call w_key_fits w_store _ w_lost w_request None w_lost _ w_claim_history eq_refl). Qed.

Definition w_second : observation boards board_answer board_error :=
  {| o_request := w_request; o_before := w_lost;
     o_answer := (runIdempotent w_key_fits None (q_key w_request) (q_hash w_request) (q_mutate w_request) w_lost).2;
     o_after := w_lost |}.

(** Two calls under the key, the first one without an answer: one of them takes the claim. *)
Lemma retried_mutation_applies_once_witness : took_claim w_observation /\ ~ took_claim w_second.
Proof.
  assert (H1 : took_claim w_observation) by (split; [reflexivity|vm_compute; eauto]).
  split; [exact H1|]. intros H2.
  assert (Hcomplete : complete w_store) by (intros k r Hr; exact (False_ind _ (lookup_empty_Some (M := gmap claim_key) k r Hr))).
  destruct (retried_mutation_applies_once w_key_fits w_store _ w_lost (q_key w_request) w_twice Hcomplete)
    as (_ & Honce & _); [vm_compute; discriminate|].
  exact (Honce [] w_observation [] _ [] eq_refl eq_refl eq_refl H1 H2).
Defined.

Lemma lost_answer_is_recovered_witness :
  exists j, runIdempotent w_key_fits None (q_key w_request) (q_hash w_request) (q_mutate w_request) w_lost = (w_lost, Ok j).
Proof.
  destruct (lost_answer_is_recovered w_key_fits w_store [] w_observation [] w_lost w_request w_claim_history)
    as (d & j & _ & Hj); [vm_compute; discriminate|split; [reflexivity|vm_compute; eauto]|reflexivity..|].
  exists j. exact Hj.
Defined.
