(* ===== verification/SandboxPool.v ===== *)
(** * SandboxPool: the pool of sandbox children

    The pool of internal/dataplane/store/duckdb_sandbox.go: admission, one spawn per
    project, leases, eviction of the least recently used idle child, the idle janitor
    and the shutdown.  Every atomic action (a section under the pool's mutex, a close, a
    spawn) is one case of [step]; the operating system's answers and the order of the
    actions are its argument.  This file has the state, the eviction loop with the proof
    that it ends, and the actions; [SandboxPoolHistory] has what holds of any order of them. *)

From S2P Require Import Prelude.
Open Scope string_scope.
Open Scope list_scope.
Open Scope Z_scope.

(** ** State *)

Record sandboxLimits := { maxProjects : nat; maxConcurrent : nat; idleTTL : Z }.

Definition defaultSandboxLimits : sandboxLimits := {| maxProjects := 2; maxConcurrent := 2; idleTTL := 300000000000 |}.

(** A child process.  [sb_dropped] says that a caller found it broken and gave it up. *)
Record sqlSandbox := { sb_projectID : string; sb_refs : Z; sb_usedAt : Z; sb_closed : bool; sb_dropped : bool }.

(** Where a caller of query is.  Opening phases carry the caller's ticket in the opening
    table, holding phases the child it leased. *)
Inductive phase :=
| AtPool
| Waiting (ticket : nat)
| Evicting (ticket : nat) (victims : list nat)
| Copying (ticket : nat) (child : nat)
| Opened (ticket : nat) (child : option nat)
| Leased (child : nat)
| Dropping (child : nat)
| Releasing (child : nat)
| Rechecking
| ClosingVictims (victims : list nat).

Record caller := { q_project : string; q_phase : phase }.

(** [lru] is most recently used first.  [tickets] are the sandboxOpen values: pending, or
    ended well or badly. *)
Record pool := {
  lru : list string; sandboxes : gmap string nat; opening : gmap string nat;
  children : gmap nat sqlSandbox; callers : gmap nat caller; tickets : gmap nat (option bool);
  janitor : list nat; shutting : list nat;
}.

Definition empty_pool : pool :=
  {| lru := []; sandboxes := ∅; opening := ∅; children := ∅; callers := ∅; tickets := ∅; janitor := []; shutting := [] |}.

Definition with_table (l : list string) (m : gmap string nat) (p : pool) : pool :=
  {| lru := l; sandboxes := m; opening := opening p; children := children p; callers := callers p;
     tickets := tickets p; janitor := janitor p; shutting := shutting p |}.

Definition with_children (m : gmap nat sqlSandbox) (p : pool) : pool :=
  {| lru := lru p; sandboxes := sandboxes p; opening := opening p; children := m; callers := callers p;
     tickets := tickets p; janitor := janitor p; shutting := shutting p |}.

Definition with_callers (m : gmap nat caller) (p : pool) : pool :=
  {| lru := lru p; sandboxes := sandboxes p; opening := opening p; children := children p; callers := m;
     tickets := tickets p; janitor := janitor p; shutting := shutting p |}.

Definition with_opening (o : gmap string nat) (t : gmap nat (option bool)) (p : pool) : pool :=
  {| lru := lru p; sandboxes := sandboxes p; opening := o; children := children p; callers := callers p;
     tickets := t; janitor := janitor p; shutting := shutting p |}.

Definition with_janitor (l : list nat) (p : pool) : pool :=
  {| lru := lru p; sandboxes := sandboxes p; opening := opening p; children := children p; callers := callers p;
     tickets := tickets p; janitor := l; shutting := shutting p |}.

Definition with_shutting (l : list nat) (p : pool) : pool :=
  {| lru := lru p; sandboxes := sandboxes p; opening := opening p; children := children p; callers := callers p;
     tickets := tickets p; janitor := janitor p; shutting := l |}.

Definition refs_of (ch : gmap nat sqlSandbox) (c : nat) : Z :=
  match ch !! c with Some s => sb_refs s | None => 0 end.

(** ** Eviction *)

Section Evict.
Context (max n_opening : nat) (refs : nat -> Z).

(** An entry whose child nobody uses. *)
Definition idle (m : gmap string nat) (id : string) : bool :=
  match m !! id with Some c => refs c =? 0 | None => false end.

(** The loop over the end of [lru]; a turn drops an entry, rotates one or stops. *)
Fixpoint evict_loop (fuel : nat) (l : list string) (m : gmap string nat) : option (list string * gmap string nat * list nat) :=
  match fuel with
  | O => None
  | S fuel =>
      match rev l with
      | [] => Some (l, m, [])
      | victim :: rinit =>
          if (length l + n_opening <=? max)%nat then Some (l, m, [])
          else
            match m !! victim with
            | None => evict_loop fuel (rev rinit) m
            | Some c =>
                if 0 <? refs c then
                  if (length l =? 1)%nat then Some (l, m, [])
                  else if forallb (fun id => negb (idle m id)) (victim :: rev rinit) then Some (victim :: rev rinit, m, [])
                  else evict_loop fuel (victim :: rev rinit) m
                else
                  match evict_loop fuel (rev rinit) (delete victim m) with
                  | Some (l', m', vs) => Some (l', m', c :: vs)
                  | None => None
                  end
            end
      end
  end.

(** The entries at the end of the list that are not idle: each may be rotated once. *)
Fixpoint lead (f : string -> bool) (l : list string) : nat :=
  match l with x :: l' => if f x then S (lead f l') else O | [] => O end.

Definition turns (m : gmap string nat) (l : list string) : nat :=
  length l * length l + lead (fun id => negb (idle m id)) (rev l).
End Evict.

Definition evictLocked (lim : sandboxLimits) (p : pool) : option (pool * list nat) :=
  let n := length (lru p) in
  match evict_loop (maxProjects lim) (size (opening p)) (refs_of (children p)) (S (n * n + n)) (lru p) (sandboxes p) with
  | Some (l, m, vs) => Some (with_table l m p, vs)
  | None => None
  end.

Definition touchLocked (id : string) (l : list string) : list string :=
  id :: List.filter (fun x => negb (x =? id)%string) l.

Definition drop_entry (id : string) (l : list string) : list string :=
  List.filter (fun x => negb (x =? id)%string) l.

(** ** Actions *)

Definition lease (c : nat) (p : pool) : pool :=
  with_children (alter (fun s => {| sb_projectID := sb_projectID s; sb_refs := sb_refs s + 1; sb_usedAt := sb_usedAt s;
    sb_closed := sb_closed s; sb_dropped := sb_dropped s |}) c (children p)) p.

(** The first half of release: the last use and the reference. *)
Definition unlease (now : Z) (c : nat) (p : pool) : pool :=
  with_children (alter (fun s => {| sb_projectID := sb_projectID s; sb_refs := sb_refs s - 1; sb_usedAt := now;
    sb_closed := sb_closed s; sb_dropped := sb_dropped s |}) c (children p)) p.

Definition close (c : nat) (p : pool) : pool :=
  with_children (alter (fun s => {| sb_projectID := sb_projectID s; sb_refs := sb_refs s; sb_usedAt := sb_usedAt s;
    sb_closed := true; sb_dropped := sb_dropped s |}) c (children p)) p.

Definition mark_dropped (c : nat) (p : pool) : pool :=
  with_children (alter (fun s => {| sb_projectID := sb_projectID s; sb_refs := sb_refs s; sb_usedAt := sb_usedAt s;
    sb_closed := sb_closed s; sb_dropped := true |}) c (children p)) p.

(** The first half of drop: the entry goes only when it is still this child's. *)
Definition drop (id : string) (c : nat) (p : pool) : pool :=
  let p := mark_dropped c p in
  match sandboxes p !! id with
  | Some c' => if (c' =? c)%nat then with_table (drop_entry id (lru p)) (delete id (sandboxes p)) p else p
  | None => p
  end.

Definition at_phase (q : nat) (id : string) (ph : phase) (p : pool) : pool :=
  with_callers (<[q := {| q_project := id; q_phase := ph |}]> (callers p)) p.

(** The caller is answered and its slot of the semaphore is free again. *)
Definition leave (q : nat) (p : pool) : pool := with_callers (delete q (callers p)) p.

Definition fresh_child (id : string) (now : Z) : sqlSandbox :=
  {| sb_projectID := id; sb_refs := 0; sb_usedAt := now; sb_closed := false; sb_dropped := false |}.

(** What happens next, with the answers of the world: a refresh or a query may find the child
    broken, a spawn may fail, a waiter may give up, the janitor's clock ticks. *)
Inductive event :=
| Admit (q : nat) (projectID : string)
| Lookup (q : nat) (ticket : nat)
| GiveUp (q : nat)
| Wake (q : nat)
| CloseVictim (q : nat)
| Spawn (q : nat) (child : nat) (now : Z) (started : bool)
| CopyRows (q : nat) (copied : bool)
| Register (q : nat)
| Answer (q : nat) (broken : bool)
| CloseDropped (q : nat)
| Release (q : nat) (now : Z)
| Recheck (q : nat)
| Reap (now : Z)
| CloseReaped
| CloseAll
| CloseShut.

(** The children the janitor takes: unused for the idle lifetime. *)
Definition stale (lim : sandboxLimits) (now : Z) (p : pool) (id : string) : bool :=
  match sandboxes p !! id with
  | Some c =>
      match children p !! c with
      | Some s => (sb_refs s <=? 0) && (idleTTL lim <=? now - sb_usedAt s)
      | None => false
      end
  | None => false
  end.

Definition reapIdle (lim : sandboxLimits) (now : Z) (p : pool) : pool * list nat :=
  (with_table (List.filter (fun id => negb (stale lim now p id)) (lru p))
     (base.filter (fun kv => stale lim now p kv.1 = false) (sandboxes p)) p,
   map snd (List.filter (fun kv => stale lim now p kv.1) (map_to_list (sandboxes p)))).

(** One turn of the loop of sandboxFor, under the mutex. *)
Definition sandboxFor_turn (lim : sandboxLimits) (q t : nat) (id : string) (p : pool) : option pool :=
  match sandboxes p !! id with
  | Some c => Some (at_phase q id (Leased c) (with_table (touchLocked id (lru p)) (sandboxes p) (lease c p)))
  | None =>
      match opening p !! id with
      | Some t' => Some (at_phase q id (Waiting t') p)
      | None =>
          if is_some (tickets p !! t) then None
          else
            let p := with_opening (<[id := t]> (opening p)) (<[t := None]> (tickets p)) p in
            match evictLocked lim p with
            | Some (p', vs) => Some (at_phase q id (Evicting t vs) p')
            | None => None
            end
      end
  end.

(** The second section of the opener under the mutex: the child is published leased. *)
Definition register (q t : nat) (id : string) (o : option nat) (p : pool) : pool :=
  let p := with_opening (delete id (opening p)) (<[t := Some (is_some o)]> (tickets p)) p in
  match o with
  | Some c => at_phase q id (Leased c) (with_table (id :: lru p) (<[id := c]> (sandboxes p)) (lease c p))
  | None => leave q p
  end.

(** The shutdown empties the table; its children are killed afterwards. *)
Definition closeAll (p : pool) : pool :=
  with_shutting (shutting p ++ map snd (map_to_list (sandboxes p))) (with_table [] ∅ p).

Definition step (lim : sandboxLimits) (e : event) (p : pool) : option pool :=
  match e with
  | Admit q id =>
      if is_some (callers p !! q) || (maxConcurrent lim <=? size (callers p))%nat then None
      else Some (at_phase q id AtPool p)
  | Lookup q t =>
      match callers p !! q with
      | Some {| q_project := id; q_phase := AtPool |} => sandboxFor_turn lim q t id p
      | _ => None
      end
  | GiveUp q =>
      match callers p !! q with
      | Some {| q_project := id; q_phase := Waiting t |} => Some (leave q p)
      | _ => None
      end
  | Wake q =>
      match callers p !! q with
      | Some {| q_project := id; q_phase := Waiting t |} =>
          match tickets p !! t with
          | Some (Some true) => Some (at_phase q id AtPool p)
          | Some (Some false) => Some (leave q p)
          | _ => None
          end
      | _ => None
      end
  | CloseVictim q =>
      match callers p !! q with
      | Some {| q_project := id; q_phase := Evicting t (v :: vs) |} => Some (at_phase q id (Evicting t vs) (close v p))
      | Some {| q_project := id; q_phase := ClosingVictims (v :: vs) |} => Some (at_phase q id (ClosingVictims vs) (close v p))
      | Some {| q_project := id; q_phase := ClosingVictims [] |} => Some (leave q p)
      | _ => None
      end
  | Spawn q c now started =>
      match callers p !! q with
      | Some {| q_project := id; q_phase := Evicting t [] |} =>
          if is_some (children p !! c) then None
          else if started then Some (at_phase q id (Copying t c) (with_children (<[c := fresh_child id now]> (children p)) p))
          else Some (at_phase q id (Opened t None) p)
      | _ => None
      end
  | CopyRows q copied =>
      match callers p !! q with
      | Some {| q_project := id; q_phase := Copying t c |} =>
          if copied then Some (at_phase q id (Opened t (Some c)) p)
          else Some (at_phase q id (Opened t None) (close c p))
      | _ => None
      end
  | Register q =>
      match callers p !! q with
      | Some {| q_project := id; q_phase := Opened t o |} => Some (register q t id o p)
      | _ => None
      end
  | Answer q broken =>
      match callers p !! q with
      | Some {| q_project := id; q_phase := Leased c |} =>
          if broken then Some (at_phase q id (Dropping c) (drop id c p))
          else Some (at_phase q id (Releasing c) p)
      | _ => None
      end
  | CloseDropped q =>
      match callers p !! q with
      | Some {| q_project := id; q_phase := Dropping c |} => Some (at_phase q id (Releasing c) (close c p))
      | _ => None
      end
  | Release q now =>
      match callers p !! q with
      | Some {| q_project := id; q_phase := Releasing c |} =>
          let p := unlease now c p in
          if refs_of (children p) c =? 0 then Some (at_phase q id Rechecking p) else Some (leave q p)
      | _ => None
      end
  | Recheck q =>
      match callers p !! q with
      | Some {| q_project := id; q_phase := Rechecking |} =>
          match evictLocked lim p with
          | Some (p', vs) => Some (at_phase q id (ClosingVictims vs) p')
          | None => None
          end
      | _ => None
      end
  | Reap now =>
      match janitor p with
      | [] => let '(p', vs) := reapIdle lim now p in Some (with_janitor vs p')
      | _ => None
      end
  | CloseReaped =>
      match janitor p with v :: vs => Some (with_janitor vs (close v p)) | [] => None end
  | CloseAll => Some (closeAll p)
  | CloseShut =>
      match shutting p with v :: vs => Some (with_shutting vs (close v p)) | [] => None end
  end.

(** A sequence of actions. *)
Fixpoint run (lim : sandboxLimits) (es : list event) (p : pool) : option pool :=
  match es with
  | [] => Some p
  | e :: es => match step lim e p with Some p' => run lim es p' | None => None end
  end.

(** Live processes, of which the pool counts the registered ones and the openings. *)
Definition alive (p : pool) : nat := size (base.filter (fun kv : nat * sqlSandbox => sb_closed kv.2 = false) (children p)).

Definition counted (p : pool) : nat := (length (lru p) + size (opening p))%nat.

Lemma omap_ext_in {A B} (f g : A -> option B) (l : list A) : (forall x, x ∈ l -> f x = g x) -> omap f l = omap g l.
Proof.
  induction l as [|x l IH]; intros H; [done|]. cbn. rewrite (H x) by by left. rewrite IH; [done|]. intros y Hy. apply H. by right.
Qed.

Lemma elem_of_take_sub {A} (x : A) n l : x ∈ take n l -> x ∈ l.
Proof. intros H. rewrite <- (take_drop n l). apply elem_of_app. by left. Qed.

(** ** The eviction ends *)

Section EvictLemmas.
Context (max n_opening : nat) (refs : nat -> Z).

Lemma lead_le f l : (lead f l <= length l)%nat.
Proof. induction l as [|x l IH]; cbn; [lia|]. destruct (f x); lia. Qed.

Lemma lead_snoc f l x : forallb f l = false -> lead f (l ++ [x]) = lead f l.
Proof. induction l as [|y l IH]; cbn; [done|]. destruct (f y); cbn; [|done]. intros H. by rewrite IH. Qed.

Lemma forallb_rev {A} (f : A -> bool) l : forallb f (rev l) = forallb f l.
Proof.
  induction l as [|x l IH]; cbn; [done|]. rewrite forallb_app, IH. cbn. rewrite andb_true_r. apply andb_comm.
Qed.

(** Every turn lowers [turns]: an entry goes, or one that is in use leaves the end. *)
Lemma turns_drop m m' l victim rinit :
  rev l = victim :: rinit -> (turns refs m' (rev rinit) < turns refs m l)%nat.
Proof.
  intros Hl. unfold turns. rewrite rev_involutive, length_rev.
  assert (Hlen : length l = S (length rinit)) by (rewrite <- length_rev, Hl; done). rewrite Hlen.
  pose proof (lead_le (fun id => negb (idle refs m' id)) rinit). lia.
Qed.

Lemma turns_rotate m l victim rinit :
  rev l = victim :: rinit -> idle refs m victim = false ->
  forallb (fun id => negb (idle refs m id)) (victim :: rev rinit) = false ->
  (turns refs m (victim :: rev rinit) < turns refs m l)%nat.
Proof.
  intros Hl Hv Hall. unfold turns. rewrite Hl. cbn [rev length lead]. rewrite rev_involutive, length_rev, Hv. cbn [negb].
  assert (Hlen : length l = S (length rinit)) by (rewrite <- length_rev, Hl; done).
  cbn [forallb] in Hall. rewrite Hv in Hall. cbn in Hall. rewrite forallb_rev in Hall.
  rewrite lead_snoc by done. lia.
Qed.

Lemma in_use_not_idle m victim c : m !! victim = Some c -> (0 <? refs c) = true -> idle refs m victim = false.
Proof. intros Hm Hc. unfold idle. rewrite Hm. apply Z.eqb_neq. apply Z.ltb_lt in Hc. lia. Qed.

Lemma evict_loop_ends fuel l m :
  (turns refs m l < fuel)%nat -> is_Some (evict_loop max n_opening refs fuel l m).
Proof.
  revert l m. induction fuel as [|fuel IH]; intros l m Hf; [lia|]. cbn.
  destruct (rev l) as [|victim rinit] eqn:Hl; [by eexists|]. destruct (_ <=? _)%nat; [by eexists|].
  destruct (m !! victim) as [c|] eqn:Hm.
  - destruct (0 <? refs c) eqn:Hc.
    + destruct (_ =? 1)%nat; [by eexists|].
      destruct (negb _ && forallb _ _) eqn:Hall; [by eexists|]. apply IH.
      pose proof (turns_rotate m l victim rinit Hl (in_use_not_idle _ _ _ Hm Hc) Hall). lia.
    + destruct (IH (rev rinit) (delete victim m)) as [[[l' m'] vs] ->]; [|by eexists].
      pose proof (turns_drop m (delete victim m) l victim rinit Hl). lia.
  - apply IH. pose proof (turns_drop m m l victim rinit Hl). lia.
Qed.

(** ** What it evicts *)

(** The list and the table agree, and no reference count is negative. *)
Definition registered (m : gmap string nat) (l : list string) : Prop :=
  NoDup l /\ forall id, id ∈ l -> exists c, m !! id = Some c /\ 0 <= refs c.

Lemma idle_delete m id victim : id <> victim -> idle refs (delete victim m) id = idle refs m id.
Proof. intros H. unfold idle. by rewrite lookup_delete_ne by congruence. Qed.

Lemma filter_idle_delete m l victim :
  victim ∉ l -> List.filter (idle refs (delete victim m)) l = List.filter (idle refs m) l.
Proof.
  intros H. apply filter_ext_in. intros id Hid. apply idle_delete. intros ->. apply H. by apply list_elem_of_In.
Qed.

Lemma filter_nothing {A} (f : A -> bool) l : forallb (fun x => negb (f x)) l = true -> List.filter f l = [].
Proof. induction l as [|x l IH]; cbn; [done|]. destruct (f x); cbn; [done|exact IH]. Qed.

Lemma rev_perm_cons (l : list string) victim rinit : rev l = victim :: rinit -> l ≡ₚ victim :: rev rinit.
Proof. intros H. rewrite <- (rev_involutive l), H. cbn. rewrite Permutation_app_comm. done. Qed.

(** What the loop takes: from the oldest on, the idle entries, as many as are over the bound. *)
Definition to_evict (m : gmap string nat) (l : list string) : list string :=
  take (length l + n_opening - max) (List.filter (idle refs m) (rev l)).

Definition evicted (m : gmap string nat) (l : list string) (r : list string * gmap string nat * list nat) : Prop :=
  let '(l', m', vs) := r in
  l ≡ₚ to_evict m l ++ l' /\
  (forall id, m' !! id = if bool_decide (id ∈ to_evict m l) then None else m !! id) /\
  vs = omap (fun id => m !! id) (to_evict m l) /\
  ((length l' + n_opening <= max)%nat \/ forall id c, id ∈ l' -> m !! id = Some c -> 0 < refs c).

Lemma to_evict_sub m l id : id ∈ to_evict m l -> id ∈ l.
Proof.
  unfold to_evict. intros Hid. apply list_elem_of_In, in_rev, (proj1 (filter_In (idle refs m) id (rev l))).
  apply list_elem_of_In. by eapply elem_of_take_sub.
Qed.

Lemma evicted_none m l l' :
  l ≡ₚ l' -> to_evict m l = [] ->
  (length l' + n_opening <= max)%nat \/ (forall id c, id ∈ l' -> m !! id = Some c -> 0 < refs c) ->
  evicted m l (l', m, []).
Proof. intros Hp He Hb. unfold evicted. rewrite He. by split_and!. Qed.

Lemma not_idle_in_use m l :
  registered m l -> forallb (fun id => negb (idle refs m id)) l = true ->
  forall id c, id ∈ l -> m !! id = Some c -> 0 < refs c.
Proof.
  intros [_ Hr] Hall id c Hid Hm. rewrite forallb_forall in Hall. apply list_elem_of_In in Hid as Hin.
  specialize (Hall _ Hin). unfold idle in Hall. rewrite Hm in Hall. apply negb_true_iff, Z.eqb_neq in Hall.
  destruct (Hr _ Hid) as (c' & Hm' & Hge). rewrite Hm in Hm'. injection Hm' as <-. lia.
Qed.

Lemma registered_perm m l l' : l ≡ₚ l' -> registered m l -> registered m l'.
Proof. intros Hp [Hn Hr]. split; [by rewrite <- Hp|]. intros id. rewrite <- Hp. apply Hr. Qed.

Lemma evict_loop_spec fuel l m r :
  registered m l -> evict_loop max n_opening refs fuel l m = Some r -> evicted m l r.
Proof.
  revert l m r. induction fuel as [|fuel IH]; intros l m r Hreg; [done|]. cbn.
  destruct (rev l) as [|victim rinit] eqn:Hl.
  { intros [= <-]. apply (f_equal (@rev string)) in Hl. rewrite rev_involutive in Hl. subst l.
    apply evicted_none; [done|unfold to_evict; by rewrite firstn_nil|]. right. intros id c Hid. by apply not_elem_of_nil in Hid. }
  destruct (Nat.leb_spec (length l + n_opening) max) as [Hle|Hgt].
  { intros [= <-]. apply evicted_none; [done| |by left]. unfold to_evict.
    by replace (length l + n_opening - max)%nat with O by lia. }
  pose proof (rev_perm_cons _ _ _ Hl) as Hperm. pose proof (registered_perm _ _ _ Hperm Hreg) as Hreg'.
  destruct Hreg' as [Hnd Hr]. apply NoDup_cons in Hnd as [Hnot Hnd].
  destruct (Hr victim) as (c & Hm & Hge); [by left|]. rewrite Hm.
  destruct (0 <? refs c) eqn:Hc.
  - pose proof (in_use_not_idle _ _ _ Hm Hc) as Hv.
    assert (Hsame : to_evict m (victim :: rev rinit) = to_evict m l).
    { unfold to_evict. rewrite Hl. cbn [rev List.filter]. rewrite rev_involutive, List.filter_app. cbn [List.filter].
      rewrite Hv, app_nil_r. f_equal. by rewrite Hperm. }
    destruct (length l =? 1)%nat eqn:Hone.
    + intros [= <-]. apply Nat.eqb_eq in Hone. rewrite Hperm in Hone. cbn in Hone. rewrite length_rev in Hone.
      destruct rinit; [|cbn in Hone; lia]. apply evicted_none; [done| |].
      * unfold to_evict. rewrite Hl. cbn. by rewrite Hv, firstn_nil.
      * right. intros id c' Hid Hm'. rewrite Hperm in Hid. cbn in Hid. apply list_elem_of_singleton in Hid as ->.
        rewrite Hm in Hm'. injection Hm' as <-. by apply Z.ltb_lt.
    + destruct (negb _ && forallb _ _) eqn:Hall.
      * intros [= <-]. apply evicted_none; [done| |].
        -- rewrite <- Hsame. unfold to_evict. rewrite filter_nothing; [by rewrite firstn_nil|].
           rewrite forallb_rev. exact Hall.
        -- right. apply not_idle_in_use; [|exact Hall]. by apply (registered_perm _ l).
      * intros He. apply IH in He; [|by apply (registered_perm _ l)]. destruct r as [[l' m'] vs]. unfold evicted in *.
        rewrite Hsame in He. destruct He as [Hp He]. split; [by etrans|exact He].
  - assert (Hidle : idle refs m victim = true).
    { unfold idle. rewrite Hm. apply Z.eqb_eq. apply Z.ltb_ge in Hc. lia. }
    destruct (evict_loop _ _ _ _ _ _) as [[[l' m'] vs]|] eqn:He; [|done]. intros [= <-].
    assert (Hreg2 : registered (delete victim m) (rev rinit)).
    { split; [done|]. intros id Hid. destruct (Hr id) as (c' & Hc' & Hge'); [by right|]. exists c'.
      split; [|done]. rewrite lookup_delete_ne; [done|]. intros <-. done. }
    apply IH in He; [|done].
    assert (Hev : to_evict m l = victim :: to_evict (delete victim m) (rev rinit)).
    { unfold to_evict. rewrite Hl, Hperm. cbn [length List.filter]. rewrite Hidle, rev_involutive.
      rewrite filter_idle_delete by (intros Hi; apply Hnot; rewrite list_elem_of_In, <- in_rev; by apply list_elem_of_In).
      rewrite Hperm in Hgt. cbn [length] in Hgt. rewrite length_rev in *.
      by replace (S (length rinit) + n_opening - max)%nat with (S (length rinit + n_opening - max)) by lia. }
    destruct He as (Hp & Hlook & Hvs & Hb). unfold evicted. rewrite Hev. split_and!.
    + etrans; [exact Hperm|]. by apply perm_skip.
    + intros id. rewrite Hlook. destruct (decide (id = victim)) as [->|Hne].
      * rewrite lookup_delete_eq. rewrite (bool_decide_eq_true_2 (victim ∈ victim :: _)) by by left. by destruct (bool_decide _).
      * rewrite lookup_delete_ne by congruence.
        destruct (decide (id ∈ to_evict (delete victim m) (rev rinit))) as [Hin|Hin].
        -- rewrite !bool_decide_eq_true_2; [done|by right|done].
        -- rewrite !bool_decide_eq_false_2; [done| |done]. intros [?|?]%elem_of_cons; done.
    + cbn. rewrite Hm. f_equal. rewrite Hvs. apply omap_ext_in. intros id Hid. apply lookup_delete_ne.
      intros <-. apply Hnot. by apply to_evict_sub in Hid.
    + destruct Hb as [Hb|Hb]; [by left|right]. intros id c' Hid Hm'. apply (Hb id c' Hid).
      rewrite lookup_delete_ne; [done|]. intros ->. apply Hnot. rewrite Hp. apply elem_of_app. by right.
Qed.
End EvictLemmas.

Lemma evict_pool lim p p' vs :
  evictLocked lim p = Some (p', vs) ->
  p' = with_table (lru p') (sandboxes p') p /\
  (registered (refs_of (children p)) (sandboxes p) (lru p) ->
   evicted (maxProjects lim) (size (opening p)) (refs_of (children p)) (sandboxes p) (lru p) (lru p', sandboxes p', vs)).
Proof.
  unfold evictLocked. cbv zeta. destruct (evict_loop _ _ _ _ _ _) as [[[l m] vs']|] eqn:He; [|done].
  intros [= <- <-]. split; [done|]. intros Hr. by eapply evict_loop_spec.
Qed.

Lemma evict_ends lim p : is_Some (evictLocked lim p).
Proof.
  unfold evictLocked. cbv zeta.
  destruct (evict_loop_ends (maxProjects lim) (size (opening p)) (refs_of (children p))
    (S (length (lru p) * length (lru p) + length (lru p))) (lru p) (sandboxes p)) as [[[l m] vs] ->]; [|by eexists].
  unfold turns. pose proof (lead_le (fun id => negb (idle (refs_of (children p)) (sandboxes p) id)) (rev (lru p))).
  rewrite length_rev in *. lia.
Qed.

(** The eviction loop, which drops entries, rotates the ones in use and stops when nothing
    is idle, ends on every pool; it writes nothing but the table, and where the table is
    consistent it takes exactly the least recently used idle entries, as many as are over the
    bound, so that afterwards the pool is within the bound or every entry is in use. *)
Theorem evictLocked_terminates lim p :
  exists p' vs, evictLocked lim p = Some (p', vs) /\ p' = with_table (lru p') (sandboxes p') p /\
    (registered (refs_of (children p)) (sandboxes p) (lru p) ->
     let gone := to_evict (maxProjects lim) (size (opening p)) (refs_of (children p)) (sandboxes p) (lru p) in
     lru p ≡ₚ gone ++ lru p' /\ vs = omap (fun id => sandboxes p !! id) gone /\
     (forall id, sandboxes p' !! id = if bool_decide (id ∈ gone) then None else sandboxes p !! id) /\
     ((counted p' <= maxProjects lim)%nat \/
      forall id c, id ∈ lru p' -> sandboxes p !! id = Some c -> 0 < refs_of (children p) c)).
Proof.
  destruct (evict_ends lim p) as [[p' vs] He]. exists p', vs. destruct (evict_pool _ _ _ _ He) as [Hp Hev].
  split_and!; [done|done|]. intros Hr. destruct (Hev Hr) as (H1 & H2 & H3 & H4). rewrite Hp. cbn. by split_and!.
Qed.

(** ** Witness *)

Definition w_child (id : string) (refs : Z) : sqlSandbox :=
  {| sb_projectID := id; sb_refs := refs; sb_usedAt := 0; sb_closed := false; sb_dropped := false |}.

(** Three children over a bound of two; the oldest is in use. *)
Definition w_pool : pool :=
  {| lru := ["a"; "b"; "c"]; sandboxes := {["a" := 1%nat; "b" := 2%nat; "c" := 3%nat]}; opening := ∅;
     children := {[1%nat := w_child "a" 0; 2%nat := w_child "b" 0; 3%nat := w_child "c" 1]};
     callers := ∅; tickets := ∅; janitor := []; shutting := [] |}.

Lemma evictLocked_terminates_witness :
  match evictLocked defaultSandboxLimits w_pool with
  | Some (p', vs) => lru p' = ["c"; "a"] /\ vs = [2%nat] /\ lru w_pool ≡ₚ ["b"] ++ lru p'
  | None => False
  end.
Proof.
  destruct (evictLocked_terminates defaultSandboxLimits w_pool) as (p' & vs & He & _ & Hspec).
  assert (Hr : registered (refs_of (children w_pool)) (sandboxes w_pool) (lru w_pool)).
  { split; [exact (bool_decide_eq_true_1 (NoDup (lru w_pool)) eq_refl)|]. intros id Hid.
    repeat (apply elem_of_cons in Hid as [->|Hid]; [eexists; split; [reflexivity|vm_compute; discriminate]|]).
    by apply not_elem_of_nil in Hid. }
  destruct (Hspec Hr) as (Hp & Hvs & _). rewrite He. revert He. vm_compute in Hp. vm_compute in Hvs. subst vs.
  intros He. assert (Hl : lru p' = ["c"; "a"]) by (vm_compute in He; by injection He as <-).
  rewrite Hl. split_and!; [done|done|]. exact (bool_decide_eq_true_1 (lru w_pool ≡ₚ ["b"; "c"; "a"]) eq_refl).
Defined.
