(* ===== verification/SandboxPoolHistory.v ===== *)
(** * SandboxPoolHistory: what holds of the sandbox pool under any order of actions

    The invariant of [SandboxPool.step] over every interleaving of callers, openers,
    evictions and the janitor, before the shutdown: who owns a child, that leases keep
    children open, the bound on what the pool counts, and that nobody waits for nothing. *)

From S2P Require Import Prelude SandboxPool.
Open Scope string_scope.
Open Scope list_scope.
Open Scope Z_scope.

(** ** What a phase holds *)

Definition held (ph : phase) : option nat :=
  match ph with Leased c | Dropping c | Releasing c => Some c | _ => None end.

Definition opens (ph : phase) : option nat :=
  match ph with Evicting t _ | Copying t _ | Opened t _ => Some t | _ => None end.

Definition owned (ph : phase) : list nat :=
  match ph with
  | Evicting _ vs | ClosingVictims vs => vs
  | Copying _ c => [c]
  | Opened _ (Some c) => [c]
  | _ => []
  end.

Definition drops (ph : phase) : option nat := match ph with Dropping c => Some c | _ => None end.

Definition brings (ph : phase) : option nat :=
  match ph with Copying _ c => Some c | Opened _ o => o | _ => None end.

Definition waits (ph : phase) : option nat := match ph with Waiting t => Some t | _ => None end.

Definition rechecks (ph : phase) : bool := match ph with Rechecking => true | _ => false end.

Definition holds (c : nat) (x : caller) : bool := bool_decide (held (q_phase x) = Some c).

(** ** Counting callers *)


Definition b2n (b : bool) : nat := if b then 1%nat else O.

Definition count (f : caller -> bool) (m : gmap nat caller) : nat :=
  length (List.filter (fun kv => f kv.2) (map_to_list m)).

Definition all_owned (m : gmap nat caller) : list nat := concat (map (fun kv => owned (q_phase kv.2)) (map_to_list m)).

#[export] Instance filter_perm {A} (f : A -> bool) : Proper ((≡ₚ) ==> (≡ₚ)) (List.filter f).
Proof.
  intros l l' H. induction H as [|x l l' _ IH|x y l|l1 l2 l3 _ IH1 _ IH2]; cbn; [done| | |by etrans].
  - destruct (f x); [by apply perm_skip|done].
  - destruct (f x), (f y); try done. apply perm_swap.
Qed.

Lemma holds_b2n c x :
  b2n (holds c x) = match held (q_phase x) with Some c' => if decide (c' = c) then 1%nat else O | None => O end.
Proof.
  unfold holds. destruct (held (q_phase x)) as [c'|].
  - destruct (decide (c' = c)) as [->|Hne]; [by rewrite bool_decide_eq_true_2|by rewrite bool_decide_eq_false_2 by congruence].
  - by rewrite bool_decide_eq_false_2.
Qed.

Lemma count_split f m q x : m !! q = Some x -> count f m = (b2n (f x) + count f (delete q m))%nat.
Proof.
  intros H. unfold count. rewrite <- (map_to_list_delete m q x H). cbn. by destruct (f x).
Qed.

Lemma count_insert f m q x : count f (<[q:=x]> m) = (b2n (f x) + count f (delete q m))%nat.
Proof.
  rewrite (count_split f _ q x) by apply lookup_insert_eq. by rewrite delete_insert_eq.
Qed.

Lemma count_free f m q : m !! q = None -> count f m = count f (delete q m).
Proof. intros H. by rewrite delete_id. Qed.

Lemma concat_perm {A} (l l' : list (list A)) : l ≡ₚ l' -> concat l ≡ₚ concat l'.
Proof.
  induction 1; cbn; [done|by apply Permutation_app_head| |by etrans].
  rewrite !app_assoc. apply Permutation_app_tail, Permutation_app_comm.
Qed.

Lemma owned_split m q x : m !! q = Some x -> all_owned m ≡ₚ owned (q_phase x) ++ all_owned (delete q m).
Proof.
  intros H. unfold all_owned. etrans; [apply concat_perm, Permutation_map; symmetry; exact (map_to_list_delete m q x H)|]. done.
Qed.

Lemma owned_insert m q x : all_owned (<[q:=x]> m) ≡ₚ owned (q_phase x) ++ all_owned (delete q m).
Proof. rewrite (owned_split _ q x) by apply lookup_insert_eq. by rewrite delete_insert_eq. Qed.

Lemma count_le_size f m : (count f m <= size m)%nat.
Proof. unfold count. rewrite <- length_map_to_list. apply List.filter_length_le. Qed.

Lemma count_mono f g m : (forall x, f x = true -> g x = true) -> (count f m <= count g m)%nat.
Proof.
  intros H. unfold count. induction (map_to_list m) as [|[q x] l IH]; cbn; [done|].
  destruct (f x) eqn:Ef; [rewrite (H x Ef); cbn; lia|]. destruct (g x); cbn; lia.
Qed.

(** Disjoint kinds of callers add up. *)
Lemma count_disjoint f g h m :
  (forall x, f x = true -> g x = false) -> (forall x, f x = true -> h x = false) -> (forall x, g x = true -> h x = false) ->
  (count f m + count g m + count h m <= size m)%nat.
Proof.
  intros H1 H2 H3. unfold count. rewrite <- length_map_to_list.
  induction (map_to_list m) as [|[q x] l IH]; cbn; [lia|].
  destruct (f x) eqn:Ef, (g x) eqn:Eg, (h x) eqn:Eh; cbn; try lia;
    exfalso; first [specialize (H1 x Ef); congruence|specialize (H2 x Ef); congruence|specialize (H3 x Eg); congruence].
Qed.

(** Callers that hold one of a list of different children. *)
Definition is_holder (x : caller) : bool := is_some (held (q_phase x)).

Lemma holders_distinct (cs : list nat) m :
  NoDup cs -> (forall c, c ∈ cs -> (0 < count (holds c) m)%nat) -> (length cs <= count is_holder m)%nat.
Proof.
  intros Hnd Hpos.
  assert (Hsum : (length cs <= count (fun x => match held (q_phase x) with Some c => bool_decide (c ∈ cs) | None => false end) m)%nat).
  { induction cs as [|c cs IH]; [cbn; lia|]. apply NoDup_cons in Hnd as [Hc Hnd].
    specialize (IH Hnd (fun c' H => Hpos c' (list_elem_of_further _ _ _ H))).
    specialize (Hpos c (list_elem_of_here _ _)). revert IH Hpos. unfold count, holds. cbn [length].
    assert (Hadd : forall l : list (nat * caller),
      length (List.filter (fun kv => match held (q_phase kv.2) with Some x => bool_decide (x ∈ c :: cs) | None => false end) l) =
      (length (List.filter (fun kv => bool_decide (held (q_phase kv.2) = Some c)) l) +
       length (List.filter (fun kv => match held (q_phase kv.2) with Some x => bool_decide (x ∈ cs) | None => false end) l))%nat).
    { induction l as [|[q x] l IHl]; [done|]. cbn. destruct (held (q_phase x)) as [y|]; [|by rewrite bool_decide_eq_false_2].
      destruct (decide (y = c)) as [->|Hy].
      - rewrite bool_decide_eq_true_2 by by left. rewrite bool_decide_eq_true_2 by done.
        rewrite bool_decide_eq_false_2 by done. cbn. lia.
      - rewrite (bool_decide_eq_false_2 (Some y = Some c)) by congruence.
        rewrite (bool_decide_ext (y ∈ c :: cs) (y ∈ cs)) by (rewrite elem_of_cons; tauto).
        destruct (bool_decide (y ∈ cs)); cbn; lia. }
    rewrite Hadd. lia. }
  etrans; [exact Hsum|]. apply count_mono. intros x. unfold is_holder. by destruct (held (q_phase x)).
Qed.

Lemma count_put f m q x : f x = false -> (forall y, m !! q = Some y -> f y = false) -> count f (<[q:=x]> m) = count f m.
Proof.
  intros Hx Hy. rewrite count_insert, Hx. cbn. destruct (m !! q) as [y|] eqn:E.
  - rewrite (count_split f m q y E), (Hy y eq_refl). done.
  - by rewrite delete_id.
Qed.

Lemma count_del f m q x : m !! q = Some x -> f x = false -> count f (delete q m) = count f m.
Proof. intros E Hx. by rewrite (count_split f m q x E), Hx. Qed.

Lemma owned_put m q x :
  owned (q_phase x) = [] -> (forall y, m !! q = Some y -> owned (q_phase y) = []) -> all_owned (<[q:=x]> m) ≡ₚ all_owned m.
Proof.
  intros Hx Hy. rewrite owned_insert, Hx. cbn. destruct (m !! q) as [y|] eqn:E.
  - by rewrite (owned_split m q y E), (Hy y eq_refl).
  - by rewrite delete_id.
Qed.

(** ** The invariant *)

Definition is_opener (x : caller) : bool := is_some (opens (q_phase x)).
Definition is_rechecker (x : caller) : bool := rechecks (q_phase x).

(** Whose a child is: the table's, a caller's that opens it or closes it, or the janitor's. *)
Definition owners (p : pool) : list nat := map snd (map_to_list (sandboxes p)) ++ all_owned (callers p) ++ janitor p.

Definition live (p : pool) (c : nat) : Prop :=
  exists s, children p !! c = Some s /\ sb_closed s = false /\ sb_dropped s = false.

Record caller_ok (p : pool) (x : caller) : Prop := {
  co_held c : held (q_phase x) = Some c ->
    exists s, children p !! c = Some s /\ sb_projectID s = q_project x /\
      (sb_dropped s = true \/ sandboxes p !! q_project x = Some c);
  co_drops c : drops (q_phase x) = Some c -> exists s, children p !! c = Some s /\ sb_dropped s = true;
  co_opens t : opens (q_phase x) = Some t -> opening p !! q_project x = Some t /\ tickets p !! t = Some None;
  co_brings c : brings (q_phase x) = Some c -> exists s, children p !! c = Some s /\ sb_projectID s = q_project x;
  co_waits t : waits (q_phase x) = Some t -> is_Some (tickets p !! t);
}.

(** [extra] are children that were taken from the table and are not yet a caller's. *)
Record pool_ok (lim : sandboxLimits) (extra : list nat) (p : pool) : Prop := {
  ok_shut : shutting p = [];
  ok_slots : (size (callers p) <= maxConcurrent lim)%nat;
  ok_nodup : NoDup (lru p);
  ok_table id : id ∈ lru p <-> is_Some (sandboxes p !! id);
  ok_project id c : sandboxes p !! id = Some c -> exists s, children p !! c = Some s /\ sb_projectID s = id;
  ok_refs c s : children p !! c = Some s -> sb_refs s = Z.of_nat (count (holds c) (callers p));
  ok_callers q x : callers p !! q = Some x -> caller_ok p x;
  ok_dropped c s : children p !! c = Some s -> sb_dropped s = true -> sb_closed s = false ->
    exists q x, callers p !! q = Some x /\ drops (q_phase x) = Some c;
  ok_owners : NoDup (owners p ++ extra);
  ok_live c : c ∈ owners p ++ extra <-> live p c;
  ok_one q1 x1 q2 x2 t : callers p !! q1 = Some x1 -> callers p !! q2 = Some x2 ->
    opens (q_phase x1) = Some t -> opens (q_phase x2) = Some t -> q1 = q2;
  ok_opening id t : opening p !! id = Some t -> sandboxes p !! id = None /\
    exists q x, callers p !! q = Some x /\ opens (q_phase x) = Some t /\ q_project x = id;
  ok_size : size (opening p) = count is_opener (callers p);
  ok_ticket t : tickets p !! t = Some None -> exists id, opening p !! id = Some t;
}.

(** The number of idle entries over the bound is covered by callers that will check it. *)
Definition bound_ok (lim : sandboxLimits) (p : pool) : Prop :=
  (counted p <= maxProjects lim)%nat \/
  (length (List.filter (idle (refs_of (children p)) (sandboxes p)) (lru p)) <= count is_rechecker (callers p))%nat.

Definition quiet (ph : phase) : Prop := held ph = None /\ opens ph = None /\ owned ph = [] /\ rechecks ph = false.

Lemma quiet_drops ph : quiet ph -> drops ph = None.
Proof. intros (H & _). by destruct ph. Qed.

Lemma quiet_brings ph : quiet ph -> brings ph = None.
Proof. intros (_ & H & _). by destruct ph. Qed.

Section Steps.
Context (lim : sandboxLimits).

(** A caller that holds nothing moves to where it holds nothing. *)
Lemma quiet_put p q id ph :
  pool_ok lim [] p -> (callers p !! q = None -> (size (callers p) < maxConcurrent lim)%nat) ->
  (forall x, callers p !! q = Some x -> quiet (q_phase x)) -> quiet ph ->
  (forall t, waits ph = Some t -> is_Some (tickets p !! t)) ->
  pool_ok lim [] (at_phase q id ph p) /\ (bound_ok lim p -> bound_ok lim (at_phase q id ph p)).
Proof.
  intros [] Hnew Hold Hq Hw. pose proof Hq as (Hh & Ho & How & Hr). pose proof (quiet_drops _ Hq) as Hd. pose proof (quiet_brings _ Hq) as Hnb.
  assert (Hcount : forall f : caller -> bool, f {| q_project := id; q_phase := ph |} = false ->
    (forall y, quiet (q_phase y) -> f y = false) -> count f (<[q := {| q_project := id; q_phase := ph |}]> (callers p)) = count f (callers p)).
  { intros f H1 H2. apply count_put; [done|]. intros y Hy. by apply H2, (Hold y). }
  split; [constructor|]; cbn; try done.
  - destruct (callers p !! q) as [y|] eqn:E.
    + rewrite map_size_insert_Some by (by eexists). done.
    + rewrite map_size_insert_None by done. specialize (Hnew eq_refl). lia.
  - intros c s Hs. rewrite Hcount; [by eauto| |].
    + unfold holds. cbn. by rewrite Hh.
    + intros y (Hy & _). unfold holds. by rewrite Hy.
  - intros q' x [[<- <-]|[_ Hx]]%lookup_insert_Some; [|by destruct (ok_callers0 _ _ Hx)].
    constructor; cbn; intros; congruence || eauto.
  - intros c s Hs Hds Hcl. destruct (ok_dropped0 c s Hs Hds Hcl) as (q' & x & Hx & Hdx). exists q', x. split; [|done].
    rewrite lookup_insert_ne; [done|]. intros <-. specialize (Hold _ Hx). by rewrite (quiet_drops _ Hold) in Hdx.
  - unfold owners. cbn. rewrite owned_put; [done|done|]. intros y Hy. by apply (Hold y).
  - intros c. etransitivity; [|exact (ok_live0 c)]. unfold owners. cbn. rewrite owned_put; [done|done|]. intros y Hy. by apply (Hold y).
  - intros q1 x1 q2 x2 t [[<- <-]|[_ H1]]%lookup_insert_Some [[<- <-]|[_ H2]]%lookup_insert_Some; cbn; try congruence. by eapply ok_one0.
  - intros id' t Ht. destruct (ok_opening0 id' t Ht) as (? & q' & x & Hx & Hox & Hp). split; [done|]. exists q', x. split; [|done].
    rewrite lookup_insert_ne; [done|]. intros <-. specialize (Hold _ Hx). destruct Hold as (_ & Hold & _). congruence.
  - rewrite ok_size0. symmetry. apply Hcount; unfold is_opener; cbn; [by rewrite Ho|]. intros y (_ & Hy & _). by rewrite Hy.
  - unfold bound_ok. cbn. intros [?|Hi]; [by left|right]. rewrite Hcount; [done|done|]. by intros y (_ & _ & _ & Hy).
Qed.

Lemma quiet_leave p q x :
  pool_ok lim [] p -> callers p !! q = Some x -> quiet (q_phase x) ->
  pool_ok lim [] (leave q p) /\ (bound_ok lim p -> bound_ok lim (leave q p)).
Proof.
  intros [] Hx Hq. pose proof Hq as (Hh & Ho & How & Hr). pose proof (quiet_drops _ Hq) as Hd. pose proof (quiet_brings _ Hq) as Hnb.
  assert (Hcount : forall f : caller -> bool, f x = false -> count f (delete q (callers p)) = count f (callers p)) by (intros; by eapply count_del).
  split; [constructor|]; cbn; try done.
  - rewrite map_size_delete_Some by (by eexists). lia.
  - intros c s Hs. rewrite Hcount; [by eauto|]. unfold holds. by rewrite Hh.
  - intros q' y [_ Hy]%lookup_delete_Some. by destruct (ok_callers0 _ _ Hy).
  - intros c s Hs Hds Hcl. destruct (ok_dropped0 c s Hs Hds Hcl) as (q' & y & Hy & Hdy). exists q', y. split; [|done].
    rewrite lookup_delete_ne; [done|]. intros <-. congruence.
  - unfold owners in *. cbn. rewrite (owned_split _ q x Hx), How in ok_owners0. done.
  - intros c. etransitivity; [|exact (ok_live0 c)]. unfold owners. cbn. by rewrite (owned_split _ q x Hx), How.
  - intros q1 x1 q2 x2 t [_ H1]%lookup_delete_Some [_ H2]%lookup_delete_Some. by eapply ok_one0.
  - intros id' t Ht. destruct (ok_opening0 id' t Ht) as (? & q' & y & Hy & Hoy & Hp). split; [done|]. exists q', y. split; [|done].
    rewrite lookup_delete_ne; [done|]. intros <-. congruence.
  - rewrite ok_size0. symmetry. apply Hcount. unfold is_opener. by rewrite Ho.
  - unfold bound_ok. cbn. intros [?|Hb]; [by left|right]. by rewrite Hcount.
Qed.

Definition strong_bound (p : pool) : Prop :=
  (counted p <= maxProjects lim)%nat \/ List.filter (idle (refs_of (children p)) (sandboxes p)) (lru p) = [].

Lemma strong_weak p : strong_bound p -> bound_ok lim p.
Proof. intros [?|H]; [by left|right]. rewrite H. cbn. lia. Qed.

Lemma count_same f m q x y : m !! q = Some x -> f y = f x -> count f (<[q:=y]> m) = count f m.
Proof. intros E H. by rewrite count_insert, (count_split f m q x E), H. Qed.

Lemma owners_put p q x ph id :
  callers p !! q = Some x ->
  exists rest, owners p ≡ₚ owned (q_phase x) ++ rest /\ owners (at_phase q id ph p) ≡ₚ owned ph ++ rest.
Proof.
  intros E. exists (map snd (map_to_list (sandboxes p)) ++ all_owned (delete q (callers p)) ++ janitor p).
  unfold owners. cbn. rewrite (owned_split _ _ _ E), owned_insert. cbn. split; solve_Permutation.
Qed.

(** A caller goes on with what it held; children it owned and children in transit change hands. *)
Lemma phase_put p q x ph extra extra' :
  pool_ok lim extra p -> callers p !! q = Some x ->
  held ph = held (q_phase x) -> opens ph = opens (q_phase x) -> drops ph = drops (q_phase x) -> waits ph = None ->
  (forall c, brings ph = Some c -> exists s, children p !! c = Some s /\ sb_projectID s = q_project x) ->
  owned (q_phase x) ++ extra ≡ₚ owned ph ++ extra' ->
  pool_ok lim extra' (at_phase q (q_project x) ph p).
Proof.
  intros [] E Hh Ho Hd Hw Hbr How.
  assert (Hown : owners (at_phase q (q_project x) ph p) ++ extra' ≡ₚ owners p ++ extra).
  { destruct (owners_put p q x ph (q_project x) E) as (rest & H1 & H2). rewrite H1, H2.
    transitivity ((owned ph ++ extra') ++ rest); [solve_Permutation|]. rewrite <- How. solve_Permutation. }
  assert (Hcount : forall f : caller -> bool, f {| q_project := q_project x; q_phase := ph |} = f x ->
    count f (<[q := {| q_project := q_project x; q_phase := ph |}]> (callers p)) = count f (callers p)).
  { intros f Hf. by apply (count_same f _ q x). }
  constructor; cbn; try done.
  - rewrite map_size_insert_Some by (by eexists). done.
  - intros c s Hs. rewrite Hcount; [by eauto|]. unfold holds. cbn. by rewrite Hh.
  - intros q' y [[<- <-]|[_ Hy]]%lookup_insert_Some; [|by destruct (ok_callers0 _ _ Hy)].
    destruct (ok_callers0 _ _ E). constructor; cbn; [rewrite Hh|rewrite Hd|rewrite Ho| |rewrite Hw]; done.
  - intros c s Hs Hds Hcl. destruct (ok_dropped0 c s Hs Hds Hcl) as (q' & y & Hy & Hdy).
    destruct (decide (q' = q)) as [->|Hne].
    + exists q, {| q_project := q_project x; q_phase := ph |}. rewrite lookup_insert_eq. split; [done|]. cbn. congruence.
    + exists q', y. by rewrite lookup_insert_ne by congruence.
  - by rewrite Hown.
  - intros c. etransitivity; [|exact (ok_live0 c)]. by rewrite Hown.
  - intros q1 x1 q2 x2 t [[<- <-]|[H1 H1']]%lookup_insert_Some [[<- <-]|[H2 H2']]%lookup_insert_Some; cbn; rewrite ?Ho; try done.
    + intros Ha Hb. by apply (ok_one0 q x q2 x2 t).
    + intros Ha Hb. by apply (ok_one0 q1 x1 q x t).
    + by apply ok_one0.
  - intros id t Ht. destruct (ok_opening0 id t Ht) as (? & q' & y & Hy & Hoy & Hp). split; [done|].
    destruct (decide (q' = q)) as [->|Hne].
    + exists q, {| q_project := q_project x; q_phase := ph |}. rewrite lookup_insert_eq. cbn. split_and!; congruence.
    + exists q', y. by rewrite lookup_insert_ne by congruence.
  - rewrite ok_size0. symmetry. apply Hcount. unfold is_opener. cbn. by rewrite Ho.
Qed.

Lemma bound_put p q x ph :
  callers p !! q = Some x -> rechecks ph = rechecks (q_phase x) -> bound_ok lim p -> bound_ok lim (at_phase q (q_project x) ph p).
Proof.
  intros E Hr [?|Hb]; [by left|right]. cbn. rewrite (count_same _ _ q x); [done|done|]. done.
Qed.

(** A child in transit is killed. *)
Lemma close_ok p c extra :
  pool_ok lim (c :: extra) p -> pool_ok lim extra (close c p) /\ (bound_ok lim p -> bound_ok lim (close c p)).
Proof.
  intros []. assert (Hlive : live p c) by (apply ok_live0, elem_of_app; right; by left). destruct Hlive as (s & Hs & Hcl & Hds).
  assert (Hnot : c ∉ owners p ++ extra).
  { rewrite <- Permutation_middle in ok_owners0. by apply NoDup_cons in ok_owners0 as [? _]. }
  assert (Hkeep : forall c' s', children p !! c' = Some s' -> exists s'', children (close c p) !! c' = Some s'' /\
    sb_projectID s'' = sb_projectID s' /\ sb_refs s'' = sb_refs s' /\ sb_dropped s'' = sb_dropped s').
  { intros c' s' Hs'. cbn. destruct (decide (c' = c)) as [->|Hne].
    - rewrite lookup_alter_eq, Hs'. by eexists.
    - rewrite lookup_alter_ne by congruence. by exists s'. }
  assert (Hback : forall c' s', children (close c p) !! c' = Some s' -> exists s'', children p !! c' = Some s'' /\
    sb_refs s'' = sb_refs s' /\ sb_dropped s'' = sb_dropped s' /\ (sb_closed s' = false -> c' <> c /\ sb_closed s'' = false)).
  { intros c' s'. cbn. destruct (decide (c' = c)) as [->|Hne].
    - rewrite lookup_alter_eq, Hs. intros [= <-]. by exists s.
    - rewrite lookup_alter_ne by congruence. intros Hs'. by exists s'. }
  split; [constructor|]; cbn [shutting callers lru sandboxes opening tickets close with_children]; try done.
  - intros id c' Hid. destruct (ok_project0 id c' Hid) as (s' & Hs' & Hp). destruct (Hkeep c' s' Hs') as (s'' & H1 & H2 & _). exists s''. split; [exact H1|congruence].
  - intros c' s' Hs'. destruct (Hback c' s' Hs') as (s'' & H1 & <- & _). by apply ok_refs0.
  - intros q x Hx. destruct (ok_callers0 q x Hx). constructor; try done.
    + intros c' Hc'. destruct (co_held0 c' Hc') as (s' & Hs' & Hp & Hr). destruct (Hkeep c' s' Hs') as (s'' & H1 & H2 & _ & H3).
      exists s''. split_and!; [exact H1|congruence|]. destruct Hr; [left; congruence|by right].
    + intros c' Hc'. destruct (co_drops0 c' Hc') as (s' & Hs' & Hp). destruct (Hkeep c' s' Hs') as (s'' & H1 & _ & _ & H3).
      exists s''. split; [exact H1|congruence].
    + intros c' Hc'. destruct (co_brings0 c' Hc') as (s' & Hs' & Hp). destruct (Hkeep c' s' Hs') as (s'' & H1 & H2 & _).
      exists s''. split; [exact H1|congruence].
  - intros c' s' Hs' Hd' Hc'. destruct (Hback c' s' Hs') as (s'' & H1 & _ & H2 & H3). destruct (H3 Hc') as [_ H4].
    apply (ok_dropped0 c' s''); congruence.
  - change (owners (close c p)) with (owners p). rewrite <- Permutation_middle in ok_owners0. by apply NoDup_cons in ok_owners0 as [_ ?].
  - intros c'. change (owners (close c p)) with (owners p). split.
    + intros Hin. assert (Hne : c' <> c) by (intros ->; done).
      assert (Hl : live p c') by (apply ok_live0; rewrite elem_of_app in *; rewrite elem_of_cons; tauto).
      destruct Hl as (s' & Hs' & H1 & H2). exists s'. cbn. rewrite lookup_alter_ne by congruence. done.
    + intros (s' & Hs' & H1 & H2). destruct (Hback c' s' Hs') as (s'' & Hs'' & _ & H3 & H4). destruct (H4 H1) as [Hne H5].
      assert (Hin : c' ∈ owners p ++ c :: extra) by (apply ok_live0; exists s''; split_and!; congruence).
      rewrite elem_of_app, elem_of_cons in *. tauto.
  - unfold bound_ok. cbn [counted lru opening callers children sandboxes close with_children].
    intros [?|Hb]; [by left|right]. erewrite filter_ext; [exact Hb|]. intros id. unfold idle. destruct (sandboxes p !! id) as [c'|]; [|done].
    unfold refs_of. destruct (children p !! c') as [s'|] eqn:Hs'.
    + destruct (Hkeep c' s' Hs') as (s'' & H1 & _ & H2 & _). cbn in H1. by rewrite H1, H2.
    + by rewrite lookup_alter_None_2 || (rewrite (proj2 (lookup_alter_None _ _ _ _)) by done).
Qed.

(** Entries that nobody uses leave the table; their children are in transit. *)
Definition shrinks (p p' : pool) (vs : list nat) : Prop :=
  exists gone, NoDup gone /\ p' = with_table (lru p') (sandboxes p') p /\
    lru p ≡ₚ gone ++ lru p' /\
    (forall id, sandboxes p' !! id = if bool_decide (id ∈ gone) then None else sandboxes p !! id) /\
    vs ≡ₚ omap (fun id => sandboxes p !! id) gone /\
    (forall id c, id ∈ gone -> sandboxes p !! id = Some c -> refs_of (children p) c = 0).

Lemma values_split (gone : list string) (m m' : gmap string nat) :
  NoDup gone -> (forall id, m' !! id = if bool_decide (id ∈ gone) then None else m !! id) ->
  map snd (map_to_list m) ≡ₚ omap (fun id => m !! id) gone ++ map snd (map_to_list m').
Proof.
  revert m. induction gone as [|g gone IH]; intros m Hnd Hm'.
  - cbn. replace m' with m; [done|]. apply map_eq. intros id. rewrite Hm'. by rewrite bool_decide_eq_false_2 by apply not_elem_of_nil.
  - apply NoDup_cons in Hnd as [Hg Hnd]. cbn.
    assert (Hrest : map snd (map_to_list (delete g m)) ≡ₚ omap (fun id => delete g m !! id) gone ++ map snd (map_to_list m')).
    { apply IH; [done|]. intros id. rewrite Hm'. destruct (decide (id = g)) as [->|Hne].
      - rewrite lookup_delete_eq, bool_decide_eq_true_2 by by left. by destruct (bool_decide _).
      - rewrite lookup_delete_ne by congruence. erewrite (bool_decide_ext (id ∈ g :: gone)); [done|]. rewrite elem_of_cons. tauto. }
    rewrite (omap_ext_in (fun id => delete g m !! id) (fun id => m !! id)) in Hrest.
    2:{ intros id Hid. apply lookup_delete_ne. intros <-. done. }
    destruct (m !! g) as [c|] eqn:E.
    + rewrite <- (map_to_list_delete m g c E). cbn. by rewrite Hrest.
    + by rewrite delete_id in Hrest by done.
Qed.

Lemma shrink_ok p p' vs :
  pool_ok lim [] p -> shrinks p p' vs -> pool_ok lim vs p'.
Proof.
  intros [] (gone & Hnd & -> & Hl & Hm & Hvs & Hrefs).
  assert (Hown : owners (with_table (lru p') (sandboxes p') p) ++ vs ≡ₚ owners p ++ []).
  { unfold owners. cbn. rewrite (values_split gone (sandboxes p) (sandboxes p') Hnd Hm), <- Hvs. rewrite app_nil_r. solve_Permutation. }
  assert (Hsub : forall id c, sandboxes p' !! id = Some c -> sandboxes p !! id = Some c).
  { intros id c. rewrite Hm. by destruct (bool_decide _). }
  constructor; cbn [shutting callers lru sandboxes children opening tickets with_table]; try done.
  - rewrite Hl in ok_nodup0. by apply NoDup_app in ok_nodup0 as (_ & _ & ?).
  - intros id. rewrite Hm. rewrite Hl in ok_nodup0. apply NoDup_app in ok_nodup0 as (_ & Hdis & _). split.
    + intros Hid. rewrite bool_decide_eq_false_2 by (intros Hg; by apply (Hdis id)).
      apply ok_table0. rewrite Hl. apply elem_of_app. by right.
    + case_bool_decide as Hg; [by intros [? ?]|]. intros Hs. apply ok_table0 in Hs. rewrite Hl in Hs. by apply elem_of_app in Hs as [?|?].
  - intros id c Hc. by apply ok_project0, Hsub.
  - intros q x Hx. destruct (ok_callers0 q x Hx). constructor; try done.
    intros c Hc. destruct (co_held0 c Hc) as (s & Hs & Hp & Hr). exists s. split_and!; [done|done|].
    destruct Hr as [?|Hr]; [by left|right]. cbn. rewrite Hm. rewrite bool_decide_eq_false_2; [done|]. intros Hg.
    specialize (Hrefs _ _ Hg Hr). unfold refs_of in Hrefs. rewrite Hs, (ok_refs0 c s Hs) in Hrefs.
    rewrite (count_split _ _ q x Hx) in Hrefs. unfold holds at 1 in Hrefs. rewrite Hc, bool_decide_eq_true_2 in Hrefs by done. cbn in Hrefs. lia.
  - by rewrite Hown.
  - intros c. etransitivity; [|exact (ok_live0 c)]. by rewrite Hown.
  - intros id t Ht. destruct (ok_opening0 id t Ht) as [Hn Hq]. split; [|done]. rewrite Hm, Hn. by destruct (bool_decide _).
Qed.

Lemma registered_ok p extra : pool_ok lim extra p -> registered (refs_of (children p)) (sandboxes p) (lru p).
Proof.
  intros []. split; [done|]. intros id [c Hc]%ok_table0. exists c. split; [done|].
  destruct (ok_project0 id c Hc) as (s & Hs & _). unfold refs_of. rewrite Hs, (ok_refs0 c s Hs). lia.
Qed.

Lemma evict_shrinks p p' vs :
  pool_ok lim [] p -> evictLocked lim p = Some (p', vs) -> shrinks p p' vs /\ strong_bound p'.
Proof.
  intros Hok He. pose proof (registered_ok p [] Hok) as Hreg. destruct (evict_pool _ _ _ _ He) as [Hp Hev].
  destruct (Hev Hreg) as (H1 & H2 & H3 & H4).
  set (gone := to_evict (maxProjects lim) (size (opening p)) (refs_of (children p)) (sandboxes p) (lru p)) in *.
  destruct Hok. split.
  - exists gone. split_and!; try done.
    + rewrite H1 in ok_nodup0. by apply NoDup_app in ok_nodup0 as (? & _).
    + by rewrite H3.
    + intros id c Hg Hc. apply elem_of_take_sub, list_elem_of_In, (proj1 (filter_In _ _ _)) in Hg as [_ Hg].
      unfold idle in Hg. rewrite Hc in Hg. by apply Z.eqb_eq.
  - rewrite Hp. destruct H4 as [H4|H4]; [left|right].
    + unfold counted. cbn. lia.
    + cbn. apply filter_nothing. apply forallb_forall. intros id Hid. apply list_elem_of_In in Hid.
      unfold idle. rewrite H2. case_bool_decide; [done|]. destruct (sandboxes p !! id) as [c|] eqn:E; [|done].
      specialize (H4 id c Hid E). apply negb_true_iff, Z.eqb_neq. lia.
Qed.

(** The eviction does not look at the callers. *)
Lemma evict_at_phase p p' vs q id ph :
  evictLocked lim p = Some (p', vs) -> evictLocked lim (at_phase q id ph p) = Some (at_phase q id ph p', vs).
Proof.
  unfold evictLocked. cbv zeta. cbn [lru opening children sandboxes at_phase with_callers].
  destruct (evict_loop _ _ _ _ _ _) as [[[l m] vs']|]; [|done]. by intros [= <- <-].
Qed.

Lemma strong_at_phase p q id ph : strong_bound p -> strong_bound (at_phase q id ph p).
Proof. done. Qed.

(** A started child is the opener's. *)
Lemma spawn_ok p c s :
  pool_ok lim [] p -> children p !! c = None -> sb_refs s = 0 -> sb_closed s = false -> sb_dropped s = false ->
  pool_ok lim [c] (with_children (<[c := s]> (children p)) p).
Proof.
  intros [] Hc Hr Hcl Hds.
  assert (Hnew : forall c' s', children p !! c' = Some s' -> <[c:=s]> (children p) !! c' = Some s').
  { intros c' s' Hs'. rewrite lookup_insert_ne; [done|]. intros <-. congruence. }
  assert (Hnot : c ∉ owners p ++ []) by (intros (s' & Hs' & _)%ok_live0; congruence).
  constructor; cbn [shutting callers lru sandboxes children opening tickets with_children]; try done.
  - intros id c' Hid. destruct (ok_project0 id c' Hid) as (s' & Hs' & Hp). exists s'. eauto.
  - intros c' s' [[<- <-]|[_ Hs']]%lookup_insert_Some; [|by eauto]. rewrite Hr.
    destruct (count (holds c) (callers p)) as [|n] eqn:Hn; [done|]. exfalso.
    assert (Hex : exists q x, callers p !! q = Some x /\ holds c x = true).
    { unfold count in Hn. destruct (List.filter _ _) as [|[q x] l] eqn:Hl; [done|].
      assert (Hin : In (q, x) (List.filter (fun kv => holds c kv.2) (map_to_list (callers p)))) by (rewrite Hl; by left).
      apply filter_In in Hin as [Hin Hh]. apply list_elem_of_In, elem_of_map_to_list in Hin. eauto. }
    destruct Hex as (q & x & Hx & Hh%bool_decide_eq_true). destruct (ok_callers0 q x Hx). destruct (co_held0 c Hh) as (s' & Hs' & _). congruence.
  - intros q x Hx. destruct (ok_callers0 q x Hx). constructor; try done.
    + intros c' Hc'. destruct (co_held0 c' Hc') as (s' & Hs' & ?). exists s'. split; [by apply Hnew|done].
    + intros c' Hc'. destruct (co_drops0 c' Hc') as (s' & Hs' & ?). exists s'. split; [by apply Hnew|done].
    + intros c' Hc'. destruct (co_brings0 c' Hc') as (s' & Hs' & ?). exists s'. split; [by apply Hnew|done].
  - intros c' s' [[<- <-]|[_ Hs']]%lookup_insert_Some; [congruence|eauto].
  - change (owners (with_children _ p)) with (owners p). rewrite app_nil_r in *. apply NoDup_app. split_and!; [done| |apply NoDup_singleton].
    intros c' Hc' ->%list_elem_of_singleton. done.
  - intros c'. change (owners (with_children _ p)) with (owners p). rewrite app_nil_r in *. rewrite elem_of_app, list_elem_of_singleton. split.
    + intros [Hin| ->].
      * apply ok_live0 in Hin as (s' & Hs' & ?). exists s'. split; [by apply Hnew|done].
      * exists s. cbn. by rewrite lookup_insert_eq.
    + intros (s' & Hs' & H1 & H2). cbn in Hs'. apply lookup_insert_Some in Hs' as [[<- _]|[Hne Hs']]; [by right|left].
      apply ok_live0. exists s'. done.
Qed.

Lemma janitor_takes p vs : pool_ok lim vs p -> janitor p = [] -> pool_ok lim [] (with_janitor vs p).
Proof.
  intros [] Hj.
  assert (Hown : owners (with_janitor vs p) ++ [] ≡ₚ owners p ++ vs).
  { unfold owners. cbn. rewrite Hj. solve_Permutation. }
  constructor; cbn; try done; [intros q x Hx; by destruct (ok_callers0 q x Hx)|by rewrite Hown|].
  intros c. etransitivity; [|exact (ok_live0 c)]. by rewrite Hown.
Qed.

Lemma janitor_gives p v vs : pool_ok lim [] p -> janitor p = v :: vs -> pool_ok lim [v] (with_janitor vs p).
Proof.
  intros [] Hj.
  assert (Hown : owners (with_janitor vs p) ++ [v] ≡ₚ owners p ++ []).
  { unfold owners. cbn. rewrite Hj. solve_Permutation. }
  constructor; cbn; try done; [intros q x Hx; by destruct (ok_callers0 q x Hx)|by rewrite Hown|].
  intros c. etransitivity; [|exact (ok_live0 c)]. by rewrite Hown.
Qed.

Definition idle_n (p : pool) : nat := length (List.filter (idle (refs_of (children p)) (sandboxes p)) (lru p)).

Lemma filter_drop_entry id l : NoDup l -> id ∈ l -> l ≡ₚ id :: drop_entry id l.
Proof.
  intros Hnd Hin. unfold drop_entry. induction l as [|x l IH]; [by apply not_elem_of_nil in Hin|].
  apply NoDup_cons in Hnd as [Hx Hnd]. cbn. destruct (String.eqb_spec x id) as [->|Hne]; cbn.
  - apply perm_skip. assert (Hall : forall y, y ∈ l -> negb (y =? id)%string = true).
    { intros y Hy. apply negb_true_iff, String.eqb_neq. by intros ->. }
    clear -Hall. induction l as [|y l IH]; [done|]. cbn. rewrite (Hall y) by by left. apply perm_skip, IH. intros z Hz. apply Hall. by right.
  - apply elem_of_cons in Hin as [->|Hin]; [done|]. rewrite perm_swap. by apply perm_skip, IH.
Qed.

Lemma drop_entry_not id l : id ∉ l -> drop_entry id l = l.
Proof.
  unfold drop_entry. induction l as [|x l IH]; [done|]. cbn. intros H. apply not_elem_of_cons in H as [Hx Hl].
  rewrite (proj2 (String.eqb_neq x id)) by congruence. cbn. by rewrite IH.
Qed.

Lemma elem_of_drop_entry id l x : x ∈ drop_entry id l <-> x ∈ l /\ x <> id.
Proof. unfold drop_entry. rewrite !list_elem_of_In, filter_In, negb_true_iff, String.eqb_neq. done. Qed.

Lemma NoDup_drop_entry id l : NoDup l -> NoDup (drop_entry id l).
Proof. intros H. apply NoDup_ListNoDup, List.NoDup_filter. by apply NoDup_ListNoDup. Qed.

(** What a change of one child's reference count keeps. *)
Lemma refs_alter (g : sqlSandbox -> sqlSandbox) p c c' :
  c' <> c -> refs_of (alter g c (children p)) c' = refs_of (children p) c'.
Proof. intros H. unfold refs_of. by rewrite lookup_alter_ne by congruence. Qed.

Lemma live_alter (g : sqlSandbox -> sqlSandbox) p c c' :
  (forall s, sb_closed (g s) = sb_closed s /\ sb_dropped (g s) = sb_dropped s) ->
  (exists s, alter g c (children p) !! c' = Some s /\ sb_closed s = false /\ sb_dropped s = false) <-> live p c'.
Proof.
  intros Hg. unfold live. destruct (decide (c' = c)) as [->|Hne]; [|by rewrite lookup_alter_ne by congruence].
  rewrite lookup_alter_eq. split.
  - intros (s & (s0 & Hs & ->)%fmap_Some & H1 & H2). destruct (Hg s0). exists s0. split_and!; [done|congruence..].
  - intros (s & Hs & H1 & H2). destruct (Hg s). exists (g s). rewrite Hs. split_and!; [done|congruence..].
Qed.

Lemma alter_keeps (g : sqlSandbox -> sqlSandbox) p c c' s :
  (forall s, sb_projectID (g s) = sb_projectID s /\ sb_closed (g s) = sb_closed s /\ sb_dropped (g s) = sb_dropped s) ->
  children p !! c' = Some s -> exists s', alter g c (children p) !! c' = Some s' /\ sb_projectID s' = sb_projectID s /\
    sb_closed s' = sb_closed s /\ sb_dropped s' = sb_dropped s.
Proof.
  intros Hg Hs. destruct (decide (c' = c)) as [->|Hne].
  - rewrite lookup_alter_eq, Hs. exists (g s). by destruct (Hg s) as (? & ? & ?).
  - rewrite lookup_alter_ne by congruence. exists s. done.
Qed.

Lemma alter_back (g : sqlSandbox -> sqlSandbox) p c c' s' :
  (forall s, sb_projectID (g s) = sb_projectID s /\ sb_closed (g s) = sb_closed s /\ sb_dropped (g s) = sb_dropped s) ->
  alter g c (children p) !! c' = Some s' -> exists s, children p !! c' = Some s /\ sb_closed s = sb_closed s' /\ sb_dropped s = sb_dropped s' /\
    s' = if decide (c' = c) then g s else s.
Proof.
  intros Hg. destruct (decide (c' = c)) as [->|Hne].
  - rewrite lookup_alter_eq. intros (s & Hs & ->)%fmap_Some. exists s. by destruct (Hg s) as (? & ? & ?).
  - rewrite lookup_alter_ne by congruence. by exists s'.
Qed.

(** A waiting caller leases the registered child. *)
Lemma lease_ok p q x c l :
  pool_ok lim [] p -> callers p !! q = Some x -> quiet (q_phase x) -> sandboxes p !! q_project x = Some c -> lru p ≡ₚ l ->
  pool_ok lim [] (at_phase q (q_project x) (Leased c) (with_table l (sandboxes p) (lease c p))).
Proof.
  intros [] E Hq Hc Hl. pose proof Hq as (Hh & Ho & How & Hr). pose proof (quiet_drops _ Hq) as Hd. pose proof (quiet_brings _ Hq) as Hnb.
  set (g := fun s => {| sb_projectID := sb_projectID s; sb_refs := sb_refs s + 1; sb_usedAt := sb_usedAt s;
    sb_closed := sb_closed s; sb_dropped := sb_dropped s |}).
  assert (Hg : forall s, sb_projectID (g s) = sb_projectID s /\ sb_closed (g s) = sb_closed s /\ sb_dropped (g s) = sb_dropped s) by done.
  set (y := {| q_project := q_project x; q_phase := Leased c |}).
  assert (Hcount : forall f : caller -> bool, f y = f x -> count f (<[q := y]> (callers p)) = count f (callers p)).
  { intros f Hf. by apply (count_same f _ q x). }
  assert (Hown : owners (at_phase q (q_project x) (Leased c) (with_table l (sandboxes p) (lease c p))) ≡ₚ owners p).
  { unfold owners. cbn. rewrite owned_insert, (owned_split _ _ _ E), How. done. }
  constructor; cbn; try done.
  - rewrite map_size_insert_Some by (by eexists). done.
  - by rewrite <- Hl.
  - intros id. rewrite <- Hl. apply ok_table0.
  - intros id c' Hid. destruct (ok_project0 id c' Hid) as (s & Hs & Hp). destruct (alter_keeps g p c c' s Hg Hs) as (s' & Hs' & H1 & _). exists s'. split; [done|congruence].
  - intros c' s' Hs'. destruct (alter_back g p c c' s' Hg Hs') as (s & Hs & _ & _ & ->). specialize (ok_refs0 c' s Hs).
    rewrite count_insert, holds_b2n. rewrite (count_split _ _ q x E), holds_b2n, Hh in ok_refs0. cbn in ok_refs0. cbn [q_phase held y].
    destruct (decide (c' = c)) as [->|Hne]; [rewrite decide_True by done; cbn; lia|rewrite decide_False by congruence; exact ok_refs0].
  - intros q' z [[<- <-]|[_ Hz]]%lookup_insert_Some.
    + destruct (ok_project0 _ _ Hc) as (s & Hs & Hp). destruct (alter_keeps g p c c s Hg Hs) as (s' & Hs' & H1 & _).
      constructor; cbn; try done. intros c' [= <-]. exists s'. split_and!; [done|congruence|by right].
    + destruct (ok_callers0 _ _ Hz). constructor; try done.
      * intros c' Hc'. destruct (co_held0 c' Hc') as (s & Hs & H1 & H2). destruct (alter_keeps g p c c' s Hg Hs) as (s' & Hs' & H3 & _ & H4).
        exists s'. split_and!; [done|congruence|]. destruct H2; [left; congruence|by right].
      * intros c' Hc'. destruct (co_drops0 c' Hc') as (s & Hs & H1). destruct (alter_keeps g p c c' s Hg Hs) as (s' & Hs' & _ & _ & H4). exists s'. split; [done|congruence].
      * intros c' Hc'. destruct (co_brings0 c' Hc') as (s & Hs & H1). destruct (alter_keeps g p c c' s Hg Hs) as (s' & Hs' & H3 & _). exists s'. split; [done|congruence].
  - intros c' s' Hs' Hds Hcl. destruct (alter_back g p c c' s' Hg Hs') as (s & Hs & H1 & H2 & _).
    destruct (ok_dropped0 c' s Hs) as (q' & z & Hz & Hdz); [congruence|congruence|]. exists q', z. split; [|done].
    rewrite lookup_insert_ne; [done|]. intros <-. congruence.
  - by rewrite Hown.
  - intros c'. rewrite Hown. etransitivity; [exact (ok_live0 c')|]. symmetry. apply (live_alter g p c c'). intros s. by split.
  - intros q1 x1 q2 x2 t [[<- <-]|[_ H1]]%lookup_insert_Some [[<- <-]|[_ H2]]%lookup_insert_Some; cbn; try done. by apply ok_one0.
  - intros id t Ht. destruct (ok_opening0 id t Ht) as (? & q' & z & Hz & Hoz & Hp). split; [done|]. exists q', z. split; [|done].
    rewrite lookup_insert_ne; [done|]. intros <-. congruence.
  - rewrite ok_size0. symmetry. apply Hcount. unfold is_opener. cbn. by rewrite Ho.
Qed.

(** One reference less: the release of a lease, up to the check that may follow. *)
Lemma unlease_ok p q x c now :
  pool_ok lim [] p -> callers p !! q = Some x -> q_phase x = Releasing c ->
  pool_ok lim [] (at_phase q (q_project x) Rechecking (unlease now c p)).
Proof.
  intros [] E Hx.
  set (g := fun s => {| sb_projectID := sb_projectID s; sb_refs := sb_refs s - 1; sb_usedAt := now;
    sb_closed := sb_closed s; sb_dropped := sb_dropped s |}).
  assert (Hg : forall s, sb_projectID (g s) = sb_projectID s /\ sb_closed (g s) = sb_closed s /\ sb_dropped (g s) = sb_dropped s) by done.
  set (y := {| q_project := q_project x; q_phase := Rechecking |}).
  assert (Hown : owners (at_phase q (q_project x) Rechecking (unlease now c p)) ≡ₚ owners p).
  { unfold owners. cbn. rewrite owned_insert, (owned_split _ _ _ E), Hx. done. }
  constructor; cbn; try done.
  - rewrite map_size_insert_Some by (by eexists). done.
  - intros id c' Hid. destruct (ok_project0 id c' Hid) as (s & Hs & Hp). destruct (alter_keeps g p c c' s Hg Hs) as (s' & Hs' & H1 & _). exists s'. split; [done|congruence].
  - intros c' s' Hs'. destruct (alter_back g p c c' s' Hg Hs') as (s & Hs & _ & _ & ->). specialize (ok_refs0 c' s Hs).
    rewrite count_insert, holds_b2n. rewrite (count_split _ _ q x E), holds_b2n, Hx in ok_refs0. cbn in ok_refs0. cbn [q_phase held y].
    destruct (decide (c' = c)) as [->|Hne]; [rewrite decide_True in ok_refs0 by done; cbn; lia|rewrite decide_False in ok_refs0 by congruence; exact ok_refs0].
  - intros q' z [[<- <-]|[_ Hz]]%lookup_insert_Some; [by constructor|].
    destruct (ok_callers0 _ _ Hz). constructor; try done.
    + intros c' Hc'. destruct (co_held0 c' Hc') as (s & Hs & H1 & H2). destruct (alter_keeps g p c c' s Hg Hs) as (s' & Hs' & H3 & _ & H4).
      exists s'. split_and!; [done|congruence|]. destruct H2; [left; congruence|by right].
    + intros c' Hc'. destruct (co_drops0 c' Hc') as (s & Hs & H1). destruct (alter_keeps g p c c' s Hg Hs) as (s' & Hs' & _ & _ & H4). exists s'. split; [done|congruence].
    + intros c' Hc'. destruct (co_brings0 c' Hc') as (s & Hs & H1). destruct (alter_keeps g p c c' s Hg Hs) as (s' & Hs' & H3 & _). exists s'. split; [done|congruence].
  - intros c' s' Hs' Hds Hcl. destruct (alter_back g p c c' s' Hg Hs') as (s & Hs & H1 & H2 & _).
    destruct (ok_dropped0 c' s Hs) as (q' & z & Hz & Hdz); [congruence|congruence|]. exists q', z. split; [|done].
    rewrite lookup_insert_ne; [done|]. intros <-. assert (z = x) as -> by congruence. by rewrite Hx in Hdz.
  - by rewrite Hown.
  - intros c'. rewrite Hown. etransitivity; [exact (ok_live0 c')|]. symmetry. apply (live_alter g p c c'). intros s. by split.
  - intros q1 x1 q2 x2 t [[<- <-]|[_ H1]]%lookup_insert_Some [[<- <-]|[_ H2]]%lookup_insert_Some; cbn; try done. by apply ok_one0.
  - intros id t Ht. destruct (ok_opening0 id t Ht) as (? & q' & z & Hz & Hoz & Hp). split; [done|]. exists q', z. split; [|done].
    rewrite lookup_insert_ne; [done|]. intros <-. assert (z = x) as -> by congruence. by rewrite Hx in Hoz.
  - rewrite ok_size0. symmetry. apply (count_same _ _ q x); [done|]. unfold is_opener. by rewrite Hx.
Qed.

(** A caller becomes the opener of its project. *)
Lemma open_ok p q x t :
  pool_ok lim [] p -> callers p !! q = Some x -> quiet (q_phase x) ->
  sandboxes p !! q_project x = None -> opening p !! q_project x = None -> tickets p !! t = None ->
  pool_ok lim [] (at_phase q (q_project x) (Evicting t [])
    (with_opening (<[q_project x := t]> (opening p)) (<[t := None]> (tickets p)) p)).
Proof.
  intros [] E Hq Hnone Hop Ht. pose proof Hq as (Hh & Ho & How & Hr). pose proof (quiet_drops _ Hq) as Hd.
  set (y := {| q_project := q_project x; q_phase := Evicting t [] |}).
  assert (Hfree : forall id t', opening p !! id = Some t' -> t' <> t).
  { intros id t' Hid ->. destruct (ok_opening0 id t Hid) as (_ & q' & z & Hz & Hoz & _).
    destruct (ok_callers0 _ _ Hz). destruct (co_opens0 t Hoz) as [_ Hti]. congruence. }
  assert (Hown : owners (at_phase q (q_project x) (Evicting t []) (with_opening (<[q_project x := t]> (opening p)) (<[t := None]> (tickets p)) p)) ≡ₚ owners p).
  { unfold owners. cbn. rewrite owned_insert, (owned_split _ _ _ E), How. done. }
  constructor; cbn; try done.
  - rewrite map_size_insert_Some by (by eexists). done.
  - intros c s Hs. rewrite (count_same _ _ q x); [by eauto|done|]. unfold holds. cbn. by rewrite Hh.
  - intros q' z [[<- <-]|[Hne Hz]]%lookup_insert_Some.
    + constructor; cbn; try done. intros t' [= <-]. by rewrite !lookup_insert_eq.
    + destruct (ok_callers0 _ _ Hz). constructor; cbn; try done.
      * intros t' Ht'. destruct (co_opens0 t' Ht') as [H1 H2]. pose proof (Hfree _ _ H1).
        rewrite lookup_insert_ne by congruence. rewrite lookup_insert_ne by congruence. done.
      * intros t' Ht'. apply lookup_insert_is_Some'. auto.
  - intros c s Hs Hds Hcl. destruct (ok_dropped0 c s Hs Hds Hcl) as (q' & z & Hz & Hdz). exists q', z. split; [|done].
    rewrite lookup_insert_ne; [done|]. intros <-. congruence.
  - by rewrite Hown.
  - intros c. etransitivity; [|exact (ok_live0 c)]. by rewrite Hown.
  - intros q1 x1 q2 x2 t' [[<- <-]|[_ H1]]%lookup_insert_Some [[<- <-]|[_ H2]]%lookup_insert_Some; cbn; [done| | |by apply ok_one0].
    + intros [= <-] H3. destruct (ok_callers0 _ _ H2). destruct (co_opens0 t H3). congruence.
    + intros H3 [= <-]. destruct (ok_callers0 _ _ H1). destruct (co_opens0 t H3). congruence.
  - intros id t' [[<- <-]|[Hne Hid]]%lookup_insert_Some.
    + split; [done|]. exists q, y. by rewrite lookup_insert_eq.
    + destruct (ok_opening0 id t' Hid) as (? & q' & z & Hz & Hoz & Hp). split; [done|]. exists q', z. split; [|done].
      rewrite lookup_insert_ne; [done|]. intros <-. congruence.
  - rewrite map_size_insert_None by done. rewrite count_insert, ok_size0, (count_split _ _ q x E).
    assert (Hb : is_opener x = false) by (unfold is_opener; by rewrite Ho). by rewrite Hb.
  - intros t' [[<- _]|[Hne Hti]]%lookup_insert_Some.
    + exists (q_project x). by rewrite lookup_insert_eq.
    + destruct (ok_ticket0 t' Hti) as (id & Hid). exists id. rewrite lookup_insert_ne; [done|]. intros <-. congruence.
Qed.

(** The opener's ticket ends; what it brought is in transit. *)
Lemma ticket_ends p q x t o b :
  pool_ok lim [] p -> callers p !! q = Some x -> q_phase x = Opened t o ->
  pool_ok lim (option_list o) (at_phase q (q_project x) AtPool
    (with_opening (delete (q_project x) (opening p)) (<[t := Some b]> (tickets p)) p)).
Proof.
  intros [] E Hx. destruct (ok_callers0 _ _ E) as [_ _ Hopen _ _]. destruct (Hopen t) as [Hid Hti]; [by rewrite Hx|].
  assert (Hown : owners (at_phase q (q_project x) AtPool
    (with_opening (delete (q_project x) (opening p)) (<[t := Some b]> (tickets p)) p)) ++ option_list o ≡ₚ owners p).
  { unfold owners. cbn. rewrite owned_insert, (owned_split _ _ _ E), Hx. cbn. destruct o; cbn; solve_Permutation. }
  constructor; cbn; try done.
  - rewrite map_size_insert_Some by (by eexists). done.
  - intros c s Hs. rewrite (count_same _ _ q x); [by eauto|done|]. unfold holds. by rewrite Hx.
  - intros q' z [[<- <-]|[Hne Hz]]%lookup_insert_Some; [by constructor|].
    destruct (ok_callers0 _ _ Hz). constructor; cbn; try done.
    + intros t' Ht'. destruct (co_opens0 t' Ht') as [H1 H2].
      assert (t' <> t) by (intros ->; apply Hne; apply (ok_one0 q x q' z t E Hz); [by rewrite Hx|done]).
      rewrite lookup_delete_ne by congruence. rewrite lookup_insert_ne by congruence. done.
    + intros t' Ht'. apply lookup_insert_is_Some'. auto.
  - intros c s Hs Hds Hcl. destruct (ok_dropped0 c s Hs Hds Hcl) as (q' & z & Hz & Hdz). exists q', z. split; [|done].
    rewrite lookup_insert_ne; [done|]. intros <-. assert (z = x) as -> by congruence. by rewrite Hx in Hdz.
  - rewrite Hown. by rewrite app_nil_r in ok_owners0.
  - intros c. rewrite Hown. etransitivity; [|exact (ok_live0 c)]. by rewrite app_nil_r.
  - intros q1 x1 q2 x2 t' [[<- <-]|[_ H1]]%lookup_insert_Some [[<- <-]|[_ H2]]%lookup_insert_Some; cbn; try done. by apply ok_one0.
  - intros id t' [Hne Hid']%lookup_delete_Some. destruct (ok_opening0 id t' Hid') as (? & q' & z & Hz & Hoz & Hp). split; [done|].
    exists q', z. split; [|done]. rewrite lookup_insert_ne; [done|]. intros <-. assert (z = x) as -> by congruence. congruence.
  - rewrite map_size_delete_Some by (by eexists). rewrite ok_size0, count_insert, (count_split _ _ q x E).
    assert (Hb : is_opener x = true) by (unfold is_opener; by rewrite Hx). rewrite Hb. cbn. lia.
  - intros t' [[_ ?]|[Hne Hti']]%lookup_insert_Some; [done|]. destruct (ok_ticket0 t' Hti') as (id & Hid').
    exists id. rewrite lookup_delete_ne; [done|]. intros <-. congruence.
Qed.

(** The child is published. *)
Lemma publish_ok p c s id :
  pool_ok lim [c] p -> sandboxes p !! id = None -> opening p !! id = None -> children p !! c = Some s -> sb_projectID s = id ->
  pool_ok lim [] (with_table (id :: lru p) (<[id := c]> (sandboxes p)) p).
Proof.
  intros [] Hn Hop Hs Hp.
  assert (Hown : owners (with_table (id :: lru p) (<[id := c]> (sandboxes p)) p) ++ [] ≡ₚ owners p ++ [c]).
  { unfold owners. cbn. rewrite map_to_list_insert by done. cbn. solve_Permutation. }
  constructor; cbn; try done.
  - apply NoDup_cons. split; [|done]. intros [c' Hc']%ok_table0. congruence.
  - intros id'. rewrite elem_of_cons, ok_table0, lookup_insert_is_Some'. split; intros [->|?]; auto.
  - intros id' c' [[<- <-]|[_ Hc']]%lookup_insert_Some; [by exists s|by apply ok_project0].
  - intros q x Hx. destruct (ok_callers0 q x Hx). constructor; try done. intros c' Hc'.
    destruct (co_held0 c' Hc') as (s' & Hs' & H1 & H2). exists s'. split_and!; [done|done|].
    destruct H2 as [?|H2]; [by left|right]. cbn. rewrite lookup_insert_ne; [done|]. intros E. congruence.
  - by rewrite Hown.
  - intros c'. rewrite Hown. exact (ok_live0 c').
  - intros id' t Ht. destruct (ok_opening0 id' t Ht) as [H1 H2]. split; [|done]. rewrite lookup_insert_ne; [done|]. intros <-. congruence.
Qed.

Lemma owner_not_dropped p extra c s : pool_ok lim extra p -> c ∈ owners p -> children p !! c = Some s -> sb_dropped s = false.
Proof.
  intros [] Hc Hs. assert (Hin : c ∈ owners p ++ extra) by (apply elem_of_app; by left).
  apply ok_live0 in Hin as (s' & Hs' & _ & ?). congruence.
Qed.

Lemma table_owned p id c : sandboxes p !! id = Some c -> c ∈ owners p.
Proof.
  intros H. unfold owners. rewrite elem_of_app. left. apply list_elem_of_fmap. exists (id, c). split; [done|]. by apply elem_of_map_to_list.
Qed.

(** A child given up leaves the table, if it is still the table's. *)
Definition uproot (id : string) (c : nat) (p : pool) : pool :=
  match sandboxes p !! id with
  | Some c' => if (c' =? c)%nat then with_table (drop_entry id (lru p)) (delete id (sandboxes p)) p else p
  | None => p
  end.

Lemma drop_uproot id c p : drop id c p = mark_dropped c (uproot id c p).
Proof. unfold drop, uproot. cbn. destruct (sandboxes p !! id) as [c'|]; [|done]. by destruct (_ =? _)%nat. Qed.

Lemma uproot_spec id c p :
  (sandboxes p !! id = Some c /\ uproot id c p = with_table (drop_entry id (lru p)) (delete id (sandboxes p)) p) \/
  (sandboxes p !! id <> Some c /\ uproot id c p = p).
Proof.
  unfold uproot. destruct (sandboxes p !! id) as [c'|]; [|by right].
  destruct (Nat.eqb_spec c' c) as [->|Hne]; [by left|right]. split; [congruence|done].
Qed.

(** A holder gives its child up: whoever held it too still holds it, and it is nobody's. *)
Lemma drop_ok p q x c :
  pool_ok lim [] p -> callers p !! q = Some x -> q_phase x = Leased c ->
  pool_ok lim [] (at_phase q (q_project x) (Dropping c) (drop (q_project x) c p)).
Proof.
  intros Hok E Hx. pose proof Hok as []. rewrite drop_uproot. set (p' := uproot (q_project x) c p).
  destruct (ok_callers0 q x E) as [Hheld _ _ _ _]. destruct (Hheld c) as (s & Hs & Hp & Htab); [by rewrite Hx|].
  set (y := {| q_project := q_project x; q_phase := Dropping c |}).
  set (g := fun s => {| sb_projectID := sb_projectID s; sb_refs := sb_refs s; sb_usedAt := sb_usedAt s; sb_closed := sb_closed s; sb_dropped := true |}).
  assert (Hframe : children p' = children p /\ callers p' = callers p /\ opening p' = opening p /\ tickets p' = tickets p /\
    janitor p' = janitor p /\ shutting p' = shutting p).
  { unfold p'. by destruct (uproot_spec (q_project x) c p) as [[_ ->]|[_ ->]]. }
  destruct Hframe as (Hf1 & Hf2 & Hf3 & Hf4 & Hf5 & Hf6).
  assert (Hlook : forall id, sandboxes p' !! id = if bool_decide (sandboxes p !! id = Some c) then None else sandboxes p !! id).
  { intros id. unfold p'. assert (Hother : id <> q_project x -> sandboxes p !! id <> Some c).
    { intros Hne Hid. destruct (ok_project0 id c Hid) as (s' & Hs' & Hp'). congruence. }
    destruct (uproot_spec (q_project x) c p) as [[H1 ->]|[H1 ->]]; cbn; destruct (decide (id = q_project x)) as [->|Hne].
    - by rewrite lookup_delete_eq, bool_decide_eq_true_2.
    - rewrite lookup_delete_ne by congruence. rewrite bool_decide_eq_false_2; auto.
    - by rewrite bool_decide_eq_false_2.
    - rewrite bool_decide_eq_false_2; auto. }
  assert (Hsub : forall id c', sandboxes p' !! id = Some c' -> sandboxes p !! id = Some c' /\ c' <> c).
  { intros id c'. rewrite Hlook. case_bool_decide as Hb; [done|]. intros H. split; [done|]. by intros ->. }
  assert (Hown : exists gone : list nat, owners p ≡ₚ gone ++ owners (at_phase q (q_project x) (Dropping c) (mark_dropped c p')) /\
    (gone = [c] \/ (gone = [] /\ sb_dropped s = true))).
  { assert (Hc : all_owned (<[q := y]> (callers p')) ≡ₚ all_owned (callers p)).
    { rewrite owned_insert, (owned_split _ _ _ E), Hx, Hf2. done. }
    destruct (uproot_spec (q_project x) c p) as [[H1 Hu]|[H1 Hu]]; [exists [c]|exists []].
    - split; [|by left]. unfold owners. cbn. fold y. rewrite Hc, Hf5. unfold p'. rewrite Hu. cbn.
      by rewrite <- (map_to_list_delete _ _ _ H1).
    - split; [|right; split; [done|by destruct Htab]]. unfold owners. cbn. fold y. rewrite Hc, Hf5. unfold p'. by rewrite Hu. }
  destruct Hown as (gone & Hown & Hgone).
  assert (Hback : forall c' s', alter g c (children p) !! c' = Some s' -> exists s0, children p !! c' = Some s0 /\ sb_projectID s' = sb_projectID s0 /\
    sb_refs s' = sb_refs s0 /\ sb_closed s' = sb_closed s0 /\ ((c' = c /\ sb_dropped s' = true) \/ (c' <> c /\ s' = s0))).
  { intros c' s'. destruct (decide (c' = c)) as [->|Hne].
    - rewrite lookup_alter_eq, Hs. intros [= <-]. exists s. split_and!; auto.
    - rewrite lookup_alter_ne by congruence. exists s'. split_and!; auto. }
  assert (Hforth : forall c' s0, children p !! c' = Some s0 -> exists s', alter g c (children p) !! c' = Some s' /\ sb_projectID s' = sb_projectID s0 /\
    (sb_dropped s0 = true -> sb_dropped s' = true) /\ (c' = c -> sb_dropped s' = true)).
  { intros c' s0 Hs0. destruct (decide (c' = c)) as [->|Hne].
    - rewrite lookup_alter_eq, Hs0. by exists (g s0).
    - rewrite lookup_alter_ne by congruence. by exists s0. }
  constructor; cbn [shutting callers lru sandboxes opening children tickets at_phase with_callers mark_dropped with_children]; fold g; rewrite ?Hf1, ?Hf2, ?Hf3, ?Hf4; fold y; try done.
  - by rewrite Hf6.
  - rewrite map_size_insert_Some by (by eexists). done.
  - unfold p'. destruct (uproot_spec (q_project x) c p) as [[_ ->]|[_ ->]]; [by apply NoDup_drop_entry|done].
  - intros id. unfold p'. destruct (uproot_spec (q_project x) c p) as [[_ ->]|[_ ->]]; [|apply ok_table0].
    cbn. rewrite elem_of_drop_entry, ok_table0, lookup_delete_is_Some. split; intros [? ?]; split; auto.
  - intros id c' [Hid _]%Hsub. destruct (ok_project0 id c' Hid) as (s0 & Hs0 & <-). destruct (Hforth c' s0 Hs0) as (s' & ? & ? & _). by exists s'.
  - intros c' s' Hs'. destruct (Hback c' s' Hs') as (s0 & Hs0 & _ & -> & _). rewrite (count_same _ _ q x); [by apply ok_refs0|done|].
    unfold holds. by rewrite Hx.
  - intros q' z [[<- <-]|[_ Hz]]%lookup_insert_Some.
    + destruct (Hforth c s Hs) as (s' & Hs' & Hps & _ & Hds). specialize (Hds eq_refl).
      constructor; cbn; fold g; rewrite ?Hf1; try done; intros c' [= <-]; exists s'; split_and!; auto; congruence.
    + destruct (ok_callers0 _ _ Hz). constructor; cbn; fold g; rewrite ?Hf1, ?Hf3, ?Hf4; try done.
      * intros c' Hc'. destruct (co_held0 c' Hc') as (s0 & Hs0 & H1 & H2). destruct (Hforth c' s0 Hs0) as (s' & Hs' & H3 & H4 & H5).
        exists s'. split_and!; [done|congruence|]. destruct H2 as [H2|H2]; [auto|]. rewrite Hlook. case_bool_decide as Hb; [|auto].
        left. apply H5. congruence.
      * intros c' Hc'. destruct (co_drops0 c' Hc') as (s0 & Hs0 & H1). destruct (Hforth c' s0 Hs0) as (s' & Hs' & H3 & H4 & H5). exists s'. auto.
      * intros c' Hc'. destruct (co_brings0 c' Hc') as (s0 & Hs0 & H1). destruct (Hforth c' s0 Hs0) as (s' & Hs' & H3 & _). exists s'. split; [done|congruence].
  - intros c' s' Hs' Hds Hcl. destruct (Hback c' s' Hs') as (s0 & Hs0 & _ & _ & H1 & [[-> _]|[Hne ->]]).
    + exists q, y. by rewrite lookup_insert_eq.
    + destruct (ok_dropped0 c' s0 Hs0 Hds Hcl) as (q' & z & Hz & Hdz). exists q', z. split; [|done].
      rewrite lookup_insert_ne; [done|]. intros <-. assert (z = x) as -> by congruence. by rewrite Hx in Hdz.
  - rewrite app_nil_r in *. rewrite Hown in ok_owners0. by apply NoDup_app in ok_owners0 as (_ & _ & ?).
  - intros c'. rewrite app_nil_r in *. unfold live. cbn. fold g. rewrite Hf1. split.
    + intros Hin. assert (Hold : c' ∈ owners p) by (rewrite Hown; apply elem_of_app; by right).
      assert (Hne : c' <> c).
      { intros ->. destruct Hgone as [->|[-> Hds]].
        - rewrite Hown in ok_owners0. apply NoDup_app in ok_owners0 as (_ & H & _). apply (H c); [by left|done].
        - rewrite (owner_not_dropped p [] c s Hok Hold Hs) in Hds. done. }
      destruct (proj1 (ok_live0 c') Hold) as (s' & Hs' & ?). exists s'. by rewrite lookup_alter_ne by congruence.
    + intros (s' & Hs' & Hcl & Hds). destruct (Hback c' s' Hs') as (s0 & Hs0 & _ & _ & _ & [[-> ?]|[Hne ->]]); [congruence|].
      assert (Hold : c' ∈ owners p) by (apply ok_live0; by exists s0).
      rewrite Hown in Hold. apply elem_of_app in Hold as [Hg|?]; [|done]. destruct Hgone as [->|[-> _]].
      * by apply list_elem_of_singleton in Hg.
      * by apply not_elem_of_nil in Hg.
  - intros q1 x1 q2 x2 t [[<- <-]|[_ H1]]%lookup_insert_Some [[<- <-]|[_ H2]]%lookup_insert_Some; cbn; try done. by apply ok_one0.
  - intros id t Ht. destruct (ok_opening0 id t Ht) as (Hn & q' & z & Hz & Hoz & Hpz). split; [rewrite Hlook, Hn; by case_bool_decide|].
    exists q', z. split; [|done]. rewrite lookup_insert_ne; [done|]. intros <-. assert (z = x) as -> by congruence. by rewrite Hx in Hoz.
  - rewrite ok_size0. symmetry. apply (count_same _ _ q x); [done|]. unfold is_opener. by rewrite Hx.
Qed.

(** The child given up is killed by the caller that gave it up. *)
Lemma close_dropped_ok p q x c :
  pool_ok lim [] p -> callers p !! q = Some x -> q_phase x = Dropping c ->
  pool_ok lim [] (at_phase q (q_project x) (Releasing c) (close c p)).
Proof.
  intros Hok E Hx. pose proof Hok as [].
  destruct (ok_callers0 q x E) as [Hheld Hdrops _ _ _]. destruct (Hheld c) as (s & Hs & Hp & _); [by rewrite Hx|].
  destruct (Hdrops c) as (s0 & Hs0 & Hds); [by rewrite Hx|]. replace s0 with s in Hds by congruence. clear s0 Hs0.
  set (y := {| q_project := q_project x; q_phase := Releasing c |}).
  set (g := fun s => {| sb_projectID := sb_projectID s; sb_refs := sb_refs s; sb_usedAt := sb_usedAt s; sb_closed := true; sb_dropped := sb_dropped s |}).
  assert (Hown : owners (at_phase q (q_project x) (Releasing c) (close c p)) ≡ₚ owners p).
  { unfold owners. cbn. rewrite owned_insert, (owned_split _ _ _ E), Hx. done. }
  assert (Hback : forall c' s', alter g c (children p) !! c' = Some s' -> exists s0, children p !! c' = Some s0 /\ sb_projectID s' = sb_projectID s0 /\
    sb_refs s' = sb_refs s0 /\ sb_dropped s' = sb_dropped s0 /\ ((c' = c /\ sb_closed s' = true) \/ (c' <> c /\ s' = s0))).
  { intros c' s'. destruct (decide (c' = c)) as [->|Hne].
    - rewrite lookup_alter_eq, Hs. intros [= <-]. exists s. split_and!; auto.
    - rewrite lookup_alter_ne by congruence. exists s'. split_and!; auto. }
  assert (Hforth : forall c' s0, children p !! c' = Some s0 -> exists s', alter g c (children p) !! c' = Some s' /\ sb_projectID s' = sb_projectID s0 /\
    sb_dropped s' = sb_dropped s0).
  { intros c' s0 Hs0. destruct (decide (c' = c)) as [->|Hne].
    - rewrite lookup_alter_eq, Hs0. by exists (g s0).
    - rewrite lookup_alter_ne by congruence. by exists s0. }
  constructor; cbn [shutting callers lru sandboxes opening children tickets at_phase with_callers close with_children]; fold g; fold y; try done.
  - rewrite map_size_insert_Some by (by eexists). done.
  - intros id c' Hid. destruct (ok_project0 id c' Hid) as (s0 & Hs0 & <-). destruct (Hforth c' s0 Hs0) as (s' & ? & ? & _). by exists s'.
  - intros c' s' Hs'. destruct (Hback c' s' Hs') as (s0 & Hs0 & _ & -> & _). rewrite (count_same _ _ q x); [by apply ok_refs0|done|].
    unfold holds. by rewrite Hx.
  - intros q' z [[<- <-]|[_ Hz]]%lookup_insert_Some.
    + destruct (Hforth c s Hs) as (s' & Hs' & Hps & Hd).
      constructor; cbn; fold g; try done. intros c' [= <-]. exists s'. split; [done|]. split; [congruence|left; congruence].
    + destruct (ok_callers0 _ _ Hz). constructor; cbn; fold g; try done.
      * intros c' Hc'. destruct (co_held0 c' Hc') as (s0 & Hs0 & H1 & H2). destruct (Hforth c' s0 Hs0) as (s' & Hs' & H3 & H4).
        exists s'. split_and!; [done|congruence|]. destruct H2; [left; congruence|by right].
      * intros c' Hc'. destruct (co_drops0 c' Hc') as (s0 & Hs0 & H1). destruct (Hforth c' s0 Hs0) as (s' & Hs' & H3 & H4). exists s'. split; [done|congruence].
      * intros c' Hc'. destruct (co_brings0 c' Hc') as (s0 & Hs0 & H1). destruct (Hforth c' s0 Hs0) as (s' & Hs' & H3 & _). exists s'. split; [done|congruence].
  - intros c' s' Hs' Hds' Hcl. destruct (Hback c' s' Hs') as (s0 & Hs0 & _ & _ & H1 & [[-> ?]|[Hne ->]]); [congruence|].
    destruct (ok_dropped0 c' s0 Hs0 Hds' Hcl) as (q' & z & Hz & Hdz). exists q', z. split; [|done].
    rewrite lookup_insert_ne; [done|]. intros <-. assert (z = x) as -> by congruence. rewrite Hx in Hdz. cbn in Hdz. congruence.
  - by rewrite Hown.
  - intros c'. rewrite Hown. etransitivity; [exact (ok_live0 c')|]. unfold live. cbn. fold g. split.
    + intros (s' & Hs' & H1 & H2). exists s'. rewrite lookup_alter_ne; [done|]. intros <-. congruence.
    + intros (s' & Hs' & H1 & H2). destruct (Hback c' s' Hs') as (s0 & Hs0 & _ & _ & _ & [[-> ?]|[Hne ->]]); [congruence|]. by exists s0.
  - intros q1 x1 q2 x2 t [[<- <-]|[_ H1]]%lookup_insert_Some [[<- <-]|[_ H2]]%lookup_insert_Some; cbn; try done. by apply ok_one0.
  - intros id t Ht. destruct (ok_opening0 id t Ht) as (Hn & q' & z & Hz & Hoz & Hpz). split; [done|].
    exists q', z. split; [|done]. rewrite lookup_insert_ne; [done|]. intros <-. assert (z = x) as -> by congruence. by rewrite Hx in Hoz.
  - rewrite ok_size0. symmetry. apply (count_same _ _ q x); [done|]. unfold is_opener. by rewrite Hx.
Qed.

(** ** What is idle *)

(** Entries are idle only if they were, but for those of [ex]. *)
Lemma idle_n_le p p' ex :
  NoDup (lru p') ->
  (forall id, id ∈ lru p' -> idle (refs_of (children p')) (sandboxes p') id = true ->
     id ∈ ex \/ (id ∈ lru p /\ idle (refs_of (children p)) (sandboxes p) id = true)) ->
  (idle_n p' <= length ex + idle_n p)%nat.
Proof.
  intros Hnd H. unfold idle_n. rewrite <- length_app. apply NoDup_incl_length.
  - apply List.NoDup_filter. by apply NoDup_ListNoDup.
  - intros id [Hin Hi]%filter_In. apply list_elem_of_In in Hin. apply in_app_iff. destruct (H id Hin Hi) as [?|[? ?]].
    + left. by apply list_elem_of_In.
    + right. apply filter_In. split; [by apply list_elem_of_In|done].
Qed.

Lemma bound_le p p' n :
  (counted p' <= counted p)%nat -> (idle_n p' <= n + idle_n p)%nat ->
  (n + count is_rechecker (callers p) <= count is_rechecker (callers p'))%nat -> bound_ok lim p -> bound_ok lim p'.
Proof. unfold bound_ok, idle_n. intros Hc Hi Hr [Hb|Hb]; [left|right]; lia. Qed.

Lemma idle_true refs m id : idle refs m id = true <-> exists c, m !! id = Some c /\ refs c = 0.
Proof.
  unfold idle. destruct (m !! id) as [c|].
  - rewrite Z.eqb_eq. split; [intros H; by exists c|]. by intros (c' & [= <-] & H).
  - split; [done|]. by intros (c' & ? & _).
Qed.

Lemma lease_refs p c c' :
  pool_ok lim [] p -> is_Some (children p !! c') -> refs_of (children (lease c p)) c' = 0 -> c' <> c /\ refs_of (children p) c' = 0.
Proof.
  intros [] [s Hs]. unfold refs_of. cbn. destruct (decide (c' = c)) as [->|Hne]; [|by rewrite lookup_alter_ne by congruence].
  rewrite lookup_alter_eq, Hs. cbn. pose proof (ok_refs0 _ _ Hs). lia.
Qed.

Lemma lease_bound p q x c l :
  pool_ok lim [] p -> callers p !! q = Some x -> rechecks (q_phase x) = false -> lru p ≡ₚ l ->
  bound_ok lim p -> bound_ok lim (at_phase q (q_project x) (Leased c) (with_table l (sandboxes p) (lease c p))).
Proof.
  intros Hok E Hr Hl. pose proof Hok as []. apply (bound_le _ _ 0).
  - unfold counted. cbn. by rewrite Hl.
  - apply (idle_n_le p _ []); cbn [lru sandboxes children at_phase with_callers with_table]; [by rewrite <- Hl|].
    intros id Hid (c' & Hc' & H0)%idle_true. right. split; [by rewrite Hl|]. apply idle_true. exists c'. split; [done|].
    destruct (ok_project0 id c' Hc') as (s & Hs & _). apply (lease_refs p c c' Hok); [by eexists|exact H0].
  - cbn. rewrite (count_same _ _ q x); [done|done|]. unfold is_rechecker. by rewrite Hr.
Qed.

Lemma unlease_idle p x c now :
  pool_ok lim [] p -> (exists s, children p !! c = Some s /\ sb_projectID s = q_project x) ->
  (idle_n (unlease now c p) <= 1 + idle_n p)%nat /\ (refs_of (children (unlease now c p)) c <> 0 -> (idle_n (unlease now c p) <= idle_n p)%nat).
Proof.
  intros Hok (s & Hs & Hp). pose proof Hok as [].
  assert (Hid : forall id, idle (refs_of (children (unlease now c p))) (sandboxes p) id = true ->
    (sandboxes p !! id = Some c /\ refs_of (children (unlease now c p)) c = 0) \/ idle (refs_of (children p)) (sandboxes p) id = true).
  { intros id (c' & Hc' & H0)%idle_true. destruct (decide (c' = c)) as [->|Hne]; [by left|right]. apply idle_true.
    exists c'. split; [done|]. rewrite <- H0. symmetry. by apply refs_alter. }
  split.
  - apply (idle_n_le p _ [q_project x]); [done|]. intros id Hin Hi. destruct (Hid id Hi) as [[Hc _]|?]; [left|by right].
    destruct (ok_project0 id c Hc) as (s' & Hs' & <-). apply list_elem_of_singleton. congruence.
  - intros Hne. apply (idle_n_le p _ []); [done|]. intros id Hin Hi. right. split; [done|]. by destruct (Hid id Hi) as [[_ ?]|?].
Qed.

(** What the janitor takes was idle. *)
Lemma NoDup_map_filter {A B} (g : A -> B) (f : A -> bool) l : NoDup (map g l) -> NoDup (map g (List.filter f l)).
Proof.
  induction l as [|x l IH]; cbn; [done|]. intros [Hx Hl]%NoDup_cons. destruct (f x); cbn; [|by apply IH].
  apply NoDup_cons. split; [|by apply IH]. intros Hin. apply Hx. apply list_elem_of_fmap in Hin as (y & -> & Hy).
  apply list_elem_of_fmap. exists y. split; [done|]. apply list_elem_of_In in Hy. apply filter_In in Hy as [Hy _]. by apply list_elem_of_In.
Qed.

Lemma filter_both {A} (f : A -> bool) l : l ≡ₚ List.filter f l ++ List.filter (fun x => negb (f x)) l.
Proof.
  induction l as [|x l IH]; cbn; [done|]. destruct (f x); cbn; [by apply perm_skip|]. rewrite <- Permutation_middle. by apply perm_skip.
Qed.

Lemma reap_shrinks p p' vs now : pool_ok lim [] p -> reapIdle lim now p = (p', vs) -> shrinks p p' vs.
Proof.
  intros Hok [= <- <-]. pose proof Hok as []. exists (List.filter (stale lim now p) (lru p)). split_and!.
  - apply NoDup_ListNoDup, List.NoDup_filter. by apply NoDup_ListNoDup.
  - done.
  - apply filter_both.
  - intros id. cbn. case_bool_decide as Hin.
    + apply list_elem_of_In, (proj1 (filter_In _ _ _)) in Hin as [_ Hst]. apply map_lookup_filter_None. right. intros c _. cbn. congruence.
    + destruct (sandboxes p !! id) as [c|] eqn:E.
      * apply map_lookup_filter_Some. split; [done|]. cbn. destruct (stale lim now p id) eqn:Hst; [|done]. exfalso. apply Hin.
        apply list_elem_of_In, (proj2 (filter_In _ _ _)). split; [|done]. apply list_elem_of_In, ok_table0. by eexists.
      * apply map_lookup_filter_None. by left.
  - assert (Hg : map fst (List.filter (fun kv => stale lim now p kv.1) (map_to_list (sandboxes p))) ≡ₚ List.filter (stale lim now p) (lru p)).
    { apply NoDup_Permutation.
      - apply NoDup_map_filter. exact (NoDup_fst_map_to_list _).
      - apply NoDup_ListNoDup, List.NoDup_filter. by apply NoDup_ListNoDup.
      - intros id. rewrite list_elem_of_fmap, (list_elem_of_In (List.filter (stale lim now p) (lru p)) id), filter_In, <- list_elem_of_In, ok_table0. split.
        + intros ([id' c] & -> & Hin). apply list_elem_of_In, filter_In in Hin as [Hin Hst]. split; [|done].
          apply list_elem_of_In, elem_of_map_to_list in Hin. cbn. by eexists.
        + intros [[c Hc] Hst]. exists (id, c). split; [done|]. apply list_elem_of_In, filter_In. split; [|done].
          apply list_elem_of_In. by apply elem_of_map_to_list. }
    rewrite <- Hg. clear Hg. 
    assert (Hsub : forall kv, kv ∈ List.filter (fun kv => stale lim now p kv.1) (map_to_list (sandboxes p)) -> sandboxes p !! kv.1 = Some kv.2).
    { intros [id c] Hin. apply list_elem_of_In, filter_In in Hin as [Hin _]. apply list_elem_of_In, elem_of_map_to_list in Hin. done. }
    revert Hsub. induction (List.filter _ _) as [|[id c] l IH]; intros Hsub; [done|]. cbn.
    pose proof (Hsub (id, c) (list_elem_of_here _ _)) as Hc. cbn in Hc. rewrite Hc. apply perm_skip, IH. intros kv Hkv. apply Hsub. by right.
  - intros id c Hin Hc. apply list_elem_of_In, (proj1 (filter_In _ _ _)) in Hin as [_ Hst]. unfold stale in Hst. rewrite Hc in Hst.
    destruct (ok_project0 id c Hc) as (s & Hs & _). rewrite Hs in Hst. unfold refs_of. rewrite Hs. pose proof (ok_refs0 _ _ Hs).
    apply andb_true_iff in Hst as [H1 _]. apply Z.leb_le in H1. lia.
Qed.

Lemma shrink_bound p p' vs : pool_ok lim [] p -> shrinks p p' vs -> bound_ok lim p -> bound_ok lim p'.
Proof.
  intros Hok (gone & Hnd & -> & Hl & Hm & _). pose proof Hok as []. apply (bound_le _ _ 0).
  - unfold counted. cbn. rewrite Hl, length_app. cbn. lia.
  - apply (idle_n_le p _ []); cbn [lru with_table].
    + rewrite Hl in ok_nodup0. by apply NoDup_app in ok_nodup0 as (_ & _ & ?).
    + intros id Hin (c & Hc & H0)%idle_true. right. split; [rewrite Hl; apply elem_of_app; by right|]. apply idle_true. exists c.
      split; [|done]. cbn in Hc. rewrite Hm in Hc. by destruct (bool_decide _).
  - done.
Qed.

(** ** Every action keeps the invariant *)

Definition both (p : pool) : Prop := pool_ok lim [] p /\ bound_ok lim p.

Lemma at_phase_twice p q id ph id' ph' : at_phase q id' ph' (at_phase q id ph p) = at_phase q id' ph' p.
Proof. unfold at_phase, with_callers. cbn. by rewrite insert_insert_eq. Qed.

Lemma leave_at_phase p q id ph : leave q (at_phase q id ph p) = leave q p.
Proof. unfold leave, at_phase, with_callers. cbn. by rewrite delete_insert_eq. Qed.

Lemma at_phase_here p q id ph : callers (at_phase q id ph p) !! q = Some {| q_project := id; q_phase := ph |}.
Proof. apply lookup_insert_eq. Qed.

Lemma quiet_pool : quiet AtPool.
Proof. done. Qed.

(** A turn of sandboxFor. *)
Lemma turn_keeps p p' q t id :
  both p -> callers p !! q = Some {| q_project := id; q_phase := AtPool |} -> sandboxFor_turn lim q t id p = Some p' -> both p'.
Proof.
  intros [Hok Hb] E. unfold sandboxFor_turn. set (x := {| q_project := id; q_phase := AtPool |}) in *.
  destruct (sandboxes p !! id) as [c|] eqn:Ec.
  - intros [= <-]. assert (Hl : lru p ≡ₚ touchLocked id (lru p)).
    { pose proof Hok as []. apply filter_drop_entry; [done|]. apply ok_table0. by eexists. }
    split; [by apply (lease_ok p q x)|by apply (lease_bound p q x)].
  - destruct (opening p !! id) as [t'|] eqn:Eo.
    + intros [= <-]. pose proof Hok as [].
      assert (Ht : is_Some (tickets p !! t')).
      { destruct (ok_opening0 id t' Eo) as (_ & q' & z & Hz & Hoz & _). destruct (ok_callers0 _ _ Hz). destruct (co_opens0 t' Hoz). by eexists. }
      destruct (quiet_put p q id (Waiting t') Hok) as [? Hbound]; [by rewrite E|by intros y; rewrite E; intros [= <-]|done|by intros ? [= <-]|].
      split; auto.
    + destruct (tickets p !! t) eqn:Et; [done|]. cbn [is_some].
      destruct (evictLocked lim _) as [[p1 vs]|] eqn:He; [|done]. intros [= <-].
      pose proof (open_ok p q x t Hok E quiet_pool Ec Eo Et) as Hopen. apply (evict_at_phase _ _ _ q id (Evicting t [])) in He.
      destruct (evict_shrinks _ _ _ Hopen He) as [Hsh Hst]. pose proof (shrink_ok _ _ _ Hopen Hsh) as Hok1.
      rewrite <- (at_phase_twice p1 q id (Evicting t [])). split; [|by apply strong_weak, strong_at_phase].
      apply (phase_put _ q {| q_project := id; q_phase := Evicting t [] |} _ vs []); try done; [by rewrite at_phase_here|].
      by rewrite app_nil_r.
Qed.

(** The opener publishes its child, leased, or leaves. *)
Lemma register_keeps p q t id o :
  both p -> callers p !! q = Some {| q_project := id; q_phase := Opened t o |} -> both (register q t id o p).
Proof.
  intros [Hok Hb] E. set (x := {| q_project := id; q_phase := Opened t o |}) in *. pose proof Hok as [].
  destruct (ok_callers0 _ _ E) as [_ _ Hopens Hbrings _]. destruct (Hopens t eq_refl) as [Hop Hti]. cbn in Hop.
  set (p1 := with_opening (delete id (opening p)) (<[t := Some (is_some o)]> (tickets p)) p).
  pose proof (ticket_ends p q x t o (is_some o) Hok E eq_refl) as Hend. cbn [q_project x] in Hend. fold p1 in Hend.
  assert (Hsize : S (size (opening p1)) = size (opening p)).
  { cbn. rewrite map_size_delete_Some by (by eexists). assert (size (opening p) <> O); [|lia]. intros H0%map_size_empty_inv. by rewrite H0 in Hop. }
  assert (Hb1 : bound_ok lim (at_phase q id AtPool p1)).
  { apply (bound_le p _ 0); [unfold counted; cbn [lru at_phase with_callers p1 with_opening opening] in *; lia|done| |done].
    cbn. rewrite (count_same _ _ q x); done. }
  destruct o as [c|]; unfold register; cbv zeta; fold p1.
  - set (pb := with_table (id :: lru p1) (<[id := c]> (sandboxes p1)) (at_phase q id AtPool p1)).
    destruct (Hbrings c eq_refl) as (s & Hs & Hp). destruct (ok_opening0 id t Hop) as [Hnone _].
    assert (Hpub : pool_ok lim [] pb) by (apply (publish_ok (at_phase q id AtPool p1) c s id); try done; apply lookup_delete_eq).
    pose proof (lease_ok pb q {| q_project := id; q_phase := AtPool |} c (id :: lru p1) Hpub (at_phase_here _ _ _ _) quiet_pool
      (lookup_insert_eq _ _ _) (reflexivity _)) as Hlease.
    assert (Heq : at_phase q id (Leased c) (with_table (id :: lru p1) (<[id := c]> (sandboxes p1)) (lease c p1)) =
      at_phase q id (Leased c) (with_table (id :: lru p1) (sandboxes pb) (lease c pb))).
    { unfold pb, at_phase, with_callers. cbn. by rewrite insert_insert_eq. }
    split; [by rewrite Heq|]. apply (bound_le p _ 0); [unfold counted; cbn in *; lia| | |done].
    + apply (idle_n_le p _ []); cbn [lru sandboxes children at_phase with_callers with_table]; [by destruct Hpub|].
      intros id' Hin (c' & Hc' & H0)%idle_true. right.
      assert (Hch : is_Some (children p !! c')).
      { apply lookup_insert_Some in Hc' as [[_ <-]|[_ Hc']]; [by eexists|]. destruct (ok_project0 _ _ Hc') as (s' & ? & _). by eexists. }
      destruct (lease_refs p c c' Hok Hch H0) as [Hne H1]. apply lookup_insert_Some in Hc' as [[_ ?]|[Hid Hc']]; [congruence|].
      split; [|apply idle_true; by exists c']. apply elem_of_cons in Hin as [?|?]; [congruence|done].
    + cbn. rewrite (count_same _ _ q x); done.
  - rewrite <- (leave_at_phase p1 q id AtPool).
    destruct (quiet_leave _ q {| q_project := id; q_phase := AtPool |} Hend (at_phase_here _ _ _ _) quiet_pool) as [? Hl]. split; auto.
Qed.

Lemma release_keeps p q id c now :
  both p -> callers p !! q = Some {| q_project := id; q_phase := Releasing c |} ->
  both (if refs_of (children (unlease now c p)) c =? 0 then at_phase q id Rechecking (unlease now c p) else leave q (unlease now c p)).
Proof.
  intros [Hok Hb] E. set (x := {| q_project := id; q_phase := Releasing c |}) in *. pose proof Hok as [].
  pose proof (unlease_ok p q x c now Hok E eq_refl) as Hun. cbn [q_project x] in Hun.
  destruct (ok_callers0 _ _ E) as [Hheld _ _ _ _]. destruct (Hheld c eq_refl) as (s & Hs & Hp & _).
  destruct (unlease_idle p x c now Hok) as [Hi1 Hi0]; [by exists s|].
  destruct (Z.eqb_spec (refs_of (children (unlease now c p)) c) 0) as [_|Hne].
  - split; [done|]. apply (bound_le p _ 1); [done|exact Hi1| |done]. cbn. rewrite count_insert, (count_split _ _ q x E). cbn. lia.
  - split.
    + rewrite <- (leave_at_phase _ q id AtPool). eapply quiet_leave; [|apply at_phase_here|done].
      rewrite <- (at_phase_twice _ q id Rechecking).
      eapply (phase_put _ q {| q_project := id; q_phase := Rechecking |} AtPool [] []); try done. by rewrite at_phase_here.
    + apply (bound_le p _ 0); [done|by apply Hi0| |done]. cbn. by rewrite (count_del _ _ q x E).
Qed.

Lemma recheck_keeps p p' vs q id :
  both p -> callers p !! q = Some {| q_project := id; q_phase := Rechecking |} -> evictLocked lim p = Some (p', vs) ->
  both (at_phase q id (ClosingVictims vs) p').
Proof.
  intros [Hok Hb] E He. destruct (evict_shrinks _ _ _ Hok He) as [Hsh Hst]. pose proof (shrink_ok _ _ _ Hok Hsh) as Hok'.
  split; [|by apply strong_weak, strong_at_phase]. destruct Hsh as (_ & _ & Hp & _).
  apply (phase_put _ q {| q_project := id; q_phase := Rechecking |} _ vs []); try done; [by rewrite Hp|]. by rewrite app_nil_r.
Qed.

(** A caller kills the next of the children it was given. *)
Lemma victim_keeps p q id ph ph' v :
  both p -> callers p !! q = Some {| q_project := id; q_phase := ph |} ->
  held ph' = held ph -> opens ph' = opens ph -> drops ph' = drops ph -> waits ph' = None -> rechecks ph' = rechecks ph ->
  brings ph' = None -> owned ph ≡ₚ owned ph' ++ [v] -> both (at_phase q id ph' (close v p)).
Proof.
  intros [Hok Hb] E H1 H2 H3 H4 H5 H6 H7. set (x := {| q_project := id; q_phase := ph |}) in *.
  assert (Hput : pool_ok lim [v] (at_phase q id ph' p)).
  { apply (phase_put p q x ph' [] [v]); try done; [by rewrite H6|]. by rewrite app_nil_r. }
  destruct (close_ok _ _ _ Hput) as [? Hc]. split; [done|]. apply Hc. by apply (bound_put p q x).
Qed.

Lemma move_keeps p q id ph ph' :
  both p -> callers p !! q = Some {| q_project := id; q_phase := ph |} ->
  held ph' = held ph -> opens ph' = opens ph -> drops ph' = drops ph -> waits ph' = None -> rechecks ph' = rechecks ph ->
  (brings ph' = None \/ brings ph' = brings ph) -> owned ph ≡ₚ owned ph' -> both (at_phase q id ph' p).
Proof.
  intros [Hok Hb] E H1 H2 H3 H4 H5 H6 H7. set (x := {| q_project := id; q_phase := ph |}) in *. split.
  - apply (phase_put p q x ph' [] []); try done; [|by rewrite !app_nil_r]. intros c Hc. destruct H6 as [H6|H6]; [congruence|].
    destruct Hok. destruct (ok_callers0 q x E). apply co_brings0. cbn. congruence.
  - by apply (bound_put p q x).
Qed.

Lemma spawn_keeps p q id t c now :
  both p -> callers p !! q = Some {| q_project := id; q_phase := Evicting t [] |} -> children p !! c = None ->
  both (at_phase q id (Copying t c) (with_children (<[c := fresh_child id now]> (children p)) p)).
Proof.
  intros [Hok Hb] E Hc. set (x := {| q_project := id; q_phase := Evicting t [] |}) in *.
  pose proof (spawn_ok p c (fresh_child id now) Hok Hc eq_refl eq_refl eq_refl) as Hsp. split.
  - apply (phase_put _ q x (Copying t c) [c] []); try done. intros c' [= <-]. exists (fresh_child id now). cbn. by rewrite lookup_insert_eq.
  - apply (bound_le p _ 0); [done| | |done].
    + pose proof Hok as []. apply (idle_n_le p _ []); [done|]. intros id' Hin (c' & Hc' & H0)%idle_true. right. split; [done|].
      apply idle_true. exists c'. split; [done|]. destruct (ok_project0 _ _ Hc') as (s & Hs & _). revert H0. unfold refs_of. cbn.
      rewrite lookup_insert_ne; [done|]. intros <-. congruence.
    + cbn. by rewrite (count_same _ _ q x).
Qed.

Lemma answer_keeps p q id c :
  both p -> callers p !! q = Some {| q_project := id; q_phase := Leased c |} -> both (at_phase q id (Dropping c) (drop id c p)).
Proof.
  intros [Hok Hb] E. set (x := {| q_project := id; q_phase := Leased c |}) in *. split; [by apply (drop_ok p q x)|].
  pose proof Hok as []. rewrite drop_uproot.
  assert (Hrefs : forall c' p0, refs_of (children (mark_dropped c p0)) c' = refs_of (children p0) c').
  { intros c' p0. unfold refs_of. cbn. destruct (decide (c' = c)) as [->|Hne]; [|by rewrite lookup_alter_ne by congruence].
    rewrite lookup_alter_eq. by destruct (children p0 !! c). }
  destruct (uproot_spec id c p) as [[H1 ->]|[H1 ->]]; apply (bound_le p _ 0); try done; cbn [callers at_phase with_callers mark_dropped with_children with_table];
    try (by rewrite (count_same _ _ q x)).
  - unfold counted. cbn. assert (length (drop_entry id (lru p)) <= length (lru p))%nat by apply List.filter_length_le. lia.
  - apply (idle_n_le p _ []); [by apply NoDup_drop_entry|]. intros id' [Hin Hne]%elem_of_drop_entry (c' & Hc' & H0)%idle_true. right.
    split; [done|]. apply idle_true. exists c'. cbn in Hc'. rewrite lookup_delete_ne in Hc' by congruence. split; [done|]. by rewrite <- (Hrefs c' p), <- H0.
  - apply (idle_n_le p _ []); [done|]. intros id' Hin (c' & Hc' & H0)%idle_true. right.
    split; [done|]. apply idle_true. exists c'. split; [done|]. by rewrite <- (Hrefs c' p), <- H0.
Qed.

Lemma close_dropped_keeps p q id c :
  both p -> callers p !! q = Some {| q_project := id; q_phase := Dropping c |} -> both (at_phase q id (Releasing c) (close c p)).
Proof.
  intros [Hok Hb] E. set (x := {| q_project := id; q_phase := Dropping c |}) in *. split; [by apply (close_dropped_ok p q x)|].
  pose proof Hok as []. apply (bound_le p _ 0); [done| |cbn; by rewrite (count_same _ _ q x)|done].
  apply (idle_n_le p _ []); [done|]. intros id' Hin (c' & Hc' & H0)%idle_true. right. split; [done|]. apply idle_true. exists c'. split; [done|].
  rewrite <- H0. unfold refs_of. cbn. destruct (decide (c' = c)) as [->|Hne]; [|by rewrite lookup_alter_ne by congruence].
  rewrite lookup_alter_eq. by destruct (children p !! c).
Qed.

(** Before the shutdown. *)
Definition running (e : event) : bool := match e with CloseAll => false | _ => true end.

Ltac caller_at q p E := destruct (callers p !! q) as [[id ph]|] eqn:E; [|done]; destruct ph; try done.

Lemma action_keeps p p' e : both p -> running e = true -> step lim e p = Some p' -> both p'.
Proof.
  intros Hp He. pose proof Hp as [Hok Hb]. destruct e; cbn [step]; try done.
  - destruct (callers p !! q) as [x|] eqn:E; [done|]. cbn [is_some orb]. destruct (Nat.leb_spec (maxConcurrent lim) (size (callers p))) as [|Hlt]; [done|].
    intros [= <-]. destruct (quiet_put p q projectID AtPool Hok) as [? Hl]; [done|by intros x; rewrite E|done|done|]. split; auto.
  - caller_at q p E. by apply turn_keeps.
  - caller_at q p E. intros [= <-]. destruct (quiet_leave p q _ Hok E) as [? Hl]; [done|]. split; auto.
  - caller_at q p E. destruct (tickets p !! ticket) as [[[]|]|] eqn:Et; [| |done..]; intros [= <-].
    + destruct (quiet_put p q id AtPool Hok) as [? Hl]; [by rewrite E|by intros x; rewrite E; intros [= <-]|done|done|]. split; auto.
    + destruct (quiet_leave p q _ Hok E) as [? Hl]; [done|]. split; auto.
  - caller_at q p E; destruct victims as [|v vs]; try done; intros [= <-].
    + apply (victim_keeps p q id _ (Evicting ticket vs) v Hp E); try done. cbn. by rewrite Permutation_app_comm.
    + destruct (quiet_leave p q _ Hok E) as [? Hl]; [done|]. split; auto.
    + apply (victim_keeps p q id _ (ClosingVictims vs) v Hp E); try done. cbn. by rewrite Permutation_app_comm.
  - caller_at q p E. destruct victims; [|done]. destruct (children p !! child) eqn:Ec; [done|]. cbn [is_some]. destruct started; intros [= <-].
    + by apply spawn_keeps.
    + apply (move_keeps p q id _ (Opened ticket None) Hp E); try done. by left.
  - caller_at q p E. destruct copied; intros [= <-].
    + apply (move_keeps p q id _ (Opened ticket (Some child)) Hp E); try done. by right.
    + by apply (victim_keeps p q id _ (Opened ticket None) child Hp E).
  - caller_at q p E. intros [= <-]. by apply register_keeps.
  - caller_at q p E. destruct broken; intros [= <-]; [by apply answer_keeps|].
    apply (move_keeps p q id _ (Releasing child) Hp E); try done. by left.
  - caller_at q p E. intros [= <-]. by apply close_dropped_keeps.
  - caller_at q p E. cbv zeta. pose proof (release_keeps p q id child now Hp E) as Hr. by destruct (_ =? 0); intros [= <-].
  - caller_at q p E. destruct (evictLocked lim p) as [[p1 vs]|] eqn:Hev; [|done]. intros [= <-]. by apply (recheck_keeps p).
  - destruct (janitor p) eqn:Hj; [|done]. destruct (reapIdle lim now p) as [p1 vs] eqn:Hr. intros [= <-].
    pose proof (reap_shrinks _ _ _ _ Hok Hr) as Hsh. pose proof (shrink_ok _ _ _ Hok Hsh) as Hok'. split; [|by eapply (shrink_bound p p1)].
    apply janitor_takes; [done|]. destruct Hsh as (_ & _ & -> & _). done.
  - destruct (janitor p) as [|v vs] eqn:Hj; [done|]. intros [= <-]. pose proof (janitor_gives p v vs Hok Hj) as Hg.
    destruct (close_ok _ _ _ Hg) as [? Hc]. split; [done|]. by apply Hc.
  - destruct Hok. by rewrite ok_shut0.
Qed.

Lemma empty_ok : both empty_pool.
Proof.
  split; [|left; exact (Nat.le_0_l _)]. constructor; try done; try exact NoDup_nil_2.
  - exact (Nat.le_0_l _).
  - intros id. split; [by intros ?%not_elem_of_nil|by intros [? ?]].
  - intros c. split; [by intros ?%not_elem_of_nil|by intros (? & ? & _)].
Qed.

Lemma run_keeps es p p' : both p -> forallb running es = true -> run lim es p = Some p' -> both p'.
Proof.
  revert p. induction es as [|e es IH]; intros p Hp; cbn; [by intros _ [= <-]|]. intros [He Hes]%andb_true_iff.
  destruct (step lim e p) as [p1|] eqn:Hs; [|done]. apply IH; [|done]. by eapply action_keeps.
Qed.

(** What the pool counts, by who answers for it. *)
Definition in_use (p : pool) (id : string) : bool := negb (idle (refs_of (children p)) (sandboxes p) id).

Lemma in_use_held p : pool_ok lim [] p -> (length (List.filter (in_use p) (lru p)) <= count is_holder (callers p))%nat.
Proof.
  intros Hok. pose proof Hok as [].
  assert (Hc : forall id, id ∈ List.filter (in_use p) (lru p) -> exists c, sandboxes p !! id = Some c /\ (0 < count (holds c) (callers p))%nat).
  { intros id Hin. apply list_elem_of_In, filter_In in Hin as [Hin Hu]. apply list_elem_of_In, ok_table0 in Hin as [c Hc]. exists c. split; [done|].
    destruct (ok_project0 _ _ Hc) as (s & Hs & _). unfold in_use, idle in Hu. rewrite Hc in Hu. unfold refs_of in Hu. rewrite Hs in Hu.
    rewrite (ok_refs0 _ _ Hs) in Hu. apply negb_true_iff, Z.eqb_neq in Hu. lia. }
  rewrite <- (length_map (fun id => default O (sandboxes p !! id))). apply holders_distinct.
  - assert (Hnd : NoDup (List.filter (in_use p) (lru p))) by (apply NoDup_ListNoDup, List.NoDup_filter; by apply NoDup_ListNoDup).
    apply NoDup_fmap_2_strong; [|done]. intros id1 id2 H1 H2 Heq. destruct (Hc _ H1) as (c1 & E1 & _), (Hc _ H2) as (c2 & E2 & _).
    rewrite E1, E2 in Heq. cbn in Heq. subst c2. destruct (ok_project0 _ _ E1) as (s1 & Hs1 & <-), (ok_project0 _ _ E2) as (s2 & Hs2 & <-). congruence.
  - intros c (id & -> & Hin)%list_elem_of_fmap. destruct (Hc _ Hin) as (c & E & ?). by rewrite E.
Qed.

Lemma pool_bound p : both p ->
  (counted p <= maxProjects lim)%nat \/ (counted p <= count is_rechecker (callers p) + count is_holder (callers p) + count is_opener (callers p))%nat.
Proof.
  intros [Hok [?|Hb]]; [by left|right]. pose proof (in_use_held p Hok) as Hu. destruct Hok. unfold counted. rewrite ok_size0.
  rewrite (filter_both (idle (refs_of (children p)) (sandboxes p)) (lru p)), length_app. unfold in_use in Hu. lia.
Qed.
End Steps.

Lemma reached lim es p : run lim es empty_pool = Some p -> forallb running es = true -> both lim p.
Proof. intros Hrun Hes. eapply run_keeps; [apply empty_ok|done|done]. Qed.

Lemma kinds_of_callers x :
  (is_rechecker x = true -> is_holder x = false) /\ (is_rechecker x = true -> is_opener x = false) /\ (is_holder x = true -> is_opener x = false).
Proof. unfold is_rechecker, is_holder, is_opener. by destruct x as [? []]. Qed.

Lemma counted_within lim p : both lim p -> (counted p <= Nat.max (maxProjects lim) (maxConcurrent lim))%nat.
Proof.
  intros Hp. pose proof (pool_bound lim p Hp) as [?|Hb]; [lia|]. destruct Hp as [[] _].
  pose proof (count_disjoint is_rechecker is_holder is_opener (callers p)
    (fun x => proj1 (kinds_of_callers x)) (fun x => proj1 (proj2 (kinds_of_callers x))) (fun x => proj2 (proj2 (kinds_of_callers x)))). lia.
Qed.

Lemma alive_quiescent lim p : both lim p -> callers p = ∅ -> alive p = (length (lru p) + length (janitor p))%nat.
Proof.
  intros [[] _] Hc. unfold alive.
  assert (Hown : owners p = map snd (map_to_list (sandboxes p)) ++ janitor p) by (unfold owners; by rewrite Hc).
  assert (Hl : length (lru p) = length (map snd (map_to_list (sandboxes p)))).
  { rewrite length_map, <- (length_map fst). apply Permutation_length, NoDup_Permutation; [done|exact (NoDup_fst_map_to_list _)|].
    intros id. rewrite ok_table0, list_elem_of_fmap. split.
    - intros [c Hid]. exists (id, c). split; [done|]. by apply elem_of_map_to_list.
    - intros ([id' c] & -> & Hin%elem_of_map_to_list). by eexists. }
  rewrite Hl, <- length_app, <- Hown, <- length_map_to_list, <- (length_map fst). rewrite app_nil_r in *.
  apply Permutation_length, NoDup_Permutation; [exact (NoDup_fst_map_to_list _)|done|]. intros c. rewrite ok_live0, list_elem_of_fmap. split.
  - intros ([c' s] & -> & Hin%elem_of_map_to_list%map_lookup_filter_Some). destruct Hin as [Hs Hcl]. cbn in Hcl. exists s. split_and!; [done|done|].
    destruct (sb_dropped s) eqn:Hd; [|done]. destruct (ok_dropped0 c' s Hs Hd Hcl) as (q & x & Hx & _). by rewrite Hc in Hx.
  - intros (s & Hs & Hcl & _). exists (c, s). split; [done|]. apply elem_of_map_to_list, map_lookup_filter_Some. done.
Qed.

(** C15: In every order of admissions, lookups, spawns, copies, answers, releases, evictions
    and reaps, the children of the table and the openings together never exceed the larger of
    the two configured bounds, and no more callers are inside than there are slots; when the
    last caller has left, the table is within its own bound and the processes alive are those
    of the table and those the janitor is closing. *)
Theorem pool_stays_within lim es p :
  run lim es empty_pool = Some p -> forallb running es = true ->
  (counted p <= Nat.max (maxProjects lim) (maxConcurrent lim))%nat /\ (size (callers p) <= maxConcurrent lim)%nat /\
  (callers p = ∅ -> (counted p <= maxProjects lim)%nat /\ alive p = (length (lru p) + length (janitor p))%nat).
Proof.
  intros Hrun Hes. pose proof (reached _ _ _ Hrun Hes) as Hp. split_and!; [by apply counted_within|by destruct Hp as [[] _]|].
  intros Hc. split; [|by apply (alive_quiescent lim)]. destruct (pool_bound lim p Hp) as [?|Hb]; [done|]. rewrite Hc in Hb.
  change (counted p <= 0)%nat in Hb. lia.
Qed.

(** C14: A caller that holds a child holds its own project's, counted among the child's
    references; the child is not killed under it by an eviction, by the janitor or by a
    replacement: it is closed only after a caller found it broken and gave it up, and until
    then it is the child the table has for the project. *)
Theorem leased_child_is_kept lim es p q x c :
  run lim es empty_pool = Some p -> forallb running es = true -> callers p !! q = Some x -> held (q_phase x) = Some c ->
  exists s, children p !! c = Some s /\ sb_projectID s = q_project x /\ 0 < sb_refs s /\
    sb_refs s = Z.of_nat (count (holds c) (callers p)) /\
    (sb_closed s = true -> sb_dropped s = true) /\ (sb_dropped s = false -> sandboxes p !! q_project x = Some c).
Proof.
  intros Hrun Hes Hx Hc. pose proof (reached _ _ _ Hrun Hes) as [Hok _]. pose proof Hok as [].
  destruct (ok_callers0 _ _ Hx) as [Hheld _ _ _ _]. destruct (Hheld c Hc) as (s & Hs & Hp & Hr). exists s.
  split_and!; [done|done| |by apply ok_refs0| |].
  - rewrite (ok_refs0 c s Hs), (count_split _ _ q x Hx), holds_b2n, Hc, decide_True by done. lia.
  - intros Hcl. destruct Hr as [?|Hr]; [done|]. apply table_owned in Hr.
    assert (Hlive : live p c) by (apply ok_live0, elem_of_app; by left). destruct Hlive as (s' & Hs' & ? & _). congruence.
  - intros Hd. destruct Hr; congruence.
Qed.

(** The actions a caller makes itself, short of giving up. *)
Definition acts (q : nat) (e : event) : bool :=
  match e with
  | Lookup q' _ | Wake q' | CloseVictim q' | Spawn q' _ _ _ | CopyRows q' _ | Register q' | Answer q' _ | CloseDropped q' | Release q' _ | Recheck q' => (q' =? q)%nat
  | _ => false
  end.

Lemma busy_goes_on lim p q x :
  callers p !! q = Some x -> waits (q_phase x) = None -> exists e, acts q e = true /\ is_Some (step lim e p).
Proof.
  destruct x as [id ph]. intros E Hw. pose (t := fresh (dom (tickets p))). pose (c := fresh (dom (children p))).
  assert (Ht : tickets p !! t = None) by (apply not_elem_of_dom, is_fresh).
  assert (Hc : children p !! c = None) by (apply not_elem_of_dom, is_fresh).
  exists (match ph with
    | AtPool => Lookup q t | Waiting _ => Wake q | Evicting _ [] => Spawn q c 0 true | Evicting _ _ => CloseVictim q
    | Copying _ _ => CopyRows q true | Opened _ _ => Register q | Leased _ => Answer q false | Dropping _ => CloseDropped q
    | Releasing _ => Release q 0 | Rechecking => Recheck q | ClosingVictims _ => CloseVictim q end).
  destruct ph as [|t'|t' [|v vs]|t' c'|t' o|c'|c'|c'| |[|v vs]]; try done; (split; [apply Nat.eqb_refl|]); cbn [step]; rewrite E; try by eexists.
  - unfold sandboxFor_turn. destruct (sandboxes p !! id); [by eexists|]. destruct (opening p !! id); [by eexists|]. rewrite Ht. cbn [is_some].
    destruct (evict_ends lim (with_opening (<[id:=t]> (opening p)) (<[t:=None]> (tickets p)) p)) as [[p1 vs] ->]. by eexists.
  - rewrite Hc. by eexists.
  - cbv zeta. destruct (_ =? 0); by eexists.
  - destruct (evict_ends lim p) as [[p1 vs] ->]. by eexists.
Qed.

(** C16: Nobody waits for nothing, and the openings of a project are one at a time.  In every
    reachable pool a caller that is not waiting for another's opening can go on by itself; one
    that waits either finds the opening ended, or the opening has exactly one opener, no child
    is registered for the project being opened, and that opener can go on. *)
Theorem nobody_waits_for_nothing lim es p q x :
  run lim es empty_pool = Some p -> forallb running es = true -> callers p !! q = Some x ->
  (exists e, acts q e = true /\ is_Some (step lim e p)) \/
  (exists t id q' x', waits (q_phase x) = Some t /\ opening p !! id = Some t /\ sandboxes p !! id = None /\
    callers p !! q' = Some x' /\ opens (q_phase x') = Some t /\ q_project x' = id /\
    (forall q2 x2, callers p !! q2 = Some x2 -> opens (q_phase x2) = Some t -> q2 = q') /\
    exists e, acts q' e = true /\ is_Some (step lim e p)).
Proof.
  intros Hrun Hes E. pose proof (reached _ _ _ Hrun Hes) as [Hok _]. pose proof Hok as [].
  destruct (waits (q_phase x)) as [t|] eqn:Hw; [|left; by apply (busy_goes_on lim p q x)].
  destruct (ok_callers0 _ _ E) as [_ _ _ _ Hwait]. destruct (Hwait t Hw) as [[b|] Hb].
  - left. exists (Wake q). split; [apply Nat.eqb_refl|]. cbn [step]. rewrite E. destruct x as [id ph]. destruct ph; try done.
    cbn in Hw. injection Hw as ->. rewrite Hb. destruct b; by eexists.
  - right. destruct (ok_ticket0 t Hb) as (id & Hid). destruct (ok_opening0 id t Hid) as (Hn & q' & x' & Hx' & Ho & Hp).
    exists t, id, q', x'. split_and!; try done.
    + intros q2 x2 H2 Ho2. by apply (ok_one0 q2 x2 q' x' t).
    + apply (busy_goes_on lim p q' x'); [done|]. by destruct x' as [? []].
Qed.

(** ** Witnesses *)

(** A caller [q] that opens a child for a project, is answered and leaves. *)
Definition w_open (q t c : nat) (id : string) (now : Z) : list event := [Admit q id; Lookup q t; Spawn q c now true; CopyRows q true; Register q].
Definition w_done (q : nat) (now : Z) : list event := [Answer q false; Release q now; Recheck q; CloseVictim q].

(** A burst over three projects in two slots, then nobody. *)
Definition w_burst : list event :=
  w_open 0 0 10 "a" 0 ++ w_open 1 1 11 "b" 0 ++ w_done 0 1 ++ [Admit 2 "c"; Lookup 2 2; CloseVictim 2; Spawn 2 12 2 true; CopyRows 2 true; Register 2] ++ w_done 1 3 ++ w_done 2 4.

Lemma pool_stays_within_witness :
  match run defaultSandboxLimits w_burst empty_pool with
  | Some p => lru p = ["c"; "b"] /\ (counted p <= 2)%nat /\ alive p = 2%nat
  | None => False
  end.
Proof.
  assert (Hr : is_Some (run defaultSandboxLimits w_burst empty_pool)) by (vm_compute; by eexists).
  destruct (run defaultSandboxLimits w_burst empty_pool) as [p|] eqn:E; [|destruct Hr; discriminate].
  destruct (pool_stays_within defaultSandboxLimits w_burst p E eq_refl) as (_ & _ & Hq).
  revert Hq. vm_compute in E. injection E as <-. intros Hq. destruct (Hq eq_refl) as [Hc Ha]. split_and!; [reflexivity|exact Hc|exact Ha].
Defined.

(** The second caller holds a child that the first one gave up. *)
Definition w_broken : list event := w_open 0 0 10 "a" 0 ++ [Admit 1 "a"; Lookup 1 1; Answer 0 true; CloseDropped 0].

Lemma leased_child_is_kept_witness :
  match run defaultSandboxLimits w_broken empty_pool with
  | Some p => exists s, children p !! 10%nat = Some s /\ sb_projectID s = "a" /\ sb_refs s = 2 /\ sb_closed s = true /\ sb_dropped s = true
  | None => False
  end.
Proof.
  assert (Hr : is_Some (run defaultSandboxLimits w_broken empty_pool)) by (vm_compute; by eexists).
  destruct (run defaultSandboxLimits w_broken empty_pool) as [p|] eqn:E; [|destruct Hr; discriminate].
  assert (Hx : callers p !! 1%nat = Some {| q_project := "a"; q_phase := Leased 10 |}) by (vm_compute in E; injection E as <-; reflexivity).
  destruct (leased_child_is_kept defaultSandboxLimits w_broken p 1 _ 10 E eq_refl Hx eq_refl) as (s & Hs & Hp & _ & Hn & Hd & _).
  exists s. assert (Hcl : sb_closed s = true) by (vm_compute in E; injection E as <-; vm_compute in Hs; by injection Hs as <-).
  split_and!; [exact Hs|exact Hp| |exact Hcl|exact (Hd Hcl)]. rewrite Hn. vm_compute in E. injection E as <-. reflexivity.
Defined.

(** A second caller of the project waits for the first one's opening. *)
Definition w_wait : list event := [Admit 0 "a"; Lookup 0 0; Admit 1 "a"; Lookup 1 1].

Lemma nobody_waits_for_nothing_witness :
  match run defaultSandboxLimits w_wait empty_pool with
  | Some p => callers p !! 1%nat = Some {| q_project := "a"; q_phase := Waiting 0 |} /\
      exists e, acts 0 e = true /\ is_Some (step defaultSandboxLimits e p)
  | None => False
  end.
Proof.
  assert (Hr : is_Some (run defaultSandboxLimits w_wait empty_pool)) by (vm_compute; by eexists).
  destruct (run defaultSandboxLimits w_wait empty_pool) as [p|] eqn:E; [|destruct Hr; discriminate].
  assert (Hx : callers p !! 1%nat = Some {| q_project := "a"; q_phase := Waiting 0 |}) by (vm_compute in E; injection E as <-; reflexivity).
  assert (H0 : callers p !! 0%nat = Some {| q_project := "a"; q_phase := Evicting 0 [] |}) by (vm_compute in E; injection E as <-; reflexivity).
  split; [exact Hx|].
  destruct (nobody_waits_for_nothing defaultSandboxLimits w_wait p 1 _ E eq_refl Hx) as [(e & He & Hs)|(t & id & q' & x' & Ht & _ & _ & _ & Ho & _ & Hone & He)].
  - exfalso. destruct e; try discriminate; cbn in He; apply Nat.eqb_eq in He; subst; vm_compute in E; injection E as <-;
      vm_compute in Hs; by destruct Hs.
  - cbn in Ht. injection Ht as <-. rewrite (Hone 0%nat _ H0 eq_refl). exact He.
Defined.

(** ** What the bound does not count *)

(** Children the janitor has taken are alive until it has killed them, and are neither in the
    table nor openings: two new children start beside the two old ones. *)
Example the_janitors_children_are_not_counted :
  match run defaultSandboxLimits
    (w_open 0 0 10 "a" 0 ++ w_done 0 0 ++ w_open 1 1 11 "b" 0 ++ w_done 1 0 ++ [Reap 300000000000] ++
     w_open 2 2 12 "c" 300000000000 ++ w_open 3 3 13 "d" 300000000000) empty_pool with
  | Some p => counted p = 2%nat /\ alive p = 4%nat
  | None => False
  end.
Proof. vm_compute. by split. Qed.

(** An opening that is in flight at the shutdown registers its child afterwards, when nobody
    closes children any more. *)
Example an_opening_outlives_the_shutdown :
  match run defaultSandboxLimits
    ([Admit 0 "a"; Lookup 0 0; Spawn 0 10 0 true; CloseAll; CopyRows 0 true; Register 0] ++ w_done 0 1) empty_pool with
  | Some p => callers p = ∅ /\ shutting p = [] /\ lru p = ["a"] /\ alive p = 1%nat
  | None => False
  end.
Proof. vm_compute. by split_and!. Qed.
