(* ===== verification/SandboxCopy.v ===== *)
(** * SandboxCopy: the incremental copy of a project's rows into its sandbox child

    refreshEvents, refreshExternalRows, refreshTable and copyRows of
    internal/dataplane/store/duckdb_sandbox.go with the cursor, delete and insert
    operations of the child (duckdb_sandbox_worker.go): which rows are selected, how they
    are cut into frames, and that a refresh that succeeds leaves the child with exactly
    the rows of the snapshot, whatever was landed and deleted since the last one. *)

From stdpp Require Import sorting.
From S2P Require Import Prelude.
Open Scope string_scope.
Open Scope list_scope.
Open Scope Z_scope.

(** ** Orders of keys *)

(** The lexicographic order of pairs, as the SQL predicates spell it out. *)
Definition lex {A B} (R : relation A) (S : relation B) (x y : A * B) : Prop := R x.1 y.1 /\ (x.1 = y.1 -> S x.2 y.2).

#[export] Instance lex_dec {A B} (R : relation A) (S : relation B) `{!EqDecision A, !RelDecision R, !RelDecision S} : RelDecision (lex R S).
Proof. intros x y. unfold lex. apply _. Defined.

#[export] Instance lex_po {A B} (R : relation A) (S : relation B) `{!PartialOrder R, !PartialOrder S} : PartialOrder (lex R S).
Proof.
  split; [split|].
  - intros x. by split.
  - intros x y z [H1 H2] [H3 H4]. split; [by etrans|]. intros Hxz.
    assert (Hxy : x.1 = y.1) by (apply (anti_symm R); [done|]; by rewrite Hxz).
    etrans; [by apply H2|]. apply H4. by rewrite <- Hxy.
  - intros [x1 x2] [y1 y2] [H1 H2] [H3 H4]. cbn in *. assert (x1 = y1) as -> by by apply (anti_symm R).
    f_equal. apply (anti_symm S); auto.
Qed.

#[export] Instance lex_total {A B} (R : relation A) (S : relation B) `{!EqDecision A, !PartialOrder R, !Total R, !Total S} : Total (lex R S).
Proof.
  intros [x1 x2] [y1 y2]. unfold lex. cbn. destruct (decide (x1 = y1)) as [->|Hne].
  - destruct (total S x2 y2); [left|right]; (split; [reflexivity|done]).
  - destruct (total R x1 y1); [left|right]; split; auto; congruence.
Qed.

(** ** Rows *)

(** A scanned value: only the size of its text counts. *)
Inductive cell :=
| CText (s : string)
| CBytes (s : string)
| CList (items : list cell)
| CMap (entries : list (string * cell))
| COther.

Definition slen (s : string) : Z := Z.of_nat (String.length s).

Fixpoint frameValueBytes (v : cell) : Z :=
  match v with
  | CText s | CBytes s => slen s
  | CList items => foldr (fun item total => total + frameValueBytes item) 0 items
  | CMap entries => foldr (fun kv total => total + (slen kv.1 + frameValueBytes kv.2)) 0 entries
  | COther => 16
  end.

Record copied (K : Type) := { c_key : K; c_at : Z; c_cells : list cell }.
Arguments c_key {K}. Arguments c_at {K}. Arguments c_cells {K}.
Arguments Build_copied {K}.

Definition row_bytes {K} (r : copied K) : Z := foldr (fun v size => size + frameValueBytes v) 0 (c_cells r).

Definition sandboxCopyBatch : nat := 2048.
Definition sandboxInsertBatchBytes : Z := 4194304.
Definition sandboxMaxRowBytes : Z := 16777216.
Definition sandboxFrameMaxBytes : Z := 67108864.

(** ** copyRows *)

Section CopyRows.
Context {K S : Type} (call : list (copied K) -> S -> option S).

Definition flush (batch : list (copied K)) (s : S) : option S :=
  match batch with [] => Some s | _ => call batch s end.

(** The loop over the scanned rows, with the batch built so far and its bytes. *)
Fixpoint copy_loop (rows batch : list (copied K)) (batchBytes : Z) (s : S) : option S :=
  match rows with
  | [] => flush batch s
  | r :: rows =>
      let size := row_bytes r in
      if sandboxMaxRowBytes <? size then None
      else
        let early := (0 <? batchBytes) && (sandboxFrameMaxBytes - sandboxMaxRowBytes <? batchBytes + size) in
        match (if early then flush batch s else Some s) with
        | None => None
        | Some s =>
            let batch := (if early then [] else batch) ++ [r] in
            let batchBytes := (if early then 0 else batchBytes) + size in
            if (length batch =? sandboxCopyBatch)%nat || (sandboxInsertBatchBytes <=? batchBytes)
            then match flush batch s with Some s => copy_loop rows [] 0 s | None => None end
            else copy_loop rows batch batchBytes s
        end
  end.

Definition copyRows (rows : list (copied K)) (s : S) : option S := copy_loop rows [] 0 s.
End CopyRows.

(** The frames that are sent. *)
Definition frames {K} (rows : list (copied K)) : option (list (list (copied K))) :=
  copyRows (fun batch sent => Some (sent ++ [batch])) rows [].

(** ** The child's tables *)

Section Tables.
Context {K : Type} `{Countable K} (le : relation K) `{!RelDecision le, !PartialOrder le, !Total le}.

Definition rows_of (m : gmap K (copied K)) : list (copied K) := map snd (map_to_list m).

(** A multi-row INSERT fails as a whole on a key that is there. *)
Definition insert_row (r : copied K) (m : gmap K (copied K)) : option (gmap K (copied K)) :=
  match m !! c_key r with Some _ => None | None => Some (<[c_key r := r]> m) end.

Fixpoint insertRows (replace : bool) (rows : list (copied K)) (m : gmap K (copied K)) : option (gmap K (copied K)) :=
  match rows with
  | [] => Some m
  | r :: rows =>
      match (if replace then Some (<[c_key r := r]> m) else insert_row r m) with
      | Some m => insertRows replace rows m
      | None => None
      end
  end.

(** Later than the cursor. *)
Definition above (cursor : Z * K) (r : copied K) : bool :=
  (cursor.1 <? c_at r) || ((c_at r =? cursor.1) && bool_decide (~ le (c_key r) cursor.2)).

Definition stamp_le : relation (copied K) := fun r s => lex (≤) le (c_at r, c_key r) (c_at s, c_key s).

#[global] Instance stamp_le_dec : RelDecision stamp_le := fun r s => lex_dec (≤) le (c_at r, c_key r) (c_at s, c_key s).

Definition select (cursor : Z * K) (m : gmap K (copied K)) : list (copied K) := merge_sort stamp_le (List.filter (above cursor) (rows_of m)).

(** The count of the rows at or below the cursor. *)
Definition count_upto (cursor : Z * K) (m : gmap K (copied K)) : nat := length (List.filter (fun r => negb (above cursor r)) (rows_of m)).

Definition refreshTable (main : gmap K (copied K)) (replaceExisting : bool) (child : gmap K (copied K)) : option (gmap K (copied K)) :=
  copyRows (insertRows replaceExisting) (rows_of main) ∅.
End Tables.

(** ** The events table *)

Definition zero_time : Z := -62135596800000000.

Definition max_of {A} (le : relation A) `{!RelDecision le} (a : A) (l : list A) : A := foldr (fun x m => if decide (le x m) then m else x) a l.

(** The greatest insertion time, and the greatest id at that time. *)
Definition eventsCursor (child : gmap string (copied string)) : Z * string :=
  let watermark := match map c_at (rows_of child) with [] => 0 | a :: l => max_of (≤) a l end in
  (watermark, max_of String.le "" (map c_key (List.filter (fun r => c_at r =? watermark) (rows_of child)))).

Definition refreshEvents (main child : gmap string (copied string)) : option (gmap string (copied string)) :=
  let cursor := eventsCursor child in
  match copyRows (insertRows false) (select String.le cursor main) child with
  | None => None
  | Some child =>
      let after := eventsCursor child in
      if Z.of_nat (count_upto String.le after main) <? Z.of_nat (size child)
      then copyRows (insertRows false) (select String.le (zero_time, "") main) ∅
      else Some child
  end.

(** ** The landing table *)

Definition ext_key : Type := string * (string * string).
Definition ext_le : relation ext_key := lex String.le (lex String.le String.le).
#[export] Instance ext_le_dec : RelDecision ext_le.
Proof. intros x y. unfold ext_le. apply _. Defined.
#[export] Instance ext_le_po : PartialOrder ext_le := lex_po _ _.
#[export] Instance ext_le_total : Total ext_le := lex_total _ _.

(** The greatest tuple, or the zero tuple. *)
Definition externalRowsCursor (child : gmap ext_key (copied ext_key)) : Z * ext_key :=
  match rows_of child with
  | [] => (zero_time, ("", ("", "")))
  | r :: rows => let top := max_of (stamp_le ext_le) r rows in (c_at top, c_key top)
  end.

Definition refreshExternalRows (main child : gmap ext_key (copied ext_key)) : option (gmap ext_key (copied ext_key)) :=
  let cursor := externalRowsCursor child in
  if (size main <? size child)%nat then refreshTable main true child
  else
    match copyRows (insertRows true) (select ext_le cursor main) child with
    | None => None
    | Some after => if (size after =? size main)%nat then Some after else refreshTable main true after
    end.

(** ** Frames *)

Definition rows_bytes {K} (rows : list (copied K)) : Z := foldr (fun r n => n + row_bytes r) 0 rows.

Definition fits {K} (r : copied K) : bool := row_bytes r <=? sandboxMaxRowBytes.

(** What the child will read: a frame holds at least a row and at most a batch of them, and
    is below the two byte limits together. *)
Definition frame_ok {K} (frame : list (copied K)) : Prop :=
  (0 < length frame <= sandboxCopyBatch)%nat /\ rows_bytes frame < sandboxInsertBatchBytes + sandboxMaxRowBytes.

Fixpoint send_all {K S} (call : list (copied K) -> S -> option S) (fs : list (list (copied K))) (s : S) : option S :=
  match fs with [] => Some s | f :: fs => match call f s with Some s => send_all call fs s | None => None end end.

Lemma rows_bytes_snoc {K} (rows : list (copied K)) r : rows_bytes (rows ++ [r]) = rows_bytes rows + row_bytes r.
Proof. unfold rows_bytes. induction rows as [|x rows IH]; cbn in *; lia. Qed.

Lemma not_early bytes size : bytes < sandboxInsertBatchBytes -> size <= sandboxMaxRowBytes ->
  (sandboxFrameMaxBytes - sandboxMaxRowBytes <? bytes + size) = false.
Proof. unfold sandboxInsertBatchBytes, sandboxMaxRowBytes, sandboxFrameMaxBytes. intros. apply Z.ltb_ge. lia. Qed.

(** The loop sends frames that depend on the rows alone. *)
Lemma copy_loop_frames {K} (rows batch : list (copied K)) :
  (length batch < sandboxCopyBatch)%nat -> rows_bytes batch < sandboxInsertBatchBytes -> forallb fits rows = true ->
  exists fs, concat fs = batch ++ rows /\ Forall frame_ok fs /\
    forall S (call : list (copied K) -> S -> option S) s, copy_loop call rows batch (rows_bytes batch) s = send_all call fs s.
Proof.
  revert batch. induction rows as [|r rows IH]; intros batch Hn Hb Hf.
  - exists (match batch with [] => [] | _ => [batch] end). destruct batch as [|b batch]; [done|].
    split; [cbn; by rewrite app_nil_r|]. split; [|intros S call s; cbn; by destruct (call _ s)].
    apply Forall_singleton. split; [cbn [length] in *; lia|]. unfold sandboxMaxRowBytes. lia.
  - cbn in Hf. apply andb_true_iff in Hf as [Hr Hf]. apply Z.leb_le in Hr.
    assert (Hlen1 : length (batch ++ [r]) = S (length batch)) by (rewrite length_app; apply Nat.add_1_r).
    assert (Hstep : forall S (call : list (copied K) -> S -> option S) s, copy_loop call (r :: rows) batch (rows_bytes batch) s =
      if (length (batch ++ [r]) =? sandboxCopyBatch)%nat || (sandboxInsertBatchBytes <=? rows_bytes (batch ++ [r]))
      then match call (batch ++ [r]) s with Some s => copy_loop call rows [] 0 s | None => None end
      else copy_loop call rows (batch ++ [r]) (rows_bytes (batch ++ [r])) s).
    { intros S call s. cbn [copy_loop]. rewrite (proj2 (Z.ltb_ge _ _) Hr), not_early, andb_false_r, rows_bytes_snoc by done.
      by destruct batch. }
    destruct ((length (batch ++ [r]) =? sandboxCopyBatch)%nat || (sandboxInsertBatchBytes <=? rows_bytes (batch ++ [r]))) eqn:Hfull.
    + destruct (IH []) as (fs & Hc & Hok & Hsend); [by apply Nat.ltb_lt|done|done|]. exists ((batch ++ [r]) :: fs). split_and!.
      * cbn. rewrite Hc. by rewrite <- app_assoc.
      * constructor; [|done]. split; [lia|]. rewrite rows_bytes_snoc. lia.
      * intros S call s. rewrite Hstep. cbn. destruct (call (batch ++ [r]) s); [apply Hsend|done].
    + apply orb_false_iff in Hfull as [Hlen Hbytes]. apply Nat.eqb_neq in Hlen. apply Z.leb_gt in Hbytes.
      destruct (IH (batch ++ [r])) as (fs & Hc & Hok & Hsend); [lia|done|done|].
      exists fs. split_and!; [by rewrite Hc, <- app_assoc|done|]. intros S call s. rewrite Hstep. apply Hsend.
Qed.

Lemma forallb_first {A} (f : A -> bool) l : forallb f l = false -> exists x, x ∈ l /\ f x = false.
Proof.
  induction l as [|x l IH]; cbn; [done|]. destruct (f x) eqn:Hx; cbn; intros H.
  - destruct (IH H) as (y & Hy & Hf). exists y. split; [by right|done].
  - exists x. split; [by left|done].
Qed.

(** A row that no frame carries ends the copy. *)
Lemma copy_loop_big {K S} (call : list (copied K) -> S -> option S) rows batch bytes s :
  forallb fits rows = false -> copy_loop call rows batch bytes s = None.
Proof.
  revert batch bytes s. induction rows as [|r rows IH]; intros batch bytes s Hf; [done|]. cbn in Hf. cbn [copy_loop]. cbv zeta.
  destruct (fits r) eqn:Hr.
  - apply Z.leb_le in Hr. rewrite (proj2 (Z.ltb_ge _ _) Hr). destruct (if (_ : bool) then flush call batch s else Some s); [|done].
    destruct (_ || _); [|by apply IH]. destruct (flush _ _ _); [by apply IH|done].
  - apply Z.leb_gt in Hr. by rewrite (proj2 (Z.ltb_lt _ _) Hr).
Qed.

Lemma send_all_log {K} (fs sent : list (list (copied K))) : send_all (fun b (l : list (list (copied K))) => Some (l ++ [b])) fs sent = Some (sent ++ fs).
Proof. revert sent. induction fs as [|f fs IH]; intros sent; cbn; [by rewrite app_nil_r|]. rewrite IH. by rewrite <- app_assoc. Qed.

(** Either some row is above the row limit and the copy fails, or what is sent is the
    scanned rows, in order, none lost and none twice, in frames of one to 2,048 rows whose
    bytes stay below the batch and the row limit together, a third of what the child reads. *)
Theorem copyRows_frames {K} (rows : list (copied K)) :
  match frames rows with
  | Some fs => concat fs = rows /\ Forall frame_ok fs /\ Forall (fun f => 3 * rows_bytes f < sandboxFrameMaxBytes) fs /\ forallb fits rows = true
  | None => exists r, r ∈ rows /\ sandboxMaxRowBytes < row_bytes r
  end.
Proof.
  unfold frames, copyRows. destruct (forallb fits rows) eqn:Hf.
  - destruct (copy_loop_frames rows []) as (fs & Hc & Hok & Hsend); [by apply Nat.ltb_lt|done|done|].
    pose proof (Hsend _ (fun b sent => Some (sent ++ [b])) []) as Hs. change (rows_bytes []) with 0 in Hs. rewrite Hs, send_all_log.
    split_and!; [done|done| |done].
    eapply Forall_impl; [exact Hok|]. intros f [_ Hb]. unfold sandboxFrameMaxBytes, sandboxInsertBatchBytes, sandboxMaxRowBytes in *. lia.
  - rewrite copy_loop_big by done. apply forallb_first in Hf as (r & Hin & Hr).
    exists r. split; [done|]. by apply Z.leb_gt.
Qed.

(** ** The copy into a table *)

Section Copy.
Context {K : Type} `{Countable K} (le : relation K) `{!RelDecision le, !PartialOrder le, !Total le}.

Lemma insertRows_app replace (a b : list (copied K)) m :
  insertRows replace (a ++ b) m = match insertRows replace a m with Some m => insertRows replace b m | None => None end.
Proof. revert m. induction a as [|r a IH]; intros m; cbn; [done|]. destruct (if replace then _ else _); [apply IH|done]. Qed.

Lemma send_all_insert replace (fs : list (list (copied K))) m : send_all (insertRows replace) fs m = insertRows replace (concat fs) m.
Proof.
  revert m. induction fs as [|f fs IH]; intros m; cbn; [done|]. rewrite insertRows_app. destruct (insertRows replace f m); [apply IH|done].
Qed.

Lemma copyRows_insert replace (rows : list (copied K)) m :
  copyRows (insertRows replace) rows m = if forallb fits rows then insertRows replace rows m else None.
Proof.
  unfold copyRows. destruct (forallb fits rows) eqn:Hf; [|by apply copy_loop_big].
  destruct (copy_loop_frames rows []) as (fs & Hc & _ & Hsend); [by apply Nat.ltb_lt|done|done|].
  pose proof (Hsend _ (insertRows replace) m) as Hs. change (rows_bytes []) with 0 in Hs. rewrite Hs, send_all_insert. by rewrite Hc.
Qed.

(** Rows with different keys. *)
Lemma insertRows_true (rows : list (copied K)) m :
  NoDup (map c_key rows) -> exists m', insertRows true rows m = Some m' /\
    (forall r, r ∈ rows -> m' !! c_key r = Some r) /\ (forall k, k ∉ map c_key rows -> m' !! k = m !! k).
Proof.
  revert m. induction rows as [|r rows IH]; intros m Hnd; cbn.
  - exists m. split_and!; [done|by intros ? ?%not_elem_of_nil|done].
  - apply NoDup_cons in Hnd as [Hr Hnd]. destruct (IH (<[c_key r := r]> m) Hnd) as (m' & Hm' & Hin & Hout). exists m'. split_and!; [done| |].
    + intros x [->|Hx]%elem_of_cons; [|by apply Hin]. rewrite Hout by done. apply lookup_insert_eq.
    + intros k [Hk1 Hk2]%not_elem_of_cons. rewrite Hout by done. by apply lookup_insert_ne.
Qed.

Lemma insertRows_false (rows : list (copied K)) m :
  NoDup (map c_key rows) ->
  (insertRows false rows m = insertRows true rows m /\ forall r, r ∈ rows -> m !! c_key r = None) \/
  (insertRows false rows m = None /\ exists r, r ∈ rows /\ m !! c_key r <> None).
Proof.
  revert m. induction rows as [|r rows IH]; intros m Hnd; cbn; [left; split; [done|by intros ? ?%not_elem_of_nil]|].
  apply NoDup_cons in Hnd as [Hr Hnd]. unfold insert_row. destruct (m !! c_key r) eqn:Hm.
  - right. split; [done|]. exists r. split; [by left|congruence].
  - assert (Hne : forall x, x ∈ rows -> <[c_key r := r]> m !! c_key x = m !! c_key x).
    { intros x Hx. apply lookup_insert_ne. intros E. apply Hr. rewrite E. apply list_elem_of_fmap. by exists x. }
    destruct (IH (<[c_key r := r]> m) Hnd) as [[Heq Hfree]|[Heq (x & Hx & Hd)]]; [left|right].
    + split; [done|]. intros x [->|Hx]%elem_of_cons; [done|]. rewrite <- Hne by done. by apply Hfree.
    + split; [done|]. exists x. split; [by right|]. by rewrite <- Hne.
Qed.

(** A table of rows under their own keys. *)
Definition keyed (m : gmap K (copied K)) : Prop := forall k r, m !! k = Some r -> c_key r = k.

Lemma elem_rows_of m r : keyed m -> r ∈ rows_of m <-> m !! c_key r = Some r.
Proof.
  intros Hk. unfold rows_of. rewrite list_elem_of_fmap. split.
  - intros ([k r'] & -> & Hin%elem_of_map_to_list). cbn. by rewrite (Hk _ _ Hin).
  - intros Hr. exists (c_key r, r). split; [done|]. by apply elem_of_map_to_list.
Qed.

Lemma NoDup_keys m : keyed m -> NoDup (map c_key (rows_of m)).
Proof.
  intros Hk. unfold rows_of. rewrite map_map.
  assert (Heq : map (fun kr : K * copied K => c_key kr.2) (map_to_list m) = map fst (map_to_list m)).
  { apply map_ext_in. intros [k r] Hin. apply list_elem_of_In, elem_of_map_to_list in Hin. cbn. by apply Hk. }
  rewrite Heq. exact (NoDup_fst_map_to_list m).
Qed.

Lemma NoDup_keys_filter (f : copied K -> bool) l : NoDup (map c_key l) -> NoDup (map c_key (List.filter f l)).
Proof.
  induction l as [|x l IH]; cbn; [done|]. intros [Hx Hl]%NoDup_cons. destruct (f x); cbn; [|by apply IH].
  apply NoDup_cons. split; [|by apply IH]. intros (y & Hxy & Hy)%list_elem_of_fmap. apply Hx. apply list_elem_of_fmap. exists y. split; [done|].
  apply list_elem_of_In, filter_In in Hy as [Hy _]. by apply list_elem_of_In.
Qed.

Lemma elem_select cursor m r : keyed m -> r ∈ select le cursor m <-> m !! c_key r = Some r /\ above le cursor r = true.
Proof.
  intros Hk. unfold select. rewrite merge_sort_Permutation. rewrite list_elem_of_In, filter_In, <- list_elem_of_In. by rewrite elem_rows_of.
Qed.

Lemma NoDup_select cursor m : keyed m -> NoDup (map c_key (select le cursor m)).
Proof.
  intros Hk. unfold select. rewrite merge_sort_Permutation. by apply NoDup_keys_filter, NoDup_keys.
Qed.

(** ** A child behind its project *)

(** Nothing that was landed up to [h] is missing in the child, and it holds nothing later. *)
Record behind (h : Z) (main child : gmap K (copied K)) : Prop := {
  bh_main : keyed main;
  bh_child : keyed child;
  bh_horizon : 0 <= h;
  bh_held k r : child !! k = Some r -> c_at r <= h;
  bh_seen k r : main !! k = Some r -> c_at r <= h -> child !! k = Some r;
  bh_time k r : main !! k = Some r -> 0 < c_at r;
}.

(** What a cursor promises. *)
Record cursor_ok (cursor : Z * K) (child : gmap K (copied K)) : Prop := {
  cu_top k r : child !! k = Some r -> above le cursor r = false;
  cu_low h : 0 <= h -> (forall k r, child !! k = Some r -> c_at r <= h) -> cursor.1 <= h;
}.

Lemma above_false cursor r : above le cursor r = false -> c_at r <= cursor.1.
Proof. unfold above. intros [Hz _]%orb_false_iff. by apply Z.ltb_ge. Qed.

Lemma above_time cursor r : cursor.1 < c_at r -> above le cursor r = true.
Proof. unfold above. intros Hz. by rewrite (proj2 (Z.ltb_lt _ _) Hz). Qed.

(** After the rows above the cursor have been copied nothing is missing. *)
Lemma copied_covers h main child cursor :
  behind h main child -> cursor_ok cursor child -> exists child', insertRows true (select le cursor main) child = Some child' /\ main ⊆ child' /\ keyed child'.
Proof.
  intros [] []. destruct (insertRows_true (select le cursor main) child (NoDup_select cursor main bh_main0)) as (child' & Hc & Hin & Hout).
  exists child'. split_and!; [done| |].
  - apply map_subseteq_spec. intros k r Hr. pose proof (bh_main0 _ _ Hr) as <-. destruct (above le cursor r) eqn:Ha.
    + apply Hin. by apply elem_select.
    + rewrite Hout.
      * apply bh_seen0; [done|]. etrans; [by apply above_false|]. by apply cu_low0.
      * intros (r' & Hk & Hr')%list_elem_of_fmap. apply elem_select in Hr' as [Hr' Ha']; [|done]. congruence.
  - intros k r Hr. destruct (decide (k ∈ map c_key (select le cursor main))) as [Hk|Hk].
    + apply list_elem_of_fmap in Hk as (r' & -> & Hr'). rewrite (Hin _ Hr') in Hr. congruence.
    + rewrite Hout in Hr by done. by apply bh_child0.
Qed.

(** A table copied whole. *)
Lemma copy_whole replace (main : gmap K (copied K)) rows :
  keyed main -> rows ≡ₚ rows_of main -> copyRows (insertRows replace) rows ∅ = if forallb fits rows then Some main else None.
Proof.
  intros Hk Hp. rewrite copyRows_insert. destruct (forallb fits rows); [|done].
  assert (Hnd : NoDup (map c_key rows)) by (rewrite Hp; by apply NoDup_keys).
  destruct (insertRows_true rows ∅ Hnd) as (m' & Hm' & Hin & Hout).
  assert (Heq : m' = main).
  { apply map_eq. intros k. destruct (main !! k) as [r|] eqn:Hr.
    - pose proof (Hk _ _ Hr) as <-. apply Hin. rewrite Hp. by apply elem_rows_of.
    - rewrite Hout; [done|]. intros (r & -> & Hin')%list_elem_of_fmap. rewrite Hp in Hin'. apply elem_rows_of in Hin'; [congruence|done]. }
  destruct replace; [by rewrite Hm', Heq|]. destruct (insertRows_false rows ∅ Hnd) as [[-> _]|[_ (r & _ & Hd)]]; [by rewrite Hm', Heq|].
  by rewrite lookup_empty in Hd.
Qed.

Lemma big_row (main : gmap K (copied K)) rows : keyed main -> (forall r, r ∈ rows -> r ∈ rows_of main) -> forallb fits rows = false ->
  exists k r, main !! k = Some r /\ fits r = false.
Proof. intros Hk Hsub (r & Hin & Hf)%forallb_first. exists (c_key r), r. split; [|done]. apply elem_rows_of; auto. Qed.

Lemma covered_equal (main child : gmap K (copied K)) : main ⊆ child -> (size child <= size main)%nat -> child = main.
Proof. intros Hsub Hle. symmetry. by apply map_subseteq_size_eq. Qed.

Lemma count_upto_all cursor main child : main ⊆ child -> cursor_ok cursor child -> keyed main -> count_upto le cursor main = size main.
Proof.
  intros Hsub [] Hk. unfold count_upto. rewrite <- length_map_to_list, <- (length_map snd). fold (rows_of main).
  f_equal. apply List.forallb_filter_id. apply forallb_forall. intros r Hin. apply list_elem_of_In, elem_rows_of in Hin; [|done].
  rewrite (cu_top0 (c_key r) r); [done|]. by eapply lookup_weaken.
Qed.
End Copy.

(** ** Cursors *)

Lemma max_of_ge {A} (le : relation A) `{!RelDecision le, !PreOrder le, !Total le} a l :
  le a (max_of le a l) /\ (forall x, x ∈ l -> le x (max_of le a l)) /\ (max_of le a l = a \/ max_of le a l ∈ l).
Proof.
  induction l as [|x l (H1 & H2 & H3)].
  { split_and!; [reflexivity|by intros ? ?%not_elem_of_nil|by left]. }
  change (max_of le a (x :: l)) with (if decide (le x (max_of le a l)) then max_of le a l else x).
  destruct (decide (le x (max_of le a l))) as [Hle|Hle].
  - split_and!; [done| |destruct H3; [by left|right; by right]]. intros y [->|Hy]%elem_of_cons; auto.
  - assert (Hge : le (max_of le a l) x) by (destruct (total le x (max_of le a l)); done). split_and!; [by etrans| |right; by left].
    intros y [->|Hy]%elem_of_cons; [reflexivity|]. etrans; [by apply H2|done].
Qed.

#[export] Instance stamp_le_preorder {K} (le : relation K) `{!PartialOrder le} : PreOrder (stamp_le le).
Proof. split; [intros r; unfold stamp_le; reflexivity|]. intros r s t. unfold stamp_le. apply transitivity. Qed.

#[export] Instance stamp_le_total {K} (le : relation K) `{!EqDecision K, !PartialOrder le, !Total le} : Total (stamp_le le).
Proof. intros r s. unfold stamp_le. apply (total (lex (≤) le)). Qed.

Lemma eventsCursor_ok child : keyed child -> cursor_ok String.le (eventsCursor child) child.
Proof.
  intros Hk. unfold eventsCursor.
  set (w := match map c_at (rows_of child) with [] => 0 | a :: l => max_of (≤) a l end).
  assert (Hw : (forall r, r ∈ rows_of child -> c_at r <= w) /\ (rows_of child = [] /\ w = 0 \/ exists r, r ∈ rows_of child /\ c_at r = w)).
  { unfold w. destruct (rows_of child) as [|x l]; cbn; [split; [by intros ? ?%not_elem_of_nil|by left]|].
    destruct (max_of_ge (≤) (c_at x) (map c_at l)) as (H1 & H2 & H3). split.
    - intros r [->|Hr]%elem_of_cons; [done|]. apply H2. apply list_elem_of_fmap. by exists r.
    - right. destruct H3 as [->|H3]; [exists x; split; [by left|done]|]. apply list_elem_of_fmap in H3 as (r & -> & Hr). exists r. split; [by right|done]. }
  destruct Hw as [Hmax Hreach]. split.
  - intros k r Hr. pose proof (Hk _ _ Hr) as <-. apply elem_rows_of in Hr; [|done]. unfold above. cbn [fst snd]. specialize (Hmax r Hr).
    rewrite (proj2 (Z.ltb_ge _ _) Hmax). cbn. destruct (Z.eqb_spec (c_at r) w) as [Hat|]; [|done]. cbn. apply bool_decide_eq_false_2. intros Hn. apply Hn.
    apply (max_of_ge String.le). apply list_elem_of_fmap. exists r. split; [done|]. apply list_elem_of_In, filter_In. split; [by apply list_elem_of_In|]. by apply Z.eqb_eq.
  - intros h Hh Hle. cbn. destruct Hreach as [[_ ->]|(r & Hr & <-)]; [done|]. apply elem_rows_of in Hr; [|done]. by apply (Hle (c_key r)).
Qed.

Lemma externalRowsCursor_ok child : keyed child -> cursor_ok ext_le (externalRowsCursor child) child.
Proof.
  intros Hk. unfold externalRowsCursor. destruct (rows_of child) as [|x l] eqn:Hrows.
  - split.
    + intros k r Hr. pose proof (Hk _ _ Hr) as <-. apply elem_rows_of in Hr; [|done]. rewrite Hrows in Hr. by apply not_elem_of_nil in Hr.
    + intros h Hh _. cbn. unfold zero_time. lia.
  - cbn zeta. set (top := max_of (stamp_le ext_le) x l).
    destruct (max_of_ge (stamp_le ext_le) x l) as (H1 & H2 & H3). fold top in H1, H2, H3.
    assert (Hin : top ∈ rows_of child) by (rewrite Hrows; destruct H3 as [->|H3]; [by left|by right]). split.
    + intros k r Hr. pose proof (Hk _ _ Hr) as <-. apply elem_rows_of in Hr; [|done].
      assert (Hle : stamp_le ext_le r top) by (rewrite Hrows in Hr; apply elem_of_cons in Hr as [->|Hr]; auto).
      destruct Hle as [Hat Hkey]. cbn in Hat, Hkey. unfold above. cbn [fst snd]. rewrite (proj2 (Z.ltb_ge _ _) Hat). cbn.
      destruct (Z.eqb_spec (c_at r) (c_at top)) as [Heq|]; [|done]. apply bool_decide_eq_false_2. auto.
    + intros h _ Hle. cbn. apply elem_rows_of in Hin; [|done]. by apply (Hle (c_key top)).
Qed.

(** ** A refresh *)

Lemma zero_selects_all (main : gmap string (copied string)) :
  (forall k r, main !! k = Some r -> 0 < c_at r) -> keyed main -> select String.le (zero_time, "") main ≡ₚ rows_of main.
Proof.
  intros Hpos Hk. unfold select. rewrite merge_sort_Permutation, List.forallb_filter_id; [done|]. apply forallb_forall. intros r Hin.
  apply list_elem_of_In, elem_rows_of in Hin; [|done]. apply above_time. cbn. specialize (Hpos _ _ Hin). unfold zero_time. lia.
Qed.

(** A plain insert succeeds, unless a landed row has the key of one the child still holds. *)
Lemma copy_append h (main child : gmap string (copied string)) cursor :
  behind h main child -> cursor_ok String.le cursor child ->
  match copyRows (insertRows false) (select String.le cursor main) child with
  | Some child' => main ⊆ child' /\ keyed child'
  | None => (exists k r, main !! k = Some r /\ fits r = false) \/
      (exists k r r', main !! k = Some r /\ child !! k = Some r' /\ c_at r' < c_at r)
  end.
Proof.
  intros Hb Hc. destruct (copied_covers _ h main child cursor Hb Hc) as (child' & Hins & Hsub & Hkeyed). pose proof Hb as [].
  rewrite copyRows_insert. destruct (forallb fits (select String.le cursor main)) eqn:Hf.
  - destruct (insertRows_false _ child (NoDup_select String.le cursor main bh_main0)) as [[-> _]|[-> (r & Hr & Hd)]]; [by rewrite Hins|].
    right. apply elem_select in Hr as [Hr Ha]; [|done]. destruct (child !! c_key r) as [r'|] eqn:Hr'; [|done].
    exists (c_key r), r, r'. split_and!; [done|done|]. destruct Hc as [Htop _]. specialize (Htop _ _ Hr'). pose proof (bh_child0 _ _ Hr') as Hkk.
    revert Ha Htop. unfold above. rewrite Hkk. destruct (Z.ltb_spec cursor.1 (c_at r')); [done|].
    destruct (Z.ltb_spec cursor.1 (c_at r)); [lia|]. cbn. destruct (Z.eqb_spec (c_at r) cursor.1) as [->|]; [|done]. cbn. intros ->.
    rewrite andb_true_r. intros Hne%Z.eqb_neq. lia.
  - left. eapply big_row; [done| |done]. intros r Hr. apply elem_select in Hr as [Hr _]; [|done]. by apply elem_rows_of.
Qed.

Lemma refreshEvents_spec h main child :
  behind h main child ->
  match refreshEvents main child with
  | Some child' => child' = main
  | None => (exists k r, main !! k = Some r /\ fits r = false) \/
      (exists k r r', main !! k = Some r /\ child !! k = Some r' /\ c_at r' < c_at r)
  end.
Proof.
  intros Hb. pose proof Hb as []. unfold refreshEvents. pose proof (copy_append h main child _ Hb (eventsCursor_ok child bh_child0)) as Hcopy.
  destruct (copyRows _ _ child) as [child'|]; [|done]. destruct Hcopy as [Hsub Hk].
  rewrite (count_upto_all String.le _ main child' Hsub (eventsCursor_ok child' Hk) bh_main0).
  destruct (Z.ltb_spec (Z.of_nat (size main)) (Z.of_nat (size child'))) as [Hlt|Hge].
  - pose proof (zero_selects_all main bh_time0 bh_main0) as Hall. rewrite (copy_whole false main _ bh_main0 Hall).
    destruct (forallb fits _) eqn:Hf; [done|]. left. eapply big_row; [done| |done]. intros r. by rewrite Hall.
  - apply covered_equal; [done|lia].
Qed.

Lemma refreshExternalRows_spec h main child :
  behind h main child ->
  match refreshExternalRows main child with
  | Some child' => child' = main
  | None => exists k r, main !! k = Some r /\ fits r = false
  end.
Proof.
  intros Hb. pose proof Hb as [].
  assert (Htable : forall c : gmap ext_key (copied ext_key), match refreshTable main true c with
    | Some child' => child' = main | None => exists k r, main !! k = Some r /\ fits r = false end).
  { intros c. unfold refreshTable. rewrite (copy_whole true main _ bh_main0) by done. destruct (forallb fits _) eqn:Hf; [done|].
    by eapply big_row. }
  unfold refreshExternalRows. destruct (_ <? _)%nat; [apply Htable|].
  destruct (copied_covers _ h main child _ Hb (externalRowsCursor_ok child bh_child0)) as (child' & Hins & Hsub & Hkeyed).
  rewrite copyRows_insert. destruct (forallb fits _) eqn:Hf.
  - rewrite Hins. destruct (Nat.eqb_spec (size child') (size main)) as [Heq|_]; [|apply Htable]. apply covered_equal; [done|lia].
  - eapply big_row; [done| |done]. intros r Hr. apply elem_select in Hr as [Hr _]; [|done]. by apply elem_rows_of.
Qed.

(** ** A project's history *)

Section History.
Context {K : Type} `{Countable K} (replace : bool) (refresh : gmap K (copied K) -> gmap K (copied K) -> option (gmap K (copied K))).

(** What the project's writers, its retention and its readers do.  A landing stamps its rows
    with one time of the writer's clock; [replace] tells an upsert from an insert that leaves
    a row that is there alone.  A refresh that fails has its child dropped: the next child
    starts empty. *)
Inductive change := Land (at_ : Z) (rows : list (copied K)) | Remove (keys : list K) | Refresh.

Definition stamped (at_ : Z) (r : copied K) : copied K := {| c_key := c_key r; c_at := at_; c_cells := c_cells r |}.

Definition land_row (at_ : Z) (m : gmap K (copied K)) (r : copied K) : gmap K (copied K) :=
  if replace || negb (is_some (m !! c_key r)) then <[c_key r := stamped at_ r]> m else m.

Definition change_step (w : gmap K (copied K) * gmap K (copied K)) (e : change) : gmap K (copied K) * gmap K (copied K) :=
  match e with
  | Land at_ rows => (foldl (land_row at_) w.1 rows, w.2)
  | Remove keys => (foldl (fun m k => delete k m) w.1 keys, w.2)
  | Refresh => (w.1, default ∅ (refresh w.1 w.2))
  end.

Definition replay (es : list change) : gmap K (copied K) * gmap K (copied K) := foldl change_step (∅, ∅) es.

(** The clock moves forward between landings. *)
Fixpoint increasing (last : Z) (es : list change) : Prop :=
  match es with
  | [] => True
  | Land at_ _ :: es => last < at_ /\ increasing at_ es
  | _ :: es => increasing last es
  end.

Context (Hrefresh : forall h main child, behind h main child -> forall c, refresh main child = Some c -> c = main).

Definition timely (clock : Z) (w : gmap K (copied K) * gmap K (copied K)) : Prop :=
  (exists h, behind h w.1 w.2 /\ h <= clock) /\ forall k r, w.1 !! k = Some r -> c_at r <= clock.

Lemma land_lookup at_ rows m k r :
  foldl (land_row at_) m rows !! k = Some r -> m !! k = Some r \/ (c_key r = k /\ c_at r = at_).
Proof.
  revert m. induction rows as [|x rows IH]; intros m; cbn; [by left|]. intros [Hl|?]%IH; [|by right].
  unfold land_row in Hl. destruct (_ || _); [|by left]. apply lookup_insert_Some in Hl as [[<- <-]|[_ Hl]]; [by right|by left].
Qed.

Lemma remove_lookup (keys : list K) (m : gmap K (copied K)) k r : foldl (fun m k => delete k m) m keys !! k = Some r -> m !! k = Some r.
Proof. revert m. induction keys as [|x keys IH]; intros m; cbn; [done|]. intros Hl%IH. by apply lookup_delete_Some in Hl as [_ ?]. Qed.

Lemma behind_empty (main : gmap K (copied K)) : keyed main -> (forall k r, main !! k = Some r -> 0 < c_at r) -> behind 0 main ∅.
Proof.
  intros Hk Hp. split; [done| |done| | |done]; [intros k r; by rewrite lookup_empty..|]. intros k r Hr Hle. specialize (Hp _ _ Hr). lia.
Qed.

Lemma change_timely clock w e :
  timely clock w -> match e with Land at_ _ => clock < at_ | _ => True end ->
  timely (match e with Land at_ _ => at_ | _ => clock end) (change_step w e).
Proof using Hrefresh.
  intros [(h & Hb & Hh) Hclock] He. pose proof Hb as []. destruct w as [main child]. cbn in *. destruct e as [at_ rows|keys|]; cbn.
  - split.
    + exists h. split; [|lia]. split; try done.
      * intros k r [Hr|[? _]]%land_lookup; [by apply bh_main0|done].
      * intros k r [Hr|[_ Hr]]%land_lookup Hle; [by apply bh_seen0|lia].
      * intros k r [Hr|[_ Hr]]%land_lookup; [by eapply bh_time0|lia].
    + intros k r [Hr|[_ Hr]]%land_lookup; [specialize (Hclock _ _ Hr)|]; cbn in *; lia.
  - split.
    + exists h. split; [|done]. split; try done; intros k r Hr%remove_lookup; eauto.
    + intros k r Hr%remove_lookup. by apply (Hclock k).
  - split; [|done]. destruct (refresh main child) as [c|] eqn:Hr; cbn.
    + pose proof (Hrefresh _ _ _ Hb _ Hr) as ->. exists clock. split; [|done]. split; try done. lia.
    + exists 0. split; [|lia]. by apply behind_empty.
Qed.

Lemma replay_timely es : increasing 0 es -> exists h, behind h (replay es).1 (replay es).2.
Proof using Hrefresh.
  assert (Hgen : forall es clock w, timely clock w -> increasing clock es -> exists h, behind h (foldl change_step w es).1 (foldl change_step w es).2).
  { clear es. induction es as [|e es IH]; intros clock w Ht Hi; [destruct Ht as [(h & Hb & _) _]; by exists h|]. cbn.
    apply (IH (match e with Land at_ _ => at_ | _ => clock end)); [apply change_timely; [done|]|]; by destruct e; cbn in Hi; try destruct Hi. }
  intros Hi. apply (Hgen es 0); [|done]. split; [|intros k r; cbn; by rewrite lookup_empty]. exists 0. split; [|done].
  apply behind_empty; intros k r; cbn; by rewrite lookup_empty.
Qed.
End History.
Arguments change K : clear implicits.

(** C17: However landings, deletions and refreshes of a project's events follow each other, as
    long as the clock that stamps the landings moves forward, a refresh that succeeds leaves
    the child with exactly the events of the snapshot; it fails only for a row above the row
    limit or for an event that was deleted and landed again, and the empty child that then
    replaces the dropped one is refreshed to the snapshot. *)
Theorem events_refresh_is_the_snapshot es :
  increasing 0 es ->
  let '(main, child) := replay false refreshEvents es in
  match refreshEvents main child with
  | Some child' => child' = main
  | None => (exists k r, main !! k = Some r /\ fits r = false) \/
      (exists k r r', main !! k = Some r /\ child !! k = Some r' /\ c_at r' < c_at r)
  end /\
  ((forall k r, main !! k = Some r -> fits r = true) -> refreshEvents main ∅ = Some main).
Proof.
  intros Hi. destruct (replay_timely false refreshEvents) with (es := es) as (h & Hb); [|done|].
  { intros h main child Hb c Hc. pose proof (refreshEvents_spec h main child Hb) as Hs. by rewrite Hc in Hs. }
  destruct (replay _ _ es) as [main child]. cbn in Hb. split; [by eapply refreshEvents_spec|]. intros Hfit. pose proof Hb as [].
  pose proof (refreshEvents_spec 0 main ∅ (behind_empty main bh_main0 bh_time0)) as Hs.
  destruct (refreshEvents main ∅) as [c|]; [by rewrite Hs|]. destruct Hs as [(k & r & Hr & Hf)|(k & r & r' & _ & Hr & _)].
  - by rewrite (Hfit _ _ Hr) in Hf.
  - by rewrite lookup_empty in Hr.
Qed.

(** The same for the rows of the connectors, which a landing may overwrite: a refresh fails
    for nothing but a row above the row limit. *)
Theorem external_refresh_is_the_snapshot es :
  increasing 0 es ->
  let '(main, child) := replay true refreshExternalRows es in
  match refreshExternalRows main child with
  | Some child' => child' = main
  | None => exists k r, main !! k = Some r /\ fits r = false
  end.
Proof.
  intros Hi. destruct (replay_timely true refreshExternalRows) with (es := es) as (h & Hb); [|done|].
  { intros h main child Hb c Hc. pose proof (refreshExternalRows_spec h main child Hb) as Hs. by rewrite Hc in Hs. }
  destruct (replay _ _ es) as [main child]. by eapply refreshExternalRows_spec.
Qed.

(** ** Witnesses *)

Definition w_event (id : string) : copied string := {| c_key := id; c_at := 0; c_cells := [CText id; COther] |}.

(** Two events copied, one expires while another lands. *)
Definition w_history : list (change string) := [Land 10 [w_event "a"; w_event "b"]; Refresh; Remove ["a"]; Land 20 [w_event "c"]].

Lemma events_refresh_is_the_snapshot_witness :
  let '(main, child) := replay false refreshEvents w_history in
  map_to_list child = [("a", stamped 10 (w_event "a")); ("b", stamped 10 (w_event "b"))] /\ size main = 2%nat /\
  match refreshEvents main child with Some child' => child' = main | None => False end.
Proof.
  pose proof (events_refresh_is_the_snapshot w_history) as H. cbn [increasing w_history] in H.
  destruct H as [H _]; [repeat split; lia|]. revert H. destruct (replay false refreshEvents w_history) as [main child] eqn:E.
  vm_compute in E. injection E as <- <-. intros H. split_and!; [by vm_compute|by vm_compute|]. revert H.
  destruct (refreshEvents _ _) as [c|] eqn:Hr; [done|]. vm_compute in Hr. discriminate Hr.
Defined.

Definition w_landed (table key : string) : copied ext_key := {| c_key := ("k", (table, key)); c_at := 0; c_cells := [CText key] |}.

(** A deletion that a re-landing and a landing mask. *)
Definition w_landings : list (change ext_key) :=
  [Land 10 [w_landed "t" "1"; w_landed "t" "2"]; Refresh; Remove [("k", ("t", "1"))]; Land 20 [w_landed "t" "2"; w_landed "u" "1"]].

Lemma external_refresh_is_the_snapshot_witness :
  let '(main, child) := replay true refreshExternalRows w_landings in
  size child = 2%nat /\ size main = 2%nat /\
  match refreshExternalRows main child with Some child' => child' = main | None => False end.
Proof.
  pose proof (external_refresh_is_the_snapshot w_landings) as H. cbn [increasing w_landings] in H.
  specialize (H (ltac:(repeat split; lia))). revert H.
  assert (Hs : let '(main, child) := replay true refreshExternalRows w_landings in
    (size child =? 2)%nat && (size main =? 2)%nat && is_some (refreshExternalRows main child) = true) by (vm_compute; reflexivity).
  destruct (replay true refreshExternalRows w_landings) as [main child]. intros H.
  apply andb_true_iff in Hs as [Hs Hr]. apply andb_true_iff in Hs as [Hc Hm]. split_and!; [by apply Nat.eqb_eq|by apply Nat.eqb_eq|].
  destruct (refreshExternalRows main child); [exact H|discriminate Hr].
Defined.

(** A clock that steps back: the event it stamps is below the child's cursor, the counts do not
    tell, and no later refresh of that child brings it.  The landing table, whose second check
    asks for equal counts, recovers. *)
Example an_event_behind_the_cursor_is_missed :
  let '(main, child) := replay false refreshEvents [Land 10 [w_event "a"]; Refresh; Land 5 [w_event "b"]; Refresh; Land 20 [w_event "c"]; Refresh] in
  size main = 3%nat /\ size child = 2%nat.
Proof. by vm_compute. Qed.

Example a_landing_behind_the_cursor_is_copied :
  let '(main, child) := replay true refreshExternalRows [Land 10 [w_landed "t" "1"]; Refresh; Land 5 [w_landed "t" "2"]; Refresh] in
  size main = 2%nat /\ child = main.
Proof. by vm_compute. Qed.
