(* ===== verification/SandboxAnswers.v ===== *)
(** * SandboxAnswers: what an untrusted query answers

    The child's side of a query (duckdb_sandbox_worker.go): the rendering of driver values,
    the row and byte caps that are enforced while the result is built, the errors with
    their kinds and the frame an answer crosses the pipe in, and the parent's reading of it
    (duckdb_sandbox.go).  The length of a frame is an argument; which values the codec of
    the frame and JSON carry is not. *)

From S2P Require Import Prelude.
Open Scope string_scope.
Open Scope list_scope.
Open Scope Z_scope.

(** ** Values *)

(** A scanned value.  [VRendered] stands for the driver's types that have a text form of their
    own (INTERVAL, DECIMAL, HUGEINT, BIT), with that text; [VTime] for a time in UTC, by its
    year; [VScalar] for booleans and integers; [VForeign] for a type of the driver's that the
    code does not name and the codec of the frame does not know. *)
Inductive value :=
| VNull
| VText (s : string)
| VBytes (s : string)
| VRendered (s : string)
| VFloat (finite : bool)
| VTime (year : Z)
| VScalar
| VForeign
| VList (items : list value)
| VStruct (entries : list (string * value))
| VMap (entries : list (value * value))
| VUnion (tag : string) (v : value).

(** The entries of a Go map: of the assignments to one key the last stays. *)
Definition as_object (entries : list (string * value)) : list (string * value) :=
  foldl (fun out kv => List.filter (fun old => negb (old.1 =? kv.1)%string) out ++ [kv]) [] entries.

Section Values.
(** fmt.Sprint *)
Context (sprint : value -> string).

Fixpoint normalizeSQLValue (v : value) : value :=
  match v with
  | VBytes s => VText s
  | VRendered s => VText s
  | VList items => VList (map normalizeSQLValue items)
  | VStruct entries => VStruct (map (fun kv => (kv.1, normalizeSQLValue kv.2)) entries)
  | VMap entries => VStruct (as_object (map (fun kv => (sprint (normalizeSQLValue kv.1), normalizeSQLValue kv.2)) entries))
  | VUnion tag v => VStruct [("tag", VText tag); ("value", normalizeSQLValue v)]
  | v => v
  end.

Fixpoint containsNonFiniteSQLValue (v : value) : bool :=
  match v with
  | VFloat finite => negb finite
  | VList items => existsb containsNonFiniteSQLValue items
  | VStruct entries => existsb (fun kv => containsNonFiniteSQLValue kv.2) entries
  | VMap entries => existsb (fun kv => containsNonFiniteSQLValue kv.2) entries
  | VUnion _ v => containsNonFiniteSQLValue v
  | _ => false
  end.

Definition slen (s : string) : Z := Z.of_nat (String.length s).

Definition sandboxValueBytes (column : string) (v : value) : Z :=
  let overhead := 48 in
  slen column + overhead +
  match v with
  | VText s | VBytes s => slen s
  | VList items => foldr (fun item n => n + (slen (sprint item) + overhead)) 0 items
  | VStruct entries => foldr (fun kv n => n + (slen kv.1 + slen (sprint kv.2) + 2 * overhead)) 0 entries
  | _ => 0
  end.

(** ** Errors *)

Inductive kind := SandboxKindSQL | SandboxKindRows | SandboxKindBytes | SandboxKindTimeout | SandboxKindUnavailable | SandboxKindChild.

Inductive sentinel := ErrSandboxSQL | ErrSandboxRows | ErrSandboxBytes | ErrSandboxTimeout | ErrSandboxUnavailable.

Definition sandboxSentinel (k : kind) : sentinel :=
  match k with
  | SandboxKindSQL => ErrSandboxSQL
  | SandboxKindRows => ErrSandboxRows
  | SandboxKindBytes => ErrSandboxBytes
  | SandboxKindTimeout => ErrSandboxTimeout
  | _ => ErrSandboxUnavailable
  end.

Definition IsSandboxLimit (s : sentinel) : bool :=
  match s with ErrSandboxRows | ErrSandboxBytes | ErrSandboxTimeout => true | _ => false end.

Definition IsSandboxUnavailable (s : sentinel) : bool := match s with ErrSandboxUnavailable => true | _ => false end.

(** ** The query *)

Inductive sandboxResponse := RespRows (rows : list (gmap string value)) | RespErr (k : kind).

Record sandboxWorkerOptions := { maxRows : nat; maxResultBytes : Z }.

(** An error of the engine, with what the two tests on it find. *)
Record engine_error := { ee_deadline : bool; ee_out_of_memory : bool }.

Definition engineErrResponse (e : engine_error) : sandboxResponse :=
  if ee_deadline e then RespErr SandboxKindTimeout
  else if ee_out_of_memory e then RespErr SandboxKindBytes
  else RespErr SandboxKindSQL.

(** One row: the cells until one is not finite. *)
Fixpoint scan_cells (cells : list (string * value)) (it : gmap string value) (bytes : Z) : option (gmap string value * Z) :=
  match cells with
  | [] => Some (it, bytes)
  | (column, v) :: cells =>
      let v := normalizeSQLValue v in
      if containsNonFiniteSQLValue v then None
      else scan_cells cells (<[column := v]> it) (bytes + sandboxValueBytes column v)
  end.

(** The engine's rows, one after another, and the error that ended them if one did; a row
    that does not scan is [None]. *)
Fixpoint materialize (opts : sandboxWorkerOptions) (rows : list (option (list (string * value)))) (err : option engine_error)
    (results : list (gmap string value)) (bytes : Z) : sandboxResponse :=
  match rows with
  | [] => match err with Some e => engineErrResponse e | None => RespRows results end
  | row :: rows =>
      if (maxRows opts <=? length results)%nat then RespErr SandboxKindRows
      else
        match row with
        | None => RespErr SandboxKindChild
        | Some row =>
            match scan_cells row ∅ bytes with
            | None => RespErr SandboxKindSQL
            | Some (it, bytes) =>
                if (0 <? maxResultBytes opts) && (maxResultBytes opts <? bytes) then RespErr SandboxKindBytes
                else materialize opts rows err (results ++ [it]) bytes
            end
        end
  end.

(** The answer of the engine to the statement. *)
Inductive engine_answer :=
| Refused (e : engine_error)
| NoColumns
| Streamed (rows : list (option (list (string * value)))) (err : option engine_error).

Definition query (opts : sandboxWorkerOptions) (a : engine_answer) : sandboxResponse :=
  match a with
  | Refused e => engineErrResponse e
  | NoColumns => RespErr SandboxKindChild
  | Streamed rows err => materialize opts rows err [] 0
  end.

(** ** The frame *)

(** sandboxFrameMaxBytes *)
Definition frameMaxBytes : Z := Z.shiftl 64 20.

(** What encoding/gob carries in an interface: the types registered in init and the basic
    ones. *)
Fixpoint encodable (v : value) : bool :=
  match v with
  | VNull | VText _ | VBytes _ | VFloat _ | VTime _ | VScalar => true
  | VList items => forallb encodable items
  | VStruct entries => forallb (fun kv => encodable kv.2) entries
  | VForeign | VRendered _ | VMap _ | VUnion _ _ => false
  end.

Definition row_encodable (it : gmap string value) : bool := forallb (fun kv => encodable kv.2) (map_to_list it).

(** [size] is the length of a frame's payload. *)
Context (size : sandboxResponse -> Z).

Definition encodeSandboxFrame (resp : sandboxResponse) : option Z :=
  let carried := match resp with RespRows rows => forallb row_encodable rows | RespErr _ => true end in
  if negb carried || (frameMaxBytes <? size resp) then None else Some (size resp).

(** The worker's reply: the answer, or an error frame in its place; the worker ends when
    not even that encodes. *)
Definition worker_reply (resp : sandboxResponse) : option (sandboxResponse * Z) :=
  match encodeSandboxFrame resp with
  | Some n => Some (resp, n)
  | None => (fun n => (RespErr SandboxKindSQL, n)) <$> encodeSandboxFrame (RespErr SandboxKindSQL)
  end.

(** ** The parent *)

Definition readCapBytes (opts : sandboxWorkerOptions) : Z :=
  if maxResultBytes opts <=? 0 then frameMaxBytes else maxResultBytes opts + Z.shiftl 1 20.

(** What the parent's call met: the reply, a pipe that broke, or its own deadline. *)
Inductive pipe := Delivered | Broken | Late.

(** What the parent gives the caller: the typed error, or the rows. *)
Definition runLocked (opts : sandboxWorkerOptions) (p : pipe) (resp : sandboxResponse) :
    result (kind * sentinel) (list (gmap string value)) :=
  match p with
  | Late => Err (SandboxKindTimeout, ErrSandboxTimeout)
  | Broken => Err (SandboxKindChild, ErrSandboxUnavailable)
  | Delivered =>
      match worker_reply resp with
      | None => Err (SandboxKindChild, ErrSandboxUnavailable)
      | Some (resp, n) =>
          if readCapBytes opts <? n then Err (SandboxKindChild, ErrSandboxUnavailable)
          else match resp with RespErr k => Err (k, sandboxSentinel k) | RespRows rows => Ok rows end
      end
  end.

(** ** What a result is *)

Definition cells_of (row : list (string * value)) : list (string * value) := map (fun kv => (kv.1, normalizeSQLValue kv.2)) row.

(** The object of a row: of columns with the same name the last. *)
Definition object_of (row : list (string * value)) : gmap string value := foldl (fun it kv => <[kv.1 := kv.2]> it) ∅ (cells_of row).

Definition cost_of (row : list (string * value)) : Z := foldr (fun kv n => sandboxValueBytes kv.1 kv.2 + n) 0 (cells_of row).

Definition finite_row (row : list (string * value)) : bool := forallb (fun kv => negb (containsNonFiniteSQLValue kv.2)) (cells_of row).

Definition total_cost (rows : list (list (string * value))) : Z := foldr (fun row n => cost_of row + n) 0 rows.

Lemma scan_cells_spec row it bytes :
  scan_cells row it bytes =
  if finite_row row then Some (foldl (fun it kv => <[kv.1 := kv.2]> it) it (cells_of row), bytes + cost_of row) else None.
Proof.
  revert it bytes. induction row as [|[column v] row IH]; intros it bytes; [cbn; by rewrite Z.add_0_r|].
  assert (Hc : cost_of ((column, v) :: row) = sandboxValueBytes column (normalizeSQLValue v) + cost_of row) by reflexivity.
  assert (Hf : finite_row ((column, v) :: row) = negb (containsNonFiniteSQLValue (normalizeSQLValue v)) && finite_row row) by reflexivity.
  rewrite Hc, Hf. cbn [scan_cells]. cbv zeta. destruct (containsNonFiniteSQLValue _); cbn [negb andb]; [done|].
  rewrite IH, Z.add_assoc. done.
Qed.

Lemma foldr_len_nonneg {A} (f : A -> Z) l : (forall x, 0 <= f x) -> 0 <= foldr (fun x n => n + f x) 0 l.
Proof. intros H. induction l as [|x l IH]; cbn; [done|]. specialize (H x). lia. Qed.

Lemma sandboxValueBytes_pos column v : 48 <= sandboxValueBytes column v.
Proof.
  unfold sandboxValueBytes, slen. cbv zeta.
  destruct v; try lia.
  - assert (0 <= foldr (fun x n => n + (Z.of_nat (String.length (sprint x)) + 48)) 0 items); [|lia].
    apply (foldr_len_nonneg (fun x => Z.of_nat (String.length (sprint x)) + 48)). intros. lia.
  - set (f := fun kv : string * value => Z.of_nat (String.length kv.1) + Z.of_nat (String.length (sprint kv.2)) + 2 * 48).
    assert (0 <= foldr (fun kv n => n + f kv) 0 entries) by (apply foldr_len_nonneg; intros; unfold f; lia). unfold f in *. lia.
Qed.

Lemma cost_of_nonneg row : 0 <= cost_of row.
Proof.
  unfold cost_of. induction (cells_of row) as [|[c v] l IH]; cbn; [done|]. pose proof (sandboxValueBytes_pos c v). lia.
Qed.

Lemma total_cost_nonneg rows : 0 <= total_cost rows.
Proof. induction rows as [|r rows IH]; cbn; [done|]. pose proof (cost_of_nonneg r). unfold total_cost in *. lia. Qed.

(** The rows are within the caps and every number is finite. *)
Definition presentable (opts : sandboxWorkerOptions) (n : nat) (bytes : Z) (rows : list (list (string * value))) : bool :=
  forallb finite_row rows && (n + length rows <=? maxRows opts)%nat &&
  (negb (0 <? maxResultBytes opts) || (bytes + total_cost rows <=? maxResultBytes opts)).

(** The rows that scanned. *)
Definition scanned_rows (rows : list (option (list (string * value)))) : list (list (string * value)) := omap id rows.

(** The engine's own error, when it maps to that kind. *)
Definition engine_failed (err : option engine_error) (k : kind) : Prop :=
  exists e, err = Some e /\ engineErrResponse e = RespErr k.

(** Why the worker answers an error of a kind, [n] rows and [bytes] into the result. *)
Definition worker_refused (opts : sandboxWorkerOptions) (n : nat) (bytes : Z) (rows : list (option (list (string * value))))
    (err : option engine_error) (k : kind) : Prop :=
  match k with
  | SandboxKindRows => (maxRows opts < n + length rows)%nat
  | SandboxKindBytes => (0 < maxResultBytes opts /\ maxResultBytes opts < bytes + total_cost (scanned_rows rows)) \/ engine_failed err k
  | SandboxKindSQL => (exists row, Some row ∈ rows /\ finite_row row = false) \/ engine_failed err k
  | SandboxKindChild => None ∈ rows
  | SandboxKindTimeout => engine_failed err k
  | SandboxKindUnavailable => False
  end.

Lemma worker_refused_cons opts n bytes row rows err k :
  worker_refused opts (S n) (bytes + cost_of row) rows err k -> worker_refused opts n bytes (Some row :: rows) err k.
Proof.
  assert (Hs : scanned_rows (Some row :: rows) = row :: scanned_rows rows) by reflexivity.
  destruct k; cbn [worker_refused length].
  - intros [(r & Hr & Hf)|He]; [left|by right]. exists r. split; [by right|done].
  - lia.
  - rewrite Hs. cbn [total_cost foldr]. fold (total_cost (scanned_rows rows)). intros [[? ?]|He]; [left; lia|by right].
  - done.
  - done.
  - intros Hn. by right.
Qed.

Lemma materialize_spec opts rows err results bytes :
  (length results <= maxRows opts)%nat -> (0 < maxResultBytes opts -> bytes <= maxResultBytes opts) ->
  match materialize opts rows err results bytes with
  | RespRows out => err = None /\ exists scanned, rows = Some <$> scanned /\
      presentable opts (length results) bytes scanned = true /\ out = results ++ map object_of scanned
  | RespErr k => worker_refused opts (length results) bytes rows err k
  end.
Proof.
  revert results bytes. induction rows as [|row rows IH]; intros results bytes Hn Hb.
  - cbn. destruct err as [e|].
    + assert (Hk : match engineErrResponse e with RespRows _ => False | RespErr k => engine_failed (Some e) k end).
      { unfold engine_failed, engineErrResponse. destruct (ee_deadline e) eqn:Ed, (ee_out_of_memory e) eqn:Em; exists e; unfold engineErrResponse; by rewrite Ed, ?Em. }
      unfold engineErrResponse in *. destruct (ee_deadline e), (ee_out_of_memory e); simpl; auto.
    + split; [done|]. exists []. split_and!; [done| |by rewrite app_nil_r]. unfold presentable. cbn. rewrite Nat.add_0_r, (proj2 (Nat.leb_le _ _) Hn). cbn.
      destruct (Z.ltb_spec 0 (maxResultBytes opts)); cbn; [|done]. apply Z.leb_le. specialize (Hb ltac:(done)). lia.
  - cbn [materialize]. destruct (Nat.leb_spec (maxRows opts) (length results)); [simpl; lia|].
    destruct row as [row|]; [|left].
    rewrite scan_cells_spec. destruct (finite_row row) eqn:Hf; [|left; exists row; split; [left|done]].
    fold (object_of row). pose proof (total_cost_nonneg (scanned_rows rows)) as Htot.
    destruct ((0 <? maxResultBytes opts) && (maxResultBytes opts <? bytes + cost_of row)) eqn:Hcap.
    + left. apply andb_true_iff in Hcap as [H1 H2]. apply Z.ltb_lt in H1, H2.
      change (scanned_rows (Some row :: rows)) with (row :: scanned_rows rows). cbn [total_cost foldr].
      fold (total_cost (scanned_rows rows)). lia.
    + assert (Hb' : 0 < maxResultBytes opts -> bytes + cost_of row <= maxResultBytes opts).
      { intros Hpos. rewrite (proj2 (Z.ltb_lt _ _) Hpos) in Hcap. by apply Z.ltb_ge. }
      assert (Hlen : length (results ++ [object_of row]) = S (length results)) by (rewrite length_app; apply Nat.add_1_r).
      specialize (IH (results ++ [object_of row]) (bytes + cost_of row)). rewrite Hlen in IH. specialize (IH ltac:(lia) Hb').
      destruct (materialize _ _ _ _ _) as [out|k]; [|by apply worker_refused_cons].
      destruct IH as (He & scanned & -> & Hp & ->). split; [done|]. exists (row :: scanned). split_and!; [done| |by rewrite <- app_assoc].
      rewrite <- Hp. unfold presentable. cbn [forallb length]. rewrite Hf. cbn [andb]. cbn [total_cost foldr]. fold (total_cost scanned).
      by rewrite <- Nat.add_succ_comm, Z.add_assoc.
Qed.

(** ** What crosses the boundary *)

Definition json_year (year : Z) : bool := (0 <=? year) && (year <=? 9999).

(** What encoding/json writes: no infinite or NaN number and no time outside the years 0 to
    9999. *)
Fixpoint json_carries (v : value) : bool :=
  match v with
  | VNull | VText _ | VBytes _ | VScalar => true
  | VFloat finite => finite
  | VTime year => json_year year
  | VList items => forallb json_carries items
  | VStruct entries => forallb (fun kv => json_carries kv.2) entries
  | VForeign | VRendered _ | VMap _ | VUnion _ _ => false
  end.

(** A time outside those years somewhere in the value. *)
Fixpoint far_time (v : value) : bool :=
  match v with
  | VTime year => negb (json_year year)
  | VList items => existsb far_time items
  | VStruct entries => existsb (fun kv => far_time kv.2) entries
  | _ => false
  end.

(** Such a time is the only thing that passes the frame and the check on numbers and that
    JSON does not carry. *)
Lemma json_cell (v : value) :
  encodable v = true -> containsNonFiniteSQLValue v = false -> json_carries v = negb (far_time v).
Proof.
  revert v. fix IH 1. intros [ | | | |finite| | | |items|entries|entries|tag v]; cbn; try done.
  - by intros _ ->%negb_false_iff.
  - intros _ _. by rewrite negb_involutive.
  - induction items as [|x items IHl]; cbn; [done|]. intros [He Hes]%andb_true_iff [Hn Hns]%orb_false_iff.
    by rewrite (IH x He Hn), (IHl Hes Hns), negb_orb.
  - induction entries as [|[k x] entries IHl]; cbn; [done|]. intros [He Hes]%andb_true_iff [Hn Hns]%orb_false_iff.
    by rewrite (IH x He Hn), (IHl Hes Hns), negb_orb.
Qed.

Lemma object_cell row column v :
  object_of row !! column = Some v -> finite_row row = true -> containsNonFiniteSQLValue v = false.
Proof.
  intros Hl. assert (Hin : (column, v) ∈ cells_of row).
  { revert Hl. unfold object_of. enough (Hgen : forall (l : list (string * value)) (it : gmap string value), foldl (fun it kv => <[kv.1 := kv.2]> it) it l !! column = Some v ->
      it !! column = Some v \/ (column, v) ∈ l).
    { intros [H|H]%Hgen; [by rewrite lookup_empty in H|done]. }
    induction l as [|[c x] l IH]; intros it; cbn; [by left|]. intros [H|H]%IH; [|right; by right].
    apply lookup_insert_Some in H as [[<- <-]|[_ H]]; [right; by left|by left]. }
  intros Hf. unfold finite_row in Hf. apply negb_true_iff. exact (proj1 (forallb_True' _ _) Hf (column, v) Hin).
Qed.

Lemma row_encodable_cell it column v : row_encodable it = true -> it !! column = Some v -> encodable v = true.
Proof.
  intros He Hl. apply (proj1 (forallb_True' _ _) He (column, v)). by apply elem_of_map_to_list.
Qed.

Lemma worker_reply_rows resp out n :
  worker_reply resp = Some (RespRows out, n) -> resp = RespRows out /\ n = size resp /\ size resp <= frameMaxBytes /\ forallb row_encodable out = true.
Proof.
  unfold worker_reply. destruct (encodeSandboxFrame resp) as [m|] eqn:E.
  - intros [= -> ->]. unfold encodeSandboxFrame in E. destruct (_ || _) eqn:Eo; [done|]. injection E as <-.
    apply orb_false_iff in Eo as [Eo El]. apply negb_false_iff in Eo. apply Z.ltb_ge in El. done.
  - destruct (encodeSandboxFrame (RespErr _)); [|done]. by intros [=].
Qed.

(** An answer the frame does not carry. *)
Definition frame_refused (resp : sandboxResponse) : Prop :=
  frameMaxBytes < size resp \/
  exists out it column v, resp = RespRows out /\ it ∈ out /\ it !! column = Some v /\ encodable v = false.

Lemma encode_refused resp : encodeSandboxFrame resp = None -> frame_refused resp.
Proof.
  unfold encodeSandboxFrame, frame_refused. destruct (_ || _) eqn:E; [|done]. intros _. apply orb_true_iff in E as [E|E]; [right|left; by apply Z.ltb_lt].
  apply negb_true_iff in E. destruct resp as [out|k]; [|done].
  apply not_true_iff_false in E. rewrite forallb_True' in E. destruct (decide (Exists (fun it => row_encodable it = false) out)) as [Hx|Hx].
  - apply Exists_exists in Hx as (it & Hit & Hf). apply not_true_iff_false in Hf. unfold row_encodable in Hf.
    destruct (decide (Exists (fun kv : string * value => encodable kv.2 = false) (map_to_list it))) as [Hy|Hy].
    + apply Exists_exists in Hy as ([column v] & Hin & Hv). exists out, it, column, v. split_and!; [done|done|by apply elem_of_map_to_list|done].
    + exfalso. apply Hf. apply forallb_True'. intros kv Hkv. apply not_false_iff_true. intros Hv. apply Hy. apply Exists_exists. by exists kv.
  - exfalso. apply E. intros it Hit. apply not_false_iff_true. intros Hf. apply Hx. apply Exists_exists. by exists it.
Qed.
End Values.

(** C18: An untrusted query is answered with the whole result or with none of it.  Rows are
    answered only when the engine ended without an error, every row scanned and the reply
    arrived; then they are all the engine's rows, no more than the row limit, costing no more
    than the byte limit, in a frame within both sides' bounds, every cell of a type the frame
    carries and no number infinite or NaN: JSON carries each of them unless it holds a time
    outside the years 0 to 9999, which no check of the sandbox looks for.  In every other case
    the answer is one typed error of the kind of what went wrong: more rows or bytes than the
    limits, a number that is not finite, a row that does not scan, the engine's own failure, a
    frame that does not encode or is too long to be read, a broken pipe or a deadline. *)
Theorem query_answers_whole_or_nothing (sprint : value -> string) size opts p rows err :
  let resp := query sprint opts (Streamed rows err) in
  match runLocked size opts p resp with
  | Ok out => p = Delivered /\ err = None /\ exists scanned, rows = Some <$> scanned /\ out = map (object_of sprint) scanned /\
      (length out <= maxRows opts)%nat /\ (0 < maxResultBytes opts -> total_cost sprint scanned <= maxResultBytes opts) /\
      size (RespRows out) <= Z.min frameMaxBytes (readCapBytes opts) /\
      forall it column v, it ∈ out -> it !! column = Some v ->
        encodable v = true /\ containsNonFiniteSQLValue v = false /\ json_carries v = negb (far_time v)
  | Err (k, s) => s = sandboxSentinel k /\
      (worker_refused sprint opts 0 0 rows err k \/ (k = SandboxKindSQL /\ frame_refused size resp) \/
       (k = SandboxKindTimeout /\ p = Late) \/
       (k = SandboxKindChild /\ (p = Broken \/ (frameMaxBytes < size (RespErr SandboxKindSQL)) \/
          readCapBytes opts < size resp \/ readCapBytes opts < size (RespErr SandboxKindSQL))))
  end.
Proof.
  intros resp. pose proof (materialize_spec sprint opts rows err [] 0 (Nat.le_0_l _) ltac:(lia)) as Hs.
  change (materialize sprint opts rows err [] 0) with resp in Hs. unfold runLocked. destruct p; [|by eauto 8|by eauto 8].
  destruct (worker_reply size resp) as [[reply n]|] eqn:Er.
  - destruct (Z.ltb_spec (readCapBytes opts) n) as [Hcap|Hcap].
    + split; [done|]. do 3 right. split; [done|]. do 2 right. unfold worker_reply in Er. unfold encodeSandboxFrame in Er at 1.
      destruct (_ || _); [|injection Er as _ <-; by left]. right. unfold encodeSandboxFrame in Er. destruct (_ || _); [done|]. by injection Er as _ <-.
    + destruct reply as [out|k].
      * apply worker_reply_rows in Er as (Hresp & -> & Hmax & Henc). rewrite Hresp in Hs. destruct Hs as (-> & scanned & -> & Hp & ->).
        unfold presentable in Hp. apply andb_true_iff in Hp as [Hp Hb]. apply andb_true_iff in Hp as [Hf Hn]. apply Nat.leb_le in Hn.
        split; [done|]. split; [done|]. exists scanned. split_and!; [done|done|by rewrite length_app, length_map| | |].
        -- intros Hpos. rewrite (proj2 (Z.ltb_lt _ _) Hpos) in Hb. by apply Z.leb_le in Hb.
        -- rewrite Hresp in Hcap, Hmax. by apply Z.min_glb.
        -- intros it column v Hin Hl. pose proof (row_encodable_cell _ _ _ (proj1 (forallb_True' _ _) Henc it Hin) Hl) as He.
           apply list_elem_of_fmap in Hin as (row & -> & Hin).
           pose proof (object_cell sprint row column v Hl (proj1 (forallb_True' _ _) Hf row Hin)) as Hnf.
           split_and!; [done|done|by apply json_cell].
      * split; [done|]. unfold worker_reply in Er. destruct (encodeSandboxFrame size resp) as [m|] eqn:Ee.
        -- injection Er as Hk _. rewrite Hk in Hs. by left.
        -- destruct (encodeSandboxFrame size (RespErr SandboxKindSQL)); [|done]. injection Er as <- _. right. left. split; [done|].
           by apply encode_refused.
  - split; [done|]. do 3 right. split; [done|]. right. left. unfold worker_reply in Er.
    destruct (encodeSandboxFrame size resp); [done|]. unfold encodeSandboxFrame in Er. destruct (_ || _) eqn:Eo; [|done].
    by apply Z.ltb_lt in Eo.
Qed.

(** A result that is capped, one that is not. *)
Example capped :
  query (fun _ => "") {| maxRows := 1; maxResultBytes := 0 |} (Streamed [Some [("a", VBytes "x")]; Some [("a", VNull)]] None) = RespErr SandboxKindRows.
Proof. reflexivity. Qed.

Example answered :
  query (fun _ => "") {| maxRows := 1; maxResultBytes := 50 |} (Streamed [Some [("a", VBytes "x")]] None) = RespRows [{["a" := VText "x"]}].
Proof. reflexivity. Qed.

(** A timestamp of the year 10000 is answered, and JSON refuses it after that. *)
Example far_timestamp_is_answered :
  exists out, runLocked (fun _ => 100) {| maxRows := 1; maxResultBytes := 100 |} Delivered
      (query (fun _ => "") {| maxRows := 1; maxResultBytes := 100 |} (Streamed [Some [("at", VTime 10000)]] None)) = Ok out /\
    exists it, out = [it] /\ it !! "at" = Some (VTime 10000) /\ json_carries (VTime 10000) = false.
Proof. eexists. split; [reflexivity|]. eexists. split_and!; reflexivity. Qed.
