(* ===== verification/IngestHandler.v ===== *)
(** * IngestHandler: the HTTP door of the event pipeline

    handler.go and properties.go of internal/dataplane/ingest: from a decoded body to the
    event that is written, with the classifiers, the session table and the tracking plan it
    goes through, and the four handlers around it.  The request's headers, the key lookup,
    the clock, the drawn ids, the writer's answer and Go's JSON text and number conversions
    are arguments. *)

From Stdlib Require Import QArith.
From S2P Require Import Prelude GoStrings GoTime Duck Persons Classify Sessionizer CatalogGuard Platform.
Import String.
Open Scope string_scope.
Open Scope list_scope.
Open Scope Z_scope.

(** ** Decoded JSON *)

(** A number is the exact value of its float64. *)
Inductive json := JNull | JBool (b : bool) | JNum (q : Q) | JStr (s : string) | JArr (items : list json) | JObj (entries : list (string * json)).

Record capturePayload := {
  cp_APIKey : string; cp_Token : string; cp_Event : string; cp_DistinctID : string; cp_SessionID : string;
  cp_Properties : gmap string json; cp_Timestamp : json; cp_Groups : gmap string string;
  cp_Set : gmap string json; cp_SetOnce : gmap string json;
}.

Record batchPayload := { ba_APIKey : string; ba_Token : string; ba_Batch : list capturePayload }.

Record aliasPayload := { al_APIKey : string; al_Token : string; al_AnonymousID : string; al_DistinctID : string }.

(** ** The world of a request *)

Class GoNumbers := {
  (** Conversions of a number that does not fit are left to the platform. *)
  wild_int64 : Q -> Z;
  wild_uint32 : Q -> Z;
  float32_of : Q -> Z;
}.

Class GoText := {
  json_marshal : json -> string;
  time_parse : string -> string -> option Z;
}.

(** The headers the handlers read, and the project a key belongs to. *)
Record request := { rq_api_key : string; rq_user_agent : string; rq_projects : string -> option string }.

(** What is drawn for one event: the ids, and the clock at each of its readings. *)
Record draw := { dr_event : string; dr_session : string; dr_ts : Z; dr_seen : Z; dr_loaded : Z }.

Record ingest := { sessions : option sessionizer; catalog : option catalogGuard }.

Inductive http_error := HTTPError (code : Z) (message : string) | Failed (cause : string).

Section Handler.
Context `{GoNumbers} `{GoText}.

(** ** Properties *)

Definition stringProp (props : gmap string json) (key : string) : string :=
  match props !! key with Some (JStr s) => s | _ => "" end.

(** The integer part, toward zero. *)
Definition trunc (q : Q) : Z := Z.quot (Qnum q) (Zpos (Qden q)).

Definition go_int64 (q : Q) : Z :=
  if (min_i64 <=? trunc q) && (trunc q <=? max_i64) then trunc q else wild_int64 q.

Definition go_uint32 (q : Q) : Z :=
  if (0 <=? trunc q) && (trunc q <? 4294967296) then trunc q else wild_uint32 q mod 4294967296.

Definition uint32Prop (props : gmap string json) (key : string) : option Z :=
  match props !! key with Some (JNum q) => Some (go_uint32 q) | _ => None end.

Definition float32Prop (props : gmap string json) (key : string) : option Z :=
  match props !! key with Some (JNum q) => Some (float32_of q) | _ => None end.

Definition boolProp (props : gmap string json) (key : string) : bool :=
  match props !! key with Some (JBool b) => b | _ => false end.

Definition optionalJSON (v : option json) : string :=
  match v with
  | None | Some JNull => ""
  | Some (JStr s) => s
  | Some v => json_marshal v
  end.

Definition eventType (name : string) : string :=
  if has_prefix name "agent." then "agent" else if has_prefix name "system." then "system" else "user".

(** 1970-01-01 from Go's zero time. *)
Definition unix_epoch : Z := 62135596800 * second.

Definition unixMilli (ms : Z) : Z := unix_epoch + ms * millisecond.
Definition unix (s : Z) : Z := unix_epoch + s * second.

Definition layouts : list string := ["2006-01-02T15:04:05.999999999Z07:00"; "2006-01-02 15:04:05.000"; "2006-01-02 15:04:05"].

Fixpoint parse_any (ls : list string) (v : string) : option Z :=
  match ls with
  | [] => None
  | l :: ls => match time_parse l v with Some t => Some t | None => parse_any ls v end
  end.

Definition parseTimestamp (raw : json) (now : Z) : Z :=
  match raw with
  | JStr v => default now (parse_any layouts v)
  | JNum q =>
      if negb (Qle_bool q 1000000000000) then unixMilli (go_int64 q)
      else if negb (Qle_bool q 1000000000) then unix (go_int64 q)
      else now
  | _ => now
  end.

(** ** toEvent *)

Definition groups_json (groups : gmap string string) : json := JObj (map (fun kv => (kv.1, JStr kv.2)) (map_to_list groups)).

Definition props_of (payload : capturePayload) : gmap string json :=
  let props := cp_Properties payload in
  if bool_decide (cp_Groups payload = ∅) then props else <["$groups" := groups_json (cp_Groups payload)]> props.

Definition toEvent {E} (load : string -> result E (gset string)) (rq : request) (d : draw) (payload : capturePayload) (inheritedAPIKey : string)
    (st : ingest) : ingest * result http_error Event :=
  let apiKey := firstNonEmpty [cp_APIKey payload; cp_Token payload; inheritedAPIKey; rq_api_key rq] in
  match rq_projects rq apiKey with
  | None => (st, Err (HTTPError 401 "invalid api key"))
  | Some project =>
      if (cp_Event payload =? "")%string then (st, Err (HTTPError 400 "event is required"))
      else
        let props := props_of payload in
        let distinctID := firstNonEmpty [cp_DistinctID payload; stringProp props "distinct_id"] in
        if (distinctID =? "")%string then (st, Err (HTTPError 400 "distinct_id is required"))
        else
          let sessionID := firstNonEmpty [cp_SessionID payload; stringProp props "$session_id"; stringProp props "$session_id_uuid"] in
          let ts := parseTimestamp (cp_Timestamp payload) (dr_ts d) in
          let ua := firstNonEmpty [stringProp props "$user_agent"; rq_user_agent rq] in
          let '(visitorClass, botName) := classifyUA ua in
          let '(refHost, refChannel) := classifyReferrer (stringProp props "$referrer") in
          let '(sessions', sessionID) :=
            if (sessionID =? "")%string && (visitorClass =? VisitorHuman)%string
            then sessionFor (dr_session d) (dr_seen d) (sessions st) project distinctID ts
            else (sessions st, sessionID) in
          let '(catalog', unplanned) := isUnplanned load (dr_loaded d) (catalog st) project (cp_Event payload) in
          ({| sessions := sessions'; catalog := catalog' |},
           Ok {| e_ProjectID := project; e_EventID := dr_event d; e_DistinctID := distinctID; e_SessionID := sessionID;
                 e_EventName := cp_Event payload; e_EventType := eventType (cp_Event payload);
                 e_Properties := json_marshal (JObj (map_to_list props));
                 e_AgentID := stringProp props "agent_id"; e_ToolName := stringProp props "tool_name";
                 e_ToolInput := optionalJSON (props !! "tool_input"); e_ToolOutput := optionalJSON (props !! "tool_output");
                 e_TokensInput := uint32Prop props "tokens_input"; e_TokensOutput := uint32Prop props "tokens_output";
                 e_CostUSD := float32Prop props "cost_usd"; e_LatencyMS := uint32Prop props "latency_ms";
                 e_ModelName := stringProp props "model_name"; e_IsError := boolProp props "is_error";
                 e_ErrorMessage := stringProp props "error_message"; e_Timestamp := ts;
                 e_VisitorClass := visitorClass; e_BotName := botName; e_ReferrerHost := refHost; e_ReferrerChannel := refChannel;
                 e_UserAgent := ua;
                 e_Platform := ClassifyPlatform (firstNonEmpty [stringProp props "platform"; stringProp props "$platform"]) (stringProp props "$os") ua;
                 e_UTMSource := firstNonEmpty [stringProp props "$utm_source"; stringProp props "utm_source"];
                 e_UTMMedium := firstNonEmpty [stringProp props "$utm_medium"; stringProp props "utm_medium"];
                 e_UTMCampaign := firstNonEmpty [stringProp props "$utm_campaign"; stringProp props "utm_campaign"];
                 e_UTMTerm := firstNonEmpty [stringProp props "$utm_term"; stringProp props "utm_term"];
                 e_UTMContent := firstNonEmpty [stringProp props "$utm_content"; stringProp props "utm_content"];
                 e_InsertID := stringProp props "$insert_id"; e_IsUnplanned := unplanned |})
  end.

(** ** The handlers *)

(** The state after, the answer, and the events InsertEvents was called with, if it was. *)
Definition handled : Type := (ingest * result http_error unit * option (list Event))%type.

Section Handlers.
Context {E : Type} (load : string -> result E (gset string)) (insert : list Event -> option string) (rq : request).

Definition insertEvents (st : ingest) (events : list Event) : handled :=
  (st, match insert events with Some cause => Err (Failed cause) | None => Ok tt end, Some events).

Definition capture_as (d : draw) (payload : capturePayload) (inherited : string) (st : ingest) : handled :=
  match toEvent load rq d payload inherited st with
  | (st, Ok event) => insertEvents st [event]
  | (st, Err e) => (st, Err e, None)
  end.

Definition Capture (d : draw) (body : option capturePayload) (st : ingest) : handled :=
  match body with
  | None => (st, Err (HTTPError 400 "invalid json"), None)
  | Some payload => capture_as d payload "" st
  end.

Fixpoint to_events (ds : nat -> draw) (items : list capturePayload) (inherited : string) (st : ingest) : ingest * result http_error (list Event) :=
  match items with
  | [] => (st, Ok [])
  | item :: items =>
      match toEvent load rq (ds 0%nat) item inherited st with
      | (st, Err e) => (st, Err e)
      | (st, Ok event) =>
          match to_events (fun n => ds (S n)) items inherited st with
          | (st, Ok events) => (st, Ok (event :: events))
          | (st, Err e) => (st, Err e)
          end
      end
  end.

Definition BatchEvents (ds : nat -> draw) (body : option batchPayload) (st : ingest) : handled :=
  match body with
  | None => (st, Err (HTTPError 400 "invalid json"), None)
  | Some payload =>
      match ba_Batch payload with
      | [] => (st, Err (HTTPError 400 "batch is required"), None)
      | items =>
          match to_events ds items (firstNonEmpty [ba_APIKey payload; ba_Token payload]) st with
          | (st, Ok events) => insertEvents st events
          | (st, Err e) => (st, Err e, None)
          end
      end
  end.

Definition identify_payload (p : capturePayload) : capturePayload :=
  let put key (m : gmap string json) props := if bool_decide (m = ∅) then props else <[key := JObj (map_to_list m)]> props in
  {| cp_APIKey := cp_APIKey p; cp_Token := cp_Token p; cp_Event := "$identify"; cp_DistinctID := cp_DistinctID p; cp_SessionID := cp_SessionID p;
     cp_Properties := put "$set_once" (cp_SetOnce p) (put "$set" (cp_Set p) (cp_Properties p));
     cp_Timestamp := cp_Timestamp p; cp_Groups := cp_Groups p; cp_Set := cp_Set p; cp_SetOnce := cp_SetOnce p |}.

Definition Identify (d : draw) (body : option capturePayload) (st : ingest) : handled :=
  match body with
  | None => (st, Err (HTTPError 400 "invalid json"), None)
  | Some payload => capture_as d (identify_payload payload) "" st
  end.

(** The alias that is created, if the request is in order. *)
Definition Alias (create : string -> string -> string -> option string) (body : option aliasPayload) :
    result http_error unit * option (string * string * string) :=
  match body with
  | None => (Err (HTTPError 400 "invalid json"), None)
  | Some payload =>
      match rq_projects rq (firstNonEmpty [al_APIKey payload; al_Token payload; rq_api_key rq]) with
      | None => (Err (HTTPError 401 "invalid api key"), None)
      | Some project =>
          let anonymousID := trim_space (al_AnonymousID payload) in
          let canonicalID := trim_space (al_DistinctID payload) in
          if (anonymousID =? "")%string then (Err (HTTPError 400 "anonymous_id is required"), None)
          else if (canonicalID =? "")%string then (Err (HTTPError 400 "distinct_id is required"), None)
          else
            (match create project anonymousID canonicalID with Some cause => Err (Failed cause) | None => Ok tt end,
             Some (project, anonymousID, canonicalID))
      end
  end.
End Handlers.
End Handler.

(** ** What an accepted event is *)

Section Accepted.
Context `{GoNumbers} `{GoText}.

Definition key_of (rq : request) (payload : capturePayload) (inherited : string) : string :=
  firstNonEmpty [cp_APIKey payload; cp_Token payload; inherited; rq_api_key rq].

Definition distinct_of (payload : capturePayload) : string := firstNonEmpty [cp_DistinctID payload; stringProp (props_of payload) "distinct_id"].

Definition client_session (payload : capturePayload) : string :=
  firstNonEmpty [cp_SessionID payload; stringProp (props_of payload) "$session_id"; stringProp (props_of payload) "$session_id_uuid"].

Definition acceptable (rq : request) (inherited : string) (payload : capturePayload) : bool :=
  is_some (rq_projects rq (key_of rq payload inherited)) && negb (cp_Event payload =? "")%string && negb (distinct_of payload =? "")%string.

Definition u32 (n : option Z) : Prop := match n with Some n => 0 <= n < 4294967296 | None => True end.

(** The event of a payload, as far as it does not depend on what is drawn. *)
Record event_of (rq : request) (inherited : string) (payload : capturePayload) (e : Event) : Prop := {
  eo_project : rq_projects rq (key_of rq payload inherited) = Some (e_ProjectID e);
  eo_name : e_EventName e = cp_Event payload /\ e_EventName e <> "";
  eo_type : e_EventType e = eventType (e_EventName e);
  eo_distinct : e_DistinctID e = distinct_of payload /\ e_DistinctID e <> "";
  eo_session : client_session payload <> "" -> e_SessionID e = client_session payload;
  eo_bot : e_VisitorClass e <> VisitorHuman -> e_SessionID e = client_session payload;
  eo_class : (e_VisitorClass e, e_BotName e) = classifyUA (e_UserAgent e);
  eo_referrer : (e_ReferrerHost e, e_ReferrerChannel e) = classifyReferrer (stringProp (props_of payload) "$referrer");
  eo_counts : u32 (e_TokensInput e) /\ u32 (e_TokensOutput e) /\ u32 (e_LatencyMS e);
  eo_unplanned : e_IsUnplanned e = true -> isProductEvent (e_EventName e) = true;
  eo_properties : e_Properties e = json_marshal (JObj (map_to_list (props_of payload)));
}.

Lemma uint32Prop_range props key : u32 (uint32Prop props key).
Proof.
  unfold uint32Prop. destruct (props !! key) as [[]|]; try done. cbn. unfold go_uint32.
  destruct ((0 <=? trunc q) && (trunc q <? 4294967296)) eqn:Hr.
  - apply andb_true_iff in Hr as [H1 H2]. apply Z.leb_le in H1. apply Z.ltb_lt in H2. lia.
  - apply Z.mod_pos_bound. lia.
Qed.

Lemma isUnplanned_product {E} (load : string -> result E (gset string)) now g p name :
  (isUnplanned load now g p name).2 = true -> isProductEvent name = true.
Proof.
  unfold isUnplanned. destruct g as [g|]; [|done]. destruct (isProductEvent name); [done|]. by rewrite orb_true_r.
Qed.

(** A payload is accepted exactly when its key names a project and it has a name and a person. *)
Lemma toEvent_spec {E} (load : string -> result E (gset string)) rq d payload inherited st :
  match toEvent load rq d payload inherited st with
  | (_, Ok e) => acceptable rq inherited payload = true /\ event_of rq inherited payload e /\ e_EventID e = dr_event d
  | (st', Err e) => acceptable rq inherited payload = false /\ st' = st /\ exists code msg, e = HTTPError code msg
  end.
Proof.
  unfold toEvent, acceptable. fold (key_of rq payload inherited) (distinct_of payload). cbv zeta.
  destruct (rq_projects rq (key_of rq payload inherited)) as [project|] eqn:Hp; [|split_and!; [done|done|by do 2 eexists]]. cbn [is_some andb].
  destruct (String.eqb_spec (cp_Event payload) "") as [|Hname]; [split_and!; [done|done|by do 2 eexists]|]. cbn [negb andb].
  fold (distinct_of payload). destruct (String.eqb_spec (distinct_of payload) "") as [|Hd]; [split_and!; [done|done|by do 2 eexists]|].
  fold (client_session payload). set (ua := firstNonEmpty [stringProp (props_of payload) "$user_agent"; rq_user_agent rq]).
  destruct (classifyUA ua) as [visitorClass botName] eqn:Hua. destruct (classifyReferrer _) as [refHost refChannel] eqn:Href.
  assert (Hsess : exists s id, (if (client_session payload =? "")%string && (visitorClass =? VisitorHuman)%string
      then sessionFor (dr_session d) (dr_seen d) (sessions st) project (distinct_of payload) (parseTimestamp (cp_Timestamp payload) (dr_ts d))
      else (sessions st, client_session payload)) = (s, id) /\
    (client_session payload <> "" -> id = client_session payload) /\ (visitorClass <> VisitorHuman -> id = client_session payload)).
  { destruct (String.eqb_spec (client_session payload) "") as [Hc|Hc]; cbn.
    - destruct (String.eqb_spec visitorClass VisitorHuman) as [Hv|Hv].
      + destruct (sessionFor _ _ _ _ _ _) as [s id]. exists s, id. done.
      + by do 2 eexists.
    - by do 2 eexists. }
  destruct Hsess as (s & id & -> & Hid1 & Hid2). pose proof (isUnplanned_product load (dr_loaded d) (catalog st) project (cp_Event payload)) as Hun.
  destruct (isUnplanned _ _ _ _ _) as [catalog' unplanned]. split; [done|]. split; [|done].
  constructor; cbn; try done; split_and!; apply uint32Prop_range.
Qed.

Context {E : Type} (load : string -> result E (gset string)) (insert : list Event -> option string) (rq : request).

Lemma to_events_spec ds items inherited st :
  match to_events load rq ds items inherited st with
  | (_, Ok events) => forallb (acceptable rq inherited) items = true /\ Forall2 (event_of rq inherited) items events
  | (_, Err e) => forallb (acceptable rq inherited) items = false /\ exists code msg, e = HTTPError code msg
  end.
Proof.
  revert ds st. induction items as [|item items IH]; intros ds st; cbn; [by split|].
  pose proof (toEvent_spec load rq (ds 0%nat) item inherited st) as Hs. destruct (toEvent _ _ _ _ _ _) as [st1 [event|e]].
  - destruct Hs as (-> & He & _). cbn. specialize (IH (fun n => ds (S n)) st1). destruct (to_events _ _ _ _ _ _) as [st2 [events|e]].
    + destruct IH as [-> ?]. split; [done|]. by constructor.
    + by destruct IH as [-> ?].
  - destruct Hs as (-> & _ & ?). by split.
Qed.
End Accepted.

(** ** What a client observed

    The contract of the wire, stated apart from the code: an observation, its form as a
    payload, and what the written event must show of it. *)

Inductive origin := FromUser | FromAgent | FromSystem.

(** When it happened, as the wire says it: milliseconds or seconds since 1970 as a number, a
    text that reads as an instant, or nothing. *)
Inductive moment := AtMillis (ms : Z) | AtSeconds (s : Z) | AtText (s : string) (t : Z) | OnArrival.

Record observation := {
  ob_origin : origin; ob_label : string; ob_person : string; ob_session : string; ob_when : moment;
  ob_agent : option string; ob_tool : option string; ob_tool_input : option string; ob_tool_output : option string;
  ob_tokens_in : option Z; ob_tokens_out : option Z; ob_latency : option Z; ob_cost : option Q;
  ob_model : option string; ob_failed : bool; ob_error : option string;
  ob_browser : option string; ob_referrer : option string; ob_surface : option string;
  ob_source : option string; ob_medium : option string; ob_campaign : option string; ob_term : option string;
  ob_content : option string; ob_once : option string; ob_more : gmap string json;
}.

(** Where the client put its key. *)
Inductive key_place := InKey | InToken | InBatch | InHeader.

Definition put (key : string) (v : option json) (m : gmap string json) : gmap string json :=
  match v with Some v => <[key := v]> m | None => m end.

Definition jtext (o : option string) : option json := JStr <$> o.
Definition jint (o : option Z) : option json := (fun n => JNum (inject_Z n)) <$> o.

(** The property names with a column or a meaning of their own. *)
Definition reserved : list string :=
  ["distinct_id"; "$session_id"; "$session_id_uuid"; "$user_agent"; "$referrer"; "agent_id"; "tool_name"; "tool_input";
   "tool_output"; "tokens_input"; "tokens_output"; "cost_usd"; "latency_ms"; "model_name"; "is_error"; "error_message";
   "platform"; "$platform"; "$os"; "$utm_source"; "utm_source"; "$utm_medium"; "utm_medium"; "$utm_campaign"; "utm_campaign";
   "$utm_term"; "utm_term"; "$utm_content"; "utm_content"; "$insert_id"].

Definition wire_properties (ob : observation) : gmap string json :=
  put "agent_id" (jtext (ob_agent ob)) (put "tool_name" (jtext (ob_tool ob)) (put "tool_input" (jtext (ob_tool_input ob))
  (put "tool_output" (jtext (ob_tool_output ob)) (put "tokens_input" (jint (ob_tokens_in ob)) (put "tokens_output" (jint (ob_tokens_out ob))
  (put "latency_ms" (jint (ob_latency ob)) (put "cost_usd" (JNum <$> ob_cost ob) (put "model_name" (jtext (ob_model ob))
  (put "is_error" (if ob_failed ob then Some (JBool true) else None) (put "error_message" (jtext (ob_error ob))
  (put "$user_agent" (jtext (ob_browser ob)) (put "$referrer" (jtext (ob_referrer ob)) (put "platform" (jtext (ob_surface ob))
  (put "$utm_source" (jtext (ob_source ob)) (put "$utm_medium" (jtext (ob_medium ob)) (put "$utm_campaign" (jtext (ob_campaign ob))
  (put "$utm_term" (jtext (ob_term ob)) (put "$utm_content" (jtext (ob_content ob)) (put "$insert_id" (jtext (ob_once ob))
  (ob_more ob)))))))))))))))))))).

Definition wire_name (ob : observation) : string :=
  match ob_origin ob with FromUser => ob_label ob | FromAgent => "agent." +:+ ob_label ob | FromSystem => "system." +:+ ob_label ob end.

(** The key is where the client put it; later places hold [other]. *)
Definition place_rank (place : key_place) : nat := match place with InKey => 0 | InToken => 1 | InBatch => 2 | InHeader => 3 end.

Definition key_at (place here : key_place) (key other : string) : string :=
  match (place_rank place ?= place_rank here)%nat with Eq => key | Lt => other | Gt => "" end.

Definition wire_payload (ob : observation) (place : key_place) (key other : string) : capturePayload :=
  {| cp_APIKey := key_at place InKey key other; cp_Token := key_at place InToken key other; cp_Event := wire_name ob;
     cp_DistinctID := ob_person ob; cp_SessionID := ob_session ob; cp_Properties := wire_properties ob;
     cp_Timestamp := match ob_when ob with AtMillis n | AtSeconds n => JNum (inject_Z n) | AtText s _ => JStr s | OnArrival => JNull end;
     cp_Groups := ∅; cp_Set := ∅; cp_SetOnce := ∅ |}.

Section Meaning.
Context `{GoText}.

(** RFC 3339 first, then the two forms without a zone. *)
Definition reads_as (s : string) (t : Z) : Prop :=
  let rfc3339 := time_parse "2006-01-02T15:04:05.999999999Z07:00" s in
  let millis := time_parse "2006-01-02 15:04:05.000" s in
  rfc3339 = Some t \/ (rfc3339 = None /\ (millis = Some t \/ (millis = None /\ time_parse "2006-01-02 15:04:05" s = Some t))).

(** An observation the wire can say: a user's event is not named like the others, counters
    have 32 bits, and numbers are told apart by their size and exact in a float64. *)
Record sayable (ob : observation) : Prop := {
  sa_name : wire_name ob <> "";
  sa_user : ob_origin ob = FromUser -> has_prefix (ob_label ob) "agent." = false /\ has_prefix (ob_label ob) "system." = false;
  sa_person : ob_person ob <> "";
  sa_counts n : ob_tokens_in ob = Some n \/ ob_tokens_out ob = Some n \/ ob_latency ob = Some n -> 0 <= n < 4294967296;
  sa_when : match ob_when ob with
            | AtMillis n => 1000000000000 < n <= 9007199254740992
            | AtSeconds n => 1000000000 < n <= 1000000000000
            | AtText s t => reads_as s t
            | OnArrival => True
            end;
  sa_more k : k ∈ reserved -> ob_more ob !! k = None;
}.
End Meaning.

Section Shown.
Context `{GoNumbers} `{GoText}.

(** What the event shows of the observation. *)
Record shows (rq : request) (d : draw) (project : string) (ob : observation) (e : Event) : Prop := {
  sh_project : e_ProjectID e = project;
  sh_name : e_EventName e = wire_name ob;
  sh_type : e_EventType e = match ob_origin ob with FromUser => "user" | FromAgent => "agent" | FromSystem => "system" end;
  sh_person : e_DistinctID e = ob_person ob;
  sh_session : ob_session ob <> "" -> e_SessionID e = ob_session ob;
  sh_crawler : e_VisitorClass e <> "human" -> e_SessionID e = ob_session ob;
  sh_when : e_Timestamp e =
            62135596800 * 1000000000 +
            match ob_when ob with
            | AtMillis n => n * 1000000
            | AtSeconds n => n * 1000000000
            | AtText _ t => t - 62135596800 * 1000000000
            | OnArrival => dr_ts d - 62135596800 * 1000000000
            end;
  sh_agent : e_AgentID e = default "" (ob_agent ob);
  sh_tool : e_ToolName e = default "" (ob_tool ob) /\ e_ToolInput e = default "" (ob_tool_input ob) /\
            e_ToolOutput e = default "" (ob_tool_output ob);
  sh_tokens : e_TokensInput e = ob_tokens_in ob /\ e_TokensOutput e = ob_tokens_out ob;
  sh_latency : e_LatencyMS e = ob_latency ob;
  sh_cost : e_CostUSD e = float32_of <$> ob_cost ob;
  sh_model : e_ModelName e = default "" (ob_model ob);
  sh_failed : e_IsError e = ob_failed ob /\ e_ErrorMessage e = default "" (ob_error ob);
  sh_browser : e_UserAgent e = match ob_browser ob with Some ua => if (ua =? "")%string then rq_user_agent rq else ua | None => rq_user_agent rq end;
  sh_class : (e_VisitorClass e, e_BotName e) = classifyUA (e_UserAgent e);
  sh_referrer : (e_ReferrerHost e, e_ReferrerChannel e) = classifyReferrer (default "" (ob_referrer ob));
  sh_surface p : ob_surface ob = Some p -> normalizePlatform p <> "" -> e_Platform e = normalizePlatform p;
  sh_utm : [e_UTMSource e; e_UTMMedium e; e_UTMCampaign e; e_UTMTerm e; e_UTMContent e] =
           (default "" <$> [ob_source ob; ob_medium ob; ob_campaign ob; ob_term ob; ob_content ob]);
  sh_once : e_InsertID e = default "" (ob_once ob);
  sh_all : e_Properties e = json_marshal (JObj (map_to_list (wire_properties ob)));
  sh_id : e_EventID e = dr_event d;
  sh_unplanned : e_IsUnplanned e = true -> isProductEvent (wire_name ob) = true;
}.

Lemma put_here key v m : m !! key = None -> put key v m !! key = v.
Proof. destruct v; simpl; [by rewrite lookup_insert_eq|done]. Qed.

Lemma put_there key v m k : k <> key -> put key v m !! k = m !! k.
Proof. intros Hk. destruct v; simpl; [|done]. by rewrite lookup_insert_ne. Qed.

Lemma stringProp_text (m : gmap string json) key o : m !! key = jtext o -> stringProp m key = default "" o.
Proof. unfold stringProp. intros ->. by destruct o. Qed.

Lemma optionalJSON_text o : optionalJSON (jtext o) = default "" o.
Proof. by destruct o. Qed.

Lemma uint32Prop_int (m : gmap string json) key o :
  m !! key = jint o -> (forall n, o = Some n -> 0 <= n < 4294967296) -> uint32Prop m key = o.
Proof.
  unfold uint32Prop. intros ->. destruct o as [n|]; [|done]. intros Hn. specialize (Hn n eq_refl). simpl.
  unfold go_uint32, trunc. simpl. rewrite Z.quot_1_r.
  by rewrite (proj2 (Z.leb_le _ _)), (proj2 (Z.ltb_lt _ _)) by lia.
Qed.

Lemma parse_any_reads s t now : reads_as s t -> default now (parse_any layouts s) = t.
Proof.
  unfold reads_as, layouts. cbn [parse_any]. intros [->|[-> [->|[-> ->]]]]; done.
Qed.

Lemma parseTimestamp_says ob now : sayable ob ->
  parseTimestamp (cp_Timestamp (wire_payload ob InKey "" "")) now =
  62135596800 * 1000000000 + match ob_when ob with
    | AtMillis n => n * 1000000 | AtSeconds n => n * 1000000000
    | AtText _ t => t - 62135596800 * 1000000000 | OnArrival => now - 62135596800 * 1000000000 end.
Proof.
  intros [_ _ _ _ Hw _]. simpl. destruct (ob_when ob) as [n|n|s t|]; cbn [parseTimestamp].
  - assert (E : Qle_bool (inject_Z n) 1000000000000 = false) by (unfold Qle_bool; simpl; lia). rewrite E. cbn [negb].
    unfold unixMilli, go_int64, trunc. simpl. rewrite Z.quot_1_r.
    rewrite (proj2 (Z.leb_le _ _)), (proj2 (Z.leb_le _ _)) by (unfold min_i64, max_i64, two63; lia). reflexivity.
  - assert (E : Qle_bool (inject_Z n) 1000000000000 = true) by (unfold Qle_bool; simpl; lia). rewrite E. cbn [negb].
    assert (E2 : Qle_bool (inject_Z n) 1000000000 = false) by (unfold Qle_bool; simpl; lia). rewrite E2. cbn [negb].
    unfold unix, go_int64, trunc. simpl. rewrite Z.quot_1_r.
    rewrite (proj2 (Z.leb_le _ _)), (proj2 (Z.leb_le _ _)) by (unfold min_i64, max_i64, two63; lia). reflexivity.
  - rewrite (parse_any_reads s t now Hw). lia.
  - lia.
Qed.

Lemma eventType_says ob : sayable ob ->
  eventType (wire_name ob) = match ob_origin ob with FromUser => "user" | FromAgent => "agent" | FromSystem => "system" end.
Proof.
  intros [_ Hu _ _ _ _]. unfold eventType, wire_name. destruct (ob_origin ob).
  - by destruct (Hu eq_refl) as [-> ->].
  - unfold has_prefix. simpl. by destruct (ob_label ob).
  - unfold has_prefix. simpl. by destruct (ob_label ob).
Qed.

(** The value of one property of the wire form. *)
Local Ltac at_key :=
  unfold wire_properties; repeat (rewrite put_there by discriminate);
  try (rewrite put_here; [done|]; repeat (rewrite put_there by discriminate));
  match goal with Hs : sayable _ |- _ => apply (sa_more _ Hs), list_elem_of_In; simpl; tauto end.

Lemma first_of_two x : firstNonEmpty [x; ""] = x.
Proof. unfold firstNonEmpty. simpl. by destruct (String.eqb_spec x ""). Qed.

Lemma key_found place key other : key <> "" ->
  firstNonEmpty [key_at place InKey key other; key_at place InToken key other; key_at place InBatch key other;
                 key_at place InHeader key other] = key.
Proof.
  intros Hk. destruct key as [|c k]; [done|]. by destruct place.
Qed.

Lemma wire_texts ob : sayable ob ->
  let P := wire_properties ob in
  stringProp P "agent_id" = default "" (ob_agent ob) /\ stringProp P "tool_name" = default "" (ob_tool ob) /\
  stringProp P "model_name" = default "" (ob_model ob) /\ stringProp P "error_message" = default "" (ob_error ob) /\
  stringProp P "$user_agent" = default "" (ob_browser ob) /\ stringProp P "$referrer" = default "" (ob_referrer ob) /\
  stringProp P "platform" = default "" (ob_surface ob) /\ stringProp P "$insert_id" = default "" (ob_once ob).
Proof. intros Hs P. split_and!; apply stringProp_text; unfold P; at_key. Qed.

Lemma wire_tags ob : sayable ob ->
  let P := wire_properties ob in
  firstNonEmpty [stringProp P "$utm_source"; stringProp P "utm_source"] = default "" (ob_source ob) /\
  firstNonEmpty [stringProp P "$utm_medium"; stringProp P "utm_medium"] = default "" (ob_medium ob) /\
  firstNonEmpty [stringProp P "$utm_campaign"; stringProp P "utm_campaign"] = default "" (ob_campaign ob) /\
  firstNonEmpty [stringProp P "$utm_term"; stringProp P "utm_term"] = default "" (ob_term ob) /\
  firstNonEmpty [stringProp P "$utm_content"; stringProp P "utm_content"] = default "" (ob_content ob).
Proof.
  intros Hs P.
  assert (Hfirst : forall a b (o : option string), P !! a = jtext o -> P !! b = None ->
    firstNonEmpty [stringProp P a; stringProp P b] = default "" o).
  { intros a b o Ha Hb. rewrite (stringProp_text P a o Ha), (stringProp_text P b None Hb). apply first_of_two. }
  split_and!; (apply Hfirst; unfold P; at_key).
Qed.

Lemma wire_numbers ob : sayable ob ->
  let P := wire_properties ob in
  uint32Prop P "tokens_input" = ob_tokens_in ob /\ uint32Prop P "tokens_output" = ob_tokens_out ob /\
  uint32Prop P "latency_ms" = ob_latency ob /\ float32Prop P "cost_usd" = float32_of <$> ob_cost ob /\
  boolProp P "is_error" = ob_failed ob /\ optionalJSON (P !! "tool_input") = default "" (ob_tool_input ob) /\
  optionalJSON (P !! "tool_output") = default "" (ob_tool_output ob).
Proof.
  intros Hs P. pose proof (sa_counts _ Hs) as Hc.
  assert (E1 : P !! "cost_usd" = JNum <$> ob_cost ob) by (unfold P; at_key).
  assert (E2 : P !! "is_error" = if ob_failed ob then Some (JBool true) else None) by (unfold P; at_key).
  assert (E3 : P !! "tool_input" = jtext (ob_tool_input ob)) by (unfold P; at_key).
  assert (E4 : P !! "tool_output" = jtext (ob_tool_output ob)) by (unfold P; at_key).
  split_and!; try (apply uint32Prop_int; [unfold P; at_key|intros n Hn; apply Hc; tauto]).
  - unfold float32Prop. rewrite E1. by destruct (ob_cost ob).
  - unfold boolProp. rewrite E2. by destruct (ob_failed ob).
  - rewrite E3. apply optionalJSON_text.
  - rewrite E4. apply optionalJSON_text.
Qed.

Lemma surface_shown p os ua : normalizePlatform p <> "" -> ClassifyPlatform (firstNonEmpty [p; ""]) os ua = normalizePlatform p.
Proof.
  intros Hp. rewrite first_of_two. unfold ClassifyPlatform. by rewrite (proj2 (String.eqb_neq _ _) Hp).
Qed.

Lemma toEvent_shows {E} (load : string -> result E (gset string)) rq d project ob place key other st :
  sayable ob -> key <> "" -> rq_api_key rq = key_at place InHeader key other -> rq_projects rq key = Some project ->
  exists st' e, toEvent load rq d (wire_payload ob place key other) (key_at place InBatch key other) st = (st', Ok e) /\
    shows rq d project ob e.
Proof.
  intros Hs Hkey Hhead Hproj. pose proof (toEvent_spec load rq d (wire_payload ob place key other) (key_at place InBatch key other) st) as Hspec.
  assert (Hk : key_of rq (wire_payload ob place key other) (key_at place InBatch key other) = key)
    by (unfold key_of; rewrite Hhead; by apply key_found).
  assert (HP : props_of (wire_payload ob place key other) = wire_properties ob) by done.
  assert (Hdist : distinct_of (wire_payload ob place key other) = ob_person ob).
  { unfold distinct_of. rewrite HP. simpl. unfold firstNonEmpty. simpl. by rewrite (proj2 (String.eqb_neq _ _) (sa_person _ Hs)). }
  assert (Hclient : client_session (wire_payload ob place key other) = ob_session ob).
  { unfold client_session. rewrite HP. rewrite (stringProp_text _ "$session_id" None), (stringProp_text _ "$session_id_uuid" None) by at_key.
    unfold firstNonEmpty. simpl. by destruct (String.eqb_spec (ob_session ob) ""). }
  assert (Hacc : acceptable rq (key_at place InBatch key other) (wire_payload ob place key other) = true).
  { unfold acceptable. rewrite Hk, Hproj, Hdist. simpl.
    by rewrite (proj2 (String.eqb_neq _ _) (sa_name _ Hs)), (proj2 (String.eqb_neq _ _) (sa_person _ Hs)). }
  destruct (toEvent load rq d _ _ st) as [st' [e|err]] eqn:Et; [|destruct Hspec as [Hn _]; congruence].
  exists st', e. split; [done|]. destruct Hspec as (_ & Heo & Hid).
  unfold toEvent in Et. fold (key_of rq (wire_payload ob place key other) (key_at place InBatch key other)) in Et.
  rewrite Hk, Hproj in Et. cbv zeta in Et. fold (distinct_of (wire_payload ob place key other)) in Et.
  rewrite Hdist, HP in Et. change (cp_Event (wire_payload ob place key other)) with (wire_name ob) in Et.
  rewrite (proj2 (String.eqb_neq _ _) (sa_name _ Hs)), (proj2 (String.eqb_neq _ _) (sa_person _ Hs)) in Et.
  destruct (wire_texts ob Hs) as (T1 & T2 & T3 & T4 & T5 & T6 & T7 & T8).
  destruct (wire_tags ob Hs) as (G1 & G2 & G3 & G4 & G5).
  destruct (wire_numbers ob Hs) as (N1 & N2 & N3 & N4 & N5 & N6 & N7).
  rewrite (stringProp_text _ "$platform" None), T1, T2, T3, T4, T5, T6, T7, T8, G1, G2, G3, G4, G5, N1, N2, N3, N4, N5, N6, N7 in Et by at_key.
  destruct (classifyUA _) as [cls bot] eqn:Hua. destruct (classifyReferrer _) as [refHost refChannel] eqn:Href.
  destruct (if _ && _ then _ else _) as [s sid]. destruct (isUnplanned _ _ _ _ _) as [c u]. injection Et as <- <-.
  constructor; cbn [e_ProjectID e_EventName e_EventType e_DistinctID e_Timestamp e_AgentID e_ToolName e_ToolInput e_ToolOutput
    e_TokensInput e_TokensOutput e_LatencyMS e_CostUSD e_ModelName e_IsError e_ErrorMessage e_UserAgent e_VisitorClass e_BotName
    e_ReferrerHost e_ReferrerChannel e_Platform e_UTMSource e_UTMMedium e_UTMCampaign e_UTMTerm e_UTMContent e_InsertID e_Properties
    e_EventID]; try done.
  - by apply eventType_says.
  - rewrite <- Hclient. apply (eo_session _ _ _ _ Heo).
  - rewrite <- Hclient. apply (eo_bot _ _ _ _ Heo).
  - exact (parseTimestamp_says ob (dr_ts d) Hs).
  - unfold firstNonEmpty. destruct (ob_browser ob) as [ua|]; simpl; [destruct (ua =? "")%string; simpl|];
      destruct (String.eqb_spec (rq_user_agent rq) ""); by simpl.
  - intros p -> Hp. by apply surface_shown.
  - apply (eo_unplanned _ _ _ _ Heo).
Qed.
End Shown.

(** C19: A batch is written whole or not at all.  When its body decodes to at least one item,
    every item's key names a project and every item has a name and a person, the writer is
    called once, with one event per item in the batch's order, each the event of its item, and
    the answer is the writer's; in every other case nothing is written and the answer is a
    client error. *)
Theorem batch_is_written_whole `{GoNumbers} `{GoText} {E} (load : string -> result E (gset string)) insert rq ds body st :
  let '(_, answer, written) := BatchEvents load insert rq ds body st in
  match body with
  | Some b =>
      let inherited := firstNonEmpty [ba_APIKey b; ba_Token b] in
      if negb (bool_decide (ba_Batch b = [])) && forallb (acceptable rq inherited) (ba_Batch b)
      then exists events, written = Some events /\ Forall2 (event_of rq inherited) (ba_Batch b) events /\
             answer = match insert events with Some cause => Err (Failed cause) | None => Ok tt end
      else written = None /\ exists code msg, answer = Err (HTTPError code msg)
  | None => written = None /\ exists code msg, answer = Err (HTTPError code msg)
  end.
Proof.
  unfold BatchEvents. destruct body as [b|]; [|split; [done|by do 2 eexists]]. cbv zeta. destruct (ba_Batch b) as [|item items] eqn:Hb.
  - rewrite bool_decide_eq_true_2 by done. split; [done|by do 2 eexists].
  - rewrite bool_decide_eq_false_2 by done. rewrite <- Hb. pose proof (to_events_spec load rq ds (ba_Batch b) (firstNonEmpty [ba_APIKey b; ba_Token b]) st) as Hs.
    destruct (to_events _ _ _ _ _ _) as [st1 [events|e]]; destruct Hs as [-> Hs]; cbn.
    + by exists events.
    + destruct Hs as (code & msg & ->). split; [done|by do 2 eexists].
Qed.

(** C20: What a client observed comes back from the wire.  An observation that the wire can
    say, sent with a key of the project in the payload, its token field, the batch or the
    header (whatever the later places hold), becomes an event of that project that shows it
    column by column: its name and the type of its origin, the person, the client's session
    (a crawler gets no other), the instant it names in milliseconds, seconds or text and the
    server's clock when it names none, the agent's tool, model, token, latency and cost
    fields, the error, the user agent with its class, the referrer with its channel, the
    surface, the five campaign tags and the insertion id, and all its properties as text. *)
Theorem payload_becomes_its_event `{GoNumbers} `{GoText} {E} (load : string -> result E (gset string)) rq d project ob
    place key other st :
  sayable ob -> key <> "" -> rq_api_key rq = key_at place InHeader key other -> rq_projects rq key = Some project ->
  exists st' e, toEvent load rq d (wire_payload ob place key other) (key_at place InBatch key other) st = (st', Ok e) /\
    shows rq d project ob e.
Proof. apply toEvent_shows. Qed.

(** ** Witness *)

#[local] Instance w_numbers : GoNumbers := {| wild_int64 := fun _ => 0; wild_uint32 := fun _ => 0; float32_of := fun q => Qnum q |}.
#[local] Instance w_text : GoText := {| json_marshal := fun _ => "{}"; time_parse := fun _ _ => None |}.

(** The call of a tool, as the README shows it. *)
Definition w_observation : observation :=
  {| ob_origin := FromAgent; ob_label := "tool_call"; ob_person := "local-user"; ob_session := "session-1";
     ob_when := AtMillis 1735689600000; ob_agent := None; ob_tool := Some "search"; ob_tool_input := None; ob_tool_output := None;
     ob_tokens_in := Some 42; ob_tokens_out := Some 11; ob_latency := Some 120; ob_cost := None; ob_model := None;
     ob_failed := false; ob_error := None; ob_browser := None; ob_referrer := None; ob_surface := Some "server";
     ob_source := None; ob_medium := None; ob_campaign := None; ob_term := None; ob_content := None; ob_once := None;
     ob_more := {[ "plan" := JStr "pro" ]} |}.

Definition w_request : request :=
  {| rq_api_key := "stale"; rq_user_agent := "curl/8"; rq_projects := fun key => if (key =? "lohi")%string then Some "p1" else None |}.

Definition w_draw : draw := {| dr_event := "e1"; dr_session := "s1"; dr_ts := 5; dr_seen := 6; dr_loaded := 7 |}.

Lemma payload_becomes_its_event_witness :
  sayable w_observation /\
  exists st' e, toEvent (fun _ => Err tt) w_request w_draw (wire_payload w_observation InKey "lohi" "stale") "stale"
      {| sessions := None; catalog := None |} = (st', Ok e) /\ e_EventType e = "agent" /\ e_TokensInput e = Some 42 /\
    shows w_request w_draw "p1" w_observation e.
Proof.
  assert (Hs : sayable w_observation).
  { split; [done|done|done| |done|].
    - intros n [[= <-]|[[= <-]|[= <-]]]; lia.
    - intros k Hk. unfold reserved in Hk. repeat (apply elem_of_cons in Hk as [->|Hk]; [done|]). by apply not_elem_of_nil in Hk. }
  split; [exact Hs|].
  destruct (payload_becomes_its_event (fun _ => Err tt) w_request w_draw "p1" w_observation InKey "lohi" "stale"
    {| sessions := None; catalog := None |} Hs ltac:(discriminate) eq_refl eq_refl) as (st' & e & He & Hshow).
  exists st', e. split; [exact He|]. split; [exact (sh_type _ _ _ _ _ Hshow)|].
  split; [exact (proj1 (sh_tokens _ _ _ _ _ Hshow))|exact Hshow].
Defined.
