(* ===== verification/Waitlist.v ===== *)
(** * Waitlist: the public signup

    waitlist.go of internal/dataplane/ingest over the waitlist_signups table of
    internal/dataplane/store/validation.go: a signup is a row and, when it is a join, an
    event.  Each read and each row a statement writes is atomic, and every read may see an
    older table than the write: the database runs at READ COMMITTED.  The request, the drawn
    token, the answer of the event writer and the cap ([waitlistCap] in the code) are
    arguments. *)

From Stdlib Require Import QArith Ascii.
From S2P Require Import Prelude GoStrings GoTime Duck Persons Classify Sessionizer CatalogGuard IngestHandler.
Import String.
Open Scope string_scope.
Open Scope list_scope.
Open Scope Z_scope.

(** ** The table *)

(** (project, email_key) *)
Abbreviation address := (string * string)%type.

Record signup_row := {
  su_Email : string; su_Source : string; su_Referrer : string; su_DistinctID : string; su_ConsentText : string;
  su_Subscribed : bool; su_Token : string;
}.

Record WaitlistSignup := {
  sn_ProjectID : string; sn_Email : string; sn_Source : string; sn_Referrer : string; sn_DistinctID : string; sn_ConsentText : string;
}.

Definition waitlistCap : nat := Z.to_nat 50000.

Definition blank_or_delimiter (c : ascii) : bool :=
  let b := byte c in (b =? 32) || (b =? 9) || (b =? 13) || (b =? 10) || (b =? 44) || (b =? 59) || (b =? 60) || (b =? 62) || (b =? 34).

Definition plausibleEmail (s : string) : bool :=
  let len := String.length s in
  if (len <? 6)%nat || (254 <? len)%nat || exists_byte blank_or_delimiter s then false
  else
    match last_index_byte s "@"%char with
    | None | Some O => false
    | Some at_ =>
        if (at_ =? len - 1)%nat then false
        else
          let domain := drop_str (S at_) s in
          match last_index_byte domain "."%char with
          | None | Some O => false
          | Some dot => (dot <? String.length domain - 1)%nat
          end
    end.

Definition subscribed_of (project : string) (tbl : gmap address signup_row) : nat :=
  size (base.filter (fun kv : address * signup_row => kv.1.1 = project /\ su_Subscribed kv.2 = true) tbl).

Definition kept (new old : string) : string := if (new =? "")%string then old else new.

Definition upsert (token : string) (sn : WaitlistSignup) (email : string) (prev : option signup_row) : signup_row :=
  match prev with
  | None => {| su_Email := email; su_Source := sn_Source sn; su_Referrer := sn_Referrer sn; su_DistinctID := sn_DistinctID sn;
               su_ConsentText := sn_ConsentText sn; su_Subscribed := true; su_Token := token |}
  | Some r => {| su_Email := su_Email r; su_Source := kept (sn_Source sn) (su_Source r); su_Referrer := kept (sn_Referrer sn) (su_Referrer r);
                 su_DistinctID := kept (sn_DistinctID sn) (su_DistinctID r); su_ConsentText := su_ConsentText r; su_Subscribed := true; su_Token := su_Token r |}
  end.

(** What Postgres stores: a value as TEXT, and one as VARCHAR(128). *)
Class Columns := { fits_text : string -> bool; fits_128 : string -> bool }.

Definition storable `{Columns} (sn : WaitlistSignup) (email : string) : bool :=
  forallb fits_text [email; to_lower email; sn_Referrer sn; sn_ConsentText sn] && forallb fits_128 [sn_Source sn; sn_DistinctID sn].

(** Unique index on unsubscribe_token. *)
Definition token_taken (token : string) (tbl : gmap address signup_row) : bool :=
  negb (size (base.filter (fun kv : address * signup_row => su_Token kv.2 = token) tbl) =? 0)%nat.

(** What the reads of a submission saw: the two probes of the cap, and the snapshot of the
    statement that inserts. *)
Record view := { v_counted : gmap address signup_row; v_known : gmap address signup_row; v_prev : gmap address signup_row }.

(** The table as it is when the insert meets it is [tbl]; whether the row was inserted is
    known from there, the status it had on arrival from the snapshot. *)
Definition AddWaitlistSignup `{Columns} (cap : nat) (token : string) (sn : WaitlistSignup) (v : view) (tbl : gmap address signup_row) :
    result string (gmap address signup_row * bool) :=
  let email := trim_space (sn_Email sn) in
  let key := to_lower email in
  if negb (plausibleEmail key) then Err "a valid email address is required"
  else if (cap <=? subscribed_of (sn_ProjectID sn) (v_counted v))%nat && negb (is_some (v_known v !! (sn_ProjectID sn, key)))
  then Err (String.append "waitlist is full (" (String.append (itoa (Z.of_nat cap)) " addresses)"))
  else
    let met := tbl !! (sn_ProjectID sn, key) in
    if negb (storable sn email) || (negb (is_some met) && token_taken token tbl) then Err "refused by the database"
    else
      Ok (<[(sn_ProjectID sn, key) := upsert token sn email met]> tbl,
          negb (is_some met) || match v_prev v !! (sn_ProjectID sn, key) with Some r => negb (su_Subscribed r) | None => false end).

Definition unsubscribed (r : signup_row) : signup_row :=
  {| su_Email := su_Email r; su_Source := su_Source r; su_Referrer := su_Referrer r; su_DistinctID := su_DistinctID r;
     su_ConsentText := su_ConsentText r; su_Subscribed := false; su_Token := su_Token r |}.

Definition UnsubscribeWaitlist (token : string) (tbl : gmap address signup_row) : result string (gmap address signup_row) :=
  if (trim_space token =? "")%string then Err "token is required"
  else if negb (token_taken token tbl) then Err "unknown or already-used unsubscribe link"
  else Ok ((fun r => if (su_Token r =? token)%string then unsubscribed r else r) <$> tbl).

(** ** The handlers *)

Record waitlistPayload := {
  wp_APIKey : string; wp_Token : string; wp_Email : string; wp_Consent : bool; wp_ConsentText : string;
  wp_Source : string; wp_DistinctID : string; wp_Properties : gmap string json;
}.

(** The state after: the pipeline's and the table; the answer; the events the writer was given. *)
Record signed := { sg_ingest : ingest; sg_table : gmap address signup_row; sg_answer : result http_error unit; sg_written : option (list Event) }.

Section Handler.
Context `{GoNumbers} `{GoText} `{Columns} {E : Type} (load : string -> result E (gset string)) (insert : list Event -> option string) (rq : request).

Definition join_payload (apiKey distinctID : string) (p : waitlistPayload) : capturePayload :=
  {| cp_APIKey := apiKey; cp_Token := ""; cp_Event := "waitlist.joined"; cp_DistinctID := distinctID; cp_SessionID := "";
     cp_Properties := <["source" := JStr (wp_Source p)]> (wp_Properties p); cp_Timestamp := JNull; cp_Groups := ∅; cp_Set := ∅; cp_SetOnce := ∅ |}.

(** The key is looked up again for the event: [later] is what it then finds. *)
Definition again (later : string -> option string) : request :=
  {| rq_api_key := rq_api_key rq; rq_user_agent := rq_user_agent rq; rq_projects := later |}.

Definition Waitlist (enabled : bool) (cap : nat) (token : string) (d : draw) (later : string -> option string)
    (body : option waitlistPayload) (st : ingest) (v : view) (tbl : gmap address signup_row) : signed :=
  let refuse code msg := {| sg_ingest := st; sg_table := tbl; sg_answer := Err (HTTPError code msg); sg_written := None |} in
  if negb enabled then refuse 501 "waitlist is not enabled on this server"
  else
    match body with
    | None => refuse 400 "invalid json"
    | Some p =>
        let apiKey := firstNonEmpty [wp_APIKey p; wp_Token p; rq_api_key rq] in
        match rq_projects rq apiKey with
        | None => refuse 401 "invalid api key"
        | Some project =>
            if negb (wp_Consent p) then refuse 400 "consent is required"
            else
              let email := trim_space (wp_Email p) in
              let distinctID := firstNonEmpty [wp_DistinctID p; to_lower email] in
              match AddWaitlistSignup cap token
                {| sn_ProjectID := project; sn_Email := email; sn_Source := wp_Source p; sn_Referrer := stringProp (wp_Properties p) "$referrer";
                   sn_DistinctID := distinctID; sn_ConsentText := wp_ConsentText p |} v tbl with
              | Err msg => refuse 400 msg
              | Ok (tbl', joined) =>
                  if joined then
                    match capture_as load insert (again later) d (join_payload apiKey distinctID p) apiKey st with
                    | (st', answer, written) => {| sg_ingest := st'; sg_table := tbl'; sg_answer := answer; sg_written := written |}
                    end
                  else {| sg_ingest := st; sg_table := tbl'; sg_answer := Ok tt; sg_written := None |}
              end
        end
    end.

End Handler.

Definition WaitlistUnsubscribe (enabled : bool) (form query : string) (tbl : gmap address signup_row) : gmap address signup_row * result http_error unit :=
  if negb enabled then (tbl, Err (HTTPError 501 "waitlist is not enabled on this server"))
  else
    match UnsubscribeWaitlist (firstNonEmpty [form; query]) tbl with
    | Ok tbl' => (tbl', Ok tt)
    | Err msg => (tbl, Err (HTTPError 400 msg))
    end.

(** The page that asks before it acts changes nothing. *)
Definition WaitlistUnsubscribePage (enabled : bool) (token : string) : result http_error unit :=
  if negb enabled then Err (HTTPError 501 "waitlist is not enabled on this server")
  else if (trim_space token =? "")%string then Err (HTTPError 400 "token is required")
  else Ok tt.

(** ** The door's history *)

(** A submission, with what its reads saw and what the second lookup of its key finds; a removal. *)
Record submission := {
  sb_load : string -> result string (gset string); sb_insert : list Event -> option string; sb_rq : request; sb_enabled : bool;
  sb_cap : nat; sb_token : string; sb_draw : draw; sb_later : string -> option string; sb_body : option waitlistPayload; sb_view : view;
}.

Inductive waitlist_op := Submit (b : submission) | Leave (enabled : bool) (form query : string).

Abbreviation door := (ingest * gmap address signup_row)%type.

Section History.
Context `{GoNumbers} `{GoText} `{Columns}.

(** The address a submission is for. *)
Definition who (rq : request) (p : waitlistPayload) : option address :=
  match rq_projects rq (firstNonEmpty [wp_APIKey p; wp_Token p; rq_api_key rq]) with
  | Some project => Some (project, to_lower (trim_space (wp_Email p)))
  | None => None
  end.

Definition submit_at (b : submission) (s : door) : signed :=
  Waitlist (sb_load b) (sb_insert b) (sb_rq b) (sb_enabled b) (sb_cap b) (sb_token b) (sb_draw b) (sb_later b) (sb_body b) s.1 (sb_view b) s.2.

Definition door_step (o : waitlist_op) (s : door) : door :=
  match o with
  | Submit b => (sg_ingest (submit_at b s), sg_table (submit_at b s))
  | Leave enabled form query => (s.1, (WaitlistUnsubscribe enabled form query s.2).1)
  end.

Definition live (a : address) (tbl : gmap address signup_row) : bool := match tbl !! a with Some r => su_Subscribed r | None => false end.

Definition on_list (a : address) (s : door) : bool := live a s.2.

(** Whether the address had left the list. *)
Definition gone (a : address) (tbl : gmap address signup_row) : bool :=
  match tbl !! a with Some r => negb (su_Subscribed r) | None => false end.

(** The submission is for the address and wrote its row. *)
Definition enrols (a : address) (b : submission) (s : door) : bool :=
  match sb_body b with
  | Some p =>
      sb_enabled b && wp_Consent p && bool_decide (who (sb_rq b) p = Some a) &&
      is_ok (AddWaitlistSignup (sb_cap b) (sb_token b)
        {| sn_ProjectID := a.1; sn_Email := wp_Email p; sn_Source := wp_Source p; sn_Referrer := stringProp (wp_Properties p) "$referrer";
           sn_DistinctID := firstNonEmpty [wp_DistinctID p; a.2]; sn_ConsentText := wp_ConsentText p |} (sb_view b) s.2)
  | None => false
  end.

Definition b2n (b : bool) : nat := if b then 1 else 0.

(** What is counted of an address: calls of the event writer, removals, joins told by a
    snapshot that was out of date, joins such a snapshot hid, and joins whose key no longer
    resolved when the event was made. *)
Record tally := { t_calls : nat; t_removals : nat; t_doubled : nat; t_hidden : nat; t_dropped : nat }.

Definition no_tally : tally := {| t_calls := 0; t_removals := 0; t_doubled := 0; t_hidden := 0; t_dropped := 0 |}.

Definition tally_plus (x y : tally) : tally :=
  {| t_calls := t_calls x + t_calls y; t_removals := t_removals x + t_removals y; t_doubled := t_doubled x + t_doubled y;
     t_hidden := t_hidden x + t_hidden y; t_dropped := t_dropped x + t_dropped y |}.

Definition called (b : submission) (s : door) : bool := is_some (sg_written (submit_at b s)).

Definition step_tally (a : address) (o : waitlist_op) (s : door) : tally :=
  match o with
  | Submit b =>
      let told := negb (is_some (s.2 !! a)) || gone a (v_prev (sb_view b)) in
      {| t_calls := b2n (enrols a b s && called b s); t_removals := 0;
         t_doubled := b2n (enrols a b s && told && live a s.2);
         t_hidden := b2n (enrols a b s && negb told && negb (live a s.2));
         t_dropped := b2n (enrols a b s && told && negb (called b s)) |}
  | Leave _ _ _ =>
      {| t_calls := 0; t_removals := b2n (on_list a s && negb (on_list a (door_step o s))); t_doubled := 0; t_hidden := 0; t_dropped := 0 |}
  end.

Fixpoint history (a : address) (os : list waitlist_op) (s : door) : door * tally :=
  match os with
  | [] => (s, no_tally)
  | o :: os => let '(s', t) := history a os (door_step o s) in (s', tally_plus (step_tally a o s) t)
  end.

(** Every submission's snapshot had the address as having left exactly when the insert found
    it so, and its key still resolved for the event. *)
Fixpoint undisturbed (a : address) (os : list waitlist_op) (s : door) : Prop :=
  match os with
  | [] => True
  | o :: os =>
      match o with
      | Submit b => gone a (v_prev (sb_view b)) = gone a s.2 /\ forall k, sb_later b k = rq_projects (sb_rq b) k
      | Leave _ _ _ => True
      end /\ undisturbed a os (door_step o s)
  end.

Lemma firstNonEmpty_rest a b c : firstNonEmpty [a; b; c] = "" -> c = "".
Proof. unfold firstNonEmpty. cbn. destruct (String.eqb_spec a ""), (String.eqb_spec b ""), (String.eqb_spec c ""); cbn; congruence. Qed.

Lemma firstNonEmpty_first a rest : a <> "" -> firstNonEmpty (a :: rest) = a.
Proof. intros Ha. unfold firstNonEmpty. cbn. by destruct (String.eqb_spec a ""). Qed.

Lemma firstNonEmpty_last b a : a <> "" -> firstNonEmpty [b; a] <> "".
Proof. intros Ha. unfold firstNonEmpty. cbn. destruct (String.eqb_spec b ""), (String.eqb_spec a ""); done. Qed.

Lemma plausibleEmail_nonempty s : plausibleEmail s = true -> s <> "".
Proof. by intros Hp ->. Qed.

(** The key of a join names a project already, and its person is not empty: the event is made. *)
Lemma join_acceptable rq p distinctID project :
  let apiKey := firstNonEmpty [wp_APIKey p; wp_Token p; rq_api_key rq] in
  rq_projects rq apiKey = Some project -> distinctID <> "" ->
  acceptable rq apiKey (join_payload apiKey distinctID p) = true.
Proof.
  intros apiKey Hp Hd. assert (Hkey : key_of rq (join_payload apiKey distinctID p) apiKey = apiKey).
  { unfold key_of. cbn [cp_APIKey cp_Token join_payload]. destruct (String.eqb_spec apiKey "") as [He|He].
    - rewrite He. pose proof (firstNonEmpty_rest _ _ _ He) as ->. done.
    - by apply firstNonEmpty_first. }
  unfold acceptable. rewrite Hkey, Hp. cbn [is_some andb cp_Event join_payload]. unfold distinct_of. cbn [cp_DistinctID join_payload].
  rewrite firstNonEmpty_first by done. by destruct (String.eqb_spec distinctID "").
Qed.

Lemma join_written load insert rq d apiKey (payload : capturePayload) st :
  acceptable rq apiKey payload = true ->
  exists st' e, toEvent (E:=string) load rq d payload apiKey st = (st', Ok e) /\
    capture_as load insert rq d payload apiKey st = insertEvents insert st' [e].
Proof.
  intros Ha. unfold capture_as. pose proof (toEvent_spec load rq d payload apiKey st) as Hs.
  destruct (toEvent _ _ _ _ _ _) as [st' [e|e]]; [by do 2 eexists|]. by rewrite Ha in Hs; destruct Hs.
Qed.

(** A submission writes the row of the address it enrols and no other, subscribed. *)
Lemma submit_row a b s :
  if enrols a b s then exists row, sg_table (submit_at b s) = <[a := row]> s.2 /\ su_Subscribed row = true
  else sg_table (submit_at b s) !! a = s.2 !! a.
Proof.
  unfold enrols, submit_at, Waitlist, who. destruct (sb_body b) as [p|]; [|by destruct (sb_enabled b)].
  destruct (sb_enabled b); [|done]. cbn [negb andb]. set (apiKey := firstNonEmpty [wp_APIKey p; _; _]).
  destruct (rq_projects (sb_rq b) apiKey) as [project|] eqn:Hp.
  2: { by rewrite bool_decide_eq_false_2, andb_false_r by done. }
  destruct (wp_Consent p); [|done]. cbn [negb andb]. unfold AddWaitlistSignup. cbn [sn_Email sn_ProjectID]. rewrite trim_space_idemp.
  set (key := to_lower (trim_space (wp_Email p))).
  destruct (decide (a = (project, key))) as [->|Hne].
  2: { rewrite bool_decide_eq_false_2 by congruence. cbn [andb]. destruct (negb (plausibleEmail key)); [done|].
       destruct (_ && negb _); [done|]. destruct (_ || _); [done|]. destruct (_ || _); [|by cbn; rewrite lookup_insert_ne by congruence].
       destruct (capture_as _ _ _ _ _ _ _) as [[? ?] ?]. cbn. by rewrite lookup_insert_ne by congruence. }
  rewrite bool_decide_eq_true_2 by done. cbn [fst snd andb]. destruct (negb (plausibleEmail key)); [done|].
  destruct (_ && negb _); [done|].
  change (storable _ (trim_space (wp_Email p))) with (storable {| sn_ProjectID := project; sn_Email := wp_Email p; sn_Source := wp_Source p;
    sn_Referrer := stringProp (wp_Properties p) "$referrer"; sn_DistinctID := firstNonEmpty [wp_DistinctID p; key];
    sn_ConsentText := wp_ConsentText p |} (trim_space (wp_Email p))) at 2.
  destruct (_ || (negb _ && token_taken _ _)); [done|]. cbn [is_ok]. destruct (_ || _).
  - destruct (capture_as _ _ _ _ _ _ _) as [[? ?] ?]. eexists. split; [done|]. by destruct (s.2 !! _).
  - eexists. split; [done|]. by destruct (s.2 !! _).
Qed.

(** Whether the statement tells the handler of a join. *)
Definition told (a : address) (b : submission) (s : door) : bool := negb (is_some (s.2 !! a)) || gone a (v_prev (sb_view b)).

(** The writer is called only when a join was told, and then unless the key no longer resolves. *)
Lemma submit_called a b s : enrols a b s = true ->
  (called b s = true -> told a b s = true) /\
  (told a b s = true -> (forall k, sb_later b k = rq_projects (sb_rq b) k) -> called b s = true).
Proof.
  unfold enrols, called, submit_at, Waitlist, who, told. destruct (sb_body b) as [p|]; [|done].
  destruct (sb_enabled b); [|done]. destruct (wp_Consent p); [|by rewrite andb_false_r]. cbn [negb andb].
  set (apiKey := firstNonEmpty [wp_APIKey p; _; _]). destruct (rq_projects (sb_rq b) apiKey) as [project|] eqn:Hp; [|done].
  unfold AddWaitlistSignup. cbn [sn_Email sn_ProjectID]. rewrite trim_space_idemp. set (key := to_lower (trim_space (wp_Email p))).
  destruct (bool_decide (Some (project, key) = Some a)) eqn:Ha; [|done]. apply bool_decide_eq_true in Ha as [= <-]. cbn [fst snd].
  destruct (plausibleEmail key) eqn:Hmail; [|done]. cbn [negb]. destruct (_ && negb _); [done|].
  change (storable _ (trim_space (wp_Email p))) with (storable {| sn_ProjectID := project; sn_Email := wp_Email p; sn_Source := wp_Source p;
    sn_Referrer := stringProp (wp_Properties p) "$referrer"; sn_DistinctID := firstNonEmpty [wp_DistinctID p; key];
    sn_ConsentText := wp_ConsentText p |} (trim_space (wp_Email p))) at 2.
  destruct (negb (storable _ _) || _); [done|]. intros _. unfold gone.
  destruct (negb (is_some (s.2 !! (project, key))) || _) eqn:Ht; [|done]. split; [done|]. intros _ Hlater.
  destruct (join_written (sb_load b) (sb_insert b) (again (sb_rq b) (sb_later b)) (sb_draw b) apiKey
    (join_payload apiKey (firstNonEmpty [wp_DistinctID p; key]) p) s.1) as (st' & e & _ & Hj).
  { assert (Hacc := join_acceptable (sb_rq b) p (firstNonEmpty [wp_DistinctID p; key]) project Hp
      (firstNonEmpty_last _ _ (plausibleEmail_nonempty _ Hmail))).
    unfold acceptable in *. cbn [again rq_projects]. rewrite Hlater. exact Hacc. }
  by rewrite Hj.
Qed.

Lemma step_balances a o s :
  let t := step_tally a o s in
  (t_calls t + t_hidden t + t_dropped t + b2n (on_list a s) = t_removals t + t_doubled t + b2n (on_list a (door_step o s)))%nat.
Proof.
  destruct o as [b|enabled form query]; cbv zeta; cbn [step_tally t_calls t_hidden t_dropped t_removals t_doubled].
  - unfold on_list. cbn [door_step snd]. pose proof (submit_row a b s) as Hrow. pose proof (submit_called a b s) as Hcall. fold (told a b s).
    destruct (enrols a b s); cbn [andb].
    + destruct Hrow as (row & -> & Hsub).
      assert (Hon : live a (<[a := row]> s.2) = true) by (unfold live; by rewrite lookup_insert_eq). rewrite Hon.
      destruct (Hcall eq_refl) as [Hc _]. destruct (told a b s), (called b s), (live a s.2); cbn; try lia; by specialize (Hc eq_refl).
    + unfold live. by rewrite Hrow.
  - assert (Hoff : on_list a (door_step (Leave enabled form query) s) = true -> on_list a s = true).
    { unfold on_list, live. cbn [door_step snd]. unfold WaitlistUnsubscribe, UnsubscribeWaitlist. destruct (negb enabled); [done|]. destruct (_ =? _)%string; [done|].
      destruct (negb _); [done|]. cbn [fst]. rewrite lookup_fmap. destruct (s.2 !! a) as [r|]; [|done]. cbn. by destruct (_ =? _)%string. }
    destruct (on_list a s), (on_list a (door_step _ s)); cbn; try done. by specialize (Hoff eq_refl).
Qed.

Lemma history_balances a os : forall s, let '(s', t) := history a os s in
  (t_calls t + t_hidden t + t_dropped t + b2n (on_list a s) = t_removals t + t_doubled t + b2n (on_list a s'))%nat.
Proof.
  induction os as [|o os IH]; intros s; [done|]. cbn [history]. specialize (IH (door_step o s)). destruct (history a os _) as [s' t].
  pose proof (step_balances a o s) as Hs. cbv zeta in Hs. cbn [tally_plus t_calls t_hidden t_dropped t_removals t_doubled]. lia.
Qed.

Lemma undisturbed_exact a os : forall s, undisturbed a os s ->
  let t := (history a os s).2 in t_doubled t = 0%nat /\ t_hidden t = 0%nat /\ t_dropped t = 0%nat.
Proof.
  induction os as [|o os IH]; intros s; [done|]. cbn [undisturbed history]. intros [Ho Hos]. specialize (IH _ Hos).
  destruct (history a os _) as [s' t]. cbn [snd tally_plus t_doubled t_hidden t_dropped] in *. cbv zeta in IH. destruct IH as (-> & -> & ->).
  destruct o as [b|]; cbn [step_tally t_doubled t_hidden t_dropped]; [|done]. destruct Ho as [Hprev Hlater].
  pose proof (submit_called a b s) as Hcall. fold (told a b s). destruct (enrols a b s); cbn [andb b2n]; [|done].
  destruct (Hcall eq_refl) as [_ Hc].
  assert (Ht : told a b s = negb (live a s.2)).
  { unfold told. rewrite Hprev. unfold gone, live. by destruct (s.2 !! a) as [[? ? ? ? ? [] ?]|]. }
  destruct (told a b s) eqn:E; [rewrite Hc by done|]; destruct (live a s.2); done.
Qed.

(** C21: Joins balance, races counted.  Over any history of submissions and removals from an
    empty list, whatever the reads of a submission saw and whatever the event writer
    answered: the calls of the event writer for an address, with the joins that were hidden
    by a snapshot older than the row the insert met and those whose key no longer resolved,
    are its removals, with the joins such a snapshot told twice, and one more exactly while
    the address is on the list.  Where each submission's snapshot has the address as having
    left exactly when its insert finds it so, and its key still resolves, nothing is hidden, dropped or doubled, so
    the calls are the removals and one more while the address is on the list. *)
Theorem joins_balance a os st :
  let s' := (history a os (st, ∅)).1 in
  let t := (history a os (st, ∅)).2 in
  (t_calls t + t_hidden t + t_dropped t = t_removals t + t_doubled t + b2n (on_list a s'))%nat /\
  (undisturbed a os (st, ∅) ->
     t_doubled t = 0 /\ t_hidden t = 0 /\ t_dropped t = 0 /\ t_calls t = t_removals t + b2n (on_list a s'))%nat.
Proof.
  pose proof (history_balances a os (st, ∅)) as Hh. pose proof (undisturbed_exact a os (st, ∅)) as Hu.
  destruct (history a os (st, ∅)) as [s' t]. assert (Hnone : on_list a (st, ∅) = false) by (unfold on_list, live; cbn [snd]; by rewrite lookup_empty).
  rewrite Hnone in Hh. cbn [b2n fst snd] in *. split; [lia|]. intros Hund. destruct (Hu Hund) as (E1 & E2 & E3). lia.
Qed.

(** ** What a submitter learns *)

(** The list as one submission meets it: room for the address, and a token nobody has. *)
Definition admits (cap : nat) (token : string) (a : address) (v : view) (tbl : gmap address signup_row) : bool :=
  negb ((cap <=? subscribed_of a.1 (v_counted v))%nat && negb (is_some (v_known v !! a))) && negb (token_taken token tbl).

(** A submitter learns nothing of the list: while the writer takes every event, the key
    resolves the second time as the first, the list has room for the address and the drawn token is new, the answer to a submission is the
    same whether the address is on the list, has left it or was never there, and whatever the
    session table and the catalog cache hold. *)
Theorem reply_hides_the_list load insert rq enabled cap token d later body st1 v1 tbl1 st2 v2 tbl2
    (Hwriter : forall events, insert events = None) (Hlater : forall k, later k = rq_projects rq k)
    (Hfirst : forall p a, body = Some p -> who rq p = Some a -> admits cap token a v1 tbl1 = true)
    (Hsecond : forall p a, body = Some p -> who rq p = Some a -> admits cap token a v2 tbl2 = true) :
  sg_answer (Waitlist (E:=string) load insert rq enabled cap token d later body st1 v1 tbl1) =
  sg_answer (Waitlist load insert rq enabled cap token d later body st2 v2 tbl2).
Proof.
  enough (He : forall st v tbl, (forall p a, body = Some p -> who rq p = Some a -> admits cap token a v tbl = true) ->
    sg_answer (Waitlist load insert rq enabled cap token d later body st v tbl) =
    match body with
    | Some p => if negb enabled then Err (HTTPError 501 "waitlist is not enabled on this server")
        else match who rq p with
        | None => Err (HTTPError 401 "invalid api key")
        | Some (project, key) =>
            if negb (wp_Consent p) then Err (HTTPError 400 "consent is required")
            else if negb (plausibleEmail key) then Err (HTTPError 400 "a valid email address is required")
            else if negb (storable {| sn_ProjectID := project; sn_Email := trim_space (wp_Email p); sn_Source := wp_Source p;
                sn_Referrer := stringProp (wp_Properties p) "$referrer"; sn_DistinctID := firstNonEmpty [wp_DistinctID p; key];
                sn_ConsentText := wp_ConsentText p |} (trim_space (wp_Email p))) then Err (HTTPError 400 "refused by the database")
            else Ok tt
        end
    | None => if negb enabled then Err (HTTPError 501 "waitlist is not enabled on this server") else Err (HTTPError 400 "invalid json")
    end) by by rewrite !He.
  intros st v tbl Hadm. unfold Waitlist. destruct body as [p|]; [|by destruct enabled]. specialize (Hadm p).
  unfold who in *. destruct enabled; [|done]. cbn [negb]. set (apiKey := firstNonEmpty [wp_APIKey p; _; _]) in *.
  destruct (rq_projects rq apiKey) as [project|] eqn:Hp; [|done]. destruct (wp_Consent p); [|done]. cbn [negb].
  specialize (Hadm _ eq_refl eq_refl). unfold admits in Hadm. apply andb_true_iff in Hadm as [Hroom Htoken]. apply negb_true_iff in Hroom, Htoken.
  unfold AddWaitlistSignup. cbn [sn_Email sn_ProjectID fst] in *. rewrite trim_space_idemp. set (key := to_lower (trim_space (wp_Email p))) in *.
  destruct (plausibleEmail key) eqn:Hmail; [|done]. cbn [negb]. rewrite Hroom, Htoken, andb_false_r, orb_false_r.
  destruct (negb (storable _ _)); [done|]. destruct (_ || _); [|done].
  destruct (join_written load insert (again rq later) d apiKey (join_payload apiKey (firstNonEmpty [wp_DistinctID p; key]) p) st) as (st' & e & _ & Hj).
  { assert (Hacc := join_acceptable rq p (firstNonEmpty [wp_DistinctID p; key]) project Hp
      (firstNonEmpty_last _ _ (plausibleEmail_nonempty _ Hmail))).
    unfold acceptable in *. cbn [again rq_projects]. rewrite Hlater. exact Hacc. }
  rewrite Hj. unfold insertEvents. by rewrite Hwriter.
Qed.

(** ** What the event says *)

Definition with_email (email : string) (p : waitlistPayload) : waitlistPayload :=
  {| wp_APIKey := wp_APIKey p; wp_Token := wp_Token p; wp_Email := email; wp_Consent := wp_Consent p; wp_ConsentText := wp_ConsentText p;
     wp_Source := wp_Source p; wp_DistinctID := wp_DistinctID p; wp_Properties := wp_Properties p |}.

(** The address stays out of the event: when the page sends the visitor's own id, the
    event a join writes is the same whatever the address was. *)
Theorem address_stays_out_of_the_event load insert rq enabled cap token d later p email1 email2 st v1 tbl1 v2 tbl2 events1 events2
    (Hid : wp_DistinctID p <> "")
    (Hfirst : sg_written (Waitlist (E:=string) load insert rq enabled cap token d later (Some (with_email email1 p)) st v1 tbl1) = Some events1)
    (Hsecond : sg_written (Waitlist load insert rq enabled cap token d later (Some (with_email email2 p)) st v2 tbl2) = Some events2) :
  events1 = events2.
Proof.
  enough (He : forall email v tbl events,
    sg_written (Waitlist (E:=string) load insert rq enabled cap token d later (Some (with_email email p)) st v tbl) = Some events ->
    let apiKey := firstNonEmpty [wp_APIKey p; wp_Token p; rq_api_key rq] in
    (capture_as load insert (again rq later) d (join_payload apiKey (wp_DistinctID p) p) apiKey st).2 = Some events).
  { specialize (He _ _ _ _ Hfirst) as E1. specialize (He _ _ _ _ Hsecond) as E2. cbv zeta in *. congruence. }
  intros email v tbl events. cbv zeta. unfold Waitlist. destruct enabled; [|done]. cbn [negb with_email wp_APIKey wp_Token wp_Email wp_Consent
    wp_ConsentText wp_Source wp_DistinctID wp_Properties]. set (apiKey := firstNonEmpty [wp_APIKey p; _; _]).
  destruct (rq_projects rq apiKey) as [project|]; [|done]. destruct (wp_Consent p); [|done]. cbn [negb]. rewrite firstNonEmpty_first by done.
  destruct (AddWaitlistSignup _ _ _ _ _) as [[tbl' []]|]; [|done|done].
  change (join_payload apiKey (wp_DistinctID p) _) with (join_payload apiKey (wp_DistinctID p) p).
  by destruct (capture_as _ _ _ _ _ _ _) as [[? ?] ?].
Qed.
End History.

(** ** On concrete submissions *)

Module Runs.

#[export] Instance numbers : GoNumbers := {| wild_int64 := fun _ => 0; wild_uint32 := fun _ => 0; float32_of := trunc |}.
#[export] Instance text : GoText := {| json_marshal := fun _ => "{}"; time_parse := fun _ _ => None |}.
#[export] Instance columns : Columns := {| fits_text := fun _ => true; fits_128 := fun s => (String.length s <=? 128)%nat |}.

Definition request_with_key : request :=
  {| rq_api_key := "k"; rq_user_agent := ""; rq_projects := fun k => if (k =? "k")%string then Some "p" else None |}.

Definition drawn : draw := {| dr_event := "e1"; dr_session := "s1"; dr_ts := 0; dr_seen := 0; dr_loaded := 0 |}.

Definition form (email distinctID : string) : waitlistPayload :=
  {| wp_APIKey := ""; wp_Token := ""; wp_Email := email; wp_Consent := true; wp_ConsentText := "yes"; wp_Source := "hero";
     wp_DistinctID := distinctID; wp_Properties := ∅ |}.

Definition no_catalog (_ : string) : result string (gset string) := Ok ∅.

Definition fresh : ingest := {| sessions := None; catalog := None |}.

(** Reads that see what the write meets. *)
Definition sees (tbl : gmap address signup_row) : view := {| v_counted := tbl; v_known := tbl; v_prev := tbl |}.

Definition submit (insert : list Event -> option string) (cap : nat) (token : string) (p : waitlistPayload) (tbl : gmap address signup_row) : signed :=
  Waitlist no_catalog insert request_with_key true cap token drawn (rq_projects request_with_key) (Some p) fresh (sees tbl) tbl.

Definition takes (_ : list Event) : option string := None.
Definition refuses (_ : list Event) : option string := Some "batcher closed".

Definition with_ann : gmap address signup_row := sg_table (submit takes 10 "t1" (form "Ann@x.io" "v1") ∅).

(** At the cap the answer tells who is on the list. *)
Example full_list_tells_members :
  sg_answer (submit takes 1 "t2" (form "ann@x.io" "v1") with_ann) = Ok tt /\
  sg_answer (submit takes 1 "t2" (form "bo@y.io" "v1") with_ann) = Err (HTTPError 400 "waitlist is full (1 addresses)").
Proof. by vm_compute. Qed.

(** Without an id of its own the visitor's event carries the address as its person. *)
Example bare_form_writes_the_address :
  map e_DistinctID (default [] (sg_written (submit takes 10 "t1" (form "Ann@X.io" "") ∅))) = ["ann@x.io"].
Proof. by vm_compute. Qed.

(** A join whose event is refused is answered as a failure; trying again is answered well and writes none. *)
Example refused_event_is_lost :
  let s1 := submit refuses 10 "t1" (form "ann@x.io" "v1") ∅ in
  sg_answer s1 = Err (Failed "batcher closed") /\
  sg_answer (submit takes 10 "t2" (form "ann@x.io" "v1") (sg_table s1)) = Ok tt /\
  sg_written (submit takes 10 "t2" (form "ann@x.io" "v1") (sg_table s1)) = None.
Proof. by vm_compute. Qed.

(** A used link is answered like a fresh one. *)
Example used_link_works_again :
  match UnsubscribeWaitlist "t1" with_ann with
  | Ok tbl => (is_some (tbl !! ("p", "ann@x.io")), match UnsubscribeWaitlist "t1" tbl with Ok _ => true | Err _ => false end)
  | Err _ => (false, false)
  end = (true, true).
Proof. by vm_compute. Qed.

(** Two submissions that count before either inserts go over the cap. *)
Example racers_pass_the_cap :
  subscribed_of "p" (sg_table (Waitlist no_catalog takes request_with_key true 1 "t2" drawn (rq_projects request_with_key)
    (Some (form "bo@y.io" "v2")) fresh (sees ∅) with_ann)) = 2%nat.
Proof. by vm_compute. Qed.

(** Ann joins and leaves; then her form is sent twice at once, and both see her gone. *)
Definition submission_of (prev : gmap address signup_row) : submission :=
  {| sb_load := no_catalog; sb_insert := takes; sb_rq := request_with_key; sb_enabled := true; sb_cap := 10; sb_token := "t1"; sb_draw := drawn;
     sb_later := rq_projects request_with_key; sb_body := Some (form "ann@x.io" "v1");
     sb_view := {| v_counted := prev; v_known := prev; v_prev := prev |} |}.

Definition without_ann : gmap address signup_row := (WaitlistUnsubscribe true "t1" "" with_ann).1.

Definition ann_counts (os : list waitlist_op) : tally := (history ("p", "ann@x.io") os (fresh, ∅)).2.

Example racing_forms_join_twice :
  ann_counts [Submit (submission_of ∅); Leave true "t1" ""; Submit (submission_of without_ann); Submit (submission_of without_ann)] =
  {| t_calls := 3; t_removals := 1; t_doubled := 1; t_hidden := 0; t_dropped := 0 |}.
Proof. by vm_compute. Qed.

(** A form sent while the removal is under way puts her back unheard. *)
Example racing_removal_hides_the_join :
  ann_counts [Submit (submission_of ∅); Leave true "t1" ""; Submit (submission_of with_ann)] =
  {| t_calls := 1; t_removals := 1; t_doubled := 0; t_hidden := 1; t_dropped := 0 |}.
Proof. by vm_compute. Qed.

(** One after another they balance. *)
Example forms_in_turn_balance :
  ann_counts [Submit (submission_of ∅); Leave true "t1" ""; Submit (submission_of without_ann); Submit (submission_of with_ann)] =
  {| t_calls := 2; t_removals := 1; t_doubled := 0; t_hidden := 0; t_dropped := 0 |}.
Proof. by vm_compute. Qed.

End Runs.

Import Runs.

(** Ann joins, leaves, comes back and sends the form again. *)
Definition ann_in_turn : list waitlist_op :=
  [Submit (submission_of ∅); Leave true "t1" ""; Submit (submission_of without_ann); Submit (submission_of with_ann)].

Lemma joins_balance_witness :
  undisturbed ("p", "ann@x.io") ann_in_turn (fresh, ∅) /\ t_calls (ann_counts ann_in_turn) = 2%nat /\
  t_calls (ann_counts ann_in_turn) =
    (t_removals (ann_counts ann_in_turn) + b2n (on_list ("p", "ann@x.io") (history ("p", "ann@x.io") ann_in_turn (fresh, ∅)).1))%nat.
Proof.
  assert (Hu : undisturbed ("p", "ann@x.io") ann_in_turn (fresh, ∅)).
  { cbn [undisturbed ann_in_turn]. split_and!; try done; vm_compute; reflexivity. }
  split; [exact Hu|]. split; [by vm_compute|].
  exact (proj2 (proj2 (proj2 (proj2 (joins_balance ("p", "ann@x.io") ann_in_turn fresh) Hu)))).
Defined.

Lemma reply_hides_the_list_witness :
  sg_answer (submit takes 10 "t2" (form "ann@x.io" "v1") ∅) = sg_answer (submit takes 10 "t2" (form "ann@x.io" "v1") with_ann) /\
  sg_answer (submit takes 10 "t2" (form "ann@x.io" "v1") with_ann) = Ok tt.
Proof.
  split; [|by vm_compute].
  apply (reply_hides_the_list no_catalog takes request_with_key true 10 "t2" drawn (rq_projects request_with_key) (Some (form "ann@x.io" "v1"))
    fresh (sees ∅) ∅ fresh (sees with_ann) with_ann).
  - done.
  - done.
  - intros p a E1 E2. injection E1 as <-. vm_compute in E2. injection E2 as <-. by vm_compute.
  - intros p a E1 E2. injection E1 as <-. vm_compute in E2. injection E2 as <-. by vm_compute.
Defined.

Lemma address_stays_out_of_the_event_witness :
  default [] (sg_written (submit takes 10 "t2" (form "ann@x.io" "v1") ∅)) = default [] (sg_written (submit takes 10 "t2" (form "bo@y.io" "v1") ∅)) /\
  map e_DistinctID (default [] (sg_written (submit takes 10 "t2" (form "bo@y.io" "v1") ∅))) = ["v1"].
Proof.
  split; [|by vm_compute].
  apply (address_stays_out_of_the_event no_catalog takes request_with_key true 10 "t2" drawn (rq_projects request_with_key) (form "ann@x.io" "v1")
    "ann@x.io" "bo@y.io" fresh (sees ∅) ∅ (sees ∅) ∅).
  - done.
  - by vm_compute.
  - by vm_compute.
Defined.
