(* ===== verification/AgentSessions.v ===== *)
(** * AgentSessions: the durable log of an agent session and its lease

    agent_session_log.go of internal/dataplane/store and session_store.go of
    internal/runtime: append-only entries per session key, numbered under an advisory lock,
    a lease row per session with an owner and an epoch, appends fenced by it, and the
    adapter that gives both to a run.  A transaction is one atomic step, because its advisory
    lock and the lease row it locks are held to the commit; [now] is the clock of the
    transaction's start.  Large inline images, which the adapter moves out of an entry and
    back, are left out: entries are taken to have none. *)

From stdpp Require Import sorting.
From Stdlib Require Import Ascii.
From S2P Require Import Prelude GoStrings GoTime.
Import String.
Open Scope string_scope.
Open Scope list_scope.
Open Scope Z_scope.

(** ** The tables *)

Record AgentSessionEntry := {
  se_RunID : string; se_SessionKey : string; se_Seq : Z; se_Kind : string; se_Turn : Z; se_PayloadJSON : string;
}.

Record lease_row := { ls_run_id : string; ls_owner_id : string; ls_epoch : Z; ls_expires_at : Z }.

(** agent_session_log in insertion order, agent_session_leases by key, and the ids of agent_runs. *)
Record session_db := { session_log : list AgentSessionEntry; leases : gmap string lease_row; agent_runs : gset string }.

Definition with_log (l : list AgentSessionEntry) (db : session_db) : session_db :=
  {| session_log := l; leases := leases db; agent_runs := agent_runs db |}.

Definition with_leases (ls : gmap string lease_row) (db : session_db) : session_db :=
  {| session_log := session_log db; leases := ls; agent_runs := agent_runs db |}.

(** How the calls of a transaction go: they work, one fails before the commit, or the
    commit's answer is lost after it took effect. *)
Inductive outcome := Works | Breaks | AnswerLost.

Inductive session_error := ErrAgentSessionLeaseLost | MixesKeys (k1 k2 : string) | TTLNotPositive | CallFailed | NotMarshalled.

(** What the columns take of a row, and what ::jsonb::text makes of a document. *)
Class SessionColumns := { row_fits : AgentSessionEntry -> bool; jsonb : string -> string }.

Section Store.
Context `{SessionColumns}.

Definition key_of (e : AgentSessionEntry) : string := if (se_SessionKey e =? "")%string then se_RunID e else se_SessionKey e.

Definition rows_of (key : string) (log : list AgentSessionEntry) : list AgentSessionEntry :=
  base.filter (fun e => se_SessionKey e = key) log.

(** COALESCE(MAX(seq), 0) *)
Definition last_seq (key : string) (log : list AgentSessionEntry) : Z :=
  match map se_Seq (rows_of key log) with [] => 0 | n :: ns => fold_left Z.max ns n end.

Definition max_int4 : Z := 2147483647.

Fixpoint insert_entries (runs : gset string) (key : string) (seq : Z) (entries log : list AgentSessionEntry) : option (list AgentSessionEntry * list Z) :=
  match entries with
  | [] => Some (log, [])
  | e :: entries =>
      let row := {| se_RunID := se_RunID e; se_SessionKey := key; se_Seq := seq; se_Kind := se_Kind e; se_Turn := se_Turn e;
                    se_PayloadJSON := jsonb (if (se_PayloadJSON e =? "")%string then "{}" else se_PayloadJSON e) |} in
      if row_fits row && (seq <=? max_int4) && bool_decide (se_RunID e ∈ runs) && negb (existsb (fun r => se_Seq r =? seq) (rows_of key log))
      then match insert_entries runs key (seq + 1) entries (log ++ [row]) with
           | Some (log', seqs) => Some (log', seq :: seqs)
           | None => None
           end
      else None
  end.

Definition holds_lease (now : Z) (key ownerID : string) (epoch : Z) (db : session_db) : bool :=
  match leases db !! key with
  | Some l => (ls_owner_id l =? ownerID)%string && (ls_epoch l =? epoch) && (now <? ls_expires_at l)
  | None => false
  end.

Definition appendAgentSessionEntries (now : Z) (o : outcome) (entries : list AgentSessionEntry) (ownerID : string) (epoch : Z) (fenced : bool)
    (db : session_db) : session_db * result session_error (list Z) :=
  match entries with
  | [] => (db, Ok [])
  | first :: _ =>
      let key := key_of first in
      match find_first (fun e => negb (key_of e =? key)%string) entries with
      | Some e => (db, Err (MixesKeys key (key_of e)))
      | None =>
          match o with
          | Breaks => (db, Err CallFailed)
          | _ =>
              if fenced && negb (holds_lease now key ownerID epoch db) then (db, Err ErrAgentSessionLeaseLost)
              else
                match insert_entries (agent_runs db) key (last_seq key (session_log db) + 1) entries (session_log db) with
                | None => (db, Err CallFailed)
                | Some (log', seqs) => (with_log log' db, match o with AnswerLost => Err CallFailed | _ => Ok seqs end)
                end
          end
      end
  end.

Definition AppendAgentSessionEntries (now : Z) (o : outcome) (entries : list AgentSessionEntry) (db : session_db) :=
  appendAgentSessionEntries now o entries "" 0 false db.

Definition AppendAgentSessionEntry (now : Z) (o : outcome) (e : AgentSessionEntry) (db : session_db) : session_db * result session_error Z :=
  match AppendAgentSessionEntries now o [e] db with
  | (db', Ok (seq :: _)) => (db', Ok seq)
  | (db', Ok []) => (db', Ok 0)
  | (db', Err err) => (db', Err err)
  end.

Definition AppendAgentSessionEntriesFenced (now : Z) (o : outcome) (entries : list AgentSessionEntry) (ownerID : string) (epoch : Z) (db : session_db) :=
  appendAgentSessionEntries now o entries ownerID epoch true db.

(** Whole milliseconds *)
Definition durationInterval (d : Z) : Z := Z.quot d millisecond * millisecond.

Definition committed {A} (o : outcome) (db db' : session_db) (a : A) : session_db * result session_error A :=
  match o with Works => (db', Ok a) | Breaks => (db, Err CallFailed) | AnswerLost => (db', Err CallFailed) end.

(** [None]: the session has a live owner. *)
Definition AcquireAgentSessionLease (now : Z) (o : outcome) (sessionKey runID ownerID : string) (ttl : Z) (db : session_db) :
    session_db * result session_error (option Z) :=
  if ttl <=? 0 then (db, Err TTLNotPositive)
  else
    let row runID epoch := {| ls_run_id := runID; ls_owner_id := ownerID; ls_epoch := epoch; ls_expires_at := now + durationInterval ttl |} in
    match leases db !! sessionKey with
    | None =>
        if bool_decide (runID ∈ agent_runs db) then committed o db (with_leases (<[sessionKey := row runID 1]> (leases db)) db) (Some 1)
        else (db, Err CallFailed)
    | Some l =>
        if ls_expires_at l <=? now then
          if ls_epoch l <? max_i64
          then committed o db (with_leases (<[sessionKey := row (ls_run_id l) (ls_epoch l + 1)]> (leases db)) db) (Some (ls_epoch l + 1))
          else (db, Err CallFailed)
        else committed o db db None
    end.

Definition renewed (until : Z) (l : lease_row) : lease_row :=
  {| ls_run_id := ls_run_id l; ls_owner_id := ls_owner_id l; ls_epoch := ls_epoch l; ls_expires_at := until |}.

Definition RenewAgentSessionLease (now : Z) (o : outcome) (sessionKey ownerID : string) (epoch ttl : Z) (db : session_db) :
    session_db * result session_error bool :=
  if ttl <=? 0 then (db, Err TTLNotPositive)
  else if holds_lease now sessionKey ownerID epoch db
  then committed o db (with_leases (alter (renewed (now + durationInterval ttl)) sessionKey (leases db)) db) true
  else committed o db db false.

Definition owned_by (ownerID : string) (epoch : Z) (l : lease_row) : bool := (ls_owner_id l =? ownerID)%string && (ls_epoch l =? epoch).

Definition ReleaseAgentSessionLease (o : outcome) (sessionKey ownerID : string) (epoch : Z) (db : session_db) : session_db * result session_error unit :=
  let gone := match leases db !! sessionKey with Some l => owned_by ownerID epoch l | None => false end in
  committed o db (if gone then with_leases (delete sessionKey (leases db)) db else db) tt.

(** ORDER BY seq ASC *)
Definition seq_le (a b : AgentSessionEntry) : Prop := se_Seq a <= se_Seq b.

#[export] Instance seq_le_dec a b : Decision (seq_le a b) := decide (se_Seq a <= se_Seq b).

Definition AgentSessionLog (sessionKey : string) (db : session_db) : list AgentSessionEntry := merge_sort seq_le (rows_of sessionKey (session_log db)).

Definition AgentSessionLogFrom (sessionKey : string) (sinceSeq : Z) (db : session_db) : list AgentSessionEntry :=
  merge_sort seq_le (base.filter (fun e => sinceSeq <= se_Seq e) (rows_of sessionKey (session_log db))).

(** Deleting a run cascades to both tables. *)
Definition delete_run (run : string) (db : session_db) : session_db :=
  {| session_log := base.filter (fun e => se_RunID e <> run) (session_log db);
     leases := base.filter (fun kl : string * lease_row => ls_run_id kl.2 <> run) (leases db);
     agent_runs := agent_runs db ∖ {[run]} |}.

Definition create_run (run : string) (db : session_db) : session_db :=
  {| session_log := session_log db; leases := leases db; agent_runs := {[run]} ∪ agent_runs db |}.
End Store.

(** ** The window of a resume *)

(** What the checkpoint's queries ask of a payload: [->>] and jsonb_exists. *)
Class JsonbFields := { jsonb_text : string -> string -> option string; jsonb_exists : string -> string -> bool }.

Section Window.
Context `{SessionColumns} `{JsonbFields}.

Definition self_contained (e : AgentSessionEntry) : bool :=
  (se_Kind e =? "compaction")%string && bool_decide (jsonb_text (se_PayloadJSON e) "final" = Some "true") &&
  jsonb_exists (se_PayloadJSON e) "retained" && jsonb_exists (se_PayloadJSON e) "state".

Definition branch (e : AgentSessionEntry) : bool := (se_Kind e =? "leaf_move")%string.

(** An inbox intent no settlement names. *)
Definition unsettled (rows : list AgentSessionEntry) (i : AgentSessionEntry) : bool :=
  (se_Kind i =? "inbox")%string &&
  match jsonb_text (se_PayloadJSON i) "id" with
  | None | Some "" => true
  | Some id => negb (existsb (fun d => (se_Kind d =? "inbox_done")%string && bool_decide (jsonb_text (se_PayloadJSON d) "target" = Some id)) rows)
  end.

(** Two statements: the second may see a longer log. *)
Definition AgentSessionCheckpoint (sessionKey : string) (db db' : session_db) : Z * bool :=
  let rows := rows_of sessionKey (session_log db) in
  let seq := match map se_Seq (base.filter (fun e => self_contained e = true) rows) with [] => 0 | n :: ns => fold_left Z.max ns n end in
  let branched := existsb branch rows in
  let rows' := rows_of sessionKey (session_log db') in
  if seq =? 0 then (seq, branched) else if existsb (unsettled rows') rows' then (0, branched) else (seq, branched).
End Window.

(** ** The adapter *)

(** agentcore's entries: their kind and turn, their JSON and what is read back from a row. *)
Class SessionEntries (Entry : Type) := {
  entry_kind : Entry -> string;
  entry_turn : Entry -> Z;
  marshal : Entry -> option string;
  unmarshal : string -> option Entry;
  bare_entry : string -> Z -> Entry;
  with_seq : Z -> Entry -> Entry;
}.

(** What was marshalled is read back, up to the number the row gives it. *)
Class SessionEntriesLaws (Entry : Type) `{SessionColumns, SessionEntries Entry} :=
  marshal_back (e : Entry) (payload : string) : marshal e = Some payload ->
    exists e', unmarshal (jsonb (if (payload =? "")%string then "{}" else payload)) = Some e' /\ forall n, with_seq n e' = with_seq n e.

Definition sessionLeaseTTL : Z := 30 * second.

Record sessionLeaseToken := { tk_sessionID : string; tk_ownerID : string; tk_epoch : Z }.

Section Adapter.
Context `{SessionColumns} {Entry : Type} `{SessionEntries Entry}.

Definition rootRunID (sessionID : string) : string :=
  match index_byte sessionID "/"%char with Some i => take_str i sessionID | None => sessionID end.

Definition session_row (sessionID : string) (entry : Entry) (payload : string) : AgentSessionEntry :=
  {| se_RunID := rootRunID sessionID; se_SessionKey := sessionID; se_Seq := 0; se_Kind := entry_kind entry; se_Turn := entry_turn entry;
     se_PayloadJSON := payload |}.

Fixpoint session_rows (sessionID : string) (entries : list Entry) : option (list AgentSessionEntry) :=
  match entries with
  | [] => Some []
  | e :: entries =>
      match marshal e, session_rows sessionID entries with
      | Some payload, Some rows => Some (session_row sessionID e payload :: rows)
      | _, _ => None
      end
  end.

(** [token] is the one of the context; the flag says that the token's context is cancelled. *)
Definition AppendBatch (now : Z) (o : outcome) (token : option sessionLeaseToken) (sessionID : string) (entries : list Entry) (db : session_db) :
    session_db * result session_error unit * bool :=
  match session_rows sessionID entries with
  | None => (db, Err NotMarshalled, false)
  | Some rows =>
      match token with
      | Some t =>
          if (tk_sessionID t =? sessionID)%string then
            match AppendAgentSessionEntriesFenced now o rows (tk_ownerID t) (tk_epoch t) db with
            | (db', Ok _) => (db', Ok tt, false)
            | (db', Err ErrAgentSessionLeaseLost) => (db', Err ErrAgentSessionLeaseLost, true)
            | (db', Err e) => (db', Err e, false)
            end
          else
            match AppendAgentSessionEntries now o rows db with (db', Ok _) => (db', Ok tt, false) | (db', Err e) => (db', Err e, false) end
      | None => match AppendAgentSessionEntries now o rows db with (db', Ok _) => (db', Ok tt, false) | (db', Err e) => (db', Err e, false) end
      end
  end.

Definition Append (now : Z) (o : outcome) (token : option sessionLeaseToken) (sessionID : string) (entry : Entry) (db : session_db) :=
  AppendBatch now o token sessionID [entry] db.

Definition sessionEntryFromRow (r : AgentSessionEntry) : Entry :=
  with_seq (se_Seq r) (match unmarshal (se_PayloadJSON r) with Some e => e | None => bare_entry (se_Kind r) (se_Turn r) end).

Definition Log (sessionID : string) (db : session_db) : list Entry := map sessionEntryFromRow (AgentSessionLog sessionID db).

Definition LogFrom (sessionID : string) (sinceSeq : Z) (db : session_db) : list Entry := map sessionEntryFromRow (AgentSessionLogFrom sessionID sinceSeq db).
End Adapter.

(** ** What an append does *)

Lemma filter_full {A} (P : A -> Prop) `{!forall x, Decision (P x)} l : Forall P l -> base.filter P l = l.
Proof. induction 1 as [|x l Hx _ IH]; [done|]. by rewrite filter_cons_True, IH. Qed.

Lemma filter_void {A} (P : A -> Prop) `{!forall x, Decision (P x)} l : Forall (fun x => ~ P x) l -> base.filter P l = [].
Proof. induction 1 as [|x l Hx _ IH]; [done|]. by rewrite filter_cons_False. Qed.

Section Appends.
Context `{SessionColumns}.

(** The row of the [i]-th entry of a log whose first is numbered [seq]. *)
Definition row_at (key : string) (seq : Z) (i : nat) (e : AgentSessionEntry) : AgentSessionEntry :=
  {| se_RunID := se_RunID e; se_SessionKey := key; se_Seq := seq + Z.of_nat i; se_Kind := se_Kind e; se_Turn := se_Turn e;
     se_PayloadJSON := jsonb (if (se_PayloadJSON e =? "")%string then "{}" else se_PayloadJSON e) |}.

Lemma insert_entries_spec runs key entries : forall seq log log' seqs,
  insert_entries runs key seq entries log = Some (log', seqs) ->
  log' = log ++ imap (row_at key seq) entries /\ seqs = seqZ seq (Z.of_nat (length entries)) /\ Forall (fun e => se_RunID e ∈ runs) entries.
Proof.
  induction entries as [|e entries IH]; intros seq log log' seqs; cbn [insert_entries]; [intros E; injection E as <- <-; by rewrite app_nil_r|].
  destruct (_ && _ && _ && _) eqn:Hfit; [|done]. apply andb_true_iff in Hfit as [Hfit _]. apply andb_true_iff in Hfit as [_ Hrun]. apply bool_decide_eq_true in Hrun.
  destruct (insert_entries _ _ _ _ _) as [[l ss]|] eqn:Hi; [|done]. intros E; injection E as <- <-.
  apply IH in Hi as (-> & -> & Hruns). split_and!; [|rewrite length_cons, (seqZ_cons seq) by lia; f_equal; f_equal; lia|by constructor].
  rewrite <- app_assoc. f_equal. refine (f_equal2 cons _ _).
  - unfold row_at. f_equal. lia.
  - apply imap_ext. intros i x _. unfold row_at, compose. f_equal. lia.
Qed.

Lemma fold_max_seqZ n : forall a b, b <= a -> fold_left Z.max (seqZ a (Z.of_nat n)) b = if (n =? 0)%nat then b else a + Z.of_nat n - 1.
Proof.
  induction n as [|n IH]; intros a b Hb; [done|]. rewrite seqZ_cons by lia. cbn [fold_left]. replace (Z.pred (Z.of_nat (S n))) with (Z.of_nat n) by lia.
  rewrite IH by lia. destruct n; cbn; lia.
Qed.

Lemma last_seq_dense key log n : map se_Seq (rows_of key log) = seqZ 1 (Z.of_nat n) -> last_seq key log = Z.of_nat n.
Proof.
  unfold last_seq. intros ->. destruct n; [done|]. rewrite seqZ_cons by lia. replace (Z.pred (Z.of_nat (S n))) with (Z.of_nat n) by lia.
  rewrite fold_max_seqZ by lia. destruct n; cbn; lia.
Qed.

(** Nothing happens to the log, or the whole batch goes to the end of it under consecutive numbers. *)
Lemma append_spec now o entries owner epoch fenced db :
  let '(db', r) := appendAgentSessionEntries now o entries owner epoch fenced db in
  (db' = db /\ match r with Ok seqs => entries = [] /\ seqs = [] | Err _ => True end) \/
  exists first, head entries = Some first /\ let key := key_of first in let seq := last_seq key (session_log db) + 1 in
    db' = with_log (session_log db ++ imap (row_at key seq) entries) db /\
    Forall (fun e => key_of e = key /\ se_RunID e ∈ agent_runs db) entries /\
    (fenced = true -> holds_lease now key owner epoch db = true) /\
    match r with Ok seqs => seqs = seqZ seq (Z.of_nat (length entries)) | Err e => e = CallFailed end.
Proof.
  unfold appendAgentSessionEntries. destruct entries as [|first entries]; [by left|]. cbv zeta.
  destruct (find_first _ _) as [e|] eqn:Hkeys; [by left|]. destruct o; try (by left).
  all: destruct (fenced && negb _) eqn:Hfence; [by left|]; destruct (insert_entries _ _ _ _ _) as [[log' seqs]|] eqn:Hi; [|by left].
  all: apply insert_entries_spec in Hi as (-> & -> & Hruns); right; exists first; split; [done|]; split_and!; try done.
  all: try (intros ->; by apply negb_false_iff in Hfence).
  all: rewrite find_first_None in Hkeys; apply Forall_and; split; [|done]; apply Forall_forall; intros x Hx;
    specialize (Hkeys x Hx); cbv beta in Hkeys; apply negb_false_iff, String.eqb_eq in Hkeys; done.
Qed.

Lemma key_rows_app key l1 l2 : rows_of key (l1 ++ l2) = rows_of key l1 ++ rows_of key l2.
Proof. apply filter_app. Qed.

Lemma rows_of_batch key key' seq entries :
  rows_of key (imap (row_at key' seq) entries) = if (key' =? key)%string then imap (row_at key' seq) entries else [].
Proof.
  unfold rows_of. destruct (String.eqb_spec key' key) as [->|Hne].
  - apply filter_full, Forall_lookup. intros i r. rewrite list_lookup_imap, fmap_Some. by intros (e & _ & ->).
  - apply filter_void, Forall_lookup. intros i r. rewrite list_lookup_imap, fmap_Some. by intros (e & _ & ->).
Qed.

(** A read in order of a log that is already in order. *)
Lemma sort_dense a rows n : map se_Seq rows = seqZ a n -> merge_sort seq_le rows = rows.
Proof.
  intros Hseq. assert (Htot : Total seq_le) by (intros x y; unfold seq_le; lia). assert (Htr : Transitive seq_le) by (intros x y z; unfold seq_le; lia).
  assert (Hlook : forall i r, rows !! i = Some r -> se_Seq r = a + Z.of_nat i).
  { intros i r Hi. assert (Hm : map se_Seq rows !! i = Some (se_Seq r)) by (change (map se_Seq rows) with (se_Seq <$> rows); by rewrite list_lookup_fmap, Hi).
    rewrite Hseq in Hm. by apply lookup_seqZ in Hm as [? _]. }
  apply (StronglySorted_unique_strong seq_le).
  - intros x y Hx Hy Hxy Hyx. rewrite merge_sort_Permutation in Hx. apply list_elem_of_lookup in Hx as [i Hi], Hy as [j Hj].
    pose proof (Hlook _ _ Hi). pose proof (Hlook _ _ Hj). unfold seq_le in *. replace j with i in Hj by lia. congruence.
  - by apply StronglySorted_merge_sort.
  - clear Hseq. revert a Hlook. induction rows as [|r rows IH]; intros a Hlook; constructor.
    + apply (IH (a + 1)). intros i x Hi. rewrite (Hlook (S i) x Hi). lia.
    + apply Forall_forall. intros x Hx. apply list_elem_of_lookup in Hx as [i Hi]. unfold seq_le. rewrite (Hlook (S i) x Hi), (Hlook 0%nat r eq_refl). lia.
  - apply merge_sort_Permutation.
Qed.

Lemma filter_from c rows : forall a, map se_Seq rows = seqZ a (Z.of_nat (length rows)) ->
  base.filter (fun e => c <= se_Seq e) rows = drop (Z.to_nat (c - a)) rows.
Proof.
  induction rows as [|r rows IH]; intros a Hseq; [by rewrite drop_nil|]. cbn [length] in Hseq. rewrite seqZ_cons in Hseq by lia.
  replace (Z.pred (Z.of_nat (S (length rows)))) with (Z.of_nat (length rows)) in Hseq by lia. injection Hseq as Hr Hseq. specialize (IH _ Hseq).
  rewrite filter_cons. destruct (decide (c <= se_Seq r)) as [Hle|Hlt].
  - rewrite IH. replace (Z.to_nat (c - a)) with 0%nat by lia. replace (Z.to_nat (c - Z.succ a)) with 0%nat by lia. by rewrite !drop_0.
  - rewrite IH. replace (Z.to_nat (c - a)) with (S (Z.to_nat (c - Z.succ a))) by lia. done.
Qed.

Lemma drop_seqZ k a n : drop k (seqZ a n) = seqZ (a + Z.of_nat k) (n - Z.of_nat k).
Proof. apply list_eq. intros i. rewrite lookup_drop. apply option_eq. intros x. rewrite !lookup_seqZ. lia. Qed.

(** The greatest of some numbers is one of them. *)
Lemma fold_max_spec (ns : list Z) : forall n, let m := fold_left Z.max ns n in m ∈ n :: ns /\ forall x, x ∈ n :: ns -> x <= m.
Proof.
  induction ns as [|k ns IH]; intros n; cbv zeta; cbn [fold_left]; [split; [set_solver|]; intros x Hx; apply list_elem_of_singleton in Hx; lia|].
  destruct (IH (Z.max n k)) as [Hin Hmax]. split.
  - rewrite !elem_of_cons. apply elem_of_cons in Hin as [->|Hin]; [|by right; right]. destruct (Z.max_spec n k) as [[_ ->]|[_ ->]]; auto.
  - intros x Hx. pose proof (Hmax (Z.max n k) (list_elem_of_here _ _)). rewrite !elem_of_cons in Hx.
    destruct Hx as [->|[->|Hx]]; [lia|lia|]. apply Hmax. by apply list_elem_of_further.
Qed.
End Appends.
