(* ===== verification/SessionHistory.v ===== *)
(** * SessionHistory: agent sessions under any order of calls

    The calls of AcquireSessionLease and the appends of [AgentSessions] as one relation
    [session_run] over the database: any number of workers poll, renew, release and write, in
    any order, with any clock readings, failing calls and deleted runs; a trace keeps what took
    effect.  What the lease excludes and what a log reads back. *)

From Stdlib Require Import Ascii.
From S2P Require Import Prelude GoStrings GoTime AgentSessions.
Import String.
Open Scope string_scope.
Open Scope list_scope.
Open Scope Z_scope.

(** ** Runs over one database *)

(** A call of AcquireSessionLease, named by the owner id it draws: waiting for the lease,
    holding its epoch until its context is cancelled, or over. *)
Inductive worker_phase := Waiting | Holding (epoch : Z) (cancelled : bool) | Over.

Record worker := { wk_session : string; wk_phase : worker_phase }.

Record sessions_system := { db : session_db; workers : gmap string worker }.

Inductive session_op (Entry : Type) :=
| CreateRun (run : string)
| DeleteRun (run : string)
| Enter (owner session : string)                                  (* AcquireSessionLease is called *)
| Poll (owner : string) (now : Z) (o : outcome)                    (* one turn of its loop *)
| GiveUp (owner : string)                                          (* its context ends while it waits *)
| Renew (owner : string) (now : Z) (o : outcome)                   (* a tick of the renewal *)
| Release (owner : string) (o : outcome)                           (* release: the row goes first *)
| Cancel (owner : string)                                          (* the lease's context is cancelled *)
| WriteAs (owner : string) (now : Z) (o : outcome) (session : string) (entries : list Entry)
| WritePlain (now : Z) (o : outcome) (session : string) (entries : list Entry).
Arguments CreateRun {Entry}. Arguments DeleteRun {Entry}. Arguments Enter {Entry}. Arguments Poll {Entry}. Arguments GiveUp {Entry}.
Arguments Renew {Entry}. Arguments Release {Entry}. Arguments Cancel {Entry}. Arguments WriteAs {Entry}. Arguments WritePlain {Entry}.

(** What took effect in the database. *)
Inductive note (Entry : Type) :=
| Claimed (session owner : string) (at_ until : Z)
| Renewed (session owner : string) (until : Z)
| Released (session owner : string)
| Wrote (session : string) (fence : option string) (entries : list Entry)
| Dropped (run : string).
Arguments Claimed {Entry} _ _ _ _. Arguments Renewed {Entry}. Arguments Released {Entry}. Arguments Wrote {Entry}. Arguments Dropped {Entry}.

Section System.
Context `{SessionColumns} {Entry : Type} `{SessionEntries Entry}.

Definition with_db (d : session_db) (sys : sessions_system) : sessions_system := {| db := d; workers := workers sys |}.

Definition at_phase (owner session : string) (p : worker_phase) (sys : sessions_system) : sessions_system :=
  {| db := db sys; workers := <[owner := {| wk_session := session; wk_phase := p |}]> (workers sys) |}.

(** The log grew. *)
Definition grew (d d' : session_db) : bool := negb (length (session_log d') =? length (session_log d))%nat.

Definition token_of (owner : string) (w : worker) (epoch : Z) : sessionLeaseToken :=
  {| tk_sessionID := wk_session w; tk_ownerID := owner; tk_epoch := epoch |}.

(** [None] where the worker is not at that point. *)
Definition session_act (a : session_op Entry) (sys : sessions_system) : option (sessions_system * list (note Entry)) :=
  let d := db sys in
  match a with
  | CreateRun run => Some (with_db (create_run run d) sys, [])
  | DeleteRun run => Some (with_db (delete_run run d) sys, [Dropped run])
  | Enter owner session =>
      match workers sys !! owner with Some _ => None | None => Some (at_phase owner session Waiting sys, []) end
  | Poll owner now o =>
      match workers sys !! owner with
      | Some {| wk_session := s; wk_phase := Waiting |} =>
          let '(d', answer) := AcquireAgentSessionLease now o s (rootRunID s) owner sessionLeaseTTL d in
          let taken := match leases d' !! s with Some l => (ls_owner_id l =? owner)%string | None => false end in
          Some (at_phase owner s (match answer with Ok None => Waiting | Ok (Some epoch) => Holding epoch false | Err _ => Over end) (with_db d' sys),
                if taken then [Claimed s owner now (now + durationInterval sessionLeaseTTL)] else [])
      | _ => None
      end
  | GiveUp owner =>
      match workers sys !! owner with
      | Some {| wk_session := s; wk_phase := Waiting |} => Some (at_phase owner s Over sys, [])
      | _ => None
      end
  | Renew owner now o =>
      match workers sys !! owner with
      | Some {| wk_session := s; wk_phase := Holding epoch false |} =>
          let extended := holds_lease now s owner epoch d && match o with Breaks => false | _ => true end in
          let '(d', answer) := RenewAgentSessionLease now o s owner epoch sessionLeaseTTL d in
          Some (at_phase owner s (Holding epoch (match answer with Ok true => false | _ => true end)) (with_db d' sys),
                if extended then [Renewed s owner (now + durationInterval sessionLeaseTTL)] else [])
      | _ => None
      end
  | Release owner o =>
      match workers sys !! owner with
      | Some {| wk_session := s; wk_phase := Holding epoch _ |} =>
          let owned := match leases d !! s with Some l => owned_by owner epoch l | None => false end in
          let d' := (ReleaseAgentSessionLease o s owner epoch d).1 in
          Some (with_db d' sys, if owned && match o with Breaks => false | _ => true end then [Released s owner] else [])
      | _ => None
      end
  | Cancel owner =>
      match workers sys !! owner with
      | Some {| wk_session := s; wk_phase := Holding epoch _ |} => Some (at_phase owner s (Holding epoch true) sys, [])
      | _ => None
      end
  | WriteAs owner now o session entries =>
      match workers sys !! owner with
      | Some {| wk_session := s; wk_phase := Holding epoch false |} =>
          match AppendBatch now o (Some {| tk_sessionID := s; tk_ownerID := owner; tk_epoch := epoch |}) session entries d with
          | (d', _, cancelled) =>
              Some (at_phase owner s (Holding epoch cancelled) (with_db d' sys),
                    if grew d d' then [Wrote session (if (s =? session)%string then Some owner else None) entries] else [])
          end
      | _ => None
      end
  | WritePlain now o session entries =>
      let d' := (AppendBatch now o None session entries d).1.1 in
      Some (with_db d' sys, if grew d d' then [Wrote session None entries] else [])
  end.

Definition no_sessions : sessions_system :=
  {| db := {| session_log := []; leases := ∅; agent_runs := ∅ |}; workers := ∅ |}.

Inductive session_run : list (note Entry) -> sessions_system -> Prop :=
| run_start : session_run [] no_sessions
| run_step tr sys a sys' ns : session_run tr sys -> session_act a sys = Some (sys', ns) -> session_run (tr ++ ns) sys'.

Fixpoint play (ops : list (session_op Entry)) (tr : list (note Entry)) (sys : sessions_system) : option (list (note Entry) * sessions_system) :=
  match ops with
  | [] => Some (tr, sys)
  | a :: ops => match session_act a sys with Some (sys', ns) => play ops (tr ++ ns) sys' | None => None end
  end.

(** ** What a trace says *)

(** The lease of a session as the trace left it: its owner and what it was promised. *)
Definition holder_after (s : string) (h : option (string * Z)) (n : note Entry) : option (string * Z) :=
  match n with
  | Claimed s' o _ until => if (s' =? s)%string then Some (o, until) else h
  | Renewed s' _ until => if (s' =? s)%string then match h with Some (o, _) => Some (o, until) | None => None end else h
  | Released s' _ => if (s' =? s)%string then None else h
  | Dropped run => if (run =? rootRunID s)%string then None else h
  | Wrote _ _ _ => h
  end.

Definition holder (s : string) (tr : list (note Entry)) : option (string * Z) := fold_left (holder_after s) tr None.

(** The entries of a session since its run was last deleted. *)
Definition written_after (s : string) (es : list Entry) (n : note Entry) : list Entry :=
  match n with
  | Wrote s' _ entries => if (s' =? s)%string then es ++ entries else es
  | Dropped run => if (run =? rootRunID s)%string then [] else es
  | _ => es
  end.

Definition written (s : string) (tr : list (note Entry)) : list Entry := fold_left (written_after s) tr [].

Definition claimants (tr : list (note Entry)) : list string := omap (fun n => match n with Claimed _ o _ _ => Some o | _ => None end) tr.
End System.

(** ** What a step does to the database *)

Section Effects.
Context `{SessionColumns} {Entry : Type} `{SessionEntries Entry}.

Definition lease_of (l : lease_row) : string * Z := (ls_owner_id l, ls_expires_at l).

Inductive effect (d : session_db) : session_db -> list (note Entry) -> Prop :=
| no_effect : effect d d []
| run_created run : effect d (create_run run d) []
| run_dropped run : effect d (delete_run run d) [Dropped run]
| lease_claimed s o now l :
    lease_of l = (o, now + durationInterval sessionLeaseTTL) ->
    match leases d !! s with Some old => ls_expires_at old <= now /\ ls_run_id l = ls_run_id old | None => ls_run_id l = rootRunID s end ->
    effect d (with_leases (<[s := l]> (leases d)) d) [Claimed s o now (now + durationInterval sessionLeaseTTL)]
| lease_renewed s o until l :
    leases d !! s = Some l -> ls_owner_id l = o ->
    effect d (with_leases (alter (renewed until) s (leases d)) d) [Renewed s o until]
| lease_released s o l :
    leases d !! s = Some l -> ls_owner_id l = o ->
    effect d (with_leases (delete s (leases d)) d) [Released s o]
| batch_written s fence entries rows :
    session_rows s entries = Some rows ->
    match fence with Some o => exists l, leases d !! s = Some l /\ ls_owner_id l = o | None => True end ->
    effect d (with_log (session_log d ++ imap (row_at s (last_seq s (session_log d) + 1)) rows) d) [Wrote s fence entries].

Lemma session_row_key s (e : Entry) payload : key_of (session_row s e payload) = s.
Proof. unfold key_of. cbn. by destruct (String.eqb_spec s "") as [->|]. Qed.

Lemma session_rows_keys s (entries : list Entry) rows :
  session_rows s entries = Some rows -> Forall (fun r => key_of r = s /\ se_RunID r = rootRunID s) rows /\ length rows = length entries.
Proof.
  revert rows. induction entries as [|e entries IH]; intros rows; cbn; [by intros [= <-]|].
  destruct (marshal e); [|done]. destruct (session_rows s entries) as [rs|]; [|done]. intros [= <-]. destruct (IH rs eq_refl) as [Hf Hl].
  split; [|by cbn; rewrite Hl]. constructor; [|done]. split; [apply session_row_key|done].
Qed.

Lemma session_rows_app s (es1 es2 : list Entry) :
  session_rows s (es1 ++ es2) = match session_rows s es1, session_rows s es2 with Some r1, Some r2 => Some (r1 ++ r2) | _, _ => None end.
Proof.
  induction es1 as [|e es1 IH]; cbn; [by destruct (session_rows s es2)|]. rewrite IH.
  destruct (marshal e), (session_rows s es1), (session_rows s es2); done.
Qed.

Lemma holds_lease_owner now s o epoch d : holds_lease now s o epoch d = true -> exists l, leases d !! s = Some l /\ ls_owner_id l = o.
Proof.
  unfold holds_lease. destruct (leases d !! s) as [l|]; [|done]. intros Hl. exists l. split; [done|]. bool_props. done.
Qed.

Lemma append_rows_effect now o s (entries : list Entry) rows owner epoch fenced d :
  session_rows s entries = Some rows ->
  let '(d', _) := appendAgentSessionEntries now o rows owner epoch fenced d in
  effect d d' (if grew d d' then [Wrote s (if fenced then Some owner else None) entries] else []).
Proof.
  intros Hrows. pose proof (append_spec now o rows owner epoch fenced d) as Hs. pose proof (session_rows_keys _ _ _ Hrows) as [Hkeys Hlen].
  destruct (appendAgentSessionEntries _ _ _ _ _ _ _) as [d' r]. destruct Hs as [[-> _]|(first & Hhead & -> & _ & Hfence & _)].
  - unfold grew. rewrite Nat.eqb_refl. constructor.
  - destruct rows as [|first' rows]; [done|]. injection Hhead as ->. apply Forall_cons in Hkeys as [[Hk _] _]. rewrite Hk in *.
    assert (Hgrew : grew d (with_log (session_log d ++ imap (row_at s (last_seq s (session_log d) + 1)) (first :: rows)) d) = true).
    { unfold grew. cbn [session_log with_log]. apply negb_true_iff, Nat.eqb_neq. rewrite length_app, length_imap. cbn. lia. }
    rewrite Hgrew. apply batch_written; [done|]. destruct fenced; [|done]. by apply (holds_lease_owner now _ _ epoch), Hfence.
Qed.

Lemma AppendBatch_effect now o token s (entries : list Entry) d :
  let '(d', _, _) := AppendBatch now o token s entries d in
  effect d d' (if grew d d' then [Wrote s (match token with Some t => if (tk_sessionID t =? s)%string then Some (tk_ownerID t) else None | None => None end) entries] else []).
Proof.
  unfold AppendBatch, AppendAgentSessionEntries, AppendAgentSessionEntriesFenced. destruct (session_rows s entries) as [rows|] eqn:Hrows.
  - destruct token as [t|]; [destruct (tk_sessionID t =? s)%string|].
    + pose proof (append_rows_effect now o s entries rows (tk_ownerID t) (tk_epoch t) true d Hrows) as He.
      destruct (appendAgentSessionEntries _ _ _ _ _ _ _) as [d' [seqs|[]]]; exact He.
    + pose proof (append_rows_effect now o s entries rows "" 0 false d Hrows) as He.
      destruct (appendAgentSessionEntries _ _ _ _ _ _ _) as [d' [seqs|e]]; exact He.
    + pose proof (append_rows_effect now o s entries rows "" 0 false d Hrows) as He.
      destruct (appendAgentSessionEntries _ _ _ _ _ _ _) as [d' [seqs|e]]; exact He.
  - unfold grew. rewrite Nat.eqb_refl. constructor.
Qed.

Lemma acquire_effect now o s owner d :
  (forall l, leases d !! s = Some l -> ls_owner_id l <> owner) ->
  let '(d', answer) := AcquireAgentSessionLease now o s (rootRunID s) owner sessionLeaseTTL d in
  let taken := match leases d' !! s with Some l => (ls_owner_id l =? owner)%string | None => false end in
  effect d d' (if taken then [Claimed s owner now (now + durationInterval sessionLeaseTTL)] else []) /\
  (taken = true -> answer <> Ok None) /\ (forall epoch, answer = Ok (Some epoch) -> taken = true).
Proof.
  intros Hfresh. assert (Hnot : (match leases d !! s with Some l => (ls_owner_id l =? owner)%string | None => false end) = false).
  { destruct (leases d !! s) as [l|] eqn:Hl; [|done]. by apply String.eqb_neq, Hfresh. }
  unfold AcquireAgentSessionLease, committed. change (sessionLeaseTTL <=? 0) with false. cbv iota.
  assert (Hstill : forall answer : result session_error (option Z), (answer = Ok None \/ exists e, answer = Err e) ->
    let taken := match leases d !! s with Some l => (ls_owner_id l =? owner)%string | None => false end in
    effect d d (if taken then [Claimed s owner now (now + durationInterval sessionLeaseTTL)] else []) /\
    (taken = true -> answer <> Ok None) /\ (forall epoch, answer = Ok (Some epoch) -> taken = true)).
  { cbv zeta. rewrite Hnot. intros answer Ha. split; [apply no_effect|]. split; [done|]. by destruct Ha as [->|[e ->]]. }
  assert (Htakes : forall run epoch (answer : result session_error (option Z)), answer <> Ok None ->
    match leases d !! s with Some old => ls_expires_at old <= now /\ run = ls_run_id old | None => run = rootRunID s end ->
    let l := {| ls_run_id := run; ls_owner_id := owner; ls_epoch := epoch; ls_expires_at := now + durationInterval sessionLeaseTTL |} in
    let d' := with_leases (<[s := l]> (leases d)) d in
    let taken := match leases d' !! s with Some l => (ls_owner_id l =? owner)%string | None => false end in
    effect d d' (if taken then [Claimed s owner now (now + durationInterval sessionLeaseTTL)] else []) /\
    (taken = true -> answer <> Ok None) /\ (forall n : Z, answer = Ok (Some n) -> taken = true)).
  { intros run epoch answer Ha Hold. cbv zeta. cbn [leases with_leases]. rewrite lookup_insert_eq. cbn [ls_owner_id]. rewrite String.eqb_refl.
    split; [|done]. by apply lease_claimed. }
  destruct (leases d !! s) as [l|] eqn:Hl.
  - destruct (Z.leb_spec (ls_expires_at l) now) as [Hexp|Hexp]; [destruct (ls_epoch l <? max_i64)|]; [destruct o|..];
      try (rewrite Hl; apply Hstill; by eauto); try (by apply Htakes). destruct o; rewrite Hl; apply Hstill; eauto.
  - destruct (bool_decide _); [destruct o|]; try (rewrite Hl; apply Hstill; by eauto); by apply Htakes.
Qed.

(** A worker is not waiting at any lease row: the owner of a row has left its loop. *)
Definition owners_left (sys : sessions_system) : Prop :=
  forall s l, leases (db sys) !! s = Some l -> exists w, workers sys !! ls_owner_id l = Some w /\ wk_phase w <> Waiting.

(** Phases only move on. *)
Definition workers_on (sys sys' : sessions_system) : Prop :=
  forall o w, workers sys !! o = Some w -> exists w', workers sys' !! o = Some w' /\ (wk_phase w <> Waiting -> wk_phase w' <> Waiting).

Lemma workers_on_refl sys d : workers_on sys (with_db d sys).
Proof. intros o w Hw. by exists w. Qed.

Lemma workers_on_phase sys d o w s p :
  workers sys !! o = Some w -> (p = Waiting -> wk_phase w = Waiting) -> workers_on sys (at_phase o s p (with_db d sys)).
Proof.
  intros Hw Hp o' w' Hw'. unfold at_phase. cbn [workers with_db]. destruct (decide (o' = o)) as [->|Hne].
  - rewrite lookup_insert_eq. eexists. split; [done|]. cbn. intros Hq ->. replace w' with w in Hq by congruence. by apply Hq, Hp.
  - rewrite lookup_insert_ne by done. by exists w'.
Qed.

Lemma release_effect o s owner epoch d :
  let owned := match leases d !! s with Some l => owned_by owner epoch l | None => false end in
  effect d (ReleaseAgentSessionLease o s owner epoch d).1 (if owned && match o with Breaks => false | _ => true end then [Released s owner] else []).
Proof.
  cbv zeta. unfold ReleaseAgentSessionLease. destruct (leases d !! s) as [l|] eqn:Hl; [|destruct o; apply no_effect].
  destruct (owned_by owner epoch l) eqn:Ho; [|destruct o; apply no_effect]. unfold owned_by in Ho. apply andb_true_iff in Ho as [Ho _]. apply String.eqb_eq in Ho.
  destruct o; cbn [committed fst andb]; [|apply no_effect|]; by apply (lease_released d s owner l).
Qed.

Lemma renew_effect now o s owner epoch d :
  effect d (RenewAgentSessionLease now o s owner epoch sessionLeaseTTL d).1
    (if holds_lease now s owner epoch d && match o with Breaks => false | _ => true end then [Renewed s owner (now + durationInterval sessionLeaseTTL)] else []).
Proof.
  unfold RenewAgentSessionLease. change (sessionLeaseTTL <=? 0) with false. cbv iota. destruct (holds_lease now s owner epoch d) eqn:Hh; [|destruct o; apply no_effect].
  apply holds_lease_owner in Hh as (l & Hl & Ho). destruct o; cbn [committed fst andb]; [|apply no_effect|]; by apply (lease_renewed d s owner _ l).
Qed.

(** What a step does: its effect on the tables, its worker, and who claims. *)
Lemma act_effect a sys sys' ns : owners_left sys -> session_act a sys = Some (sys', ns) ->
  effect (db sys) (db sys') ns /\ workers_on sys sys' /\
  forall s o at_ until, ns = [Claimed s o at_ until] ->
    (exists w, workers sys !! o = Some w /\ wk_phase w = Waiting) /\ exists w, workers sys' !! o = Some w /\ wk_phase w <> Waiting.
Proof.
  intros Hleft. destruct a; cbn [session_act].
  - intros [= <- <-]. split_and!; [apply run_created|apply workers_on_refl|done].
  - intros [= <- <-]. split_and!; [apply run_dropped|apply workers_on_refl|done].
  - destruct (workers sys !! owner) eqn:Hw; [done|]. intros [= <- <-]. split_and!; [apply no_effect| |done].
    intros o w Ho. exists w. split; [|done]. cbn. rewrite lookup_insert_ne by congruence. done.
  - destruct (workers sys !! owner) as [[s []]|] eqn:Hw; [|done..].
    pose proof (acquire_effect now o s owner (db sys)) as He. destruct (AcquireAgentSessionLease _ _ _ _ _ _ _) as [d' answer].
    destruct He as (He & Hnone & _).
    { intros l Hl <-. destruct (Hleft s l Hl) as (w & Hw' & Hp). rewrite Hw in Hw'. by injection Hw' as <-. }
    intros [= <- <-]. split_and!; [done|by apply (workers_on_phase _ _ _ _ _ _ Hw)|].
    intros s' o' at_ until Hc. destruct (match leases d' !! s with Some _ => _ | None => _ end) eqn:Ht; [|done]. injection Hc as <- <- <- <-.
    split; [by eexists|]. cbn. rewrite lookup_insert_eq. eexists. split; [done|]. specialize (Hnone eq_refl). cbn. by destruct answer as [[]|].
  - destruct (workers sys !! owner) as [[s []]|] eqn:Hw; [|done..]. intros [= <- <-]. split_and!; [apply no_effect| |done].
    by apply (workers_on_phase sys (db sys) _ _ _ _ Hw).
  - destruct (workers sys !! owner) as [[s [|epoch []|]]|] eqn:Hw; try done.
    pose proof (renew_effect now o s owner epoch (db sys)) as He. destruct (RenewAgentSessionLease _ _ _ _ _ _ _) as [d' answer].
    intros [= <- <-]. split_and!; [done|by apply (workers_on_phase _ _ _ _ _ _ Hw)|]. by intros s' o' at_ until; destruct (_ && _).
  - destruct (workers sys !! owner) as [[s [|epoch c|]]|] eqn:Hw; try done. intros [= <- <-].
    split_and!; [apply release_effect|apply workers_on_refl|]. by intros s' o' at_ until; destruct (_ && _).
  - destruct (workers sys !! owner) as [[s [|epoch c|]]|] eqn:Hw; try done. intros [= <- <-]. split_and!; [apply no_effect| |done].
    by apply (workers_on_phase sys (db sys) _ _ _ _ Hw).
  - destruct (workers sys !! owner) as [[s [|epoch []|]]|] eqn:Hw; try done.
    pose proof (AppendBatch_effect now o (Some {| tk_sessionID := s; tk_ownerID := owner; tk_epoch := epoch |}) session entries (db sys)) as He.
    destruct (AppendBatch _ _ _ _ _ _) as [[d' r] c]. intros [= <- <-]. split_and!; [done|by apply (workers_on_phase _ _ _ _ _ _ Hw)|].
    by intros s' o' at_ until; destruct (grew _ _).
  - pose proof (AppendBatch_effect now o None session entries (db sys)) as He. destruct (AppendBatch _ _ _ _ _ _) as [[d' r] c].
    intros [= <- <-]. split_and!; [done|apply workers_on_refl|]. by intros s' o' at_ until; destruct (grew _ _).
Qed.

(** ** What a trace knows of the tables *)

Record traced (tr : list (note Entry)) (d : session_db) : Prop := {
  td_holder : forall s, holder s tr = lease_of <$> leases d !! s;
  td_run : forall s l, leases d !! s = Some l -> ls_run_id l = rootRunID s;
  td_rows : Forall (fun e => se_RunID e = rootRunID (se_SessionKey e)) (session_log d);
  td_log : forall s, exists rows, session_rows s (written s tr) = Some rows /\ rows_of s (session_log d) = imap (row_at s 1) rows;
}.

(** When something may take effect, by what the trace before it says of the lease. *)
Definition note_ok (tr : list (note Entry)) (n : note Entry) : Prop :=
  match n with
  | Wrote s (Some o) _ => exists until, holder s tr = Some (o, until)
  | Claimed s _ at_ _ => match holder s tr with Some (_, until) => until <= at_ | None => True end
  | _ => True
  end.

Lemma holder_snoc s (tr : list (note Entry)) n : holder s (tr ++ [n]) = holder_after s (holder s tr) n.
Proof. unfold holder. by rewrite fold_left_app. Qed.

Lemma written_snoc s (tr : list (note Entry)) n : written s (tr ++ [n]) = written_after s (written s tr) n.
Proof. unfold written. by rewrite fold_left_app. Qed.

Lemma map_seq_imap (f : nat -> AgentSessionEntry -> AgentSessionEntry) a rows :
  (forall i e, se_Seq (f i e) = a + Z.of_nat i) -> map se_Seq (imap f rows) = seqZ a (Z.of_nat (length rows)).
Proof.
  intros Hf. change (map se_Seq (imap f rows)) with (se_Seq <$> imap f rows). revert f a Hf. induction rows as [|e rows IH]; intros f a Hf; [done|].
  cbn [imap length]. rewrite seqZ_cons by lia. rewrite fmap_cons. f_equal; [rewrite Hf; lia|].
  replace (Z.pred (Z.of_nat (S (length rows)))) with (Z.of_nat (length rows)) by lia. apply IH. intros i x. unfold compose. rewrite Hf. lia.
Qed.

(** The tables without the leases, and the leases without the tables. *)
Lemma traced_leases tr d ls n :
  traced tr d -> (forall s, written s (tr ++ [n]) = written s tr) ->
  (forall s, holder_after s (lease_of <$> leases d !! s) n = lease_of <$> ls !! s) -> (forall s l, ls !! s = Some l -> ls_run_id l = rootRunID s) ->
  traced (tr ++ [n]) (with_leases ls d).
Proof.
  intros [Hh Hr Hrows Hlog] Hw Hn Hrun. constructor; cbn [leases session_log with_leases]; [|done|done|].
  - intros s. by rewrite holder_snoc, Hh, Hn.
  - intros s. rewrite Hw. apply Hlog.
Qed.

Lemma rows_of_deleted s run log :
  Forall (fun e => se_RunID e = rootRunID (se_SessionKey e)) log ->
  rows_of s (base.filter (fun e => se_RunID e <> run) log) = if (run =? rootRunID s)%string then [] else rows_of s log.
Proof.
  unfold rows_of. induction 1 as [|e log He _ IH]; [by destruct (_ =? _)%string|]. rewrite filter_cons.
  destruct (decide (se_RunID e <> run)) as [Hne|Heq].
  - rewrite !filter_cons, IH. destruct (decide (se_SessionKey e = s)) as [Hs|]; [|done].
    destruct (String.eqb_spec run (rootRunID s)) as [->|]; [|done]. by rewrite He, Hs in Hne.
  - rewrite IH, filter_cons. destruct (decide (se_SessionKey e = s)) as [Hs|]; [|done].
    destruct (String.eqb_spec run (rootRunID s)) as [->|Hd]; [done|]. rewrite He, Hs in Heq. by destruct Heq; intros E; apply Hd.
Qed.

Lemma traced_drop tr d run : traced tr d -> traced (tr ++ [Dropped run]) (delete_run run d).
Proof.
  intros [Hh Hr Hrows Hlog]. constructor; cbn [leases session_log delete_run].
  - intros s. rewrite holder_snoc, Hh. cbn. rewrite map_lookup_filter. specialize (Hr s). destruct (leases d !! s) as [l|]; cbn; [|by destruct (_ =? _)%string].
    specialize (Hr l eq_refl). case_guard as Hg; cbn in *; rewrite Hr in Hg; destruct (String.eqb_spec run (rootRunID s)); try done; exfalso; naive_solver.
  - intros s l. rewrite map_lookup_filter_Some. intros [Hl _]. by apply Hr.
  - apply Forall_forall. intros e. rewrite list_elem_of_filter. intros [_ He]. by apply (proj1 (Forall_forall _ _) Hrows).
  - intros s. rewrite written_snoc, rows_of_deleted by done. cbn. destruct (run =? rootRunID s)%string; [by exists []|apply Hlog].
Qed.

Lemma traced_write tr d s fence entries rows : traced tr d -> session_rows s entries = Some rows ->
  traced (tr ++ [Wrote s fence entries]) (with_log (session_log d ++ imap (row_at s (last_seq s (session_log d) + 1)) rows) d).
Proof.
  intros [Hh Hr Hrows Hlog] Hnew. pose proof (session_rows_keys _ _ _ Hnew) as [Hkeys _]. constructor; cbn [leases session_log with_log]; [|done| |].
  - intros s'. by rewrite holder_snoc, Hh.
  - apply Forall_app. split; [done|]. apply Forall_lookup. intros i r. rewrite list_lookup_imap, fmap_Some. intros (e & He & ->). cbn.
    rewrite Forall_lookup in Hkeys. by destruct (Hkeys i e He).
  - intros s'. rewrite written_snoc, key_rows_app, rows_of_batch. cbn [written_after]. destruct (Hlog s') as (old & Hold & ->).
    destruct (String.eqb_spec s s') as [<-|Hne]; [|exists old; by rewrite app_nil_r].
    exists (old ++ rows). rewrite session_rows_app, Hold, Hnew. split; [done|]. rewrite imap_app. f_equal. apply imap_ext. intros i e _. unfold row_at, compose.
    f_equal. rewrite (last_seq_dense s _ (length old)); [lia|]. destruct (Hlog s) as (old' & Hold' & ->). rewrite Hold in Hold'. injection Hold' as <-.
    by apply map_seq_imap.
Qed.

Lemma traced_effect tr d d' ns : traced tr d -> effect d d' ns -> traced (tr ++ ns) d' /\ Forall (note_ok tr) ns.
Proof.
  intros Ht He. pose proof Ht as [Hh Hr Hrows Hlog]. destruct He as [|run|run|s o now l Hl Hold|s o until l Hl Ho|s o l Hl Ho|s fence entries rows Hrows' Hf].
  - by rewrite app_nil_r.
  - rewrite app_nil_r. split; [|done]. by destruct Ht.
  - split; [by apply traced_drop|]. by repeat constructor.
  - split.
    + apply traced_leases; [done|by intros s'; rewrite written_snoc| |].
      * intros s'. cbn. destruct (String.eqb_spec s s') as [<-|Hne]; [rewrite lookup_insert_eq; cbn; by rewrite Hl|by rewrite lookup_insert_ne].
      * intros s' l'. destruct (decide (s' = s)) as [->|Hne]; [|rewrite lookup_insert_ne by done; apply Hr]. rewrite lookup_insert_eq. intros [= <-].
        specialize (Hr s). destruct (leases d !! s) as [old|]; [|done]. destruct Hold as [_ ->]. by apply Hr.
    + repeat constructor. cbn. rewrite Hh. destruct (leases d !! s) as [old|]; [|done]. by destruct Hold.
  - split; [|by repeat constructor]. apply traced_leases; [done|by intros s'; rewrite written_snoc| |].
    + intros s'. cbn. destruct (String.eqb_spec s s') as [<-|Hne]; [rewrite lookup_alter_eq, Hl; done|by rewrite lookup_alter_ne].
    + intros s' l'. destruct (decide (s' = s)) as [->|Hne]; [|rewrite lookup_alter_ne by done; apply Hr]. rewrite lookup_alter_eq, Hl. intros [= <-]. exact (Hr s l Hl).
  - split; [|by repeat constructor]. apply traced_leases; [done|by intros s'; rewrite written_snoc| |].
    + intros s'. cbn. destruct (String.eqb_spec s s') as [<-|Hne]; [by rewrite lookup_delete_eq|by rewrite lookup_delete_ne].
    + intros s' l' Hl'. apply lookup_delete_Some in Hl' as [_ Hl']. by apply Hr.
  - split; [by apply traced_write|]. repeat constructor. cbn. destruct fence as [o|]; [|done]. destruct Hf as (l & Hl & <-). rewrite Hh, Hl. by exists (ls_expires_at l).
Qed.

(** ** What holds in every history *)

Lemma claimants_app (tr ns : list (note Entry)) : claimants (tr ++ ns) = claimants tr ++ claimants ns.
Proof. apply omap_app. Qed.

Lemma holder_claimed s (tr : list (note Entry)) o u : holder s tr = Some (o, u) -> o ∈ claimants tr.
Proof.
  revert o u. induction tr as [|n tr IH] using rev_ind; intros o u; [done|]. rewrite holder_snoc, claimants_app, elem_of_app.
  destruct n as [s' o' at_ u'|s' o' u'|s' o'|s' f es|run]; cbn [holder_after].
  - destruct (s' =? s)%string; [|by left; eapply IH]. intros [= -> ->]. right. cbn. set_solver.
  - destruct (s' =? s)%string; [|by left; eapply IH]. destruct (holder s tr) as [[o1 u1]|]; [|done]. intros [= -> ->]. left. by eapply IH.
  - destruct (s' =? s)%string; [done|]. left. by eapply IH.
  - left. by eapply IH.
  - destruct (_ =? _)%string; [done|]. left. by eapply IH.
Qed.

Record run_ok (tr : list (note Entry)) (sys : sessions_system) : Prop := {
  rk_traced : traced tr (db sys);
  rk_claims : NoDup (claimants tr);
  rk_claimed : forall o, o ∈ claimants tr -> exists w, workers sys !! o = Some w /\ wk_phase w <> Waiting;
  rk_notes : forall t1 n t2, tr = t1 ++ n :: t2 -> note_ok t1 n;
}.

Lemma run_ok_left tr sys : run_ok tr sys -> owners_left sys.
Proof.
  intros [[Hh _ _ _] _ Hc _] s l Hl. apply Hc, (holder_claimed s tr _ (ls_expires_at l)). by rewrite Hh, Hl.
Qed.

Lemma effect_one d d' ns : effect d d' ns -> ns = [] \/ exists n, ns = [n].
Proof. destruct 1; eauto. Qed.

Lemma run_ok_start : run_ok [] no_sessions.
Proof.
  constructor; [constructor| | |].
  - intros s. cbn. by rewrite lookup_empty.
  - intros s l. cbn. by rewrite lookup_empty.
  - constructor.
  - intros s. by exists [].
  - constructor.
  - intros o Ho. by apply elem_of_nil in Ho.
  - by intros [].
Qed.

Lemma run_ok_step a tr sys sys' ns : run_ok tr sys -> session_act a sys = Some (sys', ns) -> run_ok (tr ++ ns) sys'.
Proof.
  intros Hok Ha. pose proof Hok as [Ht Hnd Hc Hn]. destruct (act_effect a sys sys' ns (run_ok_left _ _ Hok) Ha) as (He & Hon & Hclaim).
  destruct (traced_effect _ _ _ _ Ht He) as [Ht' Hnotes]. pose proof (effect_one _ _ _ He) as Hone.
  assert (Hnew : forall o, o ∈ claimants ns -> exists s at_ until, ns = [Claimed s o at_ until]).
  { intros o Ho. destruct Hone as [->|[[s o2 at_ u| | | |] ->]]; cbn in Ho; try (by apply elem_of_nil in Ho). apply list_elem_of_singleton in Ho as ->. by do 3 eexists. }
  constructor; [done|..].
  - rewrite claimants_app. apply NoDup_app. split_and!; [done| |].
    + intros o Ho Ho'. destruct (Hnew o Ho') as (s & at_ & until & E). destruct (Hclaim _ _ _ _ E) as [(w & Hw & Hp) _].
      destruct (Hc o Ho) as (w' & Hw' & Hp'). congruence.
    + destruct Hone as [->|[[] ->]]; cbn; repeat constructor; set_solver.
  - intros o. rewrite claimants_app, elem_of_app. intros [Ho|Ho].
    + destruct (Hc o Ho) as (w & Hw & Hp). destruct (Hon o w Hw) as (w' & Hw' & Hp'). exists w'. split; [done|by apply Hp'].
    + destruct (Hnew o Ho) as (s & at_ & until & E). by destruct (Hclaim _ _ _ _ E).
  - intros t1 n t2 E. destruct Hone as [->|[m ->]]; [rewrite app_nil_r in E; by apply (Hn _ _ t2)|].
    destruct t2 as [|x t2 _] using rev_ind.
    + apply app_inj_tail in E as [E1 E2]. subst t1 n. by apply Forall_cons in Hnotes as [Hnotes _].
    + rewrite app_comm_cons, app_assoc in E. apply app_inj_tail in E as [E _]. by apply (Hn _ _ t2).
Qed.

Lemma session_run_ok tr sys : session_run tr sys -> run_ok tr sys.
Proof. induction 1 as [|tr sys a sys' ns _ IH Ha]; [apply run_ok_start|by apply (run_ok_step a tr sys)]. Qed.

Lemma play_run ops : forall tr sys tr' sys', session_run tr sys -> play ops tr sys = Some (tr', sys') -> session_run tr' sys'.
Proof.
  induction ops as [|a ops IH]; intros tr sys tr' sys' Hrun; cbn; [by intros [= <- <-]|].
  destruct (session_act a sys) as [[sys1 ns]|] eqn:Ha; [|done]. apply IH. by apply (run_step tr sys a).
Qed.

(** The lease after a claim belongs to its owner or to a later one. *)
Lemma holder_since_claim s (t1 t2 : list (note Entry)) o' at_ u o v :
  holder s (t1 ++ Claimed s o' at_ u :: t2) = Some (o, v) -> o = o' \/ o ∈ claimants t2.
Proof.
  revert v. induction t2 as [|n t2 IH] using rev_ind; intros v.
  - rewrite holder_snoc. cbn. rewrite String.eqb_refl. intros [= -> _]. by left.
  - rewrite app_comm_cons, app_assoc, holder_snoc, claimants_app, elem_of_app. set (h := holder s _) in *.
    assert (Hh : forall w, h = Some (o, w) -> o = o' \/ o ∈ claimants t2 \/ o ∈ claimants [n]) by (intros w Hw; destruct (IH w Hw); auto).
    destruct n as [s' o1 at1 u1|s' o1 u1|s' o1|s' f es|run]; cbn [holder_after].
    + destruct (s' =? s)%string; [|apply Hh]. intros [= -> _]. right. right. cbn. set_solver.
    + destruct (s' =? s)%string; [|apply Hh]. destruct h as [[o2 u2]|]; [|done]. intros [= -> _]. by apply (Hh u2).
    + destruct (s' =? s)%string; [done|apply Hh].
    + apply Hh.
    + destruct (_ =? _)%string; [done|apply Hh].
Qed.
End Effects.

Section Properties.
Context `{SessionColumns} {Entry : Type} `{SessionEntries Entry}.

(** C26: Ownership of a session is exclusive in what reaches its log.  In every history of
    claims, renewals, releases, writes and deleted runs, with any clock readings and failing
    calls: when an owner claims a session the lease was free, released or at the end of what
    its last claim or renewal had promised, and from then on nothing an earlier owner writes
    under its lease lands, however late the call. *)
Theorem superseded_owner_never_writes tr (sys : sessions_system) t1 s o' at_ until t2 o (entries : list Entry)
    (Hrun : session_run tr sys) (Htr : tr = t1 ++ Claimed s o' at_ until :: t2) (Ho : o ∈ claimants t1) :
  match holder s t1 with Some (_, promised) => promised <= at_ | None => True end /\ Wrote s (Some o) entries ∉ t2.
Proof.
  destruct (session_run_ok _ _ Hrun) as [_ Hnd _ Hn]. split; [exact (Hn _ _ _ Htr)|]. intros Hin.
  apply list_elem_of_split in Hin as (u1 & u2 & ->). subst tr.
  assert (Hok : note_ok (t1 ++ Claimed s o' at_ until :: u1) (Wrote s (Some o) entries)) by (apply (Hn _ _ u2); by rewrite <- app_assoc).
  destruct Hok as [v Hv]. rewrite claimants_app in Hnd. apply NoDup_app in Hnd as (_ & Hdis & _). apply (Hdis o Ho).
  assert (E : claimants (Claimed s o' at_ until :: u1 ++ Wrote s (Some o) entries :: u2) = o' :: claimants u1 ++ claimants (Wrote s (Some o) entries :: u2))
    by (rewrite <- claimants_app; reflexivity).
  rewrite E. apply elem_of_cons. rewrite elem_of_app. apply holder_since_claim in Hv as [->|Hv]; tauto.
Qed.

(** What a row read back gives. *)
Lemma imap_read_back `{!SessionEntriesLaws Entry} s (es : list Entry) : forall start rows, session_rows s es = Some rows ->
  imap (fun i r => sessionEntryFromRow (row_at s start i r)) rows = imap (fun i e => with_seq (start + Z.of_nat i) e) es.
Proof.
  induction es as [|e es IH]; intros start rows; cbn [session_rows]; [by intros [= <-]|].
  destruct (marshal e) as [payload|] eqn:Hm; [|done]. destruct (session_rows s es) as [rs|]; [|done]. intros [= <-]. cbn [imap]. f_equal.
  - destruct (marshal_back e payload Hm) as (e' & Hu & He). unfold sessionEntryFromRow. cbn [se_PayloadJSON se_Seq row_at session_row]. by rewrite Hu, He.
  - rewrite (imap_ext _ (fun i r => sessionEntryFromRow (row_at s (start + 1) i r))); [rewrite (IH (start + 1) rs eq_refl)|].
    + apply imap_ext. intros i x _. unfold compose. f_equal. lia.
    + intros i x _. unfold compose, row_at. do 2 f_equal. lia.
Qed.

(** C27: A log reads back what was written.  In every history the log of a session is exactly
    the entries of the batches that landed since its run was last deleted, whole and in the
    order they landed, numbered from one without a gap; and a read from a number on is that
    log without the entries before it. *)
Theorem log_reads_back `{!SessionEntriesLaws Entry} tr (sys : sessions_system) s c (Hrun : session_run tr sys) :
  Log s (db sys) = imap (fun i e => with_seq (1 + Z.of_nat i) e) (written s tr) /\
  LogFrom s c (db sys) = drop (Z.to_nat (c - 1)) (Log s (db sys)).
Proof.
  destruct (session_run_ok _ _ Hrun) as [[_ _ _ Hlog] _ _ _]. destruct (Hlog s) as (rows & Hrows & Heq).
  assert (Hdense : map se_Seq (rows_of s (session_log (db sys))) = seqZ 1 (Z.of_nat (length (rows_of s (session_log (db sys)))))).
  { rewrite Heq, length_imap. by apply map_seq_imap. }
  split.
  - unfold Log, AgentSessionLog. rewrite (sort_dense 1 _ _ Hdense), Heq. change (map ?f ?l) with (f <$> l). rewrite fmap_imap. apply (imap_read_back s _ 1 _ Hrows).
  - unfold LogFrom, Log, AgentSessionLogFrom, AgentSessionLog. rewrite (filter_from _ _ 1 Hdense), (sort_dense 1 _ _ Hdense).
    change (map ?f ?l) with (f <$> l). rewrite <- fmap_drop. f_equal.
    eapply sort_dense. change (map ?f ?l) with (f <$> l) in *. rewrite fmap_drop, Hdense. apply drop_seqZ.
Qed.

(** Between two looks at a session whose run stays, its log only grows. *)
Lemma written_grows s (tr more : list (note Entry)) : Dropped (rootRunID s) ∉ more -> exists es, written s (tr ++ more) = written s tr ++ es.
Proof.
  induction more as [|n more IH] using rev_ind; intros Hkeep; [exists []; by rewrite !app_nil_r|].
  rewrite elem_of_app, list_elem_of_singleton in Hkeep. destruct IH as [es IH]; [tauto|]. rewrite app_assoc, written_snoc, IH.
  destruct n as [| | |s' f new|run]; cbn [written_after]; try by exists es.
  - destruct (s' =? s)%string; [|by exists es]. exists (es ++ new). by rewrite app_assoc.
  - destruct (String.eqb_spec run (rootRunID s)) as [->|]; [tauto|by exists es].
Qed.

Lemma rows_grow s tr more (sys sys' : sessions_system) : session_run tr sys -> session_run (tr ++ more) sys' -> Dropped (rootRunID s) ∉ more ->
  exists later, rows_of s (session_log (db sys')) = rows_of s (session_log (db sys)) ++ later.
Proof.
  intros Hrun Hrun' Hkeep. destruct (session_run_ok _ _ Hrun) as [[_ _ _ Hlog] _ _ _], (session_run_ok _ _ Hrun') as [[_ _ _ Hlog'] _ _ _].
  destruct (Hlog s) as (rows & Hrows & ->), (Hlog' s) as (rows' & Hrows' & ->). destruct (written_grows s tr more Hkeep) as [es E].
  rewrite E, session_rows_app, Hrows in Hrows'. destruct (session_rows s es) as [rs|]; [|done]. injection Hrows' as <-. rewrite imap_app. by eexists.
Qed.

Lemma log_dense tr (sys : sessions_system) s : session_run tr sys ->
  let rows := rows_of s (session_log (db sys)) in map se_Seq rows = seqZ 1 (Z.of_nat (length rows)).
Proof.
  intros Hrun. destruct (session_run_ok _ _ Hrun) as [[_ _ _ Hlog] _ _ _]. destruct (Hlog s) as (rows & _ & Heq). cbv zeta. rewrite Heq, length_imap. by apply map_seq_imap.
Qed.

(** C28: A resume window is complete.  While the run stays, whatever is appended between the
    two queries: a checkpoint other than zero is the number of the newest self-contained
    compaction the first query could see; the window from it on starts with that row and
    holds every later one; no inbox intent of the whole log is left unsettled outside it or
    in it; and the branch flag says exactly whether the log had branched. *)
Theorem resume_window_is_complete `{JsonbFields} tr more (sys sys' : sessions_system) s
    (Hrun : session_run tr sys) (Hrun' : session_run (tr ++ more) sys') (Hkeep : Dropped (rootRunID s) ∉ more) :
  let '(c, branched) := AgentSessionCheckpoint s (db sys) (db sys') in
  (branched = true <-> exists r, r ∈ AgentSessionLog s (db sys) /\ se_Kind r = "leaf_move") /\
  (c = 0 \/ exists row before after, AgentSessionLog s (db sys') = before ++ row :: after /\ se_Seq row = c /\ self_contained row = true /\
     AgentSessionLogFrom s c (db sys') = row :: after /\
     (forall r, r ∈ AgentSessionLog s (db sys) -> self_contained r = true -> se_Seq r <= c) /\
     forall r, r ∈ before ++ row :: after -> unsettled (before ++ row :: after) r = false).
Proof.
  pose proof (log_dense _ _ s Hrun) as Hd. pose proof (log_dense _ _ s Hrun') as Hd'. cbv zeta in *. destruct (rows_grow s _ _ _ _ Hrun Hrun' Hkeep) as [later Hgrow].
  unfold AgentSessionLog. rewrite (sort_dense 1 _ _ Hd), (sort_dense 1 _ _ Hd').
  unfold AgentSessionCheckpoint. set (rows := rows_of s (session_log (db sys))) in *. set (rows' := rows_of s (session_log (db sys'))) in *.
  assert (Hbranch : existsb branch rows = true <-> exists r, r ∈ rows /\ se_Kind r = "leaf_move").
  { rewrite existsb_True. unfold branch. by setoid_rewrite String.eqb_eq. }
  cbv zeta. set (c := match map se_Seq (base.filter (fun e => self_contained e = true) rows) with [] => 0 | n :: ns => fold_left Z.max ns n end).
  assert (Hmax : c <> 0 -> exists row, row ∈ rows /\ se_Seq row = c /\ self_contained row = true /\ forall r, r ∈ rows -> self_contained r = true -> se_Seq r <= c).
  { subst c. destruct (map se_Seq (base.filter (fun e => self_contained e = true) rows)) as [|n ns] eqn:Hm; [done|]. intros _.
    destruct (fold_max_spec ns n) as [Hin Hle]. rewrite <- Hm in Hin, Hle.
    change (map ?f ?l) with (f <$> l) in *. apply list_elem_of_fmap in Hin as (row & Hrow & Hin). apply list_elem_of_filter in Hin as [Hself Hin].
    exists row. split_and!; try done. intros r Hr Hs. apply Hle, list_elem_of_fmap_2, list_elem_of_filter. done. }
  destruct (Z.eqb_spec c 0) as [E|Hne]; [by split; [|left]|].
  destruct (Hmax Hne) as (row & Hin & Hseq & Hself & Hle). destruct (existsb (unsettled rows') rows') eqn:Hun; split; try done; [by left|right].
  assert (Hin' : row ∈ rows') by (rewrite Hgrow, elem_of_app; by left). apply list_elem_of_lookup in Hin' as [i Hi].
  exists row, (take i rows'), (drop (S i) rows'). rewrite <- Hseq. rewrite take_drop_middle by done. split_and!; try done.
  - unfold AgentSessionLogFrom. fold rows'. rewrite (filter_from _ _ 1 Hd'). assert (Hs : (se_Seq <$> rows') !! i = Some (se_Seq row)) by (by rewrite list_lookup_fmap, Hi). change (map ?f ?l) with (f <$> l) in *. rewrite Hd' in Hs.
    apply lookup_seqZ in Hs as [Hs _]. replace (Z.to_nat (se_Seq row - 1)) with i by lia. rewrite <- (drop_S rows' row i Hi).
    eapply sort_dense. change (map ?f ?l) with (f <$> l). rewrite fmap_drop, Hd'. apply drop_seqZ.
  - by rewrite Hseq.
  - by apply existsb_False.
Qed.
End Properties.

(** ** On a concrete history *)

Module Sessions.

Definition entry : Type := string * Z * string.

#[export] Instance columns : SessionColumns := {| row_fits := fun _ => true; jsonb := fun p => p |}.
#[export] Instance entries : SessionEntries entry := {|
  entry_kind := fun e => e.1.1; entry_turn := fun _ => 0;
  marshal := fun e => Some (String.append e.1.1 (String.append "/" e.2));
  unmarshal := fun p => match index_byte p "/"%char with Some i => Some (take_str i p, 0, drop_str (S i) p) | None => None end;
  bare_entry := fun kind _ => (kind, 0, ""); with_seq := fun n e => (e.1.1, n, e.2) |}.
#[export] Instance fields : JsonbFields := {|
  jsonb_text := fun p k =>
    if (p =? "compaction/full")%string && (k =? "final")%string then Some "true"
    else if (p =? "inbox/q")%string && (k =? "id")%string then Some "q"
    else if (p =? "inbox_done/q")%string && (k =? "target")%string then Some "q" else None;
  jsonb_exists := fun p k => (p =? "compaction/full")%string |}.

(** One kind, so that every entry is read back as it was written. *)
Definition plain : Type := Z * string.
#[export] Instance plain_entries : SessionEntries plain := {|
  entry_kind := fun _ => "message"; entry_turn := fun _ => 0; marshal := fun e => Some (String "m"%char e.2);
  unmarshal := fun p => Some (0, drop_str 1 p); bare_entry := fun _ _ => (0, ""); with_seq := fun n e => (n, e.2) |}.
#[export] Instance plain_laws : SessionEntriesLaws plain.
Proof. intros [n t] payload E. injection E as <-. eexists. split; [done|]. intros k. cbn. by destruct t. Defined.

(** A claim, a batch, a takeover after the lease ran out, a late write of the first owner. *)
Definition takeover {A} (e1 e2 e3 : A) : list (session_op A) :=
  [CreateRun "r"; Enter "o1" "r"; Poll "o1" 0 Works; WriteAs "o1" second Works "r" [e1; e2]; Enter "o2" "r"; Poll "o2" (29 * second) Works;
   Poll "o2" (30 * second) Works; WriteAs "o1" (31 * second) Works "r" [e2]; WriteAs "o2" (31 * second) Works "r" [e3]].

Definition ended {A} `{SessionEntries A} (ops : list (session_op A)) : list (note A) * sessions_system := default ([], no_sessions) (play ops [] no_sessions).

Lemma ended_run {A} `{SessionEntries A} (ops : list (session_op A)) : is_some (play ops [] no_sessions) = true -> session_run (ended ops).1 (ended ops).2.
Proof. unfold ended. destruct (play ops [] no_sessions) as [[tr sys]|] eqn:E; [|done]. intros _. exact (play_run ops [] no_sessions tr sys run_start E). Qed.

Definition plain_run := ended (takeover (0, "a") (0, "b") (0, "c")).
Definition settled_run := ended (takeover ("inbox", 0, "q") ("inbox_done", 0, "q") ("compaction", 0, "full")).
End Sessions.

Import Sessions.

Lemma superseded_owner_never_writes_witness :
  plain_run.1 = [Claimed "r" "o1" 0 (30 * second); Wrote "r" (Some "o1") [(0, "a"); (0, "b")]] ++
    Claimed "r" "o2" (30 * second) (60 * second) :: [Wrote "r" (Some "o2") [(0, "c")]] /\
  Wrote "r" (Some "o1") [(0, "b")] ∉ [Wrote "r" (Some "o2") [(0, "c")]].
Proof.
  assert (E : plain_run.1 = [Claimed "r" "o1" 0 (30 * second); Wrote "r" (Some "o1") [(0, "a"); (0, "b")]] ++
    Claimed "r" "o2" (30 * second) (60 * second) :: [Wrote "r" (Some "o2") [(0, "c")]]) by (by vm_compute).
  split; [exact E|].
  apply (superseded_owner_never_writes plain_run.1 plain_run.2
    [Claimed "r" "o1" 0 (30 * second); Wrote "r" (Some "o1") [(0, "a"); (0, "b")]] "r" "o2" (30 * second) (60 * second) [Wrote "r" (Some "o2") [(0, "c")]] "o1" [(0, "b")]).
  - apply ended_run. by vm_compute.
  - exact E.
  - by vm_compute; left.
Defined.

Lemma log_reads_back_witness :
  Log "r" (db plain_run.2) = [(1, "a"); (2, "b"); (3, "c")] /\ LogFrom "r" 2 (db plain_run.2) = [(2, "b"); (3, "c")].
Proof.
  destruct (log_reads_back plain_run.1 plain_run.2 "r" 2) as [H1 H2]; [apply ended_run; by vm_compute|]. rewrite H2, H1. by vm_compute.
Defined.

Lemma resume_window_is_complete_witness :
  AgentSessionCheckpoint "r" (db settled_run.2) (db settled_run.2) = (3, false) /\
  exists row before after, AgentSessionLog "r" (db settled_run.2) = before ++ row :: after /\ se_Seq row = 3.
Proof.
  assert (E : AgentSessionCheckpoint "r" (db settled_run.2) (db settled_run.2) = (3, false)) by (by vm_compute). split; [exact E|].
  assert (Hrun : session_run settled_run.1 settled_run.2) by (apply ended_run; by vm_compute).
  pose proof (resume_window_is_complete settled_run.1 [] settled_run.2 settled_run.2 "r" Hrun) as Hw. rewrite app_nil_r, E in Hw.
  destruct (Hw Hrun) as [_ [Hc|(row & before & after & Hlog & Hseq & _)]]; [set_solver|done|]. by exists row, before, after.
Defined.
