(* ===== verification/Alerts.v ===== *)
(** * Alerts: alert rules, channels and events

    store/alerts.go of internal/dataplane: the three tables, the rule and channel operations
    of members, the seeding of the weekly digest, the claim of a rule for evaluation and the
    record of an event, over the account tables of [Accounts].  A statement is one function;
    where an operation is several statements the later one's failure is an argument. *)

From stdpp Require Import sorting.
From Stdlib Require Import SpecFloat.
From S2P Require Import Prelude GoStrings GoTime Cron Operations Principals Accounts.
Import String.
Open Scope string_scope.
Open Scope list_scope.
Open Scope Z_scope.
Open Scope go_scope.

(** ** The tables *)

Record AlertCondition := { ac_Op : string; ac_Value : spec_float; ac_Window : Z; ac_MinEvents : Z }.

(** A rule as a caller sends it and as a scan reads it; [ar_Channels] is [None] where the
    column holds JSON null, which is what a nil slice is written as. *)
Record AlertRule := {
  ar_ProjectID : string; ar_Name : string; ar_SourceKind : string; ar_SourceRef : string; ar_Condition : AlertCondition;
  ar_SendEmpty : bool; ar_Schedule : string; ar_Channels : option (list string); ar_Enabled : bool;
  ar_LastEvalAt : option Z; ar_LastState : string; ar_CreatedAt : Z;
}.

Record AlertChannel := { ch_WorkspaceID : string; ch_Kind : string; ch_Name : string; ch_Config : string; ch_CreatedAt : Z }.

(** What the payload of an event says: the evaluator's own type. *)
Record AlertEvent (P : Type) := { ae_RuleID : string; ae_FiredAt : Z; ae_State : string; ae_Value : spec_float; ae_Payload : P }.
Arguments ae_RuleID {P}. Arguments ae_FiredAt {P}. Arguments ae_State {P}. Arguments ae_Value {P}. Arguments ae_Payload {P}.

Record alert_db (P : Type) := {
  accounts : DB; rules : gmap string AlertRule; channels : gmap string AlertChannel; alert_events : list (AlertEvent P);
}.
Arguments accounts {P}. Arguments rules {P}. Arguments channels {P}. Arguments alert_events {P}.

(** Postgres: the canonical text of what it reads as a uuid, and VARCHAR(n). *)
Class AlertColumns := { pg_uuid : string -> option string; fits : nat -> string -> bool; pg_uuid_empty : pg_uuid "" = None }.

(** A timestamptz keeps microseconds. *)
Definition pg_time (t : Z) : Z := t / 1000 * 1000.

(** ORDER BY created_at *)
Definition by_creation {A} (at_ : A -> Z) (a b : string * A) : Prop := at_ a.2 <= at_ b.2.
Definition newest_first {A} (at_ : A -> Z) (a b : string * A) : Prop := at_ b.2 <= at_ a.2.

#[export] Instance by_creation_dec {A} (at_ : A -> Z) a b : Decision (by_creation at_ a b) := decide (at_ a.2 <= at_ b.2).
#[export] Instance newest_first_dec {A} (at_ : A -> Z) a b : Decision (newest_first at_ a b) := decide (at_ b.2 <= at_ a.2).

Section Alerts.
Context {P : Type}.

Definition with_rules (rs : gmap string AlertRule) (db : alert_db P) : alert_db P :=
  {| accounts := accounts db; rules := rs; channels := channels db; alert_events := alert_events db |}.

Definition with_channels (cs : gmap string AlertChannel) (db : alert_db P) : alert_db P :=
  {| accounts := accounts db; rules := rules db; channels := cs; alert_events := alert_events db |}.

Definition with_accounts (acc : DB) (db : alert_db P) : alert_db P :=
  {| accounts := acc; rules := rules db; channels := channels db; alert_events := alert_events db |}.

Definition with_event (e : AlertEvent P) (db : alert_db P) : alert_db P :=
  {| accounts := accounts db; rules := rules db; channels := channels db; alert_events := alert_events db ++ [e] |}.

(** ** What a rule must be *)

Definition validateAlertSource (kind : string) : result error unit :=
  if existsb (String.eqb kind) ["insight"; "sql"; "agent_ops"; "digest"] then Ok tt
  else Err (ENew "alert source_kind must be 'insight', 'sql', 'agent_ops', or 'digest'").

Definition validateAlertOp (op : string) : result error unit :=
  if existsb (String.eqb op) ["gt"; "lt"; "z_score"] then Ok tt else Err (ENew "alert condition op must be 'gt', 'lt', or 'z_score'").

(** Distinct non-empty values, in order. *)
Fixpoint unique_from (seen ids : list string) : list string :=
  match ids with
  | [] => []
  | id :: ids => if (id =? "")%string || existsb (String.eqb id) seen then unique_from seen ids else id :: unique_from (id :: seen) ids
  end.

Definition uniqueStrings (ids : list string) : list string := unique_from [] ids.

Context `{AlertColumns}.

Definition in_workspace (cs : gmap string AlertChannel) (ws id : string) : bool :=
  match cs !! id with Some c => (ch_WorkspaceID c =? ws)%string | None => false end.

Fixpoint uuids (ids : list string) : option (list string) :=
  match ids with
  | [] => Some []
  | id :: ids => match pg_uuid id, uuids ids with Some u, Some us => Some (u :: us) | _, _ => None end
  end.

Definition validateChannelsInWorkspace (ws : string) (ids : list string) (db : alert_db P) : result error unit :=
  match ids with
  | [] => Ok tt
  | _ =>
      match uuids ids with
      | None => Err (ENew "invalid input syntax for type uuid")
      | Some us =>
          let n := size (base.filter (fun id => in_workspace (channels db) ws id = true) (list_to_set us : gset string)) in
          if (n =? length (uniqueStrings ids))%nat then Ok tt else Err (ENew "one or more channels do not exist in this workspace")
      end
  end.

(** ** Rules *)

Definition ListAlertRules (user projectID : string) (db : alert_db P) : result error (list (string * AlertRule)) :=
  match project_by_id_for_user (accounts db) user projectID with
  | Err e => Err e
  | Ok _ => Ok (merge_sort (newest_first ar_CreatedAt) (List.filter (fun kr => (ar_ProjectID kr.2 =? projectID)%string) (map_to_list (rules db))))
  end.

(** The project of a member who may manage its workspace. *)
Definition managed_project (user projectID : string) (db : alert_db P) : result error Project :=
  match project_by_id_for_user (accounts db) user projectID with
  | Err e => Err e
  | Ok project => if userCanManageWorkspace (accounts db) user (pj_WorkspaceID project) then Ok project else Err ErrAgentForbidden
  end.

Definition weekly : string := "0 9 * * 1".

Definition row_fits (r : AlertRule) : bool := fits 255 (ar_Name r) && fits 16 (ar_SourceKind r) && fits 64 (ar_Schedule r).

(** The editable fields of [r] on the row [old]. *)
Definition edited (r : AlertRule) (sourceRef schedule : string) (old : AlertRule) : AlertRule :=
  {| ar_ProjectID := ar_ProjectID old; ar_Name := ar_Name r; ar_SourceKind := ar_SourceKind r; ar_SourceRef := sourceRef;
     ar_Condition := ar_Condition r; ar_SendEmpty := ar_SendEmpty r; ar_Schedule := schedule; ar_Channels := ar_Channels r;
     ar_Enabled := ar_Enabled r; ar_LastEvalAt := ar_LastEvalAt old; ar_LastState := ar_LastState old; ar_CreatedAt := ar_CreatedAt old |}.

Definition fresh_rule (now : Z) (projectID : string) (r : AlertRule) (sourceRef schedule : string) : AlertRule :=
  edited r sourceRef schedule
    {| ar_ProjectID := projectID; ar_Name := ""; ar_SourceKind := ""; ar_SourceRef := ""; ar_Condition := ar_Condition r; ar_SendEmpty := false;
       ar_Schedule := ""; ar_Channels := None; ar_Enabled := true; ar_LastEvalAt := None; ar_LastState := "ok"; ar_CreatedAt := now |}.

(** [id] is the generated key; a duplicate fails. *)
Definition CreateAlertRule (now : Z) (id user projectID : string) (r : AlertRule) (db : alert_db P) : result error (alert_db P * AlertRule) :=
  match managed_project user projectID db with
  | Err e => Err e
  | Ok project =>
      match validateAlertSource (ar_SourceKind r) with
      | Err e => Err e
      | Ok _ =>
          let digest := (ar_SourceKind r =? "digest")%string in
          let condition :=
            if digest then Ok tt
            else match validateAlertOp (ac_Op (ar_Condition r)) with
                 | Err e => Err e
                 | Ok _ =>
                     if (ac_Op (ar_Condition r) =? "z_score")%string && (ac_MinEvents (ar_Condition r) <=? 0)
                     then Err (ENew "z_score alerts require min_events > 0 to avoid over-firing on low-volume metrics") else Ok tt
                 end in
          match condition with
          | Err e => Err e
          | Ok _ =>
              match validateChannelsInWorkspace (pj_WorkspaceID project) (default [] (ar_Channels r)) db with
              | Err e => Err e
              | Ok _ =>
                  let schedule := if (ar_Schedule r =? "")%string then if digest then weekly else "*/5 * * * *" else ar_Schedule r in
                  let row := fresh_rule now projectID r (if digest then "" else ar_SourceRef r) schedule in
                  if negb (row_fits row) || is_some (rules db !! id) then Err (ENew "insert failed")
                  else Ok (with_accounts (record_audit (accounts db) (pj_WorkspaceID project) user "alert.rule.create" projectID)
                             (with_rules (<[id := row]> (rules db)) db), row)
              end
          end
      end
  end.

Definition UpdateAlertRule (user projectID ruleID : string) (r : AlertRule) (db : alert_db P) : result error (alert_db P) :=
  match managed_project user projectID db with
  | Err e => Err e
  | Ok project =>
      match validateAlertSource (ar_SourceKind r) with
      | Err e => Err e
      | Ok _ =>
          let digest := (ar_SourceKind r =? "digest")%string in
          match if digest then Ok tt else validateAlertOp (ac_Op (ar_Condition r)) with
          | Err e => Err e
          | Ok _ =>
              let schedule := if (ar_Schedule r =? "")%string && digest then weekly else ar_Schedule r in
              match validateChannelsInWorkspace (pj_WorkspaceID project) (default [] (ar_Channels r)) db with
              | Err e => Err e
              | Ok _ =>
                  match pg_uuid ruleID with
                  | None => Err (ENew "invalid input syntax for type uuid")
                  | Some id =>
                      match rules db !! id with
                      | None => Ok db
                      | Some old =>
                          if negb (ar_ProjectID old =? projectID)%string then Ok db
                          else
                            let row := edited r (if digest then "" else ar_SourceRef r) schedule old in
                            if negb (row_fits row) then Err (ENew "value too long") else Ok (with_rules (<[id := row]> (rules db)) db)
                      end
                  end
              end
          end
      end
  end.

(** The events go with their rule. *)
Definition DeleteAlertRule (user projectID ruleID : string) (db : alert_db P) : result error (alert_db P) :=
  match managed_project user projectID db with
  | Err e => Err e
  | Ok _ =>
      match pg_uuid ruleID with
      | None => Err (ENew "invalid input syntax for type uuid")
      | Some id =>
          match rules db !! id with
          | Some r =>
              if (ar_ProjectID r =? projectID)%string
              then Ok {| accounts := accounts db; rules := delete id (rules db); channels := channels db;
                         alert_events := List.filter (fun e => negb (ae_RuleID e =? id)%string) (alert_events db) |}
              else Ok db
          | None => Ok db
          end
      end
  end.

(** ** Channels *)

Definition ListAlertChannels (user ws : string) (db : alert_db P) : result error (list (string * AlertChannel)) :=
  if negb (userCanAccessWorkspace (accounts db) user ws) then Err ErrAgentForbidden
  else Ok (merge_sort (newest_first ch_CreatedAt) (List.filter (fun kc => (ch_WorkspaceID kc.2 =? ws)%string) (map_to_list (channels db)))).

(** The workspace a project is joined to. *)
Definition workspace_of (db : alert_db P) (projectID : string) : option string :=
  match projects (accounts db) !! projectID with Some r => if (r_Workspace r =? "")%string then None else Some (r_Workspace r) | None => None end.

Definition with_channels_of (ids : list string) (r : AlertRule) : AlertRule :=
  {| ar_ProjectID := ar_ProjectID r; ar_Name := ar_Name r; ar_SourceKind := ar_SourceKind r; ar_SourceRef := ar_SourceRef r;
     ar_Condition := ar_Condition r; ar_SendEmpty := ar_SendEmpty r; ar_Schedule := ar_Schedule r; ar_Channels := Some ids;
     ar_Enabled := ar_Enabled r; ar_LastEvalAt := ar_LastEvalAt r; ar_LastState := ar_LastState r; ar_CreatedAt := ar_CreatedAt r |}.

(** A digest rule whose channels are the empty array. *)
Definition unattached (r : AlertRule) : bool :=
  (ar_SourceKind r =? "digest")%string && match ar_Channels r with Some [] => true | _ => false end.

Definition attachChannelToDigestRules (ws channelID : string) (db : alert_db P) : alert_db P :=
  with_rules ((fun r => if unattached r && bool_decide (workspace_of db (ar_ProjectID r) = Some ws) then with_channels_of [channelID] r else r) <$> rules db) db.

(** The channel is there even when the second statement, the attachment, fails. *)
Definition CreateAlertChannel (now : Z) (attaches : bool) (id user ws : string) (ch : AlertChannel) (db : alert_db P) :
    alert_db P * result error AlertChannel :=
  if negb (userCanManageWorkspace (accounts db) user ws) then (db, Err ErrAgentForbidden)
  else if negb (existsb (String.eqb (ch_Kind ch)) ["slack"; "email"; "webhook"]) then (db, Err (ENew "alert channel kind must be 'slack', 'email', or 'webhook'"))
  else
    let row := {| ch_WorkspaceID := ws; ch_Kind := ch_Kind ch; ch_Name := ch_Name ch;
                  ch_Config := (if (ch_Config ch =? "")%string then "{}" else ch_Config ch); ch_CreatedAt := now |} in
    if negb (fits 255 (ch_Name row)) || is_some (channels db !! id) then (db, Err (ENew "insert failed"))
    else
      let db' := with_channels (<[id := row]> (channels db)) db in
      if attaches then (attachChannelToDigestRules ws id db', Ok row) else (db', Err (ENew "update failed")).

(** ORDER BY created_at ASC LIMIT 1 *)
Definition first_channel (ws : string) (db : alert_db P) : option string :=
  match merge_sort (by_creation ch_CreatedAt)
          (List.filter (fun kc => (ch_WorkspaceID kc.2 =? ws)%string) (map_to_list (channels db))) with
  | [] => None
  | (id, _) :: _ => Some id
  end.

Definition is_digest_of (projectID : string) (r : AlertRule) : bool := (ar_ProjectID r =? projectID)%string && (ar_SourceKind r =? "digest")%string.

Definition seeded_digest (now : Z) (projectID : string) : AlertRule :=
  {| ar_ProjectID := projectID; ar_Name := "Weekly decision digest"; ar_SourceKind := "digest"; ar_SourceRef := "";
     ar_Condition := {| ac_Op := "none"; ac_Value := S754_zero false; ac_Window := 0; ac_MinEvents := 0 |}; ar_SendEmpty := false;
     ar_Schedule := weekly; ar_Channels := Some []; ar_Enabled := true; ar_LastEvalAt := None; ar_LastState := "ok"; ar_CreatedAt := now |}.

(** [None]: the insert is refused. *)
Definition seed_rule (now : Z) (id projectID : string) (db : alert_db P) : option (alert_db P) :=
  if negb (bool_decide (map_Forall (fun _ r => is_digest_of projectID r = false) (rules db))) then Some db
  else if negb (is_some (projects (accounts db) !! projectID)) || is_some (rules db !! id) then None
  else Some (with_rules (<[id := seeded_digest now projectID]> (rules db)) db).

Definition attached_to (ch : string) (projectID : string) (r : AlertRule) : AlertRule :=
  if is_digest_of projectID r && unattached r then with_channels_of [ch] r else r.

Definition ensureDigestRule (now : Z) (attaches : bool) (id projectID : string) (db : alert_db P) : alert_db P * result error unit :=
  match seed_rule now id projectID db with
  | None => (db, Err (ENew "insert failed"))
  | Some db =>
      if negb attaches then (db, Err (ENew "update failed"))
      else
        match workspace_of db projectID with
        | None => (db, Ok tt)
        | Some ws =>
            match first_channel ws db with
            | None => (db, Ok tt)
            | Some ch => (with_rules (attached_to ch projectID <$> rules db) db, Ok tt)
            end
        end
  end.

(** ** For the evaluator *)

Definition with_eval (at_ : option Z) (r : AlertRule) : AlertRule :=
  {| ar_ProjectID := ar_ProjectID r; ar_Name := ar_Name r; ar_SourceKind := ar_SourceKind r; ar_SourceRef := ar_SourceRef r;
     ar_Condition := ar_Condition r; ar_SendEmpty := ar_SendEmpty r; ar_Schedule := ar_Schedule r; ar_Channels := ar_Channels r;
     ar_Enabled := ar_Enabled r; ar_LastEvalAt := at_; ar_LastState := ar_LastState r; ar_CreatedAt := ar_CreatedAt r |}.

Definition with_state (state : string) (r : AlertRule) : AlertRule :=
  {| ar_ProjectID := ar_ProjectID r; ar_Name := ar_Name r; ar_SourceKind := ar_SourceKind r; ar_SourceRef := ar_SourceRef r;
     ar_Condition := ar_Condition r; ar_SendEmpty := ar_SendEmpty r; ar_Schedule := ar_Schedule r; ar_Channels := ar_Channels r;
     ar_Enabled := ar_Enabled r; ar_LastEvalAt := ar_LastEvalAt r; ar_LastState := state; ar_CreatedAt := ar_CreatedAt r |}.

Definition ClaimAlertRuleForEval (ruleID : string) (now due : Z) (db : alert_db P) : alert_db P * bool :=
  match rules db !! ruleID with
  | Some r =>
      if match ar_LastEvalAt r with None => true | Some last => last <? pg_time due end
      then (with_rules (<[ruleID := with_eval (Some (pg_time now)) r]> (rules db)) db, true)
      else (db, false)
  | None => (db, false)
  end.

Definition ReleaseAlertRuleClaim (ruleID : string) (claimedAt : Z) (db : alert_db P) : alert_db P :=
  match rules db !! ruleID with
  | Some r => if bool_decide (ar_LastEvalAt r = Some (pg_time claimedAt)) then with_rules (<[ruleID := with_eval None r]> (rules db)) db else db
  | None => db
  end.

Definition DueAlertRules (db : alert_db P) : list (string * AlertRule) :=
  merge_sort (by_creation ar_CreatedAt) (List.filter (fun kr => ar_Enabled kr.2) (map_to_list (rules db))).

(** The INSERT; a rule that is gone refuses the event. *)
Definition insertAlertEvent (inserts : bool) (ruleID state : string) (value : spec_float) (payload : P) (firedAt : Z) (db : alert_db P) :
    result error (AlertEvent P * alert_db P) :=
  match rules db !! ruleID with
  | Some _ =>
      if negb inserts then Err (ENew "insert failed")
      else let e := {| ae_RuleID := ruleID; ae_FiredAt := pg_time firedAt; ae_State := state; ae_Value := value; ae_Payload := payload |} in Ok (e, with_event e db)
  | None => Err (ENew "insert failed")
  end.

(** The UPDATE of the rule's edge state. *)
Definition updateLastState (ruleID state : string) (db : alert_db P) : alert_db P :=
  match rules db !! ruleID with Some r => with_rules (<[ruleID := with_state state r]> (rules db)) db | None => db end.

(** [inserts] and [updates]: the two statements work. *)
Definition recordAlertEventAt (inserts updates : bool) (ruleID state : string) (value : spec_float) (payload : P) (firedAt : Z) (updateState : bool)
    (db : alert_db P) : alert_db P * result error unit :=
  match insertAlertEvent inserts ruleID state value payload firedAt db with
  | Err e => (db, Err e)
  | Ok (_, db) =>
      if negb updateState then (db, Ok tt)
      else if updates then (updateLastState ruleID state db, Ok tt) else (db, Err (ENew "update failed"))
  end.

Definition RecordAlertEvent (inserts updates : bool) (ruleID state : string) (value : spec_float) (payload : P) (now : Z) (db : alert_db P) :=
  recordAlertEventAt inserts updates ruleID state value payload now true db.

Definition RecordDigestAlertEventAt (inserts : bool) (ruleID : string) (payload : P) (firedAt : Z) (db : alert_db P) :=
  recordAlertEventAt inserts true ruleID "digest" (S754_zero false) payload firedAt false db.

Definition digest_times (ruleID : string) (db : alert_db P) : list Z :=
  omap (fun e => if (ae_RuleID e =? ruleID)%string && (ae_State e =? "digest")%string then Some (ae_FiredAt e) else None) (alert_events db).

Definition LastDigestAlertEvent (ruleID : string) (db : alert_db P) : option Z :=
  match digest_times ruleID db with [] => None | t :: ts => Some (fold_left Z.max ts t) end.

Definition AlertChannelsByID (ids : list string) (db : alert_db P) : result error (list (string * AlertChannel)) :=
  match ids with
  | [] => Ok []
  | _ => match uuids ids with
         | None => Err (ENew "invalid input syntax for type uuid")
         | Some us => Ok (List.filter (fun kc => existsb (String.eqb kc.1) us) (map_to_list (channels db)))
         end
  end.

(** One of the workspace's channels of that name. *)
Definition WorkspaceChannelByName (ws name : string) (db : alert_db P) : result error (string * AlertChannel) :=
  match find_first (fun kc => (ch_WorkspaceID kc.2 =? ws)%string && (ch_Name kc.2 =? name)%string) (map_to_list (channels db)) with
  | Some kc => Ok kc
  | None => Err ErrNoRows
  end.

(** ** Channels belong to the rule's workspace *)

(** Every channel a rule of the project names exists in the project's workspace. *)
Definition channels_home (db : alert_db P) (projectID : string) (ids : list string) : Prop :=
  forall id, id ∈ ids -> exists u ch pr, pg_uuid id = Some u /\ channels db !! u = Some ch /\
    projects (accounts db) !! projectID = Some pr /\ r_Workspace pr = ch_WorkspaceID ch.

Definition rule_home (db : alert_db P) (r : AlertRule) : Prop := channels_home db (ar_ProjectID r) (default [] (ar_Channels r)).

Lemma unique_from_elem ids : forall seen id, id ∈ ids -> id <> "" -> id ∉ seen -> id ∈ unique_from seen ids.
Proof.
  induction ids as [|x ids IH]; intros seen id Hin Hne Hseen; [by apply elem_of_nil in Hin|]. cbn [unique_from].
  apply elem_of_cons in Hin as [->|Hin].
  - destruct (String.eqb_spec x "") as [|_]; [done|]. cbn [orb]. destruct (existsb (String.eqb x) seen) eqn:Hs; [|left].
    apply existsb_True in Hs as (y & Hy & E). apply String.eqb_eq in E as <-. done.
  - destruct (_ || _); [by apply IH|]. destruct (decide (id = x)) as [->|Hx]; [left|]. right. apply IH; [done|done|]. rewrite elem_of_cons. by intros [->|?].
Qed.

Lemma uuids_elem ids us : uuids ids = Some us -> forall id, id ∈ ids -> exists u, pg_uuid id = Some u /\ u ∈ us.
Proof.
  revert us. induction ids as [|x ids IH]; intros us Hus id Hin; [by apply elem_of_nil in Hin|]. cbn in Hus.
  destruct (pg_uuid x) as [u|] eqn:Hu; [|done]. destruct (uuids ids) as [us'|]; [|done]. injection Hus as <-.
  apply elem_of_cons in Hin as [->|Hin]; [exists u; split; [done|left]|]. destruct (IH us' eq_refl id Hin) as (v & ? & ?). exists v. split; [done|by right].
Qed.

Lemma uuids_source ids us : uuids ids = Some us -> forall u, u ∈ us -> exists id, id ∈ ids /\ pg_uuid id = Some u.
Proof.
  revert us. induction ids as [|x ids IH]; intros us Hus u Hin; cbn in Hus; [injection Hus as <-; by apply elem_of_nil in Hin|].
  destruct (pg_uuid x) as [v|] eqn:Hv; [|done]. destruct (uuids ids) as [us'|]; [|done]. injection Hus as <-.
  apply elem_of_cons in Hin as [->|Hin]; [exists x; split; [left|done]|]. destruct (IH us' eq_refl u Hin) as (id & ? & ?). exists id. split; [by right|done].
Qed.

Lemma omap_length {A B} (f : A -> option B) l : (length (omap f l) <= length l)%nat.
Proof. induction l as [|x l IH]; [done|]. cbn. destruct (f x); cbn; lia. Qed.

Lemma size_list_le (l : list string) : (size (list_to_set l : gset string) <= length l)%nat.
Proof.
  induction l as [|x l IH]; [done|]. cbn. destruct (decide (x ∈ (list_to_set l : gset string))) as [Hin|Hout].
  - rewrite subseteq_union_1_L by (by apply singleton_subseteq_l). lia.
  - rewrite size_union, size_singleton by set_solver. lia.
Qed.

(** The count finds every id of the list in the workspace. *)
Lemma validate_home ws ids db : validateChannelsInWorkspace ws ids db = Ok tt ->
  forall id, id ∈ ids -> exists u ch, pg_uuid id = Some u /\ channels db !! u = Some ch /\ ch_WorkspaceID ch = ws.
Proof.
  unfold validateChannelsInWorkspace. intros Hv id Hin. destruct ids as [|x ids']; [by apply elem_of_nil in Hin|]. set (ids := x :: ids') in *.
  destruct (uuids ids) as [us|] eqn:Hus; [|done]. destruct (Nat.eqb_spec (size (base.filter (fun id => in_workspace (channels db) ws id = true) (list_to_set us : gset string)))
    (length (uniqueStrings ids))) as [Hn|]; [|done].
  destruct (uuids_elem _ _ Hus id Hin) as (u & Hu & Huin). exists u.
  assert (Hle : (size (list_to_set us : gset string) <= length (uniqueStrings ids))%nat).
  { transitivity (length (omap pg_uuid (uniqueStrings ids))); [|apply omap_length]. etransitivity; [|apply size_list_le]. apply subseteq_size.
    intros v Hv'. apply elem_of_list_to_set in Hv'. destruct (uuids_source _ _ Hus v Hv') as (i & Hi & Hiv). apply elem_of_list_to_set, list_elem_of_omap.
    exists i. split; [|done]. apply unique_from_elem; [done| |by apply not_elem_of_nil]. intros ->. by rewrite pg_uuid_empty in Hiv. }
  assert (Hall : base.filter (fun id => in_workspace (channels db) ws id = true) (list_to_set us : gset string) = list_to_set us).
  { apply set_subseteq_size_eq; [|lia]. intros v Hv'. by apply elem_of_filter in Hv' as [_ ?]. }
  assert (Hf : u ∈ base.filter (fun id => in_workspace (channels db) ws id = true) (list_to_set us : gset string)) by (rewrite Hall; by apply elem_of_list_to_set).
  apply elem_of_filter in Hf as [Hf _]. unfold in_workspace in Hf. destruct (channels db !! u) as [ch|]; [|done]. exists ch. split_and!; [done|done|by apply String.eqb_eq].
Qed.

Lemma managed_project_row user projectID db project : managed_project user projectID db = Ok project ->
  exists pr, projects (accounts db) !! projectID = Some pr /\ r_Workspace pr = pj_WorkspaceID project.
Proof.
  unfold managed_project. destruct (project_by_id_for_user _ _ _) as [p|] eqn:Hp; [|done]. destruct (userCanManageWorkspace _ _ _); [|done]. intros [= ->].
  apply for_user_row in Hp as (pr & role & Hpr & _ & ->). exists pr. split; [done|]. unfold redactAPIKeyForRole. cbv zeta. by repeat case_match.
Qed.

Lemma managed_home user projectID db project ids : managed_project user projectID db = Ok project ->
  validateChannelsInWorkspace (pj_WorkspaceID project) ids db = Ok tt -> channels_home db projectID ids.
Proof.
  intros Hm Hv id Hin. destruct (managed_project_row _ _ _ _ Hm) as (pr & Hpr & Hws). destruct (validate_home _ _ _ Hv id Hin) as (u & ch & Hu & Hch & Hc).
  exists u, ch, pr. split_and!; [done|done|done|congruence].
Qed.

(** Projects stay in their workspace, channels stay what they are. *)
Definition tables_grow (db db' : alert_db P) : Prop :=
  (forall p pr, projects (accounts db) !! p = Some pr -> exists pr', projects (accounts db') !! p = Some pr' /\ r_Workspace pr' = r_Workspace pr) /\
  forall u ch, channels db !! u = Some ch -> channels db' !! u = Some ch.

#[export] Instance tables_grow_preorder : PreOrder tables_grow.
Proof.
  split; [by split; [eauto|]|]. intros a b c [H1 H2] [H3 H4]. split; [|by auto]. intros p pr Hp.
  destruct (H1 p pr Hp) as (pr' & Hp' & E). destruct (H3 p pr' Hp') as (pr2 & ? & ?). exists pr2. split; [done|congruence].
Qed.

Lemma channels_home_grow db db' p ids : tables_grow db db' -> channels_home db p ids -> channels_home db' p ids.
Proof.
  intros [Hp Hc] Hh id Hin. destruct (Hh id Hin) as (u & ch & pr & Hu & Hch & Hpr & E). destruct (Hp p pr Hpr) as (pr' & Hpr' & E').
  exists u, ch, pr'. split_and!; [done|by apply Hc|done|congruence].
Qed.
End Alerts.

(** * What edits leave behind *)

(** Every non-empty text is a uuid. *)
#[local] Instance wit_columns : AlertColumns :=
  {| pg_uuid s := if (s =? "")%string then None else Some s; fits n s := (String.length s <=? n)%nat; pg_uuid_empty := eq_refl |}.

Definition wit_rule (kind : string) (threshold : spec_float) : AlertRule :=
  {| ar_ProjectID := "A"; ar_Name := "rule"; ar_SourceKind := kind; ar_SourceRef := "SELECT 1";
     ar_Condition := {| ac_Op := "gt"; ac_Value := threshold; ac_Window := 0; ac_MinEvents := 0 |}; ar_SendEmpty := true;
     ar_Schedule := "* * * * *"; ar_Channels := Some ["c"]; ar_Enabled := true; ar_LastEvalAt := None; ar_LastState := "ok"; ar_CreatedAt := 2 |}.

Definition wit_channel : AlertChannel := {| ch_WorkspaceID := "ws"; ch_Kind := "slack"; ch_Name := "alerts"; ch_Config := "https://x.io"; ch_CreatedAt := 1 |}.

(** Ann's project with these rules and channels. *)
Definition wit_with (rs : gmap string AlertRule) (cs : gmap string AlertChannel) : alert_db unit :=
  {| accounts := wit_db; rules := rs; channels := cs; alert_events := [] |}.

(** An edit of a threshold rule to no schedule is taken; no minute matches it. *)
Definition unscheduled : AlertRule :=
  {| ar_ProjectID := "A"; ar_Name := "rule"; ar_SourceKind := "sql"; ar_SourceRef := "SELECT 1";
     ar_Condition := {| ac_Op := "z_score"; ac_Value := S754_zero false; ac_Window := 0; ac_MinEvents := 0 |}; ar_SendEmpty := false;
     ar_Schedule := ""; ar_Channels := Some []; ar_Enabled := true; ar_LastEvalAt := None; ar_LastState := ""; ar_CreatedAt := 0 |}.

Example edited_rule_never_runs :
  is_ok (CreateAlertRule 3 "new" "ann" "A" unscheduled (wit_with ∅ ∅)) = false /\
  (exists db, UpdateAlertRule "ann" "A" "r" unscheduled (wit_with {["r" := wit_rule "sql" (S754_zero false)]} ∅) = Ok db /\
     (fun r => (ar_Schedule r, ac_MinEvents (ar_Condition r))) <$> rules db !! "r" = Some ("", 0)) /\
  forall t, AlertCron.CronMatches "" t = false.
Proof. split; [vm_compute; reflexivity|]. split; [|done]. eexists. split; vm_compute; reflexivity. Qed.

Definition digest_to (ids : option (list string)) : AlertRule :=
  {| ar_ProjectID := "A"; ar_Name := "digest"; ar_SourceKind := "digest"; ar_SourceRef := "";
     ar_Condition := {| ac_Op := "none"; ac_Value := S754_zero false; ac_Window := 0; ac_MinEvents := 0 |}; ar_SendEmpty := false;
     ar_Schedule := weekly; ar_Channels := ids; ar_Enabled := true; ar_LastEvalAt := None; ar_LastState := "ok"; ar_CreatedAt := 0 |}.

(** A digest created without channels has null for them when the workspace's first one comes. *)
Example digest_without_channels_stays_dark :
  exists db row, CreateAlertRule 2 "r" "ann" "A" (digest_to None) (wit_with ∅ ∅) = Ok (db, row) /\
    ar_Channels <$> rules (CreateAlertChannel 3 true "c" "ann" "ws" wit_channel db).1 !! "r" = Some None.
Proof. do 2 eexists. split; vm_compute; reflexivity. Qed.

(** A digest whose owner took its last channel away gets the next one of the workspace. *)
Example detached_digest_is_attached_again :
  exists db, UpdateAlertRule "ann" "A" "r" (digest_to (Some [])) (wit_with {["r" := digest_to (Some ["c"])]} {["c" := wit_channel]}) = Ok db /\
    ar_Channels <$> rules db !! "r" = Some (Some []) /\
    ar_Channels <$> rules (CreateAlertChannel 3 true "c2" "ann" "ws" wit_channel db).1 !! "r" = Some (Some ["c2"]).
Proof. eexists. split; [vm_compute; reflexivity|]. split; vm_compute; reflexivity. Qed.
