(* ===== verification/Alerting.v ===== *)
(** * Alerting: the evaluation and delivery of alert rules

    evaluate.go, digest.go and deliver.go of internal/dataplane/alerting over the tables of
    [Alerts]: the series of a rule, its condition on float64 values, the digest and its
    window, the fan-out to the rule's channels and one minute's tick.  What Postgres, DuckDB
    and the channels' endpoints answer, and the renderings of fmt, are arguments; the products
    and sums of the anomaly test are rounded one by one, as on amd64. *)

From stdpp Require Import sorting.
From Stdlib Require Import SpecFloat Ascii.
From S2P Require Import Prelude GoStrings GoTime Cron Operations Principals Accounts MetricTargets Alerts.
Import String.
Open Scope string_scope.
Open Scope list_scope.
Open Scope Z_scope.

(** ** Numbers and text *)

Definition f64_div : spec_float -> spec_float -> spec_float := SFdiv 53 1024.
Definition f64_sqrt : spec_float -> spec_float := SFsqrt 53 1024.
Definition f64_of_int (z : Z) : spec_float := binary_normalize 53 1024 z 0 false.

(** fmt's %.4g, %.2f, %.1f and %+.1f, and the first runes of a string that has more. *)
Definition newline : string := String "010"%char "".

Class GoFormat := {
  fmt_g4 : spec_float -> string; fmt_f2 : spec_float -> string; fmt_f1 : spec_float -> string; fmt_pct : spec_float -> string;
  first_runes : nat -> string -> option string;
}.

(** strconv.ParseFloat where it gives no error. *)
Class GoParse := { parse_float : string -> option spec_float }.

Fixpoint cat (parts : list string) : string := match parts with [] => "" | s :: parts => String.append s (cat parts) end.

Fixpoint join_with (sep : string) (parts : list string) : string :=
  match parts with [] => "" | [s] => s | s :: parts => cat [s; sep; join_with sep parts] end.

(** ** Conditions *)

Section Conditions.
Context `{GoFormat}.

Definition f64_sum (l : list spec_float) : spec_float := fold_left f64_add l f64_zero.

(** The last [n] elements. *)
Definition last_n {A} (n : nat) (l : list A) : list A := drop (length l - n) l.

Definition zScoreFires (c : AlertCondition) (baseline : list spec_float) (current : spec_float) : bool * string :=
  if (length baseline <? 2)%nat then (false, "")
  else
    let baseline := if (0 <? ac_Window c) && (ac_Window c <? Z.of_nat (length baseline)) then last_n (Z.to_nat (ac_Window c)) baseline else baseline in
    let sum := f64_sum baseline in
    if (0 <? ac_MinEvents c) && SFltb sum (f64_of_int (ac_MinEvents c)) then (false, "")
    else
      let n := f64_of_int (Z.of_nat (length baseline)) in
      let mean := f64_div sum n in
      let variance := f64_sum (map (fun v => f64_mul (f64_sub v mean) (f64_sub v mean)) baseline) in
      let std := f64_sqrt (f64_div variance n) in
      if SFeqb std f64_zero then (false, "")
      else
        let sigma := if SFleb (ac_Value c) f64_zero then f64_of_int 3 else ac_Value c in
        let z := f64_div (f64_sub current mean) std in
        if SFleb sigma (SFabs z)
        then (true, cat ["value "; fmt_g4 current; " is "; fmt_f2 z; "σ from baseline mean "; fmt_g4 mean; " (threshold "; fmt_f1 sigma; "σ)"])
        else (false, "").

(** [before] are the values before the current one. *)
Definition applyCondition (c : AlertCondition) (before : list spec_float) (current : spec_float) : bool * string :=
  if (ac_Op c =? "gt")%string then
    if SFltb (ac_Value c) current then (true, cat ["value "; fmt_g4 current; " exceeded threshold "; fmt_g4 (ac_Value c)]) else (false, "")
  else if (ac_Op c =? "lt")%string then
    if SFltb current (ac_Value c) then (true, cat ["value "; fmt_g4 current; " fell below threshold "; fmt_g4 (ac_Value c)]) else (false, "")
  else if (ac_Op c =? "z_score")%string then zScoreFires c before current
  else (false, "").
(** A window looks at nothing before it. *)
Lemma last_n_app {A} n (old l : list A) : (n <= length l)%nat -> last_n n (old ++ l) = last_n n l.
Proof. intros Hn. unfold last_n. rewrite length_app, drop_app, (drop_ge old) by lia. cbn. f_equal. lia. Qed.

Lemma last_n_full {A} (l : list A) : last_n (length l) l = l.
Proof. unfold last_n. by rewrite Nat.sub_diag, drop_0. Qed.

Lemma zScoreFires_window c old before current : 0 < ac_Window c -> ac_Window c <= Z.of_nat (length before) -> (2 <= length before)%nat ->
  zScoreFires c (old ++ before) current = zScoreFires c before current.
Proof.
  intros Hw Hb H2. unfold zScoreFires. rewrite length_app. destruct (Nat.ltb_spec (length old + length before) 2); [lia|]. destruct (Nat.ltb_spec (length before) 2); [lia|].
  assert (Hsame : (if (0 <? ac_Window c) && (ac_Window c <? Z.of_nat (length old + length before)) then last_n (Z.to_nat (ac_Window c)) (old ++ before) else old ++ before) =
    (if (0 <? ac_Window c) && (ac_Window c <? Z.of_nat (length before)) then last_n (Z.to_nat (ac_Window c)) before else before)); [|by rewrite Hsame].
  destruct (Z.ltb_spec 0 (ac_Window c)); [|lia]. cbn [andb]. rewrite last_n_app by lia.
  destruct (Z.ltb_spec (ac_Window c) (Z.of_nat (length before))), (Z.ltb_spec (ac_Window c) (Z.of_nat (length old + length before))); try done; try lia.
  - replace (Z.to_nat (ac_Window c)) with (length before) by lia. apply last_n_full.
  - destruct old; [done|]. cbn in *. lia.
Qed.
End Conditions.

(** ** Series *)

(** The types of a cell the evaluator tells apart. *)
Inductive sql_value := SqlFloat (f : spec_float) | SqlInt (z : Z) | SqlString (s : string) | SqlOther.

(** A row with its columns in the order an iteration over the map meets them. *)
Abbreviation sql_row := (list (string * sql_value)).

Section Series.
Context `{GoParse}.

Definition toFloat (v : option sql_value) : option spec_float :=
  match v with
  | Some (SqlFloat f) => Some f
  | Some (SqlInt z) => Some (f64_of_int z)
  | Some (SqlString s) => parse_float s
  | _ => None
  end.

Definition column (row : sql_row) (col : string) : option sql_value := snd <$> find_first (fun kv => (kv.1 =? col)%string) row.

Definition firstNumericColumn (row : sql_row) : string :=
  default "" (fst <$> find_first (fun kv => is_some (toFloat (Some kv.2))) row).

Definition extractSeries (rows : list sql_row) : list spec_float :=
  match rows with
  | [] => []
  | first :: _ =>
      let col := if is_some (column first "value") then "value" else firstNumericColumn first in
      if (col =? "")%string then [] else omap (fun row => toFloat (column row col)) rows
  end.

(** A rule's own text or one of the canned queries, by name. *)
Inductive metric_query := Verbatim (text : string) | Canned (metric : string).

Definition opsMetrics : list string := ["event_volume_hourly"; "error_rate_hourly"; "minutes_since_last_event"; "latency_p95_hourly"].

Definition metricSeries (RunSQL : string -> metric_query -> result error (list sql_row)) (r : AlertRule) : result error (list spec_float) :=
  let query :=
    if (ar_SourceKind r =? "sql")%string then
      if (trim_space (ar_SourceRef r) =? "")%string then Err (ENew "alerting: rule has no source query") else Ok (Verbatim (ar_SourceRef r))
    else if (ar_SourceKind r =? "agent_ops")%string then
      let name := trim_space (ar_SourceRef r) in
      if existsb (String.eqb name) opsMetrics then Ok (Canned name) else Err (ENew "alerting: unknown agent_ops metric")
    else Err (ENew "alerting: source_kind is not evaluable yet") in
  match query with
  | Err e => Err e
  | Ok q => match RunSQL (ar_ProjectID r) q with Err e => Err e | Ok rows => Ok (extractSeries rows) end
  end.
End Series.

(** ** Notifications *)

Record digest_cited := {
  dc_metrics : list string; dc_findings : list string; dc_tests : list string; dc_stale_sources : list string;
  dc_truncated : option (bool * bool * bool);
}.

Record Notification := { nt_Title : string; nt_Body : string; nt_Level : string; nt_Data : option digest_cited; nt_URL : string }.

(** json.Unmarshal of a channel's configuration: the fields each kind reads. *)
Class ChannelConfigs := {
  slack_config : string -> result string string;
  webhook_config : string -> result string (string * list (string * string));
  email_config : string -> result string (string * string);
}.

Inductive post_body := SlackText (text : string) | WebhookEnvelope (n : Notification) | EmailEnvelope (to subject text level url : string).

Section Delivery.
Context `{ChannelConfigs} (vault : option (string -> result string string)) (post : string -> list (string * string) -> post_body -> option string).

Definition resolveConfig (raw : string) : result string string :=
  match vault with
  | None => Ok raw
  | Some resolve =>
      if (raw =? "")%string then Ok raw
      else match resolve raw with Ok cfg => Ok cfg | Err e => Err (String.append "alerting: resolving channel secrets: " e) end
  end.

Definition deliverSlack (cfg : string) (n : Notification) : option string :=
  match slack_config cfg with
  | Err e => Some (String.append "alerting: bad slack config: " e)
  | Ok url =>
      if (trim_space url =? "")%string then Some "alerting: slack channel missing webhook_url"
      else
        let text := nt_Title n in
        let text := if (nt_Body n =? "")%string then text else cat [text; newline; nt_Body n] in
        let text := if (nt_URL n =? "")%string then text else cat [text; newline; nt_URL n] in
        post url [] (SlackText text)
  end.

Definition deliverWebhook (cfg : string) (n : Notification) : option string :=
  match webhook_config cfg with
  | Err e => Some (String.append "alerting: bad webhook config: " e)
  | Ok (url, headers) => if (trim_space url =? "")%string then Some "alerting: webhook channel missing url" else post url headers (WebhookEnvelope n)
  end.

Definition deliverEmail (cfg : string) (n : Notification) : option string :=
  match email_config cfg with
  | Err e => Some (String.append "alerting: bad email config: " e)
  | Ok (url, to) =>
      if (trim_space url =? "")%string then Some "alerting: email channel missing webhook_url (v1 delivers email via a relay endpoint)"
      else post url [] (EmailEnvelope to (nt_Title n) (nt_Body n) (nt_Level n) (nt_URL n))
  end.

(** [None]: delivered. *)
Definition Deliver (ch : AlertChannel) (n : Notification) : option string :=
  match resolveConfig (ch_Config ch) with
  | Err e => Some e
  | Ok cfg =>
      if (ch_Kind ch =? "slack")%string then deliverSlack cfg n
      else if (ch_Kind ch =? "webhook")%string then deliverWebhook cfg n
      else if (ch_Kind ch =? "email")%string then deliverEmail cfg n
      else Some "alerting: unknown channel kind"
  end.

Definition Notify (ch : AlertChannel) (title body : string) : option string :=
  Deliver ch {| nt_Title := title; nt_Body := body; nt_Level := "info"; nt_Data := None; nt_URL := "" |}.
End Delivery.

(** ** The digest *)

(** One catalog metric's reading, where MetricReadingFor gives one: state, value and previous
    value, unit, and the currency of the revenue detail if there is one. *)
Record reading := { rd_Key : string; rd_State : string; rd_Value : option Z; rd_Previous : option Z; rd_Unit : string; rd_Currency : option string }.

Record digestMover := { dm_Key : string; dm_Unit : string; dm_Value : Z; dm_Previous : Z; dm_Change : spec_float }.

Definition change_of (value previous : Z) : spec_float := f64_div (f64_sub (f64_of_int value) (f64_of_int previous)) (f64_of_int previous).

Definition mover_of (r : reading) : option digestMover :=
  match rd_Value r, rd_Previous r with
  | Some value, Some previous =>
      if negb (rd_State r =? OverviewStateOK)%string || (previous =? 0) then None
      else
        let change := change_of value previous in
        if SFeqb change f64_zero then None
        else
          let mover unit := Some {| dm_Key := rd_Key r; dm_Unit := unit; dm_Value := value; dm_Previous := previous; dm_Change := change |} in
          if (rd_Key r =? "revenue")%string then
            match rd_Currency r with None | Some "" => None | Some currency => mover currency end
          else mover (rd_Unit r)
  | _, _ => None
  end.

Definition mover_before (a b : digestMover) : Prop :=
  let left := SFabs (dm_Change a) in let right := SFabs (dm_Change b) in
  (if SFeqb left right then String.leb (dm_Key a) (dm_Key b) else SFltb right left) = true.

#[export] Instance mover_before_dec a b : Decision (mover_before a b) := decide (_ = true).

Definition digestMovers (readings : list reading) : list digestMover := merge_sort mover_before (omap mover_of readings).

Record DigestData := {
  dd_Recommendations : list (string * string); dd_RecommendationsTruncated : bool;
  dd_Decisions : list (string * string * string); dd_DecisionsTruncated : bool;
  dd_StaleSyncs : list (string * string); dd_StaleSyncsTruncated : bool;
}.

(** What the three queries read: a project's recommendations with their creation, its
    validation tests with their decision, and the syncs that failed or never succeeded,
    newest first. *)
Record digest_tables := {
  tb_recommendations : string -> list (Z * (string * string));
  tb_tests : string -> list (Z * (string * string * string));
  tb_stale_syncs : string -> list (string * string);
}.

Definition stamped_later {A} (a b : Z * A) : Prop := b.1 <= a.1.
#[export] Instance stamped_later_dec {A} (a b : Z * A) : Decision (stamped_later a b) := decide (b.1 <= a.1).

(** The rows stamped in a half-open window, newest first. *)
Definition in_window {A} (since until : Z) (rows : list (Z * A)) : list (Z * A) :=
  merge_sort stamped_later (List.filter (fun r => (pg_time since <=? r.1) && (r.1 <? pg_time until)) rows).

(** LIMIT 21: twenty are kept and the twenty-first says that there are more. *)
Definition twenty {A} (rows : list A) : list A * bool := (take 20 rows, (20 <? length rows)%nat).

Definition DigestDataSince (t : digest_tables) (projectID : string) (since until : Z) : DigestData :=
  let '(recs, recs_more) := twenty (map snd (in_window since until (tb_recommendations t projectID))) in
  let '(tests, tests_more) := twenty (map snd (in_window since until (tb_tests t projectID))) in
  let '(syncs, syncs_more) := twenty (tb_stale_syncs t projectID) in
  {| dd_Recommendations := recs; dd_RecommendationsTruncated := recs_more; dd_Decisions := tests; dd_DecisionsTruncated := tests_more;
     dd_StaleSyncs := syncs; dd_StaleSyncsTruncated := syncs_more |}.

Section Digest.
Context `{GoFormat}.

Definition truncateDigestItem (value : string) : string :=
  match first_runes 160 value with Some s => String.append s "…" | None => value end.

Definition mover_line (m : digestMover) : string :=
  cat ["- "; dm_Key m; ": "; itoa (dm_Previous m); " → "; itoa (dm_Value m); " "; dm_Unit m; " ("; fmt_pct (f64_mul (dm_Change m) (f64_of_int 100));
       "%) [metric:"; dm_Key m; "]"].

(** A heading and its lines, if there is any. *)
Definition digest_section (heading : string) (lines : list string) : list string := match lines with [] => [] | _ => heading :: lines end.

Definition digestNotification (name : string) (readings : list reading) (data : DigestData) : Notification * bool :=
  let movers := digestMovers readings in
  let title := String.append "Weekly digest: " name in
  match movers, dd_Recommendations data, dd_Decisions data, dd_StaleSyncs data with
  | [], [], [], [] =>
      ({| nt_Title := title; nt_Body := "All quiet — no material changes this week."; nt_Level := "info";
          nt_Data := Some {| dc_metrics := []; dc_findings := []; dc_tests := []; dc_stale_sources := []; dc_truncated := None |}; nt_URL := "" |}, false)
  | _, _, _, _ =>
      let lines := ["What changed this week:"] ++
        digest_section "Top movers:" (map mover_line movers) ++
        digest_section "New findings:" (map (fun r => cat ["- "; truncateDigestItem r.2; " [finding:"; r.1; "]"]) (dd_Recommendations data)) ++
        digest_section "Decided tests:" (map (fun t => cat ["- "; truncateDigestItem t.1.2; ": "; t.2; " [test:"; t.1.1; "]"]) (dd_Decisions data)) ++
        digest_section "Stale sources:" (map (fun s => cat ["- "; truncateDigestItem s.2; " [sync:"; s.1; "]"]) (dd_StaleSyncs data)) ++
        (if dd_RecommendationsTruncated data || dd_DecisionsTruncated data || dd_StaleSyncsTruncated data
         then ["Additional items were omitted; open the dashboard for the complete list."] else []) in
      ({| nt_Title := title; nt_Body := join_with newline lines; nt_Level := "info";
          nt_Data := Some {| dc_metrics := map dm_Key movers; dc_findings := map fst (dd_Recommendations data);
                             dc_tests := map (fun t => t.1.1) (dd_Decisions data); dc_stale_sources := map fst (dd_StaleSyncs data);
                             dc_truncated := Some (dd_RecommendationsTruncated data, dd_DecisionsTruncated data, dd_StaleSyncsTruncated data) |};
          nt_URL := "" |}, true)
  end.
End Digest.

(** ** The evaluation of a rule *)

(** The payload of an event; [NoPayload] where it does not marshal. *)
Inductive alert_payload :=
| NoPayload
| EdgePayload (reason : string) (value : spec_float) (delivery_error : option string)
| DigestPayload (window_start window_end : Z) (has_changes : bool) (data : option digest_cited) (delivery_error : option string).

(** JSON has no infinities and no NaN. *)
Definition edge_payload (reason : string) (value : spec_float) (delivery_error : option string) : alert_payload :=
  if f64_special value then NoPayload else EdgePayload reason value delivery_error.

(** What one evaluation meets: the answers of the other stores, whether the statements of this
    one work, the clock, and the endpoints. *)
Record eval_world := {
  ew_RunSQL : string -> metric_query -> result error (list sql_row);
  ew_readings : string -> result error (list reading);
  ew_watermark : bool; ew_tables : result error digest_tables;
  ew_claims : bool; ew_releases : bool; ew_channels : bool; ew_vault : option (string -> result string string);
  ew_post : string -> list (string * string) -> post_body -> option string;
  ew_inserts : bool; ew_updates : bool; ew_clock : Z;
}.

(** The channels a notification was handed to. *)
Abbreviation deliveries := (list (string * AlertChannel * Notification)).

Section Evaluation.
Context `{AlertColumns} `{GoFormat} `{GoParse} `{ChannelConfigs}.

(** Whom a notification goes to, and what kept the query from saying so. *)
Definition recipients (w : eval_world) (r : AlertRule) (db : alert_db alert_payload) : list (string * AlertChannel) * list string :=
  match default [] (ar_Channels r) with
  | [] => ([], [])
  | ids =>
      if negb (ew_channels w) then ([], ["query failed"])
      else match AlertChannelsByID ids db with Err e => ([], [error_text e]) | Ok chs => (chs, []) end
  end.

Definition delivery_error (w : eval_world) (n : Notification) (kc : string * AlertChannel) : list string :=
  match Deliver (ew_vault w) (ew_post w) kc.2 n with Some e => [cat [ch_Name kc.2; ": "; e]] | None => [] end.

Definition joined (errs : list string) : option string := match errs with [] => None | _ => Some (join_with "; " errs) end.

Definition fanOut (w : eval_world) (r : AlertRule) (n : Notification) (db : alert_db alert_payload) : option string * deliveries :=
  let '(chs, errs) := recipients w r db in (joined (errs ++ flat_map (delivery_error w n) chs), map (fun kc => (kc.1, kc.2, n)) chs).

Definition week : Z := 7 * day.

Definition digest_since (ruleID : string) (now : Z) (db : alert_db alert_payload) : Z := default (now - week) (LastDigestAlertEvent ruleID db).

(** What a digest of a window says, and whether anything changed. *)
Definition assemble (w : eval_world) (r : AlertRule) (since now : Z) : result error (Notification * bool) :=
  match ew_readings w (ar_ProjectID r), ew_tables w with
  | Err e, _ => Err e
  | _, Err e => Err e
  | Ok readings, Ok tables => Ok (digestNotification (ar_Name r) readings (DigestDataSince tables (ar_ProjectID r) since now))
  end.

Definition evaluateDigest (w : eval_world) (ruleID : string) (r : AlertRule) (now : Z) (db : alert_db alert_payload) :
    alert_db alert_payload * result error unit * deliveries :=
  if negb (ew_watermark w) then (db, Err (ENew "query failed"), [])
  else
    let since := digest_since ruleID now db in
    match assemble w r since now with
    | Err e => (db, Err e, [])
    | Ok (n, hasChanges) =>
        let '(failed, sent) := if hasChanges || ar_SendEmpty r then fanOut w r n db else (None, []) in
        let '(db', answer) := RecordDigestAlertEventAt (ew_inserts w) ruleID (DigestPayload since now hasChanges (nt_Data n) failed) now db in
        (db', answer, sent)
    end.

Definition edge_notification (r : AlertRule) (firing : bool) (reason : string) (current : spec_float) : Notification :=
  if firing then {| nt_Title := String.append "🔴 Alert firing: " (ar_Name r); nt_Body := reason; nt_Level := "firing"; nt_Data := None; nt_URL := "" |}
  else {| nt_Title := String.append "🟢 Recovered: " (ar_Name r); nt_Body := cat ["Metric back within threshold (value "; fmt_g4 current; ")."];
          nt_Level := "ok"; nt_Data := None; nt_URL := "" |}.

Definition state_name (firing : bool) : string := if firing then "firing" else "ok".

(** The edge the metric of a rule makes, if it makes one. *)
Definition edge (w : eval_world) (r : AlertRule) : result error (option (bool * string * spec_float)) :=
  match metricSeries (ew_RunSQL w) r with
  | Err e => Err e
  | Ok series =>
      match last series with
      | None => Ok None
      | Some current =>
          let '(firing, reason) := applyCondition (ar_Condition r) (removelast series) current in
          let newState := state_name firing in
          if (newState =? ar_LastState r)%string then Ok None else Ok (Some (firing, reason, current))
      end
  end.

Definition evaluateRule (w : eval_world) (ruleID : string) (r : AlertRule) (now : Z) (db : alert_db alert_payload) :
    alert_db alert_payload * result error unit * deliveries :=
  if (ar_SourceKind r =? "digest")%string then evaluateDigest w ruleID r now db
  else
    match edge w r with
    | Err e => (db, Err e, [])
    | Ok None => (db, Ok tt, [])
    | Ok (Some (firing, reason, current)) =>
        let '(failed, sent) := fanOut w r (edge_notification r firing reason current) db in
        let '(db', answer) := RecordAlertEvent (ew_inserts w) (ew_updates w) ruleID (state_name firing) current (edge_payload reason current failed) (ew_clock w) db in
        (db', answer, sent)
    end.

(** ** The minute's tick *)

Context (calendar : Z -> cron_time).

Definition due (r : AlertRule) (now : Z) : bool :=
  AlertCron.CronMatches (ar_Schedule r) (calendar now) ||
  ((ar_SourceKind r =? "digest")%string && negb (is_some (ar_LastEvalAt r)) && AlertCron.CronMatches (ar_Schedule r) (calendar (now - minute))).

(** Whether the evaluator gets a rule of its scan to itself. *)
Definition claim_due (w : eval_world) (ruleID : string) (r : AlertRule) (now : Z) (db : alert_db alert_payload) : alert_db alert_payload * bool :=
  if negb (due r now) || negb (ew_claims w) then (db, false) else ClaimAlertRuleForEval ruleID now (now - 50 * second) db.

(** One rule of the scan, as the scan read it; the flag says that it was evaluated. *)
Definition evaluate_due (w : eval_world) (ruleID : string) (r : AlertRule) (now : Z) (db : alert_db alert_payload) :
    alert_db alert_payload * bool * deliveries :=
  match claim_due w ruleID r now db with
  | (db, false) => (db, false, [])
  | (db, true) =>
      match evaluateRule w ruleID r now db with
      | (db', Ok _, sent) => (db', true, sent)
      | (db', Err _, sent) => (if (ar_SourceKind r =? "digest")%string && ew_releases w then ReleaseAlertRuleClaim ruleID now db' else db', true, sent)
      end
  end.

Fixpoint evaluate_all (ws : string -> eval_world) (scan : list (string * AlertRule)) (now : Z) (db : alert_db alert_payload) :
    alert_db alert_payload * deliveries :=
  match scan with
  | [] => (db, [])
  | (id, r) :: scan =>
      let '(db, _, sent) := evaluate_due (ws id) id r now db in
      let '(db, rest) := evaluate_all ws scan now db in (db, sent ++ rest)
  end.

Definition Tick (ws : string -> eval_world) (now : Z) (db : alert_db alert_payload) : alert_db alert_payload * deliveries :=
  evaluate_all ws (DueAlertRules db) now db.

(** ** A breach *)

Lemma recipients_reached w r db us : ew_channels w = true -> uuids (default [] (ar_Channels r)) = Some us ->
  forall u ch, u ∈ us -> channels db !! u = Some ch -> (u, ch) ∈ (recipients w r db).1.
Proof.
  intros Hw Hus u ch Hu Hch. unfold recipients. destruct (default [] (ar_Channels r)) as [|x ids] eqn:Hids; [cbn in Hus; injection Hus as <-; by apply elem_of_nil in Hu|].
  rewrite Hw. unfold AlertChannelsByID. rewrite Hus. cbn.
  rewrite list_elem_of_In, filter_In, <- list_elem_of_In, elem_of_map_to_list. split; [done|]. apply existsb_True. exists u. split; [done|apply String.eqb_refl].
Qed.

Lemma fanOut_reaches w r n db us : ew_channels w = true -> uuids (default [] (ar_Channels r)) = Some us ->
  forall u ch, u ∈ us -> channels db !! u = Some ch -> (u, ch, n) ∈ (fanOut w r n db).2.
Proof.
  intros Hw Hus u ch Hu Hch. pose proof (recipients_reached w r db us Hw Hus u ch Hu Hch) as Hin. unfold fanOut. destruct (recipients w r db) as [chs errs].
  change (map ?f ?l) with (f <$> l). apply list_elem_of_fmap. by exists (u, ch).
Qed.

(** A breach of a rule that is due and not yet claimed for the minute is sent to every
    channel the rule names that exists, is recorded as firing, and leaves the rule firing and
    claimed, when the queries and statements of the evaluation work; what the endpoints do
    with the notification changes only the recorded payload. *)
Theorem breach_reaches_every_channel w id r now db row before current reason us : due r now = true -> rules db !! id = Some row ->
  match ar_LastEvalAt row with Some last => last < pg_time (now - 50 * second) | None => True end ->
  ar_SourceKind r <> "digest" -> metricSeries (ew_RunSQL w) r = Ok (before ++ [current]) ->
  applyCondition (ar_Condition r) before current = (true, reason) -> ar_LastState r <> "firing" -> uuids (default [] (ar_Channels r)) = Some us ->
  ew_claims w = true -> ew_channels w = true -> ew_inserts w = true -> ew_updates w = true ->
  exists db' sent payload, evaluate_due w id r now db = (db', true, sent) /\
    (forall u ch, u ∈ us -> channels db !! u = Some ch -> (u, ch, edge_notification r true reason current) ∈ sent) /\
    rules db' = <[id := with_state "firing" (with_eval (Some (pg_time now)) row)]> (rules db) /\
    alert_events db' = alert_events db ++ [{| ae_RuleID := id; ae_FiredAt := pg_time (ew_clock w); ae_State := "firing"; ae_Value := current; ae_Payload := payload |}].
Proof.
  intros Hdue Hrow Hlast Hkind Hseries Hcond Hstate Hus Hcl Hc Hi Hu. unfold evaluate_due, claim_due. rewrite Hdue, Hcl. cbn [negb orb]. unfold ClaimAlertRuleForEval. rewrite Hrow.
  assert (Hfree : match ar_LastEvalAt row with None => true | Some last => last <? pg_time (now - 50 * second) end = true) by (destruct (ar_LastEvalAt row); [by apply Z.ltb_lt|done]).
  rewrite Hfree. set (db1 := with_rules _ db). unfold evaluateRule. destruct (String.eqb_spec (ar_SourceKind r) "digest") as [?|_]; [done|].
  unfold edge. rewrite Hseries, last_snoc, removelast_last, Hcond. unfold state_name. destruct (String.eqb_spec "firing" (ar_LastState r)) as [?|_]; [congruence|].
  pose proof (fanOut_reaches w r (edge_notification r true reason current) db1 us Hc Hus) as Hreach.
  destruct (fanOut w r (edge_notification r true reason current) db1) as [failed sent]. unfold RecordAlertEvent, recordAlertEventAt, insertAlertEvent, updateLastState.
  unfold db1. cbn [rules with_rules]. rewrite lookup_insert_eq, Hi, Hu. cbn [negb with_event rules with_rules]. rewrite ?lookup_insert_eq. do 3 eexists. split; [done|]. split; [exact Hreach|]. split; [cbn; by rewrite insert_insert_eq|done].
Qed.
End Evaluation.

(** * Witnesses *)

(** Every non-empty text is a uuid, numbers print as "v", a configuration is its url. *)
#[local] Existing Instance wit_columns.
#[local] Instance wit_format : GoFormat := {| fmt_g4 _ := "v"; fmt_f2 _ := "v"; fmt_f1 _ := "v"; fmt_pct _ := "v"; first_runes _ _ := None |}.
#[local] Instance wit_parse : GoParse := {| parse_float _ := None |}.
#[local] Instance wit_configs : ChannelConfigs :=
  {| slack_config s := Ok s; webhook_config s := Ok (s, []); email_config s := Ok (s, "ann@x.io") |}.

(** Monday, nine o'clock. *)
Definition wit_calendar (_ : Z) : cron_time := {| Minute := 0; Hour := 9; Day := 1; Month := 1; Weekday := 1 |}.

(** A world in which everything works and every query reads [value]. *)
Definition wit_world (value : Z) : eval_world :=
  {| ew_RunSQL _ _ := Ok [[("value", SqlInt value)]]; ew_readings _ := Ok []; ew_watermark := true;
     ew_tables := Ok {| tb_recommendations _ := []; tb_tests _ := []; tb_stale_syncs _ := [] |};
     ew_claims := true; ew_releases := true; ew_channels := true; ew_vault := None; ew_post _ _ _ := None; ew_inserts := true; ew_updates := true; ew_clock := 7 |}.

Definition wit_alerts : alert_db alert_payload :=
  {| accounts := wit_db; rules := {["r" := wit_rule "sql" (f64_of_int 1)]}; channels := {["c" := wit_channel]}; alert_events := [] |}.

(** A value of five over a threshold of one. *)
Lemma breach_reaches_every_channel_witness :
  exists db' sent payload, evaluate_due wit_calendar (wit_world 5) "r" (wit_rule "sql" (f64_of_int 1)) 60 wit_alerts = (db', true, sent) /\
    (forall u ch, u ∈ ["c"] -> channels wit_alerts !! u = Some ch ->
       (u, ch, edge_notification (wit_rule "sql" (f64_of_int 1)) true "value v exceeded threshold v" (f64_of_int 5)) ∈ sent) /\
    rules db' = <["r" := with_state "firing" (with_eval (Some (pg_time 60)) (wit_rule "sql" (f64_of_int 1)))]> (rules wit_alerts) /\
    alert_events db' = alert_events wit_alerts ++ [{| ae_RuleID := "r"; ae_FiredAt := pg_time 7; ae_State := "firing"; ae_Value := f64_of_int 5; ae_Payload := payload |}].
Proof.
  apply (breach_reaches_every_channel wit_calendar (wit_world 5) "r" (wit_rule "sql" (f64_of_int 1)) 60 wit_alerts (wit_rule "sql" (f64_of_int 1)) [] (f64_of_int 5) "value v exceeded threshold v" ["c"]);
    try reflexivity; try done.
Defined.

(** ** Numbers the anomaly test sees *)

(** Ten equal readings of a tenth: their mean, rounded, is not a tenth, so the deviation is
    not zero, and the next reading of a tenth is compared with a spread that is not there. *)
Definition tenth : spec_float := f64_div (f64_of_int 1) (f64_of_int 10).

Definition spread (baseline : list spec_float) : spec_float :=
  let n := f64_of_int (Z.of_nat (length baseline)) in
  let mean := f64_div (f64_sum baseline) n in
  f64_sqrt (f64_div (f64_sum (map (fun v => f64_mul (f64_sub v mean) (f64_sub v mean)) baseline)) n).

Example flat_baseline_has_a_spread : SFeqb (spread (repeat tenth 10)) f64_zero = false /\ SFeqb (spread (repeat (f64_of_int 3) 10)) f64_zero = true.
Proof. split; vm_compute; done. Qed.

(** A change in the last digits of a flat metric fires. *)
Example flat_baseline_fires :
  fst (zScoreFires {| ac_Op := "z_score"; ac_Value := f64_of_int 3; ac_Window := 0; ac_MinEvents := 0 |} (repeat tenth 10) (f64_add tenth (f64_div (f64_of_int 1) (f64_of_int (2 ^ 50))))) = true.
Proof. vm_compute. done. Qed.
