(* ===== verification/AlertTurns.v ===== *)
(** * AlertTurns: an evaluation, statement by statement

    [Alerting] gives the evaluation of a rule as one function.  Nothing in evaluate.go makes it
    one: the claim, the reading of the watermark, the queries, each delivery, the two statements
    of the record and the release are calls of their own, and anything may come between two of
    them.  Here an evaluation is a phase that [turn_next] takes to the next one, with the
    statements of [Alerts] and the decisions of [Alerting]; left alone it is [evaluateRule]. *)

From stdpp Require Import sorting.
From Stdlib Require Import SpecFloat Ascii.
From S2P Require Import Prelude GoStrings GoTime Cron Operations Principals Accounts MetricTargets Alerts Alerting.
Import String.
Open Scope string_scope.
Open Scope list_scope.
Open Scope Z_scope.

(** What an evaluation is about to record. *)
Inductive outcome :=
| EdgeFound (firing : bool) (reason : string) (value : spec_float)
| DigestRead (since : Z) (changes : bool).

(** Where an evaluation stands after its claim: before its first query; with the start of its
    window; with channels still to reach and the errors of those reached; with its event
    inserted and the rule still to be updated; or to give its claim back. *)
Inductive turn_phase :=
| Begun
| Windowed (since : Z)
| Delivering (o : outcome) (n : Notification) (todo : list (string * AlertChannel)) (errs : list string)
| Updating (e : AlertEvent alert_payload)
| Releasing.

(** What takes effect: [Claimed] and [Ended] bound an evaluator's evaluation of a rule. *)
Inductive alert_note :=
| Claimed (evaluator rule : string) (now : Z)
| Sent (rule : string) (r : AlertRule) (channel : string) (ch : AlertChannel) (n : Notification)
| Recorded (e : AlertEvent alert_payload) (updated : bool)
| Freed (rule : string)
| Ended (evaluator rule : string)
| Dropped (rule : string).

Section Turns.
Context `{AlertColumns} `{GoFormat} `{GoParse} `{ChannelConfigs}.

Definition insert_outcome (w : eval_world) (id : string) (now : Z) (o : outcome) (n : Notification) (errs : list string) (db : alert_db alert_payload) :
    result error (AlertEvent alert_payload * alert_db alert_payload) :=
  match o with
  | EdgeFound firing reason value => insertAlertEvent (ew_inserts w) id (state_name firing) value (edge_payload reason value (joined errs)) (ew_clock w) db
  | DigestRead since changes => insertAlertEvent (ew_inserts w) id "digest" (S754_zero false) (DigestPayload since now changes (nt_Data n) (joined errs)) now db
  end.

Definition is_digest (o : outcome) : bool := match o with DigestRead _ _ => true | _ => false end.

Definition claim_stands (id : string) (now : Z) (db : alert_db alert_payload) : bool :=
  match rules db !! id with Some r => bool_decide (ar_LastEvalAt r = Some (pg_time now)) | None => false end.

(** The next call of an evaluation of the scanned rule; no phase: it is over. *)
Definition turn_next (w : eval_world) (id : string) (r : AlertRule) (now : Z) (ph : turn_phase) (db : alert_db alert_payload) :
    alert_db alert_payload * list alert_note * option turn_phase :=
  match ph with
  | Begun =>
      if (ar_SourceKind r =? "digest")%string then (db, [], Some (if ew_watermark w then Windowed (digest_since id now db) else Releasing))
      else
        match edge w r with
        | Ok (Some (firing, reason, value)) =>
            let '(todo, errs) := recipients w r db in (db, [], Some (Delivering (EdgeFound firing reason value) (edge_notification r firing reason value) todo errs))
        | _ => (db, [], None)
        end
  | Windowed since =>
      match assemble w r since now with
      | Err _ => (db, [], Some Releasing)
      | Ok (n, changes) =>
          let '(todo, errs) := if changes || ar_SendEmpty r then recipients w r db else ([], []) in
          (db, [], Some (Delivering (DigestRead since changes) n todo errs))
      end
  | Delivering o n (kc :: todo) errs => (db, [Sent id r kc.1 kc.2 n], Some (Delivering o n todo (errs ++ delivery_error w n kc)))
  | Delivering o n [] errs =>
      match insert_outcome w id now o n errs db with
      | Err _ => (db, [], if is_digest o then Some Releasing else None)
      | Ok (e, db') => if is_digest o then (db', [Recorded e false], None) else (db', [], Some (Updating e))
      end
  | Updating e => if ew_updates w then (updateLastState id (ae_State e) db, [Recorded e true], None) else (db, [Recorded e false], None)
  | Releasing =>
      if ew_releases w then (ReleaseAlertRuleClaim id now db, if claim_stands id now db then [Freed id] else [], None) else (db, [], None)
  end.

(** ** Left alone, an evaluation is evaluateRule *)

Definition sent_of (n : alert_note) : deliveries := match n with Sent _ _ u ch n => [(u, ch, n)] | _ => [] end.

(** [fuel] calls of an evaluation, one after the other. *)
Fixpoint turn_run (fuel : nat) (w : eval_world) (id : string) (r : AlertRule) (now : Z) (ph : turn_phase) (db : alert_db alert_payload) :
    option (alert_db alert_payload * deliveries) :=
  match fuel with
  | O => None
  | S fuel =>
      match turn_next w id r now ph db with
      | (db', ns, None) => Some (db', flat_map sent_of ns)
      | (db', ns, Some ph') => match turn_run fuel w id r now ph' db' with Some (db'', sent) => Some (db'', flat_map sent_of ns ++ sent) | None => None end
      end
  end.

Lemma turn_run_delivers fuel w id r now o n db todo : forall errs,
  turn_run (length todo + fuel) w id r now (Delivering o n todo errs) db =
  match turn_run fuel w id r now (Delivering o n [] (errs ++ flat_map (delivery_error w n) todo)) db with
  | Some (db', sent) => Some (db', map (fun kc => (kc.1, kc.2, n)) todo ++ sent)
  | None => None
  end.
Proof.
  induction todo as [|kc todo IH]; intros errs; [cbn [length Nat.add flat_map map app]; rewrite app_nil_r; by destruct (turn_run _ _ _ _ _ _ _) as [[]|]|].
  cbn [length Nat.add turn_run turn_next]. rewrite IH. cbn [flat_map]. rewrite <- app_assoc. by destruct (turn_run _ _ _ _ _ _ _) as [[]|].
Qed.

(** What the caller makes of an error. *)
Definition settled (w : eval_world) (id : string) (r : AlertRule) (now : Z) (answer : result error unit) (db : alert_db alert_payload) : alert_db alert_payload :=
  match answer with
  | Err _ => if (ar_SourceKind r =? "digest")%string && ew_releases w then ReleaseAlertRuleClaim id now db else db
  | Ok _ => db
  end.

Lemma turn_run_next fuel w id r now ph db : turn_run (S fuel) w id r now ph db =
  match turn_next w id r now ph db with
  | (db', ns, None) => Some (db', flat_map sent_of ns)
  | (db', ns, Some ph') => match turn_run fuel w id r now ph' db' with Some (db'', sent) => Some (db'', flat_map sent_of ns ++ sent) | None => None end
  end.
Proof. done. Qed.

Lemma turn_run_records k w id r now o n errs db : is_digest o = (ar_SourceKind r =? "digest")%string ->
  turn_run (S (S k)) w id r now (Delivering o n [] errs) db =
  let '(db', answer) := match o with
    | EdgeFound firing reason value => RecordAlertEvent (ew_inserts w) (ew_updates w) id (state_name firing) value (edge_payload reason value (joined errs)) (ew_clock w) db
    | DigestRead since changes => RecordDigestAlertEventAt (ew_inserts w) id (DigestPayload since now changes (nt_Data n) (joined errs)) now db
    end in Some (settled w id r now answer db', []).
Proof.
  unfold settled. destruct o as [firing reason value|since changes]; cbn [is_digest]; intros <-; cbn [turn_run turn_next insert_outcome is_digest];
    unfold RecordAlertEvent, RecordDigestAlertEventAt, recordAlertEventAt, insertAlertEvent; destruct (rules db !! id) as [row|] eqn:Hrow; cbn [andb]; try done.
  - destruct (ew_inserts w); cbn [negb]; [|done]. destruct (ew_updates w) eqn:Hu; cbn [turn_next ae_State]; by rewrite ?Hu.
  - destruct (ew_inserts w); cbn [negb turn_next]; [done|]. by destruct (ew_releases w), (claim_stands id now db).
  - cbn [turn_next]. by destruct (ew_releases w), (claim_stands id now db).
Qed.

Lemma turn_run_fans_out k w id r now o n db : is_digest o = (ar_SourceKind r =? "digest")%string ->
  let '(todo, errs) := recipients w r db in
  turn_run (length todo + S (S k)) w id r now (Delivering o n todo errs) db =
  let '(failed, sent) := fanOut w r n db in
  let '(db', answer) := match o with
    | EdgeFound firing reason value => RecordAlertEvent (ew_inserts w) (ew_updates w) id (state_name firing) value (edge_payload reason value failed) (ew_clock w) db
    | DigestRead since changes => RecordDigestAlertEventAt (ew_inserts w) id (DigestPayload since now changes (nt_Data n) failed) now db
    end in Some (settled w id r now answer db', sent).
Proof.
  intros Ho. unfold fanOut. destruct (recipients w r db) as [todo errs]. rewrite turn_run_delivers, turn_run_records by done.
  destruct (match o with EdgeFound _ _ _ => _ | _ => _ end) as [db' answer]. by rewrite app_nil_r.
Qed.

(** The calls of an evaluation, with nothing in between, do what evaluateRule and the release
    of a failed digest do: as many as it has channels, and four. *)
Lemma turn_uninterrupted w id r now db db' answer sent : evaluateRule w id r now db = (db', answer, sent) ->
  turn_run (4 + length (recipients w r db).1) w id r now Begun db = Some (settled w id r now answer db', sent).
Proof.
  set (k := length (recipients w r db).1). intros He. change (4 + k)%nat with (S (S (S (S k)))). rewrite turn_run_next. cbn [turn_next]. unfold evaluateRule in He.
  destruct (String.eqb_spec (ar_SourceKind r) "digest") as [Hkind|Hkind].
  - assert (Hfail : db = db' -> [] = sent -> (exists e, answer = Err e) -> forall fuel, turn_run (S fuel) w id r now Releasing db = Some (settled w id r now answer db', sent)).
    { intros <- <- [e ->] fuel. rewrite turn_run_next. cbn [turn_next]. unfold settled. rewrite Hkind. cbn. by destruct (ew_releases w), (claim_stands id now db). }
    unfold evaluateDigest in He. destruct (ew_watermark w); cbn [negb] in He; [|injection He as E1 <- E3; rewrite Hfail by eauto; done].
    rewrite turn_run_next. cbn [turn_next]. destruct (assemble w r _ now) as [[n changes]|]; [|injection He as E1 <- E3; rewrite Hfail by eauto; done].
    assert (Ho : is_digest (DigestRead (digest_since id now db) changes) = (ar_SourceKind r =? "digest")%string) by (by rewrite Hkind).
    destruct (changes || ar_SendEmpty r).
    + pose proof (turn_run_fans_out 0 w id r now _ n db Ho) as Hf. unfold k. destruct (recipients w r db) as [todo errs]. cbn [fst app flat_map].
      replace (S (S (length todo))) with (length todo + 2)%nat by lia. rewrite Hf.
      destruct (fanOut w r n db) as [failed sent']. destruct (RecordDigestAlertEventAt _ _ _ _ _) as [db2 answer2]. by injection He as <- <- <-.
    + cbn [app flat_map]. rewrite turn_run_records by done. cbn [joined]. destruct (RecordDigestAlertEventAt _ _ _ _ _) as [db2 answer2]. by injection He as <- <- <-.
  - assert (Hd : (ar_SourceKind r =? "digest")%string = false) by (by apply String.eqb_neq).
    destruct (edge w r) as [[[[firing reason] value]|]|e]; [|injection He as <- <- <-; done|injection He as <- <- <-; unfold settled; by rewrite Hd].
    pose proof (turn_run_fans_out 1 w id r now (EdgeFound firing reason value) (edge_notification r firing reason value) db ltac:(by rewrite Hd)) as Hf.
    unfold k. destruct (recipients w r db) as [todo errs]. cbn [fst app flat_map]. replace (S (S (S (length todo)))) with (length todo + 3)%nat by lia. rewrite Hf.
    destruct (fanOut w r _ db) as [failed sent']. destruct (RecordAlertEvent _ _ _ _ _ _ _ _) as [db2 answer2]. by injection He as <- <- <-.
Qed.
End Turns.
