(* ===== verification/AlertHistory.v ===== *)
(** * AlertHistory: alerting in any order of calls

    The operations of [Alerts] and the evaluations of [AlertTurns] as one relation over the
    tables: members edit rules and channels, accounts change, and any number of evaluators
    scan the rules, claim one, take it through its calls and go on to the next, or stop
    half-way.  Calls of different evaluators and edits come between each other in any order,
    with any clocks and any of them failing.  A trace keeps what took effect.  Whose channels
    are reached, how far apart evaluations are, what the digests cover and when an edge is
    announced. *)

From stdpp Require Import sorting.
From Stdlib Require Import SpecFloat Ascii.
From S2P Require Import Prelude GoStrings GoTime Cron Operations Principals Accounts MetricTargets Alerts Alerting AlertTurns.
Import String.
Open Scope string_scope.
Open Scope list_scope.
Open Scope Z_scope.

(** ** The system *)

(** An evaluator in its tick: the tick's time, what it has left of its scan, and how far it is
    with the first of it, once it has claimed it. *)
Record evaluator := { ev_now : Z; ev_rules : list (string * AlertRule); ev_turn : option turn_phase }.

(** [born]: the ids of all rules that ever were. *)
Record alert_system := { tables : alert_db alert_payload; scans : gmap string evaluator; born : gset string }.

(** The rule an evaluator is evaluating. *)
Definition current (ev : evaluator) : option (string * AlertRule * turn_phase) :=
  match ev_rules ev, ev_turn ev with kr :: _, Some ph => Some (kr.1, kr.2, ph) | _, _ => None end.

(** An evaluator that stops with an event it has inserted leaves the rule as it was. *)
Definition unfinished (ph : turn_phase) : list alert_note := match ph with Updating e => [Recorded e false] | _ => [] end.

Definition stop_notes (w : string) (ev : evaluator) : list alert_note :=
  match current ev with Some (id, _, ph) => unfinished ph ++ [Ended w id] | None => [] end.

Section System.
Context `{AlertColumns} `{GoFormat} `{GoParse} `{ChannelConfigs} (calendar : Z -> cron_time).

Definition with_tables (db : alert_db alert_payload) (sys : alert_system) : alert_system :=
  {| tables := db; scans := scans sys; born := born sys |}.

Definition with_scan (w : string) (ev : evaluator) (sys : alert_system) : alert_system :=
  {| tables := tables sys; scans := <[w := ev]> (scans sys); born := born sys |}.

Definition without_scan (w : string) (sys : alert_system) : alert_system :=
  {| tables := tables sys; scans := delete w (scans sys); born := born sys |}.

Definition with_born (id : string) (sys : alert_system) : alert_system :=
  {| tables := tables sys; scans := scans sys; born := {[id]} ∪ born sys |}.

(** The evaluator at the next phase of its rule, or past it. *)
Definition advanced (now : Z) (kr : string * AlertRule) (rest : list (string * AlertRule)) (next : option turn_phase) : evaluator :=
  {| ev_now := now; ev_rules := match next with Some _ => kr :: rest | None => rest end; ev_turn := next |}.

Definition ended_notes (w id : string) (next : option turn_phase) : list alert_note := match next with Some _ => [] | None => [Ended w id] end.

Inductive alert_step (sys : alert_system) : alert_system -> list alert_note -> Prop :=
| step_account hash acc : acct_step hash (accounts (tables sys)) acc -> alert_step sys (with_tables (with_accounts acc (tables sys)) sys) []
| step_create now id user p r db row : id ∉ born sys -> CreateAlertRule now id user p r (tables sys) = Ok (db, row) ->
    alert_step sys (with_born id (with_tables db sys)) []
| step_update user p id r db : UpdateAlertRule user p id r (tables sys) = Ok db -> alert_step sys (with_tables db sys) []
| step_delete user p id u db : pg_uuid id = Some u -> DeleteAlertRule user p id (tables sys) = Ok db ->
    alert_step sys (with_tables db sys) (if is_some (rules (tables sys) !! u) && negb (is_some (rules db !! u)) then [Dropped u] else [])
| step_channel now attaches id user ws ch : pg_uuid id = Some id ->
    alert_step sys (with_tables (CreateAlertChannel now attaches id user ws ch (tables sys)).1 sys) []
| step_seed now attaches id p : id ∉ born sys ->
    alert_step sys (with_born id (with_tables (ensureDigestRule now attaches id p (tables sys)).1 sys)) []
| step_scan w now : match scans sys !! w with Some ev => ev_rules ev = [] | None => True end ->
    alert_step sys (with_scan w {| ev_now := now; ev_rules := DueAlertRules (tables sys); ev_turn := None |} sys) []
| step_claim w world now id r rest db claimed : scans sys !! w = Some {| ev_now := now; ev_rules := (id, r) :: rest; ev_turn := None |} ->
    claim_due calendar world id r now (tables sys) = (db, claimed) ->
    alert_step sys (with_scan w (advanced now (id, r) rest (if claimed then Some Begun else None)) (with_tables db sys)) (if claimed then [Claimed w id now] else [])
| step_turn w world now id r rest ph db ns next : scans sys !! w = Some {| ev_now := now; ev_rules := (id, r) :: rest; ev_turn := Some ph |} ->
    turn_next world id r now ph (tables sys) = (db, ns, next) ->
    alert_step sys (with_scan w (advanced now (id, r) rest next) (with_tables db sys)) (ns ++ ended_notes w id next)
| step_stop w ev : scans sys !! w = Some ev -> alert_step sys (without_scan w sys) (stop_notes w ev).

Definition no_alerts (acc : DB) : alert_system :=
  {| tables := {| accounts := acc; rules := ∅; channels := ∅; alert_events := [] |}; scans := ∅; born := ∅ |}.

(** [alone]: there is one evaluator. *)
Inductive alert_run (acc : DB) (alone : bool) : list alert_note -> alert_system -> Prop :=
| run_start : alert_run acc alone [] (no_alerts acc)
| run_step tr sys sys' ns : alert_run acc alone tr sys -> alert_step sys sys' ns ->
    (alone = true -> forall w, w <> "self" -> scans sys' !! w = None) -> alert_run acc alone (tr ++ ns) sys'.

(** ** What a trace says *)

(** When a rule was last claimed, if the claim stands. *)
Definition claim_after (id : string) (c : option Z) (n : alert_note) : option Z :=
  match n with
  | Claimed _ id' now => if (id' =? id)%string then Some (pg_time now) else c
  | Freed id' | Dropped id' => if (id' =? id)%string then None else c
  | _ => c
  end.

Definition claim (id : string) (tr : list alert_note) : option Z := fold_left (claim_after id) tr None.

(** The state of a rule: that of the last event whose update of the rule worked too. *)
Definition state_after (id : string) (s : string) (n : alert_note) : string :=
  match n with
  | Recorded e true => if (ae_RuleID e =? id)%string && negb (ae_State e =? "digest")%string then ae_State e else s
  | _ => s
  end.

Definition edge_state (id : string) (tr : list alert_note) : string := fold_left (state_after id) tr "ok".

(** The windows of a rule's recorded digests. *)
Definition window_after (id : string) (ws : list (Z * Z)) (n : alert_note) : list (Z * Z) :=
  match n with
  | Recorded e _ => if (ae_RuleID e =? id)%string then match ae_Payload e with DigestPayload since until _ _ _ => ws ++ [(since, until)] | _ => ws end else ws
  | Dropped id' => if (id' =? id)%string then [] else ws
  | _ => ws
  end.

Definition windows (id : string) (tr : list alert_note) : list (Z * Z) := fold_left (window_after id) tr [].

(** The evaluators that are evaluating a rule. *)
Definition busy_after (id : string) (b : gset string) (n : alert_note) : gset string :=
  match n with
  | Claimed w id' _ => if (id' =? id)%string then {[w]} ∪ b else b
  | Ended w id' => if (id' =? id)%string then b ∖ {[w]} else b
  | _ => b
  end.

Definition busy (id : string) (tr : list alert_note) : gset string := fold_left (busy_after id) tr ∅.

(** No evaluator claims the rule while another is still evaluating it. *)
Definition apart (id : string) (tr : list alert_note) : Prop :=
  forall pre w now post, tr = pre ++ Claimed w id now :: post -> busy id pre = ∅.

(** DigestDataSince selects the rows stamped in the window as Postgres keeps it. *)
Definition in_digest (t : Z) (w : Z * Z) : bool := (pg_time w.1 <=? t) && (t <? pg_time w.2).

Definition digests_of (t : Z) (ws : list (Z * Z)) : nat := length (List.filter (in_digest t) ws).

(** The rule a note is of. *)
Definition note_rule (n : alert_note) : string :=
  match n with Claimed _ id _ | Sent id _ _ _ _ | Freed id | Ended _ id | Dropped id => id | Recorded e _ => ae_RuleID e end.

Lemma claim_app x tr ns : claim x (tr ++ ns) = fold_left (claim_after x) ns (claim x tr).
Proof. apply fold_left_app. Qed.

Lemma state_app x tr ns : edge_state x (tr ++ ns) = fold_left (state_after x) ns (edge_state x tr).
Proof. apply fold_left_app. Qed.

Lemma windows_app x tr ns : windows x (tr ++ ns) = fold_left (window_after x) ns (windows x tr).
Proof. apply fold_left_app. Qed.

Lemma busy_app x tr ns : busy x (tr ++ ns) = fold_left (busy_after x) ns (busy x tr).
Proof. apply fold_left_app. Qed.

(** Notes of other rules say nothing of a rule. *)
Lemma notes_elsewhere x ns : Forall (fun n => note_rule n <> x) ns -> forall tr,
  claim x (tr ++ ns) = claim x tr /\ edge_state x (tr ++ ns) = edge_state x tr /\ windows x (tr ++ ns) = windows x tr /\ busy x (tr ++ ns) = busy x tr.
Proof.
  induction ns as [|n ns IH]; intros Hns tr; [by rewrite app_nil_r|]. apply Forall_cons in Hns as [Hn Hns]. rewrite (cons_middle n tr ns), app_assoc.
  destruct (IH Hns (tr ++ [n])) as (-> & -> & -> & ->). rewrite claim_app, state_app, windows_app, busy_app. apply String.eqb_neq in Hn.
  destruct n as [| |e [|]| | |]; cbn in Hn |- *; by rewrite ?Hn.
Qed.

Lemma apart_prefix id tr ns : apart id (tr ++ ns) -> apart id tr.
Proof. intros Ha pre w now post E. apply (Ha pre w now (post ++ ns)). by rewrite E, <- app_assoc. Qed.

(** Then at most one evaluator is at it. *)
Lemma apart_one id tr : apart id tr -> forall w w', w ∈ busy id tr -> w' ∈ busy id tr -> w = w'.
Proof.
  induction tr as [|n tr IH] using rev_ind; intros Ha w w'; [intros Hw; by apply not_elem_of_empty in Hw|].
  specialize (IH (apart_prefix _ _ _ Ha)). rewrite busy_app. cbn. destruct n as [v i t| | | |v i|]; cbn; try by apply IH.
  - destruct (String.eqb_spec i id) as [->|_]; [|by apply IH]. rewrite (Ha tr v t [] eq_refl), !elem_of_union, !elem_of_singleton. intros [->|Hw] [->|Hw']; try done; by apply not_elem_of_empty in Hw || apply not_elem_of_empty in Hw'.
  - destruct (i =? id)%string; [|by apply IH]. rewrite !elem_of_difference. intros [Hw _] [Hw' _]. by apply IH.
Qed.

(** ** What a call of an evaluation does *)

Definition no_digest (p : alert_payload) : Prop := match p with DigestPayload _ _ _ _ _ => False | _ => True end.

(** An event of an edge away from the state the scan read. *)
Record edge_event (id : string) (r : AlertRule) (e : AlertEvent alert_payload) : Prop := {
  ee_rule : ae_RuleID e = id;
  ee_payload : no_digest (ae_Payload e);
  ee_state : ae_State e ∈ ["firing"; "ok"];
  ee_moves : ae_State e <> ar_LastState r;
}.

(** A channel the rule names, as it is in the tables. *)
Definition named (r : AlertRule) (db : alert_db alert_payload) (kc : string * AlertChannel) : Prop :=
  (exists us, uuids (default [] (ar_Channels r)) = Some us /\ kc.1 ∈ us) /\ channels db !! kc.1 = Some kc.2.

(** No alarm over a rule that was firing when it was scanned. *)
Definition outcome_ok (r : AlertRule) (o : outcome) (n : Notification) : Prop :=
  match o with
  | EdgeFound firing _ _ => state_name firing <> ar_LastState r /\ nt_Level n = state_name firing
  | DigestRead _ _ => nt_Level n = "info"
  end.

Definition phase_ok (db : alert_db alert_payload) (id : string) (r : AlertRule) (ph : turn_phase) : Prop :=
  match ph with
  | Delivering o n todo _ => outcome_ok r o n /\ forall kc, kc ∈ todo -> named r db kc
  | Updating e => edge_event id r e
  | _ => True
  end.

(** The start of the window of the digest that is under way. *)
Definition phase_window (ph : turn_phase) : option Z :=
  match ph with Windowed since | Delivering (DigestRead since _) _ _ _ => Some since | _ => None end.

Inductive effect (id : string) (r : AlertRule) (ph : turn_phase) (now : Z) (db : alert_db alert_payload) : alert_db alert_payload -> list alert_note -> Prop :=
| eff_none : effect id r ph now db db []
| eff_send kc n : named r db kc -> (nt_Level n = "firing" -> ar_LastState r <> "firing") -> effect id r ph now db db [Sent id r kc.1 kc.2 n]
| eff_insert e : edge_event id r e -> effect id r ph now db (with_event e db) []
| eff_digest e since changes data failed : is_Some (rules db !! id) -> phase_window ph = Some since -> ae_RuleID e = id -> ae_State e = "digest" ->
    ae_FiredAt e = pg_time now -> ae_Payload e = DigestPayload since now changes data failed -> effect id r ph now db (with_event e db) [Recorded e false]
| eff_update e : edge_event id r e -> effect id r ph now db (updateLastState id (ae_State e) db) [Recorded e true]
| eff_missed e : edge_event id r e -> effect id r ph now db db [Recorded e false]
| eff_free row : rules db !! id = Some row -> effect id r ph now db (with_rules (<[id := with_eval None row]> (rules db)) db) [Freed id].

Lemma recipients_named w r db : forall kc, kc ∈ (recipients w r db).1 -> named r db kc.
Proof.
  unfold recipients, named. destruct (default [] (ar_Channels r)) as [|x ids]; [intros kc Hk; by apply elem_of_nil in Hk|].
  destruct (negb (ew_channels w)); [intros kc Hk; by apply elem_of_nil in Hk|]. unfold AlertChannelsByID.
  destruct (uuids (x :: ids)) as [us|]; [|intros kc Hk; by apply elem_of_nil in Hk]. cbn [fst]. intros [k ch] Hk.
  rewrite list_elem_of_In, filter_In, <- list_elem_of_In in Hk. destruct Hk as [Hk Hin]. apply elem_of_map_to_list in Hk.
  apply existsb_True in Hin as (u & Hu & E). apply String.eqb_eq in E as <-. split; [by exists us|done].
Qed.

Lemma digest_level name readings data : nt_Level (digestNotification name readings data).1 = "info".
Proof. unfold digestNotification. by destruct (digestMovers readings), (dd_Recommendations data), (dd_Decisions data), (dd_StaleSyncs data). Qed.

Lemma assembled_level w r since now n changes : assemble w r since now = Ok (n, changes) -> nt_Level n = "info".
Proof.
  unfold assemble. destruct (ew_readings w _) as [readings|]; [|done]. destruct (ew_tables w) as [t|]; [|done]. intros [= E].
  pose proof (digest_level (ar_Name r) readings (DigestDataSince t (ar_ProjectID r) since now)) as Hl. by rewrite E in Hl.
Qed.

Lemma edge_no_digest reason value failed : no_digest (edge_payload reason value failed).
Proof. unfold edge_payload. by destruct (f64_special value). Qed.

Lemma edge_moves w r firing reason value : edge w r = Ok (Some (firing, reason, value)) -> state_name firing <> ar_LastState r.
Proof.
  unfold edge. destruct (metricSeries _ _) as [series|]; [|done]. destruct (last series); [|done]. destruct (applyCondition _ _ _) as [f reason'].
  destruct (String.eqb_spec (state_name f) (ar_LastState r)); [done|]. by intros [= <- <- <-].
Qed.

Lemma state_name_in firing : state_name firing ∈ ["firing"; "ok"].
Proof. destruct firing; [left|right; left]. Qed.

(** The next phase is as it must be, and its window is the one before or starts at the
    watermark of the tables. *)
Definition next_ok (db db' : alert_db alert_payload) (id : string) (r : AlertRule) (now : Z) (ph : turn_phase) (next : option turn_phase) : Prop :=
  forall ph', next = Some ph' -> phase_ok db' id r ph' /\
    (phase_window ph' = None \/ (db' = db /\ (phase_window ph' = phase_window ph \/ phase_window ph' = Some (digest_since id now db)))).

Definition unrecorded (n : alert_note) : Prop := match n with Recorded _ _ => False | _ => True end.

Lemma begun_next w id r now db db' ns next : turn_next w id r now Begun db = (db', ns, next) -> db' = db /\ ns = [] /\ next_ok db db' id r now Begun next.
Proof.
  cbn [turn_next]. destruct (ar_SourceKind r =? "digest")%string.
  - intros [= <- <- <-]. split_and!; [done..|]. intros ph' [= <-]. destruct (ew_watermark w); (split; [done|]); cbn; [by right; split; [|right]|by left].
  - destruct (edge w r) as [[[[firing reason] value]|]|] eqn:Hedge; try (intros [= <- <- <-]; split_and!; done).
    pose proof (recipients_named w r db) as Hn. destruct (recipients w r db) as [todo errs]. intros [= <- <- <-]. split_and!; [done..|]. intros ph' [= <-].
    split; [|by left]. split; [|done]. split; [by apply (edge_moves _ _ _ _ _ Hedge)|by destruct firing].
Qed.

Lemma windowed_next w id r now since db db' ns next : turn_next w id r now (Windowed since) db = (db', ns, next) ->
  db' = db /\ ns = [] /\ next_ok db db' id r now (Windowed since) next.
Proof.
  cbn [turn_next]. destruct (assemble w r since now) as [[n changes]|] eqn:Ha; [|intros [= <- <- <-]; split_and!; [done..|]; intros ph' [= <-]; by split; [|left]].
  assert (Hn : forall kc, kc ∈ (if changes || ar_SendEmpty r then recipients w r db else ([], [])).1 -> named r db kc).
  { destruct (changes || ar_SendEmpty r); [apply recipients_named|intros kc Hk; by apply elem_of_nil in Hk]. }
  destruct (if changes || ar_SendEmpty r then _ else _) as [todo errs]. intros [= <- <- <-]. split_and!; [done..|]. intros ph' [= <-].
  split; [|by right; split; [|left]]. split; [|done]. by apply (assembled_level _ _ _ _ _ _ Ha).
Qed.

Lemma recording_next w id r now o n errs db db' ns next : outcome_ok r o n -> turn_next w id r now (Delivering o n [] errs) db = (db', ns, next) ->
  effect id r (Delivering o n [] errs) now db db' ns /\ next_ok db db' id r now (Delivering o n [] errs) next /\
  (next = None \/ Forall unrecorded ns).
Proof.
  intros Ho. cbn [turn_next]. unfold insert_outcome, insertAlertEvent.
  destruct o as [firing reason value|since changes]; cbn [is_digest]; destruct (rules db !! id) as [row|] eqn:Hrow;
    [destruct (ew_inserts w); cbn [negb]| |destruct (ew_inserts w); cbn [negb]|]; intros [= <- <- <-].
  - assert (He : edge_event id r {| ae_RuleID := id; ae_FiredAt := pg_time (ew_clock w); ae_State := state_name firing; ae_Value := value; ae_Payload := edge_payload reason value (joined errs) |}).
    { constructor; cbn [ae_RuleID ae_Payload ae_State]; [done|apply edge_no_digest|apply state_name_in|apply Ho]. }
    split_and!; [by apply eff_insert| |by right]. intros ph' [= <-]. by split; [|left].
  - by split_and!; [constructor| |left].
  - by split_and!; [constructor| |left].
  - split_and!; [by eapply eff_digest|done|by left].
  - split_and!; [constructor| |by right]. intros ph' [= <-]. by split; [|left].
  - split_and!; [constructor| |by right]. intros ph' [= <-]. by split; [|left].
Qed.

Lemma turn_next_effect w id r now ph db db' ns next : phase_ok db id r ph -> turn_next w id r now ph db = (db', ns, next) ->
  effect id r ph now db db' ns /\ next_ok db db' id r now ph next /\ (next = None \/ Forall unrecorded ns).
Proof.
  destruct ph as [|since|o n [|kc todo] errs|e|]; intros Hok Hnext.
  - apply begun_next in Hnext as (-> & -> & ?). by split_and!; [constructor| |right].
  - apply windowed_next in Hnext as (-> & -> & ?). by split_and!; [constructor| |right].
  - destruct Hok as [Ho _]. by apply (recording_next w).
  - destruct Hok as [Ho Hn]. cbn [turn_next] in Hnext. injection Hnext as <- <- <-. split_and!.
    + apply eff_send; [apply Hn; left|]. intros Hl. destruct o as [firing reason value|since changes]; cbn in Ho; [|congruence]. destruct Ho as [Hne E]. congruence.
    + intros ph' [= <-]. split; [split; [done|intros kc' Hk; apply Hn; by right]|]. right. split; [done|]. left. by destruct o.
    + right. by constructor.
  - cbn [turn_next] in Hnext. destruct (ew_updates w); injection Hnext as <- <- <-; (split_and!; [by constructor|done|by left]).
  - cbn [turn_next] in Hnext. unfold ReleaseAlertRuleClaim, claim_stands in Hnext.
    destruct (rules db !! id) as [row|] eqn:Hrow; [|destruct (ew_releases w); injection Hnext as <- <- <-; by split_and!; [constructor| |left]].
    destruct (ew_releases w); [|injection Hnext as <- <- <-; by split_and!; [constructor| |left]].
    destruct (bool_decide _); injection Hnext as <- <- <-; (split_and!; [by constructor|done|by left]).
Qed.

(** ** What an edit does *)

(** [uuid_keys]: the ids of channels are canonical. *)
Definition uuid_keys (db : alert_db alert_payload) : Prop := forall u ch, channels db !! u = Some ch -> pg_uuid u = Some u.

(** A step of anyone but an evaluator: rules keep their claim and state, a new one has
    neither, and at most one goes with its events. *)
Record edit_ok (db db' : alert_db alert_payload) (new dropped : option string) : Prop := {
  eo_grow : tables_grow db db';
  eo_rules : forall id r', rules db' !! id = Some r' ->
    (exists r, rules db !! id = Some r /\ ar_LastEvalAt r' = ar_LastEvalAt r /\ ar_LastState r' = ar_LastState r) \/
    (new = Some id /\ rules db !! id = None /\ ar_LastEvalAt r' = None /\ ar_LastState r' = "ok");
  eo_home : (forall id r, rules db !! id = Some r -> rule_home db r) -> forall id r, rules db' !! id = Some r -> rule_home db' r;
  eo_events : alert_events db' = match dropped with Some u => List.filter (fun e => negb (ae_RuleID e =? u)%string) (alert_events db) | None => alert_events db end;
  eo_dropped : match dropped with Some u => rules db' !! u = None | None => True end;
  eo_keys : uuid_keys db -> uuid_keys db';
}.

Lemma edit_none db : edit_ok db db None None.
Proof. constructor; try done. intros id r' Hr. left. by exists r'. Qed.

(** An edit that changes rules pointwise, keeping claims, states and homes. *)
Lemma edit_fmap db db' (f : AlertRule -> AlertRule) : tables_grow db db' -> alert_events db' = alert_events db -> rules db' = f <$> rules db ->
  (forall r, ar_LastEvalAt (f r) = ar_LastEvalAt r /\ ar_LastState (f r) = ar_LastState r) ->
  (forall r, rule_home db r -> rule_home db' (f r)) -> (uuid_keys db -> uuid_keys db') -> edit_ok db db' None None.
Proof.
  intros Hg He Hr Hf Hh Hk. constructor; try done.
  - intros id r'. rewrite Hr, lookup_fmap. destruct (rules db !! id) as [r|]; [|done]. intros [= <-]. left. exists r. by split; [|apply Hf].
  - intros Hhome id r'. rewrite Hr, lookup_fmap. destruct (rules db !! id) as [r|] eqn:E; [|done]. intros [= <-]. by apply Hh, (Hhome id).
Qed.

Lemma grow_rules rs (db : alert_db alert_payload) : tables_grow db (with_rules rs db).
Proof. split; [intros p pr Hp; by exists pr|done]. Qed.

(** An edit that writes one row. *)
Lemma edit_insert db db' id row : tables_grow db db' -> alert_events db' = alert_events db -> rules db' = <[id := row]> (rules db) ->
  rule_home db' row ->
  match rules db !! id with
  | Some old => ar_LastEvalAt row = ar_LastEvalAt old /\ ar_LastState row = ar_LastState old
  | None => ar_LastEvalAt row = None /\ ar_LastState row = "ok"
  end -> (uuid_keys db -> uuid_keys db') -> edit_ok db db' (match rules db !! id with Some _ => None | None => Some id end) None.
Proof.
  intros Hg He Hr Hhome Hrow Hk. constructor; try done.
  - intros id' r'. rewrite Hr. destruct (decide (id' = id)) as [->|Hne].
    + rewrite lookup_insert_eq. intros [= <-]. destruct (rules db !! id) as [old|]; [left; by exists old|by right].
    + rewrite lookup_insert_ne by done. intros Hr'. left. by exists r'.
  - intros Hall id' r'. rewrite Hr. destruct (decide (id' = id)) as [->|Hne]; [rewrite lookup_insert_eq; by intros [= <-]|].
    rewrite lookup_insert_ne by done. intros Hr'. by apply (channels_home_grow db), (Hall id').
Qed.

Lemma edit_create now id user p r db db' row : CreateAlertRule now id user p r db = Ok (db', row) -> edit_ok db db' (Some id) None.
Proof.
  unfold CreateAlertRule. destruct (managed_project user p db) as [project|] eqn:Hm; [|done]. destruct (validateAlertSource _); [|done]. cbv zeta.
  destruct (match (if _ : bool then _ else _) with Ok _ => _ | Err e => _ end) as [[db1 row1]|] eqn:E; [|done]. intros [= -> ->]. revert E.
  destruct (if (ar_SourceKind r =? "digest")%string then Ok tt else _); [|done].
  destruct (validateChannelsInWorkspace _ _ _) as [[]|] eqn:Hv; [|done]. set (row2 := fresh_rule _ _ _ _ _).
  destruct (negb (row_fits row2)); [done|]. destruct (rules db !! id) eqn:Hid; [done|]. cbn [is_some orb]. intros [= <- <-].
  assert (Hg : tables_grow db (with_accounts (record_audit (accounts db) (pj_WorkspaceID project) user "alert.rule.create" p) (with_rules (<[id := row2]> (rules db)) db))).
  { split; [|done]. intros q pr Hq. by exists pr. }
  pose proof (edit_insert db _ id row2 Hg eq_refl eq_refl) as He. rewrite Hid in He. apply He; [|done|done].
  apply (channels_home_grow db); [done|]. by apply (managed_home user p db project).
Qed.

Lemma edit_update user p i r db db' : UpdateAlertRule user p i r db = Ok db' -> edit_ok db db' None None.
Proof.
  unfold UpdateAlertRule. destruct (managed_project user p db) as [project|] eqn:Hm; [|done]. destruct (validateAlertSource _); [|done]. cbv zeta.
  destruct (if (ar_SourceKind r =? "digest")%string then Ok tt else validateAlertOp (ac_Op (ar_Condition r))); [|done].
  destruct (validateChannelsInWorkspace _ _ _) as [[]|] eqn:Hv; [|done]. destruct (pg_uuid i) as [id|]; [|done]. destruct (rules db !! id) as [old|] eqn:Hid; [|intros [= <-]; apply edit_none].
  destruct (String.eqb_spec (ar_ProjectID old) p) as [Hp|]; [|intros [= <-]; apply edit_none]. cbn [negb]. set (row := edited _ _ _ _).
  destruct (negb (row_fits row)); [done|]. intros [= <-].
  pose proof (edit_insert db (with_rules (<[id := row]> (rules db)) db) id row (grow_rules _ db) eq_refl eq_refl) as He. rewrite Hid in He. apply He; [|done|done].
  unfold rule_home. cbn [row edited ar_ProjectID ar_Channels]. rewrite Hp. by apply (managed_home user p db project).
Qed.

Lemma edit_delete user p i u db db' : pg_uuid i = Some u -> DeleteAlertRule user p i db = Ok db' ->
  edit_ok db db' None (if is_some (rules db !! u) && negb (is_some (rules db' !! u)) then Some u else None).
Proof.
  intros Hu. unfold DeleteAlertRule. destruct (managed_project user p db); [|done]. rewrite Hu.
  destruct (rules db !! u) as [r|] eqn:Hr; [|intros [= <-]; apply edit_none].
  destruct (ar_ProjectID r =? p)%string; [|intros [= <-]; rewrite Hr; apply edit_none]. intros [= <-]. cbn [rules]. rewrite lookup_delete_eq. cbn [is_some negb andb].
  constructor; try done.
  - split; [intros q pr Hq; by exists pr|done].
  - intros id r' Hr'. cbn in Hr'. apply lookup_delete_Some in Hr' as [_ Hr']. left. by exists r'.
  - intros Hall id r' Hr'. cbn in Hr'. apply lookup_delete_Some in Hr' as [_ Hr']. by apply (Hall id).
  - apply lookup_delete_eq.
Qed.

Lemma attached_home (db : alert_db alert_payload) ws ch row r : pg_uuid ch = Some ch -> channels db !! ch = Some row -> ch_WorkspaceID row = ws ->
  workspace_of db (ar_ProjectID r) = Some ws -> rule_home db (with_channels_of [ch] r).
Proof.
  intros Hu Hch Hws Hof id. cbn. rewrite list_elem_of_singleton. intros ->. unfold workspace_of in Hof.
  destruct (projects (accounts db) !! ar_ProjectID r) as [pr|] eqn:Hp; [|done]. destruct (_ =? _)%string; [done|]. injection Hof as Hof.
  exists ch, row, pr. split_and!; [done|done|done|congruence].
Qed.

Lemma edit_channel now attaches id user ws ch db : pg_uuid id = Some id -> edit_ok db (CreateAlertChannel now attaches id user ws ch db).1 None None.
Proof.
  intros Hid. unfold CreateAlertChannel. destruct (negb (userCanManageWorkspace _ _ _)); [apply edit_none|]. destruct (negb (existsb _ _)); [apply edit_none|]. cbv zeta.
  set (row := {| ch_WorkspaceID := ws; ch_Kind := _; ch_Name := _; ch_Config := _; ch_CreatedAt := _ |}).
  destruct (negb (fits 255 _)); [apply edit_none|]. destruct (channels db !! id) eqn:Hfree; [apply edit_none|]. cbn [is_some orb].
  assert (Hg : tables_grow db (with_channels (<[id := row]> (channels db)) db)).
  { split; [intros p pr Hp; by exists pr|]. intros u c Hc. cbn. rewrite lookup_insert_ne; [done|]. congruence. }
  assert (Hk : uuid_keys db -> uuid_keys (with_channels (<[id := row]> (channels db)) db)).
  { intros Hall u c Hc. cbn in Hc. apply lookup_insert_Some in Hc as [[<- _]|[_ Hc]]; [done|by apply (Hall u c)]. }
  destruct attaches; cbn [fst].
  - apply (edit_fmap _ _ (fun r => if unattached r && bool_decide (workspace_of (with_channels (<[id := row]> (channels db)) db) (ar_ProjectID r) = Some ws)
      then with_channels_of [id] r else r)); try done.
    + intros r. by destruct (_ && _).
    + intros r Hr. destruct (unattached r && _) eqn:Hc; [|by apply (channels_home_grow db)]. apply andb_true_iff in Hc as [_ Hof]. apply bool_decide_eq_true in Hof.
      apply (attached_home _ ws id row); [done|apply lookup_insert_eq|done|done].
  - apply (edit_fmap _ _ (fun r => r)); try done; [by rewrite map_fmap_id|]. intros r. by apply channels_home_grow.
Qed.

Lemma first_channel_row ws (db : alert_db alert_payload) ch : first_channel ws db = Some ch -> exists row, channels db !! ch = Some row /\ ch_WorkspaceID row = ws.
Proof.
  unfold first_channel. destruct (merge_sort _ _) as [|[id row] rest] eqn:E; [done|]. intros [= ->].
  assert (Hin : (ch, row) ∈ List.filter (fun kc : string * AlertChannel => (ch_WorkspaceID kc.2 =? ws)%string) (map_to_list (channels db))).
  { rewrite <- (merge_sort_Permutation (by_creation ch_CreatedAt)), E. left. }
  rewrite list_elem_of_In, filter_In, <- list_elem_of_In in Hin. destruct Hin as [Hin Hws]. apply elem_of_map_to_list in Hin. exists row. split; [done|by apply String.eqb_eq].
Qed.

Lemma edit_trans db db1 db2 new : edit_ok db db1 new None -> edit_ok db1 db2 None None -> edit_ok db db2 new None.
Proof.
  intros [Hg Hr Hh He Hd Hk] [Hg' Hr' Hh' He' Hd' Hk']. constructor; [by transitivity db1| |intros Hall; exact (Hh' (Hh Hall))|by rewrite He', He|done|intros Hall; exact (Hk' (Hk Hall))].
  intros id r2 Hr2. destruct (Hr' id r2 Hr2) as [(r1 & Hr1 & E1 & E2)|[? _]]; [|done]. destruct (Hr id r1 Hr1) as [(r & Hr0 & E3 & E4)|(? & ? & ? & ?)].
  - left. exists r. split_and!; [done|congruence|congruence].
  - right. split_and!; [done|done|congruence|congruence].
Qed.

Lemma edit_seed now attaches id p db : uuid_keys db -> edit_ok db (ensureDigestRule now attaches id p db).1 (Some id) None.
Proof.
  intros Hkeys. assert (Hweaken : forall db', edit_ok db db' None None -> edit_ok db db' (Some id) None).
  { intros db' [Hg Hr Hh He Hd Hk]. constructor; try done. intros i r' Hr'. destruct (Hr i r' Hr') as [?|[? _]]; [by left|done]. }
  unfold ensureDigestRule. destruct (seed_rule now id p db) as [db1|] eqn:Hseed; [|by apply Hweaken, edit_none].
  assert (Hs1 : edit_ok db db1 (Some id) None /\ channels db1 = channels db).
  { unfold seed_rule in Hseed. destruct (negb (bool_decide _)); [injection Hseed as <-; split; [by apply Hweaken, edit_none|done]|].
    destruct (negb _); [done|]. destruct (rules db !! id) eqn:Hid; [done|]. cbn [is_some orb] in Hseed. injection Hseed as <-. split; [|done].
    pose proof (edit_insert db (with_rules (<[id := seeded_digest now p]> (rules db)) db) id (seeded_digest now p) (grow_rules _ db) eq_refl eq_refl) as He.
    rewrite Hid in He. apply He; [|done|done]. intros i Hi. by apply elem_of_nil in Hi. }
  destruct Hs1 as [Hs1 Hch]. destruct attaches; cbn [negb]; [|done]. destruct (workspace_of db1 p) as [ws|] eqn:Hws; [|done].
  destruct (first_channel ws db1) as [ch|] eqn:Hfirst; [|done]. cbn [fst]. apply (edit_trans db db1); [done|].
  destruct (first_channel_row _ _ _ Hfirst) as (row & Hrow & Hin). apply (edit_fmap _ _ (attached_to ch p)); try done.
  - apply grow_rules.
  - intros r. unfold attached_to. by destruct (_ && _).
  - intros r Hr. unfold attached_to. destruct (is_digest_of p r && unattached r) eqn:Hc; [|done]. apply andb_true_iff in Hc as [Hc _].
    unfold is_digest_of in Hc. apply andb_true_iff in Hc as [Hc _]. apply String.eqb_eq in Hc.
    apply (attached_home db1 ws ch row); [|done|done|by rewrite Hc]. apply (Hkeys ch row). by rewrite <- Hch.
Qed.

Lemma edit_account hash acc db : acct_step hash (accounts db) acc -> edit_ok db (with_accounts acc db) None None.
Proof.
  intros Hs. apply step_rows in Hs. assert (Hg : tables_grow db (with_accounts acc db)).
  { split; [|done]. intros p pr Hp. destruct (keep_projects _ _ Hs p pr Hp) as (pr' & ? & ? & _). by exists pr'. }
  apply (edit_fmap _ _ (fun r => r)); try done; [by rewrite map_fmap_id|]. intros r. by apply channels_home_grow.
Qed.

(** ** Digests and the watermark *)

(** The windows cover each instant from the start of the first to the watermark once. *)
Definition tiled (ws : list (Z * Z)) (watermark : option Z) : Prop :=
  match ws, watermark with
  | [], None => True
  | first :: _, Some m => pg_time first.1 <= m /\ pg_time m = m /\
      forall t, digests_of t ws = if (pg_time first.1 <=? t) && (t <? m) then 1%nat else 0%nat
  | _, _ => False
  end.

Lemma pg_time_twice t : pg_time (pg_time t) = pg_time t.
Proof. unfold pg_time. by rewrite Z.div_mul. Qed.

Lemma pg_time_mono a b : a <= b -> pg_time a <= pg_time b.
Proof. unfold pg_time. intros Hab. pose proof (Z.div_le_mono a b 1000 ltac:(lia) Hab). lia. Qed.

Lemma digests_app t ws ws' : digests_of t (ws ++ ws') = (digests_of t ws + digests_of t ws')%nat.
Proof. unfold digests_of. by rewrite List.filter_app, length_app. Qed.

Lemma digests_one t w : digests_of t [w] = if in_digest t w then 1%nat else 0%nat.
Proof. unfold digests_of. cbn. by destruct (in_digest t w). Qed.

Lemma tiled_next ws watermark now : tiled ws watermark ->
  tiled (ws ++ [(default (now - week) watermark, now)]) (Some (match watermark with Some m => Z.max m (pg_time now) | None => pg_time now end)).
Proof.
  destruct ws as [|first ws], watermark as [m|]; cbn [tiled]; try done; cbn [app tiled default].
  - intros _. split_and!; [apply pg_time_mono; cbn [fst]; assert (0 <= week) by done; lia|apply pg_time_twice|]. intros t. apply (digests_one t (now - week, now)).
  - intros (Hle & Hm & Hall). split_and!; [lia|destruct (Z.max_spec m (pg_time now)) as [[_ ->]|[_ ->]]; [apply pg_time_twice|done]|]. intros t.
    change (first :: ws ++ ?l) with ((first :: ws) ++ l). rewrite digests_app, Hall, digests_one. unfold in_digest. cbn [fst snd from_option id]. rewrite Hm.
    destruct (Z.leb_spec (pg_time first.1) t), (Z.ltb_spec t m), (Z.leb_spec m t), (Z.ltb_spec t (pg_time now)), (Z.ltb_spec t (Z.max m (pg_time now))); cbn; lia.
Qed.

Lemma watermark_next id e (db db' : alert_db alert_payload) : alert_events db' = alert_events db ++ [e] -> ae_RuleID e = id -> ae_State e = "digest" ->
  LastDigestAlertEvent id db' = Some (match LastDigestAlertEvent id db with Some m => Z.max m (ae_FiredAt e) | None => ae_FiredAt e end).
Proof.
  intros He Hid Hs. unfold LastDigestAlertEvent, digest_times. rewrite He, omap_app. cbn. rewrite Hid, Hs, !String.eqb_refl. cbn.
  destruct (omap _ (alert_events db)) as [|t ts]; [done|]. cbn. by rewrite fold_left_app.
Qed.

Lemma watermark_same id ev (db db' : alert_db alert_payload) : alert_events db' = alert_events db ++ option_list ev ->
  (forall e, ev = Some e -> ae_RuleID e = id -> ae_State e <> "digest") -> LastDigestAlertEvent id db' = LastDigestAlertEvent id db.
Proof.
  intros He Hev. unfold LastDigestAlertEvent, digest_times. rewrite He, omap_app. destruct ev as [e|]; cbn; [|by rewrite app_nil_r].
  destruct (String.eqb_spec (ae_RuleID e) id) as [E|_]; cbn; [|by rewrite app_nil_r]. destruct (String.eqb_spec (ae_State e) "digest") as [Hd|_]; cbn; [|by rewrite app_nil_r].
  by destruct (Hev e eq_refl E).
Qed.

(** An edit leaves the watermark of a rule that is still there. *)
Lemma watermark_edit id db db' new dropped : edit_ok db db' new dropped -> is_Some (rules db' !! id) -> LastDigestAlertEvent id db' = LastDigestAlertEvent id db.
Proof.
  intros He [r Hr]. pose proof (eo_events _ _ _ _ He) as Hev. pose proof (eo_dropped _ _ _ _ He) as Hd. destruct dropped as [u|]; [|unfold LastDigestAlertEvent, digest_times; by rewrite Hev].
  assert (Hsame : digest_times id db' = digest_times id db); [|unfold LastDigestAlertEvent; by rewrite Hsame].
  unfold digest_times. rewrite Hev. clear Hev He. induction (alert_events db) as [|e l IH]; [done|]. cbn.
  destruct (String.eqb_spec (ae_RuleID e) u) as [Eu|_]; cbn; [|by rewrite IH]. destruct (String.eqb_spec (ae_RuleID e) id) as [Ei|_]; cbn; [congruence|done].
Qed.

(** ** The invariant *)

(** What is known of an evaluator: the rules it scanned were well-formed rows, its phase is as
    it must be, and while no other evaluates its rule its window starts at the watermark. *)
Record evaluator_ok (tr : list alert_note) (sys : alert_system) (ev : evaluator) : Prop := {
  ek_rows : forall id r, (id, r) ∈ ev_rules ev -> rule_home (tables sys) r /\ id ∈ born sys;
  ek_phase : forall id r ph, current ev = Some (id, r, ph) -> phase_ok (tables sys) id r ph /\
    forall since, phase_window ph = Some since -> is_Some (rules (tables sys) !! id) -> apart id tr -> since = digest_since id (ev_now ev) (tables sys);
}.

(** The row of a rule is what the trace says of it. *)
Definition row_told (tr : list alert_note) (id : string) (r : AlertRule) : Prop :=
  ar_LastEvalAt r = claim id tr /\ ar_LastState r = edge_state id tr.

Definition evaluating (sys : alert_system) (w id : string) : Prop := exists ev r ph, scans sys !! w = Some ev /\ current ev = Some (id, r, ph).

(** What one evaluator knows of the rules it has left: their state has not moved since. *)
Definition unmoved (tr : list alert_note) (ev : evaluator) : Prop :=
  NoDup ((ev_rules ev).*1) /\ forall id r, (id, r) ∈ ev_rules ev -> ar_LastState r = edge_state id tr.

Record alert_inv (alone : bool) (tr : list alert_note) (sys : alert_system) : Prop := {
  ai_keys : uuid_keys (tables sys);
  ai_home : forall id r, rules (tables sys) !! id = Some r -> rule_home (tables sys) r;
  ai_born : forall id r, rules (tables sys) !! id = Some r -> id ∈ born sys;
  ai_fresh : forall id, id ∉ born sys -> claim id tr = None /\ edge_state id tr = "ok" /\ windows id tr = [] /\ LastDigestAlertEvent id (tables sys) = None;
  ai_rows : forall id r, rules (tables sys) !! id = Some r -> row_told tr id r;
  ai_tiles : forall id, is_Some (rules (tables sys) !! id) -> apart id tr -> tiled (windows id tr) (LastDigestAlertEvent id (tables sys));
  ai_evs : forall w ev, scans sys !! w = Some ev -> evaluator_ok tr sys ev;
  ai_busy : forall w id, w ∈ busy id tr <-> evaluating sys w id;
  ai_self : alone = true -> forall ev, scans sys !! "self" = Some ev -> unmoved tr ev;
}.

Lemma inv_start acc alone : alert_inv alone [] (no_alerts acc).
Proof. constructor; try done. intros w id. cbn. split; [intros Hw; by apply not_elem_of_empty in Hw|by intros (ev & r & ph & Hev & _)]. Qed.

Lemma phase_ok_grow db db' id r ph : tables_grow db db' -> phase_ok db id r ph -> phase_ok db' id r ph.
Proof.
  intros [_ Hc]. destruct ph as [| |o n todo errs| |]; try done. intros [Ho Hn]. split; [done|]. intros kc Hk. destruct (Hn kc Hk) as [Hu Hch].
  split; [done|by apply Hc].
Qed.

(** ** Edits *)

Record step_edit (sys sys' : alert_system) (ns : list alert_note) (new dropped : option string) : Prop := {
  se_edit : edit_ok (tables sys) (tables sys') new dropped;
  se_scans : scans sys' = scans sys;
  se_born : born sys' = match new with Some id => {[id]} ∪ born sys | None => born sys end;
  se_new : match new with Some id => id ∉ born sys | None => True end;
  se_notes : ns = match dropped with Some u => [Dropped u] | None => [] end;
}.

Definition drop_notes (dropped : option string) : list alert_note := match dropped with Some u => [Dropped u] | None => [] end.

(** What a drop leaves of a trace: nothing of the rule but its state. *)
Lemma edit_trace dropped tr id :
  let tr' := tr ++ drop_notes dropped in
  edge_state id tr' = edge_state id tr /\ busy id tr' = busy id tr /\
  (dropped <> Some id -> claim id tr' = claim id tr /\ windows id tr' = windows id tr) /\
  (claim id tr = None -> claim id tr' = None) /\ (windows id tr = [] -> windows id tr' = []).
Proof.
  cbv zeta. destruct dropped as [u|]; cbn [drop_notes]; [|rewrite app_nil_r; by split_and!]. rewrite state_app, busy_app. cbn. destruct (decide (u = id)) as [->|Hne].
  - split_and!; [done|done|done| |]; intros _; [rewrite claim_app|rewrite windows_app]; cbn; by rewrite String.eqb_refl.
  - destruct (notes_elsewhere id [Dropped u] ltac:(by repeat constructor) tr) as (-> & _ & -> & _). by split_and!.
Qed.

Lemma watermark_none id db db' new dropped : edit_ok db db' new dropped -> LastDigestAlertEvent id db = None -> LastDigestAlertEvent id db' = None.
Proof.
  intros He. unfold LastDigestAlertEvent. assert (Hn : digest_times id db = [] -> digest_times id db' = []).
  { unfold digest_times. rewrite (eo_events _ _ _ _ He). destruct dropped as [u|]; [|done]. clear He. induction (alert_events db) as [|e l IH]; [done|]. cbn.
    destruct (ae_RuleID e =? u)%string; cbn; destruct ((ae_RuleID e =? id)%string && (ae_State e =? "digest")%string); cbn; try done; intros Hl; by apply IH. }
  destruct (digest_times id db); [|done]. by rewrite Hn.
Qed.

Lemma edit_row db db' new dropped id r' : edit_ok db db' new dropped -> rules db' !! id = Some r' -> new <> Some id ->
  exists r, rules db !! id = Some r /\ ar_LastEvalAt r' = ar_LastEvalAt r /\ ar_LastState r' = ar_LastState r.
Proof. intros He Hr Hne. destruct (eo_rules _ _ _ _ He id r' Hr) as [?|(-> & _)]; [done|by destruct Hne]. Qed.

Lemma edit_evaluator tr sys sys' ns new dropped ev : step_edit sys sys' ns new dropped -> evaluator_ok tr sys ev -> evaluator_ok (tr ++ ns) sys' ev.
Proof.
  intros [He Hsc Hborn Hnew ->] [Hrows Hph]. pose proof (eo_grow _ _ _ _ He) as Hg. assert (Hin : forall id, id ∈ born sys -> id ∈ born sys').
  { intros id Hid. rewrite Hborn. destruct new; [|done]. rewrite elem_of_union. by right. }
  constructor.
  - intros id r Hr. destruct (Hrows id r Hr) as [Hh Hb]. split; [by apply (channels_home_grow (tables sys))|by apply Hin].
  - intros id r ph Hc. destruct (Hph id r ph Hc) as [Hok Hw]. split; [by apply (phase_ok_grow (tables sys))|]. intros since Hs Hrow Ha.
    assert (Hborn' : id ∈ born sys). { unfold current in Hc. destruct (ev_rules ev) as [|kr l] eqn:El; [done|]. destruct (ev_turn ev); [|done]. injection Hc as <- <- _. apply (Hrows kr.1 kr.2). rewrite <- surjective_pairing. left. }
    unfold digest_since. rewrite (watermark_edit id _ _ _ _ He) by done. apply Hw; [done| |by apply apart_prefix in Ha].
    destruct Hrow as [r' Hr']. destruct (edit_row _ _ _ _ id r' He Hr') as (q & Hq & _); [intros ->; by apply Hnew|by exists q].
Qed.

Lemma inv_edit alone tr sys sys' ns new dropped : alert_inv alone tr sys -> step_edit sys sys' ns new dropped -> alert_inv alone (tr ++ ns) sys'.
Proof.
  intros [Hk Hh Hb Hf Hr Ht Hs Hbusy Ha] Hstep. pose proof (fun ev => edit_evaluator tr sys sys' ns new dropped ev Hstep) as Hev.
  destruct Hstep as [He Hsc Hborn Hnew ->]. change (match dropped with Some u => [Dropped u] | None => [] end) with (drop_notes dropped) in *.
  assert (Hin : forall id, id ∈ born sys -> id ∈ born sys'). { intros id Hid. rewrite Hborn. destruct new; [|done]. rewrite elem_of_union. by right. }
  assert (Hsame : forall id r, rules (tables sys') !! id = Some r -> claim id (tr ++ drop_notes dropped) = claim id tr /\ windows id (tr ++ drop_notes dropped) = windows id tr).
  { intros id r Hrow. destruct (edit_trace dropped tr id) as (_ & _ & Hsame & _). apply Hsame. intros ->. pose proof (eo_dropped _ _ _ _ He) as Hd. cbn in Hd. by rewrite Hrow in Hd. }
  constructor.
  - by apply (eo_keys _ _ _ _ He).
  - by apply (eo_home _ _ _ _ He).
  - intros id r Hrow. destruct (eo_rules _ _ _ _ He id r Hrow) as [(old & Hold & _)|(-> & _)]; [by apply Hin, (Hb id old)|]. rewrite Hborn, elem_of_union, elem_of_singleton. by left.
  - intros id Hid. destruct (Hf id) as (H1' & H2' & H3' & H4'); [intros ?; by apply Hid, Hin|].
    destruct (edit_trace dropped tr id) as (-> & _ & _ & Hc & Hw). split_and!; [by apply Hc|done|by apply Hw|by apply (watermark_none id _ _ _ _ He)].
  - intros id r Hrow. unfold row_told. destruct (edit_trace dropped tr id) as (-> & _). destruct (Hsame id r Hrow) as [-> _].
    destruct (eo_rules _ _ _ _ He id r Hrow) as [(old & Hold & -> & ->)|(-> & _ & -> & ->)]; [by apply Hr|]. by destruct (Hf id Hnew) as (-> & -> & _).
  - intros id [r Hrow] Hap. destruct (Hsame id r Hrow) as [_ ->]. rewrite (watermark_edit id _ _ _ _ He) by by exists r.
    destruct (eo_rules _ _ _ _ He id r Hrow) as [(old & Hold & _)|(-> & _)]; [apply Ht; [by exists old|by apply apart_prefix in Hap]|]. by destruct (Hf id Hnew) as (_ & _ & -> & ->).
  - rewrite Hsc. intros w ev Hw. by apply Hev, (Hs w).
  - intros w id. destruct (edit_trace dropped tr id) as (_ & -> & _). rewrite Hbusy. unfold evaluating. by rewrite Hsc.
  - rewrite Hsc. intros Hal ev Hw. destruct (Ha Hal ev Hw) as [Hnd Hst]. split; [done|]. intros id r Hin'. destruct (edit_trace dropped tr id) as (-> & _). by apply Hst.
Qed.

(** ** Calls of an evaluator *)

(** What the tables and the trace say after a call of evaluator [w] over the rule [id]. *)
Record told (w id : string) (tr : list alert_note) (db db' : alert_db alert_payload) (ns : list alert_note) : Prop := {
  td_accounts : accounts db' = accounts db;
  td_channels : channels db' = channels db;
  td_rules : forall x, x <> id -> rules db' !! x = rules db !! x;
  td_row : forall row', rules db' !! id = Some row' -> row_told (tr ++ ns) id row' /\
    exists row, rules db !! id = Some row /\ ar_ProjectID row' = ar_ProjectID row /\ ar_Channels row' = ar_Channels row;
  td_events : exists ev, alert_events db' = alert_events db ++ option_list ev /\
    forall e, ev = Some e -> ae_RuleID e = id /\ (ae_State e = "digest" -> w ∈ busy id tr);
  td_notes : Forall (fun n => note_rule n = id) ns;
  td_tiled : is_Some (rules db' !! id) -> apart id (tr ++ ns) -> tiled (windows id (tr ++ ns)) (LastDigestAlertEvent id db');
}.

(** And the evaluators. *)
Record move (w id : string) (tr : list alert_note) (sys sys' : alert_system) (ns : list alert_note) : Prop := {
  mv_told : told w id tr (tables sys) (tables sys') ns;
  mv_born : born sys' = born sys /\ id ∈ born sys;
  mv_scans : forall w', w' <> w -> scans sys' !! w' = scans sys !! w';
  mv_others : forall w', w' <> w -> w' ∈ busy id (tr ++ ns) <-> w' ∈ busy id tr;
  mv_busy : forall i, w ∈ busy i (tr ++ ns) <-> evaluating sys' w i;
  mv_evaluator : forall ev, scans sys' !! w = Some ev -> evaluator_ok (tr ++ ns) sys' ev;
  mv_self : w = "self" -> (forall ev, scans sys !! w = Some ev -> unmoved tr ev) -> forall ev, scans sys' !! w = Some ev -> unmoved (tr ++ ns) ev;
}.

Section Move.
Context (w id : string) (tr : list alert_note) (sys sys' : alert_system) (ns : list alert_note) (Hm : move w id tr sys sys' ns).

Lemma move_elsewhere x : x <> id -> claim x (tr ++ ns) = claim x tr /\ edge_state x (tr ++ ns) = edge_state x tr /\ windows x (tr ++ ns) = windows x tr /\ busy x (tr ++ ns) = busy x tr.
Proof using Hm. intros Hne. apply notes_elsewhere. eapply Forall_impl; [apply (td_notes _ _ _ _ _ _ (mv_told _ _ _ _ _ _ Hm))|]. intros n <- E. by apply Hne. Qed.

Lemma move_watermark x : x <> id -> LastDigestAlertEvent x (tables sys') = LastDigestAlertEvent x (tables sys).
Proof using Hm. intros Hne. destruct (td_events _ _ _ _ _ _ (mv_told _ _ _ _ _ _ Hm)) as (ev & He & Hev). apply (watermark_same x ev); [done|]. intros e E E'. destruct (Hev e E) as [E'' _]. congruence. Qed.

Lemma move_grow : tables_grow (tables sys) (tables sys').
Proof using Hm. split; [rewrite (td_accounts _ _ _ _ _ _ (mv_told _ _ _ _ _ _ Hm)); intros p pr Hp; by exists pr|by rewrite (td_channels _ _ _ _ _ _ (mv_told _ _ _ _ _ _ Hm))]. Qed.

Lemma move_rows x row' : rules (tables sys') !! x = Some row' -> exists row, rules (tables sys) !! x = Some row /\ ar_ProjectID row' = ar_ProjectID row /\ ar_Channels row' = ar_Channels row.
Proof using Hm.
  destruct (decide (x = id)) as [->|Hne]; [by intros Hr; apply (td_row _ _ _ _ _ _ (mv_told _ _ _ _ _ _ Hm)) in Hr as [_ ?]|]. rewrite (td_rules _ _ _ _ _ _ (mv_told _ _ _ _ _ _ Hm) x Hne). intros Hr. by exists row'.
Qed.

(** Another evaluator that is at its rule keeps its window: while they are apart, the call
    was not of a digest of the same rule. *)
Lemma move_window w' i : w' <> w -> w' ∈ busy i tr -> apart i (tr ++ ns) -> LastDigestAlertEvent i (tables sys') = LastDigestAlertEvent i (tables sys).
Proof using Hm.
  intros Hw Hb Ha. destruct (decide (i = id)) as [->|Hne]; [|by apply move_watermark]. destruct (td_events _ _ _ _ _ _ (mv_told _ _ _ _ _ _ Hm)) as (ev & He & Hev).
  apply (watermark_same id ev); [done|]. intros e E _ Hd. destruct (Hev e E) as [_ Hin]. apply Hw, (apart_one id tr (apart_prefix _ _ _ Ha)); [done|by apply Hin].
Qed.

Lemma move_evaluator w' ev : w' <> w -> scans sys !! w' = Some ev -> (forall i r ph, current ev = Some (i, r, ph) -> w' ∈ busy i tr) -> evaluator_ok tr sys ev ->
  evaluator_ok (tr ++ ns) sys' ev.
Proof using Hm.
  intros Hw Hsc Hb [Hrows Hph]. constructor.
  - intros i r Hr. destruct (Hrows i r Hr) as [Hh Hi]. split; [by apply (channels_home_grow (tables sys)); [apply move_grow|]|]. by rewrite (proj1 (mv_born _ _ _ _ _ _ Hm)).
  - intros i r ph Hc. destruct (Hph i r ph Hc) as [Hok Hwin]. split; [by apply (phase_ok_grow (tables sys)); [apply move_grow|]|]. intros since Hs [row' Hrow] Ha.
    unfold digest_since. rewrite (move_window w' i Hw (Hb i r ph Hc) Ha). apply Hwin; [done| |by apply apart_prefix in Ha].
    destruct (move_rows i row' Hrow) as (row & Hr & _). by exists row.
Qed.

Lemma inv_move alone : alert_inv alone tr sys -> (alone = true -> w = "self") -> alert_inv alone (tr ++ ns) sys'.
Proof using Hm.
  intros [Hk Hh Hb Hf Hr Ht Hs Hbusy Ha] Hself. destruct (mv_born _ _ _ _ _ _ Hm) as [Hborn Hid]. constructor.
  - unfold uuid_keys. by rewrite (td_channels _ _ _ _ _ _ (mv_told _ _ _ _ _ _ Hm)).
  - intros x row' Hrow. destruct (move_rows x row' Hrow) as (row & Hold & Ep & Ec). unfold rule_home. rewrite Ep, Ec. by apply (channels_home_grow (tables sys)); [apply move_grow|apply (Hh x)].
  - intros x row' Hrow. destruct (move_rows x row' Hrow) as (row & Hold & _). rewrite Hborn. by apply (Hb x row).
  - intros x. rewrite Hborn. intros Hx. assert (Hne : x <> id) by congruence. destruct (move_elsewhere x Hne) as (-> & -> & -> & _). rewrite (move_watermark x Hne). by apply Hf.
  - intros x row' Hrow. destruct (decide (x = id)) as [->|Hne]; [by apply (td_row _ _ _ _ _ _ (mv_told _ _ _ _ _ _ Hm))|]. unfold row_told. destruct (move_elsewhere x Hne) as (-> & -> & _).
    rewrite (td_rules _ _ _ _ _ _ (mv_told _ _ _ _ _ _ Hm) x Hne) in Hrow. by apply Hr.
  - intros x Hrow Hap. destruct (decide (x = id)) as [->|Hne]; [by apply (td_tiled _ _ _ _ _ _ (mv_told _ _ _ _ _ _ Hm))|]. destruct (move_elsewhere x Hne) as (_ & _ & -> & _).
    rewrite (move_watermark x Hne). rewrite (td_rules _ _ _ _ _ _ (mv_told _ _ _ _ _ _ Hm) x Hne) in Hrow. apply Ht; [done|by apply apart_prefix in Hap].
  - intros w' ev Hw. destruct (decide (w' = w)) as [->|Hne]; [by apply (mv_evaluator _ _ _ _ _ _ Hm)|]. rewrite (mv_scans _ _ _ _ _ _ Hm w' Hne) in Hw.
    apply (move_evaluator w'); [done|done| |by apply (Hs w')]. intros i r ph Hc. apply Hbusy. by exists ev, r, ph.
  - intros w' i. destruct (decide (w' = w)) as [->|Hne]; [by apply (mv_busy _ _ _ _ _ _ Hm)|]. unfold evaluating. rewrite (mv_scans _ _ _ _ _ _ Hm w' Hne).
    change (exists ev r ph, scans sys !! w' = Some ev /\ current ev = Some (i, r, ph)) with (evaluating sys w' i). rewrite <- Hbusy.
    destruct (decide (i = id)) as [->|Hi]; [by apply (mv_others _ _ _ _ _ _ Hm)|by destruct (move_elsewhere i Hi) as (_ & _ & _ & ->)].
  - intros Hal ev Hw. specialize (Hself Hal). subst w. apply (mv_self _ _ _ _ _ _ Hm); [done|by apply Ha|done].
Qed.
End Move.

(** ** What each call tells *)

Section Told.
Context (w id : string) (alone : bool) (tr : list alert_note) (sys : alert_system) (Hinv : alert_inv alone tr sys).

Definition silent (ns : list alert_note) : Prop := claim id (tr ++ ns) = claim id tr /\ edge_state id (tr ++ ns) = edge_state id tr /\ windows id (tr ++ ns) = windows id tr.

(** Notes that say nothing of claims, states and windows, over tables that stay, or gain an
    event that is not a digest. *)
Lemma told_silent ev ns : (forall e, ev = Some e -> ae_RuleID e = id /\ ae_State e <> "digest") -> Forall (fun n => note_rule n = id) ns -> silent ns ->
  told w id tr (tables sys) (match ev with Some e => with_event e (tables sys) | None => tables sys end) ns.
Proof using Hinv.
  intros Hev Hns (Ec & Es & Ew). constructor; try (by destruct ev).
  - intros row' Hrow. unfold row_told. rewrite Ec, Es. assert (Hrow' : rules (tables sys) !! id = Some row') by (by destruct ev). split; [by apply (ai_rows _ _ _ Hinv)|by exists row'].
  - exists ev. split; [destruct ev; [done|by rewrite app_nil_r]|]. intros e E. destruct (Hev e E) as [? ?]. by split.
  - rewrite Ew. intros Hrow Hap. rewrite (watermark_same id ev (tables sys)).
    + apply (ai_tiles _ _ _ Hinv); [by destruct ev|by apply apart_prefix in Hap].
    + destruct ev; [done|by rewrite app_nil_r].
    + intros e E _. by apply Hev.
Qed.

(** A row that is written, and what the notes say of it. *)
Lemma told_row row row' ns : rules (tables sys) !! id = Some row -> ar_ProjectID row' = ar_ProjectID row -> ar_Channels row' = ar_Channels row ->
  Forall (fun n => note_rule n = id) ns -> row_told (tr ++ ns) id row' -> windows id (tr ++ ns) = windows id tr ->
  told w id tr (tables sys) (with_rules (<[id := row']> (rules (tables sys))) (tables sys)) ns.
Proof using Hinv.
  intros Hrow Ep Ec Hns Htold Ew. constructor; try done.
  - intros x Hx. cbn. by rewrite lookup_insert_ne.
  - intros q. cbn. rewrite lookup_insert_eq. intros [= <-]. split; [done|by exists row].
  - exists None. cbn. split; [by rewrite app_nil_r|done].
  - rewrite Ew. intros _ Hap. rewrite (watermark_same id None (tables sys)); [|cbn; by rewrite app_nil_r|done]. apply (ai_tiles _ _ _ Hinv); [by exists row|by apply apart_prefix in Hap].
Qed.

Lemma told_digest e since now changes data failed : w ∈ busy id tr -> (apart id tr -> since = digest_since id now (tables sys)) -> is_Some (rules (tables sys) !! id) ->
  ae_RuleID e = id -> ae_State e = "digest" -> ae_FiredAt e = pg_time now -> ae_Payload e = DigestPayload since now changes data failed ->
  told w id tr (tables sys) (with_event e (tables sys)) [Recorded e false].
Proof using Hinv.
  intros Hb Hsince Hrow Hid Hs Hf Hp. constructor; try done.
  - intros row' Hr. unfold row_told. rewrite claim_app, state_app. split; [by apply (ai_rows _ _ _ Hinv)|by exists row'].
  - exists (Some e). split; [done|]. by intros e' [= <-].
  - by constructor.
  - intros _ Hap. apply apart_prefix in Hap. rewrite windows_app. cbn. rewrite Hid, String.eqb_refl, Hp, (Hsince Hap).
    rewrite (watermark_next id e (tables sys)), Hf by done. by apply tiled_next, (ai_tiles _ _ _ Hinv).
Qed.

Lemma effect_told r ph now db' ns : w ∈ busy id tr -> (forall since, phase_window ph = Some since -> is_Some (rules (tables sys) !! id) -> apart id tr -> since = digest_since id now (tables sys)) ->
  effect id r ph now (tables sys) db' ns -> told w id tr (tables sys) db' ns.
Proof using Hinv.
  intros Hb Hwin [|kc n _ _|e [He Hp Hs _]|e since changes data failed Hrow Hph Hid Hs Hf Hp|e [He Hp Hs _]|e [He Hp Hs _]|row Hrow].
  - apply (told_silent None); [done|done|]. unfold silent. by rewrite app_nil_r.
  - apply (told_silent None); [done|by constructor|]. unfold silent. by rewrite claim_app, state_app, windows_app.
  - apply (told_silent (Some e)); [intros e' [= <-]; split; [done|intros E; rewrite E, !elem_of_cons, elem_of_nil in Hs; by destruct Hs as [?|[?|?]]]|done|]. unfold silent. by rewrite app_nil_r.
  - apply (told_digest e since now changes data failed); try done. by apply Hwin.
  - assert (Hsays : claim id (tr ++ [Recorded e true]) = claim id tr /\ edge_state id (tr ++ [Recorded e true]) = ae_State e /\ windows id (tr ++ [Recorded e true]) = windows id tr).
    { rewrite claim_app, state_app, windows_app. cbn. rewrite He, String.eqb_refl. rewrite !elem_of_cons, elem_of_nil in Hs. by destruct (ae_Payload e), Hs as [->|[->|[]]]. }
    destruct Hsays as (Ec & Es & Ew). unfold updateLastState. destruct (rules (tables sys) !! id) as [row|] eqn:Hrow.
    + apply (told_row row); try done; [by constructor|]. split; [|by rewrite Es]. rewrite Ec. by destruct (ai_rows _ _ _ Hinv id row Hrow).
    + constructor; rewrite ?Hrow; try done; [exists None; cbn; by rewrite app_nil_r|by constructor].
  - apply (told_silent None); [done|by constructor|]. unfold silent. rewrite claim_app, state_app, windows_app. cbn. rewrite He, String.eqb_refl. by destruct (ae_Payload e).
  - apply (told_row row); try done; [by constructor| |by rewrite windows_app]. unfold row_told. rewrite claim_app, state_app. cbn. rewrite String.eqb_refl. split; [done|]. by destruct (ai_rows _ _ _ Hinv id row Hrow).
Qed.
End Told.

(** That an evaluation is over changes none of it. *)
Lemma told_ended w id tr db db' ns : told w id tr db db' ns -> told w id tr db db' (ns ++ [Ended w id]).
Proof.
  intros [Ha Hc Hr Hrow Hev Hn Ht]. assert (Hs : forall x, claim x (tr ++ ns ++ [Ended w id]) = claim x (tr ++ ns) /\ edge_state x (tr ++ ns ++ [Ended w id]) = edge_state x (tr ++ ns) /\
    windows x (tr ++ ns ++ [Ended w id]) = windows x (tr ++ ns)).
  { intros x. rewrite app_assoc, claim_app, state_app, windows_app. done. }
  destruct (Hs id) as (Ec & Es & Ew). constructor; try done.
  - unfold row_told. by rewrite Ec, Es.
  - apply Forall_app. split; [done|by constructor].
  - rewrite Ew. intros Hrow' Hap. apply Ht; [done|]. rewrite app_assoc in Hap. by apply apart_prefix in Hap.
Qed.

(** ** Steps keep the invariant *)

Lemma effect_busy id r ph now db db' ns i tr : effect id r ph now db db' ns -> busy i (tr ++ ns) = busy i tr.
Proof. by intros []; rewrite ?app_nil_r, ?busy_app. Qed.

Lemma told_grow w id tr db db' ns : told w id tr db db' ns -> tables_grow db db'.
Proof. intros [Ha Hc _ _ _ _ _]. split; [rewrite Ha; intros p pr Hp; by exists pr|by rewrite Hc]. Qed.

Lemma quiet_state x tr ns : Forall unrecorded ns -> edge_state x (tr ++ ns) = edge_state x tr.
Proof.
  rewrite state_app. generalize (edge_state x tr). induction ns as [|n ns IH]; intros s Hq; [done|]. apply Forall_cons in Hq as [Hn Hq]. cbn.
  by destruct n; cbn in Hn |- *; try apply IH.
Qed.

Lemma head_only alone tr sys w ev kr rest : alert_inv alone tr sys -> scans sys !! w = Some ev -> ev_rules ev = kr :: rest ->
  forall i, w ∈ busy i tr <-> i = kr.1 /\ is_Some (ev_turn ev).
Proof.
  intros Hinv Hsc Hl i. rewrite (ai_busy _ _ _ Hinv w i). split.
  - intros (ev' & r & ph & Hev & Hc). rewrite Hsc in Hev. injection Hev as <-. unfold current in Hc. rewrite Hl in Hc. destruct (ev_turn ev); [|done]. by injection Hc as <- _ _.
  - intros [-> [ph Hph]]. exists ev, kr.2, ph. split; [done|]. unfold current. by rewrite Hl, Hph.
Qed.

Lemma not_evaluating w sys : (forall ev, scans sys !! w = Some ev -> current ev = None) -> forall i, ~ evaluating sys w i.
Proof. intros Hn i (ev & r & ph & Hev & Hc). by rewrite (Hn ev Hev) in Hc. Qed.

(** An evaluator that is not at a rule scans, skips a rule or stops. *)
Lemma inv_idle alone tr sys sys' w : alert_inv alone tr sys -> tables sys' = tables sys -> born sys' = born sys ->
  (forall w', w' <> w -> scans sys' !! w' = scans sys !! w') -> (forall ev, scans sys !! w = Some ev -> current ev = None) ->
  (forall ev, scans sys' !! w = Some ev -> current ev = None /\ evaluator_ok tr sys' ev /\ (w = "self" -> alone = true -> unmoved tr ev)) -> alert_inv alone tr sys'.
Proof.
  intros [Hk Hh Hb Hf Hr Ht Hs Hbusy Ha] Et Eb Hsc Hidle Hnew. constructor; rewrite ?Et, ?Eb; try done.
  - intros w' ev Hw. destruct (decide (w' = w)) as [->|Hne]; [by apply Hnew|]. rewrite (Hsc w' Hne) in Hw. destruct (Hs w' ev Hw) as [Hrows Hph]. by constructor; rewrite Et, ?Eb.
  - intros w' i. rewrite Hbusy. destruct (decide (w' = w)) as [->|Hne]; [|unfold evaluating; by rewrite (Hsc w' Hne)].
    split; intros He; exfalso; revert He; apply not_evaluating; [done|]. intros ev Hw. by apply Hnew.
  - intros Hal ev Hw. destruct (decide (w = "self")) as [->|Hne]; [by apply Hnew|]. rewrite Hsc in Hw by congruence. by apply Ha.
Qed.

Lemma unmoved_rest tr ns now id r rest t t' : Forall (fun n => note_rule n = id) ns ->
  unmoved tr {| ev_now := now; ev_rules := (id, r) :: rest; ev_turn := t |} -> unmoved (tr ++ ns) {| ev_now := now; ev_rules := rest; ev_turn := t' |}.
Proof.
  intros Hns [Hnd Hst]. cbn in Hnd, Hst. apply NoDup_cons in Hnd as [Hout Hnd]. split; [done|]. cbn. intros i q Hq.
  assert (Hne : i <> id) by (intros ->; apply Hout, list_elem_of_fmap; by exists (id, q)).
  destruct (notes_elsewhere i ns) with (tr := tr) as (_ & -> & _); [eapply Forall_impl; [exact Hns|]; intros n E E'; congruence|]. apply Hst. by right.
Qed.

(** A call of an evaluation, or its end half-way: the evaluator is at the next phase, or past
    the rule, or gone. *)
Lemma inv_turn alone tr sys sys' w now id r rest ph ns next : alert_inv alone tr sys ->
  scans sys !! w = Some {| ev_now := now; ev_rules := (id, r) :: rest; ev_turn := Some ph |} -> effect id r ph now (tables sys) (tables sys') ns ->
  next_ok (tables sys) (tables sys') id r now ph next -> (next = None \/ Forall unrecorded ns) -> born sys' = born sys ->
  (forall w', w' <> w -> scans sys' !! w' = scans sys !! w') ->
  (scans sys' !! w = Some (advanced now (id, r) rest next) \/ (next = None /\ scans sys' !! w = None)) ->
  (alone = true -> w = "self") -> alert_inv alone (tr ++ ns ++ ended_notes w id next) sys'.
Proof.
  intros Hinv Hsc Heff Hnext Hquiet Eb Hothers Hev Hself. pose proof (ai_evs _ _ _ Hinv w _ Hsc) as [Hrows Hph]. destruct (Hph id r ph eq_refl) as [Hok Hwin].
  destruct (Hrows id r ltac:(left)) as [Hhome Hid]. pose proof (head_only _ _ _ _ _ _ _ Hinv Hsc eq_refl) as Hbusy. cbn [fst ev_turn] in Hbusy.
  assert (Hin : w ∈ busy id tr) by by apply Hbusy. pose proof (effect_told w id alone tr sys Hinv r ph now _ _ Hin Hwin Heff) as Htold.
  assert (Hb : forall i, busy i (tr ++ ns ++ ended_notes w id next) = match next with Some _ => busy i tr | None => if decide (i = id) then busy i tr ∖ {[w]} else busy i tr end).
  { intros i. rewrite app_assoc. destruct next; cbn [ended_notes]; [rewrite app_nil_r; by apply (effect_busy id r ph now (tables sys) (tables sys'))|].
    rewrite busy_app, (effect_busy id r ph now (tables sys) (tables sys')) by done. cbn. destruct (decide (i = id)) as [->|Hne]; [by rewrite String.eqb_refl|]. by destruct (String.eqb_spec id i). }
  assert (Hmove : move w id tr sys sys' (ns ++ ended_notes w id next)); [|by apply (inv_move w id tr sys sys' _ Hmove alone)].
  assert (Htold' : told w id tr (tables sys) (tables sys') (ns ++ ended_notes w id next)) by (destruct next; cbn [ended_notes]; [by rewrite app_nil_r|by apply told_ended]).
  constructor; [done|by split|done| | | |].
  - intros w' Hne. rewrite Hb. destruct next; [done|]. rewrite decide_True by done. rewrite elem_of_difference, elem_of_singleton. split; [by intros [? _]|by split].
  - intros i. rewrite Hb. destruct next as [ph'|].
    + destruct Hev as [Hev|[? _]]; [|done]. rewrite Hbusy. split.
      * intros [-> _]. by exists (advanced now (id, r) rest (Some ph')), r, ph'.
      * intros (ev & r' & ph'' & Hw & Hc). rewrite Hev in Hw. injection Hw as <-. cbn in Hc. by injection Hc as <- _ _.
    + split; [|intros He; exfalso; revert He; apply not_evaluating; intros ev Hw; destruct Hev as [Hev|[_ Hev]]; rewrite Hev in Hw; [|done]; injection Hw as <-; cbn; by destruct rest].
      destruct (decide (i = id)) as [->|Hne]; [rewrite elem_of_difference, elem_of_singleton; by intros [_ []]|]. rewrite Hbusy. by intros [-> _].
  - intros ev Hw. destruct Hev as [Hev|[_ Hev]]; rewrite Hev in Hw; [|done]. injection Hw as <-. constructor.
    + intros i q Hq. destruct (Hrows i q) as [Hh Hi]; [destruct next; [done|by right]|]. split; [by apply (channels_home_grow (tables sys)), Hh; apply (told_grow _ _ _ _ _ _ Htold)|by rewrite Eb].
    + intros i q ph' Hc. destruct next as [ph''|]; [|cbn in Hc; by destruct rest]. cbn in Hc. injection Hc as <- <- ->. destruct (Hnext ph' eq_refl) as [Hok' Hw']. split; [done|].
      intros since Hs Hrow Hap. destruct Hw' as [?|[Et [E|E]]]; [congruence| |].
      * unfold digest_since. rewrite Et in Hrow |- *. apply Hwin; [congruence|done|by apply apart_prefix in Hap].
      * rewrite Et. cbn. congruence.
  - intros -> Hun ev Hw. destruct Hev as [Hev|[_ Hev]]; rewrite Hev in Hw; [|done]. injection Hw as <-. pose proof (Hun _ Hsc) as Hold.
    destruct next as [ph'|]; [|apply (unmoved_rest tr _ now id r rest (Some ph)); [apply (td_notes _ _ _ _ _ _ Htold')|done]].
    destruct Hquiet as [?|Hquiet]; [done|]. destruct Hold as [Hnd Hst]. split; [done|]. intros i q Hq. cbn [ended_notes]. rewrite app_nil_r, quiet_state by done. by apply Hst.
Qed.

(** A step of an evaluator that is not at a rule. *)
Record step_idle (sys sys' : alert_system) (ns : list alert_note) (w : string) : Prop := {
  si_tables : tables sys' = tables sys;
  si_born : born sys' = born sys;
  si_scans : forall w', w' <> w -> scans sys' !! w' = scans sys !! w';
  si_before : forall ev, scans sys !! w = Some ev -> current ev = None;
  si_after : forall ev, scans sys' !! w = Some ev -> ev_turn ev = None /\
    (ev_rules ev = DueAlertRules (tables sys) \/ exists old kr, scans sys !! w = Some old /\ ev_rules old = kr :: ev_rules ev);
  si_notes : ns = [];
}.

(** A claim: the row was free for the evaluator's clock. *)
Record step_claimed (sys sys' : alert_system) (ns : list alert_note) (w : string) (now : Z) (id : string) (r : AlertRule) (rest : list (string * AlertRule)) (row : AlertRule) : Prop := {
  sc_before : scans sys !! w = Some {| ev_now := now; ev_rules := (id, r) :: rest; ev_turn := None |};
  sc_row : rules (tables sys) !! id = Some row;
  sc_free : match ar_LastEvalAt row with None => True | Some last => last < pg_time (now - 50 * second) end;
  sc_after : sys' = with_scan w (advanced now (id, r) rest (Some Begun)) (with_tables (with_rules (<[id := with_eval (Some (pg_time now)) row]> (rules (tables sys))) (tables sys)) sys);
  sc_notes : ns = [Claimed w id now];
}.

(** A call of an evaluation, or its end. *)
Record step_called (sys sys' : alert_system) (ns : list alert_note) (w : string) (now : Z) (id : string) (r : AlertRule) (rest : list (string * AlertRule))
    (ph : turn_phase) (did : list alert_note) (next : option turn_phase) : Prop := {
  sl_before : scans sys !! w = Some {| ev_now := now; ev_rules := (id, r) :: rest; ev_turn := Some ph |};
  sl_effect : effect id r ph now (tables sys) (tables sys') did;
  sl_next : next_ok (tables sys) (tables sys') id r now ph next;
  sl_quiet : next = None \/ Forall unrecorded did;
  sl_born : born sys' = born sys;
  sl_scans : forall w', w' <> w -> scans sys' !! w' = scans sys !! w';
  sl_after : scans sys' !! w = Some (advanced now (id, r) rest next) \/ (next = None /\ scans sys' !! w = None);
  sl_notes : ns = did ++ ended_notes w id next;
}.

Inductive step_case (sys sys' : alert_system) (ns : list alert_note) : Prop :=
| case_edit new dropped : step_edit sys sys' ns new dropped -> step_case sys sys' ns
| case_idle w : step_idle sys sys' ns w -> step_case sys sys' ns
| case_claimed w now id r rest row : step_claimed sys sys' ns w now id r rest row -> step_case sys sys' ns
| case_called w now id r rest ph did next : step_called sys sys' ns w now id r rest ph did next -> step_case sys sys' ns.

Lemma claim_case sys w world now id r rest db claimed : scans sys !! w = Some {| ev_now := now; ev_rules := (id, r) :: rest; ev_turn := None |} ->
  claim_due calendar world id r now (tables sys) = (db, claimed) ->
  step_case sys (with_scan w (advanced now (id, r) rest (if claimed then Some Begun else None)) (with_tables db sys)) (if claimed then [Claimed w id now] else []).
Proof.
  intros Hsc Hcl. assert (Hskip : (tables sys, false) = (db, claimed) ->
    step_case sys (with_scan w (advanced now (id, r) rest (if claimed then Some Begun else None)) (with_tables db sys)) (if claimed then [Claimed w id now] else [])).
  { intros [= <- <-]. apply (case_idle _ _ _ w). constructor; try done.
    - intros w' Hne. cbn. by rewrite lookup_insert_ne.
    - intros ev. rewrite Hsc. by intros [= <-].
    - intros ev. cbn. rewrite lookup_insert_eq. intros [= <-]. split; [done|]. right. by eexists _, _. }
  unfold claim_due, ClaimAlertRuleForEval in Hcl. destruct (negb (due _ _ _) || negb (ew_claims world)); [by apply Hskip|].
  destruct (rules (tables sys) !! id) as [row|] eqn:Hrow; [|by apply Hskip]. destruct (match ar_LastEvalAt row with None => true | Some last => last <? _ end) eqn:Hfree; [|by apply Hskip].
  injection Hcl as <- <-. apply (case_claimed _ _ _ w now id r rest row). constructor; try done. destruct (ar_LastEvalAt row); [by apply Z.ltb_lt|done].
Qed.

Lemma stop_case sys w ev : scans sys !! w = Some ev -> (forall id r ph, current ev = Some (id, r, ph) -> phase_ok (tables sys) id r ph) ->
  step_case sys (without_scan w sys) (stop_notes w ev).
Proof.
  intros Hsc Hok. assert (Hoff : forall w', w' <> w -> scans (without_scan w sys) !! w' = scans sys !! w') by (intros w' Hne; cbn; by rewrite lookup_delete_ne).
  assert (Hgone : scans (without_scan w sys) !! w = None) by apply lookup_delete_eq. unfold stop_notes. destruct (current ev) as [[[id r] ph]|] eqn:Hc.
  - specialize (Hok id r ph eq_refl). destruct ev as [now [|[id' r'] rest] [ph'|]]; try done. injection Hc as -> -> ->.
    apply (case_called _ _ _ w now id r rest ph (unfinished ph) None). constructor; try done; [|by left|by right].
    destruct ph; cbn [unfinished]; by constructor.
  - apply (case_idle _ _ _ w). constructor; try done; intros ev'; [rewrite Hsc; by intros [= <-]|by rewrite Hgone].
Qed.

Lemma step_cases alone tr sys sys' ns : alert_inv alone tr sys -> alert_step sys sys' ns -> step_case sys sys' ns.
Proof.
  intros Hinv Hstep. pose proof (ai_keys _ _ _ Hinv) as Hkeys.
  destruct Hstep as [hash acc Hacc|now id user p r db row Hb Hc|user p id r db Hu|user p id u db Hu Hd|now att id user ws ch Hu|now att id p Hb|w now Hfree|w world now id r rest db claimed Hsc Hcl
    |w world now id r rest ph db ns next Hsc Hnext|w ev Hsc].
  - apply (case_edit _ _ _ None None). constructor; [by apply (edit_account hash)|done..].
  - apply (case_edit _ _ _ (Some id) None). constructor; [by apply (edit_create now id user p r _ _ row)|done..].
  - apply (case_edit _ _ _ None None). constructor; [by apply (edit_update user p id r)|done..].
  - apply (case_edit _ _ _ None (if is_some (rules (tables sys) !! u) && negb (is_some (rules db !! u)) then Some u else None)). constructor; [by apply (edit_delete user p id)|done..|].
    by destruct (is_some (rules (tables sys) !! u) && negb (is_some (rules db !! u))).
  - apply (case_edit _ _ _ None None). constructor; [by apply edit_channel|done..].
  - apply (case_edit _ _ _ (Some id) None). constructor; [by apply edit_seed|done..].
  - apply (case_idle _ _ _ w). constructor; try done.
    + intros w' Hne. cbn. by rewrite lookup_insert_ne.
    + intros ev Hw. rewrite Hw in Hfree. unfold current. by rewrite Hfree.
    + intros ev. cbn. rewrite lookup_insert_eq. intros [= <-]. split; [done|by left].
  - by apply (claim_case _ _ world).
  - destruct (ek_phase _ _ _ (ai_evs _ _ _ Hinv w _ Hsc) id r ph eq_refl) as [Hok _]. destruct (turn_next_effect _ _ _ _ _ _ _ _ _ Hok Hnext) as (He & Hn & Hq).
    apply (case_called _ _ _ w now id r rest ph ns next). constructor; try done; [intros w' Hne; cbn; by rewrite lookup_insert_ne|left; apply lookup_insert_eq].
  - apply stop_case; [done|]. intros id r ph Hc. by destruct (ek_phase _ _ _ (ai_evs _ _ _ Hinv w _ Hsc) id r ph Hc) as [Hok _].
Qed.

(** A scan reads rows, each once. *)
Lemma due_rows (db : alert_db alert_payload) : (forall id r, (id, r) ∈ DueAlertRules db -> rules db !! id = Some r) /\ NoDup ((DueAlertRules db).*1).
Proof.
  unfold DueAlertRules. split.
  - intros id r Hin. rewrite (merge_sort_Permutation (by_creation ar_CreatedAt)), list_elem_of_In, filter_In, <- list_elem_of_In in Hin.
    destruct Hin as [Hin _]. by apply elem_of_map_to_list in Hin.
  - rewrite (merge_sort_Permutation (by_creation ar_CreatedAt)). apply (sublist_NoDup _ ((map_to_list (rules db)).*1)); [apply NoDup_fst_map_to_list|].
    induction (map_to_list (rules db)) as [|kr l IH]; [constructor|]. cbn. destruct (ar_Enabled kr.2); by constructor.
Qed.

Lemma inv_idle_step alone tr sys sys' ns w : alert_inv alone tr sys -> step_idle sys sys' ns w -> alert_inv alone (tr ++ ns) sys'.
Proof.
  intros Hinv [Et Eb Hsc Hbefore Hafter ->]. rewrite app_nil_r. apply (inv_idle alone tr sys sys' w); try done. intros ev Hw. destruct (Hafter ev Hw) as [Hturn Hrules].
  assert (Hc : current ev = None) by (unfold current; rewrite Hturn; by destruct (ev_rules ev)). destruct (due_rows (tables sys)) as [Hrows Hnd].
  assert (Hall : forall id r, (id, r) ∈ ev_rules ev -> rule_home (tables sys) r /\ id ∈ born sys).
  { intros id r Hr. destruct Hrules as [E|(old & kr & Hold & E)].
    - rewrite E in Hr. apply Hrows in Hr. split; [by apply (ai_home _ _ _ Hinv id)|by apply (ai_born _ _ _ Hinv id r)].
    - apply (ek_rows _ _ _ (ai_evs _ _ _ Hinv w old Hold)). rewrite E. by right. }
  split_and!; [done|constructor; [rewrite Et, Eb; apply Hall|by rewrite Hc]|]. intros -> Hal. destruct Hrules as [E|(old & kr & Hold & E)].
  - split; rewrite E; [done|]. intros id r Hr. apply Hrows in Hr. by apply (ai_rows _ _ _ Hinv id r).
  - destruct (ai_self _ _ _ Hinv Hal old Hold) as [Hn Hst]. rewrite E in Hn, Hst. cbn in Hn. apply NoDup_cons in Hn as [_ Hn]. split; [done|]. intros id r Hr. apply Hst. by right.
Qed.

Lemma inv_claimed alone tr sys sys' ns w now id r rest row : alert_inv alone tr sys -> step_claimed sys sys' ns w now id r rest row -> (alone = true -> w = "self") ->
  alert_inv alone (tr ++ ns) sys'.
Proof.
  intros Hinv [Hsc Hrow Hfree -> ->] Hself. pose proof (ai_evs _ _ _ Hinv w _ Hsc) as [Hrows _]. destruct (Hrows id r ltac:(left)) as [Hhome Hid].
  pose proof (head_only _ _ _ _ _ _ _ Hinv Hsc eq_refl) as Hbusy. cbn [fst ev_turn] in Hbusy.
  set (db' := with_rules _ (tables sys)). assert (Htold : told w id tr (tables sys) db' [Claimed w id now]).
  { apply (told_row w id alone tr sys Hinv row); try done; [by constructor| |by rewrite windows_app]. unfold row_told. rewrite claim_app, state_app. cbn. rewrite String.eqb_refl.
    split; [done|]. by destruct (ai_rows _ _ _ Hinv id row Hrow). }
  assert (Hafter : scans (with_scan w (advanced now (id, r) rest (Some Begun)) (with_tables db' sys)) !! w = Some (advanced now (id, r) rest (Some Begun))) by apply lookup_insert_eq.
  apply (inv_move w id tr sys _ [Claimed w id now]); [|done|done]. constructor; [done|by split| | | | |].
  - intros w' Hne. cbn. by rewrite lookup_insert_ne.
  - intros w' Hne. rewrite busy_app. cbn. rewrite String.eqb_refl, elem_of_union, elem_of_singleton. split; [by intros [?|?]|by right].
  - intros i. rewrite busy_app. cbn. destruct (String.eqb_spec id i) as [<-|Hne].
    + rewrite elem_of_union, elem_of_singleton. split; [|by left]. intros _. by eexists _, r, Begun.
    + rewrite Hbusy. split; [by intros [-> _]|]. intros (ev & r' & ph & Hw & Hc). rewrite Hafter in Hw. injection Hw as <-. cbn in Hc. by injection Hc as ? _ _.
  - intros ev. rewrite Hafter. intros [= <-]. constructor.
    + intros i q Hq. destruct (Hrows i q Hq) as [Hh Hi]. split; [|done]. apply (channels_home_grow (tables sys)), Hh. by apply (told_grow _ _ _ _ _ _ Htold).
    + intros i q ph Hc. cbn in Hc. injection Hc as <- <- <-. by split.
  - intros -> Hun ev. rewrite Hafter. intros [= <-]. destruct (Hun _ Hsc) as [Hnd Hst]. split; [done|]. intros i q Hq. rewrite state_app. by apply Hst.
Qed.

(** Whether a run is of one evaluator is a fact of each of its systems. *)
Definition by_self (alone : bool) (sys : alert_system) : Prop := alone = true -> forall w, w <> "self" -> scans sys !! w = None.

Lemma by_self_at alone sys w ev : by_self alone sys -> scans sys !! w = Some ev -> alone = true -> w = "self".
Proof. intros Hself Hw Hal. destruct (decide (w = "self")) as [|Hne]; [done|]. by rewrite (Hself Hal w Hne) in Hw. Qed.

Lemma run_inv acc alone tr sys : alert_run acc alone tr sys -> alert_inv alone tr sys /\ by_self alone sys.
Proof.
  induction 1 as [|tr sys sys' ns Hrun [Hinv Hbefore] Hstep Hself]; [by split; [apply inv_start|]|]. split; [|done].
  destruct (step_cases alone tr sys sys' ns Hinv Hstep) as [new dropped He|w Hi|w now id r rest row Hc|w now id r rest ph did next Hc].
  - by apply (inv_edit alone tr sys sys' ns new dropped).
  - by apply (inv_idle_step alone tr sys sys' ns w).
  - apply (inv_claimed alone tr sys sys' ns w now id r rest row); [done|done|]. by apply (by_self_at _ _ _ _ Hbefore (sc_before _ _ _ _ _ _ _ _ _ Hc)).
  - destruct Hc as [Hsc Heff Hnext Hq Eb Hothers Hafter ->]. apply (inv_turn alone tr sys sys' w now id r rest ph did next); try done.
    by apply (by_self_at _ _ _ _ Hbefore Hsc).
Qed.

(** ** A note and what came before it *)

Lemma note_one (x : alert_note) mid n post : [x] = mid ++ n :: post -> mid = [] /\ n = x.
Proof. destruct mid as [|m [|]]; intros E; try done. by injection E as <- _. Qed.

(** A call leaves at most one note of its own. *)
Lemma effect_note id r ph now db db' ns mid n post : effect id r ph now db db' ns -> ns = mid ++ n :: post -> mid = [] /\ ns = [n].
Proof. intros [] E; try (by destruct mid); by apply note_one in E as [-> ->]. Qed.

(** A property of the notes of claims and calls, at the traces before them, holds all along a run. *)
Lemma run_notes acc alone (Q : list alert_note -> alert_note -> Prop) :
  (forall tr sys sys' ns w now id r rest row, alert_inv alone tr sys -> by_self alone sys -> step_claimed sys sys' ns w now id r rest row -> Q tr (Claimed w id now)) ->
  (forall tr sys w now id r rest ph db' n, alert_inv alone tr sys -> scans sys !! w = Some {| ev_now := now; ev_rules := (id, r) :: rest; ev_turn := Some ph |} ->
    (alone = true -> w = "self") -> effect id r ph now (tables sys) db' [n] -> Q tr n) ->
  (forall pre u, Q pre (Dropped u)) -> (forall pre w u, Q pre (Ended w u)) ->
  forall tr sys, alert_run acc alone tr sys -> forall pre n post, tr = pre ++ n :: post -> Q pre n.
Proof.
  intros Hclaim Hcall Hdrop Hend tr sys. induction 1 as [|tr sys sys' ns Hrun IH Hstep Hself]; intros pre n post E; [by destruct pre|].
  apply app_cons_split in E as [[post' E]|(mid & -> & E)]; [by apply (IH pre n post')|].
  destruct (run_inv _ _ _ _ Hrun) as [Hinv Hbefore]. destruct (step_cases alone tr sys sys' ns Hinv Hstep) as [new dropped He|w Hi|w now id r rest row Hc|w now id r rest ph did next Hc].
  - rewrite (se_notes _ _ _ _ _ He) in E. destruct dropped as [u|]; [|by destruct mid]. by apply note_one in E as [-> ->].
  - rewrite (si_notes _ _ _ _ Hi) in E. by destruct mid.
  - rewrite (sc_notes _ _ _ _ _ _ _ _ _ Hc) in E. apply note_one in E as [-> ->]. rewrite app_nil_r. by eapply Hclaim.
  - destruct Hc as [Hsc Heff _ _ _ _ _ ->]. apply app_cons_split in E as [[post' E]|(mid' & -> & E)].
    + destruct (effect_note _ _ _ _ _ _ _ _ _ _ Heff E) as [-> Ed]. rewrite app_nil_r. rewrite Ed in Heff. eapply Hcall; [exact Hinv|exact Hsc|by apply (by_self_at _ _ _ _ Hbefore Hsc)|exact Heff].
    + destruct next; [by destruct mid'|]. by apply note_one in E as [-> ->].
Qed.

Definition spaced (pre : list alert_note) (n : alert_note) : Prop :=
  match n with
  | Claimed _ id now => match claim id pre with Some last => last < pg_time (now - 50 * second) | None => True end
  | _ => True
  end.

Lemma run_spaced acc alone tr sys : alert_run acc alone tr sys -> forall pre n post, tr = pre ++ n :: post -> spaced pre n.
Proof.
  apply run_notes; [|intros tr' sys0 w now id r rest ph db' n _ _ _ Heff; by inversion Heff|done..]. intros tr' sys0 sys' ns w now id r rest row Hinv _ Hc. cbn.
  destruct (ai_rows _ _ _ Hinv id row (sc_row _ _ _ _ _ _ _ _ _ Hc)) as [<- _]. apply (sc_free _ _ _ _ _ _ _ _ _ Hc).
Qed.

(** Nothing announced twice: of one evaluator. *)
Definition once (pre : list alert_note) (n : alert_note) : Prop :=
  match n with
  | Sent id _ _ _ n => nt_Level n = "firing" -> edge_state id pre <> "firing"
  | Recorded e _ => ae_State e <> "digest" -> ae_State e ∈ ["firing"; "ok"] /\ ae_State e <> edge_state (ae_RuleID e) pre
  | _ => True
  end.

Lemma run_once acc tr sys : alert_run acc true tr sys -> forall pre n post, tr = pre ++ n :: post -> once pre n.
Proof.
  apply run_notes; [done| |done..]. intros tr' sys0 w now id r rest ph db' n Hinv Hsc Hself Heff. specialize (Hself eq_refl). subst w.
  destruct (ai_self _ _ _ Hinv eq_refl _ Hsc) as [_ Hst]. specialize (Hst id r ltac:(left)).
  inversion Heff as [|kc m Hn Hl|e He|e since changes data failed Hrow Hph Hid Hs|e He|e He|row Hrow]; subst; cbn; try done.
  - intros E. rewrite <- Hst. by apply Hl.
  - intros _. destruct He as [-> _ Hin Hne]. by rewrite <- Hst.
  - intros _. destruct He as [-> _ Hin Hne]. by rewrite <- Hst.
Qed.

(** ** Where notifications go *)

Definition sent_home (db : alert_db alert_payload) (n : alert_note) : Prop :=
  match n with
  | Sent _ r u ch _ => channels db !! u = Some ch /\ exists pr, projects (accounts db) !! ar_ProjectID r = Some pr /\ r_Workspace pr = ch_WorkspaceID ch
  | _ => True
  end.

Lemma sent_home_grow db db' n : tables_grow db db' -> sent_home db n -> sent_home db' n.
Proof.
  intros [Hp Hc]. destruct n; try done. intros [Hch (pr & Hpr & E)]. split; [by apply Hc|]. destruct (Hp _ _ Hpr) as (pr' & Hpr' & E'). exists pr'. split; [done|congruence].
Qed.

Lemma named_home db id r kc n : rule_home db r -> named r db kc -> sent_home db (Sent id r kc.1 kc.2 n).
Proof.
  intros Hh [(us & Hus & Hin) Hch]. split; [done|]. destruct (uuids_source _ _ Hus _ Hin) as (i & Hi & Hu). destruct (Hh i Hi) as (v & ch & pr & Hv & Hch' & Hpr & E).
  exists pr. split; [done|]. congruence.
Qed.

Lemma effect_home id r ph now db db' ns : rule_home db r -> effect id r ph now db db' ns -> Forall (sent_home db) ns.
Proof. intros Hh []; try by repeat constructor. constructor; [by apply named_home|done]. Qed.

Lemma step_home alone tr sys sys' ns : alert_inv alone tr sys -> alert_step sys sys' ns ->
  tables_grow (tables sys) (tables sys') /\ Forall (sent_home (tables sys)) ns.
Proof.
  intros Hinv Hstep. destruct (step_cases alone tr sys sys' ns Hinv Hstep) as [new dropped He|w Hi|w now id r rest row Hc|w now id r rest ph did next Hc].
  - split; [apply (eo_grow _ _ _ _ (se_edit _ _ _ _ _ He))|]. rewrite (se_notes _ _ _ _ _ He). destruct dropped; by repeat constructor.
  - rewrite (si_tables _ _ _ _ Hi), (si_notes _ _ _ _ Hi). by split.
  - rewrite (sc_after _ _ _ _ _ _ _ _ _ Hc), (sc_notes _ _ _ _ _ _ _ _ _ Hc). split; [apply grow_rules|by constructor].
  - destruct Hc as [Hsc Heff _ _ _ _ _ ->]. pose proof (ai_evs _ _ _ Hinv w _ Hsc) as [Hrows Hph]. destruct (Hph id r ph eq_refl) as [_ Hwin].
    assert (Hb : w ∈ busy id tr) by by apply (head_only _ _ _ _ _ _ _ Hinv Hsc eq_refl).
    split; [apply (told_grow _ _ _ _ _ _ (effect_told w id alone tr sys Hinv r ph now _ _ Hb Hwin Heff))|]. apply Forall_app. split; [|destruct next; by repeat constructor].
    apply (effect_home id r ph now _ (tables sys')); [|done]. by apply (Hrows id r ltac:(left)).
Qed.

Lemma run_home acc alone tr sys : alert_run acc alone tr sys -> Forall (sent_home (tables sys)) tr.
Proof.
  induction 1 as [|tr sys sys' ns Hrun IH Hstep _]; [constructor|]. destruct (run_inv _ _ _ _ Hrun) as [Hinv _]. destruct (step_home alone tr sys sys' ns Hinv Hstep) as [Hg Hns].
  apply Forall_app. split; (eapply Forall_impl; [eassumption|]); intros n; by apply sent_home_grow.
Qed.

(** C30: a notification of a rule reaches only channels of the workspace its project belongs
    to, whatever members did to rules, channels and accounts before it and since, and however
    many evaluators work through scans that have gone stale. *)
Theorem alerts_stay_in_their_workspace acc alone tr sys id r u ch n : alert_run acc alone tr sys -> Sent id r u ch n ∈ tr ->
  channels (tables sys) !! u = Some ch /\ exists pr, projects (accounts (tables sys)) !! ar_ProjectID r = Some pr /\ r_Workspace pr = ch_WorkspaceID ch.
Proof. intros Hrun Hin. apply run_home in Hrun. rewrite Forall_forall in Hrun. by apply (Hrun _ Hin). Qed.

(** ** How often a rule is evaluated *)

Definition undone (id : string) (n : alert_note) : Prop := match n with Freed i | Dropped i => i <> id | _ => True end.

Lemma claim_grows acc alone tr sys w id now mid : alert_run acc alone tr sys -> Forall (undone id) mid ->
  forall pre post, tr = pre ++ Claimed w id now :: mid ++ post -> exists last, claim id (pre ++ Claimed w id now :: mid) = Some last /\ pg_time now <= last.
Proof.
  intros Hrun. induction mid as [|n mid IH] using rev_ind; intros Hmid pre post E.
  - exists (pg_time now). rewrite claim_app. cbn. by rewrite String.eqb_refl.
  - apply Forall_app in Hmid as [Hmid Hn]. apply Forall_cons in Hn as [Hn _]. rewrite <- app_assoc in E. cbn in E. destruct (IH Hmid pre (n :: post) E) as (last & Hlast & Hle).
    change (pre ++ Claimed w id now :: mid ++ [n]) with (pre ++ (Claimed w id now :: mid) ++ [n]). rewrite app_assoc, claim_app. cbn [fold_left]. rewrite Hlast.
    destruct n as [v i t|i r u ch nt|e b|i|v i|i]; cbn in Hn |- *; try (by exists last); destruct (String.eqb_spec i id) as [->|Hne]; try done; try (by exists last).
    exists (pg_time t). split; [done|]. assert (Hs : spaced (pre ++ Claimed w id now :: mid) (Claimed v id t)).
    { apply (run_spaced _ _ _ _ Hrun _ _ post). by rewrite <- app_assoc. }
    cbn in Hs. rewrite Hlast in Hs. pose proof (pg_time_mono (t - 50 * second) t ltac:(assert (0 <= second) by done; lia)). lia.
Qed.

Lemma pg_time_seconds t : pg_time (t - 50 * second) = pg_time t - 50 * second.
Proof. unfold pg_time. change (50 * second) with (50000000 * 1000). replace (t - 50000000 * 1000) with (t + (-50000000) * 1000) by lia. rewrite Z.div_add by lia. lia. Qed.

(** Two evaluations of a rule are more than fifty seconds apart by the clocks of the
    evaluators that claimed it, however many there are and however their clocks and scans
    interleave, unless a failed digest gave its claim back in between. *)
Theorem evaluations_are_spaced acc alone tr sys w1 w2 id n1 n2 pre mid post : alert_run acc alone tr sys ->
  tr = pre ++ Claimed w1 id n1 :: mid ++ Claimed w2 id n2 :: post -> Forall (undone id) mid -> pg_time n1 + 50 * second < pg_time n2.
Proof.
  intros Hrun E Hmid. destruct (claim_grows _ _ _ _ _ _ _ _ Hrun Hmid _ _ E) as (last & Hlast & Hle).
  assert (Hs : spaced (pre ++ Claimed w1 id n1 :: mid) (Claimed w2 id n2)) by (apply (run_spaced _ _ _ _ Hrun _ _ post); by rewrite E, <- app_assoc).
  cbn in Hs. rewrite Hlast, pg_time_seconds in Hs. lia.
Qed.

(** C29: the digests of a rule tile time while its evaluations do not overlap: then every
    instant from the start of the first recorded window to the watermark, the time of the last
    one, is in exactly one recorded window, and no other instant is in any, for any number of
    evaluators, with clocks that step back, calls that fail, evaluators that stop half-way and
    edits between any two calls.  The claim does not make evaluations apart, it only spaces
    them by the evaluators' clocks; with one evaluator they are. *)
Theorem digest_windows_tile acc alone tr sys id : alert_run acc alone tr sys -> is_Some (rules (tables sys) !! id) -> apart id tr ->
  match windows id tr with
  | [] => LastDigestAlertEvent id (tables sys) = None
  | first :: _ => exists m, LastDigestAlertEvent id (tables sys) = Some m /\ pg_time first.1 <= m /\
      forall t, digests_of t (windows id tr) = if (pg_time first.1 <=? t) && (t <? m) then 1%nat else 0%nat
  end.
Proof.
  intros Hrun Hrow Hap. destruct (run_inv _ _ _ _ Hrun) as [Hinv _]. pose proof (ai_tiles _ _ _ Hinv id Hrow Hap) as Ht.
  destruct (windows id tr) as [|first ws], (LastDigestAlertEvent id (tables sys)) as [m|]; cbn in Ht; try done. destruct Ht as (? & _ & ?). by exists m.
Qed.

(** A claim of a rule nobody else is evaluating. *)
Definition claims_idle (pre : list alert_note) (n : alert_note) : Prop := match n with Claimed _ id _ => busy id pre = ∅ | _ => True end.

(** One evaluator claims nothing before it is through with what it claimed. *)
Lemma lone_evaluations_are_apart acc tr sys id : alert_run acc true tr sys -> apart id tr.
Proof.
  intros Hrun pre w now post E. enough (Hc : claims_idle pre (Claimed w id now)) by done. revert E. apply (run_notes acc true claims_idle) with (sys := sys); [| |done..|done].
  - intros tr' sys0 sys' ns w' t i r rest row Hinv Hself Hc. apply set_eq. intros v. split; [|intros Hv; by apply not_elem_of_empty in Hv].
    intros Hv. exfalso. apply (ai_busy _ _ _ Hinv) in Hv as (ev & r' & ph & Hv & Hcur). pose proof (sc_before _ _ _ _ _ _ _ _ _ Hc) as Hw.
    rewrite (by_self_at _ _ _ _ Hself Hv eq_refl) in Hv. rewrite (by_self_at _ _ _ _ Hself Hw eq_refl), Hv in Hw. injection Hw as ->. done.
  - intros tr' sys0 w' t i r rest ph db' n _ _ _ He. by inversion He.
Qed.

(** ** Alarms *)

Definition recovery (id : string) (n : alert_note) : Prop :=
  match n with Recorded e true => ae_RuleID e = id /\ ae_State e = "ok" | _ => False end.

#[export] Instance recovery_dec id n : Decision (recovery id n).
Proof. destruct n as [| |e [|]| | |]; cbn; apply _. Defined.

Lemma still_firing acc tr sys id mid : alert_run acc true tr sys -> Forall (fun n => ~ recovery id n) mid ->
  forall pre post, tr = pre ++ mid ++ post -> edge_state id pre = "firing" -> edge_state id (pre ++ mid) = "firing".
Proof.
  intros Hrun. induction mid as [|n mid IH] using rev_ind; intros Hmid pre post E Hpre; [by rewrite app_nil_r|].
  apply Forall_app in Hmid as [Hmid Hn]. apply Forall_cons in Hn as [Hn _]. rewrite <- app_assoc in E. specialize (IH Hmid pre (n :: post) E Hpre).
  rewrite app_assoc, state_app. cbn [fold_left]. rewrite IH. destruct n as [| |e [|]| | |]; try done. cbn.
  destruct (String.eqb_spec (ae_RuleID e) id) as [Hid|_]; [|done]. destruct (String.eqb_spec (ae_State e) "digest") as [|Hd]; [done|]. cbn.
  assert (Ho : once (pre ++ mid) (Recorded e true)) by (apply (run_once _ _ _ Hrun _ _ post); by rewrite E, <- app_assoc).
  destruct (Ho Hd) as [Hin _]. rewrite !elem_of_cons, elem_of_nil in Hin. destruct Hin as [?|[Hok|[]]]; [done|]. by destruct Hn.
Qed.

(** C31: with one evaluator, once a breach is recorded no further alarm goes out for the rule
    before its recovery is recorded, whatever is edited and whichever calls fail in between. *)
Theorem breach_is_announced_once acc tr sys id e pre mid r u ch n post : alert_run acc true tr sys ->
  tr = pre ++ Recorded e true :: mid ++ Sent id r u ch n :: post -> ae_RuleID e = id -> ae_State e = "firing" -> nt_Level n = "firing" ->
  Exists (recovery id) mid.
Proof.
  intros Hrun E Hid Hs Hn. destruct (decide (Exists (recovery id) mid)) as [|Hnone]; [done|]. apply Forall_Exists_neg in Hnone. exfalso.
  assert (Hfiring : edge_state id (pre ++ [Recorded e true]) = "firing") by (rewrite state_app; cbn; by rewrite Hid, Hs, String.eqb_refl).
  assert (Hstill : edge_state id ((pre ++ [Recorded e true]) ++ mid) = "firing") by (apply (still_firing _ _ _ _ _ Hrun Hnone _ (Sent id r u ch n :: post)); [by rewrite E, <- app_assoc|done]).
  assert (Ho : once ((pre ++ [Recorded e true]) ++ mid) (Sent id r u ch n)) by (apply (run_once _ _ _ Hrun _ _ post); by rewrite E, <- !app_assoc).
  by apply Ho.
Qed.
End System.
(** * Witnesses *)

#[local] Existing Instance wit_columns.
#[local] Existing Instance wit_format.
#[local] Existing Instance wit_parse.
#[local] Existing Instance wit_configs.

(** An evaluator starts a scan, makes its next call in a world whose queries read [value], or
    stops. *)
Inductive act := Scan (w : string) (now : Z) | Go (w : string) (value : Z) | Stop (w : string).

Definition actor (a : act) : string := match a with Scan w _ | Go w _ | Stop w => w end.

Definition play1 (s : list alert_note * alert_system) (a : act) : list alert_note * alert_system :=
  let '(tr, sys) := s in
  match a, scans sys !! actor a with
  | Scan w now, Some {| ev_rules := _ :: _ |} => s
  | Scan w now, _ => (tr ++ [], with_scan w {| ev_now := now; ev_rules := DueAlertRules (tables sys); ev_turn := None |} sys)
  | Go w value, Some {| ev_now := now; ev_rules := (id, r) :: rest; ev_turn := None |} =>
      let '(db, claimed) := claim_due wit_calendar (wit_world value) id r now (tables sys) in
      (tr ++ (if claimed then [Claimed w id now] else []), with_scan w (advanced now (id, r) rest (if claimed then Some Begun else None)) (with_tables db sys))
  | Go w value, Some {| ev_now := now; ev_rules := (id, r) :: rest; ev_turn := Some ph |} =>
      let '(db, ns, next) := turn_next (wit_world value) id r now ph (tables sys) in
      (tr ++ ns ++ ended_notes w id next, with_scan w (advanced now (id, r) rest next) (with_tables db sys))
  | Stop w, Some ev => (tr ++ stop_notes w ev, without_scan w sys)
  | _, _ => s
  end.

Definition play (s : list alert_note * alert_system) (acts : list act) := fold_left play1 acts s.

Lemma play1_run acc alone s a : (alone = true -> actor a = "self") -> alert_run wit_calendar acc alone s.1 s.2 -> alert_run wit_calendar acc alone (play1 s a).1 (play1 s a).2.
Proof.
  destruct s as [tr sys]. cbn [fst snd]. intros Ha Hrun. destruct (run_inv _ _ _ _ _ Hrun) as [_ Hself].
  assert (Hs : forall ev sys', scans sys' = <[actor a := ev]> (scans sys) -> by_self alone sys').
  { intros ev sys' E Hal w Hw. rewrite E, lookup_insert_ne by (rewrite Ha by done; congruence). by apply Hself. }
  unfold play1. destruct a as [w now|w value|w]; cbn [actor] in *.
  - destruct (scans sys !! w) as [[now' [|kr rest] t]|] eqn:Hsc; cbn [fst snd]; [|done|];
      (apply (run_step _ _ _ tr sys); [done|constructor; by rewrite Hsc|by eapply Hs]).
  - destruct (scans sys !! w) as [[now [|[id r] rest] [ph|]]|] eqn:Hsc; try done.
    + destruct (turn_next _ _ _ _ _ _) as [[db ns] next] eqn:Hn. cbn [fst snd]. apply (run_step _ _ _ tr sys); [done| |by eapply Hs]. by apply (step_turn wit_calendar sys w (wit_world value) now id r rest ph).
    + destruct (claim_due _ _ _ _ _ _) as [db claimed] eqn:Hc. cbn [fst snd]. apply (run_step _ _ _ tr sys); [done| |by eapply Hs]. by apply (step_claim wit_calendar sys w (wit_world value) now id r rest).
  - destruct (scans sys !! w) as [ev|] eqn:Hsc; [|done]. cbn [fst snd]. apply (run_step _ _ _ tr sys); [done|by apply step_stop|].
    intros Hal v Hv. cbn. rewrite lookup_delete_ne by (rewrite Ha by done; congruence). by apply Hself.
Qed.

Lemma acts_run acc alone acts : forall s, (alone = true -> Forall (fun a => actor a = "self") acts) -> alert_run wit_calendar acc alone s.1 s.2 ->
  alert_run wit_calendar acc alone (play s acts).1 (play s acts).2.
Proof.
  induction acts as [|a acts IH]; intros s Ha Hs; [done|]. apply IH; [intros Hal; specialize (Ha Hal); by apply Forall_cons in Ha as [_ ?]|].
  apply play1_run; [|done]. intros Hal. specialize (Ha Hal). by apply Forall_cons in Ha as [? _].
Qed.

(** Whether the claims of a trace find the rule idle. *)
Fixpoint keeps_apart (id : string) (b : gset string) (tr : list alert_note) : bool :=
  match tr with
  | [] => true
  | n :: tr => match n with Claimed _ i _ => negb (i =? id)%string || bool_decide (b = ∅) | _ => true end && keeps_apart id (busy_after id b n) tr
  end.

Lemma keeps_apart_sound id tr : keeps_apart id ∅ tr = true -> apart id tr.
Proof.
  intros Hk pre w now post ->. enough (Hall : forall b, keeps_apart id b (pre ++ Claimed w id now :: post) = true -> fold_left (busy_after id) pre b = ∅) by by apply Hall.
  clear Hk. induction pre as [|n pre IH]; intros b; cbn.
  - rewrite String.eqb_refl. cbn. intros Hk. apply andb_true_iff in Hk as [Hk _]. by apply bool_decide_eq_true in Hk.
  - intros Hk. apply andb_true_iff in Hk as [_ Hk]. by apply IH.
Qed.

(** Ann adds a channel, a rule and a digest. *)
Definition wit_added (r : result error (alert_db alert_payload * AlertRule)) : alert_db alert_payload := match r with Ok (db, _) => db | Err _ => wit_alerts end.
Definition wit_one : alert_db alert_payload := (CreateAlertChannel 1 true "c" "ann" "ws" wit_channel (tables (no_alerts wit_db))).1.
Definition wit_two : alert_db alert_payload := wit_added (CreateAlertRule 2 "r" "ann" "A" (wit_rule "sql" (f64_of_int 1)) wit_one).
Definition wit_three : alert_db alert_payload := wit_added (CreateAlertRule 3 "d" "ann" "A" (wit_rule "digest" f64_zero) wit_two).
Definition wit_ready : alert_system := {| tables := wit_three; scans := ∅; born := {["d"; "r"]} |}.

Lemma ready_run alone : alert_run wit_calendar wit_db alone [] wit_ready.
Proof.
  assert (Hno : forall (sys : alert_system), scans sys = ∅ -> by_self alone sys) by (intros sys E _ w _; rewrite E; apply lookup_empty).
  assert (Hone : alert_run wit_calendar wit_db alone [] (with_tables wit_one (no_alerts wit_db))).
  { apply (run_step _ _ _ [] (no_alerts wit_db) _ []); [constructor| |by apply Hno]. apply (step_channel _ (no_alerts wit_db) 1 true "c" "ann" "ws" wit_channel). reflexivity. }
  assert (Htwo : alert_run wit_calendar wit_db alone [] (with_born "r" (with_tables wit_two (with_tables wit_one (no_alerts wit_db))))).
  { apply (run_step _ _ _ [] _ _ [] Hone); [|by apply Hno]. eapply (step_create _ _ 2 "r" "ann" "A" (wit_rule "sql" (f64_of_int 1))); [apply not_elem_of_empty|vm_compute; reflexivity]. }
  assert (Hthree : alert_run wit_calendar wit_db alone [] (with_born "d" (with_tables wit_three (with_born "r" (with_tables wit_two (with_tables wit_one (no_alerts wit_db))))))).
  { apply (run_step _ _ _ [] _ _ [] Htwo); [|by apply Hno]. eapply (step_create _ _ 3 "d" "ann" "A" (wit_rule "digest" f64_zero)); [by vm_compute|vm_compute; reflexivity]. }
  replace wit_ready with (with_born "d" (with_tables wit_three (with_born "r" (with_tables wit_two (with_tables wit_one (no_alerts wit_db)))))); [done|].
  reflexivity.
Qed.

(** One evaluator, three minutes: the value is over the threshold, back, and over it again. *)
Definition wit_minute (now value : Z) : list act := Scan "self" now :: repeat (Go "self" value) 11.

Definition wit_minutes : list alert_note * alert_system :=
  play ([], wit_ready) (wit_minute (600 * second) 5 ++ wit_minute (660 * second) 0 ++ wit_minute (720 * second) 5).

Lemma minutes_run : alert_run wit_calendar wit_db true wit_minutes.1 wit_minutes.2.
Proof. apply acts_run; [intros _; by repeat constructor|apply ready_run]. Qed.

Lemma alerts_stay_in_their_workspace_witness : exists r ch, channels (tables wit_minutes.2) !! "c" = Some ch /\
  exists pr, projects (accounts (tables wit_minutes.2)) !! ar_ProjectID r = Some pr /\ r_Workspace pr = ch_WorkspaceID ch.
Proof.
  do 2 eexists. eapply (alerts_stay_in_their_workspace wit_calendar wit_db true wit_minutes.1 wit_minutes.2 "r"); [apply minutes_run|].
  apply (list_elem_of_lookup_2 _ 1). vm_compute. reflexivity.
Defined.

Lemma evaluations_are_spaced_witness : pg_time (600 * second) + 50 * second < pg_time (660 * second).
Proof.
  apply (evaluations_are_spaced wit_calendar wit_db true wit_minutes.1 wit_minutes.2 "self" "self" "r" (600 * second) (660 * second) [] (take 7 (drop 1 wit_minutes.1)) (drop 9 wit_minutes.1));
    [apply minutes_run|vm_compute; reflexivity|vm_compute; repeat constructor].
Defined.

(** The second alarm comes after the recovery. *)
Lemma breach_is_announced_once_witness : Exists (recovery "r") (take 14 (drop 3 wit_minutes.1)).
Proof.
  eapply (breach_is_announced_once wit_calendar wit_db wit_minutes.1 wit_minutes.2 "r" _ (take 2 wit_minutes.1) (take 14 (drop 3 wit_minutes.1)) _ _ _ _ (drop 18 wit_minutes.1));
    [apply minutes_run|vm_compute; reflexivity|vm_compute; reflexivity..].
Defined.

(** Two evaluators: the second stops with its digest assembled and not recorded, and the first
    makes up for it a minute later. *)
Definition wit_two_evaluators : list alert_note * alert_system :=
  play ([], wit_ready) (Scan "a" (600 * second) :: repeat (Go "a" 0) 9 ++ Scan "b" (660 * second) :: repeat (Go "b" 0) 5 ++
                        [Stop "b"; Scan "a" (720 * second)] ++ repeat (Go "a" 0) 9).

Lemma digest_windows_tile_witness : length (windows "d" wit_two_evaluators.1) = 2%nat /\
  match windows "d" wit_two_evaluators.1 with
  | [] => LastDigestAlertEvent "d" (tables wit_two_evaluators.2) = None
  | first :: _ => exists m, LastDigestAlertEvent "d" (tables wit_two_evaluators.2) = Some m /\ pg_time first.1 <= m /\
      forall t, digests_of t (windows "d" wit_two_evaluators.1) = if (pg_time first.1 <=? t) && (t <? m) then 1%nat else 0%nat
  end.
Proof.
  split; [vm_compute; reflexivity|].
  apply (digest_windows_tile wit_calendar wit_db false wit_two_evaluators.1 wit_two_evaluators.2 "d"); [apply acts_run; [done|apply ready_run]|vm_compute; by eexists|].
  apply keeps_apart_sound. vm_compute. reflexivity.
Defined.

(** Two evaluators whose clocks are a minute apart, or the second of which starts its next
    tick while the first still waits for its queries: both read the watermark before either
    records, and both digests cover the days before. *)
Definition wit_overlapping : list alert_note * alert_system :=
  play ([], wit_ready) ([Scan "a" (600 * second); Scan "b" (660 * second)] ++ repeat (Go "a" 0) 4 ++ repeat (Go "b" 0) 4 ++ repeat (Go "a" 0) 5 ++ repeat (Go "b" 0) 5).

Example overlapping_evaluations_repeat_a_window :
  windows "d" wit_overlapping.1 = [(600 * second - week, 600 * second); (660 * second - week, 660 * second)] /\ digests_of 0 (windows "d" wit_overlapping.1) = 2%nat.
Proof. split; vm_compute; reflexivity. Qed.

Lemma overlapping_run : alert_run wit_calendar wit_db false wit_overlapping.1 wit_overlapping.2.
Proof. apply acts_run; [done|apply ready_run]. Qed.
