(* ===== verification/ProviderAccounts.v ===== *)
(** * ProviderAccounts: model providers and their pools of signed-in accounts

    workspace_providers.go (the rows), workspace_accounts.go and
    workspace_accounts_usage.go of internal/dataplane/store, over the account tables of
    [Accounts]: the vendors a workspace configured, the accounts signed in to each, and the
    statements the run path makes on them.  A sealed secret is kept as what it seals; that
    sealing or opening fails is an argument. *)

From stdpp Require Import sorting.
From S2P Require Import Prelude GoStrings GoTime Operations Principals Accounts.
Import String.
Open Scope string_scope.
Open Scope list_scope.
Open Scope Z_scope.

(** ** The tables *)

Record ProviderRow := { pv_Workspace : string; pv_Vendor : string; pv_Name : string; pv_BaseURL : string; pv_APIKey : string; pv_CreatedAt : Z }.

Record AccountRow := {
  pa_Provider : string; pa_Workspace : string; pa_Email : string; pa_AccountID : string; pa_OrgID : string; pa_OrgName : string;
  pa_ProjectID : string; pa_Plan : string; pa_AccessToken : string; pa_RefreshToken : string; pa_ExpiresAt : option Z;
  pa_Status : string; pa_DisabledCause : string; pa_BlockedUntil : option Z; pa_LastUsedAt : option Z; pa_Usage : string; pa_CreatedAt : Z;
}.

(** [tiers]: the six provider references of a workspace's tiers, empty where NULL. *)
Record pool_db := { book : DB; providers : gmap string ProviderRow; tiers : gmap string (list string); pooled : gmap string AccountRow }.

Definition with_book (b : DB) (db : pool_db) : pool_db := {| book := b; providers := providers db; tiers := tiers db; pooled := pooled db |}.
Definition with_providers (p : gmap string ProviderRow) (db : pool_db) : pool_db := {| book := book db; providers := p; tiers := tiers db; pooled := pooled db |}.
Definition with_tiers (t : gmap string (list string)) (db : pool_db) : pool_db := {| book := book db; providers := providers db; tiers := t; pooled := pooled db |}.
Definition with_pooled (a : gmap string AccountRow) (db : pool_db) : pool_db := {| book := book db; providers := providers db; tiers := tiers db; pooled := a |}.

(** Package ai: the vendors it knows. *)
Class Vendors := {
  NormalizeVendor : string -> string; NormalizeOAuthVendor : string -> string; IsOAuthVendor : string -> bool; APIKeyOptional : string -> bool;
  VendorOpenAIResponses : string; VendorClaudeCode : string; VendorOpenAICodex : string; VendorGoogleAntigravity : string; VendorDevin : string;
}.

(** Postgres: the canonical text of what it reads as a uuid, and VARCHAR(n). *)
Class PoolColumns := { pg_key : string -> option string; fits_in : nat -> string -> bool }.

Definition ErrNoUsableAccount : error := ESentinel "storage.ErrNoUsableAccount" "no usable provider account".
Definition bad_key : error := ENew "invalid input syntax for type uuid".
Definition no_seal : error := ENew "encryption failed".

(** A timestamptz keeps microseconds. *)
Definition stored_time (t : Z) : Z := t / 1000 * 1000.

Section Providers.
Context `{Vendors} `{PoolColumns}.

(** ** Providers *)

Record ProviderRecord := {
  pr_ID : string; pr_Workspace : string; pr_Vendor : string; pr_Name : string; pr_BaseURL : string; pr_APIKey : string; pr_HasKey : bool;
  pr_AuthType : string; pr_AccountCount : Z;
}.

Record ProviderInput := { pi_Vendor : string; pi_Name : string; pi_BaseURL : string; pi_APIKey : string }.

Record WorkspaceProvider := {
  wp_ID : string; wp_Workspace : string; wp_Vendor : string; wp_Name : string; wp_BaseURL : string; wp_HasKey : bool; wp_AuthType : string; wp_AccountCount : Z;
}.

Definition providerAuthType (vendor : string) : string := if IsOAuthVendor vendor then "oauth" else if APIKeyOptional vendor then "optional" else "key".

Definition public_provider (r : ProviderRecord) : WorkspaceProvider :=
  let authType := if (pr_AuthType r =? "")%string then providerAuthType (pr_Vendor r) else pr_AuthType r in
  {| wp_ID := pr_ID r; wp_Workspace := pr_Workspace r; wp_Vendor := pr_Vendor r; wp_Name := (if (pr_Name r =? "")%string then pr_Vendor r else pr_Name r);
     wp_BaseURL := pr_BaseURL r;
     wp_HasKey := (if (authType =? "oauth")%string then 0 <? pr_AccountCount r else pr_HasKey r || negb (pr_APIKey r =? "")%string);
     wp_AuthType := authType; wp_AccountCount := pr_AccountCount r |}.

(** [id] is the given id or the generated one. *)
Definition NewWorkspaceProviderRecord (id ws : string) (inp : ProviderInput) (existing : option ProviderRecord) : result error ProviderRecord :=
  let vendor := let v := NormalizeVendor (pi_Vendor inp) in if (v =? "")%string then "openai" else v in
  let base := trim_space (pi_BaseURL inp) in
  let oauth := IsOAuthVendor vendor in
  if negb oauth && negb (existsb (String.eqb vendor) ["openai"; VendorOpenAIResponses; "anthropic"; "google"]) && (base =? "")%string
  then Err (ENew "provider requires a base URL")
  else
    let key := trim_space (pi_APIKey inp) in
    if oauth && negb (key =? "")%string && negb (pi_APIKey inp =? "-")%string then Err (ENew "provider is a subscription sign-in vendor and takes no API key")
    else
      let '(apiKey, hasKey) :=
        if oauth then ("", false)
        else if (key =? "")%string then
          match existing with Some e => (pr_APIKey e, pr_HasKey e || negb (pr_APIKey e =? "")%string) | None => ("", false) end
        else if (key =? "-")%string then ("", false) else (key, true) in
      let name := trim_space (pi_Name inp) in
      Ok {| pr_ID := id; pr_Workspace := ws; pr_Vendor := vendor; pr_Name := (if (name =? "")%string then vendor else name); pr_BaseURL := base;
            pr_APIKey := apiKey; pr_HasKey := hasKey; pr_AuthType := providerAuthType vendor; pr_AccountCount := 0 |}.

Definition active_of (db : pool_db) (provider : string) : Z :=
  Z.of_nat (length (List.filter (fun ka => (pa_Provider ka.2 =? provider)%string && (pa_Status ka.2 =? "active")%string) (map_to_list (pooled db)))).

(** decrypt is false: the key stays out of the record. *)
Definition loadProviderRecord (ws provider : string) (db : pool_db) : result error ProviderRecord :=
  match pg_key provider with
  | None => Err bad_key
  | Some id =>
      match providers db !! id with
      | Some r =>
          if (pv_Workspace r =? ws)%string
          then let authType := providerAuthType (pv_Vendor r) in
               Ok {| pr_ID := id; pr_Workspace := pv_Workspace r; pr_Vendor := pv_Vendor r; pr_Name := pv_Name r; pr_BaseURL := pv_BaseURL r; pr_APIKey := "";
                     pr_HasKey := negb (pv_APIKey r =? "")%string; pr_AuthType := authType;
                     pr_AccountCount := (if (authType =? "oauth")%string then active_of db id else 0) |}
          else Err ErrNoRows
      | None => Err ErrNoRows
      end
  end.

Definition provider_fits (r : ProviderRecord) : bool := fits_in 32 (pr_Vendor r) && fits_in 128 (pr_Name r).

Definition CreateWorkspaceProvider (now : Z) (seals : bool) (fresh user ws : string) (inp : ProviderInput) (db : pool_db) : pool_db * result error WorkspaceProvider :=
  if negb (userCanManageWorkspace (book db) user ws) then (db, Err ErrAgentForbidden)
  else
    match NewWorkspaceProviderRecord fresh ws inp None with
    | Err e => (db, Err e)
    | Ok rec =>
        if negb (pr_APIKey rec =? "")%string && negb seals then (db, Err no_seal)
        else if negb (provider_fits rec) || is_some (providers db !! fresh) then (db, Err (ENew "insert failed"))
        else
          let row := {| pv_Workspace := ws; pv_Vendor := pr_Vendor rec; pv_Name := pr_Name rec; pv_BaseURL := pr_BaseURL rec; pv_APIKey := pr_APIKey rec;
                        pv_CreatedAt := now |} in
          (with_book (record_audit (book db) ws user "agent.workspace_provider.create" ws) (with_providers (<[fresh := row]> (providers db)) db),
           Ok (public_provider {| pr_ID := fresh; pr_Workspace := ws; pr_Vendor := pr_Vendor rec; pr_Name := pr_Name rec; pr_BaseURL := pr_BaseURL rec; pr_APIKey := "";
                                  pr_HasKey := negb (pr_APIKey rec =? "")%string; pr_AuthType := pr_AuthType rec; pr_AccountCount := pr_AccountCount rec |}))
    end.

(** [None] leaves the stored key. *)
Definition resolveCipherArg (seals : bool) (raw : string) : result error (option string) :=
  let key := trim_space raw in
  if (key =? "")%string then Ok None else if (key =? "-")%string then Ok (Some "") else if seals then Ok (Some raw) else Err no_seal.

Definition UpdateWorkspaceProvider (seals : bool) (user ws provider : string) (inp : ProviderInput) (db : pool_db) : pool_db * result error WorkspaceProvider :=
  if negb (userCanManageWorkspace (book db) user ws) then (db, Err ErrAgentForbidden)
  else
    match loadProviderRecord ws provider db with
    | Err e => (db, Err e)
    | Ok existing =>
        match NewWorkspaceProviderRecord provider ws inp (Some existing) with
        | Err e => (db, Err e)
        | Ok rec =>
            match (if IsOAuthVendor (pr_Vendor rec) then Ok (Some "") else resolveCipherArg seals (pi_APIKey inp)), providers db !! pr_ID existing with
            | Err e, _ => (db, Err e)
            | Ok _, None => (db, Err ErrNoRows)
            | Ok cipher, Some old =>
                if negb (provider_fits rec) then (db, Err (ENew "value too long"))
                else
                  let row := {| pv_Workspace := pv_Workspace old; pv_Vendor := pr_Vendor rec; pv_Name := pr_Name rec; pv_BaseURL := pr_BaseURL rec;
                                pv_APIKey := default (pv_APIKey old) cipher; pv_CreatedAt := pv_CreatedAt old |} in
                  let db := with_book (record_audit (book db) ws user "agent.workspace_provider.update" ws) (with_providers (<[pr_ID existing := row]> (providers db)) db) in
                  (db, match loadProviderRecord ws provider db with Err e => Err e | Ok updated => Ok (public_provider updated) end)
            end
        end
    end.

(** The references go first, whether the provider is there or not; the accounts go with their
    provider. *)
Definition DeleteWorkspaceProvider (user ws provider : string) (db : pool_db) : pool_db * result error unit :=
  if negb (userCanManageWorkspace (book db) user ws) then (db, Err ErrAgentForbidden)
  else
    let db := with_tiers (alter (map (fun id => if (id =? provider)%string then "" else id)) ws (tiers db)) db in
    match pg_key provider with
    | None => (db, Err bad_key)
    | Some id =>
        match providers db !! id with
        | Some r =>
            if (pv_Workspace r =? ws)%string
            then (with_book (record_audit (book db) ws user "agent.workspace_provider.delete" ws)
                    (with_pooled (base.filter (fun ka : string * AccountRow => pa_Provider ka.2 <> id) (pooled db)) (with_providers (delete id (providers db)) db)), Ok tt)
            else (db, Err ErrNoRows)
        | None => (db, Err ErrNoRows)
        end
    end.

Definition WorkspaceProviderVendor (user ws provider : string) (db : pool_db) : result error string :=
  match pg_key provider with
  | None => Err bad_key
  | Some id =>
      match providers db !! id with
      | Some r => if (pv_Workspace r =? ws)%string && userCanAccessWorkspace (book db) user ws then Ok (pv_Vendor r) else Err ErrNoRows
      | None => Err ErrNoRows
      end
  end.

(** ** Accounts *)

Record ProviderAccountInput := {
  in_Email : string; in_AccountID : string; in_OrgID : string; in_OrgName : string; in_ProjectID : string; in_Plan : string;
  in_AccessToken : string; in_RefreshToken : string; in_ExpiresAt : option Z;
}.

(** The row of an account with its id and the vendor of its provider. *)
Record AccountRecord := { rec_ID : string; rec_Vendor : string; rec_Row : AccountRow }.

Record WorkspaceProviderAccount := {
  pub_ID : string; pub_Provider : string; pub_Email : string; pub_AccountID : string; pub_OrgID : string; pub_OrgName : string; pub_ProjectID : string;
  pub_Plan : string; pub_Status : string; pub_BlockedUntil : option Z; pub_LastUsedAt : option Z; pub_Usage : string; pub_CreatedAt : Z;
}.

Definition Public (r : AccountRecord) : WorkspaceProviderAccount :=
  let a := rec_Row r in
  {| pub_ID := rec_ID r; pub_Provider := pa_Provider a; pub_Email := pa_Email a; pub_AccountID := pa_AccountID a; pub_OrgID := pa_OrgID a;
     pub_OrgName := pa_OrgName a; pub_ProjectID := pa_ProjectID a; pub_Plan := pa_Plan a; pub_Status := pa_Status a;
     pub_BlockedUntil := pa_BlockedUntil a; pub_LastUsedAt := pa_LastUsedAt a; pub_Usage := pa_Usage a; pub_CreatedAt := pa_CreatedAt a |}.

(** The join: an account is read with its provider's vendor; [opens]: its tokens decrypt. *)
Definition scanAccountRecord (opens : bool) (id : string) (a : AccountRow) (db : pool_db) : result error AccountRecord :=
  match providers db !! pa_Provider a with
  | None => Err ErrNoRows
  | Some p =>
      if negb opens && negb ((pa_AccessToken a =? "")%string && (pa_RefreshToken a =? "")%string) then Err (ENew "account token does not decrypt")
      else Ok {| rec_ID := id; rec_Vendor := pv_Vendor p; rec_Row := a |}
  end.

Definition created_le (a b : string * AccountRow) : Prop := pa_CreatedAt a.2 <= pa_CreatedAt b.2.
#[export] Instance created_le_dec a b : Decision (created_le a b) := decide (pa_CreatedAt a.2 <= pa_CreatedAt b.2).

Definition in_pool (provider ws : string) (a : AccountRow) : bool := (pa_Provider a =? provider)%string && (pa_Workspace a =? ws)%string.

Definition ListProviderAccounts (user ws provider : string) (db : pool_db) : result error (list WorkspaceProviderAccount) :=
  if negb (userCanAccessWorkspace (book db) user ws) then Err ErrAgentForbidden
  else
    match pg_key provider with
    | None => Err bad_key
    | Some p =>
        Ok (omap (fun ka => match scanAccountRecord true ka.1 ka.2 db with Ok r => Some (Public r) | Err _ => None end)
              (merge_sort created_le (List.filter (fun ka => in_pool p ws ka.2) (map_to_list (pooled db)))))
    end.

Definition account_fits (inp : ProviderAccountInput) : bool :=
  fits_in 254 (in_Email inp) && fits_in 128 (in_AccountID inp) && fits_in 128 (in_OrgID inp) && fits_in 256 (in_OrgName inp) &&
  fits_in 256 (in_ProjectID inp) && fits_in 64 (in_Plan inp).

Definition same_login (inp : ProviderAccountInput) (a : AccountRow) : bool :=
  (negb (in_AccountID inp =? "")%string && (pa_AccountID a =? in_AccountID inp)%string) ||
  ((in_AccountID inp =? "")%string && negb (pa_Email a =? "")%string && (pa_Email a =? in_Email inp)%string).

Definition find_login (provider ws : string) (inp : ProviderAccountInput) (db : pool_db) : option string :=
  fst <$> find_first (fun ka => in_pool provider ws ka.2 && same_login inp ka.2) (map_to_list (pooled db)).

(** The row of a login on what the row had before; [None] where it had nothing. *)
Definition login_row (now : Z) (provider ws : string) (inp : ProviderAccountInput) (old : option AccountRow) : AccountRow :=
  {| pa_Provider := provider; pa_Workspace := ws; pa_Email := in_Email inp; pa_AccountID := in_AccountID inp; pa_OrgID := in_OrgID inp; pa_OrgName := in_OrgName inp;
     pa_ProjectID := in_ProjectID inp; pa_Plan := in_Plan inp; pa_AccessToken := in_AccessToken inp; pa_RefreshToken := in_RefreshToken inp;
     pa_ExpiresAt := stored_time <$> in_ExpiresAt inp; pa_Status := "active"; pa_DisabledCause := ""; pa_BlockedUntil := None;
     pa_LastUsedAt := match old with Some a => pa_LastUsedAt a | None => None end;
     pa_Usage := match old with Some a => pa_Usage a | None => "{}" end; pa_CreatedAt := match old with Some a => pa_CreatedAt a | None => now end |}.

(** What comes before the two statements that look for the account and write it. *)
Definition login_checks (seals : bool) (user ws provider : string) (inp : ProviderAccountInput) (db : pool_db) : result error string :=
  if negb (userCanManageWorkspace (book db) user ws) then Err ErrAgentForbidden
  else
    match pg_key provider with
    | None => Err bad_key
    | Some p =>
        match providers db !! p with
        | Some row =>
            if negb (pv_Workspace row =? ws)%string then Err ErrNoRows
            else if negb seals && negb ((in_AccessToken inp =? "")%string && (in_RefreshToken inp =? "")%string) then Err no_seal
            else Ok p
        | None => Err ErrNoRows
        end
    end.

(** The second statement, given what the first found.  An update that meets no row any more
    is answered like one that did. *)
Definition write_login (now : Z) (fresh user ws provider : string) (inp : ProviderAccountInput) (existing : option string) (db : pool_db) : pool_db * result error string :=
  if negb (account_fits inp) then (db, Err (ENew "value too long"))
  else
    let audited action db := with_book (record_audit (book db) ws user action ws) db in
    match existing with
    | Some id =>
        let db := match pooled db !! id with
                  | Some a => if (pa_Provider a =? provider)%string then with_pooled (<[id := login_row now provider (pa_Workspace a) inp (Some a)]> (pooled db)) db else db
                  | None => db
                  end in
        (audited "agent.workspace_provider_account.relogin" db, Ok id)
    | None =>
        if negb (bool_decide (pg_key fresh = Some fresh)) || is_some (pooled db !! fresh) || negb (is_some (providers db !! provider)) then (db, Err (ENew "insert failed"))
        else (audited "agent.workspace_provider_account.create" (with_pooled (<[fresh := login_row now provider ws inp None]> (pooled db)) db), Ok fresh)
    end.

(** Alone: nothing comes between its statements. *)
Definition CreateProviderAccount (now : Z) (seals : bool) (fresh user ws provider : string) (inp : ProviderAccountInput) (db : pool_db) : pool_db * result error string :=
  match login_checks seals user ws provider inp db with
  | Err e => (db, Err e)
  | Ok p => write_login now fresh user ws p inp (find_login p ws inp db) db
  end.

(** The account of the pool a path names. *)
Definition named_account (ws provider account : string) (db : pool_db) : result error (string * AccountRow) :=
  match pg_key account, pg_key provider with
  | Some id, Some p =>
      match pooled db !! id with Some a => if in_pool p ws a then Ok (id, a) else Err ErrNoRows | None => Err ErrNoRows end
  | _, _ => Err bad_key
  end.

Definition DeleteProviderAccount (user ws provider account : string) (db : pool_db) : pool_db * result error unit :=
  if negb (userCanManageWorkspace (book db) user ws) then (db, Err ErrAgentForbidden)
  else
    match named_account ws provider account db with
    | Err e => (db, Err e)
    | Ok (id, _) => (with_book (record_audit (book db) ws user "agent.workspace_provider_account.delete" ws) (with_pooled (delete id (pooled db)) db), Ok tt)
    end.

Definition with_status (status cause : string) (blocked : option Z) (a : AccountRow) : AccountRow :=
  {| pa_Provider := pa_Provider a; pa_Workspace := pa_Workspace a; pa_Email := pa_Email a; pa_AccountID := pa_AccountID a; pa_OrgID := pa_OrgID a;
     pa_OrgName := pa_OrgName a; pa_ProjectID := pa_ProjectID a; pa_Plan := pa_Plan a; pa_AccessToken := pa_AccessToken a; pa_RefreshToken := pa_RefreshToken a;
     pa_ExpiresAt := pa_ExpiresAt a; pa_Status := status; pa_DisabledCause := cause; pa_BlockedUntil := blocked; pa_LastUsedAt := pa_LastUsedAt a;
     pa_Usage := pa_Usage a; pa_CreatedAt := pa_CreatedAt a |}.

Definition SetProviderAccountStatus (user ws provider account status : string) (db : pool_db) : pool_db * result error unit :=
  if negb (existsb (String.eqb status) ["active"; "disabled"]) then (db, Err (ENew "status must be active or disabled"))
  else if negb (userCanManageWorkspace (book db) user ws) then (db, Err ErrAgentForbidden)
  else
    match named_account ws provider account db with
    | Err e => (db, Err e)
    | Ok (id, a) =>
        let active := (status =? "active")%string in
        let cause := if active then "" else if (pa_DisabledCause a =? "")%string then "manual" else pa_DisabledCause a in
        let row := with_status status cause (if active then None else pa_BlockedUntil a) a in
        (with_book (record_audit (book db) ws user "agent.workspace_provider_account.status" ws) (with_pooled (<[id := row]> (pooled db)) db), Ok tt)
    end.

(** ** For the run path *)

Definition usable (now : Z) (provider : string) (a : AccountRow) : bool :=
  (pa_Provider a =? provider)%string && (pa_Status a =? "active")%string &&
  match pa_BlockedUntil a with None => true | Some until => until <? now end.

(** ORDER BY last_used_at ASC NULLS FIRST *)
Definition used_le (a b : option Z) : bool :=
  match a, b with None, _ => true | Some _, None => false | Some x, Some y => x <=? y end.

(** The rows the subquery may give. It filters and orders the rows of the snapshot its
    statement began with, passes over a row another transaction holds, and tests a row that
    changed or went since once more before it locks it; it does not order again. *)
Definition candidates (now : Z) (locked : gset string) (provider : string) (snap db : pool_db) : list (string * AccountRow) :=
  List.filter (fun ka => usable now provider ka.2 && negb (bool_decide (ka.1 ∈ locked)) &&
                         match pooled db !! ka.1 with Some a => usable now provider a | None => false end) (map_to_list (pooled snap)).

(** The least recently used of them as the snapshot has them, any where several are. *)
Definition may_pick (now : Z) (locked : gset string) (provider : string) (pick : option string) (snap db : pool_db) : bool :=
  let free := candidates now locked provider snap db in
  match pick with
  | None => match free with [] => true | _ => false end
  | Some id => existsb (fun ka => (ka.1 =? id)%string && forallb (fun kb => used_le (pa_LastUsedAt ka.2) (pa_LastUsedAt kb.2)) free) free
  end.

Definition with_used (at_ : Z) (a : AccountRow) : AccountRow :=
  {| pa_Provider := pa_Provider a; pa_Workspace := pa_Workspace a; pa_Email := pa_Email a; pa_AccountID := pa_AccountID a; pa_OrgID := pa_OrgID a;
     pa_OrgName := pa_OrgName a; pa_ProjectID := pa_ProjectID a; pa_Plan := pa_Plan a; pa_AccessToken := pa_AccessToken a; pa_RefreshToken := pa_RefreshToken a;
     pa_ExpiresAt := pa_ExpiresAt a; pa_Status := pa_Status a; pa_DisabledCause := pa_DisabledCause a; pa_BlockedUntil := pa_BlockedUntil a;
     pa_LastUsedAt := Some at_; pa_Usage := pa_Usage a; pa_CreatedAt := pa_CreatedAt a |}.

(** [pick] is a row [may_pick] allows.  The newest version of the row is stamped and returned,
    with the vendor of the snapshot; the stamp is there even when the tokens do not open. *)
Definition AcquireProviderAccount (now : Z) (opens : bool) (pick : option string) (snap db : pool_db) : pool_db * result error AccountRecord :=
  match pick with
  | None => (db, Err ErrNoUsableAccount)
  | Some id =>
      match pooled db !! id with
      | None => (db, Err ErrNoUsableAccount)
      | Some a =>
          let a := with_used now a in
          (with_pooled (<[id := a]> (pooled db)) db, scanAccountRecord opens id a snap)
      end
  end.

(** A statement on the account with that id. *)
Definition on_account (account : string) (f : AccountRow -> AccountRow) (db : pool_db) : pool_db * result error unit :=
  match pg_key account with
  | None => (db, Err bad_key)
  | Some id => match pooled db !! id with Some a => (with_pooled (<[id := f a]> (pooled db)) db, Ok tt) | None => (db, Err ErrNoRows) end
  end.

Definition LoadProviderAccountRecord (opens : bool) (account : string) (db : pool_db) : result error AccountRecord :=
  match pg_key account with
  | None => Err bad_key
  | Some id => match pooled db !! id with Some a => scanAccountRecord opens id a db | None => Err ErrNoRows end
  end.

Definition with_tokens (access refresh : string) (expiresAt : option Z) (a : AccountRow) : AccountRow :=
  {| pa_Provider := pa_Provider a; pa_Workspace := pa_Workspace a; pa_Email := pa_Email a; pa_AccountID := pa_AccountID a; pa_OrgID := pa_OrgID a;
     pa_OrgName := pa_OrgName a; pa_ProjectID := pa_ProjectID a; pa_Plan := pa_Plan a;
     pa_AccessToken := (if (access =? "")%string then pa_AccessToken a else access);
     pa_RefreshToken := (if (refresh =? "")%string then pa_RefreshToken a else refresh);
     pa_ExpiresAt := match expiresAt with Some t => Some (stored_time t) | None => pa_ExpiresAt a end;
     pa_Status := pa_Status a; pa_DisabledCause := pa_DisabledCause a; pa_BlockedUntil := pa_BlockedUntil a;
     pa_LastUsedAt := pa_LastUsedAt a; pa_Usage := pa_Usage a; pa_CreatedAt := pa_CreatedAt a |}.

Definition UpdateProviderAccountTokens (seals : bool) (account access refresh : string) (expiresAt : option Z) (db : pool_db) : pool_db * result error unit :=
  if negb seals && negb ((access =? "")%string && (refresh =? "")%string) then (db, Err no_seal)
  else on_account account (with_tokens access refresh expiresAt) db.

Definition BlockProviderAccount (account : string) (until : Z) (db : pool_db) : pool_db * result error unit :=
  on_account account (fun a => with_status (pa_Status a) (pa_DisabledCause a) (Some (stored_time until)) a) db.

Definition DisableProviderAccount (account cause : string) (db : pool_db) : pool_db * result error unit :=
  on_account account (fun a => with_status "disabled" cause (pa_BlockedUntil a) a) db.

Definition with_usage (usage : string) (a : AccountRow) : AccountRow :=
  {| pa_Provider := pa_Provider a; pa_Workspace := pa_Workspace a; pa_Email := pa_Email a; pa_AccountID := pa_AccountID a; pa_OrgID := pa_OrgID a;
     pa_OrgName := pa_OrgName a; pa_ProjectID := pa_ProjectID a; pa_Plan := pa_Plan a; pa_AccessToken := pa_AccessToken a; pa_RefreshToken := pa_RefreshToken a;
     pa_ExpiresAt := pa_ExpiresAt a; pa_Status := pa_Status a; pa_DisabledCause := pa_DisabledCause a; pa_BlockedUntil := pa_BlockedUntil a;
     pa_LastUsedAt := pa_LastUsedAt a; pa_Usage := usage; pa_CreatedAt := pa_CreatedAt a |}.

Definition UpdateProviderAccountUsage (account usage : string) (db : pool_db) : pool_db * result error unit := on_account account (with_usage usage) db.
End Providers.
