(* ===== verification/AccountPool.v ===== *)
(** * AccountPool: signing in to model vendors and drawing on the accounts

    pool.go, refresh.go, the pending logins of login.go and device.go, and usage.go of
    internal/oauth, over the tables of [ProviderAccounts].  A caller is a state that makes one
    call per turn, to the database, to a vendor or to the group that shares refreshes; any
    number of them interleave.  What a call meets, clocks included, is the world of its turn. *)

From Stdlib Require Import Ascii.
From S2P Require Import Prelude GoStrings GoTime Operations Principals Accounts ProviderAccounts.
Import String.
Open Scope string_scope.
Open Scope list_scope.
Open Scope Z_scope.

(** ** Data *)

Record PendingLogin := { pl_Vendor : string; pl_Workspace : string; pl_Provider : string; pl_State : string; pl_CreatedAt : Z }.

Record TokenResult := { tr_Access : string; tr_Refresh : string; tr_ExpiresAt : Z }.

Record OAuthToken := { tk_Account : string; tk_Access : string; tk_ProviderAccount : string; tk_Project : string; tk_Email : string }.

(** What the token endpoint answers a refresh: the last with access token, refresh token and
    expires_in. *)
Inductive token_answer := NoAnswer (e : string) | BadStatus (e : string) | NotJSON | Tokens (access refresh : string) (expires_in : Z).

(** What one poll of the device flow meets. *)
Inductive device_answer := PollFailed (e : string) | StillPending | DeviceDone (inp : ProviderAccountInput).

(** Why an account is refreshed: for a run with some attempts left, after a refused request,
    for a usage probe. *)
Inductive purpose := ForRun (provider : string) (tries : nat) | ForReport | ForProbe (ws provider : string).

Inductive answer :=
| HasToken (t : OAuthToken) | NoToken (e : string) | Reported | SignedIn (account : string) | NotSignedIn (e : string) | PollPending
| Usage (u : string) | NoUsage (e : string).

(** Where a caller is: what its next call will be. *)
Inductive phase :=
| Picking (provider : string) (tries : nat) (lastErr : option string)
| Retiring (account cause : string) (next : phase)
| Refreshing (rec : AccountRecord) (why : purpose)
| Waiting (rec : AccountRecord) (why : purpose)
| Leading (rec : AccountRecord) (why : purpose)
| Storing (rec : AccountRecord) (why : purpose) (res : TokenResult)
| Landing (rec : AccountRecord) (why : purpose) (res : result string TokenResult)
| Blocking (account : string) (until : Z)
| Reloading (account : string)
| Gate (user ws provider key code : string)
| Exchanging (user ws provider key code : string)
| Polling (user ws provider key : string)
| Checking (user ws provider key : string) (device : bool) (inp : ProviderAccountInput)
| Finding (user ws provider key : string) (device : bool) (inp : ProviderAccountInput)
| Writing (user ws provider key : string) (device : bool) (inp : ProviderAccountInput) (existing : option string)
| Forgetting (key : string) (next : phase)
| ProbeGate (user ws provider account : string)
| ProbeLoad (ws provider account : string)
| Fetching (rec : AccountRecord)
| Keeping (account usage : string)
| Finished (a : answer).

(** The database, the pending logins, the group of refreshes (who leads each) and the callers;
    [minted] are the ids accounts and providers ever had, [looks] the snapshots of the picks
    that have begun and not yet taken a row. *)
Record pool_system := {
  db : pool_db; pending : gmap string PendingLogin; flights : gmap string string; callers : gmap string phase; minted : gset string; looks : gmap string pool_db;
}.

(** What a trace keeps: a pick's statement begun; a row picked, with those that were free; a refresh token posted and a
    grant accepted; an account written by a login; a token served. *)
Inductive pool_note :=
| Looked (caller : string)
| Picked (caller provider account : string) (at_ : Z) (free : list string)
| Posted (account vendor refresh : string)
| Granted (account access refresh : string)
| Cleared (user ws provider : string)
| Joined (user ws provider account access refresh : string)
| Served (provider account access : string).

(** What one turn meets: whether its statement works, whether sealing and opening do, the
    database's clock and the process's, which row a pick gets beside rows others hold, the
    answers of vendors and a fresh id. *)
Record turn_world := {
  tw_works : bool; tw_seals : bool; tw_opens : bool; tw_now : Z; tw_clock : Z; tw_later : Z; tw_pick : option string; tw_locked : gset string;
  tw_tokens : token_answer; tw_exchange : result string ProviderAccountInput; tw_device : device_answer; tw_usage : result string string; tw_fresh : string;
}.

Definition db_error : error := ENew "query failed".
Definition pendingTTL : Z := 15 * minute.
Definition maxAcquireAttempts : nat := 8.

Definition at_caller (c : string) (ph : phase) (s : pool_system) : pool_system :=
  {| db := db s; pending := pending s; flights := flights s; callers := <[c := ph]> (callers s); minted := minted s; looks := looks s |}.
Definition with_db (d : pool_db) (s : pool_system) : pool_system :=
  {| db := d; pending := pending s; flights := flights s; callers := callers s; minted := minted s; looks := looks s |}.
Definition with_pending (p : gmap string PendingLogin) (s : pool_system) : pool_system :=
  {| db := db s; pending := p; flights := flights s; callers := callers s; minted := minted s; looks := looks s |}.
Definition with_flights (f : gmap string string) (s : pool_system) : pool_system :=
  {| db := db s; pending := pending s; flights := f; callers := callers s; minted := minted s; looks := looks s |}.
Definition with_callers (cs : gmap string phase) (s : pool_system) : pool_system :=
  {| db := db s; pending := pending s; flights := flights s; callers := cs; minted := minted s; looks := looks s |}.
Definition with_minted (id : string) (s : pool_system) : pool_system :=
  {| db := db s; pending := pending s; flights := flights s; callers := callers s; minted := {[id]} ∪ minted s; looks := looks s |}.

(** The pick of [c] begins with what is there, and is over. *)
Definition looking (c : string) (s : pool_system) : pool_system :=
  {| db := db s; pending := pending s; flights := flights s; callers := callers s; minted := minted s; looks := <[c := db s]> (looks s) |}.
Definition looked (c : string) (s : pool_system) : pool_system :=
  {| db := db s; pending := pending s; flights := flights s; callers := callers s; minted := minted s; looks := delete c (looks s) |}.

(** The snapshot of the pick of [c]: what is there when nothing came between. *)
Definition view (c : string) (s : pool_system) : pool_db := default (db s) (looks s !! c).

Section Pool.
Context `{Vendors} `{PoolColumns} (parse_url : string -> option (string * string)).

(** ** Refreshing *)

(** defaultDescriptors: the expiresSkew of the vendors that have a descriptor. *)
Definition expiresSkew (vendor : string) : option Z :=
  if (vendor =? VendorClaudeCode)%string then Some (300 * second)
  else if (vendor =? VendorOpenAICodex)%string then Some 0
  else if (vendor =? VendorGoogleAntigravity)%string then Some (300 * second)
  else if (vendor =? VendorDevin)%string then Some 0
  else None.

Definition needsRefresh (rec : AccountRecord) (now : Z) : bool :=
  if (pa_RefreshToken (rec_Row rec) =? "")%string then false
  else match pa_ExpiresAt (rec_Row rec) with None => true | Some t => t <=? now + 5 * minute end.

(** doRefresh up to its request: an error, or the request is sent. *)
Definition refresh_request (rec : AccountRecord) : option string :=
  match expiresSkew (NormalizeOAuthVendor (rec_Vendor rec)) with
  | None => Some "unsupported OAuth vendor"
  | Some _ => if (pa_RefreshToken (rec_Row rec) =? "")%string then Some "account has no refresh token" else None
  end.

(** doRefresh from the answer to the store. *)
Definition refresh_result (rec : AccountRecord) (a : token_answer) (clock : Z) : result string TokenResult :=
  match a with
  | NoAnswer e => Err e
  | BadStatus e => Err e
  | NotJSON => Err "refresh response was not JSON"
  | Tokens access refresh expires_in =>
      if (access =? "")%string then Err "refresh response missing access_token"
      else Ok {| tr_Access := access; tr_Refresh := (if (refresh =? "")%string then pa_RefreshToken (rec_Row rec) else refresh);
                 tr_ExpiresAt := clock + (expires_in * second - default 0 (expiresSkew (NormalizeOAuthVendor (rec_Vendor rec)))) |}
  end.

Definition token_of (rec : AccountRecord) (access : string) : OAuthToken :=
  let a := rec_Row rec in
  {| tk_Account := rec_ID rec; tk_Access := access; tk_ProviderAccount := pa_AccountID a; tk_Project := pa_ProjectID a; tk_Email := pa_Email a |}.

Definition with_access (access : string) (rec : AccountRecord) : AccountRecord :=
  {| rec_ID := rec_ID rec; rec_Vendor := rec_Vendor rec; rec_Row := with_tokens access "" None (rec_Row rec) |}.

(** What a caller does with the outcome of a refresh it led or waited for. *)
Definition after_refresh (rec : AccountRecord) (why : purpose) (res : result string TokenResult) : phase :=
  match why, res with
  | ForRun _ _, Ok r => Finished (HasToken (token_of rec (tr_Access r)))
  | ForRun provider tries, Err e => Retiring (rec_ID rec) (String.append "refresh failed: " e) (Picking provider tries (Some e))
  | ForReport, Ok _ => Finished Reported
  | ForReport, Err e => Retiring (rec_ID rec) (String.append "refresh failed: " e) (Finished Reported)
  | ForProbe _ _, Ok r => Fetching (with_access (tr_Access r) rec)
  | ForProbe _ _, Err e => Finished (NoUsage e)
  end.

(** A flight ends: its leader and everyone who waited for that account go on with its result. *)
Definition landed (id : string) (res : result string TokenResult) (ph : phase) : phase :=
  match ph with
  | Waiting rec why => if (rec_ID rec =? id)%string then after_refresh rec why res else ph
  | _ => ph
  end.

Definition served_by (ph : phase) (provider : string) : list pool_note :=
  match ph with Finished (HasToken t) => [Served provider (tk_Account t) (tk_Access t)] | _ => [] end.

(** The tokens a landing serves. *)
Definition landing_notes (id : string) (res : result string TokenResult) (cs : gmap string phase) : list pool_note :=
  List.concat (map (fun cp => match cp.2 with
                          | Waiting rec (ForRun provider tries) => if (rec_ID rec =? id)%string then served_by (after_refresh rec (ForRun provider tries) res) provider else []
                          | _ => []
                          end) (map_to_list cs)).

(** ** The turns of Acquire and Report *)

Definition acquire_turn (c : string) (w : turn_world) (provider : string) (tries : nat) (lastErr : option string) (s : pool_system) : pool_system * list pool_note :=
  match tries with
  | O => (at_caller c (Finished (NoToken (default "oauth: no usable account" lastErr))) s, [])
  | S tries =>
      if negb (tw_works w) then (at_caller c (Finished (NoToken (error_text db_error))) (looked c s), [])
      else
        match pg_key provider with
        | None => (at_caller c (Finished (NoToken (error_text bad_key))) (looked c s), [])
        | Some p =>
            if negb (may_pick (tw_now w) (tw_locked w) p (tw_pick w) (view c s) (db s)) then (s, [])
            else
              let free := map fst (candidates (tw_now w) (tw_locked w) p (view c s) (db s)) in
              let picked := match looks s !! c with Some _ => [] | None => [Looked c] end ++
                            match tw_pick w with Some id => [Picked c p id (tw_now w) free] | None => [] end in
              let '(d, res) := AcquireProviderAccount (tw_now w) (tw_opens w) (tw_pick w) (view c s) (db s) in
              let s := looked c (with_db d s) in
              match res with
              | Err e => (at_caller c (Finished (NoToken (error_text e))) s, picked)
              | Ok rec =>
                  let a := rec_Row rec in
                  if (pa_RefreshToken a =? "")%string && match pa_ExpiresAt a with Some t => t <=? tw_clock w | None => false end
                  then (at_caller c (Retiring (rec_ID rec) "access token expired; no refresh token"
                                       (Picking provider tries (Some "oauth: account access token expired with no refresh token"))) s, picked)
                  else if needsRefresh rec (tw_later w) then (at_caller c (Refreshing rec (ForRun provider tries)) s, picked)
                  else (at_caller c (Finished (HasToken (token_of rec (pa_AccessToken a)))) s, picked ++ [Served provider (rec_ID rec) (pa_AccessToken a)])
              end
        end
  end.

(** Joining the group: the first of an account leads, the others wait. *)
Definition join_turn (c : string) (rec : AccountRecord) (why : purpose) (s : pool_system) : pool_system * list pool_note :=
  match flights s !! rec_ID rec with
  | Some _ => (at_caller c (Waiting rec why) s, [])
  | None =>
      let s := with_flights (<[rec_ID rec := c]> (flights s)) s in
      match refresh_request rec with
      | Some e => (at_caller c (Landing rec why (Err e)) s, [])
      | None => (at_caller c (Leading rec why) s, [Posted (rec_ID rec) (rec_Vendor rec) (pa_RefreshToken (rec_Row rec))])
      end
  end.

Definition lead_turn (c : string) (w : turn_world) (rec : AccountRecord) (why : purpose) (s : pool_system) : pool_system * list pool_note :=
  match refresh_result rec (tw_tokens w) (tw_clock w) with
  | Err e => (at_caller c (Landing rec why (Err e)) s, [])
  | Ok res => (at_caller c (Storing rec why res) s, [Granted (rec_ID rec) (tr_Access res) (tr_Refresh res)])
  end.

Definition store_turn (c : string) (w : turn_world) (rec : AccountRecord) (why : purpose) (res : TokenResult) (s : pool_system) : pool_system * list pool_note :=
  if negb (tw_works w) then (at_caller c (Landing rec why (Err (error_text db_error))) s, [])
  else
    let '(d, answer) := UpdateProviderAccountTokens (tw_seals w) (rec_ID rec) (tr_Access res) (tr_Refresh res) (Some (tr_ExpiresAt res)) (db s) in
    (at_caller c (Landing rec why (match answer with Ok _ => Ok res | Err e => Err (error_text e) end)) (with_db d s), []).

Definition provider_of (why : purpose) : string := match why with ForRun provider _ => provider | ForReport => "" | ForProbe _ provider => provider end.

Definition land_turn (c : string) (rec : AccountRecord) (why : purpose) (res : result string TokenResult) (s : pool_system) : pool_system * list pool_note :=
  (at_caller c (after_refresh rec why res) (with_callers (landed (rec_ID rec) res <$> callers s) (with_flights (delete (rec_ID rec) (flights s)) s)),
   served_by (after_refresh rec why res) (provider_of why) ++ landing_notes (rec_ID rec) res (callers s)).

(** A statement whose outcome nobody looks at. *)
Definition ignored (w : turn_world) (f : pool_db -> pool_db * result error unit) (s : pool_system) : pool_system :=
  if tw_works w then with_db (f (db s)).1 s else s.

Definition reload_turn (c : string) (w : turn_world) (account : string) (s : pool_system) : pool_system * list pool_note :=
  let ph :=
    match (if tw_works w then LoadProviderAccountRecord (tw_opens w) account (db s) else Err db_error) with
    | Err e => Retiring account (String.append "unauthorized; account reload failed: " (error_text e)) (Finished Reported)
    | Ok rec => if (pa_RefreshToken (rec_Row rec) =? "")%string then Retiring account "unauthorized" (Finished Reported) else Refreshing rec ForReport
    end in
  (at_caller c ph s, []).

(** ** Signing in *)

Definition sweep (clock : Z) (p : gmap string PendingLogin) : gmap string PendingLogin :=
  base.filter (fun kp : string * PendingLogin => clock - pl_CreatedAt kp.2 <= pendingTTL) p.

Definition putPending (clock : Z) (key : string) (l : PendingLogin) (s : pool_system) : pool_system := with_pending (<[key := l]> (sweep clock (pending s))) s.

Definition getPending (clock : Z) (key : string) (s : pool_system) : pool_system * option PendingLogin :=
  let p := sweep clock (pending s) in (with_pending p s, p !! key).

Definition deletePending (key : string) (s : pool_system) : pool_system := with_pending (delete key (pending s)) s.

(** StartLogin and StartDeviceLogin once the database and, for a device, the vendor answered:
    the attempt is recorded under the random [key]. *)
Definition started (clock : Z) (key vendor ws provider state : string) (s : pool_system) : pool_system :=
  putPending clock key {| pl_Vendor := vendor; pl_Workspace := ws; pl_Provider := provider; pl_State := state; pl_CreatedAt := clock |} s.

Definition StartLogin (clock : Z) (state user ws provider : string) (s : pool_system) : pool_system * result string unit :=
  match WorkspaceProviderVendor user ws provider (db s) with
  | Err e => (s, Err (error_text e))
  | Ok vendor =>
      if negb (IsOAuthVendor vendor) then (s, Err "provider is not an OAuth provider")
      else
        match expiresSkew (NormalizeOAuthVendor vendor) with
        | None => (s, Err "unsupported OAuth vendor")
        | Some _ => (started clock state (NormalizeOAuthVendor vendor) ws provider state s, Ok tt)
        end
  end.

Definition StartDeviceLogin (clock : Z) (key user ws provider : string) (init : result string unit) (s : pool_system) : pool_system * result string unit :=
  match WorkspaceProviderVendor user ws provider (db s) with
  | Err e => (s, Err (error_text e))
  | Ok vendor =>
      if negb (NormalizeOAuthVendor vendor =? VendorOpenAICodex)%string then (s, Err "provider does not support device login")
      else match init with Err e => (s, Err e) | Ok _ => (started clock key VendorOpenAICodex ws provider "" s, Ok tt) end
  end.

(** [cut_hash]: what is before the first '#' and what is after it. *)
Definition cut_hash (s : string) : option (string * string) :=
  match index_byte s "#"%char with Some i => Some (take_str i s, drop_str (S i) s) | None => None end.

(** [parse_url]: code and state of the query of an absolute URL. *)
Definition parsePastedCode (pasted : string) : result string (string * string) :=
  let pasted := trim_space pasted in
  if (pasted =? "")%string then Err "missing authorization code"
  else
    let candidate := if negb (contains pasted "://") && contains pasted "?" then String.append "http://" pasted else pasted in
    match parse_url candidate with
    | Some (code, state) => if (code =? "")%string then Err "missing authorization code in redirect URL" else Ok (code, state)
    | None =>
        match cut_hash pasted with
        | Some (c, st) => if (c =? "")%string then Ok (pasted, "") else Ok (c, st)
        | None => Ok (pasted, "")
        end
    end.

(** CompleteLogin up to its first call to the database. *)
Definition complete_login (c : string) (clock : Z) (user ws provider state pasted : string) (s : pool_system) : pool_system * list pool_note :=
  let '(s, found) := getPending clock state s in
  match found with
  | None => (at_caller c (Finished (NotSignedIn "unknown or expired login state")) s, [])
  | Some p =>
      if negb (pl_Workspace p =? ws)%string || negb (pl_Provider p =? provider)%string
      then (at_caller c (Finished (NotSignedIn "state mismatch: login belongs to a different workspace or provider")) s, [])
      else
        match parsePastedCode pasted with
        | Err e => (at_caller c (Finished (NotSignedIn e)) s, [])
        | Ok (code, pastedState) =>
            if negb (pastedState =? "")%string && negb (pastedState =? pl_State p)%string
            then (at_caller c (Finished (NotSignedIn "state mismatch in pasted redirect")) s, [])
            else (at_caller c (Gate user ws provider state code) s, [])
        end
  end.

(** PollDeviceLogin up to its call to the vendor. *)
Definition poll_login (c : string) (clock : Z) (user ws provider key : string) (s : pool_system) : pool_system * list pool_note :=
  let '(s, found) := getPending clock key s in
  match found with
  | None => (at_caller c (Finished (NotSignedIn "unknown or expired device login")) s, [])
  | Some p =>
      if negb (pl_Workspace p =? ws)%string || negb (pl_Provider p =? provider)%string
      then (at_caller c (Finished (NotSignedIn "device login belongs to a different workspace or provider")) s, [])
      else (at_caller c (Polling user ws provider key) s, [])
  end.

Definition login_end (device : bool) (key : string) (a : answer) : phase := if device then Forgetting key (Finished a) else Finished a.

Definition gate_turn (c : string) (w : turn_world) (user ws provider key code : string) (s : pool_system) : pool_system * list pool_note :=
  if negb (tw_works w) then (at_caller c (Finished (NotSignedIn (error_text db_error))) s, [])
  else if userCanManageWorkspace (book (db s)) user ws then (at_caller c (Exchanging user ws provider key code) s, [])
  else (at_caller c (Finished (NotSignedIn (error_text ErrAgentForbidden))) s, []).

Definition exchange_turn (c : string) (w : turn_world) (user ws provider key : string) (s : pool_system) : pool_system * list pool_note :=
  match tw_exchange w with
  | Err e => (at_caller c (Finished (NotSignedIn e)) s, [])
  | Ok inp => (at_caller c (Forgetting key (Checking user ws provider key false inp)) s, [])
  end.

Definition poll_turn (c : string) (w : turn_world) (user ws provider key : string) (s : pool_system) : pool_system * list pool_note :=
  match tw_device w with
  | PollFailed e => (at_caller c (Forgetting key (Finished (NotSignedIn e))) s, [])
  | StillPending => (at_caller c (Finished PollPending) s, [])
  | DeviceDone inp => (at_caller c (Checking user ws provider key true inp) s, [])
  end.

Definition check_turn (c : string) (w : turn_world) (user ws provider key : string) (device : bool) (inp : ProviderAccountInput) (s : pool_system) : pool_system * list pool_note :=
  match (if tw_works w then login_checks (tw_seals w) user ws provider inp (db s) else Err db_error) with
  | Err e => (at_caller c (login_end device key (NotSignedIn (error_text e))) s, [])
  | Ok p => (at_caller c (Finding user ws p key device inp) s, [Cleared user ws p])
  end.

Definition find_turn (c : string) (w : turn_world) (user ws provider key : string) (device : bool) (inp : ProviderAccountInput) (s : pool_system) : pool_system * list pool_note :=
  if negb (tw_works w) then (at_caller c (login_end device key (NotSignedIn (error_text db_error))) s, [])
  else (at_caller c (Writing user ws provider key device inp (find_login provider ws inp (db s))) s, []).

Definition write_turn (c : string) (w : turn_world) (user ws provider key : string) (device : bool) (inp : ProviderAccountInput) (existing : option string) (s : pool_system) :
    pool_system * list pool_note :=
  if negb (tw_works w) || match existing with None => bool_decide (tw_fresh w ∈ minted s) | Some _ => false end
  then (at_caller c (login_end device key (NotSignedIn (error_text db_error))) s, [])
  else
    let '(d, res) := write_login (tw_now w) (tw_fresh w) user ws provider inp existing (db s) in
    let s := with_minted (default (tw_fresh w) existing) (with_db d s) in
    match res with
    | Err e => (at_caller c (login_end device key (NotSignedIn (error_text e))) s, [])
    | Ok id => (at_caller c (login_end device key (SignedIn id)) s, [Joined user ws provider id (in_AccessToken inp) (in_RefreshToken inp)])
    end.

(** ** The usage probe *)

Definition probe_gate_turn (c : string) (w : turn_world) (user ws provider account : string) (s : pool_system) : pool_system * list pool_note :=
  match (if tw_works w then WorkspaceProviderVendor user ws provider (db s) else Err db_error) with
  | Err e => (at_caller c (Finished (NoUsage (error_text e))) s, [])
  | Ok _ => (at_caller c (ProbeLoad ws provider account) s, [])
  end.

Definition probe_load_turn (c : string) (w : turn_world) (ws provider account : string) (s : pool_system) : pool_system * list pool_note :=
  match (if tw_works w then LoadProviderAccountRecord (tw_opens w) account (db s) else Err db_error) with
  | Err e => (at_caller c (Finished (NoUsage (error_text e))) s, [])
  | Ok rec =>
      if negb (pa_Provider (rec_Row rec) =? provider)%string || negb (pa_Workspace (rec_Row rec) =? ws)%string
      then (at_caller c (Finished (NoUsage "account does not belong to provider")) s, [])
      else if needsRefresh rec (tw_clock w) then (at_caller c (Refreshing rec (ForProbe ws provider)) s, [])
      else (at_caller c (Fetching rec) s, [])
  end.

(** The vendor is asked with the account's token; a vendor without a descriptor has no probe. *)
Definition fetch_turn (c : string) (w : turn_world) (rec : AccountRecord) (s : pool_system) : pool_system * list pool_note :=
  match expiresSkew (NormalizeOAuthVendor (rec_Vendor rec)), tw_usage w with
  | None, _ => (at_caller c (Finished (NoUsage "unsupported OAuth vendor")) s, [])
  | Some _, Err e => (at_caller c (Finished (NoUsage e)) s, [])
  | Some _, Ok u => (at_caller c (Keeping (rec_ID rec) u) s, [])
  end.

Definition keep_turn (c : string) (w : turn_world) (account usage : string) (s : pool_system) : pool_system * list pool_note :=
  if negb (tw_works w) then (at_caller c (Finished (NoUsage (error_text db_error))) s, [])
  else
    let '(d, res) := UpdateProviderAccountUsage account usage (db s) in
    (at_caller c (Finished (match res with Ok _ => Usage usage | Err e => NoUsage (error_text e) end)) (with_db d s), []).

(** ** One turn of a caller *)

Definition turn (c : string) (w : turn_world) (s : pool_system) : pool_system * list pool_note :=
  match callers s !! c with
  | None | Some (Waiting _ _) | Some (Finished _) => (s, [])
  | Some (Picking provider tries lastErr) => acquire_turn c w provider tries lastErr s
  | Some (Retiring account cause next) => (at_caller c next (ignored w (DisableProviderAccount account cause) s), [])
  | Some (Refreshing rec why) => join_turn c rec why s
  | Some (Leading rec why) => lead_turn c w rec why s
  | Some (Storing rec why res) => store_turn c w rec why res s
  | Some (Landing rec why res) => land_turn c rec why res s
  | Some (Blocking account until) => (at_caller c (Finished Reported) (ignored w (BlockProviderAccount account until) s), [])
  | Some (Reloading account) => reload_turn c w account s
  | Some (Gate user ws provider key code) => gate_turn c w user ws provider key code s
  | Some (Exchanging user ws provider key _) => exchange_turn c w user ws provider key s
  | Some (Polling user ws provider key) => poll_turn c w user ws provider key s
  | Some (Checking user ws provider key device inp) => check_turn c w user ws provider key device inp s
  | Some (Finding user ws provider key device inp) => find_turn c w user ws provider key device inp s
  | Some (Writing user ws provider key device inp existing) => write_turn c w user ws provider key device inp existing s
  | Some (Forgetting key next) => (at_caller c next (deletePending key s), [])
  | Some (ProbeGate user ws provider account) => probe_gate_turn c w user ws provider account s
  | Some (ProbeLoad ws provider account) => probe_load_turn c w ws provider account s
  | Some (Fetching rec) => fetch_turn c w rec s
  | Some (Keeping account usage) => keep_turn c w account usage s
  end.

(** ** Beginnings *)

(** Report by the status of the request's error, with its Retry-After. *)
Definition report_phase (clock : Z) (account : string) (outcome : option (Z * Z)) : phase :=
  match outcome with
  | None => Finished Reported
  | Some (status, retryAfter) =>
      if status =? 429 then Blocking account (if 0 <? retryAfter then clock + retryAfter else clock + 5 * minute)
      else if (status =? 401) || (status =? 403) then Reloading account
      else Finished Reported
  end.

Inductive pool_act :=
| Acquire (c provider : string)
| Report (c account : string) (outcome : option (Z * Z)) (clock : Z)
| CompleteLogin (c : string) (clock : Z) (user ws provider state pasted : string)
| PollDeviceLogin (c : string) (clock : Z) (user ws provider key : string)
| ProbeAccountUsage (c user ws provider account : string)
| Begin (clock : Z) (key user ws provider : string) (device : option (result string unit))
| Look (c : string)
| Turn (c : string) (w : turn_world)
| AddProvider (now : Z) (seals : bool) (fresh user ws : string) (inp : ProviderInput)
| EditProvider (seals : bool) (user ws provider : string) (inp : ProviderInput)
| DropProvider (user ws provider : string)
| DropAccount (user ws provider account : string)
| SetStatus (user ws provider account status : string)
| AccountsChange (book : DB).

(** A caller begins when it is at nothing. *)
Definition idle (c : string) (s : pool_system) : bool := match callers s !! c with None | Some (Finished _) => true | _ => false end.

(** The statement of a pick begins, once. *)
Definition may_look (c : string) (s : pool_system) : bool :=
  match callers s !! c, looks s !! c with Some (Picking _ (S _) _), None => true | _, _ => false end.

Definition pool_act_step (a : pool_act) (s : pool_system) : pool_system * list pool_note :=
  match a with
  | Acquire c provider => if idle c s then (at_caller c (Picking provider maxAcquireAttempts None) s, []) else (s, [])
  | Report c account outcome clock => if idle c s then (at_caller c (report_phase clock account outcome) s, []) else (s, [])
  | CompleteLogin c clock user ws provider state pasted => if idle c s then complete_login c clock user ws provider state pasted s else (s, [])
  | PollDeviceLogin c clock user ws provider key => if idle c s then poll_login c clock user ws provider key s else (s, [])
  | ProbeAccountUsage c user ws provider account => if idle c s then (at_caller c (ProbeGate user ws provider account) s, []) else (s, [])
  | Begin clock key user ws provider None => ((StartLogin clock key user ws provider s).1, [])
  | Begin clock key user ws provider (Some init) => ((StartDeviceLogin clock key user ws provider init s).1, [])
  | Look c => if may_look c s then (looking c s, [Looked c]) else (s, [])
  | Turn c w => turn c w s
  | AddProvider now seals fresh user ws inp =>
      if bool_decide (fresh ∈ minted s) then (s, []) else (with_minted fresh (with_db (CreateWorkspaceProvider now seals fresh user ws inp (db s)).1 s), [])
  | EditProvider seals user ws provider inp => (with_db (UpdateWorkspaceProvider seals user ws provider inp (db s)).1 s, [])
  | DropProvider user ws provider => (with_db (DeleteWorkspaceProvider user ws provider (db s)).1 s, [])
  | DropAccount user ws provider account => (with_db (DeleteProviderAccount user ws provider account (db s)).1 s, [])
  | SetStatus user ws provider account status => (with_db (SetProviderAccountStatus user ws provider account status (db s)).1 s, [])
  | AccountsChange b => (with_db (with_book b (db s)) s, [])
  end.
End Pool.
