(* ===== verification/PoolHistory.v ===== *)
(** * PoolHistory: the account pools in any order of calls

    Histories of [AccountPool]: any acts of any callers, members and the database.  Whose
    tokens are served, who refreshes, how the accounts rotate and that every call ends. *)

From S2P Require Import Prelude GoStrings GoTime Operations Principals Accounts ProviderAccounts AccountPool.
Import String.
Open Scope string_scope.
Open Scope list_scope.
Open Scope Z_scope.

Section History.
Context `{Vendors} `{PoolColumns} (parse_url : string -> option (string * string)).

Definition no_pool (b : DB) : pool_system :=
  {| db := {| book := b; providers := ∅; tiers := ∅; pooled := ∅ |}; pending := ∅; flights := ∅; callers := ∅; minted := ∅; looks := ∅ |}.

Definition play1 (ts : list pool_note * pool_system) (a : pool_act) : list pool_note * pool_system :=
  let '(s, ns) := pool_act_step parse_url a ts.2 in (ts.1 ++ ns, s).

Definition play (b : DB) (acts : list pool_act) : list pool_note * pool_system := fold_left play1 acts ([], no_pool b).

(** An invariant of every history. *)
Lemma play_ind (I : list pool_note -> pool_system -> Prop) b : I [] (no_pool b) ->
  (forall tr s a s' ns, I tr s -> pool_act_step parse_url a s = (s', ns) -> I (tr ++ ns) s') -> forall acts, I (play b acts).1 (play b acts).2.
Proof.
  intros Hstart Hstep acts. unfold play. induction acts as [|a acts IH] using rev_ind; [done|]. rewrite fold_left_app. cbn. set (ts := fold_left play1 acts ([], no_pool b)) in *.
  unfold play1. destruct (pool_act_step parse_url a ts.2) as [s ns] eqn:E. by apply (Hstep ts.1 ts.2 a).
Qed.

(** ** The group of refreshes *)

(** The account a caller is refreshing itself. *)
Definition leads (ph : phase) : option string :=
  match ph with Leading rec _ | Storing rec _ _ | Landing rec _ _ => Some (rec_ID rec) | _ => None end.

Definition waits_for (ph : phase) : option string := match ph with Waiting rec _ => Some (rec_ID rec) | _ => None end.

(** What a caller is put off to do is outside the group. *)
Fixpoint tame (ph : phase) : Prop :=
  match ph with Retiring _ _ next | Forgetting _ next => leads next = None /\ waits_for next = None /\ tame next | _ => True end.

Record group_ok (s : pool_system) : Prop := {
  go_leader : forall id c, flights s !! id = Some c <-> exists ph, callers s !! c = Some ph /\ leads ph = Some id;
  go_waiter : forall c ph id, callers s !! c = Some ph -> waits_for ph = Some id -> is_Some (flights s !! id);
  go_tame : forall c ph, callers s !! c = Some ph -> tame ph;
}.

(** A caller that goes on without the group. *)
Definition aside (ph : phase) : Prop := leads ph = None /\ waits_for ph = None /\ tame ph.

Lemma after_aside rec why res : aside (after_refresh rec why res).
Proof. by destruct why, res. Qed.

Lemma group_set s s' c ph : group_ok s -> flights s' = flights s -> callers s' = <[c := ph]> (callers s) -> waits_for ph = None -> tame ph ->
  leads ph = match callers s !! c with Some old => leads old | None => None end -> group_ok s'.
Proof.
  intros [Hl Hw Ht] Hf Hc Hwait Htame Hlead. constructor; rewrite ?Hf, Hc.
  - intros id c'. rewrite Hl. destruct (decide (c' = c)) as [->|Hne]; [|by rewrite lookup_insert_ne]. rewrite lookup_insert_eq. split.
    + intros (old & Hold & E). rewrite Hold in Hlead. exists ph. split; [done|congruence].
    + intros (ph' & [= <-] & E). destruct (callers s !! c) as [old|]; [exists old; split; [done|congruence]|congruence].
  - intros c' ph' id. destruct (decide (c' = c)) as [->|Hne]; [rewrite lookup_insert_eq; intros [= <-]; congruence|]. rewrite lookup_insert_ne by done. apply Hw.
  - intros c' ph'. destruct (decide (c' = c)) as [->|Hne]; [rewrite lookup_insert_eq; by intros [= <-]|]. rewrite lookup_insert_ne by done. apply Ht.
Qed.

(** Turns of a caller outside the group, before and after. *)
Lemma group_aside s s' c ph old : group_ok s -> callers s !! c = Some old -> aside old -> aside ph -> flights s' = flights s ->
  callers s' = <[c := ph]> (callers s) -> group_ok s'.
Proof. intros Hg Hold [Ho _] (Hl & Hw & Ht) Hf Hc. apply (group_set s s' c ph); try done. rewrite Hold. congruence. Qed.

Lemma group_same s s' : group_ok s -> flights s' = flights s -> callers s' = callers s -> group_ok s'.
Proof. intros [Hl Hw Ht] Hf Hc. constructor; rewrite ?Hf, Hc; done. Qed.

Lemma group_begin s s' c ph : group_ok s -> idle c s = true -> flights s' = flights s -> callers s' = <[c := ph]> (callers s) -> aside ph -> group_ok s'.
Proof.
  intros Hg Hi Hf Hc (Hl & Hw & Ht). apply (group_set s s' c ph); try done. unfold idle in Hi. destruct (callers s !! c) as [[]|]; try done.
Qed.

Lemma group_join s c rec why s' ns : group_ok s -> callers s !! c = Some (Refreshing rec why) -> join_turn c rec why s = (s', ns) -> group_ok s'.
Proof.
  intros [Hl Hw Ht] Hc. unfold join_turn. destruct (flights s !! rec_ID rec) as [l|] eqn:Hf.
  - intros [= <- <-]. constructor; cbn.
    + intros id c'. rewrite Hl. destruct (decide (c' = c)) as [->|Hne]; [|by rewrite lookup_insert_ne]. rewrite lookup_insert_eq, Hc. split; intros (ph & [= <-] & ?); done.
    + intros c' ph id. destruct (decide (c' = c)) as [->|Hne]; [rewrite lookup_insert_eq; intros [= <-] [= <-]; by exists l|]. rewrite lookup_insert_ne by done. apply Hw.
    + intros c' ph. destruct (decide (c' = c)) as [->|Hne]; [rewrite lookup_insert_eq; by intros [= <-]|]. rewrite lookup_insert_ne by done. apply Ht.
  - assert (Hgo : forall ph, leads ph = Some (rec_ID rec) -> waits_for ph = None -> tame ph -> group_ok (at_caller c ph (with_flights (<[rec_ID rec := c]> (flights s)) s))).
    { intros ph Hlead Hwait Htame. constructor; cbn.
      - intros id c'. destruct (decide (id = rec_ID rec)) as [->|Hne].
        + rewrite lookup_insert_eq. split; [intros [= <-]; exists ph; by rewrite lookup_insert_eq|]. intros (ph' & Hph & E). destruct (decide (c' = c)) as [->|Hne]; [done|].
          rewrite lookup_insert_ne in Hph by done. assert (Hx : flights s !! rec_ID rec = Some c') by (apply Hl; by exists ph'). congruence.
        + rewrite lookup_insert_ne by done. rewrite Hl. destruct (decide (c' = c)) as [->|Hnc]; [|by rewrite lookup_insert_ne].
          rewrite lookup_insert_eq, Hc. split; intros (ph' & [= <-] & E); [done|congruence].
      - intros c' ph' id. destruct (decide (c' = c)) as [->|Hnc]; [rewrite lookup_insert_eq; intros [= <-]; congruence|]. rewrite lookup_insert_ne by done.
        intros Hph Hid. destruct (Hw c' ph' id Hph Hid) as [l Hll]. destruct (decide (id = rec_ID rec)) as [->|Hne]; [rewrite lookup_insert_eq; by exists c|]. rewrite lookup_insert_ne by done. by exists l.
      - intros c' ph'. destruct (decide (c' = c)) as [->|Hne]; [rewrite lookup_insert_eq; by intros [= <-]|]. rewrite lookup_insert_ne by done. apply Ht. }
    destruct (refresh_request rec); intros [= <- <-]; by apply Hgo.
Qed.

Lemma landed_leads id res ph : leads (landed id res ph) = leads ph.
Proof. destruct ph; try done. cbn. destruct (rec_ID rec =? id)%string; [|done]. apply after_aside. Qed.

Lemma landed_waits id res ph i : waits_for (landed id res ph) = Some i -> waits_for ph = Some i /\ i <> id.
Proof.
  destruct ph; try done. cbn. destruct (String.eqb_spec (rec_ID rec) id) as [E|E]; [|by intros [= <-]]. by rewrite (proj1 (proj2 (after_aside rec why res))).
Qed.

Lemma group_land s c rec why res s' ns : group_ok s -> callers s !! c = Some (Landing rec why res) -> land_turn c rec why res s = (s', ns) -> group_ok s'.
Proof.
  intros [Hl Hw Ht] Hc [= <- <-]. destruct (after_aside rec why res) as (Ha & Hb & Htame).
  constructor; cbn.
  - intros id c'. destruct (decide (c' = c)) as [->|Hnc].
    + rewrite lookup_insert_eq. split.
      * intros Hf. apply lookup_delete_Some in Hf as [Hne Hf]. apply Hl in Hf as (ph & Hph & E). rewrite Hc in Hph. injection Hph as <-. cbn in E. congruence.
      * intros (ph & [= <-] & E). congruence.
    + rewrite lookup_insert_ne by done. rewrite lookup_delete_Some, Hl. split.
      * intros [Hne (ph & Hph & E)]. exists (landed (rec_ID rec) res ph). by rewrite lookup_fmap, Hph, landed_leads.
      * intros (ph & Hph & E). rewrite lookup_fmap in Hph. destruct (callers s !! c') as [old|] eqn:Hold; [|done]. injection Hph as <-. rewrite landed_leads in E.
        split; [|by exists old]. intros <-. apply Hnc. assert (Hx : flights s !! rec_ID rec = Some c') by (apply Hl; by exists old).
        assert (Hy : flights s !! rec_ID rec = Some c) by (apply Hl; exists (Landing rec why res); by split). congruence.
  - intros c' ph id. destruct (decide (c' = c)) as [->|Hnc]; [rewrite lookup_insert_eq; intros [= <-]; congruence|]. rewrite lookup_insert_ne, lookup_fmap by done.
    destruct (callers s !! c') as [old|] eqn:Hold; [|done]. intros [= <-] E. apply landed_waits in E as [E Hne]. rewrite lookup_delete_ne by congruence. by apply (Hw c' old).
  - intros c' ph. destruct (decide (c' = c)) as [->|Hnc]; [rewrite lookup_insert_eq; by intros [= <-]|]. rewrite lookup_insert_ne, lookup_fmap by done.
    destruct (callers s !! c') as [old|] eqn:Hold; [|done]. intros [= <-]. specialize (Ht c' old Hold). destruct old; try done. cbn. destruct (_ =? _)%string; [|done].
    apply after_aside.
Qed.

(** A turn that is outside the group before and after: one caller moved, no flight did. *)
Definition moved (s s' : pool_system) (c : string) : Prop :=
  flights s' = flights s /\ ((callers s' = callers s) \/ exists ph, callers s' = <[c := ph]> (callers s) /\ aside ph).

Lemma group_moved s s' c old : group_ok s -> callers s !! c = Some old -> aside old -> moved s s' c -> group_ok s'.
Proof. intros Hg Hc Ho [Hf [Hs|(ph & Hs & Ha)]]; [by apply (group_same s)|by apply (group_aside s s' c ph old)]. Qed.

Ltac moves := repeat case_match; intros; simplify_eq/=; (split; [done|]); first [by left | right; eexists; split; [done|by split]].

Lemma acquire_moved c w provider tries lastErr s s' ns : acquire_turn c w provider tries lastErr s = (s', ns) -> moved s s' c.
Proof. unfold acquire_turn. moves. Qed.

Lemma reload_moved c w account s s' ns : reload_turn c w account s = (s', ns) -> moved s s' c.
Proof. unfold reload_turn. moves. Qed.

Lemma gate_moved c w user ws provider key code s s' ns : gate_turn c w user ws provider key code s = (s', ns) -> moved s s' c.
Proof. unfold gate_turn. moves. Qed.

Lemma check_moved c w user ws provider key device inp s s' ns : check_turn c w user ws provider key device inp s = (s', ns) -> moved s s' c.
Proof. unfold check_turn, login_end. moves. Qed.

Lemma find_moved c w user ws provider key device inp s s' ns : find_turn c w user ws provider key device inp s = (s', ns) -> moved s s' c.
Proof. unfold find_turn, login_end. moves. Qed.

Lemma write_moved c w user ws provider key device inp existing s s' ns : write_turn c w user ws provider key device inp existing s = (s', ns) -> moved s s' c.
Proof. unfold write_turn, login_end. moves. Qed.

Lemma probe_gate_moved c w user ws provider account s s' ns : probe_gate_turn c w user ws provider account s = (s', ns) -> moved s s' c.
Proof. unfold probe_gate_turn. moves. Qed.

Lemma probe_load_moved c w ws provider account s s' ns : probe_load_turn c w ws provider account s = (s', ns) -> moved s s' c.
Proof. unfold probe_load_turn. moves. Qed.

Lemma group_lead c w rec why s s' ns : group_ok s -> callers s !! c = Some (Leading rec why) -> lead_turn c w rec why s = (s', ns) -> group_ok s'.
Proof.
  intros Hg Hc. unfold lead_turn. destruct (refresh_result _ _ _) as [res|e]; intros [= <- <-]; (eapply group_set; [exact Hg|done|done|done|done|by rewrite Hc]).
Qed.

Lemma group_store c w rec why res s s' ns : group_ok s -> callers s !! c = Some (Storing rec why res) -> store_turn c w rec why res s = (s', ns) -> group_ok s'.
Proof.
  intros Hg Hc. unfold store_turn. destruct (negb (tw_works w)); [|destruct (UpdateProviderAccountTokens _ _ _ _ _ _) as [d [u|e]]];
    intros [= <- <-]; (eapply group_set; [exact Hg|done|done|done|done|by rewrite Hc]).
Qed.

Lemma group_turn c w s s' ns : group_ok s -> turn c w s = (s', ns) -> group_ok s'.
Proof.
  intros Hg. unfold turn. destruct (callers s !! c) as [old|] eqn:Hc; [|by intros [= <- <-]]. pose proof (go_tame _ Hg c old Hc) as Ht.
  assert (Hm : aside old -> moved s s' c -> group_ok s') by (intros Ha Hm; by apply (group_moved s s' c old)).
  destruct old; intros Ht'; try (by injection Ht' as <- <-).
  - by apply Hm; [|eapply acquire_moved].
  - injection Ht' as <- <-. destruct Ht as (? & ? & ?). apply Hm; [done|]. unfold ignored. destruct (tw_works w); split; try done; right; by eexists.
  - by eapply group_join.
  - by eapply group_lead.
  - by eapply group_store.
  - by eapply group_land.
  - injection Ht' as <- <-. apply Hm; [done|]. unfold ignored. destruct (tw_works w); split; try done; right; by eexists.
  - by apply Hm; [|eapply reload_moved].
  - by apply Hm; [|eapply gate_moved].
  - apply Hm; [done|]. revert Ht'. unfold exchange_turn. moves.
  - apply Hm; [done|]. revert Ht'. unfold poll_turn. moves.
  - by apply Hm; [|eapply check_moved].
  - by apply Hm; [|eapply find_moved].
  - by apply Hm; [|eapply write_moved].
  - injection Ht' as <- <-. destruct Ht as (? & ? & ?). apply Hm; [done|]. split; [done|]. right; by eexists.
  - by apply Hm; [|eapply probe_gate_moved].
  - by apply Hm; [|eapply probe_load_moved].
  - apply Hm; [done|]. revert Ht'. unfold fetch_turn. moves.
  - apply Hm; [done|]. revert Ht'. unfold keep_turn. moves.
Qed.

Lemma group_step a s s' ns : group_ok s -> pool_act_step parse_url a s = (s', ns) -> group_ok s'.
Proof.
  intros Hg. destruct a; cbn [pool_act_step].
  - destruct (idle c s) eqn:Hi; intros [= <- <-]; [|done]. by eapply (group_begin s _ c).
  - destruct (idle c s) eqn:Hi; intros [= <- <-]; [|done]. eapply (group_begin s _ c); try done. unfold report_phase. by repeat case_match.
  - destruct (idle c s) eqn:Hi; [|by intros [= <- <-]]. unfold complete_login, getPending. repeat case_match; intros; simplify_eq/=; by eapply (group_begin s _ c).
  - destruct (idle c s) eqn:Hi; [|by intros [= <- <-]]. unfold poll_login, getPending. repeat case_match; intros; simplify_eq/=; by eapply (group_begin s _ c).
  - destruct (idle c s) eqn:Hi; intros [= <- <-]; [|done]. by eapply (group_begin s _ c).
  - destruct device; intros [= <- <-]; apply (group_same s); unfold StartLogin, StartDeviceLogin, started, putPending; by repeat case_match.
  - destruct (may_look c s); intros [= <- <-]; [|done]. by apply (group_same s).
  - by apply group_turn.
  - destruct (bool_decide _); intros [= <- <-]; by apply (group_same s).
  - intros [= <- <-]. by apply (group_same s).
  - intros [= <- <-]. by apply (group_same s).
  - intros [= <- <-]. by apply (group_same s).
  - intros [= <- <-]. by apply (group_same s).
  - intros [= <- <-]. by apply (group_same s).
Qed.

Lemma play_group b acts : group_ok (play b acts).2.
Proof. apply (play_ind (fun _ s => group_ok s)); [|intros tr s a s' ns; apply group_step]. constructor; cbn; try done. intros id c. split; [done|]. by intros (ph & ? & _). Qed.

(** How far a refresh is from landing. *)
Definition to_land (ph : phase) : nat := match ph with Leading _ _ => 3 | Storing _ _ _ => 2 | Landing _ _ _ => 1 | _ => 0 end.

Lemma leader_goes_on c w s ph id : callers s !! c = Some ph -> leads ph = Some id ->
  (exists ph', callers (turn c w s).1 !! c = Some ph' /\ leads ph' = Some id /\ (to_land ph' < to_land ph)%nat) \/
  forall c' ph', c' <> c -> callers s !! c' = Some ph' -> waits_for ph' = Some id -> exists ph'', callers (turn c w s).1 !! c' = Some ph'' /\ waits_for ph'' = None.
Proof.
  intros Hc Hl. unfold turn. rewrite Hc. destruct ph; try done; injection Hl as <-.
  - left. unfold lead_turn. destruct (refresh_result _ _ _); cbn [fst]; (eexists; split; [apply lookup_insert_eq|]; split; [done|cbn; lia]).
  - left. unfold store_turn. destruct (negb (tw_works w)); [|destruct (UpdateProviderAccountTokens _ _ _ _ _ _) as [d r]]; cbn [fst];
      (eexists; split; [apply lookup_insert_eq|]; split; [done|cbn; lia]).
  - right. intros c' ph' Hne Hc' Hw. cbn. rewrite lookup_insert_ne, lookup_fmap, Hc' by done. cbn. destruct ph'; try done. injection Hw as E. cbn. rewrite E, String.eqb_refl.
    eexists. split; [done|]. apply after_aside.
Qed.

(** C33: at most one refresh of an account is under way, and a caller that waits for one waits
    for a caller that is at it, whose every turn, whatever it meets, brings the refresh nearer
    to its end or ends it for all who wait. *)
Theorem refreshes_are_shared b acts : let s := (play b acts).2 in
  (forall id c1 c2 ph1 ph2, callers s !! c1 = Some ph1 -> callers s !! c2 = Some ph2 -> leads ph1 = Some id -> leads ph2 = Some id -> c1 = c2) /\
  (forall id c ph, callers s !! c = Some ph -> waits_for ph = Some id ->
     exists l lead, callers s !! l = Some lead /\ leads lead = Some id /\ forall w,
       (exists lead', callers (turn l w s).1 !! l = Some lead' /\ leads lead' = Some id /\ (to_land lead' < to_land lead)%nat) \/
       exists ph', callers (turn l w s).1 !! c = Some ph' /\ waits_for ph' = None).
Proof.
  intros s. pose proof (play_group b acts) as Hg. fold s in Hg. split.
  - intros id c1 c2 ph1 ph2 H1 H2 L1 L2. assert (E1 : flights s !! id = Some c1) by (apply (go_leader _ Hg); by exists ph1).
    assert (E2 : flights s !! id = Some c2) by (apply (go_leader _ Hg); by exists ph2). congruence.
  - intros id c ph Hc Hw. destruct (go_waiter _ Hg c ph id Hc Hw) as [l Hl]. apply (go_leader _ Hg) in Hl as (lead & Hlead & L). exists l, lead. split_and!; [done|done|]. intros w.
    destruct (leader_goes_on l w s lead id Hlead L) as [?|Hall]; [by left|]. right. apply (Hall c ph); [|done|done]. intros ->. rewrite Hc in Hlead. injection Hlead as ->. by destruct lead.
Qed.

(** ** Every call ends *)

Definition base (why : purpose) : nat := match why with ForRun _ tries => 7 * tries + 1 | ForReport => 0 | ForProbe _ _ => 2 end.

(** An upper bound of the turns a caller has left. *)
Fixpoint patience (ph : phase) : nat :=
  match ph with
  | Picking _ tries _ => 7 * tries + 1
  | Retiring _ _ next | Forgetting _ next => S (patience next)
  | Refreshing _ why => base why + 5
  | Leading _ why => base why + 4
  | Storing _ why _ => base why + 3
  | Waiting _ why | Landing _ why _ => base why + 2
  | Blocking _ _ | Keeping _ _ => 1
  | Reloading _ => 6
  | Gate _ _ _ _ _ => 7
  | Exchanging _ _ _ _ _ => 6
  | Polling _ _ _ _ => 5
  | Checking _ _ _ _ _ _ => 4
  | Finding _ _ _ _ _ _ => 3
  | Writing _ _ _ _ _ _ _ => 2
  | ProbeGate _ _ _ _ => 9
  | ProbeLoad _ _ _ => 8
  | Fetching _ => 2
  | Finished _ => 0
  end.

Lemma after_patience rec why res : (patience (after_refresh rec why res) <= base why + 1)%nat.
Proof. destruct why, res; cbn; lia. Qed.

Lemma landed_patience id res ph : (patience (landed id res ph) <= patience ph)%nat.
Proof. destruct ph; try done. cbn. destruct (rec_ID rec =? id)%string; [|done]. pose proof (after_patience rec why res). lia. Qed.

(** A turn of [c] that counts: not a wait, not an end, and a pick that gives a row the
    database may give. *)
Definition counts (c : string) (w : turn_world) (s : pool_system) : bool :=
  match callers s !! c with
  | None | Some (Waiting _ _) | Some (Finished _) => false
  | Some (Picking provider (S _) _) =>
      negb (tw_works w) || match pg_key provider with Some p => may_pick (tw_now w) (tw_locked w) p (tw_pick w) (view c s) (db s) | None => true end
  | Some _ => true
  end.

Definition takes (c : string) (a : pool_act) (s : pool_system) : bool := match a with Turn c' w => (c' =? c)%string && counts c w s | _ => false end.

Definition begins (c : string) (a : pool_act) : bool :=
  match a with
  | Acquire c' _ | Report c' _ _ _ | CompleteLogin c' _ _ _ _ _ _ | PollDeviceLogin c' _ _ _ _ _ | ProbeAccountUsage c' _ _ _ _ => (c' =? c)%string
  | _ => false
  end.

(** The turns of [c] that count in what follows [s]. *)
Fixpoint spent (c : string) (acts : list pool_act) (s : pool_system) : nat :=
  match acts with [] => 0 | a :: acts => (if takes c a s then 1 else 0) + spent c acts (pool_act_step parse_url a s).1 end.

Ltac settles := repeat case_match; simplify_eq/=; (eexists; split; [apply lookup_insert_eq|cbn in *; lia]).

Lemma acquire_patience c w provider tries lastErr s : callers s !! c = Some (Picking provider tries lastErr) ->
  exists ph', callers (acquire_turn c w provider tries lastErr s).1 !! c = Some ph' /\ ((if counts c w s then 1 else 0) + patience ph' <= 7 * tries + 1)%nat.
Proof.
  intros Hc. unfold acquire_turn, counts. rewrite Hc. destruct tries as [|tries]; [settles|]. destruct (tw_works w); cbn [negb orb]; [|settles].
  destruct (pg_key provider) as [p|]; [|settles]. destruct (may_pick _ _ _ _ _ _); cbn [negb]; [settles|]. cbn [fst]. rewrite Hc. eexists. split; [done|]. cbn. lia.
Qed.

Lemma refresh_patience c w s ph : callers s !! c = Some ph ->
  match ph with Refreshing _ _ | Leading _ _ | Storing _ _ _ | Landing _ _ _ => True | _ => False end ->
  exists ph', callers (turn c w s).1 !! c = Some ph' /\ (1 + patience ph' <= patience ph)%nat.
Proof.
  intros Hc Hph. unfold turn. rewrite Hc. destruct ph; try done.
  - unfold join_turn. settles.
  - unfold lead_turn. settles.
  - unfold store_turn. settles.
  - cbn. eexists. split; [apply lookup_insert_eq|]. pose proof (after_patience rec why res). lia.
Qed.

Lemma turn_patience c w s ph : callers s !! c = Some ph ->
  exists ph', callers (turn c w s).1 !! c = Some ph' /\ ((if counts c w s then 1 else 0) + patience ph' <= patience ph)%nat.
Proof.
  intros Hc. destruct (match ph with Refreshing _ _ | Leading _ _ | Storing _ _ _ | Landing _ _ _ => true | _ => false end) eqn:Hph.
  - destruct (refresh_patience c w s ph Hc) as (ph' & ? & ?); [by destruct ph|]. exists ph'. split; [done|]. by destruct (counts c w s); lia.
  - destruct ph; try done; unfold turn; rewrite Hc.
    + by apply acquire_patience.
    + cbn. eexists. split; [apply lookup_insert_eq|]. destruct (counts c w s); lia.
    + unfold counts. rewrite Hc. cbn [fst]. by exists (Waiting rec why).
    + cbn. eexists. split; [apply lookup_insert_eq|]. destruct (counts c w s); cbn; lia.
    + unfold reload_turn, counts. rewrite Hc. settles.
    + unfold gate_turn, counts. rewrite Hc. settles.
    + unfold exchange_turn, counts. rewrite Hc. settles.
    + unfold poll_turn, counts. rewrite Hc. settles.
    + unfold check_turn, login_end, counts. rewrite Hc. settles.
    + unfold find_turn, login_end, counts. rewrite Hc. settles.
    + unfold write_turn, login_end, counts. rewrite Hc. settles.
    + cbn. eexists. split; [apply lookup_insert_eq|]. destruct (counts c w s); lia.
    + unfold probe_gate_turn, counts. rewrite Hc. settles.
    + unfold probe_load_turn, counts. rewrite Hc. settles.
    + unfold fetch_turn, counts. rewrite Hc. settles.
    + unfold keep_turn, counts. rewrite Hc. settles.
    + unfold counts. rewrite Hc. cbn [fst]. by exists (Finished a).
Qed.

(** The turn of another leaves a caller where it is, or lands the flight it waits for. *)
Lemma turn_other c c' w s ph : c' <> c -> callers s !! c = Some ph ->
  exists ph', callers (turn c' w s).1 !! c = Some ph' /\ (patience ph' <= patience ph)%nat.
Proof.
  intros Hne Hc. assert (Hsame : forall s', callers s' !! c = callers s !! c -> exists ph', callers s' !! c = Some ph' /\ (patience ph' <= patience ph)%nat).
  { intros s' E. exists ph. rewrite E. by split. }
  assert (Hmoved : forall s', moved s s' c' -> callers s' !! c = callers s !! c).
  { intros s' [_ [->|(ph' & -> & _)]]; [done|by rewrite lookup_insert_ne]. }
  unfold turn. destruct (callers s !! c') as [old|] eqn:Hold; [|by apply Hsame]. destruct old; try (by apply Hsame).
  - destruct (acquire_turn _ _ _ _ _ _) as [s' ns] eqn:E. by eapply Hsame, Hmoved, acquire_moved.
  - apply Hsame. cbn. rewrite lookup_insert_ne by done. unfold ignored. by destruct (tw_works w).
  - apply Hsame. unfold join_turn. repeat case_match; cbn; by rewrite lookup_insert_ne.
  - apply Hsame. unfold lead_turn. repeat case_match; cbn; by rewrite lookup_insert_ne.
  - apply Hsame. unfold store_turn. repeat case_match; cbn; by rewrite lookup_insert_ne.
  - exists (landed (rec_ID rec) res ph). cbn. rewrite lookup_insert_ne, lookup_fmap, Hc by done. split; [done|apply landed_patience].
  - apply Hsame. cbn. rewrite lookup_insert_ne by done. unfold ignored. by destruct (tw_works w).
  - destruct (reload_turn _ _ _ _) as [s' ns] eqn:E. by eapply Hsame, Hmoved, reload_moved.
  - destruct (gate_turn _ _ _ _ _ _ _ _) as [s' ns] eqn:E. by eapply Hsame, Hmoved, gate_moved.
  - apply Hsame. unfold exchange_turn. repeat case_match; cbn; by rewrite lookup_insert_ne.
  - apply Hsame. unfold poll_turn. repeat case_match; cbn; by rewrite lookup_insert_ne.
  - destruct (check_turn _ _ _ _ _ _ _ _ _) as [s' ns] eqn:E. by eapply Hsame, Hmoved, check_moved.
  - destruct (find_turn _ _ _ _ _ _ _ _ _) as [s' ns] eqn:E. by eapply Hsame, Hmoved, find_moved.
  - destruct (write_turn _ _ _ _ _ _ _ _ _ _) as [s' ns] eqn:E. by eapply Hsame, Hmoved, write_moved.
  - apply Hsame. cbn. by rewrite lookup_insert_ne.
  - destruct (probe_gate_turn _ _ _ _ _ _ _) as [s' ns] eqn:E. by eapply Hsame, Hmoved, probe_gate_moved.
  - destruct (probe_load_turn _ _ _ _ _ _) as [s' ns] eqn:E. by eapply Hsame, Hmoved, probe_load_moved.
  - apply Hsame. unfold fetch_turn. repeat case_match; cbn; by rewrite lookup_insert_ne.
  - apply Hsame. unfold keep_turn. repeat case_match; cbn; by rewrite lookup_insert_ne.
Qed.

Lemma step_patience a c s ph : callers s !! c = Some ph -> begins c a = false ->
  exists ph', callers (pool_act_step parse_url a s).1 !! c = Some ph' /\ ((if takes c a s then 1 else 0) + patience ph' <= patience ph)%nat.
Proof.
  intros Hc Hb. assert (Hsame : forall s', callers s' !! c = callers s !! c -> exists ph', callers s' !! c = Some ph' /\ (0 + patience ph' <= patience ph)%nat).
  { intros s' E. exists ph. rewrite E. by split. }
  destruct a; cbn [takes pool_act_step]; cbn [begins] in Hb.
  - apply Hsame. apply String.eqb_neq in Hb. destruct (idle c0 s); [|done]. cbn. by rewrite lookup_insert_ne.
  - apply Hsame. apply String.eqb_neq in Hb. destruct (idle c0 s); [|done]. cbn. by rewrite lookup_insert_ne.
  - apply Hsame. apply String.eqb_neq in Hb. destruct (idle c0 s); [|done]. unfold complete_login, getPending. repeat case_match; simplify_eq/=; by rewrite lookup_insert_ne.
  - apply Hsame. apply String.eqb_neq in Hb. destruct (idle c0 s); [|done]. unfold poll_login, getPending. repeat case_match; simplify_eq/=; by rewrite lookup_insert_ne.
  - apply Hsame. apply String.eqb_neq in Hb. destruct (idle c0 s); [|done]. cbn. by rewrite lookup_insert_ne.
  - apply Hsame. destruct device; unfold StartLogin, StartDeviceLogin, started, putPending; by repeat case_match.
  - apply Hsame. by destruct (may_look c0 s).
  - destruct (String.eqb_spec c0 c) as [->|Hne]; cbn [andb]; [by apply turn_patience|]. by apply turn_other.
  - apply Hsame. by destruct (bool_decide _).
  - by apply Hsame.
  - by apply Hsame.
  - by apply Hsame.
  - by apply Hsame.
  - by apply Hsame.
Qed.

Lemma spent_patience c acts : forall s ph, callers s !! c = Some ph -> Forall (fun a => begins c a = false) acts ->
  exists ph', callers (fold_left (fun s a => (pool_act_step parse_url a s).1) acts s) !! c = Some ph' /\ (spent c acts s + patience ph' <= patience ph)%nat.
Proof.
  induction acts as [|a acts IH]; intros s ph Hc Hb; [by exists ph|]. apply Forall_cons in Hb as [Hb Hbs].
  destruct (step_patience a c s ph Hc Hb) as (ph1 & Hc1 & Hle1). destruct (IH _ ph1 Hc1 Hbs) as (ph2 & Hc2 & Hle2). exists ph2. split; [done|]. cbn. lia.
Qed.

Lemma fold_play acts : forall ts, (fold_left play1 acts ts).2 = fold_left (fun s a => (pool_act_step parse_url a s).1) acts ts.2.
Proof.
  induction acts as [|a acts IH]; intros ts; [done|]. cbn. rewrite IH. unfold play1. by destruct (pool_act_step parse_url a ts.2).
Qed.

(** C34: a call for a token ends: whatever others do and whatever it meets, it takes at most
    fifty-seven turns, waits apart, and a wait ends with the refresh it is for. *)
Theorem every_acquire_ends b acts more c provider : idle c (play b acts).2 = true -> Forall (fun a => begins c a = false) more ->
  exists ph, callers (play b (acts ++ Acquire c provider :: more)).2 !! c = Some ph /\
    (spent c more (pool_act_step parse_url (Acquire c provider) (play b acts).2).1 + patience ph <= 57)%nat.
Proof.
  intros Hi Hb. unfold play. rewrite fold_left_app. cbn [fold_left]. set (ts := fold_left play1 acts ([], no_pool b)) in *.
  rewrite fold_play. unfold play1 at 1. cbn [pool_act_step]. assert (Hidle : idle c ts.2 = true) by done. rewrite Hidle. cbn [fst snd].
  apply (spent_patience c more _ (Picking provider 8 None)); [apply lookup_insert_eq|done].
Qed.

(** A pick always has an answer. *)
Lemma least_used (l : list (string * AccountRow)) : l <> [] -> exists ka, ka ∈ l /\ forallb (fun kb => used_le (pa_LastUsedAt ka.2) (pa_LastUsedAt kb.2)) l = true.
Proof.
  assert (Hle : forall a b, used_le a b = true \/ used_le b a = true).
  { intros [a|] [b|]; cbn; auto. destruct (Z.leb_spec a b); [by left|]. right. apply Z.leb_le. lia. }
  assert (Htrans : forall a b c, used_le a b = true -> used_le b c = true -> used_le a c = true).
  { intros [a|] [b|] [c|]; cbn; try done. rewrite !Z.leb_le. lia. }
  induction l as [|ka l IH]; [done|]. intros _. destruct l as [|kb l].
  - exists ka. split; [left|]. cbn. rewrite andb_true_r. by destruct (Hle (pa_LastUsedAt ka.2) (pa_LastUsedAt ka.2)).
  - destruct IH as (m & Hm & Hall); [done|]. destruct (Hle (pa_LastUsedAt ka.2) (pa_LastUsedAt m.2)) as [E|E].
    + exists ka. split; [left|]. change (forallb ?f (ka :: ?t)) with (f ka && forallb f t). apply andb_true_iff. split; [by destruct (Hle (pa_LastUsedAt ka.2) (pa_LastUsedAt ka.2))|].
      apply forallb_forall. intros x Hx. rewrite forallb_forall in Hall. eapply Htrans; [exact E|by apply Hall].
    + exists m. split; [by right|]. change (forallb ?f (ka :: ?t)) with (f ka && forallb f t). by apply andb_true_iff.
Qed.

Lemma a_pick_exists now locked provider (snap d : pool_db) : exists pick, may_pick now locked provider pick snap d = true.
Proof.
  unfold may_pick. destruct (candidates now locked provider snap d) as [|ka free'] eqn:E; [by exists None|].
  destruct (least_used (ka :: free')) as (m & Hm & Hall); [done|]. exists (Some m.1). apply existsb_True. exists m. split; [done|]. by rewrite String.eqb_refl.
Qed.

(** ** Whose tokens are served *)

(** A note gives an account a token: a login or a grant. *)
Definition gives (id t : string) (n : pool_note) : Prop :=
  match n with
  | Granted id' access refresh => id' = id /\ (t = access \/ t = refresh)
  | Joined _ _ _ id' access refresh => id' = id /\ (t = access \/ t = refresh)
  | _ => False
  end.

Definition token_owned (tr : list pool_note) (id t : string) : Prop := t = "" \/ exists n, n ∈ tr /\ gives id t n.

(** A login of the workspace into that pool wrote the account, admitted before. *)
Definition home (tr : list pool_note) (id ws p : string) : Prop :=
  exists user access refresh, Joined user ws p id access refresh ∈ tr /\ Cleared user ws p ∈ tr.

Definition row_ok (tr : list pool_note) (id : string) (a : AccountRow) : Prop :=
  token_owned tr id (pa_AccessToken a) /\ token_owned tr id (pa_RefreshToken a) /\ home tr id (pa_Workspace a) (pa_Provider a) /\ pg_key id = Some id.

Definition rec_ok (tr : list pool_note) (rec : AccountRecord) : Prop := row_ok tr (rec_ID rec) (rec_Row rec).

Definition why_ok (rec : AccountRecord) (why : purpose) : Prop :=
  match why with ForRun provider _ => pg_key provider = Some (pa_Provider (rec_Row rec)) | _ => True end.

Definition grant_ok (tr : list pool_note) (rec : AccountRecord) (res : result string TokenResult) : Prop :=
  match res with Ok r => token_owned tr (rec_ID rec) (tr_Access r) /\ token_owned tr (rec_ID rec) (tr_Refresh r) | Err _ => True end.

Fixpoint phase_ok (tr : list pool_note) (ph : phase) : Prop :=
  match ph with
  | Retiring _ _ next | Forgetting _ next => phase_ok tr next
  | Refreshing rec why | Waiting rec why | Leading rec why => rec_ok tr rec /\ why_ok rec why
  | Storing rec why res => rec_ok tr rec /\ why_ok rec why /\ grant_ok tr rec (Ok res)
  | Landing rec why res => rec_ok tr rec /\ why_ok rec why /\ grant_ok tr rec res
  | Finding user ws p _ _ _ => Cleared user ws p ∈ tr
  | Writing user ws p _ _ _ existing => Cleared user ws p ∈ tr /\ match existing with Some id => home tr id ws p | None => True end
  | _ => True
  end.

Definition served_ok (tr : list pool_note) (n : pool_note) : Prop :=
  match n with
  | Served provider id t => token_owned tr id t /\ exists p ws, pg_key provider = Some p /\ home tr id ws p
  | Posted id _ t => token_owned tr id t
  | _ => True
  end.

Record custody (tr : list pool_note) (s : pool_system) : Prop := {
  cu_rows : forall id a, pooled (db s) !! id = Some a -> row_ok tr id a;
  cu_phases : forall c ph, callers s !! c = Some ph -> phase_ok tr ph;
  cu_served : Forall (served_ok tr) tr;
}.

Lemma owned_mono tr tr' id t : tr ⊆ tr' -> token_owned tr id t -> token_owned tr' id t.
Proof. intros Hs [->|(n & Hn & Hg)]; [by left|]. right. exists n. split; [by apply Hs|done]. Qed.

Lemma home_mono tr tr' id ws p : tr ⊆ tr' -> home tr id ws p -> home tr' id ws p.
Proof. intros Hs (u & a & r & Hj & Ha). exists u, a, r. split; by apply Hs. Qed.

Lemma row_mono tr tr' id a : tr ⊆ tr' -> row_ok tr id a -> row_ok tr' id a.
Proof. intros Hs (Ha & Hr & Hh & Hk). split_and!; [by apply (owned_mono tr)|by apply (owned_mono tr)|by apply (home_mono tr)|done]. Qed.

Lemma grant_mono tr tr' rec res : tr ⊆ tr' -> grant_ok tr rec res -> grant_ok tr' rec res.
Proof. intros Hs. destruct res; [|done]. intros [Ha Hr]. split; by apply (owned_mono tr). Qed.

Lemma phase_mono tr tr' ph : tr ⊆ tr' -> phase_ok tr ph -> phase_ok tr' ph.
Proof.
  intros Hs. induction ph; cbn; try done; unfold rec_ok.
  - intros [? ?]. split; [by apply (row_mono tr)|done].
  - intros [? ?]. split; [by apply (row_mono tr)|done].
  - intros [? ?]. split; [by apply (row_mono tr)|done].
  - intros (? & ? & Hg). split_and!; [by apply (row_mono tr)|done|by apply (grant_mono tr _ rec (Ok res) Hs)..].
  - intros (? & ? & ?). split_and!; [by apply (row_mono tr)|done|by apply (grant_mono tr)].
  - apply Hs.
  - intros [? Hex]. split; [by apply Hs|]. destruct existing; [|done]. by apply (home_mono tr).
Qed.

Lemma served_mono tr tr' n : tr ⊆ tr' -> served_ok tr n -> served_ok tr' n.
Proof.
  intros Hs. destruct n; try done; [by apply (owned_mono tr)|]. intros [Ho (p & ws & Hp & Hh)]. split; [by apply (owned_mono tr)|]. exists p, ws. split; [done|by apply (home_mono tr)].
Qed.

Lemma grows (tr ns : list pool_note) : tr ⊆ tr ++ ns.
Proof. intros n Hn. apply elem_of_app. by left. Qed.

(** A step that writes one caller and leaves rows as they were or takes some away. *)
Lemma custody_step tr ns s s' c ph : custody tr s ->
  (forall id a, pooled (db s') !! id = Some a -> row_ok (tr ++ ns) id a) ->
  callers s' = <[c := ph]> (callers s) -> phase_ok (tr ++ ns) ph -> Forall (served_ok (tr ++ ns)) ns -> custody (tr ++ ns) s'.
Proof.
  intros [Hr Hp Hs] Hrows Hc Hph Hns. constructor; [done| |].
  - intros c' ph'. rewrite Hc. destruct (decide (c' = c)) as [->|Hne]; [rewrite lookup_insert_eq; by intros [= <-]|]. rewrite lookup_insert_ne by done.
    intros Hc'. by apply (phase_mono tr), (Hp c'); [apply grows|].
  - apply Forall_app. split; [|done]. eapply Forall_impl; [exact Hs|]. intros n. apply served_mono, grows.
Qed.

Lemma rows_same tr ns s d : custody tr s -> pooled d = pooled (db s) -> forall id a, pooled d !! id = Some a -> row_ok (tr ++ ns) id a.
Proof. intros Hcu -> id a Ha. by apply (row_mono tr), (cu_rows _ _ Hcu); [apply grows|]. Qed.

(** [kept]: rows keep their place and their tokens; some may go. *)
Definition kept (d d' : pool_db) : Prop := forall id a', pooled d' !! id = Some a' ->
  exists a, pooled d !! id = Some a /\ pa_Workspace a' = pa_Workspace a /\ pa_Provider a' = pa_Provider a /\ pa_AccessToken a' = pa_AccessToken a /\
    pa_RefreshToken a' = pa_RefreshToken a.

Lemma rows_kept tr ns s d : custody tr s -> kept (db s) d -> forall id a, pooled d !! id = Some a -> row_ok (tr ++ ns) id a.
Proof.
  intros Hcu Hk id a' Ha'. destruct (Hk id a' Ha') as (a & Ha & E1 & E2 & E3 & E4). apply (row_mono tr); [apply grows|]. unfold row_ok. rewrite E1, E2, E3, E4. by apply (cu_rows _ _ Hcu).
Qed.

Lemma kept_refl d : kept d d.
Proof. intros id a Ha. by exists a. Qed.

Lemma kept_pooled d d' : pooled d' = pooled d -> kept d d'.
Proof. intros E id a. rewrite E. intros Ha. by exists a. Qed.

Lemma kept_insert d d' id a a' : pooled d !! id = Some a -> pooled d' = <[id := a']> (pooled d) ->
  pa_Workspace a' = pa_Workspace a /\ pa_Provider a' = pa_Provider a /\ pa_AccessToken a' = pa_AccessToken a /\ pa_RefreshToken a' = pa_RefreshToken a -> kept d d'.
Proof.
  intros Ha E (E1 & E2 & E3 & E4) i b. rewrite E. destruct (decide (i = id)) as [->|Hne]; [rewrite lookup_insert_eq; intros [= <-]; by exists a|].
  rewrite lookup_insert_ne by done. intros Hb. by exists b.
Qed.

Lemma kept_on account f d : (forall a, pa_Workspace (f a) = pa_Workspace a /\ pa_Provider (f a) = pa_Provider a /\ pa_AccessToken (f a) = pa_AccessToken a /\
  pa_RefreshToken (f a) = pa_RefreshToken a) -> kept d (on_account account f d).1.
Proof.
  intros Hf. unfold on_account. destruct (pg_key account) as [id|]; [|apply kept_refl]. destruct (pooled d !! id) as [a|] eqn:Ha; [|apply kept_refl].
  by apply (kept_insert d _ id a (f a)).
Qed.

Lemma kept_delete d d' id : pooled d' = delete id (pooled d) -> kept d d'.
Proof. intros E i b. rewrite E. intros Hb. apply lookup_delete_Some in Hb as [_ Hb]. by exists b. Qed.

(** What members and the run path do to rows apart from logins and tokens. *)
Lemma kept_status user ws provider account status d : kept d (SetProviderAccountStatus user ws provider account status d).1.
Proof.
  unfold SetProviderAccountStatus. destruct (negb _); [apply kept_refl|]. destruct (negb _); [apply kept_refl|]. destruct (named_account _ _ _ _) as [[id a]|] eqn:Hn; [|apply kept_refl].
  unfold named_account in Hn. repeat case_match; simplify_eq; by eapply (kept_insert d _ id a).
Qed.

Lemma kept_drop_account user ws provider account d : kept d (DeleteProviderAccount user ws provider account d).1.
Proof.
  unfold DeleteProviderAccount. destruct (negb _); [apply kept_refl|]. destruct (named_account _ _ _ _) as [[id a]|]; [|apply kept_refl]. by apply (kept_delete d _ id).
Qed.

Lemma kept_drop_provider user ws provider d : kept d (DeleteWorkspaceProvider user ws provider d).1.
Proof.
  unfold DeleteWorkspaceProvider. destruct (negb _); [apply kept_refl|]. destruct (pg_key provider) as [p|]; [|by apply kept_pooled]. cbv zeta. cbn [providers with_tiers].
  destruct (providers d !! p) as [r|]; [|by apply kept_pooled]. destruct (pv_Workspace r =? ws)%string; [|by apply kept_pooled].
  intros id a. cbn. rewrite map_lookup_filter_Some. intros [Ha _]. by exists a.
Qed.

Lemma candidate now locked p (snap d : pool_db) ka : ka ∈ candidates now locked p snap d ->
  pooled snap !! ka.1 = Some ka.2 /\ exists a, pooled d !! ka.1 = Some a /\ usable now p a = true.
Proof.
  unfold candidates. rewrite list_elem_of_In, filter_In, <- list_elem_of_In. destruct ka as [id a0]. rewrite elem_of_map_to_list. intros [Hs Hu]. split; [done|].
  apply andb_true_iff in Hu as [_ Hu]. cbn in Hu |- *. destruct (pooled d !! id) as [a|]; [by exists a|done].
Qed.

(** The row that is picked, as the statement's snapshot has it and as it is. *)
Lemma picked_row now locked p id (snap d : pool_db) : may_pick now locked p (Some id) snap d = true ->
  exists a, pooled d !! id = Some a /\ usable now p a = true /\ exists a0, pooled snap !! id = Some a0 /\
    forall i, i ∈ map fst (candidates now locked p snap d) -> exists b, pooled snap !! i = Some b /\ used_le (pa_LastUsedAt a0) (pa_LastUsedAt b) = true.
Proof.
  unfold may_pick. intros Hp. apply existsb_True in Hp as ([i a0] & Hin & Hp). apply andb_true_iff in Hp as [E Hall]. apply String.eqb_eq in E. cbn in E. subst i.
  destruct (candidate _ _ _ _ _ _ Hin) as [Hs (a & Ha & Hu)]. exists a. split_and!; [done|done|]. exists a0. split; [done|]. intros i Hi. change (map ?f ?m) with (f <$> m) in Hi.
  apply list_elem_of_fmap in Hi as ([j b] & -> & Hb). exists b. split; [by apply (candidate _ _ _ _ _ _ Hb)|]. rewrite forallb_forall in Hall. apply (Hall (j, b)). by apply list_elem_of_In.
Qed.

Lemma usable_provider now p a : usable now p a = true -> pa_Provider a = p.
Proof. unfold usable. rewrite !andb_true_iff, !String.eqb_eq. by intros [[? _] _]. Qed.

Lemma scan_row opens id a d rec : scanAccountRecord opens id a d = Ok rec -> rec_ID rec = id /\ rec_Row rec = a.
Proof. unfold scanAccountRecord. repeat case_match; try done. by intros [= <-]. Qed.

Lemma after_ok tr rec why res : rec_ok tr rec -> why_ok rec why -> grant_ok tr rec res ->
  phase_ok tr (after_refresh rec why res) /\ Forall (served_ok tr) (served_by (after_refresh rec why res) (provider_of why)).
Proof.
  intros (_ & _ & Hh & _) Hw Hg. destruct why as [provider tries| |ws provider], res as [r|e]; cbn; split; try done; constructor; [|constructor].
  cbn. split; [apply Hg|]. by exists (pa_Provider (rec_Row rec)), (pa_Workspace (rec_Row rec)).
Qed.

Lemma custody_acquire tr c w provider tries lastErr s s' ns : custody tr s -> acquire_turn c w provider tries lastErr s = (s', ns) -> custody (tr ++ ns) s'.
Proof.
  intros Hcu. assert (Hend : forall e, custody (tr ++ []) (at_caller c (Finished (NoToken e)) s)).
  { intros e. by eapply custody_step; [exact Hcu|eapply rows_same; [exact Hcu|done]|done..]. }
  assert (Hover : forall e, custody (tr ++ []) (at_caller c (Finished (NoToken e)) (looked c s))).
  { intros e. by eapply custody_step; [exact Hcu|eapply rows_same; [exact Hcu|done]|done..]. }
  unfold acquire_turn. destruct tries as [|tries]; [intros [= <- <-]; apply Hend|]. destruct (negb (tw_works w)); [intros [= <- <-]; apply Hover|].
  destruct (pg_key provider) as [p|] eqn:Hp; [|intros [= <- <-]; apply Hover]. destruct (may_pick _ _ _ _ _ _) eqn:Hpick; cbn [negb]; [|intros [= <- <-]; by rewrite app_nil_r].
  set (began := match looks s !! c with Some _ => [] | None => [Looked c] end).
  assert (Hbegan : Forall (served_ok tr) began) by (subst began; destruct (looks s !! c); by repeat constructor).
  assert (Hgo : forall d ph ns', kept (db s) d -> phase_ok tr ph -> Forall (served_ok tr) ns' -> custody (tr ++ ns') (at_caller c ph (looked c (with_db d s)))).
  { intros d ph ns' Hk Hph Hns. eapply custody_step; [exact Hcu|by eapply rows_kept|done|by apply (phase_mono tr); [apply grows|]|].
    eapply Forall_impl; [exact Hns|]. intros n. apply served_mono, grows. }
  destruct (tw_pick w) as [id|] eqn:Ew; [|intros [= <- <-]; apply Hgo; [apply kept_refl|done|apply Forall_app; by split]].
  destruct (picked_row _ _ _ _ _ _ Hpick) as (a & Ha & Hu & _). apply usable_provider in Hu. cbn [AcquireProviderAccount]. rewrite Ha. set (d := with_pooled _ (db s)).
  assert (Hk : kept (db s) d) by (by eapply (kept_insert _ _ id a)). pose proof (cu_rows _ _ Hcu id a Ha) as Hrow.
  specialize (fun ph ns' => Hgo d ph ns' Hk) as Hgod. clear Hgo. rename Hgod into Hgo.
  destruct (scanAccountRecord _ id _ _) as [rec|e] eqn:Hscan; [|intros [= <- <-]; apply Hgo; [done|apply Forall_app; split; [done|by repeat constructor]]]. apply scan_row in Hscan as [Eid Erow].
  assert (Hrec : rec_ok tr rec) by (unfold rec_ok; by rewrite Eid, Erow).
  assert (Hwhy : pg_key provider = Some (pa_Provider (rec_Row rec))) by (rewrite Erow; cbn; congruence).
  destruct (_ && _); [intros [= <- <-]; apply Hgo; [done|apply Forall_app; split; [done|by repeat constructor]]|].
  destruct (needsRefresh _ _); intros [= <- <-]; (apply Hgo; [done|]).
  - apply Forall_app. split; [done|by repeat constructor].
  - rewrite <- app_assoc. apply Forall_app. split; [done|]. constructor; [done|]. constructor; [|constructor]. cbn. destruct Hrec as (Ho & _ & Hh & _). split; [done|].
    by exists (pa_Provider (rec_Row rec)), (pa_Workspace (rec_Row rec)).
Qed.

(** A turn that gives nobody a token and takes no row anywhere. *)
Lemma custody_plain tr ns s s' c ph : custody tr s -> kept (db s) (db s') -> callers s' = <[c := ph]> (callers s) -> phase_ok (tr ++ ns) ph ->
  Forall (served_ok (tr ++ ns)) ns -> custody (tr ++ ns) s'.
Proof. intros Hcu Hk Hc Hph Hns. eapply custody_step; [exact Hcu|by eapply rows_kept|done..]. Qed.

Lemma custody_quiet tr s s' c ph : custody tr s -> kept (db s) (db s') -> callers s' = <[c := ph]> (callers s) -> phase_ok tr ph -> custody (tr ++ []) s'.
Proof. intros Hcu Hk Hc Hph. eapply custody_plain; [exact Hcu|done|done| |constructor]. by rewrite app_nil_r. Qed.

Lemma custody_join tr c rec why s s' ns : custody tr s -> callers s !! c = Some (Refreshing rec why) -> join_turn c rec why s = (s', ns) -> custody (tr ++ ns) s'.
Proof.
  intros Hcu Hc. pose proof (cu_phases _ _ Hcu c _ Hc) as [Hrec Hwhy]. unfold join_turn. destruct (flights s !! rec_ID rec).
  - intros [= <- <-]. by eapply custody_quiet; [exact Hcu|apply kept_refl|done|].
  - destruct (refresh_request rec); intros [= <- <-]; [by eapply custody_quiet; [exact Hcu|apply kept_refl|done|]|].
    eapply custody_plain; [exact Hcu|apply kept_refl|done| |].
    + apply (phase_mono tr _ (Leading rec why)); [apply grows|done].
    + constructor; [|constructor]. cbn. apply (owned_mono tr); [apply grows|apply Hrec].
Qed.

Lemma grant_owned tr rec a clock r : rec_ok tr rec -> refresh_result rec a clock = Ok r ->
  grant_ok (tr ++ [Granted (rec_ID rec) (tr_Access r) (tr_Refresh r)]) rec (Ok r).
Proof.
  intros _ _. split; right; (eexists; split; [apply elem_of_app; right; left|]); cbn; auto.
Qed.

Lemma custody_lead tr c w rec why s s' ns : custody tr s -> callers s !! c = Some (Leading rec why) -> lead_turn c w rec why s = (s', ns) -> custody (tr ++ ns) s'.
Proof.
  intros Hcu Hc. pose proof (cu_phases _ _ Hcu c _ Hc) as [Hrec Hwhy]. unfold lead_turn. destruct (refresh_result _ _ _) as [r|e] eqn:Hr; intros [= <- <-].
  - eapply custody_plain; [exact Hcu|apply kept_refl|done| |by repeat constructor]. cbn. split_and!; [by apply (row_mono tr); [apply grows|]|done|by eapply (grant_owned tr rec)..].
  - by eapply custody_quiet; [exact Hcu|apply kept_refl|done|].
Qed.

Lemma custody_store tr c w rec why res s s' ns : custody tr s -> callers s !! c = Some (Storing rec why res) -> store_turn c w rec why res s = (s', ns) -> custody (tr ++ ns) s'.
Proof.
  intros Hcu Hc. pose proof (cu_phases _ _ Hcu c _ Hc) as (Hrec & Hwhy & Hg). unfold store_turn.
  destruct (negb (tw_works w)); [intros [= <- <-]; by eapply custody_quiet; [exact Hcu|apply kept_refl|done|]|]. unfold UpdateProviderAccountTokens.
  destruct (negb (tw_seals w) && _); [intros [= <- <-]; by eapply custody_quiet; [exact Hcu|apply kept_refl|done|]|]. unfold on_account.
  assert (Hkey : pg_key (rec_ID rec) = Some (rec_ID rec)) by apply Hrec. rewrite Hkey.
  destruct (pooled (db s) !! rec_ID rec) as [a|] eqn:Ha; [|intros [= <- <-]; by eapply custody_quiet; [exact Hcu|apply kept_refl|done|]]. intros [= <- <-]. rewrite app_nil_r.
  destruct Hg as [Hg1 Hg2]. rewrite <- (app_nil_r tr). eapply custody_step; [exact Hcu| |done|by rewrite app_nil_r|constructor]. rewrite app_nil_r.
  intros id b. cbn. destruct (decide (id = rec_ID rec)) as [->|Hne]; [rewrite lookup_insert_eq; intros [= <-]|rewrite lookup_insert_ne by done; apply (cu_rows _ _ Hcu)].
  destruct (cu_rows _ _ Hcu _ a Ha) as (Ho & Hr & Hh & _). split_and!; cbn; [by destruct (tr_Access res =? "")%string|by destruct (tr_Refresh res =? "")%string|done|done].
Qed.

Lemma landing_ok tr id res cs : (forall rec, rec_ID rec = id -> grant_ok tr rec res) -> (forall c ph, cs !! c = Some ph -> phase_ok tr ph) ->
  Forall (served_ok tr) (landing_notes id res cs).
Proof.
  intros Hg Hp. unfold landing_notes. apply Forall_concat. apply Forall_forall. intros l Hl. change (map ?f ?m) with (f <$> m) in Hl. apply list_elem_of_fmap in Hl as ([c ph] & -> & Hin).
  apply elem_of_map_to_list, Hp in Hin. cbn. destruct ph; try constructor. destruct why as [provider tries| |]; try constructor.
  destruct (String.eqb_spec (rec_ID rec) id) as [E|_]; [|constructor]. destruct Hin as [Hrec Hwhy]. apply (after_ok tr rec (ForRun provider tries) res Hrec Hwhy (Hg rec E)).
Qed.

Lemma custody_land tr c rec why res s s' ns : custody tr s -> callers s !! c = Some (Landing rec why res) -> land_turn c rec why res s = (s', ns) -> custody (tr ++ ns) s'.
Proof.
  intros Hcu Hc [= <- <-]. pose proof (cu_phases _ _ Hcu c _ Hc) as (Hrec & Hwhy & Hg). destruct (after_ok tr rec why res Hrec Hwhy Hg) as [Hph Hserved].
  assert (Hall : forall r, rec_ID r = rec_ID rec -> grant_ok tr r res) by (intros r E; unfold grant_ok; by rewrite E).
  pose proof (landing_ok tr (rec_ID rec) res (callers s) Hall (cu_phases _ _ Hcu)) as Hland. 
  pose proof (proj2 (Forall_app (served_ok tr) _ _) (conj Hserved Hland)) as Hns. set (ns := served_by _ _ ++ _) in *.
  constructor; cbn [db at_caller with_callers with_flights callers].
  - intros id a Ha. by apply (row_mono tr), (cu_rows _ _ Hcu); [apply grows|].
  - intros c' ph. destruct (decide (c' = c)) as [->|Hne]; [rewrite lookup_insert_eq; intros [= <-]; by apply (phase_mono tr); [apply grows|]|].
    rewrite lookup_insert_ne, lookup_fmap by done. destruct (callers s !! c') as [old|] eqn:Hold; [|done]. intros [= <-]. apply (phase_mono tr); [apply grows|].
    pose proof (cu_phases _ _ Hcu c' old Hold) as Hok. destruct old; try done. cbn. destruct (String.eqb_spec (rec_ID rec0) (rec_ID rec)) as [E|_]; [|done].
    destruct Hok as [Hrec0 Hwhy0]. apply (after_ok tr rec0 why0 res Hrec0 Hwhy0 (Hall rec0 E)).
  - apply Forall_app. split; (eapply Forall_impl; [first [exact Hns|apply (cu_served _ _ Hcu)]|]); intros n; apply served_mono, grows.
Qed.

Lemma find_login_home tr s user ws p inp id : custody tr s -> Cleared user ws p ∈ tr -> find_login p ws inp (db s) = Some id -> home tr id ws p.
Proof.
  intros Hcu Ha. unfold find_login. destruct (find_first _ _) as [[i a]|] eqn:Hf; [|done]. intros [= ->]. apply find_first_Some in Hf as [Hin Hp].
  apply elem_of_map_to_list in Hin. apply andb_true_iff in Hp as [Hp _]. unfold in_pool in Hp. apply andb_true_iff in Hp as [E1 E2].
  apply String.eqb_eq in E1, E2. cbn in E1, E2. destruct (cu_rows _ _ Hcu id a Hin) as (_ & _ & Hh & _). by rewrite E1, E2 in Hh.
Qed.

Lemma custody_write tr c w user ws p key device inp existing s s' ns : custody tr s -> callers s !! c = Some (Writing user ws p key device inp existing) ->
  write_turn c w user ws p key device inp existing s = (s', ns) -> custody (tr ++ ns) s'.
Proof.
  intros Hcu Hc. pose proof (cu_phases _ _ Hcu c _ Hc) as [Hadm Hex]. unfold write_turn.
  assert (Hend : forall a d m, kept (db s) d -> custody (tr ++ []) (at_caller c (login_end device key a) (with_minted m (with_db d s)))).
  { intros a d m Hk. eapply custody_quiet; [exact Hcu|done|done|]. by destruct device. }
  destruct (negb (tw_works w) || _).
  { intros [= <- <-]. eapply custody_quiet; [exact Hcu|apply kept_refl|done|by destruct device]. }
  unfold write_login. destruct (negb (account_fits inp)); [intros [= <- <-]; apply Hend, kept_refl|]. cbv zeta.
  assert (Htok : forall id t, t = in_AccessToken inp \/ t = in_RefreshToken inp -> token_owned (tr ++ [Joined user ws p id (in_AccessToken inp) (in_RefreshToken inp)]) id t).
  { intros id t Ht. right. eexists. split; [apply elem_of_app; right; left|]. done. }
  assert (Hgo : forall id d m, (forall i a, pooled d !! i = Some a -> row_ok (tr ++ [Joined user ws p id (in_AccessToken inp) (in_RefreshToken inp)]) i a) ->
    custody (tr ++ [Joined user ws p id (in_AccessToken inp) (in_RefreshToken inp)]) (at_caller c (login_end device key (SignedIn id)) (with_minted m (with_db d s)))).
  { intros id d m Hrows. eapply custody_step; [exact Hcu|done|done|by destruct device|by repeat constructor]. }
  destruct existing as [id|].
  - intros [= <- <-]. apply Hgo. cbn. destruct (pooled (db s) !! id) as [a|] eqn:Ha; [|by apply (rows_same tr _ s)].
    destruct (String.eqb_spec (pa_Provider a) p) as [Ep|_]; [|by apply (rows_same tr _ s)]. cbn. intros i b.
    destruct (decide (i = id)) as [->|Hne]; [rewrite lookup_insert_eq; intros [= <-]|rewrite lookup_insert_ne by done; by apply (rows_same tr _ s)].
    destruct (cu_rows _ _ Hcu id a Ha) as (_ & _ & Hh & Hk). split_and!; cbn; [apply Htok; by left|apply Htok; by right| |done]. rewrite Ep in Hh. by apply (home_mono tr); [apply grows|].
  - destruct (negb (bool_decide (pg_key (tw_fresh w) = Some (tw_fresh w)))) eqn:Hkey; cbn [orb]; [intros [= <- <-]; apply Hend, kept_refl|].
    destruct (is_some (pooled (db s) !! tw_fresh w) || _); [intros [= <- <-]; apply Hend, kept_refl|]. intros [= <- <-]. apply Hgo. cbn. intros i b.
    destruct (decide (i = tw_fresh w)) as [->|Hne]; [rewrite lookup_insert_eq; intros [= <-]|rewrite lookup_insert_ne by done; by apply (rows_same tr _ s)].
    apply negb_false_iff, bool_decide_eq_true in Hkey. split_and!; cbn; [apply Htok; by left|apply Htok; by right| |done].
    exists user, (in_AccessToken inp), (in_RefreshToken inp). split; apply elem_of_app; [right; left|by left].
Qed.

Lemma load_row opens account d rec : LoadProviderAccountRecord opens account d = Ok rec -> pooled d !! rec_ID rec = Some (rec_Row rec).
Proof.
  unfold LoadProviderAccountRecord. destruct (pg_key account) as [id|]; [|done]. destruct (pooled d !! id) as [a|] eqn:Ha; [|done]. intros Hs. by apply scan_row in Hs as [-> ->].
Qed.

Lemma custody_reload tr c w account s s' ns : custody tr s -> reload_turn c w account s = (s', ns) -> custody (tr ++ ns) s'.
Proof.
  intros Hcu [= <- <-]. eapply custody_quiet; [exact Hcu|apply kept_refl|done|]. destruct (tw_works w); [|done].
  destruct (LoadProviderAccountRecord _ _ _) as [rec|e] eqn:Hl; [|done]. destruct (_ =? _)%string; [done|]. split; [|done]. by apply (cu_rows _ _ Hcu), (load_row (tw_opens w) account).
Qed.

Lemma custody_check tr c w user ws provider key device inp s s' ns : custody tr s -> check_turn c w user ws provider key device inp s = (s', ns) -> custody (tr ++ ns) s'.
Proof.
  intros Hcu. unfold check_turn. destruct (if tw_works w then _ else _) as [p|e]; intros [= <- <-].
  - eapply custody_plain; [exact Hcu|apply kept_refl|done| |by repeat constructor]. cbn. apply elem_of_app. right. left.
  - eapply custody_quiet; [exact Hcu|apply kept_refl|done|by destruct device].
Qed.

Lemma custody_find tr c w user ws p key device inp s s' ns : custody tr s -> callers s !! c = Some (Finding user ws p key device inp) ->
  find_turn c w user ws p key device inp s = (s', ns) -> custody (tr ++ ns) s'.
Proof.
  intros Hcu Hc. pose proof (cu_phases _ _ Hcu c _ Hc) as Hadm. unfold find_turn. destruct (negb (tw_works w)); intros [= <- <-]; (eapply custody_quiet; [exact Hcu|apply kept_refl|done|]).
  - by destruct device.
  - cbn. split; [done|]. destruct (find_login _ _ _ _) as [id|] eqn:Hf; [|done]. by eapply find_login_home.
Qed.

Lemma custody_probe_load tr c w ws provider account s s' ns : custody tr s -> probe_load_turn c w ws provider account s = (s', ns) -> custody (tr ++ ns) s'.
Proof.
  intros Hcu. unfold probe_load_turn. destruct (if tw_works w then LoadProviderAccountRecord (tw_opens w) account (db s) else Err db_error) as [rec|e] eqn:Hl;
    [|intros [= <- <-]; by eapply custody_quiet; [exact Hcu|apply kept_refl|done|]].
  destruct (_ || _); [intros [= <- <-]; by eapply custody_quiet; [exact Hcu|apply kept_refl|done|]|].
  destruct (needsRefresh _ _); intros [= <- <-]; (eapply custody_quiet; [exact Hcu|apply kept_refl|done|]); [|done].
  split; [|done]. destruct (tw_works w); [|done]. by apply (cu_rows _ _ Hcu), (load_row (tw_opens w) account).
Qed.

Lemma kept_ignored w f s : (forall d, kept d (f d).1) -> kept (db s) (db (ignored w f s)).
Proof. intros Hf. unfold ignored. destruct (tw_works w); [apply Hf|apply kept_refl]. Qed.

Lemma custody_turn tr c w s s' ns : custody tr s -> turn c w s = (s', ns) -> custody (tr ++ ns) s'.
Proof.
  intros Hcu. unfold turn. destruct (callers s !! c) as [old|] eqn:Hc; [|by intros [= <- <-]; rewrite app_nil_r]. pose proof (cu_phases _ _ Hcu c old Hc) as Hph.
  destruct old; intros Ht; try (injection Ht as <- <-; by rewrite app_nil_r).
  - by eapply custody_acquire.
  - injection Ht as <- <-. eapply (custody_quiet _ _ _ c old); [exact Hcu| | |exact Hph]; [apply kept_ignored; intros d; by apply kept_on|unfold ignored; by destruct (tw_works w)].
  - by eapply custody_join.
  - by eapply custody_lead.
  - by eapply custody_store.
  - by eapply custody_land.
  - injection Ht as <- <-. eapply (custody_quiet _ _ _ c (Finished Reported)); [exact Hcu| | |done]; [apply kept_ignored; intros d; by apply kept_on|unfold ignored; by destruct (tw_works w)].
  - by eapply custody_reload.
  - revert Ht. unfold gate_turn. repeat case_match; intros [= <- <-]; by eapply custody_quiet; [exact Hcu|apply kept_refl|done|].
  - revert Ht. unfold exchange_turn. repeat case_match; intros [= <- <-]; by eapply custody_quiet; [exact Hcu|apply kept_refl|done|].
  - revert Ht. unfold poll_turn. repeat case_match; intros [= <- <-]; by eapply custody_quiet; [exact Hcu|apply kept_refl|done|].
  - by eapply custody_check.
  - by eapply custody_find.
  - by eapply custody_write.
  - injection Ht as <- <-. by eapply custody_quiet; [exact Hcu|apply kept_refl|done|exact Hph].
  - revert Ht. unfold probe_gate_turn. destruct (if tw_works w then _ else _); intros [= <- <-]; by eapply custody_quiet; [exact Hcu|apply kept_refl|done|].
  - by eapply custody_probe_load.
  - revert Ht. unfold fetch_turn. repeat case_match; intros [= <- <-]; by eapply custody_quiet; [exact Hcu|apply kept_refl|done|].
  - revert Ht. unfold keep_turn. destruct (negb (tw_works w)); [intros [= <- <-]; by eapply custody_quiet; [exact Hcu|apply kept_refl|done|]|].
    destruct (UpdateProviderAccountUsage account usage (db s)) as [d res] eqn:Hd. intros [= <- <-]. eapply custody_quiet; [exact Hcu| |done|done].
    cbn. replace d with (UpdateProviderAccountUsage account usage (db s)).1 by by rewrite Hd. by apply kept_on.
Qed.

(** A step that leaves the callers. *)
Lemma custody_db tr s d m : custody tr s -> kept (db s) d -> custody (tr ++ []) (with_minted m (with_db d s)) /\ custody (tr ++ []) (with_db d s).
Proof.
  intros Hcu Hk. rewrite app_nil_r. split; (constructor; [|apply (cu_phases _ _ Hcu)|apply (cu_served _ _ Hcu)]); intros id a Ha; rewrite <- (app_nil_r tr); by eapply (rows_kept tr [] s d).
Qed.

Lemma kept_create_provider now seals fresh user ws inp d : kept d (CreateWorkspaceProvider now seals fresh user ws inp d).1.
Proof. apply kept_pooled. unfold CreateWorkspaceProvider. by repeat case_match. Qed.

Lemma kept_update_provider seals user ws provider inp d : kept d (UpdateWorkspaceProvider seals user ws provider inp d).1.
Proof. apply kept_pooled. unfold UpdateWorkspaceProvider. by repeat case_match. Qed.

Lemma custody_begin tr s p c ph : custody tr s -> phase_ok tr ph -> custody (tr ++ []) (at_caller c ph (with_pending p s)).
Proof. intros Hcu Hph. by eapply custody_quiet; [exact Hcu|apply kept_refl|done|]. Qed.

Lemma custody_look tr s c : custody tr s -> custody (tr ++ [Looked c]) (looking c s).
Proof.
  intros [Hr Hp Hs]. constructor.
  - intros id a Ha. by apply (row_mono tr), Hr; [apply grows|].
  - intros c' ph Hc. by apply (phase_mono tr), (Hp c'); [apply grows|].
  - apply Forall_app. split; [|by repeat constructor]. eapply Forall_impl; [exact Hs|]. intros n. apply served_mono, grows.
Qed.

Lemma custody_act tr a s s' ns : custody tr s -> pool_act_step parse_url a s = (s', ns) -> custody (tr ++ ns) s'.
Proof.
  intros Hcu. assert (Hno : custody (tr ++ []) s) by by rewrite app_nil_r. destruct a; cbn [pool_act_step].
  - destruct (idle c s); intros [= <- <-]; [|done]. by eapply custody_quiet; [exact Hcu|apply kept_refl|done|].
  - destruct (idle c s); intros [= <- <-]; [|done]. eapply custody_quiet; [exact Hcu|apply kept_refl|done|]. unfold report_phase. by repeat case_match.
  - destruct (idle c s); [|by intros [= <- <-]]. unfold complete_login, getPending. repeat case_match; intros; simplify_eq/=; by apply custody_begin.
  - destruct (idle c s); [|by intros [= <- <-]]. unfold poll_login, getPending. repeat case_match; intros; simplify_eq/=; by apply custody_begin.
  - destruct (idle c s); intros [= <- <-]; [|done]. by eapply custody_quiet; [exact Hcu|apply kept_refl|done|].
  - assert (Hp : forall p, custody (tr ++ []) (with_pending p s)) by (intros p; rewrite app_nil_r; by constructor; destruct Hcu).
    destruct device; intros [= <- <-]; unfold StartLogin, StartDeviceLogin, started, putPending; repeat case_match; try done; apply Hp.
  - destruct (may_look c s); intros [= <- <-]; [|done]. apply custody_look; by destruct Hcu.
  - by apply custody_turn.
  - destruct (bool_decide _); intros [= <- <-]; [done|]. apply custody_db; [done|apply kept_create_provider].
  - intros [= <- <-]. apply (custody_db _ _ _ ""); [done|apply kept_update_provider].
  - intros [= <- <-]. apply (custody_db _ _ _ ""); [done|apply kept_drop_provider].
  - intros [= <- <-]. apply (custody_db _ _ _ ""); [done|apply kept_drop_account].
  - intros [= <- <-]. apply (custody_db _ _ _ ""); [done|apply kept_status].
  - intros [= <- <-]. apply (custody_db _ _ _ ""); [done|by apply kept_pooled].
Qed.

Lemma play_custody b acts : custody (play b acts).1 (play b acts).2.
Proof. apply (play_ind custody); [|intros tr s a s' ns; apply custody_act]. by constructor; cbn. Qed.

(** ** Where logins and providers are *)

(** What a step may say of providers and logins. *)
Definition note_ok (s s' : pool_system) (n : pool_note) : Prop :=
  match n with
  | Cleared user ws p => userCanManageWorkspace (book (db s)) user ws = true /\ exists row, providers (db s) !! p = Some row /\ pv_Workspace row = ws
  | Joined user ws p id _ _ => id ∈ minted s' /\ ((id ∉ minted s) \/ exists c key device inp, callers s !! c = Some (Writing user ws p key device inp (Some id)))
  | _ => True
  end.

Record frame (s s' : pool_system) (ns : list pool_note) : Prop := {
  fr_minted : minted s ⊆ minted s';
  fr_providers : forall p row', providers (db s') !! p = Some row' ->
    (exists row, providers (db s) !! p = Some row /\ pv_Workspace row' = pv_Workspace row) \/ ((p ∉ minted s) /\ p ∈ minted s');
  fr_notes : Forall (note_ok s s') ns;
}.

Lemma frame_same s s' ns : minted s' = minted s -> providers (db s') = providers (db s) -> Forall (note_ok s s') ns -> frame s s' ns.
Proof. intros Hm Hp Hn. constructor; [by rewrite Hm| |done]. intros p row. rewrite Hp. intros Hrow. left. by exists row. Qed.

Lemma on_account_providers account f d : providers (on_account account f d).1 = providers d.
Proof. unfold on_account. by repeat case_match. Qed.

Lemma write_login_providers now fresh user ws p inp existing d : providers (write_login now fresh user ws p inp existing d).1 = providers d.
Proof. unfold write_login. by repeat case_match. Qed.

Lemma served_silent s s' ph provider : Forall (note_ok s s') (served_by ph provider).
Proof. destruct ph; try constructor. destruct a; by repeat constructor. Qed.

Lemma landing_silent s s' id res cs : Forall (note_ok s s') (landing_notes id res cs).
Proof.
  unfold landing_notes. apply Forall_concat, Forall_forall. intros l Hl. change (map ?f ?m) with (f <$> m) in Hl. apply list_elem_of_fmap in Hl as ([c ph] & -> & _).
  cbn. destruct ph; try constructor. destruct why; try constructor. destruct (_ =? _)%string; [|constructor]. apply (served_silent s s').
Qed.

Lemma write_frame c w user ws p key device inp existing s s' ns : callers s !! c = Some (Writing user ws p key device inp existing) ->
  write_turn c w user ws p key device inp existing s = (s', ns) -> frame s s' ns.
Proof.
  intros Hc. unfold write_turn. destruct (negb (tw_works w) || match existing with Some _ => false | None => bool_decide (tw_fresh w ∈ minted s) end) eqn:Hg;
    [intros [= <- <-]; by apply frame_same|].
  pose proof (write_login_providers (tw_now w) (tw_fresh w) user ws p inp existing (db s)) as Hp. destruct (write_login _ _ _ _ _ _ _ _) as [d res] eqn:Hw. cbn in Hp.
  assert (Hbase : forall ph ns', Forall (note_ok s (at_caller c ph (with_minted (default (tw_fresh w) existing) (with_db d s)))) ns' ->
    frame s (at_caller c ph (with_minted (default (tw_fresh w) existing) (with_db d s))) ns').
  { intros ph ns' Hn. constructor; [|intros q row; cbn; rewrite Hp; intros Hrow; left; by exists row|done]. intros i Hi. cbn. apply elem_of_union. by right. }
  destruct res as [id|e]; intros [= <- <-]; [|by apply Hbase]. apply Hbase. constructor; [|constructor].
  assert (Hid : id = default (tw_fresh w) existing).
  { unfold write_login in Hw. destruct existing; repeat case_match; simplify_eq; done. }
  subst id. split; [cbn; apply elem_of_union; left; by apply elem_of_singleton|]. destruct existing as [id|]; [right; by eexists c, key, device, inp|]. left.
  apply orb_false_iff in Hg as [_ Hg]. by apply bool_decide_eq_false in Hg.
Qed.

Lemma check_frame c w user ws provider key device inp s s' ns : check_turn c w user ws provider key device inp s = (s', ns) -> frame s s' ns.
Proof.
  unfold check_turn. destruct (tw_works w); [|intros [= <- <-]; by apply frame_same]. destruct (login_checks _ _ _ _ _ _) as [p|e] eqn:Hl; intros [= <- <-]; [|by apply frame_same].
  apply frame_same; [done|done|]. constructor; [|constructor]. unfold login_checks in Hl. destruct (userCanManageWorkspace _ user ws) eqn:Hm; [|done]. cbn [negb] in Hl.
  split; [done|]. destruct (pg_key provider) as [q|]; [|done]. destruct (providers (db s) !! q) as [row|] eqn:Hrow; [|done].
  destruct (String.eqb_spec (pv_Workspace row) ws) as [E|]; [|done]. cbn [negb] in Hl. destruct (_ && _); [done|]. injection Hl as <-. by exists row.
Qed.

Ltac framed := repeat case_match; intros; simplify_eq/=; by apply frame_same; [| |repeat constructor].

Lemma turn_frame c w s s' ns : turn c w s = (s', ns) -> frame s s' ns.
Proof.
  unfold turn. destruct (callers s !! c) as [old|] eqn:Hc; [|framed]. destruct old; try framed.
  - unfold acquire_turn. destruct tries; [framed|]. destruct (negb (tw_works w)); [framed|]. destruct (pg_key provider); [|framed]. destruct (negb _); [framed|].
    unfold AcquireProviderAccount. framed.
  - intros [= <- <-]. unfold ignored. destruct (tw_works w); apply frame_same; try done. apply on_account_providers.
  - unfold join_turn. framed.
  - unfold lead_turn. framed.
  - unfold store_turn, UpdateProviderAccountTokens, on_account. framed.
  - intros [= <- <-]. apply frame_same; [done|done|]. apply Forall_app. split; [apply served_silent|apply landing_silent].
  - intros [= <- <-]. unfold ignored. destruct (tw_works w); apply frame_same; try done. apply on_account_providers.
  - unfold reload_turn. framed.
  - unfold gate_turn. framed.
  - unfold exchange_turn. framed.
  - unfold poll_turn. framed.
  - apply check_frame.
  - unfold find_turn. framed.
  - by apply write_frame.
  - unfold probe_gate_turn. framed.
  - unfold probe_load_turn. framed.
  - unfold fetch_turn. framed.
  - unfold keep_turn, UpdateProviderAccountUsage, on_account. framed.
Qed.

(** A change of the database by its members: it writes providers it found, or a new one. *)
Lemma db_frame s d m : (forall p row', providers d !! p = Some row' -> (exists row, providers (db s) !! p = Some row /\ pv_Workspace row' = pv_Workspace row) \/ (p = m /\ m ∉ minted s)) ->
  frame s (with_minted m (with_db d s)) [].
Proof.
  intros Hd. constructor; [|intros p row Hrow; destruct (Hd p row Hrow) as [?|[-> ?]]; [by left|right; split; [done|cbn; apply elem_of_union; left; by apply elem_of_singleton]]|constructor].
  intros i Hi. cbn. apply elem_of_union. by right.
Qed.

Lemma old_frame s d : (forall p row', providers d !! p = Some row' -> exists row, providers (db s) !! p = Some row /\ pv_Workspace row' = pv_Workspace row) -> frame s (with_db d s) [].
Proof. intros Hd. constructor; [done| |constructor]. intros p row Hrow. left. by apply Hd. Qed.

Lemma create_provider_rows now seals fresh user ws inp d p row' : providers (CreateWorkspaceProvider now seals fresh user ws inp d).1 !! p = Some row' ->
  (exists row, providers d !! p = Some row /\ pv_Workspace row' = pv_Workspace row) \/ p = fresh.
Proof.
  unfold CreateWorkspaceProvider. repeat case_match; cbn; try (intros Hrow; left; by exists row').
  destruct (decide (p = fresh)) as [->|Hne]; [by right|]. rewrite lookup_insert_ne by done. intros Hrow. left. by exists row'.
Qed.

Lemma update_provider_rows seals user ws provider inp d p row' : providers (UpdateWorkspaceProvider seals user ws provider inp d).1 !! p = Some row' ->
  exists row, providers d !! p = Some row /\ pv_Workspace row' = pv_Workspace row.
Proof.
  unfold UpdateWorkspaceProvider. destruct (negb _); [intros Hrow; by exists row'|]. destruct (loadProviderRecord _ _ _) as [existing|]; [|intros Hrow; by exists row'].
  destruct (NewWorkspaceProviderRecord _ _ _ _) as [rec|]; [|intros Hrow; by exists row'].
  destruct (if IsOAuthVendor (pr_Vendor rec) then Ok (Some "") else resolveCipherArg seals (pi_APIKey inp)) as [cipher|]; [|intros Hrow; by exists row'].
  destruct (providers d !! pr_ID existing) as [old|] eqn:Hold; [|intros Hrow; by exists row']. destruct (negb _); [intros Hrow; by exists row'|]. cbn.
  destruct (decide (p = pr_ID existing)) as [->|Hne]; [rewrite lookup_insert_eq; intros [= <-]; by exists old|]. rewrite lookup_insert_ne by done. intros Hrow. by exists row'.
Qed.

Lemma delete_provider_rows user ws provider d p row' : providers (DeleteWorkspaceProvider user ws provider d).1 !! p = Some row' -> providers d !! p = Some row'.
Proof. unfold DeleteWorkspaceProvider. repeat case_match; cbn; try done. rewrite lookup_delete_Some. by intros [_ ?]. Qed.

Lemma act_frame a s s' ns : pool_act_step parse_url a s = (s', ns) -> frame s s' ns.
Proof.
  destruct a; cbn [pool_act_step]; try framed.
  - unfold complete_login, getPending. framed.
  - unfold poll_login, getPending. framed.
  - unfold StartLogin, StartDeviceLogin, started, putPending. framed.
  - apply turn_frame.
  - destruct (bool_decide (fresh ∈ minted s)) eqn:Hf; [framed|]. apply bool_decide_eq_false in Hf. intros [= <- <-]. apply db_frame. intros p row' Hrow.
    destruct (create_provider_rows _ _ _ _ _ _ _ _ _ Hrow) as [?| ->]; [by left|by right].
  - intros [= <- <-]. apply old_frame. apply update_provider_rows.
  - intros [= <- <-]. apply old_frame. intros p row' Hrow. exists row'. split; [by eapply delete_provider_rows|done].
  - intros [= <- <-]. apply old_frame. unfold DeleteProviderAccount. repeat case_match; intros q row' Hrow; by exists row'.
  - intros [= <- <-]. apply old_frame. unfold SetProviderAccountStatus. repeat case_match; intros q row' Hrow; by exists row'.
Qed.

Record homes (tr : list pool_note) (s : pool_system) : Prop := {
  ho_custody : custody tr s;
  ho_minted : forall u ws p id a r, Joined u ws p id a r ∈ tr -> id ∈ minted s;
  ho_one : forall u ws p id a r u' ws' p' a' r', Joined u ws p id a r ∈ tr -> Joined u' ws' p' id a' r' ∈ tr -> ws = ws' /\ p = p';
  ho_provider : forall p row, providers (db s) !! p = Some row -> p ∈ minted s;
  ho_admitted : forall u ws p, Cleared u ws p ∈ tr -> p ∈ minted s /\ forall row, providers (db s) !! p = Some row -> pv_Workspace row = ws;
}.

Definition is_login (n : pool_note) : bool := match n with Joined _ _ _ _ _ _ => true | _ => false end.

Definition logins (ns : list pool_note) : list pool_note := List.filter is_login ns.

Lemma no_logins ns : Forall (fun n => is_login n = false) ns -> (length (logins ns) <= 1)%nat.
Proof. induction 1 as [|n ns Hn _ IH]; cbn; [lia|]. by rewrite Hn. Qed.

Lemma served_no_login ph provider : Forall (fun n => is_login n = false) (served_by ph provider).
Proof. destruct ph; try constructor. destruct a; by repeat constructor. Qed.

Lemma landing_no_login id res cs : Forall (fun n => is_login n = false) (landing_notes id res cs).
Proof.
  unfold landing_notes. apply Forall_concat, Forall_forall. intros l Hl. change (map ?f ?m) with (f <$> m) in Hl. apply list_elem_of_fmap in Hl as ([c ph] & -> & _).
  cbn. destruct ph; try constructor. destruct why; try constructor. destruct (_ =? _)%string; [|constructor]. apply (served_no_login (after_refresh rec (ForRun provider tries) res)).
Qed.

Ltac few := repeat case_match; intros; simplify_eq/=; lia.

Lemma turn_logins c w s s' ns : turn c w s = (s', ns) -> (length (logins ns) <= 1)%nat.
Proof.
  unfold turn. destruct (callers s !! c) as [old|]; [|few]. destruct old; try few.
  - unfold acquire_turn. few.
  - unfold join_turn. few.
  - unfold lead_turn. few.
  - unfold store_turn. few.
  - intros [= <- <-]. apply no_logins, Forall_app. split; [apply served_no_login|apply landing_no_login].
  - intros [= <- <-]. cbn. lia.
  - unfold gate_turn. few.
  - unfold exchange_turn. few.
  - unfold poll_turn. few.
  - unfold check_turn. few.
  - unfold find_turn. few.
  - unfold write_turn. few.
  - unfold probe_gate_turn. few.
  - unfold probe_load_turn. few.
  - unfold fetch_turn. few.
  - unfold keep_turn. few.
Qed.

Lemma act_logins a s s' ns : pool_act_step parse_url a s = (s', ns) -> (length (logins ns) <= 1)%nat.
Proof. destruct a; cbn [pool_act_step]; try few; [unfold complete_login; few|unfold poll_login; few|apply turn_logins]. Qed.

(** At most one note of a step is a login, so two logins of one account meet in its history. *)
Lemma homes_act tr a s s' ns : homes tr s -> (length (logins ns) <= 1)%nat ->
  pool_act_step parse_url a s = (s', ns) -> homes (tr ++ ns) s'.
Proof.
  intros [Hcu Hm Ho Hp Ha] Hlen E. pose proof (act_frame a s s' ns E) as [Fm Fp Fn]. rewrite Forall_forall in Fn.
  assert (Hnew : forall u ws p id a r u' ws' p' a' r', Joined u ws p id a r ∈ ns -> Joined u' ws' p' id a' r' ∈ tr -> ws = ws' /\ p = p').
  { intros u ws p id a0 r u' ws' p' a' r' Hn Hold. destruct (Fn _ Hn) as [_ [Hf|(c & key & dev & inp & Hc)]]; [by destruct Hf; eapply Hm|].
    pose proof (cu_phases _ _ Hcu c _ Hc) as [_ (u2 & a2 & r2 & Hj & _)]. by eapply Ho. }
  constructor.
  - by eapply custody_act.
  - intros u ws p id a0 r Hn. apply elem_of_app in Hn as [Hn|Hn]; [by eapply Fm, Hm|]. by destruct (Fn _ Hn).
  - intros u ws p id a0 r u' ws' p' a' r' H1 H2. apply elem_of_app in H1, H2. destruct H1 as [H1|H1], H2 as [H2|H2]; [by eapply Ho|by destruct (Hnew _ _ _ _ _ _ _ _ _ _ _ H2 H1)|by eapply Hnew|].
    assert (Hone : Joined u ws p id a0 r = Joined u' ws' p' id a' r'); [|by injection Hone].
    assert (F1 : Joined u ws p id a0 r ∈ logins ns) by (unfold logins; rewrite list_elem_of_In, filter_In, <- list_elem_of_In; done).
    assert (F2 : Joined u' ws' p' id a' r' ∈ logins ns) by (unfold logins; rewrite list_elem_of_In, filter_In, <- list_elem_of_In; done).
    destruct (logins ns) as [|x [|y l]]; [by apply elem_of_nil in F1| |cbn in Hlen; lia]. apply list_elem_of_singleton in F1, F2. congruence.
  - intros p row Hrow. destruct (Fp p row Hrow) as [(old & Hold & _)|[_ ?]]; [by eapply Fm, Hp|done].
  - intros u ws p Hn. apply elem_of_app in Hn as [Hn|Hn].
    + destruct (Ha _ _ _ Hn) as [Hin Hws]. split; [by apply Fm|]. intros row Hrow. destruct (Fp p row Hrow) as [(old & Hold & ->)|[Hout _]]; [by apply Hws|done].
    + destruct (Fn _ Hn) as [_ (old & Hold & Hws)]. split; [by eapply Fm, Hp|]. intros row Hrow. destruct (Fp p row Hrow) as [(old' & Hold' & ->)|[Hout _]]; [congruence|]. by destruct Hout; eapply Hp.
Qed.

Lemma play_homes b acts : homes (play b acts).1 (play b acts).2.
Proof.
  apply (play_ind homes); [|intros tr s a s' ns Hh E; apply (homes_act tr a s); [done|by eapply act_logins|done]]. constructor.
  - by constructor.
  - intros * Hn. by apply elem_of_nil in Hn.
  - intros * Hn. by apply elem_of_nil in Hn.
  - done.
  - intros * Hn. by apply elem_of_nil in Hn.
Qed.

Lemma play_snoc b acts a : play b (acts ++ [a]) = play1 (play b acts) a.
Proof. unfold play. by rewrite fold_left_app. Qed.

Lemma admitted_managed b acts user ws p : Cleared user ws p ∈ (play b acts).1 ->
  exists before after, acts = before ++ after /\ userCanManageWorkspace (book (db (play b before).2)) user ws = true.
Proof.
  induction acts as [|a acts IH] using rev_ind; [intros Hn; by apply elem_of_nil in Hn|]. rewrite play_snoc. unfold play1.
  destruct (pool_act_step parse_url a (play b acts).2) as [s ns] eqn:E. cbn [fst]. intros Hn. apply elem_of_app in Hn as [Hn|Hn].
  - destruct (IH Hn) as (before & after & -> & Hm). exists before, (after ++ [a]). split; [by rewrite app_assoc|done].
  - pose proof (fr_notes _ _ _ (act_frame _ _ _ _ E)) as Hok. rewrite Forall_forall in Hok. destruct (Hok _ Hn) as [Hm _]. by exists acts, [a].
Qed.

(** C32: a token that is served to a run of a pool was given to an account of that pool: by a
    login that a manager of the pool's workspace made into it, or by a grant for a refresh
    token of the same account, whatever callers, edits, refreshes and failures interleave. *)
Theorem tokens_stay_in_their_pool b acts provider id t : let '(tr, s) := play b acts in Served provider id t ∈ tr -> t <> "" ->
  exists p ws, pg_key provider = Some p /\ (forall row, providers (db s) !! p = Some row -> pv_Workspace row = ws) /\
    ((exists access refresh, Granted id access refresh ∈ tr /\ (t = access \/ t = refresh)) \/
     (exists user access refresh, Joined user ws p id access refresh ∈ tr /\ (t = access \/ t = refresh))) /\
    exists user access refresh, Joined user ws p id access refresh ∈ tr /\
      exists before after, acts = before ++ after /\ userCanManageWorkspace (book (db (play b before).2)) user ws = true.
Proof.
  pose proof (play_homes b acts) as Hh. pose proof (admitted_managed b acts) as Hadm. destruct (play b acts) as [tr s] eqn:E. cbn [fst snd] in *. intros Hin Hne.
  pose proof (cu_served _ _ (ho_custody _ _ Hh)) as Hs. rewrite Forall_forall in Hs. destruct (Hs _ Hin) as [Ho (p & ws & Hp & (user & access & refresh & Hj & Ha))]. exists p, ws.
  split; [done|]. split; [by eapply ho_admitted|]. split.
  - destruct Ho as [?|(n & Hn & Hg)]; [done|]. destruct n; try done; destruct Hg as [-> Hg].
    + left. by exists access0, refresh0.
    + right. destruct (ho_one _ _ Hh _ _ _ _ _ _ _ _ _ _ _ Hn Hj) as [-> ->]. by exists user0, access0, refresh0.
  - exists user, access, refresh. split; [done|]. by apply Hadm in Ha.
Qed.
End History.
