(* ===== verification/PoolRotation.v ===== *)
(** * PoolRotation: the accounts of a pool take turns

    Over the histories of [PoolHistory]: the stamp a row carries is that of its last pick,
    whatever else is written meanwhile, and a pick goes by the stamps its statement began
    with, so a statement that began after an account was picked comes back to it only after
    the others that are free had theirs. *)

From stdpp Require Import sorting.
From S2P Require Import Prelude GoStrings GoTime Operations Principals Accounts ProviderAccounts AccountPool PoolHistory.
Import String.
Open Scope string_scope.
Open Scope list_scope.
Open Scope Z_scope.

Definition stamp_of (n : pool_note) : option Z := match n with Picked _ _ _ t _ => Some t | _ => None end.

Definition stamps (tr : list pool_note) : list Z := omap stamp_of tr.

(** When the account was last picked. *)
Fixpoint last_pick (id : string) (tr : list pool_note) : option Z :=
  match tr with
  | [] => None
  | n :: tr =>
      match last_pick id tr, n with
      | Some t, _ => Some t
      | None, Picked _ _ id' t _ => if (id' =? id)%string then Some t else None
      | None, _ => None
      end
  end.

Lemma last_pick_app id l1 l2 : last_pick id (l1 ++ l2) = match last_pick id l2 with Some t => Some t | None => last_pick id l1 end.
Proof. induction l1 as [|n l1 IH]; cbn; [by destruct (last_pick id l2)|]. rewrite IH. by destruct (last_pick id l2). Qed.

Lemma last_pick_in id tr t : last_pick id tr = Some t -> exists c p f, Picked c p id t f ∈ tr.
Proof.
  induction tr as [|n tr IH]; cbn; [done|]. destruct (last_pick id tr) as [t'|].
  - intros [= ->]. destruct IH as (c & p & f & Hn); [done|]. exists c, p, f. by right.
  - destruct n; try done. destruct (String.eqb_spec account id) as [->|]; [|done]. intros [= ->]. eexists _, _, _. left.
Qed.

Lemma picked_stamp c p id t f tr : Picked c p id t f ∈ tr -> t ∈ stamps tr.
Proof. intros Hn. apply list_elem_of_omap. by exists (Picked c p id t f). Qed.

Lemma no_stamps id ns : stamps ns = [] -> last_pick id ns = None.
Proof. induction ns as [|n ns IH]; [done|]. unfold stamps. cbn. destruct n; try done; intros E; by rewrite IH. Qed.

(** The history up to where the statement of a caller's pick began. *)
Definition seen_after (c : string) (ps : list pool_note * list pool_note) (n : pool_note) : list pool_note * list pool_note :=
  (ps.1 ++ [n], match n with Looked c' => if (c' =? c)%string then ps.1 else ps.2 | _ => ps.2 end).

Definition seen (c : string) (tr : list pool_note) : list pool_note := (fold_left (seen_after c) tr ([], [])).2.

Lemma seen_snoc c tr n : seen c (tr ++ [n]) = match n with Looked c' => if (c' =? c)%string then tr else seen c tr | _ => seen c tr end.
Proof.
  assert (Hpre : forall l ps, (fold_left (seen_after c) l ps).1 = ps.1 ++ l).
  { induction l as [|m l IH]; intros ps; cbn; [by rewrite app_nil_r|]. rewrite IH. cbn. by rewrite <- app_assoc. }
  unfold seen. rewrite fold_left_app. cbn. rewrite Hpre. by destruct n.
Qed.

Lemma seen_since c tr ns : Looked c ∉ ns -> seen c (tr ++ ns) = seen c tr.
Proof.
  induction ns as [|n ns IH] using rev_ind; intros Hn; [by rewrite app_nil_r|]. rewrite elem_of_app, list_elem_of_singleton in Hn. rewrite app_assoc, seen_snoc.
  rewrite IH by tauto. destruct n; try done. destruct (String.eqb_spec caller c) as [->|]; [|done]. destruct Hn. by right.
Qed.

(** A pick whose statement began in [l] goes by a history that ends in [l]. *)
Lemma seen_in c l : Looked c ∈ l -> exists la lb, l = la ++ Looked c :: lb /\ forall pre, seen c (pre ++ l) = pre ++ la.
Proof.
  induction l as [|n l IH] using rev_ind; [intros Hl; by apply elem_of_nil in Hl|]. assert (Hn : n = Looked c \/ n <> Looked c) by (destruct n; try (by right); destruct (decide (caller = c)) as [->|]; [by left|right; congruence]).
  destruct Hn as [->|Hne].
  - intros _. exists l, []. split; [done|]. intros pre. by rewrite app_assoc, seen_snoc, String.eqb_refl.
  - rewrite elem_of_app, list_elem_of_singleton. intros [Hl|E]; [|congruence]. destruct (IH Hl) as (la & lb & -> & Hs). exists la, (lb ++ [n]). split; [by rewrite <- app_assoc|].
    intros pre. rewrite app_assoc, seen_snoc, Hs. destruct n; try done. destruct (String.eqb_spec caller c) as [->|]; [done|done].
Qed.

Section Rotation.
Context `{Vendors} `{PoolColumns} (parse_url : string -> option (string * string)).

(** The row was among the least recently used of those it was picked from. *)
Definition least_of (d : pool_db) (id : string) (free : list string) : Prop :=
  exists a, pooled d !! id = Some a /\ forall i, i ∈ free -> exists b, pooled d !! i = Some b /\ used_le (pa_LastUsedAt a) (pa_LastUsedAt b) = true.

(** The one pick of a step, by the snapshot of the statement or, where it began with the step,
    by what is there. *)
Definition one_pick (s : pool_system) (ns : list pool_note) : Prop :=
  exists c p id t free rest began d, ns = began ++ Picked c p id t free :: rest /\ stamps rest = [] /\ least_of d id free /\
    ((began = [] /\ looks s !! c = Some d) \/ (began = [Looked c] /\ d = db s)).

(** What a step does to the stamps of rows, given what it notes. *)
Record stamped (s s' : pool_system) (ns : list pool_note) : Prop := {
  st_minted : minted s ⊆ minted s';
  st_rows : forall id a', pooled (db s') !! id = Some a' ->
    (exists a, pooled (db s) !! id = Some a /\ pa_LastUsedAt a' = match last_pick id ns with Some t => Some t | None => pa_LastUsedAt a end) \/
    ((id ∉ minted s) /\ id ∈ minted s' /\ pa_LastUsedAt a' = None /\ last_pick id ns = None);
  st_looks : forall c d, looks s' !! c = Some d -> (looks s !! c = Some d /\ Looked c ∉ ns) \/ (d = db s /\ ns = [Looked c]);
  st_picks : stamps ns = [] \/ one_pick s ns;
}.

(** Rows keep their stamps; some may go. *)
Definition same_stamps (d d' : pool_db) : Prop := forall id a', pooled d' !! id = Some a' -> exists a, pooled d !! id = Some a /\ pa_LastUsedAt a' = pa_LastUsedAt a.

(** A note of something else than a pick. *)
Definition calm (n : pool_note) : Prop := match n with Looked _ | Picked _ _ _ _ _ => False | _ => True end.

Lemma calm_stamps ns : Forall calm ns -> stamps ns = [].
Proof. unfold stamps. induction 1 as [|n ns Hn _ IH]; [done|]. cbn. by destruct n. Qed.

Lemma calm_looks c ns : Forall calm ns -> Looked c ∉ ns.
Proof. rewrite Forall_forall. intros Hl Hin. by apply (Hl _ Hin). Qed.

Lemma stamped_quiet s s' ns : minted s ⊆ minted s' -> same_stamps (db s) (db s') -> looks s' = looks s -> Forall calm ns -> stamped s s' ns.
Proof.
  intros Hm Hd El Hn. pose proof (calm_stamps ns Hn) as Hs. constructor; [done| | |by left].
  - intros id a' Ha'. left. destruct (Hd id a' Ha') as (a & Ha & E). exists a. split; [done|]. by rewrite no_stamps.
  - intros c d. rewrite El. intros Hc. left. split; [done|by apply calm_looks].
Qed.

Lemma same_refl d : same_stamps d d.
Proof. intros id a Ha. by exists a. Qed.

Lemma same_pooled d d' : pooled d' = pooled d -> same_stamps d d'.
Proof. intros E id a. rewrite E. intros Ha. by exists a. Qed.

Lemma same_insert d d' id a a' : pooled d !! id = Some a -> pooled d' = <[id := a']> (pooled d) -> pa_LastUsedAt a' = pa_LastUsedAt a -> same_stamps d d'.
Proof.
  intros Ha E Eu i b. rewrite E. destruct (decide (i = id)) as [->|Hne]; [rewrite lookup_insert_eq; intros [= <-]; by exists a|]. rewrite lookup_insert_ne by done.
  intros Hb. by exists b.
Qed.

Lemma same_on account f d : (forall a, pa_LastUsedAt (f a) = pa_LastUsedAt a) -> same_stamps d (on_account account f d).1.
Proof.
  intros Hf. unfold on_account. destruct (pg_key account) as [id|]; [|apply same_refl]. destruct (pooled d !! id) as [a|] eqn:Ha; [|apply same_refl].
  by eapply (same_insert d _ id a (f a)).
Qed.

Lemma same_tokens seals account access refresh expiresAt d : same_stamps d (UpdateProviderAccountTokens seals account access refresh expiresAt d).1.
Proof. unfold UpdateProviderAccountTokens. destruct (_ && _); [apply same_refl|]. by apply same_on. Qed.

Lemma same_status user ws provider account status d : same_stamps d (SetProviderAccountStatus user ws provider account status d).1.
Proof.
  unfold SetProviderAccountStatus. destruct (negb _); [apply same_refl|]. destruct (negb _); [apply same_refl|]. destruct (named_account _ _ _ _) as [[id a]|] eqn:Hn; [|apply same_refl].
  unfold named_account in Hn. repeat case_match; simplify_eq; by eapply (same_insert d _ id a).
Qed.

Lemma same_drop_account user ws provider account d : same_stamps d (DeleteProviderAccount user ws provider account d).1.
Proof.
  unfold DeleteProviderAccount. destruct (negb _); [apply same_refl|]. destruct (named_account _ _ _ _) as [[id a]|]; [|apply same_refl].
  intros i b Hb. cbn in Hb. apply lookup_delete_Some in Hb as [_ Hb]. by exists b.
Qed.

Lemma same_drop_provider user ws provider d : same_stamps d (DeleteWorkspaceProvider user ws provider d).1.
Proof.
  unfold DeleteWorkspaceProvider. destruct (negb _); [apply same_refl|]. destruct (pg_key provider) as [p|]; [|by apply same_pooled]. cbv zeta. cbn [providers with_tiers].
  destruct (providers d !! p) as [r|]; [|by apply same_pooled]. destruct (pv_Workspace r =? ws)%string; [|by apply same_pooled].
  intros id a. cbn. rewrite map_lookup_filter_Some. intros [Ha _]. by exists a.
Qed.

Lemma same_create_provider now seals fresh user ws inp d : same_stamps d (CreateWorkspaceProvider now seals fresh user ws inp d).1.
Proof. apply same_pooled. unfold CreateWorkspaceProvider. by repeat case_match. Qed.

Lemma same_update_provider seals user ws provider inp d : same_stamps d (UpdateWorkspaceProvider seals user ws provider inp d).1.
Proof. apply same_pooled. unfold UpdateWorkspaceProvider. by repeat case_match. Qed.

Lemma same_ignored w f s : (forall d, same_stamps d (f d).1) -> same_stamps (db s) (db (ignored w f s)).
Proof. intros Hf. unfold ignored. destruct (tw_works w); [apply Hf|apply same_refl]. Qed.

(** A pick is over, whatever it found. *)
Lemma stamped_over c s s' ns : minted s' = minted s -> same_stamps (db s) (db s') -> looks s' = delete c (looks s) -> (ns = [] \/ ns = [Looked c]) -> stamped s s' ns.
Proof.
  intros Hm Hd El Hns. assert (Hs : stamps ns = []) by (by destruct Hns as [->| ->]). constructor; [by rewrite Hm| | |by left].
  - intros id a' Ha'. left. destruct (Hd id a' Ha') as (a & Ha & E). exists a. split; [done|]. by rewrite no_stamps.
  - intros c' d. rewrite El. intros Hc. apply lookup_delete_Some in Hc as [Hne Hc]. left. split; [done|].
    destruct Hns as [->| ->]; [apply not_elem_of_nil|]. rewrite list_elem_of_singleton. congruence.
Qed.

(** The pick is the one step that stamps. *)
Lemma stamped_pick c p id t free rest ph s a : pooled (db s) !! id = Some a -> least_of (view c s) id free -> Forall calm rest ->
  stamped s (at_caller c ph (looked c (with_db (with_pooled (<[id := with_used t a]> (pooled (db s))) (db s)) s)))
    (match looks s !! c with Some _ => [] | None => [Looked c] end ++ Picked c p id t free :: rest).
Proof.
  intros Ha Hleast Hcalm. pose proof (calm_stamps rest Hcalm) as Hrest. set (began := match looks s !! c with Some _ => [] | None => [Looked c] end).
  assert (Hbegan : forall i, last_pick i (began ++ Picked c p id t free :: rest) = if (id =? i)%string then Some t else None).
  { intros i. rewrite last_pick_app. cbn. rewrite (no_stamps i rest) by done. destruct (id =? i)%string; [done|]. by apply no_stamps; subst began; destruct (looks s !! c). }
  constructor; [done| | |].
  - intros i b. cbn. rewrite Hbegan. destruct (decide (i = id)) as [->|Hne].
    + rewrite lookup_insert_eq, String.eqb_refl. intros [= <-]. left. by exists a.
    + rewrite lookup_insert_ne by done. intros Hb. left. exists b. split; [done|]. by rewrite (proj2 (String.eqb_neq id i)) by congruence.
  - intros c' d. cbn. intros Hc. apply lookup_delete_Some in Hc as [Hne Hc]. left. split; [done|]. rewrite elem_of_app, elem_of_cons. intros [Hin|[?|Hin]]; [|done|].
    + subst began. destruct (looks s !! c); [by apply elem_of_nil in Hin|]. apply list_elem_of_singleton in Hin. congruence.
    + by apply (calm_looks c') in Hin.
  - right. exists c, p, id, t, free, rest, began, (view c s). split_and!; [done|done|done|]. subst began. unfold view. destruct (looks s !! c) as [d|]; [by left|by right].
Qed.

Lemma acquire_stamped c w provider tries lastErr s s' ns : acquire_turn c w provider tries lastErr s = (s', ns) -> stamped s s' ns.
Proof.
  assert (Hend : forall ph, stamped s (at_caller c ph s) []) by (intros ph; by apply stamped_quiet; [|apply same_refl|..]).
  assert (Hover : forall ph ns, ns = [] \/ ns = [Looked c] -> stamped s (at_caller c ph (looked c s)) ns) by (intros ph ns0 Hns; by apply (stamped_over c); [|apply same_refl|..]).
  unfold acquire_turn. destruct tries as [|tries]; [intros [= <- <-]; apply Hend|]. destruct (negb (tw_works w)); [intros [= <- <-]; apply Hover; by left|].
  destruct (pg_key provider) as [p|]; [|intros [= <- <-]; apply Hover; by left].
  destruct (may_pick _ _ _ _ _ _) eqn:Hpick; cbn [negb]; [|intros [= <- <-]; by apply stamped_quiet; [|apply same_refl|..]].
  destruct (tw_pick w) as [id|].
  - destruct (picked_row _ _ _ _ _ _ Hpick) as (a & Ha & _ & Hleast). cbn [AcquireProviderAccount]. rewrite Ha.
    assert (Hgo : forall ph rest, Forall calm rest -> stamped s (at_caller c ph (looked c (with_db (with_pooled (<[id := with_used (tw_now w) a]> (pooled (db s))) (db s)) s)))
      (match looks s !! c with Some _ => [] | None => [Looked c] end ++ Picked c p id (tw_now w) (map fst (candidates (tw_now w) (tw_locked w) p (view c s) (db s))) :: rest)).
    { intros ph rest Hr. by apply stamped_pick. }
    destruct (scanAccountRecord _ id _ _) as [rec|e]; [|intros [= <- <-]; by apply (Hgo _ [])]. destruct (_ && _); [intros [= <- <-]; by apply (Hgo _ [])|].
    destruct (needsRefresh _ _); intros [= <- <-]; [by apply (Hgo _ [])|]. rewrite <- app_assoc. apply Hgo; by repeat constructor.
  - cbn [AcquireProviderAccount]. intros [= <- <-]. apply (stamped_over c); [done|apply same_refl|done|]. rewrite app_nil_r. destruct (looks s !! c); [by left|by right].
Qed.

Lemma served_calm ph provider : Forall calm (served_by ph provider).
Proof. destruct ph; try constructor. destruct a; by repeat constructor. Qed.

Lemma landing_calm id res cs : Forall calm (landing_notes id res cs).
Proof.
  unfold landing_notes. apply Forall_concat, Forall_forall. intros l Hl. change (map ?f ?m) with (f <$> m) in Hl. apply list_elem_of_fmap in Hl as ([c ph] & -> & _).
  cbn. destruct ph; try constructor. destruct why; try constructor. destruct (_ =? _)%string; [|constructor]. apply (served_calm (after_refresh rec (ForRun provider tries) res)).
Qed.

Lemma write_stamped c w user ws p key device inp existing s s' ns : write_turn c w user ws p key device inp existing s = (s', ns) -> stamped s s' ns.
Proof.
  assert (Hend : forall ph, stamped s (at_caller c ph s) []) by (intros ph; by apply stamped_quiet; [|apply same_refl|..]).
  unfold write_turn. destruct (negb (tw_works w) || match existing with Some _ => false | None => bool_decide (tw_fresh w ∈ minted s) end) eqn:Hg; [intros [= <- <-]; apply Hend|].
  apply orb_false_iff in Hg as [_ Hg]. destruct (write_login _ _ _ _ _ _ _ _) as [d res] eqn:Hw.
  assert (Hd : forall id a', pooled d !! id = Some a' -> (exists a, pooled (db s) !! id = Some a /\ pa_LastUsedAt a' = pa_LastUsedAt a) \/
    (existing = None /\ id = tw_fresh w /\ pa_LastUsedAt a' = None)).
  { intros id a' Ha'. unfold write_login in Hw. destruct (negb (account_fits inp)); [injection Hw as <- <-; left; by exists a'|]. destruct existing as [old|].
    - injection Hw as <- <-. cbn in Ha'. left. destruct (pooled (db s) !! old) as [a|] eqn:Ha; [|by exists a']. destruct (_ =? _)%string; [|by exists a'].
      by eapply (same_insert (db s) (with_pooled _ (db s)) old a); [..|exact Ha'].
    - destruct (_ || _); [injection Hw as <- <-; left; by exists a'|]. injection Hw as <- <-. cbn in Ha'.
      destruct (decide (id = tw_fresh w)) as [->|Hne]; [rewrite lookup_insert_eq in Ha'; injection Ha' as <-; by right|]. rewrite lookup_insert_ne in Ha' by done. left. by exists a'. }
  assert (Hgo : forall ph ns', Forall calm ns' -> stamped s (at_caller c ph (with_minted (default (tw_fresh w) existing) (with_db d s))) ns').
  { intros ph ns' Hcalm. pose proof (calm_stamps ns' Hcalm) as Hn. constructor; [intros i Hi; cbn; apply elem_of_union; by right| |intros c' d' Hc; left; split; [done|by apply calm_looks]|by left].
    intros id a' Ha'. rewrite no_stamps by done. destruct (Hd id a' Ha') as [?|(-> & -> & ?)]; [by left|]. right. split_and!; [by apply bool_decide_eq_false in Hg|cbn; apply elem_of_union; left; by apply elem_of_singleton|done|done]. }
  destruct res; intros [= <- <-]; apply Hgo; by repeat constructor.
Qed.

Ltac quiet := repeat case_match; intros; simplify_eq/=; (apply stamped_quiet; [done|by first [apply same_refl|apply same_pooled]|done|by repeat constructor]).

Lemma turn_stamped c w s s' ns : turn c w s = (s', ns) -> stamped s s' ns.
Proof.
  unfold turn. destruct (callers s !! c) as [old|]; [|quiet]. destruct old; try quiet.
  - apply acquire_stamped.
  - intros [= <- <-]. apply stamped_quiet; [unfold ignored; by destruct (tw_works w)|apply same_ignored; intros d; by apply same_on|unfold ignored; by destruct (tw_works w)|done].
  - unfold join_turn. quiet.
  - unfold lead_turn. quiet.
  - unfold store_turn. destruct (negb (tw_works w)); [quiet|]. destruct (UpdateProviderAccountTokens _ _ _ _ _ _) as [d r] eqn:E. intros [= <- <-].
    apply stamped_quiet; [done| |done|done]. cbn. change d with (d, r).1. rewrite <- E. apply same_tokens.
  - intros [= <- <-]. apply stamped_quiet; [done|apply same_refl|done|]. apply Forall_app. split; [apply served_calm|apply landing_calm].
  - intros [= <- <-]. apply stamped_quiet; [unfold ignored; by destruct (tw_works w)|apply same_ignored; intros d; by apply same_on|unfold ignored; by destruct (tw_works w)|done].
  - unfold reload_turn. quiet.
  - unfold gate_turn. quiet.
  - unfold exchange_turn. quiet.
  - unfold poll_turn. quiet.
  - unfold check_turn. quiet.
  - unfold find_turn. quiet.
  - apply write_stamped.
  - unfold probe_gate_turn. quiet.
  - unfold probe_load_turn. quiet.
  - unfold fetch_turn. quiet.
  - unfold keep_turn. destruct (negb (tw_works w)); [quiet|]. destruct (UpdateProviderAccountUsage _ _ _) as [d r] eqn:E. intros [= <- <-].
    apply stamped_quiet; [done| |done|done]. cbn. change d with (d, r).1. rewrite <- E. by apply same_on.
Qed.

Lemma act_stamped a s s' ns : pool_act_step parse_url a s = (s', ns) -> stamped s s' ns.
Proof.
  assert (Hdb : forall d, same_stamps (db s) d -> stamped s (with_db d s) []) by (intros d Hd; by apply stamped_quiet).
  destruct a; cbn [pool_act_step]; try quiet.
  - unfold complete_login, getPending. quiet.
  - unfold poll_login, getPending. quiet.
  - unfold StartLogin, StartDeviceLogin, started, putPending. quiet.
  - unfold may_look. destruct (match callers s !! c with Some _ => _ | None => false end) eqn:Hmay; intros [= <- <-]; [|by apply stamped_quiet; [|apply same_refl|..]].
    constructor; [done|intros id a' Ha'; left; by exists a'| |by left]. intros c' d. cbn. destruct (decide (c' = c)) as [->|Hne]; [rewrite lookup_insert_eq; intros [= <-]; by right|].
    rewrite lookup_insert_ne by done. intros Hc. left. split; [done|]. rewrite list_elem_of_singleton. congruence.
  - apply turn_stamped.
  - destruct (bool_decide _); intros [= <- <-]; [by apply stamped_quiet; [|apply same_refl|..]|]. apply stamped_quiet; [|apply same_create_provider|done|done].
    intros i Hi. cbn. apply elem_of_union. by right.
  - intros [= <- <-]. apply Hdb, same_update_provider.
  - intros [= <- <-]. apply Hdb, same_drop_provider.
  - intros [= <- <-]. apply Hdb, same_drop_account.
  - intros [= <- <-]. apply Hdb, same_status.
Qed.

(** ** Over a history *)

(** Each pick took a least recently picked of those that were free, by the history its
    statement began with. *)
Definition in_turn (tr : list pool_note) : Prop := forall pre c p id t free post, tr = pre ++ Picked c p id t free :: post ->
  forall i, i ∈ free -> used_le (last_pick id (seen c pre)) (last_pick i (seen c pre)) = true.

(** The rows carry the stamps of a history. *)
Definition stamps_of (tr : list pool_note) (d : pool_db) : Prop := forall id a, pooled d !! id = Some a -> pa_LastUsedAt a = last_pick id tr.

Record rotation (tr : list pool_note) (s : pool_system) : Prop := {
  ro_rows : stamps_of tr (db s);
  ro_minted : forall id a, pooled (db s) !! id = Some a -> id ∈ minted s;
  ro_picked : forall id t, last_pick id tr = Some t -> id ∈ minted s;
  ro_looks : forall c d, looks s !! c = Some d -> stamps_of (seen c tr) d /\ forall id a, pooled d !! id = Some a -> id ∈ minted s;
  ro_turn : in_turn tr;
}.

Lemma least_in_turn tr d id free : stamps_of tr d -> least_of d id free -> forall i, i ∈ free -> used_le (last_pick id tr) (last_pick i tr) = true.
Proof. intros Hs (a & Ha & Hall) i Hi. destruct (Hall i Hi) as (b & Hb & Hle). by rewrite <- (Hs id a Ha), <- (Hs i b Hb). Qed.

Lemma no_pick c p id t free post l pre : stamps l = [] -> l = pre ++ Picked c p id t free :: post -> False.
Proof. intros Hl ->. assert (Hin : t ∈ stamps (pre ++ Picked c p id t free :: post)) by (eapply picked_stamp, elem_of_app; right; left). rewrite Hl in Hin. by apply elem_of_nil in Hin. Qed.

Lemma in_turn_step tr s ns : rotation tr s -> (stamps ns = [] \/ one_pick s ns) -> in_turn (tr ++ ns).
Proof.
  intros Hro Hn pre c p id t free post E i Hi. apply app_cons_split in E as [[post' E]|(mid & -> & E)]; [by eapply (ro_turn _ _ Hro)|].
  destruct Hn as [Hn|(c' & p' & id' & t' & free' & rest & began & d & -> & Hrest & Hleast & Hbegan)]; [by destruct (no_pick _ _ _ _ _ _ _ _ Hn E)|].
  apply app_cons_split in E as [[post' E]|(mid' & -> & E)]; [destruct Hbegan as [[-> _]|[-> _]]; by apply no_pick in E|].
  destruct mid' as [|n mid']; cbn in E; [|injection E as _ E; by apply no_pick in E]. injection E as -> -> -> -> -> ->. rewrite app_nil_r.
  destruct Hbegan as [[-> Hl]|[-> ->]].
  - rewrite app_nil_r. apply (least_in_turn _ d _ free); [by apply (ro_looks _ _ Hro)|done|done].
  - rewrite seen_snoc, String.eqb_refl. apply (least_in_turn _ (db s) _ free); [apply (ro_rows _ _ Hro)|done|done].
Qed.

Lemma one_pick_stamp s ns id t : one_pick s ns -> last_pick id ns = Some t -> exists d, least_of d id [] /\ ((exists c, looks s !! c = Some d) \/ d = db s).
Proof.
  intros (c & p & id' & t' & free & rest & began & d & -> & Hrest & (a & Ha & _) & Hbegan) Hl. rewrite last_pick_app in Hl. cbn in Hl. rewrite (no_stamps id rest) in Hl by done.
  assert (Hb : last_pick id began = None) by (apply no_stamps; by destruct Hbegan as [[-> _]|[-> _]]). rewrite Hb in Hl.
  destruct (String.eqb_spec id' id) as [->|]; [|done]. exists d. split; [exists a; split; [done|intros i Hi; by apply elem_of_nil in Hi]|]. destruct Hbegan as [[_ ?]|[_ ?]]; [left; by exists c|by right].
Qed.

Lemma rotation_act tr s a s' ns : rotation tr s -> pool_act_step parse_url a s = (s', ns) -> rotation (tr ++ ns) s'.
Proof.
  intros Hro E. pose proof Hro as [Hr Hmint Hp Hl Ht]. destruct (act_stamped a s s' ns E) as [Hm Hrows Hlooks Hpicks].
  assert (Hnot : forall id, id ∉ minted s -> last_pick id tr = None) by (intros id Hid; destruct (last_pick id tr) as [t|] eqn:El; [by destruct Hid; eapply Hp|done]).
  constructor.
  - intros id a' Ha'. rewrite last_pick_app. destruct (Hrows id a' Ha') as [(b & Hb & Eb)|(Hid & Hid' & Eu & En)]; [by rewrite Eb, (Hr id b Hb)|]. rewrite Eu, En. by rewrite Hnot.
  - intros id a' Ha'. destruct (Hrows id a' Ha') as [(b & Hb & _)|(_ & ? & _)]; [by eapply Hm, Hmint|done].
  - intros id t. rewrite last_pick_app. destruct (last_pick id ns) as [t'|] eqn:En; [|intros El; by eapply Hm, Hp].
    intros _. destruct Hpicks as [Hno|Hone]; [by rewrite no_stamps in En|]. destruct (one_pick_stamp s ns id t' Hone En) as (d & (b & Hb & _) & [[c Hc]| ->]); [|by eapply Hm, Hmint].
    destruct (Hl c d Hc) as [_ Hd]. by eapply Hm, Hd.
  - intros c d Hc. destruct (Hlooks c d Hc) as [[Hold Hno]|[-> ->]].
    + rewrite seen_since by done. destruct (Hl c d Hold) as [Hd Hmd]. split; [done|]. intros id b Hb. by eapply Hm, Hmd.
    + rewrite seen_snoc, String.eqb_refl. split; [done|]. intros id b Hb. by eapply Hm, Hmint.
  - by apply (in_turn_step tr s).
Qed.

Lemma play_rotation b acts : rotation (play parse_url b acts).1 (play parse_url b acts).2.
Proof.
  apply (play_ind parse_url rotation); [|intros tr s a s' ns; apply rotation_act]. constructor; try done. intros pre c p id t free post E. by destruct pre.
Qed.

(** C35: a pick whose statement began after an account was picked comes back to that account
    only when every other account that is free had its pick in between, where each pick is
    stamped later than the one before.  A statement that began earlier goes by its snapshot
    and may pick the account again at once. *)
Theorem rotation_is_fair b acts l1 c1 p1 id t1 free1 l2 c2 p2 t2 free2 l3 other :
  (play parse_url b acts).1 = l1 ++ Picked c1 p1 id t1 free1 :: l2 ++ Picked c2 p2 id t2 free2 :: l3 -> Looked c2 ∈ l2 ->
  StronglySorted Z.lt (stamps (play parse_url b acts).1) -> other ∈ free2 -> other <> id ->
  exists c p t free, Picked c p other t free ∈ l2.
Proof.
  intros E Hlook Hs Hin Hne. pose proof (ro_turn _ _ (play_rotation b acts)) as Ht. rewrite E in Ht, Hs. clear E.
  specialize (Ht (l1 ++ Picked c1 p1 id t1 free1 :: l2) c2 p2 id t2 free2 l3). rewrite <- app_assoc in Ht. specialize (Ht eq_refl other Hin).
  destruct (seen_in c2 l2 Hlook) as (la & lb & El2 & Hseen). rewrite cons_middle, app_assoc, Hseen, <- app_assoc in Ht. clear Hseen. rewrite !last_pick_app in Ht. cbn in Ht.
  rewrite String.eqb_refl, (proj2 (String.eqb_neq id other)) in Ht by congruence.
  destruct (last_pick other la) as [t|] eqn:El.
  { apply last_pick_in in El as (c & p & f & Hn). exists c, p, t, f. rewrite El2. apply elem_of_app. by left. }
  exfalso. rewrite El2 in Hs. unfold stamps in Hs. rewrite omap_app in Hs. cbn in Hs. rewrite !omap_app in Hs. apply StronglySorted_app in Hs as (Hlt & _ & Hs). apply StronglySorted_cons in Hs as [Hall _].
  rewrite Forall_forall in Hall. destruct (last_pick other l1) as [t|] eqn:E1; [|by destruct (last_pick id la)]. apply last_pick_in in E1 as (c & p & f & E1). apply picked_stamp in E1.
  assert (Hx : t < t1) by (apply Hlt; [done|left]). destruct (last_pick id la) as [ta|] eqn:E2; [|cbn in Ht; lia].
  apply last_pick_in in E2 as (c' & p' & f' & E2). apply picked_stamp in E2. assert (Hy : t1 < ta) by (apply Hall, elem_of_app; left; apply elem_of_app; by left). cbn in Ht. lia.
Qed.
End Rotation.
