(* ===== verification/PoolExamples.v ===== *)
(** * PoolExamples: a pool of two accounts at work

    One history over the accounts of a workspace: a provider, two sign-ins, three runs that
    draw a token while one account's refresh is under way.  The theorems of [PoolHistory] and
    [PoolRotation] at that history, and what the code does in a few corners. *)

From stdpp Require Import sorting.
From S2P Require Import Prelude GoStrings GoTime Operations Principals Accounts ProviderAccounts AccountPool PoolHistory PoolRotation.
Import String.
Open Scope string_scope.
Open Scope list_scope.
Open Scope Z_scope.

(** The vendors by their names, uuids as any text, columns as wide as declared. *)
#[local] Instance wit_vendors : Vendors := {|
  NormalizeVendor v := trim_space v; NormalizeOAuthVendor v := v;
  IsOAuthVendor v := existsb (String.eqb v) ["claude-code"; "openai-codex"; "google-antigravity"; "devin"]; APIKeyOptional v := (v =? "ollama")%string;
  VendorOpenAIResponses := "openai-responses"; VendorClaudeCode := "claude-code"; VendorOpenAICodex := "openai-codex";
  VendorGoogleAntigravity := "google-antigravity"; VendorDevin := "devin" |}.
#[local] Instance wit_columns : PoolColumns := {| pg_key s := if (s =? "")%string then None else Some s; fits_in n s := (String.length s <=? n)%nat |}.

Definition wit_url (s : string) : option (string * string) := None.

Definition wit_login (account access refresh : string) (expires : option Z) : ProviderAccountInput :=
  {| in_Email := ""; in_AccountID := account; in_OrgID := ""; in_OrgName := ""; in_ProjectID := ""; in_Plan := ""; in_AccessToken := access; in_RefreshToken := refresh;
     in_ExpiresAt := expires |}.

(** Everything works; [pick] is the row a pick gets and [now] its stamp. *)
Definition wit_turn (now : Z) (pick : option string) (login : ProviderAccountInput) (fresh : string) (tokens : token_answer) : turn_world :=
  {| tw_works := true; tw_seals := true; tw_opens := true; tw_now := now; tw_clock := now; tw_later := now; tw_pick := pick; tw_locked := ∅; tw_tokens := tokens;
     tw_exchange := Ok login; tw_device := DeviceDone login; tw_usage := Ok "{}"; tw_fresh := fresh |}.

Definition no_login : ProviderAccountInput := wit_login "" "" "" None.

(** [c] completes the login it started. *)
Definition wit_sign_in (c key fresh : string) (login : ProviderAccountInput) : list pool_act :=
  Begin 0 key "ann" "ws" "p" None :: CompleteLogin c 1 "ann" "ws" "p" key "code" :: repeat (Turn c (wit_turn 2 None login fresh NotJSON)) 6.

Definition wit_vendor (vendor key : string) : ProviderInput := {| pi_Vendor := vendor; pi_Name := "Pool"; pi_BaseURL := ""; pi_APIKey := key |}.

Definition wit_setup : list pool_act :=
  AddProvider 0 true "p" "ann" "ws" (wit_vendor "claude-code" "") ::
  wit_sign_in "c0" "k1" "a1" (wit_login "acct-1" "old" "r1" (Some minute)) ++ wit_sign_in "c0" "k2" "a2" (wit_login "acct-2" "good" "r2" (Some (100 * minute))).

Definition wit_pick (c : string) (now : Z) (id : string) : pool_act := Turn c (wit_turn now (Some id) no_login "" (Tokens "new" "r1'" 3600)).

(** c1 leads the refresh of a1; c2 is served a2; c3 draws a1 again and waits. *)
Definition wit_runs : list pool_act :=
  [wit_pick "c1" 10 "a1"; wit_pick "c1" 11 "a1"; Acquire "c2" "p"; wit_pick "c2" 20 "a2"; Acquire "c3" "p"; wit_pick "c3" 30 "a1"; wit_pick "c3" 31 "a1"].

Definition wit_begun : list pool_act := wit_setup ++ Acquire "c1" "p" :: wit_runs.

(** The grant comes, is stored and serves both. *)
Definition wit_rest : list pool_act := wit_runs ++ [wit_pick "c1" 40 "a1"; wit_pick "c1" 41 "a1"; wit_pick "c1" 42 "a1"].
Definition wit_done : list pool_act := wit_setup ++ Acquire "c1" "p" :: wit_rest.

Example both_are_served : List.filter (fun n => match n with Served _ _ _ | Posted _ _ _ => true | _ => false end) (play wit_url wit_db wit_done).1 =
  [Posted "a1" "claude-code" "r1"; Served "p" "a2" "good"; Served "p" "a1" "new"; Served "p" "a1" "new"].
Proof. vm_compute. reflexivity. Qed.

Lemma refreshes_are_shared_witness : exists l lead, callers (play wit_url wit_db wit_begun).2 !! l = Some lead /\ leads lead = Some "a1".
Proof.
  destruct (callers (play wit_url wit_db wit_begun).2 !! "c3") as [ph|] eqn:Hc; [|vm_compute in Hc; discriminate Hc].
  destruct (proj2 (refreshes_are_shared wit_url wit_db wit_begun) "a1" "c3" ph Hc) as (l & lead & Hl & E & _); [|exists l, lead; split; [exact Hl|exact E]].
  vm_compute in Hc. injection Hc as <-. reflexivity.
Defined.

Lemma every_acquire_ends_witness : idle "c1" (play wit_url wit_db wit_setup).2 = true /\
  exists ph, callers (play wit_url wit_db wit_done).2 !! "c1" = Some ph /\
    (spent wit_url "c1" wit_rest (pool_act_step wit_url (Acquire "c1" "p") (play wit_url wit_db wit_setup).2).1 + patience ph <= 57)%nat.
Proof.
  split; [vm_compute; reflexivity|]. apply (every_acquire_ends wit_url wit_db wit_setup wit_rest "c1" "p"); [vm_compute; reflexivity|].
  repeat (constructor; [reflexivity|]). constructor.
Defined.

Lemma tokens_stay_in_their_pool_witness : exists p ws, pg_key "p" = Some p /\
  exists user access refresh, Joined user ws p "a1" access refresh ∈ (play wit_url wit_db wit_done).1.
Proof.
  pose proof (tokens_stay_in_their_pool wit_url wit_db wit_done "p" "a1" "new") as Ht.
  assert (Hs : Served "p" "a1" "new" ∈ (play wit_url wit_db wit_done).1).
  { apply (list_elem_of_lookup_2 _ 13). vm_compute. reflexivity. }
  destruct (play wit_url wit_db wit_done) as [tr s]. destruct (Ht Hs) as (p & ws & Hp & _ & _ & user & access & refresh & Hj & _); [discriminate|].
  exists p, ws. split; [exact Hp|]. by exists user, access, refresh.
Defined.

(** c3 begins its pick after c1 drew a1 and is given a1 again: c2 drew a2 in between. *)
Lemma rotation_is_fair_witness : exists c p t free, Picked c p "a2" t free ∈ [Posted "a1" "claude-code" "r1"; Looked "c2"; Picked "c2" "p" "a2" 20 ["a1"; "a2"]; Served "p" "a2" "good"; Looked "c3"].
Proof.
  eapply (rotation_is_fair wit_url wit_db wit_begun (take 5 (play wit_url wit_db wit_begun).1) "c1" "p" "a1" 10 ["a1"; "a2"] _ "c3" "p" 30 ["a1"; "a2"] [] "a2").
  - vm_compute. reflexivity.
  - apply (list_elem_of_lookup_2 _ 4). reflexivity.
  - vm_compute. repeat constructor.
  - right. left.
  - discriminate.
Defined.

(** ** Corners *)

Definition status_of (acts : list pool_act) (id : string) : option (string * string * string) :=
  (fun a => (pa_Status a, pa_AccessToken a, pa_RefreshToken a)) <$> pooled (db (play wit_url wit_db acts).2) !! id.

(** The provider's vendor is edited and its accounts stay: the refresh token one vendor gave
    goes to the other. *)
Example edited_vendor_gets_the_token : List.filter (fun n => match n with Posted _ _ _ => true | _ => false end)
  (play wit_url wit_db (wit_setup ++ [EditProvider true "ann" "ws" "p" (wit_vendor "openai-codex" ""); Acquire "c1" "p"; wit_pick "c1" 10 "a1"; wit_pick "c1" 11 "a1"])).1 =
  [Posted "a1" "openai-codex" "r1"].
Proof. vm_compute. reflexivity. Qed.

(** Two runs read one row; the second begins its refresh after the first has landed, posts the
    token that was rotated away, and disables the account whose stored tokens are good. *)
Definition wit_refused (c : string) : pool_act := Turn c (wit_turn 50 None no_login "" (BadStatus "invalid_grant")).
Example stale_refresh_disables : status_of (wit_setup ++ [Acquire "c1" "p"; wit_pick "c1" 10 "a1"; Acquire "c2" "p"; wit_pick "c2" 20 "a2"; Acquire "c3" "p"; wit_pick "c3" 30 "a1"] ++
  repeat (wit_pick "c1" 40 "a1") 4 ++ repeat (wit_refused "c3") 4) "a1" = Some ("disabled", "new", "r1'").
Proof. vm_compute. reflexivity. Qed.

(** The vendor grants and the database then fails to store: the account is disabled with the
    token that was rotated away. *)
Definition wit_no_db (c : string) : pool_act :=
  Turn c {| tw_works := false; tw_seals := true; tw_opens := true; tw_now := 41; tw_clock := 41; tw_later := 41; tw_pick := None; tw_locked := ∅; tw_tokens := NotJSON;
            tw_exchange := Ok no_login; tw_device := StillPending; tw_usage := Ok ""; tw_fresh := "" |}.
Example lost_grant : status_of (wit_setup ++ [Acquire "c1" "p"] ++ repeat (wit_pick "c1" 10 "a1") 3 ++ [wit_no_db "c1"] ++ repeat (wit_pick "c1" 42 "a1") 2) "a1" =
  Some ("disabled", "old", "r1").
Proof. vm_compute. reflexivity. Qed.

(** Two logins of one vendor account that look before either writes make two rows. *)
Definition wit_two_logins : list pool_act :=
  let t c fresh := Turn c (wit_turn 2 None (wit_login "acct-1" "t" "r" None) fresh NotJSON) in
  [AddProvider 0 true "p" "ann" "ws" (wit_vendor "claude-code" ""); Begin 0 "k1" "ann" "ws" "p" None; Begin 0 "k2" "ann" "ws" "p" None;
   CompleteLogin "c1" 1 "ann" "ws" "p" "k1" "code"; CompleteLogin "c2" 1 "ann" "ws" "p" "k2" "code"] ++ repeat (t "c1" "a1") 5 ++ repeat (t "c2" "a2") 5 ++ [t "c1" "a1"; t "c2" "a2"].
Example two_rows_for_one_login : pa_AccountID <$> pooled (db (play wit_url wit_db wit_two_logins).2) = {["a1" := "acct-1"; "a2" := "acct-1"]}.
Proof. vm_compute. reflexivity. Qed.

(** A login of an account that is deleted meanwhile is answered with its id; nothing is there. *)
Example relogin_of_a_deleted_account : let s := (play wit_url wit_db (wit_setup ++ Begin 3 "k3" "ann" "ws" "p" None :: CompleteLogin "c4" 3 "ann" "ws" "p" "k3" "code" ::
    repeat (Turn "c4" (wit_turn 4 None (wit_login "acct-1" "t" "r" None) "a3" NotJSON)) 5 ++ [DropAccount "ann" "ws" "p" "a1"; Turn "c4" (wit_turn 4 None no_login "a3" NotJSON)])).2 in
  callers s !! "c4" = Some (Finished (SignedIn "a1")) /\ pooled (db s) !! "a1" = None.
Proof. vm_compute. by split. Qed.

(** A member who may not manage the workspace polls a device login: the vendor is asked, and
    the attempt is gone when the store refuses the account. *)
Example device_login_is_spent : let s := (play wit_url wit_db ([AddProvider 0 true "p" "ann" "ws" (wit_vendor "openai-codex" ""); Begin 0 "k1" "ann" "ws" "p" (Some (Ok tt));
    PollDeviceLogin "c1" 1 "bob" "ws" "p" "k1"] ++ repeat (Turn "c1" (wit_turn 2 None (wit_login "acct-1" "t" "r" None) "a1" NotJSON)) 3)).2 in
  callers s !! "c1" = Some (Finished (NotSignedIn (error_text ErrAgentForbidden))) /\ pending s = ∅.
Proof. vm_compute. by split. Qed.

(** An account whose tokens do not open ends the call that draws it, though others could serve. *)
Definition wit_sealed (c : string) : pool_act :=
  Turn c {| tw_works := true; tw_seals := true; tw_opens := false; tw_now := 10; tw_clock := 10; tw_later := 10; tw_pick := Some "a1"; tw_locked := ∅; tw_tokens := NotJSON;
            tw_exchange := Ok no_login; tw_device := StillPending; tw_usage := Ok ""; tw_fresh := "" |}.
Example unreadable_account_fails_the_call : callers (play wit_url wit_db (wit_setup ++ [Acquire "c1" "p"; wit_sealed "c1"])).2 !! "c1" =
  Some (Finished (NoToken "account token does not decrypt")).
Proof. vm_compute. reflexivity. Qed.

(** Two runs begin their picks with the same snapshot, in which a1 was used longest ago: the
    second sorts by it, finds a1 free again and still usable, and draws it a second time while
    a2 waits. *)
Definition wit_stale : list pool_act := wit_setup ++ [Acquire "c4" "p"; wit_pick "c4" 5 "a1"; Acquire "c5" "p"; wit_pick "c5" 6 "a2"] ++
  [Acquire "c1" "p"; Acquire "c2" "p"; Look "c1"; Look "c2"; wit_pick "c1" 10 "a1"; wit_pick "c2" 20 "a1"].
Example stale_pick_repeats : omap (fun n => match n with Picked c _ id _ free => Some (c, id, free) | _ => None end) (drop 7 (play wit_url wit_db wit_stale).1) =
  [("c5", "a2", ["a1"; "a2"]); ("c1", "a1", ["a1"; "a2"]); ("c2", "a1", ["a1"; "a2"])].
Proof. vm_compute. reflexivity. Qed.

(** An edited key keeps the blanks a new one loses. *)
Definition key_of (acts : list pool_act) : option string := pv_APIKey <$> providers (db (play wit_url wit_db acts).2) !! "q".
Example edited_key_keeps_blanks :
  key_of [AddProvider 0 true "q" "ann" "ws" (wit_vendor "openai" " sk ")] = Some "sk" /\
  key_of [AddProvider 0 true "q" "ann" "ws" (wit_vendor "openai" " sk "); EditProvider true "ann" "ws" "q" (wit_vendor "openai" " sk ")] = Some " sk ".
Proof. vm_compute. by split. Qed.
