(* ===== verification/ModelTiers.v ===== *)
(** * ModelTiers: the model tiers of a workspace

    The book and the tiers of workspace_providers.go and workspace_tiers.go of
    internal/dataplane/store, over the providers of [ProviderAccounts]: three tiers that point
    at providers, the row from before there were providers, what a run resolves from them and
    the hosted default where a workspace has no credential. *)

From stdpp Require Import sorting.
From S2P Require Import Prelude GoStrings GoTime Operations Principals Persons Accounts ProviderAccounts.
Import String.
Open Scope string_scope.
Open Scope list_scope.
Open Scope Z_scope.

(** Packages ai and agentcore: a model's capabilities, with what the column keeps of them, the
    window of a model, and the key that stands for a pool. *)
Class ModelParts := {
  Caps : Type; no_caps : Caps; caps_Validate : Caps -> option string; caps_stored : Caps -> Caps; caps_stateful : Caps -> bool;
  ContextWindowFor : string -> string -> Z; OAuthPoolKey : string;
}.

Definition or_else (a b : string) : string := firstNonEmpty [a; b].

(** The ids a load or an upgrade generates: for flash, lite and pro. *)
Definition three_ids : Type := string * string * string.

Section Tiers.
Context `{Vendors} `{PoolColumns} `{ModelParts}.

(** ** Data *)

Record TierSelection := {
  ts_ProviderID : string; ts_Model : string; ts_ContextWindow : Z; ts_Capabilities : Caps;
  ts_FallbackModel : string; ts_FallbackProviderID : string; ts_FallbackCapabilities : Caps;
}.

Record WorkspaceTierSelection := { sel_Flash : TierSelection; sel_Lite : TierSelection; sel_Pro : TierSelection; sel_ModelFallback : bool }.

Record LegacyTier := { lt_Provider : string; lt_Model : string; lt_BaseURL : string; lt_Key : string }.

Record LegacyWorkspaceTiers := { leg_Flash : LegacyTier; leg_Lite : LegacyTier; leg_Pro : LegacyTier; leg_ModelFallback : bool }.

Record WorkspaceProviderBook := { bk_Workspace : string; bk_Providers : list ProviderRecord; bk_Sel : WorkspaceTierSelection }.

(** A row of workspace_model_tiers apart from its six references, which are the [tiers] of
    [pool_db]: the columns from before, whose model columns both generations use.  A column of
    capabilities is what was encoded, and is decoded as it is loaded. *)
Record TierColumns := { co_Legacy : LegacyTier; co_Window : Z; co_FallbackModel : string; co_Caps : Caps; co_FallbackCaps : Caps }.

Record TierRow := { tr_Flash : TierColumns; tr_Lite : TierColumns; tr_Pro : TierColumns; tr_ModelFallback : bool }.

Record tier_db := { pool : pool_db; rows : gmap string TierRow }.

Record TierView := {
  tv_Provider : string; tv_Model : string; tv_BaseURL : string; tv_HasKey : bool; tv_ContextWindow : Z; tv_Capabilities : Caps;
  tv_FallbackModel : string; tv_FallbackProviderID : string; tv_FallbackProvider : string; tv_FallbackBaseURL : string; tv_FallbackHasKey : bool;
  tv_FallbackCapabilities : Caps; tv_ProviderID : string;
}.

Record WorkspaceModelTiers := {
  wt_WorkspaceID : string; wt_Flash : TierView; wt_Lite : TierView; wt_Pro : TierView; wt_ModelFallback : bool; wt_HostedDefault : bool;
  wt_Providers : list WorkspaceProvider;
}.

Record HostModelDefaults := { ho_Provider : string; ho_BaseURL : string; ho_APIKey : string; ho_Flash : string; ho_Lite : string; ho_Pro : string }.

Definition with_pool (p : pool_db) (db : tier_db) : tier_db := {| pool := p; rows := rows db |}.
Definition with_rows (r : gmap string TierRow) (db : tier_db) : tier_db := {| pool := pool db; rows := r |}.

(** ** The book in memory *)

Definition byID (providers : list ProviderRecord) : gmap string ProviderRecord := fold_left (fun m p => <[pr_ID p := p]> m) providers ∅.

Definition in_workspace (ws : string) (r : ProviderRecord) : ProviderRecord :=
  {| pr_ID := pr_ID r; pr_Workspace := ws; pr_Vendor := pr_Vendor r; pr_Name := pr_Name r; pr_BaseURL := pr_BaseURL r; pr_APIKey := pr_APIKey r;
     pr_HasKey := pr_HasKey r; pr_AuthType := pr_AuthType r; pr_AccountCount := pr_AccountCount r |}.

Fixpoint put_provider (rec : ProviderRecord) (l : list ProviderRecord) : list ProviderRecord :=
  match l with
  | [] => [rec]
  | p :: l => if (pr_ID p =? pr_ID rec)%string then rec :: l else p :: put_provider rec l
  end.

Definition UpsertProvider (rec : ProviderRecord) (b : WorkspaceProviderBook) : WorkspaceProviderBook :=
  let rec := if (pr_Workspace rec =? "")%string then in_workspace (bk_Workspace b) rec else rec in
  {| bk_Workspace := bk_Workspace b; bk_Providers := put_provider rec (bk_Providers b); bk_Sel := bk_Sel b |}.

Definition cleared (id : string) (t : TierSelection) : TierSelection :=
  let clear x := if (x =? id)%string then "" else x in
  {| ts_ProviderID := clear (ts_ProviderID t); ts_Model := ts_Model t; ts_ContextWindow := ts_ContextWindow t; ts_Capabilities := ts_Capabilities t;
     ts_FallbackModel := ts_FallbackModel t; ts_FallbackProviderID := clear (ts_FallbackProviderID t); ts_FallbackCapabilities := ts_FallbackCapabilities t |}.

Definition DeleteProvider (id : string) (b : WorkspaceProviderBook) : WorkspaceProviderBook :=
  let s := bk_Sel b in
  {| bk_Workspace := bk_Workspace b; bk_Providers := List.filter (fun p => negb (pr_ID p =? id)%string) (bk_Providers b);
     bk_Sel := {| sel_Flash := cleared id (sel_Flash s); sel_Lite := cleared id (sel_Lite s); sel_Pro := cleared id (sel_Pro s);
                  sel_ModelFallback := sel_ModelFallback s |} |}.

Definition three (s : WorkspaceTierSelection) : list TierSelection := [sel_Flash s; sel_Lite s; sel_Pro s].

(** The providers a selection names, the tiers' own before the fallbacks. *)
Definition references (s : WorkspaceTierSelection) : list string := map ts_ProviderID (three s) ++ map ts_FallbackProviderID (three s).

Definition SetTiers (sel : WorkspaceTierSelection) (b : WorkspaceProviderBook) : result error WorkspaceProviderBook :=
  let known := byID (bk_Providers b) in
  if existsb (fun id => negb (id =? "")%string && negb (is_some (known !! id))) (references sel) then Err (ENew "unknown provider")
  else if existsb (fun t => negb (ts_FallbackProviderID t =? "")%string && (ts_FallbackModel t =? "")%string) (three sel)
  then Err (ENew "fallback provider without a fallback model")
  else if existsb (fun c => is_some (caps_Validate c)) (map ts_Capabilities (three sel) ++ map ts_FallbackCapabilities (three sel))
  then Err (ENew "invalid model capabilities")
  else Ok {| bk_Workspace := bk_Workspace b; bk_Providers := bk_Providers b; bk_Sel := sel |}.

(** ** The row from before there were providers *)

Definition legacy_record (id ws vendor name base key : string) : ProviderRecord :=
  let vendor := NormalizeVendor (if (vendor =? "")%string then "openai" else vendor) in
  {| pr_ID := id; pr_Workspace := ws; pr_Vendor := vendor; pr_Name := (if (name =? "")%string then vendor else name); pr_BaseURL := trim_space base;
     pr_APIKey := key; pr_HasKey := negb (key =? "")%string; pr_AuthType := providerAuthType vendor; pr_AccountCount := 0 |}.

Definition no_tier : TierSelection :=
  {| ts_ProviderID := ""; ts_Model := ""; ts_ContextWindow := 0; ts_Capabilities := no_caps; ts_FallbackModel := ""; ts_FallbackProviderID := "";
     ts_FallbackCapabilities := no_caps |}.

Definition pointing (id model : string) : TierSelection :=
  {| ts_ProviderID := id; ts_Model := model; ts_ContextWindow := 0; ts_Capabilities := no_caps; ts_FallbackModel := ""; ts_FallbackProviderID := "";
     ts_FallbackCapabilities := no_caps |}.

Definition has_flash (t : LegacyTier) : bool :=
  negb (trim_space (lt_Provider t) =? "")%string || negb (lt_Model t =? "")%string || negb (lt_BaseURL t =? "")%string || negb (lt_Key t =? "")%string.

(** A lite or pro tier with a credential, a vendor or an endpoint of its own. *)
Definition legacy_own (flash t : LegacyTier) : bool :=
  negb (lt_Key t =? "")%string ||
  (negb (trim_space (lt_Provider t) =? "")%string && negb (NormalizeVendor (lt_Provider t) =? NormalizeVendor (lt_Provider flash))%string) ||
  (negb (trim_space (lt_BaseURL t) =? "")%string && negb (trim_space (lt_BaseURL t) =? trim_space (lt_BaseURL flash))%string).

Definition legacy_tier (id flashID ws : string) (flash t : LegacyTier) : list ProviderRecord * TierSelection :=
  if legacy_own flash t then
    let vendor := or_else (lt_Provider t) (lt_Provider flash) in
    ([legacy_record id ws vendor vendor (or_else (lt_BaseURL t) (lt_BaseURL flash)) (or_else (lt_Key t) (lt_Key flash))], pointing id (lt_Model t))
  else if negb (lt_Model t =? "")%string && has_flash flash then ([], pointing flashID (lt_Model t))
  else ([], no_tier).

Definition ApplyLegacyProviders (ids : three_ids) (ws : string) (leg : LegacyWorkspaceTiers) : WorkspaceProviderBook :=
  let '(f, l, p) := ids in
  let flash := leg_Flash leg in
  let '(fs, fsel) := if has_flash flash then ([legacy_record f ws (lt_Provider flash) (lt_Provider flash) (lt_BaseURL flash) (lt_Key flash)], pointing f (lt_Model flash))
                     else ([], no_tier) in
  let '(ls, lsel) := legacy_tier l f ws flash (leg_Lite leg) in
  let '(ps, psel) := legacy_tier p f ws flash (leg_Pro leg) in
  {| bk_Workspace := ws; bk_Providers := fs ++ ls ++ ps;
     bk_Sel := {| sel_Flash := fsel; sel_Lite := lsel; sel_Pro := psel; sel_ModelFallback := leg_ModelFallback leg |} |}.

(** ** What a run resolves *)

Record picked := { pk_Vendor : string; pk_Base : string; pk_Key : string; pk_Model : string; pk_HasKey : bool }.

Definition pick (known : gmap string ProviderRecord) (id model : string) : picked :=
  if (id =? "")%string && (model =? "")%string then {| pk_Vendor := ""; pk_Base := ""; pk_Key := ""; pk_Model := ""; pk_HasKey := false |}
  else
    match known !! id with
    | None => {| pk_Vendor := ""; pk_Base := ""; pk_Key := ""; pk_Model := model; pk_HasKey := false |}
    | Some p =>
        if IsOAuthVendor (pr_Vendor p) then
          let live := 0 <? pr_AccountCount p in
          {| pk_Vendor := pr_Vendor p; pk_Base := pr_BaseURL p; pk_Key := (if live then OAuthPoolKey else ""); pk_Model := model; pk_HasKey := live |}
        else {| pk_Vendor := pr_Vendor p; pk_Base := pr_BaseURL p; pk_Key := pr_APIKey p; pk_Model := model;
                pk_HasKey := pr_HasKey p || negb (pr_APIKey p =? "")%string || APIKeyOptional (pr_Vendor p) |}
    end.

Definition tier_view (known : gmap string ProviderRecord) (t : TierSelection) : TierView :=
  let own := pick known (ts_ProviderID t) (ts_Model t) in
  let fb := pick known (ts_FallbackProviderID t) (ts_FallbackModel t) in
  {| tv_Provider := pk_Vendor own; tv_Model := pk_Model own; tv_BaseURL := pk_Base own; tv_HasKey := pk_HasKey own; tv_ContextWindow := ts_ContextWindow t;
     tv_Capabilities := ts_Capabilities t; tv_FallbackModel := ts_FallbackModel t; tv_FallbackProviderID := ts_FallbackProviderID t; tv_FallbackProvider := pk_Vendor fb;
     tv_FallbackBaseURL := pk_Base fb; tv_FallbackHasKey := pk_HasKey fb; tv_FallbackCapabilities := ts_FallbackCapabilities t; tv_ProviderID := ts_ProviderID t |}.

Definition routed (provider model base : string) (hasKey : bool) (v : TierView) : TierView :=
  {| tv_Provider := provider; tv_Model := model; tv_BaseURL := base; tv_HasKey := hasKey; tv_ContextWindow := tv_ContextWindow v; tv_Capabilities := tv_Capabilities v;
     tv_FallbackModel := tv_FallbackModel v; tv_FallbackProviderID := tv_FallbackProviderID v; tv_FallbackProvider := tv_FallbackProvider v;
     tv_FallbackBaseURL := tv_FallbackBaseURL v; tv_FallbackHasKey := tv_FallbackHasKey v; tv_FallbackCapabilities := tv_FallbackCapabilities v; tv_ProviderID := tv_ProviderID v |}.

Definition from_provider (provider : string) (v : TierView) : TierView := routed provider (tv_Model v) (tv_BaseURL v) (tv_HasKey v) v.

(** [slot]: a key that is there is kept under its name. *)
Definition slot (name key : string) (keys : gmap string string) : gmap string string := if (key =? "")%string then keys else <[name := key]> keys.

Definition key_of (name : string) (keys : gmap string string) : string := default "" (keys !! name).

Definition tier_key (known : gmap string ProviderRecord) (t : TierSelection) : string := pk_Key (pick known (ts_ProviderID t) (ts_Model t)).
Definition fallback_key (known : gmap string ProviderRecord) (t : TierSelection) : string := pk_Key (pick known (ts_FallbackProviderID t) (ts_FallbackModel t)).

Definition ResolveWorkspaceRun (providers : list ProviderRecord) (sel : WorkspaceTierSelection) : WorkspaceModelTiers * gmap string string :=
  let known := byID providers in
  let flash := tier_view known (sel_Flash sel) in
  let flash := match providers with p :: _ => if (tv_Provider flash =? "")%string then from_provider (pr_Vendor p) flash else flash | [] => flash end in
  ({| wt_WorkspaceID := ""; wt_Flash := flash; wt_Lite := tier_view known (sel_Lite sel); wt_Pro := tier_view known (sel_Pro sel);
      wt_ModelFallback := sel_ModelFallback sel; wt_HostedDefault := false; wt_Providers := map public_provider providers |},
   slot "pro_fallback" (fallback_key known (sel_Pro sel)) (slot "lite_fallback" (fallback_key known (sel_Lite sel))
     (slot "flash_fallback" (fallback_key known (sel_Flash sel)) (slot "pro" (tier_key known (sel_Pro sel)) (slot "lite" (tier_key known (sel_Lite sel))
        (slot "flash" (tier_key known (sel_Flash sel)) ∅)))))).

Definition providerBookHasKey (providers : list ProviderRecord) : bool :=
  existsb (fun p => pr_HasKey p || negb (pr_APIKey p =? "")%string || (0 <? pr_AccountCount p) || APIKeyOptional (pr_Vendor p)) providers.

(** ** The hosted default *)

Record HostConfig := {
  DefaultModelProvider : string; DefaultModelBaseURL : string; DefaultModelAPIKey : string; DefaultModelFlash : string; DefaultModelLite : string;
  DefaultModelPro : string;
}.

Definition HostModelDefaultsFromConfig (cfg : HostConfig) : HostModelDefaults :=
  {| ho_Provider := or_else (trim_space (DefaultModelProvider cfg)) "openai"; ho_BaseURL := trim_space (DefaultModelBaseURL cfg);
     ho_APIKey := trim_space (DefaultModelAPIKey cfg); ho_Flash := or_else (trim_space (DefaultModelFlash cfg)) "flash";
     ho_Lite := or_else (trim_space (DefaultModelLite cfg)) "plus"; ho_Pro := or_else (trim_space (DefaultModelPro cfg)) "pro" |}.

Definition hosted (host : HostModelDefaults) (model : string) (v : TierView) : TierView :=
  routed (ho_Provider host) (if (trim_space (tv_Model v) =? "")%string then model else tv_Model v) (ho_BaseURL host) true v.

(** A tier without a key of its own takes the host's, with its route. *)
Definition host_tier (host : HostModelDefaults) (name model : string) (vk : TierView * gmap string string) : TierView * gmap string string :=
  if (key_of name vk.2 =? "")%string then (hosted host model vk.1, <[name := ho_APIKey host]> vk.2) else vk.

Definition applyHostModelFallback (cfg : WorkspaceModelTiers) (keys : gmap string string) (host : HostModelDefaults) : WorkspaceModelTiers * gmap string string :=
  if (ho_APIKey host =? "")%string then (cfg, keys)
  else if negb (key_of "flash" keys =? "")%string || tv_HasKey (wt_Flash cfg) then (cfg, keys)
  else
    let keys := <["flash" := ho_APIKey host]> keys in
    let '(lite, keys) := host_tier host "lite" (ho_Lite host) (wt_Lite cfg, keys) in
    let '(pro, keys) := host_tier host "pro" (ho_Pro host) (wt_Pro cfg, keys) in
    ({| wt_WorkspaceID := wt_WorkspaceID cfg; wt_Flash := hosted host (ho_Flash host) (wt_Flash cfg); wt_Lite := lite; wt_Pro := pro;
        wt_ModelFallback := wt_ModelFallback cfg; wt_HostedDefault := true; wt_Providers := wt_Providers cfg |}, keys).

(** ** Loading *)

(** The references of a workspace's row; NULL is empty. *)
Definition refs_of (ws : string) (db : tier_db) : list string := default (repeat "" 6) (tiers (pool db) !! ws).

Definition loaded_tier (c : TierColumns) (id fb : string) : TierSelection :=
  {| ts_ProviderID := id; ts_Model := lt_Model (co_Legacy c); ts_ContextWindow := co_Window c; ts_Capabilities := caps_stored (co_Caps c);
     ts_FallbackModel := co_FallbackModel c; ts_FallbackProviderID := fb; ts_FallbackCapabilities := caps_stored (co_FallbackCaps c) |}.

Definition no_selection : WorkspaceTierSelection := {| sel_Flash := no_tier; sel_Lite := no_tier; sel_Pro := no_tier; sel_ModelFallback := true |}.

Definition loaded_selection (ws : string) (db : tier_db) : WorkspaceTierSelection :=
  match rows db !! ws with
  | None => no_selection
  | Some r =>
      let ref i := nth i (refs_of ws db) "" in
      {| sel_Flash := loaded_tier (tr_Flash r) (ref 0%nat) (ref 3%nat); sel_Lite := loaded_tier (tr_Lite r) (ref 1%nat) (ref 4%nat);
         sel_Pro := loaded_tier (tr_Pro r) (ref 2%nat) (ref 5%nat); sel_ModelFallback := tr_ModelFallback r |}
  end.

(** [opens]: whether what seals a key decrypts. *)
Definition loaded_provider (opens : string -> bool) (decrypt : bool) (db : tier_db) (kr : string * ProviderRow) : result error ProviderRecord :=
  let r := kr.2 in
  let keyed := negb (pv_APIKey r =? "")%string && negb (IsOAuthVendor (pv_Vendor r)) in
  if decrypt && keyed && negb (opens (pv_APIKey r)) then Err (ENew "key does not decrypt")
  else Ok {| pr_ID := kr.1; pr_Workspace := pv_Workspace r; pr_Vendor := pv_Vendor r; pr_Name := pv_Name r; pr_BaseURL := pv_BaseURL r;
             pr_APIKey := (if decrypt && keyed then pv_APIKey r else ""); pr_HasKey := keyed; pr_AuthType := providerAuthType (pv_Vendor r);
             pr_AccountCount := active_of (pool db) kr.1 |}.

Fixpoint collect {A B} (f : A -> result error B) (l : list A) : result error (list B) :=
  match l with
  | [] => Ok []
  | x :: l => match f x with Err e => Err e | Ok y => match collect f l with Err e => Err e | Ok ys => Ok (y :: ys) end end
  end.

Definition made_le (a b : string * ProviderRow) : Prop := pv_CreatedAt a.2 <= pv_CreatedAt b.2.
#[export] Instance made_le_dec a b : Decision (made_le a b) := decide (pv_CreatedAt a.2 <= pv_CreatedAt b.2).

Definition providers_of (ws : string) (db : tier_db) : list (string * ProviderRow) :=
  merge_sort made_le (List.filter (fun kr => (pv_Workspace kr.2 =? ws)%string) (map_to_list (providers (pool db)))).

Definition legacy_columns (opens : string -> bool) (decrypt : bool) (c : TierColumns) : LegacyTier :=
  let l := co_Legacy c in
  {| lt_Provider := lt_Provider l; lt_Model := lt_Model l; lt_BaseURL := lt_BaseURL l;
     lt_Key := (if (lt_Key l =? "")%string then "" else if negb decrypt then "x" else if opens (lt_Key l) then lt_Key l else "") |}.

Definition readLegacyTierRow (opens : string -> bool) (decrypt : bool) (ws : string) (db : tier_db) : option LegacyWorkspaceTiers :=
  match rows db !! ws with
  | None => None
  | Some r =>
      let leg := {| leg_Flash := legacy_columns opens decrypt (tr_Flash r); leg_Lite := legacy_columns opens decrypt (tr_Lite r);
                    leg_Pro := legacy_columns opens decrypt (tr_Pro r); leg_ModelFallback := tr_ModelFallback r |} in
      if (lt_Provider (leg_Flash leg) =? "")%string && (lt_Model (leg_Flash leg) =? "")%string && (lt_Key (leg_Flash leg) =? "")%string &&
         (lt_Model (leg_Lite leg) =? "")%string && (lt_Model (leg_Pro leg) =? "")%string
      then None else Some leg
  end.

Definition loadBook (opens : string -> bool) (ids : three_ids) (decrypt : bool) (ws : string) (db : tier_db) : result error WorkspaceProviderBook :=
  match collect (loaded_provider opens decrypt db) (providers_of ws db) with
  | Err e => Err e
  | Ok [] =>
      match readLegacyTierRow opens decrypt ws db with
      | Some leg => Ok (ApplyLegacyProviders ids ws leg)
      | None => Ok {| bk_Workspace := ws; bk_Providers := []; bk_Sel := loaded_selection ws db |}
      end
  | Ok recs => Ok {| bk_Workspace := ws; bk_Providers := recs; bk_Sel := loaded_selection ws db |}
  end.

Definition ListWorkspaceProviders (opens : string -> bool) (ids : three_ids) (user ws : string) (db : tier_db) : result error (list WorkspaceProvider) :=
  if negb (userCanAccessWorkspace (book (pool db)) user ws) then Err ErrAgentForbidden
  else match loadBook opens ids false ws db with Err e => Err e | Ok b => Ok (map public_provider (bk_Providers b)) end.

(** A resolved pool with its workspace and a vendor for flash. *)
Definition named (ws : string) (cfg : WorkspaceModelTiers) : WorkspaceModelTiers :=
  {| wt_WorkspaceID := ws; wt_Flash := (if (tv_Provider (wt_Flash cfg) =? "")%string then from_provider "openai" (wt_Flash cfg) else wt_Flash cfg);
     wt_Lite := wt_Lite cfg; wt_Pro := wt_Pro cfg; wt_ModelFallback := wt_ModelFallback cfg; wt_HostedDefault := wt_HostedDefault cfg; wt_Providers := wt_Providers cfg |}.

Definition readWorkspaceModelTiers (host : HostModelDefaults) (opens : string -> bool) (ids : three_ids) (ws : string) (db : tier_db) : result error WorkspaceModelTiers :=
  match loadBook opens ids false ws db with
  | Err e => Err e
  | Ok b =>
      let cfg := named ws (ResolveWorkspaceRun (bk_Providers b) (bk_Sel b)).1 in
      Ok (if providerBookHasKey (bk_Providers b) then cfg else (applyHostModelFallback cfg ∅ host).1)
  end.

Definition GetWorkspaceModelTiers (host : HostModelDefaults) (opens : string -> bool) (ids : three_ids) (user ws : string) (db : tier_db) : result error WorkspaceModelTiers :=
  if negb (userCanAccessWorkspace (book (pool db)) user ws) then Err ErrAgentForbidden else readWorkspaceModelTiers host opens ids ws db.

Definition WorkspaceTiersForRun (host : HostModelDefaults) (opens : string -> bool) (ids : three_ids) (ws : string) (db : tier_db) :
    result error (WorkspaceModelTiers * gmap string string) :=
  match loadBook opens ids true ws db with
  | Err e => Err e
  | Ok b =>
      let '(cfg, keys) := ResolveWorkspaceRun (bk_Providers b) (bk_Sel b) in
      let cfg := named ws cfg in
      Ok (if providerBookHasKey (bk_Providers b) then (cfg, keys) else applyHostModelFallback cfg keys host)
  end.

(** ** Saving *)

Definition int4 (n : Z) : bool := (-2147483648 <=? n) && (n <=? 2147483647).

(** The vendor and endpoint a tier shows beside its provider. *)
Definition denorm (known : gmap string ProviderRecord) (id : string) : string * string :=
  if (id =? "")%string then ("", "") else match known !! id with Some p => (pr_Vendor p, pr_BaseURL p) | None => ("", "") end.

Definition saved_tier (vendor base : string) (t : TierSelection) (old : option TierColumns) : TierColumns :=
  {| co_Legacy := {| lt_Provider := vendor; lt_Model := ts_Model t; lt_BaseURL := base; lt_Key := match old with Some c => lt_Key (co_Legacy c) | None => "" end |};
     co_Window := ts_ContextWindow t; co_FallbackModel := ts_FallbackModel t; co_Caps := ts_Capabilities t;
     co_FallbackCaps := ts_FallbackCapabilities t |}.

(** A reference as NULLIF and the cast to uuid leave it. *)
Definition uuid_or_null (id : string) : option string := if (id =? "")%string then Some "" else pg_key id.

Definition selection_fits (sel : WorkspaceTierSelection) (vendors : list string) : bool :=
  forallb (fits_in 32) vendors && forallb (fun t => fits_in 128 (ts_Model t) && fits_in 128 (ts_FallbackModel t) && int4 (ts_ContextWindow t)) (three sel).

(** [others]: what others do between its load and its statement. *)
Definition saveTierSelection (opens : string -> bool) (ids : three_ids) (others : tier_db -> tier_db) (ws : string) (sel : WorkspaceTierSelection) (db : tier_db) :
    tier_db * result error unit :=
  match loadBook opens ids false ws db with
  | Err e => (db, Err e)
  | Ok b =>
      let db := others db in
      let known := byID (bk_Providers b) in
      let '(fv, fb) := denorm known (ts_ProviderID (sel_Flash sel)) in
      let fv := or_else fv "openai" in
      let '(lv, lb) := denorm known (ts_ProviderID (sel_Lite sel)) in
      let '(pv, pb) := denorm known (ts_ProviderID (sel_Pro sel)) in
      let old := rows db !! ws in
      match mapM uuid_or_null (references sel) with
      | None => (db, Err bad_key)
      | Some refs =>
          if negb (selection_fits sel [fv; lv; pv]) then (db, Err (ENew "value too long"))
          else
            let row := {| tr_Flash := saved_tier fv fb (sel_Flash sel) (tr_Flash <$> old); tr_Lite := saved_tier lv lb (sel_Lite sel) (tr_Lite <$> old);
                          tr_Pro := saved_tier pv pb (sel_Pro sel) (tr_Pro <$> old); tr_ModelFallback := sel_ModelFallback sel |} in
            ({| pool := with_tiers (<[ws := refs]> (tiers (pool db))) (pool db); rows := <[ws := row]> (rows db) |}, Ok tt)
      end
  end.

Definition tiers_audited (ws user : string) (db : tier_db) : tier_db :=
  with_pool (with_book (record_audit (book (pool db)) ws user "agent.workspace_tiers.update" ws) (pool db)) db.

(** [draw]: the ids of its three loads.  No transaction holds the calls together: [others] is
    what others do before each. *)
Definition SaveWorkspaceTierSelection (host : HostModelDefaults) (opens : string -> bool) (draw : nat -> three_ids) (others : nat -> tier_db -> tier_db) (user ws : string)
    (sel : WorkspaceTierSelection) (db : tier_db) : tier_db * result error WorkspaceModelTiers :=
  if negb (userCanManageWorkspace (book (pool db)) user ws) then (db, Err ErrAgentForbidden)
  else
    let db := others 0%nat db in
    match loadBook opens (draw 0%nat) false ws db with
    | Err e => (db, Err e)
    | Ok b =>
        match SetTiers sel b with
        | Err e => (db, Err e)
        | Ok b =>
            match saveTierSelection opens (draw 1%nat) (others 2%nat) ws (bk_Sel b) (others 1%nat db) with
            | (db, Err e) => (db, Err e)
            | (db, Ok _) =>
                let db := others 4%nat (tiers_audited ws user (others 3%nat db)) in
                (db, readWorkspaceModelTiers host opens (draw 2%nat) ws db)
            end
        end
    end.

(** ** The upgrade *)

(** The statement that points a row at the providers the upgrade made. *)
Definition point_row (ws : string) (sel : WorkspaceTierSelection) (db : tier_db) : tier_db :=
  match rows db !! ws with
  | None => db
  | Some r =>
      let remodel t (c : TierColumns) :=
        let l := co_Legacy c in
        {| co_Legacy := {| lt_Provider := lt_Provider l; lt_Model := ts_Model t; lt_BaseURL := lt_BaseURL l; lt_Key := lt_Key l |}; co_Window := co_Window c;
           co_FallbackModel := co_FallbackModel c; co_Caps := co_Caps c; co_FallbackCaps := co_FallbackCaps c |} in
      {| pool := with_tiers (<[ws := map ts_ProviderID (three sel) ++ drop 3 (refs_of ws db)]> (tiers (pool db))) (pool db);
         rows := <[ws := {| tr_Flash := remodel (sel_Flash sel) (tr_Flash r); tr_Lite := remodel (sel_Lite sel) (tr_Lite r); tr_Pro := remodel (sel_Pro sel) (tr_Pro r);
                            tr_ModelFallback := tr_ModelFallback r |}]> (rows db) |}
  end.

(** [at_]: when each provider is made.  ON CONFLICT (id) DO NOTHING. *)
Fixpoint insert_providers (at_ : nat -> Z) (ws : string) (l : list ProviderRecord) (db : tier_db) : tier_db * result error unit :=
  match l with
  | [] => (db, Ok tt)
  | p :: l =>
      if negb (provider_fits p) || negb (bool_decide (pg_key (pr_ID p) = Some (pr_ID p))) then (db, Err (ENew "insert failed"))
      else
        let row := {| pv_Workspace := ws; pv_Vendor := pr_Vendor p; pv_Name := pr_Name p; pv_BaseURL := pr_BaseURL p; pv_APIKey := pr_APIKey p; pv_CreatedAt := at_ 0%nat |} in
        let d := pool db in
        let d := match providers d !! pr_ID p with Some _ => d | None => with_providers (<[pr_ID p := row]> (providers d)) d end in
        insert_providers (fun n => at_ (S n)) ws l (with_pool d db)
  end.

Definition insertLegacyAsProviders (at_ : nat -> Z) (ids : three_ids) (ws : string) (leg : LegacyWorkspaceTiers) (db : tier_db) : tier_db * result error unit :=
  let b := ApplyLegacyProviders ids ws leg in
  match insert_providers at_ ws (bk_Providers b) db with
  | (db, Err e) => (db, Err e)
  | (db, Ok _) => (point_row ws (bk_Sel b) db, Ok tt)
  end.

(** The keys are carried over sealed. *)
Definition as_stored (r : TierRow) : LegacyWorkspaceTiers :=
  {| leg_Flash := co_Legacy (tr_Flash r); leg_Lite := co_Legacy (tr_Lite r); leg_Pro := co_Legacy (tr_Pro r); leg_ModelFallback := tr_ModelFallback r |}.

Definition upgradable (db : tier_db) (wr : string * TierRow) : bool :=
  let l := as_stored wr.2 in
  match providers_of wr.1 db with
  | [] => negb (lt_Key (leg_Flash l) =? "")%string || negb (lt_Model (leg_Flash l) =? "")%string || negb (lt_Provider (leg_Flash l) =? "")%string ||
          negb (lt_Model (leg_Lite l) =? "")%string || negb (lt_Model (leg_Pro l) =? "")%string
  | _ => false
  end.

Fixpoint upgrade_all (at_ : string -> nat -> Z) (fresh : string -> three_ids) (l : list (string * TierRow)) (db : tier_db) : tier_db * result error unit :=
  match l with
  | [] => (db, Ok tt)
  | (ws, r) :: l =>
      match insertLegacyAsProviders (at_ ws) (fresh ws) ws (as_stored r) db with
      | (db, Err e) => (db, Err e)
      | (db, Ok _) => upgrade_all at_ fresh l db
      end
  end.

Definition backfillWorkspaceProviders (at_ : string -> nat -> Z) (fresh : string -> three_ids) (db : tier_db) : tier_db * result error unit :=
  upgrade_all at_ fresh (List.filter (upgradable db) (map_to_list (rows db))) db.

Definition syncLegacyProviders (at_ : string -> nat -> Z) (fresh : string -> three_ids) (ws : string) (db : tier_db) : tier_db * result error unit :=
  match providers_of ws db with [] => backfillWorkspaceProviders at_ fresh db | _ => (db, Ok tt) end.

(** ** Members write the tiers *)

Record TierInput := {
  ti_Provider : string; ti_Model : string; ti_BaseURL : string; ti_APIKey : string; ti_ContextWindow : Z; ti_Capabilities : Caps;
  ti_FallbackModel : string; ti_FallbackProviderID : string; ti_FallbackCapabilities : Caps; ti_ProviderID : string;
}.

Record WorkspaceModelTiersInput := { inp_Flash : TierInput; inp_Lite : TierInput; inp_Pro : TierInput; inp_ModelFallback : bool }.

Definition selected (t : TierInput) : TierSelection :=
  {| ts_ProviderID := trim_space (ti_ProviderID t); ts_Model := trim_space (ti_Model t); ts_ContextWindow := ti_ContextWindow t; ts_Capabilities := ti_Capabilities t;
     ts_FallbackModel := trim_space (ti_FallbackModel t); ts_FallbackProviderID := trim_space (ti_FallbackProviderID t);
     ts_FallbackCapabilities := ti_FallbackCapabilities t |}.

Definition selection_of (i : WorkspaceModelTiersInput) : WorkspaceTierSelection :=
  {| sel_Flash := selected (inp_Flash i); sel_Lite := selected (inp_Lite i); sel_Pro := selected (inp_Pro i); sel_ModelFallback := inp_ModelFallback i |}.

Definition fresh_columns : TierColumns :=
  {| co_Legacy := {| lt_Provider := ""; lt_Model := ""; lt_BaseURL := ""; lt_Key := "" |}; co_Window := 0; co_FallbackModel := ""; co_Caps := no_caps; co_FallbackCaps := no_caps |}.

(** The old columns, written over what the row had; an absent cipher keeps the stored one. *)
Definition legacy_write (provider : string) (t : TierInput) (cipher : option string) (old : TierColumns) : TierColumns :=
  {| co_Legacy := {| lt_Provider := provider; lt_Model := trim_space (ti_Model t); lt_BaseURL := trim_space (ti_BaseURL t); lt_Key := default (lt_Key (co_Legacy old)) cipher |};
     co_Window := co_Window old; co_FallbackModel := co_FallbackModel old; co_Caps := co_Caps old; co_FallbackCaps := co_FallbackCaps old |}.

Definition legacy_row (i : WorkspaceModelTiersInput) (flash lite pro : option string) (old : option TierRow) : TierRow :=
  let cols f := match old with Some r => f r | None => fresh_columns end in
  {| tr_Flash := legacy_write (or_else (trim_space (ti_Provider (inp_Flash i))) "openai") (inp_Flash i) flash (cols tr_Flash);
     tr_Lite := legacy_write (trim_space (ti_Provider (inp_Lite i))) (inp_Lite i) lite (cols tr_Lite);
     tr_Pro := legacy_write (trim_space (ti_Provider (inp_Pro i))) (inp_Pro i) pro (cols tr_Pro); tr_ModelFallback := inp_ModelFallback i |}.

Definition row_fits (r : TierRow) : bool :=
  forallb (fun l => fits_in 32 (lt_Provider l) && fits_in 128 (lt_Model l)) (map co_Legacy [tr_Flash r; tr_Lite r; tr_Pro r]).

Definition UpsertWorkspaceModelTiers (host : HostModelDefaults) (opens : string -> bool) (seals : bool) (at_ : string -> nat -> Z) (fresh : string -> three_ids) (draw : nat -> three_ids)
    (others : nat -> tier_db -> tier_db) (user ws : string) (i : WorkspaceModelTiersInput) (db : tier_db) : tier_db * result error WorkspaceModelTiers :=
  if negb (userCanManageWorkspace (book (pool db)) user ws) then (db, Err ErrAgentForbidden)
  else
    let save db := SaveWorkspaceTierSelection host opens draw others user ws (selection_of i) db in
    let db := others 5%nat db in
    if existsb (fun t => negb (ti_ProviderID t =? "")%string) [inp_Flash i; inp_Lite i; inp_Pro i] then save db
    else
      match loadBook opens (draw 3%nat) false ws db with
      | Ok {| bk_Providers := _ :: _ |} => save (others 6%nat db)
      | _ =>
          match resolveCipherArg seals (ti_APIKey (inp_Flash i)), resolveCipherArg seals (ti_APIKey (inp_Lite i)), resolveCipherArg seals (ti_APIKey (inp_Pro i)) with
          | Ok f, Ok l, Ok p =>
              let db := others 6%nat db in
              let row := legacy_row i f l p (rows db !! ws) in
              if negb (row_fits row) then (db, Err (ENew "value too long"))
              else
                match syncLegacyProviders at_ fresh ws (others 7%nat (with_rows (<[ws := row]> (rows db)) db)) with
                | (db, Err e) => (db, Err e)
                | (db, Ok _) =>
                    let db := others 4%nat (tiers_audited ws user (others 3%nat db)) in
                    (db, readWorkspaceModelTiers host opens (draw 2%nat) ws db)
                end
          | Err e, _, _ | _, Err e, _ | _, _, Err e => (db, Err e)
          end
      end.

(** ** A book by id *)

Lemma fold_byID ps : forall (m : gmap string ProviderRecord) id p, fold_left (fun m p => <[pr_ID p := p]> m) ps m !! id = Some p -> (p ∈ ps /\ pr_ID p = id) \/ m !! id = Some p.
Proof.
  induction ps as [|q ps IH]; intros m id p; cbn; [by right|]. intros Hp. destruct (IH _ _ _ Hp) as [[? ?]|Hq]; [left; split; [by right|done]|].
  destruct (decide (pr_ID q = id)) as [<-|Hne]; [rewrite lookup_insert_eq in Hq; injection Hq as ->; left; split; [left|done]|].
  rewrite lookup_insert_ne in Hq by done. by right.
Qed.

Lemma byID_in ps id p : byID ps !! id = Some p -> p ∈ ps /\ pr_ID p = id.
Proof. intros Hp. destruct (fold_byID _ _ _ _ Hp) as [?|He]; [done|by rewrite lookup_empty in He]. Qed.

End Tiers.
