(* ===== verification/TierResolution.v ===== *)
(** * TierResolution: from a workspace's tiers to the clients of a run

    tiers.go, native_credentials.go and the client of runtime.go in internal/runtime, over the
    pool [ModelTiers] resolves: inheritance from flash, the fallback rung, the clients with
    their keys and endpoints, and the refresh of a key while a run goes on. *)

From Stdlib Require Import Ascii.
From S2P Require Import Prelude GoStrings GoTime Operations Principals Persons Accounts ProviderAccounts ModelTiers.
Import String.
Open Scope string_scope.
Open Scope list_scope.
Open Scope Z_scope.

Inductive Tier := TierLite | TierFlash | TierPro.

Definition TierFromName (name : string) : Tier :=
  if (name =? "lite")%string then TierLite else if (name =? "pro")%string then TierPro else TierFlash.

Definition blank (s : string) : bool := (trim_space s =? "")%string.

(** strings.TrimRight(s, "/") *)
Fixpoint trim_right_slashes (s : string) : string :=
  match s with
  | EmptyString => EmptyString
  | String a s' =>
      match trim_right_slashes s' with
      | EmptyString => if Ascii.eqb a "/" then EmptyString else String a EmptyString
      | t => String a t
      end
  end.

Section Resolution.
Context `{Vendors} `{PoolColumns} `{ModelParts}.

(** ** Data *)

(** A provider with a model: a tier without its fallback, or a fallback.  The token source is
    named by the provider row whose pool it is. *)
Record Rung := {
  rg_Provider : string; rg_Model : string; rg_Capabilities : Caps; rg_BaseURL : string; rg_APIKey : string; rg_ProviderID : string;
  rg_TokenSource : option string; rg_ContextWindow : Z;
}.

Record TierConfig := { tc_Rung : Rung; tc_Fallback : option Rung; tc_FallbackModel : string }.

Record TierSet := { tiers : Tier -> option TierConfig; fallback : bool }.

Definition no_rung : Rung :=
  {| rg_Provider := ""; rg_Model := ""; rg_Capabilities := no_caps; rg_BaseURL := ""; rg_APIKey := ""; rg_ProviderID := ""; rg_TokenSource := None; rg_ContextWindow := 0 |}.

Definition no_config : TierConfig := {| tc_Rung := no_rung; tc_Fallback := None; tc_FallbackModel := "" |}.

Definition model_only (model : string) : Rung :=
  {| rg_Provider := ""; rg_Model := model; rg_Capabilities := no_caps; rg_BaseURL := ""; rg_APIKey := ""; rg_ProviderID := ""; rg_TokenSource := None; rg_ContextWindow := 0 |}.

Definition EffectiveContextWindow (r : Rung) : Z :=
  if 0 <? rg_ContextWindow r then rg_ContextWindow r else ContextWindowFor (rg_Provider r) (rg_Model r).

(** ** From the workspace *)

(** [src]: the pool of a row, for a vendor that draws from one; [pools]: there are pools. *)
Definition src (pools : bool) (vendor providerID : string) : option string :=
  if negb pools || (providerID =? "")%string || negb (IsOAuthVendor vendor) then None else Some providerID.

Definition fb (pools : bool) (v : TierView) (key : string) : option Rung :=
  if blank (tv_FallbackModel v) then None
  else Some {| rg_Provider := tv_FallbackProvider v; rg_Model := tv_FallbackModel v; rg_Capabilities := tv_FallbackCapabilities v; rg_BaseURL := tv_FallbackBaseURL v;
               rg_APIKey := key; rg_ProviderID := tv_FallbackProviderID v; rg_TokenSource := src pools (tv_FallbackProvider v) (tv_FallbackProviderID v);
               rg_ContextWindow := 0 |}.

Definition tier_config (pools isHosted : bool) (v : TierView) (key fbKey : string) : TierConfig :=
  let row := if isHosted then "" else tv_ProviderID v in
  {| tc_Rung := {| rg_Provider := tv_Provider v; rg_Model := tv_Model v; rg_Capabilities := tv_Capabilities v; rg_BaseURL := tv_BaseURL v; rg_APIKey := key;
                   rg_ProviderID := row; rg_TokenSource := src pools (tv_Provider v) row; rg_ContextWindow := tv_ContextWindow v |};
     tc_Fallback := fb pools v fbKey; tc_FallbackModel := tv_FallbackModel v |}.

Definition TierSetFromWorkspace (cfg : WorkspaceModelTiers) (keys : gmap string string) (pools : bool) : TierSet :=
  let config v name fbName := Some (tier_config pools (wt_HostedDefault cfg) v (key_of name keys) (key_of fbName keys)) in
  {| tiers t := match t with
                | TierFlash => config (wt_Flash cfg) "flash" "flash_fallback"
                | TierLite => config (wt_Lite cfg) "lite" "lite_fallback"
                | TierPro => config (wt_Pro cfg) "pro" "pro_fallback"
                end;
     fallback := wt_ModelFallback cfg |}.

(** ** Inheritance from flash *)

(** The credential of an overriding tier: its row's and pool, none for a bare vendor, flash's
    where it names neither. *)
Definition credential (flash c : Rung) : string * option string * string :=
  if negb (blank (rg_ProviderID c)) then (rg_ProviderID c, rg_TokenSource c, "")
  else if negb (blank (rg_Provider c)) then ("", None, "")
  else (rg_ProviderID flash, rg_TokenSource flash, rg_APIKey flash).

Definition over_flash (flash c : Rung) : Rung :=
  let '(row, source, key) := credential flash c in
  {| rg_Provider := (if blank (rg_Provider c) then rg_Provider flash else rg_Provider c);
     rg_Model := (if blank (rg_Model c) then rg_Model flash else rg_Model c);
     rg_Capabilities := (if blank (rg_Model c) then rg_Capabilities flash else rg_Capabilities c);
     rg_BaseURL := (if blank (rg_BaseURL c) then rg_BaseURL flash else rg_BaseURL c);
     rg_APIKey := (if (rg_APIKey c =? "")%string then key else rg_APIKey c); rg_ProviderID := row; rg_TokenSource := source;
     rg_ContextWindow := (if 0 <? rg_ContextWindow c then rg_ContextWindow c
                          else if negb (blank (rg_Model c)) || negb (blank (rg_Provider c)) || negb (blank (rg_BaseURL c)) then 0 else rg_ContextWindow flash) |}.

(** A tier's fallback: its own, its shorthand, none when it has a provider, or flash's. *)
Definition inherited_fallback (flash c : TierConfig) : option Rung * string :=
  let own := match tc_Fallback c with Some f => if blank (rg_Model f) then None else Some f | None => None end in
  match own with
  | Some f => (Some f, rg_Model f)
  | None =>
      if negb (blank (tc_FallbackModel c)) then (Some (model_only (tc_FallbackModel c)), tc_FallbackModel c)
      else if negb (blank (rg_ProviderID (tc_Rung c))) || negb (blank (rg_Provider (tc_Rung c))) then (None, "")
      else (tc_Fallback flash, tc_FallbackModel flash)
  end.

Definition resolve (ts : TierSet) (t : Tier) : TierConfig :=
  let flash := default no_config (tiers ts TierFlash) in
  match t, tiers ts t with
  | TierFlash, _ | _, None => flash
  | _, Some c =>
      let '(f, m) := inherited_fallback flash c in
      {| tc_Rung := over_flash (tc_Rung flash) (tc_Rung c); tc_Fallback := f; tc_FallbackModel := m |}
  end.

Definition For (ts : TierSet) (t : Tier) : TierConfig :=
  let tc := resolve ts t in
  if fallback ts then tc else {| tc_Rung := tc_Rung tc; tc_Fallback := None; tc_FallbackModel := "" |}.

(** The key of any tier or fallback of that vendor, looked for in lite, flash and pro. *)
Definition KeyFor (ts : TierSet) (provider : string) : result error string :=
  let want := NormalizeVendor provider in
  let keys_of (tc : TierConfig) :=
    let has r := (NormalizeVendor (rg_Provider r) =? want)%string && negb (rg_APIKey r =? "")%string in
    List.filter has (tc_Rung tc :: match tc_Fallback tc with Some f => [f] | None => [] end) in
  match List.concat (map keys_of [resolve ts TierLite; resolve ts TierFlash; resolve ts TierPro]) with
  | r :: _ => Ok (rg_APIKey r)
  | [] => Err (ENew "no key for provider on key refresh")
  end.

(** ** The rungs of a run *)

Definition openAIWireFor (provider : string) (c : Caps) : bool := (NormalizeVendor provider =? "openai")%string && caps_stateful c.

Definition on_model (model : string) (c : Caps) (r : Rung) : Rung :=
  {| rg_Provider := rg_Provider r; rg_Model := model; rg_Capabilities := c; rg_BaseURL := rg_BaseURL r; rg_APIKey := rg_APIKey r; rg_ProviderID := rg_ProviderID r;
     rg_TokenSource := rg_TokenSource r; rg_ContextWindow := rg_ContextWindow r |}.

Definition with_window (w : Z) (r : Rung) : Rung :=
  {| rg_Provider := rg_Provider r; rg_Model := rg_Model r; rg_Capabilities := rg_Capabilities r; rg_BaseURL := rg_BaseURL r; rg_APIKey := rg_APIKey r;
     rg_ProviderID := rg_ProviderID r; rg_TokenSource := rg_TokenSource r; rg_ContextWindow := w |}.

(** Whether a fallback has a client of its own. *)
Definition crosses (primary f : Rung) : bool :=
  (negb (rg_ProviderID f =? "")%string && negb (rg_ProviderID f =? rg_ProviderID primary)%string) ||
  (negb (blank (rg_Provider f)) &&
   (negb (NormalizeVendor (rg_Provider f) =? NormalizeVendor (rg_Provider primary))%string ||
    negb (trim_space (rg_BaseURL f) =? trim_space (rg_BaseURL primary))%string)).

(** Each rung with whether it shares the first one's client. *)
Definition resolvedRungs (t : TierConfig) : list (Rung * bool) :=
  let primary := tc_Rung t in
  let f := match tc_Fallback t with Some f => Some f | None => if blank (tc_FallbackModel t) then None else Some (model_only (tc_FallbackModel t)) end in
  match f with
  | None => [(primary, false)]
  | Some f =>
      if blank (rg_Model f) then [(primary, false)]
      else if crosses primary f then [(primary, false); (with_window (ContextWindowFor (rg_Provider f) (rg_Model f)) f, false)]
      else if (rg_Model f =? rg_Model primary)%string then [(primary, false)]
      else
        let next := on_model (rg_Model f) (rg_Capabilities f) primary in
        [(primary, false);
         (with_window (ContextWindowFor (rg_Provider next) (rg_Model next)) next,
          Bool.eqb (openAIWireFor (rg_Provider primary) (rg_Capabilities primary)) (openAIWireFor (rg_Provider primary) (rg_Capabilities f)))]
  end.

(** What a client is built from: its vendor, key, endpoint, pool, session scope and whether it
    speaks the Responses wire or the compatible one. *)
Record ClientSpec := {
  cl_Name : string; cl_APIKey : string; cl_BaseURL : string; cl_TokenSource : option string; cl_SessionScope : string; cl_Responses : bool; cl_Compat : bool;
}.

(** [env]: OPENAI_BASE_URL. *)
Definition resolveBaseURL (env configBaseURL : string) : string := if blank configBaseURL then trim_space env else trim_space configBaseURL.

Definition buildProviderForModel (env provider baseURL apiKey : string) (source : option string) (scope : string) (c : Caps) : ClientSpec :=
  let vendor := NormalizeVendor provider in
  let spec name key base source scope responses compat :=
    {| cl_Name := name; cl_APIKey := key; cl_BaseURL := base; cl_TokenSource := source; cl_SessionScope := scope; cl_Responses := responses; cl_Compat := compat |} in
  if (vendor =? "")%string || (vendor =? "openai")%string then spec "openai" apiKey (resolveBaseURL env baseURL) None "" (openAIWireFor provider c) false
  else if (vendor =? VendorOpenAIResponses)%string then spec VendorOpenAIResponses apiKey (resolveBaseURL env baseURL) None "" false false
  else if (vendor =? "anthropic")%string then spec "anthropic" apiKey (trim_space baseURL) None "" false false
  else if IsOAuthVendor provider then spec provider "" (trim_space baseURL) source scope false false
  else spec provider apiKey (trim_space baseURL) None "" false true.

Definition RawProvider (env : string) (r : Rung) : ClientSpec :=
  buildProviderForModel env (rg_Provider r) (rg_BaseURL r) (rg_APIKey r) (rg_TokenSource r) (rg_ProviderID r) (rg_Capabilities r).

Record ModelRung := { mr_Provider : ClientSpec; mr_Model : string; mr_Capabilities : Caps; mr_ContextWindow : Z }.

(** [builds]: ai.NewClient takes the spec. *)
Fixpoint rungs_from (env : string) (builds : ClientSpec -> bool) (primary : option ClientSpec) (l : list (Rung * bool)) : result error (list ModelRung) :=
  match l with
  | [] => Ok []
  | (r, share) :: l =>
      let built := RawProvider env r in
      let client := match share, primary with true, Some p => Some p | true, None => None | false, _ => if builds built then Some built else None end in
      match client with
      | None => Err (ENew "client refused")
      | Some client =>
          match rungs_from env builds (Some (default client primary)) l with
          | Err e => Err e
          | Ok rest => Ok ({| mr_Provider := client; mr_Model := rg_Model r; mr_Capabilities := rg_Capabilities r; mr_ContextWindow := EffectiveContextWindow r |} :: rest)
          end
      end
  end.

Definition Rungs (env : string) (builds : ClientSpec -> bool) (t : TierConfig) : result error (list ModelRung) := rungs_from env builds None (resolvedRungs t).

(** ** Refreshing a key while a run goes on *)

Definition endpoint (value : string) : string := trim_right_slashes (trim_space value).

Fixpoint refreshed (providerID vendor base key : string) (l : list Rung) : result error string :=
  match l with
  | [] => Ok key
  | c :: l =>
      if negb (rg_ProviderID c =? providerID)%string then refreshed providerID vendor base key l
      else if negb (NormalizeVendor (rg_Provider c) =? vendor)%string || negb (endpoint (rg_BaseURL c) =? base)%string
      then if negb (providerID =? "")%string then Err (ENew "native provider route changed; explicit migration required") else refreshed providerID vendor base key l
      else if blank (rg_APIKey c) then Err (ENew "native provider credential is empty")
      else if negb (key =? "")%string && negb (key =? rg_APIKey c)%string then Err (ENew "native provider credential is ambiguous")
      else refreshed providerID vendor base (rg_APIKey c) l
  end.

Definition nativeRefreshedKey (providerID provider baseURL : string) (candidates : list Rung) : result error string :=
  match refreshed providerID (NormalizeVendor provider) (endpoint baseURL) "" candidates with
  | Err e => Err e
  | Ok key => if (key =? "")%string then Err (ENew "native provider credential binding no longer exists") else Ok key
  end.

Definition row_candidate (p : ProviderRecord) : Rung :=
  {| rg_Provider := pr_Vendor p; rg_Model := ""; rg_Capabilities := no_caps; rg_BaseURL := pr_BaseURL p; rg_APIKey := pr_APIKey p; rg_ProviderID := pr_ID p;
     rg_TokenSource := None; rg_ContextWindow := 0 |}.

Definition nativeKeyRefresher (host : HostModelDefaults) (opens : string -> bool) (ids : three_ids) (ws providerID provider baseURL : string) (db : tier_db) : result error string :=
  if negb (providerID =? "")%string then
    match loadBook opens ids true ws db with
    | Err e => Err e
    | Ok b => nativeRefreshedKey providerID provider baseURL (map row_candidate (bk_Providers b))
    end
  else
    match WorkspaceTiersForRun host opens ids ws db with
    | Err e => Err e
    | Ok (cfg, keys) =>
        let ts := TierSetFromWorkspace cfg keys false in
        nativeRefreshedKey providerID provider baseURL (map fst (List.concat (map (fun t => resolvedRungs (resolve ts t)) [TierFlash; TierLite; TierPro])))
    end.

(** ** A run *)

(** The clients a task's tier gives; a workspace without a usable flash tier runs nothing. *)
Definition run_rungs (host : HostModelDefaults) (opens : string -> bool) (ids : three_ids) (pools : bool) (env : string) (builds : ClientSpec -> bool) (ws task : string) (db : tier_db) :
    result error (list ModelRung) :=
  match WorkspaceTiersForRun host opens ids ws db with
  | Err e => Err e
  | Ok (cfg, keys) =>
      if negb (tv_HasKey (wt_Flash cfg)) then Err (ENew "no workspace model key configured")
      else Rungs env builds (For (TierSetFromWorkspace cfg keys pools) (TierFromName task))
  end.
End Resolution.
