(* ===== verification/TierCustody.v ===== *)
(** * TierCustody: whose key goes where

    Over [ModelTiers] and [TierResolution]: which credential a run's clients carry and to which
    endpoint they send it, when the host's key is lent to a workspace and when a workspace has
    its own, at the start of a run and at a refresh. *)

From Stdlib Require Import Ascii.
From S2P Require Import Prelude GoStrings GoTime Operations Principals Persons Accounts ProviderAccounts ModelTiers TierResolution.
Import String.
Open Scope string_scope.
Open Scope list_scope.
Open Scope Z_scope.

Section Custody.
Context `{Vendors} `{PoolColumns} `{ModelParts}.

(** What a run sends for a provider: its key, or the stand-in for its pool. *)
Definition run_key (p : ProviderRecord) : string :=
  if IsOAuthVendor (pr_Vendor p) then if 0 <? pr_AccountCount p then OAuthPoolKey else "" else pr_APIKey p.

(** Ids and vendors are not blank. *)
Definition book_ok (ps : list ProviderRecord) : Prop := forall p, p ∈ ps -> blank (pr_ID p) = false /\ blank (pr_Vendor p) = false.

Lemma blank_empty s : blank s = false -> s <> "".
Proof. by intros Hb ->. Qed.

(** ** Keys by name *)

Lemma key_slot name key keys : key_of name (slot name key keys) = if (key =? "")%string then key_of name keys else key.
Proof. unfold slot, key_of. destruct (key =? "")%string; [done|]. by rewrite lookup_insert_eq. Qed.

Lemma key_slot_ne name name' key keys : name <> name' -> key_of name (slot name' key keys) = key_of name keys.
Proof. intros Hne. unfold slot, key_of. destruct (key =? "")%string; [done|]. by rewrite lookup_insert_ne. Qed.

Lemma key_insert name key keys : key_of name (<[name := key]> keys) = key.
Proof. unfold key_of. by rewrite lookup_insert_eq. Qed.

Lemma key_insert_ne name name' key keys : name <> name' -> key_of name (<[name' := key]> keys) = key_of name keys.
Proof. intros Hne. unfold key_of. by rewrite lookup_insert_ne. Qed.

Lemma slot_empty key : (if (key =? "")%string then "" else key) = key.
Proof. by destruct (String.eqb_spec key "") as [->|]. Qed.

Lemma resolved_keys ps sel : let keys := (ResolveWorkspaceRun ps sel).2 in let known := byID ps in
  (key_of "flash" keys = tier_key known (sel_Flash sel) /\ key_of "flash_fallback" keys = fallback_key known (sel_Flash sel)) /\
  (key_of "lite" keys = tier_key known (sel_Lite sel) /\ key_of "lite_fallback" keys = fallback_key known (sel_Lite sel)) /\
  (key_of "pro" keys = tier_key known (sel_Pro sel) /\ key_of "pro_fallback" keys = fallback_key known (sel_Pro sel)).
Proof.
  cbn. assert (Hno : forall name, key_of name ∅ = "") by (intros name; unfold key_of; by rewrite lookup_empty).
  split_and!; rewrite ?key_slot, ?key_slot_ne, ?key_slot, ?Hno, ?slot_empty by done; rewrite ?key_slot_ne, ?key_slot, ?Hno, ?slot_empty by done; done.
Qed.

(** ** What a tier of the resolved pool is *)

Section OfBook.
Context (known : gmap string ProviderRecord) (host : HostModelDefaults) (isHosted : bool).

(** A tier of the selection with its keys: its own route and key, or the host's. *)
Record tier_facts (sel : TierSelection) (v : TierView) (key fbKey : string) : Prop := {
  tf_row : tv_ProviderID v = ts_ProviderID sel;
  tf_fallback : tv_FallbackProviderID v = ts_FallbackProviderID sel /\ tv_FallbackModel v = ts_FallbackModel sel /\
    tv_FallbackProvider v = pk_Vendor (pick known (ts_FallbackProviderID sel) (ts_FallbackModel sel)) /\
    tv_FallbackBaseURL v = pk_Base (pick known (ts_FallbackProviderID sel) (ts_FallbackModel sel)) /\ fbKey = fallback_key known sel;
  tf_own : (isHosted = true /\ tv_Provider v = ho_Provider host /\ tv_BaseURL v = ho_BaseURL host /\ key = ho_APIKey host) \/
    let own := pick known (ts_ProviderID sel) (ts_Model sel) in
    key = pk_Key own /\ tv_BaseURL v = pk_Base own /\ (tv_Provider v = pk_Vendor own \/ pk_Vendor own = "");
}.

Lemma facts_view sel : tier_facts sel (tier_view known sel) (tier_key known sel) (fallback_key known sel).
Proof. constructor; [done|done|]. right. split_and!; [done|done|by left]. Qed.

Lemma facts_from sel v key fbKey provider : tier_facts sel v key fbKey -> tv_Provider v = "" -> ho_Provider host <> "" -> tier_facts sel (from_provider provider v) key fbKey.
Proof.
  intros [Hr Hf Ho] Hp Hh. constructor; [done|done|]. right. destruct Ho as [(_ & E & _)|(Hk & Hb & Hv)]; [congruence|]. split_and!; [done|done|]. right. destruct Hv; congruence.
Qed.

Lemma facts_hosted sel v key fbKey model : isHosted = true -> tier_facts sel v key fbKey -> tier_facts sel (hosted host model v) (ho_APIKey host) fbKey.
Proof. intros Hh [Hr Hf _]. constructor; [done|done|by left]. Qed.
End OfBook.

Lemma facts_mono known host sel v key fbKey : tier_facts known host false sel v key fbKey -> tier_facts known host true sel v key fbKey.
Proof. intros [Hr Hf [[? _]|Ho]]; [done|]. constructor; [done|done|by right]. Qed.

(** The pool a run resolves, tier by tier. *)
Definition pool_facts (known : gmap string ProviderRecord) (host : HostModelDefaults) (sel : WorkspaceTierSelection) (cfg : WorkspaceModelTiers) (keys : gmap string string) : Prop :=
  let facts := tier_facts known host (wt_HostedDefault cfg) in
  facts (sel_Flash sel) (wt_Flash cfg) (key_of "flash" keys) (key_of "flash_fallback" keys) /\
  facts (sel_Lite sel) (wt_Lite cfg) (key_of "lite" keys) (key_of "lite_fallback" keys) /\
  facts (sel_Pro sel) (wt_Pro cfg) (key_of "pro" keys) (key_of "pro_fallback" keys) /\
  (wt_HostedDefault cfg = true -> tv_BaseURL (wt_Flash cfg) = ho_BaseURL host).

Lemma resolved_facts ps sel host ws : ho_Provider host <> "" ->
  pool_facts (byID ps) host sel (named ws (ResolveWorkspaceRun ps sel).1) (ResolveWorkspaceRun ps sel).2.
Proof.
  intros Hh. pose proof (resolved_keys ps sel) as Hk. cbv zeta in Hk. unfold pool_facts. cbv zeta. destruct Hk as ([-> ->] & [-> ->] & [-> ->]). split_and!; [|apply facts_view..|done].
  assert (Hflash : tier_facts (byID ps) host false (sel_Flash sel) (wt_Flash (ResolveWorkspaceRun ps sel).1) (tier_key (byID ps) (sel_Flash sel)) (fallback_key (byID ps) (sel_Flash sel))).
  { unfold ResolveWorkspaceRun. cbn [fst wt_Flash]. destruct ps as [|p ps]; [apply facts_view|]. destruct (String.eqb_spec (tv_Provider (tier_view (byID (p :: ps)) (sel_Flash sel))) "") as [E|];
      [|apply facts_view]. apply facts_from; [apply facts_view|done|done]. }
  unfold named. cbn [wt_Flash wt_HostedDefault]. change (wt_HostedDefault (ResolveWorkspaceRun ps sel).1) with false. destruct (String.eqb_spec (tv_Provider (wt_Flash (ResolveWorkspaceRun ps sel).1)) "") as [E|]; [|done].
  by apply facts_from.
Qed.

Lemma hosted_facts known host sel cfg keys cfg' keys' : wt_HostedDefault cfg = false -> pool_facts known host sel cfg keys ->
  applyHostModelFallback cfg keys host = (cfg', keys') -> pool_facts known host sel cfg' keys'.
Proof.
  intros Hno (Hf & Hl & Hp & Hb). unfold applyHostModelFallback. destruct (ho_APIKey host =? "")%string; [intros [= <- <-]; by split_and!|].
  destruct (_ || _); [intros [= <- <-]; by split_and!|]. rewrite Hno in *. apply facts_mono in Hf, Hl, Hp. unfold host_tier. cbn [fst snd].
  destruct (key_of "lite" (<["flash":=ho_APIKey host]> keys) =? "")%string; cbn [fst snd]; destruct (key_of "pro" _ =? "")%string; cbn [fst snd]; intros [= <- <-];
    unfold pool_facts; cbn [wt_HostedDefault wt_Flash wt_Lite wt_Pro]; rewrite ?key_insert, ?key_insert_ne by done; rewrite ?key_insert, ?key_insert_ne by done;
    rewrite ?key_insert, ?key_insert_ne by done; split_and!; try done; by eapply facts_hosted.
Qed.

Lemma resolved_run_facts host opens ids ws db cfg keys : ho_Provider host <> "" -> WorkspaceTiersForRun host opens ids ws db = Ok (cfg, keys) ->
  exists b, loadBook opens ids true ws db = Ok b /\ pool_facts (byID (bk_Providers b)) host (bk_Sel b) cfg keys.
Proof.
  intros Hh. unfold WorkspaceTiersForRun. destruct (loadBook _ _ _ _ _) as [b|]; [|done]. pose proof (resolved_facts (bk_Providers b) (bk_Sel b) host ws Hh) as Hr.
  destruct (ResolveWorkspaceRun _ _) as [c k] eqn:E. cbn [fst snd] in Hr. intros Hok. exists b. split; [done|]. destruct (providerBookHasKey _).
  - by injection Hok as <- <-.
  - eapply (hosted_facts _ host _ (named ws c) k); [|done|by injection Hok]. cbn. by injection E as <- _.
Qed.

(** ** Rungs *)

(** Where two rungs send what: all but the model. *)
Definition same_route (a b : Rung) : Prop :=
  rg_Provider a = rg_Provider b /\ rg_BaseURL a = rg_BaseURL b /\ rg_APIKey a = rg_APIKey b /\ rg_ProviderID a = rg_ProviderID b /\ rg_TokenSource a = rg_TokenSource b.

Lemma rungs_of t r : r ∈ map fst (resolvedRungs t) ->
  same_route r (tc_Rung t) \/ exists f, tc_Fallback t = Some f /\ crosses (tc_Rung t) f = true /\ same_route r f.
Proof.
  assert (Hone : forall x : Rung, r ∈ [x] -> r = x) by (intros x Hr; by apply list_elem_of_singleton in Hr).
  unfold resolvedRungs. set (primary := tc_Rung t). destruct (tc_Fallback t) as [f|].
  - destruct (blank (rg_Model f)); [intros Hr; apply Hone in Hr as ->; by left|]. destruct (crosses primary f) eqn:Hx; cbn [map fst].
    + intros Hr. apply elem_of_cons in Hr as [->|Hr]; [by left|]. apply Hone in Hr as ->. right. by exists f.
    + destruct (_ =? _)%string; cbn [map fst]; intros Hr; [apply Hone in Hr as ->; by left|]. apply elem_of_cons in Hr as [->|Hr]; [by left|]. apply Hone in Hr as ->. by left.
  - destruct (blank (tc_FallbackModel t)) eqn:Hb; [intros Hr; apply Hone in Hr as ->; by left|]. cbn [rg_Model model_only]. rewrite Hb.
    change (crosses primary (model_only (tc_FallbackModel t))) with false. cbv iota. destruct (_ =? _)%string; cbn [map fst]; intros Hr; [apply Hone in Hr as ->; by left|].
    apply elem_of_cons in Hr as [->|Hr]; [by left|]. apply Hone in Hr as ->. by left.
Qed.

Definition sel_of (sel : WorkspaceTierSelection) (t : Tier) : TierSelection := match t with TierFlash => sel_Flash sel | TierLite => sel_Lite sel | TierPro => sel_Pro sel end.
Definition view_of (cfg : WorkspaceModelTiers) (t : Tier) : TierView := match t with TierFlash => wt_Flash cfg | TierLite => wt_Lite cfg | TierPro => wt_Pro cfg end.
Definition own_key (keys : gmap string string) (t : Tier) : string := key_of (match t with TierFlash => "flash" | TierLite => "lite" | TierPro => "pro" end) keys.
Definition fb_key (keys : gmap string string) (t : Tier) : string :=
  key_of (match t with TierFlash => "flash_fallback" | TierLite => "lite_fallback" | TierPro => "pro_fallback" end) keys.

Lemma facts_of known host sel cfg keys t : pool_facts known host sel cfg keys ->
  tier_facts known host (wt_HostedDefault cfg) (sel_of sel t) (view_of cfg t) (own_key keys t) (fb_key keys t).
Proof. intros (? & ? & ? & _). by destruct t. Qed.

(** The configuration of a tier before it inherits. *)
Definition config_of (cfg : WorkspaceModelTiers) (keys : gmap string string) (pools : bool) (t : Tier) : TierConfig :=
  tier_config pools (wt_HostedDefault cfg) (view_of cfg t) (own_key keys t) (fb_key keys t).

Lemma tiers_config cfg keys pools t : tiers (TierSetFromWorkspace cfg keys pools) t = Some (config_of cfg keys pools t).
Proof. by destruct t. Qed.

Lemma resolve_rung cfg keys pools t : let ts := TierSetFromWorkspace cfg keys pools in let c t := tc_Rung (config_of cfg keys pools t) in
  tc_Rung (resolve ts t) = c TierFlash \/ tc_Rung (resolve ts t) = over_flash (c TierFlash) (c t).
Proof.
  cbv zeta. unfold resolve. rewrite !tiers_config. cbn [default]. destruct t; [|by left|]; (destruct (inherited_fallback _ _) as [f m]; by right).
Qed.

Lemma resolve_fallback cfg keys pools t f : tc_Fallback (resolve (TierSetFromWorkspace cfg keys pools) t) = Some f ->
  (exists t', fb pools (view_of cfg t') (fb_key keys t') = Some f) \/ exists model, f = model_only model.
Proof.
  assert (Hc : forall t', tc_Fallback (config_of cfg keys pools t') = fb pools (view_of cfg t') (fb_key keys t')) by done.
  assert (Hinh : forall t', (inherited_fallback (config_of cfg keys pools TierFlash) (config_of cfg keys pools t')).1 = Some f ->
    (exists t', fb pools (view_of cfg t') (fb_key keys t') = Some f) \/ exists model, f = model_only model).
  { intros t'. unfold inherited_fallback. rewrite !Hc. destruct (fb pools (view_of cfg t') (fb_key keys t')) as [g|] eqn:Hg; [destruct (blank (rg_Model g))|];
      try (cbn; intros [= ->]; left; by exists t').
    all: destruct (negb (blank (tc_FallbackModel _))); [intros [= <-]; right; by eexists|]; destruct (_ || _); [done|]; cbn; intros Hf; left; by exists TierFlash. }
  unfold resolve. rewrite !tiers_config. cbn [default]. destruct t.
  - specialize (Hinh TierLite). destruct (inherited_fallback _ _) as [g m]. exact Hinh.
  - intros Hf. left. exists TierFlash. exact Hf.
  - specialize (Hinh TierPro). destruct (inherited_fallback _ _) as [g m]. exact Hinh.
Qed.

(** Every rung of a run has the route of flash, of a tier over flash, or of a tier's fallback. *)
Lemma route_of_run cfg keys pools t r : let ts := TierSetFromWorkspace cfg keys pools in let c t := tc_Rung (config_of cfg keys pools t) in
  r ∈ map fst (resolvedRungs (For ts t)) \/ r ∈ map fst (resolvedRungs (resolve ts t)) ->
  same_route r (c TierFlash) \/ same_route r (over_flash (c TierFlash) (c t)) \/ exists t' f, fb pools (view_of cfg t') (fb_key keys t') = Some f /\ same_route r f.
Proof.
  cbv zeta. set (ts := TierSetFromWorkspace cfg keys pools). intros Hr.
  assert (Hall : same_route r (tc_Rung (resolve ts t)) \/ exists f, tc_Fallback (resolve ts t) = Some f /\ crosses (tc_Rung (resolve ts t)) f = true /\ same_route r f).
  { destruct Hr as [Hr|Hr]; [|by apply rungs_of]. revert Hr. unfold For. destruct (fallback ts); [apply rungs_of|]. intros Hr. apply rungs_of in Hr as [?|(f & ? & _)]; [by left|done]. }
  destruct Hall as [Hp|(f & Hf & Hx & Hroute)].
  - destruct (resolve_rung cfg keys pools t) as [E|E]; fold ts in E; rewrite E in Hp; [by left|by right; left].
  - right. right. apply resolve_fallback in Hf as [(t' & Hf)|(model & ->)]; [by exists t', f|]. done.
Qed.

(** ** The host's key *)

Lemma host_named cfg : blank (ho_Provider (HostModelDefaultsFromConfig cfg)) = false.
Proof.
  cbn. unfold or_else, firstNonEmpty, blank. cbn. destruct (String.eqb_spec (trim_space (DefaultModelProvider cfg)) "") as [|Hne]; [done|]. cbn.
  change (trim_right (trim_left ?s)) with (trim_space s). rewrite trim_space_idemp. by apply String.eqb_neq.
Qed.

Lemma pick_key known id model : pk_Key (pick known id model) = "" \/ exists p, known !! id = Some p /\ pk_Key (pick known id model) = run_key p.
Proof.
  unfold pick. destruct (_ && _); [by left|]. destruct (known !! id) as [p|]; [|by left]. right. exists p. split; [done|]. unfold run_key. by destruct (IsOAuthVendor _).
Qed.

(** A pick without a vendor has no endpoint. *)
Lemma pick_vendor ps id model : book_ok ps -> blank (pk_Vendor (pick (byID ps) id model)) = true -> pk_Base (pick (byID ps) id model) = "" /\ pk_Vendor (pick (byID ps) id model) = "".
Proof.
  intros Hok. unfold pick. destruct (_ && _); [done|]. destruct (byID ps !! id) as [p|] eqn:Hp; [|done]. apply byID_in in Hp as [Hp _]. destruct (Hok p Hp) as [_ Hv].
  destruct (IsOAuthVendor _); cbn [pk_Vendor]; intros; congruence.
Qed.

Section HostKey.
#[local] Set Default Proof Using "Type*".
Context (ps : list ProviderRecord) (host : HostModelDefaults) (sel : WorkspaceTierSelection) (cfg : WorkspaceModelTiers) (keys : gmap string string) (pools : bool).
Context (Hok : book_ok ps) (Hnamed : blank (ho_Provider host) = false) (Hfacts : pool_facts (byID ps) host sel cfg keys).
Context (Hkey : ho_APIKey host <> "") (Htenant : forall p, p ∈ ps -> run_key p <> ho_APIKey host).

(** The host's route: its vendor and endpoint, and no row of the workspace. *)
Definition host_route (r : Rung) : Prop := rg_Provider r = ho_Provider host /\ rg_BaseURL r = ho_BaseURL host /\ rg_ProviderID r = "".

Lemma picked_tenant id model : pk_Key (pick (byID ps) id model) <> ho_APIKey host.
Proof. destruct (pick_key (byID ps) id model) as [->|(p & Hp & ->)]; [congruence|]. apply byID_in in Hp as [Hp _]. by apply Htenant. Qed.

Let c (t : Tier) : Rung := tc_Rung (config_of cfg keys pools t).

Lemma config_host t : rg_APIKey (c t) = ho_APIKey host -> host_route (c t) /\ wt_HostedDefault cfg = true.
Proof.
  pose proof (facts_of _ _ _ _ _ t Hfacts) as [_ _ [(Hh & Hp & Hb & _)|(E & _)]]; cbn; [|intros Hk; rewrite E in Hk; by apply picked_tenant in Hk].
  intros _. rewrite Hh. split; [by split_and!|done].
Qed.

(** A tier without a vendor has no endpoint. *)
Lemma config_bare t : blank (rg_Provider (c t)) = true -> rg_BaseURL (c t) = "".
Proof.
  change (rg_Provider (c t)) with (tv_Provider (view_of cfg t)). change (rg_BaseURL (c t)) with (tv_BaseURL (view_of cfg t)). intros Hblank.
  pose proof (facts_of _ _ _ _ _ t Hfacts) as [_ _ [(_ & Hp & _)|(_ & Hb & Hv)]]; [congruence|]. rewrite Hb. apply (pick_vendor ps _ _ Hok). destruct Hv as [E| ->]; [congruence|done].
Qed.

Lemma over_flash_host flash o : (rg_APIKey o = ho_APIKey host -> host_route o /\ rg_BaseURL flash = ho_BaseURL host) -> (rg_APIKey flash = ho_APIKey host -> host_route flash) ->
  (blank (rg_Provider o) = true -> rg_BaseURL o = "") -> rg_APIKey (over_flash flash o) = ho_APIKey host -> host_route (over_flash flash o).
Proof.
  intros Ho Hf Hbare. unfold over_flash. destruct (credential flash o) as [[row source] key] eqn:Hc. cbn [rg_APIKey]. destruct (String.eqb_spec (rg_APIKey o) "") as [E|E].
  - intros ->. unfold credential in Hc. destruct (negb (blank (rg_ProviderID o))); [injection Hc; intros; congruence|]. destruct (blank (rg_Provider o)) eqn:Hb; cbn [negb] in Hc; [|injection Hc; intros; congruence].
    injection Hc as <- _ Hk. destruct (Hf Hk) as (Hp & Hu & Hrow). unfold host_route. cbn [rg_Provider rg_BaseURL rg_ProviderID]. rewrite (Hbare eq_refl). by split_and!.
  - intros Hk. destruct (Ho Hk) as [(Hp & Hu & Hrow) Hh]. unfold host_route. cbn [rg_Provider rg_BaseURL rg_ProviderID]. rewrite Hp, Hu, Hnamed.
    split_and!; [done|by destruct (blank (ho_BaseURL host))|]. unfold credential in Hc. rewrite Hrow, Hp, Hnamed in Hc. cbn in Hc. by injection Hc as <-.
Qed.

Lemma over_host t : rg_APIKey (over_flash (c TierFlash) (c t)) = ho_APIKey host -> host_route (over_flash (c TierFlash) (c t)).
Proof.
  apply over_flash_host; [|intros Hk; by apply config_host|apply config_bare]. intros Hk. destruct (config_host t Hk) as [Hr Hh]. split; [done|]. apply (proj2 (proj2 (proj2 Hfacts)) Hh).
Qed.

Lemma fallback_tenant t f : fb pools (view_of cfg t) (fb_key keys t) = Some f -> rg_APIKey f <> ho_APIKey host.
Proof.
  unfold fb. intros Hf. destruct (blank (tv_FallbackModel (view_of cfg t))); [done|]. injection Hf as <-. cbn. pose proof (facts_of _ _ _ _ _ t Hfacts) as [_ (_ & _ & _ & _ & E) _]. rewrite E. apply picked_tenant.
Qed.

Lemma rung_host t r : r ∈ map fst (resolvedRungs (For (TierSetFromWorkspace cfg keys pools) t)) -> rg_APIKey r = ho_APIKey host -> host_route r.
Proof.
  intros Hr Hk. destruct (route_of_run cfg keys pools t r (or_introl Hr)) as [(E1 & E2 & E3 & E4 & _)|[(E1 & E2 & E3 & E4 & _)|(t' & f & Hf & (_ & _ & E3 & _))]].
  - unfold host_route. rewrite E1, E2, E4. apply config_host. exact (eq_trans (eq_sym E3) Hk).
  - unfold host_route. rewrite E1, E2, E4. apply over_host. exact (eq_trans (eq_sym E3) Hk).
  - exfalso. apply (fallback_tenant t' f Hf). congruence.
Qed.
End HostKey.

Lemma rungs_client env builds l : forall primary ms m, rungs_from env builds primary l = Ok ms -> m ∈ ms ->
  (exists r, r ∈ map fst l /\ mr_Provider m = RawProvider env r) \/ primary = Some (mr_Provider m).
Proof.
  induction l as [|[r share] l IH]; intros primary ms m; cbn; [intros [= <-] Hm; by apply elem_of_nil in Hm|]. set (client := if share then _ else _).
  assert (Hclient : forall cl, client = Some cl -> cl = RawProvider env r \/ primary = Some cl).
  { intros cl. subst client. destruct share; [destruct primary; intros [= ->]; by right|]. destruct (builds _); [|done]. intros [= <-]. by left. }
  destruct client as [cl|]; [|done]. specialize (Hclient cl eq_refl). destruct (rungs_from env builds (Some (default cl primary)) l) as [rest|] eqn:Hrest; [|done]. intros [= <-] Hm.
  assert (Hcl : forall x, x = cl -> (exists r', r' ∈ r :: map fst l /\ x = RawProvider env r') \/ primary = Some x).
  { intros x ->. destruct Hclient as [->| ->]; [left; exists r; split; [left|done]|by right]. }
  apply elem_of_cons in Hm as [->|Hm]; [by apply Hcl|]. destruct (IH _ _ _ Hrest Hm) as [(r' & Hr' & E)|E]; [left; exists r'; split; [by right|done]|].
  destruct primary as [pr|]; cbn in E; [by right|]. apply Hcl. congruence.
Qed.

Lemma client_key env r : cl_APIKey (RawProvider env r) = "" \/ cl_APIKey (RawProvider env r) = rg_APIKey r.
Proof. unfold RawProvider, buildProviderForModel. repeat case_match; cbn; auto. Qed.

(** C36: the host's model key is sent to the host's endpoint alone: a client of any run that
    carries it is the one built from the host's vendor and endpoint, with no provider row of the
    workspace, whatever providers, endpoints, tiers and fallbacks a member has configured. *)
Theorem host_key_stays_home hc opens ids pools env builds ws task db ms m :
  let host := HostModelDefaultsFromConfig hc in
  (forall b, loadBook opens ids true ws db = Ok b -> book_ok (bk_Providers b) /\ forall p, p ∈ bk_Providers b -> run_key p <> ho_APIKey host) ->
  run_rungs host opens ids pools env builds ws task db = Ok ms -> m ∈ ms -> ho_APIKey host <> "" -> cl_APIKey (mr_Provider m) = ho_APIKey host ->
  exists caps source, mr_Provider m = buildProviderForModel env (ho_Provider host) (ho_BaseURL host) (ho_APIKey host) source "" caps.
Proof.
  intros host Hbook Hrun Hm Hne Hk. unfold run_rungs in Hrun. destruct (WorkspaceTiersForRun _ _ _ _ _) as [[cfg keys]|] eqn:Ht; [|done].
  destruct (negb (tv_HasKey (wt_Flash cfg))); [done|]. pose proof (host_named hc) as Hnamed. destruct (resolved_run_facts _ _ _ _ _ _ _ (blank_empty _ Hnamed) Ht) as (b & Hb & Hfacts).
  destruct (Hbook b Hb) as [Hok Htenant]. destruct (rungs_client _ _ _ _ _ _ Hrun Hm) as [(r & Hr & E)|?]; [|done]. rewrite E in Hk |- *.
  assert (Hrk : rg_APIKey r = ho_APIKey host) by (destruct (client_key env r); congruence).
  destruct (rung_host _ _ _ _ _ _ Hok Hnamed Hfacts Hne Htenant _ r Hr Hrk) as (Hp & Hu & Hrow). exists (rg_Capabilities r), (rg_TokenSource r). unfold RawProvider. by rewrite Hp, Hu, Hrk, Hrow.
Qed.

(** ** A workspace's keys *)

Section RowKey.
#[local] Set Default Proof Using "Type*".
Context (ps : list ProviderRecord) (host : HostModelDefaults) (sel : WorkspaceTierSelection) (cfg : WorkspaceModelTiers) (keys : gmap string string) (pools : bool).
Context (Hok : book_ok ps) (Hfacts : pool_facts (byID ps) host sel cfg keys).

(** A rung with a provider row has that row's key, vendor and pool, and the row's endpoint or,
    where the row has none, that of [flash]. *)
Definition row_route (r : Rung) : Prop :=
  (rg_TokenSource r = None \/ rg_TokenSource r = Some (rg_ProviderID r)) /\
  match byID ps !! rg_ProviderID r with
  | None => rg_APIKey r = ""
  | Some p => rg_APIKey r = run_key p /\ rg_Provider r = pr_Vendor p /\
      (rg_BaseURL r = pr_BaseURL p \/ blank (pr_BaseURL p) = true /\ rg_BaseURL r = tv_BaseURL (wt_Flash cfg))
  end.

Lemma chosen_row id model : id <> "" ->
  match byID ps !! id with
  | None => pk_Key (pick (byID ps) id model) = ""
  | Some p => pk_Key (pick (byID ps) id model) = run_key p /\ pk_Vendor (pick (byID ps) id model) = pr_Vendor p /\ pk_Base (pick (byID ps) id model) = pr_BaseURL p
  end.
Proof.
  intros Hne. unfold pick. rewrite (proj2 (String.eqb_neq id "") Hne). cbn [andb]. destruct (byID ps !! id) as [p|]; [|done]. unfold run_key. by destruct (IsOAuthVendor _).
Qed.

Lemma vendor_named id p : byID ps !! id = Some p -> blank (pr_Vendor p) = false /\ blank id = false.
Proof. intros Hp. apply byID_in in Hp as [Hp <-]. by destruct (Hok p Hp). Qed.

Lemma src_row vendor row : src pools vendor row = None \/ src pools vendor row = Some row.
Proof. unfold src. destruct (_ || _); auto. Qed.

Lemma config_row t : let c := tc_Rung (config_of cfg keys pools t) in rg_ProviderID c <> "" ->
  (rg_TokenSource c = None \/ rg_TokenSource c = Some (rg_ProviderID c)) /\
  match byID ps !! rg_ProviderID c with None => rg_APIKey c = "" | Some p => rg_APIKey c = run_key p /\ rg_Provider c = pr_Vendor p /\ rg_BaseURL c = pr_BaseURL p end.
Proof.
  cbv zeta. intros Hrow. split; [apply src_row|]. pose proof (facts_of _ _ _ _ _ t Hfacts) as [Er _ Ho].
  change (rg_APIKey (tc_Rung (config_of cfg keys pools t))) with (own_key keys t). change (rg_Provider (tc_Rung (config_of cfg keys pools t))) with (tv_Provider (view_of cfg t)).
  change (rg_BaseURL (tc_Rung (config_of cfg keys pools t))) with (tv_BaseURL (view_of cfg t)).
  change (rg_ProviderID (tc_Rung (config_of cfg keys pools t))) with (if wt_HostedDefault cfg then "" else tv_ProviderID (view_of cfg t)) in *.
  destruct (wt_HostedDefault cfg); [done|]. rewrite Er in *. destruct Ho as [[? _]|(-> & -> & Hv)]; [done|].
  pose proof (chosen_row (ts_ProviderID (sel_of sel t)) (ts_Model (sel_of sel t)) Hrow) as Hp. destruct (byID ps !! ts_ProviderID (sel_of sel t)) as [p|] eqn:Hl; [|done].
  destruct Hp as (Hk & Hvp & Hb). split_and!; [done| |done]. destruct (vendor_named _ _ Hl) as [Hn _]. apply blank_empty in Hn. destruct Hv; congruence.
Qed.

(** A tier that names no row has no key of its own, unless the host's. *)
Lemma config_bare_key t : let c := tc_Rung (config_of cfg keys pools t) in wt_HostedDefault cfg = false -> blank (rg_ProviderID c) = true -> rg_APIKey c = "".
Proof.
  cbv zeta. intros Hh. change (rg_ProviderID (tc_Rung (config_of cfg keys pools t))) with (if wt_HostedDefault cfg then "" else tv_ProviderID (view_of cfg t)). rewrite Hh.
  pose proof (facts_of _ _ _ _ _ t Hfacts) as [Er _ Ho]. rewrite Hh, Er in *. intros Hb. change (rg_APIKey (tc_Rung (config_of cfg keys pools t))) with (own_key keys t).
  destruct Ho as [[? _]|(-> & _)]; [done|]. destruct (pick_key (byID ps) (ts_ProviderID (sel_of sel t)) (ts_Model (sel_of sel t))) as [E|(p & Hp & _)]; [done|].
  destruct (vendor_named _ _ Hp). congruence.
Qed.

Lemma over_row t : let c t := tc_Rung (config_of cfg keys pools t) in rg_ProviderID (over_flash (c TierFlash) (c t)) <> "" -> row_route (over_flash (c TierFlash) (c t)).
Proof.
  cbv zeta. pose proof (config_row t) as Hc. pose proof (config_row TierFlash) as Hf. pose proof (config_bare_key t) as Hbare. cbv zeta in Hc, Hf, Hbare.
  assert (Hflash : rg_ProviderID (tc_Rung (config_of cfg keys pools TierFlash)) <> "" -> wt_HostedDefault cfg = false) by (cbn; by destruct (wt_HostedDefault cfg)).
  assert (Hb : blank (rg_Provider (tc_Rung (config_of cfg keys pools t))) = true -> wt_HostedDefault cfg = false -> rg_BaseURL (tc_Rung (config_of cfg keys pools t)) = "").
  { intros Hp Hh. pose proof (facts_of _ _ _ _ _ t Hfacts) as [_ _ [[? _]|(_ & Hb & Hv)]]; [congruence|]. change (tv_BaseURL (view_of cfg t) = ""). rewrite Hb. apply (pick_vendor ps _ _ Hok).
    destruct Hv as [E| ->]; [|done]. rewrite <- E. exact Hp. }
  change (tv_BaseURL (wt_Flash cfg)) with (rg_BaseURL (tc_Rung (config_of cfg keys pools TierFlash))) in *.
  set (flash := tc_Rung (config_of cfg keys pools TierFlash)) in *. set (c := tc_Rung (config_of cfg keys pools t)) in *.
  unfold row_route, over_flash. change (tv_BaseURL (wt_Flash cfg)) with (rg_BaseURL flash). unfold credential. destruct (blank (rg_ProviderID c)) eqn:Hid; cbn [negb].
  - destruct (blank (rg_Provider c)) eqn:Hp; cbn [negb rg_ProviderID rg_TokenSource rg_APIKey rg_Provider rg_BaseURL]; [|done]. intros Hrow. destruct (Hf Hrow) as [Hs Hm]. split; [done|].
    rewrite (Hbare (Hflash Hrow) eq_refl), (Hb eq_refl (Hflash Hrow)). change (blank "") with true. cbn iota. destruct (byID ps !! rg_ProviderID flash) as [p|]; [|done].
    destruct Hm as (? & ? & ?). split_and!; [done|done|by left].
  - cbn [rg_ProviderID rg_TokenSource rg_APIKey rg_Provider rg_BaseURL]. intros Hrow. destruct (Hc Hrow) as [Hs Hm]. split; [done|]. rewrite slot_empty.
    destruct (byID ps !! rg_ProviderID c) as [p|] eqn:Hl; [|done]. destruct Hm as (Hk & Hv & Hu). destruct (vendor_named _ _ Hl) as [Hn _]. rewrite Hk, Hv, Hn, Hu. split_and!; [done|done|].
    destruct (blank (pr_BaseURL p)); [by right|by left].
Qed.

Lemma fallback_row t f : fb pools (view_of cfg t) (fb_key keys t) = Some f -> rg_ProviderID f <> "" -> row_route f.
Proof.
  unfold fb. intros Hf. destruct (blank (tv_FallbackModel (view_of cfg t))); [done|]. injection Hf as <-. cbn. intros Hrow. split; [apply src_row|]. cbn.
  pose proof (facts_of _ _ _ _ _ t Hfacts) as [_ (Er & _ & Ev & Eb & Ek) _]. rewrite Er in Hrow |- *. rewrite Ev, Eb, Ek. unfold fallback_key.
  pose proof (chosen_row (ts_FallbackProviderID (sel_of sel t)) (ts_FallbackModel (sel_of sel t)) Hrow) as Hp.
  destruct (byID ps !! ts_FallbackProviderID (sel_of sel t)) as [p|]; [|done]. destruct Hp as (-> & -> & ->). split_and!; [done|done|by left].
Qed.

Lemma same_row a b : same_route a b -> row_route b -> row_route a.
Proof. intros (E1 & E2 & E3 & E4 & E5). unfold row_route. by rewrite E1, E2, E3, E4, E5. Qed.

Lemma rung_row t r : r ∈ map fst (resolvedRungs (For (TierSetFromWorkspace cfg keys pools) t)) -> rg_ProviderID r <> "" -> row_route r.
Proof.
  intros Hr Hrow. destruct (route_of_run cfg keys pools t r (or_introl Hr)) as [Hs|[Hs|(t' & f & Hf & Hs)]]; pose proof Hs as (_ & _ & _ & E & _); rewrite E in Hrow; apply (same_row _ _ Hs).
  - destruct (config_row TierFlash Hrow) as [? Hm]. split; [done|]. destruct (byID ps !! _) as [p|]; [|done]. destruct Hm as (? & ? & ?). split_and!; [done|done|by left].
  - by apply over_row.
  - by apply (fallback_row t').
Qed.
End RowKey.

(** C37: a run carries a provider's key only as that provider: a rung that names a row has the
    key, the vendor and at most the pool of that very row, and sends to the row's endpoint,
    except where the row has none and the tier inherits flash's. *)
Theorem key_goes_with_its_row hc opens ids pools ws db cfg keys b task r :
  WorkspaceTiersForRun (HostModelDefaultsFromConfig hc) opens ids ws db = Ok (cfg, keys) ->
  loadBook opens ids true ws db = Ok b -> book_ok (bk_Providers b) ->
  r ∈ map fst (resolvedRungs (For (TierSetFromWorkspace cfg keys pools) (TierFromName task))) -> rg_ProviderID r <> "" ->
  (rg_TokenSource r = None \/ rg_TokenSource r = Some (rg_ProviderID r)) /\
  match byID (bk_Providers b) !! rg_ProviderID r with
  | None => rg_APIKey r = ""
  | Some p => rg_APIKey r = run_key p /\ rg_Provider r = pr_Vendor p /\
      (rg_BaseURL r = pr_BaseURL p \/ blank (pr_BaseURL p) = true /\ rg_BaseURL r = tv_BaseURL (wt_Flash cfg))
  end.
Proof.
  intros Ht Hb Hok Hr Hrow. destruct (resolved_run_facts _ _ _ _ _ _ _ (blank_empty _ (host_named hc)) Ht) as (b' & Hb' & Hfacts). rewrite Hb in Hb'. injection Hb' as <-.
  by apply (rung_row _ _ _ _ _ _ Hok Hfacts _ _ Hr).
Qed.

(** ** Refreshed keys *)

(** A candidate on the route asked for. *)
Definition on_route (providerID provider baseURL : string) (c : Rung) : Prop :=
  rg_ProviderID c = providerID /\ NormalizeVendor (rg_Provider c) = NormalizeVendor provider /\ endpoint (rg_BaseURL c) = endpoint baseURL.

Lemma refreshed_key providerID provider baseURL l : forall key k, refreshed providerID (NormalizeVendor provider) (endpoint baseURL) key l = Ok k ->
  (key = "" \/ k = key) /\ (k = key \/ exists c, c ∈ l /\ on_route providerID provider baseURL c /\ rg_APIKey c = k) /\
  forall c, c ∈ l -> rg_ProviderID c = providerID -> (providerID <> "" \/ on_route providerID provider baseURL c) -> on_route providerID provider baseURL c /\ rg_APIKey c = k.
Proof.
  induction l as [|o l IH]; intros key k; cbn.
  { intros [= <-]. split_and!; [by right|by left|]. intros c Hc. by apply elem_of_nil in Hc. }
  destruct (String.eqb_spec (rg_ProviderID o) providerID) as [Eid|Hid]; cbn [negb].
  2: { intros Hk. destruct (IH _ _ Hk) as (H1' & H2' & H3'). split_and!; [done| |].
       - destruct H2' as [?|(c & ? & ?)]; [by left|]. right. exists c. split; [by right|done].
       - intros c Hc. apply elem_of_cons in Hc as [->|Hc]; [done|by apply H3']. }
  destruct (String.eqb_spec (NormalizeVendor (rg_Provider o)) (NormalizeVendor provider)) as [Ev|Hv]; [destruct (String.eqb_spec (endpoint (rg_BaseURL o)) (endpoint baseURL)) as [Eb|Hb]|]; cbn [negb orb].
  2,3: destruct (String.eqb_spec providerID "") as [E|Hne]; cbn [negb]; [|done]; intros Hk; destruct (IH _ _ Hk) as (H1' & H2' & H3'); split_and!; [done| |];
       [destruct H2' as [?|(c & ? & ?)]; [by left|]; right; exists c; split; [by right|done]|];
       intros c Hc Hcid Hor; apply elem_of_cons in Hc as [->|Hc]; [destruct Hor as [?|(_ & ? & ?)]; done|by apply H3'].
  destruct (blank (rg_APIKey o)) eqn:Hblank; [done|]. destruct (_ && _) eqn:Hamb; [done|]. intros Hk. destruct (IH _ _ Hk) as (H1' & H2' & H3').
  assert (Ek : k = rg_APIKey o) by (destruct H1' as [E|E]; [by rewrite E in Hblank|done]).
  assert (Hkey : key = "" \/ key = rg_APIKey o) by (destruct (String.eqb_spec key ""); [by left|]; right; destruct (String.eqb_spec key (rg_APIKey o)); done).
  split_and!; [destruct Hkey; [by left|right; congruence]| |].
  - right. exists o. split; [left|]. by split_and!.
  - intros c Hc. apply elem_of_cons in Hc as [->|Hc]; [intros _ _; by split_and!|by apply H3'].
Qed.

(** A key refreshed while a run goes on is the key of the route the run was admitted with:
    the one row of that id, still with the vendor and endpoint the request goes to, or without a
    row every candidate of that vendor and endpoint; anything else is refused. *)
Theorem refresh_keeps_the_route providerID provider baseURL candidates key : nativeRefreshedKey providerID provider baseURL candidates = Ok key ->
  key <> "" /\ (exists c, c ∈ candidates /\ on_route providerID provider baseURL c /\ rg_APIKey c = key) /\
  forall c, c ∈ candidates -> rg_ProviderID c = providerID -> (providerID <> "" \/ on_route providerID provider baseURL c) -> on_route providerID provider baseURL c /\ rg_APIKey c = key.
Proof.
  unfold nativeRefreshedKey. destruct (refreshed _ _ _ _ _) as [k|] eqn:Hr; [|done]. destruct (String.eqb_spec k "") as [|Hne]; [done|]. intros [= <-].
  destruct (refreshed_key _ _ _ _ _ _ Hr) as (_ & [?|?] & ?); [done|]. by split_and!.
Qed.
End Custody.
