(* ===== verification/TierUpgrade.v ===== *)
(** * TierUpgrade: tiers saved, loaded and carried over

    Over [ModelTiers]: a saved selection is the one that is loaded, and the upgrade of a row
    from before there were providers changes nothing of what its runs resolve. *)

From stdpp Require Import sorting.
From S2P Require Import Prelude GoStrings GoTime Operations Principals Persons Accounts ProviderAccounts ModelTiers.
Import String.
Open Scope string_scope.
Open Scope list_scope.
Open Scope Z_scope.

Section Upgrade.
Context `{Vendors} `{PoolColumns} `{ModelParts}.

(** ** The upgrade *)

(** The rows an upgrade inserts. *)
Fixpoint inserted (at_ : nat -> Z) (ws : string) (l : list ProviderRecord) : list (string * ProviderRow) :=
  match l with
  | [] => []
  | p :: l =>
      (pr_ID p, {| pv_Workspace := ws; pv_Vendor := pr_Vendor p; pv_Name := pr_Name p; pv_BaseURL := pr_BaseURL p; pv_APIKey := pr_APIKey p; pv_CreatedAt := at_ 0%nat |}) ::
      inserted (fun n => at_ (S n)) ws l
  end.

Lemma inserted_ids at_ ws l : map fst (inserted at_ ws l) = map pr_ID l.
Proof. revert at_. induction l as [|p l IH]; intros at_; [done|]. cbn. by rewrite IH. Qed.

Lemma insert_providers_ok ws l : forall at_ db db', insert_providers at_ ws l db = (db', Ok tt) -> NoDup (map pr_ID l) ->
  (forall p, p ∈ l -> providers (pool db) !! pr_ID p = None) ->
  db' = with_pool (with_providers (list_to_map (inserted at_ ws l) ∪ providers (pool db)) (pool db)) db.
Proof.
  induction l as [|p l IH]; intros at_ db db'; cbn.
  { intros [= <-] _ _. rewrite (left_id_L ∅ (∪)). by destruct db as [[] ?]. }
  destruct (_ || _); [done|]. intros Hi Hnd Hno. apply NoDup_cons in Hnd as [Hp Hnd]. rewrite (Hno p) in Hi by left. apply IH in Hi; [|done|].
  - rewrite Hi. unfold with_pool, with_providers. cbn. f_equal. f_equal. rewrite <- insert_union_r; [by rewrite insert_union_l|]. apply not_elem_of_list_to_map_1.
    change (fst <$> inserted (fun n => at_ (S n)) ws l) with (map fst (inserted (fun n => at_ (S n)) ws l)). by rewrite inserted_ids.
  - intros q Hq. cbn. rewrite lookup_insert_ne; [apply Hno; by right|]. intros E. apply Hp. rewrite E. change (map pr_ID l) with (pr_ID <$> l). apply list_elem_of_fmap. by exists q.
Qed.

Lemma inserted_at ws l : forall at_ kr, kr ∈ inserted at_ ws l -> pv_Workspace kr.2 = ws /\ exists n, pv_CreatedAt kr.2 = at_ n.
Proof.
  induction l as [|p l IH]; intros at_ kr Hkr; [by apply elem_of_nil in Hkr|]. apply elem_of_cons in Hkr as [->|Hkr]; [split; [done|by exists 0%nat]|].
  destruct (IH _ _ Hkr) as [? [n ?]]. split; [done|by exists (S n)].
Qed.

Lemma inserted_sorted ws l : forall at_, (forall i j, (i < j)%nat -> at_ i < at_ j) -> StronglySorted (fun a b : string * ProviderRow => pv_CreatedAt a.2 < pv_CreatedAt b.2) (inserted at_ ws l).
Proof.
  induction l as [|p l IH]; intros at_ Hat; [constructor|]. apply StronglySorted_cons. split; [|apply IH; intros i j Hij; apply Hat; lia]. apply Forall_forall. intros kr Hkr.
  destruct (inserted_at _ _ _ _ Hkr) as [_ [n ->]]. apply Hat. lia.
Qed.

Lemma sorted_distinct (l : list (string * ProviderRow)) x y : StronglySorted (fun a b : string * ProviderRow => pv_CreatedAt a.2 < pv_CreatedAt b.2) l -> x ∈ l -> y ∈ l ->
  pv_CreatedAt x.2 = pv_CreatedAt y.2 -> x = y.
Proof.
  induction l as [|z l IH]; intros Hs Hx Hy E; [by apply elem_of_nil in Hx|]. apply StronglySorted_cons in Hs as [Hall Hs]. rewrite Forall_forall in Hall.
  apply elem_of_cons in Hx as [->|Hx], Hy as [->|Hy]; [done|specialize (Hall _ Hy); lia|specialize (Hall _ Hx); lia|by apply IH].
Qed.

Lemma strictly_sorted (l : list (string * ProviderRow)) : StronglySorted (fun a b : string * ProviderRow => pv_CreatedAt a.2 < pv_CreatedAt b.2) l -> StronglySorted made_le l.
Proof.
  induction l as [|z l IH]; intros Hs; [constructor|]. apply StronglySorted_cons in Hs as [Hall Hs]. apply StronglySorted_cons. split; [|by apply IH].
  eapply Forall_impl; [exact Hall|]. intros x ?. unfold made_le. cbn in *. lia.
Qed.

Definition strictly_made (a b : string * ProviderRow) : Prop := pv_CreatedAt a.2 < pv_CreatedAt b.2.

(** No two providers of a workspace were made at the same time. *)
Definition made_apart (l : list (string * ProviderRow)) : Prop := forall x y, x ∈ l -> y ∈ l -> pv_CreatedAt x.2 = pv_CreatedAt y.2 -> x = y.

Definition of_workspace (ws : string) (m : gmap string ProviderRow) : list (string * ProviderRow) := List.filter (fun kr => (pv_Workspace kr.2 =? ws)%string) (map_to_list m).

Lemma in_of_workspace ws m id row : (id, row) ∈ of_workspace ws m <-> m !! id = Some row /\ pv_Workspace row = ws.
Proof. unfold of_workspace. rewrite list_elem_of_In, filter_In, <- list_elem_of_In, elem_of_map_to_list. cbn. by rewrite String.eqb_eq. Qed.

Lemma of_workspace_NoDup ws m : NoDup (of_workspace ws m).
Proof. apply NoDup_ListNoDup, List.NoDup_filter, NoDup_ListNoDup, NoDup_map_to_list. Qed.

(** Rows made apart are read in one order, whatever the map's. *)
Lemma read_order l l' : made_apart l' -> StronglySorted made_le l' -> l ≡ₚ l' -> merge_sort made_le l = l'.
Proof.
  intros Hap Hs Hperm. assert (Htot : Total made_le) by (intros x y; unfold made_le; lia). assert (Htr : Transitive made_le) by (intros x y z; unfold made_le; lia).
  apply (StronglySorted_unique_strong made_le).
  - intros x y Hx Hy Hxy Hyx. rewrite merge_sort_Permutation, Hperm in Hx. apply Hap; [done|done|]. unfold made_le in *. lia.
  - by apply StronglySorted_merge_sort.
  - done.
  - by rewrite merge_sort_Permutation.
Qed.

Lemma providers_sorted ws db : StronglySorted made_le (providers_of ws db).
Proof.
  assert (Htot : Total made_le) by (intros x y; unfold made_le; lia). assert (Htr : Transitive made_le) by (intros x y z; unfold made_le; lia).
  by apply StronglySorted_merge_sort.
Qed.

Lemma in_providers ws db id row : (id, row) ∈ providers_of ws db <-> providers (pool db) !! id = Some row /\ pv_Workspace row = ws.
Proof. unfold providers_of. rewrite merge_sort_Permutation. apply in_of_workspace. Qed.

Lemma elem_of_inserted_map at_ ws l (m : gmap string ProviderRow) id row : NoDup (map pr_ID l) -> (forall p, p ∈ l -> m !! pr_ID p = None) ->
  (list_to_map (inserted at_ ws l) ∪ m) !! id = Some row <-> (id, row) ∈ inserted at_ ws l \/ m !! id = Some row.
Proof.
  intros Hnd Hno. assert (Hnd' : NoDup (inserted at_ ws l).*1) by (change ((inserted at_ ws l).*1) with (map fst (inserted at_ ws l)); by rewrite inserted_ids).
  rewrite lookup_union_Some.
  - rewrite <- elem_of_list_to_map by done. done.
  - apply map_disjoint_spec. intros i x y Hx Hy. apply elem_of_list_to_map_2 in Hx. assert (Hi : i ∈ map fst (inserted at_ ws l)) by (apply list_elem_of_fmap; by exists (i, x)).
    rewrite inserted_ids in Hi. apply list_elem_of_fmap in Hi as (p & -> & Hp). by rewrite (Hno p Hp) in Hy.
Qed.

Lemma providers_read ws db l : made_apart l -> StronglySorted made_le l -> of_workspace ws (providers (pool db)) ≡ₚ l -> providers_of ws db = l.
Proof. apply read_order. Qed.

(** What was inserted is what is read, in that order. *)
Lemma providers_inserted at_ ws l (db : tier_db) : (forall i j, (i < j)%nat -> at_ i < at_ j) -> NoDup (map pr_ID l) -> providers_of ws db = [] ->
  (forall p, p ∈ l -> providers (pool db) !! pr_ID p = None) ->
  providers_of ws (with_pool (with_providers (list_to_map (inserted at_ ws l) ∪ providers (pool db)) (pool db)) db) = inserted at_ ws l.
Proof.
  intros Hat Hnd Hnone Hno. apply providers_read; [intros x y; by apply sorted_distinct, inserted_sorted|by apply strictly_sorted, inserted_sorted|].
  apply NoDup_Permutation; [apply of_workspace_NoDup| |].
  - apply (NoDup_fmap_1 fst). change ((inserted at_ ws l).*1) with (map fst (inserted at_ ws l)). by rewrite inserted_ids.
  - intros [id row]. cbn [pool with_pool providers with_providers]. rewrite in_of_workspace, (elem_of_inserted_map at_ ws l _ id row Hnd Hno). split.
    + intros [[?|Hin] E]; [done|]. assert (Hp : (id, row) ∈ providers_of ws db) by (by apply in_providers). rewrite Hnone in Hp. by apply elem_of_nil in Hp.
    + intros Hin. split; [by left|]. by destruct (inserted_at _ _ _ _ Hin).
Qed.

(** Another workspace's providers are read as they were. *)
Lemma providers_elsewhere at_ ws ws' l (db : tier_db) : ws <> ws' -> NoDup (map pr_ID l) -> (forall p, p ∈ l -> providers (pool db) !! pr_ID p = None) -> made_apart (providers_of ws' db) ->
  providers_of ws' (with_pool (with_providers (list_to_map (inserted at_ ws l) ∪ providers (pool db)) (pool db)) db) = providers_of ws' db.
Proof.
  intros Hne Hnd Hno Hap. apply providers_read; [done|apply providers_sorted|]. unfold providers_of. rewrite merge_sort_Permutation. fold (of_workspace ws' (providers (pool db))). apply NoDup_Permutation; [apply of_workspace_NoDup..|].
  intros [id row]. cbn [pool with_pool providers with_providers]. rewrite !in_of_workspace, (elem_of_inserted_map at_ ws l _ id row Hnd Hno). split.
  - intros [[Hin|?] E]; [|done]. destruct (inserted_at _ _ _ _ Hin) as [E' _]. cbn in E'. congruence.
  - intros [? ?]. split; [by right|done].
Qed.

(** ** What an upgrade makes *)

Lemma active_pool id d d' : pooled d = pooled d' -> active_of d id = active_of d' id.
Proof. intros E. unfold active_of. by rewrite E. Qed.

(** A provider as the upgrade makes it. *)
Definition fresh_record (ws : string) (p : ProviderRecord) : Prop :=
  pr_Workspace p = ws /\ pr_HasKey p = negb (pr_APIKey p =? "")%string /\ pr_AuthType p = providerAuthType (pr_Vendor p) /\ pr_AccountCount p = 0.

Definition ids_of (ids : three_ids) : list string := let '(f, l, p) := ids in [f; l; p].

Lemma legacy_tier_made id flashID ws flash t : let '(ps, _) := legacy_tier id flashID ws flash t in ps = [] \/ exists p, ps = [p] /\ pr_ID p = id /\ fresh_record ws p.
Proof. unfold legacy_tier. destruct (legacy_own flash t); [right; by eexists|]. destruct (_ && _); by left. Qed.

Lemma book_made ids ws leg : let ps := bk_Providers (ApplyLegacyProviders ids ws leg) in
  Forall (fresh_record ws) ps /\ map pr_ID ps `sublist_of` ids_of ids.
Proof.
  destruct ids as [[f l] p]. cbv zeta. unfold ApplyLegacyProviders. pose proof (legacy_tier_made l f ws (leg_Flash leg) (leg_Lite leg)) as Hl. pose proof (legacy_tier_made p f ws (leg_Flash leg) (leg_Pro leg)) as Hp.
  destruct (legacy_tier l f ws (leg_Flash leg) (leg_Lite leg)) as [ls lsel], (legacy_tier p f ws (leg_Flash leg) (leg_Pro leg)) as [ps psel]. destruct (has_flash (leg_Flash leg)); cbn [bk_Providers ids_of].
  all: destruct Hl as [->|(q & -> & <- & Hq)], Hp as [->|(r & -> & <- & Hr)]; cbn; (split; [repeat (apply Forall_cons; split; [done|]); by apply Forall_nil|]); repeat constructor.
Qed.

Lemma book_flash ids ws leg : has_flash (leg_Flash leg) = true -> bk_Providers (ApplyLegacyProviders ids ws leg) <> [].
Proof. destruct ids as [[f l] p]. unfold ApplyLegacyProviders. intros ->. by destruct (legacy_tier l _ _ _ _), (legacy_tier p _ _ _ _). Qed.

Lemma book_fallback ids ws leg : bk_Workspace (ApplyLegacyProviders ids ws leg) = ws /\ sel_ModelFallback (bk_Sel (ApplyLegacyProviders ids ws leg)) = leg_ModelFallback leg /\
  forall t, t ∈ three (bk_Sel (ApplyLegacyProviders ids ws leg)) -> t = pointing (ts_ProviderID t) (ts_Model t).
Proof.
  destruct ids as [[f l] p]. unfold ApplyLegacyProviders.
  assert (Ht : forall id t, (legacy_tier id f ws (leg_Flash leg) t).2 = pointing (ts_ProviderID (legacy_tier id f ws (leg_Flash leg) t).2) (ts_Model (legacy_tier id f ws (leg_Flash leg) t).2)).
  { intros id t. unfold legacy_tier. destruct (legacy_own _ _); [done|]. by destruct (_ && _). }
  pose proof (Ht l (leg_Lite leg)) as Hl. pose proof (Ht p (leg_Pro leg)) as Hp.
  destruct (legacy_tier l f ws (leg_Flash leg) (leg_Lite leg)) as [ls lsel], (legacy_tier p f ws (leg_Flash leg) (leg_Pro leg)) as [ps psel]. cbn [snd] in *.
  destruct (has_flash (leg_Flash leg)); (split_and!; [done..|]); intros t; unfold three; cbn; rewrite !elem_of_cons, elem_of_nil; intros [->|[->|[->|[]]]]; done.
Qed.

(** Read back, the inserted providers are the ones that were made. *)
Lemma inserted_loads opens (db : tier_db) ws l : forall at_, Forall (fresh_record ws) l ->
  (forall p, p ∈ l -> IsOAuthVendor (pr_Vendor p) = false /\ (pr_APIKey p <> "" -> opens (pr_APIKey p) = true) /\ active_of (pool db) (pr_ID p) = 0) ->
  collect (loaded_provider opens true db) (inserted at_ ws l) = Ok l.
Proof.
  induction l as [|p l IH]; intros at_ Hmade Hok; [done|]. cbn [inserted collect]. apply Forall_cons in Hmade as [Hp Hmade]. rewrite IH; [|done|intros q Hq; apply Hok; by right].
  destruct (Hok p) as (Ho & Hk & Ha); [left|]. destruct Hp as (E1 & E2 & E3 & E4). unfold loaded_provider. cbn. rewrite Ho, Ha. cbn. rewrite andb_true_r.
  destruct (String.eqb_spec (pr_APIKey p) "") as [E|Hne]; cbn; [|rewrite (Hk Hne); cbn]; destruct p; cbn in *; by subst.
Qed.

(** ** One workspace *)

Definition after_insert (at_ : nat -> Z) (ws : string) (l : list ProviderRecord) (db : tier_db) : tier_db :=
  with_pool (with_providers (list_to_map (inserted at_ ws l) ∪ providers (pool db)) (pool db)) db.

Definition unused (ids : three_ids) (db : tier_db) : Prop := NoDup (ids_of ids) /\ forall id, id ∈ ids_of ids -> providers (pool db) !! id = None.

Lemma book_unused ids ws leg db : unused ids db -> let l := bk_Providers (ApplyLegacyProviders ids ws leg) in
  NoDup (map pr_ID l) /\ (forall p, p ∈ l -> pr_ID p ∈ ids_of ids) /\ forall p, p ∈ l -> providers (pool db) !! pr_ID p = None.
Proof.
  intros [Hnd Hno]. cbv zeta. destruct (book_made ids ws leg) as [_ Hsub]. assert (Hin : forall p, p ∈ bk_Providers (ApplyLegacyProviders ids ws leg) -> pr_ID p ∈ ids_of ids).
  { intros p Hp. eapply elem_of_submseteq; [|by apply sublist_submseteq]. apply list_elem_of_fmap. by exists p. }
  split_and!; [by eapply sublist_NoDup|done|auto].
Qed.

Lemma upgraded_db at_ ids ws leg db db' : insertLegacyAsProviders at_ ids ws leg db = (db', Ok tt) -> unused ids db ->
  db' = point_row ws (bk_Sel (ApplyLegacyProviders ids ws leg)) (after_insert at_ ws (bk_Providers (ApplyLegacyProviders ids ws leg)) db).
Proof.
  intros Hi Hu. destruct (book_unused ids ws leg db Hu) as (Hnd & _ & Hno). unfold insertLegacyAsProviders in Hi. destruct (insert_providers _ _ _ _) as [d [[]|e]] eqn:E; [|done].
  injection Hi as <-. by rewrite (insert_providers_ok _ _ _ _ _ E Hnd Hno).
Qed.

Lemma point_row_pool ws sel db : providers (pool (point_row ws sel db)) = providers (pool db) /\ pooled (pool (point_row ws sel db)) = pooled (pool db).
Proof. unfold point_row. by destruct (rows db !! ws). Qed.

Lemma point_row_elsewhere ws ws' sel db : ws <> ws' -> rows (point_row ws sel db) !! ws' = rows db !! ws' /\ refs_of ws' (point_row ws sel db) = refs_of ws' db.
Proof.
  intros Hne. unfold refs_of, point_row. destruct (rows db !! ws); [|done]. cbn. by rewrite !lookup_insert_ne.
Qed.

Lemma collect_ext {A B} (f g : A -> result error B) l : (forall x, f x = g x) -> collect f l = collect g l.
Proof. intros E. induction l as [|x l IH]; [done|]. cbn. by rewrite E, IH. Qed.

Lemma loads_pooled opens decrypt db db' kr : pooled (pool db) = pooled (pool db') -> loaded_provider opens decrypt db kr = loaded_provider opens decrypt db' kr.
Proof. intros E. unfold loaded_provider. by rewrite (active_pool kr.1 (pool db) (pool db')). Qed.

(** What a load of a workspace reads. *)
Lemma load_frame opens ids decrypt ws db db' : providers_of ws db = providers_of ws db' -> pooled (pool db) = pooled (pool db') -> rows db !! ws = rows db' !! ws ->
  refs_of ws db = refs_of ws db' -> loadBook opens ids decrypt ws db = loadBook opens ids decrypt ws db'.
Proof.
  intros Ep Ea Er Et. unfold loadBook, readLegacyTierRow, loaded_selection. rewrite <- Ep, <- Er, <- Et. by rewrite (collect_ext _ _ _ (fun kr => loads_pooled opens decrypt db db' kr Ea)).
Qed.

Lemma upgrade_elsewhere at_ ids ws ws' leg db db' : ws <> ws' -> insertLegacyAsProviders at_ ids ws leg db = (db', Ok tt) -> unused ids db -> made_apart (providers_of ws' db) ->
  providers_of ws' db' = providers_of ws' db /\ pooled (pool db') = pooled (pool db) /\ rows db' !! ws' = rows db !! ws' /\ refs_of ws' db' = refs_of ws' db.
Proof.
  intros Hne Hi Hu Hap. rewrite (upgraded_db _ _ _ _ _ _ Hi Hu). destruct (book_unused ids ws leg db Hu) as (Hnd & _ & Hno).
  destruct (point_row_pool ws (bk_Sel (ApplyLegacyProviders ids ws leg)) (after_insert at_ ws (bk_Providers (ApplyLegacyProviders ids ws leg)) db)) as [Ep Ea].
  destruct (point_row_elsewhere ws ws' (bk_Sel (ApplyLegacyProviders ids ws leg)) (after_insert at_ ws (bk_Providers (ApplyLegacyProviders ids ws leg)) db) Hne) as [Er Et].
  rewrite Ea, Er, Et. split_and!; [|done..]. rewrite <- (providers_elsewhere at_ ws ws' (bk_Providers (ApplyLegacyProviders ids ws leg)) db Hne Hnd Hno Hap). unfold providers_of at 1. by rewrite Ep.
Qed.

(** A row as it was before there were providers: the columns added with them are at their
    defaults, its keys decrypt, it has a flash tier, and none of its tiers is of a vendor whose
    accounts sign in. *)
Record plain (opens : string -> bool) (ids : three_ids) (ws : string) (r : TierRow) (db : tier_db) : Prop := {
  pl_flash : has_flash (co_Legacy (tr_Flash r)) = true;
  pl_columns : forall c, c ∈ [tr_Flash r; tr_Lite r; tr_Pro r] ->
    co_Window c = 0 /\ co_FallbackModel c = "" /\ caps_stored (co_Caps c) = no_caps /\ caps_stored (co_FallbackCaps c) = no_caps /\
    (lt_Key (co_Legacy c) <> "" -> opens (lt_Key (co_Legacy c)) = true);
  pl_fallbacks : drop 3 (refs_of ws db) = ["";"";""];
  pl_book : forall p, p ∈ bk_Providers (ApplyLegacyProviders ids ws (as_stored r)) ->
    IsOAuthVendor (pr_Vendor p) = false /\ (pr_APIKey p <> "" -> opens (pr_APIKey p) = true) /\ active_of (pool db) (pr_ID p) = 0;
}.

Lemma plain_reads opens ids ws r db : rows db !! ws = Some r -> upgradable db (ws, r) = true -> plain opens ids ws r db ->
  providers_of ws db = [] /\ loadBook opens ids true ws db = Ok (ApplyLegacyProviders ids ws (as_stored r)).
Proof.
  intros Hr Hup [_ Hc _ _]. unfold upgradable in Hup. cbn [fst snd] in Hup. unfold loadBook. destruct (providers_of ws db); [|done]. split; [done|]. cbn [collect].
  assert (Hk : forall c, c ∈ [tr_Flash r; tr_Lite r; tr_Pro r] -> legacy_columns opens true c = co_Legacy c).
  { intros c Hin. destruct (Hc c Hin) as (_ & _ & _ & _ & Ho). unfold legacy_columns. destruct (co_Legacy c) as [v m u k]; cbn in *. f_equal.
    destruct (String.eqb_spec k "") as [->|Hne]; [done|]. by rewrite (Ho Hne). }
  unfold readLegacyTierRow. rewrite Hr, !Hk by (rewrite !elem_of_cons; auto). cbn [negb]. cbn in Hup |- *.
  destruct (lt_Provider _ =? "")%string, (lt_Model _ =? "")%string, (lt_Key _ =? "")%string, (lt_Model (co_Legacy (tr_Lite r)) =? "")%string, (lt_Model (co_Legacy (tr_Pro r)) =? "")%string; done.
Qed.

Lemma remodelled c t : t = pointing (ts_ProviderID t) (ts_Model t) -> co_Window c = 0 /\ co_FallbackModel c = "" /\ caps_stored (co_Caps c) = no_caps /\ caps_stored (co_FallbackCaps c) = no_caps ->
  loaded_tier {| co_Legacy := {| lt_Provider := lt_Provider (co_Legacy c); lt_Model := ts_Model t; lt_BaseURL := lt_BaseURL (co_Legacy c); lt_Key := lt_Key (co_Legacy c) |};
                 co_Window := co_Window c; co_FallbackModel := co_FallbackModel c; co_Caps := co_Caps c; co_FallbackCaps := co_FallbackCaps c |} (ts_ProviderID t) "" = t.
Proof. intros Ht (E1 & E2 & E3 & E4). unfold loaded_tier. cbn. rewrite E1, E2, E3, E4. by rewrite Ht at 3. Qed.

Lemma pointed_refs ws sel db r : rows db !! ws = Some r -> refs_of ws (point_row ws sel db) = map ts_ProviderID (three sel) ++ drop 3 (refs_of ws db).
Proof. intros Hr. unfold point_row. rewrite Hr. unfold refs_of at 1. cbn [pool tiers with_tiers]. by rewrite lookup_insert_eq. Qed.

Lemma upgraded_selection at_ opens ids ws r db : rows db !! ws = Some r -> plain opens ids ws r db -> let b := ApplyLegacyProviders ids ws (as_stored r) in
  loaded_selection ws (point_row ws (bk_Sel b) (after_insert at_ ws (bk_Providers b) db)) = bk_Sel b.
Proof.
  intros Hr [_ Hc Hd _]. cbv zeta. destruct (book_fallback ids ws (as_stored r)) as (_ & Hm & Ht). set (b := ApplyLegacyProviders ids ws (as_stored r)) in *.
  unfold loaded_selection. rewrite (pointed_refs _ _ _ _ (Hr : rows (after_insert at_ ws (bk_Providers b) db) !! ws = Some r)).
  change (refs_of ws (after_insert at_ ws (bk_Providers b) db)) with (refs_of ws db). rewrite Hd. unfold point_row. cbn [rows after_insert with_pool]. rewrite Hr. cbn [rows]. rewrite lookup_insert_eq. cbn.
  rewrite !remodelled; try (apply Ht; unfold three; rewrite !elem_of_cons; auto).
  - destruct (bk_Sel b). cbn in Hm. by rewrite Hm.
  - destruct (Hc (tr_Pro r)) as (? & ? & ? & ? & _); [rewrite !elem_of_cons; auto|done].
  - destruct (Hc (tr_Lite r)) as (? & ? & ? & ? & _); [rewrite !elem_of_cons; auto|done].
  - destruct (Hc (tr_Flash r)) as (? & ? & ? & ? & _); [rewrite !elem_of_cons; auto|done].
Qed.

Lemma inserted_nil at_ ws l : inserted at_ ws l = [] -> l = [].
Proof. by destruct l. Qed.

(** The upgraded workspace loads the book its old row stood for. *)
Lemma upgrade_loads at_ opens ids ids' ws r db db' : (forall i j, (i < j)%nat -> at_ i < at_ j) -> rows db !! ws = Some r -> upgradable db (ws, r) = true -> plain opens ids ws r db ->
  unused ids db -> insertLegacyAsProviders at_ ids ws (as_stored r) db = (db', Ok tt) ->
  providers_of ws db' <> [] /\ made_apart (providers_of ws db') /\ loadBook opens ids' true ws db' = loadBook opens ids true ws db.
Proof.
  intros Hat Hr Hup Hpl Hu Hi. destruct (plain_reads _ _ _ _ _ Hr Hup Hpl) as [Hnone ->]. pose proof (upgraded_selection at_ opens ids ws r db Hr Hpl) as Hsel. cbv zeta in Hsel.
  destruct (book_unused ids ws (as_stored r) db Hu) as (Hnd & _ & Hno). destruct (book_made ids ws (as_stored r)) as [Hmade _]. destruct (book_fallback ids ws (as_stored r)) as (Hbw & _ & _).
  pose proof (book_flash ids ws (as_stored r) (pl_flash _ _ _ _ _ Hpl)) as Hne. rewrite (upgraded_db _ _ _ _ _ _ Hi Hu). set (b := ApplyLegacyProviders ids ws (as_stored r)) in *.
  destruct (point_row_pool ws (bk_Sel b) (after_insert at_ ws (bk_Providers b) db)) as [Ep Ea].
  assert (Hread : providers_of ws (point_row ws (bk_Sel b) (after_insert at_ ws (bk_Providers b) db)) = inserted at_ ws (bk_Providers b)).
  { rewrite <- (providers_inserted at_ ws (bk_Providers b) db Hat Hnd Hnone Hno). unfold providers_of at 1. by rewrite Ep. }
  rewrite Hread. split_and!; [by intros ?%inserted_nil|intros x y; by apply sorted_distinct, inserted_sorted|]. unfold loadBook. rewrite Hread, (collect_ext _ (loaded_provider opens true db)).
  2: { intros kr. by apply loads_pooled. }
  rewrite (inserted_loads _ _ _ _ _ Hmade (pl_book _ _ _ _ _ Hpl)). rewrite Hsel. destruct (bk_Providers b) eqn:E; [done|]. rewrite <- E. by destruct b; cbn in *; subst.
Qed.

(** ** All of them *)

Lemma same_run host opens ids ids' ws db db' : loadBook opens ids' true ws db' = loadBook opens ids true ws db -> WorkspaceTiersForRun host opens ids' ws db' = WorkspaceTiersForRun host opens ids ws db.
Proof. intros E. unfold WorkspaceTiersForRun. by rewrite E. Qed.

Lemma later_unused at_ ids ids' ws leg db db' : insertLegacyAsProviders at_ ids ws leg db = (db', Ok tt) -> unused ids db -> unused ids' db -> (forall id, id ∈ ids_of ids -> id ∈ ids_of ids' -> False) ->
  unused ids' db'.
Proof.
  intros Hi Hu [Hnd Hno] Hdis. split; [done|]. intros id Hid. rewrite (upgraded_db _ _ _ _ _ _ Hi Hu). destruct (book_unused ids ws leg db Hu) as (Hnd' & Hin & Hno').
  destruct (point_row_pool ws (bk_Sel (ApplyLegacyProviders ids ws leg)) (after_insert at_ ws (bk_Providers (ApplyLegacyProviders ids ws leg)) db)) as [-> _]. cbn.
  apply eq_None_not_Some. intros [row Hrow]. apply (elem_of_inserted_map at_ ws _ _ id row Hnd' Hno') in Hrow as [Hrow|Hrow]; [|by rewrite (Hno id Hid) in Hrow].
  assert (Hi' : id ∈ map fst (inserted at_ ws (bk_Providers (ApplyLegacyProviders ids ws leg)))) by (apply list_elem_of_fmap; by exists (id, row)).
  rewrite inserted_ids in Hi'. apply list_elem_of_fmap in Hi' as (p & -> & Hp). exact (Hdis _ (Hin _ Hp) Hid).
Qed.

Section All.
#[local] Set Default Proof Using "Type*".
Context (at_ : string -> nat -> Z) (fresh : string -> three_ids).

(** Ids that nothing has and no two workspaces share, made one after the other. *)
Definition fresh_for (ws : list string) (db : tier_db) : Prop :=
  (forall w, w ∈ ws -> unused (fresh w) db /\ forall i j, (i < j)%nat -> at_ w i < at_ w j) /\
  forall w w' id, w ∈ ws -> w' ∈ ws -> w <> w' -> id ∈ ids_of (fresh w) -> id ∈ ids_of (fresh w') -> False.

Lemma fresh_later w r ws db db' : w ∉ ws -> fresh_for (w :: ws) db -> insertLegacyAsProviders (at_ w) (fresh w) w (as_stored r) db = (db', Ok tt) -> fresh_for ws db'.
Proof.
  intros Hw [Hu Hdis] Hi. split; [|intros ? ? ? ? ?; apply Hdis; by right]. intros w' Hw'. destruct (Hu w) as [Huw _]; [left|]. destruct (Hu w') as [Huw' ?]; [by right|]. split; [|done].
  apply (later_unused _ _ _ _ _ _ _ Hi Huw Huw'). intros id. apply Hdis; [left|by right|]. intros ->. done.
Qed.

Lemma upgrade_all_cons w r l db db' : upgrade_all at_ fresh ((w, r) :: l) db = (db', Ok tt) ->
  exists d, insertLegacyAsProviders (at_ w) (fresh w) w (as_stored r) db = (d, Ok tt) /\ upgrade_all at_ fresh l d = (db', Ok tt).
Proof. cbn [upgrade_all]. destruct (insertLegacyAsProviders _ _ _ _ _) as [d [[]|e]]; [|done]. intros ?. by exists d. Qed.

Lemma untouched ws l : forall db db', upgrade_all at_ fresh l db = (db', Ok tt) -> NoDup (map fst l) -> fresh_for (map fst l) db -> ws ∉ map fst l -> made_apart (providers_of ws db) ->
  providers_of ws db' = providers_of ws db /\ pooled (pool db') = pooled (pool db) /\ rows db' !! ws = rows db !! ws /\ refs_of ws db' = refs_of ws db.
Proof.
  induction l as [|[w r] l IH]; intros db db' Hall Hnd Hf Hws Hap; [injection Hall as <-; by split_and!|]. apply upgrade_all_cons in Hall as (d & Hi & Hall).
  cbn [map fst] in *. apply NoDup_cons in Hnd as [Hw Hnd]. apply not_elem_of_cons in Hws as [Hne Hws]. pose proof Hf as [Hu _].
  destruct (upgrade_elsewhere _ _ w ws _ _ _ (not_eq_sym Hne) Hi (proj1 (Hu w (list_elem_of_here _ _))) Hap) as (E1 & E2 & E3 & E4).
  rewrite <- E1, <- E2, <- E3, <- E4. apply IH; [done|done|exact (fresh_later _ _ _ _ _ Hw Hf Hi)|done|by rewrite E1].
Qed.

Lemma upgraded opens ids' ws r l : forall db db', upgrade_all at_ fresh l db = (db', Ok tt) -> NoDup (map fst l) -> fresh_for (map fst l) db -> (ws, r) ∈ l ->
  rows db !! ws = Some r -> upgradable db (ws, r) = true -> plain opens (fresh ws) ws r db ->
  loadBook opens ids' true ws db' = loadBook opens (fresh ws) true ws db.
Proof.
  induction l as [|[w r'] l IH]; intros db db' Hall Hnd Hf Hin Hr Hup Hpl; [by apply elem_of_nil in Hin|]. apply upgrade_all_cons in Hall as (d & Hi & Hall).
  cbn [map fst] in *. apply NoDup_cons in Hnd as [Hw Hnd]. pose proof (fresh_later _ _ _ _ _ Hw Hf Hi) as Hf'. destruct Hf as [Hu _]. destruct (Hu w (list_elem_of_here _ _)) as [Huw Hat].
  destruct (decide (w = ws)) as [->|Hne].
  - assert (r' = r) as ->. { apply elem_of_cons in Hin as [E|Hin]; [by injection E|]. destruct Hw. apply list_elem_of_fmap. by exists (ws, r). }
    destruct (upgrade_loads _ opens _ ids' _ _ _ _ Hat Hr Hup Hpl Huw Hi) as (_ & Hap & Hload). rewrite <- Hload. destruct (untouched ws l _ _ Hall Hnd Hf' Hw Hap) as (E1 & E2 & E3 & E4). by apply load_frame.
  - assert (Hin' : (ws, r) ∈ l) by (by apply elem_of_cons in Hin as [[= <- _]|?]). destruct (plain_reads _ _ _ _ _ Hr Hup Hpl) as [Hnone _].
    assert (Hap : made_apart (providers_of ws db)) by (rewrite Hnone; intros x y Hx; by apply elem_of_nil in Hx).
    destruct (upgrade_elsewhere _ _ _ _ _ _ _ Hne Hi Huw Hap) as (E1 & E2 & E3 & E4). rewrite <- (load_frame opens (fresh ws) true ws d db E1 E2 E3 E4).
    apply IH; [done|done|done|done|by rewrite E3| |].
    + revert Hup. unfold upgradable. cbn [fst snd]. by rewrite E1.
    + destruct Hpl as [H1' H2' H3' H4']. constructor; [done|done|by rewrite E4|]. intros p Hp. destruct (H4' p Hp) as (? & ? & Ha). split_and!; [done|done|]. rewrite <- Ha. by apply active_pool.
Qed.
End All.

Lemma settled_loads opens ids ids' ws db : (forall r, rows db !! ws = Some r -> upgradable db (ws, r) = false) -> loadBook opens ids true ws db = loadBook opens ids' true ws db.
Proof.
  intros Hno. unfold loadBook. destruct (providers_of ws db) as [|kr l] eqn:E.
  - cbn [collect]. unfold readLegacyTierRow. destruct (rows db !! ws) as [r|] eqn:Hr; [|done]. specialize (Hno r eq_refl). unfold upgradable in Hno. cbn [fst snd] in Hno. rewrite E in Hno.
    cbn in Hno |- *. destruct (String.eqb_spec (lt_Key (co_Legacy (tr_Flash r))) ""); [|done]. destruct (lt_Model (co_Legacy (tr_Flash r)) =? "")%string, (lt_Provider (co_Legacy (tr_Flash r)) =? "")%string,
      (lt_Model (co_Legacy (tr_Lite r)) =? "")%string, (lt_Model (co_Legacy (tr_Pro r)) =? "")%string; done.
  - cbn [collect]. destruct (loaded_provider _ _ _ _); [|done]. by destruct (collect _ l).
Qed.

Lemma pending_rows db : NoDup (map fst (List.filter (upgradable db) (map_to_list (rows db)))) /\
  forall ws r, (ws, r) ∈ List.filter (upgradable db) (map_to_list (rows db)) <-> rows db !! ws = Some r /\ upgradable db (ws, r) = true.
Proof.
  split; [|intros ws r; by rewrite list_elem_of_In, filter_In, <- list_elem_of_In, elem_of_map_to_list]. apply (sublist_NoDup _ _ (NoDup_fst_map_to_list (rows db))).
  induction (map_to_list (rows db)) as [|x l IH]; [done|]. cbn. destruct (upgradable db x); [by apply sublist_skip|by apply sublist_cons].
Qed.

(** C38: the upgrade at boot, which turns every row from before there were providers into
    providers and points the row at them, changes nothing of what a workspace's runs resolve,
    its tiers, routes, keys and refusals, where the workspace is not upgraded or its old row is
    [plain]: a flash tier is set, every key of the row decrypts, no tier is of a vendor that
    signs in, and the columns that came with the providers (windows, capabilities, fallbacks)
    are at their defaults.  The ids it draws are new and the workspace's own providers were made
    at different times, so that their order is determined.  After it the resolution no longer
    depends on ids drawn at every load.  With a key that does not decrypt the runs change: the
    old row is read without that key, and the provider made of it fails every load. *)
Theorem backfill_keeps_the_runs host opens at_ fresh ws ids' db db' : backfillWorkspaceProviders at_ fresh db = (db', Ok tt) ->
  fresh_for at_ fresh (map fst (map_to_list (rows db))) db -> made_apart (providers_of ws db) ->
  (forall r, rows db !! ws = Some r -> upgradable db (ws, r) = true -> plain opens (fresh ws) ws r db) ->
  WorkspaceTiersForRun host opens ids' ws db' = WorkspaceTiersForRun host opens (fresh ws) ws db.
Proof.
  intros Hall [Hu Hdis] Hap Hpl. apply same_run. unfold backfillWorkspaceProviders in Hall. destruct (pending_rows db) as [Hnd Hpend].
  set (l := List.filter (upgradable db) (map_to_list (rows db))) in *.
  assert (Hsub : forall w, w ∈ map fst l -> w ∈ map fst (map_to_list (rows db))).
  { intros w Hw. apply list_elem_of_fmap in Hw as ([w' r] & -> & Hw). apply Hpend in Hw as [Hw _]. apply list_elem_of_fmap. exists (w', r). split; [done|by apply elem_of_map_to_list]. }
  assert (Hf : fresh_for at_ fresh (map fst l) db) by (split; eauto).
  destruct (decide (ws ∈ map fst l)) as [Hin|Hout].
  - apply list_elem_of_fmap in Hin as ([w r] & E & Hin). cbn in E. subst w. pose proof Hin as [Hr Hup]%Hpend. apply (upgraded at_ fresh opens ids' ws r l); auto.
  - destruct (untouched at_ fresh ws l _ _ Hall Hnd Hf Hout Hap) as (E1 & E2 & E3 & E4). rewrite (load_frame _ _ _ _ _ _ E1 E2 E3 E4). apply settled_loads.
    intros r Hr. destruct (upgradable db (ws, r)) eqn:Hup; [|done]. destruct Hout. apply list_elem_of_fmap. exists (ws, r). split; [done|by apply Hpend].
Qed.

(** ** Saving *)

(** A selection as it is stored: its capabilities as they are encoded. *)
Definition stored_tier (t : TierSelection) : TierSelection :=
  {| ts_ProviderID := ts_ProviderID t; ts_Model := ts_Model t; ts_ContextWindow := ts_ContextWindow t; ts_Capabilities := caps_stored (ts_Capabilities t);
     ts_FallbackModel := ts_FallbackModel t; ts_FallbackProviderID := ts_FallbackProviderID t; ts_FallbackCapabilities := caps_stored (ts_FallbackCapabilities t) |}.

Definition stored (s : WorkspaceTierSelection) : WorkspaceTierSelection :=
  {| sel_Flash := stored_tier (sel_Flash s); sel_Lite := stored_tier (sel_Lite s); sel_Pro := stored_tier (sel_Pro s); sel_ModelFallback := sel_ModelFallback s |}.

Lemma collect_in {A B} (f : A -> result error B) l ys y : collect f l = Ok ys -> y ∈ ys -> exists x, x ∈ l /\ f x = Ok y.
Proof.
  revert ys. induction l as [|x l IH]; intros ys; cbn; [intros [= <-] Hy; by apply elem_of_nil in Hy|]. destruct (f x) as [z|] eqn:Hx; [|done]. destruct (collect f l) as [zs|]; [|done].
  intros [= <-] Hy. apply elem_of_cons in Hy as [->|Hy]; [exists x; split; [left|done]|]. destruct (IH _ eq_refl Hy) as (x' & ? & ?). exists x'. split; [by right|done].
Qed.

Lemma collect_all {A B} (f : A -> result error B) l ys x : collect f l = Ok ys -> x ∈ l -> exists y, y ∈ ys /\ f x = Ok y.
Proof.
  revert ys. induction l as [|z l IH]; intros ys; cbn; [intros _ Hx; by apply elem_of_nil in Hx|]. destruct (f z) as [y|] eqn:Hz; [|done]. destruct (collect f l) as [zs|]; [|done].
  intros [= <-] Hx. apply elem_of_cons in Hx as [->|Hx]; [exists y; split; [left|done]|]. destruct (IH _ eq_refl Hx) as (y' & ? & ?). exists y'. split; [by right|done].
Qed.

(** A book with providers is the workspace's providers and its row. *)
Lemma loaded_book opens ids decrypt ws db b : loadBook opens ids decrypt ws db = Ok b -> providers_of ws db <> [] ->
  collect (loaded_provider opens decrypt db) (providers_of ws db) = Ok (bk_Providers b) /\ bk_Providers b <> [] /\ bk_Workspace b = ws.
Proof.
  unfold loadBook. intros Hb Hne. destruct (collect _ _) as [[|p ps]|] eqn:E; [|injection Hb as <-; by split_and!|done]. destruct Hne. destruct (providers_of ws db) as [|kr l]; [done|].
  cbn in E. destruct (loaded_provider _ _ _ _); [|done]. by destruct (collect _ l).
Qed.

(** A selection that a book admits names nothing but the book's providers. *)
Lemma admitted_references sel b b' : SetTiers sel b = Ok b' -> bk_Sel b' = sel /\ forall id, id ∈ references sel -> id = "" \/ exists p, p ∈ bk_Providers b /\ pr_ID p = id.
Proof.
  unfold SetTiers. destruct (existsb _ (references sel)) eqn:He; [done|]. destruct (existsb _ (three sel)); [done|]. destruct (existsb _ (map _ _ ++ _)); [done|]. intros E. injection E as <-. split; [done|]. intros id Hid.
  destruct (String.eqb_spec id "") as [|Hne]; [by left|right]. destruct (byID (bk_Providers b) !! id) as [p|] eqn:Hk; [exists p; by apply byID_in|].
  exfalso. assert (Ht : existsb (fun id => negb (id =? "")%string && negb (is_some (byID (bk_Providers b) !! id))) (references sel) = true); [|congruence].
  apply existsb_exists. exists id. split; [by apply list_elem_of_In|]. rewrite Hk. by rewrite (proj2 (String.eqb_neq id "") Hne).
Qed.

Lemma canonical_refs l : (forall id, id ∈ l -> id = "" \/ pg_key id = Some id) -> mapM uuid_or_null l = Some l.
Proof.
  induction l as [|id l IH]; intros Hl; [done|]. cbn [mapM]. assert (E : uuid_or_null id = Some id).
  { unfold uuid_or_null. destruct (String.eqb_spec id "") as [->|Hne]; [done|]. by destruct (Hl id) as [?|?]; [left| |]. }
  rewrite E. cbn. rewrite IH; [done|]. intros x Hx. apply Hl. by right.
Qed.

Lemma six (sel : WorkspaceTierSelection) : references sel =
  [ts_ProviderID (sel_Flash sel); ts_ProviderID (sel_Lite sel); ts_ProviderID (sel_Pro sel); ts_FallbackProviderID (sel_Flash sel); ts_FallbackProviderID (sel_Lite sel);
   ts_FallbackProviderID (sel_Pro sel)].
Proof. done. Qed.

(** What the statement leaves of a selection it takes. *)
Lemma save_writes opens ids others ws sel db db' : saveTierSelection opens ids others ws sel db = (db', Ok tt) -> mapM uuid_or_null (references sel) = Some (references sel) ->
  providers_of ws db' = providers_of ws (others db) /\ pooled (pool db') = pooled (pool (others db)) /\ refs_of ws db' = references sel /\ is_Some (rows db' !! ws) /\
  loaded_selection ws db' = stored sel.
Proof.
  intros Hs Hrefs. unfold saveTierSelection in Hs. destruct (loadBook _ _ _ _ _) as [b|]; [|done]. destruct (denorm _ (ts_ProviderID (sel_Flash sel))) as [fv fb].
  destruct (denorm _ (ts_ProviderID (sel_Lite sel))) as [lv lb], (denorm _ (ts_ProviderID (sel_Pro sel))) as [pv pb]. rewrite Hrefs in Hs. destruct (negb (selection_fits _ _)); [done|]. injection Hs as <-.
  assert (Hr : forall d, refs_of ws {| pool := with_tiers (<[ws:=references sel]> (tiers (pool (others db)))) (pool (others db)); rows := d |} = references sel) by (intros d; unfold refs_of; cbn; by rewrite lookup_insert_eq).
  split_and!; [done|done|apply Hr|cbn; by rewrite lookup_insert_eq|]. unfold loaded_selection. rewrite Hr. cbn [rows]. rewrite lookup_insert_eq, six. done.
Qed.

(** A load of a workspace with providers reads the selection of its row. *)
Lemma load_selection opens ids decrypt ws db b : loadBook opens ids decrypt ws db = Ok b -> providers_of ws db <> [] -> bk_Sel b = loaded_selection ws db.
Proof.
  unfold loadBook. intros Hb Hne. destruct (collect _ _) as [[|p ps]|] eqn:E; [|by injection Hb as <-|done]. destruct Hne. destruct (providers_of ws db) as [|kr l]; [done|].
  cbn in E. destruct (loaded_provider _ _ _ _); [|done]. by destruct (collect _ l).
Qed.

(** The tiers of a workspace are as they were. *)
Definition same_tiers (ws : string) (db db' : tier_db) : Prop := rows db' !! ws = rows db !! ws /\ refs_of ws db' = refs_of ws db.

Lemma same_selection ws db db' : same_tiers ws db db' -> loaded_selection ws db' = loaded_selection ws db.
Proof. intros [Er Et]. unfold loaded_selection. by rewrite Er, Et. Qed.

(** C39: a selection that is accepted is the one that is stored and read: from the statement
    that wrote it on, and until the tiers of the workspace are written again, every load of a
    workspace that has providers reads the selection, tier by tier with its model, window,
    fallback and encoded capabilities; the load right after it reads it beside the providers
    and keys that were there; and each provider it names was one of the workspace's when the
    selection was checked.  [others] acts between any two calls, so one that was checked may be
    gone when the statement comes.  Of a workspace without providers this is not true: there
    the load takes the row for one from before there were providers. *)
Theorem saved_selection_is_loaded host opens draw others user ws sel db db' cfg :
  SaveWorkspaceTierSelection host opens draw others user ws sel db = (db', Ok cfg) ->
  let checked := others 0%nat db in let before := others 2%nat (others 1%nat checked) in
  providers_of ws checked <> [] -> (forall id row, providers (pool checked) !! id = Some row -> pg_key id = Some id) ->
  exists written, db' = others 4%nat (tiers_audited ws user (others 3%nat written)) /\
    (forall ids ids' decrypt b, providers_of ws before <> [] -> loadBook opens ids decrypt ws before = Ok b ->
       loadBook opens ids' decrypt ws written = Ok {| bk_Workspace := ws; bk_Providers := bk_Providers b; bk_Sel := stored sel |}) /\
    (forall later ids decrypt b, same_tiers ws written later -> providers_of ws later <> [] -> loadBook opens ids decrypt ws later = Ok b -> bk_Sel b = stored sel) /\
    forall id, id ∈ references (stored sel) -> id = "" \/ exists row, (id, row) ∈ providers_of ws checked.
Proof.
  intros Hs checked before Hne Hcanon. unfold SaveWorkspaceTierSelection in Hs. destruct (negb _); [done|]. fold checked in Hs.
  destruct (loadBook opens (draw 0%nat) false ws checked) as [b0|] eqn:Hb0; [|done]. destruct (SetTiers sel b0) as [b1|] eqn:Hset; [|done]. destruct (admitted_references _ _ _ Hset) as [Esel Hrefs].
  rewrite Esel in Hs. destruct (saveTierSelection _ _ _ _ _ _) as [d [[]|]] eqn:Hsave; [|done]. injection Hs as <- _. destruct (loaded_book _ _ _ _ _ _ Hb0 Hne) as (Hcol0 & _ & _).
  assert (Hrow : forall id, id ∈ references sel -> id = "" \/ exists row, (id, row) ∈ providers_of ws checked).
  { intros id Hin. destruct (Hrefs id Hin) as [?|(p & Hp & <-)]; [by left|right]. destruct (collect_in _ _ _ _ Hcol0 Hp) as ([k row] & Hkr & Hl). exists row.
    unfold loaded_provider in Hl. destruct (_ && negb _); [done|]. by injection Hl as <-. }
  assert (Hm : mapM uuid_or_null (references sel) = Some (references sel)).
  { apply canonical_refs. intros id Hin. destruct (Hrow id Hin) as [?|[row Hr]]; [by left|right]. apply in_providers in Hr as [Hr _]. by apply (Hcanon id row). }
  destruct (save_writes _ _ _ _ _ _ _ Hsave Hm) as (E1 & E2 & E3 & _ & E4). fold before in E1, E2. exists d. split_and!; [done| | |exact Hrow].
  - intros ids ids' decrypt b Hbefore Hb. destruct (loaded_book _ _ _ _ _ _ Hb Hbefore) as (Hcol & Hps & _). unfold loadBook.
    rewrite E1, E4, (collect_ext _ (loaded_provider opens decrypt before)), Hcol; [by destruct (bk_Providers b)|]. intros kr. by apply loads_pooled.
  - intros later ids decrypt b Hsame Hlater Hb. by rewrite (load_selection _ _ _ _ _ _ Hb Hlater), (same_selection _ _ _ Hsame).
Qed.
End Upgrade.
