(* ===== verification/TierExamples.v ===== *)
(** * TierExamples: model tiers at work

    Two workspaces, one with providers and one from before there were any, and a host with a
    key to lend.  The theorems of [TierCustody] and [TierUpgrade] there, and what the code does
    in a few corners. *)

From S2P Require Import Prelude GoStrings GoTime Operations Principals Persons Accounts ProviderAccounts ModelTiers TierResolution TierCustody TierUpgrade.
Import String.
Open Scope string_scope.
Open Scope list_scope.
Open Scope Z_scope.

(** The vendors by their names, uuids as text in one case, columns as wide as declared. *)
#[local] Instance tier_vendors : Vendors := {|
  NormalizeVendor v := trim_space v; NormalizeOAuthVendor v := v; IsOAuthVendor v := (v =? "claude-code")%string; APIKeyOptional v := (v =? "ollama")%string;
  VendorOpenAIResponses := "openai-responses"; VendorClaudeCode := "claude-code"; VendorOpenAICodex := "openai-codex";
  VendorGoogleAntigravity := "google-antigravity"; VendorDevin := "devin" |}.
#[local] Instance tier_columns : PoolColumns := {|
  pg_key s := if (s =? "")%string then None else if (s =? "P1")%string then Some "p1" else Some s; fits_in n s := (String.length s <=? n)%nat |}.
#[local] Instance tier_models : ModelParts := {|
  Caps := bool; no_caps := false; caps_Validate _ := None; caps_stored c := c; caps_stateful c := c; ContextWindowFor _ _ := 128000; OAuthPoolKey := "pool" |}.

Definition tier_book : DB :=
  {| users := {["ann" := "ann@x"]}; members := {[("ws", "ann") := "owner"; ("old", "ann") := "owner"; ("bare", "ann") := "owner"]}; workspaces := {["ws"; "old"; "bare"]};
     projects := ∅; credentials := ∅; sessions := ∅; audit := []; demo_workspace := ""; demo_project := "" |}.

Definition tier_provider (ws vendor base key : string) (made : Z) : ProviderRow :=
  {| pv_Workspace := ws; pv_Vendor := vendor; pv_Name := vendor; pv_BaseURL := base; pv_APIKey := key; pv_CreatedAt := made |}.

Definition cols (vendor model base key : string) : TierColumns :=
  {| co_Legacy := {| lt_Provider := vendor; lt_Model := model; lt_BaseURL := base; lt_Key := key |}; co_Window := 0; co_FallbackModel := ""; co_Caps := false; co_FallbackCaps := false |}.

(** "ws" has two providers; "old" has a row from before; "bare" has an endpoint and no key. *)
Definition tier_db0 : tier_db :=
  {| pool := {| book := tier_book;
                providers := {["p1" := tier_provider "ws" "openai" "https://proxy" "sk-1" 1; "p2" := tier_provider "ws" "anthropic" "" "sk-2" 2;
                               "p3" := tier_provider "bare" "openai" "https://theirs" "" 3]};
                ProviderAccounts.tiers := {["ws" := ["p1"; "p2"; ""; ""; ""; ""]; "bare" := ["p3"; "p3"; ""; ""; ""; ""]]}; pooled := ∅ |};
     rows := {["ws" := {| tr_Flash := cols "openai" "big" "https://proxy" ""; tr_Lite := cols "anthropic" "small" "" ""; tr_Pro := cols "" "" "" ""; tr_ModelFallback := true |};
               "bare" := {| tr_Flash := cols "openai" "big" "https://theirs" ""; tr_Lite := cols "openai" "small" "https://theirs" ""; tr_Pro := cols "" "" "" ""; tr_ModelFallback := true |};
               "old" := {| tr_Flash := cols "openai" "big" "" "k-1"; tr_Lite := cols "anthropic" "small" "" "k-2"; tr_Pro := cols "" "pro" "" ""; tr_ModelFallback := false |}]} |}.

Definition host_config : HostConfig :=
  {| DefaultModelProvider := "openai"; DefaultModelBaseURL := "https://host"; DefaultModelAPIKey := "host-key"; DefaultModelFlash := ""; DefaultModelLite := ""; DefaultModelPro := "" |}.
Definition tier_host : HostModelDefaults := HostModelDefaultsFromConfig host_config.
Definition all_open (key : string) : bool := true.
Definition all_build (c : ClientSpec) : bool := true.
Definition drawn : three_ids := ("x", "y", "z").
Definition draws (n : nat) : three_ids := drawn.

Definition sent (r : result error (list ModelRung)) : result error (list (string * string * string)) :=
  match r with Ok ms => Ok (map (fun m => (cl_Name (mr_Provider m), cl_BaseURL (mr_Provider m), cl_APIKey (mr_Provider m))) ms) | Err e => Err e end.

Definition run (ws task : string) (db : tier_db) : result error (list (string * string * string)) := sent (run_rungs tier_host all_open drawn true "" all_build ws task db).

(** A workspace that has only an endpoint runs on the host's key at the host's endpoint. *)
Example bare_runs_on_the_host : run "bare" "lite" tier_db0 = Ok [("openai", "https://host", "host-key")].
Proof. vm_compute. reflexivity. Qed.

Lemma host_key_stays_home_witness : exists ms m caps source, run_rungs tier_host all_open drawn true "" all_build "bare" "lite" tier_db0 = Ok ms /\ m ∈ ms /\
  mr_Provider m = buildProviderForModel "" "openai" "https://host" "host-key" source "" caps.
Proof.
  destruct (run_rungs tier_host all_open drawn true "" all_build "bare" "lite" tier_db0) as [ms|e] eqn:E; [|vm_compute in E; discriminate E].
  pose proof (host_key_stays_home host_config all_open drawn true "" all_build "bare" "lite" tier_db0 ms) as Ht.
  assert (Hms : exists m, m ∈ ms /\ cl_APIKey (mr_Provider m) = "host-key") by (vm_compute in E; injection E as <-; eexists; split; [left|reflexivity]).
  destruct Hms as (m & Hm & Hk). exists ms, m. destruct (Ht m) as (caps & source & Hc); [|exact E|exact Hm|discriminate|exact Hk|exists caps, source; split; [reflexivity|split; [exact Hm|exact Hc]]].
  intros b Hb. vm_compute in Hb. injection Hb as <-. split; intros p Hp; apply list_elem_of_singleton in Hp as ->; [split; reflexivity|discriminate].
Defined.

Lemma key_goes_with_its_row_witness : exists r p, rg_ProviderID r = "p2" /\ rg_APIKey r = run_key p /\ rg_Provider r = "anthropic" /\ run_key p = "sk-2".
Proof.
  destruct (WorkspaceTiersForRun tier_host all_open drawn "ws" tier_db0) as [[cfg keys]|e] eqn:Ht; [|vm_compute in Ht; discriminate Ht].
  destruct (loadBook all_open drawn true "ws" tier_db0) as [b|e] eqn:Hb; [|vm_compute in Hb; discriminate Hb].
  pose proof (key_goes_with_its_row host_config all_open drawn true "ws" tier_db0 cfg keys b "lite" (tc_Rung (resolve (TierSetFromWorkspace cfg keys true) TierLite)) Ht Hb) as Hrow.
  vm_compute in Ht, Hb. injection Ht as <- <-. injection Hb as <-. eexists _, _. split; [|split; [apply Hrow|split; reflexivity]]; [reflexivity| | |].
  - intros p Hp. repeat (apply elem_of_cons in Hp as [->|Hp]; [split; reflexivity|]). by apply elem_of_nil in Hp.
  - left.
  - discriminate.
Defined.

Definition p2_now : Rung := row_candidate
  {| pr_ID := "p2"; pr_Workspace := "ws"; pr_Vendor := "anthropic"; pr_Name := "anthropic"; pr_BaseURL := ""; pr_APIKey := "sk-new"; pr_HasKey := true; pr_AuthType := "api_key";
     pr_AccountCount := 0 |}.

Lemma refreshed_key_of_the_row : nativeRefreshedKey "p2" "anthropic" "" [p2_now] = Ok "sk-new" /\ exists c, c ∈ [p2_now] /\ on_route "p2" "anthropic" "" c /\ rg_APIKey c = "sk-new".
Proof. split; [reflexivity|]. exact (proj1 (proj2 (refresh_keeps_the_route "p2" "anthropic" "" [p2_now] "sk-new" eq_refl))). Defined.

(** ** The upgrade *)

Definition tier_made (ws : string) (n : nat) : Z := 10 + Z.of_nat n.
Definition tier_fresh (ws : string) : three_ids := if (ws =? "old")%string then ("i1", "i2", "i3") else if (ws =? "ws")%string then ("j1", "j2", "j3") else ("l1", "l2", "l3").
Definition upgraded_db0 : tier_db := (backfillWorkspaceProviders tier_made tier_fresh tier_db0).1.

Example old_is_upgraded : (fun r => (pv_Workspace r, pv_Vendor r, pv_APIKey r)) <$> providers (pool upgraded_db0) !! "i1" = Some ("old", "openai", "k-1") /\
  (fun r => (pv_Workspace r, pv_Vendor r, pv_APIKey r)) <$> providers (pool upgraded_db0) !! "i2" = Some ("old", "anthropic", "k-2") /\
  refs_of "old" upgraded_db0 = ["i1"; "i2"; "i1"; ""; ""; ""] /\ run "old" "lite" upgraded_db0 = Ok [("anthropic", "", "k-2")].
Proof. vm_compute. by split_and!. Qed.

Lemma backfill_keeps_the_runs_witness : backfillWorkspaceProviders tier_made tier_fresh tier_db0 = (upgraded_db0, Ok tt) /\
  WorkspaceTiersForRun tier_host all_open drawn "old" upgraded_db0 = WorkspaceTiersForRun tier_host all_open ("i1", "i2", "i3") "old" tier_db0.
Proof.
  split; [vm_compute; reflexivity|].
  assert (Hws : forall w, w ∈ map fst (map_to_list (rows tier_db0)) -> w = "ws" \/ w = "bare" \/ w = "old").
  { intros w Hw. vm_compute in Hw. repeat (apply elem_of_cons in Hw as [->|Hw]; [tauto|]). by apply elem_of_nil in Hw. }
  apply (backfill_keeps_the_runs tier_host all_open tier_made tier_fresh "old" drawn tier_db0 upgraded_db0); [vm_compute; reflexivity|split| |].
  - intros w Hw. split; [|intros i j Hij; unfold tier_made; lia]. apply Hws in Hw as [->|[->| ->]]; (split; [apply (bool_decide_unpack _); vm_compute; exact I|]); intros id Hid;
      repeat (apply elem_of_cons in Hid as [->|Hid]; [vm_compute; reflexivity|]); by apply elem_of_nil in Hid.
  - intros w w' id Hw Hw' Hne Hi Hi'. apply Hws in Hw as [->|[->| ->]], Hw' as [->|[->| ->]]; try done; cbn in Hi, Hi'; rewrite !elem_of_cons, elem_of_nil in Hi, Hi'; intuition congruence.
  - intros x y Hx. vm_compute in Hx. by apply elem_of_nil in Hx.
  - intros r Hr _. vm_compute in Hr. injection Hr as <-. constructor; [reflexivity| |reflexivity|].
    + intros c Hc. repeat (apply elem_of_cons in Hc as [->|Hc]; [by split_and!|]). by apply elem_of_nil in Hc.
    + intros p Hp. vm_compute in Hp. repeat (apply elem_of_cons in Hp as [->|Hp]; [by split_and!|]). by apply elem_of_nil in Hp.
Defined.

(** ** Saving *)

Definition choice (provider model fallback fbProvider : string) : TierSelection :=
  {| ts_ProviderID := provider; ts_Model := model; ts_ContextWindow := 9000; ts_Capabilities := true; ts_FallbackModel := fallback; ts_FallbackProviderID := fbProvider;
     ts_FallbackCapabilities := false |}.

Definition chosen : WorkspaceTierSelection :=
  {| sel_Flash := choice "p2" "opus" "big" "p1"; sel_Lite := choice "p1" "small" "" ""; sel_Pro := choice "" "" "" ""; sel_ModelFallback := true |}.

(** Nobody does anything between two calls. *)
Definition nobody (n : nat) (db : tier_db) : tier_db := db.
Definition save_from (others : nat -> tier_db -> tier_db) (sel : WorkspaceTierSelection) (db : tier_db) : tier_db * result error WorkspaceModelTiers :=
  SaveWorkspaceTierSelection tier_host all_open draws others "ann" "ws" sel db.
Definition saved_db0 : tier_db := (save_from nobody chosen tier_db0).1.

Example saved_run : run "ws" "flash" saved_db0 = Ok [("anthropic", "", "sk-2"); ("openai", "https://proxy", "sk-1")].
Proof. vm_compute. reflexivity. Qed.

Lemma saved_selection_is_loaded_witness : exists b, loadBook all_open drawn true "ws" saved_db0 = Ok b /\ bk_Sel b = stored chosen.
Proof.
  destruct (save_from nobody chosen tier_db0) as [d [cfg|e]] eqn:Hs; [|vm_compute in Hs; discriminate Hs].
  pose proof (saved_selection_is_loaded tier_host all_open draws nobody "ann" "ws" chosen tier_db0 d cfg Hs) as Ht.
  destruct Ht as (written & Hd & _ & Hlater & _).
  - vm_compute. discriminate.
  - intros id row Hrow. apply elem_of_map_to_list in Hrow. vm_compute in Hrow. repeat (apply elem_of_cons in Hrow as [[= -> ->]|Hrow]; [reflexivity|]). by apply elem_of_nil in Hrow.
  - destruct (loadBook all_open drawn true "ws" saved_db0) as [b|e] eqn:Hb; [|vm_compute in Hb; discriminate Hb]. exists b. split; [reflexivity|].
    assert (Hsaved : saved_db0 = d) by (unfold saved_db0; by rewrite Hs).
    apply (Hlater saved_db0 drawn true b); [rewrite Hsaved, Hd; by split|vm_compute; discriminate|exact Hb].
Defined.

(** ** Corners *)

(** A lite tier on a row without an endpoint of its own, under a flash tier that has one: the
    row's key goes to the endpoint of flash, and a refresh, which goes by the row, refuses. *)
Example key_at_the_other_endpoint :
  (fun ms => map (fun x => (x.1.2, x.2)) ms) <$> match run "ws" "lite" (with_pool (with_providers (<["p2" := tier_provider "ws" "openai" "" "sk-2" 2]> (providers (pool tier_db0))) (pool tier_db0)) tier_db0)
    with Ok ms => Some ms | Err _ => None end = Some [("https://proxy", "sk-2")] /\
  nativeKeyRefresher tier_host all_open drawn "ws" "p2" "openai" "https://proxy"
    (with_pool (with_providers (<["p2" := tier_provider "ws" "openai" "" "sk-2" 2]> (providers (pool tier_db0))) (pool tier_db0)) tier_db0) =
  Err (ENew "native provider route changed; explicit migration required").
Proof. vm_compute. by split. Qed.

Definition old_input (key : string) : TierInput :=
  {| ti_Provider := "openai"; ti_Model := "big"; ti_BaseURL := ""; ti_APIKey := key; ti_ContextWindow := 0; ti_Capabilities := false; ti_FallbackModel := ""; ti_FallbackProviderID := "";
     ti_FallbackCapabilities := false; ti_ProviderID := "" |}.
Definition old_write : WorkspaceModelTiersInput := {| inp_Flash := old_input "sk-new"; inp_Lite := old_input ""; inp_Pro := old_input ""; inp_ModelFallback := true |}.
Definition write_old (db : tier_db) : tier_db := (UpsertWorkspaceModelTiers tier_host all_open true tier_made tier_fresh draws nobody "ann" "ws" old_write db).1.

Definition no_host : HostModelDefaults := HostModelDefaultsFromConfig
  {| DefaultModelProvider := ""; DefaultModelBaseURL := ""; DefaultModelAPIKey := ""; DefaultModelFlash := ""; DefaultModelLite := ""; DefaultModelPro := "" |}.

Definition empty_ws : tier_db := {| pool := {| book := tier_book; providers := ∅; ProviderAccounts.tiers := ∅; pooled := ∅ |}; rows := ∅ |}.
Definition bare_run (db : tier_db) : result error (list (string * string * string)) := sent (run_rungs no_host all_open drawn true "" all_build "ws" "flash" db).

(** A client of the old form writes its key twice: the first write runs, the second unpoints
    the tiers and ignores the key. *)
Example old_form_twice : bare_run (write_old empty_ws) = Ok [("openai", "", "sk-new")] /\
  bare_run (write_old (write_old empty_ws)) = Err (ENew "no workspace model key configured").
Proof. vm_compute. by split. Qed.

(** The providers an upgrade made are deleted, and the key of the old row is back. *)
Definition delete_all (db : tier_db) : tier_db := with_pool (fold_left (fun d id => (DeleteWorkspaceProvider "ann" "old" id d).1) ["i1"; "i2"] (pool db)) db.
Example deleted_key_is_back : providers_of "old" (delete_all upgraded_db0) = [] /\ run "old" "flash" (delete_all upgraded_db0) = Ok [("openai", "", "k-1")].
Proof. vm_compute. by split. Qed.

(** The refresher that goes by the vendor's name hands one row the key of another. *)
Example key_by_vendor_name : let two := with_pool (with_providers (<["p2" := tier_provider "ws" "openai" "https://second" "sk-2" 2]> (providers (pool tier_db0))) (pool tier_db0)) tier_db0 in
  match WorkspaceTiersForRun tier_host all_open drawn "ws" two with
  | Ok (cfg, keys) => KeyFor (TierSetFromWorkspace cfg keys true) "openai" = Ok "sk-2" /\ rg_APIKey (tc_Rung (resolve (TierSetFromWorkspace cfg keys true) TierFlash)) = "sk-1"
  | Err _ => False
  end.
Proof. vm_compute. by split. Qed.

(** A provider deleted by its id in capitals is gone; the tier keeps pointing at it. *)
Example delete_in_capitals : let d := (DeleteWorkspaceProvider "ann" "ws" "P1" (pool tier_db0)).1 in
  providers d !! "p1" = None /\ ProviderAccounts.tiers d !! "ws" = Some ["p1"; "p2"; ""; ""; ""; ""].
Proof. vm_compute. by split. Qed.

(** One of two keys does not decrypt.  Before the upgrade the runs go without it; after it the
    workspace has none. *)
Definition all_but_k2 (key : string) : bool := negb (key =? "k-2")%string.
Definition run_without_k2 (db : tier_db) : result error (list (string * string * string)) := sent (run_rungs tier_host all_but_k2 drawn true "" all_build "old" "flash" db).
Example sealed_key_fails_after_the_upgrade : run_without_k2 tier_db0 = Ok [("openai", "", "k-1")] /\ exists e, run_without_k2 upgraded_db0 = Err e.
Proof. split; [vm_compute; reflexivity|]. eexists. vm_compute. reflexivity. Qed.

(** A workspace without providers takes a selection that names none, and reads another. *)
Definition models_only : WorkspaceTierSelection :=
  {| sel_Flash := choice "" "opus" "big" ""; sel_Lite := choice "" "small" "" ""; sel_Pro := choice "" "" "" ""; sel_ModelFallback := true |}.
Example selection_without_providers_is_lost : (exists cfg, (save_from nobody models_only empty_ws).2 = Ok cfg) /\
  match loadBook all_open drawn true "ws" (save_from nobody models_only empty_ws).1 with
  | Ok b => ts_ContextWindow (sel_Flash (bk_Sel b)) = 0 /\ ts_FallbackModel (sel_Flash (bk_Sel b)) = "" /\ ts_ProviderID (sel_Flash (bk_Sel b)) <> ""
  | Err _ => False
  end.
Proof. split; [eexists; vm_compute; reflexivity|]. vm_compute. split_and!; [done|done|discriminate]. Qed.

(** The provider is deleted after the selection that names it was checked: the tier is stored
    with the id of nothing. *)
Definition deleting (n : nat) (db : tier_db) : tier_db := if (n =? 1)%nat then with_pool (DeleteWorkspaceProvider "ann" "ws" "p2" (pool db)).1 db else db.
Example deleted_between_check_and_write : let db := (save_from deleting chosen tier_db0).1 in
  (exists cfg, (save_from deleting chosen tier_db0).2 = Ok cfg) /\ ts_ProviderID (sel_Flash (loaded_selection "ws" db)) = "p2" /\ providers (pool db) !! "p2" = None.
Proof. split_and!; [eexists|..]; vm_compute; reflexivity. Qed.
